(* ===== verification/_CoqProject ===== *)
-Q . S2P
Prelude.v
Domain.v
BoardApi.v
Wire.v
SchedTypes.v
Queue.v
SchedState.v
Batch.v
Scheduler.v
Outputs.v
Planner.v
TriggerProfile.v
TriggerDecoder.v
TriggerProfiled.v
Lowering.v
Capture.v
Bytes.v
KvStore.v
RamKv.v
Serial.v
Control.v
Semantic.v
SemanticFuel.v
SpecOracle.v
SemanticSchedule.v
ExpertTrigger.v
Calibration.v
Engine.v
EngineStep.v
EngineRun.v
Observations.v
CanTypes.v
CanTransport.v
CanReassembly.v
CanObd2.v
CanObd2Spec.v
CanRoster.v
CanRosterRun.v
Sensors.v
BoardInputs.v
Obd2History.v
Obd2Snapshot.v
FlashKv.v
Obd2Service.v
BoardTelemetry.v
BoardAdapter.v
BoardRun.v
BoardDiag.v
BoardTrace.v
TsPages.v
TsCodecs.v
TsStore.v
TsKept.v
TsServer.v
TsServed.v
TsSession.v
TsPersist.v
TsBurn.v
TsBoard.v
