(* ===== verification/Prelude.v ===== *)
(** * Pipoco: a verification library for a Rust engine controller

    Pipoco splits an engine control unit into crates.  The ones modelled here turn the
    edges of a crank wheel into an engine position, engine positions into timed output
    windows, and windows into pin levels, and stop doing so when something is wrong:

    - a trigger decoder (crates/trigger) counts the teeth of a missing-tooth wheel, finds
      its gap, and publishes how much it knows about engine time as an authority
      (crates/domain/src/authority.rs);
    - planners (crates/scheduler/src/planner.rs) turn the angle and speed of the crank and
      the intent of a spark or an injection into a pair of times on an output;
    - a scheduler (crates/scheduler/src/state.rs) owns the outputs: it grants a window of
      time on an output only if no window held overlaps it, and it carries the frontier, a
      horizon with a heartbeat deadline and a permit mask without which nothing may be
      actuated;
    - a queue (crates/scheduler/src/queue.rs) holds the transitions of the granted windows
      and drains those that are due;
    - an adapter (boards/common/src/outputs) couples queue and frontier, and applies drained
      transitions to banks of pins;
    - a wire codec (crates/board-api/src/wire.rs) carries commands and events to a timing
      island, a second processor that may execute them;
    - the runtime (crates/runtime) puts what it decided into actions, and lowers a batch of
      them to that adapter, to board batches, or to the island;
    - control strategies (crates/control) compute pulse widths, ignition plans, enrichment,
      trims and the allowed torque, each from a table or a small state machine;
    - sensors (crates/calibration/src/sensors, boards/common/src/sensors) turn counts of a
      converter into engineering units, and board adapters (boards/common/src) turn edges and
      frames of sensors into the events and samples the runtime takes;
    - stores (boards/common/src/kv) keep the tune in two flash slots, and a serial protocol
      (crates/ts) lets a tuning program read and write it: a server answers the frames of a
      port from a store of pages, a calibration session stages what changes the engine, and a
      burn keeps the setup;
    - a CAN transport and its services (crates/transport, boards/common/src/transport_service.rs)
      answer the diagnostic requests of a tester from a history of faults that survives a
      power cycle;
    - the board adapter (boards/common/src/adapter.rs) composes a board: it feeds samples and
      edges to a runtime, delivers the actions of each step to the ports of the board, watches
      the sensors for faults, and shows what it did.

    ** Files

    - [Prelude] (this file): the result type and its notation, machine integers as [Z] with
      the operations of Rust written out, slots of fixed arrays, shared lemmas and tactics.
    - [Domain] (crates/domain/src): checked constructors, [EngineTimeAuthority], [DiagLog],
      and the vehicle-speed decoder ([VehicleSpeed]).
    - [BoardApi] (crates/board-api/src: timing_island.rs, output_profiles.rs, safety.rs,
      telemetry.rs): messages, permit masks and output profiles, a module per type.
    - [Wire] (crates/board-api/src/wire.rs): every encoder and decoder, the class
      [WireCodec] with its laws, and an instance for each of the four messages.
    - [SchedTypes] (crates/scheduler/src: types.rs, profiles.rs, and the value types of
      queue.rs): plans, transitions, the order on them, comparisons of a wrapping clock.
    - [Queue] (crates/scheduler/src/queue.rs): [DrainBuffer], [Metrics], [Queue], and the
      class [Frontier] with the laws the queue needs of whoever grants permits.
    - [SchedState] (crates/scheduler/src: state.rs, conformance.rs): [SchedulerState] with
      an operation per method, and the ownership invariant with its preservation.
    - [Batch] (the fixed_batch! macro of crates/board-api/src/timing_island.rs): the class
      [AppendBuffer] with its laws, for the batches and for the queue's drain buffer.
    - [Scheduler]: the frontier's invariant, the instance of [FrontierLaws], the public
      operations of the scheduler as the steps [Op.t] of a state machine, and its runs.
    - [Outputs] (boards/common/src/outputs: scheduler.rs, pins.rs): [Pins] over the class
      [ScheduledPin] of pin drivers, and [Adapter].
    - [Planner] (crates/scheduler/src/planner.rs): the four planners.
    - [TriggerProfile] (crates/trigger/src: math.rs, diag.rs, edge_batch.rs, profile.rs).
    - [TriggerDecoder] (crates/trigger/src/missing_tooth.rs): [Decoder].
    - [TriggerProfiled] (crates/trigger/src/profiled.rs): [Profiled], over [Decoder].
    - [Lowering] (crates/runtime/src: actions.rs, lowering.rs): [Action], [ActionBatch], the
      export to observers, and the three lowerings, the last onto [Outputs.Adapter].
    - [Capture] (crates/io/src/capture.rs): the ring of captured timestamps, against a
      bounded queue.
    - [Bytes]: byte lists, little-endian words and the CRC-16 that store and protocol share.
    - [KvStore] (boards/common/src/kv/ab.rs): slots, boot scan and reads, and commits on the
      flash device that the fault-injection test beside it (tests/kv_ab_fault_injection.rs)
      renders.
    - [RamKv] (crates/calibration/src/kv.rs, boards/common/src/kv/ram.rs): the class
      [KvStore] of stores with its laws, the weaker [KvHonest] of stores that may refuse, and
      the two stores in memory as instances.
    - [Serial] (crates/ts/src: proto.rs, serial.rs): frames and the assembler, against a
      queue of bytes.
    - [Control] (crates/control/src): a module per strategy.
    - [Semantic] (crates/runtime/src/semantic: the tables of types.rs, the lookups of fuel.rs
      and schedule.rs): axes, curves and tables, interpolation, and the class [LerpWidth] of
      the three widths it is instantiated at.
    - [SemanticFuel] (crates/runtime/src/semantic/fuel.rs, the calibration of types.rs,
      crates/calibration/src/runtime_tune.rs): the fuel strategy and its state.
    - [SpecOracle] (crates/spec/src): the repository's specification of cuts and controllers,
      and that the fuel strategy follows it.
    - [SemanticSchedule] (crates/runtime/src: semantic/schedule.rs, semantic/torque.rs,
      outputs.rs): the angles and events of a cycle, and the torque pipeline.
    - [ExpertTrigger] (crates/calibration/src/expert_trigger.rs): the trigger setup a tuner
      edits, the class [CodeEnum] of enums with byte codes, validation and the record.
    - [Calibration] (crates/calibration/src/model.rs): active and staged calibration, the
      package with its checksum, review, migration and wire format.
    - [Engine] (crates/runtime/src: observations.rs, engine.rs, engine/config.rs,
      engine/control.rs; crates/control/src/types.rs): the state of the runtime, its
      configuration, and the composition of one control plan.
    - [EngineStep] (crates/runtime/src/engine: actions.rs, step.rs, snapshot.rs): from a
      control plan to reserved windows and actions, and the entries of a step.
    - [EngineRun]: the operations of the engine as steps [EngineOp.t], its invariant, and
      the theorems on its runs.
    - [Observations] (crates/runtime/src/observations.rs): what is shown of a step and of the
      published snapshot.
    - [CanTypes] (crates/transport/src: message.rs, lib.rs, the vocabulary of can.rs): messages,
      routes, filters, device profiles, and the class [Postcard] of serializers.
    - [CanTransport] (crates/transport/src/can.rs): sending and receiving over the class
      [CanDevice] of bus devices.
    - [CanReassembly]: the receiver against a finite map of streams, and the round trip.
    - [CanObd2] (can.rs): the OBD-II services; [CanObd2Spec]: the table of what they answer.
    - [CanRoster] (can.rs): heartbeats, the registry of modules and its log; [CanRosterRun]:
      the registry over time.

    - [Sensors] (crates/calibration/src/sensors; boards/common/src/sensors: map.rs,
      adc_pipeline.rs): conversion, calibration curves, every channel, the slew limit.
    - [BoardInputs] (boards/common/src: trigger_adapter.rs, live_inputs.rs, sensor_sample.rs,
      control_inputs.rs, sensors/vss.rs): the adapters, over classes of sources.
    - [Obd2History] (boards/common/src/transport_service.rs, crates/spec/src/fault.rs): faults
      and sensors as diagnostic events, and the retained history.
    - [Obd2Snapshot] (transport_service.rs): the bytes of the history, the record in a page,
      and the classes [HistoryStore] and [HistoryOwner] with the state between them.
    - [FlashKv] (boards/rp2040-pico/src/flash_kv.rs): the flash store of the rp2040, over the
      slots of [KvStore] and the record of [Obd2Snapshot], and that it keeps what it accepts.
    - [Obd2Service] (transport_service.rs): identities, and the services over the classes
      [Transport] and [LiveObd2RequestOwner].
    - [BoardTelemetry] (crates/board-api/src/telemetry.rs, the mappings of
      boards/common/src/adapter.rs): what a board shows of its runtime and scheduler.
    - [BoardAdapter] (adapter.rs): the adapter over a class for each of its ports, and the
      instances by which it owns the diagnostics on the bus.
    - [BoardRun]: runs of a board as sequences of [BoardOp.t], the specification of its
      diagnostic events, and the class [LoggedPorts]; [BoardDiag]: that the events are those.
    - [BoardTrace] (adapter.rs): the observability traces, what a sample holds, and the
      operations that push one; a trace against a bounded queue.
    - [TsPages] (crates/ts/src/pages: registry.rs, dto.rs, codecs/): the pages of a tuning
      program and their encodings; [TsCodecs]: the class [PageCodec] of their laws.
    - [TsStore] (crates/ts/src/pages: stores/, ecu_store.rs; boards/common/src/ts/page_store.rs):
      the class [PageStore] and its instances, up to the store of the whole tune; [TsKept]: the
      layout of every page, and that what the store of the whole tune accepts is there.
    - [TsServer] (crates/ts/src: server.rs, outpc.rs; boards/common/src/ts: service.rs,
      outpc.rs): the server of the commands and the service of a port; [TsServed]: what they do,
      over any store that obeys the class [PageStoreLaws].
    - [TsSession] (crates/ts/src/runtime_view.rs): the session that stages and commits a
      calibration.
    - [TsPersist] (crates/ts/src/persistence.rs): the burn and load of pages and packages, the
      store of a board and the store of its commands, over the classes [PageStoreProvider] and
      [CalibrationPackageSession]; [TsBurn]: what a burn keeps; [TsBoard]: that both stores obey
      the laws of [TsServed], so that its theorems hold of the server of a board.

    ** How the code is rendered

    A struct is a [Record] of the same name or, for a long name, of a short one inside a
    module of the component; an enum is an [Inductive].  A method that takes [&mut self]
    returns the new state, beside its result if it has one.  A [Result] is [Result A E]; a
    Rust panic (division by zero, an index out of bounds, [unreachable!]) is [None] of an
    outer [option], and the theorems say where it cannot happen.  Integers are [Z]; every
    operation that wraps or saturates in the source is written as such ([wrapping_sub],
    [saturating_add], [as_unsigned]), and [u8], [u16], [u32] are the range predicates the
    theorems assume of inputs.  An array of a const-generic length is a list whose length is
    the parameter.  Loops are structural recursions over the list they walk.  One loop carries
    fuel, the [loop] of [drain_due]: one unit more than the queue has slots, which is
    enough since each round empties a slot or ends it; [Queue.drain_due_spec] states that it
    ended because the buffer was full or nothing due was left.  The search for the first
    byte of a frame carries one unit more than the buffer holds.  Pin
    drivers, which the boards supply, are the class [ScheduledPin]; nothing is assumed of
    them, and they may fail.

    ** What the theorems show

    - Ownership.  Along every run of the scheduler two windows on one output never overlap,
      and channel bits, groups, counters and mode are functions of the windows held
      ([Scheduler.scheduler_run_ownership]); admission decides as specified on every branch
      ([schedule_injection_spec], [schedule_ignition_spec]); a closing transition releases
      one window ([drained_transition_releases]).  Through the adapter the windows are
      exactly the closing transitions pending in the queue
      ([Outputs.adapter_ownership_coherent]), and a batch is admitted whole or not at all
      ([schedule_output_batch_atomic]).
    - Permits.  A live horizon is the last accepted one with a heartbeat armed
      ([scheduler_run_frontier]); identifiers only grow ([horizon_ids_strictly_increase]);
      withdrawn permits return only with an accepted horizon ([permits_need_commit]); a
      drain actuates only what is due, and through a dead or expired frontier nothing, which
      empties the queue ([Scheduler.drain_with_frontier_safe]); a pin failure withdraws
      everything ([Outputs.apply_failure_fails_closed]).
    - The queue.  What enters, leaves, is cancelled, counted and refused
      ([drain_due_spec], [drain_due_metrics], [enqueue_transition_spec],
      [enqueue_export_atomic], [cancel_spec], [queue_high_water_mark_sound]).
    - Engine position.  The decoder's invariant under any input
      ([decoder_run_invariant]), that it locks on a turning wheel and holds
      ([decoder_locks_and_holds]), judges each edge ([locked_edge_verdict],
      [cam_edge_verdict]) and interpolates the angle ([crank_angle_interpolates]); that the
      profiled decoder withholds authority until its startup revolutions are counted
      ([profiled_authority_gated], [startup_revolutions_counted]).
    - Planning.  Each planner's window is where the intent puts it, to the microsecond of
      the integer arithmetic, and a planned spark is admitted and exported as planned.
    - Messages.  Round trips of the four wire messages and what their decoders accept.
    - Actions.  A batch of actions is executed all or nothing
      ([Lowering.action_batch_all_or_nothing]), lowered atomically
      ([lowering_batch_atomic]), and means the same on each route ([lowering_routes_agree]).
    - Persistence.  A power loss during a write leaves the committed tune or, where every page
      of the new one has its checksum, the new one ([KvStore.interrupted_commit_keeps_tune]); boot selects the newest intact slot
      ([scan_selects_newest]); what is written reads back ([serialize_slot_roundtrip]) and
      local corruption of a page is noticed ([page_corruption_detected], by the error
      detection of the CRC proved in [Bytes]).
    - Streams.  The capture ring and the frame assembler refine queues
      ([capture_refines_fifo], [assembler_refines_stream]); polling comes to an end
      ([polling_terminates]), delivers a frame however it was cut
      ([chunked_frame_delivered]) and rejects a corrupt one ([corrupt_frame_rejected]).
    - Control.  Bounds of every computed quantity, the torque arbiter as a minimum, the
      justification of a deceleration cut by the samples before it, hysteresis, and where
      the arithmetic overflows ([startup_overflow_iff]).
    - Fuel strategy.  An interpolated value lies between the cells around it
      ([Semantic.table_lookup_interpolates]); over any run of cycles the evaluator succeeds
      and keeps its state and outputs in bounds ([SemanticFuel.fuel_run_bounded]); its cuts
      and controllers are those of the specification crate
      ([SpecOracle.cut_arbitration_matches_oracle], [controllers_match_oracle]); the events
      of a cycle are each cylinder's in its turn, its injector's and its coil's, and only with
      full authority, in the running engine and without the cut of either
      ([SemanticSchedule.schedule_events_gated]), at angles that obey the phase law
      ([schedule_angles_lawful]).
    - Calibration.  The record and the package are bijections between valid data and
      canonical bytes ([ExpertTrigger.expert_record_bijective],
      [Calibration.package_wire_bijective]); no sequence of accepted edits forges a certified
      profile ([certified_profile_unforgeable]); a setup grants no more authority than the
      decoder has ([expert_authority_sound]); the checksum notices a changed byte
      ([checksum_detects_byte]); a migration keeps the calibration and its target
      ([package_migration_sound]).
    - The engine.  Each step shuts down, cancels, holds or drives, and drives only when
      locked, authorised and not cut ([EngineRun.engine_step_outputs]); its invariant along
      every sequence of calls ([engine_run_invariant]); the windows it armed are never
      released ([engine_never_releases_windows]); the transitions shown of a step are those
      it armed ([Observations.step_transitions_reported]).
    - The CAN bus.  The receiver refines a map of streams and never panics
      ([CanReassembly.try_receive_refines]); what is sent is delivered whatever is interleaved
      with it ([interleaved_message_delivered]); abandoned streams block the receiver
      ([abandoned_streams_block]).
    - Services on the bus.  Every OBD-II request is answered as a table says
      ([CanObd2Spec.obd2_answers_as_specified]) and what is announced is answered
      ([announcements_honoured]).  The roster of modules refines a list of modules with its
      history ([CanRosterRun.roster_run_refines]); a reader of its log misses nothing
      unknowingly ([unread_changes_exact]); what is stale is not trusted
      ([stale_modules_lose_trust]).
    - Sensors.  Each channel reads what its calibration says of the voltage of its own counts,
      without overflow and within its field, the battery apart ([Sensors.pipeline_readings]); an open or shorted thermistor
      reads the end of its curve ([thermistor_failures_read_extremes]); the slew limit arrives
      after exactly so many samples, or never ([slew_arrival_exact]).
    - Adapters.  The event of each edge, its authority and the live summary agree
      ([BoardInputs.trigger_edges_consistent]).
    - Retained diagnostics.  The history is the first codes and the first frame since the last
      clear ([Obd2History.retained_history_exact]), survives a power cycle
      ([Obd2Snapshot.history_survives_power_cycle]), is written only when it changed
      ([persistence_writes_changes_only]), and is cleared only after the tester has been
      answered ([Obd2Service.requests_answered_then_cleared]).
    - The board.  The diagnostics of a board are exact: after any run, restores at boot
      included, its log, its history and its detectors are those of the specification ([BoardDiag.board_diagnostics_exact]).  Its
      ports are driven by ticks only, in the order of the actions, and the watchdog is fed only
      when all were accepted ([BoardRun.events_drive_ports]).  A run of it is a run of its
      engine, to which it reports no fault ([board_engine_run]).  Its traces are bounded
      queues ([BoardTrace.trace_refines_queue]).
    - Tuning.  No frame makes the server fail or leaves its store ill-formed
      ([TsServed.server_run_safe], of a board [TsBoard.board_server_safe]); while the engine
      runs every change is refused ([running_engine_refuses]); a table edited over the wire
      reads back ([patched_table_reads_back]), and the service answers the frames of its port
      in their order ([service_answers_stream]).  A page that was accepted reads back, byte for
      byte as its layout says ([TsKept.accepted_page_reads_back]), one that was refused leaves
      the tune as it was, the target ratios apart ([refused_page_write]), and no write touches
      another page ([ecu_page_writes_isolated]).  The active calibration is what was staged at the last
      commit that the rules allowed ([TsSession.active_changes_by_commit]).  A restart restores
      what a burn kept, on any store that keeps what it accepts, and the answer of the burn says
      whether that was all ([TsBurn.burn_survives_restart]): on the stores in memory it is, on
      the flash of the rp2040 the trigger setup is refused ([TsBurn.flash_burn_loses_setup]).
    - Data.  Validation of profiles and authority, the bounded buffers, the diagnostic log,
      the vehicle speed.

    Some theorems record behaviour that a reader of the code would not expect:
    [Queue.drain_ties_by_slot], [Scheduler.heartbeat_at_clock_wrap_never_expires],
    [TriggerDecoder.phase_needs_confirmation_every_gap],
    [TriggerDecoder.duplicate_timestamp_breaks_lock],
    [TriggerProfiled.profiled_angle_ignores_tooth],
    [KvStore.sequence_wrap_discards_commit], [Control.startup_overflow_iff],
    [Control.lambda_gain_overflows], [SemanticFuel.ae_reference_never_moves],
    [SemanticFuel.tune_load_axis_saturates], [SpecOracle.direct_cut_bypasses_latch],
    [Sensors.slew_arrival_exact], [BoardInputs.duplicate_edge_splits_events],
    [Obd2Service.clear_service_clears_first], [BoardDiag.relapse_does_not_matter],
    [BoardRun.board_engine_run], [BoardTelemetry.fault_action_agrees],
    [BoardTelemetry.fuel_cut_reason_agrees], [TsStore.refused_page_write],
    [TsStore.fault_codes_collide], [TsStore.last_fault_code_after_wrap],
    [TsServed.patched_table_reads_back], [TsServed.whole_table_dropped],
    [TsServed.whole_table_unanswered], [TsSession.rewritten_page_commits_unsafely],
    [TsBurn.refused_setup_is_kept], [TsBurn.flash_burn_loses_setup] and
    [Sensors.battery_wraps].

    ** Not modelled

    The compatibility facade (crates/compat), the rest of the specification crate (its model of
    sensors, schedule and protocol), the board crates and the simulator, which assemble what is
    modelled here over hardware or a plant: of the tuning server that is the borrowing of a
    board's statics into a store of pages and the USB adapters.  Of the flash stores of the
    boards the one of the rp2040 is modelled; the others (boards/stm32f4/src/store_support.rs,
    boards/rp2040-pico/src/seq_kv.rs) keep pages of the tune through other drivers, and no
    trigger setup either.  The telemetry frame is plain data; the
    byte-queue transport (crates/transport/src/bbq.rs) wraps a third-party queue.  The board
    adapter is that of a build with the CAN feature; one without has no detectors.  The
    retained history is compared and stored as a value: that an encoder which gives up leaves
    part of its output is kept, and shows only for data that is no sensor message, which no
    caller writes. *)
From stdpp Require Export prelude.
From Stdlib Require Export ZArith Lia.

#[export] Set Default Goal Selector "!".
#[export] Set Warnings "-clear-no-such-hyp".
Open Scope Z_scope.

(** ** Results of fallible operations: Rust's [Result<T, E>]. *)
Inductive Result (A E : Type) : Type :=
| Ok (value : A)
| Err (error : E).
Arguments Ok {A E} value.
Arguments Err {A E} error.

Definition is_ok {A E} (r : Result A E) : bool :=
  match r with Ok _ => true | Err _ => false end.

Definition result_bind {A B E} (r : Result A E) (k : A -> Result B E) : Result B E :=
  match r with Ok a => k a | Err e => Err e end.

(** A chain of fallible operations succeeds only if its first one does. *)
Lemma result_bind_ok {A B E} (r : Result A E) (k : A -> Result B E) b :
  result_bind r k = Ok b -> exists a, r = Ok a /\ k a = Ok b.
Proof. destruct r as [a|e]; [eauto|done]. Qed.

Declare Scope ecu_scope.
Delimit Scope ecu_scope with ecu.
(** Rust's [let x = e?; k]. *)
Notation "'let?' x := e 'in' k" := (result_bind e (fun x => k))
  (at level 10, x name, e at level 100, k at level 200) : ecu_scope.
Open Scope ecu_scope.

#[export] Instance Result_eq_dec {A E} `{EqDecision A, EqDecision E} : EqDecision (Result A E).
Proof. solve_decision. Defined.

(** ** Record update

    [Eta R] gives the eta expansion of the record type [R]; from it the setter of
    a field is found by instance search, and [r <| f := v |>] is the record [r]
    with field [f] replaced, as an assignment to a struct field does. *)
Class Eta (R : Type) := eta_expand : R -> R.
Class FieldSetter {R T : Type} (proj : R -> T) := modify_field : (T -> T) -> R -> R.

Ltac build_setter :=
  lazymatch goal with
  | |- @FieldSetter ?R ?T ?p =>
    exact (fun (f : T -> T) (r : R) => ltac:(
      let b := eval hnf in (eta_expand r) in
      match b with context C [p r] => let b' := context C [f (p r)] in exact b' end))
  end.
#[export] Hint Extern 1 (FieldSetter _) => build_setter : typeclass_instances.

Notation "x <| p := v |>" := (modify_field (proj := p) (fun _ => v) x)
  (at level 1, left associativity, p at level 9, v at level 99).
Notation "x <| p ::= f |>" := (modify_field (proj := p) f x)
  (at level 1, left associativity, p at level 9, f at level 99).

(** ** Machine integers

    A [w]-bit unsigned integer is a [Z] in [0, 2^w); the operations write out
    what Rust's do at the width. *)
Definition fits (w x : Z) : Prop := 0 <= x < 2 ^ w.
Abbreviation u8 := (fits 8).
Abbreviation u16 := (fits 16).
Abbreviation u32 := (fits 32).
Definition i16 (x : Z) : Prop := -32768 <= x < 32768.

Definition u8_max : Z := 255.
Definition u16_max : Z := 65535.
Definition u32_max : Z := 4294967295.
Definition i32_max : Z := 2147483647.

(** [x as uW] *)
Definition as_unsigned (w x : Z) : Z := x mod 2 ^ w.
(** [x as iW] *)
Definition as_signed (w x : Z) : Z :=
  let y := x mod 2 ^ w in if y <? 2 ^ (w - 1) then y else y - 2 ^ w.

Definition wrapping_add (w a b : Z) : Z := (a + b) mod 2 ^ w.
Definition wrapping_sub (w a b : Z) : Z := (a - b) mod 2 ^ w.
Definition saturating_add (w a b : Z) : Z := Z.min (a + b) (2 ^ w - 1).
Definition saturating_mul (w a b : Z) : Z := Z.min (a * b) (2 ^ w - 1).
Definition saturating_sub (a b : Z) : Z := Z.max 0 (a - b).
Definition checked_sub (a b : Z) : option Z := if b <=? a then Some (a - b) else None.
Definition clamp (x lo hi : Z) : Z := if x <? lo then lo else if hi <? x then hi else x.

(** The value of an operation of an unsigned or signed type, or its overflow. *)
Definition chk (w x : Z) : option Z := if (0 <=? x) && (x <? 2 ^ w) then Some x else None.
Definition chk_i (w x : Z) : option Z :=
  if (- 2 ^ (w - 1) <=? x) && (x <? 2 ^ (w - 1)) then Some x else None.
(** [Ord::clamp], which asserts its bounds. *)
Definition ord_clamp (x lo hi : Z) : option Z := if hi <? lo then None else Some (clamp x lo hi).

(** [u128::count_ones] and the like: the number of set bits among the [n] lowest. *)
Fixpoint count_ones (n : nat) (x : Z) : Z :=
  match n with
  | O => 0
  | S n => Z.b2z (Z.testbit x (Z.of_nat n)) + count_ones n x
  end.

Create HintDb ecu.
Create Rewrite HintDb ecu.

(** ** Tactics *)

(** Case analysis on every test of the goal and the hypotheses, with the
    equations it yields put to use. *)
Ltac break :=
  repeat (first [ progress simplify_eq/= | case_match | case_decide ]).

(** Boolean comparisons as propositions. *)
Ltac to_prop :=
  repeat match goal with
  | H : (_ <? _) = true |- _ => apply Z.ltb_lt in H
  | H : (_ <? _) = false |- _ => apply Z.ltb_ge in H
  | H : (_ <=? _) = true |- _ => apply Z.leb_le in H
  | H : (_ <=? _) = false |- _ => apply Z.leb_gt in H
  | H : (_ =? _) = true |- _ => apply Z.eqb_eq in H
  | H : (_ =? _) = false |- _ => apply Z.eqb_neq in H
  | H : (_ && _)%bool = true |- _ => let H1 := fresh in let H2 := fresh in apply andb_true_iff in H as [H1 H2]
  | H : (_ && _)%bool = false |- _ => apply andb_false_iff in H
  | H : (_ || _)%bool = true |- _ => apply orb_true_iff in H
  | H : (_ || _)%bool = false |- _ => let H1 := fresh in let H2 := fresh in apply orb_false_iff in H as [H1 H2]
  | H : negb _ = true |- _ => apply negb_true_iff in H
  | H : negb _ = false |- _ => apply negb_false_iff in H
  | H : bool_decide _ = true |- _ => apply bool_decide_eq_true_1 in H
  | H : bool_decide _ = false |- _ => apply bool_decide_eq_false_1 in H
  end.

(** Linear arithmetic after unfolding the machine-integer operations. *)
Ltac mlia :=
  unfold fits, i16, saturating_add, saturating_sub, saturating_mul, clamp, u8_max, u16_max,
    u32_max, i32_max in *; lia.

(** ** Range lemmas *)
Lemma fits_intro w x : 0 <= x < 2 ^ w -> fits w x.
Proof. done. Qed.

Lemma fits_mod w x : 0 <= w -> fits w (x mod 2 ^ w).
Proof. intros; apply Z.mod_pos_bound; lia. Qed.

Lemma fits_wrapping_sub w a b : 0 <= w -> fits w (wrapping_sub w a b).
Proof. apply fits_mod. Qed.

Lemma fits_wrapping_add w a b : 0 <= w -> fits w (wrapping_add w a b).
Proof. apply fits_mod. Qed.

Lemma fits_saturating_add w a b : fits w a -> fits w b -> fits w (saturating_add w a b).
Proof. unfold fits, saturating_add. lia. Qed.

Lemma fits_saturating_sub w a b : fits w a -> 0 <= b -> fits w (saturating_sub a b).
Proof. unfold fits, saturating_sub. lia. Qed.

Lemma fits_saturating_mul w a b : fits w a -> fits w b -> fits w (saturating_mul w a b).
Proof. unfold fits, saturating_mul. intros; split; [|lia]. apply Z.min_glb; nia. Qed.

Lemma fits_clamp w x lo hi : fits w lo -> fits w hi -> lo <= hi -> fits w (clamp x lo hi).
Proof. unfold fits, clamp. intros. repeat case_match; to_prop; lia. Qed.

Lemma clamp_bounds x lo hi : lo <= hi -> lo <= clamp x lo hi <= hi.
Proof. unfold clamp. intros. repeat case_match; to_prop; lia. Qed.

Lemma as_unsigned_small w x : fits w x -> as_unsigned w x = x.
Proof. apply Z.mod_small. Qed.

Lemma as_signed_small w x : 0 < w -> - 2 ^ (w - 1) <= x < 2 ^ (w - 1) -> as_signed w x = x.
Proof.
  intros Hw Hx. unfold as_signed.
  assert (2 ^ w = 2 * 2 ^ (w - 1)) as Hpow by (rewrite <- Z.pow_succ_r by lia; f_equal; lia).
  destruct (decide (0 <= x)).
  - rewrite Z.mod_small by lia. case_match; to_prop; lia.
  - replace (x mod 2 ^ w) with (x + 2 ^ w); [case_match; to_prop; lia|].
    apply Z.mod_unique with (-1); lia.
Qed.

(** Wrapping subtraction undoes wrapping addition: the elapsed time between two
    readings of a free-running counter, across any number of overflows. *)
Lemma wrapping_sub_add w a d : 0 <= w -> fits w d ->
  wrapping_sub w (wrapping_add w a d) a = d.
Proof.
  intros Hw Hd. unfold wrapping_sub, wrapping_add.
  rewrite Zminus_mod_idemp_l. replace (a + d - a) with d by lia. by apply Z.mod_small.
Qed.

Lemma wrapping_sub_same w a : wrapping_sub w a a = 0.
Proof. unfold wrapping_sub. by rewrite Z.sub_diag, Zmod_0_l. Qed.

(** Two counter readings behind a common reference [n] by [a'] and [b']. *)
Lemma wrapping_sub_via w n a b :
  0 <= w ->
  wrapping_sub w a b = wrapping_sub w (wrapping_sub w n b) (wrapping_sub w n a).
Proof.
  intros Hw. unfold wrapping_sub. rewrite <- Zminus_mod. f_equal. lia.
Qed.

Lemma wrapping_sub_eq_0 w a b : fits w a -> fits w b -> wrapping_sub w a b = 0 -> a = b.
Proof.
  unfold fits, wrapping_sub. intros Ha Hb H.
  apply Z.mod_divide in H as [k Hk]; [|lia]. assert (k = 0) by nia. lia.
Qed.

Lemma chk_ok w x : 0 <= x < 2 ^ w -> chk w x = Some x.
Proof. intros H. unfold chk. destruct (Z.leb_spec 0 x), (Z.ltb_spec x (2 ^ w)); done || lia. Qed.

Lemma chk_Some w x y : chk w x = Some y <-> y = x /\ 0 <= x < 2 ^ w.
Proof.
  unfold chk. destruct (Z.leb_spec 0 x), (Z.ltb_spec x (2 ^ w)); cbn [andb];
    (split; [intros [=]; subst; split; (done || lia)|intros [-> ?]; (done || lia)]).
Qed.

Lemma chk_over w x : 2 ^ w <= x -> chk w x = None.
Proof. intros H. unfold chk. destruct (Z.ltb_spec x (2 ^ w)); [lia|]. by rewrite andb_false_r. Qed.

Lemma chk_i_ok w x : - 2 ^ (w - 1) <= x < 2 ^ (w - 1) -> chk_i w x = Some x.
Proof. intros H. unfold chk_i. destruct (Z.leb_spec (- 2 ^ (w - 1)) x), (Z.ltb_spec x (2 ^ (w - 1))); done || lia. Qed.

Lemma ord_clamp_ok x lo hi : lo <= hi -> ord_clamp x lo hi = Some (clamp x lo hi).
Proof. intros H. unfold ord_clamp. by destruct (Z.ltb_spec hi lo); [lia|]. Qed.

Lemma foldr_max_shift a b xs : foldr Z.max (Z.max a b) xs = Z.max b (foldr Z.max a xs).
Proof. induction xs as [|x xs IH]; simpl; [lia|]. rewrite IH. lia. Qed.

Lemma foldr_max_ge a d xs : a <= d -> a <= foldr Z.max d xs.
Proof. intros. induction xs as [|x xs IH]; simpl; lia. Qed.

Lemma filter_all {A} (P : A -> Prop) `{forall x, Decision (P x)} (l : list A) :
  (forall x, P x) -> filter P l = l.
Proof. intros HP. induction l as [|x l IH]; [done|]. rewrite filter_cons_True by done. by f_equal. Qed.

Lemma filter_none {A} (P : A -> Prop) `{forall x, Decision (P x)} (l : list A) :
  (forall x, ~ P x) -> filter P l = [].
Proof. intros HP. induction l as [|x l IH]; [done|]. by rewrite filter_cons_False. Qed.

Lemma forall_filter {A} (P Q : A -> Prop) `{forall x, Decision (Q x)} (l : list A) :
  Forall P l -> Forall P (filter Q l).
Proof.
  rewrite !Forall_forall. intros HP x Hx. apply HP. by apply list_elem_of_filter in Hx as [_ ?].
Qed.

(** *** Pairwise relations on pools *)
Section Pairwise.
Context {A : Type} (R : A -> A -> Prop).

Lemma pairwise_filter (P : A -> Prop) `{forall x, Decision (P x)} (l : list A) :
  ForallOrdPairs R l -> ForallOrdPairs R (filter P l).
Proof.
  induction 1 as [|x l Hx Hl IH]; [constructor|]. rewrite filter_cons. case_decide; [|done].
  constructor; [|done]. rewrite !Forall_forall in Hx |- *. intros y Hy.
  apply Hx. by apply list_elem_of_filter in Hy as [_ ?].
Qed.

Lemma pairwise_perm (l l' : list A) : (forall x y, R x y -> R y x) ->
  l ≡ₚ l' -> ForallOrdPairs R l -> ForallOrdPairs R l'.
Proof.
  intros Hsym. induction 1 as [|x l l' Hp IH|x y l|l1 l2 l3 Hp1 IH1 Hp2 IH2]; intros HR.
  - done.
  - inversion_clear HR as [|? ? Hx Hl]. constructor; [by rewrite <- Hp|by apply IH].
  - inversion_clear HR as [|? ? Hy Hl]. inversion_clear Hl as [|? ? Hx Hl'].
    inversion_clear Hy as [|? ? Hyx Hy']. constructor; [|by constructor].
    constructor; [by apply Hsym|done].
  - by apply IH2, IH1.
Qed.
End Pairwise.

#[export] Hint Resolve fits_wrapping_sub fits_wrapping_add fits_saturating_add fits_saturating_sub
  fits_saturating_mul fits_mod : ecu.

(** ** Slot arrays: Rust's [[Option<T>; N]] used as an unordered pool.

    The array is a list of its [N] slots; [occupied] is the pool it stores. *)
Section Slots.
Context {A : Type}.
Implicit Types (slots : list (option A)) (x y : A) (p : A -> bool).

Definition occupied (slots : list (option A)) : list A := omap id slots.
#[local] Arguments occupied : simpl never.

Definition empty_slots (n : nat) : list (option A) := replicate n None.

(** The first empty slot receives [x]; [None] when there is no empty slot. *)
Fixpoint fill_first (x : A) (slots : list (option A)) : option (list (option A)) :=
  match slots with
  | [] => None
  | None :: rest => Some (Some x :: rest)
  | Some y :: rest =>
    match fill_first x rest with Some rest' => Some (Some y :: rest') | None => None end
  end.

(** Every slot whose content satisfies [p] is emptied. *)
Definition clear_if (p : A -> bool) (slots : list (option A)) : list (option A) :=
  map (fun slot => match slot with Some x => if p x then None else Some x | None => None end)
    slots.

(** The first slot whose content satisfies [p] is emptied; [None] when there is none. *)
Fixpoint clear_first (p : A -> bool) (slots : list (option A)) : option (list (option A)) :=
  match slots with
  | [] => None
  | Some x :: rest =>
    if p x then Some (None :: rest)
    else match clear_first p rest with
         | Some rest' => Some (Some x :: rest') | None => None end
  | None :: rest =>
    match clear_first p rest with Some rest' => Some (None :: rest') | None => None end
  end.

Lemma occupied_cons s slots : occupied (s :: slots) = option_list s ++ occupied slots.
Proof. by destruct s. Qed.

Lemma elem_of_occupied x slots : x ∈ occupied slots <-> Some x ∈ slots.
Proof.
  unfold occupied. rewrite list_elem_of_omap. split.
  - intros (s & Hs & Heq). unfold id in Heq. by subst.
  - intros Hs. by exists (Some x).
Qed.

Lemma occupied_empty n : occupied (empty_slots n) = [].
Proof. by induction n. Qed.

Lemma length_occupied_le slots : (length (occupied slots) <= length slots)%nat.
Proof.
  induction slots as [|s slots IH]; [done|]. rewrite occupied_cons, length_app.
  destruct s; simpl in *; lia.
Qed.

Lemma fill_first_length x slots slots' :
  fill_first x slots = Some slots' -> length slots' = length slots.
Proof. revert slots'. induction slots as [|[y|] slots IH]; intros; break; eauto. Qed.

Lemma fill_first_occupied x slots slots' :
  fill_first x slots = Some slots' -> occupied slots' ≡ₚ x :: occupied slots.
Proof.
  revert slots'. induction slots as [|[y|] slots IH]; intros slots' H; break; [|done].
  rewrite !occupied_cons. simpl. rewrite (IH _ eq_refl). apply perm_swap.
Qed.

(** There is room exactly when fewer slots are occupied than there are slots. *)
Lemma fill_first_None x slots :
  fill_first x slots = None <-> length (occupied slots) = length slots.
Proof.
  induction slots as [|[y|] slots IH]; [done| |].
  - rewrite occupied_cons. simpl. destruct (fill_first x slots) as [rest|].
    + split; [done|]. intros Hlen. exfalso. by assert (Some rest = None) by (apply IH; lia).
    + split; [|done]. intros _. f_equal. by apply IH.
  - split; [done|]. rewrite occupied_cons. simpl. pose proof (length_occupied_le slots). lia.
Qed.

Lemma clear_if_length p slots : length (clear_if p slots) = length slots.
Proof. apply length_map. Qed.

Lemma clear_if_occupied p slots :
  occupied (clear_if p slots) = filter (fun x => p x = false) (occupied slots).
Proof.
  induction slots as [|[x|] slots IH]; [done| |done]. simpl.
  rewrite !occupied_cons. simpl. rewrite filter_cons, IH.
  by destruct (p x).
Qed.

Lemma clear_first_length p slots slots' :
  clear_first p slots = Some slots' -> length slots' = length slots.
Proof. revert slots'. induction slots as [|[y|] slots IH]; intros; break; eauto. Qed.

Lemma clear_first_occupied p slots slots' :
  clear_first p slots = Some slots' ->
  exists x, p x = true /\ occupied slots ≡ₚ x :: occupied slots'.
Proof.
  revert slots'. induction slots as [|[y|] slots IH]; intros slots' H; break.
  - by exists y.
  - destruct (IH _ eq_refl) as (x & Hp & Hperm). exists x. split; [done|].
    rewrite !occupied_cons. simpl. rewrite Hperm. apply perm_swap.
  - destruct (IH _ eq_refl) as (x & Hp & Hperm). by exists x.
Qed.

Lemma clear_first_None p slots :
  clear_first p slots = None <-> Forall (fun x => p x = false) (occupied slots).
Proof.
  induction slots as [|[y|] slots IH]; [done| |]; rewrite occupied_cons; simpl.
  - rewrite Forall_cons, <- IH. destruct (p y), (clear_first p slots); intuition congruence.
  - rewrite <- IH. destruct (clear_first p slots); intuition congruence.
Qed.

(** Taking the content out of one slot ([Option::take]). *)
Lemma take_slot_occupied i x slots :
  slots !! i = Some (Some x) -> occupied slots ≡ₚ x :: occupied (<[i := None]> slots).
Proof.
  revert i. induction slots as [|s slots IH]; intros [|i] H; simplify_eq/=; [done|].
  rewrite !occupied_cons. rewrite (IH i H) at 1.
  destruct s; simpl; [apply perm_swap|done].
Qed.
End Slots.
Arguments occupied : simpl never.
#[export] Hint Resolve fill_first_length clear_first_length : ecu.
#[export] Hint Rewrite @clear_if_length @clear_if_occupied @occupied_empty : ecu.
