(* ===== verification/Domain.v ===== *)
(** * Domain vocabulary (crates/domain)

    Units and identifiers with checked constructors, the mode enumerations, the
    engine-time authority snapshot, the diagnostic log ring and the vehicle-speed
    pulse decoder.  A newtype over a machine integer ([Rpm], [Micros], [Ticks],
    [Degrees10], ...) is the integer itself, a [Z]. *)
From S2P Require Import Prelude.

(** Abbreviations for the newtypes of units.rs and ids.rs. *)
Abbreviation Micros := Z (only parsing).
Abbreviation Ticks := Z (only parsing).
Abbreviation Rpm := Z (only parsing).
Abbreviation Degrees10 := Z (only parsing).
Abbreviation ChannelId := Z (only parsing).
Abbreviation CylinderId := Z (only parsing).
Abbreviation PulseWidthUs := Z (only parsing).
Abbreviation DwellUs := Z (only parsing).

(** ** Checked constructors (units.rs, ids.rs) *)
Module UnitRangeError.
Inductive t := OutOfRange.
#[global] Instance eq_dec : EqDecision t.
Proof. solve_decision. Defined.
End UnitRangeError.

Module Kpa10.
Definition MAX_PLAUSIBLE : Z := 7000.
Definition try_new (value : Z) : Result Z UnitRangeError.t :=
  if value <=? MAX_PLAUSIBLE then Ok value else Err UnitRangeError.OutOfRange.
End Kpa10.

Module KnockLevelX100.
Definition MAX_NORMALIZED : Z := 10000.
Definition try_new (value : Z) : Result Z UnitRangeError.t :=
  if value <=? MAX_NORMALIZED then Ok value else Err UnitRangeError.OutOfRange.
End KnockLevelX100.

Module Percent.
Definition try_new (value : Z) : Result Z UnitRangeError.t :=
  if value <=? 100 then Ok value else Err UnitRangeError.OutOfRange.
End Percent.

Module Lambda100.
Definition MAX_PLAUSIBLE : Z := 300.
Definition try_new (value : Z) : Result Z UnitRangeError.t :=
  if value <=? MAX_PLAUSIBLE then Ok value else Err UnitRangeError.OutOfRange.
End Lambda100.

Module VehicleSpeedKph10.
Definition MAX_PLAUSIBLE : Z := 5000.
Definition try_new (value : Z) : Result Z UnitRangeError.t :=
  if value <=? MAX_PLAUSIBLE then Ok value else Err UnitRangeError.OutOfRange.
End VehicleSpeedKph10.

Module IdentifierError.
Inductive t := Zero.
#[global] Instance eq_dec : EqDecision t.
Proof. solve_decision. Defined.
End IdentifierError.

Module CylinderIdOps.
Definition try_new (value : Z) : Result CylinderId IdentifierError.t :=
  if value =? 0 then Err IdentifierError.Zero else Ok value.
End CylinderIdOps.

Module ChannelIdOps.
Definition try_new (value : Z) : Result ChannelId IdentifierError.t :=
  if value =? 0 then Err IdentifierError.Zero else Ok value.
End ChannelIdOps.

(** ** Modes (modes.rs) *)
Module SyncState.
Inductive t := Unsynced | Provisional | Locked (cam_ref : bool).
#[global] Instance eq_dec : EqDecision t.
Proof. solve_decision. Defined.
End SyncState.

Module EnginePhase.
Inductive t := Off | Cranking | Running | Stopping.
#[global] Instance eq_dec : EqDecision t.
Proof. solve_decision. Defined.
End EnginePhase.

Module ControlMode.
Inductive t := OpenLoop | ClosedLoop | LimpHome | Shutdown.
#[global] Instance eq_dec : EqDecision t.
Proof. solve_decision. Defined.
End ControlMode.

Module FaultSeverity.
Inductive t := Info | Warning | Critical.
#[global] Instance eq_dec : EqDecision t.
Proof. solve_decision. Defined.
End FaultSeverity.

Module FaultCode.
Inductive t :=
| None | SyncLoss | SensorOutOfRange | CalibrationInvalid | SafetyCut | ActuatorFault.
#[global] Instance eq_dec : EqDecision t.
Proof. solve_decision. Defined.
End FaultCode.

Module CancelReason.
Inductive t := Manual | SyncLoss | SafetyShutdown | Commit | Timeout.
#[global] Instance eq_dec : EqDecision t.
Proof. solve_decision. Defined.
End CancelReason.

Module CommitPolicy.
Inductive t := Immediate | SafeOnly | Deferred.
#[global] Instance eq_dec : EqDecision t.
Proof. solve_decision. Defined.
End CommitPolicy.

(** ** Engine-time authority (authority.rs) *)
Module CrankSyncState.
Inductive t := NoSignal | PrimarySearching | PrimaryLocked | SyncLost.
#[global] Instance eq_dec : EqDecision t.
Proof. solve_decision. Defined.
End CrankSyncState.

Module PhaseSyncState.
Inductive t := Unknown | CrankOnly360 | CamObserved720 | CamValidated720.
#[global] Instance eq_dec : EqDecision t.
Proof. solve_decision. Defined.
End PhaseSyncState.

Module AbsoluteTimeAuthority.
Inductive t :=
| None | GeometryOnly | ExpertManual | CommunityProfile | CertifiedProfile | BenchLearned.
#[global] Instance eq_dec : EqDecision t.
Proof. solve_decision. Defined.
End AbsoluteTimeAuthority.

Module EngineTimeAuthorityError.
Inductive t := ConfidenceOutOfRange | AbsoluteTimingWithoutPrimaryLock.
#[global] Instance eq_dec : EqDecision t.
Proof. solve_decision. Defined.
End EngineTimeAuthorityError.

Module EngineTimeAuthority.
Record t := mk {
  crank : CrankSyncState.t;
  phase : PhaseSyncState.t;
  absolute : AbsoluteTimeAuthority.t;
  confidence_x1000 : Z;
  sync_loss_count : Z;
}.
#[global] Instance eq_dec : EqDecision t.
Proof. solve_decision. Defined.
#[global] Instance eta : Eta t := fun a =>
  mk (crank a) (phase a) (absolute a) (confidence_x1000 a) (sync_loss_count a).

Definition MAX_CONFIDENCE_X1000 : Z := 1000.

Definition none : t :=
  mk CrankSyncState.NoSignal PhaseSyncState.Unknown AbsoluteTimeAuthority.None 0 0.

Definition has_primary_lock (a : t) : bool :=
  match crank a with CrankSyncState.PrimaryLocked => true | _ => false end.

Definition has_absolute_timing (a : t) : bool :=
  match absolute a with AbsoluteTimeAuthority.None => false | _ => true end.

Definition compatibility_summary (a : t) : SyncState.t :=
  if negb (has_primary_lock a) then SyncState.Unsynced
  else if (match phase a with PhaseSyncState.Unknown => true | _ => false end)
          || negb (has_absolute_timing a)
       then SyncState.Provisional
       else SyncState.Locked false.

Definition validate (a : t) : Result unit EngineTimeAuthorityError.t :=
  if MAX_CONFIDENCE_X1000 <? confidence_x1000 a then
    Err EngineTimeAuthorityError.ConfidenceOutOfRange
  else if negb (has_primary_lock a) && has_absolute_timing a then
    Err EngineTimeAuthorityError.AbsoluteTimingWithoutPrimaryLock
  else Ok tt.

Definition try_new (crank : CrankSyncState.t) (phase : PhaseSyncState.t)
    (absolute : AbsoluteTimeAuthority.t) (confidence_x1000 sync_loss_count : Z) :
    Result t EngineTimeAuthorityError.t :=
  let authority := mk crank phase absolute confidence_x1000 sync_loss_count in
  match validate authority with
  | Ok _ => Ok authority
  | Err error => Err error
  end.
End EngineTimeAuthority.

(** ** Diagnostics (diag.rs) *)
Module DiagCode.
Inductive t :=
| MapRange | TpsRange | CamMissing | LowVoltage | Overvoltage | MapFailureHighLoad
| TpsMapPlausibility | KnockDetected | PersistCrcFault | OilPressureLow | FuelPressureLow
| LambdaInvalid.
#[global] Instance eq_dec : EqDecision t.
Proof. solve_decision. Defined.

Definition to_u8 (c : t) : Z :=
  match c with
  | MapRange => 1 | TpsRange => 2 | CamMissing => 3 | LowVoltage => 4 | Overvoltage => 5
  | MapFailureHighLoad => 6 | TpsMapPlausibility => 7 | KnockDetected => 8
  | PersistCrcFault => 9 | OilPressureLow => 10 | FuelPressureLow => 11 | LambdaInvalid => 12
  end.
End DiagCode.

Module DiagSource.
Inductive t := Sensor | Trigger | Scheduler | Safety | User.
#[global] Instance eq_dec : EqDecision t.
Proof. solve_decision. Defined.
End DiagSource.

Module DiagStatus.
Inductive t := Inactive | Latched (since : Micros) | Cleared (at_ : Micros).
End DiagStatus.

Module DiagState.
Record t := mk {
  status : DiagStatus.t;
  start_us : Z;
  in_range_since_us : Z;
  total_us : Z;
}.
#[global] Instance eta : Eta t := fun d =>
  mk (status d) (start_us d) (in_range_since_us d) (total_us d).

Definition new : t := mk DiagStatus.Inactive 0 0 0.
Definition is_active (d : t) : bool :=
  match status d with DiagStatus.Latched _ | DiagStatus.Cleared _ => true | _ => false end.
Definition latch (since : Micros) (d : t) : t := d <| status := DiagStatus.Latched since |>.
Definition clear (at_ : Micros) (d : t) : t := d <| status := DiagStatus.Cleared at_ |>.
Definition deactivate (d : t) : t := d <| status := DiagStatus.Inactive |>.
End DiagState.

Module DiagEvent.
Record t := mk {
  code : DiagCode.t;
  timestamp : Micros;
  source : DiagSource.t;
  context : option Z;
  start_us : Z;
  end_us : Z;
}.
End DiagEvent.

Module DiagLog.
(** [DiagLog<N>]: [N] is the length of [events], [head] is a [u8]. *)
Record t := mk {
  events : list (option DiagEvent.t);
  head : Z;
}.
#[global] Instance eta : Eta t := fun l => mk (events l) (head l).

Definition new (N : nat) : t := mk (replicate N None) 0.

(** [None] is the panic of [% 0] on a log of no slots. *)
Definition push (ev : DiagEvent.t) (log : t) : option t :=
  let N := Z.of_nat (length (events log)) in
  if N =? 0 then None
  else
    let idx := head log mod N in
    Some (log <| events := <[Z.to_nat idx := Some ev]> (events log) |>
              <| head := wrapping_add 8 (head log) 1 |>).

(** The pushes of a sequence of events, oldest first. *)
Fixpoint push_all (evs : list DiagEvent.t) (log : t) : option t :=
  match evs with
  | [] => Some log
  | ev :: evs => match push ev log with Some log' => push_all evs log' | None => None end
  end.
End DiagLog.

(** ** Vehicle-speed pulse decoder (vehicle_speed.rs) *)
Module VehicleSpeedPulseConfigError.
Inductive t := ZeroPulsesPerKm | ZeroTimeout | ZeroMaxSpeed.
#[global] Instance eq_dec : EqDecision t.
Proof. solve_decision. Defined.
End VehicleSpeedPulseConfigError.

Module VehicleSpeedPulseConfig.
Record t := mk {
  pulses_per_km : Z;
  timeout_us : Z;
  max_speed_kph10 : Z;
}.

Definition validate (c : t) : Result unit VehicleSpeedPulseConfigError.t :=
  if pulses_per_km c =? 0 then Err VehicleSpeedPulseConfigError.ZeroPulsesPerKm
  else if timeout_us c =? 0 then Err VehicleSpeedPulseConfigError.ZeroTimeout
  else if max_speed_kph10 c =? 0 then Err VehicleSpeedPulseConfigError.ZeroMaxSpeed
  else Ok tt.

Definition default : t := mk 1 1000000 3000.
End VehicleSpeedPulseConfig.

Module VehicleSpeed.
Record State := mkState {
  last_pulse_us : option Micros;
  speed_kph10 : Z;
}.
#[global] Instance eta : Eta State := fun s => mkState (last_pulse_us s) (speed_kph10 s).
#[global] Instance state_eq_dec : EqDecision State.
Proof. solve_decision. Defined.

Definition default : State := mkState None 0.

Record Input := mkInput {
  now_us : Micros;
  pulse_seen : bool;
}.

Record StepResult := mkResult {
  result_speed_kph10 : Z;
  signal_present : bool;
  next_state : State;
}.

Definition monotonic_elapsed_us (last now : Micros) : option Z := checked_sub now last.

(** [None] is the panic of a division by zero; the product and the quotient fit in
    the [u64] they are computed in. *)
Definition speed_from_period_us (config : VehicleSpeedPulseConfig.t) (period_us : Z) : option Z :=
  let denom := period_us * VehicleSpeedPulseConfig.pulses_per_km config in
  if denom =? 0 then None
  else
    let kph10 := 36000000000 / denom in
    Some (as_unsigned 16 (Z.min kph10 (VehicleSpeedPulseConfig.max_speed_kph10 config))).

Definition pulse_step (config : VehicleSpeedPulseConfig.t) (state : State) (input : Input) :
    option StepResult :=
  if negb (is_ok (VehicleSpeedPulseConfig.validate config)) then
    Some (mkResult 0 false default)
  else
    let finish next signal := Some (mkResult (speed_kph10 next) signal next) in
    let present := bool_decide (is_Some (last_pulse_us state)) in
    if pulse_seen input then
      let stamp next := next <| last_pulse_us := Some (now_us input) |> in
      match last_pulse_us state with
      | Some last =>
        match monotonic_elapsed_us last (now_us input) with
        | Some period_us =>
          if 0 <? period_us then
            match speed_from_period_us config period_us with
            | Some speed => finish (stamp (state <| speed_kph10 := speed |>)) true
            | None => None
            end
          else finish (stamp state) true
        | None => finish (stamp (state <| speed_kph10 := 0 |>)) true
        end
      | None => finish (stamp state) true
      end
    else
      match last_pulse_us state with
      | Some last =>
        match monotonic_elapsed_us last (now_us input) with
        | Some elapsed_us =>
          if VehicleSpeedPulseConfig.timeout_us config <? elapsed_us then
            finish (state <| speed_kph10 := 0 |>) false
          else finish state present
        | None => finish (state <| speed_kph10 := 0 |>) false
        end
      | None => finish state present
      end.

(** A run of the decoder over a sequence of inputs. *)
Fixpoint run (config : VehicleSpeedPulseConfig.t) (state : State) (inputs : list Input) :
    option (list StepResult) :=
  match inputs with
  | [] => Some []
  | input :: inputs =>
    match pulse_step config state input with
    | Some r =>
      match run config (next_state r) inputs with Some rs => Some (r :: rs) | None => None end
    | None => None
    end
  end.

(** What the fields of a configuration are as machine integers. *)
Definition config_fits (c : VehicleSpeedPulseConfig.t) : Prop :=
  u32 (VehicleSpeedPulseConfig.pulses_per_km c) /\ u32 (VehicleSpeedPulseConfig.timeout_us c)
  /\ u16 (VehicleSpeedPulseConfig.max_speed_kph10 c).
End VehicleSpeed.

(** ** Theorems *)
Section Authority.
Import EngineTimeAuthority.

(** [EngineTimeAuthority::try_new] accepts exactly the snapshots whose
    confidence is at most 1000 and that claim absolute timing only under a primary
    lock; it reports the confidence first; and an accepted snapshot is summarised as
    [Locked] exactly when it has absolute timing and a known phase. *)
Theorem authority_try_new_spec (c : CrankSyncState.t) p a conf n :
  try_new c p a conf n =
    (if decide (1000 < conf) then Err EngineTimeAuthorityError.ConfidenceOutOfRange
     else if decide (a <> AbsoluteTimeAuthority.None /\ c <> CrankSyncState.PrimaryLocked)
          then Err EngineTimeAuthorityError.AbsoluteTimingWithoutPrimaryLock
          else Ok (mk c p a conf n))
  /\ (forall x, try_new c p a conf n = Ok x ->
      (compatibility_summary x = SyncState.Locked false <->
       absolute x <> AbsoluteTimeAuthority.None /\ phase x <> PhaseSyncState.Unknown)
      /\ compatibility_summary x <> SyncState.Locked true).
Proof.
  unfold try_new, validate, compatibility_summary, has_primary_lock, has_absolute_timing.
  cbn [crank phase absolute confidence_x1000]. unfold MAX_CONFIDENCE_X1000. split.
  - destruct (Z.ltb_spec 1000 conf); case_decide; try lia; [done|].
    destruct c, a; cbn; case_decide; naive_solver.
  - intros x Hx. destruct (1000 <? conf); [done|].
    destruct c, a; simplify_eq/=; destruct p; naive_solver.
Qed.
End Authority.

Section DiagLogRing.
Import DiagLog.

Lemma push_all_app evs1 evs2 log :
  push_all (evs1 ++ evs2) log =
  match push_all evs1 log with Some log' => push_all evs2 log' | None => None end.
Proof. revert log. induction evs1 as [|ev evs1 IH]; intros log; simpl; [done|]. by case_match. Qed.

(** The ring's content after the events [evs] on a fresh log of [N] slots. *)
Definition retains (N : nat) (evs : list DiagEvent.t) (log : t) : Prop :=
  length (events log) = N
  /\ head log = Z.of_nat (length evs) mod 256
  /\ (forall i ev, evs !! i = Some ev -> (length evs <= i + N)%nat ->
      events log !! (i mod N)%nat = Some (Some ev))
  /\ (forall j, (length evs <= j < N)%nat -> events log !! j = Some None).

Lemma retains_new N : retains N [] (new N).
Proof.
  split; [apply length_replicate|]. split; [done|]. split; [done|].
  intros j [_ Hj]. by apply lookup_replicate.
Qed.

(** A ring index [head % N] read off a wrapping 8-bit head is the true index when
    [N] divides 256. *)
Lemma ring_index N (n : nat) : (0 < N)%nat -> (Z.of_nat N | 256) ->
  Z.to_nat ((Z.of_nat n mod 256) mod Z.of_nat N) = (n mod N)%nat.
Proof.
  intros HN Hdiv. rewrite Z.mod_mod_divide by done.
  rewrite <- Nat2Z.inj_mod. apply Nat2Z.id.
Qed.

Lemma mod_neq_of_window (N i n : nat) : (0 < N)%nat -> (i < n)%nat -> (n < i + N)%nat ->
  (i mod N <> n mod N)%nat.
Proof.
  intros HN Hlt Hwin Heq.
  pose proof (Nat.div_mod_eq i N). pose proof (Nat.div_mod_eq n N).
  assert (n - i = N * (n / N - i / N))%nat as Hd by (rewrite Nat.mul_sub_distr_l; lia).
  destruct (n / N - i / N)%nat; nia.
Qed.

Lemma retains_push N evs ev log : (0 < N)%nat -> (Z.of_nat N | 256) ->
  retains N evs log -> exists log', push ev log = Some log' /\ retains N (evs ++ [ev]) log'.
Proof.
  intros HN Hdiv (Hlen & Hhead & Hkeep & Hfree).
  unfold push. rewrite Hlen, Hhead.
  destruct (Z.of_nat N =? 0) eqn:E; to_prop; [lia|]. eexists; split; [done|].
  rewrite ring_index by done. pose proof (Nat.mod_upper_bound (length evs) N ltac:(lia)).
  split; [simpl; by rewrite length_insert|]. split.
  { simpl. unfold wrapping_add. rewrite Zplus_mod_idemp_l, length_app. simpl. f_equal. lia. }
  simpl. split.
  - intros i e Hi Hwin. rewrite length_app in Hwin. simpl in Hwin.
    apply lookup_app_Some in Hi as [Hi|[Hge Hi]].
    + pose proof (lookup_lt_Some _ _ _ Hi).
      rewrite list_lookup_insert_ne; [apply Hkeep; [done|lia]|].
      apply not_eq_sym, mod_neq_of_window; lia.
    + apply list_lookup_singleton_Some in Hi as [? ?]. subst.
      replace i with (length evs) by lia. apply list_lookup_insert_eq. lia.
  - intros j Hj. rewrite length_app in Hj. simpl in Hj.
    rewrite list_lookup_insert_ne; [apply Hfree; lia|].
    rewrite Nat.mod_small; lia.
Qed.

(** a diagnostic log of [N] slots with [N] dividing 256 retains the last [N]
    events whatever their number, each in the slot of its index modulo [N], although
    its head is an 8-bit counter that wraps. *)
Theorem diag_log_retains_last N evs : (0 < N)%nat -> (Z.of_nat N | 256) ->
  exists log, push_all evs (new N) = Some log /\ retains N evs log.
Proof.
  intros HN Hdiv. induction evs as [|ev evs IH] using rev_ind.
  - exists (new N). split; [done|]. apply retains_new.
  - destruct IH as (log & Hlog & Hret).
    destruct (retains_push N evs ev log) as (log' & Hpush & Hret'); [done..|].
    exists log'. split; [|done]. by rewrite push_all_app, Hlog; simpl; rewrite Hpush.
Qed.

Definition sample_event (i : Z) : DiagEvent.t :=
  DiagEvent.mk DiagCode.MapRange i DiagSource.Sensor None 0 0.

Lemma diag_log_retains_last_witness :
  exists log, push_all (sample_event <$> seqZ 0 300) (new 16) = Some log
              /\ events log !! 11%nat = Some (Some (sample_event 299)).
Proof.
  destruct (diag_log_retains_last 16 (sample_event <$> seqZ 0 300)) as (log & Hlog & Hret).
  - lia.
  - by exists 16.
  - exists log. split; [done|]. destruct Hret as (_ & _ & Hkeep & _).
    apply (Hkeep 299%nat); [by vm_compute|]. vm_compute. lia.
Defined.
End DiagLogRing.

Section VehicleSpeedTheorems.
Import VehicleSpeed.
Implicit Types (config : VehicleSpeedPulseConfig.t).

(** A state whose speed is within the configured maximum, and zero before the first pulse. *)
Definition state_ok config (s : State) : Prop :=
  0 <= speed_kph10 s <= VehicleSpeedPulseConfig.max_speed_kph10 config
  /\ (last_pulse_us s = None -> speed_kph10 s = 0).

Definition result_ok config (r : StepResult) : Prop :=
  0 <= result_speed_kph10 r <= VehicleSpeedPulseConfig.max_speed_kph10 config
  /\ (signal_present r = false -> result_speed_kph10 r = 0)
  /\ result_speed_kph10 r = speed_kph10 (next_state r).

Lemma speed_from_period_total config period :
  config_fits config -> VehicleSpeedPulseConfig.pulses_per_km config <> 0 -> 0 < period ->
  exists v, speed_from_period_us config period = Some v
    /\ v = Z.min (36000000000 / (period * VehicleSpeedPulseConfig.pulses_per_km config))
                 (VehicleSpeedPulseConfig.max_speed_kph10 config)
    /\ 0 <= v <= VehicleSpeedPulseConfig.max_speed_kph10 config.
Proof.
  intros (Hp & _ & Hm) Hnz Hpos. unfold fits in Hp, Hm. unfold speed_from_period_us.
  destruct (Z.eqb_spec (period * VehicleSpeedPulseConfig.pulses_per_km config) 0); [nia|].
  eexists; split; [done|].
  assert (0 <= 36000000000 / (period * VehicleSpeedPulseConfig.pulses_per_km config))
    by (apply Z.div_pos; nia).
  rewrite as_unsigned_small by (unfold fits; lia). split; [done|lia].
Qed.

Lemma pulse_step_ok config s i : config_fits config -> state_ok config s ->
  exists r, pulse_step config s i = Some r /\ state_ok config (next_state r) /\ result_ok config r.
Proof.
  intros Hc [Hs Hnone]. unfold pulse_step, state_ok, result_ok.
  pose proof Hc as (Hp & Ht & Hm). unfold fits in *.
  destruct (VehicleSpeedPulseConfig.validate config) as [[]|e] eqn:Hv; simpl.
  2: { eexists; split; [done|]. simpl. split_and!; (lia || done). }
  assert (VehicleSpeedPulseConfig.pulses_per_km config <> 0) as Hnz.
  { unfold VehicleSpeedPulseConfig.validate in Hv. intros H0. by rewrite H0 in Hv. }
  destruct (pulse_seen i), (last_pulse_us s) as [last|] eqn:Hl; simpl.
  - destruct (monotonic_elapsed_us last (now_us i)) as [p|] eqn:Hel;
      [destruct (Z.ltb_spec 0 p)|].
    + destruct (speed_from_period_total config p) as (v & -> & _ & Hbound); [done..|].
      eexists; split; [done|]. simpl. split_and!; (lia || done).
    + eexists; split; [done|]. simpl. split_and!; (lia || done).
    + eexists; split; [done|]. simpl. split_and!; (lia || done).
  - eexists; split; [done|]. simpl. split_and!; (lia || done).
  - destruct (monotonic_elapsed_us last (now_us i)) as [p|] eqn:Hel;
      [case_match|]; (eexists; split; [done|]); simpl; rewrite ?Hl; split_and!; (lia || done).
  - eexists; split; [done|]. simpl. rewrite ?Hl. split_and!; (lia || auto).
Qed.

(** from the default state the vehicle-speed decoder never divides by zero, on
    any configuration and any sequence of pulses and timestamps; every speed it
    reports is within the configured maximum, and it is zero whenever the decoder
    says that no signal is present. *)
Theorem vehicle_speed_run_bounded config inputs : config_fits config ->
  exists rs, run config default inputs = Some rs /\ length rs = length inputs
             /\ Forall (result_ok config) rs.
Proof.
  intros Hc. assert (state_ok config default) as Hs.
  { destruct Hc as (_ & _ & Hm). unfold fits in Hm. split; simpl; [lia|done]. }
  revert Hs. generalize default as s. induction inputs as [|i inputs IH]; intros s Hs; simpl.
  - by exists [].
  - destruct (pulse_step_ok config s i) as (r & -> & Hs' & Hr); [done..|].
    destruct (IH _ Hs') as (rs & -> & Hlen & Hall).
    exists (r :: rs). split; [done|]. split; [simpl; lia|]. by constructor.
Qed.

Lemma vehicle_speed_run_bounded_witness :
  let config := VehicleSpeedPulseConfig.mk 10000 500000 3000 in
  exists rs, run config default [mkInput 1000 true; mkInput 101000 true; mkInput 700000 false]
               = Some rs
             /\ Forall (result_ok config) rs /\ result_speed_kph10 <$> rs = [0; 36; 0].
Proof.
  destruct (vehicle_speed_run_bounded (VehicleSpeedPulseConfig.mk 10000 500000 3000)
    [mkInput 1000 true; mkInput 101000 true; mkInput 700000 false]) as (rs & Hrun & _ & Hall).
  - split_and!; unfold fits; simpl; lia.
  - exists rs. split; [done|]. split; [done|]. vm_compute in Hrun. by simplify_eq.
Defined.
End VehicleSpeedTheorems.
