(* ===== verification/BoardApi.v ===== *)
(** * Board contracts (crates/board-api)

    The output topologies a board profile selects (output_profiles.rs), the safety
    permit mask and gate records (safety.rs), the timing-island vocabulary with its
    fixed-capacity batches (timing_island.rs), and the authority telemetry record. *)
From S2P Require Import Prelude Domain.

Definition FULL_ECU_MAX_CYLINDERS : Z := 8.
Definition FULL_ECU_MAX_LIMP_AUX_OUTPUTS : nat := 4.
Definition CRANK_REV_DEGREES10 : Z := 3600.

(** ** Timing-island vocabulary *)
Definition HEARTBEAT_EXPIRY_US : Micros := 20000.
Definition MAX_HORIZON_US : Micros := 10000.
Definition HORIZON_SEQUENCE_BITS : Z := 32.

Module StopReason.
Inductive t :=
| None | SyncLost | HeartbeatExpired | HorizonExpired | PermitDenied | TimingFault
| AdmittedEventRejected | BoardOutputFault.
#[global] Instance eq_dec : EqDecision t.
Proof. solve_decision. Defined.
End StopReason.

Module IslandSyncLossReason.
Inductive t := None | SignalLost | DecoderFault | TimingFault | Unknown.
#[global] Instance eq_dec : EqDecision t.
Proof. solve_decision. Defined.
End IslandSyncLossReason.

Module EdgeKind.
Inductive t := Rising | Falling.
#[global] Instance eq_dec : EqDecision t.
Proof. solve_decision. Defined.
End EdgeKind.

Module OutputLevel.
Inductive t := Low | High.
#[global] Instance eq_dec : EqDecision t.
Proof. solve_decision. Defined.
End OutputLevel.

Module AuxValue.
Inductive t := Off | Duty (percent : Z) | Level (level : OutputLevel.t).
#[global] Instance eq_dec : EqDecision t.
Proof. solve_decision. Defined.
End AuxValue.

Module EcuOutput.
Inductive t := Injector (channel : ChannelId) | Ignition (channel : ChannelId).
#[global] Instance eq_dec : EqDecision t.
Proof. solve_decision. Defined.
End EcuOutput.

Module AuxOutput.
Inductive t :=
| SafetyRelay (id : Z) | Indicator (id : Z) | FrequencyOut (id : Z)
| Digital (channel : ChannelId) | Pwm (channel : ChannelId).
#[global] Instance eq_dec : EqDecision t.
Proof. solve_decision. Defined.
End AuxOutput.

Module TriggerEdgeEvent.
Record t := mk { kind : EdgeKind.t; at_ : Ticks }.
#[global] Instance eq_dec : EqDecision t.
Proof. solve_decision. Defined.
Definition EMPTY : t := mk EdgeKind.Rising 0.
End TriggerEdgeEvent.

Module OutputTransition.
Record t := mk { output : EcuOutput.t; level : OutputLevel.t; at_ : Ticks }.
#[global] Instance eq_dec : EqDecision t.
Proof. solve_decision. Defined.
Definition EMPTY : t := mk (EcuOutput.Injector 0) OutputLevel.Low 0.
End OutputTransition.

Module AuxCommand.
Record t := mk { output : AuxOutput.t; value : AuxValue.t }.
#[global] Instance eq_dec : EqDecision t.
Proof. solve_decision. Defined.
Definition EMPTY : t := mk (AuxOutput.Digital 0) AuxValue.Off.
End AuxCommand.

(** ** Safety permit mask and gate (safety.rs) *)
Module SafetyPermitMask.
Definition NONE : Z := 0.
Definition IGNITION : Z := Z.shiftl 1 0.
Definition INJECTOR : Z := Z.shiftl 1 1.
Definition BOUNDED_AUX : Z := Z.shiftl 1 2.
Definition KNOWN_BITS : Z := Z.lor (Z.lor IGNITION INJECTOR) BOUNDED_AUX.
Definition ALL : Z := KNOWN_BITS.
Definition new (bits : Z) : Z := Z.land bits KNOWN_BITS.
Definition is_empty (mask : Z) : bool := mask =? 0.
End SafetyPermitMask.

Module SafetyGatePermit.
Inductive t := Denied | Allowed.
#[global] Instance eq_dec : EqDecision t.
Proof. solve_decision. Defined.
End SafetyGatePermit.

Module SafetyGateReason.
Inductive t :=
| None | SyncNotAuthorized | KillAsserted | PowerNotGood | WatchdogTimeout
| TimingBackendNotAlive | BackendNotAlive | DriverFault.
#[global] Instance eq_dec : EqDecision t.
Proof. solve_decision. Defined.
End SafetyGateReason.

Module SafetyGateInput.
Record t := mk {
  now_us : Micros;
  kill_n : bool;
  power_good : bool;
  watchdog_ok : bool;
  timing_backend_alive : bool;
  backend_alive : bool;
  sync_authority_ok : bool;
  driver_faults : Z;
  requested_permit_mask : Z;
}.
#[global] Instance eq_dec : EqDecision t.
Proof. solve_decision. Defined.
End SafetyGateInput.

Module SafetyGateStatus.
Record t := mk {
  permit : SafetyGatePermit.t;
  reason : SafetyGateReason.t;
  fault_code : FaultCode.t;
  fault_severity : FaultSeverity.t;
  driver_faults : Z;
  last_checked_us : Micros;
  effective_permit_mask : Z;
}.
#[global] Instance eq_dec : EqDecision t.
Proof. solve_decision. Defined.

Definition denied (reason : SafetyGateReason.t) (fault_code : FaultCode.t)
    (fault_severity : FaultSeverity.t) (driver_faults : Z) (last_checked_us : Micros) : t :=
  mk SafetyGatePermit.Denied reason fault_code fault_severity driver_faults last_checked_us
    SafetyPermitMask.NONE.
End SafetyGateStatus.

(** ** Commands and events *)
Module TimingIslandCommand.
Inductive t :=
| ArmOutput (transition : OutputTransition.t)
| ApplyAux (command : AuxCommand.t)
| CancelAll (reason : CancelReason.t)
| FeedWatchdog
| UpdatePermitMask (mask : Z).
#[global] Instance eq_dec : EqDecision t.
Proof. solve_decision. Defined.
Definition EMPTY : t := CancelAll CancelReason.Manual.
End TimingIslandCommand.

Module RejectReason.
Inductive t := CommandQueueFull | PermitDenied | BackendFault | StaleCommand.
#[global] Instance eq_dec : EqDecision t.
Proof. solve_decision. Defined.
End RejectReason.

Module FaultStatus.
Record t := mk { code : FaultCode.t; severity : FaultSeverity.t; at_ : Ticks }.
#[global] Instance eq_dec : EqDecision t.
Proof. solve_decision. Defined.
End FaultStatus.

Definition absolute_time_authorizes_full_sequential (source : AbsoluteTimeAuthority.t) : bool :=
  match source with
  | AbsoluteTimeAuthority.ExpertManual | AbsoluteTimeAuthority.CommunityProfile
  | AbsoluteTimeAuthority.CertifiedProfile | AbsoluteTimeAuthority.BenchLearned => true
  | _ => false
  end.

Definition engine_time_authorizes_full_sequential (authority : EngineTimeAuthority.t) : bool :=
  (EngineTimeAuthority.confidence_x1000 authority <=? EngineTimeAuthority.MAX_CONFIDENCE_X1000)
  && bool_decide (EngineTimeAuthority.crank authority = CrankSyncState.PrimaryLocked)
  && bool_decide (EngineTimeAuthority.phase authority = PhaseSyncState.CamValidated720)
  && absolute_time_authorizes_full_sequential (EngineTimeAuthority.absolute authority).

(** telemetry.rs *)
Module AuthorityTelemetry.
Record t := mk {
  authority : EngineTimeAuthority.t;
  summary : SyncState.t;
  full_sequential_authorized : bool;
}.
#[global] Instance eq_dec : EqDecision t.
Proof. solve_decision. Defined.
Definition new (authority : EngineTimeAuthority.t) : t :=
  mk authority (EngineTimeAuthority.compatibility_summary authority)
    (engine_time_authorizes_full_sequential authority).
End AuthorityTelemetry.

Module TimingIslandEvent.
Inductive t :=
| OutputArmed (transition : OutputTransition.t)
| OutputCompleted (transition : OutputTransition.t)
| AuxApplied (command : AuxCommand.t)
| Cancelled (reason : CancelReason.t)
| Rejected (reason : RejectReason.t)
| CrankEdge (edge : TriggerEdgeEvent.t)
| CamEdge (edge : TriggerEdgeEvent.t)
| SyncStatus (status : AuthorityTelemetry.t)
| FaultStatus (status : FaultStatus.t).
#[global] Instance eq_dec : EqDecision t.
Proof. solve_decision. Defined.
Definition EMPTY : t := Cancelled CancelReason.Manual.
End TimingIslandEvent.

(** timing_island.rs, [legacy] *)
Definition sync_state_authority (sync_state : SyncState.t) : EngineTimeAuthority.t :=
  match sync_state with
  | SyncState.Unsynced => EngineTimeAuthority.none
  | SyncState.Provisional =>
    EngineTimeAuthority.mk CrankSyncState.PrimaryLocked PhaseSyncState.Unknown
      AbsoluteTimeAuthority.None 0 0
  | SyncState.Locked _ =>
    EngineTimeAuthority.mk CrankSyncState.PrimaryLocked PhaseSyncState.CrankOnly360
      AbsoluteTimeAuthority.GeometryOnly EngineTimeAuthority.MAX_CONFIDENCE_X1000 0
  end.

(** ** Output topologies (output_profiles.rs) *)
Module SparkOutputMode.
Inductive t := SingleCoil | WastedSpark.
#[global] Instance eq_dec : EqDecision t.
Proof. solve_decision. Defined.
End SparkOutputMode.

Module SparkOutputProfile.
Record t := mk { cylinder_count : Z; mode : SparkOutputMode.t }.
#[global] Instance eq_dec : EqDecision t.
Proof. solve_decision. Defined.

Definition crank_only_wasted_spark (cylinder_count : Z) : t :=
  mk cylinder_count SparkOutputMode.WastedSpark.
Definition crank_only_single_coil (cylinder_count : Z) : t :=
  mk cylinder_count SparkOutputMode.SingleCoil.

Definition events_per_crank_rev (p : t) : Z :=
  let cylinders := cylinder_count p in
  let events := cylinders / 2 in
  clamp events 1 FULL_ECU_MAX_CYLINDERS.

Definition ignition_channel (p : t) (event_index : Z) : ChannelId :=
  match mode p with
  | SparkOutputMode.SingleCoil => 0
  | SparkOutputMode.WastedSpark => as_unsigned 8 (event_index mod events_per_crank_rev p)
  end.

Definition event_tdc_angle_deg10 (p : t) (event_index : Z) : Z :=
  let events := events_per_crank_rev p in
  let event_index := as_unsigned 32 (event_index mod events) in
  as_unsigned 16 ((event_index * CRANK_REV_DEGREES10) / events).
End SparkOutputProfile.

Module FuelOutputMode.
Inductive t := SinglePoint | Batch.
#[global] Instance eq_dec : EqDecision t.
Proof. solve_decision. Defined.
End FuelOutputMode.

Module FuelOutputProfile.
Record t := mk { channel_count : Z; mode : FuelOutputMode.t }.
#[global] Instance eq_dec : EqDecision t.
Proof. solve_decision. Defined.

Definition single_point : t := mk 1 FuelOutputMode.SinglePoint.
Definition batch (channel_count : Z) : t := mk channel_count FuelOutputMode.Batch.

Definition events_per_pulse (p : t) : Z :=
  match mode p with
  | FuelOutputMode.SinglePoint => 1
  | FuelOutputMode.Batch => clamp (channel_count p) 1 FULL_ECU_MAX_CYLINDERS
  end.

Definition injector_channel (p : t) (event_index : Z) : ChannelId :=
  match mode p with
  | FuelOutputMode.SinglePoint => 0
  | FuelOutputMode.Batch => as_unsigned 8 (event_index mod events_per_pulse p)
  end.
End FuelOutputProfile.

Module IgnitionOutputProfile.
Inductive t :=
| WastedSpark (cylinders coils : Z)
| CoilOnPlug (cylinders coils : Z) (phase_required : bool).
#[global] Instance eq_dec : EqDecision t.
Proof. solve_decision. Defined.

Definition is_valid (p : t) : bool :=
  match p with
  | WastedSpark cylinders coils =>
    (0 <? cylinders) && (cylinders <=? FULL_ECU_MAX_CYLINDERS)
    && (0 <? coils) && (coils <=? FULL_ECU_MAX_CYLINDERS)
    && (coils <=? cylinders) && (cylinders mod coils =? 0)
  | CoilOnPlug cylinders coils _ =>
    (0 <? cylinders) && (cylinders <=? FULL_ECU_MAX_CYLINDERS) && (coils =? cylinders)
  end.

Definition event_count (p : t) : Z :=
  if is_valid p then
    match p with WastedSpark cylinders _ => cylinders | CoilOnPlug cylinders _ _ => cylinders end
  else 0.

Definition phase_required (p : t) : bool :=
  match p with WastedSpark _ _ => false | CoilOnPlug _ _ phase_required => phase_required end.

Definition ignition_channel (p : t) (slot : Z) : ChannelId :=
  let channels :=
    clamp (match p with WastedSpark _ coils => coils | CoilOnPlug _ coils _ => coils end)
      1 FULL_ECU_MAX_CYLINDERS in
  as_unsigned 8 (slot mod channels).
End IgnitionOutputProfile.

Module InjectionOutputProfile.
(** The one variant of the enum, [Sequential]. *)
Record t := Sequential {
  cylinders : Z;
  channels : Z;
  firing_order : list CylinderId;
  phase_required : bool;
}.
#[global] Instance eq_dec : EqDecision t.
Proof. solve_decision. Defined.

(** The copy loop [while i < N && i < FULL_ECU_MAX_CYLINDERS] from index [i]: the final
    index and the padded array. *)
Fixpoint copy_firing_order (i : nat) (order padded : list CylinderId) : nat * list CylinderId :=
  match order with
  | [] => (i, padded)
  | c :: order =>
    if Z.of_nat i <? FULL_ECU_MAX_CYLINDERS
    then copy_firing_order (S i) order (<[i := c]> padded)
    else (i, padded)
  end.

Definition sequential (firing_order : list CylinderId) (channels : Z) (phase_required : bool) : t :=
  let '(i, padded) :=
    copy_firing_order 0 firing_order (replicate (Z.to_nat FULL_ECU_MAX_CYLINDERS) 0) in
  Sequential (as_unsigned 8 (Z.of_nat i)) channels padded phase_required.

Definition is_valid (p : t) : bool :=
  if (cylinders p =? 0) || (FULL_ECU_MAX_CYLINDERS <? cylinders p)
     || (channels p =? 0) || (FULL_ECU_MAX_CYLINDERS <? channels p)
  then false
  else forallb (fun c => negb (c =? 0)) (take (Z.to_nat (cylinders p)) (firing_order p)).

Definition event_count (p : t) : Z := if is_valid p then cylinders p else 0.

Definition injector_channel (p : t) (slot : Z) : ChannelId :=
  as_unsigned 8 (slot mod clamp (channels p) 1 FULL_ECU_MAX_CYLINDERS).
End InjectionOutputProfile.

Module AuxSafetyProfile.
Record t := mk { off_on_limp_outputs : list (option AuxOutput.t) }.
#[global] Instance eq_dec : EqDecision t.
Proof. solve_decision. Defined.
Definition none : t := mk (replicate FULL_ECU_MAX_LIMP_AUX_OUTPUTS None).

Fixpoint copy_outputs (i : nat) (outputs : list AuxOutput.t) (padded : list (option AuxOutput.t)) :
    list (option AuxOutput.t) :=
  match outputs with
  | [] => padded
  | o :: outputs =>
    if (i <? FULL_ECU_MAX_LIMP_AUX_OUTPUTS)%nat
    then copy_outputs (S i) outputs (<[i := Some o]> padded)
    else padded
  end.
Definition off_on_limp (outputs : list AuxOutput.t) : t :=
  mk (copy_outputs 0 outputs (replicate FULL_ECU_MAX_LIMP_AUX_OUTPUTS None)).
End AuxSafetyProfile.

Module OutputAuthorityRequirement.
Inductive t := CrankSynchronized | FullSequential720.
#[global] Instance eq_dec : EqDecision t.
Proof. solve_decision. Defined.
Definition requires_full_sequential (r : t) : bool :=
  match r with FullSequential720 => true | CrankSynchronized => false end.
End OutputAuthorityRequirement.

Module FullEcuOutputProfile.
Record t := mk {
  ignition : IgnitionOutputProfile.t;
  injection : InjectionOutputProfile.t;
  aux_safety : AuxSafetyProfile.t;
  authority : OutputAuthorityRequirement.t;
}.
#[global] Instance eq_dec : EqDecision t.
Proof. solve_decision. Defined.

Definition sequential_wasted_spark (firing_order : list CylinderId) (injector_channels coils : Z)
    (aux_safety : AuxSafetyProfile.t) (authority : OutputAuthorityRequirement.t) : t :=
  mk (IgnitionOutputProfile.WastedSpark (as_unsigned 8 (Z.of_nat (length firing_order))) coils)
    (InjectionOutputProfile.sequential firing_order injector_channels true)
    aux_safety authority.

Definition sequential_coil_on_plug (firing_order : list CylinderId) (injector_channels coils : Z)
    (aux_safety : AuxSafetyProfile.t) (authority : OutputAuthorityRequirement.t) : t :=
  mk (IgnitionOutputProfile.CoilOnPlug (as_unsigned 8 (Z.of_nat (length firing_order))) coils true)
    (InjectionOutputProfile.sequential firing_order injector_channels true)
    aux_safety authority.

Definition is_valid (p : t) : bool :=
  let injection_events := InjectionOutputProfile.event_count (injection p) in
  let ignition_events := IgnitionOutputProfile.event_count (ignition p) in
  InjectionOutputProfile.is_valid (injection p) && IgnitionOutputProfile.is_valid (ignition p)
  && (0 <? injection_events) && (injection_events =? ignition_events).

Definition event_count (p : t) : Z :=
  if is_valid p then InjectionOutputProfile.event_count (injection p) else 0.

Definition injector_channel (p : t) (slot : Z) : ChannelId :=
  InjectionOutputProfile.injector_channel (injection p) slot.

Definition ignition_channel (p : t) (slot : Z) : ChannelId :=
  IgnitionOutputProfile.ignition_channel (ignition p) slot.

Definition cycle_slot_us (rpm : Rpm) : Z :=
  if rpm =? 0 then 0
  else
    let slot_us := 20000000 / rpm in
    as_unsigned 32 (clamp slot_us 1 u32_max).
End FullEcuOutputProfile.

Module RuntimeOutputProfile.
Inductive t :=
| LegacySingleChannel
| IgnitionOnly (profile : SparkOutputProfile.t)
| InjectionOnly (profile : FuelOutputProfile.t)
| FullEcu (profile : FullEcuOutputProfile.t).
#[global] Instance eq_dec : EqDecision t.
Proof. solve_decision. Defined.
End RuntimeOutputProfile.

(** ** Theorems *)

(** A channel of any topology is one of the eight the profiles allow. *)
Definition channel_ok (c : ChannelId) : Prop := 0 <= c < FULL_ECU_MAX_CYLINDERS.

Lemma slot_channel_ok slot n :
  1 <= n <= FULL_ECU_MAX_CYLINDERS -> channel_ok (as_unsigned 8 (slot mod n)).
Proof.
  unfold channel_ok, FULL_ECU_MAX_CYLINDERS. intros Hn.
  pose proof (Z.mod_pos_bound slot n ltac:(lia)).
  rewrite as_unsigned_small by (unfold fits; lia). lia.
Qed.

Lemma slot_channel_small slot n :
  1 <= n <= FULL_ECU_MAX_CYLINDERS -> as_unsigned 8 (slot mod n) = slot mod n.
Proof.
  unfold FULL_ECU_MAX_CYLINDERS. intros Hn.
  pose proof (Z.mod_pos_bound slot n ltac:(lia)). apply as_unsigned_small. unfold fits. lia.
Qed.

Lemma max_cylinders_clamp x : 1 <= clamp x 1 FULL_ECU_MAX_CYLINDERS <= FULL_ECU_MAX_CYLINDERS.
Proof. apply clamp_bounds. done. Qed.

Lemma events_per_crank_rev_bounds p :
  1 <= SparkOutputProfile.events_per_crank_rev p <= FULL_ECU_MAX_CYLINDERS.
Proof. apply max_cylinders_clamp. Qed.

Lemma events_per_pulse_bounds p :
  1 <= FuelOutputProfile.events_per_pulse p <= FULL_ECU_MAX_CYLINDERS.
Proof.
  unfold FuelOutputProfile.events_per_pulse.
  destruct (FuelOutputProfile.mode p); [done|apply max_cylinders_clamp].
Qed.

Lemma spark_channel_ok p i : channel_ok (SparkOutputProfile.ignition_channel p i).
Proof.
  unfold SparkOutputProfile.ignition_channel.
  destruct (SparkOutputProfile.mode p); [done|].
  apply slot_channel_ok, events_per_crank_rev_bounds.
Qed.

Lemma fuel_channel_ok p i : channel_ok (FuelOutputProfile.injector_channel p i).
Proof.
  unfold FuelOutputProfile.injector_channel.
  destruct (FuelOutputProfile.mode p) eqn:E; [done|].
  apply slot_channel_ok, events_per_pulse_bounds.
Qed.

Lemma ignition_channel_ok p slot : channel_ok (IgnitionOutputProfile.ignition_channel p slot).
Proof. apply slot_channel_ok, max_cylinders_clamp. Qed.

Lemma injector_channel_ok p slot : channel_ok (InjectionOutputProfile.injector_channel p slot).
Proof. apply slot_channel_ok, max_cylinders_clamp. Qed.

#[export] Hint Resolve spark_channel_ok fuel_channel_ok ignition_channel_ok injector_channel_ok
  events_per_crank_rev_bounds events_per_pulse_bounds : ecu.

Lemma event_tdc_angle_bounds p i :
  0 <= SparkOutputProfile.event_tdc_angle_deg10 p i < CRANK_REV_DEGREES10.
Proof.
  unfold SparkOutputProfile.event_tdc_angle_deg10, CRANK_REV_DEGREES10.
  pose proof (events_per_crank_rev_bounds p) as He. unfold FULL_ECU_MAX_CYLINDERS in He.
  set (n := SparkOutputProfile.events_per_crank_rev p) in *.
  pose proof (Z.mod_pos_bound i n ltac:(lia)).
  rewrite (as_unsigned_small 32) by (unfold fits; lia).
  assert (0 <= i mod n * 3600 / n < 3600).
  { split; [apply Z.div_pos; lia|]. apply Z.div_lt_upper_bound; nia. }
  rewrite as_unsigned_small by (unfold fits; lia). lia.
Qed.

(** The firing-order copy keeps the order and pads it with zeros. *)
Lemma copy_firing_order_spec i order padded :
  length padded = 8%nat -> (i + length order <= 8)%nat ->
  InjectionOutputProfile.copy_firing_order i order padded =
    ((i + length order)%nat,
     take i padded ++ order ++ drop (i + length order) padded).
Proof.
  revert i padded. induction order as [|c order IH]; intros i padded Hlen Hi; simpl.
  - by rewrite Nat.add_0_r, take_drop.
  - simpl in Hi. unfold FULL_ECU_MAX_CYLINDERS.
    destruct (Z.ltb_spec (Z.of_nat i) 8); [|lia].
    rewrite IH by (rewrite ?length_insert; lia). f_equal; [lia|].
    rewrite drop_insert_lt by lia.
    rewrite (take_S_r _ _ c) by (apply list_lookup_insert_eq; lia).
    rewrite take_insert_ge by lia. rewrite <- app_assoc. simpl. do 4 f_equal. lia.
Qed.

Lemma copy_firing_order_overflow i order padded :
  length padded = 8%nat -> (i <= 8)%nat -> (8 < i + length order)%nat ->
  fst (InjectionOutputProfile.copy_firing_order i order padded) = 8%nat.
Proof.
  revert i padded. induction order as [|c order IH]; intros i padded Hlen Hi Hlong; simpl in *.
  - lia.
  - unfold FULL_ECU_MAX_CYLINDERS. destruct (Z.ltb_spec (Z.of_nat i) 8); simpl; [|lia].
    destruct (decide (i = 7%nat /\ order = [])) as [[-> ->]|Hne]; [done|].
    apply IH; rewrite ?length_insert; [done|lia|].
    destruct order; simpl in *; [|lia]. destruct (decide (i = 7%nat)); [naive_solver|lia].
Qed.

Lemma sequential_short order ch pr : (length order <= 8)%nat ->
  InjectionOutputProfile.sequential order ch pr =
  InjectionOutputProfile.Sequential (Z.of_nat (length order)) ch
    (order ++ replicate (8 - length order) 0) pr.
Proof.
  intros Hlen. unfold InjectionOutputProfile.sequential.
  rewrite copy_firing_order_spec by (simpl; lia || done). simpl.
  change [0; 0; 0; 0; 0; 0; 0; 0] with (replicate 8 (0:Z)). rewrite drop_replicate.
  rewrite as_unsigned_small by (unfold fits; lia). done.
Qed.

Lemma sequential_long order ch pr : (8 < length order)%nat ->
  InjectionOutputProfile.cylinders (InjectionOutputProfile.sequential order ch pr) = 8.
Proof.
  intros Hlen. unfold InjectionOutputProfile.sequential.
  destruct (InjectionOutputProfile.copy_firing_order _ _ _) as [i padded] eqn:E.
  pose proof (copy_firing_order_overflow 0 order (replicate 8 0)) as H.
  change (Z.to_nat FULL_ECU_MAX_CYLINDERS) with 8%nat in E. rewrite E in H. simpl in H.
  simpl. by rewrite H by (done || lia).
Qed.

Lemma sequential_injection_valid_iff order ch pr : (length order <= 8)%nat ->
  InjectionOutputProfile.is_valid (InjectionOutputProfile.sequential order ch pr) = true <->
  (1 <= length order)%nat /\ ~ (ch = 0 \/ 8 < ch) /\ Forall (fun c => c <> 0) order.
Proof.
  intros Hlen. rewrite sequential_short by done.
  unfold InjectionOutputProfile.is_valid, FULL_ECU_MAX_CYLINDERS. simpl. rewrite Nat2Z.id.
  rewrite take_app_length, (Forall_forall _ order).
  destruct (Z.eqb_spec (Z.of_nat (length order)) 0),
    (Z.ltb_spec 8 (Z.of_nat (length order))), (Z.eqb_spec ch 0), (Z.ltb_spec 8 ch); simpl;
    try (split; [done|]; lia).
  rewrite forallb_forall. setoid_rewrite negb_true_iff. setoid_rewrite Z.eqb_neq.
  setoid_rewrite list_elem_of_In. split; [intros Hall; split_and!; [lia|lia|done]|tauto].
Qed.

Section CoilOnPlug.
Import FullEcuOutputProfile.
Implicit Types (order : list CylinderId).

(** a sequential coil-on-plug topology built from a firing order is valid exactly
    when the order names between one and eight nonzero cylinders, the injector
    channels are between one and eight and there is a coil per cylinder; then it has
    an event per cylinder, and the slots of one engine cycle drive pairwise distinct
    coils, all of them in range. *)
Theorem coil_on_plug_valid_iff order inj coils aux auth :
  (length order < 256)%nat -> u8 inj -> u8 coils ->
  let p := sequential_coil_on_plug order inj coils aux auth in
  (is_valid p = true <->
   (1 <= length order <= 8)%nat /\ Forall (fun c => c <> 0) order
   /\ 1 <= inj <= 8 /\ coils = Z.of_nat (length order))
  /\ (is_valid p = true ->
      event_count p = Z.of_nat (length order)
      /\ (forall s, channel_ok (ignition_channel p s))
      /\ (forall s s', 0 <= s < event_count p -> 0 <= s' < event_count p -> s <> s' ->
          ignition_channel p s <> ignition_channel p s')).
Proof.
  intros Hlen Hinj Hcoils. unfold fits in Hinj, Hcoils.
  assert (as_unsigned 8 (Z.of_nat (length order)) = Z.of_nat (length order)) as Hcast
    by (apply as_unsigned_small; unfold fits; lia).
  assert (is_valid (sequential_coil_on_plug order inj coils aux auth) = true <->
   (1 <= length order <= 8)%nat /\ Forall (fun c => c <> 0) order
   /\ 1 <= inj <= 8 /\ coils = Z.of_nat (length order)) as Hiff.
  { unfold is_valid, IgnitionOutputProfile.event_count, InjectionOutputProfile.event_count. simpl.
    rewrite Hcast. unfold FULL_ECU_MAX_CYLINDERS.
    destruct (decide (length order <= 8)%nat) as [Hs|Hl].
    - pose proof (sequential_injection_valid_iff order inj true Hs) as Hv.
      destruct (InjectionOutputProfile.is_valid _); simpl.
      + rewrite (sequential_short order inj true Hs). simpl.
        destruct (proj1 Hv eq_refl) as (? & ? & ?).
        destruct (Z.ltb_spec 0 (Z.of_nat (length order))); [|lia].
        destruct (Z.leb_spec (Z.of_nat (length order)) 8); [|lia].
        destruct (Z.eqb_spec coils (Z.of_nat (length order))); simpl; rewrite ?Z.eqb_refl; naive_solver lia.
      + split; [done|]. intros (? & ? & ? & ?). apply Hv. split_and!; [lia|lia|done].
    - split; [|lia]. intros Hval. to_prop. lia. }
  split; [done|]. intros Hval. pose proof (proj1 Hiff Hval) as (Hn & _ & Hi & Hc).
  assert (event_count (sequential_coil_on_plug order inj coils aux auth)
          = Z.of_nat (length order)) as Hcount.
  { unfold event_count. rewrite Hval. simpl. rewrite sequential_short by lia.
    pose proof Hval as Hval'. unfold is_valid in Hval'. simpl in Hval'.
    rewrite sequential_short in Hval' by lia. unfold InjectionOutputProfile.event_count.
    by destruct (InjectionOutputProfile.is_valid _). }
  split; [done|]. split; [intros; apply ignition_channel_ok|].
  intros s s' Hs Hs' Hne. rewrite Hcount in Hs, Hs'.
  unfold ignition_channel, IgnitionOutputProfile.ignition_channel. simpl.
  replace (clamp coils 1 FULL_ECU_MAX_CYLINDERS) with coils
    by (unfold clamp, FULL_ECU_MAX_CYLINDERS; repeat case_match; to_prop; lia).
  rewrite !slot_channel_small by (unfold FULL_ECU_MAX_CYLINDERS; lia).
  rewrite !Z.mod_small by lia. done.
Qed.

Lemma coil_on_plug_valid_iff_witness :
  let p := sequential_coil_on_plug [1; 3; 4; 2] 4 4 AuxSafetyProfile.none
             OutputAuthorityRequirement.FullSequential720 in
  is_valid p = true /\ event_count p = 4 /\ ignition_channel p 1 <> ignition_channel p 3.
Proof.
  destruct (coil_on_plug_valid_iff [1; 3; 4; 2] 4 4 AuxSafetyProfile.none
             OutputAuthorityRequirement.FullSequential720) as [Hiff Hp].
  - simpl; lia.
  - unfold fits; lia.
  - unfold fits; lia.
  - destruct Hp as (Hcount & _ & Hdist).
    + apply Hiff. split_and!; [simpl; lia..| | lia | lia |done].
      repeat constructor; done.
    + split; [done|]. split; [exact Hcount|]. apply Hdist; rewrite ?Hcount; simpl; lia.
Defined.
End CoilOnPlug.
