(* ===== verification/Wire.v ===== *)
(** * Wire codecs (crates/board-api/src/wire.rs)

    The byte frames of timing-island commands and events and of safety-gate inputs and
    statuses.  A byte buffer is a list of [Z]; a codec writes its frame over the front of
    the buffer it is given. *)
From S2P Require Import Prelude Domain BoardApi.

Definition TIMING_ISLAND_WIRE_VERSION : Z := 1.
Definition TIMING_ISLAND_COMMAND_WIRE_LEN : nat := 16.
Definition TIMING_ISLAND_EVENT_WIRE_LEN : nat := 16.
Definition SAFETY_GATE_INPUT_WIRE_LEN : nat := 16.
Definition SAFETY_GATE_STATUS_WIRE_LEN : nat := 20.

Module CodecError.
(** [TimingIslandCodecError] *)
Inductive t := ShortBuffer | UnsupportedVersion (v : Z) | UnknownTag (tag : Z) | InvalidField.
#[global] Instance eq_dec : EqDecision t.
Proof. solve_decision. Defined.
End CodecError.

(** ** Buffers *)

(** [out[i] = v] *)
Definition set_byte (i : nat) (v : Z) (buf : list Z) : list Z := <[i := v]> buf.
(** [bytes[i]] of a frame whose length has been checked. *)
Definition get_byte (i : nat) (buf : list Z) : Z := nth i buf 0.
(** [&bytes[a..b]] *)
Definition slice (a b : nat) (buf : list Z) : list Z := take (b - a) (drop a buf).
(** [f(&mut out[a..b])] *)
Definition on_slice (a b : nat) (f : list Z -> list Z) (buf : list Z) : list Z :=
  take a buf ++ f (slice a b buf) ++ drop b buf.
Definition fill (v : Z) (buf : list Z) : list Z := replicate (length buf) v.

(** [to_le_bytes] and [from_le_bytes] *)
Definition byte_of (v : Z) (k : Z) : Z := v / 2 ^ (8 * k) mod 256.
Definition put_u32 (value : Z) (out : list Z) : list Z :=
  [byte_of value 0; byte_of value 1; byte_of value 2; byte_of value 3] ++ drop 4 out.
Definition get_u32 (bytes : list Z) : Z :=
  get_byte 0 bytes + 2 ^ 8 * get_byte 1 bytes + 2 ^ 16 * get_byte 2 bytes + 2 ^ 24 * get_byte 3 bytes.
Definition put_u16 (value : Z) (out : list Z) : list Z :=
  [byte_of value 0; byte_of value 1] ++ drop 2 out.
Definition get_u16 (bytes : list Z) : Z := get_byte 0 bytes + 2 ^ 8 * get_byte 1 bytes.

(** [fixed_out::<N>] and the writes made through the slice it returns. *)
Definition with_fixed_out (N : nat) (out : list Z) (write : list Z -> list Z) :
    list Z * Result Z CodecError.t :=
  if (length out <? N)%nat then (out, Err CodecError.ShortBuffer)
  else (write (take N out) ++ drop N out, Ok (Z.of_nat N)).

Definition fixed_in (N : nat) (bytes : list Z) : Result (list Z) CodecError.t :=
  if (length bytes <? N)%nat then Err CodecError.ShortBuffer else Ok (take N bytes).

Definition expect_version (version : Z) : Result unit CodecError.t :=
  if version =? TIMING_ISLAND_WIRE_VERSION then Ok tt
  else Err (CodecError.UnsupportedVersion version).

(** ** Enumerations *)
Definition encode_edge_kind (x : EdgeKind.t) : Z :=
  match x with
  | EdgeKind.Rising => 0
  | EdgeKind.Falling => 1
  end.

Definition decode_edge_kind (value : Z) : Result EdgeKind.t CodecError.t :=
  match value with
  | 0 => Ok EdgeKind.Rising
  | 1 => Ok EdgeKind.Falling
  | _ => Err CodecError.InvalidField
  end.

Definition encode_output_level (x : OutputLevel.t) : Z :=
  match x with
  | OutputLevel.Low => 0
  | OutputLevel.High => 1
  end.

Definition decode_output_level (value : Z) : Result OutputLevel.t CodecError.t :=
  match value with
  | 0 => Ok OutputLevel.Low
  | 1 => Ok OutputLevel.High
  | _ => Err CodecError.InvalidField
  end.

Definition encode_cancel_reason (x : CancelReason.t) : Z :=
  match x with
  | CancelReason.Manual => 0
  | CancelReason.SyncLoss => 1
  | CancelReason.SafetyShutdown => 2
  | CancelReason.Commit => 3
  | CancelReason.Timeout => 4
  end.

Definition decode_cancel_reason (value : Z) : Result CancelReason.t CodecError.t :=
  match value with
  | 0 => Ok CancelReason.Manual
  | 1 => Ok CancelReason.SyncLoss
  | 2 => Ok CancelReason.SafetyShutdown
  | 3 => Ok CancelReason.Commit
  | 4 => Ok CancelReason.Timeout
  | _ => Err CodecError.InvalidField
  end.

Definition encode_timing_island_reject_reason (x : RejectReason.t) : Z :=
  match x with
  | RejectReason.CommandQueueFull => 0
  | RejectReason.PermitDenied => 1
  | RejectReason.BackendFault => 2
  | RejectReason.StaleCommand => 3
  end.

Definition decode_timing_island_reject_reason (value : Z) : Result RejectReason.t CodecError.t :=
  match value with
  | 0 => Ok RejectReason.CommandQueueFull
  | 1 => Ok RejectReason.PermitDenied
  | 2 => Ok RejectReason.BackendFault
  | 3 => Ok RejectReason.StaleCommand
  | _ => Err CodecError.InvalidField
  end.

Definition encode_crank_sync_state (x : CrankSyncState.t) : Z :=
  match x with
  | CrankSyncState.NoSignal => 0
  | CrankSyncState.PrimarySearching => 1
  | CrankSyncState.PrimaryLocked => 2
  | CrankSyncState.SyncLost => 3
  end.

Definition decode_crank_sync_state (value : Z) : Result CrankSyncState.t CodecError.t :=
  match value with
  | 0 => Ok CrankSyncState.NoSignal
  | 1 => Ok CrankSyncState.PrimarySearching
  | 2 => Ok CrankSyncState.PrimaryLocked
  | 3 => Ok CrankSyncState.SyncLost
  | _ => Err CodecError.InvalidField
  end.

Definition encode_phase_sync_state (x : PhaseSyncState.t) : Z :=
  match x with
  | PhaseSyncState.Unknown => 0
  | PhaseSyncState.CrankOnly360 => 1
  | PhaseSyncState.CamObserved720 => 2
  | PhaseSyncState.CamValidated720 => 3
  end.

Definition decode_phase_sync_state (value : Z) : Result PhaseSyncState.t CodecError.t :=
  match value with
  | 0 => Ok PhaseSyncState.Unknown
  | 1 => Ok PhaseSyncState.CrankOnly360
  | 2 => Ok PhaseSyncState.CamObserved720
  | 3 => Ok PhaseSyncState.CamValidated720
  | _ => Err CodecError.InvalidField
  end.

Definition encode_absolute_time_authority (x : AbsoluteTimeAuthority.t) : Z :=
  match x with
  | AbsoluteTimeAuthority.None => 0
  | AbsoluteTimeAuthority.GeometryOnly => 1
  | AbsoluteTimeAuthority.ExpertManual => 2
  | AbsoluteTimeAuthority.CommunityProfile => 3
  | AbsoluteTimeAuthority.CertifiedProfile => 4
  | AbsoluteTimeAuthority.BenchLearned => 5
  end.

Definition decode_absolute_time_authority (value : Z) : Result AbsoluteTimeAuthority.t CodecError.t :=
  match value with
  | 0 => Ok AbsoluteTimeAuthority.None
  | 1 => Ok AbsoluteTimeAuthority.GeometryOnly
  | 2 => Ok AbsoluteTimeAuthority.ExpertManual
  | 3 => Ok AbsoluteTimeAuthority.CommunityProfile
  | 4 => Ok AbsoluteTimeAuthority.CertifiedProfile
  | 5 => Ok AbsoluteTimeAuthority.BenchLearned
  | _ => Err CodecError.InvalidField
  end.

Definition encode_safety_gate_permit (x : SafetyGatePermit.t) : Z :=
  match x with
  | SafetyGatePermit.Denied => 0
  | SafetyGatePermit.Allowed => 1
  end.

Definition decode_safety_gate_permit (value : Z) : Result SafetyGatePermit.t CodecError.t :=
  match value with
  | 0 => Ok SafetyGatePermit.Denied
  | 1 => Ok SafetyGatePermit.Allowed
  | _ => Err CodecError.InvalidField
  end.

Definition encode_safety_gate_reason (x : SafetyGateReason.t) : Z :=
  match x with
  | SafetyGateReason.None => 0
  | SafetyGateReason.SyncNotAuthorized => 1
  | SafetyGateReason.KillAsserted => 5
  | SafetyGateReason.PowerNotGood => 6
  | SafetyGateReason.WatchdogTimeout => 7
  | SafetyGateReason.TimingBackendNotAlive => 8
  | SafetyGateReason.BackendNotAlive => 9
  | SafetyGateReason.DriverFault => 10
  end.

Definition decode_safety_gate_reason (value : Z) : Result SafetyGateReason.t CodecError.t :=
  match value with
  | 0 => Ok SafetyGateReason.None
  | 1 => Ok SafetyGateReason.SyncNotAuthorized
  | 5 => Ok SafetyGateReason.KillAsserted
  | 6 => Ok SafetyGateReason.PowerNotGood
  | 7 => Ok SafetyGateReason.WatchdogTimeout
  | 8 => Ok SafetyGateReason.TimingBackendNotAlive
  | 9 => Ok SafetyGateReason.BackendNotAlive
  | 10 => Ok SafetyGateReason.DriverFault
  | _ => Err CodecError.InvalidField
  end.

Definition encode_fault_code (x : FaultCode.t) : Z :=
  match x with
  | FaultCode.None => 0
  | FaultCode.SyncLoss => 1
  | FaultCode.SensorOutOfRange => 2
  | FaultCode.CalibrationInvalid => 3
  | FaultCode.SafetyCut => 4
  | FaultCode.ActuatorFault => 5
  end.

Definition decode_fault_code (value : Z) : Result FaultCode.t CodecError.t :=
  match value with
  | 0 => Ok FaultCode.None
  | 1 => Ok FaultCode.SyncLoss
  | 2 => Ok FaultCode.SensorOutOfRange
  | 3 => Ok FaultCode.CalibrationInvalid
  | 4 => Ok FaultCode.SafetyCut
  | 5 => Ok FaultCode.ActuatorFault
  | _ => Err CodecError.InvalidField
  end.

Definition encode_fault_severity (x : FaultSeverity.t) : Z :=
  match x with
  | FaultSeverity.Info => 0
  | FaultSeverity.Warning => 1
  | FaultSeverity.Critical => 2
  end.

Definition decode_fault_severity (value : Z) : Result FaultSeverity.t CodecError.t :=
  match value with
  | 0 => Ok FaultSeverity.Info
  | 1 => Ok FaultSeverity.Warning
  | 2 => Ok FaultSeverity.Critical
  | _ => Err CodecError.InvalidField
  end.

Definition encode_sync_state (x : SyncState.t) : Z :=
  match x with
  | SyncState.Unsynced => 0
  | SyncState.Provisional => 1
  | SyncState.Locked _ => 2
  end.

Definition decode_sync_state (value : Z) : Result SyncState.t CodecError.t :=
  match value with
  | 0 => Ok SyncState.Unsynced
  | 1 => Ok SyncState.Provisional
  | 2 => Ok (SyncState.Locked false)
  | _ => Err CodecError.InvalidField
  end.

(** ** Fields *)
Definition encode_trigger_edge (edge : TriggerEdgeEvent.t) (out : list Z) : list Z :=
  let out := set_byte 0 (encode_edge_kind (TriggerEdgeEvent.kind edge)) out in
  on_slice 1 5 (put_u32 (TriggerEdgeEvent.at_ edge)) out.

Definition decode_trigger_edge (bytes : list Z) : Result TriggerEdgeEvent.t CodecError.t :=
  let? kind := decode_edge_kind (get_byte 0 bytes) in
  Ok (TriggerEdgeEvent.mk kind (get_u32 (slice 1 5 bytes))).

Definition encode_output_transition (transition : OutputTransition.t) (out : list Z) : list Z :=
  let '(kind, channel) :=
    match OutputTransition.output transition with
    | EcuOutput.Injector channel => (1, channel)
    | EcuOutput.Ignition channel => (2, channel)
    end in
  let out := set_byte 0 kind out in
  let out := set_byte 1 channel out in
  let out := set_byte 2 (encode_output_level (OutputTransition.level transition)) out in
  on_slice 4 8 (put_u32 (OutputTransition.at_ transition)) out.

Definition decode_output_transition (bytes : list Z) : Result OutputTransition.t CodecError.t :=
  let? output :=
    match get_byte 0 bytes with
    | 1 => Ok (EcuOutput.Injector (get_byte 1 bytes))
    | 2 => Ok (EcuOutput.Ignition (get_byte 1 bytes))
    | _ => Err CodecError.InvalidField
    end in
  let? level := decode_output_level (get_byte 2 bytes) in
  Ok (OutputTransition.mk output level (get_u32 (slice 4 8 bytes))).

Definition encode_aux_output (output : AuxOutput.t) : Z * Z :=
  match output with
  | AuxOutput.SafetyRelay id => (1, id)
  | AuxOutput.Indicator id => (2, id)
  | AuxOutput.FrequencyOut id => (3, id)
  | AuxOutput.Digital channel => (4, channel)
  | AuxOutput.Pwm channel => (5, channel)
  end.

Definition decode_aux_output (kind arg : Z) : Result AuxOutput.t CodecError.t :=
  match kind with
  | 1 => Ok (AuxOutput.SafetyRelay arg)
  | 2 => Ok (AuxOutput.Indicator arg)
  | 3 => Ok (AuxOutput.FrequencyOut arg)
  | 4 => Ok (AuxOutput.Digital arg)
  | 5 => Ok (AuxOutput.Pwm arg)
  | _ => Err CodecError.InvalidField
  end.

Definition encode_aux_value (value : AuxValue.t) : Z * Z :=
  match value with
  | AuxValue.Off => (0, 0)
  | AuxValue.Duty percent => (1, percent)
  | AuxValue.Level level => (2, encode_output_level level)
  end.

Definition decode_aux_value (kind arg : Z) : Result AuxValue.t CodecError.t :=
  match kind with
  | 0 => Ok AuxValue.Off
  | 1 => Ok (AuxValue.Duty arg)
  | 2 => let? level := decode_output_level arg in Ok (AuxValue.Level level)
  | _ => Err CodecError.InvalidField
  end.

Definition encode_aux_command (command : AuxCommand.t) (out : list Z) : list Z :=
  let '(output_kind, output_arg) := encode_aux_output (AuxCommand.output command) in
  let '(value_kind, value_arg) := encode_aux_value (AuxCommand.value command) in
  let out := set_byte 0 output_kind out in
  let out := set_byte 1 output_arg out in
  let out := set_byte 2 value_kind out in
  set_byte 3 value_arg out.

Definition decode_aux_command (bytes : list Z) : Result AuxCommand.t CodecError.t :=
  let? output := decode_aux_output (get_byte 0 bytes) (get_byte 1 bytes) in
  let? value := decode_aux_value (get_byte 2 bytes) (get_byte 3 bytes) in
  Ok (AuxCommand.mk output value).

Definition encode_engine_time_authority_telemetry (status : AuthorityTelemetry.t) (out : list Z) :
    list Z :=
  let authority := AuthorityTelemetry.authority status in
  let out := set_byte 0 (encode_crank_sync_state (EngineTimeAuthority.crank authority)) out in
  let out := set_byte 1 (encode_phase_sync_state (EngineTimeAuthority.phase authority)) out in
  let out := set_byte 2 (encode_absolute_time_authority (EngineTimeAuthority.absolute authority)) out in
  let out := set_byte 3 (encode_sync_state (AuthorityTelemetry.summary status)) out in
  let out := set_byte 4 (Z.b2z (AuthorityTelemetry.full_sequential_authorized status)) out in
  let out := on_slice 5 7 (put_u16 (EngineTimeAuthority.confidence_x1000 authority)) out in
  on_slice 7 9 (put_u16 (EngineTimeAuthority.sync_loss_count authority)) out.

Definition decode_engine_time_authority_telemetry (bytes : list Z) :
    Result AuthorityTelemetry.t CodecError.t :=
  let? crank := decode_crank_sync_state (get_byte 0 bytes) in
  let? phase := decode_phase_sync_state (get_byte 1 bytes) in
  let? absolute := decode_absolute_time_authority (get_byte 2 bytes) in
  let authority :=
    EngineTimeAuthority.mk crank phase absolute (get_u16 (slice 5 7 bytes)) (get_u16 (slice 7 9 bytes)) in
  let status := AuthorityTelemetry.new authority in
  let? sync_state := decode_sync_state (get_byte 3 bytes) in
  let flag := get_byte 4 bytes in
  if negb (bool_decide (sync_state = AuthorityTelemetry.summary status))
     || (negb (flag =? 0) && negb (flag =? 1))
  then Err CodecError.InvalidField
  else if negb (Bool.eqb (negb (flag =? 0)) (AuthorityTelemetry.full_sequential_authorized status))
  then Err CodecError.InvalidField
  else Ok status.

Definition encode_timing_island_fault_status (status : FaultStatus.t) (out : list Z) : list Z :=
  let out := set_byte 0 (encode_fault_code (FaultStatus.code status)) out in
  let out := set_byte 1 (encode_fault_severity (FaultStatus.severity status)) out in
  on_slice 2 6 (put_u32 (FaultStatus.at_ status)) out.

Definition decode_timing_island_fault_status (bytes : list Z) : Result FaultStatus.t CodecError.t :=
  let? code := decode_fault_code (get_byte 0 bytes) in
  let? severity := decode_fault_severity (get_byte 1 bytes) in
  Ok (FaultStatus.mk code severity (get_u32 (slice 2 6 bytes))).

(** ** Frames *)
Definition encode_timing_island_command (command : TimingIslandCommand.t) (out : list Z) :
    list Z * Result Z CodecError.t :=
  with_fixed_out TIMING_ISLAND_COMMAND_WIRE_LEN out (fun out =>
    let out := fill 0 out in
    let out := set_byte 0 TIMING_ISLAND_WIRE_VERSION out in
    match command with
    | TimingIslandCommand.ArmOutput transition =>
      on_slice 2 10 (encode_output_transition transition) (set_byte 1 1 out)
    | TimingIslandCommand.ApplyAux command =>
      on_slice 2 6 (encode_aux_command command) (set_byte 1 2 out)
    | TimingIslandCommand.CancelAll reason =>
      set_byte 2 (encode_cancel_reason reason) (set_byte 1 3 out)
    | TimingIslandCommand.FeedWatchdog => set_byte 1 4 out
    | TimingIslandCommand.UpdatePermitMask mask => on_slice 2 6 (put_u32 mask) (set_byte 1 5 out)
    end).

Definition decode_timing_island_command (bytes : list Z) :
    Result TimingIslandCommand.t CodecError.t :=
  let? bytes := fixed_in TIMING_ISLAND_COMMAND_WIRE_LEN bytes in
  let? _ := expect_version (get_byte 0 bytes) in
  match get_byte 1 bytes with
  | 1 => let? t := decode_output_transition (slice 2 10 bytes) in Ok (TimingIslandCommand.ArmOutput t)
  | 2 => let? c := decode_aux_command (slice 2 6 bytes) in Ok (TimingIslandCommand.ApplyAux c)
  | 3 => let? r := decode_cancel_reason (get_byte 2 bytes) in Ok (TimingIslandCommand.CancelAll r)
  | 4 => Ok TimingIslandCommand.FeedWatchdog
  | 5 => Ok (TimingIslandCommand.UpdatePermitMask (SafetyPermitMask.new (get_u32 (slice 2 6 bytes))))
  | tag => Err (CodecError.UnknownTag tag)
  end.

Definition encode_timing_island_event (event : TimingIslandEvent.t) (out : list Z) :
    list Z * Result Z CodecError.t :=
  with_fixed_out TIMING_ISLAND_EVENT_WIRE_LEN out (fun out =>
    let out := fill 0 out in
    let out := set_byte 0 TIMING_ISLAND_WIRE_VERSION out in
    match event with
    | TimingIslandEvent.OutputArmed transition =>
      on_slice 2 10 (encode_output_transition transition) (set_byte 1 1 out)
    | TimingIslandEvent.OutputCompleted transition =>
      on_slice 2 10 (encode_output_transition transition) (set_byte 1 2 out)
    | TimingIslandEvent.AuxApplied command =>
      on_slice 2 6 (encode_aux_command command) (set_byte 1 3 out)
    | TimingIslandEvent.Cancelled reason =>
      set_byte 2 (encode_cancel_reason reason) (set_byte 1 4 out)
    | TimingIslandEvent.Rejected reason =>
      set_byte 2 (encode_timing_island_reject_reason reason) (set_byte 1 5 out)
    | TimingIslandEvent.CrankEdge edge => on_slice 2 7 (encode_trigger_edge edge) (set_byte 1 6 out)
    | TimingIslandEvent.CamEdge edge => on_slice 2 7 (encode_trigger_edge edge) (set_byte 1 7 out)
    | TimingIslandEvent.SyncStatus status =>
      on_slice 2 11 (encode_engine_time_authority_telemetry status) (set_byte 1 8 out)
    | TimingIslandEvent.FaultStatus status =>
      on_slice 2 8 (encode_timing_island_fault_status status) (set_byte 1 9 out)
    end).

Definition decode_timing_island_event (bytes : list Z) : Result TimingIslandEvent.t CodecError.t :=
  let? bytes := fixed_in TIMING_ISLAND_EVENT_WIRE_LEN bytes in
  let? _ := expect_version (get_byte 0 bytes) in
  match get_byte 1 bytes with
  | 1 => let? t := decode_output_transition (slice 2 10 bytes) in Ok (TimingIslandEvent.OutputArmed t)
  | 2 => let? t := decode_output_transition (slice 2 10 bytes) in Ok (TimingIslandEvent.OutputCompleted t)
  | 3 => let? c := decode_aux_command (slice 2 6 bytes) in Ok (TimingIslandEvent.AuxApplied c)
  | 4 => let? r := decode_cancel_reason (get_byte 2 bytes) in Ok (TimingIslandEvent.Cancelled r)
  | 5 => let? r := decode_timing_island_reject_reason (get_byte 2 bytes) in Ok (TimingIslandEvent.Rejected r)
  | 6 => let? e := decode_trigger_edge (slice 2 7 bytes) in Ok (TimingIslandEvent.CrankEdge e)
  | 7 => let? e := decode_trigger_edge (slice 2 7 bytes) in Ok (TimingIslandEvent.CamEdge e)
  | 8 => let? s := decode_engine_time_authority_telemetry (slice 2 11 bytes) in
         Ok (TimingIslandEvent.SyncStatus s)
  | 9 => let? s := decode_timing_island_fault_status (slice 2 8 bytes) in
         Ok (TimingIslandEvent.FaultStatus s)
  | tag => Err (CodecError.UnknownTag tag)
  end.

Definition encode_safety_gate_input_flags (input : SafetyGateInput.t) : Z :=
  Z.lor (Z.lor (Z.lor (Z.lor (Z.lor (Z.b2z (SafetyGateInput.kill_n input))
    (Z.shiftl (Z.b2z (SafetyGateInput.power_good input)) 1))
    (Z.shiftl (Z.b2z (SafetyGateInput.watchdog_ok input)) 2))
    (Z.shiftl (Z.b2z (SafetyGateInput.timing_backend_alive input)) 3))
    (Z.shiftl (Z.b2z (SafetyGateInput.backend_alive input)) 4))
    (Z.shiftl (Z.b2z (SafetyGateInput.sync_authority_ok input)) 5).

Definition encode_safety_gate_input (input : SafetyGateInput.t) (out : list Z) :
    list Z * Result Z CodecError.t :=
  with_fixed_out SAFETY_GATE_INPUT_WIRE_LEN out (fun out =>
    let out := fill 0 out in
    let out := set_byte 0 TIMING_ISLAND_WIRE_VERSION out in
    let out := set_byte 1 (encode_safety_gate_input_flags input) out in
    let out := on_slice 2 6 (put_u32 (SafetyGateInput.now_us input)) out in
    let out := on_slice 6 10 (put_u32 (SafetyGateInput.driver_faults input)) out in
    on_slice 10 14 (put_u32 (SafetyGateInput.requested_permit_mask input)) out).

(** [flags & !0b0011_1111], the complement taken on a [u8]. *)
Definition flag_set (flags : Z) (k : Z) : bool := negb (Z.land flags (Z.shiftl 1 k) =? 0).

Definition decode_safety_gate_input (bytes : list Z) : Result SafetyGateInput.t CodecError.t :=
  let? bytes := fixed_in SAFETY_GATE_INPUT_WIRE_LEN bytes in
  let? _ := expect_version (get_byte 0 bytes) in
  let flags := get_byte 1 bytes in
  if negb (Z.land flags (255 - 63) =? 0) then Err CodecError.InvalidField
  else
    Ok (SafetyGateInput.mk (get_u32 (slice 2 6 bytes)) (flag_set flags 0) (flag_set flags 1)
      (flag_set flags 2) (flag_set flags 3) (flag_set flags 4) (flag_set flags 5)
      (get_u32 (slice 6 10 bytes)) (SafetyPermitMask.new (get_u32 (slice 10 14 bytes)))).

Definition encode_safety_gate_status (status : SafetyGateStatus.t) (out : list Z) :
    list Z * Result Z CodecError.t :=
  with_fixed_out SAFETY_GATE_STATUS_WIRE_LEN out (fun out =>
    let out := fill 0 out in
    let out := set_byte 0 TIMING_ISLAND_WIRE_VERSION out in
    let out := set_byte 1 (encode_safety_gate_permit (SafetyGateStatus.permit status)) out in
    let out := set_byte 2 (encode_safety_gate_reason (SafetyGateStatus.reason status)) out in
    let out := set_byte 3 (encode_fault_code (SafetyGateStatus.fault_code status)) out in
    let out := set_byte 4 (encode_fault_severity (SafetyGateStatus.fault_severity status)) out in
    let out := on_slice 5 9 (put_u32 (SafetyGateStatus.driver_faults status)) out in
    let out := on_slice 9 13 (put_u32 (SafetyGateStatus.last_checked_us status)) out in
    on_slice 13 17 (put_u32 (SafetyGateStatus.effective_permit_mask status)) out).

Definition decode_safety_gate_status (bytes : list Z) : Result SafetyGateStatus.t CodecError.t :=
  let? bytes := fixed_in SAFETY_GATE_STATUS_WIRE_LEN bytes in
  let? _ := expect_version (get_byte 0 bytes) in
  let? permit := decode_safety_gate_permit (get_byte 1 bytes) in
  let? reason := decode_safety_gate_reason (get_byte 2 bytes) in
  let? fault_code := decode_fault_code (get_byte 3 bytes) in
  let? fault_severity := decode_fault_severity (get_byte 4 bytes) in
  Ok (SafetyGateStatus.mk permit reason fault_code fault_severity (get_u32 (slice 5 9 bytes))
    (get_u32 (slice 9 13 bytes)) (SafetyPermitMask.new (get_u32 (slice 13 17 bytes)))).

(** ** The codec interface

    A message type with a frame of fixed length: encoding writes the frame over the front
    of a buffer that is long enough, and decoding a buffer that starts with the frame
    gives the message back. *)
Class WireCodec (M : Type) := {
  wire_len : nat;
  wire_encode : M -> list Z -> list Z * Result Z CodecError.t;
  wire_decode : list Z -> Result M CodecError.t;
}.

Class WireCodecLaws (M : Type) `{WireCodec M} := {
  wire_wf : M -> Prop;
  encode_decode : forall m out, wire_wf m -> (wire_len <= length out)%nat ->
    exists frame, wire_encode m out = (frame ++ drop wire_len out, Ok (Z.of_nat wire_len))
      /\ length frame = wire_len /\ forall rest, wire_decode (frame ++ rest) = Ok m;
  encode_short : forall m out, (length out < wire_len)%nat ->
    wire_encode m out = (out, Err CodecError.ShortBuffer);
  decode_short : forall bytes, (length bytes < wire_len)%nat ->
    wire_decode bytes = Err CodecError.ShortBuffer;
}.

(** ** Lemmas *)
Lemma byte_of_bounds v k : 0 <= byte_of v k < 256.
Proof. apply Z.mod_pos_bound. lia. Qed.

Lemma get_put_u32 v out : u32 v -> get_u32 (put_u32 v out) = v.
Proof.
  unfold fits, get_u32, put_u32, get_byte, byte_of. cbn [app nth]. intros Hv.
  change (2 ^ (8 * 0)) with 1. change (2 ^ (8 * 1)) with 256. change (2 ^ (8 * 2)) with 65536.
  change (2 ^ (8 * 3)) with 16777216. change (2 ^ 8) with 256. change (2 ^ 16) with 65536.
  change (2 ^ 24) with 16777216. change (2 ^ 32) with 4294967296 in Hv.
  Z.to_euclidean_division_equations. lia.
Qed.

Lemma get_put_u16 v out : u16 v -> get_u16 (put_u16 v out) = v.
Proof.
  unfold fits, get_u16, put_u16, get_byte, byte_of. cbn [app nth]. intros Hv.
  change (2 ^ (8 * 0)) with 1. change (2 ^ (8 * 1)) with 256. change (2 ^ 8) with 256.
  change (2 ^ 16) with 65536 in Hv. Z.to_euclidean_division_equations. lia.
Qed.

(** Little-endian words as they sit in a frame. *)
Lemma get_u32_bytes v : u32 v ->
  get_u32 [byte_of v 0; byte_of v 1; byte_of v 2; byte_of v 3] = v.
Proof. intros Hv. exact (get_put_u32 v [] Hv). Qed.

Lemma get_u16_bytes v : u16 v -> get_u16 [byte_of v 0; byte_of v 1] = v.
Proof. intros Hv. exact (get_put_u16 v [] Hv). Qed.

Lemma permit_mask_known m : 0 <= m <= SafetyPermitMask.KNOWN_BITS -> SafetyPermitMask.new m = m.
Proof.
  intros Hm. unfold SafetyPermitMask.new. change SafetyPermitMask.KNOWN_BITS with (Z.ones 3) in *.
  rewrite Z.land_ones by lia. apply Z.mod_small. change (Z.ones 3) with 7 in Hm. lia.
Qed.

(** A writer that produces a fixed frame, whatever was in the buffer. *)
Lemma with_fixed_out_frame N out write frame : (N <= length out)%nat ->
  write (take N out) = frame ->
  with_fixed_out N out write = (frame ++ drop N out, Ok (Z.of_nat N)).
Proof.
  intros HN <-. unfold with_fixed_out. by destruct (Nat.ltb_spec (length out) N); [lia|].
Qed.

Lemma with_fixed_out_short N out write : (length out < N)%nat ->
  with_fixed_out N out write = (out, Err CodecError.ShortBuffer).
Proof. intros HN. unfold with_fixed_out. by destruct (Nat.ltb_spec (length out) N); [|lia]. Qed.

Lemma fill_take N out : (N <= length out)%nat -> fill 0 (take N out) = replicate N 0.
Proof. intros HN. unfold fill. rewrite length_take. f_equal. lia. Qed.

Lemma fixed_in_frame N frame rest : length frame = N -> fixed_in N (frame ++ rest) = Ok frame.
Proof.
  intros <-. unfold fixed_in. rewrite length_app.
  destruct (Nat.ltb_spec (length frame + length rest) (length frame)); [lia|].
  by rewrite take_app_length.
Qed.

(** Every enumeration decodes to what was encoded. *)
Lemma decode_encode_enums :
  (forall x, decode_edge_kind (encode_edge_kind x) = Ok x)
  /\ (forall x, decode_output_level (encode_output_level x) = Ok x)
  /\ (forall x, decode_cancel_reason (encode_cancel_reason x) = Ok x)
  /\ (forall x, decode_timing_island_reject_reason (encode_timing_island_reject_reason x) = Ok x)
  /\ (forall x, decode_crank_sync_state (encode_crank_sync_state x) = Ok x)
  /\ (forall x, decode_phase_sync_state (encode_phase_sync_state x) = Ok x)
  /\ (forall x, decode_absolute_time_authority (encode_absolute_time_authority x) = Ok x)
  /\ (forall x, decode_safety_gate_permit (encode_safety_gate_permit x) = Ok x)
  /\ (forall x, decode_safety_gate_reason (encode_safety_gate_reason x) = Ok x)
  /\ (forall x, decode_fault_code (encode_fault_code x) = Ok x)
  /\ (forall x, decode_fault_severity (encode_fault_severity x) = Ok x).
Proof. split_and!; by intros []. Qed.

(** *** Well-formed messages: every field within its width *)
Definition aux_output_arg (o : AuxOutput.t) : Z := snd (encode_aux_output o).
Definition transition_wf (t : OutputTransition.t) : Prop := u32 (OutputTransition.at_ t).
Definition command_wf (c : TimingIslandCommand.t) : Prop :=
  match c with
  | TimingIslandCommand.ArmOutput t => transition_wf t
  | TimingIslandCommand.UpdatePermitMask m => 0 <= m <= SafetyPermitMask.KNOWN_BITS
  | _ => True
  end.
Definition event_wf (e : TimingIslandEvent.t) : Prop :=
  match e with
  | TimingIslandEvent.OutputArmed t | TimingIslandEvent.OutputCompleted t => transition_wf t
  | TimingIslandEvent.CrankEdge e | TimingIslandEvent.CamEdge e => u32 (TriggerEdgeEvent.at_ e)
  | TimingIslandEvent.SyncStatus s =>
      s = AuthorityTelemetry.new (AuthorityTelemetry.authority s)
      /\ u16 (EngineTimeAuthority.confidence_x1000 (AuthorityTelemetry.authority s))
      /\ u16 (EngineTimeAuthority.sync_loss_count (AuthorityTelemetry.authority s))
  | TimingIslandEvent.FaultStatus s => u32 (FaultStatus.at_ s)
  | _ => True
  end.
Definition gate_input_wf (i : SafetyGateInput.t) : Prop :=
  u32 (SafetyGateInput.now_us i) /\ u32 (SafetyGateInput.driver_faults i)
  /\ 0 <= SafetyGateInput.requested_permit_mask i <= SafetyPermitMask.KNOWN_BITS.
Definition gate_status_wf (s : SafetyGateStatus.t) : Prop :=
  u32 (SafetyGateStatus.driver_faults s) /\ u32 (SafetyGateStatus.last_checked_us s)
  /\ 0 <= SafetyGateStatus.effective_permit_mask s <= SafetyPermitMask.KNOWN_BITS.

Lemma known_bits_u32 m : 0 <= m <= SafetyPermitMask.KNOWN_BITS -> u32 m.
Proof. change SafetyPermitMask.KNOWN_BITS with 7. unfold fits. lia. Qed.

(** Symbolic evaluation of a frame: only the byte and word functions stay folded. *)
Ltac frame_eval :=
  cbn -[byte_of get_u32 get_u16 SafetyPermitMask.new AuthorityTelemetry.new
        encode_edge_kind encode_output_level encode_cancel_reason encode_timing_island_reject_reason
        encode_crank_sync_state encode_phase_sync_state encode_absolute_time_authority
        encode_safety_gate_permit encode_safety_gate_reason encode_fault_code encode_fault_severity
        decode_edge_kind decode_output_level decode_cancel_reason decode_timing_island_reject_reason
        decode_crank_sync_state decode_phase_sync_state decode_absolute_time_authority
        decode_safety_gate_permit decode_safety_gate_reason decode_fault_code decode_fault_severity
        encode_safety_gate_input_flags flag_set Z.land].

Ltac decode_fields :=
  let H := fresh in pose proof decode_encode_enums as H;
  destruct H as (? & ? & ? & ? & ? & ? & ? & ? & ? & ? & ?);
  repeat match goal with
  | H : forall x, ?f (?g x) = Ok x |- context [?f (?g ?y)] => rewrite (H y); frame_eval
  end.

Lemma output_transition_roundtrip t frame : transition_wf t ->
  frame = replicate 8 0 ->
  decode_output_transition (encode_output_transition t frame) = Ok t
  /\ length (encode_output_transition t frame) = 8%nat.
Proof.
  intros Ht ->. destruct t as [[c|c] l a]; unfold transition_wf in Ht; simpl in Ht;
    frame_eval; unfold decode_output_transition; frame_eval; decode_fields;
    by rewrite get_u32_bytes.
Qed.

Lemma aux_command_roundtrip c frame : frame = replicate 4 0 ->
  decode_aux_command (encode_aux_command c frame) = Ok c
  /\ length (encode_aux_command c frame) = 4%nat.
Proof.
  intros ->. destruct c as [[]  [|p|l]]; frame_eval; unfold decode_aux_command; frame_eval;
    decode_fields; done.
Qed.

Lemma trigger_edge_roundtrip e frame : u32 (TriggerEdgeEvent.at_ e) -> frame = replicate 5 0 ->
  decode_trigger_edge (encode_trigger_edge e frame) = Ok e
  /\ length (encode_trigger_edge e frame) = 5%nat.
Proof.
  intros He ->. destruct e as [k a]. simpl in He. frame_eval. unfold decode_trigger_edge.
  frame_eval. decode_fields. by rewrite get_u32_bytes.
Qed.

Lemma fault_status_roundtrip s frame : u32 (FaultStatus.at_ s) -> frame = replicate 6 0 ->
  decode_timing_island_fault_status (encode_timing_island_fault_status s frame) = Ok s
  /\ length (encode_timing_island_fault_status s frame) = 6%nat.
Proof.
  intros Hs ->. destruct s as [c v a]. simpl in Hs. frame_eval.
  unfold decode_timing_island_fault_status. frame_eval. decode_fields. by rewrite get_u32_bytes.
Qed.

Lemma summary_roundtrip a :
  decode_sync_state (encode_sync_state (EngineTimeAuthority.compatibility_summary a))
  = Ok (EngineTimeAuthority.compatibility_summary a).
Proof. unfold EngineTimeAuthority.compatibility_summary. by repeat case_match. Qed.

Lemma telemetry_roundtrip s frame :
  s = AuthorityTelemetry.new (AuthorityTelemetry.authority s) ->
  u16 (EngineTimeAuthority.confidence_x1000 (AuthorityTelemetry.authority s)) ->
  u16 (EngineTimeAuthority.sync_loss_count (AuthorityTelemetry.authority s)) ->
  frame = replicate 9 0 ->
  decode_engine_time_authority_telemetry (encode_engine_time_authority_telemetry s frame) = Ok s
  /\ length (encode_engine_time_authority_telemetry s frame) = 9%nat.
Proof.
  intros Hs Hc Hn ->. destruct s as [a sum full]. simpl in *.
  assert (sum = EngineTimeAuthority.compatibility_summary a) as -> by (unfold AuthorityTelemetry.new in Hs; congruence).
  assert (full = engine_time_authorizes_full_sequential a) as -> by (unfold AuthorityTelemetry.new in Hs; congruence).
  set (sum := EngineTimeAuthority.compatibility_summary a) in *.
  set (full := engine_time_authorizes_full_sequential a) in *.
  assert (decode_sync_state (encode_sync_state sum) = Ok sum) as Hsum by apply summary_roundtrip.
  unfold encode_engine_time_authority_telemetry, decode_engine_time_authority_telemetry.
  destruct a as [cr ph ab conf loss]. simpl in Hc, Hn.
  cbn -[byte_of get_u32 get_u16 AuthorityTelemetry.new decode_crank_sync_state encode_crank_sync_state
    decode_phase_sync_state encode_phase_sync_state decode_absolute_time_authority
    encode_absolute_time_authority decode_sync_state encode_sync_state sum full Z.b2z].
  decode_fields. rewrite !get_u16_bytes by done. rewrite Hsum. cbn [result_bind]. cbv zeta.
  rewrite <- Hs. cbn [AuthorityTelemetry.summary AuthorityTelemetry.full_sequential_authorized].
  rewrite bool_decide_true by done. by destruct full.
Qed.

(** The flag byte of a gate input, decided over the sixty-four of them. *)
Lemma gate_flags_roundtrip a b c d e f :
  let flags := Z.lor (Z.lor (Z.lor (Z.lor (Z.lor (Z.b2z a) (Z.shiftl (Z.b2z b) 1))
    (Z.shiftl (Z.b2z c) 2)) (Z.shiftl (Z.b2z d) 3)) (Z.shiftl (Z.b2z e) 4)) (Z.shiftl (Z.b2z f) 5) in
  Z.land flags (255 - 63) = 0 /\ flag_set flags 0 = a /\ flag_set flags 1 = b
  /\ flag_set flags 2 = c /\ flag_set flags 3 = d /\ flag_set flags 4 = e /\ flag_set flags 5 = f.
Proof. by destruct a, b, c, d, e, f. Qed.

(** ** The four codecs *)
#[export] Instance command_codec : WireCodec TimingIslandCommand.t := {
  wire_len := TIMING_ISLAND_COMMAND_WIRE_LEN;
  wire_encode := encode_timing_island_command;
  wire_decode := decode_timing_island_command;
}.
#[export] Instance event_codec : WireCodec TimingIslandEvent.t := {
  wire_len := TIMING_ISLAND_EVENT_WIRE_LEN;
  wire_encode := encode_timing_island_event;
  wire_decode := decode_timing_island_event;
}.
#[export] Instance gate_input_codec : WireCodec SafetyGateInput.t := {
  wire_len := SAFETY_GATE_INPUT_WIRE_LEN;
  wire_encode := encode_safety_gate_input;
  wire_decode := decode_safety_gate_input;
}.
#[export] Instance gate_status_codec : WireCodec SafetyGateStatus.t := {
  wire_len := SAFETY_GATE_STATUS_WIRE_LEN;
  wire_encode := encode_safety_gate_status;
  wire_decode := decode_safety_gate_status;
}.

(** ** Round trips *)
Lemma fixed_in_short N bytes : (length bytes < N)%nat -> fixed_in N bytes = Err CodecError.ShortBuffer.
Proof. intros HN. unfold fixed_in. by destruct (Nat.ltb_spec (length bytes) N); [|lia]. Qed.

(** From the symbolic frame of a message to the law. *)
Lemma codec_frame {M} (N : nat) (write : list Z -> list Z) (decode : list Z -> Result M CodecError.t)
    (m : M) (out : list Z) :
  (N <= length out)%nat ->
  length (write (replicate N 0)) = N ->
  (forall rest, decode (write (replicate N 0) ++ rest) = Ok m) ->
  exists frame, with_fixed_out N out (fun out => write (fill 0 out)) = (frame ++ drop N out, Ok (Z.of_nat N))
    /\ length frame = N /\ forall rest, decode (frame ++ rest) = Ok m.
Proof.
  intros HN Hl Hd. exists (write (replicate N 0)). split_and!; [|done|done].
  apply with_fixed_out_frame; [done|]. by rewrite fill_take.
Qed.

(** A frame whose payload is written by [f] over bytes 2 to 2 + n. *)
Lemma tagged_frame k n tag f : length (f (replicate n 0)) = n ->
  let frame := on_slice 2 (2 + n) f (set_byte 1 tag (set_byte 0 1 (replicate (2 + (n + k)) 0))) in
  length frame = (2 + (n + k))%nat /\ get_byte 0 frame = 1 /\ get_byte 1 frame = tag
  /\ slice 2 (2 + n) frame = f (replicate n 0).
Proof.
  intros Hf. cbv zeta.
  assert (on_slice 2 (2 + n) f (set_byte 1 tag (set_byte 0 1 (replicate (2 + (n + k)) 0)))
    = 1 :: tag :: f (replicate n 0) ++ replicate k 0) as ->.
  { unfold on_slice, slice, set_byte. replace (2 + n - 2)%nat with n by lia.
    rewrite (replicate_add 2), replicate_add.
    cbn [replicate Nat.add insert list_insert take drop app].
    assert (length (replicate n 0) = n) as Hn by apply length_replicate.
    rewrite take_0, drop_0. cbn [app]. rewrite (take_app_length' _ _ n), (drop_app_length' _ _ n) by (symmetry; exact Hn). reflexivity. }
  split_and!; [|done|done|].
  - cbn [length]. by rewrite length_app, Hf, length_replicate.
  - unfold slice. replace (2 + n - 2)%nat with n by lia. cbn [drop]. rewrite ?drop_0.
    by rewrite take_app_length'.
Qed.

(** A message whose frame is a tag and a payload written by [f] with round trip [H]. *)
Ltac tagged k n tag f H :=
  let Hd := fresh in let Hl := fresh in let Hfl := fresh in let H0 := fresh in
  let H1 := fresh in let Hs := fresh in
  destruct H as [Hd Hl]; destruct (tagged_frame k n tag f Hl) as (Hfl & H0 & H1 & Hs);
  apply (codec_frame (2 + (n + k)) (fun out => on_slice 2 (2 + n) f (set_byte 1 tag (set_byte 0 1 out))));
  [done|exact Hfl|intros rest; unfold decode_timing_island_command, decode_timing_island_event;
    rewrite fixed_in_frame by exact Hfl; cbn [result_bind]; cbn [Nat.add] in *;
    rewrite H0, H1, Hs, Hd; reflexivity].

(** A message whose frame is a tag and at most one byte. *)
Ltac tagged_byte write :=
  apply (codec_frame 16 (fun out => write (set_byte 0 1 out)));
  [done|done|intros rest; unfold decode_timing_island_command, decode_timing_island_event;
    rewrite fixed_in_frame by done].

Lemma command_laws_roundtrip c out : command_wf c -> (TIMING_ISLAND_COMMAND_WIRE_LEN <= length out)%nat ->
  exists frame, encode_timing_island_command c out
      = (frame ++ drop TIMING_ISLAND_COMMAND_WIRE_LEN out, Ok (Z.of_nat TIMING_ISLAND_COMMAND_WIRE_LEN))
    /\ length frame = TIMING_ISLAND_COMMAND_WIRE_LEN
    /\ forall rest, decode_timing_island_command (frame ++ rest) = Ok c.
Proof.
  intros Hwf Hlen. destruct c as [t|a|r| |m]; simpl in Hwf.
  - tagged 6%nat 8%nat 1 (encode_output_transition t) (output_transition_roundtrip t _ Hwf eq_refl).
  - tagged 10%nat 4%nat 2 (encode_aux_command a) (aux_command_roundtrip a _ eq_refl).
  - tagged_byte (fun out => set_byte 2 (encode_cancel_reason r) (set_byte 1 3 out)). by destruct r.
  - by tagged_byte (set_byte 1 4).
  - tagged 10%nat 4%nat 5 (put_u32 m)
      (conj (f_equal (fun x => Ok (E := CodecError.t) (TimingIslandCommand.UpdatePermitMask x))
               (eq_trans (f_equal SafetyPermitMask.new (get_put_u32 m (replicate 4 0) (known_bits_u32 m Hwf)))
                         (permit_mask_known m Hwf)))
            (eq_refl (length (put_u32 m (replicate 4 0))))).
Qed.

Lemma event_laws_roundtrip e out : event_wf e -> (TIMING_ISLAND_EVENT_WIRE_LEN <= length out)%nat ->
  exists frame, encode_timing_island_event e out
      = (frame ++ drop TIMING_ISLAND_EVENT_WIRE_LEN out, Ok (Z.of_nat TIMING_ISLAND_EVENT_WIRE_LEN))
    /\ length frame = TIMING_ISLAND_EVENT_WIRE_LEN
    /\ forall rest, decode_timing_island_event (frame ++ rest) = Ok e.
Proof.
  intros Hwf Hlen. destruct e as [g|g|t|t|a|r|r|s|s]; simpl in Hwf.
  - tagged 6%nat 8%nat 1 (encode_output_transition g) (output_transition_roundtrip g _ Hwf eq_refl).
  - tagged 6%nat 8%nat 2 (encode_output_transition g) (output_transition_roundtrip g _ Hwf eq_refl).
  - tagged 10%nat 4%nat 3 (encode_aux_command t) (aux_command_roundtrip t _ eq_refl).
  - tagged_byte (fun out => set_byte 2 (encode_cancel_reason t) (set_byte 1 4 out)). by destruct t.
  - tagged_byte (fun out => set_byte 2 (encode_timing_island_reject_reason a) (set_byte 1 5 out)).
    by destruct a.
  - tagged 9%nat 5%nat 6 (encode_trigger_edge r) (trigger_edge_roundtrip r _ Hwf eq_refl).
  - tagged 9%nat 5%nat 7 (encode_trigger_edge r) (trigger_edge_roundtrip r _ Hwf eq_refl).
  - destruct Hwf as (Hs & Hc & Hn).
    tagged 5%nat 9%nat 8 (encode_engine_time_authority_telemetry s)
      (telemetry_roundtrip s _ Hs Hc Hn eq_refl).
  - tagged 8%nat 6%nat 9 (encode_timing_island_fault_status s) (fault_status_roundtrip s _ Hwf eq_refl).
Qed.

Lemma gate_input_laws_roundtrip i out : gate_input_wf i -> (SAFETY_GATE_INPUT_WIRE_LEN <= length out)%nat ->
  exists frame, encode_safety_gate_input i out
      = (frame ++ drop SAFETY_GATE_INPUT_WIRE_LEN out, Ok (Z.of_nat SAFETY_GATE_INPUT_WIRE_LEN))
    /\ length frame = SAFETY_GATE_INPUT_WIRE_LEN
    /\ forall rest, decode_safety_gate_input (frame ++ rest) = Ok i.
Proof.
  intros (Hn & Hd & Hm) Hlen. destruct i as [now a b c d e f faults mask]. simpl in Hn, Hd, Hm.
  apply (codec_frame SAFETY_GATE_INPUT_WIRE_LEN (fun out =>
    on_slice 10 14 (put_u32 mask) (on_slice 6 10 (put_u32 faults) (on_slice 2 6 (put_u32 now)
      (set_byte 1 (encode_safety_gate_input_flags (SafetyGateInput.mk now a b c d e f faults mask))
        (set_byte 0 1 out)))))); [done|done|].
  intros rest. unfold decode_safety_gate_input. rewrite fixed_in_frame by done. frame_eval.
  rewrite !get_u32_bytes by (done || by apply known_bits_u32). rewrite permit_mask_known by done.
  unfold encode_safety_gate_input_flags. frame_eval.
  destruct (gate_flags_roundtrip a b c d e f) as (-> & -> & -> & -> & -> & -> & ->). done.
Qed.

Lemma gate_status_laws_roundtrip s out : gate_status_wf s -> (SAFETY_GATE_STATUS_WIRE_LEN <= length out)%nat ->
  exists frame, encode_safety_gate_status s out
      = (frame ++ drop SAFETY_GATE_STATUS_WIRE_LEN out, Ok (Z.of_nat SAFETY_GATE_STATUS_WIRE_LEN))
    /\ length frame = SAFETY_GATE_STATUS_WIRE_LEN
    /\ forall rest, decode_safety_gate_status (frame ++ rest) = Ok s.
Proof.
  intros (Hn & Hd & Hm) Hlen. destruct s as [permit reason code sev faults last mask].
  simpl in Hn, Hd, Hm.
  apply (codec_frame SAFETY_GATE_STATUS_WIRE_LEN (fun out =>
    on_slice 13 17 (put_u32 mask) (on_slice 9 13 (put_u32 last) (on_slice 5 9 (put_u32 faults)
      (set_byte 4 (encode_fault_severity sev) (set_byte 3 (encode_fault_code code)
        (set_byte 2 (encode_safety_gate_reason reason) (set_byte 1 (encode_safety_gate_permit permit)
          (set_byte 0 1 out))))))))); [done|done|].
  intros rest. unfold decode_safety_gate_status. rewrite fixed_in_frame by done. frame_eval.
  decode_fields. rewrite !get_u32_bytes by (done || by apply known_bits_u32).
  by rewrite permit_mask_known.
Qed.

Lemma fixed_in_bind_short {M} N bytes (k : list Z -> Result M CodecError.t) :
  (length bytes < N)%nat -> result_bind (fixed_in N bytes) k = Err CodecError.ShortBuffer.
Proof. intros HN. by rewrite fixed_in_short. Qed.

#[export] Instance command_codec_laws : WireCodecLaws TimingIslandCommand.t := {
  wire_wf := command_wf;
  encode_decode := command_laws_roundtrip;
  encode_short := fun m out => with_fixed_out_short _ out _;
  decode_short := fun bytes => fixed_in_bind_short _ bytes _;
}.
#[export] Instance event_codec_laws : WireCodecLaws TimingIslandEvent.t := {
  wire_wf := event_wf;
  encode_decode := event_laws_roundtrip;
  encode_short := fun m out => with_fixed_out_short _ out _;
  decode_short := fun bytes => fixed_in_bind_short _ bytes _;
}.
#[export] Instance gate_input_codec_laws : WireCodecLaws SafetyGateInput.t := {
  wire_wf := gate_input_wf;
  encode_decode := gate_input_laws_roundtrip;
  encode_short := fun m out => with_fixed_out_short _ out _;
  decode_short := fun bytes => fixed_in_bind_short _ bytes _;
}.
#[export] Instance gate_status_codec_laws : WireCodecLaws SafetyGateStatus.t := {
  wire_wf := gate_status_wf;
  encode_decode := gate_status_laws_roundtrip;
  encode_short := fun m out => with_fixed_out_short _ out _;
  decode_short := fun bytes => fixed_in_bind_short _ bytes _;
}.

(** What a round trip means for a caller's buffer, from the laws of the codec. *)
Lemma codec_roundtrip {M} `{WireCodecLaws M} (m : M) out :
  wire_wf m -> (wire_len <= length out)%nat ->
  snd (wire_encode m out) = Ok (Z.of_nat wire_len)
  /\ length (fst (wire_encode m out)) = length out
  /\ drop wire_len (fst (wire_encode m out)) = drop wire_len out
  /\ wire_decode (fst (wire_encode m out)) = Ok m.
Proof.
  intros Hwf Hlen. destruct (encode_decode m out Hwf Hlen) as (frame & -> & Hl & Hd).
  cbn [fst snd]. rewrite length_app, length_drop, Hl. split_and!; [done|lia| |apply Hd].
  by rewrite drop_app_length'.
Qed.

Lemma codec_redecode {M} `{WireCodecLaws M} (m : M) out :
  wire_wf m -> (wire_len <= length out)%nat -> wire_decode (fst (wire_encode m out)) = Ok m.
Proof. intros Hwf Hlen. by destruct (codec_roundtrip m out Hwf Hlen) as (_ & _ & _ & ?). Qed.

(** Words assembled from bytes fit their width. *)
Lemma get_byte_bounds i bytes : Forall u8 bytes -> u8 (get_byte i bytes).
Proof.
  intros Hb. unfold get_byte. destruct (nth_in_or_default i bytes 0) as [Hin| ->].
  - rewrite Forall_forall in Hb. apply Hb. by apply list_elem_of_In.
  - unfold fits. lia.
Qed.

Lemma get_u32_bounds bytes : Forall u8 bytes -> u32 (get_u32 bytes).
Proof.
  intros Hb. pose proof (get_byte_bounds 0 _ Hb). pose proof (get_byte_bounds 1 _ Hb).
  pose proof (get_byte_bounds 2 _ Hb). pose proof (get_byte_bounds 3 _ Hb).
  unfold fits, get_u32 in *. lia.
Qed.

Lemma get_u16_bounds bytes : Forall u8 bytes -> u16 (get_u16 bytes).
Proof.
  intros Hb. pose proof (get_byte_bounds 0 _ Hb). pose proof (get_byte_bounds 1 _ Hb).
  unfold fits, get_u16 in *. lia.
Qed.

Lemma slice_bytes a b bytes : Forall u8 bytes -> Forall u8 (slice a b bytes).
Proof. intros Hb. unfold slice. by apply Forall_take, Forall_drop. Qed.

Lemma permit_mask_new_bounds m : 0 <= SafetyPermitMask.new m <= SafetyPermitMask.KNOWN_BITS.
Proof.
  unfold SafetyPermitMask.new. change SafetyPermitMask.KNOWN_BITS with (Z.ones 3).
  rewrite Z.land_ones by lia. pose proof (Z.mod_pos_bound m (2 ^ 3) ltac:(lia)).
  change (Z.ones 3) with 7. lia.
Qed.

Create HintDb wire.
#[export] Hint Resolve get_u32_bounds get_u16_bounds slice_bytes permit_mask_new_bounds : wire.

(** Peels one step of a decoder that succeeded. *)
Ltac inv_decode :=
  repeat match goal with
  | H : result_bind _ _ = Ok _ |- _ =>
      let a := fresh "a" in let H1 := fresh "Hd" in
      apply result_bind_ok in H; destruct H as (a & H1 & H)
  | H : Ok _ = Ok _ |- _ => injection H as H; subst
  | H : (if ?b then _ else _) = Ok _ |- _ => destruct b eqn:?; [done|]
  end.

Lemma decode_output_transition_wf bytes t : Forall u8 bytes ->
  decode_output_transition bytes = Ok t -> transition_wf t.
Proof.
  intros Hb H. unfold decode_output_transition in H. inv_decode. unfold transition_wf. simpl.
  auto with wire.
Qed.

Lemma decode_trigger_edge_wf bytes e : Forall u8 bytes ->
  decode_trigger_edge bytes = Ok e -> u32 (TriggerEdgeEvent.at_ e).
Proof. intros Hb H. unfold decode_trigger_edge in H. inv_decode. simpl. auto with wire. Qed.

Lemma decode_fault_status_wf bytes s : Forall u8 bytes ->
  decode_timing_island_fault_status bytes = Ok s -> u32 (FaultStatus.at_ s).
Proof. intros Hb H. unfold decode_timing_island_fault_status in H. inv_decode. simpl. auto with wire. Qed.

Lemma decode_telemetry_wf bytes s : Forall u8 bytes ->
  decode_engine_time_authority_telemetry bytes = Ok s -> event_wf (TimingIslandEvent.SyncStatus s).
Proof.
  intros Hb H. unfold decode_engine_time_authority_telemetry in H. inv_decode. simpl.
  split_and!; [done|auto with wire..].
Qed.
#[export] Hint Resolve decode_output_transition_wf decode_trigger_edge_wf decode_fault_status_wf
  decode_telemetry_wf : wire.

(** A buffer that passes the length and version checks. *)
Lemma fixed_in_ok N bytes frame : fixed_in N bytes = Ok frame ->
  (N <= length bytes)%nat /\ frame = take N bytes.
Proof.
  unfold fixed_in. intros H. destruct (Nat.ltb_spec (length bytes) N); [done|]. by injection H as <-.
Qed.

Lemma expect_version_ok v u : expect_version v = Ok u -> v = TIMING_ISLAND_WIRE_VERSION.
Proof. unfold expect_version. intros H. by destruct (Z.eqb_spec v TIMING_ISLAND_WIRE_VERSION). Qed.

Lemma get_byte_take i N bytes : (i < N)%nat -> get_byte i (take N bytes) = get_byte i bytes.
Proof.
  intros Hi. unfold get_byte. revert N bytes Hi. induction i as [|i IH]; intros [|N] [|b bytes] Hi;
    cbn [take nth]; try done; [lia..|]. apply IH. lia.
Qed.

(** The frame checks every decoder starts with. *)
Lemma frame_checks {M} N bytes (k : list Z -> Result M CodecError.t) m : (0 < N)%nat ->
  (let? bytes := fixed_in N bytes in
   let? _ := expect_version (get_byte 0 bytes) in k bytes) = Ok m ->
  (N <= length bytes)%nat /\ get_byte 0 bytes = TIMING_ISLAND_WIRE_VERSION /\ k (take N bytes) = Ok m.
Proof.
  intros HN H. inv_decode. apply fixed_in_ok in Hd as [Hlen ->]. apply expect_version_ok in Hd0.
  rewrite get_byte_take in Hd0 by done. done.
Qed.

Ltac inv_match H := repeat (case_match; try discriminate H); inv_decode.

Lemma decode_command_wf bytes c : Forall u8 bytes -> decode_timing_island_command bytes = Ok c ->
  (TIMING_ISLAND_COMMAND_WIRE_LEN <= length bytes)%nat
  /\ get_byte 0 bytes = TIMING_ISLAND_WIRE_VERSION /\ command_wf c.
Proof.
  intros Hb H. apply frame_checks in H as (Hlen & Hv & H); [|unfold TIMING_ISLAND_COMMAND_WIRE_LEN; lia].
  split_and!; [done|done|].
  pose proof (Forall_take _ TIMING_ISLAND_COMMAND_WIRE_LEN _ Hb) as Hb'.
  inv_match H; cbn [command_wf]; try exact I; eauto with wire.
Qed.

Lemma decode_event_wf bytes e : Forall u8 bytes -> decode_timing_island_event bytes = Ok e ->
  (TIMING_ISLAND_EVENT_WIRE_LEN <= length bytes)%nat
  /\ get_byte 0 bytes = TIMING_ISLAND_WIRE_VERSION /\ event_wf e.
Proof.
  intros Hb H. apply frame_checks in H as (Hlen & Hv & H); [|unfold TIMING_ISLAND_EVENT_WIRE_LEN; lia].
  split_and!; [done|done|].
  pose proof (Forall_take _ TIMING_ISLAND_EVENT_WIRE_LEN _ Hb) as Hb'.
  inv_match H; cbn [event_wf]; try exact I; eauto with wire;
    match goal with Hs : decode_engine_time_authority_telemetry _ = Ok _ |- _ =>
      exact (decode_telemetry_wf _ _ (slice_bytes _ _ _ Hb') Hs) end.
Qed.

Lemma decode_gate_input_wf bytes i : Forall u8 bytes -> decode_safety_gate_input bytes = Ok i ->
  (SAFETY_GATE_INPUT_WIRE_LEN <= length bytes)%nat
  /\ get_byte 0 bytes = TIMING_ISLAND_WIRE_VERSION /\ gate_input_wf i.
Proof.
  intros Hb H. apply frame_checks in H as (Hlen & Hv & H); [|unfold SAFETY_GATE_INPUT_WIRE_LEN; lia].
  split_and!; [done|done|].
  pose proof (Forall_take _ SAFETY_GATE_INPUT_WIRE_LEN _ Hb) as Hb'.
  inv_match H; unfold gate_input_wf; cbn [SafetyGateInput.now_us SafetyGateInput.driver_faults
    SafetyGateInput.requested_permit_mask]; auto with wire.
Qed.

Lemma decode_gate_status_wf bytes s : Forall u8 bytes -> decode_safety_gate_status bytes = Ok s ->
  (SAFETY_GATE_STATUS_WIRE_LEN <= length bytes)%nat
  /\ get_byte 0 bytes = TIMING_ISLAND_WIRE_VERSION /\ gate_status_wf s.
Proof.
  intros Hb H. apply frame_checks in H as (Hlen & Hv & H); [|unfold SAFETY_GATE_STATUS_WIRE_LEN; lia].
  split_and!; [done|done|].
  pose proof (Forall_take _ SAFETY_GATE_STATUS_WIRE_LEN _ Hb) as Hb'.
  inv_match H; unfold gate_status_wf; cbn [SafetyGateStatus.driver_faults
    SafetyGateStatus.last_checked_us SafetyGateStatus.effective_permit_mask]; auto with wire.
Qed.

(** ** Properties *)

(** Timing-island commands and events survive the wire.  For a message whose fields fit
    their widths (a permit mask of known bits; a sync status whose summary and flag are
    those of its authority) and a buffer of at least sixteen bytes, encoding reports
    sixteen, leaves the buffer's length and its bytes after the frame alone, and decoding
    the buffer gives the message back, whatever follows the frame. *)
Theorem timing_island_wire_roundtrip c e out : command_wf c -> event_wf e -> (16 <= length out)%nat ->
  (snd (encode_timing_island_command c out) = Ok 16
   /\ length (fst (encode_timing_island_command c out)) = length out
   /\ drop 16 (fst (encode_timing_island_command c out)) = drop 16 out
   /\ decode_timing_island_command (fst (encode_timing_island_command c out)) = Ok c)
  /\ (snd (encode_timing_island_event e out) = Ok 16
   /\ length (fst (encode_timing_island_event e out)) = length out
   /\ drop 16 (fst (encode_timing_island_event e out)) = drop 16 out
   /\ decode_timing_island_event (fst (encode_timing_island_event e out)) = Ok e).
Proof.
  intros Hc He Hlen. split; [exact (codec_roundtrip c out Hc Hlen)|exact (codec_roundtrip e out He Hlen)].
Qed.

Lemma timing_island_wire_roundtrip_witness :
  let c := TimingIslandCommand.ArmOutput
    (OutputTransition.mk (EcuOutput.Ignition 3) OutputLevel.High 4000000000) in
  let e := TimingIslandEvent.FaultStatus (FaultStatus.mk FaultCode.SafetyCut FaultSeverity.Critical 77) in
  (16 <= length (replicate 20 255))%nat
  /\ decode_timing_island_command (fst (encode_timing_island_command c (replicate 20 255))) = Ok c
  /\ decode_timing_island_event (fst (encode_timing_island_event e (replicate 20 255))) = Ok e.
Proof.
  intros c e.
  assert (Hc : command_wf c) by (unfold c; cbn; unfold transition_wf, fits; cbn; lia).
  assert (He : event_wf e) by (unfold e; cbn; unfold fits; lia).
  assert (Hl : (16 <= length (replicate 20 255))%nat) by (cbn; lia).
  destruct (timing_island_wire_roundtrip c e (replicate 20 255) Hc He Hl)
    as ((_ & _ & _ & H1) & (_ & _ & _ & H2)).
  exact (conj Hl (conj H1 H2)).
Defined.

(** Safety-gate inputs and statuses survive the wire the same way, over frames of sixteen
    and twenty bytes, the six input flags packed into one byte included. *)
Theorem safety_gate_wire_roundtrip i s out : gate_input_wf i -> gate_status_wf s ->
  (20 <= length out)%nat ->
  (snd (encode_safety_gate_input i out) = Ok 16
   /\ length (fst (encode_safety_gate_input i out)) = length out
   /\ drop 16 (fst (encode_safety_gate_input i out)) = drop 16 out
   /\ decode_safety_gate_input (fst (encode_safety_gate_input i out)) = Ok i)
  /\ (snd (encode_safety_gate_status s out) = Ok 20
   /\ length (fst (encode_safety_gate_status s out)) = length out
   /\ drop 20 (fst (encode_safety_gate_status s out)) = drop 20 out
   /\ decode_safety_gate_status (fst (encode_safety_gate_status s out)) = Ok s).
Proof.
  intros Hi Hs Hlen. assert (16 <= length out)%nat as Hlen' by lia.
  split; [exact (codec_roundtrip i out Hi Hlen')|exact (codec_roundtrip s out Hs Hlen)].
Qed.

Lemma safety_gate_wire_roundtrip_witness :
  let i := SafetyGateInput.mk 123456 true false true true false true 9 5 in
  let s := SafetyGateStatus.mk SafetyGatePermit.Denied SafetyGateReason.DriverFault
    FaultCode.ActuatorFault FaultSeverity.Critical 9 4294967295 3 in
  gate_input_wf i /\ gate_status_wf s
  /\ decode_safety_gate_input (fst (encode_safety_gate_input i (replicate 20 7))) = Ok i
  /\ decode_safety_gate_status (fst (encode_safety_gate_status s (replicate 20 7))) = Ok s.
Proof.
  intros i s.
  assert (Hi : gate_input_wf i) 
    by (unfold gate_input_wf, fits; change SafetyPermitMask.KNOWN_BITS with 7; cbn; lia).
  assert (Hs : gate_status_wf s) 
    by (unfold gate_status_wf, fits; change SafetyPermitMask.KNOWN_BITS with 7; cbn; lia).
  assert (Hl : (20 <= length (replicate 20 7))%nat) by (cbn; lia).
  destruct (safety_gate_wire_roundtrip i s (replicate 20 7) Hi Hs Hl)
    as ((_ & _ & _ & H1) & (_ & _ & _ & H2)).
  exact (conj Hi (conj Hs (conj H1 H2))).
Defined.

(** What the decoders accept.  Of any bytes, a decoder that succeeds had a whole frame of
    wire version 1, gives a message whose fields fit their widths (permit bits outside the
    known ones are dropped, a sync status agrees with its authority), and encoding that
    message and decoding it again gives it back. *)
Theorem decoded_frames_are_well_formed bytes out : Forall u8 bytes -> (20 <= length out)%nat ->
  (forall c, decode_timing_island_command bytes = Ok c ->
     (16 <= length bytes)%nat /\ get_byte 0 bytes = 1 /\ command_wf c
     /\ decode_timing_island_command (fst (encode_timing_island_command c out)) = Ok c)
  /\ (forall e, decode_timing_island_event bytes = Ok e ->
     (16 <= length bytes)%nat /\ get_byte 0 bytes = 1 /\ event_wf e
     /\ decode_timing_island_event (fst (encode_timing_island_event e out)) = Ok e)
  /\ (forall i, decode_safety_gate_input bytes = Ok i ->
     (16 <= length bytes)%nat /\ get_byte 0 bytes = 1 /\ gate_input_wf i
     /\ decode_safety_gate_input (fst (encode_safety_gate_input i out)) = Ok i)
  /\ (forall s, decode_safety_gate_status bytes = Ok s ->
     (20 <= length bytes)%nat /\ get_byte 0 bytes = 1 /\ gate_status_wf s
     /\ decode_safety_gate_status (fst (encode_safety_gate_status s out)) = Ok s).
Proof.
  intros Hb Hlen. assert (16 <= length out)%nat as Hlen' by lia. split_and!.
  - intros c H. destruct (decode_command_wf _ _ Hb H) as (Hl & Hv & Hwf). split_and!; [done..|].
    exact (codec_redecode c out Hwf Hlen').
  - intros e H. destruct (decode_event_wf _ _ Hb H) as (Hl & Hv & Hwf). split_and!; [done..|].
    exact (codec_redecode e out Hwf Hlen').
  - intros i H. destruct (decode_gate_input_wf _ _ Hb H) as (Hl & Hv & Hwf). split_and!; [done..|].
    exact (codec_redecode i out Hwf Hlen').
  - intros s H. destruct (decode_gate_status_wf _ _ Hb H) as (Hl & Hv & Hwf). split_and!; [done..|].
    exact (codec_redecode s out Hwf Hlen).
Qed.

Lemma decoded_frames_are_well_formed_witness :
  let bytes := [1; 5; 255; 255; 0; 0] ++ replicate 10 0 in
  decode_timing_island_command bytes = Ok (TimingIslandCommand.UpdatePermitMask 7)
  /\ command_wf (TimingIslandCommand.UpdatePermitMask 7).
Proof.
  intros bytes.
  assert (Hb : Forall u8 bytes) by (repeat constructor; unfold fits; lia).
  assert (Hl : (20 <= length (replicate 20 0))%nat) by (cbn; lia).
  assert (Hd : decode_timing_island_command bytes = Ok (TimingIslandCommand.UpdatePermitMask 7))
    by reflexivity.
  destruct (decoded_frames_are_well_formed bytes (replicate 20 0) Hb Hl) as (H & _).
  destruct (H _ Hd) as (_ & _ & Hwf & _). exact (conj Hd Hwf).
Defined.
