(* ===== verification/SchedTypes.v ===== *)
(** * Scheduler vocabulary (crates/scheduler: types.rs, profiles.rs, queue.rs)

    Plans, timed plans and their export to pin-level transitions. *)
From S2P Require Import Prelude Domain BoardApi.

Module OutputGroup.
Inductive t := Injector | Ignition | Idle | Fan.
#[global] Instance eq_dec : EqDecision t.
Proof. solve_decision. Defined.

Definition index (g : t) : nat :=
  match g with Injector => 0 | Ignition => 1 | Idle => 2 | Fan => 3 end%nat.
Definition mask (g : t) : Z :=
  match g with
  | Injector => Z.shiftl 1 0 | Ignition => Z.shiftl 1 1
  | Idle => Z.shiftl 1 2 | Fan => Z.shiftl 1 3
  end.
End OutputGroup.

Module ExclusiveChannel.
Record t := mk { group : OutputGroup.t; channel : ChannelId }.
#[global] Instance eq_dec : EqDecision t.
Proof. solve_decision. Defined.
End ExclusiveChannel.

Module InjectionPlan.
Record t := mk { output : ExclusiveChannel.t; pulse_width : PulseWidthUs }.
#[global] Instance eq_dec : EqDecision t.
Proof. solve_decision. Defined.
End InjectionPlan.

Module IgnitionPlan.
Record t := mk { output : ExclusiveChannel.t; dwell : DwellUs; advance : Degrees10 }.
#[global] Instance eq_dec : EqDecision t.
Proof. solve_decision. Defined.
End IgnitionPlan.

Module ScheduleError.
Inductive t :=
| Suspended | StaleDeadline | ImpossibleDeadline | ConflictingChannel | InvalidChannel | QueueFull.
#[global] Instance eq_dec : EqDecision t.
Proof. solve_decision. Defined.
End ScheduleError.

Module TimedInjectionPlan.
Record t := mk { plan : InjectionPlan.t; start_at : Micros; end_at : Micros }.
#[global] Instance eq_dec : EqDecision t.
Proof. solve_decision. Defined.
End TimedInjectionPlan.

Module TimedIgnitionPlan.
Record t := mk { plan : IgnitionPlan.t; start_at : Micros; end_at : Micros }.
#[global] Instance eq_dec : EqDecision t.
Proof. solve_decision. Defined.
End TimedIgnitionPlan.

Module CrankSnapshot.
Record t := mk {
  now_us : Micros;
  rpm : Rpm;
  angle_deg10 : Degrees10;
  authority : EngineTimeAuthority.t;
}.
Definition default : t := mk 0 0 0 EngineTimeAuthority.none.
End CrankSnapshot.

Module SparkPlan.
Record t := mk { dwell : DwellUs; advance : Degrees10 }.
End SparkPlan.

Module FuelPlan.
Record t := mk { pulse_width : PulseWidthUs }.
End FuelPlan.

(** ** Transitions (queue.rs) *)
Module TransitionKind.
Inductive t := Injector | Ignition.
#[global] Instance eq_dec : EqDecision t.
Proof. solve_decision. Defined.
(** The derived [Ord]: constructors in the order of their declaration. *)
Definition rank (k : t) : Z := match k with Injector => 0 | Ignition => 1 end.
End TransitionKind.

Module Level.
Inductive t := Low | High.
#[global] Instance eq_dec : EqDecision t.
Proof. solve_decision. Defined.
Definition rank (l : t) : Z := match l with High => 0 | Low => 1 end.
End Level.

Module Transition.
Record t := mk {
  at_us : Micros;
  kind : TransitionKind.t;
  channel : ChannelId;
  level : Level.t;
}.
#[global] Instance eq_dec : EqDecision t.
Proof. solve_decision. Defined.

Definition then_with (c d : comparison) : comparison :=
  match c with Eq => d | _ => c end.
(** The [Ord] of the source: timestamp, kind, channel, level (high before low). *)
Definition cmp (a b : t) : comparison :=
  then_with (then_with (then_with (Z.compare (at_us a) (at_us b))
      (Z.compare (TransitionKind.rank (kind a)) (TransitionKind.rank (kind b))))
      (Z.compare (channel a) (channel b)))
      (Z.compare (Level.rank (level a)) (Level.rank (level b))).
Definition lt (a b : t) : bool := match cmp a b with Lt => true | _ => false end.
End Transition.

(** Wrap-aware comparisons of microsecond timestamps: half of the 32-bit range. *)
Definition HALF_RANGE : Z := u32_max / 2.
Definition is_due (now deadline : Micros) : bool := wrapping_sub 32 now deadline <? HALF_RANGE.
Definition is_at_or_after (candidate cutoff : Micros) : bool :=
  wrapping_sub 32 candidate cutoff <? HALF_RANGE.
Definition is_before (candidate current : Micros) : bool :=
  wrapping_sub 32 current candidate <? HALF_RANGE.

Module ScheduleExport.
Record t := mk { len : Z; transitions : list (option Transition.t) }.
#[global] Instance eq_dec : EqDecision t.
Proof. solve_decision. Defined.
End ScheduleExport.

(** [TimedInjectionPlan::export_transitions::<N>]: high at [start_at], low at [end_at]. *)
Definition export_injection (N : nat) (p : TimedInjectionPlan.t) :
    Result ScheduleExport.t ScheduleError.t :=
  let start_at := TimedInjectionPlan.start_at p in
  let end_at := TimedInjectionPlan.end_at p in
  if start_at =? end_at then Err ScheduleError.ImpossibleDeadline
  else if (N <? 2)%nat then Err ScheduleError.ImpossibleDeadline
  else
    let channel :=
      ExclusiveChannel.channel (InjectionPlan.output (TimedInjectionPlan.plan p)) in
    let inj_high := Transition.mk start_at TransitionKind.Injector channel Level.High in
    let inj_low := Transition.mk end_at TransitionKind.Injector channel Level.Low in
    let '(first, second) :=
      if is_before (Transition.at_us inj_high) (Transition.at_us inj_low)
      then (Some inj_high, Some inj_low) else (Some inj_low, Some inj_high) in
    Ok (ScheduleExport.mk 2 (<[1%nat := second]> (<[0%nat := first]> (replicate N None)))).

(** [TimedIgnitionPlan::export_transitions::<N>]: dwell begins at [start_at], fire at [end_at]. *)
Definition export_ignition (N : nat) (p : TimedIgnitionPlan.t) :
    Result ScheduleExport.t ScheduleError.t :=
  let start_at := TimedIgnitionPlan.start_at p in
  let end_at := TimedIgnitionPlan.end_at p in
  if start_at =? end_at then Err ScheduleError.ImpossibleDeadline
  else if (N <? 2)%nat then Err ScheduleError.ImpossibleDeadline
  else
    let channel :=
      ExclusiveChannel.channel (IgnitionPlan.output (TimedIgnitionPlan.plan p)) in
    let ign_high := Transition.mk start_at TransitionKind.Ignition channel Level.High in
    let ign_low := Transition.mk end_at TransitionKind.Ignition channel Level.Low in
    let '(first, second) :=
      if is_before (Transition.at_us ign_high) (Transition.at_us ign_low)
      then (Some ign_high, Some ign_low) else (Some ign_low, Some ign_high) in
    Ok (ScheduleExport.mk 2 (<[1%nat := second]> (<[0%nat := first]> (replicate N None)))).

(** ** Facts about the wrap-aware comparisons *)

(** How long ago the deadline was, as the hardware clock measures it. *)
Abbreviation lateness now t := (wrapping_sub 32 now t) (only parsing).

Lemma is_due_spec now t : is_due now t = true <-> lateness now t < HALF_RANGE.
Proof. unfold is_due. by rewrite Z.ltb_lt. Qed.

(** Among deadlines that are due, [is_before] compares how late they are; it holds of
    equal deadlines too. *)
Lemma is_before_due now a b : is_due now a = true -> is_due now b = true ->
  is_before a b = true <-> lateness now b <= lateness now a.
Proof.
  rewrite !is_due_spec. unfold is_before. rewrite Z.ltb_lt, (wrapping_sub_via 32 now b a) by lia.
  pose proof (fits_wrapping_sub 32 now a ltac:(lia)) as Ha.
  pose proof (fits_wrapping_sub 32 now b ltac:(lia)) as Hb.
  change HALF_RANGE with 2147483647. unfold fits in *.
  set (la := wrapping_sub 32 now a) in *. set (lb := wrapping_sub 32 now b) in *.
  intros Hda Hdb. unfold wrapping_sub. destruct (decide (lb <= la)).
  - rewrite Z.mod_small by lia. lia.
  - replace ((la - lb) mod 2 ^ 32) with (la - lb + 2 ^ 32); [lia|].
    apply Z.mod_unique with (-1); lia.
Qed.

Lemma lateness_inj now a b : u32 a -> u32 b ->
  lateness now a = lateness now b -> a = b.
Proof.
  intros Ha Hb H. apply (wrapping_sub_eq_0 32); [done..|].
  rewrite (wrapping_sub_via 32 now) by lia. by rewrite H, wrapping_sub_same.
Qed.

Lemma is_before_refl a : is_before a a = true.
Proof. unfold is_before. by rewrite wrapping_sub_same. Qed.
