(* ===== verification/Queue.v ===== *)
(** * Scheduled transition queue (crates/scheduler/src/queue.rs)

    The fixed-capacity pool of pending pin transitions, its draining in deadline
    order, its cancellation operations and its timing metrics.  The queue consults
    the frontier (the live horizon, its permits and its heartbeat) through the
    interface [Frontier], which [SchedState] implements. *)
From S2P Require Import Prelude Domain BoardApi SchedTypes.
From Stdlib Require Import Sorted.

Definition MAX_METADATA_CAPACITY : Z := u8_max.

Module DrainBuffer.
(** [TransitionDrainBuffer<M>]: [M] is the length of [transitions]. *)
Record t := mk { len : Z; transitions : list (option Transition.t) }.
#[global] Instance eq_dec : EqDecision t.
Proof. solve_decision. Defined.
#[global] Instance eta : Eta t := fun b => mk (len b) (transitions b).

Definition capacity (b : t) : Z := Z.of_nat (length (transitions b)).
Definition new (M : nat) : t := mk 0 (replicate M None).
Definition clear (b : t) : t := mk 0 (replicate (length (transitions b)) None).
Definition metadata_capacity_supported (b : t) : bool := capacity b <=? MAX_METADATA_CAPACITY.

Definition push (transition : Transition.t) (b : t) : t * Result unit ScheduleError.t :=
  if negb (metadata_capacity_supported b) then (b, Err ScheduleError.QueueFull)
  else
    let idx := len b in
    if capacity b <=? idx then (b, Err ScheduleError.QueueFull)
    else (b <| transitions := <[Z.to_nat idx := Some transition]> (transitions b) |>
            <| len := len b + 1 |>, Ok tt).

Definition as_slice (b : t) : list (option Transition.t) := take (Z.to_nat (len b)) (transitions b).
End DrainBuffer.

Module Metrics.
Record t := mk {
  late_event_count : Z;
  max_lateness_us : option Micros;
  queue_high_water_mark : Z;
  last_drain_count : Z;
}.
#[global] Instance eq_dec : EqDecision t.
Proof. solve_decision. Defined.
#[global] Instance eta : Eta t := fun m =>
  mk (late_event_count m) (max_lateness_us m) (queue_high_water_mark m) (last_drain_count m).
Definition new : t := mk 0 None 0 0.
End Metrics.

(** What the queue asks of the frontier state: [SchedulerState::expire_frontier],
    [active_horizon_id] and [active_permit_mask]. *)
Class Frontier (F : Type) := {
  expire_frontier : Micros -> F -> F;
  active_horizon_id : F -> option Z;
  active_permit_mask : F -> Z;
}.

Definition frontier_live `{Frontier F} (f : F) : Prop :=
  is_Some (active_horizon_id f) /\ SafetyPermitMask.is_empty (active_permit_mask f) = false.

(** What the frontier promises the queue: once a deadline of the frontier has passed,
    expiring it leaves no live horizon with permits, and expiring never creates one. *)
Class FrontierLaws (F : Type) `{Frontier F} := {
  deadline_passed : Micros -> F -> Prop;
  expire_passed : forall now f, deadline_passed now f -> ~ frontier_live (expire_frontier now f);
  expire_live_inv : forall now f, frontier_live (expire_frontier now f) -> frontier_live f;
}.

Module Queue.
(** [ScheduledTransitionQueue<N>]: [N] is the length of [transitions]. *)
Record t := mk { transitions : list (option Transition.t); metrics : Metrics.t }.
#[global] Instance eq_dec : EqDecision t.
Proof. solve_decision. Defined.
#[global] Instance eta : Eta t := fun q => mk (transitions q) (metrics q).

Definition capacity (q : t) : Z := Z.of_nat (length (transitions q)).
Definition new (N : nat) : t := mk (empty_slots N) Metrics.new.
Definition metadata_capacity_supported (q : t) : bool := capacity q <=? MAX_METADATA_CAPACITY.
Definition active_count (q : t) : Z := Z.of_nat (length (occupied (transitions q))).
Definition free_slots (q : t) : Z := saturating_sub (capacity q) (active_count q).
Definition is_full (q : t) : bool := active_count q =? capacity q.

Definition record_enqueue_metrics (q : t) : t :=
  let active_count := as_unsigned 8 (active_count q) in
  if Metrics.queue_high_water_mark (metrics q) <? active_count
  then q <| metrics ::= fun m => m <| Metrics.queue_high_water_mark := active_count |> |>
  else q.

Definition enqueue_transition (transition : Transition.t) (q : t) :
    t * Result unit ScheduleError.t :=
  if negb (metadata_capacity_supported q) then (q, Err ScheduleError.QueueFull)
  else
    match fill_first transition (transitions q) with
    | Some slots => (record_enqueue_metrics (q <| transitions := slots |>), Ok tt)
    | None => (q, Err ScheduleError.QueueFull)
    end.

(** The loop of [enqueue_export] from index [idx], [remaining] iterations to go;
    [None] is the panic of an index past the export's array. *)
Fixpoint enqueue_export_loop (remaining idx : nat) (export : ScheduleExport.t) (q : t) :
    option (t * Result unit ScheduleError.t) :=
  match remaining with
  | O => Some (q, Ok tt)
  | S remaining =>
    match ScheduleExport.transitions export !! idx with
    | None => None
    | Some (Some transition) =>
      match enqueue_transition transition q with
      | (q', Ok _) => enqueue_export_loop remaining (S idx) export q'
      | (q', Err e) => Some (q', Err e)
      end
    | Some None => enqueue_export_loop remaining (S idx) export q
    end
  end.

Definition enqueue_export (export : ScheduleExport.t) (q : t) :
    option (t * Result unit ScheduleError.t) :=
  if free_slots q <? ScheduleExport.len export then Some (q, Err ScheduleError.QueueFull)
  else enqueue_export_loop (Z.to_nat (ScheduleExport.len export)) 0 export q.

(** The loop of [next_due_index] over the slots from index [idx]. *)
Fixpoint select_due (now : Micros) (idx : nat) (slots : list (option Transition.t))
    (selected : option (nat * Transition.t)) : option (nat * Transition.t) :=
  match slots with
  | [] => selected
  | slot :: slots =>
    let selected' :=
      match slot with
      | None => selected
      | Some transition =>
        if negb (is_due now (Transition.at_us transition)) then selected
        else
          match selected with
          | None => Some (idx, transition)
          | Some (_, current) =>
            if is_before (Transition.at_us transition) (Transition.at_us current)
               || ((Transition.at_us transition =? Transition.at_us current)
                   && Transition.lt transition current)
            then Some (idx, transition) else selected
          end
      end in
    select_due now (S idx) slots selected'
  end.

Definition next_due_index (now : Micros) (q : t) : option nat :=
  fst <$> select_due now 0 (transitions q) None.

Definition record_drained_transition (now : Micros) (transition : Transition.t) (q : t) : t :=
  let lateness_us := wrapping_sub 32 now (Transition.at_us transition) in
  if lateness_us =? 0 then q
  else
    let q := q <| metrics ::= fun m =>
      m <| Metrics.late_event_count ::= fun n => saturating_add 32 n 1 |> |> in
    let should_update :=
      match Metrics.max_lateness_us (metrics q) with
      | None => true
      | Some max_lateness => max_lateness <? lateness_us
      end in
    if should_update
    then q <| metrics ::= fun m => m <| Metrics.max_lateness_us := Some lateness_us |> |>
    else q.

(** The loop of [drain_due]; [fuel] bounds its iterations (see [drain_loop_spec]). *)
Fixpoint drain_loop (fuel : nat) (now : Micros) (q : t) (out : DrainBuffer.t) (drained : Z) :
    t * DrainBuffer.t * Z :=
  match fuel with
  | O => (q, out, drained)
  | S fuel =>
    if DrainBuffer.capacity out <=? DrainBuffer.len out then (q, out, drained)
    else
      match next_due_index now q with
      | None => (q, out, drained)
      | Some idx =>
        match transitions q !! idx with
        | Some (Some transition) =>
          let q := q <| transitions ::= fun slots => <[idx := None]> slots |> in
          let q := record_drained_transition now transition q in
          let out := fst (DrainBuffer.push transition out) in
          drain_loop fuel now q out (drained + 1)
        | _ => drain_loop fuel now q out drained
        end
      end
  end.

Definition set_last_drain_count (n : Z) (q : t) : t :=
  q <| metrics ::= fun m => m <| Metrics.last_drain_count := n |> |>.

Definition drain_due (now : Micros) (q : t) (out : DrainBuffer.t) : t * DrainBuffer.t * Z :=
  let out := DrainBuffer.clear out in
  if negb (DrainBuffer.metadata_capacity_supported out)
  then (set_last_drain_count 0 q, out, 0)
  else
    let '(q, out, drained) := drain_loop (S (length (transitions q))) now q out 0 in
    (set_last_drain_count (as_unsigned 8 drained) q, out, drained).

Definition cancel_all (q : t) : t := q <| transitions := empty_slots (length (transitions q)) |>.

Definition drain_due_with_frontier `{Frontier F} (now : Micros) (frontier : F) (q : t)
    (out : DrainBuffer.t) : F * t * DrainBuffer.t * Z :=
  let frontier := expire_frontier now frontier in
  if bool_decide (active_horizon_id frontier = None)
     || SafetyPermitMask.is_empty (active_permit_mask frontier)
  then (frontier, set_last_drain_count 0 (cancel_all q), DrainBuffer.clear out, 0)
  else
    let '(q, out, drained) := drain_due now q out in (frontier, q, out, drained).

Definition cancel_channel_after (channel : ChannelId) (cutoff : Micros) (q : t) : t :=
  q <| transitions ::= clear_if (fun tr =>
    (Transition.channel tr =? channel) && is_at_or_after (Transition.at_us tr) cutoff) |>.

Definition cancel_channel_all (channel : ChannelId) (q : t) : t :=
  q <| transitions ::= clear_if (fun tr => Transition.channel tr =? channel) |>.

Definition cancel_kind (kind : TransitionKind.t) (q : t) : t :=
  q <| transitions ::= clear_if (fun tr => bool_decide (Transition.kind tr = kind)) |>.

Definition cancel_group (group : OutputGroup.t) (q : t) : t :=
  match group with
  | OutputGroup.Injector => cancel_kind TransitionKind.Injector q
  | OutputGroup.Ignition => cancel_kind TransitionKind.Ignition q
  | OutputGroup.Idle | OutputGroup.Fan => q
  end.

Definition on_sync_loss (q : t) : t := cancel_all q.
Definition on_hard_safety_shutdown (q : t) : t := cancel_all q.

(** [ScheduledTransitionQueueSnapshot<N>] *)
Record Snapshot := mkSnapshot {
  snap_len : Z;
  snap_transitions : list (option Transition.t);
  snap_late_event_count : Z;
  snap_max_lateness_us : option Micros;
  snap_queue_high_water_mark : Z;
  snap_last_drain_count : Z;
}.

Definition snapshot (q : t) : Snapshot :=
  mkSnapshot (as_unsigned 8 (active_count q)) (transitions q)
    (Metrics.late_event_count (metrics q)) (Metrics.max_lateness_us (metrics q))
    (Metrics.queue_high_water_mark (metrics q)) (Metrics.last_drain_count (metrics q)).
End Queue.

(** ** Lemmas *)
Import Queue.

(** The pool of pending transitions. *)
Abbreviation pending q := (occupied (transitions q)).
Definition due_at (now : Micros) (tr : Transition.t) : Prop :=
  is_due now (Transition.at_us tr) = true.
#[global] Instance due_at_dec now tr : Decision (due_at now tr).
Proof. unfold due_at. apply _. Defined.
(** How late a transition is at [now]. *)
Definition late (now : Micros) (tr : Transition.t) : Z :=
  wrapping_sub 32 now (Transition.at_us tr).

Lemma active_count_bounds q : 0 <= active_count q <= capacity q.
Proof. unfold active_count, capacity. pose proof (length_occupied_le (transitions q)). lia. Qed.

Lemma active_count_u8 q : capacity q <= 255 -> as_unsigned 8 (active_count q) = active_count q.
Proof.
  intros. pose proof (active_count_bounds q). apply as_unsigned_small. unfold fits. lia.
Qed.

(** Recording metrics does not touch the pool. *)
Lemma record_enqueue_transitions q : transitions (record_enqueue_metrics q) = transitions q.
Proof. unfold record_enqueue_metrics. by case_match. Qed.

Lemma record_drained_transitions now tr q :
  transitions (record_drained_transition now tr q) = transitions q.
Proof. unfold record_drained_transition. by repeat case_match. Qed.
#[export] Hint Rewrite record_enqueue_transitions record_drained_transitions : ecu.

(** *** Enqueueing *)
Lemma enqueue_transition_cases tr q :
  (capacity q <= 255 /\ active_count q < capacity q /\
   exists q', enqueue_transition tr q = (q', Ok tt)
     /\ pending q' ≡ₚ tr :: pending q
     /\ length (transitions q') = length (transitions q))
  \/ ((255 < capacity q \/ active_count q = capacity q) /\
      enqueue_transition tr q = (q, Err ScheduleError.QueueFull)).
Proof.
  unfold enqueue_transition, metadata_capacity_supported.
  change MAX_METADATA_CAPACITY with 255.
  destruct (Z.leb_spec (capacity q) 255) as [Hc|Hc]; simpl; [|by auto].
  pose proof (active_count_bounds q) as Hb. unfold active_count, capacity in *.
  destruct (fill_first tr (transitions q)) as [slots|] eqn:Hfill.
  - left. split; [done|]. split.
    + assert (length (pending q) <> length (transitions q)); [|lia].
      rewrite <- (fill_first_None tr). by rewrite Hfill.
    + eexists. split; [done|]. autorewrite with ecu. simpl.
      split; [by apply fill_first_occupied|by eapply fill_first_length].
  - right. split; [right|done]. f_equal. by apply (fill_first_None tr).
Qed.

Lemma enqueue_transition_length tr q q' r :
  enqueue_transition tr q = (q', r) -> length (transitions q') = length (transitions q).
Proof.
  destruct (enqueue_transition_cases tr q) as [(_ & _ & ? & -> & _ & Hl)|(_ & ->)];
    intros; by simplify_eq.
Qed.

(** The transitions an export carries. *)
Definition export_transitions_of (export : ScheduleExport.t) : list Transition.t :=
  occupied (take (Z.to_nat (ScheduleExport.len export)) (ScheduleExport.transitions export)).

(** An export whose [len] is an index into its array, as the source builds them. *)
Definition export_wf (export : ScheduleExport.t) : Prop :=
  0 <= ScheduleExport.len export <= Z.of_nat (length (ScheduleExport.transitions export)).

Lemma enqueue_export_loop_ok n idx export q :
  (idx + n <= length (ScheduleExport.transitions export))%nat ->
  capacity q <= 255 ->
  active_count q + Z.of_nat (length (occupied (take n (drop idx (ScheduleExport.transitions export)))))
    <= capacity q ->
  exists q', enqueue_export_loop n idx export q = Some (q', Ok tt)
    /\ pending q' ≡ₚ occupied (take n (drop idx (ScheduleExport.transitions export))) ++ pending q
    /\ length (transitions q') = length (transitions q).
Proof.
  revert idx q. induction n as [|n IH]; intros idx q Hidx Hcap Hroom; simpl; [by exists q|].
  destruct (ScheduleExport.transitions export !! idx) as [slot|] eqn:Hslot.
  2: { apply lookup_ge_None in Hslot. lia. }
  rewrite (drop_S _ _ _ Hslot) in Hroom |- *. simpl in Hroom |- *.
  rewrite occupied_cons in Hroom |- *. destruct slot as [tr|]; simpl in *.
  - destruct (enqueue_transition_cases tr q) as [(_ & _ & q1 & -> & Hp & Hl)|([?|?] & _)]; [|lia|lia].
    destruct (IH (S idx) q1) as (q' & Hq' & Hp' & Hl').
    + lia.
    + unfold capacity in *. lia.
    + unfold active_count, capacity in *. rewrite Hp, Hl. simpl. lia.
    + exists q'. split; [done|]. split; [|lia]. rewrite Hp', Hp. symmetry. apply Permutation_middle.
  - apply IH; [lia|done|done].
Qed.

Lemma enqueue_export_loop_unsupported n idx export q :
  (idx + n <= length (ScheduleExport.transitions export))%nat -> 255 < capacity q ->
  enqueue_export_loop n idx export q =
    Some (q, if decide (occupied (take n (drop idx (ScheduleExport.transitions export))) = [])
             then Ok tt else Err ScheduleError.QueueFull).
Proof.
  revert idx. induction n as [|n IH]; intros idx Hidx Hcap; simpl; [done|].
  destruct (ScheduleExport.transitions export !! idx) as [slot|] eqn:Hslot.
  2: { apply lookup_ge_None in Hslot. lia. }
  rewrite (drop_S _ _ _ Hslot). simpl. rewrite occupied_cons. destruct slot as [tr|]; simpl.
  - destruct (enqueue_transition_cases tr q) as [(? & _)|(_ & ->)]; [lia|]. done.
  - apply IH; [lia|done].
Qed.

(** *** Selecting the next due transition *)

(** What [select_due] has selected after scanning the slots [seen]: the latest due
    one, and the last of these in slot order. *)
Definition selection_ok (now : Micros) (seen : list (option Transition.t))
    (sel : option (nat * Transition.t)) : Prop :=
  match sel with
  | None => Forall (fun tr => ~ due_at now tr) (occupied seen)
  | Some (i, tr) =>
    seen !! i = Some (Some tr) /\ due_at now tr
    /\ (forall j u, seen !! j = Some (Some u) -> due_at now u ->
        late now u < late now tr \/ (late now u = late now tr /\ (j <= i)%nat))
  end.

Lemma selection_step now seen sel slot : selection_ok now seen sel ->
  selection_ok now (seen ++ [slot])
    match slot with
    | None => sel
    | Some tr =>
      if negb (is_due now (Transition.at_us tr)) then sel
      else
        match sel with
        | None => Some (length seen, tr)
        | Some (_, cur) =>
          if is_before (Transition.at_us tr) (Transition.at_us cur)
             || ((Transition.at_us tr =? Transition.at_us cur) && Transition.lt tr cur)
          then Some (length seen, tr) else sel
        end
    end.
Proof.
  assert (forall i tr, seen !! i = Some (Some tr) -> (seen ++ [slot]) !! i = Some (Some tr)) as Hold
    by (intros; by apply lookup_app_l_Some).
  assert (forall j u, (seen ++ [slot]) !! j = Some (Some u) ->
    seen !! j = Some (Some u) \/ (j = length seen /\ slot = Some u)) as Hinv.
  { intros j u Hj. apply lookup_app_Some in Hj as [?|[? Hj]]; [by left|right].
    apply list_lookup_singleton_Some in Hj as [? ?]. split; [lia|done]. }
  intros Hsel. destruct slot as [tr|]; [destruct (is_due now (Transition.at_us tr)) eqn:Hdue|];
    simpl; destruct sel as [[i cur]|]; simpl in Hsel |- *.
  - destruct Hsel as (Hi & Hcur & Hmax).
    assert (late now cur <= late now tr <-> is_before (Transition.at_us tr) (Transition.at_us cur) = true) as Hb
      by (symmetry; by apply is_before_due).
    destruct (is_before _ _) eqn:Hbef; simpl.
    + pose proof (proj2 Hb eq_refl). split; [by rewrite lookup_app_r, Nat.sub_diag by lia|].
      split; [done|]. intros j u Hj Hu. destruct (Hinv j u Hj) as [Hj'|[-> ?]].
      * pose proof (lookup_lt_Some _ _ _ Hj'). destruct (Hmax j u Hj' Hu); lia.
      * simplify_eq. lia.
    + destruct (Z.eqb_spec (Transition.at_us tr) (Transition.at_us cur)) as [Heq|_];
        [by rewrite Heq, is_before_refl in Hbef|]. simpl.
      split; [by apply Hold|]. split; [done|]. intros j u Hj Hu.
      destruct (Hinv j u Hj) as [Hj'|[-> ?]]; [by apply Hmax|]. simplify_eq.
      left. destruct (decide (late now cur <= late now u)); [|lia]. naive_solver.
  - split; [by rewrite lookup_app_r, Nat.sub_diag by lia|]. split; [done|].
    intros j u Hj Hu. destruct (Hinv j u Hj) as [Hj'|[-> ?]]; [|simplify_eq; lia].
    rewrite Forall_forall in Hsel. exfalso. apply (Hsel u); [|done].
    apply elem_of_occupied. by apply list_elem_of_lookup_2 in Hj'.
  - destruct Hsel as (Hi & Hcur & Hmax). split; [by apply Hold|]. split; [done|].
    intros j u Hj Hu. destruct (Hinv j u Hj) as [Hj'|[-> ?]]; [by apply Hmax|].
    simplify_eq. unfold due_at in Hu. congruence.
  - unfold occupied. rewrite omap_app, Forall_app. split; [done|].
    constructor; [|done]. unfold due_at. congruence.
  - destruct Hsel as (Hi & Hcur & Hmax). split; [by apply Hold|]. split; [done|].
    intros j u Hj Hu. destruct (Hinv j u Hj) as [Hj'|[-> ?]]; [by apply Hmax|done].
  - unfold occupied. rewrite omap_app. simpl. by rewrite app_nil_r.
Qed.

Lemma select_due_ok now seen rest sel : selection_ok now seen sel ->
  selection_ok now (seen ++ rest) (select_due now (length seen) rest sel).
Proof.
  revert seen sel. induction rest as [|slot rest IH]; intros seen sel Hsel; simpl.
  - by rewrite app_nil_r.
  - rewrite cons_middle, app_assoc. replace (S (length seen)) with (length (seen ++ [slot]))
      by (rewrite length_app; simpl; lia).
    apply IH. by apply selection_step.
Qed.

Lemma next_due_index_spec now q :
  match next_due_index now q with
  | Some i => exists tr, transitions q !! i = Some (Some tr) /\ due_at now tr
      /\ (forall j u, transitions q !! j = Some (Some u) -> due_at now u ->
          late now u < late now tr \/ (late now u = late now tr /\ (j <= i)%nat))
  | None => Forall (fun tr => ~ due_at now tr) (pending q)
  end.
Proof.
  pose proof (select_due_ok now [] (transitions q) None) as H. unfold next_due_index.
  simpl in H. specialize (H (Forall_nil_2 _)).
  destruct (select_due now 0 (transitions q) None) as [[i tr]|]; simpl in *; [|done].
  by exists tr.
Qed.

(** *** Draining *)

(** The drain buffer of capacity [M] holds exactly [ts], in order. *)
Definition buffer_holds (M : nat) (b : DrainBuffer.t) (ts : list Transition.t) : Prop :=
  (length ts <= M)%nat /\ DrainBuffer.len b = Z.of_nat (length ts)
  /\ DrainBuffer.transitions b = (Some <$> ts) ++ replicate (M - length ts) None.

Lemma buffer_holds_capacity M b ts : buffer_holds M b ts ->
  length (DrainBuffer.transitions b) = M.
Proof.
  intros (Hle & _ & ->). rewrite length_app, length_fmap, length_replicate. lia.
Qed.

Lemma buffer_holds_clear b : buffer_holds (length (DrainBuffer.transitions b)) (DrainBuffer.clear b) [].
Proof. split; [simpl; lia|]. split; [done|]. simpl. by rewrite Nat.sub_0_r. Qed.

Lemma buffer_holds_push M b ts tr : (M <= 255)%nat -> (length ts < M)%nat -> buffer_holds M b ts ->
  buffer_holds M (fst (DrainBuffer.push tr b)) (ts ++ [tr])
  /\ snd (DrainBuffer.push tr b) = Ok tt.
Proof.
  intros HM Hlt Hb. pose proof (buffer_holds_capacity _ _ _ Hb) as Hcap.
  destruct Hb as (Hle & Hlen & Htr). unfold DrainBuffer.push, DrainBuffer.metadata_capacity_supported,
    DrainBuffer.capacity. rewrite Hcap, Hlen. change MAX_METADATA_CAPACITY with 255.
  destruct (Z.leb_spec (Z.of_nat M) 255); [|lia]. simpl.
  destruct (Z.leb_spec (Z.of_nat M) (Z.of_nat (length ts))); [lia|]. split; [|done].
  split; [rewrite length_app; simpl; lia|].
  split; [simpl; rewrite length_app; simpl; lia|]. simpl.
  rewrite Htr, fmap_app, length_app, <- app_assoc. simpl. rewrite Nat2Z.id.
  rewrite insert_app_r_alt by (rewrite length_fmap; lia).
  rewrite length_fmap, Nat.sub_diag. f_equal.
  replace (M - length ts)%nat with (S (M - (length ts + 1))) by lia. done.
Qed.

Lemma drain_loop_spec M fuel now q out n acc : (M <= 255)%nat -> buffer_holds M out acc ->
  let '(q', out', n') := drain_loop fuel now q out n in
  exists ts, pending q ≡ₚ ts ++ pending q'
    /\ length (transitions q') = length (transitions q)
    /\ buffer_holds M out' (acc ++ ts) /\ n' = n + Z.of_nat (length ts)
    /\ metrics q' = metrics (foldl (fun q tr => record_drained_transition now tr q) q ts)
    /\ Forall (due_at now) ts
    /\ StronglySorted (fun a b => late now b <= late now a) ts
    /\ (forall tr u, tr ∈ ts -> u ∈ pending q' -> due_at now u -> late now u <= late now tr)
    /\ (length (acc ++ ts) = M \/ Forall (fun u => ~ due_at now u) (pending q') \/ length ts = fuel).
Proof.
  intros HM. revert q out n acc. induction fuel as [|fuel IH]; intros q out n acc Hb; simpl.
  { exists []. rewrite app_nil_r. split_and!; try done; [simpl; lia|constructor|set_solver|by auto]. }
  pose proof (buffer_holds_capacity _ _ _ Hb) as Hcap.
  pose proof (proj1 (proj2 Hb)) as Hlen. pose proof (proj1 Hb) as Hle.
  unfold DrainBuffer.capacity. rewrite Hcap, Hlen.
  destruct (Z.leb_spec (Z.of_nat M) (Z.of_nat (length acc))) as [Hfull|Hroom].
  { exists []. rewrite app_nil_r.
    split_and!; try done; [simpl; lia|constructor|set_solver|left; lia]. }
  pose proof (next_due_index_spec now q) as Hnext.
  destruct (next_due_index now q) as [i|].
  2: { exists []. rewrite app_nil_r. split_and!; try done; [simpl; lia|constructor|set_solver|by auto]. }
  destruct Hnext as (tr & Hi & Hdue & Hmax). rewrite Hi.
  set (q1 := record_drained_transition now tr _).
  assert (transitions q1 = <[i := None]> (transitions q)) as Hq1
    by (unfold q1; by autorewrite with ecu).
  assert (metrics q1 = metrics (record_drained_transition now tr q)) as Hm1.
  { unfold q1, record_drained_transition. simpl. by repeat case_match. }
  destruct (buffer_holds_push M out acc tr) as [Hpush _]; [done|lia|done|].
  specialize (IH q1 (fst (DrainBuffer.push tr out)) (n + 1) (acc ++ [tr]) Hpush).
  destruct (drain_loop fuel now q1 _ _) as [[q' out'] n'].
  destruct IH as (ts & Hperm & Hl & Hb' & -> & Hm & Hall & Hsort & Hrest & Hexit).
  rewrite <- app_assoc in Hb', Hexit. simpl in Hb', Hexit.
  pose proof (take_slot_occupied _ _ _ Hi) as Htake. rewrite <- Hq1, Hperm in Htake.
  assert (forall u, u ∈ pending q -> due_at now u -> late now u <= late now tr) as Hlate.
  { intros u Hu Hd. apply elem_of_occupied, list_elem_of_lookup_1 in Hu as [j Hj].
    destruct (Hmax j u Hj Hd); lia. }
  exists (tr :: ts). split_and!.
  - done.
  - by rewrite Hl, Hq1, length_insert.
  - done.
  - simpl. lia.
  - simpl. rewrite Hm. clear -Hm1. assert (forall (qa qb : Queue.t), metrics qa = metrics qb ->
      metrics (foldl (fun q tr => record_drained_transition now tr q) qa ts)
      = metrics (foldl (fun q tr => record_drained_transition now tr q) qb ts)) as Hcong; [|by apply Hcong].
    clear q q1 Hm1. induction ts as [|t ts IH]; intros qa qb Hab; simpl; [done|]. apply IH.
    unfold record_drained_transition. simpl. rewrite Hab.
    by repeat (case_match; simpl; rewrite ?Hab in * ).
  - by constructor.
  - constructor; [done|]. rewrite Forall_forall in Hall |- *. intros u Hu.
    apply Hlate; [|by apply Hall]. rewrite Htake. set_solver.
  - intros t u Ht Hu Hd. apply elem_of_cons in Ht as [->|Ht]; [|by apply Hrest].
    apply Hlate; [|done]. rewrite Htake. set_solver.
  - destruct Hexit as [He|[He|He]]; [by left|by right; left|right; right; simpl; lia].
Qed.

(** *** Metrics *)
Definition metrics_wf (m : Metrics.t) : Prop :=
  u32 (Metrics.late_event_count m) /\ 0 <= default 0 (Metrics.max_lateness_us m).

(** The transitions of [ts] that are drained after their deadline. *)
Definition late_ones (now : Micros) (ts : list Transition.t) : list Transition.t :=
  filter (fun tr => late now tr <> 0) ts.

Lemma late_nonneg now tr : 0 <= late now tr.
Proof. unfold late. pose proof (fits_wrapping_sub 32 now (Transition.at_us tr) ltac:(lia)) as [? _]. done. Qed.

Lemma record_drained_metrics now tr q : metrics_wf (metrics q) ->
  let m := metrics (record_drained_transition now tr q) in
  Metrics.late_event_count m
    = Z.min (Metrics.late_event_count (metrics q) + Z.of_nat (length (late_ones now [tr]))) u32_max
  /\ default 0 (Metrics.max_lateness_us m)
    = Z.max (default 0 (Metrics.max_lateness_us (metrics q))) (late now tr)
  /\ Metrics.queue_high_water_mark m = Metrics.queue_high_water_mark (metrics q).
Proof.
  intros [Hu Hmax]. unfold fits in Hu. pose proof (late_nonneg now tr) as Hl.
  unfold record_drained_transition, late_ones. rewrite filter_cons, filter_nil.
  change (wrapping_sub 32 now (Transition.at_us tr)) with (late now tr).
  destruct (Z.eqb_spec (late now tr) 0) as [Hz|Hne]; case_decide; try done; simpl.
  - split_and!; [unfold u32_max|..]; lia || done.
  - destruct (Metrics.max_lateness_us (metrics q)) as [m|] eqn:Em; simpl in *; [case_match; to_prop|];
      simpl; rewrite ?Em; split_and!; unfold saturating_add, u32_max; simpl; lia || done.
Qed.

Lemma record_drained_metrics_wf now tr q : metrics_wf (metrics q) ->
  metrics_wf (metrics (record_drained_transition now tr q)).
Proof.
  intros H. destruct (record_drained_metrics now tr q H) as (Hc & Hm & _).
  destruct H as [Hu H0]. unfold metrics_wf, fits in *. rewrite Hc, Hm.
  split; [unfold u32_max|]; lia.
Qed.

Lemma foldl_record_metrics now ts q : metrics_wf (metrics q) ->
  let m := metrics (foldl (fun q tr => record_drained_transition now tr q) q ts) in
  Metrics.late_event_count m
    = Z.min (Metrics.late_event_count (metrics q) + Z.of_nat (length (late_ones now ts))) u32_max
  /\ default 0 (Metrics.max_lateness_us m)
    = foldr Z.max (default 0 (Metrics.max_lateness_us (metrics q))) (late now <$> ts)
  /\ Metrics.queue_high_water_mark m = Metrics.queue_high_water_mark (metrics q).
Proof.
  revert q. induction ts as [|tr ts IH]; intros q Hwf; simpl.
  - destruct Hwf as [Hu _]. unfold fits in Hu. split_and!; [unfold u32_max; simpl; lia|done..].
  - destruct (record_drained_metrics now tr q Hwf) as (Hc & Hm & Hh).
    destruct (IH _ (record_drained_metrics_wf now tr q Hwf)) as (Hc' & Hm' & Hh').
    rewrite Hc', Hm', Hh', Hc, Hm, Hh. split_and!; [| |done].
    + unfold late_ones. rewrite (filter_cons _ tr ts), (filter_cons _ tr []), filter_nil.
      case_decide; simpl; unfold u32_max; lia.
    + apply foldr_max_shift.
Qed.

(** ** Theorems *)

(** The result of one [drain_due] as a specification: the transitions [ts] moved from
    the pool to the buffer, and nothing else moved. *)
Definition drained_to (now : Micros) (M : nat) (q q' : t) (out' : DrainBuffer.t)
    (ts : list Transition.t) : Prop :=
  pending q ≡ₚ ts ++ pending q'
  /\ length (transitions q') = length (transitions q)
  /\ buffer_holds M out' ts
  /\ Forall (due_at now) ts
  /\ StronglySorted (fun a b => late now b <= late now a) ts
  /\ (forall tr u, tr ∈ ts -> u ∈ pending q' -> due_at now u -> late now u <= late now tr)
  /\ (length ts = M \/ Forall (fun u => ~ due_at now u) (pending q')).

Lemma drain_due_drained now q out : DrainBuffer.capacity out <= 255 ->
  let '(q', out', n) := drain_due now q out in
  exists ts, drained_to now (length (DrainBuffer.transitions out)) q q' out' ts
    /\ n = Z.of_nat (length ts) /\ Metrics.last_drain_count (metrics q') = n
    /\ (metrics_wf (metrics q) ->
        Metrics.late_event_count (metrics q') =
          Z.min (Metrics.late_event_count (metrics q) + Z.of_nat (length (late_ones now ts))) u32_max
        /\ default 0 (Metrics.max_lateness_us (metrics q')) =
          foldr Z.max (default 0 (Metrics.max_lateness_us (metrics q))) (late now <$> ts)
        /\ Metrics.queue_high_water_mark (metrics q') = Metrics.queue_high_water_mark (metrics q)).
Proof.
  intros Hcap. unfold drain_due, DrainBuffer.metadata_capacity_supported, DrainBuffer.capacity in *.
  change MAX_METADATA_CAPACITY with 255. set (M := length (DrainBuffer.transitions out)) in *.
  pose proof (buffer_holds_clear out) as Hb. fold M in Hb.
  rewrite (buffer_holds_capacity _ _ _ Hb).
  destruct (Z.leb_spec (Z.of_nat M) 255); [|lia]. cbn [negb].
  pose proof (drain_loop_spec M (S (length (transitions q))) now q (DrainBuffer.clear out) 0 []
    ltac:(lia) Hb) as Hloop.
  destruct (drain_loop _ now q _ 0) as [[q' out'] n].
  destruct Hloop as (ts & Hp & Hl & Hb' & -> & Hm & Hdue & Hsort & Hrest & Hexit). simpl in Hb', Hexit.
  exists ts. split; [|split_and!].
  - split_and!; try done. destruct Hexit as [?|[?|Hfuel]]; [by left|by right|].
    exfalso. apply Permutation_length in Hp. rewrite length_app in Hp.
    pose proof (length_occupied_le (transitions q)). lia.
  - lia.
  - simpl. rewrite Z.add_0_l. apply as_unsigned_small. destruct Hb' as [Hle _]. unfold fits. lia.
  - intros Hwf. simpl. rewrite Hm. by apply foldl_record_metrics.
Qed.

(** C13: [drain_due] on a buffer of at most 255 slots terminates having moved transitions
    from the pool to the buffer, losing and duplicating none: only due ones, latest
    first, each at least as late as any due one it leaves behind, and it stops only
    when the buffer is full or nothing due is left; the count it returns and records
    is the number drained. *)
Theorem drain_due_spec now q out : DrainBuffer.capacity out <= 255 ->
  let '(q', out', n) := drain_due now q out in
  exists ts, drained_to now (length (DrainBuffer.transitions out)) q q' out' ts
    /\ n = Z.of_nat (length ts) /\ Metrics.last_drain_count (metrics q') = n.
Proof.
  intros Hcap. pose proof (drain_due_drained now q out Hcap) as H.
  destruct (drain_due now q out) as [[q' out'] n]. naive_solver.
Qed.

(** draining counts, saturating at the width of the counter, exactly the
    transitions drained after their deadline, keeps the largest lateness seen, and
    leaves the high-water mark alone. *)
Theorem drain_due_metrics now q out : DrainBuffer.capacity out <= 255 -> metrics_wf (metrics q) ->
  let '(q', out', n) := drain_due now q out in
  exists ts, buffer_holds (length (DrainBuffer.transitions out)) out' ts
    /\ Metrics.late_event_count (metrics q') =
         Z.min (Metrics.late_event_count (metrics q) + Z.of_nat (length (late_ones now ts))) u32_max
    /\ default 0 (Metrics.max_lateness_us (metrics q')) =
         foldr Z.max (default 0 (Metrics.max_lateness_us (metrics q))) (late now <$> ts)
    /\ Metrics.queue_high_water_mark (metrics q') = Metrics.queue_high_water_mark (metrics q).
Proof.
  intros Hcap Hwf. pose proof (drain_due_drained now q out Hcap) as H.
  destruct (drain_due now q out) as [[q' out'] n].
  destruct H as (ts & (_ & _ & Hb & _) & _ & _ & Hm). exists ts. split; [done|by apply Hm].
Qed.

(** [select_due] with the [Ord] comparison of equal timestamps removed. *)
Fixpoint select_due_by_deadline (now : Micros) (idx : nat) (slots : list (option Transition.t))
    (selected : option (nat * Transition.t)) : option (nat * Transition.t) :=
  match slots with
  | [] => selected
  | slot :: slots =>
    select_due_by_deadline now (S idx) slots
      match slot with
      | None => selected
      | Some tr =>
        if negb (is_due now (Transition.at_us tr)) then selected
        else
          match selected with
          | None => Some (idx, tr)
          | Some (_, cur) =>
            if is_before (Transition.at_us tr) (Transition.at_us cur) then Some (idx, tr) else selected
          end
      end
  end.

Lemma select_due_ignores_ord now idx slots sel :
  select_due now idx slots sel = select_due_by_deadline now idx slots sel.
Proof.
  revert idx sel. induction slots as [|[tr|] slots IH]; intros idx sel; simpl; [done| |apply IH].
  rewrite IH. f_equal. destruct (is_due _ _); simpl; [|done]. destruct sel as [[i cur]|]; [|done].
  destruct (is_before (Transition.at_us tr) (Transition.at_us cur)) eqn:Hb; [done|]. simpl.
  destruct (Z.eqb_spec (Transition.at_us tr) (Transition.at_us cur)) as [Heq|]; [|done].
  by rewrite Heq, is_before_refl in Hb.
Qed.

(** when several due transitions share the deadline that is drained next, the one in
    the highest slot is drained, whatever its kind, channel and level: the selection
    is the one that compares deadlines only, and the [Ord] tie-break never acts. *)
Theorem drain_ties_by_slot now q :
  next_due_index now q = fst <$> select_due_by_deadline now 0 (transitions q) None
  /\ (forall i tr j u, next_due_index now q = Some i -> transitions q !! i = Some (Some tr) ->
      transitions q !! j = Some (Some u) -> Transition.at_us u = Transition.at_us tr -> (j <= i)%nat).
Proof.
  split; [unfold next_due_index; by rewrite select_due_ignores_ord|].
  intros i tr j u Hi Htr Hu Heq. pose proof (next_due_index_spec now q) as H. rewrite Hi in H.
  destruct H as (tr' & Htr' & Hdue & Hmax). simplify_eq.
  assert (late now u = late now tr) as Hlate by (unfold late; by rewrite Heq).
  destruct (Hmax j u Hu); [by unfold due_at; rewrite Heq|lia|tauto].
Qed.

(** [enqueue_transition] succeeds exactly when the queue has at most 255 slots and
    one of them is free; it then adds the transition to the pool, and otherwise it
    reports [QueueFull] and leaves the queue as it was. *)
Theorem enqueue_transition_spec tr q :
  let '(q', r) := enqueue_transition tr q in
  (r = Ok tt <-> capacity q <= 255 /\ 0 < free_slots q)
  /\ (r = Ok tt -> pending q' ≡ₚ tr :: pending q)
  /\ (r <> Ok tt -> r = Err ScheduleError.QueueFull /\ q' = q).
Proof.
  unfold free_slots, saturating_sub. pose proof (active_count_bounds q).
  destruct (enqueue_transition_cases tr q) as [(Hc & Ha & q' & -> & Hp & _)|(Hc & ->)].
  - split_and!; [|done..]. split; [intros _; lia|done].
  - split_and!; [|done..]. split; [done|lia].
Qed.

(** [enqueue_export] is atomic and never panics on an export whose length is within
    its array: it adds every transition of the export, or it reports [QueueFull] and
    the queue is unchanged; with at most 255 slots it succeeds exactly when the
    export's length fits in the free slots. *)
Theorem enqueue_export_atomic export q : export_wf export ->
  exists q' r, enqueue_export export q = Some (q', r)
    /\ (r = Ok tt -> pending q' ≡ₚ export_transitions_of export ++ pending q)
    /\ (r <> Ok tt -> r = Err ScheduleError.QueueFull /\ q' = q)
    /\ (capacity q <= 255 -> (r = Ok tt <-> ScheduleExport.len export <= free_slots q)).
Proof.
  intros Hwf. unfold export_wf in Hwf. pose proof (active_count_bounds q) as Hb.
  unfold enqueue_export. destruct (Z.ltb_spec (free_slots q) (ScheduleExport.len export)) as [Hlt|Hge].
  { eexists _, _. split; [done|]. split_and!; [done..|]. intros _. split; [done|lia]. }
  pose proof (enqueue_export_loop_ok (Z.to_nat (ScheduleExport.len export)) 0 export q ltac:(lia)) as Hok.
  rewrite drop_0 in Hok.
  destruct (decide (capacity q <= 255)) as [Hc|Hc].
  - destruct Hok as (q' & -> & Hp & _); [done| |].
    { pose proof (length_occupied_le (take (Z.to_nat (ScheduleExport.len export))
        (ScheduleExport.transitions export))) as Ho. rewrite length_take in Ho.
      unfold free_slots, saturating_sub in Hge. lia. }
    eexists _, _. split; [done|]. split_and!; [done..|]. intros _. done.
  - rewrite enqueue_export_loop_unsupported by lia. rewrite drop_0.
    eexists _, _. split; [done|]. unfold export_transitions_of. case_decide as He.
    + rewrite He. split_and!; [done..|]. lia.
    + split_and!; [done..|]. lia.
Qed.

Lemma cancel_keeps channel cutoff group q :
  let keeps (p : Transition.t -> bool) q' :=
    length (transitions q') = length (transitions q) /\ metrics q' = metrics q
    /\ pending q' = filter (fun tr => p tr = false) (pending q) in
  keeps (fun tr => (Transition.channel tr =? channel) && is_at_or_after (Transition.at_us tr) cutoff)
    (cancel_channel_after channel cutoff q)
  /\ keeps (fun tr => Transition.channel tr =? channel) (cancel_channel_all channel q)
  /\ keeps (fun tr => match group, Transition.kind tr with
                      | OutputGroup.Injector, TransitionKind.Injector => true
                      | OutputGroup.Ignition, TransitionKind.Ignition => true
                      | _, _ => false end) (cancel_group group q)
  /\ keeps (fun _ => true) (cancel_all q).
Proof.
  cbv zeta. split_and!; try done; simpl; rewrite ?clear_if_length; try done.
  - by rewrite clear_if_occupied.
  - by rewrite clear_if_occupied.
  - destruct group; simpl; by rewrite ?clear_if_length.
  - by destruct group.
  - destruct group; simpl; rewrite ?clear_if_occupied.
    + apply list_filter_iff. intros tr. by destruct (Transition.kind tr).
    + apply list_filter_iff. intros tr. by destruct (Transition.kind tr).
    + by rewrite filter_all.
    + by rewrite filter_all.
  - apply length_replicate.
  - by rewrite occupied_empty, filter_none.
Qed.

(** the cancellation operations keep the number of slots and remove from the pool
    exactly the transitions they name, in place: those of the channel at or after the
    cutoff, those of the channel, those of the group's kind (none for the idle and fan
    groups), or all of them. *)
Theorem cancel_spec channel cutoff group q :
  let keeps (p : Transition.t -> bool) q' :=
    length (transitions q') = length (transitions q) /\ metrics q' = metrics q
    /\ pending q' = filter (fun tr => p tr = false) (pending q) in
  keeps (fun tr => (Transition.channel tr =? channel) && is_at_or_after (Transition.at_us tr) cutoff)
    (cancel_channel_after channel cutoff q)
  /\ keeps (fun tr => Transition.channel tr =? channel) (cancel_channel_all channel q)
  /\ keeps (fun tr => match group, Transition.kind tr with
                      | OutputGroup.Injector, TransitionKind.Injector => true
                      | OutputGroup.Ignition, TransitionKind.Ignition => true
                      | _, _ => false end) (cancel_group group q)
  /\ keeps (fun _ => true) (cancel_all q).
Proof. apply cancel_keeps. Qed.

Section WithFrontier.
Context `{FL : FrontierLaws F}.
Implicit Types (frontier : F).

(** A drain through a frontier: if it is dead once expired, the drain empties the pool and
    drains nothing; otherwise it is [drain_due]. *)
Lemma drain_behind_frontier now frontier q out :
  let '(f', q', out', n) := drain_due_with_frontier now frontier q out in
  f' = expire_frontier now frontier
  /\ ((~ frontier_live f' /\ q' = set_last_drain_count 0 (cancel_all q) /\ out' = DrainBuffer.clear out /\ n = 0)
      \/ (frontier_live f' /\ frontier_live frontier /\ ~ deadline_passed now frontier /\ (q', out', n) = drain_due now q out)).
Proof.
  unfold drain_due_with_frontier.
  pose proof (expire_passed now frontier) as Hpass. pose proof (expire_live_inv now frontier) as Hinv.
  set (f' := expire_frontier now frontier) in *.
  assert (bool_decide (active_horizon_id f' = None)
     || SafetyPermitMask.is_empty (active_permit_mask f') = false <-> frontier_live f') as Hlive.
  { unfold frontier_live. rewrite orb_false_iff, bool_decide_eq_false.
    by rewrite <- not_eq_None_Some. }
  destruct (bool_decide _ || _) eqn:Hdead.
  - split; [done|]. left. split_and!; try done. intros Hl. by apply Hlive in Hl.
  - assert (frontier_live f') as Hl by (by apply Hlive).
    destruct (drain_due now q out) as [[q' out'] n] eqn:Hd. split; [done|]. right.
    split_and!; [done|by apply Hinv| |done]. intros Hp. by apply Hpass.
Qed.

(** The public operations of the queue as steps. *)
Inductive queue_step : Queue.t -> Queue.t -> Prop :=
| step_enqueue tr q : queue_step q (fst (enqueue_transition tr q))
| step_export export q q' r : enqueue_export export q = Some (q', r) -> queue_step q q'
| step_drain now out q : queue_step q (fst (fst (drain_due now q out)))
| step_frontier now frontier out q :
    queue_step q (snd (fst (fst (drain_due_with_frontier now frontier q out))))
| step_cancel_after channel cutoff q : queue_step q (cancel_channel_after channel cutoff q)
| step_cancel_channel channel q : queue_step q (cancel_channel_all channel q)
| step_cancel_group group q : queue_step q (cancel_group group q)
| step_cancel_all q : queue_step q (cancel_all q).

Definition queue_reachable (N : nat) (q : Queue.t) : Prop := rtc queue_step (Queue.new N) q.

(** The metrics tell the truth about the pool. *)
Definition queue_inv (N : nat) (q : Queue.t) : Prop :=
  length (transitions q) = N
  /\ active_count q <= Metrics.queue_high_water_mark (metrics q) <= Z.of_nat N
  /\ metrics_wf (metrics q).

Lemma queue_inv_shrink N q q' : queue_inv N q ->
  length (transitions q') = length (transitions q) -> metrics q' = metrics q ->
  (length (pending q') <= length (pending q))%nat -> queue_inv N q'.
Proof.
  intros (HN & Hh & Hm) Hl Hmq Hp. unfold queue_inv, active_count in *. rewrite Hmq, Hl.
  split_and!; [lia..|done].
Qed.

Lemma queue_inv_enqueue N q tr : (N <= 255)%nat -> queue_inv N q ->
  queue_inv N (fst (enqueue_transition tr q)).
Proof.
  intros HN Hinv. pose proof Hinv as (HlN & Hh & Hm).
  unfold enqueue_transition. destruct (metadata_capacity_supported q) eqn:Hc; [|done].
  destruct (fill_first tr (transitions q)) as [slots|] eqn:Hf; [|done]. simpl.
  set (q1 := q <| transitions := slots |>).
  assert (length (transitions q1) = N) as Hl1 by (simpl; by rewrite (fill_first_length _ _ _ Hf)).
  pose proof (active_count_bounds q1) as Hb. unfold capacity in Hb.
  unfold record_enqueue_metrics. rewrite active_count_u8 by (unfold capacity; lia).
  assert (metrics q1 = metrics q) as Hmq by done. rewrite Hmq.
  destruct (Z.ltb_spec (Metrics.queue_high_water_mark (metrics q)) (active_count q1)).
  - split_and!; simpl; [done|unfold active_count in *; simpl in *; lia|lia|done].
  - split_and!; [done|rewrite Hmq; lia|rewrite Hmq; lia|by rewrite Hmq].
Qed.

Lemma queue_inv_export_loop N n idx export q q' r : (N <= 255)%nat -> queue_inv N q ->
  enqueue_export_loop n idx export q = Some (q', r) -> queue_inv N q'.
Proof.
  intros HN. revert idx q. induction n as [|n IH]; intros idx q Hinv Hl; simplify_eq/=; [done|].
  destruct (ScheduleExport.transitions export !! idx) as [[tr|]|]; [|by eapply IH|done].
  pose proof (queue_inv_enqueue N q tr HN Hinv) as Hinv1.
  destruct (enqueue_transition tr q) as [q1 [[]|e]]; simplify_eq/=; [by eapply IH|done].
Qed.

Lemma queue_inv_last_drain N n q : queue_inv N (set_last_drain_count n q) <-> queue_inv N q.
Proof. done. Qed.

Lemma queue_inv_drain N now q out : queue_inv N q ->
  queue_inv N (fst (fst (drain_due now q out))).
Proof.
  intros Hinv. destruct (decide (DrainBuffer.capacity out <= 255)) as [Hc|Hc].
  - pose proof (drain_due_drained now q out Hc) as Hdr.
    destruct (drain_due now q out) as [[q' out'] n]. simpl.
    destruct Hdr as (ts & (Hp & Hl & _) & _ & _ & Hm). destruct Hinv as (HN & Hh & Hwf).
    destruct (Hm Hwf) as (Hlc & Hmax & Hhw). unfold queue_inv, active_count in *.
    apply Permutation_length in Hp. rewrite length_app in Hp. rewrite Hl, Hhw.
    split_and!; [done|lia|lia|]. destruct Hwf as [Hu H0]. unfold metrics_wf, fits in *.
    rewrite Hlc, Hmax. split; [unfold u32_max; lia|].
    by apply foldr_max_ge.
  - unfold drain_due, DrainBuffer.metadata_capacity_supported.
    destruct (Z.leb_spec (DrainBuffer.capacity (DrainBuffer.clear out)) MAX_METADATA_CAPACITY) as [Hle|].
    + exfalso. apply Hc. unfold DrainBuffer.capacity, DrainBuffer.clear in *. simpl in Hle.
      by rewrite length_replicate in Hle.
    + done.
Qed.

Lemma queue_inv_step N q q' : (N <= 255)%nat -> queue_inv N q -> queue_step q q' -> queue_inv N q'.
Proof.
  intros HN Hinv Hstep. destruct Hstep as [tr q|export q q' r He|now out q|now frontier out q
    |channel cutoff q|channel q|group q|q].
  - by apply queue_inv_enqueue.
  - unfold enqueue_export in He. case_match; simplify_eq; [done|].
    by eapply queue_inv_export_loop.
  - by apply queue_inv_drain.
  - unfold drain_due_with_frontier. case_match; simpl.
    + apply queue_inv_last_drain; eapply queue_inv_shrink; [done|apply length_replicate|done|].
      simpl. rewrite occupied_empty. simpl. lia.
    + pose proof (queue_inv_drain N now q out Hinv) as H'.
      by destruct (drain_due now q out) as [[q' out'] n].
  - destruct (cancel_keeps channel cutoff OutputGroup.Injector q) as ((? & ? & Hp) & _).
    eapply queue_inv_shrink; [done..|]. rewrite Hp. apply length_filter.
  - destruct (cancel_keeps channel 0 OutputGroup.Injector q) as (_ & (? & ? & Hp) & _).
    eapply queue_inv_shrink; [done..|]. rewrite Hp. apply length_filter.
  - destruct (cancel_keeps 0 0 group q) as (_ & _ & (? & ? & Hp) & _).
    eapply queue_inv_shrink; [done..|]. rewrite Hp. apply length_filter.
  - destruct (cancel_keeps 0 0 OutputGroup.Injector q) as (_ & _ & _ & (? & ? & Hp)).
    eapply queue_inv_shrink; [done..|]. rewrite Hp. apply length_filter.
Qed.

(** in every state a queue of at most 255 slots can reach through its operations, the
    number of pending transitions never exceeds the recorded high-water mark, which
    never exceeds the number of slots. *)
Theorem queue_high_water_mark_sound N q : (N <= 255)%nat -> queue_reachable N q ->
  queue_inv N q.
Proof.
  intros HN Hr. unfold queue_reachable in Hr.
  assert (queue_inv N (Queue.new N)) as H0.
  { split_and!; simpl; [apply length_replicate| | |split; unfold fits; simpl; lia].
    - unfold active_count. simpl. rewrite occupied_empty. done.
    - lia. }
  revert H0. induction Hr as [q|q1 q2 q3 Hs Hr IH]; intros Hq; [done|].
  apply IH. by eapply queue_inv_step.
Qed.
End WithFrontier.

(** ** Witnesses *)

(** Two pending transitions of one channel, the later one in the lower slot. *)
Definition sample_queue : Queue.t :=
  fst (enqueue_transition (Transition.mk 10 TransitionKind.Ignition 3 Level.High)
    (fst (enqueue_transition (Transition.mk 15 TransitionKind.Ignition 3 Level.Low) (Queue.new 4)))).

Example drain_due_spec_witness :
  let out := DrainBuffer.new 4 in
  DrainBuffer.capacity out <= 255
  /\ let '(q', out', n) := drain_due 20 sample_queue out in
     exists ts, drained_to 20 (length (DrainBuffer.transitions out)) sample_queue q' out' ts
       /\ n = Z.of_nat (length ts) /\ Metrics.last_drain_count (metrics q') = n.
Proof. split; [by vm_compute|apply (drain_due_spec 20 sample_queue (DrainBuffer.new 4)); by vm_compute]. Defined.

Example drain_due_metrics_witness :
  let out := DrainBuffer.new 4 in
  metrics_wf (metrics sample_queue)
  /\ let '(q', out', n) := drain_due 20 sample_queue out in
     exists ts, buffer_holds 4 out' ts
       /\ Metrics.late_event_count (metrics q') =
            Z.min (Metrics.late_event_count (metrics sample_queue)
                   + Z.of_nat (length (late_ones 20 ts))) u32_max
       /\ default 0 (Metrics.max_lateness_us (metrics q')) =
            foldr Z.max (default 0 (Metrics.max_lateness_us (metrics sample_queue))) (late 20 <$> ts)
       /\ Metrics.queue_high_water_mark (metrics q')
          = Metrics.queue_high_water_mark (metrics sample_queue).
Proof.
  split; [by vm_compute|].
  apply (drain_due_metrics 20 sample_queue (DrainBuffer.new 4)); by vm_compute.
Defined.

Definition sample_export : ScheduleExport.t :=
  ScheduleExport.mk 2 [Some (Transition.mk 30 TransitionKind.Injector 1 Level.High);
                       Some (Transition.mk 40 TransitionKind.Injector 1 Level.Low)].

Example enqueue_export_atomic_witness :
  export_wf sample_export
  /\ exists q' r, enqueue_export sample_export sample_queue = Some (q', r)
    /\ (r = Ok tt -> pending q' ≡ₚ export_transitions_of sample_export ++ pending sample_queue)
    /\ (r <> Ok tt -> r = Err ScheduleError.QueueFull /\ q' = sample_queue)
    /\ (capacity sample_queue <= 255 ->
        (r = Ok tt <-> ScheduleExport.len sample_export <= free_slots sample_queue)).
Proof. split; [by vm_compute|apply (enqueue_export_atomic sample_export sample_queue); by vm_compute]. Defined.

Example drain_ties_by_slot_witness :
  next_due_index 20 (fst (enqueue_transition (Transition.mk 10 TransitionKind.Injector 0 Level.High)
    (fst (enqueue_transition (Transition.mk 10 TransitionKind.Ignition 3 Level.Low) (Queue.new 2)))))
  = Some 1%nat
  /\ next_due_index 20 sample_queue
     = fst <$> select_due_by_deadline 20 0 (transitions sample_queue) None.
Proof. split; [by vm_compute|apply (drain_ties_by_slot 20 sample_queue)]. Defined.
