(* ===== verification/SchedState.v ===== *)
(** * Scheduler state (crates/scheduler/src/state.rs, conformance.rs)

    Ownership of output channels by scheduled windows, the scheduler mode, and the
    frontier: the live horizon with its permits, heartbeat and stop reason. *)
From S2P Require Import Prelude Domain BoardApi SchedTypes Queue.

Module SchedulerMode.
Inductive t := Idle | Armed | Suspended.
#[global] Instance eq_dec : EqDecision t.
Proof. solve_decision. Defined.
End SchedulerMode.

Definition CHANNEL_BIT_WIDTH : Z := 128.
Definition MAX_SCHEDULED_WINDOWS : nat := Z.to_nat (FULL_ECU_MAX_CYLINDERS * 2).

Module Window.
(** [ScheduledWindow] *)
Record t := mk { output : ExclusiveChannel.t; start_at : Micros; end_at : Micros }.
#[global] Instance eq_dec : EqDecision t.
Proof. solve_decision. Defined.
End Window.

Definition channel_bit (channel : ChannelId) : Result Z ScheduleError.t :=
  if CHANNEL_BIT_WIDTH <=? channel then Err ScheduleError.InvalidChannel
  else Ok (Z.shiftl 1 channel).

Definition windows_overlap (candidate_start candidate_end existing_start existing_end : Micros) : bool :=
  (candidate_start <? existing_end) && (existing_start <? candidate_end).

Module SchedulerState.
Record t := mk {
  mode : SchedulerMode.t;
  active_groups : Z;
  reserved_channels : list Z;
  scheduled_windows : list (option Window.t);
  last_accepted_horizon_id : option Z;
  last_accepted_horizon_start_us : option Micros;
  last_accepted_horizon_end_us : option Micros;
  active_horizon_id : option Z;
  horizon_start_us : option Micros;
  horizon_end_us : option Micros;
  heartbeat_deadline_us : option Micros;
  active_permit_mask : Z;
  active_stop_reason : StopReason.t;
  injection_count : Z;
  ignition_count : Z;
  last_injection_start : option Micros;
  last_injection_end : option Micros;
  last_ignition_start : option Micros;
  last_ignition_end : option Micros;
}.
#[global] Instance eq_dec : EqDecision t.
Proof. solve_decision. Defined.
#[global] Instance eta : Eta t := fun s =>
  mk (mode s) (active_groups s) (reserved_channels s) (scheduled_windows s)
    (last_accepted_horizon_id s) (last_accepted_horizon_start_us s)
    (last_accepted_horizon_end_us s) (active_horizon_id s) (horizon_start_us s)
    (horizon_end_us s) (heartbeat_deadline_us s) (active_permit_mask s) (active_stop_reason s)
    (injection_count s) (ignition_count s) (last_injection_start s) (last_injection_end s)
    (last_ignition_start s) (last_ignition_end s).

Definition new : t :=
  mk SchedulerMode.Idle 0 (replicate 4 0) (empty_slots MAX_SCHEDULED_WINDOWS)
    None None None None None None None SafetyPermitMask.NONE StopReason.None 0 0
    None None None None.

Definition is_armed (s : t) : bool := negb (active_groups s =? 0).

(** The entry of a group in the four-element channel array. *)
Definition reserved (s : t) (g : OutputGroup.t) : Z :=
  nth (OutputGroup.index g) (reserved_channels s) 0.

Definition arm_group (group : OutputGroup.t) (s : t) : t :=
  s <| active_groups := Z.lor (active_groups s) (OutputGroup.mask group) |>
    <| mode := SchedulerMode.Armed |>.

(** The loop of [refresh_reserved_channels] over the flattened windows. *)
Fixpoint or_channel_bits (windows : list Window.t) (reserved : list Z) : list Z :=
  match windows with
  | [] => reserved
  | window :: windows =>
    let idx := OutputGroup.index (ExclusiveChannel.group (Window.output window)) in
    match channel_bit (ExclusiveChannel.channel (Window.output window)) with
    | Ok bit => or_channel_bits windows (<[idx := Z.lor (nth idx reserved 0) bit]> reserved)
    | Err _ => or_channel_bits windows reserved
    end
  end.

Definition refresh_reserved_channels (s : t) : t :=
  s <| reserved_channels := or_channel_bits (occupied (scheduled_windows s)) (replicate 4 0) |>.

Definition refresh_counts (s : t) : t :=
  s <| injection_count := as_unsigned 8 (count_ones 128 (reserved s OutputGroup.Injector)) |>
    <| ignition_count := as_unsigned 8 (count_ones 128 (reserved s OutputGroup.Ignition)) |>.

Definition refresh_mode_from_groups (s : t) : t :=
  if (active_groups s =? 0) && negb (bool_decide (mode s = SchedulerMode.Suspended))
  then s <| mode := SchedulerMode.Idle |>
  else if negb (active_groups s =? 0) && negb (bool_decide (mode s = SchedulerMode.Suspended))
  then s <| mode := SchedulerMode.Armed |>
  else s.

(** [!mask] on a [u8], as an operand of [&=]. *)
Definition clear_mask (groups mask : Z) : Z := Z.land groups (255 - mask).

Definition sync_scheduled_group (group : OutputGroup.t) (s : t) : t :=
  if reserved s group =? 0
  then s <| active_groups := clear_mask (active_groups s) (OutputGroup.mask group) |>
  else s <| active_groups := Z.lor (active_groups s) (OutputGroup.mask group) |>.

Definition reserve_window (output : ExclusiveChannel.t) (start_at end_at : Micros) (s : t) :
    t * Result unit ScheduleError.t :=
  if end_at <=? start_at then (s, Err ScheduleError.ImpossibleDeadline)
  else
    match channel_bit (ExclusiveChannel.channel output) with
    | Err e => (s, Err e)
    | Ok _ =>
      if existsb (fun existing =>
           bool_decide (Window.output existing = output)
           && windows_overlap start_at end_at (Window.start_at existing) (Window.end_at existing))
         (occupied (scheduled_windows s))
      then (s, Err ScheduleError.ConflictingChannel)
      else
        match fill_first (Window.mk output start_at end_at) (scheduled_windows s) with
        | None => (s, Err ScheduleError.QueueFull)
        | Some slots =>
          let s := s <| scheduled_windows := slots |> in
          let s := arm_group (ExclusiveChannel.group output) s in
          let s := refresh_reserved_channels s in
          (refresh_counts s, Ok tt)
        end
    end.

Definition cancel_group (group : OutputGroup.t) (s : t) : t :=
  let s := s <| scheduled_windows ::= clear_if (fun window =>
    bool_decide (ExclusiveChannel.group (Window.output window) = group)) |> in
  let s := s <| reserved_channels ::= fun r => <[OutputGroup.index group := 0]> r |> in
  let s := s <| active_groups := clear_mask (active_groups s) (OutputGroup.mask group) |> in
  let s :=
    if (active_groups s =? 0) && negb (bool_decide (mode s = SchedulerMode.Suspended))
    then s <| mode := SchedulerMode.Idle |> else s in
  refresh_counts s.

Definition clear_scheduled_ownership (s : t) : t :=
  let s := s <| scheduled_windows := empty_slots MAX_SCHEDULED_WINDOWS |>
             <| reserved_channels := replicate 4 0 |> <| active_groups := 0 |> in
  refresh_mode_from_groups (refresh_counts s).

Definition clear_live_frontier_state (stop_reason : StopReason.t) (s : t) : t :=
  s <| active_horizon_id := None |> <| horizon_start_us := None |> <| horizon_end_us := None |>
    <| heartbeat_deadline_us := None |> <| active_permit_mask := SafetyPermitMask.NONE |>
    <| active_stop_reason := stop_reason |>.

Definition cancel_all (s : t) : t :=
  clear_live_frontier_state StopReason.PermitDenied (clear_scheduled_ownership s).

Definition suspend (s : t) : t :=
  (clear_scheduled_ownership s) <| mode := SchedulerMode.Suspended |>.

Definition on_sync_loss (s : t) : t := suspend (clear_live_frontier_state StopReason.SyncLost s).

Definition on_sync_recovered (s : t) : t :=
  if bool_decide (mode s = SchedulerMode.Suspended) then s <| mode := SchedulerMode.Idle |> else s.

Definition on_geometry_commit (s : t) : t :=
  cancel_group OutputGroup.Ignition (cancel_group OutputGroup.Injector s).

Definition on_hard_safety_shutdown (s : t) : t :=
  suspend (clear_live_frontier_state StopReason.TimingFault s).

Definition commit_horizon (horizon_id : Z) (horizon_start horizon_end heartbeat_deadline : Micros)
    (permit_mask : Z) (s : t) : t * bool :=
  if horizon_end <=? horizon_start then (s, false)
  else if MAX_HORIZON_US <? saturating_sub horizon_end horizon_start then (s, false)
  else if match last_accepted_horizon_id s with
          | Some last => horizon_id <=? last | None => false end then (s, false)
  else
    (s <| last_accepted_horizon_id := Some horizon_id |>
       <| last_accepted_horizon_start_us := Some horizon_start |>
       <| last_accepted_horizon_end_us := Some horizon_end |>
       <| active_horizon_id := Some horizon_id |>
       <| horizon_start_us := Some horizon_start |>
       <| horizon_end_us := Some horizon_end |>
       <| heartbeat_deadline_us := Some heartbeat_deadline |>
       <| active_permit_mask := permit_mask |>
       <| active_stop_reason := StopReason.None |>, true).

Definition note_heartbeat (now : Micros) (s : t) : t :=
  match active_horizon_id s with
  | Some _ => s <| heartbeat_deadline_us := Some (saturating_add 32 now HEARTBEAT_EXPIRY_US) |>
  | None => s
  end.

Definition expire_heartbeat (now : Micros) (s : t) : t * bool :=
  match heartbeat_deadline_us s with
  | None => (s, false)
  | Some deadline =>
    if now <=? deadline then (s, false)
    else
      let s := s <| active_permit_mask := SafetyPermitMask.NONE |> in
      (if bool_decide (active_stop_reason s = StopReason.None)
       then s <| active_stop_reason := StopReason.HeartbeatExpired |> else s, true)
  end.

Definition expire_horizon (now : Micros) (s : t) : t * bool :=
  match horizon_end_us s with
  | None => (s, false)
  | Some end_us =>
    if now <=? end_us then (s, false)
    else
      (clear_live_frontier_state
         match active_stop_reason s with
         | StopReason.None => StopReason.HorizonExpired
         | reason => reason
         end s, true)
  end.

Definition expire_frontier (now : Micros) (s : t) : t :=
  let s := fst (expire_heartbeat now s) in
  fst (expire_horizon now s).

Definition ensure_schedulable (s : t) : Result unit ScheduleError.t :=
  match mode s with
  | SchedulerMode.Suspended => Err ScheduleError.Suspended
  | _ => Ok tt
  end.

Definition convert_deadline (now start_at end_at : Micros) :
    Result (Micros * Micros) ScheduleError.t :=
  if start_at <=? now then Err ScheduleError.StaleDeadline
  else if end_at <? start_at then Err ScheduleError.StaleDeadline
  else if end_at =? start_at then Err ScheduleError.ImpossibleDeadline
  else Ok (start_at, end_at).

Definition schedule_injection (now start_at end_at : Micros) (plan : InjectionPlan.t) (s : t) :
    t * Result TimedInjectionPlan.t ScheduleError.t :=
  match ensure_schedulable s with
  | Err e => (s, Err e)
  | Ok _ =>
    match convert_deadline now start_at end_at with
    | Err e => (s, Err e)
    | Ok timed =>
      match reserve_window (InjectionPlan.output plan) (fst timed) (snd timed) s with
      | (s, Err e) => (s, Err e)
      | (s, Ok _) =>
        (s <| last_injection_start := Some (fst timed) |>
           <| last_injection_end := Some (snd timed) |>,
         Ok (TimedInjectionPlan.mk plan (fst timed) (snd timed)))
      end
    end
  end.

Definition schedule_ignition (now start_at end_at : Micros) (plan : IgnitionPlan.t) (s : t) :
    t * Result TimedIgnitionPlan.t ScheduleError.t :=
  match ensure_schedulable s with
  | Err e => (s, Err e)
  | Ok _ =>
    match convert_deadline now start_at end_at with
    | Err e => (s, Err e)
    | Ok timed =>
      match reserve_window (IgnitionPlan.output plan) (fst timed) (snd timed) s with
      | (s, Err e) => (s, Err e)
      | (s, Ok _) =>
        (s <| last_ignition_start := Some (fst timed) |>
           <| last_ignition_end := Some (snd timed) |>,
         Ok (TimedIgnitionPlan.mk plan (fst timed) (snd timed)))
      end
    end
  end.

Definition group_of_kind (k : TransitionKind.t) : OutputGroup.t :=
  match k with
  | TransitionKind.Injector => OutputGroup.Injector
  | TransitionKind.Ignition => OutputGroup.Ignition
  end.

Definition note_drained_transition (transition : Transition.t) (s : t) : t :=
  if negb (bool_decide (Transition.level transition = Level.Low)) then s
  else
    let output :=
      ExclusiveChannel.mk (group_of_kind (Transition.kind transition))
        (Transition.channel transition) in
    match clear_first (fun window =>
        bool_decide (Window.output window = output)
        && (Window.end_at window =? Transition.at_us transition)) (scheduled_windows s) with
    | None => s
    | Some slots =>
      let s := s <| scheduled_windows := slots |> in
      let s := refresh_reserved_channels s in
      let s := sync_scheduled_group OutputGroup.Injector s in
      let s := sync_scheduled_group OutputGroup.Ignition s in
      let s := refresh_counts s in
      refresh_mode_from_groups s
    end.
End SchedulerState.

#[export] Instance scheduler_frontier : Frontier SchedulerState.t := {
  Queue.expire_frontier := SchedulerState.expire_frontier;
  Queue.active_horizon_id := SchedulerState.active_horizon_id;
  Queue.active_permit_mask := SchedulerState.active_permit_mask;
}.

(** ** Conformance surface (conformance.rs) *)
Module ObservedSurface.
(** [SchedulerObservedSurface] *)
Record t := mk {
  mode : SchedulerMode.t;
  active_groups : Z;
  reserved_channels : list Z;
  last_accepted_horizon_id : option Z;
  active_horizon_id : option Z;
  horizon_start_us : option Micros;
  horizon_end_us : option Micros;
  heartbeat_deadline_us : option Micros;
  active_permit_mask : Z;
  active_stop_reason : StopReason.t;
  last_injection_start : option Micros;
  last_injection_end : option Micros;
  last_ignition_start : option Micros;
  last_ignition_end : option Micros;
  injection_count : Z;
  ignition_count : Z;
  late_event_count : Z;
  max_lateness_us : option Micros;
  queue_high_water_mark : Z;
  last_drain_count : Z;
}.
#[global] Instance eta : Eta t := fun o =>
  mk (mode o) (active_groups o) (reserved_channels o) (last_accepted_horizon_id o)
    (active_horizon_id o) (horizon_start_us o) (horizon_end_us o) (heartbeat_deadline_us o)
    (active_permit_mask o) (active_stop_reason o) (last_injection_start o) (last_injection_end o)
    (last_ignition_start o) (last_ignition_end o) (injection_count o) (ignition_count o)
    (late_event_count o) (max_lateness_us o) (queue_high_water_mark o) (last_drain_count o).

Definition default : t :=
  mk SchedulerMode.Idle 0 (replicate 4 0) None None None None None SafetyPermitMask.NONE
    StopReason.None None None None None 0 0 0 None 0 0.

Definition observe_scheduler (s : SchedulerState.t) : t :=
  mk (SchedulerState.mode s) (SchedulerState.active_groups s) (SchedulerState.reserved_channels s)
    (SchedulerState.last_accepted_horizon_id s) (SchedulerState.active_horizon_id s)
    (SchedulerState.horizon_start_us s) (SchedulerState.horizon_end_us s)
    (SchedulerState.heartbeat_deadline_us s) (SchedulerState.active_permit_mask s)
    (SchedulerState.active_stop_reason s) (SchedulerState.last_injection_start s)
    (SchedulerState.last_injection_end s) (SchedulerState.last_ignition_start s)
    (SchedulerState.last_ignition_end s) (SchedulerState.injection_count s)
    (SchedulerState.ignition_count s) 0 None 0 0.

Definition observe_scheduler_queue (q : Queue.t) : t :=
  let snap := Queue.snapshot q in
  default <| late_event_count := Queue.snap_late_event_count snap |>
          <| max_lateness_us := Queue.snap_max_lateness_us snap |>
          <| queue_high_water_mark := Queue.snap_queue_high_water_mark snap |>
          <| last_drain_count := Queue.snap_last_drain_count snap |>.
End ObservedSurface.

Module EventSnapshot.
(** [SchedulerEventSnapshot] and [SchedulerEventKind] *)
Inductive kind_t := Injection | Ignition.
#[global] Instance kind_eq_dec : EqDecision kind_t.
Proof. solve_decision. Defined.
Record t := mk {
  kind : kind_t;
  channel : ChannelId;
  deadline_us : Micros;
  active : bool;
  cancelled : bool;
  order_index : option Z;
}.
#[global] Instance eta : Eta t := fun e =>
  mk (kind e) (channel e) (deadline_us e) (active e) (cancelled e) (order_index e).

Definition from_injection_plan (p : TimedInjectionPlan.t) (order_index : Z) : t :=
  mk Injection (ExclusiveChannel.channel (InjectionPlan.output (TimedInjectionPlan.plan p)))
    (TimedInjectionPlan.end_at p) true false (Some order_index).
Definition from_ignition_plan (p : TimedIgnitionPlan.t) (order_index : Z) : t :=
  mk Ignition (ExclusiveChannel.channel (IgnitionPlan.output (TimedIgnitionPlan.plan p)))
    (TimedIgnitionPlan.end_at p) true false (Some order_index).
Definition with_cancelled (e : t) : t := e <| active := false |> <| cancelled := true |>.
End EventSnapshot.

(** The bit counts and the operations built on them are unfolded last by conversion. *)
#[global] Strategy 500 [count_ones].
#[global] Strategy 400 [SchedulerState.refresh_counts].
#[global] Strategy 300 [SchedulerState.clear_scheduled_ownership SchedulerState.cancel_group
  SchedulerState.reserve_window SchedulerState.note_drained_transition].

(** ** Lemmas *)
Import SchedulerState.

(** *** The group mask: four bits of a [u8] *)
Definition groups_ok (a : Z) : Prop := 0 <= a < 16.
Definition group_active (a : Z) (g : OutputGroup.t) : bool :=
  Z.testbit a (Z.of_nat (OutputGroup.index g)).
Definition all_groups : list OutputGroup.t :=
  [OutputGroup.Injector; OutputGroup.Ignition; OutputGroup.Idle; OutputGroup.Fan].

(** A decidable fact about every group mask, checked on the sixteen of them. *)
Lemma groups_check (P : Z -> OutputGroup.t -> OutputGroup.t -> bool) :
  forallb (fun a => forallb (fun g => forallb (P a g) all_groups) all_groups) (seqZ 0 16) = true ->
  forall a g h, groups_ok a -> P a g h = true.
Proof.
  rewrite forallb_forall. intros H a g h Ha.
  specialize (H a). rewrite <- list_elem_of_In, elem_of_seqZ in H. specialize (H Ha).
  rewrite forallb_forall in H. specialize (H g). rewrite forallb_forall in H.
  assert (forall g, In g all_groups) as Hin by (intros []; simpl; tauto).
  by apply H.
Qed.

Lemma arm_groups_ok a g : groups_ok a -> groups_ok (Z.lor a (OutputGroup.mask g)).
Proof.
  intros Ha. pose proof (groups_check (fun a g _ => (0 <=? Z.lor a (OutputGroup.mask g))
    && (Z.lor a (OutputGroup.mask g) <? 16)) ltac:(by vm_compute) a g g Ha). simpl in *.
  to_prop. by split.
Qed.

Lemma clear_groups_ok a g : groups_ok a -> groups_ok (clear_mask a (OutputGroup.mask g)).
Proof.
  intros Ha. pose proof (groups_check (fun a g _ => (0 <=? clear_mask a (OutputGroup.mask g))
    && (clear_mask a (OutputGroup.mask g) <? 16)) ltac:(by vm_compute) a g g Ha). simpl in *.
  to_prop. by split.
Qed.

Lemma group_active_arm a g h : groups_ok a ->
  group_active (Z.lor a (OutputGroup.mask g)) h = group_active a h || bool_decide (g = h).
Proof.
  intros Ha. apply eqb_prop.
  exact (groups_check (fun a g h => Bool.eqb (group_active (Z.lor a (OutputGroup.mask g)) h)
    (group_active a h || bool_decide (g = h))) ltac:(by vm_compute) a g h Ha).
Qed.

Lemma group_active_clear a g h : groups_ok a ->
  group_active (clear_mask a (OutputGroup.mask g)) h = group_active a h && negb (bool_decide (g = h)).
Proof.
  intros Ha. apply eqb_prop.
  exact (groups_check (fun a g h => Bool.eqb (group_active (clear_mask a (OutputGroup.mask g)) h)
    (group_active a h && negb (bool_decide (g = h)))) ltac:(by vm_compute) a g h Ha).
Qed.

Lemma groups_nonzero a g : group_active a g = true -> a <> 0.
Proof. intros H ->. unfold group_active in H. by rewrite Z.testbit_0_l in H. Qed.
#[export] Hint Resolve arm_groups_ok clear_groups_ok : ecu.

(** *** Channel bits *)
Definition window_ok (w : Window.t) : Prop :=
  Window.start_at w < Window.end_at w
  /\ 0 <= ExclusiveChannel.channel (Window.output w) < CHANNEL_BIT_WIDTH.

Lemma channel_bit_ok c : 0 <= c < CHANNEL_BIT_WIDTH -> channel_bit c = Ok (2 ^ c).
Proof.
  intros Hc. unfold channel_bit. destruct (Z.leb_spec CHANNEL_BIT_WIDTH c); [lia|].
  by rewrite Z.shiftl_1_l.
Qed.

Lemma group_index_inj g h : OutputGroup.index g = OutputGroup.index h -> g = h.
Proof. by destruct g, h. Qed.

Lemma group_index_lt g : (OutputGroup.index g < 4)%nat.
Proof. destruct g; simpl; lia. Qed.

Lemma nth_insert_reserved (r : list Z) i j v : (i < length r)%nat ->
  nth j (<[i := v]> r) 0 = if decide (i = j) then v else nth j r 0.
Proof.
  intros Hi. rewrite !nth_lookup. case_decide as Hij.
  - subst. by rewrite list_lookup_insert_eq.
  - by rewrite list_lookup_insert_ne.
Qed.

Lemma or_channel_bits_length ws r : length (or_channel_bits ws r) = length r.
Proof.
  revert r. induction ws as [|w ws IH]; intros r; simpl; [done|].
  case_match; rewrite IH; [apply length_insert|done].
Qed.

(** The bit of a channel is set exactly when a window holds the output. *)
Lemma or_channel_bits_testbit ws r g c : Forall window_ok ws -> length r = 4%nat -> 0 <= c ->
  Z.testbit (nth (OutputGroup.index g) (or_channel_bits ws r) 0) c = true <->
  Z.testbit (nth (OutputGroup.index g) r 0) c = true
  \/ exists w, w ∈ ws /\ Window.output w = ExclusiveChannel.mk g c.
Proof.
  intros Hws Hr Hc. revert r Hr. induction Hws as [|w ws [_ Hch] Hws IH]; intros r Hr; simpl.
  { set_solver. }
  rewrite channel_bit_ok by done. rewrite IH by (by rewrite length_insert).
  destruct (Window.output w) as [gw cw] eqn:Hw. simpl in *.
  rewrite nth_insert_reserved by (rewrite Hr; apply group_index_lt).
  setoid_rewrite elem_of_cons. case_decide as Hg.
  - apply group_index_inj in Hg. subst gw.
    rewrite Z.lor_spec, Z.pow2_bits_eqb, orb_true_iff, Z.eqb_eq by lia. split.
    + intros [[?|<-]|(w' & ? & ?)]; [by left|right; exists w; naive_solver|right; naive_solver].
    + intros [?|(w' & [->|?] & ?)]; [by auto|left; right; congruence|right; naive_solver].
  - split; [naive_solver|]. intros [?|(w' & [->|?] & ?)]; [by left| |right; naive_solver].
    exfalso. apply Hg. congruence.
Qed.

Lemma reserved_zero_iff x : (forall c, 0 <= c -> Z.testbit x c = false) -> x = 0.
Proof.
  intros H. apply Z.bits_inj_0. intros n. destruct (decide (0 <= n)); [by apply H|].
  apply Z.testbit_neg_r. lia.
Qed.

(** *** The ownership invariant *)
Abbreviation windows s := (occupied (scheduled_windows s)).

(** Two windows of one output do not overlap in time. *)
Definition windows_exclusive (a b : Window.t) : Prop :=
  Window.output a = Window.output b ->
  windows_overlap (Window.start_at a) (Window.end_at a) (Window.start_at b) (Window.end_at b) = false.

Lemma windows_exclusive_sym a b : windows_exclusive a b -> windows_exclusive b a.
Proof.
  unfold windows_exclusive, windows_overlap. intros H Heq. by rewrite andb_comm, H.
Qed.

Record ownership_inv (s : SchedulerState.t) : Prop := {
  own_slots : length (scheduled_windows s) = MAX_SCHEDULED_WINDOWS;
  own_windows : Forall window_ok (windows s);
  own_exclusive : ForallOrdPairs windows_exclusive (windows s);
  own_channels : length (reserved_channels s) = 4%nat;
  own_reserved : forall g c, 0 <= c -> Z.testbit (reserved s g) c = true <->
    exists w, w ∈ windows s /\ Window.output w = ExclusiveChannel.mk g c;
  own_groups : groups_ok (active_groups s);
  own_active : forall w, w ∈ windows s ->
    group_active (active_groups s) (ExclusiveChannel.group (Window.output w)) = true;
  own_mode : mode s = SchedulerMode.Armed <-> active_groups s <> 0;
  own_injection : injection_count s = as_unsigned 8 (count_ones 128 (reserved s OutputGroup.Injector));
  own_ignition : ignition_count s = as_unsigned 8 (count_ones 128 (reserved s OutputGroup.Ignition));
}.

(** The invariant reads only these fields. *)
Definition ownership (s : SchedulerState.t) :=
  (mode s, active_groups s, reserved_channels s, scheduled_windows s,
   injection_count s, ignition_count s).

Lemma ownership_inv_ext s s' : ownership s = ownership s' -> ownership_inv s -> ownership_inv s'.
Proof.
  destruct s, s'. unfold ownership. simpl. intros Heq Hinv. simplify_eq.
  destruct Hinv. by constructor.
Qed.

Lemma fresh_reserved ws g c : Forall window_ok ws -> 0 <= c ->
  Z.testbit (nth (OutputGroup.index g) (or_channel_bits ws (replicate 4 0)) 0) c = true <->
  exists w, w ∈ ws /\ Window.output w = ExclusiveChannel.mk g c.
Proof.
  intros Hws Hc. rewrite or_channel_bits_testbit by done.
  assert (nth (OutputGroup.index g) (replicate 4 0) 0 = 0) as -> by (by destruct g).
  rewrite Z.testbit_0_l. naive_solver.
Qed.

Lemma ownership_new : ownership_inv SchedulerState.new.
Proof.
  constructor; simpl; try done.
  - constructor.
  - intros g c Hc. assert (reserved SchedulerState.new g = 0) as -> by (by destruct g).
    rewrite Z.testbit_0_l, occupied_empty. set_solver.
  - intros w Hw. rewrite occupied_empty in Hw. by apply elem_of_nil in Hw.
Qed.

Lemma ownership_arm_group g s : ownership_inv s -> ownership_inv (arm_group g s).
Proof.
  intros []. constructor; simpl; try done.
  - by apply arm_groups_ok.
  - intros w Hw. rewrite group_active_arm by done. by rewrite own_active0.
  - split; [|done]. intros _. apply (groups_nonzero _ g).
    rewrite group_active_arm by done. by rewrite bool_decide_true, orb_true_r.
Qed.

(** What each outcome of [reserve_window] says. *)
Definition conflicts (output : ExclusiveChannel.t) (start_at end_at : Micros) (s : SchedulerState.t) :
    Prop :=
  exists w, w ∈ windows s /\ Window.output w = output
    /\ windows_overlap start_at end_at (Window.start_at w) (Window.end_at w) = true.

Lemma conflicts_existsb output start_at end_at s :
  existsb (fun existing =>
    bool_decide (Window.output existing = output)
    && windows_overlap start_at end_at (Window.start_at existing) (Window.end_at existing))
    (windows s) = true <-> conflicts output start_at end_at s.
Proof.
  rewrite existsb_exists. unfold conflicts.
  split; intros (w & Hw & Hx); exists w; rewrite list_elem_of_In, andb_true_iff, bool_decide_eq_true in *;
    tauto.
Qed.

Lemma reserve_window_cases output start_at end_at s :
  let ch := ExclusiveChannel.channel output in
  match reserve_window output start_at end_at s with
  | (s', Ok _) => start_at < end_at /\ ch < CHANNEL_BIT_WIDTH
      /\ ~ conflicts output start_at end_at s
      /\ exists slots, fill_first (Window.mk output start_at end_at) (scheduled_windows s) = Some slots
         /\ s' = refresh_counts (refresh_reserved_channels
              (arm_group (ExclusiveChannel.group output) (s <| scheduled_windows := slots |>)))
  | (s', Err ScheduleError.ImpossibleDeadline) => s' = s /\ end_at <= start_at
  | (s', Err ScheduleError.InvalidChannel) => s' = s /\ start_at < end_at /\ CHANNEL_BIT_WIDTH <= ch
  | (s', Err ScheduleError.ConflictingChannel) =>
      s' = s /\ start_at < end_at /\ ch < CHANNEL_BIT_WIDTH /\ conflicts output start_at end_at s
  | (s', Err ScheduleError.QueueFull) =>
      s' = s /\ start_at < end_at /\ ch < CHANNEL_BIT_WIDTH /\ ~ conflicts output start_at end_at s
      /\ length (windows s) = length (scheduled_windows s)
  | (s', Err _) => False
  end.
Proof.
  cbv zeta. unfold reserve_window, channel_bit.
  destruct (Z.leb_spec end_at start_at); [done|].
  destruct (Z.leb_spec CHANNEL_BIT_WIDTH (ExclusiveChannel.channel output)); [done|].
  pose proof (conflicts_existsb output start_at end_at s) as Hc.
  destruct (existsb _ _).
  - split_and!; [done..|]. by apply Hc.
  - assert (~ conflicts output start_at end_at s) by (by rewrite <- Hc).
    destruct (fill_first _ _) as [slots|] eqn:Hf.
    + split_and!; [done..|]. by exists slots.
    + split_and!; [done..|]. by apply fill_first_None in Hf.
Qed.

Lemma no_conflict_exclusive output start_at end_at s : ~ conflicts output start_at end_at s ->
  Forall (windows_exclusive (Window.mk output start_at end_at)) (windows s).
Proof.
  intros Hc. rewrite Forall_forall. intros w Hw Heq. simpl in *.
  apply not_true_is_false. intros Ho. apply Hc. by exists w.
Qed.

Lemma ownership_reserve output start_at end_at s : 0 <= ExclusiveChannel.channel output ->
  ownership_inv s -> ownership_inv (fst (reserve_window output start_at end_at s)).
Proof.
  intros Hch Hinv. pose proof (reserve_window_cases output start_at end_at s) as H. cbv zeta in H.
  destruct (reserve_window output start_at end_at s) as [s' [[]|[]]]; simpl;
    try (destruct H as [-> _]; done); [|done..].
  destruct H as (Hlt & Hcw & Hnc & slots & Hf & ->). destruct Hinv.
  pose proof (fill_first_occupied _ _ _ Hf) as Hp.
  assert (Forall window_ok (occupied slots)) as Hok.
  { rewrite Hp. constructor; [|done]. split; simpl; lia. }
  constructor; simpl; try done.
  - by rewrite (fill_first_length _ _ _ Hf).
  - apply (pairwise_perm _ (Window.mk output start_at end_at :: windows s));
      [apply windows_exclusive_sym|done|]. constructor; [|done]. by apply no_conflict_exclusive.
  - rewrite or_channel_bits_length. done.
  - intros g c Hc. by apply fresh_reserved.
  - by apply arm_groups_ok.
  - intros w Hw. rewrite Hp in Hw. rewrite group_active_arm by done.
    apply elem_of_cons in Hw as [->|Hw]; simpl.
    + by rewrite bool_decide_true, orb_true_r.
    + by rewrite own_active0.
  - split; [|done]. intros _. apply (groups_nonzero _ (ExclusiveChannel.group output)).
    rewrite group_active_arm by done. by rewrite bool_decide_true, orb_true_r.
Qed.

Lemma elem_of_cleared g s w :
  w ∈ occupied (clear_if (fun window =>
    bool_decide (ExclusiveChannel.group (Window.output window) = g)) (scheduled_windows s))
  <-> w ∈ windows s /\ ExclusiveChannel.group (Window.output w) <> g.
Proof.
  rewrite clear_if_occupied, list_elem_of_filter, bool_decide_eq_false. tauto.
Qed.

Lemma mode_after_clear (a : Z) (m : SchedulerMode.t) (was : Z) :
  (m = SchedulerMode.Armed <-> was <> 0) -> (was = 0 -> a = 0) ->
  (if (a =? 0) && negb (bool_decide (m = SchedulerMode.Suspended)) then SchedulerMode.Idle else m)
    = SchedulerMode.Armed <-> a <> 0.
Proof.
  intros Hm Ha. destruct (Z.eqb_spec a 0) as [->|Hne]; simpl.
  - case_bool_decide as Hs; simpl; [subst; naive_solver|naive_solver].
  - split; [done|]. intros _. apply Hm. naive_solver.
Qed.

Lemma ownership_cancel_group g s : ownership_inv s -> ownership_inv (cancel_group g s).
Proof.
  intros []. unfold cancel_group. simpl.
  set (ga := clear_mask (active_groups s) (OutputGroup.mask g)).
  assert (groups_ok ga) as Hga by (by apply clear_groups_ok).
  assert (forall (b : bool) (s1 : SchedulerState.t),
    ownership (refresh_counts (if b then s1 <| mode := SchedulerMode.Idle |> else s1))
    = ownership (refresh_counts (s1 <| mode := if b then SchedulerMode.Idle else mode s1 |>))) as Hif
    by (by intros []).
  eapply ownership_inv_ext; [symmetry; apply Hif|].
  constructor; simpl; try done.
  - by rewrite clear_if_length.
  - rewrite clear_if_occupied. by apply forall_filter.
  - rewrite clear_if_occupied. by apply pairwise_filter.
  - by rewrite length_insert.
  - intros h c Hc. unfold reserved. simpl.
    rewrite nth_insert_reserved by (rewrite own_channels0; apply group_index_lt).
    setoid_rewrite elem_of_cleared. case_decide as Hgh.
    + apply group_index_inj in Hgh. subst h. rewrite Z.testbit_0_l.
      split; [done|]. intros (w & [_ Hne] & Heq). exfalso. apply Hne. by rewrite Heq.
    + rewrite (own_reserved0 h c Hc). split; intros (w & Hw & Heq); exists w; [|by destruct Hw].
      split; [split; [done|]|done]. rewrite Heq. simpl. congruence.
  - intros w Hw. apply elem_of_cleared in Hw as [Hw Hne]. unfold ga.
    rewrite group_active_clear, own_active0 by done. simpl. by rewrite bool_decide_false by congruence.
  - apply (mode_after_clear ga (mode s) (active_groups s)); [done|].
    unfold ga. intros ->. by destruct g.
Qed.

Lemma ownership_clear s : ownership_inv (clear_scheduled_ownership s).
Proof.
  apply (ownership_inv_ext (SchedulerState.new
    <| mode := if bool_decide (mode s = SchedulerMode.Suspended)
               then SchedulerMode.Suspended else SchedulerMode.Idle |>)).
  - unfold clear_scheduled_ownership, refresh_mode_from_groups, ownership. simpl.
    by case_bool_decide as Hm; simpl; rewrite ?Hm.
  - pose proof ownership_new as []. constructor; try done. simpl. by case_bool_decide.
Qed.

Lemma ownership_suspend s : ownership_inv (suspend s).
Proof.
  apply (ownership_inv_ext (SchedulerState.new <| mode := SchedulerMode.Suspended |>)).
  - unfold suspend, clear_scheduled_ownership, refresh_mode_from_groups. simpl.
    by destruct (negb _).
  - pose proof ownership_new as []. by constructor.
Qed.

Lemma ownership_sync_recovered s : ownership_inv s -> ownership_inv (on_sync_recovered s).
Proof.
  intros Hinv. unfold on_sync_recovered. case_bool_decide as Hm; [|done]. destruct Hinv.
  constructor; try done. simpl. rewrite <- own_mode0, Hm. done.
Qed.

(** A group has a reserved bit exactly when it owns a window. *)
Lemma reserved_nonzero s g : (forall g c, 0 <= c -> Z.testbit (reserved s g) c = true <->
    exists w, w ∈ windows s /\ Window.output w = ExclusiveChannel.mk g c) ->
  Forall window_ok (windows s) ->
  reserved s g <> 0 <-> exists w, w ∈ windows s /\ ExclusiveChannel.group (Window.output w) = g.
Proof.
  intros Hres Hok. split.
  - intros Hne. destruct (decide (Exists (fun w => ExclusiveChannel.group (Window.output w) = g)
      (windows s))) as [He|Hno]; [by apply Exists_exists in He|].
    exfalso. apply Hne, reserved_zero_iff. intros c Hc. apply not_true_is_false. intros Ht.
    apply Hno, Exists_exists. apply (Hres g c Hc) in Ht as (w & Hw & Heq). exists w. by rewrite Heq.
  - intros (w & Hw & Hg) Hz. rewrite Forall_forall in Hok. destruct (Hok w Hw) as [_ Hch].
    assert (Z.testbit (reserved s g) (ExclusiveChannel.channel (Window.output w)) = true) as Ht.
    { apply Hres; [lia|]. exists w. split; [done|]. destruct (Window.output w). by simplify_eq/=. }
    by rewrite Hz, Z.testbit_0_l in Ht.
Qed.

Lemma sync_group_fields g s :
  sync_scheduled_group g s = s <| active_groups :=
    if reserved s g =? 0 then clear_mask (active_groups s) (OutputGroup.mask g)
    else Z.lor (active_groups s) (OutputGroup.mask g) |>.
Proof. unfold sync_scheduled_group. by case_match. Qed.

Lemma sync_group_active a g h (z : Z) : groups_ok a ->
  let a' := if z =? 0 then clear_mask a (OutputGroup.mask g) else Z.lor a (OutputGroup.mask g) in
  groups_ok a' /\ group_active a' h = if bool_decide (g = h) then negb (z =? 0) else group_active a h.
Proof.
  intros Ha. simpl. destruct (z =? 0); (split; [by auto with ecu|]).
  - rewrite group_active_clear by done. case_bool_decide; simpl; by rewrite ?andb_false_r, ?andb_true_r.
  - rewrite group_active_arm by done. case_bool_decide; simpl; by rewrite ?orb_true_r, ?orb_false_r.
Qed.

(** The windows a drained transition releases. *)
Definition releases (tr : Transition.t) (w : Window.t) : bool :=
  bool_decide (Window.output w =
    ExclusiveChannel.mk (group_of_kind (Transition.kind tr)) (Transition.channel tr))
  && (Window.end_at w =? Transition.at_us tr).

Lemma note_drained_cases tr s :
  (Transition.level tr = Level.Low /\ exists slots w,
     clear_first (releases tr) (scheduled_windows s) = Some slots
     /\ releases tr w = true /\ windows s ≡ₚ w :: occupied slots
     /\ scheduled_windows (note_drained_transition tr s) = slots)
  \/ ((Transition.level tr = Level.High \/ Forall (fun w => releases tr w = false) (windows s))
      /\ note_drained_transition tr s = s).
Proof.
  unfold note_drained_transition. fold (releases tr).
  destruct (Transition.level tr) eqn:Hl; simpl; [|by auto].
  destruct (clear_first (releases tr) (scheduled_windows s)) as [slots|] eqn:Hc.
  - left. split; [done|]. destruct (clear_first_occupied _ _ _ Hc) as (w & Hw & Hp).
    exists slots, w. split_and!; [done..|]. unfold refresh_mode_from_groups.
    rewrite !sync_group_fields. repeat case_match; done.
  - right. split; [right|done]. by apply clear_first_None in Hc.
Qed.

Lemma refresh_mode_fields s : mode s <> SchedulerMode.Suspended ->
  refresh_mode_from_groups s = s <| mode :=
    if active_groups s =? 0 then SchedulerMode.Idle else SchedulerMode.Armed |>.
Proof.
  intros Hm. unfold refresh_mode_from_groups.
  rewrite bool_decide_false by done. by destruct (active_groups s =? 0).
Qed.

Lemma ownership_note_drained tr s : ownership_inv s -> ownership_inv (note_drained_transition tr s).
Proof.
  intros Hinv. destruct (note_drained_cases tr s) as [(Hlow & slots & w & Hc & Hr & Hp & _)|(_ & ->)];
    [|done]. destruct Hinv.
  assert (mode s = SchedulerMode.Armed) as Harmed.
  { apply own_mode0, (groups_nonzero _ (ExclusiveChannel.group (Window.output w))).
    apply own_active0. rewrite Hp. set_solver. }
  unfold note_drained_transition. fold (releases tr). rewrite Hlow, Hc. simpl.
  rewrite !sync_group_fields. rewrite refresh_mode_fields by (simpl; by rewrite Harmed).
  set (r := or_channel_bits (occupied slots) (replicate 4 0)).
  assert (Forall window_ok (occupied slots)) as Hok.
  { rewrite Hp in own_windows0. by inversion own_windows0. }
  set (zi := reserved _ OutputGroup.Injector). set (zg := reserved _ OutputGroup.Ignition).
  destruct (sync_group_active (active_groups s) OutputGroup.Injector OutputGroup.Injector zi own_groups0)
    as [Hg1 _].
  pose proof (fun h => proj2 (sync_group_active (active_groups s) OutputGroup.Injector h zi own_groups0)) as Ha1.
  set (a1 := if zi =? 0 then _ else _) in *.
  pose proof (fun h => proj2 (sync_group_active a1 OutputGroup.Ignition h zg Hg1)) as Ha2.
  destruct (sync_group_active a1 OutputGroup.Ignition OutputGroup.Ignition zg Hg1) as [Hg2 _].
  constructor; simpl; try done.
  - by rewrite (clear_first_length _ _ _ Hc).
  - apply (pairwise_perm _ _ (w :: occupied slots)) in own_exclusive0;
      [by inversion own_exclusive0|apply windows_exclusive_sym|done].
  - apply or_channel_bits_length.
  - intros g c Hcc. by apply fresh_reserved.
  - intros w' Hw'. rewrite Ha2, Ha1.
    assert (reserved (s <| scheduled_windows := slots |> <| reserved_channels := r |>)
      (ExclusiveChannel.group (Window.output w')) <> 0) as Hnz.
    { apply reserved_nonzero; [|done|by exists w']. intros g c Hcc. by apply fresh_reserved. }
    assert (zi <> 0 \/ ExclusiveChannel.group (Window.output w') <> OutputGroup.Injector) as Hzi
      by (destruct (decide (ExclusiveChannel.group (Window.output w') = OutputGroup.Injector)) as [Hg|];
          [left; by rewrite Hg in Hnz|by right]).
    assert (zg <> 0 \/ ExclusiveChannel.group (Window.output w') <> OutputGroup.Ignition) as Hzg
      by (destruct (decide (ExclusiveChannel.group (Window.output w') = OutputGroup.Ignition)) as [Hg|];
          [left; by rewrite Hg in Hnz|by right]).
    assert (group_active (active_groups s) (ExclusiveChannel.group (Window.output w')) = true) as Hact
      by (apply own_active0; rewrite Hp; set_solver).
    clearbody zi zg. clear - Hzi Hzg Hact.
    repeat case_bool_decide; try (apply negb_true_iff, Z.eqb_neq; intuition congruence). done.
  - clear. match goal with |- context [if ?z =? 0 then SchedulerMode.Idle else _] =>
      generalize z end. intros z. by destruct (Z.eqb_spec z 0).
Qed.
