(* ===== verification/Batch.v ===== *)
(** * Fixed-capacity append buffers (board-api timing_island.rs: fixed_batch!)

    The [fixed_batch!] macro defines the edge, output-transition, auxiliary-command and
    timing-island-command batches: an array and a length.  [AppendBuffer] is what a
    producer may rely on; the batch and the scheduler's drain buffer implement it. *)
From S2P Require Import Prelude Domain BoardApi SchedTypes Queue.

(** The interface: a buffer of [A] whose content is a list, extended at its end while
    there is room, and otherwise left as it was. *)
Class AppendBuffer (B A E : Type) := {
  room : B -> Z;
  content : B -> list A;
  push : A -> B -> B * Result unit E;
}.

Class AppendBufferLaws (B A E : Type) `{AppendBuffer B A E} := {
  buffer_wf : B -> Prop;
  push_room : forall a b, buffer_wf b -> 0 < room b ->
    exists b', push a b = (b', Ok tt) /\ buffer_wf b' /\ content b' = content b ++ [a]
      /\ room b' = room b - 1;
  push_full : forall a b, buffer_wf b -> room b <= 0 -> exists e, push a b = (b, Err e);
}.

(** Pushing a sequence, stopping at the first refusal, as the [?] in a loop does. *)
Fixpoint push_all `{AppendBuffer B A E} (xs : list A) (b : B) : B * Result unit E :=
  match xs with
  | [] => (b, Ok tt)
  | x :: xs =>
    match push x b with
    | (b, Ok _) => push_all xs b
    | (b, Err e) => (b, Err e)
    end
  end.

Section PushAll.
Context `{AppendBufferLaws B A E}.

Lemma push_all_content xs b : buffer_wf b -> 0 <= room b ->
  let '(b', r) := push_all xs b in
  buffer_wf b' /\ 0 <= room b'
  /\ content b' = content b ++ take (Z.to_nat (room b)) xs
  /\ (r = Ok tt <-> Z.of_nat (length xs) <= room b).
Proof.
  revert b. induction xs as [|x xs IH]; intros b Hwf Hr; simpl.
  - rewrite take_nil, app_nil_r. split_and!; done.
  - destruct (decide (0 < room b)) as [Hpos|Hfull].
    + destruct (push_room x b Hwf Hpos) as (b1 & -> & Hwf1 & Hc1 & Hr1).
      specialize (IH b1 Hwf1 ltac:(lia)). destruct (push_all xs b1) as [b' r].
      destruct IH as (? & ? & Hc & Hok). split_and!; [done..| |].
      * rewrite Hc, Hc1, <- app_assoc. f_equal. simpl.
        replace (Z.to_nat (room b)) with (S (Z.to_nat (room b1))) by lia. done.
      * rewrite Hok. lia.
    + destruct (push_full x b Hwf ltac:(lia)) as [e ->]. split_and!; [done..| |].
      * replace (Z.to_nat (room b)) with O by lia. by rewrite app_nil_r.
      * split; [done|lia].
Qed.
End PushAll.

Module Batch.
(** A batch type [$name<N>] of items [A]: [N] is the length of [items]. *)
Record t (A : Type) := mk { len : Z; items : list A }.
Arguments mk {A} len items.
Arguments len {A} _.
Arguments items {A} _.
#[global] Instance eta {A} : Eta (t A) := fun b => mk (len b) (items b).

Definition new {A} (EMPTY : A) (N : nat) : t A := mk 0 (replicate N EMPTY).
Definition capacity {A} (b : t A) : Z := Z.of_nat (length (items b)).
Definition is_empty {A} (b : t A) : bool := len b =? 0.
Definition clear {A} (b : t A) : t A := b <| len := 0 |>.

Definition push {A} (item : A) (b : t A) : t A * Result unit A :=
  if len b =? capacity b then (b, Err item)
  else (b <| items := <[Z.to_nat (len b) := item]> (items b) |> <| len := len b + 1 |>, Ok tt).

Definition iter {A} (b : t A) : list A := take (Z.to_nat (len b)) (items b).

(** The struct's invariant: the length is within the array. *)
Definition wf {A} (b : t A) : Prop := 0 <= len b <= capacity b.
End Batch.

#[export] Instance batch_buffer {A} : AppendBuffer (Batch.t A) A A := {
  room b := Batch.capacity b - Batch.len b;
  content := Batch.iter;
  push := Batch.push;
}.

#[export] Instance drain_buffer : AppendBuffer DrainBuffer.t Transition.t ScheduleError.t := {
  room b := DrainBuffer.capacity b - DrainBuffer.len b;
  content b := omap id (DrainBuffer.as_slice b);
  push := DrainBuffer.push;
}.

Lemma take_insert_next {A} (n : nat) (x : A) l : (n < length l)%nat ->
  take (S n) (<[n := x]> l) = take n l ++ [x].
Proof.
  intros Hn. rewrite (take_S_r _ n x); [|by apply list_lookup_insert_eq].
  by rewrite take_insert_ge by lia.
Qed.

Lemma batch_push_room {A} (a : A) (b : Batch.t A) : Batch.wf b -> 0 < room b ->
  exists b', push a b = (b', Ok tt) /\ Batch.wf b' /\ content b' = content b ++ [a]
    /\ room b' = room b - 1.
Proof.
  unfold Batch.wf. simpl. unfold Batch.push, Batch.iter, Batch.capacity. intros Hwf Hr.
  destruct (Z.eqb_spec (Batch.len b) (Z.of_nat (length (Batch.items b)))); [lia|].
  eexists. split; [done|]. simpl. rewrite length_insert. split_and!; [lia..| |lia].
  replace (Z.to_nat (Batch.len b + 1)) with (S (Z.to_nat (Batch.len b))) by lia.
  apply take_insert_next. lia.
Qed.

#[export] Instance batch_buffer_laws {A} : AppendBufferLaws (Batch.t A) A A.
Proof.
  refine {| buffer_wf := Batch.wf |}; [apply batch_push_room|].
  intros a b Hwf Hr. exists a. simpl in *. unfold Batch.push, Batch.wf in *.
  by destruct (Z.eqb_spec (Batch.len b) (Batch.capacity b)); [|lia].
Defined.

(** A drain buffer in use: supported size, length within the array, the entries below it
    filled. *)
Definition drain_buffer_wf (b : DrainBuffer.t) : Prop :=
  DrainBuffer.capacity b <= MAX_METADATA_CAPACITY
  /\ 0 <= DrainBuffer.len b <= DrainBuffer.capacity b
  /\ Forall is_Some (DrainBuffer.as_slice b).

#[export] Instance drain_buffer_laws : AppendBufferLaws DrainBuffer.t Transition.t ScheduleError.t.
Proof.
  refine {| buffer_wf := drain_buffer_wf |}.
  - unfold drain_buffer_wf. simpl. unfold DrainBuffer.push, DrainBuffer.as_slice,
      DrainBuffer.metadata_capacity_supported. intros a b (Hc & Hl & Hs) Hr.
    destruct (Z.leb_spec (DrainBuffer.capacity b) MAX_METADATA_CAPACITY); [|lia]. cbn [negb].
    destruct (Z.leb_spec (DrainBuffer.capacity b) (DrainBuffer.len b)); [lia|].
    eexists. split; [done|]. unfold DrainBuffer.capacity in *. simpl. rewrite length_insert.
    replace (Z.to_nat (DrainBuffer.len b + 1)) with (S (Z.to_nat (DrainBuffer.len b))) by lia.
    rewrite take_insert_next by lia. split_and!; [lia..| | |lia].
    + apply Forall_app. by repeat constructor.
    + by rewrite omap_app.
  - unfold drain_buffer_wf. simpl. unfold DrainBuffer.push, DrainBuffer.metadata_capacity_supported.
    intros a b (Hc & Hl & Hs) Hr. exists ScheduleError.QueueFull.
    destruct (_ <=? MAX_METADATA_CAPACITY); [|done]. cbn [negb].
    by destruct (Z.leb_spec (DrainBuffer.capacity b) (DrainBuffer.len b)); [|lia].
Defined.

(** pushing a sequence of items onto an empty batch keeps, in order, as many of them as
    the batch has places, never writes outside the array, and succeeds exactly when all
    of them fit. *)
Theorem batch_push_all {A} (EMPTY : A) (N : nat) (xs : list A) :
  let '(b, r) := push_all xs (Batch.new EMPTY N) in
  Batch.iter b = take N xs /\ Batch.wf b /\ (r = Ok tt <-> (length xs <= N)%nat).
Proof.
  pose proof (push_all_content xs (Batch.new EMPTY N)) as H. simpl in H.
  unfold Batch.capacity in H. simpl in H. rewrite length_replicate, Z.sub_0_r in H.
  destruct (push_all xs (Batch.new EMPTY N)) as [b r].
  destruct H as (Hwf & _ & Hc & Hok); [unfold Batch.wf, Batch.capacity; simpl; lia|lia|].
  rewrite Nat2Z.id in Hc. split_and!; [exact Hc|done|]. rewrite Hok. lia.
Qed.
