(* ===== verification/Scheduler.v ===== *)
(** * Scheduler runs (crates/scheduler/src/state.rs)

    The frontier's invariant, the laws it promises the queue, the scheduler state
    machine with its public operations as steps, and the theorems on its runs. *)
From S2P Require Import Prelude Domain BoardApi SchedTypes Queue SchedState.
From Stdlib Require Import Sorted.
Import SchedulerState.

(** ** The frontier *)
Definition MAX_HORIZON : Z := MAX_HORIZON_US.

Record frontier_inv (s : SchedulerState.t) : Prop := {
  front_live : forall id, active_horizon_id s = Some id ->
    last_accepted_horizon_id s = Some id
    /\ horizon_start_us s = last_accepted_horizon_start_us s
    /\ horizon_end_us s = last_accepted_horizon_end_us s
    /\ is_Some (heartbeat_deadline_us s);
  front_dead : active_horizon_id s = None ->
    horizon_start_us s = None /\ horizon_end_us s = None /\ heartbeat_deadline_us s = None
    /\ active_permit_mask s = SafetyPermitMask.NONE;
  front_stopped : active_stop_reason s <> StopReason.None ->
    active_permit_mask s = SafetyPermitMask.NONE;
  front_accepted : match last_accepted_horizon_id s, last_accepted_horizon_start_us s,
      last_accepted_horizon_end_us s with
    | Some _, Some a, Some b => a < b <= a + MAX_HORIZON
    | None, None, None => True
    | _, _, _ => False
    end;
}.

(** The invariant reads only these fields. *)
Definition frontier (s : SchedulerState.t) :=
  (last_accepted_horizon_id s, last_accepted_horizon_start_us s, last_accepted_horizon_end_us s,
   active_horizon_id s, horizon_start_us s, horizon_end_us s, heartbeat_deadline_us s,
   active_permit_mask s, active_stop_reason s).

Lemma frontier_inv_ext s s' : frontier s = frontier s' -> frontier_inv s -> frontier_inv s'.
Proof.
  destruct s, s'. unfold frontier. simpl. intros Heq Hinv. simplify_eq.
  destruct Hinv. by constructor.
Qed.

Lemma frontier_new : frontier_inv SchedulerState.new.
Proof. by constructor. Qed.

Lemma frontier_clear r s : frontier_inv s -> frontier_inv (clear_live_frontier_state r s).
Proof. intros []. by constructor. Qed.

Lemma commit_horizon_cases id a b hb mask s :
  let accepted := a < b /\ b - a <= MAX_HORIZON
    /\ (forall last, last_accepted_horizon_id s = Some last -> last < id) in
  let '(s', ok) := commit_horizon id a b hb mask s in
  (ok = true /\ accepted
   /\ frontier s' = (Some id, Some a, Some b, Some id, Some a, Some b, Some hb, mask, StopReason.None)
   /\ ownership s' = ownership s)
  \/ (ok = false /\ ~ accepted /\ s' = s).
Proof.
  cbv zeta. unfold commit_horizon.
  destruct (Z.leb_spec b a); [right; split_and!; [done|lia|done]|].
  change MAX_HORIZON_US with MAX_HORIZON. unfold saturating_sub.
  destruct (Z.ltb_spec MAX_HORIZON (Z.max 0 (b - a))); [right; split_and!; [done|lia|done]|].
  destruct (last_accepted_horizon_id s) as [last|].
  - destruct (Z.leb_spec id last).
    + right. split_and!; [done| |done]. intros (_ & _ & Hl). specialize (Hl last eq_refl). lia.
    + left. split_and!; [done..|lia| |done|done]. intros ? [= <-]. done.
  - left. split_and!; [done..|lia| |done|done]. done.
Qed.

Lemma frontier_commit id a b hb mask s :
  frontier_inv s -> frontier_inv (fst (commit_horizon id a b hb mask s)).
Proof.
  intros Hinv. pose proof (commit_horizon_cases id a b hb mask s) as H. cbv zeta in H.
  destruct (commit_horizon id a b hb mask s) as [s' ok]. simpl.
  destruct H as [(_ & (Hlt & Hmax & _) & Hf & _)|(_ & _ & ->)]; [|done].
  unfold frontier in Hf. simplify_eq. constructor; intros; simplify_eq; try done.
  - by repeat match goal with H : _ s' = _ |- _ => rewrite H end.
  - repeat match goal with H : _ s' = _ |- _ => rewrite H end. lia.
Qed.

Lemma frontier_heartbeat now s : frontier_inv s -> frontier_inv (note_heartbeat now s).
Proof.
  intros Hinv. unfold note_heartbeat. destruct (active_horizon_id s) as [id|] eqn:Ha; [|done].
  destruct Hinv. constructor; simpl; try done.
  - intros id' Hid. destruct (front_live0 id' ltac:(congruence)) as (? & ? & ? & ?). done.
  - intros Hid. congruence.
Qed.

Lemma expire_heartbeat_fields now s :
  let s' := fst (expire_heartbeat now s) in
  horizon_end_us s' = horizon_end_us s /\ active_horizon_id s' = active_horizon_id s
  /\ ownership s' = ownership s
  /\ (active_permit_mask s' = active_permit_mask s \/ active_permit_mask s' = SafetyPermitMask.NONE)
  /\ (active_stop_reason s' <> StopReason.None ->
      active_stop_reason s <> StopReason.None \/ active_permit_mask s' = SafetyPermitMask.NONE).
Proof.
  cbv zeta. unfold expire_heartbeat. destruct (heartbeat_deadline_us s); [|by intuition].
  destruct (now <=? _); [by intuition|]. simpl. by destruct (bool_decide _); intuition.
Qed.

Lemma frontier_expire_heartbeat now s : frontier_inv s -> frontier_inv (fst (expire_heartbeat now s)).
Proof.
  intros Hinv. unfold expire_heartbeat. destruct (heartbeat_deadline_us s) eqn:Hh; [|done].
  destruct (now <=? _); [done|]. destruct Hinv. simpl.
  assert (forall r, frontier_inv (s <| active_permit_mask := SafetyPermitMask.NONE |>
    <| active_stop_reason := r |>)) as Hr.
  { intros r. constructor; simpl; try done. intros Ha. by destruct (front_dead0 Ha) as (? & ? & ? & _). }
  destruct (bool_decide _); [apply Hr|]. eapply frontier_inv_ext; [|apply (Hr (active_stop_reason s))].
  by destruct s.
Qed.

Lemma expire_horizon_cases now s :
  (exists r, fst (expire_horizon now s) = clear_live_frontier_state r s)
  \/ fst (expire_horizon now s) = s.
Proof.
  unfold expire_horizon. destruct (horizon_end_us s); [|by right].
  destruct (now <=? _); [by right|left]. by eexists.
Qed.

Lemma frontier_expire_horizon now s : frontier_inv s -> frontier_inv (fst (expire_horizon now s)).
Proof.
  intros Hinv. destruct (expire_horizon_cases now s) as [[r ->]| ->]; [by apply frontier_clear|done].
Qed.

Lemma expire_horizon_ownership now s : ownership (fst (expire_horizon now s)) = ownership s.
Proof. by destruct (expire_horizon_cases now s) as [[r ->]| ->]. Qed.

Definition frontier_deadline_passed (now : Micros) (s : SchedulerState.t) : Prop :=
  (exists d, heartbeat_deadline_us s = Some d /\ d < now)
  \/ (exists e, horizon_end_us s = Some e /\ e < now).

Lemma expire_frontier_passed now s :
  frontier_deadline_passed now s -> ~ frontier_live (expire_frontier now s).
Proof.
  unfold frontier_live. simpl. unfold expire_frontier. intros Hp [[id Hid] Hmask].
  destruct Hp as [(d & Hd & Hlt)|(e & He & Hlt)].
  - assert (active_permit_mask (fst (expire_heartbeat now s)) = SafetyPermitMask.NONE) as Hn.
    { unfold expire_heartbeat. rewrite Hd. destruct (Z.leb_spec now d); [lia|]. simpl.
      by destruct (bool_decide _). }
    destruct (expire_horizon_cases now (fst (expire_heartbeat now s))) as [[r Hr]|Hr];
      rewrite Hr in Hmask; [done|]. by rewrite Hn in Hmask.
  - destruct (expire_heartbeat_fields now s) as (Hend & _).
    unfold expire_horizon in Hid. rewrite Hend, He in Hid.
    destruct (Z.leb_spec now e); [lia|done].
Qed.

Lemma expire_frontier_live_inv now s : frontier_live (expire_frontier now s) -> frontier_live s.
Proof.
  unfold frontier_live. simpl. unfold expire_frontier. intros [Hid Hmask].
  destruct (expire_heartbeat_fields now s) as (_ & Ha & _ & Hm & _).
  destruct (expire_horizon_cases now (fst (expire_heartbeat now s))) as [[r Hr]|Hr];
    rewrite Hr in Hid, Hmask; [by destruct Hid|].
  rewrite Ha in Hid. destruct Hm as [<-|Hm]; [done|by rewrite Hm in Hmask].
Qed.

(** The scheduler state keeps the promises the queue relies on. *)
#[export] Instance scheduler_frontier_laws : FrontierLaws SchedulerState.t := {
  deadline_passed := frontier_deadline_passed;
  expire_passed := expire_frontier_passed;
  expire_live_inv := expire_frontier_live_inv;
}.

(** ** The state machine: one constructor per public operation *)
Module Op.
Inductive t :=
| ArmGroup (g : OutputGroup.t)
| ReserveWindow (output : ExclusiveChannel.t) (start_at end_at : Micros)
| CancelGroup (g : OutputGroup.t)
| CancelAll
| Suspend
| SyncLoss
| SyncRecovered
| GeometryCommit
| HardSafetyShutdown
| CommitHorizon (id : Z) (horizon_start horizon_end heartbeat_deadline : Micros) (mask : Z)
| NoteHeartbeat (now : Micros)
| ExpireFrontier (now : Micros)
| ExpireHeartbeat (now : Micros)
| ExpireHorizon (now : Micros)
| ClearFrontier (r : StopReason.t)
| ClearOwnership
| ScheduleInjection (now start_at end_at : Micros) (plan : InjectionPlan.t)
| ScheduleIgnition (now start_at end_at : Micros) (plan : IgnitionPlan.t)
| NoteDrained (tr : Transition.t).

(** Channel numbers are unsigned. *)
Definition wf (o : t) : Prop :=
  match o with
  | ReserveWindow output _ _ => 0 <= ExclusiveChannel.channel output
  | ScheduleInjection _ _ _ plan => 0 <= ExclusiveChannel.channel (InjectionPlan.output plan)
  | ScheduleIgnition _ _ _ plan => 0 <= ExclusiveChannel.channel (IgnitionPlan.output plan)
  | _ => True
  end.

Definition is_commit (o : t) : bool := match o with CommitHorizon _ _ _ _ _ => true | _ => false end.
End Op.

Definition step (o : Op.t) (s : SchedulerState.t) : SchedulerState.t :=
  match o with
  | Op.ArmGroup g => arm_group g s
  | Op.ReserveWindow output a b => fst (reserve_window output a b s)
  | Op.CancelGroup g => cancel_group g s
  | Op.CancelAll => cancel_all s
  | Op.Suspend => suspend s
  | Op.SyncLoss => on_sync_loss s
  | Op.SyncRecovered => on_sync_recovered s
  | Op.GeometryCommit => on_geometry_commit s
  | Op.HardSafetyShutdown => on_hard_safety_shutdown s
  | Op.CommitHorizon id a b hb mask => fst (commit_horizon id a b hb mask s)
  | Op.NoteHeartbeat now => note_heartbeat now s
  | Op.ExpireFrontier now => expire_frontier now s
  | Op.ExpireHeartbeat now => fst (expire_heartbeat now s)
  | Op.ExpireHorizon now => fst (expire_horizon now s)
  | Op.ClearFrontier r => clear_live_frontier_state r s
  | Op.ClearOwnership => clear_scheduled_ownership s
  | Op.ScheduleInjection now a b plan => fst (schedule_injection now a b plan s)
  | Op.ScheduleIgnition now a b plan => fst (schedule_ignition now a b plan s)
  | Op.NoteDrained tr => note_drained_transition tr s
  end.

#[global] Strategy -100 [step].

Definition run (ops : list Op.t) (s : SchedulerState.t) : SchedulerState.t :=
  foldl (fun s o => step o s) s ops.

(** *** What the operations leave alone *)
Lemma reserve_window_frontier output a b s :
  frontier (fst (reserve_window output a b s)) = frontier s.
Proof.
  pose proof (reserve_window_cases output a b s) as H. cbv zeta in H.
  destruct (reserve_window output a b s) as [s' [[]|[]]]; simpl;
    try (destruct H as [-> _]; done); [|done..].
  by destruct H as (_ & _ & _ & slots & _ & ->).
Qed.

Lemma convert_deadline_cases now a b :
  match convert_deadline now a b with
  | Ok timed => timed = (a, b) /\ now < a < b
  | Err ScheduleError.StaleDeadline => a <= now \/ b < a
  | Err ScheduleError.ImpossibleDeadline => now < a /\ a = b
  | Err _ => False
  end.
Proof.
  unfold convert_deadline. destruct (Z.leb_spec a now); [lia|].
  destruct (Z.ltb_spec b a); [lia|]. destruct (Z.eqb_spec b a); [lia|]. split; [done|lia].
Qed.

(** The guards of [schedule_injection] and [schedule_ignition] before the reservation. *)
Definition admits (now a b : Micros) (s : SchedulerState.t) : Prop :=
  mode s <> SchedulerMode.Suspended /\ now < a < b.

Lemma schedule_injection_cases now a b plan s :
  let '(s', r) := schedule_injection now a b plan s in
  (admits now a b s /\ exists s1, reserve_window (InjectionPlan.output plan) a b s = (s1, Ok tt)
     /\ s' = s1 <| last_injection_start := Some a |> <| last_injection_end := Some b |>
     /\ r = Ok (TimedInjectionPlan.mk plan a b))
  \/ (s' = s /\ exists e, r = Err e /\
      match e with
      | ScheduleError.Suspended => mode s = SchedulerMode.Suspended
      | ScheduleError.StaleDeadline => mode s <> SchedulerMode.Suspended /\ (a <= now \/ b < a)
      | ScheduleError.ImpossibleDeadline => mode s <> SchedulerMode.Suspended /\ now < a /\ a = b
      | _ => admits now a b s /\ reserve_window (InjectionPlan.output plan) a b s = (s, Err e)
      end).
Proof.
  unfold schedule_injection, ensure_schedulable, admits.
  destruct (decide (mode s = SchedulerMode.Suspended)) as [Hm|Hm]; 
    [rewrite Hm; right; split; [done|]; by exists ScheduleError.Suspended|].
  assert (match mode s with SchedulerMode.Suspended => Err ScheduleError.Suspended | _ => Ok tt end
    = Ok tt) as -> by (by destruct (mode s)).
  pose proof (convert_deadline_cases now a b) as Hc.
  destruct (convert_deadline now a b) as [[x y]|[]]; try done;
    [|right; split; [done|]; eexists; split; [done|]; done..].
  destruct Hc as [[= -> ->] Hlt]. simpl.
  pose proof (reserve_window_cases (InjectionPlan.output plan) a b s) as Hr. cbv zeta in Hr.
  destruct (reserve_window (InjectionPlan.output plan) a b s) as [s1 [[]|e]]; [left; by eauto 6|].
  right. assert (s1 = s) as -> by (by destruct e; destruct Hr). split; [done|]. exists e.
  split; [done|]. destruct e; try done. exfalso. lia.
Qed.

Lemma schedule_ignition_cases now a b plan s :
  let '(s', r) := schedule_ignition now a b plan s in
  (admits now a b s /\ exists s1, reserve_window (IgnitionPlan.output plan) a b s = (s1, Ok tt)
     /\ s' = s1 <| last_ignition_start := Some a |> <| last_ignition_end := Some b |>
     /\ r = Ok (TimedIgnitionPlan.mk plan a b))
  \/ (s' = s /\ exists e, r = Err e /\
      match e with
      | ScheduleError.Suspended => mode s = SchedulerMode.Suspended
      | ScheduleError.StaleDeadline => mode s <> SchedulerMode.Suspended /\ (a <= now \/ b < a)
      | ScheduleError.ImpossibleDeadline => mode s <> SchedulerMode.Suspended /\ now < a /\ a = b
      | _ => admits now a b s /\ reserve_window (IgnitionPlan.output plan) a b s = (s, Err e)
      end).
Proof.
  unfold schedule_ignition, ensure_schedulable, admits.
  destruct (decide (mode s = SchedulerMode.Suspended)) as [Hm|Hm]; 
    [rewrite Hm; right; split; [done|]; by exists ScheduleError.Suspended|].
  assert (match mode s with SchedulerMode.Suspended => Err ScheduleError.Suspended | _ => Ok tt end
    = Ok tt) as -> by (by destruct (mode s)).
  pose proof (convert_deadline_cases now a b) as Hc.
  destruct (convert_deadline now a b) as [[x y]|[]]; try done;
    [|right; split; [done|]; eexists; split; [done|]; done..].
  destruct Hc as [[= -> ->] Hlt]. simpl.
  pose proof (reserve_window_cases (IgnitionPlan.output plan) a b s) as Hr. cbv zeta in Hr.
  destruct (reserve_window (IgnitionPlan.output plan) a b s) as [s1 [[]|e]]; [left; by eauto 6|].
  right. assert (s1 = s) as -> by (by destruct e; destruct Hr). split; [done|]. exists e.
  split; [done|]. destruct e; try done. exfalso. lia.
Qed.

(** *** The invariants along runs *)
Definition scheduler_inv (s : SchedulerState.t) : Prop := ownership_inv s /\ frontier_inv s.

(** A handler that leaves one half of the state alone keeps that half's invariant. *)
Lemma scheduler_inv_ownership s s' :
  frontier s' = frontier s -> ownership_inv s' -> scheduler_inv s -> scheduler_inv s'.
Proof. intros Hf Ho [_ Hfr]. split; [done|]. by eapply frontier_inv_ext. Qed.

Lemma scheduler_inv_frontier s s' :
  ownership s' = ownership s -> frontier_inv s' -> scheduler_inv s -> scheduler_inv s'.
Proof. intros Ho Hf [Hown _]. split; [|done]. by eapply ownership_inv_ext. Qed.

Lemma cancel_group_frontier g s : frontier (cancel_group g s) = frontier s.
Proof. unfold cancel_group. by destruct (_ && _). Qed.

Lemma clear_ownership_frontier s : frontier (clear_scheduled_ownership s) = frontier s.
Proof. unfold clear_scheduled_ownership, refresh_mode_from_groups. by repeat case_match. Qed.

Lemma clear_frontier_ownership r s : ownership (clear_live_frontier_state r s) = ownership s.
Proof. done. Qed.

Lemma set_mode_frontier m s : frontier (s <| mode := m |>) = frontier s.
Proof. done. Qed.

Lemma suspend_frontier s : frontier (suspend s) = frontier s.
Proof. unfold suspend. rewrite set_mode_frontier. apply clear_ownership_frontier. Qed.

Lemma refresh_mode_frontier s : frontier (refresh_mode_from_groups s) = frontier s.
Proof. unfold refresh_mode_from_groups. by repeat case_match. Qed.

Lemma note_drained_frontier tr s : frontier (note_drained_transition tr s) = frontier s.
Proof.
  unfold note_drained_transition. destruct (negb _); [done|].
  destruct (clear_first _ _); [|done]. by rewrite refresh_mode_frontier, !sync_group_fields.
Qed.

Lemma expire_frontier_ownership now s : ownership (expire_frontier now s) = ownership s.
Proof.
  unfold expire_frontier. rewrite expire_horizon_ownership. by apply expire_heartbeat_fields.
Qed.

Lemma commit_horizon_ownership id a b hb mask s :
  ownership (fst (commit_horizon id a b hb mask s)) = ownership s.
Proof.
  pose proof (commit_horizon_cases id a b hb mask s) as H. cbv zeta in H.
  destruct (commit_horizon id a b hb mask s). by destruct H as [(_ & _ & _ & ?)|(_ & _ & ->)].
Qed.

Lemma note_heartbeat_ownership now s : ownership (note_heartbeat now s) = ownership s.
Proof. unfold note_heartbeat. by destruct (active_horizon_id s). Qed.

Lemma ownership_set_injection s a b : ownership_inv s ->
  ownership_inv (s <| last_injection_start := a |> <| last_injection_end := b |>).
Proof. by apply ownership_inv_ext. Qed.

Lemma ownership_set_ignition s a b : ownership_inv s ->
  ownership_inv (s <| last_ignition_start := a |> <| last_ignition_end := b |>).
Proof. by apply ownership_inv_ext. Qed.

(** A run over [Op.wf] operations preserves the invariants. *)
Lemma scheduler_inv_step o s : Op.wf o -> scheduler_inv s -> scheduler_inv (step o s).
Proof.
  intros Hwf Hinv. pose proof Hinv as [Ho Hf]. destruct o; cbn [step Op.wf] in *.
  - apply (scheduler_inv_ownership s); [|by apply ownership_arm_group|exact Hinv]. done.
  - apply (scheduler_inv_ownership s); [|by apply ownership_reserve|exact Hinv]. apply reserve_window_frontier.
  - apply (scheduler_inv_ownership s); [|by apply ownership_cancel_group|exact Hinv]. apply cancel_group_frontier.
  - unfold cancel_all. split.
    + eapply ownership_inv_ext; [symmetry; apply clear_frontier_ownership|]. apply ownership_clear.
    + apply frontier_clear. eapply frontier_inv_ext; [symmetry; apply clear_ownership_frontier|done].
  - apply (scheduler_inv_ownership s); [|apply ownership_suspend|exact Hinv].
    apply suspend_frontier.
  - unfold on_sync_loss. split; [apply ownership_suspend|].
    eapply (frontier_inv_ext (clear_live_frontier_state _ s)); [symmetry; apply suspend_frontier|by apply frontier_clear].
  - apply (scheduler_inv_ownership s); [|by apply ownership_sync_recovered|exact Hinv].
    unfold on_sync_recovered. by destruct (bool_decide _).
  - unfold on_geometry_commit.
    apply (scheduler_inv_ownership s); [|by do 2 apply ownership_cancel_group|exact Hinv].
    by rewrite !cancel_group_frontier.
  - unfold on_hard_safety_shutdown. split; [apply ownership_suspend|].
    eapply (frontier_inv_ext (clear_live_frontier_state _ s)); [symmetry; apply suspend_frontier|by apply frontier_clear].
  - apply (scheduler_inv_frontier s); [apply commit_horizon_ownership|by apply frontier_commit|exact Hinv].
  - apply (scheduler_inv_frontier s); [apply note_heartbeat_ownership|by apply frontier_heartbeat|exact Hinv].
  - apply (scheduler_inv_frontier s); [apply expire_frontier_ownership| |exact Hinv].
    by apply frontier_expire_horizon, frontier_expire_heartbeat.
  - apply (scheduler_inv_frontier s); [by apply expire_heartbeat_fields| |exact Hinv].
    by apply frontier_expire_heartbeat.
  - apply (scheduler_inv_frontier s); [apply expire_horizon_ownership| |exact Hinv].
    by apply frontier_expire_horizon.
  - apply (scheduler_inv_frontier s); [done|by apply frontier_clear|exact Hinv].
  - apply (scheduler_inv_ownership s); [apply clear_ownership_frontier|apply ownership_clear|exact Hinv].
  - pose proof (schedule_injection_cases now start_at end_at plan s) as H.
    destruct (schedule_injection now start_at end_at plan s) as [s' r]. simpl.
    destruct H as [(_ & s1 & Hr & -> & _)|[-> _]]; [|exact Hinv].
    pose proof (reserve_window_frontier (InjectionPlan.output plan) start_at end_at s) as Hfr.
    pose proof (ownership_reserve (InjectionPlan.output plan) start_at end_at s Hwf Ho) as Ho1.
    rewrite Hr in Hfr, Ho1. apply (scheduler_inv_ownership s); [done|by apply ownership_set_injection|exact Hinv].
  - pose proof (schedule_ignition_cases now start_at end_at plan s) as H.
    destruct (schedule_ignition now start_at end_at plan s) as [s' r]. simpl.
    destruct H as [(_ & s1 & Hr & -> & _)|[-> _]]; [|exact Hinv].
    pose proof (reserve_window_frontier (IgnitionPlan.output plan) start_at end_at s) as Hfr.
    pose proof (ownership_reserve (IgnitionPlan.output plan) start_at end_at s Hwf Ho) as Ho1.
    rewrite Hr in Hfr, Ho1. apply (scheduler_inv_ownership s); [done|by apply ownership_set_ignition|exact Hinv].
  - apply (scheduler_inv_ownership s); [apply note_drained_frontier|by apply ownership_note_drained|exact Hinv].
Qed.

Lemma scheduler_inv_run ops s : Forall Op.wf ops -> scheduler_inv s -> scheduler_inv (run ops s).
Proof.
  intros Hops. revert s. induction Hops as [|o ops Ho Hops IH]; intros s Hs; [done|].
  apply IH. by apply scheduler_inv_step.
Qed.

Lemma scheduler_inv_new : scheduler_inv SchedulerState.new.
Proof. split; [apply ownership_new|apply frontier_new]. Qed.

(** *** Runs without a commit *)

(** The horizon identifiers accepted along a run, in order. *)
Fixpoint accepted_ids (ops : list Op.t) (s : SchedulerState.t) : list Z :=
  match ops with
  | [] => []
  | o :: ops =>
    match o with
    | Op.CommitHorizon id a b hb mask =>
      if snd (commit_horizon id a b hb mask s) then id :: accepted_ids ops (step o s)
      else accepted_ids ops (step o s)
    | _ => accepted_ids ops (step o s)
    end
  end.

(** The permits in force, and why they were withdrawn, seen through the frontier only. *)
Lemma permits_of_frontier s s' : frontier s' = frontier s ->
  active_permit_mask s' = active_permit_mask s /\ last_accepted_horizon_id s' = last_accepted_horizon_id s.
Proof. unfold frontier. intros ?. by simplify_eq. Qed.

Lemma schedule_injection_frontier now a b plan s :
  frontier (fst (schedule_injection now a b plan s)) = frontier s.
Proof.
  pose proof (schedule_injection_cases now a b plan s) as H.
  destruct (schedule_injection now a b plan s) as [s' r]. simpl.
  destruct H as [(_ & s1 & Hr & -> & _)|[-> _]]; [|done].
  pose proof (reserve_window_frontier (InjectionPlan.output plan) a b s) as Hf. by rewrite Hr in Hf.
Qed.

Lemma schedule_ignition_frontier now a b plan s :
  frontier (fst (schedule_ignition now a b plan s)) = frontier s.
Proof.
  pose proof (schedule_ignition_cases now a b plan s) as H.
  destruct (schedule_ignition now a b plan s) as [s' r]. simpl.
  destruct H as [(_ & s1 & Hr & -> & _)|[-> _]]; [|done].
  pose proof (reserve_window_frontier (IgnitionPlan.output plan) a b s) as Hf. by rewrite Hr in Hf.
Qed.

Lemma expire_heartbeat_last now s :
  last_accepted_horizon_id (fst (expire_heartbeat now s)) = last_accepted_horizon_id s.
Proof.
  unfold expire_heartbeat. destruct (heartbeat_deadline_us s); [|done].
  destruct (now <=? _); [done|]. simpl. by destruct (bool_decide _).
Qed.

Lemma expire_horizon_permits now s :
  (active_permit_mask (fst (expire_horizon now s)) = active_permit_mask s
   \/ active_permit_mask (fst (expire_horizon now s)) = SafetyPermitMask.NONE)
  /\ last_accepted_horizon_id (fst (expire_horizon now s)) = last_accepted_horizon_id s.
Proof. destruct (expire_horizon_cases now s) as [[r ->]| ->]; [by split; [right|]|by split; [left|]]. Qed.

Lemma step_permits o s : Op.is_commit o = false ->
  (active_permit_mask (step o s) = active_permit_mask s
   \/ active_permit_mask (step o s) = SafetyPermitMask.NONE)
  /\ last_accepted_horizon_id (step o s) = last_accepted_horizon_id s.
Proof.
  intros Hc.
  assert (forall s', frontier s' = frontier s ->
    (active_permit_mask s' = active_permit_mask s \/ active_permit_mask s' = SafetyPermitMask.NONE)
    /\ last_accepted_horizon_id s' = last_accepted_horizon_id s) as Hf.
  { intros s' H. destruct (permits_of_frontier s s' H). by split; [left|]. }
  pose proof (expire_heartbeat_fields (match o with Op.ExpireFrontier now | Op.ExpireHeartbeat now => now
    | _ => 0 end) s) as (_ & _ & _ & Hm & _).
  destruct o; try done; cbn [step] in *; try (split; [by right|done]).
  - by apply Hf.
  - apply Hf, reserve_window_frontier.
  - apply Hf, cancel_group_frontier.
  - split; [by right|]. unfold cancel_all. simpl.
    apply (permits_of_frontier _ _ (clear_ownership_frontier s)).
  - apply Hf, suspend_frontier.
  - unfold on_sync_loss. rewrite (proj1 (permits_of_frontier _ _ (suspend_frontier _))),
      (proj2 (permits_of_frontier _ _ (suspend_frontier _))). by split; [right|].
  - apply Hf. unfold on_sync_recovered. by destruct (bool_decide _).
  - apply Hf. unfold on_geometry_commit. by rewrite !cancel_group_frontier.
  - unfold on_hard_safety_shutdown. rewrite (proj1 (permits_of_frontier _ _ (suspend_frontier _))),
      (proj2 (permits_of_frontier _ _ (suspend_frontier _))). by split; [right|].
  - unfold note_heartbeat. destruct (active_horizon_id s); (split; [by left|done]).
  - unfold expire_frontier.
    destruct (expire_horizon_permits now (fst (expire_heartbeat now s))) as [Hp ->].
    rewrite expire_heartbeat_last. split; [|done]. destruct Hm as [<-|Hm]; [done|].
    right. by destruct Hp as [->|].
  - split; [done|apply expire_heartbeat_last].
  - apply expire_horizon_permits.
  - apply Hf, clear_ownership_frontier.
  - apply Hf, schedule_injection_frontier.
  - apply Hf, schedule_ignition_frontier.
  - apply Hf, note_drained_frontier.
Qed.

(** ** Properties *)

(** C1: along every run of the public operations from the initial state, two windows held
    on one output never overlap in time; a channel bit is reserved exactly when a
    window holds that output; the group of every held window is active; the mode is
    armed exactly when some group is active; and the counters count reserved bits. *)
Theorem scheduler_run_ownership ops : Forall Op.wf ops -> ownership_inv (run ops SchedulerState.new).
Proof. intros Hops. by apply (scheduler_inv_run ops), scheduler_inv_new. Qed.

(** along every run, a live horizon is the last accepted one with a heartbeat deadline
    armed; without one no deadline is armed and no permit is in force; a recorded stop
    reason means no permit is in force; and an accepted horizon lasts between one
    microsecond and the frontier's maximum. *)
Theorem scheduler_run_frontier ops : Forall Op.wf ops -> frontier_inv (run ops SchedulerState.new).
Proof. intros Hops. by apply (scheduler_inv_run ops), scheduler_inv_new. Qed.

(** permits fail closed: along any run without an accepted commit the permit mask is
    the one it started with or is empty, so once the permits are withdrawn no sequence
    of heartbeats, schedules, drains or recoveries restores them. *)
Theorem permits_need_commit ops s : Forall (fun o => Op.is_commit o = false) ops ->
  active_permit_mask (run ops s) = active_permit_mask s
  \/ active_permit_mask (run ops s) = SafetyPermitMask.NONE.
Proof.
  intros Hops. revert s. induction Hops as [|o ops Ho Hops IH]; intros s; [by left|].
  simpl. destruct (IH (step o s)) as [->|]; [|by right]. by apply step_permits.
Qed.

Lemma accepted_ids_bound ops s :
  StronglySorted Z.lt (accepted_ids ops s)
  /\ Forall (fun id => forall last, last_accepted_horizon_id s = Some last -> last < id)
      (accepted_ids ops s).
Proof.
  revert s. induction ops as [|o ops IH]; intros s; simpl; [by repeat constructor|].
  destruct (IH (step o s)) as [Hs Hf]. destruct (Op.is_commit o) eqn:Hc.
  - destruct o as [| | | | | | | | |id a b hb mask| | | | | | | | |]; try done. simpl in *.
    pose proof (commit_horizon_cases id a b hb mask s) as H.
    cbv zeta in H. destruct (commit_horizon _ _ _ _ _ s) as [s' ok]. simpl in *.
    destruct H as [(-> & (_ & _ & Hl) & Hfr & _)|(-> & _ & ->)]; [|done].
    assert (last_accepted_horizon_id s' = Some id) as Hlast by (unfold frontier in Hfr; congruence).
    assert (Forall (Z.lt id) (accepted_ids ops s')) as Hid.
    { eapply Forall_impl; [done|]. simpl. naive_solver. }
    split; [by constructor|]. constructor; [done|]. eapply Forall_impl; [exact Hid|].
    simpl. intros x Hx last Hlst. specialize (Hl last Hlst). lia.
  - destruct (step_permits o s Hc) as [_ Hlast]. rewrite Hlast in Hf. by destruct o.
Qed.

(** the horizon identifiers accepted along any run are strictly increasing, and all
    exceed the last one accepted before it: no horizon is ever replayed or reordered. *)
Theorem horizon_ids_strictly_increase ops s :
  StronglySorted Z.lt (accepted_ids ops s)
  /\ (forall last, last_accepted_horizon_id s = Some last ->
      Forall (Z.lt last) (accepted_ids ops s)).
Proof.
  destruct (accepted_ids_bound ops s) as [Hs Hf]. split; [done|].
  intros last Hl. eapply Forall_impl; [done|]. simpl. naive_solver.
Qed.

(** What an accepted reservation of [output] over [[a, b)] does to the state. *)
Definition reserves (output : ExclusiveChannel.t) (a b : Micros) (s s' : SchedulerState.t) : Prop :=
  windows s' ≡ₚ Window.mk output a b :: windows s
  /\ mode s' = SchedulerMode.Armed
  /\ active_groups s' = Z.lor (active_groups s) (OutputGroup.mask (ExclusiveChannel.group output))
  /\ frontier s' = frontier s.

(** The reservation itself can go ahead: a supported channel, no window of the same
    output overlapping in time, and a free slot. *)
Definition reservable (output : ExclusiveChannel.t) (a b : Micros) (s : SchedulerState.t) : Prop :=
  ExclusiveChannel.channel output < CHANNEL_BIT_WIDTH
  /\ ~ conflicts output a b s
  /\ (length (windows s) < length (scheduled_windows s))%nat.

(** Why a schedule request is refused. *)
Definition refused (output : ExclusiveChannel.t) (now a b : Micros) (s : SchedulerState.t)
    (e : ScheduleError.t) : Prop :=
  let ch := ExclusiveChannel.channel output in
  match e with
  | ScheduleError.Suspended => mode s = SchedulerMode.Suspended
  | ScheduleError.StaleDeadline => mode s <> SchedulerMode.Suspended /\ (a <= now \/ b < a)
  | ScheduleError.ImpossibleDeadline => mode s <> SchedulerMode.Suspended /\ now < a /\ a = b
  | ScheduleError.InvalidChannel => admits now a b s /\ CHANNEL_BIT_WIDTH <= ch
  | ScheduleError.ConflictingChannel =>
      admits now a b s /\ ch < CHANNEL_BIT_WIDTH /\ conflicts output a b s
  | ScheduleError.QueueFull =>
      admits now a b s /\ ch < CHANNEL_BIT_WIDTH /\ ~ conflicts output a b s
      /\ length (windows s) = length (scheduled_windows s)
  end.

Lemma reserve_window_ok output a b s s1 : reserve_window output a b s = (s1, Ok tt) ->
  reservable output a b s /\ reserves output a b s s1.
Proof.
  intros Hr. pose proof (reserve_window_cases output a b s) as H. cbv zeta in H. rewrite Hr in H.
  destruct H as (_ & Hch & Hnc & slots & Hf & ->).
  pose proof (fill_first_occupied _ _ _ Hf) as Hp. unfold reservable, reserves. split_and!; try done.
  pose proof (length_occupied_le (scheduled_windows s)).
  assert (length (windows s) <> length (scheduled_windows s)); [|lia].
  rewrite <- (fill_first_None (Window.mk output a b)). by rewrite Hf.
Qed.

Lemma reserve_window_err output now a b s e : admits now a b s ->
  reserve_window output a b s = (s, Err e) -> refused output now a b s e.
Proof.
  intros Ha Hr. pose proof (reserve_window_cases output a b s) as H. cbv zeta in H. rewrite Hr in H.
  pose proof Ha as [_ Hlt]. destruct e; simpl; try done; intuition lia.
Qed.

(** [schedule_injection] decides on every branch as specified: it accepts exactly when
    the scheduler is not suspended, the window lies after now with positive length, the
    channel is supported, no overlapping window holds the output and a slot is free;
    it then records exactly that window and reports the plan with its times, and on
    every refusal the state is unchanged and the error names the reason. *)
Theorem schedule_injection_spec now a b plan s :
  let output := InjectionPlan.output plan in
  let '(s', r) := schedule_injection now a b plan s in
  match r with
  | Ok timed => admits now a b s /\ reservable output a b s /\ reserves output a b s s'
      /\ timed = TimedInjectionPlan.mk plan a b
      /\ last_injection_start s' = Some a /\ last_injection_end s' = Some b
  | Err e => s' = s /\ refused output now a b s e
  end.
Proof.
  cbv zeta. pose proof (schedule_injection_cases now a b plan s) as H.
  destruct (schedule_injection now a b plan s) as [s' r].
  destruct H as [(Ha & s1 & Hr & -> & ->)|(-> & e & -> & He)].
  - by destruct (reserve_window_ok _ _ _ _ _ Hr).
  - split; [done|]. destruct e; try done; destruct He as [Ha Hr]; by apply reserve_window_err.
Qed.

(** [schedule_ignition] decides on every branch as [schedule_injection] does, for the
    dwell window of an ignition plan, and records the ignition times. *)
Theorem schedule_ignition_spec now a b plan s :
  let output := IgnitionPlan.output plan in
  let '(s', r) := schedule_ignition now a b plan s in
  match r with
  | Ok timed => admits now a b s /\ reservable output a b s /\ reserves output a b s s'
      /\ timed = TimedIgnitionPlan.mk plan a b
      /\ last_ignition_start s' = Some a /\ last_ignition_end s' = Some b
  | Err e => s' = s /\ refused output now a b s e
  end.
Proof.
  cbv zeta. pose proof (schedule_ignition_cases now a b plan s) as H.
  destruct (schedule_ignition now a b plan s) as [s' r].
  destruct H as [(Ha & s1 & Hr & -> & ->)|(-> & e & -> & He)].
  - by destruct (reserve_window_ok _ _ _ _ _ Hr).
  - split; [done|]. destruct e; try done; destruct He as [Ha Hr]; by apply reserve_window_err.
Qed.

(** in a state the operations can reach, draining a low transition releases exactly
    one window, one of its output that ends at its time, when there is such a window;
    every other window stays, and a high transition or one with no window changes
    nothing. *)
Theorem drained_transition_releases ops tr : Forall Op.wf ops ->
  let s := run ops SchedulerState.new in
  let s' := note_drained_transition tr s in
  ownership_inv s' /\ frontier s' = frontier s
  /\ ((Transition.level tr = Level.Low /\ exists w, releases tr w = true /\ windows s ≡ₚ w :: windows s')
      \/ ((Transition.level tr = Level.High \/ Forall (fun w => releases tr w = false) (windows s))
          /\ s' = s)).
Proof.
  intros Hops s s'. assert (ownership_inv s) as Hinv by (by apply (scheduler_inv_run ops), scheduler_inv_new).
  split; [by apply ownership_note_drained|]. split; [apply note_drained_frontier|].
  destruct (note_drained_cases tr s) as [(Hl & slots & w & _ & Hr & Hp & Hs)|[Hn Hs]].
  - left. split; [done|]. exists w. split; [done|]. unfold s'. by rewrite Hs.
  - by right.
Qed.

(** the heartbeat deadline is not wrap-aware: a heartbeat noted in the last moments
    before the microsecond clock overflows saturates the deadline at the largest clock
    reading, and from then on no reading of the clock ever expires it, so permits
    survive the loss of the heartbeat until the horizon itself expires. *)
Theorem heartbeat_at_clock_wrap_never_expires s beat now :
  is_Some (active_horizon_id s) -> u32_max - HEARTBEAT_EXPIRY_US <= beat -> u32 now ->
  expire_heartbeat now (note_heartbeat beat s) = (note_heartbeat beat s, false).
Proof.
  intros [id Hid] Hbeat Hnow. unfold note_heartbeat. rewrite Hid. unfold expire_heartbeat. simpl.
  unfold saturating_add, fits, u32_max in *.
  destruct (Z.leb_spec now (Z.min (beat + HEARTBEAT_EXPIRY_US) (2 ^ 32 - 1))); [done|lia].
Qed.

(** A frontier whose deadlines have not passed does not expire. *)
Lemma expire_frontier_idle now s : ~ frontier_deadline_passed now s -> expire_frontier now s = s.
Proof.
  intros Hn. unfold expire_frontier. assert (expire_heartbeat now s = (s, false)) as ->.
  { unfold expire_heartbeat. destruct (heartbeat_deadline_us s) as [d|] eqn:E; [|done].
    destruct (Z.leb_spec now d); [done|]. destruct Hn. left. by exists d. }
  unfold expire_horizon. cbn [fst]. destruct (horizon_end_us s) as [e|] eqn:E; [|done].
  destruct (Z.leb_spec now e); [done|]. destruct Hn. right. by exists e.
Qed.


(** ** Witnesses *)
Definition sample_output : ExclusiveChannel.t := ExclusiveChannel.mk OutputGroup.Ignition 2.
Definition sample_plan : IgnitionPlan.t := IgnitionPlan.mk sample_output 3000 150.
Definition sample_ops : list Op.t :=
  [Op.CommitHorizon 1 100 5000 8000 3; Op.ScheduleIgnition 150 200 3200 sample_plan;
   Op.ScheduleIgnition 150 200 3200 sample_plan; Op.CommitHorizon 2 100 5000 8000 1;
   Op.CommitHorizon 2 100 5000 8000 1].

Lemma sample_ops_wf : Forall Op.wf sample_ops.
Proof. repeat constructor; simpl; lia. Qed.

Example scheduler_run_ownership_witness :
  Forall Op.wf sample_ops /\ ownership_inv (run sample_ops SchedulerState.new)
  /\ windows (run sample_ops SchedulerState.new) = [Window.mk sample_output 200 3200].
Proof.
  split_and!; [apply sample_ops_wf|apply (scheduler_run_ownership sample_ops), sample_ops_wf|].
  by vm_compute.
Defined.

Example scheduler_run_frontier_witness :
  Forall Op.wf sample_ops /\ frontier_inv (run sample_ops SchedulerState.new)
  /\ active_horizon_id (run sample_ops SchedulerState.new) = Some 2.
Proof.
  split_and!; [apply sample_ops_wf|apply (scheduler_run_frontier sample_ops), sample_ops_wf|].
  by vm_compute.
Defined.

Example permits_need_commit_witness :
  let ops := [Op.ExpireFrontier 9000; Op.NoteHeartbeat 9100; Op.SyncRecovered] in
  let s := run [Op.CommitHorizon 1 100 9500 8000 3] SchedulerState.new in
  Forall (fun o => Op.is_commit o = false) ops
  /\ active_permit_mask s = 3
  /\ (active_permit_mask (run ops s) = active_permit_mask s
      \/ active_permit_mask (run ops s) = SafetyPermitMask.NONE)
  /\ active_permit_mask (run ops s) = 0.
Proof.
  split_and!; [by repeat constructor|done|apply permits_need_commit; by repeat constructor|by vm_compute].
Defined.

Example horizon_ids_strictly_increase_witness :
  accepted_ids sample_ops SchedulerState.new = [1; 2]
  /\ last_accepted_horizon_id (run sample_ops SchedulerState.new) = Some 2
  /\ Forall (Z.lt 2) (accepted_ids sample_ops (run sample_ops SchedulerState.new)).
Proof.
  split_and!; [by vm_compute|by vm_compute|].
  apply (horizon_ids_strictly_increase sample_ops); by vm_compute.
Defined.

Example drained_transition_releases_witness :
  let s := run sample_ops SchedulerState.new in
  let tr := Transition.mk 3200 TransitionKind.Ignition 2 Level.Low in
  let s' := note_drained_transition tr s in
  Forall Op.wf sample_ops
  /\ windows s' = []
  /\ ownership_inv s' /\ frontier s' = frontier s
  /\ ((Transition.level tr = Level.Low /\ exists w, releases tr w = true /\ windows s ≡ₚ w :: windows s')
      \/ ((Transition.level tr = Level.High \/ Forall (fun w => releases tr w = false) (windows s))
          /\ s' = s)).
Proof.
  split; [apply sample_ops_wf|]. split; [by vm_compute|].
  apply (drained_transition_releases sample_ops), sample_ops_wf.
Defined.

Example heartbeat_at_clock_wrap_never_expires_witness :
  let s := run [Op.CommitHorizon 1 4294960000 4294967000 4294966000 3] SchedulerState.new in
  is_Some (active_horizon_id s)
  /\ expire_heartbeat 5000000 (note_heartbeat 4294960000 s) = (note_heartbeat 4294960000 s, false).
Proof.
  split; [by eexists|].
  apply (heartbeat_at_clock_wrap_never_expires
    (run [Op.CommitHorizon 1 4294960000 4294967000 4294966000 3] SchedulerState.new));
    [by eexists|by vm_compute|by vm_compute].
Defined.

Example queue_high_water_mark_sound_witness :
  let q := fst (Queue.enqueue_transition (Transition.mk 10 TransitionKind.Ignition 3 Level.High) (Queue.new 4)) in
  (4 <= 255)%nat /\ queue_reachable (F := SchedulerState.t) 4 q /\ queue_inv 4 q.
Proof.
  assert (queue_reachable (F := SchedulerState.t) 4
    (fst (Queue.enqueue_transition (Transition.mk 10 TransitionKind.Ignition 3 Level.High) (Queue.new 4))))
    as Hr by (apply rtc_once, step_enqueue).
  split; [lia|]. split; [done|]. apply (queue_high_water_mark_sound (F := SchedulerState.t)); [lia|done].
Defined.

