(* ===== verification/Outputs.v ===== *)
(** * Output scheduling adapter (boards/common/src/outputs: scheduler.rs, pins.rs)

    The adapter that owns the transition queue and the scheduler state together, admits
    board output batches, drains due transitions and applies them to the pins. *)
From S2P Require Import Prelude Domain BoardApi SchedTypes Queue SchedState Batch Scheduler.
From stdpp Require Import sorting.
Open Scope Z_scope.

(** ** Pins (pins.rs) *)
Module PinError.
Inductive t := SetHigh | SetLow.
#[global] Instance eq_dec : EqDecision t.
Proof. solve_decision. Defined.
End PinError.

(** [RawScheduledOutputPin]: what the adapter uses of a pin driver. *)
Class ScheduledPin (P : Type) := {
  try_set_scheduled_high : P -> P * Result unit PinError.t;
  try_set_scheduled_low : P -> P * Result unit PinError.t;
}.

Module ApplyError.
(** [TransitionApplyError] *)
Inductive t :=
| InjectorChannelOutOfRange (c : ChannelId)
| IgnitionChannelOutOfRange (c : ChannelId)
| PinWrite (kind : TransitionKind.t) (channel : ChannelId) (level : Level.t) (error : PinError.t).
#[global] Instance eq_dec : EqDecision t.
Proof. solve_decision. Defined.
End ApplyError.

Module Pins.
Section Pins.
Context {P : Type} `{ScheduledPin P}.

(** The injector and the ignition pins. *)
Record t := mk { injectors : list P; ignition : list P }.

Definition write (level : Level.t) (pin : P) : P * Result unit PinError.t :=
  match level with
  | Level.High => try_set_scheduled_high pin
  | Level.Low => try_set_scheduled_low pin
  end.

Definition apply_transition (transition : Transition.t) (pins : t) : t * Result unit ApplyError.t :=
  let channel := Transition.channel transition in
  let i := Z.to_nat channel in
  let pin_error e :=
    ApplyError.PinWrite (Transition.kind transition) channel (Transition.level transition) e in
  match Transition.kind transition with
  | TransitionKind.Injector =>
    match injectors pins !! i with
    | None => (pins, Err (ApplyError.InjectorChannelOutOfRange channel))
    | Some pin =>
      let '(pin, r) := write (Transition.level transition) pin in
      (mk (<[i := pin]> (injectors pins)) (ignition pins),
       match r with Ok _ => Ok tt | Err e => Err (pin_error e) end)
    end
  | TransitionKind.Ignition =>
    match ignition pins !! i with
    | None => (pins, Err (ApplyError.IgnitionChannelOutOfRange channel))
    | Some pin =>
      let '(pin, r) := write (Transition.level transition) pin in
      (mk (injectors pins) (<[i := pin]> (ignition pins)),
       match r with Ok _ => Ok tt | Err e => Err (pin_error e) end)
    end
  end.

(** The checks of the first loop, on one transition. *)
Definition validate_transition (transition : Transition.t) (pins : t) : Result unit ApplyError.t :=
  let channel := Transition.channel transition in
  match Transition.kind transition with
  | TransitionKind.Injector =>
    if Z.of_nat (length (injectors pins)) <=? channel
    then Err (ApplyError.InjectorChannelOutOfRange channel) else Ok tt
  | TransitionKind.Ignition =>
    if Z.of_nat (length (ignition pins)) <=? channel
    then Err (ApplyError.IgnitionChannelOutOfRange channel) else Ok tt
  end.

(** The two loops over [drained.transitions[..len]]. *)
Fixpoint validate_all (slots : list (option Transition.t)) (pins : t) : Result unit ApplyError.t :=
  match slots with
  | [] => Ok tt
  | Some transition :: slots => let? _ := validate_transition transition pins in validate_all slots pins
  | None :: slots => validate_all slots pins
  end.

Fixpoint apply_all (slots : list (option Transition.t)) (pins : t) (applied : Z) :
    t * Result Z ApplyError.t :=
  match slots with
  | [] => (pins, Ok applied)
  | Some transition :: slots =>
    match apply_transition transition pins with
    | (pins, Ok _) => apply_all slots pins (applied + 1)
    | (pins, Err e) => (pins, Err e)
    end
  | None :: slots => apply_all slots pins applied
  end.

Definition apply_drained_transitions (drained : DrainBuffer.t) (pins : t) :
    t * Result Z ApplyError.t :=
  match validate_all (DrainBuffer.as_slice drained) pins with
  | Err e => (pins, Err e)
  | Ok _ => apply_all (DrainBuffer.as_slice drained) pins 0
  end.
End Pins.
Arguments t P : clear implicits.
End Pins.

(** ** The adapter (scheduler.rs) *)
Definition scheduled_level (level : OutputLevel.t) : Level.t :=
  match level with OutputLevel.Low => Level.Low | OutputLevel.High => Level.High end.

Definition scheduled_output (output : EcuOutput.t) : ExclusiveChannel.t :=
  match output with
  | EcuOutput.Injector channel => ExclusiveChannel.mk OutputGroup.Injector channel
  | EcuOutput.Ignition channel => ExclusiveChannel.mk OutputGroup.Ignition channel
  end.

(** [None] is the source's [unreachable!()]. *)
Definition kind_of_group (group : OutputGroup.t) : option TransitionKind.t :=
  match group with
  | OutputGroup.Injector => Some TransitionKind.Injector
  | OutputGroup.Ignition => Some TransitionKind.Ignition
  | OutputGroup.Idle | OutputGroup.Fan => None
  end.

Definition scheduled_transition (transition : OutputTransition.t) : option Transition.t :=
  let output := scheduled_output (OutputTransition.output transition) in
  match kind_of_group (ExclusiveChannel.group output) with
  | None => None
  | Some kind =>
    Some (Transition.mk (OutputTransition.at_ transition) kind (ExclusiveChannel.channel output)
      (scheduled_level (OutputTransition.level transition)))
  end.

Definition map_cancel_reason (reason : CancelReason.t) : StopReason.t :=
  match reason with
  | CancelReason.Manual => StopReason.PermitDenied
  | CancelReason.SyncLoss => StopReason.SyncLost
  | CancelReason.SafetyShutdown => StopReason.TimingFault
  | CancelReason.Commit => StopReason.HorizonExpired
  | CancelReason.Timeout => StopReason.HeartbeatExpired
  end.

Module Adapter.
(** [ScheduledQueueAdapter<N>] *)
Record t := mk { queue : Queue.t; frontier : SchedulerState.t }.
#[global] Instance eta : Eta t := fun a => mk (queue a) (frontier a).

Definition new (N : nat) : t := mk (Queue.new N) SchedulerState.new.

Definition commit_frontier_horizon (id : Z) (horizon_start horizon_end heartbeat_deadline : Micros)
    (permit_mask : Z) (a : t) : t * bool :=
  let '(f, ok) := SchedulerState.commit_horizon id horizon_start horizon_end heartbeat_deadline
    permit_mask (frontier a) in
  (a <| frontier := f |>, ok).

Definition note_frontier_heartbeat (now : Micros) (a : t) : t :=
  a <| frontier ::= SchedulerState.note_heartbeat now |>.
Definition expire_frontier (now : Micros) (a : t) : t :=
  a <| frontier ::= SchedulerState.expire_frontier now |>.
Definition on_sync_loss (a : t) : t :=
  mk (Queue.on_sync_loss (queue a)) (SchedulerState.on_sync_loss (frontier a)).
Definition on_hard_safety_shutdown (a : t) : t :=
  mk (Queue.on_hard_safety_shutdown (queue a)) (SchedulerState.on_hard_safety_shutdown (frontier a)).

Definition has_live_frontier (a : t) : bool :=
  match SchedulerState.active_horizon_id (frontier a) with Some _ => true | None => false end.

Definition cancel_all_with_reason (reason : StopReason.t) (a : t) : t :=
  mk (Queue.cancel_all (queue a))
    (SchedulerState.clear_live_frontier_state reason
      (SchedulerState.clear_scheduled_ownership (frontier a))).

Definition cancel_all (a : t) : t := cancel_all_with_reason StopReason.PermitDenied a.

(** The loop [for transition in out.as_slice().iter().flatten()]. *)
Definition note_drained_ownership (out : DrainBuffer.t) (a : t) : t :=
  a <| frontier ::= fun f =>
    foldl (fun f tr => SchedulerState.note_drained_transition tr f) f
      (occupied (DrainBuffer.as_slice out)) |>.

Definition drain_due (now : Micros) (a : t) (out : DrainBuffer.t) : t * DrainBuffer.t * Z :=
  let '(q, out, drained) := Queue.drain_due now (queue a) out in
  (note_drained_ownership out (a <| queue := q |>), out, drained).

Definition drain_due_with_frontier (now : Micros) (a : t) (out : DrainBuffer.t) :
    t * DrainBuffer.t * Z :=
  let '(f, q, out, drained) := Queue.drain_due_with_frontier now (frontier a) (queue a) out in
  let f :=
    if (drained =? 0)
       && (bool_decide (SchedulerState.active_horizon_id f = None)
           || SafetyPermitMask.is_empty (SchedulerState.active_permit_mask f))
    then SchedulerState.clear_scheduled_ownership f else f in
  (note_drained_ownership out (mk q f), out, drained).

(** The first loop of [note_output_batch_ownership]: the outputs in order of their first
    use; [unique] holds those seen so far. *)
Fixpoint unique_outputs (transitions : list OutputTransition.t) (unique : list EcuOutput.t) :
    list EcuOutput.t :=
  match transitions with
  | [] => unique
  | transition :: transitions =>
    let output := OutputTransition.output transition in
    if existsb (fun o => bool_decide (o = output)) unique then unique_outputs transitions unique
    else unique_outputs transitions (unique ++ [output])
  end.

Definition times_of (output : EcuOutput.t) (level : OutputLevel.t)
    (transitions : list OutputTransition.t) : list Micros :=
  OutputTransition.at_ <$>
    filter (fun t => OutputTransition.output t = output /\ OutputTransition.level t = level) transitions.

(** The reservations of one output, stopping at the first error. *)
Fixpoint reserve_all (output : ExclusiveChannel.t) (pairs : list (Micros * Micros))
    (f : SchedulerState.t) : SchedulerState.t * Result unit ScheduleError.t :=
  match pairs with
  | [] => (f, Ok tt)
  | (start_at, end_at) :: pairs =>
    match SchedulerState.reserve_window output start_at end_at f with
    | (f, Ok _) => reserve_all output pairs f
    | (f, Err e) => (f, Err e)
    end
  end.

Fixpoint own_outputs (outputs : list EcuOutput.t) (transitions : list OutputTransition.t)
    (f : SchedulerState.t) : SchedulerState.t * Result unit ScheduleError.t :=
  match outputs with
  | [] => (f, Ok tt)
  | output :: outputs =>
    let starts := times_of output OutputLevel.High transitions in
    let ends := times_of output OutputLevel.Low transitions in
    if negb (length starts =? length ends)%nat then (f, Err ScheduleError.ImpossibleDeadline)
    else
      match reserve_all (scheduled_output output)
              (zip (merge_sort Z.le starts) (merge_sort Z.le ends)) f with
      | (f, Ok _) => own_outputs outputs transitions f
      | (f, Err e) => (f, Err e)
      end
  end.

Definition note_output_batch_ownership (batch : Batch.t OutputTransition.t) (a : t) :
    t * Result unit ScheduleError.t :=
  let '(f, r) := own_outputs (unique_outputs (Batch.iter batch) []) (Batch.iter batch) (frontier a) in
  (a <| frontier := f |>, r).

(** The enqueue loop of [schedule_output_batch]; [None] is the panic of [unreachable!()]. *)
Fixpoint enqueue_batch (transitions : list OutputTransition.t) (q : Queue.t) :
    option (Queue.t * Result unit ScheduleError.t) :=
  match transitions with
  | [] => Some (q, Ok tt)
  | transition :: transitions =>
    match scheduled_transition transition with
    | None => None
    | Some tr =>
      match Queue.enqueue_transition tr q with
      | (q, Ok _) => enqueue_batch transitions q
      | (q, Err e) => Some (q, Err e)
      end
    end
  end.

Definition reject (a : t) : t :=
  if has_live_frontier a then cancel_all_with_reason StopReason.AdmittedEventRejected a else a.

Definition schedule_output_batch (batch : Batch.t OutputTransition.t) (a : t) :
    option (t * Result unit ScheduleError.t) :=
  if Queue.free_slots (queue a) <? Batch.len batch
  then Some (reject a, Err ScheduleError.QueueFull)
  else
    let '(scratch, r) := note_output_batch_ownership batch a in
    match r with
    | Err error => Some (reject a, Err error)
    | Ok _ =>
      match enqueue_batch (Batch.iter batch) (queue scratch) with
      | None => None
      | Some (_, Err error) => Some (reject a, Err error)
      | Some (q, Ok _) => Some (scratch <| queue := q |>, Ok tt)
      end
    end.

(** [apply_lowered]: what it reads of the lowered action is its cancel request and its
    output transitions. *)
Definition apply_lowered (cancel_scheduler : option CancelReason.t)
    (output_transitions : Batch.t OutputTransition.t) (a : t) :
    option (t * Result unit ScheduleError.t) :=
  let scratch :=
    match cancel_scheduler with
    | Some reason => cancel_all_with_reason (map_cancel_reason reason) a
    | None => a
    end in
  match schedule_output_batch output_transitions scratch with
  | None => None
  | Some (_, Err error) => Some (reject a, Err error)
  | Some (scratch, Ok _) => Some (scratch, Ok tt)
  end.

(** [ScheduledActionExecutor::drain_and_apply_due] *)
Definition drain_and_apply_due {P} `{ScheduledPin P} (now : Micros) (a : t) (out : DrainBuffer.t)
    (pins : Pins.t P) : t * DrainBuffer.t * Pins.t P * Result Z ApplyError.t :=
  let had_live_frontier := has_live_frontier a in
  let '(a, out, _) :=
    match SchedulerState.last_accepted_horizon_id (frontier a) with
    | Some _ => drain_due_with_frontier now a out
    | None => drain_due now a out
    end in
  match Pins.apply_drained_transitions out pins with
  | (pins, Ok applied) => (a, out, pins, Ok applied)
  | (pins, Err error) =>
    (if had_live_frontier then cancel_all_with_reason StopReason.BoardOutputFault a else a,
     out, pins, Err error)
  end.
End Adapter.

(** ** Lemmas *)
Import Adapter.

(** *** Windows and the transitions that close them *)
Definition wkey (w : Window.t) : ExclusiveChannel.t * Micros := (Window.output w, Window.end_at w).
Definition tkey (tr : Transition.t) : ExclusiveChannel.t * Micros :=
  (ExclusiveChannel.mk (SchedulerState.group_of_kind (Transition.kind tr)) (Transition.channel tr),
   Transition.at_us tr).
Definition lows (ts : list Transition.t) : list Transition.t :=
  filter (fun tr => Transition.level tr = Level.Low) ts.

Lemma releases_key tr w : releases tr w = true <-> wkey w = tkey tr.
Proof.
  unfold releases, wkey, tkey. rewrite andb_true_iff, bool_decide_eq_true, Z.eqb_eq.
  split; [intros [-> ->]|intros [= -> ->]]; done.
Qed.

(** Noting drained transitions releases the windows they close, one each. *)
Lemma note_all_drained ts f K :
  wkey <$> windows f ≡ₚ (tkey <$> lows ts) ++ K ->
  wkey <$> windows (foldl (fun f tr => SchedulerState.note_drained_transition tr f) f ts) ≡ₚ K.
Proof.
  revert f. induction ts as [|tr ts IH]; intros f Hf; [done|]. simpl. apply IH. clear IH.
  unfold lows in *. rewrite filter_cons in Hf.
  destruct (note_drained_cases tr f) as [(Hl & slots & w & _ & Hr & Hp & ->)|[Hno ->]].
  - rewrite decide_True in Hf by done. rewrite Hp in Hf. simpl in Hf.
    apply releases_key in Hr. rewrite Hr in Hf. by apply Permutation_cons_inv in Hf.
  - case_decide as Hl; [|done]. exfalso. destruct Hno as [Hh|Hno]; [congruence|].
    assert (tkey tr ∈ wkey <$> windows f) as Hin by (rewrite Hf; left).
    apply list_elem_of_fmap in Hin as (w & Hw & Hin). rewrite Forall_forall in Hno.
    specialize (Hno w Hin). by rewrite (proj2 (releases_key tr w)) in Hno.
Qed.

Lemma reserve_all_windows output pairs f f' :
  reserve_all output pairs f = (f', Ok tt) ->
  wkey <$> windows f' ≡ₚ ((fun e => (output, e)) <$> pairs.*2) ++ (wkey <$> windows f).
Proof.
  revert f. induction pairs as [|[a b] pairs IH]; intros f Hr; simplify_eq/=; [done|].
  destruct (SchedulerState.reserve_window output a b f) as [f1 [[]|e]] eqn:Hw; [|done].
  apply reserve_window_ok in Hw as (_ & Hp & _). rewrite (IH f1 Hr), Hp. simpl.
  unfold wkey at 2. simpl. symmetry. apply Permutation_middle.
Qed.

Lemma reserve_all_inv output pairs f : 0 <= ExclusiveChannel.channel output ->
  scheduler_inv f -> scheduler_inv (fst (reserve_all output pairs f)).
Proof.
  intros Hch. revert f. induction pairs as [|[a b] pairs IH]; intros f Hf; simpl; [done|].
  pose proof (scheduler_inv_step (Op.ReserveWindow output a b) f Hch Hf) as H1. cbn [step] in H1.
  destruct (SchedulerState.reserve_window output a b f) as [f1 [?|?]]; [by apply IH|done].
Qed.

(** The transition a board transition becomes; the source's [unreachable!()] is. *)
Definition to_transition (t : OutputTransition.t) : Transition.t :=
  Transition.mk (OutputTransition.at_ t)
    match OutputTransition.output t with
    | EcuOutput.Injector _ => TransitionKind.Injector
    | EcuOutput.Ignition _ => TransitionKind.Ignition
    end
    match OutputTransition.output t with EcuOutput.Injector c | EcuOutput.Ignition c => c end
    (scheduled_level (OutputTransition.level t)).

Lemma scheduled_transition_total t : scheduled_transition t = Some (to_transition t).
Proof. unfold scheduled_transition, to_transition. by destruct (OutputTransition.output t). Qed.

Definition okey (t : OutputTransition.t) : ExclusiveChannel.t * Micros :=
  (scheduled_output (OutputTransition.output t), OutputTransition.at_ t).

Lemma tkey_to_transition t : tkey (to_transition t) = okey t.
Proof. unfold tkey, to_transition, okey. by destruct (OutputTransition.output t). Qed.

Definition is_low (t : OutputTransition.t) : Prop := OutputTransition.level t = OutputLevel.Low.
#[global] Instance is_low_dec t : Decision (is_low t).
Proof. unfold is_low. apply _. Defined.

Lemma lows_to_transition ts : tkey <$> lows (to_transition <$> ts) = okey <$> filter is_low ts.
Proof.
  assert (forall t, Transition.level (to_transition t) = Level.Low <-> is_low t) as Hl.
  { intros t. unfold is_low, to_transition. simpl. by destruct (OutputTransition.level t). }
  induction ts as [|t ts IH]; [done|]. unfold lows in *. rewrite fmap_cons, !filter_cons.
  specialize (Hl t). do 2 case_decide; try tauto.
  by rewrite !fmap_cons, IH, tkey_to_transition.
Qed.

Lemma enqueue_batch_spec ts q :
  exists q' r, enqueue_batch ts q = Some (q', r)
    /\ (r = Ok tt -> pending q' ≡ₚ (to_transition <$> ts) ++ pending q).
Proof.
  revert q. induction ts as [|t ts IH]; intros q; simpl; [by eauto|].
  rewrite scheduled_transition_total.
  destruct (enqueue_transition_cases (to_transition t) q) as [(_ & _ & q1 & -> & Hp & _)|[_ ->]].
  - destruct (IH q1) as (q' & r & -> & Hr). exists q', r. split; [done|]. intros Hok.
    rewrite (Hr Hok), Hp. symmetry. apply Permutation_middle.
  - eexists _, _. split; [done|]. done.
Qed.

(** *** The outputs of a batch *)
Lemma unique_outputs_spec ts us : NoDup us ->
  NoDup (unique_outputs ts us)
  /\ (forall o, o ∈ unique_outputs ts us <-> o ∈ us \/ exists t, t ∈ ts /\ OutputTransition.output t = o).
Proof.
  revert us. induction ts as [|t ts IH]; intros us Hus; simpl; [split; [done|set_solver]|].
  destruct (existsb _ us) eqn:He.
  - apply existsb_exists in He as (o & Ho & Heq%bool_decide_eq_true). apply list_elem_of_In in Ho.
    destruct (IH us Hus) as [Hn Hin]. split; [done|]. intros o'. rewrite Hin. set_solver.
  - assert (OutputTransition.output t ∉ us) as Hnot.
    { intros Hin. apply not_true_iff_false in He. apply He, existsb_exists.
      exists (OutputTransition.output t). rewrite <- list_elem_of_In. by rewrite bool_decide_true. }
    destruct (IH (us ++ [OutputTransition.output t])) as [Hn Hin].
    { apply NoDup_app. split_and!; [done|set_solver|apply NoDup_singleton]. }
    split; [done|]. intros o'. rewrite Hin. set_solver.
Qed.

Lemma filter_split {A} (P Q R : A -> Prop) `{forall x, Decision (P x), forall x, Decision (Q x),
    forall x, Decision (R x)} (l : list A) :
  (forall x, R x <-> P x \/ Q x) -> (forall x, P x -> ~ Q x) ->
  filter R l ≡ₚ filter P l ++ filter Q l.
Proof.
  intros HR HPQ. induction l as [|x l IH]; [done|]. rewrite !filter_cons.
  specialize (HR x). specialize (HPQ x).
  destruct (decide (P x)), (decide (Q x)), (decide (R x)); try tauto; simpl; rewrite IH; try done.
  apply Permutation_middle.
Qed.

Lemma filter_forall {A} (P : A -> Prop) `{forall x, Decision (P x)} (l : list A) :
  Forall P l -> filter P l = l.
Proof. induction 1 as [|x l Hx Hl IH]; [done|]. rewrite filter_cons_True by done. by f_equal. Qed.

(** Grouping by output loses and duplicates nothing. *)
Lemma group_by_output (os : list EcuOutput.t) (ts : list OutputTransition.t) : NoDup os ->
  concat ((fun o => filter (fun t => OutputTransition.output t = o) ts) <$> os)
  ≡ₚ filter (fun t => OutputTransition.output t ∈ os) ts.
Proof.
  induction 1 as [|o os Ho Hos IH]; simpl.
  - symmetry. rewrite filter_none; [done|]. set_solver.
  - rewrite IH. symmetry. apply filter_split; [set_solver|]. intros x <-. done.
Qed.

Lemma times_of_keys output ts :
  (fun e => (scheduled_output output, e)) <$> times_of output OutputLevel.Low ts
  = okey <$> filter (fun t => OutputTransition.output t = output) (filter is_low ts).
Proof.
  unfold times_of. rewrite <- list_fmap_compose. rewrite list_filter_filter.
  assert (forall l, Forall (fun t => OutputTransition.output t = output) l ->
    (fun t => (scheduled_output output, OutputTransition.at_ t)) <$> l = okey <$> l) as Hmap.
  { induction 1 as [|t l Ht Hl IH]; [done|]. rewrite !fmap_cons, IH. unfold okey. by rewrite Ht. }
  etransitivity; [apply Hmap; apply Forall_forall; intros t Ht;
    by apply list_elem_of_filter in Ht as [[? _] _]|].
  done.
Qed.

Lemma own_outputs_windows os ts f f' : own_outputs os ts f = (f', Ok tt) ->
  wkey <$> windows f'
  ≡ₚ (okey <$> concat ((fun o => filter (fun t => OutputTransition.output t = o) (filter is_low ts)) <$> os))
     ++ (wkey <$> windows f).
Proof.
  revert f. induction os as [|o os IH]; intros f Ho; simplify_eq/=; [done|].
  destruct (Nat.eqb_spec (length (times_of o OutputLevel.High ts))
    (length (times_of o OutputLevel.Low ts))) as [Hlen|]; [|done]. simpl in Ho.
  destruct (reserve_all _ _ f) as [f1 [[]|e]] eqn:Hr; [|done].
  rewrite (IH f1 Ho), (reserve_all_windows _ _ _ _ Hr). rewrite snd_zip.
  - rewrite (merge_sort_Permutation Z.le), times_of_keys, fmap_app, !app_assoc.
    apply Permutation_app_tail, Permutation_app_comm.
  - by rewrite !merge_sort_Permutation, Hlen.
Qed.

(** Channel numbers of a batch are unsigned. *)
Definition ochannel_ok (o : EcuOutput.t) : Prop :=
  0 <= ExclusiveChannel.channel (scheduled_output o).
Definition batch_ok (batch : Batch.t OutputTransition.t) : Prop :=
  Forall (fun t => ochannel_ok (OutputTransition.output t)) (Batch.iter batch).

Lemma own_outputs_inv os ts f : Forall ochannel_ok os ->
  scheduler_inv f -> scheduler_inv (fst (own_outputs os ts f)).
Proof.
  intros Hos. revert f. induction Hos as [|o os Ho Hos IH]; intros f Hf; simpl; [done|].
  destruct (negb _); [done|].
  pose proof (reserve_all_inv (scheduled_output o)
    (zip (merge_sort Z.le (times_of o OutputLevel.High ts)) (merge_sort Z.le (times_of o OutputLevel.Low ts)))
    f Ho Hf) as H1.
  destruct (reserve_all _ _ f) as [f1 [[]|e]]; [by apply IH|done].
Qed.

(** *** What holds between the two halves of the adapter *)

(** Every owned window has its closing transition pending, and every pending closing
    transition its window. *)
Definition coherent (a : Adapter.t) : Prop :=
  wkey <$> windows (frontier a) ≡ₚ tkey <$> lows (pending (queue a)).
Definition adapter_inv (a : Adapter.t) : Prop := scheduler_inv (frontier a) /\ coherent a.

(** The closed state after a cancellation. *)
Definition all_cancelled (a : Adapter.t) : Prop :=
  windows (frontier a) = [] /\ pending (queue a) = []
  /\ SchedulerState.active_horizon_id (frontier a) = None
  /\ SchedulerState.active_permit_mask (frontier a) = SafetyPermitMask.NONE.

Lemma coherent_empty a : windows (frontier a) = [] -> pending (queue a) = [] -> coherent a.
Proof. unfold coherent. by intros -> ->. Qed.

Lemma refresh_mode_windows f : windows (SchedulerState.refresh_mode_from_groups f) = windows f.
Proof. unfold SchedulerState.refresh_mode_from_groups. by repeat case_match. Qed.

Lemma refresh_counts_windows f : windows (SchedulerState.refresh_counts f) = windows f.
Proof. done. Qed.

Lemma set_mode_windows m f : windows (f <| SchedulerState.mode := m |>) = windows f.
Proof. done. Qed.

Lemma clear_ownership_windows f : windows (SchedulerState.clear_scheduled_ownership f) = [].
Proof.
  unfold SchedulerState.clear_scheduled_ownership.
  rewrite refresh_mode_windows, refresh_counts_windows. apply occupied_empty.
Qed.

Lemma clear_live_windows r f :
  windows (SchedulerState.clear_live_frontier_state r f) = windows f.
Proof. done. Qed.

Lemma clear_live_permits r f :
  let f' := SchedulerState.clear_live_frontier_state r f in
  SchedulerState.active_horizon_id f' = None
  /\ SchedulerState.active_permit_mask f' = SafetyPermitMask.NONE.
Proof. done. Qed.

Lemma cancel_reason_cancelled reason a : all_cancelled (cancel_all_with_reason reason a).
Proof.
  unfold all_cancelled, cancel_all_with_reason. cbn [frontier queue].
  rewrite clear_live_windows, clear_ownership_windows.
  split_and!; [done|apply occupied_empty|apply clear_live_permits..].
Qed.

Lemma cancel_reason_inv reason a : scheduler_inv (frontier a) ->
  adapter_inv (cancel_all_with_reason reason a).
Proof.
  intros Hf. destruct (cancel_reason_cancelled reason a) as (Hw & Hp & _).
  split; [|by apply coherent_empty]. simpl.
  apply (scheduler_inv_step (Op.ClearFrontier reason)); [done|].
  by apply (scheduler_inv_step Op.ClearOwnership).
Qed.

Lemma suspend_windows f : windows (SchedulerState.suspend f) = [].
Proof. unfold SchedulerState.suspend. rewrite set_mode_windows. apply clear_ownership_windows. Qed.

Lemma ownership_windows f f' : ownership f' = ownership f -> windows f' = windows f.
Proof. unfold ownership. by intros [= _ _ _ -> _ _]. Qed.

Lemma schedule_output_batch_cases batch a :
  (exists f q, own_outputs (unique_outputs (Batch.iter batch) []) (Batch.iter batch) (frontier a)
      = (f, Ok tt)
    /\ schedule_output_batch batch a = Some (mk q f, Ok tt)
    /\ pending q ≡ₚ (to_transition <$> Batch.iter batch) ++ pending (queue a))
  \/ (exists e, schedule_output_batch batch a = Some (reject a, Err e)).
Proof.
  unfold schedule_output_batch, note_output_batch_ownership.
  destruct (_ <? _); [right; by eexists|].
  destruct (own_outputs _ _ _) as [f [[]|e]] eqn:Ho; [|right; by eexists]. simpl.
  destruct (enqueue_batch_spec (Batch.iter batch) (queue a)) as (q & r & -> & Hp).
  destruct r as [[]|e]; [|right; by eexists]. left. exists f, q. by split_and!; [| |apply Hp].
Qed.

Lemma batch_coherent batch a f q : coherent a ->
  own_outputs (unique_outputs (Batch.iter batch) []) (Batch.iter batch) (frontier a) = (f, Ok tt) ->
  pending q ≡ₚ (to_transition <$> Batch.iter batch) ++ pending (queue a) ->
  coherent (mk q f).
Proof.
  unfold coherent. simpl. intros Hc Ho Hp. rewrite (own_outputs_windows _ _ _ _ Ho), Hc.
  destruct (unique_outputs_spec (Batch.iter batch) [] (NoDup_nil_2)) as [Hnd Hin].
  unfold lows at 2. rewrite Hp, filter_app, fmap_app. fold (lows (to_transition <$> Batch.iter batch)).
  rewrite lows_to_transition. apply Permutation_app_tail.
  rewrite (group_by_output _ _ Hnd). rewrite filter_forall; [done|].
  apply Forall_forall. intros t Ht. apply Hin. right. exists t.
  by apply list_elem_of_filter in Ht as [_ Ht].
Qed.

(** *** Preservation *)
Lemma drained_coherent q q' out' f ts now M : drained_to now M q q' out' ts ->
  wkey <$> windows f ≡ₚ tkey <$> lows (pending q) ->
  coherent (note_drained_ownership out' (mk q' f)).
Proof.
  intros (Hp & _ & (Hle & Hlen & Hbuf) & _) Hf. unfold coherent, note_drained_ownership. simpl.
  assert (occupied (DrainBuffer.as_slice out') = ts) as ->.
  { unfold DrainBuffer.as_slice. rewrite Hlen, Hbuf, Nat2Z.id.
    rewrite take_app_le by (by rewrite length_fmap).
    rewrite take_ge by (by rewrite length_fmap). clear. induction ts as [|t ts IH]; [done|]. rewrite fmap_cons, occupied_cons, IH. done. }
  apply note_all_drained. rewrite Hf. unfold lows. by rewrite Hp, filter_app, fmap_app.
Qed.

Lemma note_all_inv ts f : scheduler_inv f ->
  scheduler_inv (foldl (fun f tr => SchedulerState.note_drained_transition tr f) f ts).
Proof.
  revert f. induction ts as [|tr ts IH]; intros f Hf; [done|]. apply IH.
  by apply (scheduler_inv_step (Op.NoteDrained tr)).
Qed.

Lemma drain_coherent now a out f : adapter_inv a -> scheduler_inv f -> windows f = windows (frontier a) ->
  let '(q', out', n) := Queue.drain_due now (queue a) out in
  adapter_inv (note_drained_ownership out' (mk q' f)).
Proof.
  intros [_ Hc] Hf Hw. unfold coherent in Hc. rewrite <- Hw in Hc.
  destruct (decide (DrainBuffer.capacity out <= 255)) as [Hcap|Hcap].
  - pose proof (drain_due_drained now (queue a) out Hcap) as H.
    destruct (Queue.drain_due now (queue a) out) as [[q' out'] n]. destruct H as (ts & Hd & _).
    split; [by apply note_all_inv|]. by eapply drained_coherent.
  - unfold Queue.drain_due, DrainBuffer.metadata_capacity_supported, DrainBuffer.capacity in *. simpl.
    rewrite length_replicate. destruct (Z.leb_spec (Z.of_nat (length (DrainBuffer.transitions out)))
      MAX_METADATA_CAPACITY) as [Hle|]; [unfold MAX_METADATA_CAPACITY, u8_max in *; lia|]. done.
Qed.

(** The operations of the adapter as steps. *)
Inductive adapter_step : Adapter.t -> Adapter.t -> Prop :=
| step_commit id a b hb mask s : adapter_step s (fst (commit_frontier_horizon id a b hb mask s))
| step_beat now s : adapter_step s (note_frontier_heartbeat now s)
| step_expire now s : adapter_step s (expire_frontier now s)
| step_sync_loss s : adapter_step s (on_sync_loss s)
| step_shutdown s : adapter_step s (on_hard_safety_shutdown s)
| step_cancel reason s : adapter_step s (cancel_all_with_reason reason s)
| step_drain now out s : adapter_step s (fst (fst (drain_due now s out)))
| step_drain_frontier now out s : adapter_step s (fst (fst (drain_due_with_frontier now s out)))
| step_batch batch s s' r : batch_ok batch ->
    schedule_output_batch batch s = Some (s', r) -> adapter_step s s'
| step_lowered cancel batch s s' r : batch_ok batch ->
    apply_lowered cancel batch s = Some (s', r) -> adapter_step s s'
| step_apply {P} `{ScheduledPin P} now out (pins : Pins.t P) s :
    adapter_step s (fst (fst (fst (drain_and_apply_due now s out pins)))).

Lemma adapter_inv_frontier a f : adapter_inv a -> scheduler_inv f -> ownership f = ownership (frontier a) ->
  adapter_inv (a <| frontier := f |>).
Proof.
  intros [_ Hc] Hf Ho. split; [done|]. unfold coherent in *. simpl.
  by rewrite (ownership_windows _ _ Ho).
Qed.

Lemma adapter_inv_drain now a out : adapter_inv a -> adapter_inv (fst (fst (drain_due now a out))).
Proof.
  intros Ha. pose proof (drain_coherent now a out (frontier a) Ha (proj1 Ha) eq_refl) as H.
  unfold drain_due. by destruct (Queue.drain_due now (queue a) out) as [[q' out'] n].
Qed.

Lemma adapter_inv_drain_frontier now a out : adapter_inv a ->
  adapter_inv (fst (fst (drain_due_with_frontier now a out))).
Proof.
  intros Ha. unfold drain_due_with_frontier, Queue.drain_due_with_frontier. simpl.
  set (f := SchedulerState.expire_frontier now (frontier a)).
  assert (scheduler_inv f) as Hf by (apply (scheduler_inv_step (Op.ExpireFrontier now)); [done|apply Ha]).
  assert (windows f = windows (frontier a)) as Hw
    by apply ownership_windows, expire_frontier_ownership.
  destruct (bool_decide (SchedulerState.active_horizon_id f = None)
    || SafetyPermitMask.is_empty (SchedulerState.active_permit_mask f)) eqn:Hdead.
  - rewrite Hdead. simpl. split; simpl.
    + exact (scheduler_inv_step Op.ClearOwnership f I Hf).
    + apply coherent_empty; [|simpl; apply occupied_empty]. apply (clear_ownership_windows f).
  - pose proof (drain_coherent now a out f Ha Hf Hw) as H.
    destruct (Queue.drain_due now (queue a) out) as [[q' out'] n]. simpl.
    by rewrite Hdead, andb_false_r.
Qed.

Lemma adapter_inv_reject a : adapter_inv a -> adapter_inv (reject a).
Proof. intros Ha. unfold reject. destruct (has_live_frontier a); [|done]. apply cancel_reason_inv, Ha. Qed.

Lemma adapter_inv_batch batch a a' r : batch_ok batch -> adapter_inv a ->
  schedule_output_batch batch a = Some (a', r) -> adapter_inv a'.
Proof.
  intros Hok Ha Hs.
  destruct (schedule_output_batch_cases batch a) as [(f & q & Ho & Hs' & Hp)|[e Hs']];
    rewrite Hs' in Hs; simplify_eq; [|by apply adapter_inv_reject].
  split; [|by eapply batch_coherent; [apply Ha|..]]. simpl.
  pose proof (own_outputs_inv (unique_outputs (Batch.iter batch) []) (Batch.iter batch) (frontier a))
    as H. rewrite Ho in H. apply H; [|apply Ha].
  apply Forall_forall. intros o Hin.
  destruct (unique_outputs_spec (Batch.iter batch) [] (NoDup_nil_2)) as [_ Hu].
  apply Hu in Hin as [Hin|(t & Ht & <-)]; [by apply elem_of_nil in Hin|].
  unfold batch_ok in Hok. rewrite Forall_forall in Hok. by apply Hok.
Qed.

Lemma adapter_inv_apply {P} `{ScheduledPin P} now a out (pins : Pins.t P) : adapter_inv a ->
  adapter_inv (fst (fst (fst (drain_and_apply_due now a out pins)))).
Proof.
  intros Ha. unfold drain_and_apply_due.
  pose proof (adapter_inv_drain now a out Ha) as Hd.
  pose proof (adapter_inv_drain_frontier now a out Ha) as Hdf.
  destruct (SchedulerState.last_accepted_horizon_id (frontier a)).
  - destruct (drain_due_with_frontier now a out) as [[a' out'] n]. simpl in *.
    destruct (Pins.apply_drained_transitions out' pins) as [pins' [k|e]]; [done|]. simpl.
    destruct (has_live_frontier a); [|done]. apply cancel_reason_inv, Hdf.
  - destruct (drain_due now a out) as [[a' out'] n]. simpl in *.
    destruct (Pins.apply_drained_transitions out' pins) as [pins' [k|e]]; [done|]. simpl.
    destruct (has_live_frontier a); [|done]. apply cancel_reason_inv, Hd.
Qed.

Lemma adapter_inv_lowered cancel batch a a' r : batch_ok batch -> adapter_inv a ->
  apply_lowered cancel batch a = Some (a', r) -> adapter_inv a'.
Proof.
  unfold apply_lowered. intros Hok Ha Hs.
  set (scratch := match cancel with Some reason => cancel_all_with_reason (map_cancel_reason reason) a
    | None => a end) in *.
  assert (adapter_inv scratch) as Hscr.
  { unfold scratch. destruct cancel; [apply cancel_reason_inv, Ha|done]. }
  destruct (schedule_output_batch batch scratch) as [[s1 [[]|e]]|] eqn:Hb; simplify_eq;
    [by eapply adapter_inv_batch|by apply adapter_inv_reject].
Qed.

Lemma adapter_inv_step a a' : adapter_inv a -> adapter_step a a' -> adapter_inv a'.
Proof.
  intros Ha Hstep. destruct Hstep as [id x y hb mask a|now a|now a|a|a|reason a|now out a|now out a
    |batch a a' r Hok Hs|cancel batch a a' r Hok Hs|P Hpin now out pins a].
  - pose proof (scheduler_inv_step (Op.CommitHorizon id x y hb mask) (frontier a) I (proj1 Ha)) as Hf.
    pose proof (commit_horizon_ownership id x y hb mask (frontier a)) as Ho. cbn [step] in Hf.
    unfold commit_frontier_horizon.
    destruct (SchedulerState.commit_horizon _ _ _ _ _ _) as [f ok]. by apply adapter_inv_frontier.
  - apply (adapter_inv_frontier a); [done| |apply note_heartbeat_ownership].
    apply (scheduler_inv_step (Op.NoteHeartbeat now)); [done|apply Ha].
  - apply (adapter_inv_frontier a); [done| |apply expire_frontier_ownership].
    apply (scheduler_inv_step (Op.ExpireFrontier now)); [done|apply Ha].
  - split; [apply (scheduler_inv_step Op.SyncLoss); [done|apply Ha]|].
    apply coherent_empty; [apply suspend_windows|simpl; apply occupied_empty].
  - split; [apply (scheduler_inv_step Op.HardSafetyShutdown); [done|apply Ha]|].
    apply coherent_empty; [apply suspend_windows|simpl; apply occupied_empty].
  - apply cancel_reason_inv, Ha.
  - by apply adapter_inv_drain.
  - by apply adapter_inv_drain_frontier.
  - by eapply adapter_inv_batch.
  - by eapply adapter_inv_lowered.
  - by apply adapter_inv_apply.
Qed.

Definition adapter_reachable (N : nat) (a : Adapter.t) : Prop := rtc adapter_step (Adapter.new N) a.

Lemma adapter_inv_new N : adapter_inv (Adapter.new N).
Proof.
  split; [apply scheduler_inv_new|]. apply coherent_empty; [done|apply occupied_empty].
Qed.

Lemma adapter_inv_reachable N a : adapter_reachable N a -> adapter_inv a.
Proof.
  unfold adapter_reachable. intros Hr.
  assert (forall b, adapter_inv b -> rtc adapter_step b a -> adapter_inv a) as H.
  { intros b Hb Hba. induction Hba as [b|b c d Hs Hcd IH]; [done|]. by eapply IH, adapter_inv_step. }
  apply (H (Adapter.new N)); [apply adapter_inv_new|done].
Qed.

(** ** Properties *)

(** C12: in every state the adapter can reach through its operations, the windows that own
    output channels are, as a multiset of outputs and end times, exactly the closing
    transitions pending in the queue; so nothing stays owned once its closing transition
    has been drained or discarded, and nothing pending is unowned. *)
Theorem adapter_ownership_coherent N a : adapter_reachable N a ->
  (wkey <$> windows (frontier a) ≡ₚ tkey <$> lows (pending (queue a)))
  /\ scheduler_inv (frontier a)
  /\ (pending (queue a) = [] -> forall g, SchedulerState.reserved (frontier a) g = 0).
Proof.
  intros Hr. destruct (adapter_inv_reachable N a Hr) as [Hs Hc]. split; [done|]. split; [done|].
  intros Hp g. unfold coherent in Hc. rewrite Hp in Hc. simpl in Hc.
  assert (windows (frontier a) = []) as Hw by (by apply Permutation_nil_r, fmap_nil_inv in Hc).
  destruct Hs as [Hown _]. apply reserved_zero_iff. intros c Hcc. apply not_true_is_false.
  rewrite (own_reserved _ Hown g c Hcc), Hw. intros (w & Hin & _). by apply elem_of_nil in Hin.
Qed.

(** C11: admitting a batch of board output transitions never panics and is all or nothing:
    on success exactly the batch's transitions join the queue; on any refusal the adapter
    is unchanged when no horizon is live, and fails closed when one is, with no window,
    no pending transition and no permit left and the rejection recorded. *)
Theorem schedule_output_batch_atomic batch a :
  exists a' r, schedule_output_batch batch a = Some (a', r)
    /\ match r with
       | Ok _ => pending (queue a') ≡ₚ (to_transition <$> Batch.iter batch) ++ pending (queue a)
       | Err _ =>
         if has_live_frontier a
         then all_cancelled a'
              /\ SchedulerState.active_stop_reason (frontier a') = StopReason.AdmittedEventRejected
         else a' = a
       end.
Proof.
  destruct (schedule_output_batch_cases batch a) as [(f & q & _ & -> & Hp)|[e ->]].
  - eexists _, _. by split; [done|].
  - eexists _, _. split; [done|]. unfold reject.
    destruct (has_live_frontier a); [|done]. split; [apply cancel_reason_cancelled|done].
Qed.

(** Applying transitions to the pins in order, all channels being in range. *)
Section PinLemmas.
Context {P : Type} `{ScheduledPin P}.

Definition in_range (pins : Pins.t P) (tr : Transition.t) : Prop :=
  Transition.channel tr < Z.of_nat (length
    match Transition.kind tr with
    | TransitionKind.Injector => Pins.injectors pins
    | TransitionKind.Ignition => Pins.ignition pins
    end).

Lemma validate_all_spec slots (pins : Pins.t P) :
  match Pins.validate_all slots pins with
  | Ok _ => Forall (in_range pins) (occupied slots)
  | Err e => exists tr, tr ∈ occupied slots /\ ~ in_range pins tr
      /\ e = match Transition.kind tr with
             | TransitionKind.Injector => ApplyError.InjectorChannelOutOfRange (Transition.channel tr)
             | TransitionKind.Ignition => ApplyError.IgnitionChannelOutOfRange (Transition.channel tr)
             end
  end.
Proof.
  induction slots as [|[tr|] slots IH]; simpl; rewrite ?occupied_cons; [constructor| |done].
  simpl. unfold Pins.validate_transition, in_range in *.
  destruct (Transition.kind tr) eqn:Hk.
  - destruct (Z.leb_spec (Z.of_nat (length (Pins.injectors pins))) (Transition.channel tr)); simpl.
    + exists tr. rewrite Hk. split_and!; [left|lia|done].
    + destruct (Pins.validate_all slots pins); [constructor; [rewrite Hk; lia|done]|].
      destruct IH as (u & Hu & ?). exists u. split; [by right|done].
  - destruct (Z.leb_spec (Z.of_nat (length (Pins.ignition pins))) (Transition.channel tr)); simpl.
    + exists tr. rewrite Hk. split_and!; [left|lia|done].
    + destruct (Pins.validate_all slots pins); [constructor; [rewrite Hk; lia|done]|].
      destruct IH as (u & Hu & ?). exists u. split; [by right|done].
Qed.

Lemma apply_transition_shape tr (pins : Pins.t P) : 0 <= Transition.channel tr -> in_range pins tr ->
  exists pins' r, Pins.apply_transition tr pins = (pins', r)
    /\ length (Pins.injectors pins') = length (Pins.injectors pins)
    /\ length (Pins.ignition pins') = length (Pins.ignition pins)
    /\ match r with
       | Ok _ => True
       | Err e => exists pe, e = ApplyError.PinWrite (Transition.kind tr) (Transition.channel tr)
           (Transition.level tr) pe
       end.
Proof.
  unfold in_range, Pins.apply_transition. intros Hc Hr.
  destruct (Transition.kind tr).
  - destruct (lookup_lt_is_Some_2 (Pins.injectors pins) (Z.to_nat (Transition.channel tr))) as [pin ->];
      [lia|]. destruct (Pins.write _ pin) as [pin' r]. eexists _, _. split; [done|]. simpl.
    rewrite length_insert. split_and!; [done..|]. destruct r; [done|by eexists].
  - destruct (lookup_lt_is_Some_2 (Pins.ignition pins) (Z.to_nat (Transition.channel tr))) as [pin ->];
      [lia|]. destruct (Pins.write _ pin) as [pin' r]. eexists _, _. split; [done|]. simpl.
    rewrite length_insert. split_and!; [done..|]. destruct r; [done|by eexists].
Qed.

Lemma apply_all_spec slots (pins : Pins.t P) n :
  Forall (in_range pins) (occupied slots) ->
  Forall (fun tr => 0 <= Transition.channel tr) (occupied slots) ->
  match snd (Pins.apply_all slots pins n) with
  | Ok k => k = n + Z.of_nat (length (occupied slots))
  | Err e => exists tr pe, tr ∈ occupied slots /\
      e = ApplyError.PinWrite (Transition.kind tr) (Transition.channel tr) (Transition.level tr) pe
  end.
Proof.
  revert pins n. induction slots as [|[tr|] slots IH]; intros pins n Hr Hc;
    rewrite ?occupied_cons in *; simpl in *; [lia| |by apply IH].
  inversion_clear Hr as [|? ? Htr Hrs]. inversion_clear Hc as [|? ? Hct Hcs].
  destruct (apply_transition_shape tr pins Hct Htr) as (pins' & r & -> & Hl1 & Hl2 & Hres).
  destruct r as [?|e].
  - assert (Forall (in_range pins') (occupied slots)) as Hr'.
    { eapply Forall_impl; [exact Hrs|]. intros u. unfold in_range.
      by destruct (Transition.kind u); rewrite ?Hl1, ?Hl2. }
    specialize (IH pins' (n + 1) Hr' Hcs). destruct (Pins.apply_all slots pins' (n + 1)) as [p [k|e]];
      simpl in *; [lia|]. destruct IH as (u & pe & Hu & ->). exists u, pe. split; [by right|done].
  - simpl. destruct Hres as [pe ->]. exists tr, pe. split; [left|done].
Qed.

(** drained transitions are checked against the pin banks before any pin is touched: a
    channel out of range is reported with the pins as they were; otherwise every drained
    transition is applied and counted, unless a pin driver itself reports an error, which
    names the transition that failed. *)
Theorem drained_transitions_checked_first drained (pins : Pins.t P) :
  Forall (fun tr => 0 <= Transition.channel tr) (occupied (DrainBuffer.as_slice drained)) ->
  let '(pins', r) := Pins.apply_drained_transitions drained pins in
  let ts := occupied (DrainBuffer.as_slice drained) in
  match r with
  | Ok n => Forall (in_range pins) ts /\ n = Z.of_nat (length ts)
  | Err (ApplyError.PinWrite kind channel level _) =>
      Forall (in_range pins) ts
      /\ exists tr, tr ∈ ts /\ Transition.kind tr = kind /\ Transition.channel tr = channel
           /\ Transition.level tr = level
  | Err _ => pins' = pins /\ exists tr, tr ∈ ts /\ ~ in_range pins tr
  end.
Proof.
  intros Hc. unfold Pins.apply_drained_transitions.
  pose proof (validate_all_spec (DrainBuffer.as_slice drained) pins) as Hv.
  destruct (Pins.validate_all (DrainBuffer.as_slice drained) pins) as [?|e].
  - pose proof (apply_all_spec (DrainBuffer.as_slice drained) pins 0 Hv Hc) as Ha.
    destruct (Pins.apply_all _ pins 0) as [pins' [k|e]]; simpl in Ha; [split; [done|lia]|].
    destruct Ha as (tr & pe & Htr & ->). split; [done|]. by exists tr.
  - destruct Hv as (tr & Htr & Hr & ->). by destruct (Transition.kind tr); split_and!; [|exists tr| |exists tr].
Qed.

(** when applying the drained transitions fails while a horizon was live before the
    drain, the adapter is left with no window, no pending transition, no live horizon
    and no permit, and the board fault is recorded as the reason. *)
Theorem apply_failure_fails_closed now a out (pins : Pins.t P) :
  let result := drain_and_apply_due now a out pins in
  let a' := fst (fst (fst result)) in
  is_ok (snd result) = false -> has_live_frontier a = true ->
  all_cancelled a' /\ SchedulerState.active_stop_reason (frontier a') = StopReason.BoardOutputFault.
Proof.
  cbv zeta. unfold drain_and_apply_due. destruct (match _ with Some _ => _ | None => _ end) as [[a1 out1] n].
  destruct (Pins.apply_drained_transitions out1 pins) as [pins' [k|e]]; [done|].
  intros _ ->. split; [apply cancel_reason_cancelled|done].
Qed.
End PinLemmas.

(** ** Witnesses *)

(** A pin that remembers its level, or refuses every write when [broken]. *)
Module SamplePin.
Record t := mk { broken : bool; high : bool }.
Definition set (b : bool) (e : PinError.t) (p : t) : t * Result unit PinError.t :=
  if broken p then (p, Err e) else (mk false b, Ok tt).
#[global] Instance scheduled : ScheduledPin t := {
  try_set_scheduled_high := set true PinError.SetHigh;
  try_set_scheduled_low := set false PinError.SetLow;
}.
End SamplePin.

Definition sample_batch : Batch.t OutputTransition.t :=
  fst (push_all
    [OutputTransition.mk (EcuOutput.Injector 1) OutputLevel.High 100;
     OutputTransition.mk (EcuOutput.Ignition 0) OutputLevel.High 150;
     OutputTransition.mk (EcuOutput.Injector 1) OutputLevel.Low 200;
     OutputTransition.mk (EcuOutput.Ignition 0) OutputLevel.Low 250]
    (Batch.new OutputTransition.EMPTY 4)).

(** The adapter after a horizon is committed and the batch is admitted. *)
Definition sample_adapter : Adapter.t :=
  let a := fst (commit_frontier_horizon 1 50 5000 8000 3 (Adapter.new 8)) in
  match schedule_output_batch sample_batch a with Some (a, _) => a | None => a end.

Example schedule_output_batch_atomic_witness :
  pending (queue sample_adapter) = to_transition <$> Batch.iter sample_batch
  /\ exists a' r, schedule_output_batch sample_batch sample_adapter = Some (a', r)
    /\ match r with
       | Ok _ => pending (queue a') ≡ₚ
           (to_transition <$> Batch.iter sample_batch) ++ pending (queue sample_adapter)
       | Err _ =>
         if has_live_frontier sample_adapter
         then all_cancelled a'
              /\ SchedulerState.active_stop_reason (frontier a') = StopReason.AdmittedEventRejected
         else a' = sample_adapter
       end.
Proof. split; [by vm_compute|apply (schedule_output_batch_atomic sample_batch sample_adapter)]. Defined.

Lemma sample_adapter_reachable : adapter_reachable 8 sample_adapter.
Proof.
  eapply rtc_l; [apply (step_commit 1 50 5000 8000 3)|]. apply rtc_once.
  eapply (step_batch sample_batch); [|by vm_compute].
  unfold batch_ok, ochannel_ok. by repeat constructor.
Qed.

Example adapter_ownership_coherent_witness :
  adapter_reachable 8 sample_adapter
  /\ (wkey <$> windows (frontier sample_adapter) ≡ₚ tkey <$> lows (pending (queue sample_adapter)))
  /\ length (windows (frontier sample_adapter)) = 2%nat.
Proof.
  assert (length (windows (frontier sample_adapter)) = 2%nat) as Hl by (by vm_compute).
  exact (conj sample_adapter_reachable
    (conj (proj1 (adapter_ownership_coherent 8 sample_adapter sample_adapter_reachable)) Hl)).
Defined.

Definition sample_pins (broken : bool) : Pins.t SamplePin.t :=
  Pins.mk [SamplePin.mk broken false; SamplePin.mk broken false] [SamplePin.mk false false].

Example drained_transitions_checked_first_witness :
  let drained := snd (fst (Adapter.drain_due 210 sample_adapter (DrainBuffer.new 4))) in
  let ts := occupied (DrainBuffer.as_slice drained) in
  length ts = 3%nat
  /\ let '(pins', r) := Pins.apply_drained_transitions drained (sample_pins false) in
     match r with
     | Ok n => Forall (in_range (sample_pins false)) ts /\ n = Z.of_nat (length ts)
     | Err (ApplyError.PinWrite kind channel level _) =>
         Forall (in_range (sample_pins false)) ts
         /\ exists tr, tr ∈ ts /\ Transition.kind tr = kind /\ Transition.channel tr = channel
              /\ Transition.level tr = level
     | Err _ => pins' = sample_pins false /\ exists tr, tr ∈ ts /\ ~ in_range (sample_pins false) tr
     end.
Proof.
  split; [by vm_compute|].
  apply (drained_transitions_checked_first
    (snd (fst (Adapter.drain_due 210 sample_adapter (DrainBuffer.new 4)))) (sample_pins false)).
  vm_compute. by repeat constructor.
Defined.

Example apply_failure_fails_closed_witness :
  let result := drain_and_apply_due 210 sample_adapter (DrainBuffer.new 4) (sample_pins true) in
  let a' := fst (fst (fst result)) in
  is_ok (snd result) = false /\ has_live_frontier sample_adapter = true
  /\ all_cancelled a' /\ SchedulerState.active_stop_reason (frontier a') = StopReason.BoardOutputFault.
Proof.
  cbv zeta.
  assert (is_ok (snd (drain_and_apply_due 210 sample_adapter (DrainBuffer.new 4) (sample_pins true)))
    = false) as Hr by (by vm_compute).
  assert (has_live_frontier sample_adapter = true) as Hl by (by vm_compute).
  exact (conj Hr (conj Hl
    (apply_failure_fails_closed 210 sample_adapter (DrainBuffer.new 4) (sample_pins true) Hr Hl))).
Defined.
