(* ===== verification/Planner.v ===== *)
(** * Angle-domain planners (crates/scheduler/src/planner.rs)

    From a crank snapshot and a spark or fuel intent to a timed plan: the angle left
    to the event, the time it takes at the engine speed, and the output window. *)
From S2P Require Import Prelude Domain BoardApi SchedTypes Queue SchedState Scheduler.

Definition ENGINE_CYCLE_DEGREES10 : Z := CRANK_REV_DEGREES10 * 2.

Definition norm_deg10 (value modulo : Z) : Z := as_unsigned 16 (value mod modulo).

Definition forward_angle_delta_deg10 (current target modulo : Z) : Z :=
  if current <? target then target - current else modulo - current + target.

Definition micros_for_angle_delta (delta_deg10 rpm : Z) : Z :=
  if rpm =? 0 then 0
  else
    let micros := 60000000 * delta_deg10 / (CRANK_REV_DEGREES10 * rpm) in
    as_unsigned 32 (clamp micros 1 u32_max).

(** The 32-bit product wraps, as it does in a release build. *)
Definition full_cycle_slot_angle_deg10 (event_index event_count : Z) : Z :=
  let events := as_unsigned 32 (Z.max event_count 1) in
  let slot := as_unsigned 32 (event_index mod Z.max event_count 1) in
  as_unsigned 16 (as_unsigned 32 (slot * ENGINE_CYCLE_DEGREES10) / events).

Module IgnitionScheduler.
Record t := mk { profile : SparkOutputProfile.t }.

Definition event_count (p : t) : Z := SparkOutputProfile.events_per_crank_rev (profile p).

Definition plan_event (p : t) (crank : CrankSnapshot.t) (event_index : Z) (spark : SparkPlan.t) :
    TimedIgnitionPlan.t :=
  let now := CrankSnapshot.now_us crank in
  let tdc := SparkOutputProfile.event_tdc_angle_deg10 (profile p) event_index in
  let target := norm_deg10 (tdc - SparkPlan.advance spark) CRANK_REV_DEGREES10 in
  let current := norm_deg10 (CrankSnapshot.angle_deg10 crank) CRANK_REV_DEGREES10 in
  let delta := forward_angle_delta_deg10 current target CRANK_REV_DEGREES10 in
  let spark_delay_us := micros_for_angle_delta delta (CrankSnapshot.rpm crank) in
  let spark_at := saturating_add 32 now spark_delay_us in
  let dwell_us := SparkPlan.dwell spark in
  let earliest_start := saturating_add 32 now 1 in
  let dwell_start :=
    if dwell_us <? spark_delay_us then saturating_add 32 now (spark_delay_us - dwell_us)
    else earliest_start in
  let fire_at := if dwell_start <? spark_at then spark_at else saturating_add 32 dwell_start 1 in
  TimedIgnitionPlan.mk
    (IgnitionPlan.mk
      (ExclusiveChannel.mk OutputGroup.Ignition
        (SparkOutputProfile.ignition_channel (profile p) event_index))
      (SparkPlan.dwell spark) (SparkPlan.advance spark))
    dwell_start fire_at.
End IgnitionScheduler.

Module InjectionScheduler.
Record t := mk { profile : FuelOutputProfile.t }.

Definition event_count (p : t) : Z := FuelOutputProfile.events_per_pulse (profile p).

Definition plan_event (p : t) (crank : CrankSnapshot.t) (event_index : Z) (fuel : FuelPlan.t) :
    TimedInjectionPlan.t :=
  let now := CrankSnapshot.now_us crank in
  let event_count := as_unsigned 32 (Z.max (event_count p) 1) in
  let rev_slot_deg10 := as_unsigned 16 (Z.max (CRANK_REV_DEGREES10 / event_count) 1) in
  let current := norm_deg10 (CrankSnapshot.angle_deg10 crank) CRANK_REV_DEGREES10 in
  let target := as_unsigned 16 (as_unsigned 32 event_index mod event_count * rev_slot_deg10) in
  let delta := forward_angle_delta_deg10 current target CRANK_REV_DEGREES10 in
  let start_delay_us := micros_for_angle_delta (Z.max delta 1) (CrankSnapshot.rpm crank) in
  let start_at := saturating_add 32 now start_delay_us in
  let end_at :=
    Z.max (saturating_add 32 start_at (FuelPlan.pulse_width fuel)) (saturating_add 32 start_at 1) in
  TimedInjectionPlan.mk
    (InjectionPlan.mk
      (ExclusiveChannel.mk OutputGroup.Injector
        (FuelOutputProfile.injector_channel (profile p) event_index))
      (FuelPlan.pulse_width fuel))
    start_at end_at.
End InjectionScheduler.

Module FullEcuIgnitionScheduler.
Record t := mk { profile : IgnitionOutputProfile.t; event_count : Z }.

Definition plan_event (p : t) (crank : CrankSnapshot.t) (event_index : Z) (spark : SparkPlan.t) :
    TimedIgnitionPlan.t :=
  let now := CrankSnapshot.now_us crank in
  let tdc := full_cycle_slot_angle_deg10 event_index (event_count p) in
  let target := norm_deg10 (tdc - SparkPlan.advance spark) ENGINE_CYCLE_DEGREES10 in
  let current := norm_deg10 (CrankSnapshot.angle_deg10 crank) ENGINE_CYCLE_DEGREES10 in
  let delta := forward_angle_delta_deg10 current target ENGINE_CYCLE_DEGREES10 in
  let spark_delay_us := micros_for_angle_delta delta (CrankSnapshot.rpm crank) in
  let spark_at := saturating_add 32 now spark_delay_us in
  let dwell_us := SparkPlan.dwell spark in
  let earliest_start := saturating_add 32 now 1 in
  let dwell_start :=
    if dwell_us <? spark_delay_us then saturating_add 32 now (spark_delay_us - dwell_us)
    else earliest_start in
  let fire_at := if dwell_start <? spark_at then spark_at else saturating_add 32 dwell_start 1 in
  TimedIgnitionPlan.mk
    (IgnitionPlan.mk
      (ExclusiveChannel.mk OutputGroup.Ignition
        (IgnitionOutputProfile.ignition_channel (profile p) event_index))
      (SparkPlan.dwell spark) (SparkPlan.advance spark))
    dwell_start fire_at.
End FullEcuIgnitionScheduler.

Module FullEcuInjectionScheduler.
Record t := mk { profile : InjectionOutputProfile.t }.

Definition event_count (p : t) : Z := InjectionOutputProfile.event_count (profile p).

Definition plan_event (p : t) (crank : CrankSnapshot.t) (event_index : Z) (fuel : FuelPlan.t) :
    TimedInjectionPlan.t :=
  let now := CrankSnapshot.now_us crank in
  let event_count := event_count p in
  let current := norm_deg10 (CrankSnapshot.angle_deg10 crank) ENGINE_CYCLE_DEGREES10 in
  let target := full_cycle_slot_angle_deg10 event_index event_count in
  let delta := forward_angle_delta_deg10 current target ENGINE_CYCLE_DEGREES10 in
  let start_delay_us := micros_for_angle_delta (Z.max delta 1) (CrankSnapshot.rpm crank) in
  let start_at := saturating_add 32 now start_delay_us in
  let end_at :=
    Z.max (saturating_add 32 start_at (FuelPlan.pulse_width fuel)) (saturating_add 32 start_at 1) in
  TimedInjectionPlan.mk
    (InjectionPlan.mk
      (ExclusiveChannel.mk OutputGroup.Injector
        (InjectionOutputProfile.injector_channel (profile p) event_index))
      (FuelPlan.pulse_width fuel))
    start_at end_at.
End FullEcuInjectionScheduler.

(** ** Lemmas *)
Definition crank_wf (c : CrankSnapshot.t) : Prop :=
  u32 (CrankSnapshot.now_us c) /\ u16 (CrankSnapshot.rpm c) /\ i16 (CrankSnapshot.angle_deg10 c).
Definition spark_wf (s : SparkPlan.t) : Prop := u16 (SparkPlan.dwell s) /\ i16 (SparkPlan.advance s).

Lemma norm_deg10_mod v m : 0 < m <= 65536 -> norm_deg10 v m = v mod m /\ 0 <= v mod m < m.
Proof.
  intros Hm. pose proof (Z.mod_pos_bound v m ltac:(lia)). split; [|done].
  apply as_unsigned_small. unfold fits. lia.
Qed.

(** The forward distance is in (0, m] and lands on the target. *)
Lemma forward_delta_spec cur tgt m : 0 < m -> 0 <= cur < m -> 0 <= tgt < m ->
  let d := forward_angle_delta_deg10 cur tgt m in 1 <= d <= m /\ (cur + d) mod m = tgt.
Proof.
  intros Hm Hc Ht. unfold forward_angle_delta_deg10. destruct (Z.ltb_spec cur tgt); (split; [lia|]).
  - replace (cur + (tgt - cur)) with tgt by lia. by apply Z.mod_small.
  - replace (cur + (m - cur + tgt)) with (tgt + 1 * m) by lia.
    rewrite Z.mod_add by lia. by apply Z.mod_small.
Qed.

(** The time the crank needs for [delta] tenths of a degree at [rpm], in whole
    microseconds and at least one. *)
Definition time_for (delta rpm : Z) : Z := Z.max 1 (60000000 * delta / (CRANK_REV_DEGREES10 * rpm)).

(** The longest delay: a full engine cycle at one revolution per minute. *)
Definition MAX_DELAY_US : Z := 120000000.

Lemma micros_for_angle_delta_spec delta rpm : 1 <= delta <= ENGINE_CYCLE_DEGREES10 -> 0 < rpm ->
  micros_for_angle_delta delta rpm = time_for delta rpm /\ 1 <= time_for delta rpm <= MAX_DELAY_US.
Proof.
  unfold ENGINE_CYCLE_DEGREES10, micros_for_angle_delta, time_for, CRANK_REV_DEGREES10, MAX_DELAY_US.
  intros Hd Hr. destruct (Z.eqb_spec rpm 0); [lia|]. cbv zeta.
  assert (0 <= 60000000 * delta / (3600 * rpm) <= 120000000) as Hq.
  { split; [apply Z.div_pos; lia|]. apply Z.div_le_upper_bound; nia. }
  split; [|lia]. rewrite as_unsigned_small.
  - unfold clamp, u32_max. repeat case_match; to_prop; lia.
  - unfold fits, clamp, u32_max. repeat case_match; to_prop; lia.
Qed.

(** The window of a spark [delay] away with [dwell] microseconds of dwell. *)
Definition spark_window (now delay dwell start fire : Z) : Prop :=
  now < start < fire
  /\ (dwell < delay -> start = now + (delay - dwell) /\ fire = Z.max (now + delay) (start + 1))
  /\ (delay <= dwell -> start = now + 1 /\ fire = Z.max (now + delay) (now + 2)).

Lemma spark_window_computed now delay dwell : 0 <= dwell -> 1 <= delay -> now + delay + 2 <= u32_max ->
  let start := if dwell <? delay then saturating_add 32 now (delay - dwell)
    else saturating_add 32 now 1 in
  let fire := if start <? saturating_add 32 now delay then saturating_add 32 now delay
    else saturating_add 32 start 1 in
  spark_window now delay dwell start fire.
Proof.
  unfold spark_window, saturating_add, u32_max. intros Hd Hl Hs. change (2 ^ 32 - 1) with 4294967295.
  destruct (Z.ltb_spec dwell delay).
  - rewrite !Z.min_l by lia. case_match; to_prop; lia.
  - rewrite !(Z.min_l (now + _)) by lia. case_match; to_prop; lia.
Qed.

(** Where the crank stands when an event is [delta] tenths of a degree ahead of the
    current [angle] and due at [target], both modulo [m]. *)
Definition ahead (m angle target delta : Z) : Prop :=
  1 <= delta <= m /\ (angle + delta) mod m = target mod m.

Lemma delta_ahead m angle target : 0 < m <= 65536 ->
  ahead m angle target (forward_angle_delta_deg10 (norm_deg10 angle m) (norm_deg10 target m) m).
Proof.
  intros Hm. destruct (norm_deg10_mod angle m Hm) as [-> Ha].
  destruct (norm_deg10_mod target m Hm) as [-> Ht].
  destruct (forward_delta_spec (angle mod m) (target mod m) m) as [Hd He]; [lia|done..|].
  split; [done|]. by rewrite Zplus_mod_idemp_l in He.
Qed.

Lemma full_cycle_slot_spec i n : 0 <= i -> 0 <= n <= FULL_ECU_MAX_CYLINDERS ->
  full_cycle_slot_angle_deg10 i n = (i mod Z.max n 1) * ENGINE_CYCLE_DEGREES10 / Z.max n 1
  /\ 0 <= full_cycle_slot_angle_deg10 i n < ENGINE_CYCLE_DEGREES10.
Proof.
  unfold FULL_ECU_MAX_CYLINDERS, full_cycle_slot_angle_deg10, ENGINE_CYCLE_DEGREES10,
    CRANK_REV_DEGREES10. change (3600 * 2) with 7200. intros Hi Hn. cbv zeta.
  set (e := Z.max n 1). assert (1 <= e <= 8) as He by lia.
  pose proof (Z.mod_pos_bound i e ltac:(lia)) as Hs.
  assert (0 <= i mod e * 7200 / e < 7200) as Hq.
  { split; [apply Z.div_pos; lia|]. apply Z.div_lt_upper_bound; nia. }
  rewrite (as_unsigned_small 32 e), (as_unsigned_small 32 (i mod e)) by (unfold fits; lia).
  rewrite (as_unsigned_small 32 (_ * _)) by (unfold fits; nia).
  rewrite as_unsigned_small by (unfold fits; lia). done.
Qed.

(** The slot of a pulse in the revolution. *)
Lemma rev_slot_spec i n : u32 i -> 1 <= n <= FULL_ECU_MAX_CYLINDERS ->
  as_unsigned 16 (as_unsigned 32 i mod as_unsigned 32 (Z.max n 1)
    * as_unsigned 16 (Z.max (CRANK_REV_DEGREES10 / as_unsigned 32 (Z.max n 1)) 1))
  = i mod n * (CRANK_REV_DEGREES10 / n)
  /\ 0 <= i mod n * (CRANK_REV_DEGREES10 / n) < CRANK_REV_DEGREES10.
Proof.
  unfold FULL_ECU_MAX_CYLINDERS, CRANK_REV_DEGREES10. intros Hi Hn. rewrite (Z.max_l n 1) by lia.
  rewrite (as_unsigned_small 32 i) by done. rewrite (as_unsigned_small 32 n) by (unfold fits; lia).
  pose proof (Z.mod_pos_bound i n ltac:(lia)).
  assert (450 <= 3600 / n <= 3600) as Hq
    by (split; [apply Z.div_le_lower_bound; lia|apply Z.div_le_upper_bound; nia]).
  pose proof (Z.mul_div_le 3600 n ltac:(lia)).
  rewrite (Z.max_l _ 1) by lia. rewrite (as_unsigned_small 16 (3600 / n)) by (unfold fits; lia).
  rewrite as_unsigned_small by (unfold fits; nia). split; [done|nia].
Qed.

(** The window of a pulse starting [delay] from now. *)
Definition pulse_window (now delay width start finish : Z) : Prop :=
  start = now + delay /\ finish = start + Z.max width 1.

Lemma pulse_window_computed now delay width : 0 <= width -> 0 <= delay ->
  now + delay + Z.max width 1 <= u32_max ->
  let start := saturating_add 32 now delay in
  pulse_window now delay width start (Z.max (saturating_add 32 start width) (saturating_add 32 start 1)).
Proof.
  unfold pulse_window, saturating_add, u32_max. change (2 ^ 32 - 1) with 4294967295. lia.
Qed.

(** ** Properties *)

(** The clock has room for the longest delay and the output window before it wraps. *)
Definition clock_room (now width : Z) : Prop := now + MAX_DELAY_US + width + 2 <= u32_max.

(** a crank-only spark plan fires where the intent says: the spark is due when the
    crank has turned forward, by between a tenth of a degree and a whole revolution, to
    the event's top dead centre less the advance, at the current speed to the
    microsecond; the output is a supported ignition channel; and the window starts after
    now, lasts exactly the dwell when the spark is further away than that, and starts at
    once otherwise. *)
Theorem ignition_plan_fires_at_target p crank i spark :
  crank_wf crank -> spark_wf spark -> 0 < CrankSnapshot.rpm crank ->
  clock_room (CrankSnapshot.now_us crank) 0 ->
  let tp := IgnitionScheduler.plan_event p crank i spark in
  let tdc := SparkOutputProfile.event_tdc_angle_deg10 (IgnitionScheduler.profile p) i in
  exists delta,
    ahead CRANK_REV_DEGREES10 (CrankSnapshot.angle_deg10 crank) (tdc - SparkPlan.advance spark) delta
    /\ spark_window (CrankSnapshot.now_us crank) (time_for delta (CrankSnapshot.rpm crank))
         (SparkPlan.dwell spark) (TimedIgnitionPlan.start_at tp) (TimedIgnitionPlan.end_at tp)
    /\ ExclusiveChannel.group (IgnitionPlan.output (TimedIgnitionPlan.plan tp)) = OutputGroup.Ignition
    /\ channel_ok (ExclusiveChannel.channel (IgnitionPlan.output (TimedIgnitionPlan.plan tp))).
Proof.
  intros _ [Hdw _] Hrpm Hroom tp tdc. unfold tp, IgnitionScheduler.plan_event. simpl.
  pose proof (delta_ahead CRANK_REV_DEGREES10 (CrankSnapshot.angle_deg10 crank)
    (tdc - SparkPlan.advance spark) ltac:(done)) as Ha.
  unfold tdc in Ha. set (delta := forward_angle_delta_deg10 _ _ _) in *.
  exists delta. split; [exact Ha|].
  destruct (micros_for_angle_delta_spec delta (CrankSnapshot.rpm crank)) as [-> Ht];
    [unfold ahead, ENGINE_CYCLE_DEGREES10, CRANK_REV_DEGREES10 in *; lia|done|].
  split; [|split; [done|apply spark_channel_ok]].
  apply spark_window_computed; unfold clock_room, fits in *; lia.
Qed.

(** a full-cycle spark plan fires where the intent says: as the crank-only plan, with
    the event's slot angle in the 720-degree cycle for its top dead centre. *)
Theorem full_ecu_ignition_plan_fires_at_target p crank i spark :
  crank_wf crank -> spark_wf spark -> 0 < CrankSnapshot.rpm crank ->
  clock_room (CrankSnapshot.now_us crank) 0 ->
  0 <= i -> 0 <= FullEcuIgnitionScheduler.event_count p <= FULL_ECU_MAX_CYLINDERS ->
  let tp := FullEcuIgnitionScheduler.plan_event p crank i spark in
  let events := Z.max (FullEcuIgnitionScheduler.event_count p) 1 in
  let tdc := i mod events * ENGINE_CYCLE_DEGREES10 / events in
  exists delta,
    ahead ENGINE_CYCLE_DEGREES10 (CrankSnapshot.angle_deg10 crank) (tdc - SparkPlan.advance spark) delta
    /\ spark_window (CrankSnapshot.now_us crank) (time_for delta (CrankSnapshot.rpm crank))
         (SparkPlan.dwell spark) (TimedIgnitionPlan.start_at tp) (TimedIgnitionPlan.end_at tp)
    /\ ExclusiveChannel.group (IgnitionPlan.output (TimedIgnitionPlan.plan tp)) = OutputGroup.Ignition
    /\ channel_ok (ExclusiveChannel.channel (IgnitionPlan.output (TimedIgnitionPlan.plan tp))).
Proof.
  intros _ [Hdw _] Hrpm Hroom Hi Hn tp events tdc. unfold tp, FullEcuIgnitionScheduler.plan_event. simpl.
  destruct (full_cycle_slot_spec i _ Hi Hn) as [-> _]. fold events. fold tdc.
  pose proof (delta_ahead ENGINE_CYCLE_DEGREES10 (CrankSnapshot.angle_deg10 crank)
    (tdc - SparkPlan.advance spark) ltac:(done)) as Ha.
  set (delta := forward_angle_delta_deg10 _ _ _) in *.
  exists delta. split; [exact Ha|].
  destruct (micros_for_angle_delta_spec delta (CrankSnapshot.rpm crank)) as [-> Ht];
    [apply Ha|done|].
  split; [|split; [done|apply ignition_channel_ok]].
  apply spark_window_computed; unfold clock_room, fits in *; lia.
Qed.

(** a full-cycle injection plan opens the injector when the crank has turned forward to
    the event's slot angle, for exactly the pulse width (at least one microsecond), on a
    supported injector channel. *)
Theorem full_ecu_injection_plan_opens_at_target p crank i fuel :
  crank_wf crank -> u16 (FuelPlan.pulse_width fuel) -> 0 < CrankSnapshot.rpm crank ->
  clock_room (CrankSnapshot.now_us crank) (FuelPlan.pulse_width fuel) ->
  0 <= i -> 0 <= FullEcuInjectionScheduler.event_count p <= FULL_ECU_MAX_CYLINDERS ->
  let tp := FullEcuInjectionScheduler.plan_event p crank i fuel in
  let events := Z.max (FullEcuInjectionScheduler.event_count p) 1 in
  exists delta,
    ahead ENGINE_CYCLE_DEGREES10 (CrankSnapshot.angle_deg10 crank)
      (i mod events * ENGINE_CYCLE_DEGREES10 / events) delta
    /\ pulse_window (CrankSnapshot.now_us crank) (time_for delta (CrankSnapshot.rpm crank))
         (FuelPlan.pulse_width fuel) (TimedInjectionPlan.start_at tp) (TimedInjectionPlan.end_at tp)
    /\ CrankSnapshot.now_us crank < TimedInjectionPlan.start_at tp
    /\ ExclusiveChannel.group (InjectionPlan.output (TimedInjectionPlan.plan tp)) = OutputGroup.Injector
    /\ channel_ok (ExclusiveChannel.channel (InjectionPlan.output (TimedInjectionPlan.plan tp))).
Proof.
  intros _ Hw Hrpm Hroom Hi Hn tp events. unfold tp, FullEcuInjectionScheduler.plan_event. simpl.
  destruct (full_cycle_slot_spec i _ Hi Hn) as [Hslot Hb].
  pose proof (delta_ahead ENGINE_CYCLE_DEGREES10 (CrankSnapshot.angle_deg10 crank)
    (full_cycle_slot_angle_deg10 i (FullEcuInjectionScheduler.event_count p)) ltac:(done)) as Ha.
  assert (norm_deg10 (full_cycle_slot_angle_deg10 i (FullEcuInjectionScheduler.event_count p))
    ENGINE_CYCLE_DEGREES10 = full_cycle_slot_angle_deg10 i (FullEcuInjectionScheduler.event_count p))
    as Hnorm.
  { destruct (norm_deg10_mod (full_cycle_slot_angle_deg10 i (FullEcuInjectionScheduler.event_count p))
      ENGINE_CYCLE_DEGREES10 ltac:(done)) as [-> _]. by apply Z.mod_small. }
  rewrite Hnorm in Ha. fold events in Hslot. rewrite <- Hslot.
  set (delta := forward_angle_delta_deg10 _ _ _) in *. exists delta. split; [exact Ha|].
  rewrite (Z.max_l delta 1) by apply Ha.
  destruct (micros_for_angle_delta_spec delta (CrankSnapshot.rpm crank)) as [-> Ht]; [apply Ha|done|].
  unfold clock_room, fits in *.
  pose proof (pulse_window_computed (CrankSnapshot.now_us crank)
    (time_for delta (CrankSnapshot.rpm crank)) (FuelPlan.pulse_width fuel)) as Hp.
  cbv zeta in Hp. split; [apply Hp; lia|]. split; [|split; [done|apply injector_channel_ok]].
  unfold saturating_add, u32_max in *. lia.
Qed.

(** a crank-only injection plan opens the injector when the crank has turned forward to
    the pulse's slot in the revolution, for exactly the pulse width (at least one
    microsecond), on a supported injector channel. *)
Theorem injection_plan_opens_at_target p crank i fuel :
  crank_wf crank -> u16 (FuelPlan.pulse_width fuel) -> 0 < CrankSnapshot.rpm crank ->
  clock_room (CrankSnapshot.now_us crank) (FuelPlan.pulse_width fuel) -> u32 i ->
  let tp := InjectionScheduler.plan_event p crank i fuel in
  let pulses := InjectionScheduler.event_count p in
  exists delta,
    ahead CRANK_REV_DEGREES10 (CrankSnapshot.angle_deg10 crank)
      (i mod pulses * (CRANK_REV_DEGREES10 / pulses)) delta
    /\ pulse_window (CrankSnapshot.now_us crank) (time_for delta (CrankSnapshot.rpm crank))
         (FuelPlan.pulse_width fuel) (TimedInjectionPlan.start_at tp) (TimedInjectionPlan.end_at tp)
    /\ CrankSnapshot.now_us crank < TimedInjectionPlan.start_at tp
    /\ ExclusiveChannel.group (InjectionPlan.output (TimedInjectionPlan.plan tp)) = OutputGroup.Injector
    /\ channel_ok (ExclusiveChannel.channel (InjectionPlan.output (TimedInjectionPlan.plan tp))).
Proof.
  intros _ Hw Hrpm Hroom Hi tp pulses. unfold tp, InjectionScheduler.plan_event. simpl. fold pulses.
  pose proof (events_per_pulse_bounds (InjectionScheduler.profile p)) as Hn. fold pulses in Hn.
  destruct (rev_slot_spec i pulses Hi Hn) as [-> Hb].
  pose proof (delta_ahead CRANK_REV_DEGREES10 (CrankSnapshot.angle_deg10 crank)
    (i mod pulses * (CRANK_REV_DEGREES10 / pulses)) ltac:(done)) as Ha.
  destruct (norm_deg10_mod (i mod pulses * (CRANK_REV_DEGREES10 / pulses)) CRANK_REV_DEGREES10
    ltac:(done)) as [Hnorm _].
  rewrite (Z.mod_small (_ * _)) in Hnorm by done. rewrite Hnorm in Ha.
  set (delta := forward_angle_delta_deg10 _ _ _) in *. exists delta. split; [exact Ha|].
  rewrite (Z.max_l delta 1) by apply Ha.
  destruct (micros_for_angle_delta_spec delta (CrankSnapshot.rpm crank)) as [-> Ht];
    [unfold ahead, ENGINE_CYCLE_DEGREES10, CRANK_REV_DEGREES10 in *; lia|done|].
  unfold clock_room, fits in *.
  pose proof (pulse_window_computed (CrankSnapshot.now_us crank)
    (time_for delta (CrankSnapshot.rpm crank)) (FuelPlan.pulse_width fuel)) as Hp.
  cbv zeta in Hp. split; [apply Hp; lia|]. split; [|split; [done|apply fuel_channel_ok]].
  unfold saturating_add, u32_max in *. lia.
Qed.

(** with the engine stopped no injection is ever scheduled: the plan starts now, and a
    scheduler that is not suspended refuses it as stale without changing its state. *)
Theorem stopped_engine_never_injects p q crank i j fuel s :
  crank_wf crank -> CrankSnapshot.rpm crank = 0 -> SchedulerState.mode s <> SchedulerMode.Suspended ->
  let refuses (tp : TimedInjectionPlan.t) :=
    SchedulerState.schedule_injection (CrankSnapshot.now_us crank) (TimedInjectionPlan.start_at tp)
      (TimedInjectionPlan.end_at tp) (TimedInjectionPlan.plan tp) s
    = (s, Err ScheduleError.StaleDeadline) in
  refuses (InjectionScheduler.plan_event p crank i fuel)
  /\ refuses (FullEcuInjectionScheduler.plan_event q crank j fuel).
Proof.
  intros [Hnow _] Hrpm Hm refuses.
  assert (saturating_add 32 (CrankSnapshot.now_us crank) 0 = CrankSnapshot.now_us crank) as Hz
    by (unfold saturating_add, fits in *; lia).
  assert (forall b plan, SchedulerState.schedule_injection (CrankSnapshot.now_us crank)
    (CrankSnapshot.now_us crank) b plan s = (s, Err ScheduleError.StaleDeadline)) as Hs.
  { intros b plan. unfold SchedulerState.schedule_injection, SchedulerState.ensure_schedulable,
      SchedulerState.convert_deadline.
    rewrite Z.leb_refl. destruct (SchedulerState.mode s); done. }
  unfold refuses, InjectionScheduler.plan_event, FullEcuInjectionScheduler.plan_event,
    micros_for_angle_delta. simpl. rewrite Hrpm, Z.eqb_refl, Hz. by split.
Qed.

(** *** From a plan to the scheduler *)
Lemma schedule_ignition_accepts now a b plan s : admits now a b s ->
  reservable (IgnitionPlan.output plan) a b s ->
  exists s', SchedulerState.schedule_ignition now a b plan s = (s', Ok (TimedIgnitionPlan.mk plan a b))
    /\ reserves (IgnitionPlan.output plan) a b s s'.
Proof.
  intros [Hm Hlt] (Hch & Hnc & Hroom).
  pose proof (schedule_ignition_cases now a b plan s) as H.
  destruct (SchedulerState.schedule_ignition now a b plan s) as [s' r].
  destruct H as [(_ & s1 & Hr & -> & ->)|(-> & e & -> & He)].
  - eexists. split; [done|]. by destruct (reserve_window_ok _ _ _ _ _ Hr).
  - exfalso. destruct e; try (destruct He as [Ha Hr];
      pose proof (reserve_window_err _ _ _ _ _ _ Ha Hr) as Hf; unfold refused in Hf);
      try (intuition lia); by intuition.
Qed.

(** The pin transitions of a window that starts before it ends, in order. *)
Lemma export_ignition_window N tp : (2 <= N)%nat ->
  TimedIgnitionPlan.start_at tp < TimedIgnitionPlan.end_at tp < TimedIgnitionPlan.start_at tp + HALF_RANGE ->
  exists export, export_ignition N tp = Ok export
    /\ export_transitions_of export =
       [Transition.mk (TimedIgnitionPlan.start_at tp) TransitionKind.Ignition
          (ExclusiveChannel.channel (IgnitionPlan.output (TimedIgnitionPlan.plan tp))) Level.High;
        Transition.mk (TimedIgnitionPlan.end_at tp) TransitionKind.Ignition
          (ExclusiveChannel.channel (IgnitionPlan.output (TimedIgnitionPlan.plan tp))) Level.Low].
Proof.
  intros HN Hlt. unfold export_ignition, is_before, wrapping_sub.
  change HALF_RANGE with 2147483647 in *.
  destruct (Z.eqb_spec (TimedIgnitionPlan.start_at tp) (TimedIgnitionPlan.end_at tp)); [lia|].
  destruct (Nat.ltb_spec N 2); [lia|]. cbn [Transition.at_us]. rewrite Z.mod_small by lia.
  destruct (Z.ltb_spec (TimedIgnitionPlan.end_at tp - TimedIgnitionPlan.start_at tp) 2147483647); [|lia].
  eexists. split; [done|]. destruct N as [|[|N]]; [lia|lia|]. done.
Qed.

(** a planned spark goes all the way to the pins' queue: in a scheduler that is not
    suspended and has the window free, the plan is accepted as it stands at the moment it
    was made, its window is the one reserved, and it exports a high transition at the
    start of dwell followed by a low one at the spark. *)
Theorem planned_spark_is_schedulable p crank i spark s :
  crank_wf crank -> spark_wf spark -> 0 < CrankSnapshot.rpm crank ->
  clock_room (CrankSnapshot.now_us crank) 0 ->
  SchedulerState.mode s <> SchedulerMode.Suspended ->
  let tp := IgnitionScheduler.plan_event p crank i spark in
  let start := TimedIgnitionPlan.start_at tp in
  let fire := TimedIgnitionPlan.end_at tp in
  let output := IgnitionPlan.output (TimedIgnitionPlan.plan tp) in
  reservable output start fire s ->
  exists s' export,
    SchedulerState.schedule_ignition (CrankSnapshot.now_us crank) start fire (TimedIgnitionPlan.plan tp) s
      = (s', Ok tp)
    /\ reserves output start fire s s'
    /\ export_ignition 4 tp = Ok export
    /\ export_transitions_of export =
       [Transition.mk start TransitionKind.Ignition (ExclusiveChannel.channel output) Level.High;
        Transition.mk fire TransitionKind.Ignition (ExclusiveChannel.channel output) Level.Low].
Proof.
  intros Hcrank [Hdw Hadv] Hrpm Hroom Hmode tp start fire output Hres.
  assert (spark_window (CrankSnapshot.now_us crank)
    (micros_for_angle_delta (forward_angle_delta_deg10
      (norm_deg10 (CrankSnapshot.angle_deg10 crank) CRANK_REV_DEGREES10)
      (norm_deg10 (SparkOutputProfile.event_tdc_angle_deg10 (IgnitionScheduler.profile p) i
        - SparkPlan.advance spark) CRANK_REV_DEGREES10) CRANK_REV_DEGREES10) (CrankSnapshot.rpm crank))
    (SparkPlan.dwell spark) start fire
    /\ fire <= CrankSnapshot.now_us crank + MAX_DELAY_US + 2) as [Hw Hmax].
  { pose proof (delta_ahead CRANK_REV_DEGREES10 (CrankSnapshot.angle_deg10 crank)
      (SparkOutputProfile.event_tdc_angle_deg10 (IgnitionScheduler.profile p) i
        - SparkPlan.advance spark) ltac:(done)) as Ha.
    set (delta := forward_angle_delta_deg10 _ _ _) in *.
    destruct (micros_for_angle_delta_spec delta (CrankSnapshot.rpm crank)) as [Heq Ht];
      [unfold ahead, ENGINE_CYCLE_DEGREES10, CRANK_REV_DEGREES10 in *; lia|done|].
    assert (spark_window (CrankSnapshot.now_us crank)
      (micros_for_angle_delta delta (CrankSnapshot.rpm crank)) (SparkPlan.dwell spark) start fire) as Hw
      by (apply spark_window_computed; rewrite ?Heq; unfold clock_room, fits in *; lia).
    split; [done|]. rewrite Heq in Hw. unfold spark_window, fits in *.
    destruct (decide (SparkPlan.dwell spark < time_for delta (CrankSnapshot.rpm crank))); lia. }
  destruct Hw as (Hlt & _).
  destruct (schedule_ignition_accepts (CrankSnapshot.now_us crank) start fire
    (TimedIgnitionPlan.plan tp) s ltac:(by split) Hres) as (s' & Hs & Hr).
  destruct (export_ignition_window 4 tp) as (export & He & Ht); [lia| |].
  { fold start fire. change HALF_RANGE with 2147483647. unfold MAX_DELAY_US in *. lia. }
  exists s', export. by destruct tp.
Qed.

(** ** Witnesses *)
Definition sample_crank : CrankSnapshot.t :=
  CrankSnapshot.mk 100000 3000 450 EngineTimeAuthority.none.
Definition sample_ignition : IgnitionScheduler.t :=
  IgnitionScheduler.mk (SparkOutputProfile.crank_only_wasted_spark 4).
Definition sample_spark : SparkPlan.t := SparkPlan.mk 3000 150.

Example ignition_plan_fires_at_target_witness :
  let tp := IgnitionScheduler.plan_event sample_ignition sample_crank 1 sample_spark in
  (TimedIgnitionPlan.start_at tp, TimedIgnitionPlan.end_at tp) = (103666, 106666)
  /\ exists delta,
    ahead CRANK_REV_DEGREES10 450
      (SparkOutputProfile.event_tdc_angle_deg10 (IgnitionScheduler.profile sample_ignition) 1 - 150) delta
    /\ spark_window 100000 (time_for delta 3000) 3000
         (TimedIgnitionPlan.start_at tp) (TimedIgnitionPlan.end_at tp)
    /\ ExclusiveChannel.group (IgnitionPlan.output (TimedIgnitionPlan.plan tp)) = OutputGroup.Ignition
    /\ channel_ok (ExclusiveChannel.channel (IgnitionPlan.output (TimedIgnitionPlan.plan tp))).
Proof.
  split; [by vm_compute|].
  apply (ignition_plan_fires_at_target sample_ignition sample_crank 1 sample_spark); by vm_compute.
Defined.

Example full_ecu_ignition_plan_fires_at_target_witness :
  let p := FullEcuIgnitionScheduler.mk (IgnitionOutputProfile.CoilOnPlug 4 4 true) 4 in
  let tp := FullEcuIgnitionScheduler.plan_event p sample_crank 3 sample_spark in
  exists delta,
    ahead ENGINE_CYCLE_DEGREES10 450 (5400 - 150) delta
    /\ spark_window 100000 (time_for delta 3000) 3000
         (TimedIgnitionPlan.start_at tp) (TimedIgnitionPlan.end_at tp)
    /\ ExclusiveChannel.group (IgnitionPlan.output (TimedIgnitionPlan.plan tp)) = OutputGroup.Ignition
    /\ channel_ok (ExclusiveChannel.channel (IgnitionPlan.output (TimedIgnitionPlan.plan tp))).
Proof.
  apply (full_ecu_ignition_plan_fires_at_target
    (FullEcuIgnitionScheduler.mk (IgnitionOutputProfile.CoilOnPlug 4 4 true) 4)
    sample_crank 3 sample_spark); by vm_compute.
Defined.

Definition sample_injection : InjectionOutputProfile.t :=
  InjectionOutputProfile.sequential [1; 3; 4; 2] 4 true.

Example full_ecu_injection_plan_opens_at_target_witness :
  let tp := FullEcuInjectionScheduler.plan_event (FullEcuInjectionScheduler.mk sample_injection)
    sample_crank 2 (FuelPlan.mk 4500) in
  exists delta,
    ahead ENGINE_CYCLE_DEGREES10 450 3600 delta
    /\ pulse_window 100000 (time_for delta 3000) 4500
         (TimedInjectionPlan.start_at tp) (TimedInjectionPlan.end_at tp)
    /\ 100000 < TimedInjectionPlan.start_at tp
    /\ ExclusiveChannel.group (InjectionPlan.output (TimedInjectionPlan.plan tp)) = OutputGroup.Injector
    /\ channel_ok (ExclusiveChannel.channel (InjectionPlan.output (TimedInjectionPlan.plan tp))).
Proof.
  apply (full_ecu_injection_plan_opens_at_target (FullEcuInjectionScheduler.mk sample_injection)
    sample_crank 2 (FuelPlan.mk 4500)); by vm_compute.
Defined.

Example injection_plan_opens_at_target_witness :
  let p := InjectionScheduler.mk (FuelOutputProfile.batch 4) in
  let tp := InjectionScheduler.plan_event p sample_crank 2 (FuelPlan.mk 4500) in
  exists delta,
    ahead CRANK_REV_DEGREES10 450 1800 delta
    /\ pulse_window 100000 (time_for delta 3000) 4500
         (TimedInjectionPlan.start_at tp) (TimedInjectionPlan.end_at tp)
    /\ 100000 < TimedInjectionPlan.start_at tp
    /\ ExclusiveChannel.group (InjectionPlan.output (TimedInjectionPlan.plan tp)) = OutputGroup.Injector
    /\ channel_ok (ExclusiveChannel.channel (InjectionPlan.output (TimedInjectionPlan.plan tp))).
Proof.
  apply (injection_plan_opens_at_target (InjectionScheduler.mk (FuelOutputProfile.batch 4))
    sample_crank 2 (FuelPlan.mk 4500)); by vm_compute.
Defined.

Example stopped_engine_never_injects_witness :
  let crank := CrankSnapshot.mk 100000 0 450 EngineTimeAuthority.none in
  let refuses (tp : TimedInjectionPlan.t) :=
    SchedulerState.schedule_injection 100000 (TimedInjectionPlan.start_at tp)
      (TimedInjectionPlan.end_at tp) (TimedInjectionPlan.plan tp) SchedulerState.new
    = (SchedulerState.new, Err ScheduleError.StaleDeadline) in
  refuses (InjectionScheduler.plan_event (InjectionScheduler.mk FuelOutputProfile.single_point)
    crank 0 (FuelPlan.mk 4500))
  /\ refuses (FullEcuInjectionScheduler.plan_event (FullEcuInjectionScheduler.mk sample_injection)
    crank 2 (FuelPlan.mk 4500)).
Proof.
  apply (stopped_engine_never_injects (InjectionScheduler.mk FuelOutputProfile.single_point)
    (FullEcuInjectionScheduler.mk sample_injection)
    (CrankSnapshot.mk 100000 0 450 EngineTimeAuthority.none) 0 2 (FuelPlan.mk 4500)
    SchedulerState.new); by vm_compute.
Defined.

Example planned_spark_is_schedulable_witness :
  let tp := IgnitionScheduler.plan_event sample_ignition sample_crank 1 sample_spark in
  let output := IgnitionPlan.output (TimedIgnitionPlan.plan tp) in
  exists s' export,
    SchedulerState.schedule_ignition 100000 (TimedIgnitionPlan.start_at tp)
      (TimedIgnitionPlan.end_at tp) (TimedIgnitionPlan.plan tp) SchedulerState.new = (s', Ok tp)
    /\ reserves output (TimedIgnitionPlan.start_at tp) (TimedIgnitionPlan.end_at tp)
         SchedulerState.new s'
    /\ export_ignition 4 tp = Ok export
    /\ export_transitions_of export =
       [Transition.mk (TimedIgnitionPlan.start_at tp) TransitionKind.Ignition
          (ExclusiveChannel.channel output) Level.High;
        Transition.mk (TimedIgnitionPlan.end_at tp) TransitionKind.Ignition
          (ExclusiveChannel.channel output) Level.Low].
Proof.
  apply (planned_spark_is_schedulable sample_ignition sample_crank 1 sample_spark SchedulerState.new);
    [by vm_compute..|].
  split_and!; [by vm_compute| |vm_compute; lia].
  intros (w & Hw & _). vm_compute in Hw. by apply elem_of_nil in Hw.
Defined.
