(* ===== verification/TriggerProfile.v ===== *)
(** * Trigger vocabulary (crates/trigger: math.rs, diag.rs, profile.rs, edge_batch.rs)

    Wheel patterns and profiles with their validation, the conversion of an import
    profile to a runtime one, the angle and interval arithmetic, and the edge batch. *)
From S2P Require Import Prelude Domain BoardApi SchedTypes Queue Batch.

Module SyncLossReason.
Inductive t :=
| MissingPrimaryEdge | UnexpectedPrimaryEdge | InvalidGapRatio | WrongToothCount
| SecondaryTimeout | PhaseMismatch | ConfigurationInvalid.
#[global] Instance eq_dec : EqDecision t.
Proof. solve_decision. Defined.
End SyncLossReason.

Module ValidationError.
(** [TriggerValidationError] *)
Inductive t :=
| NominalTeethZero | MissingTeethZero | MissingTeethNotLessThanNominal | NotEnoughObservedTeeth
| UnsupportedTriggerPattern | PrimaryTeethZero | SecondaryTeethZero | PatternIdZero
| ToothAngleMultiplierZero | UnsupportedProfileFilter | UnsupportedResyncPolicy
| UnsupportedSecondaryTriggerMode.
#[global] Instance eq_dec : EqDecision t.
Proof. solve_decision. Defined.
End ValidationError.

Module TriggerSpeed.
Inductive t := Crank | Cam.
#[global] Instance eq_dec : EqDecision t.
Proof. solve_decision. Defined.
End TriggerSpeed.

Module TriggerEdge.
Inductive t := Rising | Falling.
#[global] Instance eq_dec : EqDecision t.
Proof. solve_decision. Defined.
End TriggerEdge.

Module PollLevelPolarity.
Inductive t := ActiveHigh | ActiveLow.
#[global] Instance eq_dec : EqDecision t.
Proof. solve_decision. Defined.
End PollLevelPolarity.

Module TriggerLevel.
Inductive t := Low | High.
#[global] Instance eq_dec : EqDecision t.
Proof. solve_decision. Defined.
Definition matches_polarity (l : t) (p : PollLevelPolarity.t) : bool :=
  match l, p with
  | High, PollLevelPolarity.ActiveHigh | Low, PollLevelPolarity.ActiveLow => true
  | _, _ => false
  end.
End TriggerLevel.

(** ** Angle and interval arithmetic (math.rs) *)
Definition ENGINE_CYCLE : Z := 7200.
Definition CRANK_REV : Z := 3600.
Definition RATIO_SCALE_X1000 : Z := 1000.
Definition MICROS_PER_MINUTE : Z := 60000000.

(** [%] of Rust truncates towards zero: [Z.rem]. *)
Definition normalize_engine_cycle_deg10 (angle : Degrees10) : Degrees10 :=
  let normalized := Z.rem angle ENGINE_CYCLE in
  if normalized <? 0 then normalized + ENGINE_CYCLE else normalized.

Definition normalize_engine_cycle_deg10_i32 (angle : Z) : Degrees10 :=
  let normalized := Z.rem angle ENGINE_CYCLE in
  let normalized := if normalized <? 0 then normalized + ENGINE_CYCLE else normalized in
  as_signed 16 normalized.

Definition elapsed_ticks (timestamp previous : Ticks) : Ticks := wrapping_sub 32 timestamp previous.

Definition saturating_u16 (value : Z) : Z := if u16_max <? value then u16_max else as_unsigned 16 value.

Definition missing_tooth_gap_detected (interval previous_interval : Ticks) (threshold_x1000 : Z) :
    Result (bool * Z) SyncLossReason.t :=
  if (interval =? 0) || (previous_interval =? 0) then Err SyncLossReason.InvalidGapRatio
  else
    let scaled_interval := saturating_mul 64 interval RATIO_SCALE_X1000 in
    let scaled_threshold := saturating_mul 64 previous_interval threshold_x1000 in
    let ratio := scaled_interval / previous_interval in
    Ok (scaled_threshold <=? scaled_interval, saturating_u16 ratio).

Definition rpm_from_tooth_interval (interval : Ticks) (nominal_teeth : Z)
    (primary_speed : TriggerSpeed.t) : Rpm :=
  if (interval =? 0) || (nominal_teeth =? 0) then 0
  else
    let revolutions_per_primary_rev :=
      match primary_speed with TriggerSpeed.Crank => 1 | TriggerSpeed.Cam => 2 end in
    let revolution_ticks := saturating_mul 64 interval nominal_teeth in
    if revolution_ticks =? 0 then 0
    else saturating_u16 (saturating_mul 64 MICROS_PER_MINUTE revolutions_per_primary_rev / revolution_ticks).

(** ** Diagnostics (diag.rs) *)
Module Observation.
(** [DecoderObservation] *)
Record t := mk {
  current_tooth : Z;
  detected_gap_ratio_x1000 : Z;
  primary_rpm : Rpm;
  cam_seen : bool;
  crank_angle_deg10 : option Degrees10;
  last_primary_interval : Ticks;
}.
#[global] Instance eq_dec : EqDecision t.
Proof. solve_decision. Defined.
#[global] Instance eta : Eta t := fun o =>
  mk (current_tooth o) (detected_gap_ratio_x1000 o) (primary_rpm o) (cam_seen o)
    (crank_angle_deg10 o) (last_primary_interval o).
Definition default : t := mk 0 0 0 false None 0.
End Observation.

Module Diagnostics.
(** [TriggerDiagnostics] *)
Record t := mk {
  observation : Observation.t;
  authority : EngineTimeAuthority.t;
  last_sync_loss : option SyncLossReason.t;
}.
#[global] Instance eq_dec : EqDecision t.
Proof. solve_decision. Defined.
#[global] Instance eta : Eta t := fun d => mk (observation d) (authority d) (last_sync_loss d).
Definition empty : t := mk Observation.default EngineTimeAuthority.none None.
End Diagnostics.

(** ** Edge batch (edge_batch.rs) *)
Module PrimaryEdgeSample.
Record t := mk { timestamp : Ticks; edge : TriggerEdge.t }.
#[global] Instance eq_dec : EqDecision t.
Proof. solve_decision. Defined.
Definition EMPTY : t := mk 0 TriggerEdge.Rising.
Definition with_edge (timestamp : Ticks) (edge : TriggerEdge.t) : t := mk timestamp edge.
Definition new (timestamp : Ticks) : t := with_edge timestamp TriggerEdge.Rising.
End PrimaryEdgeSample.

Module PrimaryEdgeBatch.
(** [PrimaryEdgeBatchError::Full] *)
Inductive error := Full.
(** [PrimaryEdgeBatch<CAPACITY>]: [CAPACITY] is the length of [edges]. *)
Record t := mk { edges : list PrimaryEdgeSample.t; len : Z }.
#[global] Instance eta : Eta t := fun b => mk (edges b) (len b).
Definition new (CAPACITY : nat) : t := mk (replicate CAPACITY PrimaryEdgeSample.EMPTY) 0.
Definition capacity (b : t) : Z := Z.of_nat (length (edges b)).
Definition is_empty (b : t) : bool := len b =? 0.
Definition is_full (b : t) : bool := len b =? capacity b.
Definition push (edge : PrimaryEdgeSample.t) (b : t) : t * Result unit error :=
  if is_full b then (b, Err Full)
  else (b <| edges := <[Z.to_nat (len b) := edge]> (edges b) |> <| len := len b + 1 |>, Ok tt).
Definition clear (b : t) : t := b <| len := 0 |>.
Definition as_slice (b : t) : list PrimaryEdgeSample.t := take (Z.to_nat (len b)) (edges b).
Definition wf (b : t) : Prop := 0 <= len b <= capacity b.
End PrimaryEdgeBatch.

#[export] Instance primary_edge_buffer :
  AppendBuffer PrimaryEdgeBatch.t PrimaryEdgeSample.t PrimaryEdgeBatch.error := {
  room b := PrimaryEdgeBatch.capacity b - PrimaryEdgeBatch.len b;
  content := PrimaryEdgeBatch.as_slice;
  push := PrimaryEdgeBatch.push;
}.

(** ** Profiles (profile.rs) *)
Definition validate_missing_tooth (nominal_teeth missing_teeth : Z) : Result unit ValidationError.t :=
  if nominal_teeth =? 0 then Err ValidationError.NominalTeethZero
  else if missing_teeth =? 0 then Err ValidationError.MissingTeethZero
  else if nominal_teeth <=? missing_teeth then Err ValidationError.MissingTeethNotLessThanNominal
  else if nominal_teeth - missing_teeth <? 2 then Err ValidationError.NotEnoughObservedTeeth
  else Ok tt.

Definition pattern_id_is_valid (id : Z) : bool := negb (id =? 0).

Module TriggerPattern.
Inductive t :=
| MissingTooth (nominal_teeth missing_teeth : Z)
| BasicDistributor
| DualWheel (primary_teeth : Z)
| NonUniform (pattern_id : Z).
#[global] Instance eq_dec : EqDecision t.
Proof. solve_decision. Defined.

Definition validate (p : t) : Result unit ValidationError.t :=
  match p with
  | MissingTooth nominal_teeth missing_teeth => validate_missing_tooth nominal_teeth missing_teeth
  | BasicDistributor => Ok tt
  | DualWheel primary_teeth =>
    if primary_teeth =? 0 then Err ValidationError.PrimaryTeethZero else Ok tt
  | NonUniform pattern_id =>
    if negb (pattern_id_is_valid pattern_id) then Err ValidationError.PatternIdZero else Ok tt
  end.

Definition observed_primary_teeth (p : t) : option Z :=
  match p with
  | MissingTooth nominal_teeth missing_teeth =>
    if negb (is_ok (validate_missing_tooth nominal_teeth missing_teeth)) then None
    else Some (nominal_teeth - missing_teeth)
  | DualWheel primary_teeth => if primary_teeth =? 0 then None else Some primary_teeth
  | BasicDistributor | NonUniform _ => None
  end.
End TriggerPattern.

Module SecondaryTriggerMode.
Inductive t :=
| None | SingleToothCam | FourMinusOneCam | PollLevel
| MultiToothCam (teeth : Z) | OemPattern (pattern_id : Z).
#[global] Instance eq_dec : EqDecision t.
Proof. solve_decision. Defined.

Definition validate (m : t) : Result unit ValidationError.t :=
  match m with
  | None | SingleToothCam | FourMinusOneCam | PollLevel => Ok tt
  | MultiToothCam teeth => if teeth =? 0 then Err ValidationError.SecondaryTeethZero else Ok tt
  | OemPattern pattern_id =>
    if negb (pattern_id_is_valid pattern_id) then Err ValidationError.PatternIdZero else Ok tt
  end.
End SecondaryTriggerMode.

Module SecondaryTriggerProfile.
Record t := mk {
  mode : SecondaryTriggerMode.t;
  edge : TriggerEdge.t;
  poll_level : PollLevelPolarity.t;
}.
#[global] Instance eq_dec : EqDecision t.
Proof. solve_decision. Defined.
Definition default : t := mk SecondaryTriggerMode.None TriggerEdge.Rising PollLevelPolarity.ActiveHigh.
Definition validate (p : t) : Result unit ValidationError.t := SecondaryTriggerMode.validate (mode p).
End SecondaryTriggerProfile.

Module RuntimeSecondaryMode.
(** [RuntimeSecondaryTriggerMode] *)
Inductive t := None | SingleToothCam | PollLevel.
#[global] Instance eq_dec : EqDecision t.
Proof. solve_decision. Defined.
End RuntimeSecondaryMode.

Module RuntimeSecondaryProfile.
(** [RuntimeSecondaryTriggerProfile] *)
Record t := mk {
  mode : RuntimeSecondaryMode.t;
  edge : TriggerEdge.t;
  poll_level : PollLevelPolarity.t;
}.
#[global] Instance eq_dec : EqDecision t.
Proof. solve_decision. Defined.
Definition default : t := mk RuntimeSecondaryMode.None TriggerEdge.Rising PollLevelPolarity.ActiveHigh.

Definition from_import_profile (profile : SecondaryTriggerProfile.t) : Result t ValidationError.t :=
  match SecondaryTriggerProfile.validate profile with
  | Err error => Err error
  | Ok _ =>
    let? mode :=
      match SecondaryTriggerProfile.mode profile with
      | SecondaryTriggerMode.None => Ok RuntimeSecondaryMode.None
      | SecondaryTriggerMode.SingleToothCam => Ok RuntimeSecondaryMode.SingleToothCam
      | SecondaryTriggerMode.PollLevel => Ok RuntimeSecondaryMode.PollLevel
      | SecondaryTriggerMode.FourMinusOneCam | SecondaryTriggerMode.MultiToothCam _
      | SecondaryTriggerMode.OemPattern _ => Err ValidationError.UnsupportedSecondaryTriggerMode
      end in
    Ok (mk mode (SecondaryTriggerProfile.edge profile) (SecondaryTriggerProfile.poll_level profile))
  end.
End RuntimeSecondaryProfile.

Module TriggerAngle.
(** [TriggerAngleAuthority] *)
Inductive t :=
| Unknown | ExpertManual (a : Degrees10) | CommunityProfile (a : Degrees10)
| CertifiedProfile (a : Degrees10) | BenchLearned (a : Degrees10).
#[global] Instance eq_dec : EqDecision t.
Proof. solve_decision. Defined.

Definition absolute_authority (a : t) : AbsoluteTimeAuthority.t :=
  match a with
  | Unknown => AbsoluteTimeAuthority.None
  | ExpertManual _ => AbsoluteTimeAuthority.ExpertManual
  | CommunityProfile _ => AbsoluteTimeAuthority.CommunityProfile
  | CertifiedProfile _ => AbsoluteTimeAuthority.CertifiedProfile
  | BenchLearned _ => AbsoluteTimeAuthority.BenchLearned
  end.

Definition angle_deg10 (a : t) : option Degrees10 :=
  match a with
  | Unknown => None
  | ExpertManual angle | CommunityProfile angle | CertifiedProfile angle | BenchLearned angle =>
    Some angle
  end.

Definition normalized_angle_deg10 (a : t) : option Degrees10 :=
  match angle_deg10 a with
  | Some angle => Some (normalize_engine_cycle_deg10 angle)
  | None => None
  end.
End TriggerAngle.

Module TriggerFilter.
Inductive t := Off | Weak | Medium | Aggressive.
End TriggerFilter.

Module ResyncPolicy.
Inductive t := Disabled | OnSyncLoss | EveryCycle.
End ResyncPolicy.

Module StartupSyncPolicy.
Record t := mk { skip_revolutions : Z; require_full_cycle : bool }.
Definition authority_ready (p : t) (completed_revolutions : Z) : bool :=
  (skip_revolutions p <=? completed_revolutions)
  && (negb (require_full_cycle p) || (0 <? completed_revolutions)).
End StartupSyncPolicy.

Module EngineTimeLatency.
Record t := mk {
  primary_edge_delay_us : Micros;
  secondary_edge_delay_us : Micros;
  output_schedule_delay_us : Micros;
}.
Definition total_us (l : t) : Z :=
  saturating_add 32 (saturating_add 32 (primary_edge_delay_us l) (secondary_edge_delay_us l))
    (output_schedule_delay_us l).
End EngineTimeLatency.

Module TriggerProfile.
Record t := mk {
  pattern : TriggerPattern.t;
  primary_speed : TriggerSpeed.t;
  primary_edge : TriggerEdge.t;
  secondary : SecondaryTriggerProfile.t;
  trigger_angle_atdc_deg10 : TriggerAngle.t;
  tooth_angle_multiplier : Z;
  filter : TriggerFilter.t;
  resync : ResyncPolicy.t;
  startup : StartupSyncPolicy.t;
  latency : EngineTimeLatency.t;
}.

Definition validate (p : t) : Result unit ValidationError.t :=
  match TriggerPattern.validate (pattern p) with
  | Err error => Err error
  | Ok _ =>
    match SecondaryTriggerProfile.validate (secondary p) with
    | Err error => Err error
    | Ok _ =>
      if tooth_angle_multiplier p =? 0 then Err ValidationError.ToothAngleMultiplierZero else Ok tt
    end
  end.

Definition declared_absolute_authority (p : t) : AbsoluteTimeAuthority.t :=
  TriggerAngle.absolute_authority (trigger_angle_atdc_deg10 p).

Definition validate_profiled_decoder_runtime_policy (p : t) : Result unit ValidationError.t :=
  if negb (match filter p with TriggerFilter.Off => true | _ => false end)
  then Err ValidationError.UnsupportedProfileFilter
  else if negb (match resync p with ResyncPolicy.OnSyncLoss => true | _ => false end)
  then Err ValidationError.UnsupportedResyncPolicy
  else Ok tt.
End TriggerProfile.

Module RuntimeProfile.
(** [RuntimeMissingToothProfile] *)
Record t := mk {
  nominal_teeth : Z;
  missing_teeth : Z;
  primary_speed : TriggerSpeed.t;
  primary_edge : TriggerEdge.t;
  secondary : RuntimeSecondaryProfile.t;
  trigger_angle_atdc_deg10 : TriggerAngle.t;
  tooth_angle_multiplier : Z;
  startup : StartupSyncPolicy.t;
  latency : EngineTimeLatency.t;
}.

Definition from_import_profile (profile : TriggerProfile.t) : Result t ValidationError.t :=
  match TriggerProfile.validate profile with
  | Err error => Err error
  | Ok _ =>
    match TriggerProfile.validate_profiled_decoder_runtime_policy profile with
    | Err error => Err error
    | Ok _ =>
      let? teeth :=
        match TriggerProfile.pattern profile with
        | TriggerPattern.MissingTooth nominal_teeth missing_teeth => Ok (nominal_teeth, missing_teeth)
        | TriggerPattern.BasicDistributor | TriggerPattern.DualWheel _ | TriggerPattern.NonUniform _ =>
          Err ValidationError.UnsupportedTriggerPattern
        end in
      match RuntimeSecondaryProfile.from_import_profile (TriggerProfile.secondary profile) with
      | Err error => Err error
      | Ok secondary =>
        Ok (mk (fst teeth) (snd teeth) (TriggerProfile.primary_speed profile)
          (TriggerProfile.primary_edge profile) secondary
          (TriggerProfile.trigger_angle_atdc_deg10 profile)
          (TriggerProfile.tooth_angle_multiplier profile)
          (TriggerProfile.startup profile) (TriggerProfile.latency profile))
      end
    end
  end.

Definition validate (p : t) : Result unit ValidationError.t :=
  match validate_missing_tooth (nominal_teeth p) (missing_teeth p) with
  | Err error => Err error
  | Ok _ =>
    if tooth_angle_multiplier p =? 0 then Err ValidationError.ToothAngleMultiplierZero else Ok tt
  end.

Definition observed_primary_teeth (p : t) : Z := wrapping_sub 8 (nominal_teeth p) (missing_teeth p).
Definition startup_authority_ready (p : t) (completed_revolutions : Z) : bool :=
  StartupSyncPolicy.authority_ready (startup p) completed_revolutions.
Definition latency_us (p : t) : Z := EngineTimeLatency.total_us (latency p).
End RuntimeProfile.

(** ** Lemmas *)
Lemma rem_cycle angle :
  (let normalized := Z.rem angle ENGINE_CYCLE in
   if normalized <? 0 then normalized + ENGINE_CYCLE else normalized) = angle mod ENGINE_CYCLE.
Proof.
  unfold ENGINE_CYCLE. cbv zeta. pose proof (Z.mod_pos_bound angle 7200 ltac:(lia)).
  pose proof (Z.quot_rem' angle 7200). pose proof (Z.div_mod angle 7200 ltac:(lia)).
  pose proof (Z.rem_bound_abs angle 7200 ltac:(lia)).
  destruct (Z.ltb_spec (Z.rem angle 7200) 0).
  - apply (Z.mod_unique _ _ (angle ÷ 7200 - 1)); lia.
  - apply (Z.mod_unique _ _ (angle ÷ 7200)); lia.
Qed.

Lemma normalize_deg10_mod angle : normalize_engine_cycle_deg10 angle = angle mod ENGINE_CYCLE.
Proof. apply rem_cycle. Qed.

Lemma normalize_deg10_i32_mod angle : normalize_engine_cycle_deg10_i32 angle = angle mod ENGINE_CYCLE.
Proof.
  unfold normalize_engine_cycle_deg10_i32. pose proof (rem_cycle angle) as H. cbv zeta in *. rewrite H.
  unfold ENGINE_CYCLE. pose proof (Z.mod_pos_bound angle 7200 ltac:(lia)).
  apply as_signed_small; lia.
Qed.

Lemma cycle_bounds angle : 0 <= angle mod ENGINE_CYCLE < ENGINE_CYCLE.
Proof. apply Z.mod_pos_bound. done. Qed.

Lemma validate_missing_tooth_spec nominal missing : u8 nominal -> u8 missing ->
  validate_missing_tooth nominal missing = Ok tt <-> 0 < missing /\ missing + 2 <= nominal.
Proof.
  unfold validate_missing_tooth, fits. intros Hn Hm.
  repeat case_match; to_prop; split; try done; intros; try lia.
Qed.

(** The gap test on machine integers is the test on the integers themselves. *)
Lemma gap_detected_spec i p thr : u32 i -> u32 p -> u16 thr -> i <> 0 -> p <> 0 ->
  missing_tooth_gap_detected i p thr = Ok (p * thr <=? i * 1000, Z.min (i * 1000 / p) u16_max).
Proof.
  unfold fits. intros Hi Hp Ht Hi0 Hp0. unfold missing_tooth_gap_detected, RATIO_SCALE_X1000.
  destruct (Z.eqb_spec i 0); [done|]. destruct (Z.eqb_spec p 0); [done|]. cbn [orb].
  unfold saturating_mul. rewrite !Z.min_l by nia. f_equal. f_equal.
  unfold saturating_u16, u16_max. assert (0 <= i * 1000 / p) by (apply Z.div_pos; lia).
  destruct (Z.ltb_spec 65535 (i * 1000 / p)); [lia|]. rewrite as_unsigned_small by (unfold fits; lia). lia.
Qed.

(** ** Properties *)

(** What the runtime decoder supports of an import profile. *)
Definition runtime_supported (p : TriggerProfile.t) : Prop :=
  (exists nominal missing, TriggerProfile.pattern p = TriggerPattern.MissingTooth nominal missing
     /\ validate_missing_tooth nominal missing = Ok tt)
  /\ SecondaryTriggerProfile.mode (TriggerProfile.secondary p)
     ∈ [SecondaryTriggerMode.None; SecondaryTriggerMode.SingleToothCam; SecondaryTriggerMode.PollLevel]
  /\ TriggerProfile.tooth_angle_multiplier p <> 0
  /\ TriggerProfile.filter p = TriggerFilter.Off
  /\ TriggerProfile.resync p = ResyncPolicy.OnSyncLoss.

(** an import profile becomes a runtime profile exactly when it is a valid missing-tooth
    wheel with a secondary input, a filter and a resync policy the runtime decoder
    implements; the runtime profile then validates and carries the import profile's wheel,
    edges, angle, startup and latency unchanged. *)
Theorem import_profile_spec p :
  match RuntimeProfile.from_import_profile p with
  | Ok r =>
    runtime_supported p /\ RuntimeProfile.validate r = Ok tt
    /\ TriggerProfile.pattern p =
       TriggerPattern.MissingTooth (RuntimeProfile.nominal_teeth r) (RuntimeProfile.missing_teeth r)
    /\ RuntimeProfile.primary_edge r = TriggerProfile.primary_edge p
    /\ RuntimeProfile.primary_speed r = TriggerProfile.primary_speed p
    /\ RuntimeProfile.trigger_angle_atdc_deg10 r = TriggerProfile.trigger_angle_atdc_deg10 p
    /\ RuntimeProfile.startup r = TriggerProfile.startup p
    /\ RuntimeProfile.latency r = TriggerProfile.latency p
  | Err _ => ~ runtime_supported p
  end.
Proof.
  destruct p as [pat sp ed [mode sed pol] ang mult fil res st lat]. unfold runtime_supported. simpl.
  unfold RuntimeProfile.from_import_profile, TriggerProfile.validate,
    TriggerProfile.validate_profiled_decoder_runtime_policy,
    RuntimeSecondaryProfile.from_import_profile, SecondaryTriggerProfile.validate. simpl.
  destruct pat as [n m| |pt|pid]; simpl.
  2-4: repeat case_match; simplify_eq; intros ((? & ? & ? & ?) & _); congruence.
  destruct (validate_missing_tooth n m) as [[]|e] eqn:Hv.
  2: intros ((? & ? & ? & ?) & _); congruence.
  destruct (SecondaryTriggerMode.validate mode) as [[]|e] eqn:Hmode.
  2: { intros (_ & Hin & _). rewrite !elem_of_cons in Hin.
       destruct Hin as [->|[->|[->|Hin]]]; [done..|]. by apply elem_of_nil in Hin. }
  destruct (Z.eqb_spec mult 0); [by intros (_ & _ & ? & _)|].
  destruct fil; simpl; [|intros (_ & _ & _ & ? & _); done..].
  destruct res; simpl; [intros (_ & _ & _ & _ & ?); done| |intros (_ & _ & _ & _ & ?); done].
  destruct mode; simpl; try (intros (_ & Hin & _); rewrite !elem_of_cons in Hin;
    destruct Hin as [Hin|[Hin|[Hin|Hin]]]; try done; by apply elem_of_nil in Hin).
  all: unfold RuntimeProfile.validate; simpl; rewrite Hv; destruct (Z.eqb_spec mult 0); [done|];
    split_and!; try done; [by eexists _, _|set_solver].
Qed.
