(* ===== verification/TriggerDecoder.v ===== *)
(** * Missing-tooth decoder (crates/trigger/src/missing_tooth.rs)

    The decoder as a state machine over timestamped primary edges and secondary
    (cam) edges or levels. *)
From S2P Require Import Prelude Domain BoardApi SchedTypes Queue Batch TriggerProfile.

Definition DEFAULT_MISSING_TOOTH_GAP_RATIO_X1000 : Z := 1500.

Module DecoderConfig.
(** [MissingToothDecoderConfig] *)
Record t := mk {
  nominal_teeth : Z;
  missing_teeth : Z;
  primary_speed : TriggerSpeed.t;
  primary_edge : TriggerEdge.t;
  secondary : RuntimeSecondaryProfile.t;
  trigger_angle_atdc_deg10 : TriggerAngle.t;
  tooth_angle_multiplier : Z;
  minimum_edge_interval : Ticks;
  gap_ratio_threshold_x1000 : Z;
}.

Definition new (nominal_teeth missing_teeth : Z) (trigger_angle_atdc_deg10 : TriggerAngle.t) : t :=
  mk nominal_teeth missing_teeth TriggerSpeed.Crank TriggerEdge.Rising
    (RuntimeSecondaryProfile.mk RuntimeSecondaryMode.None TriggerEdge.Rising PollLevelPolarity.ActiveHigh)
    trigger_angle_atdc_deg10 1 0 DEFAULT_MISSING_TOOTH_GAP_RATIO_X1000.

Definition from_runtime_profile (profile : RuntimeProfile.t) (minimum_edge_interval : Ticks)
    (gap_ratio_threshold_x1000 : Z) : t :=
  mk (RuntimeProfile.nominal_teeth profile) (RuntimeProfile.missing_teeth profile)
    (RuntimeProfile.primary_speed profile) (RuntimeProfile.primary_edge profile)
    (RuntimeProfile.secondary profile) (RuntimeProfile.trigger_angle_atdc_deg10 profile)
    (RuntimeProfile.tooth_angle_multiplier profile) minimum_edge_interval gap_ratio_threshold_x1000.

Definition normalized_gap_threshold_x1000 (c : t) : Z :=
  if gap_ratio_threshold_x1000 c =? 0 then DEFAULT_MISSING_TOOTH_GAP_RATIO_X1000
  else gap_ratio_threshold_x1000 c.
End DecoderConfig.

Module DecoderEvent.
(** [MissingToothDecoderEvent] *)
Inductive t :=
| FirstEdge | IgnoredByFilter | Searching | Tooth (current_tooth : Z) | Gap (current_tooth : Z).
#[global] Instance eq_dec : EqDecision t.
Proof. solve_decision. Defined.
End DecoderEvent.

Module Ingestion.
(** [PrimaryEdgeIngestion] *)
Record t := mk {
  processed_edges : Z;
  ignored_edges : Z;
  last_event : option DecoderEvent.t;
  last_sync_loss : option SyncLossReason.t;
}.
#[global] Instance eta : Eta t := fun i =>
  mk (processed_edges i) (ignored_edges i) (last_event i) (last_sync_loss i).
Definition default : t := mk 0 0 None None.
End Ingestion.

Module Decoder.
(** [MissingToothDecoder] *)
Record t := mk {
  config : DecoderConfig.t;
  observed_teeth : Z;
  last_edge_timestamp : option Ticks;
  previous_interval : Ticks;
  last_normal_interval : Ticks;
  current_tooth : Z;
  teeth_since_gap : Z;
  primary_locked : bool;
  phase_validated : bool;
  secondary_seen_since_gap : bool;
  cam_seen : bool;
  diagnostics : Diagnostics.t;
}.
#[global] Instance eta : Eta t := fun d =>
  mk (config d) (observed_teeth d) (last_edge_timestamp d) (previous_interval d)
    (last_normal_interval d) (current_tooth d) (teeth_since_gap d) (primary_locked d)
    (phase_validated d) (secondary_seen_since_gap d) (cam_seen d) (diagnostics d).

Definition try_new (config : DecoderConfig.t) : Result t ValidationError.t :=
  match validate_missing_tooth (DecoderConfig.nominal_teeth config) (DecoderConfig.missing_teeth config) with
  | Err error => Err error
  | Ok _ =>
    if DecoderConfig.tooth_angle_multiplier config =? 0
    then Err ValidationError.ToothAngleMultiplierZero
    else
      Ok (mk config (DecoderConfig.nominal_teeth config - DecoderConfig.missing_teeth config)
        None 0 0 0 0 false false false false Diagnostics.empty)
  end.

Definition reset (d : t) : t :=
  d <| last_edge_timestamp := None |> <| previous_interval := 0 |> <| last_normal_interval := 0 |>
    <| current_tooth := 0 |> <| teeth_since_gap := 0 |> <| primary_locked := false |>
    <| phase_validated := false |> <| secondary_seen_since_gap := false |> <| cam_seen := false |>
    <| diagnostics := Diagnostics.empty |>.

Definition set_authority (a : EngineTimeAuthority.t) (d : t) : t :=
  d <| diagnostics ::= fun g => g <| Diagnostics.authority := a |> |>.
Definition set_sync_loss (r : SyncLossReason.t) (d : t) : t :=
  d <| diagnostics ::= fun g => g <| Diagnostics.last_sync_loss := Some r |> |>.
Definition set_observation (o : Observation.t) (d : t) : t :=
  d <| diagnostics ::= fun g => g <| Diagnostics.observation := o |> |>.
Definition authority (d : t) : EngineTimeAuthority.t := Diagnostics.authority (diagnostics d).
Definition observation (d : t) : Observation.t := Diagnostics.observation (diagnostics d).

Definition tooth_angle_deg10 (d : t) : Z :=
  saturating_mul 32 CRANK_REV (DecoderConfig.tooth_angle_multiplier (config d))
  / DecoderConfig.nominal_teeth (config d).

Definition current_rpm (d : t) : Rpm :=
  rpm_from_tooth_interval (last_normal_interval d) (DecoderConfig.nominal_teeth (config d))
    (DecoderConfig.primary_speed (config d)).

(** The 32-bit products and sums wrap, as they do in a release build. *)
Definition crank_angle_at (timestamp : Ticks) (d : t) : option Degrees10 :=
  if negb (primary_locked d) || (current_tooth d =? 0) then None
  else
    match TriggerAngle.normalized_angle_deg10 (DecoderConfig.trigger_angle_atdc_deg10 (config d)) with
    | None => None
    | Some trigger_angle =>
      let tooth_angle := tooth_angle_deg10 d in
      let tooth_offset := as_signed 32 (saturating_sub (current_tooth d) 1 * tooth_angle) in
      let elapsed_angle :=
        match last_edge_timestamp d with
        | Some last_timestamp =>
          if 0 <? last_normal_interval d then
            saturating_mul 64 (elapsed_ticks timestamp last_timestamp) tooth_angle
            / last_normal_interval d
          else 0
        | None => 0
        end in
      let angle := as_signed 32 (trigger_angle + tooth_offset + as_signed 32 elapsed_angle) in
      Some (normalize_engine_cycle_deg10_i32 angle)
    end.

Definition update_observation (timestamp interval : Ticks) (ratio_x1000 : Z) (d : t) : t :=
  set_observation
    (Observation.mk (current_tooth d) ratio_x1000 (current_rpm d) (cam_seen d)
      (crank_angle_at timestamp d) interval) d.

Definition set_searching_authority (d : t) : t :=
  let sync_loss_count := EngineTimeAuthority.sync_loss_count (authority d) in
  set_authority
    (EngineTimeAuthority.mk CrankSyncState.PrimarySearching PhaseSyncState.Unknown
      AbsoluteTimeAuthority.None 0 sync_loss_count) d.

Definition set_locked_authority (d : t) : t :=
  let sync_loss_count := EngineTimeAuthority.sync_loss_count (authority d) in
  let '(phase, absolute, confidence_x1000) :=
    if phase_validated d then
      (PhaseSyncState.CamValidated720,
       TriggerAngle.absolute_authority (DecoderConfig.trigger_angle_atdc_deg10 (config d)), 1000)
    else (PhaseSyncState.CrankOnly360, AbsoluteTimeAuthority.None, 500) in
  set_authority
    (EngineTimeAuthority.mk CrankSyncState.PrimaryLocked phase absolute confidence_x1000
      sync_loss_count) d.

Definition record_secondary_fault (reason : SyncLossReason.t) (d : t) :
    t * Result unit SyncLossReason.t :=
  let d := d <| phase_validated := false |> <| secondary_seen_since_gap := false |> in
  let d := set_sync_loss reason d in
  let d := if primary_locked d then set_locked_authority d else set_searching_authority d in
  (d, Err reason).

Definition validate_secondary_before_next_gap (d : t) : t :=
  if primary_locked d
     && match RuntimeSecondaryProfile.mode (DecoderConfig.secondary (config d)) with
        | RuntimeSecondaryMode.SingleToothCam | RuntimeSecondaryMode.PollLevel => true
        | RuntimeSecondaryMode.None => false
        end
     && negb (secondary_seen_since_gap d)
  then fst (record_secondary_fault SyncLossReason.SecondaryTimeout d)
  else d.

Definition drop_sync (reason : SyncLossReason.t) (timestamp interval : Ticks) (ratio_x1000 : Z)
    (d : t) : t :=
  let sync_loss_count :=
    saturating_add 16 (EngineTimeAuthority.sync_loss_count (authority d)) 1 in
  let d :=
    d <| primary_locked := false |> <| phase_validated := false |>
      <| secondary_seen_since_gap := false |> <| cam_seen := false |> <| current_tooth := 0 |>
      <| teeth_since_gap := 0 |> <| last_edge_timestamp := Some timestamp |>
      <| previous_interval := 0 |> <| last_normal_interval := 0 |> in
  let d := set_observation (Observation.mk 0 ratio_x1000 0 false None interval) d in
  let d :=
    set_authority
      (EngineTimeAuthority.mk CrankSyncState.SyncLost PhaseSyncState.Unknown
        AbsoluteTimeAuthority.None 0 sync_loss_count) d in
  set_sync_loss reason d.

Definition accept_gap (timestamp interval : Ticks) (ratio_x1000 : Z) (d : t) :
    t * Result DecoderEvent.t SyncLossReason.t :=
  if primary_locked d && negb (teeth_since_gap d =? observed_teeth d)
  then (drop_sync SyncLossReason.WrongToothCount timestamp interval ratio_x1000 d,
        Err SyncLossReason.WrongToothCount)
  else
    let d := validate_secondary_before_next_gap d in
    let d :=
      d <| primary_locked := true |> <| current_tooth := 1 |> <| teeth_since_gap := 1 |>
        <| secondary_seen_since_gap := false |> <| last_edge_timestamp := Some timestamp |>
        <| previous_interval := last_normal_interval d |> in
    let d := update_observation timestamp interval ratio_x1000 d in
    (set_locked_authority d, Ok (DecoderEvent.Gap 1)).

Definition accept_tooth (timestamp interval : Ticks) (ratio_x1000 : Z) (d : t) :
    t * Result DecoderEvent.t SyncLossReason.t :=
  if primary_locked d && (observed_teeth d <=? current_tooth d)
  then (drop_sync SyncLossReason.WrongToothCount timestamp interval ratio_x1000 d,
        Err SyncLossReason.WrongToothCount)
  else
    let d :=
      if primary_locked d
      then d <| current_tooth ::= fun n => saturating_add 8 n 1 |>
             <| teeth_since_gap ::= fun n => saturating_add 8 n 1 |>
      else d <| teeth_since_gap ::= fun n => saturating_add 8 n 1 |> in
    let d :=
      d <| last_edge_timestamp := Some timestamp |> <| previous_interval := interval |>
        <| last_normal_interval := interval |> in
    let d := update_observation timestamp interval ratio_x1000 d in
    if primary_locked d
    then (set_locked_authority d, Ok (DecoderEvent.Tooth (current_tooth d)))
    else (set_searching_authority d, Ok DecoderEvent.Searching).

Definition ingest_primary_edge_with_kind (timestamp : Ticks) (edge : TriggerEdge.t) (d : t) :
    t * Result DecoderEvent.t SyncLossReason.t :=
  if negb (bool_decide (edge = DecoderConfig.primary_edge (config d))) then
    let d := set_sync_loss SyncLossReason.UnexpectedPrimaryEdge d in
    (if negb (primary_locked d) then set_searching_authority d else d,
     Err SyncLossReason.UnexpectedPrimaryEdge)
  else
    match last_edge_timestamp d with
    | None =>
      (set_searching_authority (d <| last_edge_timestamp := Some timestamp |>),
       Ok DecoderEvent.FirstEdge)
    | Some last_timestamp =>
      let interval := elapsed_ticks timestamp last_timestamp in
      if interval <? DecoderConfig.minimum_edge_interval (config d) then
        (set_observation
           ((observation d) <| Observation.crank_angle_deg10 := crank_angle_at timestamp d |>) d,
         Ok DecoderEvent.IgnoredByFilter)
      else if (previous_interval d =? 0) || (interval =? 0) then
        let d :=
          d <| last_edge_timestamp := Some timestamp |> <| previous_interval := interval |>
            <| last_normal_interval := interval |>
            <| teeth_since_gap ::= fun n => saturating_add 8 n 1 |> in
        let d := update_observation timestamp interval 0 d in
        (set_searching_authority d, Ok DecoderEvent.Searching)
      else
        match missing_tooth_gap_detected interval (previous_interval d)
                (DecoderConfig.normalized_gap_threshold_x1000 (config d)) with
        | Err reason => (d, Err reason)
        | Ok (is_gap, ratio) =>
          if is_gap then accept_gap timestamp interval ratio d
          else accept_tooth timestamp interval ratio d
        end
    end.

Definition ingest_primary_edge (timestamp : Ticks) (d : t) :
    t * Result DecoderEvent.t SyncLossReason.t :=
  ingest_primary_edge_with_kind timestamp (DecoderConfig.primary_edge (config d)) d.

Definition ingest_secondary_edge (edge : TriggerEdge.t) (d : t) : t * Result unit SyncLossReason.t :=
  match RuntimeSecondaryProfile.mode (DecoderConfig.secondary (config d)) with
  | RuntimeSecondaryMode.SingleToothCam =>
    if negb (bool_decide (edge = RuntimeSecondaryProfile.edge (DecoderConfig.secondary (config d))))
    then record_secondary_fault SyncLossReason.PhaseMismatch d
    else
      let d := d <| cam_seen := true |> in
      let d := set_observation ((observation d) <| Observation.cam_seen := true |>) d in
      if primary_locked d then
        if negb (current_tooth d =? 1) then record_secondary_fault SyncLossReason.PhaseMismatch d
        else
          let d := d <| secondary_seen_since_gap := true |> <| phase_validated := true |> in
          (set_locked_authority d, Ok tt)
      else (d, Ok tt)
  | RuntimeSecondaryMode.None | RuntimeSecondaryMode.PollLevel =>
    record_secondary_fault SyncLossReason.ConfigurationInvalid d
  end.

Definition ingest_secondary_level (level : TriggerLevel.t) (d : t) : t * Result unit SyncLossReason.t :=
  match RuntimeSecondaryProfile.mode (DecoderConfig.secondary (config d)) with
  | RuntimeSecondaryMode.PollLevel =>
    if negb (primary_locked d) || negb (current_tooth d =? 1)
    then record_secondary_fault SyncLossReason.PhaseMismatch d
    else if negb (TriggerLevel.matches_polarity level
                    (RuntimeSecondaryProfile.poll_level (DecoderConfig.secondary (config d))))
    then record_secondary_fault SyncLossReason.PhaseMismatch d
    else
      let d := d <| cam_seen := true |> <| secondary_seen_since_gap := true |>
                 <| phase_validated := true |> in
      let d := set_observation ((observation d) <| Observation.cam_seen := true |>) d in
      (set_locked_authority d, Ok tt)
  | RuntimeSecondaryMode.None | RuntimeSecondaryMode.SingleToothCam =>
    record_secondary_fault SyncLossReason.ConfigurationInvalid d
  end.

(** The loop body of [ingest_primary_edges]. *)
Definition record_ingestion (r : Result DecoderEvent.t SyncLossReason.t) (result : Ingestion.t) :
    Ingestion.t :=
  match r with
  | Ok DecoderEvent.IgnoredByFilter =>
    result <| Ingestion.ignored_edges ::= fun n => saturating_add 8 n 1 |>
           <| Ingestion.last_event := Some DecoderEvent.IgnoredByFilter |>
  | Ok event =>
    result <| Ingestion.processed_edges ::= fun n => saturating_add 8 n 1 |>
           <| Ingestion.last_event := Some event |>
  | Err reason =>
    result <| Ingestion.processed_edges ::= fun n => saturating_add 8 n 1 |>
           <| Ingestion.last_sync_loss := Some reason |>
  end.

Fixpoint ingest_edges (edges : list PrimaryEdgeSample.t) (d : t) (result : Ingestion.t) :
    t * Ingestion.t :=
  match edges with
  | [] => (d, result)
  | edge :: edges =>
    let '(d, r) :=
      ingest_primary_edge_with_kind (PrimaryEdgeSample.timestamp edge) (PrimaryEdgeSample.edge edge) d in
    ingest_edges edges d (record_ingestion r result)
  end.

Definition ingest_primary_edges (batch : PrimaryEdgeBatch.t) (d : t) : t * Ingestion.t :=
  ingest_edges (PrimaryEdgeBatch.as_slice batch) d Ingestion.default.
End Decoder.

(** ** Lemmas *)
Import Decoder.

(** A configuration whose fields have their widths and that [try_new] accepts. *)
Definition config_ok (c : DecoderConfig.t) : Prop :=
  u8 (DecoderConfig.nominal_teeth c) /\ u8 (DecoderConfig.missing_teeth c)
  /\ 0 < DecoderConfig.missing_teeth c
  /\ DecoderConfig.missing_teeth c + 2 <= DecoderConfig.nominal_teeth c
  /\ u16 (DecoderConfig.gap_ratio_threshold_x1000 c).

(** The threshold in force. *)
Definition threshold (c : DecoderConfig.t) : Z := DecoderConfig.normalized_gap_threshold_x1000 c.

Lemma threshold_u16 c : config_ok c -> u16 (threshold c) /\ 0 < threshold c.
Proof.
  unfold config_ok, threshold, DecoderConfig.normalized_gap_threshold_x1000,
    DEFAULT_MISSING_TOOTH_GAP_RATIO_X1000, fits. intros (_ & _ & _ & _ & Ht).
  destruct (Z.eqb_spec (DecoderConfig.gap_ratio_threshold_x1000 c) 0); lia.
Qed.

(** What holds of the decoder whatever its configuration: the authority it publishes is
    valid, and claims an absolute angle only for a validated phase. *)
Record authority_inv (d : Decoder.t) : Prop := {
  auth_valid : EngineTimeAuthority.validate (authority d) = Ok tt;
  auth_loss_count : u16 (EngineTimeAuthority.sync_loss_count (authority d));
  auth_absolute : EngineTimeAuthority.has_absolute_timing (authority d) = true ->
    phase_validated d = true /\ primary_locked d = true;
}.

(** The position invariant, which needs a nonzero edge filter. *)
Record decoder_inv (d : Decoder.t) : Prop := {
  inv_observed : observed_teeth d = DecoderConfig.nominal_teeth (config d)
    - DecoderConfig.missing_teeth (config d);
  inv_timestamp : forall t, last_edge_timestamp d = Some t -> u32 t;
  inv_previous : u32 (previous_interval d) /\ previous_interval d = last_normal_interval d;
  inv_first : last_edge_timestamp d = None -> previous_interval d = 0;
  inv_locked : primary_locked d = true ->
    1 <= current_tooth d <= observed_teeth d /\ teeth_since_gap d = current_tooth d
    /\ 0 < previous_interval d /\ is_Some (last_edge_timestamp d)
    /\ EngineTimeAuthority.crank (authority d) = CrankSyncState.PrimaryLocked;
  inv_searching : primary_locked d = false ->
    current_tooth d = 0 /\ phase_validated d = false
    /\ EngineTimeAuthority.has_primary_lock (authority d) = false;
}.

Definition decoder_ok (d : Decoder.t) : Prop :=
  config_ok (config d) /\ 0 < DecoderConfig.minimum_edge_interval (config d)
  /\ authority_inv d /\ decoder_inv d.

Lemma decoder_ok_new c d : config_ok c -> 0 < DecoderConfig.minimum_edge_interval c ->
  Decoder.try_new c = Ok d -> decoder_ok d.
Proof.
  unfold Decoder.try_new. intros Hc Hmin Hd. repeat case_match; simplify_eq.
  split_and!; [done|done| |].
  - constructor; simpl; try done; unfold fits; lia.
  - constructor; simpl; try done; unfold fits; lia.
Qed.

(** The two authorities a step ends with. *)
Lemma authority_inv_searching d : authority_inv d -> authority_inv (set_searching_authority d).
Proof. intros [_ Hl _]. by constructor. Qed.

Lemma authority_inv_locked d : authority_inv d -> primary_locked d = true ->
  authority_inv (set_locked_authority d).
Proof.
  intros [_ Hl _] Hlock. unfold set_locked_authority.
  destruct (phase_validated d) eqn:Hp; constructor; simpl; rewrite ?Hp, ?Hlock; try done.
Qed.

(** Updates that leave the authority as it is, or the lock and the phase. *)
Lemma authority_inv_ext d d' : authority d' = authority d ->
  (phase_validated d = true -> primary_locked d = true ->
   phase_validated d' = true /\ primary_locked d' = true) ->
  authority_inv d -> authority_inv d'.
Proof.
  intros Ha Hp [Hv Hl Habs]. constructor; rewrite ?Ha; [done..|]. intros H. by destruct (Habs H); apply Hp.
Qed.

Lemma authority_inv_drop r t i ratio d : authority_inv d -> authority_inv (drop_sync r t i ratio d).
Proof.
  intros [_ Hl _]. constructor; simpl; try done. unfold saturating_add, fits in *. lia.
Qed.

Lemma has_lock_set_locked d :
  EngineTimeAuthority.crank (authority (set_locked_authority d)) = CrankSyncState.PrimaryLocked.
Proof. unfold set_locked_authority. by destruct (phase_validated d). Qed.

(** [set_locked_authority] changes the authority only. *)
Lemma set_locked_fields d :
  exists a, set_locked_authority d = set_authority a d
    /\ EngineTimeAuthority.crank a = CrankSyncState.PrimaryLocked.
Proof. unfold set_locked_authority. destruct (phase_validated d); by eexists. Qed.

(** The authority at a fault of the secondary input. *)
Lemma record_fault_inv r d :
  authority_inv d -> authority_inv (fst (record_secondary_fault r d)).
Proof.
  intros [Hv Hl _]. unfold record_secondary_fault. simpl.
  unfold set_locked_authority, set_searching_authority. simpl.
  by destruct (primary_locked d) eqn:Hlock; constructor.
Qed.

Lemma record_fault_fields r d :
  let d' := fst (record_secondary_fault r d) in
  config d' = config d /\ observed_teeth d' = observed_teeth d
  /\ last_edge_timestamp d' = last_edge_timestamp d /\ previous_interval d' = previous_interval d
  /\ last_normal_interval d' = last_normal_interval d /\ current_tooth d' = current_tooth d
  /\ teeth_since_gap d' = teeth_since_gap d /\ primary_locked d' = primary_locked d
  /\ phase_validated d' = false
  /\ EngineTimeAuthority.sync_loss_count (authority d') = EngineTimeAuthority.sync_loss_count (authority d)
  /\ EngineTimeAuthority.crank (authority d') =
       (if primary_locked d then CrankSyncState.PrimaryLocked else CrankSyncState.PrimarySearching).
Proof.
  cbv zeta. unfold record_secondary_fault, set_locked_authority. simpl.
  destruct (primary_locked d) eqn:Hl; split_and!; done.
Qed.

Lemma validate_secondary_fields d : authority_inv d ->
  let d' := validate_secondary_before_next_gap d in
  authority_inv d' /\ config d' = config d /\ observed_teeth d' = observed_teeth d
  /\ last_normal_interval d' = last_normal_interval d
  /\ EngineTimeAuthority.sync_loss_count (authority d') = EngineTimeAuthority.sync_loss_count (authority d).
Proof.
  intros Ha. cbv zeta. unfold validate_secondary_before_next_gap.
  destruct (_ && _); [|by split_and!].
  pose proof (record_fault_inv SyncLossReason.SecondaryTimeout d Ha).
  pose proof (record_fault_fields SyncLossReason.SecondaryTimeout d) as Hf. cbv zeta in Hf.
  destruct (record_secondary_fault SyncLossReason.SecondaryTimeout d) as [d' r]. simpl in *. tauto.
Qed.

(** The state after a drop is a fresh search with the loss recorded. *)
Lemma drop_sync_ok r t i ratio d : u32 t -> decoder_ok d ->
  decoder_ok (drop_sync r t i ratio d) /\ primary_locked (drop_sync r t i ratio d) = false.
Proof.
  intros Ht (Hc & Hm & Ha & Hi). split; [|done]. split_and!; [done|done| |].
  - by apply authority_inv_drop.
  - destruct Hi. constructor; simpl; try done; try (unfold fits; lia). by intros t' [= <-].
Qed.

Lemma accept_gap_ok t i ratio d : u32 t -> decoder_ok d -> previous_interval d <> 0 ->
  decoder_ok (fst (accept_gap t i ratio d)).
Proof.
  intros Ht Hok Hp. pose proof Hok as (Hc & Hm & Ha & Hi). unfold accept_gap.
  destruct (_ && _); [by apply drop_sync_ok|]. simpl.
  destruct (validate_secondary_fields d Ha) as (Ha1 & Hcfg & Hobs & Hn & _).
  set (d1 := validate_secondary_before_next_gap d) in *.
  set (d2 := update_observation t i ratio _).
  destruct (set_locked_fields d2) as (a & Hset & Hcrank).
  destruct Hi. destruct Hc as (Hn8 & Hm8 & Hm0 & Hnm & Hthr).
  split_and!; rewrite ?Hset; simpl; rewrite ?Hcfg; try done.
  - rewrite <- Hset. apply authority_inv_locked; [|done].
    by apply (authority_inv_ext d1).
  - unfold fits in *. constructor; simpl; rewrite ?Hcfg, ?Hobs, ?Hn; try done.
    + by intros t' [= <-].
    + destruct inv_previous0 as [? <-]. done.
    + intros _. split_and!; try done; try lia; by eexists.
Qed.

Lemma saturating_tooth n m : 1 <= n -> n < m -> m <= 254 -> saturating_add 8 n 1 = n + 1.
Proof. unfold saturating_add. intros. change (2 ^ 8 - 1) with 255. lia. Qed.

Lemma accept_tooth_ok t i ratio d : u32 t -> u32 i -> i <> 0 -> decoder_ok d ->
  is_Some (last_edge_timestamp d) -> decoder_ok (fst (accept_tooth t i ratio d)).
Proof.
  intros Ht Hi0 Hnz Hok [lt Hlt]. pose proof Hok as (Hc & Hm & Ha & Hi). unfold accept_tooth.
  pose proof Hc as (Hn8 & Hm8 & Hm0 & Hnm & Hthr). destruct Hi. unfold fits in *.
  destruct (primary_locked d) eqn:Hlock; simpl.
  - destruct (Z.leb_spec (observed_teeth d) (current_tooth d)); [by apply drop_sync_ok|]. simpl.
    destruct (inv_locked0 eq_refl) as (Hct & Hts & _).
    set (d2 := update_observation t i ratio _). rewrite Hlock. cbn [fst].
    assert (authority_inv d2) as Ha2 by (by apply (authority_inv_ext d)).
    assert (primary_locked d2 = true) as Hl2 by done.
    pose proof (authority_inv_locked d2 Ha2 Hl2) as Hset2.
    destruct (set_locked_fields d2) as (a & Hset & Hcrank). rewrite Hset in *.
    split_and!; try done. constructor; simpl; rewrite ?Hlock; try done.
    + by intros t' [= <-].
    + intros _. rewrite Hts, (saturating_tooth (current_tooth d) (observed_teeth d)) by lia.
      split_and!; try done; try lia; by eexists.
  - destruct (inv_searching0 eq_refl) as (Hct & Hph & Hauth). rewrite Hlock. simpl.
    split_and!; try done.
    + apply authority_inv_searching. by apply (authority_inv_ext d).
    + constructor; simpl; rewrite ?Hlock; try done. by intros t' [= <-].
Qed.

(** Fields no position or authority claim reads. *)
Lemma decoder_ok_diag d g : decoder_ok d -> Diagnostics.authority g = authority d ->
  decoder_ok (d <| diagnostics := g |>).
Proof.
  intros (Hc & Hm & Ha & Hi) Hg. split_and!; [done|done| |].
  - by apply (authority_inv_ext d).
  - destruct Hi. constructor; simpl; try done; unfold authority in *; simpl; by rewrite Hg.
Qed.

Lemma decoder_ok_searching d : decoder_ok d -> primary_locked d = false ->
  decoder_ok (set_searching_authority d).
Proof.
  intros (Hc & Hm & Ha & Hi) Hl. split_and!; [done|done|by apply authority_inv_searching|].
  destruct Hi. constructor; simpl; try done; rewrite Hl; [done|]. intros _. by destruct (inv_searching0 Hl) as (? & ? & _).
Qed.

Lemma unlocked_of_zero d : decoder_ok d -> previous_interval d = 0 -> primary_locked d = false.
Proof.
  intros (_ & _ & _ & Hi) Hp. apply not_true_is_false. intros Hl.
  destruct (inv_locked _ Hi Hl) as (_ & _ & ? & _). lia.
Qed.

Lemma elapsed_u32 t lt : u32 (elapsed_ticks t lt).
Proof. apply fits_wrapping_sub. done. Qed.

Lemma ingest_primary_ok t e d : u32 t -> decoder_ok d ->
  decoder_ok (fst (ingest_primary_edge_with_kind t e d)).
Proof.
  intros Ht Hok. pose proof Hok as (Hc & Hm & Ha & Hi). unfold ingest_primary_edge_with_kind.
  destruct (negb (bool_decide _)).
  { simpl. destruct (primary_locked d) eqn:Hl; simpl; [by apply decoder_ok_diag|].
    apply decoder_ok_searching; [by apply decoder_ok_diag|done]. }
  destruct (last_edge_timestamp d) as [lt|] eqn:Hlt.
  2: { assert (primary_locked d = false) as Hl by (apply unlocked_of_zero; [done|by apply Hi]).
    simpl. apply decoder_ok_searching; [|done]. split_and!; [done|done| |].
    - by apply (authority_inv_ext d).
    - destruct Hi. constructor; simpl; rewrite ?Hl; try done; [by intros t' [= <-]|].
      intros _. by apply inv_searching0. }
  pose proof (elapsed_u32 t lt) as Hu. set (i := elapsed_ticks t lt) in *. cbv zeta.
  destruct (Z.ltb_spec i (DecoderConfig.minimum_edge_interval (config d))); [by apply decoder_ok_diag|].
  assert (i <> 0) as Hi0 by lia. rewrite (proj2 (Z.eqb_neq i 0) Hi0), orb_false_r.
  destruct (Z.eqb_spec (previous_interval d) 0) as [Hz|Hnz].
  - assert (primary_locked d = false) as Hl by (by apply unlocked_of_zero). simpl.
    apply decoder_ok_searching; [|done]. split_and!; [done|done| |].
    + by apply (authority_inv_ext d).
    + destruct Hi. constructor; simpl; rewrite ?Hl; try done; [by intros t' [= <-]|].
      intros _. by apply inv_searching0.
  - destruct (missing_tooth_gap_detected _ _ _) as [[[|] ratio]|]; [by apply accept_gap_ok| |done].
    apply accept_tooth_ok; try done; rewrite Hlt; by eexists.
Qed.

Lemma record_fault_ok r d : decoder_ok d -> decoder_ok (fst (record_secondary_fault r d)).
Proof.
  intros (Hc & Hm & Ha & Hi). pose proof (record_fault_inv r d Ha) as Ha'.
  pose proof (record_fault_fields r d) as Hf. cbv zeta in Hf.
  destruct (record_secondary_fault r d) as [d' x]. simpl in *.
  destruct Hf as (Hcfg & Hobs & Hlt & Hp & Hn & Hct & Hts & Hl & Hph & _ & Hcr).
  split_and!; rewrite ?Hcfg; try done. destruct Hi.
  constructor; rewrite ?Hobs, ?Hcfg, ?Hlt, ?Hp, ?Hn, ?Hct, ?Hts, ?Hl, ?Hph; try done.
  - intros Hlock. destruct (inv_locked0 Hlock) as (? & ? & ? & ? & _). by rewrite Hlock in Hcr.
  - intros Hlock. destruct (inv_searching0 Hlock) as (? & _ & _). split_and!; [done..|].
    unfold EngineTimeAuthority.has_primary_lock. by rewrite Hcr, Hlock.
Qed.

(** Confirming the phase of a locked decoder. *)
Lemma phase_validated_ok d o : decoder_ok d -> primary_locked d = true ->
  decoder_ok (set_locked_authority (set_observation o
    (d <| cam_seen := true |> <| secondary_seen_since_gap := true |> <| phase_validated := true |>))).
Proof.
  intros (Hc & Hm & Ha & Hi) Hl. split_and!; [done|done| |].
  - apply authority_inv_locked; [|done]. by apply (authority_inv_ext d).
  - destruct Hi. constructor; simpl; rewrite ?Hl; try done.
    intros _. destruct (inv_locked0 Hl) as (? & ? & ? & ? & _). done.
Qed.

Lemma ingest_secondary_edge_ok e d : decoder_ok d -> decoder_ok (fst (ingest_secondary_edge e d)).
Proof.
  intros Hok. unfold ingest_secondary_edge.
  destruct (RuntimeSecondaryProfile.mode _); [by apply record_fault_ok| |by apply record_fault_ok].
  destruct (negb (bool_decide _)); [by apply record_fault_ok|].
  set (d1 := set_observation _ _).
  assert (decoder_ok d1) as Hok1.
  { pose proof Hok as (Hc & Hm & Ha & Hi). split_and!; [done|done|by apply (authority_inv_ext d)|].
    destruct Hi. by constructor. }
  change (primary_locked d1) with (primary_locked d).
  destruct (primary_locked d) eqn:Hl; [|done].
  destruct (negb _); [by apply record_fault_ok|]. simpl.
  by apply (phase_validated_ok d1 (observation d1)).
Qed.

Lemma ingest_secondary_level_ok l d : decoder_ok d -> decoder_ok (fst (ingest_secondary_level l d)).
Proof.
  intros Hok. unfold ingest_secondary_level.
  destruct (RuntimeSecondaryProfile.mode _); [by apply record_fault_ok..|].
  destruct (primary_locked d) eqn:Hl; simpl; [|by apply record_fault_ok].
  destruct (negb _); [by apply record_fault_ok|].
  destruct (negb _); [by apply record_fault_ok|]. simpl.
  by apply (phase_validated_ok d).
Qed.

(** ** The state machine *)
Module Input.
Inductive t :=
| PrimaryEdge (timestamp : Ticks) (edge : TriggerEdge.t)
| SecondaryEdge (edge : TriggerEdge.t)
| SecondaryLevel (level : TriggerLevel.t)
| Reset.
Definition wf (i : t) : Prop := match i with PrimaryEdge timestamp _ => u32 timestamp | _ => True end.
End Input.

Definition decoder_step (i : Input.t) (d : Decoder.t) : Decoder.t :=
  match i with
  | Input.PrimaryEdge timestamp edge => fst (ingest_primary_edge_with_kind timestamp edge d)
  | Input.SecondaryEdge edge => fst (ingest_secondary_edge edge d)
  | Input.SecondaryLevel level => fst (ingest_secondary_level level d)
  | Input.Reset => reset d
  end.

Definition decoder_run (ins : list Input.t) (d : Decoder.t) : Decoder.t :=
  foldl (fun d i => decoder_step i d) d ins.

Lemma reset_ok d : decoder_ok d -> decoder_ok (reset d).
Proof.
  intros (Hc & Hm & _ & Hi). split_and!; [done|done| |].
  - constructor; simpl; try done; unfold fits; lia.
  - destruct Hi. constructor; simpl; try done; unfold fits; lia.
Qed.

Lemma decoder_step_ok i d : Input.wf i -> decoder_ok d -> decoder_ok (decoder_step i d).
Proof.
  intros Hwf Hok. destruct i; [by apply ingest_primary_ok|by apply ingest_secondary_edge_ok
    |by apply ingest_secondary_level_ok|by apply reset_ok].
Qed.

Lemma decoder_run_ok ins d : Forall Input.wf ins -> decoder_ok d -> decoder_ok (decoder_run ins d).
Proof.
  intros His. revert d. induction His as [|i ins Hi His IH]; intros d Hd; [done|].
  by apply IH, decoder_step_ok.
Qed.

(** *** Where a locked decoder stands *)

(** A primary edge after a known interval, classified by the gap test. *)
Lemma timed_edge t lt d : decoder_ok d -> last_normal_interval d <> 0 -> last_edge_timestamp d = Some lt ->
  DecoderConfig.minimum_edge_interval (config d) <= elapsed_ticks t lt ->
  ingest_primary_edge t d =
    let i := elapsed_ticks t lt in
    let ratio := Z.min (i * 1000 / last_normal_interval d) u16_max in
    if last_normal_interval d * threshold (config d) <=? i * 1000
    then accept_gap t i ratio d else accept_tooth t i ratio d.
Proof.
  intros (Hc & Hm & _ & Hi) Hn Hlt Hmin.
  destruct (inv_previous _ Hi) as [Hpu Hpn]. destruct (threshold_u16 _ Hc) as [Hthr _].
  unfold ingest_primary_edge, ingest_primary_edge_with_kind.
  rewrite bool_decide_true by done. cbn [negb]. rewrite Hlt. cbv zeta. rewrite Hpn in *.
  destruct (Z.ltb_spec (elapsed_ticks t lt) (DecoderConfig.minimum_edge_interval (config d))); [lia|].
  destruct (Z.eqb_spec (last_normal_interval d) 0); [lia|].
  destruct (Z.eqb_spec (elapsed_ticks t lt) 0); [lia|]. cbn [orb].
  fold (threshold (config d)). rewrite gap_detected_spec; [|apply elapsed_u32|done..].
  destruct (_ <=? _); reflexivity.
Qed.

Lemma locked_edge t lt d : decoder_ok d -> primary_locked d = true -> last_edge_timestamp d = Some lt ->
  DecoderConfig.minimum_edge_interval (config d) <= elapsed_ticks t lt ->
  ingest_primary_edge t d =
    let i := elapsed_ticks t lt in
    let ratio := Z.min (i * 1000 / last_normal_interval d) u16_max in
    if last_normal_interval d * threshold (config d) <=? i * 1000
    then accept_gap t i ratio d else accept_tooth t i ratio d.
Proof.
  intros Hok Hl. apply timed_edge; [done|]. destruct Hok as (_ & _ & _ & Hi).
  destruct (inv_locked _ Hi Hl) as (_ & _ & Hp & _). destruct (inv_previous _ Hi) as [_ <-]. lia.
Qed.

(** The state the decoder is in at tooth [k] of a revolution, its last edge at [t] and its
    tooth interval [p]. *)
Definition at_tooth (d : Decoder.t) (k : Z) (t p : Ticks) : Prop :=
  decoder_ok d /\ primary_locked d = true /\ current_tooth d = k
  /\ last_edge_timestamp d = Some t /\ last_normal_interval d = p.

(** An interval read as a normal tooth, or as the gap, after a tooth interval [p]. *)
Definition reads_tooth (c : DecoderConfig.t) (p i : Z) : Prop :=
  u32 i /\ DecoderConfig.minimum_edge_interval c <= i /\ i * 1000 < p * threshold c.
Definition reads_gap (c : DecoderConfig.t) (p i : Z) : Prop :=
  u32 i /\ DecoderConfig.minimum_edge_interval c <= i /\ p * threshold c <= i * 1000.

(** [set_locked_authority] as a function of the authority it computes. *)
Lemma update_then_lock t i ratio d :
  exists g, set_locked_authority (update_observation t i ratio d) = d <| diagnostics := g |>.
Proof.
  destruct (set_locked_fields (update_observation t i ratio d)) as (a & -> & _).
  by eexists.
Qed.

Lemma accept_tooth_locked t i ratio d : primary_locked d = true -> current_tooth d < observed_teeth d ->
  exists g, accept_tooth t i ratio d =
    (d <| current_tooth := saturating_add 8 (current_tooth d) 1 |>
       <| teeth_since_gap := saturating_add 8 (teeth_since_gap d) 1 |>
       <| last_edge_timestamp := Some t |> <| previous_interval := i |>
       <| last_normal_interval := i |> <| diagnostics := g |>,
     Ok (DecoderEvent.Tooth (saturating_add 8 (current_tooth d) 1))).
Proof.
  intros Hl Hk. unfold accept_tooth. rewrite Hl.
  destruct (Z.leb_spec (observed_teeth d) (current_tooth d)); [lia|]. cbn [andb].
  cbv zeta. match goal with |- context [update_observation t i ratio ?x] => set (d1 := x) end.
  assert (primary_locked (update_observation t i ratio d1) = true) as -> by exact Hl.
  destruct (update_then_lock t i ratio d1) as [g Hg]. exists g. rewrite Hg. reflexivity.
Qed.

Lemma tooth_advances d k t p i : at_tooth d k t p -> reads_tooth (config d) p i -> k < observed_teeth d ->
  exists d', ingest_primary_edge (wrapping_add 32 t i) d = (d', Ok (DecoderEvent.Tooth (k + 1)))
    /\ at_tooth d' (k + 1) (wrapping_add 32 t i) i /\ config d' = config d
    /\ secondary_seen_since_gap d' = secondary_seen_since_gap d.
Proof.
  intros (Hok & Hl & Hk & Ht & Hp) (Hu & Hmin & Hlt) Hobs.
  assert (u32 (wrapping_add 32 t i)) as Hu' by (by apply fits_wrapping_add).
  assert (elapsed_ticks (wrapping_add 32 t i) t = i) as He by (by apply wrapping_sub_add).
  pose proof (locked_edge (wrapping_add 32 t i) t d Hok Hl Ht) as H. cbv zeta in H.
  rewrite He, Hp in H. specialize (H Hmin). destruct (Z.leb_spec (p * threshold (config d)) (i * 1000)); [lia|].
  pose proof Hok as (Hc & Hm & _ & Hi). destruct (inv_locked _ Hi Hl) as (Hct & _).
  pose proof (ingest_primary_ok (wrapping_add 32 t i) (DecoderConfig.primary_edge (config d)) d Hu' Hok)
    as Hok'. fold (ingest_primary_edge (wrapping_add 32 t i) d) in Hok'.
  rewrite H in Hok' |- *.
  destruct (accept_tooth_locked (wrapping_add 32 t i) i (Z.min (i * 1000 / p) u16_max) d Hl ltac:(lia))
    as [g Hg].
  rewrite Hg in Hok' |- *. cbn [fst] in Hok'.
  pose proof (inv_observed _ Hi). destruct Hc as (Hn8 & _ & Hm0 & _). unfold fits in *.
  rewrite Hk, (saturating_tooth k (observed_teeth d)) in * by lia.
  eexists. split; [reflexivity|]. split; [|split; reflexivity]. split; [exact Hok'|].
  split_and!; [exact Hl|reflexivity..].
Qed.

(** The gap restarts the count at tooth 1; the interval it is compared with next is the
    last normal one. *)
Lemma accept_gap_locked t i ratio d : authority_inv d ->
  primary_locked d && negb (teeth_since_gap d =? observed_teeth d) = false ->
  exists d', accept_gap t i ratio d = (d', Ok (DecoderEvent.Gap 1))
    /\ primary_locked d' = true /\ current_tooth d' = 1 /\ last_edge_timestamp d' = Some t
    /\ last_normal_interval d' = last_normal_interval d /\ config d' = config d
    /\ observed_teeth d' = observed_teeth d
    /\ EngineTimeAuthority.sync_loss_count (authority d')
       = EngineTimeAuthority.sync_loss_count (authority d).
Proof.
  intros Ha Hc. unfold accept_gap. rewrite Hc. cbv zeta.
  destruct (validate_secondary_fields d Ha) as (Ha1 & Hcfg & Hobs & Hn & Hcount).
  set (d1 := validate_secondary_before_next_gap d) in *.
  match goal with |- context [update_observation t i ratio ?x] => set (d2 := x) end.
  exists (set_locked_authority (update_observation t i ratio d2)). split; [reflexivity|].
  assert (EngineTimeAuthority.sync_loss_count (authority (set_locked_authority
    (update_observation t i ratio d2))) = EngineTimeAuthority.sync_loss_count (authority d)) as Hs.
  { rewrite <- Hcount. unfold set_locked_authority. by destruct (phase_validated _). }
  destruct (update_then_lock t i ratio d2) as [g Hg]. rewrite Hg in *.
  split_and!; [reflexivity..|exact Hn|exact Hcfg|exact Hobs|exact Hs].
Qed.

Lemma gap_restarts d t p i : at_tooth d (observed_teeth d) t p -> reads_gap (config d) p i ->
  exists d', ingest_primary_edge (wrapping_add 32 t i) d = (d', Ok (DecoderEvent.Gap 1))
    /\ at_tooth d' 1 (wrapping_add 32 t i) p /\ config d' = config d
    /\ observed_teeth d' = observed_teeth d.
Proof.
  intros (Hok & Hl & Hk & Ht & Hp) (Hu & Hmin & Hge).
  assert (u32 (wrapping_add 32 t i)) as Hu' by (by apply fits_wrapping_add).
  assert (elapsed_ticks (wrapping_add 32 t i) t = i) as He by (by apply wrapping_sub_add).
  pose proof (locked_edge (wrapping_add 32 t i) t d Hok Hl Ht) as H. cbv zeta in H.
  rewrite He, Hp in H. specialize (H Hmin).
  destruct (Z.leb_spec (p * threshold (config d)) (i * 1000)); [|lia].
  pose proof Hok as (Hc & Hm & Ha & Hi). destruct (inv_locked _ Hi Hl) as (_ & Hts & _).
  pose proof (ingest_primary_ok (wrapping_add 32 t i) (DecoderConfig.primary_edge (config d)) d Hu' Hok)
    as Hok'. fold (ingest_primary_edge (wrapping_add 32 t i) d) in Hok'.
  rewrite H in Hok' |- *.
  destruct (accept_gap_locked (wrapping_add 32 t i) i (Z.min (i * 1000 / p) u16_max) d Ha)
    as (d' & Hg & Hl' & Hk' & Ht' & Hn' & Hcfg & Hobs & _).
  { by rewrite Hl, Hts, Hk, Z.eqb_refl. }
  rewrite Hg in Hok' |- *. exists d'. split; [reflexivity|]. split; [|done]. split; [exact Hok'|].
  split_and!; [exact Hl'|exact Hk'|exact Ht'|congruence].
Qed.

Lemma same_config_observed d d' : decoder_ok d -> decoder_ok d' -> config d' = config d ->
  observed_teeth d' = observed_teeth d.
Proof.
  intros (_ & _ & _ & Hi) (_ & _ & _ & Hi') Hc. by rewrite (inv_observed _ Hi), (inv_observed _ Hi'), Hc.
Qed.

(** *** Feeding a wheel *)

(** Feeding one edge after each of the intervals, from time [t], with the events. *)
Fixpoint feed (t : Ticks) (intervals : list Z) (d : Decoder.t) :
    Ticks * Decoder.t * list (Result DecoderEvent.t SyncLossReason.t) :=
  match intervals with
  | [] => (t, d, [])
  | i :: intervals =>
    let t := wrapping_add 32 t i in
    let '(d, r) := ingest_primary_edge t d in
    let '(t, d, rs) := feed t intervals d in
    (t, d, r :: rs)
  end.

Lemma feed_app t is1 is2 d :
  feed t (is1 ++ is2) d =
    let '(t1, d1, rs1) := feed t is1 d in
    let '(t2, d2, rs2) := feed t1 is2 d1 in (t2, d2, rs1 ++ rs2).
Proof.
  revert t d. induction is1 as [|i is1 IH]; intros t d; simpl.
  - by destruct (feed t is2 d) as [[? ?] ?].
  - destruct (ingest_primary_edge _ _) as [d1 r]. rewrite IH.
    destruct (feed _ is1 d1) as [[? d2] ?]. by destruct (feed _ is2 d2) as [[? ?] ?].
Qed.

(** Each interval reads as a tooth after the one before it. *)
Fixpoint teeth_ok (c : DecoderConfig.t) (p : Z) (intervals : list Z) : Prop :=
  match intervals with
  | [] => True
  | i :: intervals => reads_tooth c p i /\ teeth_ok c i intervals
  end.

Definition tooth_events (k : Z) (n : nat) : list (Result DecoderEvent.t SyncLossReason.t) :=
  (fun j => Ok (DecoderEvent.Tooth j)) <$> seqZ (k + 1) (Z.of_nat n).

Lemma last_default {A} (x : A) l a b : List.last (x :: l) a = List.last (x :: l) b.
Proof. revert x. induction l as [|y l IH]; intros x; [done|]. apply (IH y). Qed.

Lemma feed_teeth intervals d k t p : at_tooth d k t p -> teeth_ok (config d) p intervals ->
  k + Z.of_nat (length intervals) <= observed_teeth d ->
  exists t' d', feed t intervals d = (t', d', tooth_events k (length intervals))
    /\ at_tooth d' (k + Z.of_nat (length intervals)) t' (List.last intervals p)
    /\ config d' = config d /\ observed_teeth d' = observed_teeth d
    /\ secondary_seen_since_gap d' = secondary_seen_since_gap d.
Proof.
  revert d k t p. induction intervals as [|i intervals IH]; intros d k t p Hat Hok Hlen; simpl.
  - exists t, d. rewrite Z.add_0_r. by split_and!.
  - destruct Hok as [Hi Hok]. simpl in Hlen.
    destruct (tooth_advances d k t p i Hat Hi ltac:(lia)) as (d1 & Hd1 & Hat1 & Hc1 & Hs1).
    assert (observed_teeth d1 = observed_teeth d) as Ho1
      by (apply same_config_observed; [apply Hat|apply Hat1|done]).
    rewrite Hd1. destruct (IH d1 (k + 1) _ i Hat1) as (t' & d' & -> & Hat' & Hc' & Ho' & Hs');
      [by rewrite Hc1|lia|].
    exists t', d'. split_and!; [|..|congruence|congruence|congruence].
    + f_equal. unfold tooth_events. rewrite (seqZ_cons (k + 1)) by lia. rewrite fmap_cons.
      replace (Z.succ (k + 1)) with (k + 1 + 1) by lia.
      by replace (Z.pred (Z.of_nat (S (length intervals)))) with (Z.of_nat (length intervals)) by lia.
    + replace (k + Z.of_nat (S (length intervals))) with (k + 1 + Z.of_nat (length intervals)) by lia.
      destruct intervals as [|j intervals]; [done|].
      by rewrite (last_default j intervals p i).
Qed.

(** Whole revolutions from tooth 1: the intervals of the remaining teeth and of the gap. *)
Fixpoint revolutions_ok (c : DecoderConfig.t) (n : nat) (p : Z) (revs : list (list Z * Z)) : Prop :=
  match revs with
  | [] => True
  | (teeth, gap) :: revs =>
    S (length teeth) = n /\ teeth_ok c p teeth /\ reads_gap c (List.last teeth p) gap
    /\ revolutions_ok c n (List.last teeth p) revs
  end.

Definition wheel_intervals (revs : list (list Z * Z)) : list Z :=
  concat ((fun rev => rev.1 ++ [rev.2]) <$> revs).

(** The events of one revolution of a wheel with [n] teeth. *)
Definition revolution_events (n : nat) : list (Result DecoderEvent.t SyncLossReason.t) :=
  tooth_events 1 (n - 1) ++ [Ok (DecoderEvent.Gap 1)].

Lemma feed_revolutions revs d t p n : at_tooth d 1 t p -> observed_teeth d = Z.of_nat n ->
  revolutions_ok (config d) n p revs ->
  exists t' d' p', feed t (wheel_intervals revs) d
      = (t', d', concat (replicate (length revs) (revolution_events n)))
    /\ at_tooth d' 1 t' p' /\ config d' = config d.
Proof.
  revert d t p. induction revs as [|[teeth gap] revs IH]; intros d t p Hat Hn Hok; [by exists t, d, p|].
  destruct Hok as (Hlen & Hteeth & Hgap & Hrevs). unfold wheel_intervals. rewrite fmap_cons. simpl.
  rewrite <- app_assoc, feed_app.
  destruct (feed_teeth teeth d 1 t p Hat Hteeth ltac:(lia)) as (t1 & d1 & -> & Hat1 & Hc1 & Ho1 & _).
  simpl. replace (1 + Z.of_nat (length teeth)) with (observed_teeth d1) in Hat1 by lia.
  destruct (gap_restarts d1 t1 _ gap Hat1 ltac:(by rewrite Hc1)) as (d2 & -> & Hat2 & Hc2 & Ho2).
  fold (wheel_intervals revs).
  destruct (IH d2 _ _ Hat2 ltac:(lia)) as (t' & d' & p' & -> & Hat' & Hc'); [by rewrite Hc2, Hc1|].
  exists t', d', p'. split_and!; [|done|congruence]. f_equal. unfold revolution_events.
  replace (n - 1)%nat with (length teeth) by lia. by rewrite <- app_assoc.
Qed.

(** *** Acquiring synchronisation *)
Definition searching (d : Decoder.t) (t p : Ticks) : Prop :=
  decoder_ok d /\ primary_locked d = false /\ last_edge_timestamp d = Some t
  /\ last_normal_interval d = p /\ p <> 0.

Lemma searching_tooth d t p i : searching d t p -> reads_tooth (config d) p i ->
  exists d', ingest_primary_edge (wrapping_add 32 t i) d = (d', Ok DecoderEvent.Searching)
    /\ searching d' (wrapping_add 32 t i) i /\ config d' = config d.
Proof.
  intros (Hok & Hl & Ht & Hp & Hnz) (Hu & Hmin & Hlt). rewrite <- Hp in Hnz.
  assert (u32 (wrapping_add 32 t i)) as Hu' by (by apply fits_wrapping_add).
  assert (elapsed_ticks (wrapping_add 32 t i) t = i) as He by (by apply wrapping_sub_add).
  pose proof (timed_edge (wrapping_add 32 t i) t d Hok Hnz Ht) as H. cbv zeta in H.
  rewrite He, Hp in H. specialize (H Hmin).
  destruct (Z.leb_spec (p * threshold (config d)) (i * 1000)); [lia|].
  pose proof (ingest_primary_ok (wrapping_add 32 t i) (DecoderConfig.primary_edge (config d)) d Hu' Hok)
    as Hok'. fold (ingest_primary_edge (wrapping_add 32 t i) d) in Hok'.
  rewrite H in Hok' |- *. unfold accept_tooth in *. rewrite Hl in *. cbn [andb] in *. cbv zeta in *.
  match goal with |- context [update_observation ?a ?b ?c ?x] => set (d1 := x) in * end.
  assert (forall a b c, primary_locked (update_observation a b c d1) = false) as Hl1
    by (intros; exact Hl).
  rewrite Hl1 in Hok' |- *. eexists. split; [reflexivity|]. split; [|reflexivity].
  split; [exact Hok'|]. split_and!; [exact Hl|reflexivity..|].
  destruct Hok as (_ & Hmin0 & _). lia.
Qed.

Lemma searching_gap d t p i : searching d t p -> reads_gap (config d) p i ->
  exists d', ingest_primary_edge (wrapping_add 32 t i) d = (d', Ok (DecoderEvent.Gap 1))
    /\ at_tooth d' 1 (wrapping_add 32 t i) p /\ config d' = config d.
Proof.
  intros (Hok & Hl & Ht & Hp & Hnz) (Hu & Hmin & Hge). rewrite <- Hp in Hnz.
  assert (u32 (wrapping_add 32 t i)) as Hu' by (by apply fits_wrapping_add).
  assert (elapsed_ticks (wrapping_add 32 t i) t = i) as He by (by apply wrapping_sub_add).
  pose proof (timed_edge (wrapping_add 32 t i) t d Hok Hnz Ht) as H. cbv zeta in H.
  rewrite He, Hp in H. specialize (H Hmin).
  destruct (Z.leb_spec (p * threshold (config d)) (i * 1000)); [|lia].
  pose proof (ingest_primary_ok (wrapping_add 32 t i) (DecoderConfig.primary_edge (config d)) d Hu' Hok)
    as Hok'. fold (ingest_primary_edge (wrapping_add 32 t i) d) in Hok'.
  rewrite H in Hok' |- *. pose proof Hok as (_ & _ & Ha & _).
  destruct (accept_gap_locked (wrapping_add 32 t i) i (Z.min (i * 1000 / p) u16_max) d Ha)
    as (d' & Hg & Hl' & Hk' & Ht' & Hn' & Hcfg & _); [by rewrite Hl|].
  rewrite Hg in Hok' |- *. exists d'. split; [reflexivity|]. split; [|done]. split; [exact Hok'|].
  split_and!; [exact Hl'|exact Hk'|exact Ht'|congruence].
Qed.

Lemma feed_searching intervals d t p : searching d t p -> teeth_ok (config d) p intervals ->
  exists t' d', feed t intervals d = (t', d', replicate (length intervals) (Ok DecoderEvent.Searching))
    /\ searching d' t' (List.last intervals p) /\ config d' = config d.
Proof.
  revert d t p. induction intervals as [|i intervals IH]; intros d t p Hs Hok; [by exists t, d|].
  destruct Hok as [Hi Hok]. cbn [feed length replicate].
  destruct (searching_tooth d t p i Hs Hi) as (d1 & -> & Hs1 & Hc1).
  destruct (IH d1 _ i Hs1) as (t' & d' & -> & Hs' & Hc'); [by rewrite Hc1|].
  exists t', d'. split_and!; [done| |congruence].
  destruct intervals as [|j intervals]; [done|].
  change (List.last (i :: j :: intervals) p) with (List.last (j :: intervals) p).
  by rewrite (last_default j intervals p i).
Qed.

(** The first two edges of a fresh decoder: a time, then a first interval. *)
Lemma fresh_first c d t0 i : config_ok c -> 0 < DecoderConfig.minimum_edge_interval c ->
  Decoder.try_new c = Ok d -> u32 t0 -> u32 i -> DecoderConfig.minimum_edge_interval c <= i ->
  exists d0 d1, ingest_primary_edge t0 d = (d0, Ok DecoderEvent.FirstEdge)
    /\ ingest_primary_edge (wrapping_add 32 t0 i) d0 = (d1, Ok DecoderEvent.Searching)
    /\ searching d1 (wrapping_add 32 t0 i) i /\ config d1 = c
    /\ observed_teeth d1 = DecoderConfig.nominal_teeth c - DecoderConfig.missing_teeth c.
Proof.
  intros Hc Hm Hd Ht0 Hi Hmin. pose proof (decoder_ok_new c d Hc Hm Hd) as Hok.
  assert (d = Decoder.mk c (DecoderConfig.nominal_teeth c - DecoderConfig.missing_teeth c)
    None 0 0 0 0 false false false false Diagnostics.empty) as ->
    by (unfold Decoder.try_new in Hd; repeat case_match; by simplify_eq).
  pose proof (ingest_primary_ok t0 (DecoderConfig.primary_edge c) _ Ht0 Hok) as Hok0.
  unfold ingest_primary_edge in *. unfold ingest_primary_edge_with_kind at 1 in Hok0.
  unfold ingest_primary_edge_with_kind at 1. cbn [config] in *.
  rewrite bool_decide_true in Hok0 |- * by done. cbn [negb last_edge_timestamp fst] in *.
  set (d0 := set_searching_authority _) in *.
  exists d0. assert (u32 (wrapping_add 32 t0 i)) as Hu by (by apply fits_wrapping_add).
  pose proof (ingest_primary_ok (wrapping_add 32 t0 i) (DecoderConfig.primary_edge c) _ Hu Hok0) as Hok1.
  assert (elapsed_ticks (wrapping_add 32 t0 i) t0 = i) as He by (by apply wrapping_sub_add).
  unfold ingest_primary_edge_with_kind in Hok1 |- *.
  change (config d0) with c in *. change (last_edge_timestamp d0) with (Some t0) in *.
  change (previous_interval d0) with 0 in *.
  rewrite bool_decide_true in Hok1 |- * by done. cbn [negb] in *. rewrite He in *.
  destruct (Z.ltb_spec i (DecoderConfig.minimum_edge_interval c)); [lia|].
  rewrite Z.eqb_refl in Hok1 |- *. cbn [orb] in *. cbv zeta in *.
  eexists. split; [reflexivity|]. split; [reflexivity|]. split; [|by split].
  split; [exact Hok1|]. split_and!; [reflexivity..|lia].
Qed.

Lemma crank_angle_bounds t d a : crank_angle_at t d = Some a ->
  0 <= a < ENGINE_CYCLE /\ primary_locked d = true.
Proof.
  unfold crank_angle_at. destruct (primary_locked d); [|done]. cbn [negb orb].
  destruct (current_tooth d =? 0); [done|]. destruct (TriggerAngle.normalized_angle_deg10 _); [|done].
  cbv zeta. intros [= <-]. rewrite normalize_deg10_i32_mod. split; [apply cycle_bounds|done].
Qed.

(** ** Properties *)

(** C14: with a nonzero edge filter, whatever sequence of edges, levels and resets a decoder
    is fed, with timestamps wrapping at 32 bits: when locked its tooth is between 1 and
    the number of physical teeth, equals the count since the gap, and the authority says
    locked; when not locked the tooth is 0 and there is neither lock nor angle; the
    published authority is always valid, and claims an absolute angle only while locked
    with a validated phase; and every angle is within one engine cycle. *)
Theorem decoder_run_invariant c d ins :
  config_ok c -> 0 < DecoderConfig.minimum_edge_interval c -> Decoder.try_new c = Ok d ->
  Forall Input.wf ins ->
  let d' := decoder_run ins d in
  (if primary_locked d'
   then 1 <= current_tooth d' <= observed_teeth d' /\ teeth_since_gap d' = current_tooth d'
        /\ EngineTimeAuthority.has_primary_lock (authority d') = true
   else current_tooth d' = 0 /\ EngineTimeAuthority.has_primary_lock (authority d') = false)
  /\ EngineTimeAuthority.validate (authority d') = Ok tt
  /\ (EngineTimeAuthority.has_absolute_timing (authority d') = true ->
      phase_validated d' = true /\ primary_locked d' = true)
  /\ (forall t a, crank_angle_at t d' = Some a -> 0 <= a < ENGINE_CYCLE /\ primary_locked d' = true).
Proof.
  intros Hc Hm Hd Hins d'. pose proof (decoder_ok_new c d Hc Hm Hd) as Hok.
  destruct (decoder_run_ok ins d Hins Hok) as (_ & _ & [Hv _ Habs] & Hi). fold d' in Hv, Habs, Hi.
  split_and!; [|done|done|intros t a; apply crank_angle_bounds].
  destruct (primary_locked d') eqn:Hl.
  - destruct (inv_locked _ Hi Hl) as (Hct & Hts & _ & _ & Hcr). split_and!; try done; try lia.
    unfold EngineTimeAuthority.has_primary_lock. by rewrite Hcr.
  - by destruct (inv_searching _ Hi Hl) as (? & _ & ?).
Qed.

(** C15: a decoder acquires synchronisation at the first gap of a turning wheel and keeps it
    for any number of revolutions: fed a first edge, some teeth and a gap, then whole
    revolutions in which every interval reads against the one before it as the tooth or
    the gap it is, at any changing speed and across overflows of the 32-bit clock, it
    reports exactly the search, the gap, and in each revolution the teeth 2 to the last
    and the gap, and ends locked at tooth 1. *)
Theorem decoder_locks_and_holds c d n t0 i0 teeth gap revs :
  config_ok c -> 0 < DecoderConfig.minimum_edge_interval c -> Decoder.try_new c = Ok d ->
  n = Z.to_nat (DecoderConfig.nominal_teeth c - DecoderConfig.missing_teeth c) ->
  u32 t0 -> u32 i0 -> DecoderConfig.minimum_edge_interval c <= i0 ->
  teeth_ok c i0 teeth -> reads_gap c (List.last teeth i0) gap ->
  revolutions_ok c n (List.last teeth i0) revs ->
  exists d0 t' d' p', ingest_primary_edge t0 d = (d0, Ok DecoderEvent.FirstEdge)
    /\ feed t0 (i0 :: teeth ++ [gap] ++ wheel_intervals revs) d0 =
       (t', d', Ok DecoderEvent.Searching :: replicate (length teeth) (Ok DecoderEvent.Searching)
                ++ [Ok (DecoderEvent.Gap 1)]
                ++ concat (replicate (length revs) (revolution_events n)))
    /\ at_tooth d' 1 t' p'.
Proof.
  intros Hc Hm Hd -> Ht0 Hi0 Hmin Hteeth Hgap Hrevs.
  destruct (fresh_first c d t0 i0 Hc Hm Hd Ht0 Hi0 Hmin) as (d0 & d1 & Hd0 & Hd1 & Hs1 & Hc1 & Hobs).
  exists d0. cbn [feed]. rewrite Hd1. rewrite feed_app.
  destruct (feed_searching teeth d1 _ i0 Hs1) as (t2 & d2 & -> & Hs2 & Hc2); [by rewrite Hc1|].
  rewrite feed_app. cbn [feed].
  destruct (searching_gap d2 t2 _ gap Hs2) as (d3 & -> & Hat & Hc3); [by rewrite Hc2, Hc1|].
  assert (observed_teeth d3
    = Z.of_nat (Z.to_nat (DecoderConfig.nominal_teeth c - DecoderConfig.missing_teeth c))) as Ho3.
  { destruct Hat as ((Hck & _ & _ & Hi) & _). rewrite (inv_observed _ Hi), Hc3, Hc2, Hc1.
    unfold config_ok, fits in *. lia. }
  destruct (feed_revolutions revs d3 _ _ _ Hat Ho3) as (t' & d' & p' & -> & Hat' & _);
    [by rewrite Hc3, Hc2, Hc1|].
  exists t', d', p'. by split_and!.
Qed.

(** a locked decoder judges every primary edge that passes the filter: a tooth interval
    before the last tooth advances the count, the gap after the last tooth restarts it, and
    any other edge drops synchronisation at once: the decoder is no longer locked, it has no
    angle, its authority says sync lost with one more loss counted, and the reason is
    recorded. *)
Theorem locked_edge_verdict d k t p i : at_tooth d k t p -> u32 i ->
  DecoderConfig.minimum_edge_interval (config d) <= i ->
  let '(d', r) := ingest_primary_edge (wrapping_add 32 t i) d in
  if (if p * threshold (config d) <=? i * 1000 then k =? observed_teeth d else k <? observed_teeth d)
  then at_tooth d' (if p * threshold (config d) <=? i * 1000 then 1 else k + 1) (wrapping_add 32 t i)
         (if p * threshold (config d) <=? i * 1000 then p else i)
       /\ is_ok r = true
  else r = Err SyncLossReason.WrongToothCount /\ primary_locked d' = false
    /\ (forall now, crank_angle_at now d' = None)
    /\ EngineTimeAuthority.crank (authority d') = CrankSyncState.SyncLost
    /\ EngineTimeAuthority.sync_loss_count (authority d')
       = Z.min (EngineTimeAuthority.sync_loss_count (authority d) + 1) u16_max
    /\ Diagnostics.last_sync_loss (diagnostics d') = Some SyncLossReason.WrongToothCount.
Proof.
  intros Hat Hi Hmin. pose proof Hat as (Hok & Hl & Hk & Ht & Hp).
  assert (elapsed_ticks (wrapping_add 32 t i) t = i) as He by (by apply wrapping_sub_add).
  pose proof (locked_edge (wrapping_add 32 t i) t d Hok Hl Ht) as H. cbv zeta in H.
  rewrite He, Hp in H. specialize (H Hmin).
  pose proof Hok as (_ & _ & _ & Hinv). destruct (inv_locked _ Hinv Hl) as (Hct & Hts & _).
  destruct (Z.leb_spec (p * threshold (config d)) (i * 1000)) as [Hg|Hg].
  - destruct (Z.eqb_spec k (observed_teeth d)) as [Heq|Hne].
    + rewrite Heq in Hat. destruct (gap_restarts d t p i Hat ltac:(by split)) as (d' & -> & Hat' & _).
      by split.
    + rewrite H. unfold accept_gap. rewrite Hl, Hts, Hk, (proj2 (Z.eqb_neq _ _) Hne). by split_and!.
  - destruct (Z.ltb_spec k (observed_teeth d)) as [Hlt|Hge].
    + destruct (tooth_advances d k t p i Hat ltac:(by split) Hlt) as (d' & -> & Hat' & _). by split.
    + rewrite H. unfold accept_tooth. rewrite Hl, Hk, (proj2 (Z.leb_le _ _) Hge). by split_and!.
Qed.

(** The angle between two teeth. *)
Definition tooth_pitch (c : DecoderConfig.t) : Z :=
  CRANK_REV * DecoderConfig.tooth_angle_multiplier c / DecoderConfig.nominal_teeth c.

Lemma crank_angle_at_edge d k t p angle e : at_tooth d k t p ->
  u8 (DecoderConfig.tooth_angle_multiplier (config d)) ->
  TriggerAngle.angle_deg10 (DecoderConfig.trigger_angle_atdc_deg10 (config d)) = Some angle ->
  u32 e -> e <= 1000 * p ->
  crank_angle_at (wrapping_add 32 t e) d =
    Some ((angle + (k - 1) * tooth_pitch (config d) + e * tooth_pitch (config d) / p) mod ENGINE_CYCLE).
Proof.
  intros (Hok & Hl & Hk & Ht & Hp) Hmult Hangle Hu He.
  pose proof Hok as (Hc & _ & _ & Hi). destruct (inv_locked _ Hi Hl) as (Hct & _ & Hpos & _).
  destruct (inv_previous _ Hi) as [_ Hpn]. rewrite Hpn, Hp in Hpos.
  pose proof (inv_observed _ Hi) as Hobs. destruct Hc as (Hn8 & Hm8 & Hm0 & Hnm & _). unfold fits in *.
  assert (tooth_angle_deg10 d = tooth_pitch (config d)) as Hpitch.
  { unfold tooth_angle_deg10, tooth_pitch, saturating_mul, CRANK_REV. f_equal. lia. }
  set (w := tooth_pitch (config d)) in *.
  assert (0 <= w <= 306000) as Hw.
  { unfold w, tooth_pitch, CRANK_REV. split; [apply Z.div_pos; lia|].
    apply Z.div_le_upper_bound; nia. }
  assert (0 <= e * w / p <= 306000000) as Hew.
  { split; [apply Z.div_pos; nia|]. apply Z.div_le_upper_bound; nia. }
  unfold crank_angle_at, TriggerAngle.normalized_angle_deg10. rewrite Hl, Hk, Hangle, Ht, Hp, Hpitch.
  destruct (Z.eqb_spec k 0); [lia|]. cbn [negb orb]. cbv zeta.
  unfold elapsed_ticks. rewrite wrapping_sub_add by (unfold fits; lia).
  destruct (Z.ltb_spec 0 p); [|lia]. rewrite normalize_deg10_mod, normalize_deg10_i32_mod.
  pose proof (cycle_bounds angle) as Hcb. change ENGINE_CYCLE with 7200 in *.
  unfold saturating_sub, saturating_mul. rewrite (Z.max_r 0) by lia. rewrite Z.min_l by nia.
  assert (0 <= (k - 1) * w <= 77418000) by nia.
  rewrite (as_signed_small 32 ((k - 1) * w)), (as_signed_small 32 (e * w / p)) by lia.
  rewrite as_signed_small by lia. f_equal.
  rewrite <- !Z.add_assoc. rewrite (Zplus_mod_idemp_l angle). done.
Qed.

(** while locked with a known trigger angle, the crank angle reported up to a thousand
    tooth intervals after the last edge is, within the engine cycle, the trigger angle plus
    the whole teeth turned since tooth 1 plus the fraction of a tooth turned since the edge
    at the last tooth speed, with no 32-bit overflow. *)
Theorem crank_angle_interpolates d k t p angle e : at_tooth d k t p ->
  u8 (DecoderConfig.tooth_angle_multiplier (config d)) ->
  TriggerAngle.angle_deg10 (DecoderConfig.trigger_angle_atdc_deg10 (config d)) = Some angle ->
  u32 e -> e <= 1000 * p ->
  crank_angle_at (wrapping_add 32 t e) d =
    Some ((angle + (k - 1) * tooth_pitch (config d) + e * tooth_pitch (config d) / p) mod ENGINE_CYCLE).
Proof. apply crank_angle_at_edge. Qed.

(** with a single-tooth cam, a secondary edge is accepted exactly when it is the
    configured edge and, if the decoder is locked, arrives at tooth 1, and only then does it
    validate the phase; any other edge is a phase mismatch that leaves the phase invalid and
    the lock untouched. *)
Theorem cam_edge_verdict e d : decoder_ok d ->
  RuntimeSecondaryProfile.mode (DecoderConfig.secondary (config d)) = RuntimeSecondaryMode.SingleToothCam ->
  let '(d', r) := ingest_secondary_edge e d in
  let expected := e = RuntimeSecondaryProfile.edge (DecoderConfig.secondary (config d)) in
  primary_locked d' = primary_locked d /\ current_tooth d' = current_tooth d
  /\ (r = Ok tt <-> expected /\ (primary_locked d = true -> current_tooth d = 1))
  /\ (r = Ok tt -> primary_locked d = true -> phase_validated d' = true
        /\ authority d' = EngineTimeAuthority.mk CrankSyncState.PrimaryLocked PhaseSyncState.CamValidated720
             (TriggerAngle.absolute_authority (DecoderConfig.trigger_angle_atdc_deg10 (config d))) 1000
             (EngineTimeAuthority.sync_loss_count (authority d)))
  /\ (r <> Ok tt -> r = Err SyncLossReason.PhaseMismatch /\ phase_validated d' = false).
Proof.
  intros _ Hmode. unfold ingest_secondary_edge. rewrite Hmode.
  case_bool_decide as He; cbn [negb].
  - set (d1 := set_observation _ _). change (primary_locked d1) with (primary_locked d).
    change (current_tooth d1) with (current_tooth d).
    destruct (primary_locked d) eqn:Hl; [|by split_and!].
    destruct (Z.eqb_spec (current_tooth d) 1) as [Hk|Hk]; cbn [negb].
    + split_and!; [exact Hl|done|by split|by split|done].
    + pose proof (record_fault_fields SyncLossReason.PhaseMismatch d1) as Hf. cbv zeta in Hf.
      destruct (record_secondary_fault SyncLossReason.PhaseMismatch d1) as [d' r] eqn:Hr.
      assert (r = Err SyncLossReason.PhaseMismatch) as -> by (unfold record_secondary_fault in Hr; congruence).
      cbn [fst] in Hf. destruct Hf as (_ & _ & _ & _ & _ & Hct & _ & Hl' & Hph & _).
      split_and!; [by rewrite Hl'|by rewrite Hct|split; [done|intros [_ H]; by destruct Hk; apply H]|done|done].
  - pose proof (record_fault_fields SyncLossReason.PhaseMismatch d) as Hf. cbv zeta in Hf.
    destruct (record_secondary_fault SyncLossReason.PhaseMismatch d) as [d' r] eqn:Hr.
    assert (r = Err SyncLossReason.PhaseMismatch) as -> by (unfold record_secondary_fault in Hr; congruence).
    cbn [fst] in Hf. destruct Hf as (_ & _ & _ & _ & _ & Hct & _ & Hl' & Hph & _).
    split_and!; [done|done|split; [done|by intros [? _]]|done|done].
Qed.

Lemma gap_phase t i ratio d :
  primary_locked d = true -> teeth_since_gap d = observed_teeth d ->
  let d' := fst (accept_gap t i ratio d) in
  phase_validated d' =
    match RuntimeSecondaryProfile.mode (DecoderConfig.secondary (config d)) with
    | RuntimeSecondaryMode.None => phase_validated d
    | _ => phase_validated d && secondary_seen_since_gap d
    end
  /\ secondary_seen_since_gap d' = false.
Proof.
  intros Hl Ht. cbv zeta. unfold accept_gap. rewrite Hl, Ht, Z.eqb_refl. cbn [andb negb]. cbv zeta.
  match goal with |- context [update_observation t i ratio ?x] => set (d2 := x) end.
  destruct (update_then_lock t i ratio d2) as [g ->].
  split; [|reflexivity]. change (phase_validated (validate_secondary_before_next_gap d) =
    match RuntimeSecondaryProfile.mode (DecoderConfig.secondary (config d)) with
    | RuntimeSecondaryMode.None => phase_validated d
    | _ => phase_validated d && secondary_seen_since_gap d
    end).
  unfold validate_secondary_before_next_gap. rewrite Hl.
  pose proof (record_fault_fields SyncLossReason.SecondaryTimeout d) as Hf. cbv zeta in Hf.
  destruct (secondary_seen_since_gap d); destruct (RuntimeSecondaryProfile.mode _); cbn [andb negb];
    rewrite ?andb_true_r, ?andb_false_r; try reflexivity; apply Hf.
Qed.

(** What a gap does to the phase of a decoder at its last tooth. *)
Lemma gap_restarts_phase d t p i : at_tooth d (observed_teeth d) t p -> reads_gap (config d) p i ->
  let d' := fst (ingest_primary_edge (wrapping_add 32 t i) d) in
  phase_validated d' =
    match RuntimeSecondaryProfile.mode (DecoderConfig.secondary (config d)) with
    | RuntimeSecondaryMode.None => phase_validated d
    | _ => phase_validated d && secondary_seen_since_gap d
    end
  /\ secondary_seen_since_gap d' = false.
Proof.
  intros (Hok & Hl & Hk & Ht & Hp) (Hu & Hmin & Hge). cbv zeta.
  pose proof Hok as (_ & _ & _ & Hi). destruct (inv_locked _ Hi Hl) as (_ & Hts & _).
  assert (elapsed_ticks (wrapping_add 32 t i) t = i) as He by (by apply wrapping_sub_add).
  pose proof (locked_edge (wrapping_add 32 t i) t d Hok Hl Ht) as H. cbv zeta in H.
  rewrite He, Hp in H. specialize (H Hmin). rewrite (proj2 (Z.leb_le _ _) Hge) in H.
  rewrite H. apply gap_phase; [done|lia].
Qed.

(** with a cam or polled secondary input, a validated phase survives a gap only if the
    secondary confirmed it since the gap before; so on a wheel that turns at crank speed a
    once-per-cycle cam loses its phase, and with it the absolute timing, at every second
    gap. *)
Theorem phase_needs_confirmation_every_gap d t p i1 i2 teeth :
  at_tooth d (observed_teeth d) t p ->
  RuntimeSecondaryProfile.mode (DecoderConfig.secondary (config d)) <> RuntimeSecondaryMode.None ->
  reads_gap (config d) p i1 -> teeth_ok (config d) p teeth ->
  Z.of_nat (length teeth) = observed_teeth d - 1 ->
  reads_gap (config d) (List.last teeth p) i2 ->
  exists t' d' rs, feed t (i1 :: teeth ++ [i2]) d = (t', d', rs)
    /\ primary_locked d' = true /\ phase_validated d' = false
    /\ EngineTimeAuthority.has_absolute_timing (authority d') = false.
Proof.
  intros Hat Hmode Hg1 Hteeth Hlen Hg2. cbn [feed].
  destruct (gap_restarts_phase d t p i1 Hat Hg1) as [_ Hs1].
  destruct (gap_restarts d t p i1 Hat Hg1) as (d1 & Hd1 & Hat1 & Hc1 & Ho1).
  rewrite Hd1 in Hs1 |- *. cbn [fst] in Hs1. rewrite feed_app.
  destruct (feed_teeth teeth d1 1 _ p Hat1) as (t2 & d2 & Hd2 & Hat2 & Hc2 & Ho2 & Hs2);
    [by rewrite Hc1|lia|].
  rewrite Hd2. cbn [feed]. replace (1 + Z.of_nat (length teeth)) with (observed_teeth d2) in Hat2 by lia.
  assert (reads_gap (config d2) (List.last teeth p) i2) as Hg2' by (by rewrite Hc2, Hc1).
  destruct (gap_restarts_phase d2 t2 _ i2 Hat2 Hg2') as [Hp3 _].
  destruct (gap_restarts d2 t2 _ i2 Hat2 Hg2') as (d3 & Hd3 & Hat3 & _).
  rewrite Hd3 in Hp3 |- *. cbn [fst] in Hp3. rewrite Hs2, Hs1, andb_false_r, Hc2, Hc1 in Hp3.
  assert (phase_validated d3 = false) as Hph by (by destruct (RuntimeSecondaryProfile.mode _)).
  eexists _, d3, _. split; [reflexivity|]. pose proof Hat3 as ((_ & _ & [_ _ Habs] & _) & Hl3 & _).
  split_and!; [done|done|]. apply not_true_is_false. intros Ht. destruct (Habs Ht). congruence.
Qed.

(** with the edge filter off, two edges with the same timestamp break the decoder's own
    consistency: it still reports itself locked at a tooth while its authority says it is
    searching, and the next gap at the right place is rejected as a wrong tooth count. *)
Theorem duplicate_timestamp_breaks_lock :
  let c := DecoderConfig.new 4 1 (TriggerAngle.ExpertManual 0) in
  exists d0, Decoder.try_new c = Ok d0
    /\ let d1 := decoder_run ((fun t => Input.PrimaryEdge t TriggerEdge.Rising) <$>
           [1000; 2000; 3000; 5000; 6000; 6000]) d0 in
       primary_locked d1 = true /\ current_tooth d1 = 2
       /\ EngineTimeAuthority.has_primary_lock (authority d1) = false
       /\ snd (ingest_primary_edge 9000 (decoder_run ((fun t => Input.PrimaryEdge t TriggerEdge.Rising)
            <$> [7000]) d1)) = Err SyncLossReason.WrongToothCount.
Proof. eexists. split; [reflexivity|]. by vm_compute. Qed.

(** ** Witnesses *)

(** A four-minus-one wheel with a single-tooth cam and a ten-tick filter. *)
Definition sample_config : DecoderConfig.t :=
  DecoderConfig.mk 4 1 TriggerSpeed.Crank TriggerEdge.Rising
    (RuntimeSecondaryProfile.mk RuntimeSecondaryMode.SingleToothCam TriggerEdge.Falling
      PollLevelPolarity.ActiveHigh)
    (TriggerAngle.ExpertManual 100) 1 10 0.

Lemma sample_config_ok : config_ok sample_config.
Proof. unfold config_ok, fits. simpl. lia. Qed.

Definition sample_fresh : Decoder.t :=
  Decoder.mk sample_config 3 None 0 0 0 0 false false false false Diagnostics.empty.

Definition sample_inputs : list Input.t :=
  (fun t => Input.PrimaryEdge t TriggerEdge.Rising) <$> [1000; 2000; 3000; 5000].

(** Locked at tooth 1, then at the last tooth. *)
Definition sample_locked : Decoder.t := decoder_run sample_inputs sample_fresh.
Definition sample_last : Decoder.t :=
  decoder_run ((fun t => Input.PrimaryEdge t TriggerEdge.Rising) <$> [6000; 7000]) sample_locked.

Lemma sample_inputs_wf : Forall Input.wf sample_inputs.
Proof. unfold sample_inputs, fits. repeat constructor; simpl; unfold fits; lia. Qed.

Lemma sample_locked_at : at_tooth sample_locked 1 5000 1000.
Proof.
  split; [|by vm_compute]. apply decoder_run_ok; [apply sample_inputs_wf|].
  apply (decoder_ok_new sample_config); [apply sample_config_ok|done|by vm_compute].
Qed.

Lemma sample_last_at : at_tooth sample_last (observed_teeth sample_last) 7000 1000.
Proof.
  split; [|by vm_compute]. apply decoder_run_ok; [|apply sample_locked_at].
  repeat constructor; simpl; unfold fits; lia.
Qed.

Example decoder_run_invariant_witness :
  let d' := decoder_run sample_inputs sample_fresh in
  Decoder.try_new sample_config = Ok sample_fresh
  /\ (if primary_locked d'
      then 1 <= current_tooth d' <= observed_teeth d' /\ teeth_since_gap d' = current_tooth d'
           /\ EngineTimeAuthority.has_primary_lock (authority d') = true
      else current_tooth d' = 0 /\ EngineTimeAuthority.has_primary_lock (authority d') = false)
  /\ EngineTimeAuthority.validate (authority d') = Ok tt
  /\ (EngineTimeAuthority.has_absolute_timing (authority d') = true ->
      phase_validated d' = true /\ primary_locked d' = true)
  /\ (forall t a, crank_angle_at t d' = Some a -> 0 <= a < ENGINE_CYCLE /\ primary_locked d' = true).
Proof.
  split; [by vm_compute|].
  exact (decoder_run_invariant sample_config sample_fresh sample_inputs sample_config_ok
    eq_refl eq_refl sample_inputs_wf).
Defined.

Lemma sample_teeth_ok : teeth_ok sample_config 1000 [1010; 990].
Proof. unfold teeth_ok, reads_tooth, fits. vm_compute. intuition congruence. Qed.

Example decoder_locks_and_holds_witness :
  exists d0 t' d' p', ingest_primary_edge 4294966000 sample_fresh = (d0, Ok DecoderEvent.FirstEdge)
    /\ feed 4294966000 (1000 :: [1010] ++ [2000] ++ wheel_intervals [([1010; 990], 2000)]) d0 =
       (t', d', Ok DecoderEvent.Searching :: replicate 1 (Ok DecoderEvent.Searching)
                ++ [Ok (DecoderEvent.Gap 1)] ++ concat (replicate 1 (revolution_events 3)))
    /\ at_tooth d' 1 t' p'.
Proof.
  apply (decoder_locks_and_holds sample_config sample_fresh 3 4294966000 1000 [1010] 2000
    [([1010; 990], 2000)]).
  1: exact sample_config_ok.
  all: vm_compute; intuition congruence.
Defined.

Example locked_edge_verdict_witness :
  at_tooth sample_locked 1 5000 1000
  /\ let '(d', r) := ingest_primary_edge (wrapping_add 32 5000 2000) sample_locked in
     if (if 1000 * threshold (config sample_locked) <=? 2000 * 1000
         then 1 =? observed_teeth sample_locked else 1 <? observed_teeth sample_locked)
     then at_tooth d' (if 1000 * threshold (config sample_locked) <=? 2000 * 1000 then 1 else 1 + 1)
            (wrapping_add 32 5000 2000)
            (if 1000 * threshold (config sample_locked) <=? 2000 * 1000 then 1000 else 2000)
          /\ is_ok r = true
     else r = Err SyncLossReason.WrongToothCount /\ primary_locked d' = false
       /\ (forall now, crank_angle_at now d' = None)
       /\ EngineTimeAuthority.crank (authority d') = CrankSyncState.SyncLost
       /\ EngineTimeAuthority.sync_loss_count (authority d')
          = Z.min (EngineTimeAuthority.sync_loss_count (authority sample_locked) + 1) u16_max
       /\ Diagnostics.last_sync_loss (diagnostics d') = Some SyncLossReason.WrongToothCount.
Proof.
  assert (DecoderConfig.minimum_edge_interval (config sample_locked) <= 2000) as Hm by (by vm_compute).
  assert (u32 2000) as Hu by (by vm_compute).
  exact (conj sample_locked_at
    (locked_edge_verdict sample_locked 1 5000 1000 2000 sample_locked_at Hu Hm)).
Defined.

Example crank_angle_interpolates_witness :
  crank_angle_at (wrapping_add 32 7000 500) sample_last
  = Some ((100 + (observed_teeth sample_last - 1) * tooth_pitch (config sample_last)
           + 500 * tooth_pitch (config sample_last) / 1000) mod ENGINE_CYCLE)
  /\ crank_angle_at 7500 sample_last = Some 2350.
Proof.
  split; [|by vm_compute].
  apply (crank_angle_interpolates sample_last (observed_teeth sample_last) 7000 1000 100 500
    sample_last_at); by vm_compute.
Defined.

Example cam_edge_verdict_witness :
  snd (ingest_secondary_edge TriggerEdge.Falling sample_locked) = Ok tt
  /\ let '(d', r) := ingest_secondary_edge TriggerEdge.Falling sample_locked in
     let expected := TriggerEdge.Falling
       = RuntimeSecondaryProfile.edge (DecoderConfig.secondary (config sample_locked)) in
     primary_locked d' = primary_locked sample_locked /\ current_tooth d' = current_tooth sample_locked
     /\ (r = Ok tt <-> expected /\ (primary_locked sample_locked = true -> current_tooth sample_locked = 1))
     /\ (r = Ok tt -> primary_locked sample_locked = true -> phase_validated d' = true
           /\ authority d' = EngineTimeAuthority.mk CrankSyncState.PrimaryLocked
                PhaseSyncState.CamValidated720
                (TriggerAngle.absolute_authority
                  (DecoderConfig.trigger_angle_atdc_deg10 (config sample_locked))) 1000
                (EngineTimeAuthority.sync_loss_count (authority sample_locked)))
     /\ (r <> Ok tt -> r = Err SyncLossReason.PhaseMismatch /\ phase_validated d' = false).
Proof.
  assert (RuntimeSecondaryProfile.mode (DecoderConfig.secondary (config sample_locked))
    = RuntimeSecondaryMode.SingleToothCam) as Hmode by (by vm_compute).
  assert (snd (ingest_secondary_edge TriggerEdge.Falling sample_locked) = Ok tt) as Hr by (by vm_compute).
  exact (conj Hr
    (cam_edge_verdict TriggerEdge.Falling sample_locked (proj1 sample_locked_at) Hmode)).
Defined.

Example phase_needs_confirmation_every_gap_witness :
  at_tooth sample_last (observed_teeth sample_last) 7000 1000
  /\ exists t' d' rs, feed 7000 (2000 :: [1010; 990] ++ [2000]) sample_last = (t', d', rs)
    /\ primary_locked d' = true /\ phase_validated d' = false
    /\ EngineTimeAuthority.has_absolute_timing (authority d') = false.
Proof.
  split; [exact sample_last_at|].
  apply (phase_needs_confirmation_every_gap sample_last 7000 1000 2000 2000 [1010; 990] sample_last_at);
    vm_compute; intuition congruence.
Defined.
