(* ===== verification/TriggerProfiled.v ===== *)
(** * Profiled decoder (crates/trigger/src/profiled.rs)

    The missing-tooth decoder under a profile's startup and latency policy: authority is
    withheld until the startup revolutions have been counted. *)
From S2P Require Import Prelude Domain BoardApi SchedTypes Queue Batch TriggerProfile TriggerDecoder.

Module Profiled.
(** [ProfiledMissingToothDecoder] *)
Record t := mk {
  decoder : Decoder.t;
  profile : RuntimeProfile.t;
  revolutions_since_lock : Z;
  saw_primary_gap : bool;
}.
#[global] Instance eta : Eta t := fun p =>
  mk (decoder p) (profile p) (revolutions_since_lock p) (saw_primary_gap p).

Definition try_new (profile : RuntimeProfile.t) (minimum_edge_interval : Ticks)
    (gap_ratio_threshold_x1000 : Z) : Result t ValidationError.t :=
  let? _ := RuntimeProfile.validate profile in
  let config := DecoderConfig.from_runtime_profile profile minimum_edge_interval
    gap_ratio_threshold_x1000 in
  let? decoder := Decoder.try_new config in
  Ok (mk decoder profile 0 false).

Definition try_new_from_import_profile (profile : TriggerProfile.t) (minimum_edge_interval : Ticks)
    (gap_ratio_threshold_x1000 : Z) : Result t ValidationError.t :=
  let? profile := RuntimeProfile.from_import_profile profile in
  try_new profile minimum_edge_interval gap_ratio_threshold_x1000.

Definition forget_startup (p : t) : t :=
  p <| revolutions_since_lock := 0 |> <| saw_primary_gap := false |>.

Definition ingest_primary_edge (timestamp : Ticks) (p : t) :
    t * Result DecoderEvent.t SyncLossReason.t :=
  let '(d, r) := Decoder.ingest_primary_edge timestamp (decoder p) in
  let p := p <| decoder := d |> in
  match r with
  | Err reason => (forget_startup p, Err reason)
  | Ok event =>
    let p :=
      match event with
      | DecoderEvent.Gap _ =>
        if saw_primary_gap p
        then p <| revolutions_since_lock ::= fun n => saturating_add 8 n 1 |>
        else p <| saw_primary_gap := true |>
      | DecoderEvent.FirstEdge | DecoderEvent.Searching =>
        if negb (Decoder.primary_locked (decoder p)) then forget_startup p else p
      | DecoderEvent.IgnoredByFilter | DecoderEvent.Tooth _ => p
      end in
    (p, Ok event)
  end.

Definition ingest_secondary_edge (edge : TriggerEdge.t) (p : t) : t * Result unit SyncLossReason.t :=
  let '(d, r) := Decoder.ingest_secondary_edge edge (decoder p) in (p <| decoder := d |>, r).
Definition ingest_secondary_level (level : TriggerLevel.t) (p : t) :
    t * Result unit SyncLossReason.t :=
  let '(d, r) := Decoder.ingest_secondary_level level (decoder p) in (p <| decoder := d |>, r).

Definition crank_angle_at (timestamp : Ticks) (p : t) : option Degrees10 :=
  if negb (Decoder.primary_locked (decoder p)) then None
  else
    let observed_teeth := RuntimeProfile.observed_primary_teeth (profile p) in
    let rev_ticks := saturating_mul 32 (Decoder.last_normal_interval (decoder p)) observed_teeth in
    if rev_ticks =? 0 then
      TriggerAngle.normalized_angle_deg10 (RuntimeProfile.trigger_angle_atdc_deg10 (profile p))
    else
      match TriggerAngle.normalized_angle_deg10 (RuntimeProfile.trigger_angle_atdc_deg10 (profile p)) with
      | None => None
      | Some trigger_angle =>
        let latency_us := RuntimeProfile.latency_us (profile p) in
        match Decoder.last_edge_timestamp (decoder p) with
        | None => None
        | Some last_gap_timestamp =>
          let compensated_now := saturating_sub timestamp latency_us in
          if compensated_now <=? last_gap_timestamp then Some trigger_angle
          else
            let elapsed := compensated_now - last_gap_timestamp in
            let revolutions := saturating_mul 64 elapsed CRANK_REV / rev_ticks in
            Some (normalize_engine_cycle_deg10_i32
              (as_signed 32 (trigger_angle + as_signed 32 revolutions)))
        end
      end.

Definition rpm (p : t) : Rpm := Observation.primary_rpm (Decoder.observation (decoder p)).
Definition synced (p : t) : bool := Decoder.primary_locked (decoder p).
Definition reset_sync (p : t) : t := forget_startup (p <| decoder ::= Decoder.reset |>).

Definition authority (p : t) : EngineTimeAuthority.t :=
  let authority := Decoder.authority (decoder p) in
  if negb (EngineTimeAuthority.has_primary_lock authority) then authority
  else if RuntimeProfile.startup_authority_ready (profile p) (revolutions_since_lock p) then authority
  else
    EngineTimeAuthority.mk CrankSyncState.PrimaryLocked PhaseSyncState.CrankOnly360
      AbsoluteTimeAuthority.None 500 (EngineTimeAuthority.sync_loss_count authority).

Definition diagnostics (p : t) : Diagnostics.t :=
  (Decoder.diagnostics (decoder p)) <| Diagnostics.authority := authority p |>.
End Profiled.

(** ** Lemmas *)
Import Profiled.

(** The profiled decoder as a state machine over the decoder's inputs; its primary edges
    are always of the configured kind. *)
Definition profiled_step (i : Input.t) (p : Profiled.t) : Profiled.t :=
  match i with
  | Input.PrimaryEdge timestamp _ => fst (ingest_primary_edge timestamp p)
  | Input.SecondaryEdge edge => fst (ingest_secondary_edge edge p)
  | Input.SecondaryLevel level => fst (ingest_secondary_level level p)
  | Input.Reset => reset_sync p
  end.
Definition profiled_run (ins : list Input.t) (p : Profiled.t) : Profiled.t :=
  foldl (fun p i => profiled_step i p) p ins.

(** A decoder under a profile: the decoder is in order, and a startup count is kept only
    while the decoder is locked. *)
Record profiled_inv (p : Profiled.t) : Prop := {
  prof_decoder : decoder_ok (decoder p);
  prof_count : u8 (revolutions_since_lock p);
  prof_startup : 0 < revolutions_since_lock p -> saw_primary_gap p = true;
  prof_gap : saw_primary_gap p = true -> Decoder.primary_locked (decoder p) = true;
}.

Lemma forget_inv p : decoder_ok (decoder p) -> profiled_inv (forget_startup p).
Proof. intros Hd. constructor; simpl; try done; unfold fits; lia. Qed.

(** What a primary edge says about the lock it leaves. *)
Lemma ingest_lock t d :
  let '(d', r) := Decoder.ingest_primary_edge t d in
  match r with
  | Ok (DecoderEvent.Gap _) => Decoder.primary_locked d' = true
  | Ok (DecoderEvent.Tooth _) => Decoder.primary_locked d' = true
  | Ok DecoderEvent.IgnoredByFilter => Decoder.primary_locked d' = Decoder.primary_locked d
  | _ => True
  end.
Proof.
  unfold Decoder.ingest_primary_edge, Decoder.ingest_primary_edge_with_kind.
  destruct (negb (bool_decide _)); [done|]. destruct (Decoder.last_edge_timestamp d); [|done].
  cbv zeta. destruct (_ <? _); [done|]. destruct (_ || _); [done|].
  destruct (missing_tooth_gap_detected _ _ _) as [[[|] ratio]|]; [| |done].
  - unfold Decoder.accept_gap. destruct (_ && _); [done|]. cbv zeta.
    match goal with |- context [Decoder.update_observation ?a ?b ?c ?x] =>
      destruct (update_then_lock a b c x) as [g ->] end. done.
  - unfold Decoder.accept_tooth. destruct (_ && _); [done|]. cbv zeta.
    match goal with |- context [Decoder.update_observation ?a ?b ?c ?x] =>
      set (d2 := Decoder.update_observation a b c x) end.
    destruct (Decoder.primary_locked d2) eqn:Hl; [|done].
    destruct (set_locked_fields d2) as (a & -> & _). exact Hl.
Qed.

Lemma profiled_primary_inv t p : u32 t -> profiled_inv p ->
  profiled_inv (fst (ingest_primary_edge t p)).
Proof.
  intros Ht [Hd Hc Hs Hg]. unfold ingest_primary_edge.
  pose proof (ingest_primary_ok t (DecoderConfig.primary_edge (Decoder.config (decoder p)))
    (decoder p) Ht Hd) as Hd'.
  fold (Decoder.ingest_primary_edge t (decoder p)) in Hd'.
  pose proof (ingest_lock t (decoder p)) as Hl.
  destruct (Decoder.ingest_primary_edge t (decoder p)) as [d' [[| | |k|k]|e]]; simpl in *.
  - destruct (Decoder.primary_locked d') eqn:Hl'; simpl; [|by apply forget_inv].
    constructor; simpl; try done.
  - constructor; simpl; try done. by rewrite Hl.
  - destruct (Decoder.primary_locked d') eqn:Hl'; simpl; [|by apply forget_inv].
    constructor; simpl; try done.
  - constructor; simpl; try done.
  - destruct (saw_primary_gap p) eqn:Hsaw; simpl; constructor; simpl; try done.
    + unfold saturating_add, fits in *. lia.
  - by apply forget_inv.
Qed.

(** Secondary inputs never change the lock. *)
Lemma record_fault_lock r d :
  Decoder.primary_locked (fst (Decoder.record_secondary_fault r d)) = Decoder.primary_locked d.
Proof. by pose proof (record_fault_fields r d) as (_ & _ & _ & _ & _ & _ & _ & ? & _). Qed.

Lemma secondary_edge_lock e d :
  Decoder.primary_locked (fst (Decoder.ingest_secondary_edge e d)) = Decoder.primary_locked d.
Proof.
  unfold Decoder.ingest_secondary_edge.
  destruct (RuntimeSecondaryProfile.mode _); try apply record_fault_lock.
  destruct (negb _); [apply record_fault_lock|].
  set (d1 := Decoder.set_observation _ _). change (Decoder.primary_locked d1) with (Decoder.primary_locked d).
  destruct (Decoder.primary_locked d) eqn:Hl; [|exact Hl].
  destruct (negb _); [by rewrite record_fault_lock|]. cbv zeta.
  destruct (set_locked_fields (d1 <| Decoder.secondary_seen_since_gap := true |>
    <| Decoder.phase_validated := true |>)) as (a & -> & _). exact Hl.
Qed.

Lemma secondary_level_lock l d :
  Decoder.primary_locked (fst (Decoder.ingest_secondary_level l d)) = Decoder.primary_locked d.
Proof.
  unfold Decoder.ingest_secondary_level.
  destruct (RuntimeSecondaryProfile.mode _); try apply record_fault_lock.
  destruct (_ || _); [apply record_fault_lock|]. destruct (negb _); [apply record_fault_lock|].
  cbv zeta. match goal with |- context [Decoder.set_locked_authority ?x] =>
    destruct (set_locked_fields x) as (a & -> & _) end. done.
Qed.

Lemma profiled_step_inv i p : Input.wf i -> profiled_inv p -> profiled_inv (profiled_step i p).
Proof.
  intros Hwf Hp. destruct i as [t e|e|l|]; simpl.
  - by apply profiled_primary_inv.
  - destruct Hp as [Hd Hc Hs Hg]. unfold ingest_secondary_edge.
    pose proof (ingest_secondary_edge_ok e (decoder p) Hd) as Hd'.
    pose proof (secondary_edge_lock e (decoder p)) as Hl.
    destruct (Decoder.ingest_secondary_edge e (decoder p)) as [d' r]. simpl in *.
    constructor; simpl; try done. by rewrite Hl.
  - destruct Hp as [Hd Hc Hs Hg]. unfold ingest_secondary_level.
    pose proof (ingest_secondary_level_ok l (decoder p) Hd) as Hd'.
    pose proof (secondary_level_lock l (decoder p)) as Hl.
    destruct (Decoder.ingest_secondary_level l (decoder p)) as [d' r]. simpl in *.
    constructor; simpl; try done. by rewrite Hl.
  - apply forget_inv. simpl. by apply reset_ok, Hp.
Qed.

Lemma profiled_run_inv ins p : Forall Input.wf ins -> profiled_inv p -> profiled_inv (profiled_run ins p).
Proof.
  intros Hins. revert p. induction Hins as [|i ins Hi Hins IH]; intros p Hp; [done|].
  by apply IH, profiled_step_inv.
Qed.

Lemma profiled_step_profile i p : profile (profiled_step i p) = profile p.
Proof.
  destruct i as [t e|e|l|]; simpl; [|by unfold ingest_secondary_edge; case_match
    |by unfold ingest_secondary_level; case_match|done].
  unfold ingest_primary_edge. destruct (Decoder.ingest_primary_edge t (decoder p)) as [d [[]|]]; simpl;
    try done; by case_match.
Qed.

Lemma profiled_run_profile ins p : profile (profiled_run ins p) = profile p.
Proof.
  revert p. induction ins as [|i ins IH]; intros p; [done|]. simpl. unfold profiled_run in *. simpl.
  by rewrite IH, profiled_step_profile.
Qed.

(** The widths of a profile's fields. *)
Definition profile_ok (r : RuntimeProfile.t) : Prop :=
  u8 (RuntimeProfile.nominal_teeth r) /\ u8 (RuntimeProfile.missing_teeth r)
  /\ 0 <= StartupSyncPolicy.skip_revolutions (RuntimeProfile.startup r).

Lemma profiled_new r m thr p : profile_ok r -> 0 < m -> u16 thr -> Profiled.try_new r m thr = Ok p ->
  profiled_inv p /\ profile p = r.
Proof.
  unfold Profiled.try_new, RuntimeProfile.validate. intros (Hn & Hm8 & _) Hm Hthr Hp.
  destruct (validate_missing_tooth _ _) as [[]|] eqn:Hv; [|done].
  destruct (RuntimeProfile.tooth_angle_multiplier r =? 0); [done|]. cbn [result_bind] in Hp.
  destruct (Decoder.try_new _) as [d|] eqn:Hd; [|done]. simpl in Hp. simplify_eq.
  split; [|done]. constructor; simpl; try done.
  eapply decoder_ok_new; [| |exact Hd]; [|exact Hm].
  apply validate_missing_tooth_spec in Hv; [|done..].
  unfold config_ok, DecoderConfig.from_runtime_profile. simpl. split_and!; try done; lia.
Qed.

(** ** Properties *)

(** whatever a profiled decoder is fed, the authority it publishes is valid, and it
    grants an absolute angle or a validated phase only while the decoder is locked with its
    phase validated and the profile's startup revolutions have been counted since the
    lock; otherwise it grants crank-only authority at most. *)
Theorem profiled_authority_gated r m thr p ins :
  profile_ok r -> 0 < m -> u16 thr -> Profiled.try_new r m thr = Ok p -> Forall Input.wf ins ->
  let p' := profiled_run ins p in
  let a := authority p' in
  EngineTimeAuthority.validate a = Ok tt
  /\ (EngineTimeAuthority.has_absolute_timing a = true ->
      Decoder.primary_locked (decoder p') = true /\ Decoder.phase_validated (decoder p') = true
      /\ StartupSyncPolicy.skip_revolutions (RuntimeProfile.startup r) <= revolutions_since_lock p'
      /\ (StartupSyncPolicy.require_full_cycle (RuntimeProfile.startup r) = true ->
          0 < revolutions_since_lock p'))
  /\ (0 < revolutions_since_lock p' -> saw_primary_gap p' = true
      /\ Decoder.primary_locked (decoder p') = true).
Proof.
  intros Hr Hm Hthr Hp Hins p' a. destruct (profiled_new r m thr p Hr Hm Hthr Hp) as [Hinv Hprof].
  pose proof (profiled_run_inv ins p Hins Hinv) as Hinv'. fold p' in Hinv'.
  assert (profile p' = r) as Hprof' by (unfold p'; by rewrite profiled_run_profile).
  destruct Hinv' as [(_ & _ & [Hv _ Habs] & _) _ Hs Hg].
  unfold a, authority, RuntimeProfile.startup_authority_ready, StartupSyncPolicy.authority_ready.
  rewrite Hprof'.
  destruct (EngineTimeAuthority.has_primary_lock (Decoder.authority (decoder p'))) eqn:Hlock; cbn [negb].
  - destruct (_ && _) eqn:Hready.
    + split_and!; [done| |by intros H; split; [apply Hs|apply Hg, Hs]].
      intros Ha. destruct (Habs Ha) as [Hph Hl]. to_prop. split_and!; [done|done|done|].
      intros Hfull. rewrite Hfull in *. simpl in *. to_prop. lia.
    + split_and!; [done|done|by intros H; split; [apply Hs|apply Hg, Hs]].
  - split_and!; [done| |by intros H; split; [apply Hs|apply Hg, Hs]].
    intros Ha. exfalso. unfold EngineTimeAuthority.validate in Hv. rewrite Hlock, Ha in Hv.
    by case_match.
Qed.

(** Feeding a profiled decoder a wheel, keeping the state. *)
Fixpoint profiled_feed (t : Ticks) (intervals : list Z) (p : Profiled.t) : Ticks * Profiled.t :=
  match intervals with
  | [] => (t, p)
  | i :: intervals =>
    let t := wrapping_add 32 t i in
    profiled_feed t intervals (fst (ingest_primary_edge t p))
  end.

Lemma profiled_feed_app t is1 is2 p :
  profiled_feed t (is1 ++ is2) p =
    let '(t1, p1) := profiled_feed t is1 p in profiled_feed t1 is2 p1.
Proof. revert t p. induction is1 as [|i is1 IH]; intros t p; [done|]. simpl. apply IH. Qed.

Lemma profiled_feed_teeth teeth p k t iv : at_tooth (decoder p) k t iv ->
  teeth_ok (Decoder.config (decoder p)) iv teeth ->
  k + Z.of_nat (length teeth) <= Decoder.observed_teeth (decoder p) ->
  exists t' d', profiled_feed t teeth p = (t', p <| decoder := d' |>)
    /\ at_tooth d' (k + Z.of_nat (length teeth)) t' (List.last teeth iv)
    /\ Decoder.config d' = Decoder.config (decoder p)
    /\ Decoder.observed_teeth d' = Decoder.observed_teeth (decoder p).
Proof.
  revert p k t iv. induction teeth as [|i teeth IH]; intros p k t iv Hat Hok Hlen; simpl.
  - exists t, (decoder p). rewrite Z.add_0_r. by destruct p.
  - destruct Hok as [Hi Hok]. simpl in Hlen.
    destruct (tooth_advances (decoder p) k t iv i Hat Hi ltac:(lia)) as (d1 & Hd1 & Hat1 & Hc1 & _).
    assert (Decoder.observed_teeth d1 = Decoder.observed_teeth (decoder p)) as Ho1
      by (apply same_config_observed; [apply Hat|apply Hat1|done]).
    unfold ingest_primary_edge. rewrite Hd1. cbv zeta. cbn [fst].
    set (p1 := Profiled.mk d1 (profile p) (revolutions_since_lock p) (saw_primary_gap p)).
    change (p <| decoder := d1 |>) with p1.
    destruct (IH p1 (k + 1) _ i Hat1) as (t' & d' & -> & Hat' & Hc' & Ho');
      [simpl; by rewrite Hc1|simpl; lia|]. simpl in Hc', Ho'.
    exists t', d'. split_and!; [done| |congruence|congruence].
    replace (k + Z.of_nat (S (length teeth))) with (k + 1 + Z.of_nat (length teeth)) by lia.
    destruct teeth as [|j teeth]; [done|]. by rewrite (last_default j teeth iv i).
Qed.

(** startup gating opens: a profiled decoder that has seen its first gap and turns
    through whole revolutions counts each of them, up to the width of its counter, so after
    as many revolutions as the profile asks to skip it publishes the decoder's own
    authority. *)
Theorem startup_revolutions_counted p t iv n revs :
  at_tooth (decoder p) 1 t iv -> saw_primary_gap p = true -> u8 (revolutions_since_lock p) ->
  Decoder.observed_teeth (decoder p) = Z.of_nat n ->
  revolutions_ok (Decoder.config (decoder p)) n iv revs ->
  let p' := snd (profiled_feed t (wheel_intervals revs) p) in
  revolutions_since_lock p' = Z.min (revolutions_since_lock p + Z.of_nat (length revs)) u8_max
  /\ Decoder.primary_locked (decoder p') = true
  /\ (StartupSyncPolicy.authority_ready (RuntimeProfile.startup (profile p)) (revolutions_since_lock p')
      = true -> authority p' = Decoder.authority (decoder p')).
Proof.
  intros Hat Hsaw Hu Hn Hok. cbv zeta.
  assert (revolutions_since_lock (snd (profiled_feed t (wheel_intervals revs) p))
      = Z.min (revolutions_since_lock p + Z.of_nat (length revs)) u8_max
    /\ Decoder.primary_locked (decoder (snd (profiled_feed t (wheel_intervals revs) p))) = true
    /\ profile (snd (profiled_feed t (wheel_intervals revs) p)) = profile p) as (Hrev & Hlock & Hprof).
  { revert p t iv Hat Hsaw Hu Hn Hok. induction revs as [|[teeth gap] revs IH]; intros p t iv Hat Hsaw Hu Hn Hok.
    { simpl. split_and!; [unfold fits, u8_max in *; lia|apply Hat|done]. }
    destruct Hok as (Hlen & Hteeth & Hgap & Hrevs). unfold wheel_intervals. rewrite fmap_cons. simpl.
    rewrite <- app_assoc, profiled_feed_app.
    destruct (profiled_feed_teeth teeth p 1 t iv Hat Hteeth ltac:(lia)) as (t1 & d1 & -> & Hat1 & Hc1 & Ho1).
    simpl. replace (1 + Z.of_nat (length teeth)) with (Decoder.observed_teeth d1) in Hat1 by lia.
    destruct (gap_restarts d1 t1 _ gap Hat1 ltac:(by rewrite Hc1)) as (d2 & Hd2 & Hat2 & Hc2 & Ho2).
    unfold ingest_primary_edge. cbn [decoder]. simpl. rewrite Hd2. simpl. rewrite Hsaw. simpl.
    fold (wheel_intervals revs).
    destruct (IH (Profiled.mk d2 (profile p) (saturating_add 8 (revolutions_since_lock p) 1)
      (saw_primary_gap p)) _ _ Hat2 Hsaw) as (H1 & H2 & H3).
    - simpl. unfold saturating_add, fits in *. lia.
    - simpl. lia.
    - simpl. by rewrite Hc2, Hc1.
    - split_and!; [|exact H2|exact H3]. etransitivity; [exact H1|]. simpl.
      unfold saturating_add, u8_max, fits in *. lia. }
  split_and!; [done|done|]. intros Hready. unfold authority, RuntimeProfile.startup_authority_ready.
  rewrite Hprof, Hready. by destruct (negb _).
Qed.

(** the profiled angle does not know the tooth: with no latency to compensate, the angle
    reported at the moment of a tooth edge is the trigger angle at every tooth, while the
    decoder underneath reports the trigger angle plus the teeth turned since tooth 1. *)
Theorem profiled_angle_ignores_tooth p k t iv angle :
  at_tooth (decoder p) k t iv ->
  u8 (DecoderConfig.tooth_angle_multiplier (Decoder.config (decoder p))) ->
  TriggerAngle.angle_deg10 (RuntimeProfile.trigger_angle_atdc_deg10 (profile p)) = Some angle ->
  DecoderConfig.trigger_angle_atdc_deg10 (Decoder.config (decoder p))
    = RuntimeProfile.trigger_angle_atdc_deg10 (profile p) ->
  RuntimeProfile.latency_us (profile p) = 0 ->
  crank_angle_at t p = Some (angle mod ENGINE_CYCLE)
  /\ Decoder.crank_angle_at t (decoder p) =
     Some ((angle + (k - 1) * tooth_pitch (Decoder.config (decoder p))) mod ENGINE_CYCLE).
Proof.
  intros Hat Hmult Hangle Hsame Hlat. pose proof Hat as (Hok & Hl & Hk & Ht & Hp).
  pose proof Hok as (_ & _ & _ & Hi). pose proof (inv_timestamp _ Hi t Ht) as Hu.
  split.
  - unfold crank_angle_at, TriggerAngle.normalized_angle_deg10. rewrite Hl, Hangle, Ht, Hlat. cbn [negb].
    cbv zeta. rewrite normalize_deg10_mod. destruct (_ =? 0); [done|].
    unfold saturating_sub, fits in *. by rewrite (proj2 (Z.leb_le _ _)) by lia.
  - pose proof (crank_angle_at_edge (decoder p) k t iv angle 0 Hat Hmult) as H.
    rewrite Hsame in H. specialize (H Hangle).
    rewrite Z.mul_0_l, Z.div_0_l, Z.add_0_r in H; [|destruct (inv_locked _ Hi Hl) as (_ & _ & Hpos & _);
      destruct (inv_previous _ Hi) as [_ Hpn]; lia].
    rewrite <- H; [|unfold fits; lia|destruct (inv_locked _ Hi Hl) as (_ & _ & Hpos & _);
      destruct (inv_previous _ Hi) as [_ Hpn]; lia].
    f_equal. unfold wrapping_add, fits in *. rewrite Z.add_0_r. by rewrite Z.mod_small.
Qed.

(** ** Witnesses *)
Definition sample_profile : RuntimeProfile.t :=
  RuntimeProfile.mk 4 1 TriggerSpeed.Crank TriggerEdge.Rising
    (RuntimeSecondaryProfile.mk RuntimeSecondaryMode.SingleToothCam TriggerEdge.Falling
      PollLevelPolarity.ActiveHigh)
    (TriggerAngle.ExpertManual 100) 1 (StartupSyncPolicy.mk 2 true) (EngineTimeLatency.mk 0 0 0).

Lemma sample_profile_ok : profile_ok sample_profile.
Proof. unfold profile_ok, fits. simpl. lia. Qed.

Definition sample_profiled : Profiled.t := Profiled.mk sample_fresh sample_profile 0 false.
Definition sample_profiled_locked : Profiled.t := profiled_run sample_inputs sample_profiled.

Lemma sample_profiled_at : at_tooth (decoder sample_profiled_locked) 1 5000 1000.
Proof.
  split; [|by vm_compute]. apply prof_decoder. apply profiled_run_inv; [apply sample_inputs_wf|].
  apply (profiled_new sample_profile 10 0); [apply sample_profile_ok|done|by vm_compute|by vm_compute].
Qed.

Example profiled_authority_gated_witness :
  Profiled.try_new sample_profile 10 0 = Ok sample_profiled
  /\ let p' := profiled_run sample_inputs sample_profiled in
     let a := authority p' in
     EngineTimeAuthority.validate a = Ok tt
     /\ (EngineTimeAuthority.has_absolute_timing a = true ->
         Decoder.primary_locked (decoder p') = true /\ Decoder.phase_validated (decoder p') = true
         /\ 2 <= revolutions_since_lock p'
         /\ (true = true -> 0 < revolutions_since_lock p'))
     /\ (0 < revolutions_since_lock p' -> saw_primary_gap p' = true
         /\ Decoder.primary_locked (decoder p') = true).
Proof.
  assert (Profiled.try_new sample_profile 10 0 = Ok sample_profiled) as Hnew by (by vm_compute).
  assert (u16 0) as Hthr by (by vm_compute).
  exact (conj Hnew (profiled_authority_gated sample_profile 10 0 sample_profiled sample_inputs
    sample_profile_ok eq_refl Hthr Hnew sample_inputs_wf)).
Defined.

Example startup_revolutions_counted_witness :
  let revs := [([1010; 990], 2000); ([980; 970], 1950)] in
  let p' := snd (profiled_feed 5000 (wheel_intervals revs) sample_profiled_locked) in
  revolutions_since_lock p' = 2
  /\ revolutions_since_lock p'
     = Z.min (revolutions_since_lock sample_profiled_locked + Z.of_nat (length revs)) u8_max
  /\ Decoder.primary_locked (decoder p') = true
  /\ (StartupSyncPolicy.authority_ready (RuntimeProfile.startup (profile sample_profiled_locked))
        (revolutions_since_lock p') = true -> authority p' = Decoder.authority (decoder p')).
Proof.
  split; [by vm_compute|].
  apply (startup_revolutions_counted sample_profiled_locked 5000 1000 3
    [([1010; 990], 2000); ([980; 970], 1950)] sample_profiled_at);
    vm_compute; intuition congruence.
Defined.

(** The same decoder one tooth further on: 1000 ticks later, 900 tenths of a degree. *)
Definition sample_profiled_second : Profiled.t :=
  profiled_run [Input.PrimaryEdge 6000 TriggerEdge.Rising] sample_profiled_locked.

Lemma sample_profiled_second_at : at_tooth (decoder sample_profiled_second) 2 6000 1000.
Proof.
  split; [|by vm_compute]. apply prof_decoder. apply profiled_run_inv.
  - repeat constructor; simpl; unfold fits; lia.
  - apply profiled_run_inv; [apply sample_inputs_wf|].
    apply (profiled_new sample_profile 10 0); [apply sample_profile_ok|done|by vm_compute|by vm_compute].
Qed.

Example profiled_angle_ignores_tooth_witness :
  crank_angle_at 6000 sample_profiled_second = Some (100 mod ENGINE_CYCLE)
  /\ Decoder.crank_angle_at 6000 (decoder sample_profiled_second) =
     Some ((100 + (2 - 1) * tooth_pitch (Decoder.config (decoder sample_profiled_second))) mod ENGINE_CYCLE).
Proof.
  apply (profiled_angle_ignores_tooth sample_profiled_second 2 6000 1000 100
    sample_profiled_second_at); by vm_compute.
Defined.
