(* ===== verification/Lowering.v ===== *)
(** * Runtime actions and their lowering (crates/runtime/src: actions.rs, lowering.rs; the
      action executor of boards/common/src/outputs/scheduler.rs)

    What the runtime decides is a batch of actions.  They reach the pins' queue through a
    lowering to board transitions, or a timing island through a lowering to commands, or an
    observer through an export.  A fallible operation on [&mut] buffers is a state and
    result monad, [SR]: an error keeps the writes made before it. *)
From S2P Require Import Prelude Domain BoardApi SchedTypes Queue SchedState Batch Scheduler Outputs.

(** ** The state and result monad of the [?] operator on mutable buffers *)
Definition SR (S E A : Type) : Type := S -> S * Result A E.
Definition sr_ret {S E A} (a : A) : SR S E A := fun s => (s, Ok a).
Definition sr_bind {S E A B} (m : SR S E A) (k : A -> SR S E B) : SR S E B := fun s =>
  match m s with
  | (s, Ok a) => k a s
  | (s, Err e) => (s, Err e)
  end.
Declare Scope sr_scope.
Notation "'do!' x := m 'in' k" := (sr_bind m (fun x => k))
  (at level 10, x name, m at level 100, k at level 200) : sr_scope.
Open Scope sr_scope.

Definition RUNTIME_AUX_COMMAND_CAP : nat := 16.
Definition ACTION_OUTPUT_SCRATCH_CAP : nat := 4.

(** ** Actions (actions.rs) *)
Module Action.
Inductive t :=
| ArmScheduler (injection : TimedInjectionPlan.t) (ignition : TimedIgnitionPlan.t)
| ArmInjection (injection : TimedInjectionPlan.t)
| ArmIgnition (ignition : TimedIgnitionPlan.t)
| CancelScheduler (reason : CancelReason.t)
| PublishSnapshot
| PersistCalibration
| ApplyAux (commands : Batch.t AuxCommand.t)
| Idle.
End Action.

Module ActionBatch.
(** [ActionBatch<N>] *)
Record t := mk { actions : list (option Action.t); len : Z }.

Definition new (N : nat) : t := mk (replicate N None) 0.
Definition push (action : Action.t) (b : t) : t * bool :=
  if len b =? Z.of_nat (length (actions b)) then (b, false)
  else (mk (<[Z.to_nat (len b) := Some action]> (actions b)) (len b + 1), true).
(** [self.actions.into_iter().flatten()] *)
Definition iter (b : t) : list Action.t := omap id (actions b).
End ActionBatch.

Module RuntimeTransition.
(** [RuntimeScheduledTransition], its kind and its level *)
Inductive kind_t := Injector | Ignition.
Inductive level_t := Low | High.
Record t := mk { at_us : Micros; kind : kind_t; channel : ChannelId; level : level_t }.
End RuntimeTransition.

Module ExportError.
Inductive t := TransitionBatchFull | SchedulerExport.
End ExportError.

Module RuntimeTransitionBatch.
(** [RuntimeScheduledTransitionBatch<N>] *)
Record t := mk { len : Z; transitions : list (option RuntimeTransition.t) }.

Definition new (N : nat) : t := mk 0 (replicate N None).
Definition iter (b : t) : list RuntimeTransition.t := omap id (transitions b).
Definition push (transition : RuntimeTransition.t) : SR t ExportError.t unit := fun b =>
  if len b =? Z.of_nat (length (transitions b)) then (b, Err ExportError.TransitionBatchFull)
  else (mk (len b + 1) (<[Z.to_nat (len b) := Some transition]> (transitions b)), Ok tt).
End RuntimeTransitionBatch.

Definition runtime_level (level : Level.t) : RuntimeTransition.level_t :=
  match level with Level.Low => RuntimeTransition.Low | Level.High => RuntimeTransition.High end.

(** The loop over [export.transitions.into_iter().flatten()]. *)
Fixpoint push_exported (kind : RuntimeTransition.kind_t) (transitions : list Transition.t) :
    SR RuntimeTransitionBatch.t ExportError.t unit :=
  match transitions with
  | [] => sr_ret tt
  | transition :: transitions =>
    do! _ := RuntimeTransitionBatch.push (RuntimeTransition.mk (Transition.at_us transition) kind
               (Transition.channel transition) (runtime_level (Transition.level transition))) in
    push_exported kind transitions
  end.

Definition push_injection_export (injection : TimedInjectionPlan.t) :
    SR RuntimeTransitionBatch.t ExportError.t unit := fun b =>
  match export_injection 2 injection with
  | Err _ => (b, Err ExportError.SchedulerExport)
  | Ok export =>
    push_exported RuntimeTransition.Injector (omap id (ScheduleExport.transitions export)) b
  end.

Definition push_ignition_export (ignition : TimedIgnitionPlan.t) :
    SR RuntimeTransitionBatch.t ExportError.t unit := fun b =>
  match export_ignition 2 ignition with
  | Err _ => (b, Err ExportError.SchedulerExport)
  | Ok export =>
    push_exported RuntimeTransition.Ignition (omap id (ScheduleExport.transitions export)) b
  end.

Definition export_scheduled_transitions (N : nat) (action : Action.t) :
    Result RuntimeTransitionBatch.t ExportError.t :=
  let '(batch, r) :=
    match action with
    | Action.ArmScheduler injection ignition =>
      do! _ := push_injection_export injection in push_ignition_export ignition
    | Action.ArmInjection injection => push_injection_export injection
    | Action.ArmIgnition ignition => push_ignition_export ignition
    | _ => sr_ret tt
    end (RuntimeTransitionBatch.new N) in
  match r with Ok _ => Ok batch | Err e => Err e end.

(** ** Lowering to board batches (lowering.rs) *)
Module LoweringError.
(** [ActionLoweringError] *)
Inductive t := OutputBatchFull | AuxBatchFull | TimingIslandBatchFull.
#[global] Instance eq_dec : EqDecision t.
Proof. solve_decision. Defined.
End LoweringError.

Module Status.
(** [ActionLoweringStatus] *)
Record t := mk {
  scheduled_output_transitions : Z;
  applied_aux_commands : Z;
  cancel_scheduler : option CancelReason.t;
  persist_calibration : bool;
  publish_snapshot : bool;
  idle_seen : bool;
}.
#[global] Instance eta : Eta t := fun s =>
  mk (scheduled_output_transitions s) (applied_aux_commands s) (cancel_scheduler s)
     (persist_calibration s) (publish_snapshot s) (idle_seen s).

Definition default : t := mk 0 0 None false false false.
Definition cancel_scheduled_outputs (s : t) : bool :=
  match cancel_scheduler s with Some _ => true | None => false end.

(** The counters are [usize] sums of batch lengths, far below their width. *)
Definition merge (self other : t) : t :=
  mk (scheduled_output_transitions self + scheduled_output_transitions other)
     (applied_aux_commands self + applied_aux_commands other)
     (match cancel_scheduler other with Some r => Some r | None => cancel_scheduler self end)
     (persist_calibration self || persist_calibration other)
     (publish_snapshot self || publish_snapshot other)
     (idle_seen self || idle_seen other).
End Status.

Module Batches.
(** The two buffers [outputs] and [aux] the lowering writes to. *)
Record t := mk { outputs : Batch.t OutputTransition.t; aux : Batch.t AuxCommand.t }.
#[global] Instance eta : Eta t := fun b => mk (outputs b) (aux b).
End Batches.

(** [push(..).map_err(|_| error)] *)
Definition push_or {A} (error : LoweringError.t) (item : A) :
    SR (Batch.t A) LoweringError.t unit := fun b =>
  match Batch.push item b with
  | (b, Ok _) => (b, Ok tt)
  | (b, Err _) => (b, Err error)
  end.

Definition ensure_capacity {A} (error : LoweringError.t) (needed : Z) :
    SR (Batch.t A) LoweringError.t unit := fun b =>
  if saturating_sub (Batch.capacity b) (Batch.len b) <? needed then (b, Err error) else (b, Ok tt).

Definition ensure_output_capacity : Z -> SR (Batch.t OutputTransition.t) LoweringError.t unit :=
  ensure_capacity LoweringError.OutputBatchFull.
Definition ensure_aux_capacity : Z -> SR (Batch.t AuxCommand.t) LoweringError.t unit :=
  ensure_capacity LoweringError.AuxBatchFull.
Definition ensure_timing_island_capacity :
    Z -> SR (Batch.t TimingIslandCommand.t) LoweringError.t unit :=
  ensure_capacity LoweringError.TimingIslandBatchFull.

Definition push_output_pair (output : EcuOutput.t) (start_at end_at : Micros) :
    SR (Batch.t OutputTransition.t) LoweringError.t unit :=
  do! _ := push_or LoweringError.OutputBatchFull (OutputTransition.mk output OutputLevel.High start_at) in
  push_or LoweringError.OutputBatchFull (OutputTransition.mk output OutputLevel.Low end_at).

(** [outputs.f(..)] and [aux.f(..)] within the pair of buffers. *)
Definition on_outputs {A} (m : SR (Batch.t OutputTransition.t) LoweringError.t A) :
    SR Batches.t LoweringError.t A := fun b =>
  let '(o, r) := m (Batches.outputs b) in (b <| Batches.outputs := o |>, r).
Definition on_aux {A} (m : SR (Batch.t AuxCommand.t) LoweringError.t A) :
    SR Batches.t LoweringError.t A := fun b =>
  let '(a, r) := m (Batches.aux b) in (b <| Batches.aux := a |>, r).

(** [EcuOutput::Injector(plan.output.channel())] with the plan's window, and the same for
    ignition. *)
Definition push_injection_pair (p : TimedInjectionPlan.t) :
    SR (Batch.t OutputTransition.t) LoweringError.t unit :=
  push_output_pair
    (EcuOutput.Injector (ExclusiveChannel.channel (InjectionPlan.output (TimedInjectionPlan.plan p))))
    (TimedInjectionPlan.start_at p) (TimedInjectionPlan.end_at p).
Definition push_ignition_pair (p : TimedIgnitionPlan.t) :
    SR (Batch.t OutputTransition.t) LoweringError.t unit :=
  push_output_pair
    (EcuOutput.Ignition (ExclusiveChannel.channel (IgnitionPlan.output (TimedIgnitionPlan.plan p))))
    (TimedIgnitionPlan.start_at p) (TimedIgnitionPlan.end_at p).

(** The loop [for command in commands.iter()], with the commands applied so far. *)
Fixpoint push_commands {A} (error : LoweringError.t) (commands : list A) (applied : Z) :
    SR (Batch.t A) LoweringError.t Z :=
  match commands with
  | [] => sr_ret applied
  | command :: commands =>
    do! _ := push_or error command in push_commands error commands (applied + 1)
  end.

Definition lower_action_to_board_batches (action : Action.t) :
    SR Batches.t LoweringError.t Status.t :=
  let status := Status.default in
  match action with
  | Action.ArmScheduler injection ignition =>
    do! _ := on_outputs (ensure_output_capacity 4) in
    do! _ := on_outputs (push_injection_pair injection) in
    do! _ := on_outputs (push_ignition_pair ignition) in
    sr_ret (status <| Status.scheduled_output_transitions := 4 |>)
  | Action.ArmInjection injection =>
    do! _ := on_outputs (ensure_output_capacity 2) in
    do! _ := on_outputs (push_injection_pair injection) in
    sr_ret (status <| Status.scheduled_output_transitions := 2 |>)
  | Action.ArmIgnition ignition =>
    do! _ := on_outputs (ensure_output_capacity 2) in
    do! _ := on_outputs (push_ignition_pair ignition) in
    sr_ret (status <| Status.scheduled_output_transitions := 2 |>)
  | Action.CancelScheduler reason => sr_ret (status <| Status.cancel_scheduler := Some reason |>)
  | Action.ApplyAux commands =>
    do! _ := on_aux (ensure_aux_capacity (Batch.len commands)) in
    do! applied := on_aux (push_commands LoweringError.AuxBatchFull (Batch.iter commands) 0) in
    sr_ret (status <| Status.applied_aux_commands := applied |>)
  | Action.PersistCalibration => sr_ret (status <| Status.persist_calibration := true |>)
  | Action.PublishSnapshot => sr_ret (status <| Status.publish_snapshot := true |>)
  | Action.Idle => sr_ret (status <| Status.idle_seen := true |>)
  end.

Definition action_output_transition_count (action : Action.t) : Z :=
  match action with
  | Action.ArmScheduler _ _ => 4
  | Action.ArmInjection _ | Action.ArmIgnition _ => 2
  | _ => 0
  end.

Definition action_aux_command_count (action : Action.t) : Z :=
  match action with
  | Action.ApplyAux commands => Batch.len commands
  | _ => 0
  end.

Definition action_timing_island_command_count (action : Action.t) : Z :=
  match action with
  | Action.ArmScheduler _ _ => 4
  | Action.ArmInjection _ | Action.ArmIgnition _ => 2
  | Action.CancelScheduler _ => 1
  | Action.ApplyAux commands => Batch.len commands
  | _ => 0
  end.

(** The width of [usize] on the embedded targets. *)
Definition USIZE_BITS : Z := 32.

(** The counting loop, with its saturating additions. *)
Definition count_all (count : Action.t -> Z) (actions : list Action.t) : Z :=
  foldl (fun n action => saturating_add USIZE_BITS n (count action)) 0 actions.

(** The lowering loop [status.merge(lower(action)?)]. *)
Fixpoint lower_all {S} (lower : Action.t -> SR S LoweringError.t Status.t)
    (actions : list Action.t) (status : Status.t) : SR S LoweringError.t Status.t :=
  match actions with
  | [] => sr_ret status
  | action :: actions =>
    do! s := lower action in lower_all lower actions (Status.merge status s)
  end.

Definition lower_action_batch_to_board_batches (actions : ActionBatch.t) :
    SR Batches.t LoweringError.t Status.t :=
  let actions := ActionBatch.iter actions in
  do! _ := on_outputs (ensure_output_capacity (count_all action_output_transition_count actions)) in
  do! _ := on_aux (ensure_aux_capacity (count_all action_aux_command_count actions)) in
  lower_all lower_action_to_board_batches actions Status.default.

Module Executor.
(** [BoardApiBatchExecutor<OUT, AUX>] *)
Record t := mk { batches : Batches.t; status : Status.t }.
#[global] Instance eta : Eta t := fun e => mk (batches e) (status e).

Definition new (OUT AUX : nat) : t :=
  mk (Batches.mk (Batch.new OutputTransition.EMPTY OUT) (Batch.new AuxCommand.EMPTY AUX)) Status.default.

Definition output_transitions (e : t) : Batch.t OutputTransition.t := Batches.outputs (batches e).
Definition aux_commands (e : t) : Batch.t AuxCommand.t := Batches.aux (batches e).

Definition clear (e : t) : t :=
  mk (Batches.mk (Batch.clear (output_transitions e)) (Batch.clear (aux_commands e))) Status.default.

(** [scratch] is written and replaces [self] on success only. *)
Definition commit (lowered : Batches.t * Result Status.t LoweringError.t) (e : t) :
    t * Result unit LoweringError.t :=
  match lowered with
  | (_, Err error) => (e, Err error)
  | (scratch, Ok status') => (mk scratch (Status.merge (status e) status'), Ok tt)
  end.

Definition execute (action : Action.t) (e : t) : t * Result unit LoweringError.t :=
  commit (lower_action_to_board_batches action (batches e)) e.

Definition execute_batch (batch : ActionBatch.t) (e : t) : t * Result unit LoweringError.t :=
  commit (lower_action_batch_to_board_batches batch (batches e)) e.
End Executor.

(** ** Lowering to timing-island commands (lowering.rs) *)
Definition push_timing_island_output_pair (output : EcuOutput.t) (start_at end_at : Micros) :
    SR (Batch.t TimingIslandCommand.t) LoweringError.t unit :=
  do! _ := push_or LoweringError.TimingIslandBatchFull
             (TimingIslandCommand.ArmOutput (OutputTransition.mk output OutputLevel.High start_at)) in
  push_or LoweringError.TimingIslandBatchFull
    (TimingIslandCommand.ArmOutput (OutputTransition.mk output OutputLevel.Low end_at)).

Definition push_island_injection (p : TimedInjectionPlan.t) :
    SR (Batch.t TimingIslandCommand.t) LoweringError.t unit :=
  push_timing_island_output_pair
    (EcuOutput.Injector (ExclusiveChannel.channel (InjectionPlan.output (TimedInjectionPlan.plan p))))
    (TimedInjectionPlan.start_at p) (TimedInjectionPlan.end_at p).
Definition push_island_ignition (p : TimedIgnitionPlan.t) :
    SR (Batch.t TimingIslandCommand.t) LoweringError.t unit :=
  push_timing_island_output_pair
    (EcuOutput.Ignition (ExclusiveChannel.channel (IgnitionPlan.output (TimedIgnitionPlan.plan p))))
    (TimedIgnitionPlan.start_at p) (TimedIgnitionPlan.end_at p).

Definition lower_action_to_timing_island (action : Action.t) :
    SR (Batch.t TimingIslandCommand.t) LoweringError.t Status.t :=
  let status := Status.default in
  match action with
  | Action.ArmScheduler injection ignition =>
    do! _ := ensure_timing_island_capacity 4 in
    do! _ := push_island_injection injection in
    do! _ := push_island_ignition ignition in
    sr_ret (status <| Status.scheduled_output_transitions := 4 |>)
  | Action.ArmInjection injection =>
    do! _ := ensure_timing_island_capacity 2 in
    do! _ := push_island_injection injection in
    sr_ret (status <| Status.scheduled_output_transitions := 2 |>)
  | Action.ArmIgnition ignition =>
    do! _ := ensure_timing_island_capacity 2 in
    do! _ := push_island_ignition ignition in
    sr_ret (status <| Status.scheduled_output_transitions := 2 |>)
  | Action.CancelScheduler reason =>
    do! _ := ensure_timing_island_capacity 1 in
    do! _ := push_or LoweringError.TimingIslandBatchFull (TimingIslandCommand.CancelAll reason) in
    sr_ret (status <| Status.cancel_scheduler := Some reason |>)
  | Action.ApplyAux aux_commands =>
    do! _ := ensure_timing_island_capacity (Batch.len aux_commands) in
    do! applied := push_commands LoweringError.TimingIslandBatchFull
                     (TimingIslandCommand.ApplyAux <$> Batch.iter aux_commands) 0 in
    sr_ret (status <| Status.applied_aux_commands := applied |>)
  | Action.PersistCalibration => sr_ret (status <| Status.persist_calibration := true |>)
  | Action.PublishSnapshot => sr_ret (status <| Status.publish_snapshot := true |>)
  | Action.Idle => sr_ret (status <| Status.idle_seen := true |>)
  end.

Definition lower_action_batch_to_timing_island (actions : ActionBatch.t) :
    SR (Batch.t TimingIslandCommand.t) LoweringError.t Status.t :=
  let actions := ActionBatch.iter actions in
  do! _ := ensure_timing_island_capacity (count_all action_timing_island_command_count actions) in
  lower_all lower_action_to_timing_island actions Status.default.

(** ** Executing actions on the scheduler (boards/common/src/outputs/scheduler.rs) *)
Definition map_action_lowering_error (error : LoweringError.t) : ScheduleError.t :=
  match error with
  | LoweringError.OutputBatchFull | LoweringError.AuxBatchFull
  | LoweringError.TimingIslandBatchFull => ScheduleError.QueueFull
  end.

Definition execute_action_on_scheduler (action : Action.t) (scheduler : Adapter.t) :
    option (Adapter.t * Result unit ScheduleError.t) :=
  match Executor.execute action (Executor.new ACTION_OUTPUT_SCRATCH_CAP RUNTIME_AUX_COMMAND_CAP) with
  | (_, Err error) => Some (scheduler, Err (map_action_lowering_error error))
  | (lowered, Ok _) =>
    Adapter.apply_lowered (Status.cancel_scheduler (Executor.status lowered))
      (Executor.output_transitions lowered) scheduler
  end.

Module ScheduledActionExecutor.
(** Its one field is the scheduler adapter. *)
Definition execute : Action.t -> Adapter.t -> option (Adapter.t * Result unit ScheduleError.t) :=
  execute_action_on_scheduler.

Fixpoint execute_all (actions : list Action.t) (scheduler : Adapter.t) :
    option (Adapter.t * Result unit ScheduleError.t) :=
  match actions with
  | [] => Some (scheduler, Ok tt)
  | action :: actions =>
    match execute_action_on_scheduler action scheduler with
    | None => None
    | Some (scheduler, Err e) => Some (scheduler, Err e)
    | Some (scheduler, Ok _) => execute_all actions scheduler
    end
  end.

Definition execute_batch (batch : ActionBatch.t) (scheduler : Adapter.t) :
    option (Adapter.t * Result unit ScheduleError.t) :=
  match execute_all (ActionBatch.iter batch) scheduler with
  | None => None
  | Some (_, Err e) => Some (scheduler, Err e)
  | Some (scratch, Ok _) => Some (scratch, Ok tt)
  end.
End ScheduledActionExecutor.

(** ** What an action stands for

    The transitions, auxiliary commands and status of an action, by which the lowerings are
    judged. *)
Definition window_pair (output : EcuOutput.t) (start_at end_at : Micros) : list OutputTransition.t :=
  [OutputTransition.mk output OutputLevel.High start_at; OutputTransition.mk output OutputLevel.Low end_at].
Definition injection_window (p : TimedInjectionPlan.t) : list OutputTransition.t :=
  window_pair
    (EcuOutput.Injector (ExclusiveChannel.channel (InjectionPlan.output (TimedInjectionPlan.plan p))))
    (TimedInjectionPlan.start_at p) (TimedInjectionPlan.end_at p).
Definition ignition_window (p : TimedIgnitionPlan.t) : list OutputTransition.t :=
  window_pair
    (EcuOutput.Ignition (ExclusiveChannel.channel (IgnitionPlan.output (TimedIgnitionPlan.plan p))))
    (TimedIgnitionPlan.start_at p) (TimedIgnitionPlan.end_at p).

Definition action_transitions (action : Action.t) : list OutputTransition.t :=
  match action with
  | Action.ArmScheduler injection ignition => injection_window injection ++ ignition_window ignition
  | Action.ArmInjection injection => injection_window injection
  | Action.ArmIgnition ignition => ignition_window ignition
  | _ => []
  end.
Definition action_aux (action : Action.t) : list AuxCommand.t :=
  match action with Action.ApplyAux commands => Batch.iter commands | _ => [] end.
Definition action_cancel (action : Action.t) : option CancelReason.t :=
  match action with Action.CancelScheduler reason => Some reason | _ => None end.
Definition action_commands (action : Action.t) : list TimingIslandCommand.t :=
  (TimingIslandCommand.ArmOutput <$> action_transitions action)
  ++ (TimingIslandCommand.CancelAll <$> option_list (action_cancel action))
  ++ (TimingIslandCommand.ApplyAux <$> action_aux action).
Definition action_status (action : Action.t) : Status.t :=
  Status.mk (Z.of_nat (length (action_transitions action))) (Z.of_nat (length (action_aux action)))
    (action_cancel action)
    match action with Action.PersistCalibration => true | _ => false end
    match action with Action.PublishSnapshot => true | _ => false end
    match action with Action.Idle => true | _ => false end.

(** An auxiliary batch of the runtime's capacity, its length within the array. *)
Definition action_wf (action : Action.t) : Prop :=
  match action with
  | Action.ApplyAux commands =>
    Batch.wf commands /\ length (Batch.items commands) = RUNTIME_AUX_COMMAND_CAP
  | _ => True
  end.

(** ** Lemmas: buffers that grow by a list *)
Definition room {A} (b : Batch.t A) : Z := Batch.capacity b - Batch.len b.

Definition grows {A} (xs : list A) (b b' : Batch.t A) : Prop :=
  Batch.wf b' /\ Batch.iter b' = Batch.iter b ++ xs /\ Batch.capacity b' = Batch.capacity b
  /\ Batch.len b' = Batch.len b + Z.of_nat (length xs).

(** [m] writes exactly [xs] and returns [a] when there is room for [xs]. *)
Definition appends {A B} (m : SR (Batch.t A) LoweringError.t B) (xs : list A) (a : B) : Prop :=
  forall b, Batch.wf b -> Z.of_nat (length xs) <= room b -> exists b', m b = (b', Ok a) /\ grows xs b b'.

Lemma grows_trans {A} (xs ys : list A) b b1 b2 : grows xs b b1 -> grows ys b1 b2 -> grows (xs ++ ys) b b2.
Proof.
  intros (W1 & I1 & C1 & L1) (W2 & I2 & C2 & L2). split_and!; [done|by rewrite I2, I1, <- app_assoc|lia|].
  rewrite length_app. lia.
Qed.

Lemma appends_ret {A B} (a : B) : appends (A := A) (sr_ret a) [] a.
Proof. intros b Hwf _. exists b. split; [done|]. split_and!; [done|by rewrite app_nil_r|done|simpl; lia]. Qed.

Lemma appends_bind {A B C} (m : SR (Batch.t A) LoweringError.t B) (k : B -> SR _ _ C) xs ys a c :
  appends m xs a -> appends (k a) ys c -> appends (sr_bind m k) (xs ++ ys) c.
Proof.
  intros Hm Hk b Hwf Hr. rewrite length_app in Hr.
  destruct (Hm b Hwf ltac:(lia)) as (b1 & E1 & G1). pose proof G1 as (W1 & _ & C1 & L1).
  destruct (Hk b1 W1 ltac:(unfold room in *; lia)) as (b2 & E2 & G2).
  exists b2. unfold sr_bind. rewrite E1. split; [done|by eapply grows_trans].
Qed.

Lemma appends_push {A} e (x : A) : appends (push_or e x) [x] tt.
Proof.
  intros b Hwf Hr. destruct (batch_push_room x b Hwf) as (b' & E & W & I & R); [exact (Z.lt_le_trans 0 1 _ eq_refl Hr)|].
  cbn [Batch.content batch_buffer Batch.room Batch.push] in *. exists b'. unfold push_or.
  unfold push, batch_buffer in E. rewrite E. split; [done|].
  assert (Batch.capacity b' = Batch.capacity b) as Hc.
  { unfold Batch.push in E. destruct (_ =? _); [done|]. injection E as <-. unfold Batch.capacity. simpl.
    by rewrite length_insert. }
  split_and!; [done|exact I|exact Hc|]. change (Batch.capacity b' - Batch.len b' = Batch.capacity b - Batch.len b - 1) in R.
  simpl. lia.
Qed.

Lemma appends_ensure {A B} e n (m : SR (Batch.t A) LoweringError.t B) xs a :
  n <= Z.of_nat (length xs) -> appends m xs a ->
  appends (do! _ := ensure_capacity e n in m) xs a.
Proof.
  intros Hn Hm b Hwf Hr. unfold sr_bind, ensure_capacity. unfold room, Batch.wf in *.
  destruct (Z.ltb_spec (saturating_sub (Batch.capacity b) (Batch.len b)) n);
    [unfold saturating_sub in *; lia|]. by apply Hm.
Qed.

Lemma appends_commands {A} e (xs : list A) n :
  appends (push_commands e xs n) xs (n + Z.of_nat (length xs)).
Proof.
  revert n. induction xs as [|x xs IH]; intros n.
  - simpl. rewrite Z.add_0_r. apply appends_ret.
  - cbn [push_commands]. apply (appends_bind _ _ [x] _ tt); [apply appends_push|].
    replace (n + Z.of_nat (length (x :: xs))) with (n + 1 + Z.of_nat (length xs)) by (simpl; lia). apply IH.
Qed.

Lemma iter_length {A} (b : Batch.t A) : Batch.wf b -> Z.of_nat (length (Batch.iter b)) = Batch.len b.
Proof.
  unfold Batch.wf, Batch.capacity, Batch.iter. intros Hwf. rewrite length_take. lia.
Qed.

(** Actions, lowered to a timing island. *)
Lemma island_pair_appends output a b :
  appends (push_timing_island_output_pair output a b)
    (TimingIslandCommand.ArmOutput <$> window_pair output a b) tt.
Proof. apply (appends_bind _ _ [_] [_] tt tt); apply appends_push. Qed.

Lemma island_appends action : action_wf action ->
  appends (lower_action_to_timing_island action) (action_commands action) (action_status action).
Proof.
  intros Hwf. destruct action as [inj ign|inj|ign|reason| | |commands|]; cbn [lower_action_to_timing_island];
    try apply appends_ret.
  - change (action_commands _) with
      ((TimingIslandCommand.ArmOutput <$> injection_window inj) ++ (TimingIslandCommand.ArmOutput <$> ignition_window ign) ++ []).
    apply appends_ensure; [done|].
    eapply appends_bind; [apply island_pair_appends|].
    eapply appends_bind; [apply island_pair_appends|apply appends_ret].
  - change (action_commands _) with ((TimingIslandCommand.ArmOutput <$> injection_window inj) ++ []). apply appends_ensure; [done|].
    eapply appends_bind; [apply island_pair_appends|apply appends_ret].
  - change (action_commands _) with ((TimingIslandCommand.ArmOutput <$> ignition_window ign) ++ []). apply appends_ensure; [done|].
    eapply appends_bind; [apply island_pair_appends|apply appends_ret].
  - apply (appends_ensure _ 1 _ ([_] ++ [])); [done|].
    eapply appends_bind; [apply appends_push|apply appends_ret].
  - simpl in Hwf. destruct Hwf as [Hwf _].
    replace (action_commands (Action.ApplyAux commands))
      with ((TimingIslandCommand.ApplyAux <$> Batch.iter commands) ++ []) by (by rewrite app_nil_r).
    apply appends_ensure; [by rewrite app_nil_r, length_fmap, iter_length|].
    eapply appends_bind; [apply appends_commands|]. rewrite length_fmap. apply appends_ret.
Qed.

(** The same for the pair of board buffers. *)
Definition batches_wf (b : Batches.t) : Prop := Batch.wf (Batches.outputs b) /\ Batch.wf (Batches.aux b).

Definition appends2 {B} (m : SR Batches.t LoweringError.t B) (xs : list OutputTransition.t)
    (ys : list AuxCommand.t) (a : B) : Prop :=
  forall b, batches_wf b -> Z.of_nat (length xs) <= room (Batches.outputs b) ->
    Z.of_nat (length ys) <= room (Batches.aux b) ->
    exists b', m b = (b', Ok a) /\ grows xs (Batches.outputs b) (Batches.outputs b')
      /\ grows ys (Batches.aux b) (Batches.aux b').

Lemma grows_refl {A} (b : Batch.t A) : Batch.wf b -> grows [] b b.
Proof. intros Hwf. split_and!; [done|by rewrite app_nil_r|done|simpl; lia]. Qed.

Lemma appends2_ret {B} (a : B) : appends2 (sr_ret a) [] [] a.
Proof. intros b [Ho Ha] _ _. exists b. split_and!; [done|by apply grows_refl..]. Qed.

Lemma appends2_outputs {B} m xs (a : B) : appends m xs a -> appends2 (on_outputs m) xs [] a.
Proof.
  intros Hm b [Ho Ha] Hr _. destruct (Hm _ Ho Hr) as (o & E & G). unfold on_outputs. rewrite E.
  eexists. split; [done|]. by split; [|apply grows_refl].
Qed.

Lemma appends2_aux {B} m ys (a : B) : appends m ys a -> appends2 (on_aux m) [] ys a.
Proof.
  intros Hm b [Ho Ha] _ Hr. destruct (Hm _ Ha Hr) as (o & E & G). unfold on_aux. rewrite E.
  eexists. split; [done|]. by split; [apply grows_refl|].
Qed.

Lemma appends2_bind {B C} (m : SR Batches.t LoweringError.t B) (k : B -> SR _ _ C) xs xs' ys ys' a c :
  appends2 m xs ys a -> appends2 (k a) xs' ys' c -> appends2 (sr_bind m k) (xs ++ xs') (ys ++ ys') c.
Proof.
  intros Hm Hk b Hwf Hx Hy. rewrite length_app in Hx, Hy.
  destruct (Hm b Hwf ltac:(lia) ltac:(lia)) as (b1 & E1 & G1 & G1').
  pose proof G1 as (W1 & _ & C1 & L1). pose proof G1' as (W1' & _ & C1' & L1').
  destruct (Hk b1 (conj W1 W1')) as (b2 & E2 & G2 & G2'); [unfold room in *; lia..|].
  exists b2. unfold sr_bind. rewrite E1. split_and!; [done|by eapply grows_trans..].
Qed.

Lemma appends2_ensure_outputs {B} n (m : SR Batches.t LoweringError.t B) xs ys a :
  n <= Z.of_nat (length xs) -> appends2 m xs ys a ->
  appends2 (do! _ := on_outputs (ensure_output_capacity n) in m) xs ys a.
Proof.
  intros Hn Hm b Hwf Hx Hy. unfold sr_bind, on_outputs, ensure_output_capacity, ensure_capacity.
  pose proof Hwf as [Ho Ha]. unfold room, Batch.wf in *.
  destruct (Z.ltb_spec (saturating_sub (Batch.capacity (Batches.outputs b)) (Batch.len (Batches.outputs b))) n);
    [unfold saturating_sub in *; lia|]. destruct b. by apply Hm.
Qed.

Lemma appends2_ensure_aux {B} n (m : SR Batches.t LoweringError.t B) xs ys a :
  n <= Z.of_nat (length ys) -> appends2 m xs ys a ->
  appends2 (do! _ := on_aux (ensure_aux_capacity n) in m) xs ys a.
Proof.
  intros Hn Hm b Hwf Hx Hy. unfold sr_bind, on_aux, ensure_aux_capacity, ensure_capacity.
  pose proof Hwf as [Ho Ha]. unfold room, Batch.wf in *.
  destruct (Z.ltb_spec (saturating_sub (Batch.capacity (Batches.aux b)) (Batch.len (Batches.aux b))) n);
    [unfold saturating_sub in *; lia|]. destruct b. by apply Hm.
Qed.

Lemma output_pair_appends output a b : appends (push_output_pair output a b) (window_pair output a b) tt.
Proof. apply (appends_bind _ _ [_] [_] tt tt); apply appends_push. Qed.

Lemma injection_pair_appends p : appends2 (on_outputs (push_injection_pair p)) (injection_window p) [] tt.
Proof. apply appends2_outputs, output_pair_appends. Qed.

Lemma ignition_pair_appends p : appends2 (on_outputs (push_ignition_pair p)) (ignition_window p) [] tt.
Proof. apply appends2_outputs, output_pair_appends. Qed.

Create HintDb lowering.
#[local] Hint Resolve injection_pair_appends ignition_pair_appends appends2_ret : lowering.

Lemma board_appends action : action_wf action ->
  appends2 (lower_action_to_board_batches action) (action_transitions action) (action_aux action)
    (action_status action).
Proof.
  intros Hwf. destruct action as [inj ign|inj|ign|reason| | |commands|]; cbn [lower_action_to_board_batches];
    try apply appends2_ret.
  - apply appends2_ensure_outputs; [done|].
    apply (appends2_bind _ _ _ (ignition_window ign ++ []) [] [] tt); [auto with lowering|].
    apply (appends2_bind _ _ _ [] [] [] tt); auto with lowering.
  - change (action_transitions _) with (injection_window inj ++ []).
    apply appends2_ensure_outputs; [done|]. apply (appends2_bind _ _ _ [] [] [] tt); auto with lowering.
  - change (action_transitions _) with (ignition_window ign ++ []).
    apply appends2_ensure_outputs; [done|]. apply (appends2_bind _ _ _ [] [] [] tt); auto with lowering.
  - simpl in Hwf. destruct Hwf as [Hwf _].
    replace (action_aux (Action.ApplyAux commands)) with (Batch.iter commands ++ []) by (by rewrite app_nil_r).
    apply appends2_ensure_aux; [by rewrite app_nil_r, iter_length|].
    apply (appends2_bind _ _ [] [] _ _ (0 + Z.of_nat (length (Batch.iter commands))));
      [apply appends2_aux, appends_commands|apply appends2_ret].
Qed.

(** *** Batches of actions *)
Lemma lower_all_board actions status : Forall action_wf actions ->
  appends2 (lower_all lower_action_to_board_batches actions status)
    (concat (action_transitions <$> actions)) (concat (action_aux <$> actions))
    (foldl Status.merge status (action_status <$> actions)).
Proof.
  intros Hwf. revert status. induction Hwf as [|action actions Ha Hwf IH]; intros status; [apply appends2_ret|].
  cbn [lower_all fmap list_fmap concat foldl].
  eapply appends2_bind; [by apply board_appends|apply IH].
Qed.

Lemma lower_all_island actions status : Forall action_wf actions ->
  appends (lower_all lower_action_to_timing_island actions status)
    (concat (action_commands <$> actions)) (foldl Status.merge status (action_status <$> actions)).
Proof.
  intros Hwf. revert status. induction Hwf as [|action actions Ha Hwf IH]; intros status; [apply appends_ret|].
  cbn [lower_all fmap list_fmap concat foldl].
  eapply appends_bind; [by apply island_appends|apply IH].
Qed.

(** The counting loops count what will be written, up to the width of [usize]. *)
Lemma count_all_concat {A} count (f : Action.t -> list A) actions :
  Forall (fun a => count a = Z.of_nat (length (f a))) actions ->
  count_all count actions = Z.min (Z.of_nat (length (concat (f <$> actions)))) u32_max.
Proof.
  intros Hc. unfold count_all.
  assert (forall n, 0 <= n <= u32_max ->
    foldl (fun n a => saturating_add USIZE_BITS n (count a)) n actions
    = Z.min (n + Z.of_nat (length (concat (f <$> actions)))) u32_max) as H.
  { induction Hc as [|a actions Ha Hc IH]; intros n Hn; [simpl; lia|].
    cbn [foldl fmap list_fmap concat]. rewrite length_app, Ha. rewrite IH.
    - unfold saturating_add, USIZE_BITS, u32_max. lia.
    - unfold saturating_add, USIZE_BITS, u32_max in *. lia. }
  rewrite H by (unfold u32_max; lia). f_equal.
Qed.

Lemma transition_counts actions :
  Forall (fun a => action_output_transition_count a = Z.of_nat (length (action_transitions a))) actions.
Proof. apply Forall_forall. by intros [] _. Qed.

Lemma aux_counts actions : Forall action_wf actions ->
  Forall (fun a => action_aux_command_count a = Z.of_nat (length (action_aux a))) actions.
Proof.
  intros Hwf. eapply Forall_impl; [exact Hwf|]. intros [] Ha; try done. destruct Ha as [Ha _]. simpl. by rewrite iter_length.
Qed.

Lemma command_counts actions : Forall action_wf actions ->
  Forall (fun a => action_timing_island_command_count a = Z.of_nat (length (action_commands a))) actions.
Proof.
  intros Hwf. eapply Forall_impl; [exact Hwf|]. intros [] Ha; try done. destruct Ha as [Ha _]. unfold action_commands. simpl.
  by rewrite length_fmap, iter_length.
Qed.

(** The capacity check against a saturated count is the check against the count. *)
Lemma ensure_counted {A} e n (b : Batch.t A) : Batch.wf b -> Batch.capacity b < u32_max ->
  ensure_capacity e (Z.min n u32_max) b = if room b <? n then (b, Err e) else (b, Ok tt).
Proof.
  unfold Batch.wf, ensure_capacity, room, saturating_sub, u32_max. intros Hwf Hc.
  destruct (Z.ltb_spec (Z.max 0 (Batch.capacity b - Batch.len b)) (Z.min n 4294967295)),
    (Z.ltb_spec (Batch.capacity b - Batch.len b) n); done || lia.
Qed.

Lemma lower_batch_cases batch b : batches_wf b -> Forall action_wf (ActionBatch.iter batch) ->
  Batch.capacity (Batches.outputs b) < u32_max -> Batch.capacity (Batches.aux b) < u32_max ->
  let actions := ActionBatch.iter batch in
  let out := concat (action_transitions <$> actions) in
  let aux := concat (action_aux <$> actions) in
  let result := lower_action_batch_to_board_batches batch b in
  if room (Batches.outputs b) <? Z.of_nat (length out)
  then result = (b, Err LoweringError.OutputBatchFull)
  else if room (Batches.aux b) <? Z.of_nat (length aux)
  then result = (b, Err LoweringError.AuxBatchFull)
  else exists b', result = (b', Ok (foldl Status.merge Status.default (action_status <$> actions)))
    /\ grows out (Batches.outputs b) (Batches.outputs b') /\ grows aux (Batches.aux b) (Batches.aux b').
Proof.
  intros [Ho Ha] Hwf Hco Hca. cbv zeta. unfold lower_action_batch_to_board_batches.
  unfold sr_bind, on_outputs, on_aux, ensure_output_capacity, ensure_aux_capacity.
  rewrite (count_all_concat _ action_transitions) by apply transition_counts.
  rewrite (count_all_concat _ action_aux) by by apply aux_counts.
  rewrite ensure_counted by done.
  destruct (Z.ltb_spec (room (Batches.outputs b)) (Z.of_nat (length (concat (action_transitions <$> ActionBatch.iter batch)))));
    [by destruct b|].
  cbn [Batches.aux]. destruct b as [o a]. cbn [Batches.outputs Batches.aux] in *.
  cbn -[ensure_capacity lower_all]. rewrite ensure_counted by done.
  destruct (Z.ltb_spec (room a) (Z.of_nat (length (concat (action_aux <$> ActionBatch.iter batch))))); [done|].
  apply (lower_all_board (ActionBatch.iter batch) Status.default Hwf (Batches.mk o a)); done.
Qed.

(** The status of a batch: counters, the last cancellation, flags. *)
Lemma merge_status s actions :
  let s' := foldl Status.merge s (action_status <$> actions) in
  Status.scheduled_output_transitions s'
    = Status.scheduled_output_transitions s + Z.of_nat (length (concat (action_transitions <$> actions)))
  /\ Status.applied_aux_commands s'
    = Status.applied_aux_commands s + Z.of_nat (length (concat (action_aux <$> actions)))
  /\ Status.cancel_scheduler s'
    = match last (omap action_cancel actions) with
      | Some r => Some r | None => Status.cancel_scheduler s end.
Proof.
  revert s. induction actions as [|a actions IH]; intros s; [simpl; by rewrite !Z.add_0_r|].
  cbn [fmap list_fmap foldl concat]. destruct (IH (Status.merge s (action_status a))) as (H1 & H2 & H3).
  cbv zeta. rewrite H1, H2, H3, !length_app. unfold Status.merge, action_status. cbn -[action_transitions action_aux].
  split_and!; [lia..|].
  destruct (action_cancel a) as [r|]; [|done]. rewrite last_cons. by destruct (last _).
Qed.

(** *** Actions on the scheduler *)
Lemma new_batch_grows {A} (EMPTY : A) N xs b' : grows xs (Batch.new EMPTY N) b' ->
  Batch.iter b' = xs.
Proof. intros (_ & -> & _). done. Qed.

(** The scratch buffers of the executor hold whatever one action lowers to. *)
Lemma execute_action_lowered action a : action_wf action ->
  exists out, Batch.iter out = action_transitions action /\ Batch.wf out
    /\ execute_action_on_scheduler action a = Adapter.apply_lowered (action_cancel action) out a.
Proof.
  intros Hwf. unfold execute_action_on_scheduler, Executor.execute.
  destruct (board_appends action Hwf
    (Batches.mk (Batch.new OutputTransition.EMPTY ACTION_OUTPUT_SCRATCH_CAP)
       (Batch.new AuxCommand.EMPTY RUNTIME_AUX_COMMAND_CAP))) as (b' & E & Go & Ga).
  - by split.
  - by destruct action.
  - destruct action; try done. destruct Hwf as [Hc Hl]. cbn [action_aux Batches.aux].
    rewrite iter_length by done. change (room _) with 16. unfold Batch.wf, Batch.capacity in Hc.
    rewrite Hl in Hc. change (Z.of_nat RUNTIME_AUX_COMMAND_CAP) with 16 in Hc. lia.
  - exists (Batches.outputs b'). split_and!; [by eapply new_batch_grows|apply Go|].
    cbn [Executor.batches Executor.new]. rewrite E. unfold Executor.commit, Status.merge, action_status.
    cbn [Executor.status Executor.new Executor.output_transitions Executor.batches
      Status.cancel_scheduler Status.default]. by destruct (action_cancel action).
Qed.

(** What an action does to the transitions pending in the queue. *)
Definition pending_after (pending : list Transition.t) (action : Action.t) : list Transition.t :=
  (to_transition <$> action_transitions action)
  ++ match action_cancel action with Some _ => [] | None => pending end.

Lemma pending_after_perm l l' action : l ≡ₚ l' -> pending_after l action ≡ₚ pending_after l' action.
Proof. intros Hp. unfold pending_after. destruct (action_cancel action); [done|by rewrite Hp]. Qed.

Lemma foldl_pending_perm actions l l' : l ≡ₚ l' ->
  foldl pending_after l actions ≡ₚ foldl pending_after l' actions.
Proof.
  revert l l'. induction actions as [|a actions IH]; intros l l' Hp; [done|].
  cbn [foldl]. by apply IH, pending_after_perm.
Qed.

Lemma apply_lowered_cases cancel batch a :
  (exists a', Adapter.apply_lowered cancel batch a = Some (a', Ok tt)
     /\ pending (Adapter.queue a') ≡ₚ (to_transition <$> Batch.iter batch)
          ++ match cancel with Some _ => [] | None => pending (Adapter.queue a) end)
  \/ (exists e, Adapter.apply_lowered cancel batch a = Some (Adapter.reject a, Err e)).
Proof.
  unfold Adapter.apply_lowered. set (scratch := match cancel with Some reason => _ | None => a end).
  destruct (schedule_output_batch_cases batch scratch) as [(f & q & _ & -> & Hp)|[e ->]];
    [left|right; by eexists].
  eexists. split; [done|]. cbn [Adapter.queue]. rewrite Hp. f_equiv. unfold scratch.
  destruct cancel; [|done]. simpl. by rewrite occupied_empty.
Qed.

Lemma execute_action_cases action a : action_wf action ->
  (exists a', execute_action_on_scheduler action a = Some (a', Ok tt)
     /\ pending (Adapter.queue a') ≡ₚ pending_after (pending (Adapter.queue a)) action)
  \/ (exists e, execute_action_on_scheduler action a = Some (Adapter.reject a, Err e)).
Proof.
  intros Hwf. destruct (execute_action_lowered action a Hwf) as (out & Hi & _ & ->).
  destruct (apply_lowered_cases (action_cancel action) out a) as [(a' & -> & Hp)|[e ->]];
    [left|right; by eexists].
  eexists. split; [done|]. by rewrite Hp, Hi.
Qed.

(** Channel numbers of the plans are unsigned. *)
Definition action_channels_ok (action : Action.t) : Prop :=
  Forall (fun t => ochannel_ok (OutputTransition.output t)) (action_transitions action).

Lemma execute_action_inv action a a' r : action_wf action -> action_channels_ok action ->
  adapter_inv a -> execute_action_on_scheduler action a = Some (a', r) -> adapter_inv a'.
Proof.
  intros Hwf Hch Ha. destruct (execute_action_lowered action a Hwf) as (out & Hi & _ & ->).
  intros He. eapply adapter_inv_lowered; [|exact Ha|exact He]. unfold batch_ok. by rewrite Hi.
Qed.

Lemma execute_all_cases actions a : Forall action_wf actions ->
  exists a' r, ScheduledActionExecutor.execute_all actions a = Some (a', r)
    /\ (r = Ok tt -> pending (Adapter.queue a') ≡ₚ foldl pending_after (pending (Adapter.queue a)) actions)
    /\ (Forall action_channels_ok actions -> adapter_inv a -> adapter_inv a').
Proof.
  intros Hwf. revert a. induction Hwf as [|action actions Ha Hwf IH]; intros a; cbn [ScheduledActionExecutor.execute_all].
  { by exists a, (Ok tt). }
  pose proof (execute_action_inv action a) as Hinv.
  destruct (execute_action_cases action a Ha) as [(a1 & E & Hp)|[e E]]; rewrite E.
  - destruct (IH a1) as (a' & r & -> & Hok & Hi). exists a', r. split_and!; [done| |].
    + intros Hr. rewrite (Hok Hr). cbn [foldl]. by apply foldl_pending_perm.
    + intros Hch Hc. apply Forall_cons in Hch as [Hch1 Hch]. apply Hi; [done|]. by eapply Hinv.
  - exists (Adapter.reject a), (Err e). split_and!; [done|done|].
    intros Hch Hc. apply Forall_cons in Hch as [Hch1 Hch]. by eapply Hinv.
Qed.

(** ** Properties *)

(** a batch of runtime actions is executed on the scheduler all or nothing and never
    panics: on success the queue holds the transitions of the actions, in the order given,
    on top of what was pending before the last cancellation among them; on any failure the
    scheduler is exactly as before; and windows and pending transitions stay coherent. *)
Theorem action_batch_all_or_nothing batch a : Forall action_wf (ActionBatch.iter batch) ->
  exists a' r, ScheduledActionExecutor.execute_batch batch a = Some (a', r)
    /\ (r = Ok tt -> pending (Adapter.queue a')
          ≡ₚ foldl pending_after (pending (Adapter.queue a)) (ActionBatch.iter batch))
    /\ (r <> Ok tt -> a' = a)
    /\ (Forall action_channels_ok (ActionBatch.iter batch) -> adapter_inv a -> adapter_inv a').
Proof.
  intros Hwf. unfold ScheduledActionExecutor.execute_batch.
  destruct (execute_all_cases (ActionBatch.iter batch) a Hwf) as (a' & r & -> & Hok & Hi).
  destruct r as [[]|e].
  - exists a', (Ok tt). by split_and!.
  - exists a, (Err e). by split_and!.
Qed.

(** lowering a batch of actions to board batches is atomic: it appends exactly the
    transitions and the auxiliary commands of the actions, in order, and adds their counts
    and their last cancellation to the status, or it changes nothing and names the buffer
    that lacks room, the outputs before the auxiliaries. *)
Theorem lowering_batch_atomic batch e :
  let actions := ActionBatch.iter batch in
  let out := concat (action_transitions <$> actions) in
  let aux := concat (action_aux <$> actions) in
  batches_wf (Executor.batches e) -> Forall action_wf actions ->
  Batch.capacity (Executor.output_transitions e) < u32_max ->
  Batch.capacity (Executor.aux_commands e) < u32_max ->
  let '(e', r) := Executor.execute_batch batch e in
  if room (Executor.output_transitions e) <? Z.of_nat (length out)
  then e' = e /\ r = Err LoweringError.OutputBatchFull
  else if room (Executor.aux_commands e) <? Z.of_nat (length aux)
  then e' = e /\ r = Err LoweringError.AuxBatchFull
  else r = Ok tt
    /\ grows out (Executor.output_transitions e) (Executor.output_transitions e')
    /\ grows aux (Executor.aux_commands e) (Executor.aux_commands e')
    /\ Status.scheduled_output_transitions (Executor.status e')
       = Status.scheduled_output_transitions (Executor.status e) + Z.of_nat (length out)
    /\ Status.applied_aux_commands (Executor.status e')
       = Status.applied_aux_commands (Executor.status e) + Z.of_nat (length aux)
    /\ Status.cancel_scheduler (Executor.status e')
       = match last (omap action_cancel actions) with
         | Some reason => Some reason
         | None => Status.cancel_scheduler (Executor.status e)
         end.
Proof.
  cbv zeta. intros Hb Hwf Hco Hca. unfold Executor.execute_batch, Executor.output_transitions,
    Executor.aux_commands in *.
  pose proof (lower_batch_cases batch (Executor.batches e) Hb Hwf Hco Hca) as H. cbv zeta in H.
  set (ROut := room (Batches.outputs (Executor.batches e)) <? _) in *.
  set (RAux := room (Batches.aux (Executor.batches e)) <? _) in *.
  destruct ROut; [by rewrite H|]. destruct RAux; [by rewrite H|].
  destruct H as (b' & -> & Go & Ga). cbn [Executor.commit Executor.batches Executor.status].
  destruct (merge_status Status.default (ActionBatch.iter batch)) as (H1 & H2 & H3).
  set (st := foldl Status.merge Status.default _) in *. clearbody st.
  split_and!; [done|done|done|exact (f_equal _ H1)|exact (f_equal _ H2)|].
  unfold Status.merge. cbn [Status.cancel_scheduler]. rewrite H3. by destruct (last _).
Qed.

(** The exported form of a board transition. *)
Definition runtime_of (t : OutputTransition.t) : RuntimeTransition.t :=
  RuntimeTransition.mk (OutputTransition.at_ t)
    match OutputTransition.output t with
    | EcuOutput.Injector _ => RuntimeTransition.Injector
    | EcuOutput.Ignition _ => RuntimeTransition.Ignition
    end
    match OutputTransition.output t with EcuOutput.Injector c | EcuOutput.Ignition c => c end
    match OutputTransition.level t with
    | OutputLevel.Low => RuntimeTransition.Low
    | OutputLevel.High => RuntimeTransition.High
    end.

(** The windows of an action have a length. *)
Definition windows_nonempty (action : Action.t) : Prop :=
  match action with
  | Action.ArmScheduler i g => TimedInjectionPlan.start_at i <> TimedInjectionPlan.end_at i
      /\ TimedIgnitionPlan.start_at g <> TimedIgnitionPlan.end_at g
  | Action.ArmInjection i => TimedInjectionPlan.start_at i <> TimedInjectionPlan.end_at i
  | Action.ArmIgnition g => TimedIgnitionPlan.start_at g <> TimedIgnitionPlan.end_at g
  | _ => True
  end.

(** [m] adds a permutation of [xs] to a batch of [4] that holds [n] of them. *)
Definition exports (m : SR RuntimeTransitionBatch.t ExportError.t unit) (xs : list RuntimeTransition.t) :
    Prop :=
  forall (b : RuntimeTransitionBatch.t) (pre : list RuntimeTransition.t),
    RuntimeTransitionBatch.len b = Z.of_nat (length pre) ->
    RuntimeTransitionBatch.transitions b = (Some <$> pre) ++ replicate (4 - length pre) None ->
    (length pre + length xs <= 4)%nat ->
    exists b' ys, m b = (b', Ok tt) /\ ys ≡ₚ xs
      /\ RuntimeTransitionBatch.len b' = Z.of_nat (length (pre ++ ys))
      /\ RuntimeTransitionBatch.transitions b' = (Some <$> (pre ++ ys)) ++ replicate (4 - length (pre ++ ys)) None.

Lemma exports_push t : exports (RuntimeTransitionBatch.push t) [t].
Proof.
  intros b pre Hl Hb Hn. unfold RuntimeTransitionBatch.push. rewrite Hl, Hb.
  simpl in Hn. assert (length ((Some <$> pre) ++ replicate (4 - length pre) None) = 4%nat) as Hlen
    by (rewrite length_app, length_fmap, length_replicate; lia).
  rewrite Hlen. destruct (Z.eqb_spec (Z.of_nat (length pre)) (Z.of_nat 4)); [lia|].
  eexists _, [t]. split; [done|]. split; [done|]. cbn [RuntimeTransitionBatch.len RuntimeTransitionBatch.transitions].
  rewrite length_app. split; [simpl; lia|]. rewrite Nat2Z.id.
  replace (4 - length pre)%nat with (S (4 - (length pre + length [t]))) by (simpl; lia).
  rewrite insert_app_r_alt by (by rewrite length_fmap). rewrite length_fmap, Nat.sub_diag.
  cbn [replicate insert list_insert]. by rewrite fmap_app, <- app_assoc.
Qed.

Lemma exports_ret : exports (sr_ret tt) [].
Proof. intros b pre Hl Hb _. exists b, []. by rewrite app_nil_r. Qed.

Lemma exports_bind m k xs ys : exports m xs -> exports (k tt) ys -> exports (sr_bind m k) (xs ++ ys).
Proof.
  intros Hm Hk b pre Hl Hb Hn. rewrite length_app in Hn.
  destruct (Hm b pre Hl Hb ltac:(lia)) as (b1 & zs & E1 & P1 & L1 & T1).
  destruct (Hk b1 (pre ++ zs) L1 T1) as (b2 & ws & E2 & P2 & L2 & T2).
  { rewrite length_app. apply Permutation_length in P1. lia. }
  exists b2, (zs ++ ws). unfold sr_bind. rewrite E1. rewrite <- app_assoc in *.
  split_and!; [done|by rewrite P1, P2|done..].
Qed.

Lemma exports_perm m xs ys : xs ≡ₚ ys -> exports m xs -> exports m ys.
Proof.
  intros Hp Hm b pre Hl Hb Hn. apply Permutation_length in Hp as Hlen.
  destruct (Hm b pre Hl Hb ltac:(lia)) as (b' & zs & E & P & H). exists b', zs.
  split; [exact E|]. split; [by transitivity xs|exact H].
Qed.

Lemma exports_two kind t u :
  exports (push_exported kind [t; u])
    [RuntimeTransition.mk (Transition.at_us t) kind (Transition.channel t) (runtime_level (Transition.level t));
     RuntimeTransition.mk (Transition.at_us u) kind (Transition.channel u) (runtime_level (Transition.level u))].
Proof.
  apply (exports_bind _ _ [_] [_]); [apply exports_push|].
  apply (exports_bind _ _ [_] []); [apply exports_push|apply exports_ret].
Qed.

Lemma injection_exports p : TimedInjectionPlan.start_at p <> TimedInjectionPlan.end_at p ->
  exports (push_injection_export p) (runtime_of <$> injection_window p).
Proof.
  destruct p as [[[g c] w] x y]. cbn [TimedInjectionPlan.start_at TimedInjectionPlan.end_at]. intros Hne.
  set (h := Transition.mk x TransitionKind.Injector c Level.High).
  set (l := Transition.mk y TransitionKind.Injector c Level.Low).
  pose proof (exports_two RuntimeTransition.Injector h l) as H1.
  pose proof (exports_perm _ _ _ (Permutation_swap _ _ _) (exports_two RuntimeTransition.Injector l h)) as H2.
  intros b pre Hl Hb Hn. unfold push_injection_export, export_injection.
  cbn [TimedInjectionPlan.start_at TimedInjectionPlan.end_at].
  rewrite (proj2 (Z.eqb_neq x y) Hne). cbn [Nat.ltb Nat.leb Transition.at_us].
  destruct (is_before x y); [exact (H1 b pre Hl Hb Hn)|exact (H2 b pre Hl Hb Hn)].
Qed.

Lemma ignition_exports p : TimedIgnitionPlan.start_at p <> TimedIgnitionPlan.end_at p ->
  exports (push_ignition_export p) (runtime_of <$> ignition_window p).
Proof.
  destruct p as [[[g c] w v] x y]. cbn [TimedIgnitionPlan.start_at TimedIgnitionPlan.end_at]. intros Hne.
  set (h := Transition.mk x TransitionKind.Ignition c Level.High).
  set (l := Transition.mk y TransitionKind.Ignition c Level.Low).
  pose proof (exports_two RuntimeTransition.Ignition h l) as H1.
  pose proof (exports_perm _ _ _ (Permutation_swap _ _ _) (exports_two RuntimeTransition.Ignition l h)) as H2.
  intros b pre Hl Hb Hn. unfold push_ignition_export, export_ignition.
  cbn [TimedIgnitionPlan.start_at TimedIgnitionPlan.end_at].
  rewrite (proj2 (Z.eqb_neq x y) Hne). cbn [Nat.ltb Nat.leb Transition.at_us].
  destruct (is_before x y); [exact (H1 b pre Hl Hb Hn)|exact (H2 b pre Hl Hb Hn)].
Qed.

Lemma list_fmap_omap_ok {A} (xs : list A) : omap id (Some <$> xs) = xs.
Proof. induction xs as [|x xs IH]; [done|]. cbn. by rewrite IH. Qed.

Lemma omap_replicate_None {A} n : omap id (replicate n (@None A)) = [].
Proof. by induction n. Qed.

Lemma export_action action : windows_nonempty action ->
  exists b, export_scheduled_transitions 4 action = Ok b
    /\ RuntimeTransitionBatch.iter b ≡ₚ runtime_of <$> action_transitions action.
Proof.
  assert (forall m xs, exports m xs -> (length xs <= 4)%nat ->
    exists b', m (RuntimeTransitionBatch.new 4) = (b', Ok tt) /\ RuntimeTransitionBatch.iter b' ≡ₚ xs) as H.
  { intros m xs Hm Hl.
    destruct (Hm (RuntimeTransitionBatch.new 4) [] eq_refl eq_refl Hl) as (b' & ys & E & P & _ & T).
    exists b'. split; [exact E|]. unfold RuntimeTransitionBatch.iter. rewrite T. cbn [app].
    rewrite omap_app.
    rewrite (list_fmap_omap_ok ys). rewrite omap_replicate_None, app_nil_r. exact P. }
  intros Hw. unfold export_scheduled_transitions.
  destruct action as [i g|i|g|r| | |c|];
    try (eexists; split; [reflexivity|done]); simpl in Hw.
  - destruct Hw as [Hi Hg].
    destruct (H _ _ (exports_bind _ (fun _ => push_ignition_export g) _ _ (injection_exports i Hi) (ignition_exports g Hg)))
      as (b & E & P); [cbn; lia|]. rewrite E. exists b. split; [done|].
    by rewrite P, <- fmap_app.
  - destruct (H _ _ (injection_exports i Hw)) as (b & E & P); [cbn; lia|]. rewrite E. by exists b.
  - destruct (H _ _ (ignition_exports g Hw)) as (b & E & P); [cbn; lia|]. rewrite E. by exists b.
Qed.

(** What a command to the timing island carries. *)
Definition arm_command (c : TimingIslandCommand.t) : option OutputTransition.t :=
  match c with TimingIslandCommand.ArmOutput t => Some t | _ => None end.
Definition aux_command (c : TimingIslandCommand.t) : option AuxCommand.t :=
  match c with TimingIslandCommand.ApplyAux a => Some a | _ => None end.
Definition cancel_command (c : TimingIslandCommand.t) : option CancelReason.t :=
  match c with TimingIslandCommand.CancelAll r => Some r | _ => None end.

Lemma omap_fmap_some {A B} (f : A -> B) (g : B -> option A) (xs : list A) : (forall x, g (f x) = Some x) ->
  omap g (f <$> xs) = xs.
Proof. intros H. induction xs as [|x xs IH]; [done|]. cbn. by rewrite H, IH. Qed.

Lemma omap_fmap_none {A B C} (f : A -> B) (g : B -> option C) (xs : list A) : (forall x, g (f x) = None) ->
  omap g (f <$> xs) = [].
Proof. intros H. induction xs as [|x xs IH]; [done|]. cbn. by rewrite H, IH. Qed.

Lemma commands_project actions :
  let commands := concat (action_commands <$> actions) in
  omap arm_command commands = concat (action_transitions <$> actions)
  /\ omap aux_command commands = concat (action_aux <$> actions)
  /\ omap cancel_command commands = omap action_cancel actions.
Proof.
  cbv zeta. induction actions as [|a actions (H1 & H2 & H3)]; [done|]. cbn [fmap list_fmap concat].
  rewrite !omap_app, H1, H2, H3. unfold action_commands. rewrite !omap_app.
  rewrite !(omap_fmap_some TimingIslandCommand.ArmOutput arm_command),
    !(omap_fmap_some TimingIslandCommand.ApplyAux aux_command),
    !(omap_fmap_some TimingIslandCommand.CancelAll cancel_command) by done.
  rewrite !(omap_fmap_none TimingIslandCommand.ArmOutput), !(omap_fmap_none TimingIslandCommand.ApplyAux),
    !(omap_fmap_none TimingIslandCommand.CancelAll) by done.
  rewrite ?app_nil_r. cbn. by destruct (action_cancel a).
Qed.

(** the three routes of an action agree.  Given room, lowering a batch of actions to
    board batches and lowering it to a timing island report the same status; the arm
    commands of the island carry exactly the board's transitions and its auxiliary commands
    the board's, in order, and its cancellations are those of the actions; and what each
    action exports to observers is, up to the order within a window, the same transitions. *)
Theorem lowering_routes_agree batch b c :
  let actions := ActionBatch.iter batch in
  let out := concat (action_transitions <$> actions) in
  let aux := concat (action_aux <$> actions) in
  let commands := concat (action_commands <$> actions) in
  batches_wf b -> Batch.wf c -> Forall action_wf actions ->
  Batch.capacity (Batches.outputs b) < u32_max -> Batch.capacity (Batches.aux b) < u32_max ->
  Batch.capacity c < u32_max ->
  Z.of_nat (length out) <= room (Batches.outputs b) -> Z.of_nat (length aux) <= room (Batches.aux b) ->
  Z.of_nat (length commands) <= room c ->
  exists b' c' status,
    lower_action_batch_to_board_batches batch b = (b', Ok status)
    /\ lower_action_batch_to_timing_island batch c = (c', Ok status)
    /\ grows out (Batches.outputs b) (Batches.outputs b')
    /\ grows aux (Batches.aux b) (Batches.aux b')
    /\ grows commands c c'
    /\ omap arm_command commands = out /\ omap aux_command commands = aux
    /\ omap cancel_command commands = omap action_cancel actions
    /\ Forall (fun action => windows_nonempty action ->
         exists x, export_scheduled_transitions 4 action = Ok x
           /\ RuntimeTransitionBatch.iter x ≡ₚ runtime_of <$> action_transitions action) actions.
Proof.
  cbv zeta. intros Hb Hc Hwf Hco Hca Hcc Ho Ha Hr.
  pose proof (lower_batch_cases batch b Hb Hwf Hco Hca) as H. cbv zeta in H.
  rewrite (proj2 (Z.ltb_ge _ _) Ho), (proj2 (Z.ltb_ge _ _) Ha) in H.
  destruct H as (b' & E & Go & Ga).
  destruct (lower_all_island (ActionBatch.iter batch) Status.default Hwf c Hc Hr) as (c' & Ec & Gc).
  exists b', c', (foldl Status.merge Status.default (action_status <$> ActionBatch.iter batch)).
  destruct (commands_project (ActionBatch.iter batch)) as (P1 & P2 & P3).
  split_and!; [exact E| |done..|].
  - unfold lower_action_batch_to_timing_island, sr_bind, ensure_timing_island_capacity.
    rewrite (count_all_concat _ action_commands) by by apply command_counts.
    rewrite ensure_counted by done. by rewrite (proj2 (Z.ltb_ge _ _) Hr).
  - apply Forall_forall. intros action _ Hw. by apply export_action.
Qed.

(** ** Witnesses *)
Definition sample_aux : Batch.t AuxCommand.t :=
  fst (Batch.push (AuxCommand.mk (AuxOutput.Indicator 3) (AuxValue.Duty 40))
    (Batch.new AuxCommand.EMPTY RUNTIME_AUX_COMMAND_CAP)).
Definition sample_injection : TimedInjectionPlan.t :=
  TimedInjectionPlan.mk (InjectionPlan.mk (ExclusiveChannel.mk OutputGroup.Injector 1) 900) 500 1400.
Definition sample_spark_plan : TimedIgnitionPlan.t :=
  TimedIgnitionPlan.mk (IgnitionPlan.mk (ExclusiveChannel.mk OutputGroup.Ignition 2) 3000 150) 600 3600.
Definition sample_batch_of_actions : ActionBatch.t :=
  ActionBatch.mk [Some (Action.ArmInjection sample_injection); Some (Action.CancelScheduler CancelReason.SyncLoss);
    Some (Action.ApplyAux sample_aux); Some (Action.ArmIgnition sample_spark_plan); None] 4.

Lemma sample_actions_wf : Forall action_wf (ActionBatch.iter sample_batch_of_actions).
Proof. repeat constructor; vm_compute; done. Qed.

Example action_batch_all_or_nothing_witness :
  Forall action_wf (ActionBatch.iter sample_batch_of_actions)
  /\ exists a', ScheduledActionExecutor.execute_batch sample_batch_of_actions (Adapter.new 4) = Some (a', Ok tt)
    /\ pending (Adapter.queue a')
       ≡ₚ foldl pending_after (pending (Adapter.queue (Adapter.new 4))) (ActionBatch.iter sample_batch_of_actions)
    /\ length (pending (Adapter.queue a')) = 2%nat.
Proof.
  split; [exact sample_actions_wf|].
  destruct (action_batch_all_or_nothing sample_batch_of_actions (Adapter.new 4) sample_actions_wf)
    as (a' & r & E & Hok & _).
  assert (r = Ok tt) as -> by (vm_compute in E; congruence).
  exists a'. split; [exact E|]. split; [exact (Hok eq_refl)|].
  vm_compute in E. injection E as <-. reflexivity.
Defined.

Definition sample_batches : Batches.t :=
  Batches.mk (Batch.new OutputTransition.EMPTY 8) (Batch.new AuxCommand.EMPTY 8).
Lemma sample_batches_wf : batches_wf sample_batches.
Proof. by split. Qed.

Example lowering_batch_atomic_witness :
  let '(e', r) := Executor.execute_batch sample_batch_of_actions (Executor.new 8 8) in
  batches_wf sample_batches /\ r = Ok tt
  /\ Status.scheduled_output_transitions (Executor.status e') = 4
  /\ Status.cancel_scheduler (Executor.status e') = Some CancelReason.SyncLoss.
Proof.
  pose proof (lowering_batch_atomic sample_batch_of_actions (Executor.new 8 8) sample_batches_wf
    sample_actions_wf eq_refl eq_refl) as H.
  destruct (Executor.execute_batch sample_batch_of_actions (Executor.new 8 8)) as [e' r].
  destruct H as (Hr & _ & _ & Hs & _ & Hc).
  exact (conj sample_batches_wf (conj Hr (conj Hs Hc))).
Defined.

Example lowering_routes_agree_witness :
  exists b' c' status,
    lower_action_batch_to_board_batches sample_batch_of_actions sample_batches = (b', Ok status)
    /\ lower_action_batch_to_timing_island sample_batch_of_actions
         (Batch.new TimingIslandCommand.EMPTY 8) = (c', Ok status)
    /\ Batch.len c' = 6.
Proof.
  destruct (lowering_routes_agree sample_batch_of_actions sample_batches
    (Batch.new TimingIslandCommand.EMPTY 8) sample_batches_wf (conj (Z.le_refl 0) (Pos2Z.is_nonneg 8))
    sample_actions_wf eq_refl eq_refl eq_refl ltac:(vm_compute; discriminate)
    ltac:(vm_compute; discriminate) ltac:(vm_compute; discriminate))
    as (b' & c' & status & E1 & E2 & _ & _ & (_ & _ & _ & Hl) & _).
  exists b', c', status. exact (conj E1 (conj E2 Hl)).
Defined.
