(* ===== verification/Capture.v ===== *)
(** * Capture ring (crates/io/src/capture.rs)

    The single-producer ring of edge timestamps between an interrupt and the main loop, its
    specification as a bounded queue, and the refinement between them. *)
From S2P Require Import Prelude.

Module CaptureBuffer.
(** [CaptureBuffer<N>]: [N] is the length of [buf]. *)
Record t := mk { buf : list Z; head : Z; tail : Z }.
#[global] Instance eta : Eta t := fun b => mk (buf b) (head b) (tail b).

Definition size (b : t) : Z := Z.of_nat (length (buf b)).
Definition new (N : nat) : t := mk (replicate N 0) 0 0.
Definition capacity (b : t) : Z := saturating_sub (size b) 1.

Definition is_full (b : t) : bool :=
  if size b =? 0 then true
  else
    let next := (head b + 1) mod size b in
    next =? tail b.

(** [None] is the panic of an index out of the array. *)
Definition push (ts : Z) (b : t) : option (t * bool) :=
  if negb (is_full b) then
    if head b <? size b
    then Some (b <| buf ::= <[Z.to_nat (head b) := ts]> |> <| head := (head b + 1) mod size b |>, true)
    else None
  else Some (b, false).

Definition try_pop (b : t) : option (t * option Z) :=
  if tail b =? head b then Some (b, None)
  else
    match buf b !! Z.to_nat (tail b) with
    | None => None
    | Some v => Some (b <| tail := (tail b + 1) mod size b |>, Some v)
    end.
End CaptureBuffer.

(** ** The specification: a queue of at most [cap] timestamps *)
Module Fifo.
Definition push (cap : Z) (ts : Z) (q : list Z) : list Z * bool :=
  if Z.of_nat (length q) <? cap then (q ++ [ts], true) else (q, false).
Definition try_pop (q : list Z) : list Z * option Z :=
  match q with [] => ([], None) | v :: q => (q, Some v) end.
End Fifo.

(** The operations of producer and consumer, in any interleaving, and what they return. *)
Module CaptureOp.
Inductive t := Push (ts : Z) | TryPop | IsFull.
Inductive result := Pushed (stored : bool) | Popped (v : option Z) | Full (b : bool).
End CaptureOp.

Definition capture_step (op : CaptureOp.t) (b : CaptureBuffer.t) :
    option (CaptureBuffer.t * CaptureOp.result) :=
  match op with
  | CaptureOp.Push ts => '(b, r) ← CaptureBuffer.push ts b; Some (b, CaptureOp.Pushed r)
  | CaptureOp.TryPop => '(b, v) ← CaptureBuffer.try_pop b; Some (b, CaptureOp.Popped v)
  | CaptureOp.IsFull => Some (b, CaptureOp.Full (CaptureBuffer.is_full b))
  end.

Definition fifo_step (cap : Z) (op : CaptureOp.t) (q : list Z) : list Z * CaptureOp.result :=
  match op with
  | CaptureOp.Push ts => let '(q, r) := Fifo.push cap ts q in (q, CaptureOp.Pushed r)
  | CaptureOp.TryPop => let '(q, v) := Fifo.try_pop q in (q, CaptureOp.Popped v)
  | CaptureOp.IsFull => (q, CaptureOp.Full (cap <=? Z.of_nat (length q)))
  end.

Fixpoint capture_run (ops : list CaptureOp.t) (b : CaptureBuffer.t) :
    option (CaptureBuffer.t * list CaptureOp.result) :=
  match ops with
  | [] => Some (b, [])
  | op :: ops =>
    '(b, r) ← capture_step op b;
    '(b, rs) ← capture_run ops b;
    Some (b, r :: rs)
  end.

Fixpoint fifo_run (cap : Z) (ops : list CaptureOp.t) (q : list Z) : list Z * list CaptureOp.result :=
  match ops with
  | [] => (q, [])
  | op :: ops =>
    let '(q, r) := fifo_step cap op q in
    let '(q, rs) := fifo_run cap ops q in
    (q, r :: rs)
  end.

(** ** The refinement relation *)
Import CaptureBuffer.

(** The ring holds [q] from [tail] on, around the end of the array. *)
Definition holds (q : list Z) (b : CaptureBuffer.t) : Prop :=
  0 < size b /\ 0 <= tail b < size b
  /\ head b = (tail b + Z.of_nat (length q)) mod size b
  /\ Z.of_nat (length q) < size b
  /\ forall i v, q !! i = Some v -> buf b !! Z.to_nat ((tail b + Z.of_nat i) mod size b) = Some v.

(** An array of no places holds nothing. *)
Definition refines (q : list Z) (b : CaptureBuffer.t) : Prop :=
  holds q b \/ (q = [] /\ size b = 0 /\ head b = 0 /\ tail b = 0).

(** Two places of the ring at a distance less than its size are different. *)
Lemma ring_place_neq n t i j : 0 < n -> 0 <= i < n -> 0 <= j < n -> i <> j ->
  (t + i) mod n <> (t + j) mod n.
Proof.
  intros Hn Hi Hj Hne Heq. apply Hne.
  assert ((i - j) mod n = 0) as H.
  { replace (i - j) with ((t + i) - (t + j)) by lia. rewrite Zminus_mod, Heq, Z.sub_diag. apply Z.mod_0_l. lia. }
  apply Z.mod_divide in H; [|lia]. destruct H as [k Hk].
  assert (k = 0) as -> by (destruct (Z_lt_le_dec k 0); [nia|]; destruct (Z_lt_le_dec 0 k); [nia|lia]). lia.
Qed.

Lemma holds_new N : refines [] (new N).
Proof.
  unfold refines, holds, size, new. cbn [buf head tail length]. rewrite length_replicate.
  destruct N as [|N]; [by right|]. left. split_and!; [lia|lia|lia|..|by intros ? ? ?]; [|lia].
  by rewrite Z.mod_small by lia.
Qed.

Lemma holds_full q b : holds q b ->
  is_full b = (Z.of_nat (length q) =? size b - 1).
Proof.
  intros (Hn & Ht & Hh & Hl & _). unfold is_full.
  destruct (Z.eqb_spec (size b) 0); [lia|]. rewrite Hh.
  rewrite Zplus_mod_idemp_l. replace (tail b + Z.of_nat (length q) + 1) with (tail b + (Z.of_nat (length q) + 1)) by lia.
  destruct (Z.eqb_spec (Z.of_nat (length q)) (size b - 1)) as [E|E].
  - replace (tail b + (Z.of_nat (length q) + 1)) with (tail b + 1 * size b) by lia.
    rewrite Z.mod_add, Z.mod_small by lia. apply Z.eqb_refl.
  - apply Z.eqb_neq. rewrite <- (Z.mod_small (tail b) (size b)) at 2 by lia.
    replace (tail b mod size b) with ((tail b + 0) mod size b) by (by rewrite Z.add_0_r).
    apply ring_place_neq; lia.
Qed.

Lemma holds_push ts q b : holds q b -> Z.of_nat (length q) < size b - 1 ->
  exists b', push ts b = Some (b', true) /\ holds (q ++ [ts]) b' /\ size b' = size b.
Proof.
  intros Hq Hl. pose proof (holds_full q b Hq) as Hf. destruct Hq as (Hn & Ht & Hh & Hlt & Hi).
  unfold push. rewrite Hf. destruct (Z.eqb_spec (Z.of_nat (length q)) (size b - 1)); [lia|]. cbn [negb].
  pose proof (Z.mod_pos_bound (tail b + Z.of_nat (length q)) (size b) Hn) as Hb. rewrite <- Hh in Hb.
  destruct (Z.ltb_spec (head b) (size b)); [|lia]. eexists. split; [reflexivity|].
  unfold holds, size. cbv [modify_field eta_expand eta]. cbn [buf head tail]. rewrite length_insert, length_app. fold (size b). cbn [length].
  split; [|done]. split_and!; [lia|lia|lia| |lia|].
  - rewrite Hh, Zplus_mod_idemp_l. f_equal. lia.
  - intros i v Hv. apply lookup_app_Some in Hv as [Hv|[Hge Hv]].
    + rewrite list_lookup_insert_ne; [by apply Hi|]. apply lookup_lt_Some in Hv.
      pose proof (Z.mod_pos_bound (tail b + Z.of_nat i) (size b) Hn).
      intros E. apply Z2Nat.inj in E; [|lia..]. rewrite Hh in E.
      revert E. apply ring_place_neq; lia.
    + assert (i = length q) as -> by (apply lookup_lt_Some in Hv; cbn in Hv; lia).
      rewrite Nat.sub_diag in Hv. injection Hv as ->. rewrite <- Hh.
      apply list_lookup_insert_eq. unfold size in *. lia.
Qed.

Lemma holds_pop v q b : holds (v :: q) b ->
  exists b', try_pop b = Some (b', Some v) /\ holds q b' /\ size b' = size b.
Proof.
  intros (Hn & Ht & Hh & Hlt & Hi). cbn [length] in *. unfold try_pop.
  destruct (Z.eqb_spec (tail b) (head b)) as [E|E].
  - exfalso. rewrite Hh in E. rewrite <- (Z.mod_small (tail b) (size b)) in E at 1 by lia.
    replace (tail b mod size b) with ((tail b + 0) mod size b) in E by (by rewrite Z.add_0_r).
    revert E. apply ring_place_neq; lia.
  - pose proof (Hi 0%nat v eq_refl) as H0. rewrite Z.add_0_r, Z.mod_small in H0 by lia. rewrite H0.
    eexists. split; [reflexivity|]. unfold holds, size. cbv [modify_field eta_expand eta]. cbn [buf head tail]. fold (size b).
    pose proof (Z.mod_pos_bound (tail b + 1) (size b) Hn).
    split; [|done]. split_and!; [lia|lia|lia| |lia|].
    + rewrite Hh, Zplus_mod_idemp_l. f_equal. lia.
    + intros i w Hw. rewrite Zplus_mod_idemp_l.
      replace (tail b + 1 + Z.of_nat i) with (tail b + Z.of_nat (S i)) by lia. by apply Hi.
Qed.

(** One step of the ring is one step of the queue. *)
Lemma capture_step_refines op q b : refines q b ->
  let '(q', r) := fifo_step (capacity b) op q in
  exists b', capture_step op b = Some (b', r) /\ refines q' b' /\ size b' = size b.
Proof.
  unfold capacity, saturating_sub. intros [Hq|(-> & Hn & Hh & Ht)].
  - pose proof (holds_full q b Hq) as Hf. pose proof Hq as (Hn & _ & _ & Hlt & _).
    destruct op as [ts| |]; cbn [fifo_step capture_step].
    + unfold Fifo.push. destruct (Z.ltb_spec (Z.of_nat (length q)) (Z.max 0 (size b - 1))).
      * destruct (holds_push ts q b Hq ltac:(lia)) as (b' & -> & Hq' & Hs). exists b'.
        split; [done|]. split; [by left|done].
      * unfold push. rewrite Hf. destruct (Z.eqb_spec (Z.of_nat (length q)) (size b - 1)); [|lia].
        exists b. split; [done|]. split; [by left|done].
    + destruct q as [|v q]; cbn [Fifo.try_pop].
      * exists b. pose proof Hq as (_ & Htl & Hh & _). cbn [length] in Hh.
        rewrite Z.add_0_r, Z.mod_small in Hh by lia. unfold try_pop. rewrite Hh, Z.eqb_refl.
        split; [done|]. split; [by left|done].
      * destruct (holds_pop v q b Hq) as (b' & -> & Hq' & Hs). exists b'. split; [done|]. split; [by left|done].
    + exists b. rewrite Hf. split; [|split; [by left|done]]. do 2 f_equal.
      destruct (Z.eqb_spec (Z.of_nat (length q)) (size b - 1)), (Z.leb_spec (Z.max 0 (size b - 1)) (Z.of_nat (length q)));
        done || lia.
  - assert (is_full b = true) as Hf by (unfold is_full; by rewrite Hn).
    rewrite Hn. destruct op as [ts| |]; cbn [fifo_step capture_step Fifo.push Fifo.try_pop length].
    + exists b. unfold push. rewrite Hf. split; [done|]. split; [by right|done].
    + exists b. unfold try_pop. rewrite Hh, Ht. split; [done|]. split; [by right|done].
    + exists b. rewrite Hf. split; [done|]. split; [by right|done].
Qed.

(** ** Properties *)

(** a capture ring refines a bounded queue: whatever sequence of pushes, pops and tests
    it is given, it never panics and returns what a queue of one place fewer than the array
    returns, so timestamps come out in the order of their edges, none is lost or repeated
    once stored, and a push is dropped exactly when the queue is full. *)
Theorem capture_refines_fifo N ops :
  let '(q, rs) := fifo_run (saturating_sub (Z.of_nat N) 1) ops [] in
  exists b, capture_run ops (new N) = Some (b, rs) /\ refines q b.
Proof.
  assert (forall ops q b, refines q b -> size b = Z.of_nat N ->
    let '(q', rs) := fifo_run (saturating_sub (Z.of_nat N) 1) ops q in
    exists b', capture_run ops b = Some (b', rs) /\ refines q' b') as H.
  { clear ops. induction ops as [|op ops IH]; intros q b Hr Hs; cbn [fifo_run capture_run]; [by exists b|].
    pose proof (capture_step_refines op q b Hr) as Hstep. unfold capacity in Hstep. rewrite Hs in Hstep.
    destruct (fifo_step _ op q) as [q1 r]. destruct Hstep as (b1 & -> & Hr1 & Hs1).
    specialize (IH q1 b1 Hr1 Hs1). destruct (fifo_run _ ops q1) as [q2 rs].
    destruct IH as (b2 & E & Hr2). exists b2. cbn. by rewrite E. }
  apply (H ops [] (new N)); [apply holds_new|]. unfold size, new. cbn. by rewrite length_replicate.
Qed.
