(* ===== verification/Bytes.v ===== *)
(** * Bytes and checksums

    Byte buffers as lists of [Z], little-endian words, writes into a range of a buffer, and
    the CRC-16/CCITT that the persisted slots (boards/common/src/kv/ab.rs) and the serial
    frames (crates/ts/src/proto.rs) share, with what it detects. *)
From S2P Require Import Prelude.

(** ** Buffers *)

Definition byte (b : Z) : Prop := 0 <= b < 256.
Abbreviation bytes := (Forall byte).

(** [bytes[i]] of a buffer whose length has been checked. *)
Definition get_byte (i : nat) (buf : list Z) : Z := nth i buf 0.
(** [&bytes[a..b]] *)
Definition slice (a b : nat) (buf : list Z) : list Z := take (b - a) (drop a buf).
(** [out[off..off + src.len()].copy_from_slice(src)] within bounds. *)
Definition copy_at (off : nat) (src out : list Z) : list Z :=
  take off out ++ src ++ drop (off + length src) out.

(** The [k]-th byte of a word, from the least significant: [to_le_bytes]. *)
Definition byte_of (v : Z) (k : Z) : Z := v / 2 ^ (8 * k) mod 256.
Definition le16 (v : Z) : list Z := [byte_of v 0; byte_of v 1].
Definition le32 (v : Z) : list Z := [byte_of v 0; byte_of v 1; byte_of v 2; byte_of v 3].
(** [from_le_bytes] at an offset. *)
Definition rd_u16 (buf : list Z) (off : nat) : Z := get_byte off buf + 2 ^ 8 * get_byte (off + 1) buf.
Definition rd_u32 (buf : list Z) (off : nat) : Z :=
  get_byte off buf + 2 ^ 8 * get_byte (off + 1) buf + 2 ^ 16 * get_byte (off + 2) buf
  + 2 ^ 24 * get_byte (off + 3) buf.

Lemma bytes_pair a b : byte a -> byte b -> bytes [a; b].
Proof. intros Ha Hb. by repeat (apply Forall_cons_2; [done|]). Qed.

Lemma byte_of_range v k : byte (byte_of v k).
Proof. apply Z.mod_pos_bound. lia. Qed.

Lemma le16_bytes v : bytes (le16 v).
Proof. repeat constructor; apply byte_of_range. Qed.

Lemma le32_bytes v : bytes (le32 v).
Proof. repeat constructor; apply byte_of_range. Qed.

Lemma le16_value v : u16 v -> byte_of v 0 + 2 ^ 8 * byte_of v 1 = v.
Proof.
  unfold fits, byte_of. change (2 ^ (8 * 0)) with 1. change (2 ^ (8 * 1)) with 256.
  change (2 ^ 8) with 256. change (2 ^ 16) with 65536. intros Hv. Z.to_euclidean_division_equations. lia.
Qed.

Lemma le32_value v : u32 v ->
  byte_of v 0 + 2 ^ 8 * byte_of v 1 + 2 ^ 16 * byte_of v 2 + 2 ^ 24 * byte_of v 3 = v.
Proof.
  unfold fits, byte_of. change (2 ^ (8 * 0)) with 1. change (2 ^ (8 * 1)) with 256.
  change (2 ^ (8 * 2)) with 65536. change (2 ^ (8 * 3)) with 16777216. change (2 ^ 8) with 256.
  change (2 ^ 16) with 65536. change (2 ^ 24) with 16777216. change (2 ^ 32) with 4294967296.
  intros Hv. Z.to_euclidean_division_equations. lia.
Qed.

(** Reading past a prefix, and within it. *)
Lemma get_byte_app_r off i l r : length l = off -> get_byte (off + i) (l ++ r) = get_byte i r.
Proof. intros <-. unfold get_byte. rewrite app_nth2 by lia. f_equal. lia. Qed.

Lemma get_byte_app_l i l r : (i < length l)%nat -> get_byte i (l ++ r) = get_byte i l.
Proof. intros Hi. unfold get_byte. by rewrite app_nth1. Qed.

Lemma rd_u16_app off l v r : length l = off -> u16 v -> rd_u16 (l ++ le16 v ++ r) off = v.
Proof.
  intros Hl Hv. unfold rd_u16. rewrite <- (Nat.add_0_r off) at 1.
  rewrite !get_byte_app_r by done. by apply le16_value.
Qed.

Lemma rd_u32_app off l v r : length l = off -> u32 v -> rd_u32 (l ++ le32 v ++ r) off = v.
Proof.
  intros Hl Hv. unfold rd_u32. rewrite <- (Nat.add_0_r off) at 1.
  rewrite !get_byte_app_r by done. by apply le32_value.
Qed.

Lemma slice_app a b l m r : length l = a -> b = (a + length m)%nat -> slice a b (l ++ m ++ r) = m.
Proof.
  intros <- ->. unfold slice. rewrite drop_app_length.
  replace (length l + length m - length l)%nat with (length m) by lia. apply take_app_length.
Qed.

Lemma copy_at_length off src out : (off + length src <= length out)%nat ->
  length (copy_at off src out) = length out.
Proof. intros H. unfold copy_at. rewrite !length_app, length_take, length_drop. lia. Qed.

(** A write right after a written prefix extends the prefix. *)
Lemma copy_at_app off pre src out : length pre = off ->
  copy_at off src (pre ++ drop off out) = (pre ++ src) ++ drop (off + length src) out.
Proof.
  intros <-. unfold copy_at. rewrite take_app_length, <- app_assoc. do 2 f_equal.
  rewrite drop_app_ge by lia. rewrite drop_drop. f_equal. lia.
Qed.

Lemma copy_at_0 src out : copy_at 0 src out = src ++ drop (length src) out.
Proof. done. Qed.

(** ** CRC-16/CCITT *)

(** [crc << 1] of a [u16] drops the bit it shifts out. *)
Definition shl16 (x k : Z) : Z := as_unsigned 16 (Z.shiftl x k).

(** One turn of the inner loop. *)
Definition crc_bit (crc : Z) : Z :=
  if negb (Z.land crc 0x8000 =? 0) then Z.lxor (shl16 crc 1) 0x1021 else shl16 crc 1.

(** One turn of the outer loop: eight turns of the inner one. *)
Definition crc_byte (crc b : Z) : Z := Nat.iter 8 crc_bit (Z.lxor crc (shl16 b 8)).

Definition crc16_ccitt (crc : Z) (data : list Z) : Z := fold_left crc_byte data crc.

(** A statement about every number below [n], by evaluation. *)
Lemma all_below (p : Z -> bool) (n x : Z) : forallb p (seqZ 0 n) = true -> 0 <= x < n -> p x = true.
Proof. intros H Hx. rewrite forallb_forall in H. apply H, list_elem_of_In, elem_of_seqZ. lia. Qed.

(** Undoing a turn: the low bit of the result tells whether the polynomial was added. *)
Definition crc_unbit (crc : Z) : Z :=
  if Z.odd crc then Z.lxor crc 0x1021 / 2 + 0x8000 else crc / 2.

(** The top bit of a word, as the mask test reads it and as a bound. *)
Lemma top_bit_spec x : u16 x ->
  negb (Z.land x 0x8000 =? 0) = Z.testbit x 15 /\ Z.testbit x 15 = (0x8000 <=? x).
Proof.
  unfold fits. change (2 ^ 16) with 65536. intros Hx.
  assert (Z.testbit x 15 = (0x8000 <=? x)) as E.
  { rewrite Z.testbit_odd, Z.shiftr_div_pow2 by lia. change (2 ^ 15) with 32768.
    destruct (Z.leb_spec 0x8000 x).
    - replace (x / 32768) with 1; [done|]. apply Z.div_unique with (x - 32768); lia.
    - by rewrite Z.div_small by lia. }
  split; [|done]. change 0x8000 with (2 ^ 15).
  assert (Z.land x (2 ^ 15) = if Z.testbit x 15 then 2 ^ 15 else 0) as ->.
  { apply Z.bits_inj'. intros n Hn. rewrite Z.land_spec, Z.pow2_bits_eqb by lia.
    destruct (Z.eqb_spec 15 n) as [<-|Hne].
    - destruct (Z.testbit x 15); reflexivity.
    - rewrite andb_false_r. destruct (Z.testbit x 15); [|by rewrite Z.bits_0].
      rewrite Z.pow2_bits_eqb by lia. symmetry. by apply Z.eqb_neq. }
  by destruct (Z.testbit x 15).
Qed.

Lemma shl16_land x k : shl16 x k = Z.land (Z.shiftl x k) 65535.
Proof. unfold shl16, as_unsigned. change 65535 with (Z.ones 16). by rewrite Z.land_ones by lia. Qed.

Lemma crc_bit_eq x : u16 x ->
  crc_bit x = Z.lxor (Z.land (Z.shiftl x 1) 65535) (if Z.testbit x 15 then 0x1021 else 0).
Proof.
  intros Hx. unfold crc_bit. rewrite (proj1 (top_bit_spec x Hx)), shl16_land.
  destruct (Z.testbit x 15); [done|by rewrite Z.lxor_0_r].
Qed.

Lemma crc_unbit_bit x : u16 x -> crc_unbit (crc_bit x) = x.
Proof.
  intros Hx. pose proof (top_bit_spec x Hx) as [Hm Hb]. unfold crc_bit, crc_unbit. rewrite Hm, Hb.
  unfold shl16, as_unsigned, fits in *. rewrite Z.shiftl_mul_pow2 by lia.
  change (2 ^ 1) with 2. change (2 ^ 16) with 65536 in *. destruct (Z.leb_spec 0x8000 x) as [Hge|Hlt].
  - replace ((x * 2) mod 65536) with (2 * (x - 32768)) by (apply Z.mod_unique with 1; lia).
    rewrite <- Z.bit0_odd, Z.lxor_spec, Z.bit0_odd, Z.odd_mul. cbn [Z.odd Z.testbit xorb andb].
    change (Z.odd 2) with false. cbn [andb xorb]. change (Z.testbit 4129 0) with true. cbn [xorb].
    rewrite Z.lxor_assoc, Z.lxor_nilpotent, Z.lxor_0_r, Z.mul_comm, Z.div_mul by lia. lia.
  - rewrite Z.mod_small by lia. rewrite Z.odd_mul. change (Z.odd 2) with false. rewrite andb_false_r.
    apply Z.div_mul. lia.
Qed.

Lemma lxor_fits w x y : 0 < w -> fits w x -> fits w y -> fits w (Z.lxor x y).
Proof.
  intros Hw Hx Hy. unfold fits in *. destruct (Z.eq_dec (Z.lxor x y) 0) as [->|Hne]; [split; [lia|]; apply Z.pow_pos_nonneg; lia|].
  assert (0 <= Z.lxor x y) as H0 by (apply Z.lxor_nonneg; lia). split; [done|].
  apply Z.log2_lt_pow2; [lia|]. pose proof (Z.log2_lxor x y ltac:(lia) ltac:(lia)).
  destruct (Z.eq_dec x 0) as [->|Hx0].
  { rewrite Z.lxor_0_l in *. apply Z.log2_lt_pow2; lia. }
  destruct (Z.eq_dec y 0) as [->|Hy0].
  { rewrite Z.lxor_0_r in *. apply Z.log2_lt_pow2; lia. }
  assert (Z.log2 x < w) by (apply Z.log2_lt_pow2; lia).
  assert (Z.log2 y < w) by (apply Z.log2_lt_pow2; lia). lia.
Qed.

Lemma crc_bit_fits x : u16 x -> u16 (crc_bit x).
Proof.
  intros Hx. rewrite crc_bit_eq by done. apply lxor_fits; [lia| |by destruct (Z.testbit x 15)].
  rewrite <- shl16_land. by apply fits_mod.
Qed.

Lemma crc_bit_inj x y : u16 x -> u16 y -> crc_bit x = crc_bit y -> x = y.
Proof. intros Hx Hy E. by rewrite <- (crc_unbit_bit x Hx), <- (crc_unbit_bit y Hy), E. Qed.

(** A turn is linear over exclusive or. *)
Lemma crc_bit_lxor x y : u16 x -> u16 y -> crc_bit (Z.lxor x y) = Z.lxor (crc_bit x) (crc_bit y).
Proof.
  intros Hx Hy. pose proof (lxor_fits 16 x y ltac:(lia) Hx Hy) as Hxy.
  rewrite (crc_bit_eq x Hx), (crc_bit_eq y Hy), (crc_bit_eq _ Hxy), Z.lxor_spec.
  apply Z.bits_inj'. intros n Hn. rewrite Z.shiftl_lxor, !Z.lxor_spec, !Z.land_spec, !Z.lxor_spec.
  destruct (Z.testbit x 15), (Z.testbit y 15); cbn [xorb]; rewrite ?Z.testbit_0_l;
    destruct (Z.testbit (Z.shiftl x 1) n), (Z.testbit (Z.shiftl y 1) n), (Z.testbit 65535 n),
      (Z.testbit 4129 n); reflexivity.
Qed.

Section CrcIter.
Lemma crc_iter_fits n x : u16 x -> u16 (Nat.iter n crc_bit x).
Proof. intros Hx. induction n as [|n IH]; [done|]. rewrite Nat.iter_succ. by apply crc_bit_fits. Qed.

Lemma crc_iter_inj n x y : u16 x -> u16 y -> Nat.iter n crc_bit x = Nat.iter n crc_bit y -> x = y.
Proof.
  intros Hx Hy. induction n as [|n IH]; [done|]. rewrite !Nat.iter_succ. intros E.
  apply IH, crc_bit_inj; [by apply crc_iter_fits..|done].
Qed.

Lemma crc_iter_lxor n x y : u16 x -> u16 y ->
  Nat.iter n crc_bit (Z.lxor x y) = Z.lxor (Nat.iter n crc_bit x) (Nat.iter n crc_bit y).
Proof.
  intros Hx Hy. induction n as [|n IH]; [done|]. rewrite !Nat.iter_succ, IH. by apply crc_bit_lxor; apply crc_iter_fits.
Qed.
End CrcIter.

(** Eight turns move a low byte to the high half, where the next byte is added. *)
Lemma crc_iter_low b : byte b -> Nat.iter 8 crc_bit b = shl16 b 8 /\ u16 (shl16 b 8) /\ shl16 b 8 = b * 256.
Proof.
  intros Hb. pose (p := fun b => (Nat.iter 8 crc_bit b =? shl16 b 8) && (0 <=? shl16 b 8) && (shl16 b 8 <? 2 ^ 16)
    && (shl16 b 8 =? b * 256)).
  assert (p b = true) as H by (apply (all_below p 256); [by vm_compute|exact Hb]).
  unfold p in H. rewrite !andb_true_iff, !Z.eqb_eq, Z.leb_le, Z.ltb_lt in H. unfold fits. tauto.
Qed.

Lemma byte_u16 b : byte b -> u16 b.
Proof. unfold byte, fits. lia. Qed.

Lemma crc_byte_fits crc b : u16 crc -> byte b -> u16 (crc_byte crc b).
Proof. intros Hc Hb. apply crc_iter_fits, lxor_fits; [lia|done|]. by apply crc_iter_low. Qed.

Lemma crc_fits crc data : u16 crc -> bytes data -> u16 (crc16_ccitt crc data).
Proof.
  intros Hc Hd. revert crc Hc. induction Hd as [|b data Hb Hd IH]; intros crc Hc; [done|].
  cbn. by apply IH, crc_byte_fits.
Qed.

Lemma crc_app crc a b : crc16_ccitt crc (a ++ b) = crc16_ccitt (crc16_ccitt crc a) b.
Proof. apply fold_left_app. Qed.

(** What the checksum was before some data is determined by what it is after. *)
Lemma crc_state_inj data x y : bytes data -> u16 x -> u16 y ->
  crc16_ccitt x data = crc16_ccitt y data -> x = y.
Proof.
  intros Hd. revert x y. induction Hd as [|b data Hb Hd IH]; intros x y Hx Hy E; [done|].
  pose proof (crc_iter_low b Hb) as (_ & Hb16 & _). cbn [crc16_ccitt fold_left] in E.
  apply IH, crc_iter_inj in E; [|by apply lxor_fits..|by apply crc_byte_fits|by apply crc_byte_fits].
  rewrite <- (Z.lxor_0_r x), <- (Z.lxor_0_r y), <- (Z.lxor_nilpotent (shl16 b 8)).
  rewrite <- !Z.lxor_assoc. by rewrite E.
Qed.

(** A byte does not overlap a number moved past it. *)
Lemma byte_disjoint a b : byte b -> Z.land (Z.shiftl a 8) b = 0.
Proof.
  intros Hb. apply Z.bits_inj'. intros n Hn. rewrite Z.land_spec, Z.bits_0, Z.shiftl_spec by done.
  destruct (Z_lt_le_dec n 8); [by rewrite (Z.testbit_neg_r a) by lia|].
  unfold byte in Hb. destruct (Z.eq_dec b 0) as [->|]; [by rewrite Z.bits_0, andb_false_r|].
  assert (Z.log2 b < 8) by (apply Z.log2_lt_pow2; lia).
  rewrite (Z.bits_above_log2 b), andb_false_r; [done|lia|lia].
Qed.

(** [(b as u16) << 8 | (a as u16)] *)
Lemma join_bytes a b : byte a -> Z.lor (Z.shiftl b 8) a = a + 2 ^ 8 * b.
Proof.
  intros Ha. pose proof (Z.add_lor_land (Z.shiftl b 8) a) as H. rewrite byte_disjoint in H by done.
  rewrite Z.shiftl_mul_pow2 in * by lia. lia.
Qed.

(** Two bytes enter the checksum as one word through sixteen turns. *)
Lemma crc_pair x a b : u16 x -> byte a -> byte b ->
  crc_byte (crc_byte x a) b = Nat.iter 16 crc_bit (Z.lxor x (a * 256 + b)).
Proof.
  intros Hx Ha Hb. pose proof (crc_iter_low a Ha) as (_ & Ha16 & Ea). pose proof (crc_iter_low b Hb) as (Eb & _).
  change 16%nat with (8 + 8)%nat. rewrite Nat.iter_add. unfold crc_byte. rewrite <- Eb.
  rewrite <- crc_iter_lxor; [|by apply lxor_fits|by apply byte_u16].
  do 2 f_equal. rewrite Z.lxor_assoc. f_equal. rewrite Ea. symmetry.
  change 256 with (2 ^ 8). rewrite <- (Z.shiftl_mul_pow2 a 8) by lia.
  apply Z.add_nocarry_lxor. by apply byte_disjoint.
Qed.

Lemma crc_two x a b : u16 x -> byte a -> byte b ->
  crc16_ccitt x [a; b] = Nat.iter 16 crc_bit (Z.lxor x (a * 256 + b)).
Proof. intros Hx Ha Hb. rewrite <- crc_pair by done. reflexivity. Qed.

(** A change confined to two neighbouring bytes always changes the checksum. *)
Lemma crc_detects_burst crc pre post a b a' b' :
  u16 crc -> bytes pre -> bytes post -> byte a -> byte b -> byte a' -> byte b' ->
  crc16_ccitt crc (pre ++ [a; b] ++ post) = crc16_ccitt crc (pre ++ [a'; b'] ++ post) -> a = a' /\ b = b'.
Proof.
  intros Hc Hpre Hpost Ha Hb Ha' Hb' E. rewrite !crc_app in E.
  pose proof (crc_fits crc pre Hc Hpre) as Hp.
  apply crc_state_inj in E; [|done|apply crc_fits; [done|by apply bytes_pair]..].
  rewrite !crc_two in E by done.
  assert (forall u v, byte u -> byte v -> u16 (u * 256 + v)) as Hw by (unfold byte, fits; lia).
  apply (crc_iter_inj 16) in E; [|apply lxor_fits; [lia|done|by apply Hw]..].
  assert (a * 256 + b = a' * 256 + b').
  { rewrite <- (Z.lxor_0_l (a * 256 + b)), <- (Z.lxor_0_l (a' * 256 + b')).
    rewrite <- (Z.lxor_nilpotent (crc16_ccitt crc pre)), !Z.lxor_assoc. by rewrite E. }
  unfold byte in *. lia.
Qed.

Lemma copy_at_inside i src l p r : (length l <= i)%nat -> (i + length src <= length l + length p)%nat ->
  copy_at i src (l ++ p ++ r) = l ++ copy_at (i - length l) src p ++ r.
Proof.
  intros Hl Hr. unfold copy_at. rewrite take_app_ge, drop_app_ge by lia.
  rewrite take_app_le, drop_app_le by lia. 
  replace (i + length src - length l)%nat with (i - length l + length src)%nat by lia. by rewrite <- !app_assoc.
Qed.

(** Two neighbouring bytes, overwritten: either the data is as it was, or its checksum is not. *)
Lemma crc_overwrite crc p i x y : u16 crc -> bytes p -> byte x -> byte y -> (i + 2 <= length p)%nat ->
  copy_at i [x; y] p = p \/ crc16_ccitt crc (copy_at i [x; y] p) <> crc16_ccitt crc p.
Proof.
  intros Hcrc Hp Hx Hy Hi. unfold copy_at. cbn [length].
  destruct (drop i p) as [|a [|b q]] eqn:E.
  1,2: apply (f_equal length) in E; rewrite length_drop in E; cbn in E; lia.
  assert (drop (i + 2) p = q) as -> by (rewrite <- drop_drop, E; done).
  assert (p = take i p ++ [a; b] ++ q) as Ep by (rewrite <- (take_drop i p) at 1; by rewrite E).
  assert (bytes (take i p) /\ byte a /\ byte b /\ bytes q) as (H1 & H2 & H3 & H4).
  { rewrite Ep in Hp. apply Forall_app in Hp as [? Hp]. apply Forall_cons in Hp as [? Hp].
    apply Forall_cons in Hp as [? Hp]. done. }
  destruct (decide (x = a /\ y = b)) as [[-> ->]|Hne]; [left; by rewrite Ep at 2|right].
  intros Hc. apply Hne. rewrite Ep in Hc at 2. by apply (crc_detects_burst crc) in Hc.
Qed.
