(* ===== verification/KvStore.v ===== *)
(** * Two-slot flash store (boards/common/src/kv/ab.rs)

    Serialisation of the calibration pages into a checksummed slot, the classification of a
    slot at boot, the choice between the two slots, and the write protocol around them.  The
    flash device itself (erase to 0xFF, then program from the first byte on, cut off anywhere
    by a loss of power) is the one of boards/common/tests/kv_ab_fault_injection.rs. *)
From S2P Require Import Prelude Bytes.

Definition FUEL_PAGE_LEN : nat := 512.
Definition IGN_PAGE_LEN : nat := 512.
Definition ANGLES_PAGE_LEN : nat := 68.

Definition MAGIC : Z := 0x4950574B.
Definition VERSION : Z := 3.
Definition LEN_FUEL : nat := FUEL_PAGE_LEN.
Definition LEN_IGN : nat := IGN_PAGE_LEN.
Definition LEN_ANGLES : nat := ANGLES_PAGE_LEN.
Definition SLOT_HEADER_LEN : nat := 24.
Definition PAYLOAD_LEN : nat := LEN_FUEL + LEN_IGN + LEN_ANGLES.
Definition SLOT_USED_LEN : nat := SLOT_HEADER_LEN + PAYLOAD_LEN.

Definition OFF_MAGIC : nat := 0.
Definition OFF_VERSION : nat := 4.
Definition OFF_RSV : nat := 6.
Definition OFF_SEQ : nat := 8.
Definition OFF_FUEL_LEN : nat := 12.
Definition OFF_IGN_LEN : nat := 14.
Definition OFF_ANGLES_LEN : nat := 16.
Definition OFF_FUEL_CRC : nat := 18.
Definition OFF_IGN_CRC : nat := 20.
Definition OFF_ANGLES_CRC : nat := 22.
Definition OFF_FUEL : nat := SLOT_HEADER_LEN.
Definition OFF_IGN : nat := OFF_FUEL + LEN_FUEL.
Definition OFF_ANGLES : nat := OFF_IGN + LEN_IGN.

Module SlotContents.
Record t := mk { seq : Z; fuel : list Z; ign : list Z; angles : list Z }.
#[global] Instance eta : Eta t := fun c => mk (seq c) (fuel c) (ign c) (angles c).
Definition zeroed : t :=
  mk 0 (replicate LEN_FUEL 0) (replicate LEN_IGN 0) (replicate LEN_ANGLES 0).
End SlotContents.

Module BootScan.
Inductive t := Blank | Corrupt | Valid (slot seq : Z) (saw_corrupt : bool).
End BootScan.

Module StoreIntegrityStatus.
Inductive t := Blank | Valid | ValidWithCorruptSibling | Corrupt.
End StoreIntegrityStatus.

Definition store_integrity_from_boot_scan (scan : BootScan.t) : StoreIntegrityStatus.t :=
  match scan with
  | BootScan.Blank => StoreIntegrityStatus.Blank
  | BootScan.Corrupt => StoreIntegrityStatus.Corrupt
  | BootScan.Valid _ _ true => StoreIntegrityStatus.ValidWithCorruptSibling
  | BootScan.Valid _ _ false => StoreIntegrityStatus.Valid
  end.

Definition page_crc (page : list Z) : Z := crc16_ccitt 0xFFFF page.

(** The buffer after the call, and the number of bytes written. *)
Definition serialize_slot (c : SlotContents.t) (out : list Z) : list Z * nat :=
  if (length out <? SLOT_USED_LEN)%nat then (out, 0%nat)
  else
    let fuel_crc := page_crc (SlotContents.fuel c) in
    let ign_crc := page_crc (SlotContents.ign c) in
    let angles_crc := page_crc (SlotContents.angles c) in
    let out := copy_at OFF_MAGIC (le32 MAGIC) out in
    let out := copy_at OFF_VERSION (le16 VERSION) out in
    let out := copy_at OFF_RSV (le16 0) out in
    let out := copy_at OFF_SEQ (le32 (SlotContents.seq c)) out in
    let out := copy_at OFF_FUEL_LEN (le16 (as_unsigned 16 (Z.of_nat LEN_FUEL))) out in
    let out := copy_at OFF_IGN_LEN (le16 (as_unsigned 16 (Z.of_nat LEN_IGN))) out in
    let out := copy_at OFF_ANGLES_LEN (le16 (as_unsigned 16 (Z.of_nat LEN_ANGLES))) out in
    let out := copy_at OFF_FUEL_CRC (le16 fuel_crc) out in
    let out := copy_at OFF_IGN_CRC (le16 ign_crc) out in
    let out := copy_at OFF_ANGLES_CRC (le16 angles_crc) out in
    let out := copy_at OFF_FUEL (SlotContents.fuel c) out in
    let out := copy_at OFF_IGN (SlotContents.ign c) out in
    let out := copy_at OFF_ANGLES (SlotContents.angles c) out in
    (out, SLOT_USED_LEN).

Module SlotState.
Inductive t := Blank | Corrupt | Valid (seq : Z).
End SlotState.

Definition classify_slot (slot : list Z) : SlotState.t :=
  if (length slot <? SLOT_USED_LEN)%nat then SlotState.Corrupt
  else if negb (rd_u32 slot OFF_MAGIC =? MAGIC) then SlotState.Blank
  else if negb (rd_u16 slot OFF_VERSION =? VERSION) then SlotState.Corrupt
  else if negb (rd_u16 slot OFF_FUEL_LEN =? Z.of_nat LEN_FUEL)
    || negb (rd_u16 slot OFF_IGN_LEN =? Z.of_nat LEN_IGN)
    || negb (rd_u16 slot OFF_ANGLES_LEN =? Z.of_nat LEN_ANGLES)
  then SlotState.Corrupt
  else
    let fuel_crc := page_crc (slice OFF_FUEL (OFF_FUEL + LEN_FUEL) slot) in
    let ign_crc := page_crc (slice OFF_IGN (OFF_IGN + LEN_IGN) slot) in
    let angles_crc := page_crc (slice OFF_ANGLES (OFF_ANGLES + LEN_ANGLES) slot) in
    if negb (fuel_crc =? rd_u16 slot OFF_FUEL_CRC)
      || negb (ign_crc =? rd_u16 slot OFF_IGN_CRC)
      || negb (angles_crc =? rd_u16 slot OFF_ANGLES_CRC)
    then SlotState.Corrupt
    else SlotState.Valid (rd_u32 slot OFF_SEQ).

(** The locals of [scan]'s loop. *)
Module ScanState.
Record t := mk { best : option (Z * Z); saw_corrupt : bool; saw_magic : bool }.
#[global] Instance eta : Eta t := fun s => mk (best s) (saw_corrupt s) (saw_magic s).
End ScanState.

Definition scan_state (idx : Z) (state : SlotState.t) (s : ScanState.t) : ScanState.t :=
  match state with
  | SlotState.Blank => s
  | SlotState.Corrupt => s <| ScanState.saw_corrupt := true |> <| ScanState.saw_magic := true |>
  | SlotState.Valid seq =>
    let s := s <| ScanState.saw_magic := true |> in
    let take := match ScanState.best s with None => true | Some (_, best_seq) => best_seq <=? seq end in
    if take then s <| ScanState.best := Some (idx, seq) |> else s
  end.

Definition scan (slot_a slot_b : list Z) : BootScan.t :=
  let s := ScanState.mk None false false in
  let s := scan_state 0 (classify_slot slot_a) s in
  let s := scan_state 1 (classify_slot slot_b) s in
  match ScanState.best s with
  | Some (slot, seq) => BootScan.Valid slot seq (ScanState.saw_corrupt s)
  | None => if ScanState.saw_corrupt s || ScanState.saw_magic s then BootScan.Corrupt else BootScan.Blank
  end.

(** The keys the store knows, as their bytes. *)
Definition KEY_FUEL : list Z := [102; 117; 101; 108].
Definition KEY_IGN : list Z := [105; 103; 110].
Definition KEY_ANGLES : list Z := [97; 110; 103; 108; 101; 115].

Definition key_range (key : list Z) : option (nat * nat) :=
  if decide (key = KEY_FUEL) then Some (OFF_FUEL, LEN_FUEL)
  else if decide (key = KEY_IGN) then Some (OFF_IGN, LEN_IGN)
  else if decide (key = KEY_ANGLES) then Some (OFF_ANGLES, LEN_ANGLES)
  else None.

(** The buffer after the call, and the number of bytes read. *)
Definition read_key (slot key out : list Z) : list Z * option nat :=
  if (length slot <? SLOT_USED_LEN)%nat then (out, None)
  else
    match key_range key with
    | None => (out, None)
    | Some (off, len) =>
      if (length out <? len)%nat then (out, None)
      else (copy_at 0 (slice off (off + len) slot) out, Some len)
    end.

Definition write_target (current : BootScan.t) : Z :=
  match current with BootScan.Valid slot _ _ => 1 - slot | _ => 0 end.

Definition next_seq (current : BootScan.t) : Z :=
  match current with BootScan.Valid _ seq _ => wrapping_add 32 seq 1 | _ => 1 end.

(** ** The device and the write protocol *)
Definition SECTOR : nat := 4096.

Module Flash.
Record t := mk { slot_a : list Z; slot_b : list Z }.
#[global] Instance eta : Eta t := fun f => mk (slot_a f) (slot_b f).
Definition blank : t := mk (replicate SECTOR 0xFF) (replicate SECTOR 0xFF).
Definition boot (f : t) : BootScan.t := scan (slot_a f) (slot_b f).
Definition sector (i : Z) (f : t) : list Z := if i =? 0 then slot_a f else slot_b f.
Definition set_sector (i : Z) (s : list Z) (f : t) : t :=
  if i =? 0 then f <| slot_a := s |> else f <| slot_b := s |>.
End Flash.

(** A sector erased and programmed with the first [n] bytes of a serialised slot. *)
Definition torn_image (c : SlotContents.t) (n : nat) : list Z :=
  let serialized := fst (serialize_slot c (replicate SECTOR 0xFF)) in
  let n := Nat.min n SECTOR in
  take n serialized ++ replicate (SECTOR - n) 0xFF.

Definition write_truncated (slot : Z) (c : SlotContents.t) (truncate_at : nat) (f : Flash.t) : Flash.t :=
  Flash.set_sector slot (torn_image c truncate_at) f.

(** A write of [contents] whose power fails after [truncate_at] bytes. *)
Definition interrupted_commit (contents : SlotContents.t) (truncate_at : nat) (f : Flash.t) : Flash.t :=
  let current := Flash.boot f in
  let target := write_target current in
  let c := contents <| SlotContents.seq := next_seq current |> in
  write_truncated target c truncate_at f.

Definition commit (contents : SlotContents.t) (f : Flash.t) : Flash.t :=
  interrupted_commit contents SLOT_USED_LEN f.

(** ** The frame of a slot *)
Section Frame.
Variable c : SlotContents.t.

Definition contents_wf : Prop :=
  u32 (SlotContents.seq c)
  /\ bytes (SlotContents.fuel c) /\ length (SlotContents.fuel c) = LEN_FUEL
  /\ bytes (SlotContents.ign c) /\ length (SlotContents.ign c) = LEN_IGN
  /\ bytes (SlotContents.angles c) /\ length (SlotContents.angles c) = LEN_ANGLES.

Definition header : list Z :=
  le32 MAGIC ++ le16 VERSION ++ le16 0 ++ le32 (SlotContents.seq c)
  ++ le16 512 ++ le16 512 ++ le16 68
  ++ le16 (page_crc (SlotContents.fuel c)) ++ le16 (page_crc (SlotContents.ign c))
  ++ le16 (page_crc (SlotContents.angles c)).

Definition frame : list Z :=
  header ++ SlotContents.fuel c ++ SlotContents.ign c ++ SlotContents.angles c.
End Frame.

#[local] Opaque page_crc.

Lemma slot_frame_length c : contents_wf c -> length (frame c) = SLOT_USED_LEN.
Proof. intros (_ & _ & Hf & _ & Hi & _ & Ha). unfold frame. by rewrite !length_app, Hf, Hi, Ha. Qed.

(** The thirteen writes lay the fields down one after the other. *)
Lemma serialize_slot_frame c out : contents_wf c -> (SLOT_USED_LEN <= length out)%nat ->
  serialize_slot c out = (frame c ++ drop SLOT_USED_LEN out, SLOT_USED_LEN).
Proof.
  intros (_ & _ & Hf & _ & Hi & _ & Ha) Hlen. unfold serialize_slot.
  destruct (Nat.ltb_spec (length out) SLOT_USED_LEN); [lia|]. cbv zeta. f_equal.
  change (copy_at OFF_MAGIC (le32 MAGIC) out) with (le32 MAGIC ++ drop 4 out).
  do 9 (rewrite copy_at_app by reflexivity; cbn [length le16 le32]).
  rewrite (copy_at_app OFF_FUEL) by reflexivity. rewrite Hf.
  rewrite (copy_at_app OFF_IGN) by (rewrite length_app, Hf; reflexivity). rewrite Hi.
  rewrite (copy_at_app OFF_ANGLES) by (rewrite !length_app, Hf, Hi; reflexivity). rewrite Ha.
  unfold frame, header. rewrite <- !app_assoc. reflexivity.
Qed.

Lemma page_crc_u16 p : bytes p -> u16 (page_crc p).
Proof. intros Hp. by apply (crc_fits 0xFFFF). Qed.

(** What the fields of a header read back as, whatever follows it. *)
Lemma header_fields c t : contents_wf c ->
  rd_u32 (header c ++ t) OFF_MAGIC = MAGIC /\ rd_u16 (header c ++ t) OFF_VERSION = VERSION
  /\ rd_u32 (header c ++ t) OFF_SEQ = SlotContents.seq c
  /\ rd_u16 (header c ++ t) OFF_FUEL_LEN = Z.of_nat LEN_FUEL
  /\ rd_u16 (header c ++ t) OFF_IGN_LEN = Z.of_nat LEN_IGN
  /\ rd_u16 (header c ++ t) OFF_ANGLES_LEN = Z.of_nat LEN_ANGLES
  /\ rd_u16 (header c ++ t) OFF_FUEL_CRC = page_crc (SlotContents.fuel c)
  /\ rd_u16 (header c ++ t) OFF_IGN_CRC = page_crc (SlotContents.ign c)
  /\ rd_u16 (header c ++ t) OFF_ANGLES_CRC = page_crc (SlotContents.angles c).
Proof.
  intros (Hs & Bf & _ & Bi & _ & Ba & _).
  split; [reflexivity|]. split; [reflexivity|]. split; [exact (le32_value _ Hs)|].
  do 3 (split; [reflexivity|]).
  split; [exact (le16_value _ (page_crc_u16 _ Bf))|].
  split; [exact (le16_value _ (page_crc_u16 _ Bi))|exact (le16_value _ (page_crc_u16 _ Ba))].
Qed.

(** A slot that carries [c]'s header: what boot makes of the pages behind it. *)
Lemma classify_pages c fuel ign angles rest : contents_wf c ->
  length fuel = LEN_FUEL -> length ign = LEN_IGN -> length angles = LEN_ANGLES ->
  classify_slot (header c ++ fuel ++ ign ++ angles ++ rest) =
  if (page_crc fuel =? page_crc (SlotContents.fuel c)) && (page_crc ign =? page_crc (SlotContents.ign c))
     && (page_crc angles =? page_crc (SlotContents.angles c))
  then SlotState.Valid (SlotContents.seq c) else SlotState.Corrupt.
Proof.
  intros Hc Hf Hi Ha. pose proof (header_fields c (fuel ++ ign ++ angles ++ rest) Hc)
    as (Hm & Hv & Hs & H1 & H2 & H3 & C1 & C2 & C3).
  unfold classify_slot. rewrite Hm, Hv, Hs, H1, H2, H3, C1, C2, C3. rewrite !Z.eqb_refl. cbn [negb orb].
  assert (length (header c ++ fuel ++ ign ++ angles ++ rest) = SLOT_USED_LEN + length rest)%nat as ->.
  { rewrite !length_app, Hf, Hi, Ha. change (length (header c)) with 24%nat. unfold SLOT_USED_LEN, PAYLOAD_LEN, SLOT_HEADER_LEN. lia. }
  destruct (Nat.ltb_spec (SLOT_USED_LEN + length rest) SLOT_USED_LEN); [lia|].
  rewrite (slice_app OFF_FUEL _ (header c) fuel) by (rewrite ?Hf; reflexivity).
  rewrite (app_assoc (header c) fuel), (slice_app OFF_IGN _ (header c ++ fuel) ign)
    by (rewrite ?length_app, ?Hf, ?Hi; reflexivity).
  rewrite (app_assoc (header c ++ fuel) ign), (slice_app OFF_ANGLES _ ((header c ++ fuel) ++ ign) angles)
    by (rewrite ?length_app, ?Hf, ?Hi, ?Ha; reflexivity).
  by destruct (page_crc fuel =? _), (page_crc ign =? _), (page_crc angles =? _).
Qed.

Lemma classify_frame c rest : contents_wf c ->
  classify_slot (frame c ++ rest) = SlotState.Valid (SlotContents.seq c).
Proof.
  intros Hc. unfold frame. rewrite <- !app_assoc. pose proof Hc as (_ & _ & Hf & _ & Hi & _ & Ha).
  rewrite classify_pages by done. by rewrite !Z.eqb_refl.
Qed.

(** The pages of a frame, as the reader slices them out. *)
Lemma frame_pages c rest : contents_wf c ->
  slice OFF_FUEL (OFF_FUEL + LEN_FUEL) (frame c ++ rest) = SlotContents.fuel c
  /\ slice OFF_IGN (OFF_IGN + LEN_IGN) (frame c ++ rest) = SlotContents.ign c
  /\ slice OFF_ANGLES (OFF_ANGLES + LEN_ANGLES) (frame c ++ rest) = SlotContents.angles c.
Proof.
  intros (_ & _ & Hf & _ & Hi & _ & Ha). unfold frame. rewrite <- !app_assoc. split; [|split].
  - apply slice_app; rewrite ?Hf; reflexivity.
  - rewrite app_assoc. apply slice_app; rewrite ?length_app, ?Hf, ?Hi; reflexivity.
  - rewrite app_assoc, (app_assoc (_ ++ _)). apply slice_app; rewrite ?length_app, ?Hf, ?Hi, ?Ha; reflexivity.
Qed.

Lemma read_key_hit slot key off len page out : (SLOT_USED_LEN <= length slot)%nat ->
  key_range key = Some (off, len) -> slice off (off + len) slot = page -> length page = len ->
  (len <= length out)%nat -> read_key slot key out = (page ++ drop len out, Some len).
Proof.
  intros Hs Hk Hp Hl Ho. unfold read_key. rewrite Hk, Hp.
  destruct (Nat.ltb_spec (length slot) SLOT_USED_LEN); [lia|].
  destruct (Nat.ltb_spec (length out) len); [lia|]. by rewrite copy_at_0, Hl.
Qed.

(** ** Torn writes *)
#[local] Opaque SECTOR.

Lemma sector_fits : (SLOT_USED_LEN <= SECTOR)%nat.
Proof. apply Nat.leb_le. vm_compute. reflexivity. Qed.

Lemma torn_image_cases c n : contents_wf c ->
  torn_image c n = take n (frame c) ++ replicate (SECTOR - Nat.min n SLOT_USED_LEN) 0xFF.
Proof.
  intros Hc. pose proof sector_fits. pose proof (slot_frame_length c Hc) as Hl. unfold torn_image.
  rewrite serialize_slot_frame by (done || by rewrite length_replicate). cbn [fst].
  rewrite drop_replicate, take_app, Hl, take_replicate, <- app_assoc, <- replicate_add.
  f_equal; [|f_equal; lia]. destruct (Nat.le_gt_cases n SECTOR); [f_equal; lia|].
  rewrite !take_ge by (rewrite Hl; lia). done.
Qed.

Lemma torn_length c n : contents_wf c -> length (torn_image c n) = SECTOR.
Proof.
  intros Hc. pose proof sector_fits. rewrite torn_image_cases by done.
  rewrite length_app, length_take, length_replicate, slot_frame_length by done. lia.
Qed.

Lemma torn_byte c n i : contents_wf c -> (i < SLOT_USED_LEN)%nat ->
  get_byte i (torn_image c n) = if (i <? n)%nat then get_byte i (frame c) else 0xFF.
Proof.
  intros Hc Hi. pose proof sector_fits. rewrite torn_image_cases by done. unfold get_byte.
  pose proof (slot_frame_length c Hc) as Hl. destruct (Nat.ltb_spec i n).
  - rewrite app_nth1 by (rewrite length_take, Hl; lia).
    rewrite <- (take_drop n (frame c)) at 2. by rewrite app_nth1 by (rewrite length_take, Hl; lia).
  - rewrite app_nth2 by (rewrite length_take, Hl; lia). rewrite length_take, Hl, nth_lookup, lookup_replicate_2 by lia. done.
Qed.

(** A page of which [k] bytes were programmed, and the pages of a slot torn after [n] bytes. *)
Definition torn_page (page : list Z) (k : nat) : list Z := take k page ++ replicate (length page - k) 0xFF.

Definition torn_pages (c : SlotContents.t) (n : nat) : list (list Z * nat) :=
  [(SlotContents.fuel c, n - OFF_FUEL); (SlotContents.ign c, n - OFF_IGN);
   (SlotContents.angles c, n - OFF_ANGLES)]%nat.

(** The bytes that reached the flash still carry the checksum of the page meant. *)
Definition checksum_kept (p : list Z * nat) : Prop := page_crc (torn_page (fst p) (snd p)) = page_crc (fst p).
#[global] Instance checksum_kept_dec p : Decision (checksum_kept p).
Proof. unfold checksum_kept. apply _. Defined.

(** A page the cut changed, in no more than two bytes. *)
Definition slightly_torn (p : list Z * nat) : Prop :=
  torn_page (fst p) (snd p) <> fst p /\ Forall (eq 0xFF) (drop (snd p + 2) (fst p)).

Lemma torn_page_length page k : length (torn_page page k) = length page.
Proof. unfold torn_page. rewrite length_app, length_take, length_replicate. lia. Qed.

Lemma Forall_erased l : Forall (eq 0xFF) l -> l = replicate (length l) 0xFF.
Proof. induction 1 as [|x l <- _ IH]; [done|]. cbn. by rewrite <- IH. Qed.

(** The two bytes the cut changed, and what surrounds them. *)
Lemma slightly_torn_shape page k : (2 <= length page)%nat -> slightly_torn (page, k) ->
  exists pre a b a' post, page = pre ++ [a; b] ++ post /\ torn_page page k = pre ++ [a'; 0xFF] ++ post
    /\ (a' = a \/ a' = 0xFF).
Proof.
  unfold slightly_torn, torn_page. cbn [fst snd]. intros Hl [Hne Hff].
  destruct (Nat.le_gt_cases (length page) k) as [Hge|Hlt].
  { destruct Hne. by rewrite take_ge, (proj2 (Nat.sub_0_le _ _)), app_nil_r. }
  destruct (Nat.le_gt_cases (k + 2) (length page)) as [H2|H1].
  - destruct (drop k page) as [|a [|b post]] eqn:E;
      [apply (f_equal length) in E; rewrite length_drop in E; cbn [length] in E; lia..|].
    exists (take k page), a, b, 0xFF, post. split; [by rewrite <- (take_drop k page) at 1; rewrite E|].
    split; [|by right]. rewrite <- drop_drop, E in Hff. change (drop 2 (a :: b :: post)) with post in Hff.
    apply Forall_erased in Hff. apply (f_equal length) in E. rewrite length_drop in E. rewrite E. cbn [length replicate app].
    by rewrite <- Hff.
  - assert (length page = S k) as Hk by lia. destruct k as [|k]; [lia|].
    destruct (drop k page) as [|a [|b [|]]] eqn:E;
      [apply (f_equal length) in E; rewrite length_drop in E; cbn [length] in E; lia..| |
       apply (f_equal length) in E; rewrite length_drop in E; cbn [length] in E; lia].
    exists (take k page), a, b, a, []. split; [by rewrite <- (take_drop k page) at 1; rewrite E|]. split; [|by left].
    rewrite Hk, (Nat.sub_succ_l _ _ (le_n _)), Nat.sub_diag.
    rewrite <- (take_drop k page) at 1. rewrite E, take_app_ge by (rewrite length_take; lia).
    rewrite length_take, (Nat.min_l k), Nat.sub_succ_l, Nat.sub_diag by lia. by rewrite <- app_assoc.
Qed.

Lemma slightly_torn_caught p : bytes (fst p) -> (2 <= length (fst p))%nat -> slightly_torn p -> ~ checksum_kept p.
Proof.
  destruct p as [page k]. unfold checksum_kept. cbn [fst snd]. intros Hb Hl Ht E. pose proof Ht as [Hne _].
  destruct (slightly_torn_shape page k Hl Ht) as (pre & a & b & a' & post & Hp & Hq & Ha').
  rewrite Hq, Hp in E. rewrite Hp in Hb. rewrite !Forall_app in Hb.
  destruct Hb as (B1 & B2 & B3). inversion B2 as [|? ? Ha B4]. inversion B4 as [|? ? Hbb _]. subst.
  apply (crc_detects_burst 0xFFFF) in E as [-> <-]; try done. by destruct Ha' as [->| ->].
Qed.

(** What a sector torn behind its header holds. *)
Lemma torn_image_pages c n : contents_wf c -> (SLOT_HEADER_LEN <= n)%nat ->
  torn_image c n = header c ++ torn_page (SlotContents.fuel c) (n - OFF_FUEL)
    ++ torn_page (SlotContents.ign c) (n - OFF_IGN) ++ torn_page (SlotContents.angles c) (n - OFF_ANGLES)
    ++ replicate (SECTOR - SLOT_USED_LEN) 0xFF.
Proof.
  intros Hc Hn. pose proof sector_fits. pose proof Hc as (_ & _ & Hf & _ & Hi & _ & Ha).
  rewrite torn_image_cases by done. unfold frame, torn_page. change OFF_FUEL with 24%nat. change OFF_IGN with 536%nat.
  change OFF_ANGLES with 1048%nat. change SLOT_HEADER_LEN with 24%nat in Hn. change SLOT_USED_LEN with 1116%nat in *.
  change LEN_FUEL with 512%nat in Hf. change LEN_IGN with 512%nat in Hi. change LEN_ANGLES with 68%nat in Ha.
  rewrite !take_app, Hf, Hi. change (length (header c)) with 24%nat. rewrite (take_ge (header c)) by (change (length (header c)) with 24%nat; lia).
  replace (n - 24 - 512)%nat with (n - 536)%nat by lia. replace (n - 536 - 512)%nat with (n - 1048)%nat by lia.
  rewrite Ha, <- !app_assoc. f_equal.
  destruct (Nat.le_gt_cases n 536) as [H1|H1]; [|destruct (Nat.le_gt_cases n 1048) as [H2|H2]].
  - rewrite (proj2 (Nat.sub_0_le n 536)), (proj2 (Nat.sub_0_le n 1048)), !take_0, !Nat.sub_0_r by lia. cbn [app].
    rewrite <- !replicate_add. do 2 f_equal. lia.
  - rewrite (proj2 (Nat.sub_0_le n 1048)), (proj2 (Nat.sub_0_le 512 (n - 24))), !take_0, !Nat.sub_0_r by lia.
    change (replicate 0 255) with (@nil Z). cbn [app]. rewrite <- !replicate_add. do 3 f_equal. lia.
  - rewrite (proj2 (Nat.sub_0_le 512 (n - 24))), (proj2 (Nat.sub_0_le 512 (n - 536))) by lia.
    change (replicate 0 255) with (@nil Z). cbn [app].
    rewrite <- !replicate_add. do 4 f_equal. lia.
Qed.

(** Behind its header, a torn sector passes exactly when all three pages kept their checksums. *)
Lemma classify_torn_pages c n : contents_wf c -> (SLOT_HEADER_LEN <= n)%nat ->
  classify_slot (torn_image c n) =
  if decide (Forall checksum_kept (torn_pages c n)) then SlotState.Valid (SlotContents.seq c) else SlotState.Corrupt.
Proof.
  intros Hc Hn. pose proof Hc as (_ & _ & Hf & _ & Hi & _ & Ha). rewrite torn_image_pages by done.
  rewrite classify_pages by (rewrite ?torn_page_length; done).
  unfold torn_pages, checksum_kept. destruct (decide (Forall _ _)) as [Hk|Hk].
  - rewrite !Forall_cons in Hk. cbn [fst snd] in Hk. destruct Hk as (-> & -> & -> & _). by rewrite !Z.eqb_refl.
  - rewrite !Forall_cons in Hk. cbn [fst snd] in Hk.
    destruct (Z.eqb_spec (page_crc (torn_page (SlotContents.fuel c) (n - OFF_FUEL))) (page_crc (SlotContents.fuel c))); [|done].
    destruct (Z.eqb_spec (page_crc (torn_page (SlotContents.ign c) (n - OFF_IGN))) (page_crc (SlotContents.ign c))); [|done].
    destruct (Z.eqb_spec (page_crc (torn_page (SlotContents.angles c) (n - OFF_ANGLES))) (page_crc (SlotContents.angles c))); [|done].
    by destruct Hk.
Qed.

(** The part of a used slot the programming did not reach is erased. *)
Lemma torn_image_erased c n a b : contents_wf c -> (n <= a <= b)%nat -> (b <= SECTOR)%nat ->
  slice a b (torn_image c n) = replicate (b - a) 0xFF.
Proof.
  intros Hc Ha Hb. pose proof sector_fits. pose proof (torn_length c n Hc) as Hl.
  rewrite torn_image_cases in * by done. unfold slice.
  assert (length (take n (frame c)) = Nat.min n SLOT_USED_LEN) as Ht by (by rewrite length_take, slot_frame_length).
  rewrite drop_app_ge, Ht, drop_replicate, take_replicate by lia. f_equal. lia.
Qed.

(** Before its header is complete it never passes: it is blank before the magic is, and
    after that its last length or the checksum of its erased last page gives it away. *)
Lemma classify_torn_header c n : contents_wf c -> (n < SLOT_HEADER_LEN)%nat ->
  classify_slot (torn_image c n) = if (4 <=? n)%nat then SlotState.Corrupt else SlotState.Blank.
Proof.
  intros Hc Hn. pose proof sector_fits. pose proof (torn_length c n Hc) as Hl.
  assert (forall i, (i < 24)%nat -> get_byte i (torn_image c n) = if (i <? n)%nat then get_byte i (frame c) else 0xFF) as Hb.
  { intros i Hi. apply torn_byte; [done|]. change SLOT_USED_LEN with 1116%nat. lia. }
  pose proof (header_fields c (SlotContents.fuel c ++ SlotContents.ign c ++ SlotContents.angles c) Hc) as (Hm & _).
  unfold classify_slot. rewrite Hl. destruct (Nat.ltb_spec SECTOR SLOT_USED_LEN); [lia|].
  destruct (Nat.leb_spec 4 n) as [H4|H4].
  - assert (rd_u32 (torn_image c n) OFF_MAGIC = MAGIC) as ->.
    { rewrite <- Hm. unfold rd_u32. rewrite !Hb by (unfold OFF_MAGIC; lia).
      destruct n as [|[|[|[|n]]]]; [lia..|reflexivity]. }
    assert (page_crc (slice OFF_ANGLES (OFF_ANGLES + LEN_ANGLES) (torn_image c n)) = 62008) as ->.
    { change (OFF_ANGLES + LEN_ANGLES)%nat with SLOT_USED_LEN. change OFF_ANGLES with 1048%nat.
      change SLOT_HEADER_LEN with 24%nat in Hn. change SLOT_USED_LEN with 1116%nat in *.
      rewrite torn_image_erased by (done || lia). vm_compute. reflexivity. }
    assert ((62008 =? rd_u16 (torn_image c n) OFF_ANGLES_CRC) = false) as ->.
    { unfold rd_u16, OFF_ANGLES_CRC. change SLOT_HEADER_LEN with 24%nat in Hn. rewrite !Hb by lia.
      rewrite (proj2 (Nat.ltb_ge (22 + 1) n)) by lia. apply Z.eqb_neq.
      change (get_byte 22 (frame c)) with (byte_of (page_crc (SlotContents.angles c)) 0).
      pose proof (byte_of_range (page_crc (SlotContents.angles c)) 0) as B. unfold byte in B. case_match; lia. }
    cbn [negb]. rewrite !orb_true_r. by repeat case_match.
  - unfold rd_u32. rewrite !Hb by (unfold OFF_MAGIC; lia).
    destruct n as [|[|[|[|n]]]]; [reflexivity..|lia].
Qed.

Lemma header_magic n : (SLOT_HEADER_LEN <= n)%nat -> (4 <=? n)%nat = true.
Proof. intros H. change SLOT_HEADER_LEN with 24%nat in H. apply Nat.leb_le. lia. Qed.

Lemma torn_pages_caught c n : contents_wf c -> Exists slightly_torn (torn_pages c n) ->
  ~ Forall checksum_kept (torn_pages c n).
Proof.
  intros (_ & Bf & Hf & Bi & Hi & Ba & Ha) Ht Hk. unfold torn_pages in *. rewrite !Forall_cons in Hk.
  change LEN_FUEL with 512%nat in Hf. change LEN_IGN with 512%nat in Hi. change LEN_ANGLES with 68%nat in Ha.
  destruct Hk as (K1 & K2 & K3 & _). rewrite !Exists_cons, Exists_nil in Ht. destruct Ht as [Ht|[Ht|[Ht|[]]]];
    (eapply slightly_torn_caught; [..|exact Ht|eassumption]; cbn [fst]; [done|lia]).
Qed.

(** Programmed completely, it passes. *)
Lemma classify_torn_full c n : contents_wf c -> (SLOT_USED_LEN <= n)%nat ->
  classify_slot (torn_image c n) = SlotState.Valid (SlotContents.seq c).
Proof.
  intros Hc Hn. rewrite torn_image_cases, take_ge by (done || rewrite slot_frame_length by done; lia).
  by apply classify_frame.
Qed.

(** ** The choice at boot *)
Definition slot_seq (s : SlotState.t) : option Z :=
  match s with SlotState.Valid seq => Some seq | _ => None end.
Definition is_corrupt (s : SlotState.t) : bool := match s with SlotState.Corrupt => true | _ => false end.

Lemma scan_cases a b : scan a b =
  match slot_seq (classify_slot a), slot_seq (classify_slot b) with
  | Some sa, Some sb => if sa <=? sb then BootScan.Valid 1 sb false else BootScan.Valid 0 sa false
  | Some sa, None => BootScan.Valid 0 sa (is_corrupt (classify_slot b))
  | None, Some sb => BootScan.Valid 1 sb (is_corrupt (classify_slot a))
  | None, None =>
    if is_corrupt (classify_slot a) || is_corrupt (classify_slot b) then BootScan.Corrupt else BootScan.Blank
  end.
Proof.
  unfold scan. destruct (classify_slot a) as [| |sa], (classify_slot b) as [| |sb]; try reflexivity.
  cbn. by destruct (sa <=? sb).
Qed.

(** A write to the stale sector: what boot selects, by what became of the sector. *)
Lemma boot_after_write f image slot seq sc : Flash.boot f = BootScan.Valid slot seq sc ->
  let f' := Flash.set_sector (1 - slot) image f in
  (slot = 0 \/ slot = 1)
  /\ Flash.sector slot f' = Flash.sector slot f /\ Flash.sector (1 - slot) f' = image
  /\ Flash.boot f' =
     match classify_slot image with
     | SlotState.Blank => BootScan.Valid slot seq false
     | SlotState.Corrupt => BootScan.Valid slot seq true
     | SlotState.Valid s =>
       if (seq <? s) || ((slot =? 0) && (seq =? s)) then BootScan.Valid (1 - slot) s false
       else BootScan.Valid slot seq false
     end.
Proof.
  destruct f as [a b]. unfold Flash.boot. cbn [Flash.slot_a Flash.slot_b]. rewrite scan_cases. intros H.
  assert ((slot = 0 /\ slot_seq (classify_slot a) = Some seq) \/ (slot = 1 /\ slot_seq (classify_slot b) = Some seq))
    as [[-> Hs]|[-> Hs]].
  { repeat case_match; try discriminate H; injection H as <- <- _; tauto. }
  - split; [by left|]. split; [done|]. split; [done|].
    change (Flash.slot_a _) with a. change (Flash.slot_b _) with image. rewrite scan_cases, Hs.
    destruct (classify_slot image) as [| |s]; cbn [slot_seq is_corrupt]; [done..|].
    change (1 - 0) with 1. change (0 =? 0) with true. cbn [andb].
    destruct (Z.leb_spec seq s), (Z.ltb_spec seq s), (Z.eqb_spec seq s); done || lia.
  - split; [by right|]. split; [done|]. split; [done|].
    change (Flash.slot_a _) with image. change (Flash.slot_b _) with b. rewrite scan_cases, Hs.
    destruct (classify_slot image) as [| |s]; cbn [slot_seq is_corrupt]; [done..|].
    change (1 - 1) with 0. change (1 =? 0) with false. cbn [andb]. rewrite orb_false_r.
    destruct (Z.leb_spec s seq), (Z.ltb_spec seq s); done || lia.
Qed.

Lemma contents_wf_seq c seq : contents_wf c -> u32 seq -> contents_wf (c <| SlotContents.seq := seq |>).
Proof. by intros (_ & H) Hs. Qed.

(** ** Properties *)

(** what is serialised reads back: a slot of sufficient size takes exactly the used
    length, leaves the bytes behind it alone, passes every check at boot under the sequence
    number it was given, and gives each page back through its key, whatever buffer of
    sufficient size it is read into. *)
Theorem serialize_slot_roundtrip c out buf : contents_wf c -> (SLOT_USED_LEN <= length out)%nat ->
  (LEN_FUEL <= length buf)%nat ->
  let '(slot, n) := serialize_slot c out in
  n = SLOT_USED_LEN /\ length slot = length out /\ drop n slot = drop n out
  /\ classify_slot slot = SlotState.Valid (SlotContents.seq c)
  /\ read_key slot KEY_FUEL buf = (SlotContents.fuel c ++ drop LEN_FUEL buf, Some LEN_FUEL)
  /\ read_key slot KEY_IGN buf = (SlotContents.ign c ++ drop LEN_IGN buf, Some LEN_IGN)
  /\ read_key slot KEY_ANGLES buf = (SlotContents.angles c ++ drop LEN_ANGLES buf, Some LEN_ANGLES).
Proof.
  intros Hc Hout Hbuf. rewrite (serialize_slot_frame c out Hc Hout). pose proof (slot_frame_length c Hc) as Hl.
  assert (length (frame c ++ drop SLOT_USED_LEN out) = length out) as Hlen.
  { rewrite length_app, length_drop, Hl. lia. }
  pose proof (frame_pages c (drop SLOT_USED_LEN out) Hc) as (Ef & Ei & Ea).
  split; [done|]. split; [done|]. split; [by rewrite <- Hl at 1; rewrite drop_app_length|].
  split; [by apply classify_frame|].
  pose proof Hc as (_ & _ & Hf & _ & Hi & _ & Ha). change LEN_FUEL with 512%nat in Hbuf.
  split; [|split].
  - by apply (read_key_hit _ _ OFF_FUEL); [lia|..].
  - by apply (read_key_hit _ _ OFF_IGN); [lia|..].
  - apply (read_key_hit _ _ OFF_ANGLES); [lia|done..|]. change LEN_ANGLES with 68%nat. lia.
Qed.


(** boot selects the newest intact slot: the answer is valid exactly when a slot passes
    every check, and then names one that does, of the highest sequence number (the second
    slot on a tie), and tells whether the other one was corrupt; otherwise it tells a blank
    store from a corrupt one; a write never targets the selected slot. *)
Theorem scan_selects_newest a b :
  match scan a b with
  | BootScan.Valid slot seq saw_corrupt =>
    (slot = 0 \/ slot = 1) /\ write_target (scan a b) = 1 - slot
    /\ classify_slot (Flash.sector slot (Flash.mk a b)) = SlotState.Valid seq
    /\ (saw_corrupt = true <-> classify_slot (Flash.sector (1 - slot) (Flash.mk a b)) = SlotState.Corrupt)
    /\ forall other, classify_slot (Flash.sector (1 - slot) (Flash.mk a b)) = SlotState.Valid other ->
       if slot =? 0 then other < seq else other <= seq
  | BootScan.Blank => classify_slot a = SlotState.Blank /\ classify_slot b = SlotState.Blank
  | BootScan.Corrupt =>
    slot_seq (classify_slot a) = None /\ slot_seq (classify_slot b) = None
    /\ (classify_slot a = SlotState.Corrupt \/ classify_slot b = SlotState.Corrupt)
  end.
Proof.
  rewrite scan_cases. unfold Flash.sector. cbn [Flash.slot_a Flash.slot_b].
  destruct (classify_slot a) as [| |sa] eqn:Ea, (classify_slot b) as [| |sb] eqn:Eb; cbn [slot_seq is_corrupt orb];
    try (destruct (Z.leb_spec sa sb)); cbn [write_target];
    change (1 - 0) with 1; change (1 - 1) with 0; change (1 =? 0) with false; change (0 =? 0) with true;
    cbv iota; rewrite ?Ea, ?Eb;
    repeat first [split | match goal with |- forall _, _ => intros ? end | progress simplify_eq];
    (tauto || lia || discriminate).
Qed.

(** The range of a slot that holds one page. *)
Definition in_page (i len : nat) : Prop :=
  (OFF_FUEL <= i /\ i + len <= OFF_IGN)%nat \/ (OFF_IGN <= i /\ i + len <= OFF_ANGLES)%nat
  \/ (OFF_ANGLES <= i /\ i + len <= SLOT_USED_LEN)%nat.

Lemma page_overwrite page i l r x y : length l = i -> bytes page -> byte x -> byte y ->
  forall j, (i <= j)%nat -> (j + 2 <= i + length page)%nat ->
  copy_at j [x; y] (l ++ page ++ r) <> l ++ page ++ r ->
  exists page', copy_at j [x; y] (l ++ page ++ r) = l ++ page' ++ r
    /\ length page' = length page /\ page_crc page' <> page_crc page.
Proof.
  intros Hl Hp Hx Hy j Hj1 Hj2 Hne. rewrite copy_at_inside in * by (cbn [length]; lia).
  exists (copy_at (j - length l) [x; y] page). split; [done|]. split; [apply copy_at_length; cbn [length]; lia|].
  destruct (crc_overwrite 0xFFFF page (j - length l) x y ltac:(done) Hp Hx Hy) as [E|E]; [lia| |done].
  by rewrite E in Hne.
Qed.

(** no change of two neighbouring bytes of a stored page goes unnoticed: if it changes
    the slot at all, boot finds the slot corrupt. *)
Theorem page_corruption_detected c rest i x y : contents_wf c -> byte x -> byte y -> in_page i 2 ->
  let slot := frame c ++ rest in
  copy_at i [x; y] slot <> slot -> classify_slot (copy_at i [x; y] slot) = SlotState.Corrupt.
Proof.
  intros Hc Hx Hy Hi slot. pose proof Hc as (_ & Bf & Hf & Bi & Hi' & Ba & Ha).
  subst slot. unfold frame. rewrite <- !app_assoc. unfold in_page in Hi.
  change OFF_FUEL with 24%nat in Hi. change OFF_IGN with 536%nat in Hi. change OFF_ANGLES with 1048%nat in Hi.
  change SLOT_USED_LEN with 1116%nat in Hi. change LEN_FUEL with 512%nat in Hf. change LEN_IGN with 512%nat in Hi'.
  change LEN_ANGLES with 68%nat in Ha.
  destruct Hi as [[H1 H2]|[[H1 H2]|[H1 H2]]]; intros Hne.
  - apply (page_overwrite _ 24) in Hne as (p & -> & Hp & E); [|reflexivity|done..|lia|lia].
    rewrite classify_pages by (done || by rewrite Hp). by apply Z.eqb_neq in E as ->.
  - rewrite (app_assoc (header c)) in *.
    apply (page_overwrite _ 536) in Hne as (p & -> & Hp & E); [|by rewrite length_app, Hf|done..|lia|lia].
    rewrite <- !app_assoc, classify_pages by (done || by rewrite Hp). apply Z.eqb_neq in E as ->. by rewrite andb_false_r.
  - rewrite (app_assoc (header c)), (app_assoc (_ ++ _)) in *.
    apply (page_overwrite _ 1048) in Hne as (p & -> & Hp & E); [|by rewrite !length_app, Hf, Hi'|done..|lia|lia].
    rewrite <- !app_assoc, classify_pages by (done || by rewrite Hp). apply Z.eqb_neq in E as ->. by rewrite andb_false_r.
Qed.

(** the sequence number's wrap-around loses a write: when the committed slot carries the
    largest number, a completed commit of any contents is stamped zero and boot keeps
    selecting the old slot. *)
Theorem sequence_wrap_discards_commit f c slot sc : contents_wf c ->
  Flash.boot f = BootScan.Valid slot u32_max sc ->
  let f' := commit c f in
  next_seq (Flash.boot f) = 0
  /\ classify_slot (Flash.sector (1 - slot) f') = SlotState.Valid 0
  /\ Flash.boot f' = BootScan.Valid slot u32_max false.
Proof.
  intros Hc Hb. unfold commit, interrupted_commit, write_truncated. rewrite Hb. cbn [write_target next_seq].
  change (wrapping_add 32 u32_max 1) with 0.
  assert (contents_wf (c <| SlotContents.seq := 0 |>)) as Hc' by (by apply contents_wf_seq).
  set (c' := c <| SlotContents.seq := 0 |>) in *.
  destruct (boot_after_write f (torn_image c' SLOT_USED_LEN) slot u32_max sc Hb) as (Hslot & _ & Hnew & Hboot).
  cbv zeta. rewrite Hboot, Hnew, (classify_torn_full c' _ Hc' (le_n _)). change (SlotContents.seq c') with 0.
  split; [done|]. split; [done|]. change (u32_max <? 0) with false. change (u32_max =? 0) with false. by rewrite andb_false_r.
Qed.

(** ** Examples *)
Definition sample_contents (tag : Z) (seq : Z) : SlotContents.t :=
  SlotContents.mk seq (replicate LEN_FUEL tag) (replicate LEN_IGN tag) (replicate LEN_ANGLES tag).

Lemma sample_contents_wf tag seq : byte tag -> u32 seq -> contents_wf (sample_contents tag seq).
Proof.
  intros Ht Hs. unfold contents_wf. cbn [SlotContents.seq SlotContents.fuel SlotContents.ign SlotContents.angles sample_contents].
  rewrite !length_replicate. split_and!; try done; by apply Forall_replicate.
Qed.

(** A device whose first sector was written under [seq] and whose second one is blank. *)
Definition sample_flash (seq : Z) : Flash.t :=
  write_truncated 0 (sample_contents 17 seq) SLOT_USED_LEN Flash.blank.

Lemma sample_flash_boot seq : u32 seq -> Flash.boot (sample_flash seq) = BootScan.Valid 0 seq false.
Proof.
  intros Hs. unfold Flash.boot. rewrite scan_cases.
  change (Flash.slot_a (sample_flash seq)) with (torn_image (sample_contents 17 seq) SLOT_USED_LEN).
  pose proof (sample_contents_wf 17 seq ltac:(done) Hs) as Hc.
  rewrite (classify_torn_full _ _ Hc (le_n _)).
  assert (classify_slot (Flash.slot_b (sample_flash seq)) = SlotState.Blank) as ->; [|reflexivity].
  by vm_compute.
Qed.

Lemma serialize_slot_roundtrip_witness :
  classify_slot (fst (serialize_slot (sample_contents 17 9) (replicate SECTOR 0xFF))) = SlotState.Valid 9
  /\ snd (read_key (fst (serialize_slot (sample_contents 17 9) (replicate SECTOR 0xFF))) KEY_ANGLES (replicate 512 0))
     = Some 68%nat.
Proof.
  pose proof (serialize_slot_roundtrip (sample_contents 17 9) (replicate SECTOR 0xFF) (replicate 512 0)
    ltac:(by apply sample_contents_wf) ltac:(rewrite length_replicate; exact sector_fits)
    ltac:(rewrite length_replicate; exact (le_n 512))) as H.
  destruct (serialize_slot _ _) as [slot n]. destruct H as (_ & _ & _ & H1 & _ & _ & H2).
  cbn [fst]. rewrite H2. exact (conj H1 eq_refl).
Defined.


Lemma page_corruption_detected_witness :
  classify_slot (copy_at 30 [17; 99] (frame (sample_contents 17 9) ++ [])) = SlotState.Corrupt.
Proof.
  apply (page_corruption_detected (sample_contents 17 9) [] 30 17 99); [by apply sample_contents_wf|done|done| |].
  - left. unfold OFF_FUEL, OFF_IGN, SLOT_HEADER_LEN, LEN_FUEL, FUEL_PAGE_LEN. cbn. lia.
  - intros E. apply (f_equal (get_byte 31)) in E. vm_compute in E. discriminate.
Defined.

Lemma sequence_wrap_discards_commit_witness :
  Flash.boot (commit (sample_contents 33 0) (sample_flash u32_max)) = BootScan.Valid 0 u32_max false.
Proof.
  pose proof (sequence_wrap_discards_commit (sample_flash u32_max) (sample_contents 33 0) 0 false
    ltac:(by apply sample_contents_wf) (sample_flash_boot u32_max ltac:(done))) as (_ & _ & H). exact H.
Defined.
