(* ===== verification/RamKv.v ===== *)
(** * RAM key/value stores (crates/calibration/src/kv.rs, boards/common/src/kv/ram.rs)

    The store interface with the laws a client may rely on, and its two RAM implementations:
    the one of a single page length and the one of the pages' own lengths. *)
From S2P Require Import Prelude Bytes KvStore.

Module KvError.
Inductive t := NotFound | NoSpace | Io | EngineRunning.
#[global] Instance eq_dec : EqDecision t.
Proof. solve_decision. Defined.
End KvError.

Definition PERSIST_KEY_FUEL : list Z := KEY_FUEL.
Definition PERSIST_KEY_IGN : list Z := KEY_IGN.
Definition PERSIST_KEY_ANGLES : list Z := KEY_ANGLES.
(** ["expert_trigger"] and ["cal_package"], in ASCII. *)
Definition PERSIST_KEY_EXPERT_TRIGGER : list Z :=
  [101; 120; 112; 101; 114; 116; 95; 116; 114; 105; 103; 103; 101; 114].
Definition PERSIST_KEY_CAL_PACKAGE : list Z := [99; 97; 108; 95; 112; 97; 99; 107; 97; 103; 101].
Definition PERSIST_KNOWN_KEYS : list (list Z) :=
  [PERSIST_KEY_FUEL; PERSIST_KEY_IGN; PERSIST_KEY_ANGLES; PERSIST_KEY_EXPERT_TRIGGER].

Definition EXPERT_TRIGGER_RECORD_LEN : nat := 48.
Definition EXPERT_TRIGGER_PAGE_LEN : nat := EXPERT_TRIGGER_RECORD_LEN.
Definition PACKAGE_WIRE_LEN : nat := 4 + 4 + 2 + 2 + 4 + 4 + 4 + 1 + 3 + EXPERT_TRIGGER_RECORD_LEN * 2.

(** [position]: the index of the first known key that matches. *)
Definition key_slot (key : list Z) : option nat :=
  fst <$> list_find (fun candidate => candidate = key) PERSIST_KNOWN_KEYS.

(** The store interface: a read leaves its buffer changed as it reports, and does not change
    the store; a write reports failure or takes effect. *)
Class KvStore (S : Type) := {
  kv_read : S -> list Z -> list Z -> list Z * Result nat KvError.t;
  kv_write : S -> list Z -> list Z -> S * Result unit KvError.t;
}.

(** What a client may rely on, given the page length of each key the store keeps. *)
Class KvLaws (S : Type) `{KvStore S} (page_len : list Z -> option nat) := {
  kv_write_stored : forall s key data, page_len key = Some (length data) ->
    exists s', kv_write s key data = (s', Ok tt)
    /\ (forall out, (length data <= length out)%nat ->
         kv_read s' key out = (data ++ drop (length data) out, Ok (length data)))
    /\ (forall out, (length out < length data)%nat -> kv_read s' key out = (out, Err KvError.Io))
    /\ (forall key' out, key' <> key -> kv_read s' key' out = kv_read s key' out);
  kv_write_refused : forall s key data, page_len key <> Some (length data) ->
    exists e, kv_write s key data = (s, Err e);
}.

(** What a store keeps under a key. *)
Definition kept {S} `{KvStore S} (kv : S) (key data : list Z) : Prop :=
  forall out, (length data <= length out)%nat -> kv_read kv key out = (data ++ drop (length data) out, Ok (length data)).

(** What any store promises of a single write, one that refuses keys or refuses to write while
    the engine runs included: it keeps the data and what it kept under other keys, or it reports
    an error and is as it was.  [room n] says that the store can take [n] more writes. *)
Class KvHonest (S : Type) `{KvStore S} (room : nat -> S -> Prop) := {
  kv_write_kept : forall n s key data s', room (Datatypes.S n) s -> bytes data -> kv_write s key data = (s', Ok tt) ->
    kept s' key data /\ (forall key' data', key' <> key -> kept s key' data' -> kept s' key' data') /\ room n s';
  kv_write_unchanged : forall s key data s' e, kv_write s key data = (s', Err e) -> s' = s;
}.

(** A store that obeys the laws has room for any number of writes. *)
#[export] Instance laws_honest {S page_len} `{KvLaws S page_len} : KvHonest S (fun _ _ => True).
Proof.
  split.
  - intros n s key data s' _ _ Hw. destruct (decide (page_len key = Some (length data))) as [Hk|Hk].
    + destruct (kv_write_stored s key data Hk) as (s1 & E & Hr & _ & Ho). rewrite Hw in E. injection E as <-.
      split; [done|]. split; [|done]. intros key' data' Hne Hkept out Hl. rewrite Ho by done. by apply Hkept.
    + destruct (kv_write_refused s key data Hk) as (e & E). by rewrite Hw in E.
  - intros s key data s' e Hw. destruct (decide (page_len key = Some (length data))) as [Hk|Hk].
    + destruct (kv_write_stored s key data Hk) as (s1 & E & _). by rewrite Hw in E.
    + destruct (kv_write_refused s key data Hk) as (e' & E). rewrite Hw in E. by injection E.
Qed.

(** A page read into a buffer. *)
Definition read_page (len : nat) (page : option (list Z)) (out : list Z) : list Z * Result nat KvError.t :=
  match page with
  | Some data =>
    if (length out <? len)%nat then (out, Err KvError.Io) else (copy_at 0 data out, Ok len)
  | None => (out, Err KvError.NotFound)
  end.

(** [RamKv<N>] *)
Module RamKv.
Record t := mk {
  fuel : option (list Z); ign : option (list Z); angles : option (list Z);
  expert_trigger : option (list Z); package : option (list Z) }.
#[global] Instance eta : Eta t :=
  fun s => mk (fuel s) (ign s) (angles s) (expert_trigger s) (package s).

Definition new : t := mk None None None None None.

Section Size.
Variable N : nat.

Definition read (s : t) (key out : list Z) : list Z * Result nat KvError.t :=
  if decide (key = PERSIST_KEY_CAL_PACKAGE) then read_page N (package s) out
  else
    let src := match key_slot key with
      | Some 0%nat => fuel s | Some 1%nat => ign s | Some 2%nat => angles s
      | Some 3%nat => expert_trigger s | _ => None end in
    read_page N src out.

Definition write (s : t) (key data : list Z) : t * Result unit KvError.t :=
  if negb (length data =? N)%nat then (s, Err KvError.Io)
  else
    let arr := data in
    if decide (key = PERSIST_KEY_CAL_PACKAGE) then (s <| package := Some arr |>, Ok tt)
    else
      match key_slot key with
      | Some 0%nat => (s <| fuel := Some arr |>, Ok tt)
      | Some 1%nat => (s <| ign := Some arr |>, Ok tt)
      | Some 2%nat => (s <| angles := Some arr |>, Ok tt)
      | Some 3%nat => (s <| expert_trigger := Some arr |>, Ok tt)
      | _ => (s, Err KvError.Io)
      end.
End Size.
End RamKv.

(** [RamKv512] *)
Module RamKv512.
Record t := mk {
  fuel : option (list Z); ign : option (list Z); angles : option (list Z);
  expert_trigger : option (list Z); cal_package : option (list Z) }.
#[global] Instance eta : Eta t :=
  fun s => mk (fuel s) (ign s) (angles s) (expert_trigger s) (cal_package s).

Definition new : t := mk None None None None None.

Definition read (s : t) (key out : list Z) : list Z * Result nat KvError.t :=
  if decide (key = PERSIST_KEY_CAL_PACKAGE) then read_page PACKAGE_WIRE_LEN (cal_package s) out
  else
    match key_slot key with
    | Some 0%nat => read_page FUEL_PAGE_LEN (fuel s) out
    | Some 1%nat => read_page IGN_PAGE_LEN (ign s) out
    | Some 2%nat => read_page ANGLES_PAGE_LEN (angles s) out
    | Some 3%nat => read_page EXPERT_TRIGGER_PAGE_LEN (expert_trigger s) out
    | _ => (out, Err KvError.NotFound)
    end.

(** A page stored if it has its length. *)
Definition store (len : nat) (data : list Z) (put : list Z -> t) (s : t) : t * Result unit KvError.t :=
  if negb (length data =? len)%nat then (s, Err KvError.Io) else (put data, Ok tt).

Definition write (s : t) (key data : list Z) : t * Result unit KvError.t :=
  if decide (key = PERSIST_KEY_CAL_PACKAGE) then
    store PACKAGE_WIRE_LEN data (fun arr => s <| cal_package := Some arr |>) s
  else
    match key_slot key with
    | Some 0%nat => store FUEL_PAGE_LEN data (fun arr => s <| fuel := Some arr |>) s
    | Some 1%nat => store IGN_PAGE_LEN data (fun arr => s <| ign := Some arr |>) s
    | Some 2%nat => store ANGLES_PAGE_LEN data (fun arr => s <| angles := Some arr |>) s
    | Some 3%nat => store EXPERT_TRIGGER_PAGE_LEN data (fun arr => s <| expert_trigger := Some arr |>) s
    | _ => (s, Err KvError.NotFound)
    end.
End RamKv512.

#[export] Instance ram_kv N : KvStore RamKv.t := {| kv_read := RamKv.read N; kv_write := RamKv.write N |}.
#[export] Instance ram_kv_512 : KvStore RamKv512.t := {| kv_read := RamKv512.read; kv_write := RamKv512.write |}.

(** ** Keys *)

(** A key is the package key, one of the four page keys, or unknown. *)
Inductive KeyCase : list Z -> Prop :=
  | key_package : KeyCase PERSIST_KEY_CAL_PACKAGE
  | key_fuel : KeyCase PERSIST_KEY_FUEL
  | key_ign : KeyCase PERSIST_KEY_IGN
  | key_angles : KeyCase PERSIST_KEY_ANGLES
  | key_expert : KeyCase PERSIST_KEY_EXPERT_TRIGGER
  | key_unknown key : key <> PERSIST_KEY_CAL_PACKAGE -> key_slot key = None -> KeyCase key.

Lemma key_case key : KeyCase key.
Proof.
  destruct (decide (key = PERSIST_KEY_CAL_PACKAGE)) as [->|H0]; [constructor|].
  destruct (decide (key = PERSIST_KEY_FUEL)) as [->|H1]; [constructor|].
  destruct (decide (key = PERSIST_KEY_IGN)) as [->|H2]; [constructor|].
  destruct (decide (key = PERSIST_KEY_ANGLES)) as [->|H3]; [constructor|].
  destruct (decide (key = PERSIST_KEY_EXPERT_TRIGGER)) as [->|H4]; [constructor|].
  apply key_unknown; [done|]. unfold key_slot.
  rewrite (proj2 (list_find_None _ _)); [done|]. unfold PERSIST_KNOWN_KEYS.
  repeat (apply Forall_cons_2; [congruence|]). apply Forall_nil_2.
Qed.

(** The page lengths of the two stores. *)
Definition ram_page_len (N : nat) (key : list Z) : option nat :=
  if decide (key = PERSIST_KEY_CAL_PACKAGE) then Some N
  else match key_slot key with Some _ => Some N | None => None end.

Definition ram512_page_len (key : list Z) : option nat :=
  if decide (key = PERSIST_KEY_CAL_PACKAGE) then Some PACKAGE_WIRE_LEN
  else match key_slot key with
    | Some 0%nat => Some FUEL_PAGE_LEN | Some 1%nat => Some IGN_PAGE_LEN
    | Some 2%nat => Some ANGLES_PAGE_LEN | Some 3%nat => Some EXPERT_TRIGGER_PAGE_LEN | _ => None
    end.

Lemma read_page_stored data out : (length data <= length out)%nat ->
  read_page (length data) (Some data) out = (data ++ drop (length data) out, Ok (length data)).
Proof. intros H. unfold read_page. by destruct (Nat.ltb_spec (length out) (length data)); [lia|]. Qed.

Lemma read_page_short data out : (length out < length data)%nat ->
  read_page (length data) (Some data) out = (out, Err KvError.Io).
Proof. intros H. unfold read_page. by destruct (Nat.ltb_spec (length out) (length data)); [|lia]. Qed.

(** Evaluate the selection of a page by a known key. *)
Ltac known_key K n :=
  change (key_slot K) with (Some n) in *;
  try (rewrite (@decide_False _ (K = PERSIST_KEY_CAL_PACKAGE)) in * by done).

(** Whether a read of one key sees a write under another. *)
Ltac other_key :=
  let key' := fresh "key" in let out := fresh "out" in let Hne := fresh "Hne" in
  intros key' out Hne; destruct (key_case key'); try done;
  try (cbn [kv_read ram_kv ram_kv_512]; unfold RamKv.read, RamKv512.read;
       match goal with H : key_slot _ = None |- _ => rewrite !decide_False by done; by rewrite H end).

Lemma store_ok put s data len : len = length data ->
  RamKv512.store len data put s = (put data, Ok tt).
Proof. intros ->. unfold RamKv512.store. by rewrite Nat.eqb_refl. Qed.

Lemma store_refused put s data len : len <> length data ->
  RamKv512.store len data put s = (s, Err KvError.Io).
Proof. intros H. unfold RamKv512.store. by destruct (Nat.eqb_spec (length data) len); [congruence|]. Qed.

(** ** Properties *)

(** the store of one page length is a store: a write under a known key of the right
    length is read back whole by every later read of that key with room for it, is refused a
    buffer too short for it, and disturbs no other key; every other write is refused and
    changes nothing. *)
Theorem ram_kv_is_store N : KvLaws RamKv.t (H := ram_kv N) (ram_page_len N).
Proof.
  split.
  - intros s key data Hlen.
    assert (length data = N) as HN.
    { unfold ram_page_len in Hlen. case_decide; [congruence|]. by case_match; simplify_eq. }
    destruct (key_case key) as [| | | | |key Hp Hk];
      [..|unfold ram_page_len in Hlen; rewrite decide_False in Hlen by done; by rewrite Hk in Hlen];
      clear Hlen; cbn [kv_write ram_kv]; unfold RamKv.write; rewrite HN, Nat.eqb_refl; cbn [negb];
      (eexists; split; [reflexivity|]); rewrite <- HN;
      (split; [intros out Hout; exact (read_page_stored data out Hout)|]);
      (split; [intros out Hout; exact (read_page_short data out Hout)|]).
    all: other_key.
  - intros s key data Hne. cbn [kv_write ram_kv]. unfold RamKv.write.
    destruct (Nat.eqb_spec (length data) N) as [E|E]; [|by eexists]. cbn [negb]. rewrite E in Hne.
    destruct (key_case key) as [| | | | |key Hp Hk]; try by destruct Hne.
    rewrite decide_False, Hk by done. by eexists.
Qed.

(** so is the store of the pages' own lengths. *)
Theorem ram_kv_512_is_store : KvLaws RamKv512.t (H := ram_kv_512) ram512_page_len.
Proof.
  split.
  - intros s key data Hlen.
    destruct (key_case key) as [| | | | |key Hp Hk];
      [..|unfold ram512_page_len in Hlen; rewrite decide_False in Hlen by done; by rewrite Hk in Hlen];
      injection Hlen as Hlen; (eexists; split; [etransitivity; [|eapply (store_ok _ s data _ Hlen)]; reflexivity|]);
      (split; [intros out Hout; etransitivity; [|exact (read_page_stored data out Hout)]; by rewrite <- Hlen|]);
      (split; [intros out Hout; etransitivity; [|exact (read_page_short data out Hout)]; by rewrite <- Hlen|]).
    all: other_key.
  - intros s key data Hne. cbn [kv_write ram_kv_512].
    destruct (key_case key) as [| | | | |key Hp Hk];
      [..|unfold RamKv512.write; rewrite decide_False, Hk by done; by eexists];
      eexists; (etransitivity; [|eapply store_refused; intros E; apply Hne; exact (f_equal Some E)]; reflexivity).
Qed.
