(* ===== verification/Serial.v ===== *)
(** * Serial framing (crates/ts/src/proto.rs, crates/ts/src/serial.rs)

    The checksummed request and reply frames of the tuning protocol and the assembler that
    finds frames in a byte stream, with the stream specification it refines: round trip,
    resynchronisation, progress of every poll and reassembly from arbitrary chunks. *)
From S2P Require Import Prelude Bytes.

Definition MAGIC : Z := 0x55AA.

Module Cmd.
Inductive t :=
  | Sig | Outpc | Ping | ReadPage | WritePage | Burn | PackageExport | PackageImport
  | OutputTest | ToothStats | ToothCompositeLog | VersionInfo | CompatibilityInfo | Reboot | PageCrcInfo.
#[global] Instance eq_dec : EqDecision t.
Proof. solve_decision. Defined.
(** [cmd as u8] *)
Definition code (c : t) : Z :=
  match c with
  | Sig => 0x10 | Outpc => 0x11 | Ping => 0x12 | ReadPage => 0x20 | WritePage => 0x21
  | Burn => 0x22 | PackageExport => 0x23 | PackageImport => 0x24 | OutputTest => 0x30
  | ToothStats => 0x31 | ToothCompositeLog => 0x32 | VersionInfo => 0x33
  | CompatibilityInfo => 0x34 | Reboot => 0x35 | PageCrcInfo => 0x36
  end.
(** The last match of [decode_request]. *)
Definition of_code (b : Z) : option t :=
  if b =? 0x10 then Some Sig else if b =? 0x11 then Some Outpc else if b =? 0x12 then Some Ping
  else if b =? 0x20 then Some ReadPage else if b =? 0x21 then Some WritePage
  else if b =? 0x22 then Some Burn else if b =? 0x23 then Some PackageExport
  else if b =? 0x24 then Some PackageImport else if b =? 0x30 then Some OutputTest
  else if b =? 0x31 then Some ToothStats else if b =? 0x32 then Some ToothCompositeLog
  else if b =? 0x33 then Some VersionInfo else if b =? 0x34 then Some CompatibilityInfo
  else if b =? 0x35 then Some Reboot else if b =? 0x36 then Some PageCrcInfo
  else None.
End Cmd.

(** [crc16_ccitt] of proto.rs, whose register starts at 0xffff. *)
Definition frame_crc (data : list Z) : Z := crc16_ccitt 0xffff data.

(** [(x & 0xff) as u8] and [(x >> 8) as u8] of a [u16]. *)
Definition lo8 (x : Z) : Z := as_unsigned 8 (Z.land x 0xff).
Definition hi8 (x : Z) : Z := as_unsigned 8 (Z.shiftr x 8).
(** [(buf[i + 1] as u16) << 8 | (buf[i] as u16)] *)
Definition word_at (i : nat) (buf : list Z) : Z :=
  Z.lor (Z.shiftl (get_byte (i + 1) buf) 8) (get_byte i buf).

(** The buffer after the call, and the length of the frame. *)
Definition encode_reply (cmd : Cmd.t) (payload out : list Z) : list Z * option nat :=
  let header_len := (2 + 2 + 1)%nat in
  let total := (header_len + length payload + 2)%nat in
  if (length out <? total)%nat then (out, None)
  else
    let out := <[0%nat := lo8 MAGIC]> out in
    let out := <[1%nat := hi8 MAGIC]> out in
    let len := as_unsigned 16 (1 + Z.of_nat (length payload) + 2) in
    let out := <[2%nat := lo8 len]> out in
    let out := <[3%nat := hi8 len]> out in
    let out := <[4%nat := Cmd.code cmd]> out in
    let out := if negb (length payload =? 0)%nat then copy_at 5 payload out else out in
    let crc := frame_crc (slice 4 (4 + 1 + length payload) out) in
    let off := (5 + length payload)%nat in
    let out := <[off := lo8 crc]> out in
    let out := <[(off + 1)%nat := hi8 crc]> out in
    (out, Some total).

Definition decode_request (buf : list Z) : option (Cmd.t * list Z) :=
  if (length buf <? 5)%nat then None
  else if negb (word_at 0 buf =? MAGIC) then None
  else
    let len := word_at 2 buf in
    if len <? 3 then None
    else
      let total := (4 + Z.to_nat len)%nat in
      if (length buf <? total)%nat then None
      else
        let cmd_b := get_byte 4 buf in
        let payload_len := (Z.to_nat len - 1 - 2)%nat in
        let payload := slice 5 (5 + payload_len) buf in
        let crc := word_at (5 + payload_len) buf in
        if negb (frame_crc (slice 4 (4 + 1 + payload_len) buf) =? crc) then None
        else match Cmd.of_code cmd_b with None => None | Some cmd => Some (cmd, payload) end.

Definition BUF_LEN : nat := 2048.

Module FrameAssembler.
Record t := mk { buf : list Z; len : nat }.
#[global] Instance eta : Eta t := fun a => mk (buf a) (len a).
Definition new : t := mk (replicate BUF_LEN 0) 0.

Definition feed (data : list Z) (a : t) : t :=
  let take_ := Nat.min (length data) (length (buf a) - len a) in
  if (0 <? take_)%nat then
    (a <| buf := copy_at (len a) (take take_ data) (buf a) |>) <| len ::= fun l => (l + take_)%nat |>
  else a.

(** One read of the port gives at most 128 bytes. *)
Definition poll_port (port_read : nat -> list Z) (a : t) : t :=
  let tmp := port_read 128%nat in
  if (0 <? length tmp)%nat then feed tmp a else a.

(** The loop [while i + 4 <= self.len], from index [i] on, for at most [fuel] turns. *)
Fixpoint find_magic (fuel i : nat) (a : t) : nat :=
  match fuel with
  | O => i
  | S fuel =>
    if (i + 4 <=? len a)%nat then
      if word_at i (buf a) =? MAGIC then i else find_magic fuel (i + 1) a
    else i
  end.

(** The loop [for j in 0..n { self.buf[j] = self.buf[k + j] }]. *)
Definition shift_left (n k : nat) (b : list Z) : list Z :=
  fold_left (fun b j => <[j := get_byte (k + j) b]> b) (seq 0 n) b.

(** Discard the first [k] bytes. *)
Definition drop_front (k : nat) (a : t) : t :=
  (a <| buf ::= shift_left (len a - k) k |>) <| len ::= fun l => (l - k)%nat |>.

(** The assembler and the output buffer after the call, and the length of the frame. *)
Definition try_pop (out : list Z) (a : t) : t * list Z * option nat :=
  let i := find_magic (S (len a)) 0 a in
  let a := if (0 <? i)%nat then drop_front i a else a in
  if (len a <? 4)%nat then (a, out, None)
  else
    let length_ := word_at 2 (buf a) in
    if (length_ <? 3) || (Z.of_nat (length (buf a) - 4) <? length_) then (drop_front 1 a, out, None)
    else
      let total := (4 + Z.to_nat length_)%nat in
      if (len a <? total)%nat then (a, out, None)
      else if (length out <? total)%nat then (drop_front 1 a, out, None)
      else
        let out := copy_at 0 (take total (buf a)) out in
        match decode_request (take total out) with
        | None => (drop_front 1 a, out, None)
        | Some _ => (drop_front total a, out, Some total)
        end.
End FrameAssembler.

(** ** The specification: a queue of bytes *)
Module Stream.
(** Bytes before the first magic are discarded, but for the last three, which may be the
    beginning of a frame. *)
Fixpoint resync (l : list Z) : list Z :=
  match l with
  | a :: (b :: _ :: _ :: _) as r =>
    if Z.lor (Z.shiftl b 8) a =? MAGIC then l else resync r
  | _ => l
  end.

(** The bytes left, and the frame taken from their front: a well-formed frame is taken
    whole, an unfinished one is waited for, anything else costs its first byte. *)
Definition pop (room : nat) (l : list Z) : list Z * option (list Z) :=
  let l := resync l in
  if (length l <? 4)%nat then (l, None)
  else
    let length_ := word_at 2 l in
    if (length_ <? 3) || (Z.of_nat (BUF_LEN - 4) <? length_) then (tail l, None)
    else
      let total := (4 + Z.to_nat length_)%nat in
      if (length l <? total)%nat then (l, None)
      else if (room <? total)%nat then (tail l, None)
      else
        match decode_request (take total l) with
        | None => (tail l, None)
        | Some _ => (drop total l, Some (take total l))
        end.

Definition feed (data l : list Z) : list Z := l ++ take (BUF_LEN - length l) data.
End Stream.

(** ** The assembler refines the queue of bytes *)
Import FrameAssembler.

Definition pending (a : t) : list Z := take (len a) (buf a).
Definition assembler_wf (a : t) : Prop := length (buf a) = BUF_LEN /\ (len a <= BUF_LEN)%nat.

#[local] Opaque BUF_LEN.

Lemma get_byte_lookup i l v : l !! i = Some v -> get_byte i l = v.
Proof. intros H. unfold get_byte. by rewrite nth_lookup, H. Qed.

Lemma get_byte_take_front i n l : (i < n)%nat -> get_byte i (take n l) = get_byte i l.
Proof. intros H. unfold get_byte. by rewrite !nth_lookup, lookup_take_lt by done. Qed.

Lemma get_byte_drop i k l : get_byte i (drop k l) = get_byte (k + i) l.
Proof. unfold get_byte. by rewrite !nth_lookup, lookup_drop. Qed.

Lemma word_at_take i n l : (i + 1 < n)%nat -> word_at i (take n l) = word_at i l.
Proof. intros H. unfold word_at. by rewrite !get_byte_take_front by lia. Qed.

Lemma word_at_drop i k l : word_at i (drop k l) = word_at (k + i) l.
Proof. unfold word_at. rewrite !get_byte_drop. do 3 f_equal. lia. Qed.

(** The in-place copy moves bytes forward only, so it reads none it has overwritten. *)
Lemma shift_left_lookup n k b i : (k + n <= length b)%nat ->
  shift_left n k b !! i = if (i <? n)%nat then b !! (k + i)%nat else b !! i.
Proof.
  unfold shift_left. revert i. induction n as [|n IH]; intros i Hn; [done|].
  rewrite seq_S, fold_left_app. cbn [fold_left Nat.add].
  set (b' := fold_left _ (seq 0 n) b) in *.
  assert (length b' = length b) as Hl.
  { subst b'. clear. generalize (seq 0 n) as js. intros js. revert b. induction js as [|j js IHj]; intros b; [done|].
    cbn. by rewrite IHj, length_insert. }
  assert (get_byte (k + n) b' = get_byte (k + n) b) as ->.
  { unfold get_byte. rewrite !nth_lookup, IH by lia. by destruct (Nat.ltb_spec (k + n) n); [lia|]. }
  destruct (decide (i = n)) as [->|Hne].
  - rewrite list_lookup_insert_eq by lia. destruct (Nat.ltb_spec n (S n)); [|lia].
    destruct (lookup_lt_is_Some_2 b (k + n)) as [v Hv]; [lia|]. by rewrite Hv, (get_byte_lookup _ _ _ Hv).
  - rewrite list_lookup_insert_ne, IH by lia.
    destruct (Nat.ltb_spec i n), (Nat.ltb_spec i (S n)); done || lia.
Qed.

Lemma shift_left_length n k b : length (shift_left n k b) = length b.
Proof.
  unfold shift_left. generalize (seq 0 n) as js. intros js. revert b.
  induction js as [|j js IH]; intros b; [done|]. cbn. by rewrite IH, length_insert.
Qed.

Lemma drop_front_ok k a : assembler_wf a -> (k <= len a)%nat ->
  assembler_wf (drop_front k a) /\ pending (drop_front k a) = drop k (pending a).
Proof.
  intros [Hb Hl] Hk. unfold drop_front, assembler_wf, pending. destruct a as [b n].
  cbv [modify_field eta_expand eta]. cbn [buf len] in *. rewrite shift_left_length. split; [split; [done|lia]|].
  apply list_eq. intros i. rewrite lookup_drop.
  destruct (Nat.lt_ge_cases i (n - k)).
  - rewrite !lookup_take_lt, shift_left_lookup by lia. by destruct (Nat.ltb_spec i (n - k)); [|lia].
  - by rewrite !lookup_take_ge by lia.
Qed.

Lemma pending_length a : assembler_wf a -> length (pending a) = len a.
Proof. intros [Hb Hl]. unfold pending. rewrite length_take, Hb. lia. Qed.

(** A list of four bytes and more, taken apart. *)
Lemma resync_long l : (4 <= length l)%nat ->
  Stream.resync l = if word_at 0 l =? MAGIC then l else Stream.resync (drop 1 l).
Proof. destruct l as [|a [|b [|c [|d l]]]]; cbn [length]; intros H; [lia..|reflexivity]. Qed.

Lemma resync_short l : (length l < 4)%nat -> Stream.resync l = l.
Proof. destruct l as [|a [|b [|c [|d l]]]]; cbn [length]; intros H; [reflexivity..|lia]. Qed.

(** The scan stops, at the place where the specification resynchronises. *)
Lemma find_magic_ok fuel i a : assembler_wf a -> (i <= len a)%nat -> (len a < fuel + i)%nat ->
  (find_magic fuel i a <= len a)%nat
  /\ drop (find_magic fuel i a) (pending a) = Stream.resync (drop i (pending a)).
Proof.
  intros Ha. pose proof (pending_length a Ha) as Hp. revert i.
  induction fuel as [|fuel IH]; intros i Hi Hf; [lia|]. cbn [find_magic].
  destruct (Nat.leb_spec (i + 4) (len a)).
  - rewrite resync_long by (rewrite length_drop; lia). rewrite word_at_drop, Nat.add_0_r.
    unfold pending at 2. rewrite word_at_take by lia. destruct (word_at i (buf a) =? MAGIC); [done|].
    rewrite drop_drop. apply IH; lia.
  - rewrite resync_short by (rewrite length_drop; lia). done.
Qed.

Lemma feed_refines data a : assembler_wf a ->
  assembler_wf (feed data a) /\ pending (feed data a) = Stream.feed data (pending a).
Proof.
  intros Ha. pose proof (pending_length a Ha) as Hp. destruct Ha as [Hb Hl]. unfold Stream.feed. rewrite Hp.
  unfold feed. destruct a as [b n]. cbn [buf len] in *. rewrite Hb.
  set (m := Nat.min (length data) (BUF_LEN - n)).
  assert (take (BUF_LEN - n) data = take m data) as ->.
  { subst m. destruct (Nat.le_gt_cases (length data) (BUF_LEN - n)).
    - by rewrite !take_ge by lia.
    - f_equal. lia. }
  destruct (Nat.ltb_spec 0 m) as [Hm|Hm].
  - cbv [modify_field eta_expand eta]. unfold assembler_wf, pending. cbn [buf len].
    assert (length (take m data) = m) as Ht by (rewrite length_take; lia).
    rewrite copy_at_length by lia. split; [lia|]. unfold copy_at.
    rewrite app_assoc, take_app_le by (rewrite length_app, length_take; lia).
    apply take_ge. rewrite length_app, length_take. lia.
  - assert (m = 0)%nat as -> by lia. rewrite take_0, app_nil_r. done.
Qed.

Lemma pop_step k a : assembler_wf a -> (k <= len a)%nat ->
  assembler_wf (drop_front k a) /\ pending (drop_front k a) = drop k (pending a)
  /\ len (drop_front k a) = (len a - k)%nat.
Proof. intros Ha Hk. destruct (drop_front_ok k a Ha Hk). done. Qed.

(** What a poll returns in [out'] and [r], against the frame of the specification. *)
Definition returns (out out' : list Z) (r : option nat) (f : option (list Z)) : Prop :=
  length out' = length out
  /\ match f with
     | None => r = None
     | Some frame => r = Some (length frame) /\ out' = frame ++ drop (length frame) out
     end.

Lemma try_pop_refines out a : assembler_wf a ->
  let '(a', out', r) := try_pop out a in
  let '(l', f) := Stream.pop (length out) (pending a) in
  assembler_wf a' /\ pending a' = l' /\ returns out out' r f.
Proof.
  intros Ha. unfold try_pop, Stream.pop.
  destruct (find_magic_ok (S (len a)) 0 a Ha ltac:(lia) ltac:(lia)) as [Hi Hr]. rewrite drop_0 in Hr.
  set (i := find_magic _ 0 a) in *. cbv zeta. rewrite <- Hr.
  assert (exists a1, (if (0 <? i)%nat then drop_front i a else a) = a1 /\ assembler_wf a1 /\ pending a1 = drop i (pending a))
    as (a1 & -> & Ha1 & Hp1).
  { destruct (Nat.ltb_spec 0 i).
    - exists (drop_front i a). split; [done|]. by apply drop_front_ok.
    - exists a. assert (i = 0)%nat as -> by lia. by rewrite drop_0. }
  rewrite <- Hp1. clear Hr Hp1 Hi. clearbody i. rewrite (pending_length a1 Ha1).
  destruct (Nat.ltb_spec (len a1) 4) as [|H4]; [done|].
  assert (word_at 2 (pending a1) = word_at 2 (buf a1)) as -> by (apply word_at_take; lia).
  pose proof (proj1 Ha1) as Hb. rewrite Hb. set (L := word_at 2 (buf a1)).
  assert (assembler_wf (drop_front 1 a1) /\ pending (drop_front 1 a1) = tail (pending a1)) as [Hd1 Hd2].
  { destruct (drop_front_ok 1 a1 Ha1) as [? ->]; [lia|]. split; [done|]. by destruct (pending a1). }
  destruct ((L <? 3) || (Z.of_nat (BUF_LEN - 4) <? L)); [done|].
  set (total := (4 + Z.to_nat L)%nat).
  destruct (Nat.ltb_spec (len a1) total) as [|Ht]; [done|].
  destruct (Nat.ltb_spec (length out) total) as [|Ho]; [done|].
  assert (take total (buf a1) = take total (pending a1)) as Et.
  { unfold pending. rewrite take_take. f_equal. lia. }
  assert (length (take total (pending a1)) = total) as Hlt.
  { rewrite length_take, pending_length by done. lia. }
  rewrite copy_at_0, Et. rewrite Hlt. rewrite take_app_le, (take_ge (take total _)) by lia.
  assert (length (take total (pending a1) ++ drop total out) = length out) as Hlo.
  { rewrite length_app, length_drop, Hlt. lia. }
  destruct (decode_request (take total (pending a1))) as [p|]; [|done].
  destruct (drop_front_ok total a1 Ha1 Ht) as [Hf1 Hf2]. split; [done|]. split; [done|].
  split; [done|]. by rewrite Hlt.
Qed.

(** ** Frames *)
Section Frame.
Variable cmd : Cmd.t.
Variable payload : list Z.

Definition frame_len : Z := 1 + Z.of_nat (length payload) + 2.
Definition frame_body : list Z := Cmd.code cmd :: payload.
Definition frame : list Z :=
  [lo8 MAGIC; hi8 MAGIC; lo8 (as_unsigned 16 frame_len); hi8 (as_unsigned 16 frame_len)]
  ++ frame_body ++ [lo8 (frame_crc frame_body); hi8 (frame_crc frame_body)].

Lemma serial_frame_length : length frame = (length payload + 7)%nat.
Proof. unfold frame, frame_body. rewrite !length_app. cbn [length]. lia. Qed.
End Frame.

Lemma encode_reply_frame cmd payload out : (length payload + 7 <= length out)%nat ->
  encode_reply cmd payload out
  = (frame cmd payload ++ drop (length payload + 7) out, Some (length payload + 7)%nat).
Proof.
  intros Hlen. unfold encode_reply. cbv zeta.
  destruct (Nat.ltb_spec (length out) (2 + 2 + 1 + length payload + 2)); [lia|].
  destruct out as [|o0 [|o1 [|o2 [|o3 [|o4 out]]]]]; cbn [length] in *; try lia.
  cbn [insert list_insert].
  assert (drop (length payload + 7) (o0 :: o1 :: o2 :: o3 :: o4 :: out) = drop 2 (drop (length payload) out)) as ->.
  { rewrite drop_drop. replace (length payload + 7)%nat with (S (S (S (S (S (length payload + 2)))))) by lia. done. }
  assert (forall h, length h = 5%nat ->
    (if negb (length payload =? 0)%nat then copy_at 5 payload (h ++ out) else h ++ out)
    = h ++ payload ++ drop (length payload) out) as Hcp.
  { intros h Hh. destruct (Nat.eqb_spec (length payload) 0) as [E|E]; cbn [negb].
    - apply nil_length_inv in E as ->. done.
    - unfold copy_at. rewrite take_app_le, take_ge by lia. do 2 f_equal.
      rewrite drop_app_ge by lia. f_equal. lia. }
  change (?a :: ?b :: ?c :: ?d :: ?e :: out) with ([a; b; c; d; e] ++ out).
  rewrite Hcp by done. clear Hcp.
  set (L := as_unsigned 16 _). set (h := [lo8 MAGIC; _; _; _; _]).
  assert (length (drop (length payload) out) = length out - length payload)%nat as Hr by apply length_drop.
  destruct (drop (length payload) out) as [|r0 [|r1 r]]; cbn [length] in Hr; [lia..|].
  assert (slice 4 (4 + 1 + length payload) (h ++ payload ++ r0 :: r1 :: r) = frame_body cmd payload) as ->.
  { apply (slice_app 4 _ [lo8 MAGIC; hi8 MAGIC; lo8 L; hi8 L] (frame_body cmd payload)); [done|].
    unfold frame_body. cbn [length]. lia. }
  set (crc := frame_crc _). rewrite !(app_assoc h).
  replace (5 + length payload)%nat with (length (h ++ payload) + 0)%nat by (rewrite length_app; cbn; lia).
  rewrite insert_app_r. cbn [insert list_insert]. rewrite <- Nat.add_assoc, insert_app_r.
  cbn [Nat.add insert list_insert drop]. unfold frame. rewrite <- !app_assoc.
  do 2 f_equal. lia.
Qed.

Lemma lo8_hi8 v : u16 v -> byte (lo8 v) /\ lo8 v + 2 ^ 8 * hi8 v = v.
Proof.
  unfold fits, byte, lo8, hi8, as_unsigned. change 0xff with (Z.ones 8). rewrite Z.land_ones, Z.shiftr_div_pow2 by lia.
  change (2 ^ 8) with 256. change (2 ^ 16) with 65536. intros Hv.
  rewrite Zmod_mod, (Z.mod_small (v / 256)) by (split; [apply Z.div_pos|apply Z.div_lt_upper_bound]; lia).
  pose proof (Z.mod_pos_bound v 256). pose proof (Z.div_mod v 256). lia.
Qed.

Lemma join_word v : u16 v -> Z.lor (Z.shiftl (hi8 v) 8) (lo8 v) = v.
Proof. intros Hv. destruct (lo8_hi8 v Hv) as [Hb Hj]. by rewrite join_bytes. Qed.

Lemma of_code_code c : Cmd.of_code (Cmd.code c) = Some c.
Proof. by destruct c. Qed.

Lemma code_byte c : byte (Cmd.code c).
Proof. by destruct c. Qed.

Definition payload_ok (payload : list Z) : Prop := bytes payload /\ Z.of_nat (length payload) <= 65532.

(** A frame with any body and any checksum behind it. *)
Definition raw_frame (body : list Z) (crc : Z) : list Z :=
  let len := as_unsigned 16 (Z.of_nat (length body) + 2) in
  [lo8 MAGIC; hi8 MAGIC; lo8 len; hi8 len] ++ body ++ [lo8 crc; hi8 crc].

Lemma frame_raw cmd payload :
  frame cmd payload = raw_frame (frame_body cmd payload) (frame_crc (frame_body cmd payload)).
Proof.
  unfold frame, raw_frame, frame_len, frame_body. cbn [length].
  by replace (Z.of_nat (S (length payload)) + 2) with (1 + Z.of_nat (length payload) + 2) by lia.
Qed.

(** The fields of such a frame, whatever follows it. *)
Lemma raw_fields b body crc rest : Z.of_nat (length body) <= 65532 -> u16 crc ->
  let buf := raw_frame (b :: body) crc ++ rest in
  word_at 0 buf = MAGIC /\ word_at 2 buf = Z.of_nat (length body) + 3
  /\ get_byte 4 buf = b
  /\ slice 5 (5 + length body) buf = body
  /\ slice 4 (4 + 1 + length body) buf = b :: body
  /\ word_at (5 + length body) buf = crc.
Proof.
  intros Hl Hcrc buf. subst buf. unfold raw_frame. cbn [length].
  replace (Z.of_nat (S (length body)) + 2) with (Z.of_nat (length body) + 3) by lia.
  assert (u16 (Z.of_nat (length body) + 3)) as HL by (unfold fits; lia).
  rewrite (as_unsigned_small 16) by done. rewrite <- !app_assoc.
  split; [reflexivity|]. split; [exact (join_word _ HL)|]. split; [reflexivity|].
  split; [|split].
  - apply (slice_app 5 _ [_; _; _; _; _] body); done.
  - apply (slice_app 4 _ [_; _; _; _] (b :: body)); [done|]. cbn [length]. lia.
  - unfold word_at.
    assert (forall h r, h ++ (b :: body) ++ r = (h ++ [b] ++ body) ++ r) as E.
    { intros h r. by rewrite <- !app_assoc. }
    rewrite E. rewrite <- (Nat.add_0_r (5 + length body)) at 2.
    rewrite !(get_byte_app_r (5 + length body)) by (rewrite !length_app; cbn [length]; lia).
    exact (join_word _ Hcrc).
Qed.

(** A frame decodes when its checksum matches and its command is known. *)
Lemma decode_raw b body crc rest : Z.of_nat (length body) <= 65532 -> u16 crc ->
  decode_request (raw_frame (b :: body) crc ++ rest)
  = if frame_crc (b :: body) =? crc then cmd ← Cmd.of_code b; Some (cmd, body) else None.
Proof.
  intros Hl Hcrc. destruct (raw_fields b body crc rest Hl Hcrc) as (E0 & E2 & E4 & E5 & E6 & E7).
  assert (length (raw_frame (b :: body) crc ++ rest) = length body + 7 + length rest)%nat as Hlen.
  { unfold raw_frame. rewrite !length_app. cbn [length]. lia. }
  unfold decode_request. rewrite Hlen. destruct (Nat.ltb_spec (length body + 7 + length rest) 5); [lia|].
  rewrite E0, E2. cbv zeta. rewrite Z.eqb_refl. cbn [negb].
  assert (Z.to_nat (Z.of_nat (length body) + 3) = length body + 3)%nat as -> by lia.
  destruct (Z.ltb_spec (Z.of_nat (length body) + 3) 3); [lia|].
  destruct (Nat.ltb_spec (length body + 7 + length rest) (4 + (length body + 3))); [lia|].
  replace (length body + 3 - 1 - 2)%nat with (length body) by lia.
  rewrite E4, E5, E6, E7. by destruct (frame_crc (b :: body) =? crc).
Qed.

Lemma frame_crc_u16 body : bytes body -> u16 (frame_crc body).
Proof. intros Hb. by apply (crc_fits 0xffff). Qed.

Lemma frame_body_bytes cmd payload : payload_ok payload -> bytes (frame_body cmd payload).
Proof. intros [Hb _]. apply Forall_cons_2; [apply code_byte|done]. Qed.

Lemma decode_frame cmd payload rest : payload_ok payload ->
  decode_request (frame cmd payload ++ rest) = Some (cmd, payload).
Proof.
  intros Hp. rewrite frame_raw. unfold frame_body at 1. rewrite decode_raw; [|apply Hp|by apply frame_crc_u16, frame_body_bytes].
  unfold frame_body. by rewrite Z.eqb_refl, of_code_code.
Qed.

(** ** Runs *)
Module Op.
(** A poll passes an output buffer. *)
Inductive t := Feed (data : list Z) | Pop (out : list Z).
End Op.

Fixpoint assembler_run (ops : list Op.t) (a : t) : t * list (option (list Z)) :=
  match ops with
  | [] => (a, [])
  | Op.Feed data :: ops => assembler_run ops (feed data a)
  | Op.Pop out :: ops =>
    let '(a, out, r) := try_pop out a in
    let '(a, rs) := assembler_run ops a in
    (a, (n ← r; Some (take n out)) :: rs)
  end.

Fixpoint stream_run (ops : list Op.t) (l : list Z) : list Z * list (option (list Z)) :=
  match ops with
  | [] => (l, [])
  | Op.Feed data :: ops => stream_run ops (Stream.feed data l)
  | Op.Pop out :: ops =>
    let '(l, f) := Stream.pop (length out) l in
    let '(l, fs) := stream_run ops l in
    (l, f :: fs)
  end.

Lemma new_wf : assembler_wf new /\ pending new = [].
Proof. split; [|done]. split; [apply length_replicate|cbn; lia]. Qed.

Lemma returns_frame out out' r f : returns out out' r f -> (n ← r; Some (take n out')) = f.
Proof. intros [_ Hr]. destruct f as [fr|]; [|by subst]. destruct Hr as [-> ->]. cbn. by rewrite take_app_length. Qed.

(** One poll, seen from the queue. *)
Lemma poll_cases out a : assembler_wf a ->
  exists a' out' r, try_pop out a = (a', out', r) /\ assembler_wf a'
    /\ pending a' = fst (Stream.pop (length out) (pending a))
    /\ returns out out' r (snd (Stream.pop (length out) (pending a))).
Proof.
  intros Ha. pose proof (try_pop_refines out a Ha) as H. destruct (try_pop out a) as [[a' out'] r].
  destruct (Stream.pop _ _) as [l' f]. exists a', out', r. destruct H as (H1 & H2 & H3). done.
Qed.

Lemma resync_suffix l : exists g, l = g ++ Stream.resync l.
Proof.
  induction l as [|a l IH]; [by exists []|]. destruct (Nat.le_gt_cases 4 (length (a :: l))) as [H|H].
  - rewrite resync_long by done. case_match; [by exists []|]. destruct IH as [g E]. exists (a :: g).
    exact (f_equal (cons a) E).
  - rewrite resync_short by done. by exists [].
Qed.

Lemma tail_shorter (s : list Z) : (length (tail s) < length s \/ length s = 0)%nat.
Proof. destruct s; cbn; lia. Qed.

(** What a poll of the queue does: take a frame, drop bytes, or wait for room that exists. *)
Lemma pop_progress room l : (length l <= BUF_LEN)%nat -> (4 <= BUF_LEN)%nat ->
  let '(l', f) := Stream.pop room l in
  match f with
  | Some frame => exists g, l = g ++ frame ++ l' /\ (7 <= length frame)%nat /\ decode_request frame <> None
  | None => (length l' < length l)%nat \/ (l' = l /\ (length l < BUF_LEN)%nat)
  end.
Proof.
  intros Hl HB. unfold Stream.pop. destruct (resync_suffix l) as [g E]. generalize dependent (Stream.resync l). intros s E.
  assert (length l = length g + length s)%nat as Hlen by (by rewrite E, length_app).
  assert (g = [] \/ (length s < length l)%nat) as Hg.
  { destruct g; [by left|right]. cbn in Hlen. lia. }
  assert (length (tail s) < length s \/ length s = 0)%nat as Ht by apply tail_shorter.
  cbv zeta. destruct (Nat.ltb_spec (length s) 4).
  { destruct Hg as [->|]; [right|by left]. cbn in E. subst s. split; [done|lia]. }
  destruct ((word_at 2 s <? 3) || (Z.of_nat (BUF_LEN - 4) <? word_at 2 s)) eqn:EL; [left; lia|].
  apply orb_false_iff in EL as [EL1 EL2]. apply Z.ltb_ge in EL1, EL2.
  destruct (Nat.ltb_spec (length s) (4 + Z.to_nat (word_at 2 s))).
  { destruct Hg as [->|]; [right|by left]. cbn in E. subst s. split; [done|lia]. }
  destruct (Nat.ltb_spec room (4 + Z.to_nat (word_at 2 s))); [left; lia|].
  destruct (decode_request _) as [p|] eqn:ED; [|left; lia].
  exists g. rewrite take_drop. split; [done|]. split; [rewrite length_take; lia|congruence].
Qed.

(** The assembler after [n] polls with an output buffer of the same size. *)
Definition polls (n : nat) (out : list Z) (a : t) : t := Nat.iter n (fun a => fst (fst (try_pop out a))) a.

(** A poll that finds no frame and leaves everything as it was. *)
Definition idle (out : list Z) (a : t) : Prop :=
  exists a' out', try_pop out a = (a', out', None) /\ pending a' = pending a.

Lemma feeds_refine chunks a : assembler_wf a ->
  assembler_wf (fold_left (fun a c => feed c a) chunks a)
  /\ pending (fold_left (fun a c => feed c a) chunks a) = fold_left (fun l c => Stream.feed c l) chunks (pending a).
Proof.
  revert a. induction chunks as [|c chunks IH]; intros a Ha; [done|]. cbn [fold_left].
  destruct (feed_refines c a Ha) as [Hf <-]. by apply IH.
Qed.

Lemma stream_feeds chunks l : (length l + length (concat chunks) <= BUF_LEN)%nat ->
  fold_left (fun l c => Stream.feed c l) chunks l = l ++ concat chunks.
Proof.
  revert l. induction chunks as [|c chunks IH]; intros l Hl; cbn [fold_left concat] in *; [by rewrite app_nil_r|].
  rewrite length_app in Hl. unfold Stream.feed at 2. rewrite take_ge by lia.
  rewrite IH by (rewrite length_app; lia). by rewrite app_assoc.
Qed.

(** A byte other than the magic's first does not begin a frame. *)
Lemma resync_noise noise l : Forall (fun b => byte b /\ b <> 0xAA) noise -> (4 <= length l)%nat ->
  byte (get_byte 0 l) -> Stream.resync (noise ++ l) = Stream.resync l.
Proof.
  intros Hn Hl Hb. induction Hn as [|b noise [Hbb Hbne] Hn IH]; [done|].
  rewrite resync_long by (cbn [length app]; rewrite length_app; lia).
  assert (byte (get_byte 0 (noise ++ l))) as Hnext.
  { destruct Hn as [|b' noise' [Hb' _]]; [done|exact Hb']. }
  assert (word_at 0 ((b :: noise) ++ l) = b + 2 ^ 8 * get_byte 0 (noise ++ l)) as -> by (by apply join_bytes).
  destruct (Z.eqb_spec (b + 2 ^ 8 * get_byte 0 (noise ++ l)) MAGIC) as [E|_]; [|exact IH].
  exfalso. apply Hbne. change (2 ^ 8) with 256 in E. unfold byte, MAGIC in *. lia.
Qed.

Lemma pop_noise noise cmd payload rest room : Forall (fun b => byte b /\ b <> 0xAA) noise -> payload_ok payload ->
  (length (noise ++ frame cmd payload ++ rest) <= BUF_LEN)%nat -> (length payload + 7 <= room)%nat ->
  Stream.pop room (noise ++ frame cmd payload ++ rest) = (rest, Some (frame cmd payload)).
Proof.
  intros Hn Hp Hl Hr. pose proof (serial_frame_length cmd payload) as Hlf.
  assert (word_at 0 (frame cmd payload ++ rest) = MAGIC /\ word_at 2 (frame cmd payload ++ rest) = Z.of_nat (length payload) + 3) as [E0 E2].
  { rewrite frame_raw. destruct (raw_fields (Cmd.code cmd) payload (frame_crc (frame_body cmd payload)) rest) as (H0 & H2 & _);
      [apply Hp|by apply frame_crc_u16, frame_body_bytes|]. by split. }
  unfold Stream.pop. rewrite !length_app, Hlf in Hl.
  rewrite resync_noise by (done || by (rewrite length_app; lia)).
  rewrite resync_long, E0, Z.eqb_refl by (rewrite length_app; lia). cbv zeta. rewrite E2, length_app, Hlf.
  destruct (Nat.ltb_spec (length payload + 7 + length rest) 4); [lia|].
  destruct (Z.ltb_spec (Z.of_nat (length payload) + 3) 3); [lia|].
  destruct (Z.ltb_spec (Z.of_nat (BUF_LEN - 4)) (Z.of_nat (length payload) + 3)); [lia|]. cbn [orb].
  replace (4 + Z.to_nat (Z.of_nat (length payload) + 3))%nat with (length (frame cmd payload)) by lia.
  destruct (Nat.ltb_spec (length payload + 7 + length rest) (length (frame cmd payload))); [lia|].
  destruct (Nat.ltb_spec room (length (frame cmd payload))); [lia|].
  rewrite take_app_length, drop_app_length. rewrite <- (app_nil_r (frame cmd payload)) at 1. by rewrite decode_frame.
Qed.

(** ** Properties *)

(** C34: the assembler refines a queue of bytes: for every sequence of received chunks and
    polls, with output buffers of any size, it returns the frames that the specification
    takes from the queue and holds the bytes the specification has left. *)
Theorem assembler_refines_stream ops :
  let '(a, rs) := assembler_run ops new in
  let '(l, fs) := stream_run ops [] in
  assembler_wf a /\ pending a = l /\ rs = fs.
Proof.
  assert (forall ops a, assembler_wf a ->
    let '(a', rs) := assembler_run ops a in
    let '(l, fs) := stream_run ops (pending a) in assembler_wf a' /\ pending a' = l /\ rs = fs) as H.
  { clear ops. induction ops as [|[data|out] ops IH]; intros a Ha; cbn [assembler_run stream_run]; [done|..].
    - destruct (feed_refines data a Ha) as [Hf <-]. by apply IH.
    - destruct (poll_cases out a Ha) as (a' & out' & r & -> & Ha' & Hp & Hr). specialize (IH a' Ha').
      destruct (Stream.pop (length out) (pending a)) as [l' f]. cbn [fst snd] in *. rewrite Hp in IH.
      destruct (assembler_run ops a') as [a2 rs], (stream_run ops l') as [l2 fs].
      destruct IH as (? & ? & ->). split; [done|]. split; [done|]. by rewrite (returns_frame _ _ _ _ Hr). }
  destruct new_wf as [Hwf Hp]. rewrite <- Hp. by apply H.
Qed.

(** every request and reply round-trips: a frame is written at the front of any buffer
    with room for it, the rest of which is left alone, and decodes to the command and the
    payload it was made from whatever follows it; a buffer without room is refused. *)
Theorem encode_decode_frame cmd payload out : payload_ok payload ->
  let total := (length payload + 7)%nat in
  if (length out <? total)%nat then encode_reply cmd payload out = (out, None)
  else
    exists out', encode_reply cmd payload out = (out', Some total)
    /\ length out' = length out /\ drop total out' = drop total out
    /\ decode_request out' = Some (cmd, payload) /\ decode_request (take total out') = Some (cmd, payload).
Proof.
  intros Hp total. subst total. pose proof (serial_frame_length cmd payload) as Hl.
  destruct (Nat.ltb_spec (length out) (length payload + 7)).
  - unfold encode_reply. by destruct (Nat.ltb_spec (length out) (2 + 2 + 1 + length payload + 2)); [|lia].
  - eexists. split; [by apply encode_reply_frame|]. rewrite length_app, length_drop, Hl.
    split; [lia|]. split; [by rewrite drop_app_ge, Hl, Nat.sub_diag, drop_0 by lia|].
    split; [by apply decode_frame|]. rewrite take_app_ge, Hl, Nat.sub_diag, take_0 by lia. by apply decode_frame.
Qed.

(** C40: polling terminates and never wedges: every poll takes a whole well-formed frame from
    the bytes received, or discards bytes, or finds nothing and changes nothing, and then
    the buffer has room for more; so the assembler is idle after at most as many polls as it
    holds bytes. *)
Theorem polling_terminates out a : assembler_wf a ->
  (let '(a', out', r) := try_pop out a in
   match r with
   | Some n => (7 <= n)%nat /\ (len a' + n <= len a)%nat /\ decode_request (take n out') <> None
   | None => (len a' < len a)%nat \/ idle out a /\ (len a < BUF_LEN)%nat
   end)
  /\ exists k, (k <= len a)%nat /\ idle out (polls k out a).
Proof.
  assert (4 <= BUF_LEN)%nat as HB by (apply Nat.leb_le; vm_compute; reflexivity).
  assert (forall a, assembler_wf a -> let '(a', out', r) := try_pop out a in assembler_wf a' /\
    match r with
    | Some n => (7 <= n)%nat /\ (len a' + n <= len a)%nat /\ decode_request (take n out') <> None
    | None => (len a' < len a)%nat \/ idle out a /\ (len a < BUF_LEN)%nat
    end) as Hstep.
  { clear a. intros a Ha. pose proof (pending_length a Ha) as Hpl.
    destruct (poll_cases out a Ha) as (a' & out' & r & Htp & Ha' & Hp & Hr). rewrite Htp. split; [done|].
    pose proof (pending_length a' Ha') as Hpl'.
    pose proof (pop_progress (length out) (pending a) ltac:(destruct Ha; lia) HB) as Hprog.
    destruct (Stream.pop (length out) (pending a)) as [l' f]. cbn [fst snd] in *. subst l'.
    destruct Hr as [_ Hr]. destruct f as [fr|].
    - destruct Hr as [-> ->]. destruct Hprog as (g & Hg & H7 & Hd). rewrite take_app_length.
      apply (f_equal length) in Hg. rewrite !length_app in Hg. split; [done|]. split; [lia|done].
    - subst r. destruct Hprog as [Hlt|[Heq Hlt]]; [left; lia|right]. split; [|lia].
      exists a', out'. done. }
  intros Ha. split.
  - specialize (Hstep a Ha). destruct (try_pop out a) as [[a' out'] r]. by destruct Hstep.
  - remember (len a) as n eqn:En. revert a Ha En. induction n as [n IH] using lt_wf_ind. intros a Ha ->.
    pose proof (Hstep a Ha) as Hs. destruct (try_pop out a) as [[a' out'] r] eqn:E. destruct Hs as [Ha' Hs].
    assert (idle out a \/ (len a' < len a)%nat) as [Hi|Hlt].
    { destruct r as [m|]; [right; lia|]. destruct Hs as [|[]]; tauto. }
    + exists 0%nat. split; [lia|done].
    + destruct (IH (len a') Hlt a' Ha' eq_refl) as (k & Hk & Hidle). exists (S k). split; [lia|].
      unfold polls. rewrite Nat.iter_succ_r, E. exact Hidle.
Qed.

(** a frame is delivered however it arrives: cut into any chunks, after any line noise
    that does not contain the first magic byte, and followed by anything, as long as it all
    fits the buffer, one poll with room for it returns it whole and leaves what follows. *)
Theorem chunked_frame_delivered noise cmd payload rest chunks out :
  Forall (fun b => byte b /\ b <> 0xAA) noise -> payload_ok payload ->
  concat chunks = noise ++ frame cmd payload ++ rest -> (length (concat chunks) <= BUF_LEN)%nat ->
  (length payload + 7 <= length out)%nat ->
  exists a', try_pop out (fold_left (fun a c => feed c a) chunks new)
      = (a', frame cmd payload ++ drop (length payload + 7) out, Some (length payload + 7)%nat)
    /\ pending a' = rest.
Proof.
  intros Hn Hp Hc Hl Ho.
  assert (4 <= BUF_LEN)%nat as HB by (apply Nat.leb_le; vm_compute; reflexivity).
  destruct (feeds_refine chunks new (proj1 new_wf)) as [Ha Hpa].
  rewrite (proj2 new_wf), stream_feeds in Hpa by (cbn [length]; lia). cbn [app] in Hpa. rewrite Hc in Hpa.
  set (a := fold_left _ chunks new) in *.
  destruct (poll_cases out a Ha) as (a' & out' & r & Htp & _ & Hp' & Hr). rewrite Htp.
  rewrite Hc in Hl. rewrite Hpa, pop_noise in Hp', Hr by done. cbn [fst snd] in *. destruct Hr as [_ [-> ->]].
  rewrite serial_frame_length. by exists a'.
Qed.

(** a frame in which two neighbouring bytes of the command or the payload were changed
    is never taken for a request. *)
Theorem corrupt_frame_rejected cmd payload rest i x y : payload_ok payload -> byte x -> byte y ->
  (4 <= i)%nat -> (i + 2 <= 5 + length payload)%nat ->
  copy_at i [x; y] (frame cmd payload) <> frame cmd payload ->
  decode_request (copy_at i [x; y] (frame cmd payload) ++ rest) = None.
Proof.
  intros Hp Hx Hy H1 H2. pose proof (frame_body_bytes cmd payload Hp) as Hb. rewrite frame_raw. unfold raw_frame.
  set (body := frame_body cmd payload) in *. cbv zeta. set (h := [_; _; _; _]).
  assert (length body = S (length payload)) as Hlb by reflexivity.
  rewrite (copy_at_inside i [x; y] h body) by (change (length h) with 4%nat; cbn [length]; lia). change (length h) with 4%nat. intros Hne.
  destruct (crc_overwrite 0xffff body (i - 4) x y ltac:(done) Hb Hx Hy) as [E|E]; [lia|by rewrite E in Hne|].
  assert (length (copy_at (i - 4) [x; y] body) = length body) as Hl by (apply copy_at_length; cbn [length]; lia).
  destruct (copy_at (i - 4) [x; y] body) as [|b body']; [by rewrite Hlb in Hl|].
  assert (h ++ (b :: body') ++ [lo8 (frame_crc body); hi8 (frame_crc body)] = raw_frame (b :: body') (frame_crc body)) as ->.
  { unfold raw_frame. rewrite Hl. reflexivity. }
  rewrite decode_raw; [|destruct Hp; cbn [length] in Hl; lia|by apply frame_crc_u16].
  by destruct (Z.eqb_spec (frame_crc (b :: body')) (frame_crc body)).
Qed.

(** ** Examples *)

(** A polled assembler that was fed in two parts, after noise. *)
Definition sample_payload : list Z := [98; 97; 100].
Definition sample_frame : list Z := frame Cmd.Ping sample_payload.

Example sample_frame_bytes : sample_frame = [0xAA; 0x55; 6; 0; 0x12; 98; 97; 100] ++ drop 8 sample_frame.
Proof. reflexivity. Qed.

Lemma sample_payload_ok : payload_ok sample_payload.
Proof. split; [|done]. by repeat (apply Forall_cons_2; [done|]). Qed.

Lemma encode_decode_frame_witness :
  exists out', encode_reply Cmd.Ping sample_payload (replicate 12 0) = (out', Some 10%nat)
  /\ decode_request out' = Some (Cmd.Ping, sample_payload).
Proof.
  destruct (encode_decode_frame Cmd.Ping sample_payload (replicate 12 0) sample_payload_ok)
    as (out' & H1 & _ & _ & H2 & _).
  exists out'. exact (conj H1 H2).
Defined.

Lemma polling_terminates_witness : exists k, (k <= 0)%nat /\ idle (replicate 16 0) (polls k (replicate 16 0) new).
Proof. exact (proj2 (polling_terminates (replicate 16 0) new (proj1 new_wf))). Defined.

Lemma chunked_frame_delivered_witness :
  exists a', try_pop (replicate 64 0) (feed (drop 5 sample_frame ++ [1]) (feed ([7; 7] ++ take 5 sample_frame) new))
    = (a', sample_frame ++ drop 10 (replicate 64 0), Some 10%nat) /\ pending a' = [1].
Proof.
  refine (chunked_frame_delivered [7; 7] Cmd.Ping sample_payload [1]
    [[7; 7] ++ take 5 sample_frame; drop 5 sample_frame ++ [1]] (replicate 64 0) _ sample_payload_ok _ _ _).
  - by repeat (apply Forall_cons_2; [done|]).
  - reflexivity.
  - apply Nat.leb_le. vm_compute. reflexivity.
  - apply Nat.leb_le. reflexivity.
Defined.

Lemma corrupt_frame_rejected_witness :
  decode_request (copy_at 5 [98; 98] sample_frame ++ []) = None.
Proof.
  apply (corrupt_frame_rejected Cmd.Ping sample_payload [] 5 98 98); [exact sample_payload_ok|done|done|lia| |].
  - cbn. lia.
  - intros E. apply (f_equal (get_byte 6)) in E. vm_compute in E. discriminate.
Defined.
