(* ===== verification/Control.v ===== *)
(** * Control strategies (crates/control)

    Cranking gate, deceleration fuel cut, enrichment state machines, base fuel table,
    ignition and dwell planning, lambda trim and torque arbitration.  An unchecked operation
    of the source whose result may leave its type is an [option]: [None] is the overflow (or
    the failed assertion of [clamp]) that a checked build stops at. *)
From S2P Require Import Prelude.

(** ** Cranking (cranking.rs) *)
Definition CRANKING_RPM_THRESHOLD : Z := 500.
Definition CRANKING_EXIT_RPM : Z := 600.

Module CrankingGate.
Record t := mk { cranking : bool }.
#[global] Instance eta : Eta t := fun g => mk (cranking g).
Definition new : t := mk false.
Definition update (rpm : Z) (g : t) : t * bool :=
  let g :=
    if cranking g then
      if CRANKING_EXIT_RPM <=? rpm then g <| cranking := false |> else g
    else if rpm <? CRANKING_RPM_THRESHOLD then g <| cranking := true |> else g in
  (g, cranking g).
Definition is_cranking (g : t) : bool := cranking g.
End CrankingGate.

(** ** Deceleration fuel cut (decel.rs) *)
Module DfcoConfig.
Record t := mk {
  tps_max_pct : Z; map_max_kpa : Z; rpm_min : Z; rpm_max : Z; delay_ms : Z; resume_hyst_ms : Z }.
Definition DEFAULT : t := mk 2 30 1500 7000 200 300.
End DfcoConfig.

Module DecelFuelCutState.
Record t := mk { active : bool; enter_ts : Z; last_change_ts : Z; armed : bool }.
#[global] Instance eta : Eta t := fun s => mk (active s) (enter_ts s) (last_change_ts s) (armed s).
Definition new : t := mk false 0 0 false.

Definition allow (rpm tps_pct map_kpa : Z) (cfg : DfcoConfig.t) : bool :=
  (tps_pct <=? DfcoConfig.tps_max_pct cfg) && (map_kpa <=? DfcoConfig.map_max_kpa cfg)
  && (DfcoConfig.rpm_min cfg <=? rpm) && (rpm <=? DfcoConfig.rpm_max cfg).

Definition update (now_us rpm tps_pct map_kpa : Z) (cfg : DfcoConfig.t) (s : t) : option (t * bool) :=
  s ←
    if allow rpm tps_pct map_kpa cfg then
      if negb (active s) then
        let s := if negb (armed s) then s <| enter_ts := now_us |> <| armed := true |> else s in
        delay_us ← chk 32 (DfcoConfig.delay_ms cfg * 1000);
        Some (if delay_us <=? wrapping_sub 32 now_us (enter_ts s)
              then s <| active := true |> <| last_change_ts := now_us |> else s)
      else Some s
    else if active s then
      hyst_us ← chk 32 (DfcoConfig.resume_hyst_ms cfg * 1000);
      Some (if hyst_us <=? wrapping_sub 32 now_us (last_change_ts s)
            then s <| active := false |> <| enter_ts := 0 |> <| armed := false |> <| last_change_ts := now_us |>
            else s)
    else Some (s <| enter_ts := 0 |> <| armed := false |>);
  Some (s, active s).
End DecelFuelCutState.

(** ** Enrichment (enrichment.rs) *)
Module FuelWarmupTemperatureMode.
Inductive t := Inactive | ColdClamp | Interpolating | HotClamp | NeutralFallback.
#[global] Instance eq_dec : EqDecision t.
Proof. solve_decision. Defined.
End FuelWarmupTemperatureMode.

Module StartupConfig.
Record t := mk { percent_x100 : Z; taper_time_ms : Z }.
Definition DEFAULT : t := mk 150 3000.
End StartupConfig.

Module WarmupConfig.
Record t := mk { start_c : Z; end_c : Z; max_percent_x100 : Z; min_percent_x100 : Z }.
Definition DEFAULT : t := mk (-20) 60 140 100.

Definition compute_percent_x100 (clt_c : Z) (c : t) : option Z :=
  let min := Z.min (min_percent_x100 c) (max_percent_x100 c) in
  let max := Z.max (min_percent_x100 c) (max_percent_x100 c) in
  if end_c c <=? start_c c then v ← ord_clamp 100 min max; Some (as_unsigned 16 v)
  else if clt_c <=? start_c c then v ← ord_clamp (max_percent_x100 c) min max; Some (as_unsigned 16 v)
  else if end_c c <=? clt_c then v ← ord_clamp (min_percent_x100 c) min max; Some (as_unsigned 16 v)
  else
    span ← chk_i 16 (end_c c - start_c c);
    pos ← chk_i 16 (clt_c - start_c c);
    let configured_max := max_percent_x100 c in
    let configured_min := min_percent_x100 c in
    d ← chk_i 32 (configured_max - configured_min);
    m ← chk_i 32 (d * pos);
    value ← chk_i 32 (configured_max - Z.quot m span);
    v ← ord_clamp value min max; Some (as_unsigned 16 v).

Definition temperature_mode (clt_c : Z) (c : t) : FuelWarmupTemperatureMode.t :=
  if end_c c <=? start_c c then FuelWarmupTemperatureMode.NeutralFallback
  else if clt_c <=? start_c c then FuelWarmupTemperatureMode.ColdClamp
  else if end_c c <=? clt_c then FuelWarmupTemperatureMode.HotClamp
  else FuelWarmupTemperatureMode.Interpolating.
End WarmupConfig.

Module AfterStartConfig.
Record t := mk { percent_x100 : Z; taper_time_ms : Z; lockout_ms : Z }.
Definition DEFAULT : t := mk 120 5000 2000.
End AfterStartConfig.

Module AccelerationConfig.
Record t := mk {
  tpsdot_thresh_pct_s : Z; mapdot_thresh_kpa_s : Z; percent_x100 : Z; decay_time_ms : Z; lockout_ms : Z }.
Definition DEFAULT : t := mk 150 80 115 400 150.
End AccelerationConfig.

Module EnrichmentInputs.
Record t := mk {
  now_us : Z; clt_c : Z; cranking : bool; just_started : bool; tpsdot_pct_s : Z; mapdot_kpa_s : Z }.
End EnrichmentInputs.

Module EnrichmentResult.
Record t := mk { startup_x100 : Z; warmup_x100 : Z; after_start_x100 : Z; acceleration_x100 : Z }.
Definition new := mk.

Definition total_x100 (r : t) : option Z :=
  let total := startup_x100 r in
  m ← chk 32 (total * warmup_x100 r); let total := m / 100 in
  m ← chk 32 (total * after_start_x100 r); let total := m / 100 in
  m ← chk 32 (total * acceleration_x100 r); let total := m / 100 in
  Some (as_unsigned 16 total).

Definition apply_to (base : Z) (r : t) : option Z :=
  total ← total_x100 r;
  m ← chk 32 (base * total);
  let scaled := m / 100 in
  Some (if u16_max <? scaled then u16_max else as_unsigned 16 scaled).
End EnrichmentResult.

Module StartupState.
Record t := mk { active : bool; start_us : Z }.
#[global] Instance eta : Eta t := fun s => mk (active s) (start_us s).
Definition new : t := mk false 0.

Definition update (now_us : Z) (cranking : bool) (cfg : StartupConfig.t) (s : t) : option (t * Z) :=
  if cranking then
    Some (s <| active := true |> <| start_us := now_us |>, StartupConfig.percent_x100 cfg)
  else if negb (active s) then Some (s, 100)
  else
    let elapsed := wrapping_sub 32 now_us (start_us s) in
    let taper_us := saturating_mul 32 (StartupConfig.taper_time_ms cfg) 1000 in
    if taper_us <=? elapsed then Some (s <| active := false |>, 100)
    else
      let remain := taper_us - elapsed in
      let extra := saturating_sub (StartupConfig.percent_x100 cfg) 100 in
      m ← chk 32 (extra * remain);
      pct ← chk 32 (100 + m / Z.max taper_us 1);
      Some (s, as_unsigned 16 pct).

Definition remaining_ms (now_us : Z) (cfg : StartupConfig.t) (s : t) : Z :=
  if negb (active s) then 0
  else
    let taper_us := saturating_mul 32 (StartupConfig.taper_time_ms cfg) 1000 in
    let elapsed := wrapping_sub 32 now_us (start_us s) in
    if taper_us <=? elapsed then 0
    else
      let remain_ms := (taper_us - elapsed) / 1000 in
      as_unsigned 16 (Z.min remain_ms u16_max).
End StartupState.

Module AfterStartState.
Record t := mk { active : bool; start_us : Z; last_trigger_us : Z }.
#[global] Instance eta : Eta t := fun s => mk (active s) (start_us s) (last_trigger_us s).
Definition new : t := mk false 0 0.

Definition trigger (now_us : Z) (just_started : bool) (cfg : AfterStartConfig.t) (s : t) : t :=
  if just_started then
    let since := wrapping_sub 32 now_us (last_trigger_us s) in
    if (last_trigger_us s =? 0) || (saturating_mul 32 (AfterStartConfig.lockout_ms cfg) 1000 <=? since)
    then s <| active := true |> <| start_us := now_us |> <| last_trigger_us := now_us |>
    else s
  else s.

Definition update (now_us : Z) (just_started : bool) (cfg : AfterStartConfig.t) (s : t) : option (t * Z) :=
  let s := trigger now_us just_started cfg s in
  if negb (active s) then Some (s, 100)
  else
    let elapsed := wrapping_sub 32 now_us (start_us s) in
    let dur := saturating_mul 32 (AfterStartConfig.taper_time_ms cfg) 1000 in
    if dur <=? elapsed then Some (s <| active := false |>, 100)
    else
      let remain := dur - elapsed in
      let extra := saturating_sub (AfterStartConfig.percent_x100 cfg) 100 in
      m ← chk 32 (extra * remain);
      pct ← chk 32 (100 + m / Z.max dur 1);
      Some (s, as_unsigned 16 pct).

Definition remaining_ms (now_us : Z) (cfg : AfterStartConfig.t) (s : t) : Z :=
  if negb (active s) then 0
  else
    let dur_us := saturating_mul 32 (AfterStartConfig.taper_time_ms cfg) 1000 in
    let elapsed := wrapping_sub 32 now_us (start_us s) in
    if dur_us <=? elapsed then 0
    else
      let remain_ms := (dur_us - elapsed) / 1000 in
      as_unsigned 16 (Z.min remain_ms u16_max).
End AfterStartState.

Module AccelerationState.
Record t := mk { active : bool; current_percent_x100 : Z; last_trigger_us : Z }.
#[global] Instance eta : Eta t := fun s => mk (active s) (current_percent_x100 s) (last_trigger_us s).
Definition new : t := mk false 100 0.

Definition update (now_us tpsdot_pct_s mapdot_kpa_s : Z) (cfg : AccelerationConfig.t) (s : t) : t * Z :=
  let since := wrapping_sub 32 now_us (last_trigger_us s) in
  let lockout_us := saturating_mul 32 (AccelerationConfig.lockout_ms cfg) 1000 in
  let first_time := (last_trigger_us s =? 0) && negb (active s) in
  if ((AccelerationConfig.tpsdot_thresh_pct_s cfg <=? tpsdot_pct_s)
      || (AccelerationConfig.mapdot_thresh_kpa_s cfg <=? mapdot_kpa_s))
     && (first_time || (lockout_us <=? since))
  then
    let s := s <| active := true |> <| current_percent_x100 := AccelerationConfig.percent_x100 cfg |>
      <| last_trigger_us := now_us |> in
    (s, current_percent_x100 s)
  else
    let s :=
      if active s then
        let decay_us := saturating_mul 32 (AccelerationConfig.decay_time_ms cfg) 1000 in
        let elapsed := wrapping_sub 32 now_us (last_trigger_us s) in
        if decay_us <=? elapsed then s <| current_percent_x100 := 100 |> <| active := false |>
        else
          let remain := decay_us - elapsed in
          let extra := saturating_sub (AccelerationConfig.percent_x100 cfg) 100 in
          let pct := 100 + (extra * remain) / Z.max decay_us 1 in
          s <| current_percent_x100 := as_unsigned 16 pct |>
      else s in
    (s, current_percent_x100 s).
End AccelerationState.

Module EnrichmentController.
Record t := mk {
  startup : StartupState.t; after_start : AfterStartState.t; acceleration : AccelerationState.t }.
#[global] Instance eta : Eta t := fun c => mk (startup c) (after_start c) (acceleration c).
Definition new : t := mk StartupState.new AfterStartState.new AccelerationState.new.

Definition update (inputs : EnrichmentInputs.t) (startup_cfg : StartupConfig.t) (warmup_cfg : WarmupConfig.t)
    (after_start_cfg : AfterStartConfig.t) (acceleration_cfg : AccelerationConfig.t) (c : t) :
    option (t * EnrichmentResult.t) :=
  let now_us := EnrichmentInputs.now_us inputs in
  '(s, startup_x100) ← StartupState.update now_us (EnrichmentInputs.cranking inputs) startup_cfg (startup c);
  warmup_x100 ← WarmupConfig.compute_percent_x100 (EnrichmentInputs.clt_c inputs) warmup_cfg;
  '(a, after_start_x100) ←
    AfterStartState.update now_us (EnrichmentInputs.just_started inputs) after_start_cfg (after_start c);
  let '(x, acceleration_x100) :=
    AccelerationState.update now_us (EnrichmentInputs.tpsdot_pct_s inputs)
      (EnrichmentInputs.mapdot_kpa_s inputs) acceleration_cfg (acceleration c) in
  Some (mk s a x, EnrichmentResult.new startup_x100 warmup_x100 after_start_x100 acceleration_x100).
End EnrichmentController.

(** ** Base fuel (fuel.rs) *)

(** The loop [while idx < 15 { if value < bins[idx + 1] { return idx } idx += 1 }], for at
    most [fuel] turns. *)
Fixpoint nearest_index_loop (fuel idx : nat) (bins : list Z) (value : Z) : nat :=
  match fuel with
  | O => 15
  | S fuel =>
    if (idx <? 15)%nat then
      if value <? nth (idx + 1) bins 0 then idx else nearest_index_loop fuel (idx + 1) bins value
    else 15
  end.
Definition nearest_index_rpm (bins : list Z) (value : Z) : nat := nearest_index_loop 16 0 bins value.
Definition nearest_index_kpa10 (bins : list Z) (value : Z) : nat := nearest_index_loop 16 0 bins value.

Module BaseFuelModel.
(** Arrays of sixteen bins, and sixteen rows of sixteen pulse widths. *)
Record t := mk { rpm_bins : list Z; load_bins : list Z; pulse_widths : list (list Z) }.
Definition new := mk.
Definition default : t := mk (replicate 16 0) (replicate 16 0) (replicate 16 (replicate 16 0)).
Definition calculate_base_fuel (rpm load : Z) (m : t) : option Z :=
  let rpm_idx := nearest_index_rpm (rpm_bins m) rpm in
  let load_idx := nearest_index_kpa10 (load_bins m) load in
  row ← pulse_widths m !! load_idx;
  row !! rpm_idx.
End BaseFuelModel.

(** ** Ignition (ignition.rs) *)
Module IgnitionLimitReason.
Inductive t := None_ | Knock | Torque | RevLimiter.
#[global] Instance eq_dec : EqDecision t.
Proof. solve_decision. Defined.
End IgnitionLimitReason.

Module IgnitionInputs.
Record t := mk {
  base_advance_deg10 : Z; timing_correction_deg10 : Z; knock_retard_deg10 : Z;
  torque_retard_deg10 : Z; rev_limit_active : bool; rpm : Z }.
End IgnitionInputs.

Module DwellConfig.
Record t := mk {
  base_dwell_us : Z; min_dwell_us : Z; max_dwell_us : Z; rpm_dwell_trim_us : Z;
  rpm_trim_start : Z; rpm_trim_end : Z }.
Definition DEFAULT : t := mk 2500 1500 3500 500 2000 7000.

Definition compute_dwell_us (rpm : Z) (c : t) : option Z :=
  if rpm <=? rpm_trim_start c then Some (max_dwell_us c)
  else if rpm_trim_end c <=? rpm then Some (min_dwell_us c)
  else
    span ← chk 16 (rpm_trim_end c - rpm_trim_start c);
    pos ← chk 16 (rpm - rpm_trim_start c);
    m ← chk 32 (rpm_dwell_trim_us c * pos);
    let trim := m / Z.max span 1 in
    let dwell := saturating_sub (base_dwell_us c) (as_unsigned 16 trim) in
    ord_clamp dwell (min_dwell_us c) (max_dwell_us c).
End DwellConfig.

Module IgnitionPlan.
Record t := mk { advance_deg10 : Z; dwell_us : Z; limit_reason : IgnitionLimitReason.t }.
Definition new := mk.
End IgnitionPlan.

Module IgnitionPlanner.
Import IgnitionInputs.
(** The sums of [i16]s in [i32] do not overflow. *)
Definition plan (inputs : IgnitionInputs.t) (dwell_cfg : DwellConfig.t) : option IgnitionPlan.t :=
  let advance := base_advance_deg10 inputs + timing_correction_deg10 inputs - knock_retard_deg10 inputs in
  let limit_reason :=
    if 0 <? knock_retard_deg10 inputs then IgnitionLimitReason.Knock else IgnitionLimitReason.None_ in
  let '(advance, limit_reason) :=
    if 0 <? torque_retard_deg10 inputs
    then (advance - torque_retard_deg10 inputs, IgnitionLimitReason.Torque)
    else (advance, limit_reason) in
  let '(advance, limit_reason) :=
    if rev_limit_active inputs then (advance - 80, IgnitionLimitReason.RevLimiter)
    else (advance, limit_reason) in
  let advance := as_signed 16 (clamp advance (-200) 600) in
  dwell ← DwellConfig.compute_dwell_us (rpm inputs) dwell_cfg;
  Some (IgnitionPlan.new advance dwell limit_reason).
End IgnitionPlanner.

(** ** Lambda (lambda.rs) *)
Module LambdaMode.
Inductive t := OpenLoop | ClosedLoop.
#[global] Instance eq_dec : EqDecision t.
Proof. solve_decision. Defined.
End LambdaMode.

Module LambdaDisableReason.
Inductive t :=
  | None_ | RequestedOpenLoop | SensorInvalid | WarmupGate | LowLoadGate | StartupDelay
  | AccelerationEnrichment | PowerReductionCut.
#[global] Instance eq_dec : EqDecision t.
Proof. solve_decision. Defined.
End LambdaDisableReason.

Module LambdaTrimConfig.
Record t := mk {
  open_loop_target : Z; closed_loop_target : Z; enable_clt_c : Z; disable_clt_c : Z;
  enable_load_kpa10 : Z; disable_load_kpa10 : Z; startup_delay_us : Z;
  min_trim_x100 : Z; max_trim_x100 : Z; gain_x10 : Z }.
Definition DEFAULT : t := mk 100 100 40 30 300 250 0 85 115 4.
End LambdaTrimConfig.

Module LambdaTrimInputs.
Record t := mk {
  now_us : Z; clt_c : Z; just_started : bool; lambda_valid : bool; measured_lambda100 : Z;
  requested_open_loop : bool }.
End LambdaTrimInputs.

Module LambdaTrimResult.
Record t := mk {
  mode : LambdaMode.t; active : bool; target_lambda100 : Z; measured_lambda100 : Z;
  trim_x100 : Z; disable_reason : LambdaDisableReason.t }.
Definition new := mk.
Definition identity (target measured : Z) : t :=
  new LambdaMode.OpenLoop false target measured 100 LambdaDisableReason.None_.
End LambdaTrimResult.

Module LambdaTrimPlanner.
Import LambdaTrimConfig.
Record t := mk { last_mode : LambdaMode.t; last_trim_x100 : Z; startup_delay_until_us : option Z }.
#[global] Instance eta : Eta t := fun p => mk (last_mode p) (last_trim_x100 p) (startup_delay_until_us p).
Definition new : t := mk LambdaMode.OpenLoop 100 None.

Definition arm_startup_delay (inputs : LambdaTrimInputs.t) (cfg : LambdaTrimConfig.t) (p : t) : t :=
  if LambdaTrimInputs.just_started inputs then
    p <| startup_delay_until_us :=
      Some (saturating_add 32 (LambdaTrimInputs.now_us inputs) (startup_delay_us cfg)) |>
  else p.

Definition disabled_by (inputs : LambdaTrimInputs.t) (cfg : LambdaTrimConfig.t) (load_kpa10 : Z) (p : t) :
    LambdaDisableReason.t :=
  let startup_delay_active :=
    match startup_delay_until_us p with
    | Some until_us => LambdaTrimInputs.now_us inputs <? until_us
    | None => false
    end in
  let closed := bool_decide (last_mode p = LambdaMode.ClosedLoop) in
  let warmup_gate_active :=
    if closed then LambdaTrimInputs.clt_c inputs <? disable_clt_c cfg
    else LambdaTrimInputs.clt_c inputs <? enable_clt_c cfg in
  let low_load_gate_active :=
    if closed then load_kpa10 <? disable_load_kpa10 cfg else load_kpa10 <? enable_load_kpa10 cfg in
  if LambdaTrimInputs.requested_open_loop inputs then LambdaDisableReason.RequestedOpenLoop
  else if negb (LambdaTrimInputs.lambda_valid inputs) then LambdaDisableReason.SensorInvalid
  else if startup_delay_active then LambdaDisableReason.StartupDelay
  else if warmup_gate_active then LambdaDisableReason.WarmupGate
  else if low_load_gate_active then LambdaDisableReason.LowLoadGate
  else LambdaDisableReason.None_.

Definition update (inputs : LambdaTrimInputs.t) (cfg : LambdaTrimConfig.t) (load_kpa10 : Z)
    (acceleration_enrichment_freeze power_reduction_cut : bool) (p : t) : option (t * LambdaTrimResult.t) :=
  let p := arm_startup_delay inputs cfg p in
  let disable_reason := disabled_by inputs cfg load_kpa10 p in
  let measured100 := LambdaTrimInputs.measured_lambda100 inputs in
  if bool_decide (disable_reason <> LambdaDisableReason.None_) then
    let p := p <| last_mode := LambdaMode.OpenLoop |> <| last_trim_x100 := 100 |> in
    Some (p, LambdaTrimResult.new LambdaMode.OpenLoop false (open_loop_target cfg) measured100 100 disable_reason)
  else
    let target := as_signed 16 (closed_loop_target cfg) in
    let measured := as_signed 16 measured100 in
    error ← chk_i 16 (target - measured);
    m ← chk_i 16 (error * gain_x10 cfg);
    trim ← chk_i 16 (100 + Z.quot m 10);
    trim ← ord_clamp trim (min_trim_x100 cfg) (max_trim_x100 cfg);
    if power_reduction_cut then
      let p := p <| last_mode := LambdaMode.ClosedLoop |> in
      Some (p, LambdaTrimResult.new LambdaMode.ClosedLoop false (closed_loop_target cfg) measured100
        (last_trim_x100 p) LambdaDisableReason.PowerReductionCut)
    else if acceleration_enrichment_freeze then
      let p := p <| last_mode := LambdaMode.ClosedLoop |> in
      Some (p, LambdaTrimResult.new LambdaMode.ClosedLoop false (closed_loop_target cfg) measured100
        (last_trim_x100 p) LambdaDisableReason.AccelerationEnrichment)
    else
      let p := p <| last_mode := LambdaMode.ClosedLoop |> <| last_trim_x100 := trim |> in
      Some (p, LambdaTrimResult.new LambdaMode.ClosedLoop true (closed_loop_target cfg) measured100
        trim LambdaDisableReason.None_).
End LambdaTrimPlanner.

(** ** Torque (torque.rs) *)
Module TorqueLimitReason.
Inductive t := None_ | Idle | Driver | RevLimiter | Knock | LimpMode.
#[global] Instance eq_dec : EqDecision t.
Proof. solve_decision. Defined.
End TorqueLimitReason.

Module TorqueInputs.
Record t := mk {
  driver_request_x100 : Z; driver_request_x1000 : option Z; idle_request_x100 : Z;
  rev_limit_x100 : Z; knock_limit_x100 : Z; limp_limit_x100 : Z }.
#[global] Instance eta : Eta t := fun i =>
  mk (driver_request_x100 i) (driver_request_x1000 i) (idle_request_x100 i) (rev_limit_x100 i)
    (knock_limit_x100 i) (limp_limit_x100 i).
Definition new (driver idle rev knock limp : Z) : t := mk driver None idle rev knock limp.
Definition with_driver_request_x1000 (x : Z) (i : t) : t := i <| driver_request_x1000 := Some x |>.
End TorqueInputs.

Module AllowedTorque.
Record t := mk {
  requested_x100 : Z; requested_x1000 : Z; allowed_x100 : Z; allowed_x1000 : Z;
  reason : TorqueLimitReason.t }.
Definition new := mk.
End AllowedTorque.

Module TorqueArbiter.
Import TorqueInputs.

(** The locals of the loop over the caps. *)
Definition limited : Type := Z * Z * TorqueLimitReason.t.

Definition apply_cap (s : limited) (cap : Z * Z * TorqueLimitReason.t) : limited :=
  let '(allowed_x100, allowed_x1000, reason) := s in
  let '(cap_x100, cap_x1000, cap_reason) := cap in
  let '(allowed_x100, reason) :=
    if cap_x100 <? allowed_x100 then (cap_x100, cap_reason) else (allowed_x100, reason) in
  let allowed_x1000 := if cap_x1000 <? allowed_x1000 then cap_x1000 else allowed_x1000 in
  (allowed_x100, allowed_x1000, reason).

Definition evaluate (inputs : TorqueInputs.t) : AllowedTorque.t :=
  let requested_x100 := Z.max (driver_request_x100 inputs) (idle_request_x100 inputs) in
  let driver_request_x1000 :=
    default (saturating_mul 16 (driver_request_x100 inputs) 10) (driver_request_x1000 inputs) in
  let idle_request_x1000 := saturating_mul 16 (idle_request_x100 inputs) 10 in
  let requested_x1000 := Z.max driver_request_x1000 idle_request_x1000 in
  let reason :=
    if driver_request_x100 inputs <=? idle_request_x100 inputs
    then TorqueLimitReason.Idle else TorqueLimitReason.Driver in
  let caps := [
    (rev_limit_x100 inputs, saturating_mul 16 (rev_limit_x100 inputs) 10, TorqueLimitReason.RevLimiter);
    (knock_limit_x100 inputs, saturating_mul 16 (knock_limit_x100 inputs) 10, TorqueLimitReason.Knock);
    (limp_limit_x100 inputs, saturating_mul 16 (limp_limit_x100 inputs) 10, TorqueLimitReason.LimpMode)] in
  let '(allowed_x100, allowed_x1000, reason) :=
    fold_left apply_cap caps (requested_x100, requested_x1000, reason) in
  let reason := if requested_x100 <=? allowed_x100 then TorqueLimitReason.None_ else reason in
  AllowedTorque.new requested_x100 requested_x1000 allowed_x100 allowed_x1000 reason.
End TorqueArbiter.

(** ** Lemmas *)
(** The table search stops at the last bin that the value reaches. *)
Lemma nearest_index_loop_spec fuel idx bins value :
  (idx <= 15)%nat -> (16 <= fuel + idx)%nat ->
  let r := nearest_index_loop fuel idx bins value in
  (idx <= r <= 15)%nat
  /\ (forall j, (idx < j)%nat -> (j <= r)%nat -> nth j bins 0 <= value)
  /\ ((r < 15)%nat -> value < nth (r + 1) bins 0).
Proof.
  revert idx. induction fuel as [|fuel IH]; intros idx Hi Hf; [lia|]. cbn [nearest_index_loop].
  destruct (Nat.ltb_spec idx 15); [|split; [lia|]; split; [lia|lia]].
  destruct (Z.ltb_spec value (nth (idx + 1) bins 0)) as [Hlt|Hge].
  - split; [lia|]. split; [lia|done].
  - destruct (IH (idx + 1)%nat ltac:(lia) ltac:(lia)) as (H1 & H2 & H3). split; [lia|]. split; [|done].
    intros j Hj Hjr. destruct (decide (j = idx + 1)%nat) as [->|]; [done|]. apply H2; lia.
Qed.

Definition table_wf (m : BaseFuelModel.t) : Prop :=
  length (BaseFuelModel.pulse_widths m) = 16%nat
  /\ Forall (fun row => length row = 16%nat) (BaseFuelModel.pulse_widths m).

(** [idx] is the last bin whose lower edge [value] reaches, the first one reaching down
    without bound. *)
Definition bin_of (bins : list Z) (value : Z) (idx : nat) : Prop :=
  (idx <= 15)%nat
  /\ (forall j, (0 < j <= idx)%nat -> nth j bins 0 <= value)
  /\ (forall j, (idx < j <= 15)%nat -> value < nth j bins 0).

Lemma nearest_index_bin bins value : (forall i j, (i <= j <= 15)%nat -> nth i bins 0 <= nth j bins 0) ->
  bin_of bins value (nearest_index_loop 16 0 bins value).
Proof.
  intros Hs. destruct (nearest_index_loop_spec 16 0 bins value ltac:(lia) ltac:(lia)) as (H1 & H2 & H3).
  split; [lia|]. split; [intros j Hj; apply H2; lia|].
  intros j Hj. specialize (H3 ltac:(lia)). specialize (Hs (nearest_index_loop 16 0 bins value + 1)%nat j ltac:(lia)). lia.
Qed.

(** ** Properties *)

(** the base fuel table is read, without ever leaving it, at the cell of the last speed
    and load bins that the operating point reaches, the edge cells reaching outwards. *)
Theorem base_fuel_cell m rpm load : table_wf m ->
  (forall i j, (i <= j <= 15)%nat -> nth i (BaseFuelModel.rpm_bins m) 0 <= nth j (BaseFuelModel.rpm_bins m) 0) ->
  (forall i j, (i <= j <= 15)%nat -> nth i (BaseFuelModel.load_bins m) 0 <= nth j (BaseFuelModel.load_bins m) 0) ->
  exists r l row pw, bin_of (BaseFuelModel.rpm_bins m) rpm r /\ bin_of (BaseFuelModel.load_bins m) load l
    /\ BaseFuelModel.pulse_widths m !! l = Some row /\ row !! r = Some pw
    /\ BaseFuelModel.calculate_base_fuel rpm load m = Some pw.
Proof.
  intros [Hl Hrows] Hr Hld.
  pose proof (nearest_index_bin _ rpm Hr) as Br. pose proof (nearest_index_bin _ load Hld) as Bl.
  unfold BaseFuelModel.calculate_base_fuel, nearest_index_rpm, nearest_index_kpa10.
  set (r := nearest_index_loop 16 0 _ rpm) in *. set (l := nearest_index_loop 16 0 _ load) in *.
  destruct (lookup_lt_is_Some_2 (BaseFuelModel.pulse_widths m) l) as [row Erow]; [destruct Bl; lia|].
  assert (length row = 16%nat) as Hrow by (eapply Forall_lookup_1 in Hrows; done).
  destruct (lookup_lt_is_Some_2 row r) as [pw Epw]; [destruct Br; lia|].
  exists r, l, row, pw. rewrite Erow. by repeat split; try apply Br; try apply Bl.
Qed.

Definition dwell_config_fits (c : DwellConfig.t) : Prop :=
  u16 (DwellConfig.base_dwell_us c) /\ u16 (DwellConfig.min_dwell_us c) /\ u16 (DwellConfig.max_dwell_us c)
  /\ u16 (DwellConfig.rpm_dwell_trim_us c) /\ u16 (DwellConfig.rpm_trim_start c) /\ u16 (DwellConfig.rpm_trim_end c).

Lemma compute_dwell_ok rpm c : dwell_config_fits c -> u16 rpm ->
  DwellConfig.min_dwell_us c <= DwellConfig.max_dwell_us c ->
  exists d, DwellConfig.compute_dwell_us rpm c = Some d
    /\ DwellConfig.min_dwell_us c <= d <= DwellConfig.max_dwell_us c
    /\ (DwellConfig.rpm_trim_start c < rpm < DwellConfig.rpm_trim_end c ->
        d = clamp (saturating_sub (DwellConfig.base_dwell_us c)
              (DwellConfig.rpm_dwell_trim_us c * (rpm - DwellConfig.rpm_trim_start c)
               / (DwellConfig.rpm_trim_end c - DwellConfig.rpm_trim_start c)))
            (DwellConfig.min_dwell_us c) (DwellConfig.max_dwell_us c)).
Proof.
  destruct c as [base mn mx trim st en]. unfold dwell_config_fits, fits, DwellConfig.compute_dwell_us.
  cbn [DwellConfig.base_dwell_us DwellConfig.min_dwell_us DwellConfig.max_dwell_us
    DwellConfig.rpm_dwell_trim_us DwellConfig.rpm_trim_start DwellConfig.rpm_trim_end].
  change (2 ^ 16) with 65536. intros (Hb & Hmn & Hmx & Ht & Hst & Hen) Hr Hle.
  destruct (Z.leb_spec rpm st); [eexists; split; [reflexivity|]; lia|].
  destruct (Z.leb_spec en rpm); [eexists; split; [reflexivity|]; lia|].
  rewrite !chk_ok by (change (2 ^ 16) with 65536; lia). cbn [mbind option_bind].
  rewrite chk_ok by (change (2 ^ 32) with 4294967296; nia). cbn [mbind option_bind].
  assert (0 <= trim * (rpm - st) / (en - st) <= trim) as Hq.
  { split; [apply Z.div_pos; nia|]. apply Z.div_le_upper_bound; nia. }
  rewrite Z.max_l by lia. unfold as_unsigned. rewrite (Z.mod_small (_ / _)) by (change (2 ^ 16) with 65536; lia).
  rewrite ord_clamp_ok by done. eexists. split; [reflexivity|]. split; [by apply clamp_bounds|done].
Qed.

Definition ignition_inputs_fit (i : IgnitionInputs.t) : Prop :=
  i16 (IgnitionInputs.base_advance_deg10 i) /\ i16 (IgnitionInputs.timing_correction_deg10 i)
  /\ i16 (IgnitionInputs.knock_retard_deg10 i) /\ i16 (IgnitionInputs.torque_retard_deg10 i)
  /\ u16 (IgnitionInputs.rpm i).

(** ignition plans stay within their limits: for every input of its type and every dwell
    configuration with ordered bounds a plan exists, its advance is the corrected base
    advance less every active retard, held to -20..60 degrees, its dwell is within the
    configured bounds and falls with the speed in between as configured, and the reason names
    the last retard that applied. *)
Theorem ignition_plan_bounds i c : ignition_inputs_fit i -> dwell_config_fits c ->
  DwellConfig.min_dwell_us c <= DwellConfig.max_dwell_us c ->
  exists p, IgnitionPlanner.plan i c = Some p
  /\ IgnitionPlan.advance_deg10 p
     = clamp (IgnitionInputs.base_advance_deg10 i + IgnitionInputs.timing_correction_deg10 i
         - IgnitionInputs.knock_retard_deg10 i - Z.max 0 (IgnitionInputs.torque_retard_deg10 i)
         - (if IgnitionInputs.rev_limit_active i then 80 else 0)) (-200) 600
  /\ -200 <= IgnitionPlan.advance_deg10 p <= 600
  /\ DwellConfig.min_dwell_us c <= IgnitionPlan.dwell_us p <= DwellConfig.max_dwell_us c
  /\ DwellConfig.compute_dwell_us (IgnitionInputs.rpm i) c = Some (IgnitionPlan.dwell_us p)
  /\ IgnitionPlan.limit_reason p
     = (if IgnitionInputs.rev_limit_active i then IgnitionLimitReason.RevLimiter
        else if 0 <? IgnitionInputs.torque_retard_deg10 i then IgnitionLimitReason.Torque
        else if 0 <? IgnitionInputs.knock_retard_deg10 i then IgnitionLimitReason.Knock
        else IgnitionLimitReason.None_).
Proof.
  intros (H1 & H2 & H3 & H4 & H5) Hc Hle.
  destruct (compute_dwell_ok (IgnitionInputs.rpm i) c Hc H5 Hle) as (d & Hd & Hb & _).
  unfold IgnitionPlanner.plan. rewrite Hd. destruct i as [base corr knock torque rev rpm].
  cbn [IgnitionInputs.base_advance_deg10 IgnitionInputs.timing_correction_deg10 IgnitionInputs.knock_retard_deg10
    IgnitionInputs.torque_retard_deg10 IgnitionInputs.rev_limit_active IgnitionInputs.rpm] in *.
  assert (forall x, as_signed 16 (clamp x (-200) 600) = clamp x (-200) 600) as Hs.
  { intros x. apply as_signed_small; [lia|]. pose proof (clamp_bounds x (-200) 600 ltac:(lia)).
    change (2 ^ (16 - 1)) with 32768. lia. }
  destruct (Z.ltb_spec 0 torque), rev; cbn [mbind option_bind]; rewrite Hs; eexists; (split; [reflexivity|]);
    cbn [IgnitionPlan.advance_deg10 IgnitionPlan.dwell_us IgnitionPlan.limit_reason IgnitionPlan.new];
    (split; [f_equal; lia|]); (split; [by apply clamp_bounds|]); done.
Qed.

(** The torque request and the three caps, in the order they are applied. *)
Definition torque_caps (i : TorqueInputs.t) : list (Z * TorqueLimitReason.t) := [
  (TorqueInputs.rev_limit_x100 i, TorqueLimitReason.RevLimiter);
  (TorqueInputs.knock_limit_x100 i, TorqueLimitReason.Knock);
  (TorqueInputs.limp_limit_x100 i, TorqueLimitReason.LimpMode)].

Lemma foldr_min_base a b l : foldr Z.min (Z.min a b) l = Z.min b (foldr Z.min a l).
Proof. induction l as [|x l IH]; cbn; lia. Qed.

(** The loop computes the least of the request and the caps, and remembers the first cap
    that reaches it. *)
Lemma apply_caps_spec caps a b r :
  let '(a', b', r') := fold_left TorqueArbiter.apply_cap caps (a, b, r) in
  a' = foldr Z.min a (map (fun c => fst (fst c)) caps) /\ b' = foldr Z.min b (map (fun c => snd (fst c)) caps)
  /\ a' <= a /\ (a' = a -> r' = r)
  /\ (a' <> a -> exists k c, list_find (fun c => fst (fst c) = a') caps = Some (k, c) /\ snd c = r').
Proof.
  revert a b r. induction caps as [|[[c1 c2] cr] caps IH]; intros a b r; [by cbn|].
  cbn [fold_left TorqueArbiter.apply_cap map fst snd foldr].
  set (b1 := if c2 <? b then c2 else b).
  assert (b1 = Z.min b c2) as -> by (subst b1; destruct (Z.ltb_spec c2 b); lia).
  destruct (Z.ltb_spec c1 a) as [Hlt|Hge].
  - specialize (IH c1 (Z.min b c2) cr). destruct (fold_left _ caps _) as [[a' b'] r'].
    destruct IH as (Ha & Hb & Hle & Hsame & Hfind).
    assert (c1 = Z.min a c1) as Ec by lia. rewrite Ec, foldr_min_base in Ha. rewrite foldr_min_base in Hb.
    split; [done|]. split; [done|]. split; [lia|]. split; [lia|]. intros _. cbn [list_find fst].
    destruct (decide (c1 = a')) as [->|Hne]; [exists 0%nat; eexists; split; [reflexivity|]; symmetry; by apply Hsame|].
    destruct (Hfind ltac:(done)) as (k & c & Hk & Hc). rewrite Hk. by exists (S k), c.
  - specialize (IH a (Z.min b c2) r). destruct (fold_left _ caps _) as [[a' b'] r'].
    destruct IH as (Ha & Hb & Hle & Hsame & Hfind). rewrite foldr_min_base in Hb.
    split; [lia|]. split; [done|]. split; [done|]. split; [done|]. intros Hne. cbn [list_find fst].
    rewrite decide_False by lia. destruct (Hfind Hne) as (k & c & Hk & Hc). rewrite Hk. by exists (S k), c.
Qed.

(** the torque arbiter computes a minimum: the request is the greater of the driver's
    and idle's, what is allowed is the least of the request and the three caps, in both
    resolutions, and the reason is none exactly when the whole request is allowed, and else
    the first of the caps that equals what is allowed. *)
Theorem torque_is_least_cap i :
  let r := TorqueArbiter.evaluate i in
  let request := Z.max (TorqueInputs.driver_request_x100 i) (TorqueInputs.idle_request_x100 i) in
  AllowedTorque.requested_x100 r = request
  /\ AllowedTorque.allowed_x100 r = foldr Z.min request (map fst (torque_caps i))
  /\ AllowedTorque.allowed_x1000 r
     = foldr Z.min (AllowedTorque.requested_x1000 r) (map (fun c => saturating_mul 16 (fst c) 10) (torque_caps i))
  /\ (AllowedTorque.reason r = TorqueLimitReason.None_ <-> AllowedTorque.allowed_x100 r = request)
  /\ (AllowedTorque.allowed_x100 r <> request ->
      snd <$> list_find (fun c => fst c = AllowedTorque.allowed_x100 r) (torque_caps i)
      = Some (AllowedTorque.allowed_x100 r, AllowedTorque.reason r)).
Proof.
  unfold TorqueArbiter.evaluate. cbv zeta.
  set (request := Z.max (TorqueInputs.driver_request_x100 i) _).
  set (req10 := Z.max (default _ _) _). set (reason0 := if _ <=? _ then TorqueLimitReason.Idle else _).
  assert (reason0 <> TorqueLimitReason.None_) as Hr0 by (subst reason0; by case_match).
  pose proof (apply_caps_spec [
    (TorqueInputs.rev_limit_x100 i, saturating_mul 16 (TorqueInputs.rev_limit_x100 i) 10, TorqueLimitReason.RevLimiter);
    (TorqueInputs.knock_limit_x100 i, saturating_mul 16 (TorqueInputs.knock_limit_x100 i) 10, TorqueLimitReason.Knock);
    (TorqueInputs.limp_limit_x100 i, saturating_mul 16 (TorqueInputs.limp_limit_x100 i) 10, TorqueLimitReason.LimpMode)]
    request req10 reason0) as H.
  destruct (fold_left _ _ _) as [[a b] r]. destruct H as (Ha & Hb & Hle & Hsame & Hfind).
  cbn [AllowedTorque.new AllowedTorque.requested_x100 AllowedTorque.allowed_x100 AllowedTorque.allowed_x1000
    AllowedTorque.requested_x1000 AllowedTorque.reason].
  split; [done|]. split; [exact Ha|]. split; [exact Hb|]. clear Ha Hb.
  destruct (Z.leb_spec request a) as [Hge|Hlt].
  - assert (a = request) as -> by lia. by split.
  - destruct (Hfind ltac:(lia)) as (k & c & Hk & Hc). cbn in Hk. unfold torque_caps. cbn [list_find fst].
    repeat case_decide; cbn in Hk |- *; simplify_eq; cbn; (split; [split; [done|lia]|done]).
Qed.

(** ** Tapers *)

(** The multiplier of a taper from [percent] to 100 over [dur] microseconds, [elapsed] in. *)
Definition taper (percent dur elapsed : Z) : Z :=
  100 + saturating_sub percent 100 * (dur - elapsed) / dur.

Lemma taper_bounds percent dur elapsed : u16 percent -> 0 <= elapsed < dur ->
  100 <= taper percent dur elapsed <= Z.max 100 percent /\ u16 (taper percent dur elapsed).
Proof.
  unfold fits, taper, saturating_sub. change (2 ^ 16) with 65536. intros Hp He.
  assert (0 <= Z.max 0 (percent - 100) * (dur - elapsed) / dur <= Z.max 0 (percent - 100)).
  { split; [apply Z.div_pos; nia|]. apply Z.div_le_upper_bound; nia. }
  lia.
Qed.

Lemma taper_mono percent dur e1 e2 : 0 <= e1 <= e2 -> e2 < dur -> taper percent dur e2 <= taper percent dur e1.
Proof.
  intros H1 H2. unfold taper. apply Z.add_le_mono_l, Z.div_le_mono; [lia|]. unfold saturating_sub. nia.
Qed.

(** The taper's arithmetic as the source writes it: it overflows when the product does. *)
Lemma taper_update {A} percent dur elapsed (k : Z -> A) : u16 percent -> 0 <= elapsed < dur -> dur < 2 ^ 32 ->
  (m ← chk 32 (saturating_sub percent 100 * (dur - elapsed));
   pct ← chk 32 (100 + m / Z.max dur 1); Some (k (as_unsigned 16 pct)))
  = if saturating_sub percent 100 * (dur - elapsed) <? 2 ^ 32 then Some (k (taper percent dur elapsed)) else None.
Proof.
  intros Hp He Hd. pose proof (taper_bounds percent dur elapsed Hp He) as [Hb Hu].
  assert (0 <= saturating_sub percent 100 * (dur - elapsed)) by (unfold saturating_sub; nia).
  destruct (Z.ltb_spec (saturating_sub percent 100 * (dur - elapsed)) (2 ^ 32)); [|by rewrite chk_over].
  rewrite chk_ok by lia. cbn [mbind option_bind].
  rewrite Z.max_l by lia. fold (taper percent dur elapsed).
  rewrite chk_ok by (unfold fits in Hu; change (2 ^ 16) with 65536 in Hu; change (2 ^ 32) with 4294967296; lia).
  cbn [mbind option_bind]. by rewrite as_unsigned_small.
Qed.

Section Durations.
(** A duration in milliseconds, as microseconds. *)
Definition us_of_ms (ms : Z) : Z := saturating_mul 32 ms 1000.

Lemma us_of_ms_fits ms : u32 ms -> u32 (us_of_ms ms).
Proof. intros H. apply fits_saturating_mul; [done|]. unfold fits. lia. Qed.
End Durations.

(** The taper of a configuration never overflows. *)
Definition taper_fits (percent taper_ms : Z) : Prop :=
  u16 percent /\ u32 taper_ms /\ saturating_sub percent 100 * us_of_ms taper_ms < 2 ^ 32.

Lemma taper_update_ok {A} percent ms elapsed (k : Z -> A) : taper_fits percent ms -> 0 <= elapsed < us_of_ms ms ->
  (m ← chk 32 (saturating_sub percent 100 * (us_of_ms ms - elapsed));
   pct ← chk 32 (100 + m / Z.max (us_of_ms ms) 1); Some (k (as_unsigned 16 pct)))
  = Some (k (taper percent (us_of_ms ms) elapsed)).
Proof.
  intros (Hp & Hm & Hf) He. pose proof (us_of_ms_fits ms Hm) as Hu. rewrite taper_update; [|done|done|unfold fits in Hu; lia].
  destruct (Z.ltb_spec (saturating_sub percent 100 * (us_of_ms ms - elapsed)) (2 ^ 32)); [done|].
  unfold saturating_sub in *. nia.
Qed.

(** One update of the startup enrichment, by what has happened. *)
Definition startup_spec (now : Z) (cranking : bool) (cfg : StartupConfig.t) (s : StartupState.t) :
    StartupState.t * Z :=
  let percent := StartupConfig.percent_x100 cfg in
  let dur := us_of_ms (StartupConfig.taper_time_ms cfg) in
  let elapsed := wrapping_sub 32 now (StartupState.start_us s) in
  if cranking then (StartupState.mk true now, percent)
  else if StartupState.active s && (elapsed <? dur) then (s, taper percent dur elapsed)
  else (StartupState.mk false (StartupState.start_us s), 100).

Lemma startup_update_eq now cranking cfg s : u16 (StartupConfig.percent_x100 cfg) ->
  u32 (StartupConfig.taper_time_ms cfg) ->
  StartupState.update now cranking cfg s =
  if negb cranking && StartupState.active s
     && (wrapping_sub 32 now (StartupState.start_us s) <? us_of_ms (StartupConfig.taper_time_ms cfg))
     && (2 ^ 32 <=? saturating_sub (StartupConfig.percent_x100 cfg) 100
           * (us_of_ms (StartupConfig.taper_time_ms cfg) - wrapping_sub 32 now (StartupState.start_us s)))
  then None else Some (startup_spec now cranking cfg s).
Proof.
  intros Hp Hm. unfold StartupState.update, startup_spec. fold (us_of_ms (StartupConfig.taper_time_ms cfg)).
  pose proof (us_of_ms_fits _ Hm) as Hd. set (dur := us_of_ms _) in *.
  pose proof (fits_wrapping_sub 32 now (StartupState.start_us s) ltac:(lia)) as He.
  destruct s as [act st]. cbn [StartupState.active StartupState.start_us] in *.
  set (e := wrapping_sub 32 now st) in *. destruct cranking; [done|]. cbn [negb andb].
  destruct act; [|done]. cbn [negb andb].
  destruct (Z.leb_spec dur e), (Z.ltb_spec e dur); try lia; [done|]. cbn [andb].
  rewrite (taper_update _ dur e (fun p => (StartupState.mk true st, p)));
    [|done|unfold fits in He; lia|unfold fits in Hd; lia].
  set (x := saturating_sub _ 100 * _). destruct (Z.ltb_spec x (2 ^ 32)), (Z.leb_spec (2 ^ 32) x); done || lia.
Qed.

(** startup enrichment tapers: after cranking ended at [t0] and with a configuration
    whose arithmetic does not overflow, every later update succeeds, gives at most the
    configured and at least the neutral multiplier, gives no more than any earlier one, and
    gives exactly the neutral one from the end of the taper on. *)
Theorem startup_taper_decays cfg s t0 d1 d2 :
  taper_fits (StartupConfig.percent_x100 cfg) (StartupConfig.taper_time_ms cfg) ->
  u32 t0 -> 0 <= d1 <= d2 -> d2 < 2 ^ 32 ->
  exists s0 s1 s2 p1 p2,
    StartupState.update t0 true cfg s = Some (s0, StartupConfig.percent_x100 cfg)
    /\ StartupState.update (wrapping_add 32 t0 d1) false cfg s0 = Some (s1, p1)
    /\ StartupState.update (wrapping_add 32 t0 d2) false cfg s1 = Some (s2, p2)
    /\ 100 <= p2 <= p1 /\ p1 <= Z.max 100 (StartupConfig.percent_x100 cfg)
    /\ (us_of_ms (StartupConfig.taper_time_ms cfg) <= d2 -> p2 = 100 /\ StartupState.active s2 = false).
Proof.
  intros Hf Ht0 Hd1 Hd2. destruct Hf as (Hp & Hm & Hf). pose proof (us_of_ms_fits _ Hm) as Hu.
  assert (forall d, 0 <= d < 2 ^ 32 -> wrapping_sub 32 (wrapping_add 32 t0 d) t0 = d) as Hsub
    by (intros d Hd; apply wrapping_sub_add; [lia|exact Hd]).
  assert (forall d s', 0 <= d < 2 ^ 32 -> StartupState.start_us s' = t0 ->
    StartupState.update (wrapping_add 32 t0 d) false cfg s' = Some (startup_spec (wrapping_add 32 t0 d) false cfg s')) as Hup.
  { intros d s' Hd Hs. rewrite startup_update_eq, Hs, Hsub by done. set (dur := us_of_ms _) in *.
    destruct (negb false && StartupState.active s' && (d <? dur) && _) eqn:E; [|done]. exfalso.
    rewrite !andb_true_iff, Z.ltb_lt, Z.leb_le in E. unfold saturating_sub in *. nia. }
  assert (0 <= d1 < 2 ^ 32) as Hb1 by lia. assert (0 <= d2 < 2 ^ 32) as Hb2 by lia.
  set (dur := us_of_ms _) in *. set (percent := StartupConfig.percent_x100 cfg) in *.
  pose proof (Hup d1 (StartupState.mk true t0) Hb1 eq_refl) as U1.
  unfold startup_spec in U1. fold dur percent in U1. cbn [StartupState.active StartupState.start_us andb] in U1.
  rewrite (Hsub d1 Hb1) in U1.
  destruct (Z.ltb_spec d1 dur) as [L1|G1].
  - pose proof (Hup d2 (StartupState.mk true t0) Hb2 eq_refl) as U2.
    unfold startup_spec in U2. fold dur percent in U2. cbn [StartupState.active StartupState.start_us andb] in U2.
    rewrite (Hsub d2 Hb2) in U2. pose proof (taper_bounds percent dur d1 Hp ltac:(lia)) as [B1 _].
    destruct (Z.ltb_spec d2 dur) as [L2|G2]; do 5 eexists; (split; [reflexivity|]); (split; [exact U1|]); (split; [exact U2|]).
    + pose proof (taper_bounds percent dur d2 Hp ltac:(lia)) as [B2 _].
      pose proof (taper_mono percent dur d1 d2 ltac:(lia) L2). lia.
    + repeat split; lia.
  - pose proof (Hup d2 (StartupState.mk false t0) Hb2 eq_refl) as U2.
    do 5 eexists. split; [reflexivity|]. split; [exact U1|]. split; [exact U2|]. repeat split; try reflexivity; lia.
Qed.

(** the startup multiplier's arithmetic overflows exactly when its product leaves 32
    bits while the taper is running. *)
Theorem startup_overflow_iff now cranking cfg s : u16 (StartupConfig.percent_x100 cfg) ->
  u32 (StartupConfig.taper_time_ms cfg) ->
  let dur := us_of_ms (StartupConfig.taper_time_ms cfg) in
  let elapsed := wrapping_sub 32 now (StartupState.start_us s) in
  StartupState.update now cranking cfg s = None
  <-> cranking = false /\ StartupState.active s = true /\ elapsed < dur
      /\ 2 ^ 32 <= (StartupConfig.percent_x100 cfg - 100) * (dur - elapsed).
Proof.
  intros Hp Hm dur elapsed. rewrite startup_update_eq by done. fold dur elapsed. unfold saturating_sub.
  destruct cranking, (StartupState.active s); cbn [negb andb]; try (split; [discriminate|intros (? & ? & _); discriminate]).
  destruct (Z.ltb_spec elapsed dur); cbn [andb]; [|split; [discriminate|intros (_ & _ & ? & _); lia]].
  destruct (Z.leb_spec (2 ^ 32) (Z.max 0 (StartupConfig.percent_x100 cfg - 100) * (dur - elapsed))) as [H'|H'].
  - split; [intros _|done]. repeat split; try done. destruct (Z.max_spec 0 (StartupConfig.percent_x100 cfg - 100)) as [[? E]|[? E]]; rewrite E in H'; lia.
  - split; [discriminate|]. intros (_ & _ & _ & H2). exfalso. nia.
Qed.

(** ** Enrichment bounds *)

(** Between the neutral multiplier and the configured one. *)
Definition within (percent x : Z) : Prop := Z.min 100 percent <= x <= Z.max 100 percent.

Lemma taper_within percent dur e : u16 percent -> 0 <= e < dur -> within percent (taper percent dur e).
Proof. intros Hp He. pose proof (taper_bounds percent dur e Hp He) as [? _]. unfold within. lia. Qed.

Lemma within_neutral percent : within percent 100.
Proof. unfold within. lia. Qed.

Lemma within_full percent : within percent percent.
Proof. unfold within. lia. Qed.

#[local] Hint Resolve taper_within within_neutral within_full : ecu.

Lemma startup_update_within now cranking cfg s :
  taper_fits (StartupConfig.percent_x100 cfg) (StartupConfig.taper_time_ms cfg) ->
  exists s' p, StartupState.update now cranking cfg s = Some (s', p) /\ within (StartupConfig.percent_x100 cfg) p.
Proof.
  intros Hf. destruct Hf as (Hp & Hm & Hf). rewrite startup_update_eq by done.
  pose proof (fits_wrapping_sub 32 now (StartupState.start_us s) ltac:(lia)) as He. unfold fits in He.
  set (e := wrapping_sub 32 now _) in *. set (dur := us_of_ms _) in *. unfold startup_spec. fold e dur.
  destruct cranking; cbn [negb andb]; [do 2 eexists; split; [reflexivity|apply within_full]|].
  destruct (StartupState.active s); cbn [andb]; [|do 2 eexists; split; [reflexivity|apply within_neutral]].
  destruct (Z.ltb_spec e dur) as [Hlt|]; cbn [andb]; [|do 2 eexists; split; [reflexivity|apply within_neutral]].
  assert ((2 ^ 32 <=? saturating_sub (StartupConfig.percent_x100 cfg) 100 * (dur - e)) = false) as ->.
  { apply Z.leb_gt. unfold saturating_sub in *. nia. }
  do 2 eexists. split; [reflexivity|]. apply taper_within; [done|lia].
Qed.

Lemma after_start_update_within now started cfg s :
  taper_fits (AfterStartConfig.percent_x100 cfg) (AfterStartConfig.taper_time_ms cfg) ->
  exists s' p, AfterStartState.update now started cfg s = Some (s', p) /\ within (AfterStartConfig.percent_x100 cfg) p.
Proof.
  intros Hf. unfold AfterStartState.update. generalize (AfterStartState.trigger now started cfg s). clear s. intros s.
  destruct (AfterStartState.active s); cbn [negb]; [|do 2 eexists; split; [reflexivity|apply within_neutral]].
  fold (us_of_ms (AfterStartConfig.taper_time_ms cfg)).
  pose proof (fits_wrapping_sub 32 now (AfterStartState.start_us s) ltac:(lia)) as He. unfold fits in He.
  destruct (Z.leb_spec (us_of_ms (AfterStartConfig.taper_time_ms cfg)) (wrapping_sub 32 now (AfterStartState.start_us s)));
    [do 2 eexists; split; [reflexivity|apply within_neutral]|].
  rewrite (taper_update_ok _ _ _ (fun p => (s, p)) Hf) by lia. do 2 eexists. split; [reflexivity|].
  apply taper_within; [apply Hf|lia].
Qed.

Lemma acceleration_update_within now tps map cfg s : u16 (AccelerationConfig.percent_x100 cfg) ->
  u32 (AccelerationConfig.decay_time_ms cfg) ->
  within (AccelerationConfig.percent_x100 cfg) (AccelerationState.current_percent_x100 s) ->
  let '(s', p) := AccelerationState.update now tps map cfg s in
  within (AccelerationConfig.percent_x100 cfg) p /\ AccelerationState.current_percent_x100 s' = p.
Proof.
  intros Hp Hm Hs. unfold AccelerationState.update. fold (us_of_ms (AccelerationConfig.decay_time_ms cfg)).
  pose proof (fits_wrapping_sub 32 now (AccelerationState.last_trigger_us s) ltac:(lia)) as He. unfold fits in He.
  set (e := wrapping_sub 32 now _) in *. set (dur := us_of_ms _) in *.
  set (fires := (_ || _) && _). destruct fires; [split; [apply within_full|done]|]. split; [|done].
  destruct (AccelerationState.active s); [|exact Hs]. destruct (Z.leb_spec dur e); [apply within_neutral|].
  cbv [modify_field eta_expand AccelerationState.eta]. cbn [AccelerationState.current_percent_x100].
  rewrite Z.max_l by lia. fold (taper (AccelerationConfig.percent_x100 cfg) dur e).
  pose proof (taper_bounds _ dur e Hp ltac:(lia)) as [_ Hu]. rewrite as_unsigned_small by done.
  apply taper_within; [done|lia].
Qed.

(** A fraction of a number, rounded towards zero, lies between it and zero. *)
Lemma quot_fraction d pos span : 0 <= pos < span -> Z.min 0 d <= Z.quot (d * pos) span <= Z.max 0 d.
Proof.
  intros H. destruct (Z.le_gt_cases 0 d) as [Hd|Hd].
  - rewrite Z.quot_div_nonneg by nia. split; [apply Z.div_le_lower_bound; nia|]. rewrite Z.max_r by lia.
    apply Z.div_le_upper_bound; nia.
  - replace (d * pos) with (- (- d * pos)) by lia. rewrite Z.quot_opp_l by lia. rewrite Z.quot_div_nonneg by nia.
    assert (0 <= - d * pos / span <= - d).
    { split; [apply Z.div_pos; nia|]. apply Z.div_le_upper_bound; nia. }
    lia.
Qed.

(** The warmup curve stays between its two ends, and is reached by interpolation between
    its two temperatures; temperatures far out of range overflow the subtraction. *)
Definition warmup_fits (cfg : WarmupConfig.t) (clt : Z) : Prop :=
  u16 (WarmupConfig.max_percent_x100 cfg) /\ u16 (WarmupConfig.min_percent_x100 cfg)
  /\ -16384 <= WarmupConfig.start_c cfg < 16384 /\ -16384 <= WarmupConfig.end_c cfg < 16384
  /\ -16384 <= clt < 16384.

Lemma warmup_within cfg clt : warmup_fits cfg clt ->
  exists w, WarmupConfig.compute_percent_x100 clt cfg = Some w
  /\ Z.min (WarmupConfig.min_percent_x100 cfg) (WarmupConfig.max_percent_x100 cfg) <= w
     <= Z.max (WarmupConfig.min_percent_x100 cfg) (WarmupConfig.max_percent_x100 cfg).
Proof.
  destruct cfg as [st en mx mn]. unfold warmup_fits, WarmupConfig.compute_percent_x100.
  cbn [WarmupConfig.start_c WarmupConfig.end_c WarmupConfig.max_percent_x100 WarmupConfig.min_percent_x100].
  intros (Hmx & Hmn & Hst & Hen & Hc). set (lo := Z.min mn mx). set (hi := Z.max mn mx).
  assert (0 <= lo <= hi /\ hi < 65536) as Hb by (unfold fits in *; change (2 ^ 16) with 65536 in *; lia).
  assert (forall x, (v ← ord_clamp x lo hi; Some (as_unsigned 16 v)) = Some (clamp x lo hi)
    /\ lo <= clamp x lo hi <= hi) as Hcl.
  { intros x. pose proof (clamp_bounds x lo hi ltac:(lia)). rewrite ord_clamp_ok by lia. cbn [mbind option_bind].
    rewrite as_unsigned_small by (unfold fits; change (2 ^ 16) with 65536; lia). done. }
  destruct (Z.leb_spec en st); [eexists; apply Hcl|]. destruct (Z.leb_spec clt st); [eexists; apply Hcl|].
  destruct (Z.leb_spec en clt); [eexists; apply Hcl|].
  rewrite !(chk_i_ok 16) by (change (2 ^ (16 - 1)) with 32768; lia). cbn [mbind option_bind].
  unfold fits in Hmx, Hmn. change (2 ^ 16) with 65536 in *.
  rewrite (chk_i_ok 32) by (change (2 ^ (32 - 1)) with 2147483648; lia). cbn [mbind option_bind].
  assert (- 65535 * 32767 <= (mx - mn) * (clt - st) <= 65535 * 32767) as Hm by nia.
  rewrite (chk_i_ok 32) by (change (2 ^ (32 - 1)) with 2147483648; lia). cbn [mbind option_bind].
  pose proof (quot_fraction (mx - mn) (clt - st) (en - st) ltac:(lia)) as Hq.
  rewrite (chk_i_ok 32) by (change (2 ^ (32 - 1)) with 2147483648; lia). cbn [mbind option_bind].
  eexists. apply Hcl.
Qed.

(** The configurations of the four enrichments, and an input, whose arithmetic fits. *)
Record enrichment_fits (i : EnrichmentInputs.t) (sc : StartupConfig.t) (wc : WarmupConfig.t)
    (ac : AfterStartConfig.t) (xc : AccelerationConfig.t) : Prop := {
  startup_fits : taper_fits (StartupConfig.percent_x100 sc) (StartupConfig.taper_time_ms sc);
  warmup_ok : warmup_fits wc (EnrichmentInputs.clt_c i);
  after_start_fits : taper_fits (AfterStartConfig.percent_x100 ac) (AfterStartConfig.taper_time_ms ac);
  acceleration_fits : u16 (AccelerationConfig.percent_x100 xc) /\ u32 (AccelerationConfig.decay_time_ms xc);
}.

(** the enrichment controller is bounded: from any state whose acceleration multiplier
    is in range, and under configurations whose arithmetic fits, an update succeeds, each of
    its four multipliers lies between the neutral one and the configured one (the warmup's
    between its two ends), and the acceleration multiplier stays in range. *)
Theorem enrichment_controller_bounded i sc wc ac xc c : enrichment_fits i sc wc ac xc ->
  within (AccelerationConfig.percent_x100 xc)
    (AccelerationState.current_percent_x100 (EnrichmentController.acceleration c)) ->
  exists c' r, EnrichmentController.update i sc wc ac xc c = Some (c', r)
  /\ within (StartupConfig.percent_x100 sc) (EnrichmentResult.startup_x100 r)
  /\ Z.min (WarmupConfig.min_percent_x100 wc) (WarmupConfig.max_percent_x100 wc) <= EnrichmentResult.warmup_x100 r
     <= Z.max (WarmupConfig.min_percent_x100 wc) (WarmupConfig.max_percent_x100 wc)
  /\ within (AfterStartConfig.percent_x100 ac) (EnrichmentResult.after_start_x100 r)
  /\ within (AccelerationConfig.percent_x100 xc) (EnrichmentResult.acceleration_x100 r)
  /\ within (AccelerationConfig.percent_x100 xc)
       (AccelerationState.current_percent_x100 (EnrichmentController.acceleration c')).
Proof.
  intros [Hs Hw Ha Hx] Hc. unfold EnrichmentController.update. cbv zeta.
  destruct (startup_update_within (EnrichmentInputs.now_us i) (EnrichmentInputs.cranking i) sc
    (EnrichmentController.startup c) Hs) as (s' & ps & -> & Bs). cbn [mbind option_bind].
  destruct (warmup_within wc (EnrichmentInputs.clt_c i) Hw) as (pw & -> & Bw). cbn [mbind option_bind].
  destruct (after_start_update_within (EnrichmentInputs.now_us i) (EnrichmentInputs.just_started i) ac
    (EnrichmentController.after_start c) Ha) as (a' & pa & -> & Ba). cbn [mbind option_bind].
  pose proof (acceleration_update_within (EnrichmentInputs.now_us i) (EnrichmentInputs.tpsdot_pct_s i)
    (EnrichmentInputs.mapdot_kpa_s i) xc (EnrichmentController.acceleration c) (proj1 Hx) (proj2 Hx) Hc) as Bx.
  destruct (AccelerationState.update _ _ _ xc _) as [x' px]. destruct Bx as [Bx Ex].
  do 2 eexists. split; [reflexivity|]. split; [exact Bs|]. split; [exact Bw|]. split; [exact Ba|]. split; [exact Bx|].
  cbn [EnrichmentController.acceleration]. by rewrite Ex.
Qed.

(** with multipliers of at most five times neutral the combined multiplier is the product,
    rounded down at each factor, without truncation, and applying it to any pulse width
    saturates instead of wrapping. *)
Theorem enrichment_total_exact r base :
  0 <= EnrichmentResult.startup_x100 r <= 500 -> 0 <= EnrichmentResult.warmup_x100 r <= 500 ->
  0 <= EnrichmentResult.after_start_x100 r <= 500 -> 0 <= EnrichmentResult.acceleration_x100 r <= 500 ->
  u16 base ->
  let total := EnrichmentResult.startup_x100 r * EnrichmentResult.warmup_x100 r / 100
    * EnrichmentResult.after_start_x100 r / 100 * EnrichmentResult.acceleration_x100 r / 100 in
  EnrichmentResult.total_x100 r = Some total /\ 0 <= total <= 62500
  /\ EnrichmentResult.apply_to base r = Some (Z.min u16_max (base * total / 100)).
Proof.
  destruct r as [s w a x]. cbn [EnrichmentResult.startup_x100 EnrichmentResult.warmup_x100
    EnrichmentResult.after_start_x100 EnrichmentResult.acceleration_x100]. intros Hs Hw Ha Hx Hb.
  set (total := s * w / 100 * a / 100 * x / 100).
  assert (0 <= s * w <= 250000) as B1 by nia.
  assert (0 <= s * w / 100 <= 2500) as B2 by (Z.to_euclidean_division_equations; lia).
  set (t1 := s * w / 100) in *. assert (0 <= t1 * a <= 1250000) as B3 by nia.
  assert (0 <= t1 * a / 100 <= 12500) as B4 by (Z.to_euclidean_division_equations; lia).
  set (t2 := t1 * a / 100) in *. assert (0 <= t2 * x <= 6250000) as B5 by nia.
  assert (0 <= total <= 62500) as B6.
  { subst total. clearbody t2. Z.to_euclidean_division_equations. lia. }
  assert (EnrichmentResult.total_x100 (EnrichmentResult.mk s w a x) = Some total) as Et.
  { unfold EnrichmentResult.total_x100. cbn [EnrichmentResult.startup_x100 EnrichmentResult.warmup_x100
      EnrichmentResult.after_start_x100 EnrichmentResult.acceleration_x100].
    rewrite chk_ok by (change (2 ^ 32) with 4294967296; lia). cbn [mbind option_bind]. fold t1.
    rewrite chk_ok by (change (2 ^ 32) with 4294967296; lia). cbn [mbind option_bind]. fold t2.
    rewrite chk_ok by (change (2 ^ 32) with 4294967296; lia). cbn [mbind option_bind]. fold total.
    by rewrite as_unsigned_small by (unfold fits; change (2 ^ 16) with 65536; lia). }
  split; [exact Et|]. split; [exact B6|]. unfold EnrichmentResult.apply_to. rewrite Et. cbn [mbind option_bind].
  unfold fits in Hb. change (2 ^ 16) with 65536 in Hb. clearbody total.
  assert (0 <= base * total <= 4095937500) as B7 by nia.
  rewrite chk_ok by (change (2 ^ 32) with 4294967296; lia). cbn [mbind option_bind]. f_equal.
  assert (0 <= base * total / 100) by (apply Z.div_pos; lia). unfold u16_max.
  destruct (Z.ltb_spec 65535 (base * total / 100)); [lia|].
  rewrite as_unsigned_small by (unfold fits; change (2 ^ 16) with 65536; lia). lia.
Qed.

(** ** Cranking *)
Fixpoint gate_run (rpms : list Z) (g : CrankingGate.t) : CrankingGate.t :=
  match rpms with [] => g | rpm :: rpms => gate_run rpms (fst (CrankingGate.update rpm g)) end.

(** the cranking gate has hysteresis: after any readings it says what the last reading
    outside the band says, below the entry threshold or at least the exit one, and starts
    out as not cranking; a reading within the band never changes it. *)
Theorem cranking_gate_hysteresis pre rpm band g :
  Forall (fun x => CRANKING_RPM_THRESHOLD <= x < CRANKING_EXIT_RPM) band ->
  gate_run band g = g
  /\ (rpm < CRANKING_RPM_THRESHOLD -> CrankingGate.is_cranking (gate_run (pre ++ rpm :: band) g) = true)
  /\ (CRANKING_EXIT_RPM <= rpm -> CrankingGate.is_cranking (gate_run (pre ++ rpm :: band) g) = false).
Proof.
  intros Hb. assert (forall g, gate_run band g = g) as Hband.
  { induction Hb as [|x band Hx Hb IH]; intros g'; [done|]. cbn [gate_run].
    assert (fst (CrankingGate.update x g') = g') as ->; [|apply IH].
    destruct g' as [[]]; unfold CrankingGate.update; cbn [CrankingGate.cranking].
    - by destruct (Z.leb_spec CRANKING_EXIT_RPM x); [lia|].
    - by destruct (Z.ltb_spec x CRANKING_RPM_THRESHOLD); [lia|]. }
  assert (forall pre g, gate_run (pre ++ rpm :: band) g = fst (CrankingGate.update rpm (gate_run pre g))) as Happ.
  { clear pre g. induction pre as [|x pre IH]; intros g'; cbn [app gate_run]; [apply Hband|apply IH]. }
  split; [apply Hband|]. rewrite Happ. destruct (gate_run pre g) as [[]]; unfold CrankingGate.update;
    cbn [CrankingGate.cranking]; destruct (Z.leb_spec CRANKING_EXIT_RPM rpm), (Z.ltb_spec rpm CRANKING_RPM_THRESHOLD);
    unfold CRANKING_RPM_THRESHOLD, CRANKING_EXIT_RPM in *; split; intros Hr; solve [reflexivity | lia].
Qed.

(** ** Deceleration fuel cut over a drive *)
Module Sample.
Record t := mk { now_us : Z; rpm : Z; tps_pct : Z; map_kpa : Z }.
End Sample.

Section Dfco.
Context (cfg : DfcoConfig.t).

Definition allowed (x : Sample.t) : bool :=
  DecelFuelCutState.allow (Sample.rpm x) (Sample.tps_pct x) (Sample.map_kpa x) cfg.

(** The states reached by a series of samples, from the initial one. *)
Inductive dfco_trace : list Sample.t -> DecelFuelCutState.t -> Prop :=
  | dfco_start : dfco_trace [] DecelFuelCutState.new
  | dfco_step xs s x s' active : dfco_trace xs s ->
      DecelFuelCutState.update (Sample.now_us x) (Sample.rpm x) (Sample.tps_pct x) (Sample.map_kpa x) cfg s
      = Some (s', active) ->
      dfco_trace (xs ++ [x]) s'.

(** The samples since [y] have all allowed the cut. *)
Definition holding (xs : list Sample.t) (y : Sample.t) (hold : list Sample.t) : Prop :=
  (exists pre, xs = pre ++ hold) /\ head hold = Some y /\ Forall (fun x => allowed x = true) hold.

(** The cut began at [z], at the end of a hold of the full delay that began at [y], and since
    then every sample allowed it or came within the resume hysteresis of [z]. *)
Definition justified (xs : list Sample.t) (y z : Sample.t) : Prop :=
  exists hold post, holding (take (length xs - length post) xs) y hold /\ last hold = Some z
  /\ (exists pre, xs = pre ++ post)
  /\ DfcoConfig.delay_ms cfg * 1000 <= wrapping_sub 32 (Sample.now_us z) (Sample.now_us y)
  /\ Forall (fun w => allowed w = true
       \/ wrapping_sub 32 (Sample.now_us w) (Sample.now_us z) < DfcoConfig.resume_hyst_ms cfg * 1000) post.

Definition dfco_inv (xs : list Sample.t) (s : DecelFuelCutState.t) : Prop :=
  if DecelFuelCutState.active s then
    exists y z, justified xs y z /\ DecelFuelCutState.last_change_ts s = Sample.now_us z
  else DecelFuelCutState.armed s = true ->
    exists y hold, holding xs y hold /\ DecelFuelCutState.enter_ts s = Sample.now_us y.

Lemma holding_snoc xs y hold x : holding xs y hold -> allowed x = true -> holding (xs ++ [x]) y (hold ++ [x]).
Proof.
  intros ([pre ->] & Hh & Hf) Hx. split; [exists pre; by rewrite app_assoc|].
  split; [by destruct hold|]. by apply Forall_app_2; [|by apply Forall_singleton].
Qed.

Lemma holding_one xs x : allowed x = true -> holding (xs ++ [x]) x [x].
Proof. intros Hx. split; [by exists xs|]. split; [done|]. by apply Forall_singleton. Qed.

Lemma justified_begin xs y hold x : holding (xs ++ [x]) y (hold ++ [x]) ->
  DfcoConfig.delay_ms cfg * 1000 <= wrapping_sub 32 (Sample.now_us x) (Sample.now_us y) -> justified (xs ++ [x]) y x.
Proof.
  intros Hh Hd. exists (hold ++ [x]), []. rewrite Nat.sub_0_r, take_ge by done.
  split; [done|]. split; [apply last_snoc|]. split; [exists (xs ++ [x]); by rewrite app_nil_r|]. done.
Qed.

Lemma justified_snoc xs y z x : justified xs y z ->
  allowed x = true \/ wrapping_sub 32 (Sample.now_us x) (Sample.now_us z) < DfcoConfig.resume_hyst_ms cfg * 1000 ->
  justified (xs ++ [x]) y z.
Proof.
  intros (hold & post & Hh & Hl & [pre E] & Hd & Hp) Hx. exists hold, (post ++ [x]).
  assert (take (length (xs ++ [x]) - length (post ++ [x])) (xs ++ [x]) = take (length xs - length post) xs) as ->.
  { rewrite !length_app. cbn [length]. rewrite take_app_le by lia. f_equal. lia. }
  split; [done|]. split; [done|]. split; [exists pre; by rewrite E, app_assoc|]. split; [done|].
  by apply Forall_app_2; [|by apply Forall_singleton].
Qed.

(** One armed or arming update, with the conditions allowing the cut. *)
Lemma dfco_step_inv xs s x s' act : dfco_inv xs s ->
  DecelFuelCutState.update (Sample.now_us x) (Sample.rpm x) (Sample.tps_pct x) (Sample.map_kpa x) cfg s = Some (s', act) ->
  act = DecelFuelCutState.active s' /\ dfco_inv (xs ++ [x]) s'.
Proof.
  destruct s as [active enter last armed]. unfold DecelFuelCutState.update, dfco_inv. fold (allowed x).
  cbn [DecelFuelCutState.active DecelFuelCutState.armed DecelFuelCutState.enter_ts DecelFuelCutState.last_change_ts].
  intros Hinv. destruct (allowed x) eqn:Ex; destruct active; cbn [negb].
  - cbn [mbind option_bind]. intros [= <- <-]. split; [done|].
    cbn [DecelFuelCutState.active DecelFuelCutState.last_change_ts].
    destruct Hinv as (y & z & Hj & ->). exists y, z. split; [|done]. apply justified_snoc; [done|by left].
  - assert (exists y hold, holding (xs ++ [x]) y (hold ++ [x]) /\ (if armed then enter else Sample.now_us x) = Sample.now_us y)
      as (y & hold & Hh & Hy).
    { destruct armed.
      - destruct (Hinv eq_refl) as (y & hold & Hh & ->). exists y, hold. split; [by apply holding_snoc|done].
      - exists x, []. split; [by apply holding_one|done]. }
    set (s1 := if negb armed then _ else _).
    assert (s1 = DecelFuelCutState.mk false (Sample.now_us y) last true) as ->.
    { subst s1. destruct armed; cbn [negb]; rewrite <- Hy; reflexivity. }
    destruct (chk 32 (DfcoConfig.delay_ms cfg * 1000)) as [delay|] eqn:Ed; [|discriminate].
    apply chk_Some in Ed as [-> _]. cbn [mbind option_bind DecelFuelCutState.enter_ts].
    destruct (Z.leb_spec (DfcoConfig.delay_ms cfg * 1000) (wrapping_sub 32 (Sample.now_us x) (Sample.now_us y)));
      intros [= <- <-]; (split; [done|]).
    + exists y, x. split; [|done]. by eapply justified_begin.
    + intros _. by exists y, (hold ++ [x]).
  - destruct (chk 32 (DfcoConfig.resume_hyst_ms cfg * 1000)) as [hyst|] eqn:Ed; [|discriminate].
    apply chk_Some in Ed as [-> _]. cbn [mbind option_bind]. destruct Hinv as (y & z & Hj & ->).
    destruct (Z.leb_spec (DfcoConfig.resume_hyst_ms cfg * 1000) (wrapping_sub 32 (Sample.now_us x) (Sample.now_us z)));
      intros [= <- <-]; (split; [done|]).
    + discriminate.
    + exists y, z. split; [|done]. apply justified_snoc; [done|by right].
  - cbn [mbind option_bind]. intros [= <- <-]. split; [done|]. discriminate.
Qed.

Lemma dfco_trace_inv xs s : dfco_trace xs s -> dfco_inv xs s.
Proof.
  induction 1 as [|xs s x s' act Ht IH Hu]; [discriminate|]. by destruct (dfco_step_inv xs s x s' act IH Hu).
Qed.
End Dfco.

(** deceleration cut is never spurious: whenever it is active, it began at a sample that
    ended a run of samples all of which allowed it, the run at least as long as the
    configured delay, and every sample since then either allowed it or came within the
    resume hysteresis of its beginning. *)
Theorem dfco_active_justified cfg xs s : dfco_trace cfg xs s -> DecelFuelCutState.active s = true ->
  exists y z, justified cfg xs y z /\ DecelFuelCutState.last_change_ts s = Sample.now_us z.
Proof. intros Ht Ha. pose proof (dfco_trace_inv cfg xs s Ht) as Hi. unfold dfco_inv in Hi. by rewrite Ha in Hi. Qed.

(** ** Lambda trim *)
Section Lambda.
Import LambdaTrimConfig.

(** A configuration and a measurement whose trim arithmetic fits, with neutral within the
    trim's bounds. *)
Definition lambda_fits (cfg : LambdaTrimConfig.t) (measured : Z) : Prop :=
  0 <= closed_loop_target cfg < 32768 /\ 0 <= measured < 32768 /\ 0 <= gain_x10 cfg < 256
  /\ Z.abs (closed_loop_target cfg - measured) * gain_x10 cfg < 32768
  /\ min_trim_x100 cfg <= 100 <= max_trim_x100 cfg.

(** The planner's invariant: the held trim is within bounds, and neutral in open loop. *)
Definition planner_wf (cfg : LambdaTrimConfig.t) (p : LambdaTrimPlanner.t) : Prop :=
  min_trim_x100 cfg <= LambdaTrimPlanner.last_trim_x100 p <= max_trim_x100 cfg
  /\ (LambdaTrimPlanner.last_mode p = LambdaMode.OpenLoop -> LambdaTrimPlanner.last_trim_x100 p = 100).

(** The trim that closed-loop control computes. *)
Definition closed_loop_trim (cfg : LambdaTrimConfig.t) (measured : Z) : Z :=
  clamp (100 + Z.quot ((closed_loop_target cfg - measured) * gain_x10 cfg) 10) (min_trim_x100 cfg) (max_trim_x100 cfg).
End Lambda.

Lemma planner_new_wf cfg : LambdaTrimConfig.min_trim_x100 cfg <= 100 <= LambdaTrimConfig.max_trim_x100 cfg ->
  planner_wf cfg LambdaTrimPlanner.new.
Proof. intros H. by split. Qed.

Lemma closed_loop_trim_ok {A} cfg measured (k : Z -> option A) : lambda_fits cfg measured ->
  (error ← chk_i 16 (as_signed 16 (LambdaTrimConfig.closed_loop_target cfg) - as_signed 16 measured);
   m ← chk_i 16 (error * LambdaTrimConfig.gain_x10 cfg);
   trim ← chk_i 16 (100 + Z.quot m 10);
   trim ← ord_clamp trim (LambdaTrimConfig.min_trim_x100 cfg) (LambdaTrimConfig.max_trim_x100 cfg); k trim)
  = k (closed_loop_trim cfg measured)
  /\ LambdaTrimConfig.min_trim_x100 cfg <= closed_loop_trim cfg measured <= LambdaTrimConfig.max_trim_x100 cfg.
Proof.
  intros (Ht & Hm & Hg & Hp & Hb). rewrite !as_signed_small by (change (2 ^ (16 - 1)) with 32768; lia).
  unfold closed_loop_trim. set (e := LambdaTrimConfig.closed_loop_target cfg - measured) in *.
  set (g := LambdaTrimConfig.gain_x10 cfg) in *.
  assert (- 32768 < e * g < 32768) as Hm2 by nia.
  assert (- 32768 <= e < 32768) as He by lia.
  rewrite chk_i_ok by (change (2 ^ (16 - 1)) with 32768; lia). cbn [mbind option_bind].
  rewrite chk_i_ok by (change (2 ^ (16 - 1)) with 32768; lia). cbn [mbind option_bind].
  assert (- 3277 <= Z.quot (e * g) 10 <= 3277) as Hq.
  { generalize dependent (e * g). intros x Hx. Z.to_euclidean_division_equations. lia. }
  rewrite chk_i_ok by (change (2 ^ (16 - 1)) with 32768; lia). cbn [mbind option_bind].
  rewrite ord_clamp_ok by lia. cbn [mbind option_bind]. split; [done|]. apply clamp_bounds. lia.
Qed.

(** the lambda planner is well behaved: under a configuration whose trim arithmetic
    fits, every update of a well-formed planner succeeds and leaves it well-formed, with the
    trim within its bounds; any disabling cause opens the loop with a neutral trim and is the
    cause reported; a power cut or an acceleration freeze holds the last trim; and only
    otherwise is a trim computed, reported as active and remembered. *)
Theorem lambda_update_spec i cfg load freeze cut p :
  lambda_fits cfg (LambdaTrimInputs.measured_lambda100 i) -> planner_wf cfg p ->
  let p0 := LambdaTrimPlanner.arm_startup_delay i cfg p in
  let cause := LambdaTrimPlanner.disabled_by i cfg load p0 in
  exists p' r, LambdaTrimPlanner.update i cfg load freeze cut p = Some (p', r)
  /\ planner_wf cfg p' /\ LambdaTrimPlanner.last_mode p' = LambdaTrimResult.mode r
  /\ LambdaTrimConfig.min_trim_x100 cfg <= LambdaTrimResult.trim_x100 r <= LambdaTrimConfig.max_trim_x100 cfg
  /\ LambdaTrimPlanner.last_trim_x100 p' = LambdaTrimResult.trim_x100 r
  /\ (cause <> LambdaDisableReason.None_ ->
      LambdaTrimResult.mode r = LambdaMode.OpenLoop /\ LambdaTrimResult.active r = false
      /\ LambdaTrimResult.trim_x100 r = 100 /\ LambdaTrimResult.disable_reason r = cause)
  /\ (cause = LambdaDisableReason.None_ ->
      LambdaTrimResult.mode r = LambdaMode.ClosedLoop
      /\ LambdaTrimResult.active r = negb (cut || freeze)
      /\ LambdaTrimResult.trim_x100 r
         = (if cut || freeze then LambdaTrimPlanner.last_trim_x100 p
            else closed_loop_trim cfg (LambdaTrimInputs.measured_lambda100 i))
      /\ LambdaTrimResult.disable_reason r
         = (if cut then LambdaDisableReason.PowerReductionCut
            else if freeze then LambdaDisableReason.AccelerationEnrichment else LambdaDisableReason.None_)).
Proof.
  intros Hf Hp p0 cause. unfold LambdaTrimPlanner.update. cbv zeta. fold p0. fold cause.
  assert (planner_wf cfg p0 /\ LambdaTrimPlanner.last_trim_x100 p0 = LambdaTrimPlanner.last_trim_x100 p) as [Hp0 E0].
  { subst p0. unfold LambdaTrimPlanner.arm_startup_delay. by case_match. }
  pose proof Hf as (_ & _ & _ & _ & Hb). destruct Hp0 as [Hp1 Hp2].
  case_bool_decide as Hc.
  - do 2 eexists. split; [reflexivity|]. split; [by split|]. split; [done|]. split; [done|]. split; [done|].
    split; [intros _; done|intros E; by destruct Hc].
  - assert (cause = LambdaDisableReason.None_) as Hn by (destruct cause; try done; exfalso; by apply Hc).
    destruct (closed_loop_trim_ok cfg (LambdaTrimInputs.measured_lambda100 i) (fun trim =>
      if cut then Some (p0 <| LambdaTrimPlanner.last_mode := LambdaMode.ClosedLoop |>,
        LambdaTrimResult.new LambdaMode.ClosedLoop false (LambdaTrimConfig.closed_loop_target cfg)
          (LambdaTrimInputs.measured_lambda100 i) (LambdaTrimPlanner.last_trim_x100 (p0 <| LambdaTrimPlanner.last_mode := LambdaMode.ClosedLoop |>))
          LambdaDisableReason.PowerReductionCut)
      else if freeze then Some (p0 <| LambdaTrimPlanner.last_mode := LambdaMode.ClosedLoop |>,
        LambdaTrimResult.new LambdaMode.ClosedLoop false (LambdaTrimConfig.closed_loop_target cfg)
          (LambdaTrimInputs.measured_lambda100 i) (LambdaTrimPlanner.last_trim_x100 (p0 <| LambdaTrimPlanner.last_mode := LambdaMode.ClosedLoop |>))
          LambdaDisableReason.AccelerationEnrichment)
      else Some (p0 <| LambdaTrimPlanner.last_mode := LambdaMode.ClosedLoop |> <| LambdaTrimPlanner.last_trim_x100 := trim |>,
        LambdaTrimResult.new LambdaMode.ClosedLoop true (LambdaTrimConfig.closed_loop_target cfg)
          (LambdaTrimInputs.measured_lambda100 i) trim LambdaDisableReason.None_)) Hf) as [Et Bt].
    cbv beta in Et. destruct cut; [|destruct freeze]; rewrite Et; do 2 eexists; (split; [reflexivity|]).
    + split; [by split|]. split; [done|]. split; [exact Hp1|]. split; [done|]. split; [done|]. intros _. done.
    + split; [by split|]. split; [done|]. split; [exact Hp1|]. split; [done|]. split; [done|]. intros _. done.
    + split; [by split|]. split; [done|]. split; [exact Bt|]. split; [done|]. split; [done|]. intros _. done.
Qed.

(** ** Examples *)
Definition sample_fuel : BaseFuelModel.t :=
  BaseFuelModel.new (map (fun i => 500 * Z.of_nat i) (seq 1 16)) (map (fun i => 100 * Z.of_nat i) (seq 2 16))
    (map (fun l => map (fun r => Z.of_nat (16 * l + r)) (seq 0 16)) (seq 0 16)).

Example sample_fuel_cells :
  map (fun '(rpm, load) => BaseFuelModel.calculate_base_fuel rpm load sample_fuel)
    [(750, 250); (3000, 700); (9000, 1900); (0, 0)] = [Some 0; Some 85; Some 255; Some 0].
Proof. reflexivity. Qed.

Lemma nth_affine k b n i : (i < n)%nat -> nth i (map (fun i => k * Z.of_nat i) (seq b n)) 0 = k * Z.of_nat (b + i).
Proof.
  intros Hi. rewrite (nth_indep _ 0 (k * Z.of_nat 0)) by (by rewrite length_map, length_seq).
  rewrite (map_nth (fun i => k * Z.of_nat i)), seq_nth by done. done.
Qed.

Lemma base_fuel_cell_witness :
  exists r l row pw, bin_of (BaseFuelModel.rpm_bins sample_fuel) 3000 r
    /\ bin_of (BaseFuelModel.load_bins sample_fuel) 700 l
    /\ BaseFuelModel.pulse_widths sample_fuel !! l = Some row /\ row !! r = Some pw
    /\ BaseFuelModel.calculate_base_fuel 3000 700 sample_fuel = Some pw.
Proof.
  apply (base_fuel_cell sample_fuel 3000 700).
  - split; [reflexivity|]. repeat (apply Forall_cons_2; [reflexivity|]). apply Forall_nil_2.
  - intros i j H. unfold sample_fuel. cbn [BaseFuelModel.new BaseFuelModel.rpm_bins]. rewrite !nth_affine by lia. lia.
  - intros i j H. unfold sample_fuel. cbn [BaseFuelModel.new BaseFuelModel.load_bins]. rewrite !nth_affine by lia. lia.
Defined.

Lemma ignition_plan_bounds_witness :
  exists p, IgnitionPlanner.plan (IgnitionInputs.mk 150 10 20 0 true 4500) DwellConfig.DEFAULT = Some p
  /\ -200 <= IgnitionPlan.advance_deg10 p <= 600.
Proof.
  destruct (ignition_plan_bounds (IgnitionInputs.mk 150 10 20 0 true 4500) DwellConfig.DEFAULT)
    as (p & H1 & _ & H2 & _).
  - unfold ignition_inputs_fit, i16, fits. cbn. lia.
  - unfold dwell_config_fits, fits. cbn. lia.
  - cbn. lia.
  - exists p. exact (conj H1 H2).
Defined.

Lemma startup_taper_decays_witness :
  exists s0 s1 s2 p1 p2,
    StartupState.update 4294967000 true StartupConfig.DEFAULT StartupState.new = Some (s0, 150)
    /\ StartupState.update (wrapping_add 32 4294967000 1500000) false StartupConfig.DEFAULT s0 = Some (s1, p1)
    /\ StartupState.update (wrapping_add 32 4294967000 3000000) false StartupConfig.DEFAULT s1 = Some (s2, p2)
    /\ p2 = 100.
Proof.
  destruct (startup_taper_decays StartupConfig.DEFAULT StartupState.new 4294967000 1500000 3000000)
    as (s0 & s1 & s2 & p1 & p2 & H0 & H1 & H2 & _ & _ & H3).
  - unfold taper_fits, fits. vm_compute. repeat split; discriminate.
  - unfold fits. lia.
  - lia.
  - lia.
  - exists s0, s1, s2, p1, p2. split; [exact H0|]. split; [exact H1|]. split; [exact H2|].
    apply H3. vm_compute. discriminate.
Defined.

(** A threefold enrichment tapered over thirty seconds overflows at once. *)
Definition overflowing_startup : StartupConfig.t := StartupConfig.mk 300 30000.

Lemma startup_overflow_iff_witness :
  StartupState.update 1000 false overflowing_startup (StartupState.mk true 0) = None.
Proof.
  apply (startup_overflow_iff 1000 false overflowing_startup (StartupState.mk true 0)).
  - unfold fits. cbn. lia.
  - unfold fits. cbn. lia.
  - split; [reflexivity|]. split; [reflexivity|]. split; [reflexivity|]. vm_compute. discriminate.
Defined.

Definition sample_enrichment_input : EnrichmentInputs.t := EnrichmentInputs.mk 5000 20 true true 200 0.

Lemma enrichment_controller_bounded_witness :
  exists c' r, EnrichmentController.update sample_enrichment_input StartupConfig.DEFAULT WarmupConfig.DEFAULT
    AfterStartConfig.DEFAULT AccelerationConfig.DEFAULT EnrichmentController.new = Some (c', r)
  /\ within 150 (EnrichmentResult.startup_x100 r).
Proof.
  destruct (enrichment_controller_bounded sample_enrichment_input StartupConfig.DEFAULT WarmupConfig.DEFAULT
    AfterStartConfig.DEFAULT AccelerationConfig.DEFAULT EnrichmentController.new) as (c' & r & H1 & H2 & _).
  - constructor.
    + unfold taper_fits, fits. vm_compute. repeat split; discriminate.
    + unfold warmup_fits, fits. cbn. lia.
    + unfold taper_fits, fits. vm_compute. repeat split; discriminate.
    + unfold fits. cbn. lia.
  - apply within_neutral.
  - exists c', r. exact (conj H1 H2).
Defined.

Lemma enrichment_total_exact_witness :
  EnrichmentResult.apply_to 60000 (EnrichmentResult.new 150 140 120 115) = Some 65535.
Proof.
  destruct (enrichment_total_exact (EnrichmentResult.new 150 140 120 115) 60000) as (_ & _ & H);
    [cbn; lia|cbn; lia|cbn; lia|cbn; lia|unfold fits; lia|]. exact H.
Defined.

Lemma cranking_gate_hysteresis_witness :
  CrankingGate.is_cranking (gate_run ([900; 0] ++ 400 :: [550; 599]) CrankingGate.new) = true.
Proof.
  apply (cranking_gate_hysteresis [900; 0] 400 [550; 599] CrankingGate.new).
  - unfold CRANKING_RPM_THRESHOLD, CRANKING_EXIT_RPM. repeat (apply Forall_cons_2; [lia|]). apply Forall_nil_2.
  - unfold CRANKING_RPM_THRESHOLD. lia.
Defined.

Definition sample_drive : list Sample.t := [Sample.mk 0 3000 0 20; Sample.mk 250000 2900 0 20].

Lemma dfco_active_justified_witness :
  exists s, dfco_trace DfcoConfig.DEFAULT sample_drive s
  /\ exists y z, justified DfcoConfig.DEFAULT sample_drive y z
     /\ DecelFuelCutState.last_change_ts s = Sample.now_us z.
Proof.
  assert (dfco_trace DfcoConfig.DEFAULT sample_drive (DecelFuelCutState.mk true 0 250000 true)) as Ht.
  { apply (dfco_step _ [Sample.mk 0 3000 0 20] (DecelFuelCutState.mk false 0 0 true) (Sample.mk 250000 2900 0 20) _ true);
      [|reflexivity].
    apply (dfco_step _ [] DecelFuelCutState.new (Sample.mk 0 3000 0 20) _ false); [constructor|reflexivity]. }
  exists (DecelFuelCutState.mk true 0 250000 true). split; [exact Ht|].
  exact (dfco_active_justified DfcoConfig.DEFAULT sample_drive _ Ht eq_refl).
Defined.

Definition sample_lambda_input (measured : Z) : LambdaTrimInputs.t := LambdaTrimInputs.mk 5000 80 false true measured false.

Lemma lambda_update_spec_witness :
  exists p' r, LambdaTrimPlanner.update (sample_lambda_input 105) LambdaTrimConfig.DEFAULT 500 false false
    LambdaTrimPlanner.new = Some (p', r) /\ LambdaTrimResult.trim_x100 r = 98.
Proof.
  destruct (lambda_update_spec (sample_lambda_input 105) LambdaTrimConfig.DEFAULT 500 false false LambdaTrimPlanner.new)
    as (p' & r & H1 & _ & _ & _ & _ & _ & H2).
  - unfold lambda_fits. cbn. lia.
  - apply planner_new_wf. cbn. lia.
  - exists p', r. split; [exact H1|]. exact (proj1 (proj2 (proj2 (H2 eq_refl)))).
Defined.

(** A gain of its type and a plausible measurement overflow the trim. *)
Example lambda_gain_overflows :
  LambdaTrimPlanner.update (sample_lambda_input 300)
    (LambdaTrimConfig.mk 100 100 40 30 300 250 0 85 115 200) 500 false false LambdaTrimPlanner.new = None.
Proof. reflexivity. Qed.
