(* ===== verification/Semantic.v ===== *)
(** * Interpolated tables of the fuel strategy (crates/runtime/src/semantic)

    Axes, curves and tables of types.rs, with the validation of an axis and the lookups of
    fuel.rs and schedule.rs.  [Axis16] is [RuntimeSemanticAxis16], [Curve16] is
    [RuntimeSemanticCurve16U16], [Table2d] the three two-dimensional tables and
    [DeadtimeTable] the one whose axes have names of their own.  Indexing out of bounds
    is [None].  The theorems say what a lookup on validated axes returns: the value at a
    breakpoint, and never outside the values around the operating point. *)
From S2P Require Import Prelude.

Definition RUNTIME_SEMANTIC_TABLE_LEN : nat := 16.

Module Axis16.
Record t := mk { len : Z; values : list Z }.
End Axis16.

(** [RuntimeSemanticTable2dU16], [RuntimeSemanticTable2dI16] and [RuntimeSemanticTable2dU32]:
    values by load, then by speed. *)
Module Table2d.
Record t := mk { rpm_axis : Axis16.t; load_axis : Axis16.t; values : list (list Z) }.
End Table2d.

Module DeadtimeTable.
Record t := mk { vbat_mv_axis : Axis16.t; pressure_kpa10_axis : Axis16.t; values : list (list Z) }.
End DeadtimeTable.

Module Curve16.
Record t := mk { axis : Axis16.t; values : list Z }.
End Curve16.

Module FuelError.
Inductive t := AxisLenInvalid | AxisNotStrictlyIncreasing | ZeroPrefKpa | ZeroTargetAfr | CorrectionRangeInvalid.
#[global] Instance eq_dec : EqDecision t.
Proof. solve_decision. Defined.
End FuelError.

(** ** Lookups *)
Definition clamp_u16_s (value lo hi : Z) : Z :=
  if value <? lo then lo else if hi <? value then hi else value.

Definition mul_div_floor_u64 (num mul div : Z) : option Z :=
  m ← chk 64 (num * mul);
  Some (if div =? 0 then 0 else m / div).

Definition mul_ratio_x1000_floor (value ratio_x1000 : Z) : option Z :=
  m ← chk 64 (value * ratio_x1000);
  Some (as_unsigned 32 (m / 1000)).

(** [n] rounds are left, at index [idx]. *)
Fixpoint find_segment_loop (n idx len : nat) (axis : Axis16.t) (clipped : Z) : option nat :=
  match n with
  | O => Some (len - 2)%nat
  | S n =>
    lo ← Axis16.values axis !! idx;
    hi ← Axis16.values axis !! (idx + 1)%nat;
    let is_last := (idx + 1 =? len - 1)%nat in
    if (lo <=? clipped) && ((clipped <? hi) || (is_last && (clipped =? hi))) then Some idx
    else find_segment_loop n (idx + 1) len axis clipped
  end.

Definition semantic_find_segment (axis : Axis16.t) (x : Z) : option nat :=
  let len := Z.to_nat (Axis16.len axis) in
  if (len <? 2)%nat then Some 0%nat
  else
    first ← Axis16.values axis !! 0%nat;
    last ← Axis16.values axis !! (len - 1)%nat;
    find_segment_loop (len - 1) 0 len axis (clamp_u16_s x first last).

(** The interpolation that the three widths share, before its result is cast. *)
Definition semantic_lerp (x0 x1 y0 y1 x : Z) : Z :=
  if x1 <=? x0 then y0
  else
    let x_clip := clamp_u16_s x x0 x1 in
    let num := x_clip - x0 in
    let den := x1 - x0 in
    let product := (y1 - y0) * num in
    let quotient := Z.quot product den in
    let remainder := Z.rem product den in
    let correction := if (product <? 0) && negb (remainder =? 0) then -1 else 0 in
    y0 + quotient + correction.

Definition semantic_lerp_u16 (x0 x1 y0 y1 x : Z) : Z := as_unsigned 32 (semantic_lerp x0 x1 y0 y1 x).
Definition semantic_lerp_i32 (x0 x1 y0 y1 x : Z) : Z := as_signed 32 (semantic_lerp x0 x1 y0 y1 x).
Definition semantic_lerp_u32 (x0 x1 y0 y1 x : Z) : Z := as_unsigned 32 (semantic_lerp x0 x1 y0 y1 x).

Definition cell (table : Table2d.t) (load_idx rpm_idx : nat) : option Z :=
  row ← Table2d.values table !! load_idx; row !! rpm_idx.

(** The body that the three table lookups share; [lerp] is their interpolation and
    [narrow] the cast between its two uses. *)
Definition semantic_bilerp (lerp : Z -> Z -> Z -> Z -> Z -> Z) (narrow : Z -> Z)
    (table : Table2d.t) (rpm load : Z) : option Z :=
  let rpm_axis := Table2d.rpm_axis table in
  let load_axis := Table2d.load_axis table in
  let len_rpm := Z.to_nat (Axis16.len rpm_axis) in
  let len_load := Z.to_nat (Axis16.len load_axis) in
  if (len_rpm <? 2)%nat || (len_load <? 2)%nat then cell table 0 0
  else
    rpm_idx ← semantic_find_segment rpm_axis rpm;
    load_idx ← semantic_find_segment load_axis load;
    let rpm_next := Nat.min (rpm_idx + 1) (len_rpm - 1) in
    let load_next := Nat.min (load_idx + 1) (len_load - 1) in
    rpm_lo ← Axis16.values rpm_axis !! rpm_idx;
    rpm_hi ← Axis16.values rpm_axis !! rpm_next;
    load_lo ← Axis16.values load_axis !! load_idx;
    load_hi ← Axis16.values load_axis !! load_next;
    v00 ← cell table load_idx rpm_idx;
    v01 ← cell table load_next rpm_idx;
    v10 ← cell table load_idx rpm_next;
    v11 ← cell table load_next rpm_next;
    let interp_lo := lerp rpm_lo rpm_hi v00 v10 rpm in
    let interp_hi := lerp rpm_lo rpm_hi v01 v11 rpm in
    Some (lerp load_lo load_hi (narrow interp_lo) (narrow interp_hi) load).

Definition semantic_bilerp_u16 : Table2d.t -> Z -> Z -> option Z :=
  semantic_bilerp semantic_lerp_u16 (as_unsigned 16).
Definition semantic_bilerp_i16 : Table2d.t -> Z -> Z -> option Z :=
  semantic_bilerp semantic_lerp_i32 id.
Definition semantic_bilerp_u32 : Table2d.t -> Z -> Z -> option Z :=
  semantic_bilerp semantic_lerp_u32 id.

Definition semantic_deadtime_lookup_us (table : DeadtimeTable.t) (vbat_mv pressure_kpa10 : Z) : option Z :=
  semantic_bilerp_u16
    (Table2d.mk (DeadtimeTable.vbat_mv_axis table) (DeadtimeTable.pressure_kpa10_axis table) (DeadtimeTable.values table))
    vbat_mv pressure_kpa10.

Definition semantic_curve_lookup (curve : Curve16.t) (x : Z) : option Z :=
  let axis := Curve16.axis curve in
  let len := Z.to_nat (Axis16.len axis) in
  if (len <? 2)%nat then Curve16.values curve !! 0%nat
  else
    idx ← semantic_find_segment axis x;
    let next_idx := Nat.min (idx + 1) (len - 1) in
    x0 ← Axis16.values axis !! idx;
    x1 ← Axis16.values axis !! next_idx;
    y0 ← Curve16.values curve !! idx;
    y1 ← Curve16.values curve !! next_idx;
    Some (semantic_lerp_u16 x0 x1 y0 y1 x).

(** ** Validation *)
Fixpoint validate_axis_loop (n idx : nat) (axis : Axis16.t) : option (Result unit FuelError.t) :=
  match n with
  | O => Some (Ok tt)
  | S n =>
    lo ← Axis16.values axis !! idx;
    hi ← Axis16.values axis !! (idx + 1)%nat;
    if hi <=? lo then Some (Err FuelError.AxisNotStrictlyIncreasing)
    else validate_axis_loop n (idx + 1) axis
  end.

Definition validate_axis (axis : Axis16.t) : option (Result unit FuelError.t) :=
  let len := Z.to_nat (Axis16.len axis) in
  if (len <? 2)%nat || (RUNTIME_SEMANTIC_TABLE_LEN <? len)%nat then Some (Err FuelError.AxisLenInvalid)
  else validate_axis_loop (len - 1) 0 axis.

(** A sequence of [validate_axis(..)?]. *)
Fixpoint validate_axes (axes : list Axis16.t) : option (Result unit FuelError.t) :=
  match axes with
  | [] => Some (Ok tt)
  | axis :: rest =>
    r ← validate_axis axis;
    match r with Ok _ => validate_axes rest | Err e => Some (Err e) end
  end.

(** ** What a lookup returns *)

Definition axis_typed (a : Axis16.t) : Prop :=
  u8 (Axis16.len a) /\ length (Axis16.values a) = 16%nat /\ Forall u16 (Axis16.values a).

Definition axis_len (a : Axis16.t) : nat := Z.to_nat (Axis16.len a).
Definition axis_at (a : Axis16.t) (i : nat) : Z := Axis16.values a !!! i.

Definition axis_valid (a : Axis16.t) : Prop :=
  (2 <= axis_len a <= 16)%nat
  /\ forall i, (i + 1 < axis_len a)%nat -> axis_at a i < axis_at a (i + 1).

(** The operating point, held to the ends of the axis, and its segment: half open on the
    right but for the last one. *)
Definition on_axis (a : Axis16.t) (x : Z) : Z := clamp x (axis_at a 0) (axis_at a (axis_len a - 1)).
Definition segment_of (a : Axis16.t) (x : Z) (i : nat) : Prop :=
  (i + 1 < axis_len a)%nat
  /\ axis_at a i <= on_axis a x <= axis_at a (i + 1)
  /\ ((i + 2 < axis_len a)%nat -> on_axis a x < axis_at a (i + 1)).

Definition table_typed (P : Z -> Prop) (t : Table2d.t) : Prop :=
  axis_typed (Table2d.rpm_axis t) /\ axis_typed (Table2d.load_axis t)
  /\ length (Table2d.values t) = 16%nat
  /\ Forall (fun row => length row = 16%nat /\ Forall P row) (Table2d.values t).
Definition table_valid (t : Table2d.t) : Prop :=
  axis_valid (Table2d.rpm_axis t) /\ axis_valid (Table2d.load_axis t).
Definition table_at (t : Table2d.t) (load rpm : nat) : Z := (Table2d.values t !!! load) !!! rpm.

Definition curve_typed (c : Curve16.t) : Prop :=
  axis_typed (Curve16.axis c) /\ length (Curve16.values c) = 16%nat /\ Forall u16 (Curve16.values c).

(** The interpolations: on values in a range closed under taking values in between, an
    interpolation is the one of the integers and its cast changes nothing. *)
Definition between (a b y : Z) : Prop := Z.min a b <= y <= Z.max a b.
Class LerpWidth (lerp : Z -> Z -> Z -> Z -> Z -> Z) (narrow : Z -> Z) (P : Z -> Prop) := {
  lerp_exact : forall x0 x1 y0 y1 x, P y0 -> P y1 -> lerp x0 x1 y0 y1 x = semantic_lerp x0 x1 y0 y1 x;
  narrow_exact : forall y, P y -> narrow y = y;
  width_convex : forall a b y, P a -> P b -> between a b y -> P y }.

Lemma axis_lookup a i : axis_typed a -> (i < 16)%nat -> Axis16.values a !! i = Some (axis_at a i).
Proof. intros (_ & H & _) Hi. apply list_lookup_lookup_total_lt. lia. Qed.

Lemma axis_at_u16 a i : axis_typed a -> (i < 16)%nat -> u16 (axis_at a i).
Proof. intros H Hi. eapply Forall_lookup_1; [apply H|]. by apply axis_lookup. Qed.

Lemma axis_mono a i j : axis_valid a -> (i < j < axis_len a)%nat -> axis_at a i < axis_at a j.
Proof.
  intros [_ H] [Hij Hj]. induction j as [|j IH]; [lia|]. pose proof (H j ltac:(lia)) as Hs.
  rewrite Nat.add_1_r in Hs. destruct (decide (i = j)) as [->|]; [done|]. specialize (IH ltac:(lia) ltac:(lia)). lia.
Qed.

Lemma on_axis_bounds a x : axis_valid a -> axis_at a 0 <= on_axis a x <= axis_at a (axis_len a - 1).
Proof.
  intros H. apply clamp_bounds. pose proof (axis_mono a 0 (axis_len a - 1) H). destruct H. lia.
Qed.

Lemma find_segment_loop_spec a x n idx : axis_typed a -> axis_valid a ->
  (n + idx + 1 = axis_len a)%nat -> (0 < n)%nat -> axis_at a idx <= on_axis a x ->
  exists i, find_segment_loop n idx (axis_len a) a (on_axis a x) = Some i /\ segment_of a x i.
Proof.
  intros Ht Hv. pose proof (on_axis_bounds a x Hv) as Hb. pose proof Hv as [Hl _].
  revert idx. induction n as [|n IH]; intros idx Hn H0 Hx; [lia|]. cbn [find_segment_loop].
  rewrite (axis_lookup a idx), (axis_lookup a (idx + 1)) by (done || lia). cbn [mbind option_bind].
  destruct (Z.leb_spec (axis_at a idx) (on_axis a x)); [|lia]. cbn [andb].
  destruct (Z.ltb_spec (on_axis a x) (axis_at a (idx + 1))).
  - exists idx. split; [done|]. split; [lia|]. split; [lia|done].
  - cbn [orb]. destruct (Nat.eqb_spec (idx + 1) (axis_len a - 1)) as [E|E].
    + rewrite <- E in Hb. assert (on_axis a x = axis_at a (idx + 1)) as Heq by lia. rewrite Heq, Z.eqb_refl.
      exists idx. split; [done|]. split; [lia|]. split; [rewrite Heq; lia|lia].
    + apply IH; lia.
Qed.

Lemma find_segment_spec a x : axis_typed a -> axis_valid a ->
  exists i, semantic_find_segment a x = Some i /\ segment_of a x i.
Proof.
  intros Ht Hv. pose proof Hv as [Hl _]. unfold semantic_find_segment. fold (axis_len a).
  destruct (Nat.ltb_spec (axis_len a) 2); [lia|].
  rewrite (axis_lookup a 0), (axis_lookup a (axis_len a - 1)) by (done || lia).
  apply (find_segment_loop_spec a x); [done|done|lia|lia|]. apply on_axis_bounds, Hv.
Qed.

(** Truncated division with its correction is division rounding down. *)
Lemma lerp_floor x0 x1 y0 y1 x : x0 < x1 ->
  semantic_lerp x0 x1 y0 y1 x = y0 + (y1 - y0) * (clamp_u16_s x x0 x1 - x0) / (x1 - x0).
Proof.
  intros Hlt. unfold semantic_lerp. destruct (Z.leb_spec x1 x0); [lia|].
  set (d := x1 - x0). set (p := (y1 - y0) * _). assert (0 < d) by lia.
  assert (Z.quot p d + (if (p <? 0) && negb (Z.rem p d =? 0) then -1 else 0) = p / d); [|lia].
  apply Z.div_unique with (Z.rem p d + (if (p <? 0) && negb (Z.rem p d =? 0) then d else 0)).
  - left. destruct (Z.ltb_spec p 0); cbn [andb].
    + pose proof (Z.rem_bound_pos_neg p d ltac:(lia) ltac:(lia)). destruct (Z.eqb_spec (Z.rem p d) 0); cbn [negb]; lia.
    + pose proof (Z.rem_bound_pos p d ltac:(lia) ltac:(lia)). lia.
  - pose proof (Z.quot_rem' p d). destruct ((p <? 0) && negb (Z.rem p d =? 0)); lia.
Qed.

Lemma lerp_between x0 x1 y0 y1 x : between y0 y1 (semantic_lerp x0 x1 y0 y1 x).
Proof.
  destruct (Z.le_gt_cases x1 x0) as [H|H].
  { unfold semantic_lerp, between. destruct (Z.leb_spec x1 x0); lia. }
  rewrite lerp_floor by done. set (d := x1 - x0). set (n := clamp_u16_s x x0 x1 - x0).
  assert (0 <= n <= d) by (unfold n, d; pose proof (clamp_bounds x x0 x1); unfold clamp, clamp_u16_s in *; lia).
  unfold between. destruct (Z.le_ge_cases y0 y1).
  - assert (0 <= (y1 - y0) * n / d <= y1 - y0); [|lia]. split; [apply Z.div_pos; nia|apply Z.div_le_upper_bound; nia].
  - assert (y1 - y0 <= (y1 - y0) * n / d <= 0); [|lia]. split; [apply Z.div_le_lower_bound; nia|apply Z.div_le_upper_bound; nia].
Qed.

(** Within its segment a point is held to the axis by the segment's own ends. *)
Lemma segment_clamp a x i : axis_valid a -> segment_of a x i ->
  clamp_u16_s x (axis_at a i) (axis_at a (i + 1)) = on_axis a x.
Proof.
  intros Hv (Hi & Hx & Hr). pose proof Hv as [Hl _].
  assert (axis_at a 0 <= axis_at a i) by (destruct i; [done|]; pose proof (axis_mono a 0 (S i) Hv); lia).
  assert (axis_at a (i + 1) <= axis_at a (axis_len a - 1)).
  { destruct (decide (i + 1 = axis_len a - 1)%nat) as [->|]; [done|]. pose proof (axis_mono a (i + 1) (axis_len a - 1) Hv). lia. }
  unfold clamp_u16_s, on_axis, clamp in *.
  repeat match goal with |- context [?u <? ?v] => destruct (Z.ltb_spec u v) | H : context [?u <? ?v] |- _ => destruct (Z.ltb_spec u v) end; lia.
Qed.

(** At a breakpoint the interpolation returns its value, in whichever of the two segments
    beside it the search ended. *)
Lemma lerp_breakpoint a i k (y : nat -> Z) : axis_valid a -> (k < axis_len a)%nat ->
  segment_of a (axis_at a k) i ->
  semantic_lerp (axis_at a i) (axis_at a (i + 1)) (y i) (y (i + 1)%nat) (axis_at a k) = y k.
Proof.
  intros Hv Hk Hs. pose proof (segment_clamp _ _ _ Hv Hs) as Hc. destruct Hs as (Hi & Hx & Hr). pose proof (proj2 Hv i Hi) as Hlt.
  rewrite lerp_floor, Hc by done.
  assert (on_axis a (axis_at a k) = axis_at a k) as E.
  { unfold on_axis, clamp. pose proof (axis_mono a 0 k Hv). pose proof (axis_mono a k (axis_len a - 1) Hv).
    destruct (Z.ltb_spec (axis_at a k) (axis_at a 0)); [destruct k; lia|].
    destruct (Z.ltb_spec (axis_at a (axis_len a - 1)) (axis_at a k)); [|done].
    destruct (decide (k = axis_len a - 1)%nat) as [->|]; lia. }
  rewrite E in *.
  destruct (lt_eq_lt_dec k i) as [[Hki|Hki]|Hki].
  - pose proof (axis_mono a k i Hv). lia.
  - rewrite Hki, Z.sub_diag, Z.mul_0_r, Zdiv_0_l. lia.
  - destruct (decide (k = i + 1)%nat) as [->|].
    + rewrite Z.div_mul by lia. lia.
    + pose proof (axis_mono a (i + 1) k Hv). lia.
Qed.

#[export] Instance lerp_width_u16 : LerpWidth semantic_lerp_u16 (as_unsigned 16) u16.
Proof.
  assert (forall a b y, u16 a -> u16 b -> between a b y -> u16 y) as Hc by (unfold between, fits; lia).
  split; [|intros y Hy; by apply as_unsigned_small|done].
  intros x0 x1 y0 y1 x H0 H1. apply as_unsigned_small.
  pose proof (Hc _ _ _ H0 H1 (lerp_between x0 x1 y0 y1 x)). unfold fits in *. lia.
Qed.

#[export] Instance lerp_width_i16 : LerpWidth semantic_lerp_i32 id i16.
Proof.
  assert (forall a b y, i16 a -> i16 b -> between a b y -> i16 y) as Hc by (unfold between, i16; lia).
  split; [|done|done].
  intros x0 x1 y0 y1 x H0 H1. apply as_signed_small; [done|].
  pose proof (Hc _ _ _ H0 H1 (lerp_between x0 x1 y0 y1 x)). unfold i16 in *. lia.
Qed.

#[export] Instance lerp_width_u32 : LerpWidth semantic_lerp_u32 id u32.
Proof.
  assert (forall a b y, u32 a -> u32 b -> between a b y -> u32 y) as Hc by (unfold between, fits; lia).
  split; [|done|done].
  intros x0 x1 y0 y1 x H0 H1. apply as_unsigned_small. exact (Hc _ _ _ H0 H1 (lerp_between x0 x1 y0 y1 x)).
Qed.

(** Between values that satisfy any convex predicate lies a value that does. *)
Lemma between_convex (lo hi a b y : Z) : lo <= a <= hi -> lo <= b <= hi -> between a b y -> lo <= y <= hi.
Proof. unfold between. lia. Qed.

Definition curve_at (c : Curve16.t) (i : nat) : Z := Curve16.values c !!! i.

Lemma curve_lookup_at c x : curve_typed c -> axis_valid (Curve16.axis c) ->
  exists i, segment_of (Curve16.axis c) x i
  /\ semantic_curve_lookup c x
     = Some (semantic_lerp (axis_at (Curve16.axis c) i) (axis_at (Curve16.axis c) (i + 1)) (curve_at c i) (curve_at c (i + 1)) x)
  /\ u16 (curve_at c i) /\ u16 (curve_at c (i + 1)).
Proof.
  intros (Ha & Hl & Hc) Hv. destruct (find_segment_spec _ x Ha Hv) as (i & E & Hs). exists i. split; [done|].
  pose proof Hs as (Hi & _). pose proof Hv as [Hn _]. unfold semantic_curve_lookup. rewrite E. fold (axis_len (Curve16.axis c)).
  assert (forall k, (k < 16)%nat -> Curve16.values c !! k = Some (curve_at c k)) as Hk
    by (intros k ?; apply list_lookup_lookup_total_lt; lia).
  assert (forall k, (k < 16)%nat -> u16 (curve_at c k)) as Hu by (intros k ?; eapply Forall_lookup_1; [exact Hc|by apply Hk]).
  destruct (Nat.ltb_spec (axis_len (Curve16.axis c)) 2); [lia|]. cbn [mbind option_bind].
  rewrite Nat.min_l by lia. rewrite !(axis_lookup (Curve16.axis c)), !Hk by (done || lia). cbn [mbind option_bind].
  rewrite (@lerp_exact _ _ _ lerp_width_u16) by (apply Hu; lia).
  split; [done|]. split; apply Hu; lia.
Qed.

(** The lookup of a curve lies between any bounds of the values its axis uses. *)
Lemma curve_lookup_within c x lo hi : curve_typed c -> axis_valid (Curve16.axis c) ->
  (forall i, (i < axis_len (Curve16.axis c))%nat -> lo <= curve_at c i <= hi) ->
  exists y, semantic_curve_lookup c x = Some y /\ u16 y /\ lo <= y <= hi.
Proof.
  intros Hc Hv Hb. destruct (curve_lookup_at c x Hc Hv) as (i & (Hi & _) & -> & U0 & U1).
  pose proof (lerp_between (axis_at (Curve16.axis c) i) (axis_at (Curve16.axis c) (i + 1)) (curve_at c i) (curve_at c (i + 1)) x) as Hy.
  eexists. split; [reflexivity|]. split; [exact (@width_convex _ _ _ lerp_width_u16 _ _ _ U0 U1 Hy)|].
  eapply between_convex; [apply (Hb i); lia|apply (Hb (i + 1)%nat); lia|exact Hy].
Qed.

Lemma curve_lookup_u16 c x : curve_typed c -> axis_valid (Curve16.axis c) ->
  exists y, semantic_curve_lookup c x = Some y /\ u16 y.
Proof.
  intros Hc Hv. destruct (curve_lookup_at c x Hc Hv) as (i & _ & -> & U0 & U1). eexists. split; [reflexivity|].
  exact (@width_convex _ _ _ lerp_width_u16 _ _ _ U0 U1 (lerp_between _ _ _ _ x)).
Qed.

(** ** Tables *)
Section Tables.
Context {lerp : Z -> Z -> Z -> Z -> Z -> Z} {narrow : Z -> Z} {P : Z -> Prop} `{!LerpWidth lerp narrow P}.
Implicit Types (t : Table2d.t).

Lemma cell_at t j i : table_typed P t -> (j < 16)%nat -> (i < 16)%nat -> cell t j i = Some (table_at t j i) /\ P (table_at t j i).
Proof.
  intros (_ & _ & Hl & Hr) Hj Hi. unfold cell, table_at.
  rewrite (list_lookup_lookup_total_lt (Table2d.values t) j) by lia. cbn [mbind option_bind].
  assert (Table2d.values t !! j = Some (Table2d.values t !!! j)) as E by (apply list_lookup_lookup_total_lt; lia).
  destruct (Forall_lookup_1 _ _ _ _ Hr E) as [Hlen HP].
  assert ((Table2d.values t !!! j) !! i = Some ((Table2d.values t !!! j) !!! i)) as E' by (apply list_lookup_lookup_total_lt; lia).
  split; [exact E'|]. exact (Forall_lookup_1 _ _ _ _ HP E').
Qed.

(** A lookup interpolates along the speed in the rows of two loads, and then between them. *)
Lemma bilerp_at t rpm load : table_typed P t -> table_valid t ->
  exists i j, segment_of (Table2d.rpm_axis t) rpm i /\ segment_of (Table2d.load_axis t) load j
  /\ let along k := semantic_lerp (axis_at (Table2d.rpm_axis t) i) (axis_at (Table2d.rpm_axis t) (i + 1))
       (table_at t k i) (table_at t k (i + 1)) rpm in
     semantic_bilerp lerp narrow t rpm load
     = Some (semantic_lerp (axis_at (Table2d.load_axis t) j) (axis_at (Table2d.load_axis t) (j + 1)) (along j) (along (j + 1)%nat) load)
  /\ P (along j) /\ P (along (j + 1)%nat).
Proof.
  intros Ht [Hvr Hvl]. pose proof Ht as (Hr & Hl & _).
  destruct (find_segment_spec _ rpm Hr Hvr) as (i & Ei & Hsi). destruct (find_segment_spec _ load Hl Hvl) as (j & Ej & Hsj).
  exists i, j. split; [done|]. split; [done|]. cbv zeta.
  pose proof Hsi as [Hi _]. pose proof Hsj as [Hj _]. pose proof Hvr as [Hnr _]. pose proof Hvl as [Hnl _].
  unfold semantic_bilerp. fold (axis_len (Table2d.rpm_axis t)) (axis_len (Table2d.load_axis t)).
  destruct (Nat.ltb_spec (axis_len (Table2d.rpm_axis t)) 2); [lia|].
  destruct (Nat.ltb_spec (axis_len (Table2d.load_axis t)) 2); [lia|]. cbn [orb].
  rewrite Ei, Ej. cbn [mbind option_bind]. rewrite !Nat.min_l by lia.
  rewrite !(axis_lookup (Table2d.rpm_axis t)), !(axis_lookup (Table2d.load_axis t)) by (done || lia). cbn [mbind option_bind].
  destruct (cell_at t j i Ht ltac:(lia) ltac:(lia)) as [-> P00].
  destruct (cell_at t (j + 1) i Ht ltac:(lia) ltac:(lia)) as [-> P01].
  destruct (cell_at t j (i + 1) Ht ltac:(lia) ltac:(lia)) as [-> P10].
  destruct (cell_at t (j + 1) (i + 1) Ht ltac:(lia) ltac:(lia)) as [-> P11]. cbn [mbind option_bind].
  rewrite (lerp_exact _ _ (table_at t j i)), (lerp_exact _ _ (table_at t (j + 1) i)) by done.
  set (lo := semantic_lerp _ _ (table_at t j i) _ _). set (hi := semantic_lerp _ _ (table_at t (j + 1) i) _ _).
  assert (P lo) as Plo by exact (width_convex _ _ _ P00 P10 (lerp_between _ _ _ _ _)).
  assert (P hi) as Phi by exact (width_convex _ _ _ P01 P11 (lerp_between _ _ _ _ _)).
  rewrite (narrow_exact lo), (narrow_exact hi) by done. by rewrite (lerp_exact _ _ lo hi) by done.
Qed.

(** The lookup of a table lies between any bounds of the values its axes use. *)
Lemma bilerp_within t rpm load lo hi : table_typed P t -> table_valid t ->
  (forall j i, (j < axis_len (Table2d.load_axis t))%nat -> (i < axis_len (Table2d.rpm_axis t))%nat -> lo <= table_at t j i <= hi) ->
  exists y, semantic_bilerp lerp narrow t rpm load = Some y /\ P y /\ lo <= y <= hi.
Proof.
  intros Ht Hv Hb. destruct (bilerp_at t rpm load Ht Hv) as (i & j & (Hi & _) & (Hj & _) & E & P0 & P1).
  eexists. split; [exact E|]. split; [exact (width_convex _ _ _ P0 P1 (lerp_between _ _ _ _ _))|].
  eapply between_convex; [| |apply lerp_between]; (eapply between_convex; [| |apply lerp_between]); apply Hb; lia.
Qed.

Lemma bilerp_ok t rpm load : table_typed P t -> table_valid t ->
  exists y, semantic_bilerp lerp narrow t rpm load = Some y /\ P y.
Proof.
  intros Ht Hv. destruct (bilerp_at t rpm load Ht Hv) as (i & j & _ & _ & E & P0 & P1).
  eexists. split; [exact E|]. exact (width_convex _ _ _ P0 P1 (lerp_between _ _ _ _ _)).
Qed.

(** a table lookup on validated axes never panics and interpolates: whatever the
    operating point, the value lies between the least and the greatest of the four around
    it, an operating point off an axis being held to its end; and at a breakpoint it is the
    value stored there. *)
Theorem table_lookup_interpolates t rpm load : table_typed P t -> table_valid t ->
  (exists i j y, segment_of (Table2d.rpm_axis t) rpm i /\ segment_of (Table2d.load_axis t) load j
    /\ semantic_bilerp lerp narrow t rpm load = Some y
    /\ let corners := [table_at t j i; table_at t j (i + 1); table_at t (j + 1) i; table_at t (j + 1) (i + 1)] in
       foldr Z.min (table_at t j i) corners <= y <= foldr Z.max (table_at t j i) corners)
  /\ forall i j, (i < axis_len (Table2d.rpm_axis t))%nat -> (j < axis_len (Table2d.load_axis t))%nat ->
     semantic_bilerp lerp narrow t (axis_at (Table2d.rpm_axis t) i) (axis_at (Table2d.load_axis t) j) = Some (table_at t j i).
Proof.
  intros Ht Hv. split.
  - destruct (bilerp_at t rpm load Ht Hv) as (i & j & Hi & Hj & E & _). eexists i, j, _.
    split; [done|]. split; [done|]. split; [exact E|]. cbv zeta. cbn [foldr].
    eapply between_convex; [| |apply lerp_between]; (eapply between_convex; [| |apply lerp_between]); lia.
  - intros i j Hi Hj. destruct (bilerp_at t (axis_at (Table2d.rpm_axis t) i) (axis_at (Table2d.load_axis t) j) Ht Hv)
      as (i0 & j0 & Hsi & Hsj & E & _). etransitivity; [exact E|]. f_equal. destruct Hv as [Hvr Hvl].
    rewrite !(lerp_breakpoint _ _ i (table_at t _)) by done.
    exact (lerp_breakpoint _ _ j (fun k => table_at t k i) Hvl Hj Hsj).
Qed.
End Tables.

(** ** Validation *)
Lemma validate_axis_loop_spec n idx a : axis_typed a -> (n + idx + 1 <= 16)%nat ->
  exists r, validate_axis_loop n idx a = Some r
  /\ (r = Ok tt <-> forall i, (idx <= i < idx + n)%nat -> axis_at a i < axis_at a (i + 1))
  /\ (r <> Ok tt -> r = Err FuelError.AxisNotStrictlyIncreasing).
Proof.
  intros Ht. revert idx. induction n as [|n IH]; intros idx Hn; cbn [validate_axis_loop].
  { exists (Ok tt). split; [done|]. split; [split; [lia|done]|done]. }
  rewrite (axis_lookup a idx), (axis_lookup a (idx + 1)) by (done || lia). cbn [mbind option_bind].
  destruct (Z.leb_spec (axis_at a (idx + 1)) (axis_at a idx)).
  - eexists. split; [reflexivity|]. split; [|done]. split; [done|]. intros H0. specialize (H0 idx). lia.
  - destruct (IH (idx + 1)%nat ltac:(lia)) as (r & -> & Hr & He). exists r. split; [done|]. split; [|done].
    rewrite Hr. split; intros Hi i ?; [|apply Hi; lia]. destruct (decide (i = idx)) as [->|]; [done|]. apply Hi. lia.
Qed.

(** An axis passes exactly when it is valid; the error names what is wrong with it. *)
Lemma validate_axis_spec a : axis_typed a ->
  exists r, validate_axis a = Some r /\ (r = Ok tt <-> axis_valid a)
  /\ (r <> Ok tt -> r = Err FuelError.AxisLenInvalid \/ r = Err FuelError.AxisNotStrictlyIncreasing).
Proof.
  intros Ht. unfold validate_axis, axis_valid, RUNTIME_SEMANTIC_TABLE_LEN. fold (axis_len a).
  destruct (Nat.ltb_spec (axis_len a) 2); cbn [orb]; [|destruct (Nat.ltb_spec 16 (axis_len a))].
  1-2: eexists; split; [reflexivity|]; split; [split; [done|lia]|auto].
  destruct (validate_axis_loop_spec (axis_len a - 1) 0 a Ht ltac:(lia)) as (r & -> & Hr & He).
  exists r. split; [done|]. split; [|auto]. rewrite Hr. split; [intros Hi; split; [lia|]; intros i ?; apply Hi; lia|].
  intros [_ Hi] i ?. apply Hi. lia.
Qed.

Lemma validate_axes_spec axes : Forall axis_typed axes ->
  exists r, validate_axes axes = Some r /\ (r = Ok tt <-> Forall axis_valid axes)
  /\ (r <> Ok tt -> r = Err FuelError.AxisLenInvalid \/ r = Err FuelError.AxisNotStrictlyIncreasing).
Proof.
  induction 1 as [|a axes Ha Has (r & Er & Hr & He)]; cbn [validate_axes].
  { exists (Ok tt). split; [done|]. split; [|done]. split; [by constructor|done]. }
  destruct (validate_axis_spec a Ha) as (ra & -> & Hra & Hea). cbn [mbind option_bind].
  destruct ra as [[]|e].
  - exists r. split; [done|]. split; [|done]. rewrite Forall_cons, Hr. tauto.
  - eexists. split; [reflexivity|]. split; [|auto]. split; [done|]. rewrite Forall_cons. intros [Hx _]. by apply Hra in Hx.
Qed.

(** ** An example *)
#[export] Instance fits_decision w x : Decision (fits w x).
Proof. unfold fits. apply _. Defined.

Definition pad16 (l : list Z) : list Z := take 16 (l ++ replicate 16 0).
Definition axis2 (lo hi : Z) : Axis16.t := Axis16.mk 2 (pad16 [lo; hi]).
Definition sample_table : Table2d.t :=
  Table2d.mk (axis2 1000 3000) (axis2 300 900) ([pad16 [700; 1200]; pad16 [1100; 1600]] ++ replicate 14 (pad16 [])).

Lemma axis2_ok lo hi : u16 lo -> u16 hi -> lo < hi -> axis_typed (axis2 lo hi) /\ axis_valid (axis2 lo hi).
Proof.
  intros Hlo Hhi Hlt. split.
  - split; [done|]. split; [done|]. repeat (constructor; [done|]). constructor.
  - assert (axis_len (axis2 lo hi) = 2%nat) as E by reflexivity. unfold axis_valid. rewrite E. split; [lia|]. intros i Hi. by assert (i = 0%nat) as -> by lia.
Qed.

Lemma sample_table_ok : table_typed u16 sample_table /\ table_valid sample_table.
Proof.
  destruct (axis2_ok 1000 3000) as [T1 V1]; [done..|]. destruct (axis2_ok 300 900) as [T2 V2]; [done..|].
  split; [|done]. split; [done|]. split; [done|]. split; [done|].
  assert (forall row, row = pad16 [700; 1200] \/ row = pad16 [1100; 1600] \/ row = pad16 [] -> length row = 16%nat /\ Forall u16 row) as H.
  { intros row [->|[->| ->]]; (split; [done|]); apply (bool_decide_unpack _); exact I. }
  constructor; [auto|]. constructor; [auto|]. apply Forall_replicate. auto.
Qed.

Lemma table_lookup_interpolates_witness :
  table_typed u16 sample_table /\ table_valid sample_table /\ semantic_bilerp_u16 sample_table 3000 300 = Some 1200
  /\ semantic_bilerp_u16 sample_table 2000 600 = Some 1150.
Proof.
  pose proof sample_table_ok as [Ht Hv].
  pose proof (table_lookup_interpolates (lerp := semantic_lerp_u16) (narrow := as_unsigned 16) (P := u16) (LerpWidth0 := lerp_width_u16) sample_table 3000 300 Ht Hv) as H.
  destruct H as [_ H2]. split; [exact Ht|]. split; [exact Hv|].
  split; [exact (H2 1%nat 0%nat (le_n 2) (le_S 1 1 (le_n 1)))|reflexivity].
Defined.
