(* ===== verification/SemanticFuel.v ===== *)
(** * The fuel strategy (crates/runtime/src/semantic: types.rs, fuel.rs)

    The evaluator behind the speed-density, alpha-N and mass-air-flow strategies: table
    lookups, acceleration enrichment, the arbiter of fuel and spark cuts, the lambda and
    idle controllers, and the pulse width with its corrections.  [None] is an overflow or
    an index out of bounds that a checked build stops at; the result inside is the one the
    code returns.  [Calibration] is [RuntimeSemanticCalibration], [FuelState] is
    [RuntimeSemanticState] and [FuelObservations] is [RuntimeSemanticFuelObservations]. *)
From S2P Require Import Prelude Domain Semantic.

Module AfrOverride.
Inductive t := None_ | Some_ (v : Z).
End AfrOverride.

Module EngineMode.
Inductive t := Off | Cranking | Running | Shutdown.
#[global] Instance eq_dec : EqDecision t.
Proof. solve_decision. Defined.
End EngineMode.

Module Calibration.
Record t := mk {
  ve_table : Table2d.t; afr_target_table : Table2d.t; deadtime_table_us : DeadtimeTable.t;
  clt_corr_curve : Curve16.t; iat_corr_curve : Curve16.t; baro_corr_curve : Curve16.t;
  vbat_corr_curve : Curve16.t; cranking_curve : Curve16.t; afterstart_table : Table2d.t;
  warmup_curve : Curve16.t; ae_tps_threshold_curve : Curve16.t; ae_map_threshold_curve : Curve16.t;
  ae_shot_curve_us : Curve16.t; ae_decay_steps_curve : Curve16.t; ae_decay_ratio_curve_x1000 : Curve16.t;
  required_fuel_us : Z; pref_kpa10 : Z; stoich_afr_x100 : Z; pw_max_us : Z; afterstart_window_cycles : Z;
  dfco_entry_rpm : Z; dfco_exit_rpm : Z; dfco_entry_tps_x100 : Z; dfco_exit_tps_x100 : Z;
  dfco_entry_map_kpa10 : Z; dfco_delay_cycles : Z;
  soft_rev_rpm : Z; hard_rev_rpm : Z; rev_hysteresis_rpm : Z; soft_retard_max_deg10 : Z;
  idle_target_rpm : Z; idle_base_duty_x1000 : Z; idle_kp_x1000 : Z; idle_ki_x1000 : Z;
  launch_rpm_limit : Z; launch_cut_cycles : Z; flat_shift_rpm_min : Z; flat_shift_cut_cycles : Z;
  knock_threshold_x100 : Z; knock_retard_step_deg10 : Z; knock_retard_max_deg10 : Z;
  knock_recovery_step_deg10 : Z; knock_recovery_delay_cycles : Z;
  lambda_kp_x1000 : Z; lambda_ki_x1000 : Z }.
End Calibration.

Module InputSnapshot.
Record t := mk {
  t_us : Z; rpm : Z; map_kpa10 : Z; load_kpa10 : Z; tps_x100 : Z; clt_c10 : Z; iat_c10 : Z;
  baro_kpa10 : Z; vbatt_mv : Z; lambda_valid : bool; lambda_measured : Z; requested_open_loop : bool;
  knock_intensity_x100 : Z; launch_armed : bool; flat_shift_armed : bool; sync : SyncState.t;
  fuel_cut : bool; spark_cut : bool; direct_fuel_cut_request : bool; direct_spark_cut_request : bool;
  safety_latch_request : bool; mode : EngineMode.t; target_afr_override_x100 : AfrOverride.t }.
#[global] Instance eta : Eta t := fun i => mk (t_us i) (rpm i) (map_kpa10 i) (load_kpa10 i) (tps_x100 i)
  (clt_c10 i) (iat_c10 i) (baro_kpa10 i) (vbatt_mv i) (lambda_valid i) (lambda_measured i)
  (requested_open_loop i) (knock_intensity_x100 i) (launch_armed i) (flat_shift_armed i) (sync i)
  (fuel_cut i) (spark_cut i) (direct_fuel_cut_request i) (direct_spark_cut_request i)
  (safety_latch_request i) (mode i) (target_afr_override_x100 i).
End InputSnapshot.

Definition RUNTIME_SEMANTIC_LAMBDA_DEADBAND_X1000 : Z := 10.
Definition RUNTIME_SEMANTIC_LAMBDA_MIN_ACC : Z := -2000.
Definition RUNTIME_SEMANTIC_LAMBDA_MAX_ACC : Z := 2000.
Definition RUNTIME_SEMANTIC_LAMBDA_CORR_MIN_X1000 : Z := 750.
Definition RUNTIME_SEMANTIC_LAMBDA_CORR_MAX_X1000 : Z := 1250.
Definition RUNTIME_SEMANTIC_IDLE_DEADBAND_RPM : Z := 20.
Definition RUNTIME_SEMANTIC_IDLE_MIN_ACC : Z := -2000.
Definition RUNTIME_SEMANTIC_IDLE_MAX_ACC : Z := 2000.
Definition RUNTIME_SEMANTIC_IDLE_DUTY_MIN_X1000 : Z := 0.
Definition RUNTIME_SEMANTIC_IDLE_DUTY_MAX_X1000 : Z := 1000.

Module PiIntegratorState.
Record t := mk { acc : Z; min_acc : Z; max_acc : Z; frozen : bool }.
Definition default : t := mk 0 RUNTIME_SEMANTIC_LAMBDA_MIN_ACC RUNTIME_SEMANTIC_LAMBDA_MAX_ACC false.
End PiIntegratorState.

Module FuelState.
Record t := mk {
  afterstart_cycle_count : Z; last_valid_load_kpa10 : Z; last_valid_map_kpa10 : Z;
  ae_active : bool; ae_pulse_us : Z; ae_decay_steps_remaining : Z;
  idle_integrator_acc : Z; lambda_integrator_acc : Z;
  dfco_active : bool; dfco_qualify_counter : Z; rev_soft_active : bool; rev_hard_active : bool;
  safety_latched : bool; sensor_plausibility_latched : bool;
  launch_active : bool; launch_cut_cycle_count : Z; flat_shift_active : bool; flat_shift_cut_cycle_count : Z;
  knock_retard_deg10 : Z; knock_recovery_counter : Z }.
#[global] Instance eta : Eta t := fun s => mk (afterstart_cycle_count s) (last_valid_load_kpa10 s)
  (last_valid_map_kpa10 s) (ae_active s) (ae_pulse_us s) (ae_decay_steps_remaining s)
  (idle_integrator_acc s) (lambda_integrator_acc s) (dfco_active s) (dfco_qualify_counter s)
  (rev_soft_active s) (rev_hard_active s) (safety_latched s) (sensor_plausibility_latched s)
  (launch_active s) (launch_cut_cycle_count s) (flat_shift_active s) (flat_shift_cut_cycle_count s)
  (knock_retard_deg10 s) (knock_recovery_counter s).
Definition default : t :=
  mk 0 0 0 false 0 0 0 0 false 0 false false false false false 0 false 0 0 0.
End FuelState.

Module FuelObservations.
Record t := mk {
  ve_pct_x100 : Z; target_afr_x100 : Z; pw_base_us : Z; pw_air_us : Z; pw_corr_us : Z;
  warmup_corr_x1000 : Z; fuel_cut : bool; spark_cut : bool; lambda_correction_x1000 : Z;
  lambda_integrator_state : PiIntegratorState.t; idle_duty_x1000 : Z;
  idle_integrator_state : PiIntegratorState.t; advance_deg10_trim : Z }.
End FuelObservations.

(** ** The calibration of a tune *)
Definition FUEL_RUNTIME_RPM_BINS : list Z :=
  [500; 1000; 1500; 2000; 2500; 3000; 3500; 4000; 4500; 5000; 5500; 6000; 6500; 7000; 7500; 8000].
Definition FUEL_RUNTIME_LOAD_BINS : list Z :=
  [20; 30; 40; 50; 60; 70; 80; 90; 100; 110; 120; 130; 140; 150; 160; 170].

Module FuelRuntimeTune.
Record t := mk {
  ve_table : list (list Z); afr_table : list (list Z); required_fuel_us : Z;
  injector_deadtime_us : Z; ve_load_source : Z }.
Definition new := mk.
End FuelRuntimeTune.

(** An axis of two entries and a curve on it; the entries behind are zero. *)
Definition two_point_axis (lo hi : Z) : Axis16.t := Axis16.mk 2 ([lo; hi] ++ replicate 14 0).
Definition two_point_curve (axis : Axis16.t) (y0 y1 : Z) : Curve16.t := Curve16.mk axis ([y0; y1] ++ replicate 14 0).

Definition runtime_semantic_calibration_from_fuel_tune (tune : FuelRuntimeTune.t) : Calibration.t :=
  let rpm_axis := Axis16.mk (Z.of_nat (length FUEL_RUNTIME_RPM_BINS)) FUEL_RUNTIME_RPM_BINS in
  let load_axis := Axis16.mk (Z.of_nat (length FUEL_RUNTIME_LOAD_BINS)) FUEL_RUNTIME_LOAD_BINS in
  let flat100 := two_point_curve (two_point_axis 0 2000) 100 100 in
  let flat1000 := two_point_curve (two_point_axis 0 2000) 1000 1000 in
  {| Calibration.ve_table := Table2d.mk rpm_axis load_axis (FuelRuntimeTune.ve_table tune);
     Calibration.afr_target_table := Table2d.mk rpm_axis load_axis (FuelRuntimeTune.afr_table tune);
     Calibration.deadtime_table_us := DeadtimeTable.mk (two_point_axis 0 20000) (two_point_axis 0 2000)
       (replicate 16 (replicate 16 (FuelRuntimeTune.injector_deadtime_us tune)));
     Calibration.clt_corr_curve := flat1000; Calibration.iat_corr_curve := flat1000;
     Calibration.baro_corr_curve := flat1000; Calibration.vbat_corr_curve := flat1000;
     Calibration.cranking_curve := flat1000;
     Calibration.afterstart_table := Table2d.mk rpm_axis load_axis (replicate 16 (replicate 16 1000));
     Calibration.warmup_curve := flat1000;
     Calibration.ae_tps_threshold_curve := flat100; Calibration.ae_map_threshold_curve := flat100;
     Calibration.ae_shot_curve_us := two_point_curve (two_point_axis 0 1000) 0 0;
     Calibration.ae_decay_steps_curve := two_point_curve (two_point_axis 0 1000) 1 1;
     Calibration.ae_decay_ratio_curve_x1000 := flat1000;
     Calibration.required_fuel_us := FuelRuntimeTune.required_fuel_us tune;
     Calibration.pref_kpa10 := 1013; Calibration.stoich_afr_x100 := 1470; Calibration.pw_max_us := 20000;
     Calibration.afterstart_window_cycles := 0;
     Calibration.dfco_entry_rpm := 65000; Calibration.dfco_exit_rpm := 64000;
     Calibration.dfco_entry_tps_x100 := 0; Calibration.dfco_exit_tps_x100 := 0;
     Calibration.dfco_entry_map_kpa10 := 0; Calibration.dfco_delay_cycles := 0;
     Calibration.soft_rev_rpm := 20000; Calibration.hard_rev_rpm := 20500;
     Calibration.rev_hysteresis_rpm := 100; Calibration.soft_retard_max_deg10 := 0;
     Calibration.idle_target_rpm := 0; Calibration.idle_base_duty_x1000 := 0;
     Calibration.idle_kp_x1000 := 0; Calibration.idle_ki_x1000 := 0;
     Calibration.launch_rpm_limit := 0; Calibration.launch_cut_cycles := 0;
     Calibration.flat_shift_rpm_min := 0; Calibration.flat_shift_cut_cycles := 0;
     Calibration.knock_threshold_x100 := 10000; Calibration.knock_retard_step_deg10 := 0;
     Calibration.knock_retard_max_deg10 := 0; Calibration.knock_recovery_step_deg10 := 0;
     Calibration.knock_recovery_delay_cycles := 0;
     Calibration.lambda_kp_x1000 := 0; Calibration.lambda_ki_x1000 := 0 |}.

(** ** Validation *)
Definition calibration_axes (cal : Calibration.t) : list Axis16.t :=
  [ Table2d.rpm_axis (Calibration.ve_table cal); Table2d.load_axis (Calibration.ve_table cal);
    Table2d.rpm_axis (Calibration.afr_target_table cal); Table2d.load_axis (Calibration.afr_target_table cal);
    DeadtimeTable.vbat_mv_axis (Calibration.deadtime_table_us cal);
    DeadtimeTable.pressure_kpa10_axis (Calibration.deadtime_table_us cal);
    Curve16.axis (Calibration.clt_corr_curve cal); Curve16.axis (Calibration.iat_corr_curve cal);
    Curve16.axis (Calibration.baro_corr_curve cal); Curve16.axis (Calibration.vbat_corr_curve cal);
    Curve16.axis (Calibration.cranking_curve cal);
    Table2d.rpm_axis (Calibration.afterstart_table cal); Table2d.load_axis (Calibration.afterstart_table cal);
    Curve16.axis (Calibration.warmup_curve cal);
    Curve16.axis (Calibration.ae_tps_threshold_curve cal); Curve16.axis (Calibration.ae_map_threshold_curve cal);
    Curve16.axis (Calibration.ae_shot_curve_us cal); Curve16.axis (Calibration.ae_decay_steps_curve cal);
    Curve16.axis (Calibration.ae_decay_ratio_curve_x1000 cal) ].

Definition validate_calibration (cal : Calibration.t) : option (Result unit FuelError.t) :=
  validate_axes (calibration_axes cal).

(** ** Acceleration enrichment *)
Definition evaluate_ae (cal : Calibration.t) (input : InputSnapshot.t) (state : FuelState.t) : option FuelState.t :=
  let abs_load_delta := Z.abs (InputSnapshot.load_kpa10 input - FuelState.last_valid_load_kpa10 state) in
  let abs_map_delta := Z.abs (InputSnapshot.map_kpa10 input - FuelState.last_valid_map_kpa10 state) in
  ae_tps_threshold ← semantic_curve_lookup (Calibration.ae_tps_threshold_curve cal) (InputSnapshot.rpm input);
  ae_map_threshold ← semantic_curve_lookup (Calibration.ae_map_threshold_curve cal) (InputSnapshot.load_kpa10 input);
  if (ae_tps_threshold <=? abs_load_delta) || (ae_map_threshold <=? abs_map_delta) then
    pulse ← semantic_curve_lookup (Calibration.ae_shot_curve_us cal) (InputSnapshot.load_kpa10 input);
    steps ← semantic_curve_lookup (Calibration.ae_decay_steps_curve cal) (InputSnapshot.load_kpa10 input);
    Some (state <| FuelState.ae_pulse_us := pulse |> <| FuelState.ae_decay_steps_remaining := as_unsigned 16 steps |>
                <| FuelState.ae_active := true |>)
  else if 0 <? FuelState.ae_decay_steps_remaining state then
    let decay_index := FuelState.ae_decay_steps_remaining state - 1 in
    decay_ratio_x1000 ← semantic_curve_lookup (Calibration.ae_decay_ratio_curve_x1000 cal) decay_index;
    pulse ← mul_ratio_x1000_floor (FuelState.ae_pulse_us state) decay_ratio_x1000;
    Some (state <| FuelState.ae_pulse_us := pulse |> <| FuelState.ae_decay_steps_remaining := decay_index |>)
  else Some (state <| FuelState.ae_pulse_us := 0 |> <| FuelState.ae_active := false |>).

(** ** Cuts *)
Definition latch_with_hysteresis (current : bool) (value threshold hysteresis : Z) : bool :=
  if current then saturating_sub threshold hysteresis <? value else threshold <=? value.

(** The safety latch holds itself until the engine is off and nothing asks for it. *)
Definition update_safety_latch (input : InputSnapshot.t) (state : FuelState.t) : FuelState.t :=
  let safety_latch :=
    InputSnapshot.fuel_cut input || InputSnapshot.spark_cut input
    || bool_decide (InputSnapshot.mode input = EngineMode.Shutdown) || InputSnapshot.safety_latch_request input in
  if FuelState.safety_latched state then
    if bool_decide (InputSnapshot.mode input = EngineMode.Off) && negb (InputSnapshot.fuel_cut input)
       && negb (InputSnapshot.spark_cut input) && negb (InputSnapshot.safety_latch_request input)
    then state <| FuelState.safety_latched := false |>
    else state
  else if safety_latch then state <| FuelState.safety_latched := true |> else state.

(** The launch cut and the flat-shift cut: [cut_cycles] cycles cut, then one not. *)
Definition cycle_cut (armed : bool) (rpm rpm_limit cut_cycles cut_cycle_count : Z) : option bool :=
  if armed && (rpm_limit <=? rpm) then
    if cut_cycles =? 0 then Some true
    else
      period ← chk 16 (cut_cycles + 1);
      Some (cut_cycle_count mod period <? cut_cycles)
  else Some false.

Definition update_dfco (cal : Calibration.t) (input : InputSnapshot.t) (state : FuelState.t) : FuelState.t :=
  if FuelState.dfco_active state then
    state <| FuelState.dfco_active :=
      (Calibration.dfco_exit_rpm cal <? InputSnapshot.rpm input)
      && (InputSnapshot.tps_x100 input <=? Calibration.dfco_exit_tps_x100 cal) |>
  else if (Calibration.dfco_entry_rpm cal <=? InputSnapshot.rpm input)
       && (InputSnapshot.tps_x100 input <=? Calibration.dfco_entry_tps_x100 cal)
       && (InputSnapshot.map_kpa10 input <=? Calibration.dfco_entry_map_kpa10 cal) then
    let state := state <| FuelState.dfco_qualify_counter := saturating_add 16 (FuelState.dfco_qualify_counter state) 1 |> in
    if Calibration.dfco_delay_cycles cal <=? FuelState.dfco_qualify_counter state
    then state <| FuelState.dfco_active := true |> else state
  else state <| FuelState.dfco_qualify_counter := 0 |>.

Definition saturating_add_i16 (a b : Z) : Z := clamp (a + b) (-32768) 32767.
Definition saturating_sub_i16 (a b : Z) : Z := clamp (a - b) (-32768) 32767.

Definition update_knock (cal : Calibration.t) (input : InputSnapshot.t) (state : FuelState.t) : FuelState.t :=
  let retard_max := as_signed 16 (Calibration.knock_retard_max_deg10 cal) in
  if Calibration.knock_threshold_x100 cal <=? InputSnapshot.knock_intensity_x100 input then
    let state := state <| FuelState.knock_recovery_counter := 0 |> in
    if FuelState.knock_retard_deg10 state <? retard_max then
      let step := as_signed 16 (Calibration.knock_retard_step_deg10 cal) in
      let retard := saturating_add_i16 (FuelState.knock_retard_deg10 state) step in
      state <| FuelState.knock_retard_deg10 := if retard_max <? retard then retard_max else retard |>
    else state
  else if 0 <? FuelState.knock_retard_deg10 state then
    if Calibration.knock_recovery_delay_cycles cal <=? FuelState.knock_recovery_counter state then
      let step := as_signed 16 (Calibration.knock_recovery_step_deg10 cal) in
      let retard := saturating_sub_i16 (FuelState.knock_retard_deg10 state) step in
      state <| FuelState.knock_retard_deg10 := if retard <? 0 then 0 else retard |>
            <| FuelState.knock_recovery_counter := 0 |>
    else state <| FuelState.knock_recovery_counter := saturating_add 16 (FuelState.knock_recovery_counter state) 1 |>
  else state <| FuelState.knock_recovery_counter := 0 |>.

Definition evaluate_cut_arbitration (cal : Calibration.t) (input : InputSnapshot.t) (state : FuelState.t) :
    option (FuelState.t * (bool * bool)) :=
  let state := state <| FuelState.launch_active := false |> <| FuelState.flat_shift_active := false |> in
  if InputSnapshot.direct_fuel_cut_request input || InputSnapshot.direct_spark_cut_request input then
    Some (state, (InputSnapshot.direct_fuel_cut_request input, InputSnapshot.direct_spark_cut_request input))
  else
    let state := update_safety_latch input state in
    if FuelState.safety_latched state then Some (state, (true, true))
    else
      let state := state <| FuelState.rev_hard_active :=
        latch_with_hysteresis (FuelState.rev_hard_active state) (InputSnapshot.rpm input)
          (Calibration.hard_rev_rpm cal) (Calibration.rev_hysteresis_rpm cal) |> in
      if FuelState.rev_hard_active state then Some (state, (true, true))
      else
        launch ← cycle_cut (InputSnapshot.launch_armed input) (InputSnapshot.rpm input)
          (Calibration.launch_rpm_limit cal) (Calibration.launch_cut_cycles cal) (FuelState.launch_cut_cycle_count state);
        if launch : bool then Some (state <| FuelState.launch_active := true |>, (true, true))
        else
          flat_shift ← cycle_cut (InputSnapshot.flat_shift_armed input) (InputSnapshot.rpm input)
            (Calibration.flat_shift_rpm_min cal) (Calibration.flat_shift_cut_cycles cal)
            (FuelState.flat_shift_cut_cycle_count state);
          if flat_shift : bool then Some (state <| FuelState.flat_shift_active := true |>, (true, true))
          else
            let running := bool_decide (InputSnapshot.mode input = EngineMode.Running) in
            let state := if running then update_dfco cal input state else state in
            if running && FuelState.dfco_active state then Some (state, (true, false))
            else
              let state := state <| FuelState.rev_soft_active :=
                latch_with_hysteresis (FuelState.rev_soft_active state) (InputSnapshot.rpm input)
                  (Calibration.soft_rev_rpm cal) (Calibration.rev_hysteresis_rpm cal) |> in
              if FuelState.rev_soft_active state then Some (state, (false, true))
              else Some (update_knock cal input state, (false, false)).

Definition semantic_knock_retard_for_trim (cal : Calibration.t) (input : InputSnapshot.t)
    (current_retard_deg10 recovery_counter : Z) : Z :=
  if Calibration.knock_threshold_x100 cal <=? InputSnapshot.knock_intensity_x100 input then
    let step := as_signed 16 (Calibration.knock_retard_step_deg10 cal) in
    let max := as_signed 16 (Calibration.knock_retard_max_deg10 cal) in
    let next := saturating_add_i16 current_retard_deg10 step in
    if max <? next then max else next
  else if 0 <? current_retard_deg10 then
    if Calibration.knock_recovery_delay_cycles cal <=? recovery_counter then
      let step := as_signed 16 (Calibration.knock_recovery_step_deg10 cal) in
      let next := saturating_sub_i16 current_retard_deg10 step in
      if next <? 0 then 0 else next
    else current_retard_deg10
  else 0.

(** ** Closed loops *)
Definition semantic_effective_lambda_error (raw : Z) : Z :=
  if Z.abs raw <=? RUNTIME_SEMANTIC_LAMBDA_DEADBAND_X1000 then 0 else raw.

Definition semantic_effective_idle_rpm_error (target_rpm measured_rpm : Z) : Z :=
  let raw := target_rpm - measured_rpm in
  if Z.abs raw <=? RUNTIME_SEMANTIC_IDLE_DEADBAND_RPM then 0 else raw.

Definition semantic_i32_to_u16_saturating (value : Z) : Z :=
  if value <? 0 then 0 else if u16_max <? value then u16_max else value.

Definition semantic_mul_div_floor_i32 (numer factor denom : Z) : Z :=
  let product := numer * factor in
  if denom =? 0 then 0
  else
    let quotient := Z.quot product denom in
    let remainder := Z.rem product denom in
    let correction := if (product <? 0) && negb (remainder =? 0) then -1 else 0 in
    as_signed 32 (quotient + correction).

(** [acc.saturating_add(i_step)] held to the accumulator's bounds. *)
Definition integrate (acc i_step lo hi : Z) : Z := clamp (clamp (acc + i_step) (-2147483648) i32_max) lo hi.

Definition runtime_semantic_lambda_step (cal : Calibration.t) (input : InputSnapshot.t) (target_afr_x100 : Z)
    (fuel_cut spark_cut : bool) (lambda_integrator_acc : Z) (ae_active_after_eval : bool) :
    option (Z * PiIntegratorState.t) :=
  if negb (InputSnapshot.lambda_valid input) || InputSnapshot.requested_open_loop input then
    Some (1000, PiIntegratorState.mk lambda_integrator_acc RUNTIME_SEMANTIC_LAMBDA_MIN_ACC RUNTIME_SEMANTIC_LAMBDA_MAX_ACC true)
  else
    target_lambda_x1000 ←
      (if target_afr_x100 =? 0 then Some 1000
       else q ← mul_div_floor_u64 (Calibration.stoich_afr_x100 cal) 1000 target_afr_x100; Some (as_signed 32 q));
    let measured_lambda_x1000 := InputSnapshot.lambda_measured input * 10 in
    let error := semantic_effective_lambda_error (target_lambda_x1000 - measured_lambda_x1000) in
    let p_term := semantic_mul_div_floor_i32 error (Calibration.lambda_kp_x1000 cal) 1000 in
    let i_step := semantic_mul_div_floor_i32 error (Calibration.lambda_ki_x1000 cal) 1000 in
    let acc := lambda_integrator_acc in
    biased ← chk_i 32 (1000 + p_term);
    corr_pre ← chk_i 32 (biased + acc);
    let freeze_gate := (InputSnapshot.clt_c10 input <? 700) || ae_active_after_eval || fuel_cut || spark_cut in
    let anti_windup_freeze :=
      ((corr_pre <=? RUNTIME_SEMANTIC_LAMBDA_CORR_MIN_X1000) && (i_step <? 0))
      || ((RUNTIME_SEMANTIC_LAMBDA_CORR_MAX_X1000 <=? corr_pre) && (0 <? i_step)) in
    let freeze := freeze_gate || anti_windup_freeze in
    let acc_next :=
      if freeze then acc else integrate acc i_step RUNTIME_SEMANTIC_LAMBDA_MIN_ACC RUNTIME_SEMANTIC_LAMBDA_MAX_ACC in
    correction_pre ← chk_i 32 (biased + acc_next);
    let lambda_correction_x1000 :=
      clamp (semantic_i32_to_u16_saturating correction_pre)
        RUNTIME_SEMANTIC_LAMBDA_CORR_MIN_X1000 RUNTIME_SEMANTIC_LAMBDA_CORR_MAX_X1000 in
    Some (lambda_correction_x1000,
          PiIntegratorState.mk acc_next RUNTIME_SEMANTIC_LAMBDA_MIN_ACC RUNTIME_SEMANTIC_LAMBDA_MAX_ACC freeze).

Definition runtime_semantic_idle_step (cal : Calibration.t) (input : InputSnapshot.t)
    (fuel_cut spark_cut : bool) (idle_integrator_acc : Z) (ae_active_before_eval : bool) :
    option (Z * PiIntegratorState.t) :=
  let rpm_error := semantic_effective_idle_rpm_error (Calibration.idle_target_rpm cal) (InputSnapshot.rpm input) in
  let p_term := semantic_mul_div_floor_i32 rpm_error (Calibration.idle_kp_x1000 cal) 1000 in
  let i_step := semantic_mul_div_floor_i32 rpm_error (Calibration.idle_ki_x1000 cal) 1000 in
  let acc := idle_integrator_acc in
  let base := Calibration.idle_base_duty_x1000 cal in
  biased ← chk_i 32 (base + p_term);
  duty_pre ← chk_i 32 (biased + acc);
  let freeze_gate := (InputSnapshot.clt_c10 input <? 700) || ae_active_before_eval || fuel_cut || spark_cut in
  let anti_windup_freeze :=
    ((duty_pre <=? RUNTIME_SEMANTIC_IDLE_DUTY_MIN_X1000) && (i_step <? 0))
    || ((RUNTIME_SEMANTIC_IDLE_DUTY_MAX_X1000 <=? duty_pre) && (0 <? i_step)) in
  let freeze := freeze_gate || anti_windup_freeze in
  let acc_next :=
    if freeze then acc else integrate acc i_step RUNTIME_SEMANTIC_IDLE_MIN_ACC RUNTIME_SEMANTIC_IDLE_MAX_ACC in
  duty_pre ← chk_i 32 (biased + acc_next);
  let idle_duty_x1000 :=
    clamp (semantic_i32_to_u16_saturating duty_pre)
      RUNTIME_SEMANTIC_IDLE_DUTY_MIN_X1000 RUNTIME_SEMANTIC_IDLE_DUTY_MAX_X1000 in
  Some (idle_duty_x1000,
        PiIntegratorState.mk acc_next RUNTIME_SEMANTIC_IDLE_MIN_ACC RUNTIME_SEMANTIC_IDLE_MAX_ACC freeze).

(** ** The evaluator *)

(** A sequence of [pw = mul_ratio_x1000_floor(pw, corr)]. *)
Fixpoint apply_corrections (pw : Z) (corrections : list Z) : option Z :=
  match corrections with
  | [] => Some pw
  | corr :: rest => pw ← mul_ratio_x1000_floor pw corr; apply_corrections pw rest
  end.

Definition target_afr (cal : Calibration.t) (input : InputSnapshot.t) : option Z :=
  match InputSnapshot.target_afr_override_x100 input with
  | AfrOverride.Some_ v => Some (clamp_u16_s v 500 3000)
  | AfrOverride.None_ =>
    semantic_bilerp_u16 (Calibration.afr_target_table cal) (InputSnapshot.rpm input) (InputSnapshot.load_kpa10 input)
  end.

Definition clt_input (input : InputSnapshot.t) : Z := Z.max (InputSnapshot.clt_c10 input) 0.
Definition iat_input (input : InputSnapshot.t) : Z := Z.max (InputSnapshot.iat_c10 input) 0.
Definition is_running (input : InputSnapshot.t) : bool := bool_decide (InputSnapshot.mode input = EngineMode.Running).

(** The table corrections, in the order of their application. *)
Definition table_corrections (cal : Calibration.t) (input : InputSnapshot.t) (state : FuelState.t)
    (target_afr_x100 : Z) : option (list Z * Z) :=
  clt ← semantic_curve_lookup (Calibration.clt_corr_curve cal) (clt_input input);
  iat ← semantic_curve_lookup (Calibration.iat_corr_curve cal) (iat_input input);
  baro ← semantic_curve_lookup (Calibration.baro_corr_curve cal) (InputSnapshot.baro_kpa10 input);
  vbat ← semantic_curve_lookup (Calibration.vbat_corr_curve cal) (InputSnapshot.vbatt_mv input);
  cranking ←
    (if bool_decide (InputSnapshot.mode input = EngineMode.Cranking)
     then semantic_curve_lookup (Calibration.cranking_curve cal) (clt_input input) else Some 1000);
  let window := Calibration.afterstart_window_cycles cal in
  afterstart ←
    (if is_running input && negb (window =? 0) && (FuelState.afterstart_cycle_count state <? window)
     then semantic_bilerp_u16 (Calibration.afterstart_table cal)
            (Z.min (FuelState.afterstart_cycle_count state) u16_max) (clt_input input)
     else Some 1000);
  warmup ← semantic_curve_lookup (Calibration.warmup_curve cal) (clt_input input);
  afr ← mul_div_floor_u64 (Calibration.stoich_afr_x100 cal) 1000 target_afr_x100;
  Some ([cranking; afterstart; warmup; clt; iat; baro; vbat; as_unsigned 32 afr], warmup).

Definition next_afterstart_cycle_count (cal : Calibration.t) (input : InputSnapshot.t) (count : Z) : Z :=
  if is_running input then
    if Calibration.afterstart_window_cycles cal =? 0 then 0
    else Z.min (saturating_add 32 count 1) (Calibration.afterstart_window_cycles cal)
  else 0.

Definition advance_trim (cal : Calibration.t) (input : InputSnapshot.t) (rev_soft_active : bool)
    (knock_retard_deg10 knock_recovery_counter : Z) : option Z :=
  soft_rev_trim_deg10 ←
    (if latch_with_hysteresis rev_soft_active (InputSnapshot.rpm input) (Calibration.soft_rev_rpm cal)
          (Calibration.rev_hysteresis_rpm cal)
     then chk_i 16 (- as_signed 16 (Calibration.soft_retard_max_deg10 cal)) else Some 0);
  Some (saturating_sub_i16 soft_rev_trim_deg10
          (semantic_knock_retard_for_trim cal input knock_retard_deg10 knock_recovery_counter)).

(** The pulse width before the corrections, or why there is none. *)
Definition air_pulse_width (cal : Calibration.t) (input : InputSnapshot.t) :
    option (Result (Z * Z * Z * Z) FuelError.t) :=
  ve_pct_x100 ← semantic_bilerp_u16 (Calibration.ve_table cal) (InputSnapshot.rpm input) (InputSnapshot.load_kpa10 input);
  target_afr_x100 ← target_afr cal input;
  if target_afr_x100 =? 0 then Some (Err FuelError.ZeroTargetAfr)
  else
    base ← mul_div_floor_u64 (Calibration.required_fuel_us cal) ve_pct_x100 10000;
    let pw_base_us := as_unsigned 32 base in
    if Calibration.pref_kpa10 cal =? 0 then Some (Err FuelError.ZeroPrefKpa)
    else
      air ← mul_div_floor_u64 pw_base_us (InputSnapshot.map_kpa10 input) (Calibration.pref_kpa10 cal);
      Some (Ok (ve_pct_x100, target_afr_x100, pw_base_us, as_unsigned 32 air)).

Definition runtime_semantic_evaluate_fuel_with_state (cal : Calibration.t) (input : InputSnapshot.t)
    (state : FuelState.t) : option (Result (FuelObservations.t * FuelState.t) FuelError.t) :=
  valid ← validate_calibration cal;
  match valid with
  | Err e => Some (Err e)
  | Ok _ =>
    let ae_active_before_eval := FuelState.ae_active state in
    air ← air_pulse_width cal input;
    match air with
    | Err e => Some (Err e)
    | Ok (ve_pct_x100, target_afr_x100, pw_base_us, pw_air_us) =>
      deadtime_us ← semantic_deadtime_lookup_us (Calibration.deadtime_table_us cal)
        (InputSnapshot.vbatt_mv input) (InputSnapshot.baro_kpa10 input);
      corrections ← table_corrections cal input state target_afr_x100;
      let '(corrections, warmup_corr_x1000) := corrections in
      state ← evaluate_ae cal input state;
      let ae_active_after_eval := FuelState.ae_active state in
      let knock_retard_before_arbiter := FuelState.knock_retard_deg10 state in
      let knock_recovery_counter_before_arbiter := FuelState.knock_recovery_counter state in
      arbitrated ← evaluate_cut_arbitration cal input state;
      let '(state, (fuel_cut, spark_cut)) := arbitrated in
      lambda ← runtime_semantic_lambda_step cal input target_afr_x100 fuel_cut spark_cut
        (FuelState.lambda_integrator_acc state) ae_active_after_eval;
      let '(lambda_correction_x1000, lambda_integrator_state) := lambda in
      idle ← runtime_semantic_idle_step cal input fuel_cut spark_cut
        (FuelState.idle_integrator_acc state) ae_active_before_eval;
      let '(idle_duty_x1000, idle_integrator_state) := idle in
      pw ← apply_corrections pw_air_us (corrections ++ [lambda_correction_x1000; 1000]);
      let pw := saturating_add 32 pw (FuelState.ae_pulse_us state) in
      let pw := saturating_add 32 pw deadtime_us in
      advance_deg10_trim ← advance_trim cal input (FuelState.rev_soft_active state)
        knock_retard_before_arbiter knock_recovery_counter_before_arbiter;
      let pw_corr_us :=
        if fuel_cut || InputSnapshot.fuel_cut input then 0 else Z.min pw (Calibration.pw_max_us cal) in
      let state :=
        state <| FuelState.afterstart_cycle_count :=
                   next_afterstart_cycle_count cal input (FuelState.afterstart_cycle_count state) |>
              <| FuelState.lambda_integrator_acc := PiIntegratorState.acc lambda_integrator_state |>
              <| FuelState.idle_integrator_acc := PiIntegratorState.acc idle_integrator_state |> in
      Some (Ok (
        FuelObservations.mk (as_unsigned 16 ve_pct_x100) (as_unsigned 16 target_afr_x100) pw_base_us pw_air_us pw_corr_us
          (as_unsigned 16 (Z.min warmup_corr_x1000 u16_max)) fuel_cut spark_cut lambda_correction_x1000
          lambda_integrator_state idle_duty_x1000 idle_integrator_state advance_deg10_trim,
        state))
    end
  end.

Definition runtime_semantic_evaluate_fuel (cal : Calibration.t) (input : InputSnapshot.t) (state : FuelState.t) :
    option (Result FuelObservations.t FuelError.t) :=
  r ← runtime_semantic_evaluate_fuel_with_state cal input state;
  Some (match r with Ok (obs, _) => Ok obs | Err e => Err e end).

(** ** Types and the conditions under which no arithmetic overflows *)
Definition deadtime_as_table (d : DeadtimeTable.t) : Table2d.t :=
  Table2d.mk (DeadtimeTable.vbat_mv_axis d) (DeadtimeTable.pressure_kpa10_axis d) (DeadtimeTable.values d).

Definition calibration_scalars (cal : Calibration.t) : list Z :=
  [ Calibration.pref_kpa10 cal; Calibration.stoich_afr_x100 cal; Calibration.afterstart_window_cycles cal;
    Calibration.dfco_entry_rpm cal; Calibration.dfco_exit_rpm cal; Calibration.dfco_entry_tps_x100 cal;
    Calibration.dfco_exit_tps_x100 cal; Calibration.dfco_entry_map_kpa10 cal; Calibration.dfco_delay_cycles cal;
    Calibration.soft_rev_rpm cal; Calibration.hard_rev_rpm cal; Calibration.rev_hysteresis_rpm cal;
    Calibration.soft_retard_max_deg10 cal; Calibration.idle_target_rpm cal; Calibration.idle_base_duty_x1000 cal;
    Calibration.idle_kp_x1000 cal; Calibration.idle_ki_x1000 cal; Calibration.launch_rpm_limit cal;
    Calibration.launch_cut_cycles cal; Calibration.flat_shift_rpm_min cal; Calibration.flat_shift_cut_cycles cal;
    Calibration.knock_threshold_x100 cal; Calibration.knock_retard_step_deg10 cal;
    Calibration.knock_retard_max_deg10 cal; Calibration.knock_recovery_step_deg10 cal;
    Calibration.knock_recovery_delay_cycles cal; Calibration.lambda_kp_x1000 cal; Calibration.lambda_ki_x1000 cal ].

Definition calibration_typed (cal : Calibration.t) : Prop :=
  Forall (table_typed u16)
    [ Calibration.ve_table cal; Calibration.afr_target_table cal; Calibration.afterstart_table cal;
      deadtime_as_table (Calibration.deadtime_table_us cal) ]
  /\ Forall curve_typed
    [ Calibration.clt_corr_curve cal; Calibration.iat_corr_curve cal; Calibration.baro_corr_curve cal;
      Calibration.vbat_corr_curve cal; Calibration.cranking_curve cal; Calibration.warmup_curve cal;
      Calibration.ae_tps_threshold_curve cal; Calibration.ae_map_threshold_curve cal;
      Calibration.ae_shot_curve_us cal; Calibration.ae_decay_steps_curve cal;
      Calibration.ae_decay_ratio_curve_x1000 cal ]
  /\ Forall u16 (calibration_scalars cal)
  /\ u32 (Calibration.required_fuel_us cal) /\ u32 (Calibration.pw_max_us cal).

(** Target ratios of at least 0.03 keep the lambda error within 32 bits; the other bounds
    keep a cycle count and a negation within 16. *)
Definition calibration_sane (cal : Calibration.t) : Prop :=
  (forall j i, (j < axis_len (Table2d.load_axis (Calibration.afr_target_table cal)))%nat ->
     (i < axis_len (Table2d.rpm_axis (Calibration.afr_target_table cal)))%nat ->
     3 <= table_at (Calibration.afr_target_table cal) j i <= u16_max)
  /\ Calibration.launch_cut_cycles cal < u16_max /\ Calibration.flat_shift_cut_cycles cal < u16_max
  /\ Calibration.soft_retard_max_deg10 cal <> 32768.

Definition input_typed (i : InputSnapshot.t) : Prop :=
  u16 (InputSnapshot.rpm i) /\ u16 (InputSnapshot.map_kpa10 i) /\ u16 (InputSnapshot.load_kpa10 i)
  /\ u16 (InputSnapshot.lambda_measured i).

Definition acc_ok (acc : Z) : Prop := -2000 <= acc <= 2000.
Definition fuel_state_ok (s : FuelState.t) : Prop :=
  u32 (FuelState.afterstart_cycle_count s) /\ u32 (FuelState.ae_pulse_us s) /\ u16 (FuelState.ae_decay_steps_remaining s)
  /\ acc_ok (FuelState.idle_integrator_acc s) /\ acc_ok (FuelState.lambda_integrator_acc s)
  /\ u16 (FuelState.dfco_qualify_counter s) /\ i16 (FuelState.knock_retard_deg10 s) /\ u16 (FuelState.knock_recovery_counter s).

(** What a cut arbitration never touches. *)
Definition same_mixture (s s' : FuelState.t) : Prop :=
  FuelState.afterstart_cycle_count s' = FuelState.afterstart_cycle_count s
  /\ FuelState.last_valid_load_kpa10 s' = FuelState.last_valid_load_kpa10 s
  /\ FuelState.last_valid_map_kpa10 s' = FuelState.last_valid_map_kpa10 s
  /\ FuelState.ae_active s' = FuelState.ae_active s /\ FuelState.ae_pulse_us s' = FuelState.ae_pulse_us s
  /\ FuelState.ae_decay_steps_remaining s' = FuelState.ae_decay_steps_remaining s
  /\ FuelState.idle_integrator_acc s' = FuelState.idle_integrator_acc s
  /\ FuelState.lambda_integrator_acc s' = FuelState.lambda_integrator_acc s.

(** ** Arithmetic lemmas *)
Lemma mul_div_floor_ok num mul div : 0 <= num * mul < 2 ^ 64 ->
  mul_div_floor_u64 num mul div = Some (if div =? 0 then 0 else num * mul / div).
Proof. intros H. unfold mul_div_floor_u64. by rewrite chk_ok. Qed.

Lemma u16_u32 x : u16 x -> u32 x.
Proof. unfold fits. lia. Qed.

Lemma mul_ratio_ok value ratio : u32 value -> u32 ratio ->
  exists y, mul_ratio_x1000_floor value ratio = Some y /\ u32 y.
Proof.
  unfold fits. intros Hv Hr. unfold mul_ratio_x1000_floor. rewrite chk_ok by (change (2 ^ 64) with (2 ^ 32 * 2 ^ 32); nia).
  eexists. split; [reflexivity|]. by apply fits_mod.
Qed.

Lemma apply_corrections_ok corrections pw : u32 pw -> Forall u32 corrections ->
  exists y, apply_corrections pw corrections = Some y /\ u32 y.
Proof.
  intros Hpw Hc. revert pw Hpw. induction Hc as [|c cs Hc Hcs IH]; intros pw Hpw; cbn [apply_corrections]; [by eexists|].
  destruct (mul_ratio_ok pw c Hpw Hc) as (y & -> & Hy). by apply IH.
Qed.

(** The corrected quotient is rounded down. *)
Lemma mul_div_floor_i32_eq numer factor : - 2 ^ 31 <= numer * factor / 1000 < 2 ^ 31 ->
  semantic_mul_div_floor_i32 numer factor 1000 = numer * factor / 1000.
Proof.
  intros H. unfold semantic_mul_div_floor_i32. change (1000 =? 0) with false. cbv iota.
  set (p := numer * factor) in *.
  assert (Z.quot p 1000 + (if (p <? 0) && negb (Z.rem p 1000 =? 0) then -1 else 0) = p / 1000) as ->;
    [|by apply as_signed_small].
  apply Z.div_unique with (Z.rem p 1000 + (if (p <? 0) && negb (Z.rem p 1000 =? 0) then 1000 else 0)).
  - left. destruct (Z.ltb_spec p 0); cbn [andb].
    + pose proof (Z.rem_bound_pos_neg p 1000 ltac:(lia) ltac:(lia)). destruct (Z.eqb_spec (Z.rem p 1000) 0); cbn [negb]; lia.
    + pose proof (Z.rem_bound_pos p 1000 ltac:(lia) ltac:(lia)). lia.
  - pose proof (Z.quot_rem' p 1000). destruct ((p <? 0) && negb (Z.rem p 1000 =? 0)); lia.
Qed.

Lemma gain_bounds error gain m : u16 gain -> Z.abs error <= m -> 0 <= m ->
  - (m * 66) - 1 <= error * gain / 1000 <= m * 66.
Proof.
  unfold fits. intros Hg He Hm. change (2 ^ 16) with 65536 in Hg.
  assert (- (m * 65536) <= error * gain <= m * 65536) by nia.
  split; [apply Z.div_le_lower_bound; lia|]. apply Z.div_le_upper_bound; lia.
Qed.

Lemma deadband_abs (b : bool) raw m : Z.abs raw <= m -> 0 <= m -> Z.abs (if b then 0 else raw) <= m.
Proof. destruct b; lia. Qed.

Lemma integrate_bounds acc i_step lo hi : lo <= hi -> lo <= integrate acc i_step lo hi <= hi.
Proof. apply clamp_bounds. Qed.

Lemma saturated_range v lo hi : 0 <= lo <= hi -> lo <= clamp (semantic_i32_to_u16_saturating v) lo hi <= hi.
Proof. intros. apply clamp_bounds. lia. Qed.

(** ** Each part succeeds within its bounds *)
Lemma lambda_step_ok cal input target fc sc acc ae :
  u16 (Calibration.stoich_afr_x100 cal) -> u16 (Calibration.lambda_kp_x1000 cal) -> u16 (Calibration.lambda_ki_x1000 cal) ->
  u16 (InputSnapshot.lambda_measured input) -> 3 <= target <= u16_max -> acc_ok acc ->
  exists corr st, runtime_semantic_lambda_step cal input target fc sc acc ae = Some (corr, st)
  /\ 750 <= corr <= 1250 /\ acc_ok (PiIntegratorState.acc st)
  /\ (PiIntegratorState.frozen st = true -> PiIntegratorState.acc st = acc)
  /\ (ae = true \/ fc = true \/ sc = true -> PiIntegratorState.frozen st = true).
Proof.
  unfold acc_ok, u16_max. intros Hs Hp Hi Hm Ht Ha. unfold runtime_semantic_lambda_step.
  destruct (negb (InputSnapshot.lambda_valid input) || InputSnapshot.requested_open_loop input).
  { eexists _, _. split; [reflexivity|]. cbn. by split_and!; try lia. }
  destruct (Z.eqb_spec target 0); [lia|].
  rewrite mul_div_floor_ok by (unfold fits in *; lia). destruct (Z.eqb_spec target 0); [lia|]. cbn [mbind option_bind].
  assert (0 <= Calibration.stoich_afr_x100 cal * 1000 / target <= 21845000) as Hq.
  { unfold fits in *. split; [apply Z.div_pos; lia|]. apply Z.div_le_upper_bound; nia. }
  rewrite as_signed_small by lia.
  set (q := Calibration.stoich_afr_x100 cal * 1000 / target) in *.
  set (error := semantic_effective_lambda_error _).
  assert (Z.abs error <= 21845000) as He by (apply deadband_abs; unfold fits in *; lia).
  pose proof (gain_bounds error _ _ Hp He ltac:(lia)) as Bp. pose proof (gain_bounds error _ _ Hi He ltac:(lia)) as Bi.
  rewrite !mul_div_floor_i32_eq by lia.
  set (p_term := error * Calibration.lambda_kp_x1000 cal / 1000) in *.
  set (i_step := error * Calibration.lambda_ki_x1000 cal / 1000) in *.
  rewrite (chk_i_ok 32 (1000 + p_term)) by lia. cbn [mbind option_bind].
  rewrite (chk_i_ok 32 (1000 + p_term + acc)) by lia. cbn [mbind option_bind].
  match goal with |- context [if ?b then acc else _] => set (freeze := b) end.
  set (acc' := if freeze then acc else _).
  assert (-2000 <= acc' <= 2000) by (unfold acc'; destruct freeze; [done|by apply integrate_bounds]).
  rewrite (chk_i_ok 32 (1000 + p_term + acc')) by lia. cbn [mbind option_bind].
  eexists _, _. split; [reflexivity|]. cbn [PiIntegratorState.acc PiIntegratorState.frozen].
  split; [by apply saturated_range|]. split; [done|]. split; [unfold acc'; by intros ->|].
  unfold freeze. intros [->|[->| ->]]; by rewrite ?orb_true_r.
Qed.

Lemma idle_step_ok cal input fc sc acc ae :
  u16 (Calibration.idle_target_rpm cal) -> u16 (Calibration.idle_base_duty_x1000 cal) ->
  u16 (Calibration.idle_kp_x1000 cal) -> u16 (Calibration.idle_ki_x1000 cal) ->
  u16 (InputSnapshot.rpm input) -> acc_ok acc ->
  exists duty st, runtime_semantic_idle_step cal input fc sc acc ae = Some (duty, st)
  /\ 0 <= duty <= 1000 /\ acc_ok (PiIntegratorState.acc st)
  /\ (PiIntegratorState.frozen st = true -> PiIntegratorState.acc st = acc)
  /\ (ae = true \/ fc = true \/ sc = true -> PiIntegratorState.frozen st = true).
Proof.
  unfold acc_ok. intros Ht Hb Hp Hi Hr Ha. unfold runtime_semantic_idle_step.
  set (error := semantic_effective_idle_rpm_error _ _).
  assert (Z.abs error <= 65535) as He by (apply deadband_abs; unfold fits in *; lia).
  pose proof (gain_bounds error _ _ Hp He ltac:(lia)) as Bp. pose proof (gain_bounds error _ _ Hi He ltac:(lia)) as Bi.
  rewrite !mul_div_floor_i32_eq by lia. unfold fits in Hb.
  set (p_term := error * Calibration.idle_kp_x1000 cal / 1000) in *.
  set (i_step := error * Calibration.idle_ki_x1000 cal / 1000) in *.
  set (base := Calibration.idle_base_duty_x1000 cal) in *.
  rewrite (chk_i_ok 32 (base + p_term)) by lia. cbn [mbind option_bind].
  rewrite (chk_i_ok 32 (base + p_term + acc)) by lia. cbn [mbind option_bind].
  match goal with |- context [if ?b then acc else _] => set (freeze := b) end.
  set (acc' := if freeze then acc else _).
  assert (-2000 <= acc' <= 2000) by (unfold acc'; destruct freeze; [done|by apply integrate_bounds]).
  rewrite (chk_i_ok 32 (base + p_term + acc')) by lia. cbn [mbind option_bind].
  eexists _, _. split; [reflexivity|]. cbn [PiIntegratorState.acc PiIntegratorState.frozen].
  split; [by apply saturated_range|]. split; [done|]. split; [unfold acc'; by intros ->|].
  unfold freeze. intros [->|[->| ->]]; by rewrite ?orb_true_r.
Qed.

Ltac setter_cbn :=
  cbv [modify_field FuelState.eta Eta eta_expand]; cbn [FuelState.afterstart_cycle_count FuelState.last_valid_load_kpa10
    FuelState.last_valid_map_kpa10 FuelState.ae_active FuelState.ae_pulse_us FuelState.ae_decay_steps_remaining
    FuelState.idle_integrator_acc FuelState.lambda_integrator_acc FuelState.dfco_active FuelState.dfco_qualify_counter
    FuelState.rev_soft_active FuelState.rev_hard_active FuelState.safety_latched FuelState.sensor_plausibility_latched
    FuelState.launch_active FuelState.launch_cut_cycle_count FuelState.flat_shift_active
    FuelState.flat_shift_cut_cycle_count FuelState.knock_retard_deg10 FuelState.knock_recovery_counter].

(** Acceleration enrichment changes its own three fields; it is active whenever a threshold
    of at most the deviation from the recorded load is configured. *)
Lemma evaluate_ae_ok cal input s :
  calibration_typed cal -> Forall axis_valid (calibration_axes cal) -> u32 (FuelState.ae_pulse_us s) ->
  u16 (FuelState.ae_decay_steps_remaining s) ->
  exists active pulse steps, evaluate_ae cal input s
    = Some (s <| FuelState.ae_pulse_us := pulse |> <| FuelState.ae_decay_steps_remaining := steps |>
              <| FuelState.ae_active := active |>)
  /\ u32 pulse /\ u16 steps
  /\ (forall threshold, semantic_curve_lookup (Calibration.ae_tps_threshold_curve cal) (InputSnapshot.rpm input) = Some threshold ->
      threshold <= Z.abs (InputSnapshot.load_kpa10 input - FuelState.last_valid_load_kpa10 s) -> active = true).
Proof.
  intros (_ & Hc & _) Hv Hp Hs. unfold calibration_axes in Hv.
  repeat (apply Forall_cons in Hc as [? Hc]). repeat (apply Forall_cons in Hv as [? Hv]). clear Hc Hv.
  unfold evaluate_ae.
  destruct (curve_lookup_u16 (Calibration.ae_tps_threshold_curve cal) (InputSnapshot.rpm input)) as (tps & -> & _); [done..|].
  destruct (curve_lookup_u16 (Calibration.ae_map_threshold_curve cal) (InputSnapshot.load_kpa10 input)) as (mapt & -> & _); [done..|].
  cbn [mbind option_bind].
  set (load := Z.abs (InputSnapshot.load_kpa10 input - _)). set (mapd := Z.abs (InputSnapshot.map_kpa10 input - _)).
  destruct ((tps <=? load) || (mapt <=? mapd)) eqn:Et; [|destruct (Z.ltb_spec 0 (FuelState.ae_decay_steps_remaining s))].
  - destruct (curve_lookup_u16 (Calibration.ae_shot_curve_us cal) (InputSnapshot.load_kpa10 input)) as (pulse & -> & Hpu); [done..|].
    destruct (curve_lookup_u16 (Calibration.ae_decay_steps_curve cal) (InputSnapshot.load_kpa10 input)) as (steps & -> & Hst); [done..|].
    cbn [mbind option_bind]. exists true, pulse, (as_unsigned 16 steps). split; [done|]. unfold fits in *. split; [lia|].
    split; [by apply fits_mod|done].
  - destruct (curve_lookup_u16 (Calibration.ae_decay_ratio_curve_x1000 cal) (FuelState.ae_decay_steps_remaining s - 1)) as (ratio & -> & Hra); [done..|].
    cbn [mbind option_bind]. destruct (mul_ratio_ok (FuelState.ae_pulse_us s) ratio Hp (u16_u32 _ Hra)) as (pulse & -> & Hpu). cbn [mbind option_bind].
    exists (FuelState.ae_active s), pulse, (FuelState.ae_decay_steps_remaining s - 1). destruct s. split; [done|].
    split; [done|]. split; [unfold fits in *; cbn in *; lia|]. intros thr [=<-] Hle. apply orb_false_iff in Et as [Et _]. apply Z.leb_gt in Et. lia.
  - exists false, 0, (FuelState.ae_decay_steps_remaining s). destruct s. split; [done|].
    split; [done|]. split; [done|]. intros thr [=<-] Hle. apply orb_false_iff in Et as [Et _]. apply Z.leb_gt in Et. lia.
Qed.

Lemma cycle_cut_ok armed rpm limit cycles count : 0 <= cycles < u16_max ->
  exists b, cycle_cut armed rpm limit cycles count = Some b.
Proof.
  unfold u16_max. intros Hc. unfold cycle_cut. destruct (armed && (limit <=? rpm)); [|by eexists].
  destruct (cycles =? 0); [by eexists|]. rewrite chk_ok by lia. by eexists.
Qed.

Lemma i16_clamp x : i16 (clamp x (-32768) 32767).
Proof. unfold i16. pose proof (clamp_bounds x (-32768) 32767). lia. Qed.

Lemma as_signed_i16 x : i16 (as_signed 16 x).
Proof. unfold i16, as_signed. pose proof (Z.mod_pos_bound x (2 ^ 16)). case_match; to_prop; lia. Qed.

(** What the arbiter owns stays of its type. *)
Definition arbiter_ok (s : FuelState.t) : Prop :=
  u16 (FuelState.dfco_qualify_counter s) /\ i16 (FuelState.knock_retard_deg10 s) /\ u16 (FuelState.knock_recovery_counter s).
Definition arbiter_step_ok (s s' : FuelState.t) : Prop := same_mixture s s' /\ (arbiter_ok s -> arbiter_ok s').

Lemma same_mixture_refl s : same_mixture s s.
Proof. by repeat split. Qed.
Lemma arbiter_step_refl s : arbiter_step_ok s s.
Proof. split; [by repeat split|done]. Qed.
Lemma same_mixture_trans s1 s2 s3 : same_mixture s1 s2 -> same_mixture s2 s3 -> same_mixture s1 s3.
Proof. unfold same_mixture. intuition congruence. Qed.
Lemma arbiter_step_trans s1 s2 s3 : arbiter_step_ok s1 s2 -> arbiter_step_ok s2 s3 -> arbiter_step_ok s1 s3.
Proof. intros [? ?] [? ?]. split; [by eapply same_mixture_trans|auto]. Qed.

Lemma update_safety_latch_step input s : arbiter_step_ok s (update_safety_latch input s).
Proof. unfold update_safety_latch. repeat case_match; (split; [by repeat split|done]). Qed.

Lemma update_dfco_step cal input s : arbiter_step_ok s (update_dfco cal input s).
Proof.
  unfold update_dfco. repeat case_match; (split; [by repeat split|]); unfold arbiter_ok; setter_cbn; intros (Hd & Hk);
    (split; [first [exact Hd|by apply fits_saturating_add|done]|exact Hk]).
Qed.

Lemma update_knock_step cal input s : arbiter_step_ok s (update_knock cal input s).
Proof.
  unfold update_knock. cbv zeta. pose proof (as_signed_i16 (Calibration.knock_retard_max_deg10 cal)).
  repeat case_match; (split; [by repeat split|]); unfold arbiter_ok; setter_cbn; intros (Hd & Hk & Hc);
    (split; [exact Hd|]; split; [first [exact Hk|assumption|apply i16_clamp|done]|first [exact Hc|by apply fits_saturating_add|done]]).
Qed.

Lemma arbitration_ok cal input s : calibration_typed cal -> calibration_sane cal ->
  exists s' cuts, evaluate_cut_arbitration cal input s = Some (s', cuts) /\ arbiter_step_ok s s'.
Proof.
  intros (_ & _ & Hs & _) (_ & Hl & Hf & _). unfold calibration_scalars in Hs.
  repeat (apply Forall_cons in Hs as [? Hs]). clear Hs.
  unfold evaluate_cut_arbitration.
  set (s0 := (s <| FuelState.launch_active := false |>) <| FuelState.flat_shift_active := false |>).
  assert (arbiter_step_ok s s0) as HS0 by (split; [by repeat split|done]). clearbody s0.
  destruct (InputSnapshot.direct_fuel_cut_request input || _); [by eexists _, _|].
  pose proof (arbiter_step_trans _ _ _ HS0 (update_safety_latch_step input s0)) as HS1.
  set (s1 := update_safety_latch input s0) in *. clearbody s1.
  destruct (FuelState.safety_latched s1); [by eexists _, _|].
  set (s2 := s1 <| FuelState.rev_hard_active := _ |>).
  assert (arbiter_step_ok s s2) as HS2 by (apply (arbiter_step_trans _ s1); [done|]; split; [by repeat split|done]).
  clearbody s2. destruct (FuelState.rev_hard_active s2); [by eexists _, _|].
  unfold fits in *.
  destruct (cycle_cut_ok (InputSnapshot.launch_armed input) (InputSnapshot.rpm input) (Calibration.launch_rpm_limit cal)
    (Calibration.launch_cut_cycles cal) (FuelState.launch_cut_cycle_count s2)) as (launch & ->); [lia|]. cbn [mbind option_bind].
  destruct launch; [eexists _, _; split; [reflexivity|]; apply (arbiter_step_trans _ s2); [done|]; split; [by repeat split|done]|].
  destruct (cycle_cut_ok (InputSnapshot.flat_shift_armed input) (InputSnapshot.rpm input) (Calibration.flat_shift_rpm_min cal)
    (Calibration.flat_shift_cut_cycles cal) (FuelState.flat_shift_cut_cycle_count s2)) as (flat & ->); [lia|]. cbn [mbind option_bind].
  destruct flat; [eexists _, _; split; [reflexivity|]; apply (arbiter_step_trans _ s2); [done|]; split; [by repeat split|done]|].
  set (s3 := if bool_decide _ then update_dfco cal input s2 else s2).
  assert (arbiter_step_ok s s3) as HS3.
  { unfold s3. case_bool_decide; [|done]. by apply (arbiter_step_trans _ s2), update_dfco_step. }
  clearbody s3. destruct (bool_decide _ && FuelState.dfco_active s3); [by eexists _, _|].
  set (s4 := s3 <| FuelState.rev_soft_active := _ |>).
  assert (arbiter_step_ok s s4) as HS4 by (apply (arbiter_step_trans _ s3); [done|]; split; [by repeat split|done]).
  clearbody s4. destruct (FuelState.rev_soft_active s4); [by eexists _, _|].
  eexists _, _. split; [reflexivity|]. by apply (arbiter_step_trans _ s4), update_knock_step.
Qed.

Lemma table_at_u16 t j i : table_typed u16 t -> (j < 16)%nat -> (i < 16)%nat -> u16 (table_at t j i).
Proof. intros Ht Hj Hi. exact (proj2 (cell_at t j i Ht Hj Hi)). Qed.

Lemma bilerp_u16_ok t rpm load : table_typed u16 t -> table_valid t ->
  exists y, semantic_bilerp_u16 t rpm load = Some y /\ u16 y.
Proof. apply (bilerp_ok (lerp := semantic_lerp_u16) (narrow := as_unsigned 16)). Qed.

Lemma target_afr_ok cal input :
  calibration_typed cal -> calibration_sane cal -> Forall axis_valid (calibration_axes cal) ->
  exists target, target_afr cal input = Some target /\ 3 <= target <= u16_max.
Proof.
  intros (Ht & _) (Ha & _) Hv. unfold calibration_axes in Hv.
  repeat (apply Forall_cons in Ht as [? Ht]). repeat (apply Forall_cons in Hv as [? Hv]).
  unfold target_afr. destruct (InputSnapshot.target_afr_override_x100 input) as [|v].
  - destruct (bilerp_within (lerp := semantic_lerp_u16) (narrow := as_unsigned 16) (P := u16) (LerpWidth0 := lerp_width_u16) (Calibration.afr_target_table cal)
      (InputSnapshot.rpm input) (InputSnapshot.load_kpa10 input) 3 u16_max) as (y & E & _ & Hy); [done|by split|done|].
    by exists y.
  - eexists. split; [reflexivity|]. pose proof (clamp_bounds v 500 3000). unfold clamp_u16_s, clamp, u16_max in *. lia.
Qed.

Lemma air_pulse_width_ok cal input :
  calibration_typed cal -> calibration_sane cal -> Forall axis_valid (calibration_axes cal) -> input_typed input ->
  exists r, air_pulse_width cal input = Some r /\
  match r with
  | Ok (ve, target, base, air) => Calibration.pref_kpa10 cal <> 0 /\ u16 ve /\ 3 <= target <= u16_max /\ u32 base /\ u32 air
  | Err e => Calibration.pref_kpa10 cal = 0 /\ e = FuelError.ZeroPrefKpa
  end.
Proof.
  intros Hc Hsane Hv (_ & Hmap & _). unfold air_pulse_width.
  destruct (target_afr_ok cal input Hc Hsane Hv) as (target & -> & Htg).
  pose proof Hc as (Ht & _ & Hs & Hr & _). unfold calibration_axes in Hv.
  repeat (apply Forall_cons in Ht as [? Ht]). repeat (apply Forall_cons in Hv as [? Hv]).
  apply Forall_cons in Hs as [Hpref _].
  destruct (bilerp_u16_ok (Calibration.ve_table cal) (InputSnapshot.rpm input) (InputSnapshot.load_kpa10 input)) as (ve & -> & Hve);
    [done|by split|]. cbn [mbind option_bind].
  destruct (Z.eqb_spec target 0); [lia|]. unfold fits in Hve, Hr, Hmap, Hpref.
  rewrite mul_div_floor_ok by nia. cbn [mbind option_bind].
  destruct (Z.eqb_spec (Calibration.pref_kpa10 cal) 0); [eexists; split; [reflexivity|done]|].
  set (base := as_unsigned 32 _). assert (u32 base) as Hb by (by apply fits_mod). unfold fits in Hb.
  rewrite mul_div_floor_ok by nia. cbn [mbind option_bind]. eexists. split; [reflexivity|].
  split_and!; try done; try lia. all: unfold fits; try lia. by apply fits_mod.
Qed.

Lemma table_corrections_ok cal input s target :
  calibration_typed cal -> Forall axis_valid (calibration_axes cal) -> 3 <= target <= u16_max ->
  exists cs warmup, table_corrections cal input s target = Some (cs, warmup) /\ Forall u32 cs /\ u16 warmup.
Proof.
  intros (Ht & Hc & Hs & _) Hv Htg. unfold calibration_axes in Hv. unfold calibration_scalars in Hs.
  repeat (apply Forall_cons in Ht as [? Ht]). repeat (apply Forall_cons in Hc as [? Hc]).
  repeat (apply Forall_cons in Hv as [? Hv]). apply Forall_cons in Hs as [_ Hs]. apply Forall_cons in Hs as [Hst _].
  unfold table_corrections.
  destruct (curve_lookup_u16 (Calibration.clt_corr_curve cal) (clt_input input)) as (clt & -> & ?); [done..|].
  destruct (curve_lookup_u16 (Calibration.iat_corr_curve cal) (iat_input input)) as (iat & -> & ?); [done..|].
  destruct (curve_lookup_u16 (Calibration.baro_corr_curve cal) (InputSnapshot.baro_kpa10 input)) as (baro & -> & ?); [done..|].
  destruct (curve_lookup_u16 (Calibration.vbat_corr_curve cal) (InputSnapshot.vbatt_mv input)) as (vbat & -> & ?); [done..|].
  destruct (curve_lookup_u16 (Calibration.cranking_curve cal) (clt_input input)) as (crank & -> & ?); [done..|].
  destruct (curve_lookup_u16 (Calibration.warmup_curve cal) (clt_input input)) as (warmup & -> & ?); [done..|].
  destruct (bilerp_u16_ok (Calibration.afterstart_table cal) (Z.min (FuelState.afterstart_cycle_count s) u16_max) (clt_input input))
    as (after & -> & ?); [done|by split|].
  unfold fits, u16_max in Hst, Htg. rewrite mul_div_floor_ok by lia.
  assert (forall b : bool, exists y, (if b then Some crank else Some 1000) = Some y /\ u16 y) as Hcr by (intros []; by eexists).
  assert (forall b : bool, exists y, (if b then Some after else Some 1000) = Some y /\ u16 y) as Haf by (intros []; by eexists).
  cbn [mbind option_bind]. destruct (Hcr (bool_decide (InputSnapshot.mode input = EngineMode.Cranking))) as (cr & -> & ?).
  cbn [mbind option_bind]. destruct (Haf (is_running input && negb (Calibration.afterstart_window_cycles cal =? 0)
    && (FuelState.afterstart_cycle_count s <? Calibration.afterstart_window_cycles cal))) as (af & -> & ?). cbn [mbind option_bind].
  eexists _, _. split; [reflexivity|]. split; [|done].
  repeat (constructor; [by apply u16_u32|]). constructor; [by apply fits_mod|constructor].
Qed.

Lemma as_signed_min x : u16 x -> x <> 32768 -> -32768 < as_signed 16 x <= 32767.
Proof.
  unfold fits, as_signed. intros Hx Hn. change (2 ^ (16 - 1)) with 32768. rewrite Z.mod_small by lia.
  change (2 ^ 16) with 65536 in *. destruct (Z.ltb_spec x 32768); lia.
Qed.

Lemma advance_trim_ok cal input active retard counter : calibration_typed cal -> calibration_sane cal ->
  exists trim, advance_trim cal input active retard counter = Some trim /\ i16 trim.
Proof.
  intros (_ & _ & Hs & _) (_ & _ & _ & Hm). unfold calibration_scalars in Hs.
  repeat (apply Forall_cons in Hs as [? Hs]). unfold advance_trim. destruct (latch_with_hysteresis _ _ _ _).
  - pose proof (as_signed_min (Calibration.soft_retard_max_deg10 cal) ltac:(done) Hm) as Hb.
    rewrite chk_i_ok by (change (2 ^ (16 - 1)) with 32768; lia). eexists. split; [reflexivity|apply i16_clamp].
  - eexists. split; [reflexivity|apply i16_clamp].
Qed.

Lemma calibration_axes_typed cal : calibration_typed cal -> Forall axis_typed (calibration_axes cal).
Proof.
  intros (Ht & Hc & _).
  repeat (apply Forall_cons in Ht as [(? & ? & _) Ht]). repeat (apply Forall_cons in Hc as [(? & _) Hc]).
  repeat (constructor; [done|]). constructor.
Qed.

(** ** Evaluations and runs of them *)

(** A calibration the evaluator accepts. *)
Definition calibration_accepted (cal : Calibration.t) : Prop :=
  Forall axis_valid (calibration_axes cal) /\ Calibration.pref_kpa10 cal <> 0.

Definition observations_ok (cal : Calibration.t) (obs : FuelObservations.t) : Prop :=
  u16 (FuelObservations.ve_pct_x100 obs) /\ 3 <= FuelObservations.target_afr_x100 obs <= u16_max
  /\ u32 (FuelObservations.pw_base_us obs) /\ u32 (FuelObservations.pw_air_us obs)
  /\ 0 <= FuelObservations.pw_corr_us obs <= Calibration.pw_max_us cal
  /\ (FuelObservations.fuel_cut obs = true -> FuelObservations.pw_corr_us obs = 0)
  /\ 750 <= FuelObservations.lambda_correction_x1000 obs <= 1250
  /\ acc_ok (PiIntegratorState.acc (FuelObservations.lambda_integrator_state obs))
  /\ 0 <= FuelObservations.idle_duty_x1000 obs <= 1000
  /\ acc_ok (PiIntegratorState.acc (FuelObservations.idle_integrator_state obs))
  /\ i16 (FuelObservations.advance_deg10_trim obs).

(** The deviation of the load from the recorded one reaches the threshold at its speed. *)
Definition load_deviates (cal : Calibration.t) (load : Z) (input : InputSnapshot.t) : Prop :=
  exists threshold, semantic_curve_lookup (Calibration.ae_tps_threshold_curve cal) (InputSnapshot.rpm input) = Some threshold
  /\ threshold <= Z.abs (InputSnapshot.load_kpa10 input - load).

Lemma fuel_step cal input s :
  calibration_typed cal -> calibration_sane cal -> input_typed input -> fuel_state_ok s -> calibration_accepted cal ->
  exists obs s', runtime_semantic_evaluate_fuel_with_state cal input s = Some (Ok (obs, s'))
  /\ observations_ok cal obs /\ fuel_state_ok s'
  /\ FuelState.last_valid_load_kpa10 s' = FuelState.last_valid_load_kpa10 s
  /\ FuelState.last_valid_map_kpa10 s' = FuelState.last_valid_map_kpa10 s
  /\ (load_deviates cal (FuelState.last_valid_load_kpa10 s) input ->
      FuelState.lambda_integrator_acc s' = FuelState.lambda_integrator_acc s).
Proof.
  intros Hc Hsane Hin (Hac & Hap & Had & Hia & Hla & Hdf & Hkr & Hkc) [Hv Hpref].
  unfold runtime_semantic_evaluate_fuel_with_state, validate_calibration.
  destruct (validate_axes_spec _ (calibration_axes_typed cal Hc)) as (r & -> & Hr & _).
  apply Hr in Hv as Hok. rewrite Hok. cbn [mbind option_bind]. clear r Hr Hok.
  destruct (air_pulse_width_ok cal input Hc Hsane Hv Hin) as ([[[[ve target] base] air]|e] & -> & Hair); [|by destruct Hair].
  destruct Hair as (_ & Hve & Htg & Hbase & Hairw). cbn [mbind option_bind].
  pose proof Hc as (Ht & _ & Hsc & _ & Hmax). pose proof Hv as Hva. unfold calibration_axes in Hva.
  repeat (apply Forall_cons in Ht as [? Ht]). repeat (apply Forall_cons in Hva as [? Hva]).
  unfold calibration_scalars in Hsc. repeat (apply Forall_cons in Hsc as [? Hsc]).
  assert (exists y, semantic_deadtime_lookup_us (Calibration.deadtime_table_us cal) (InputSnapshot.vbatt_mv input)
    (InputSnapshot.baro_kpa10 input) = Some y /\ u16 y) as (dead & -> & Hdead) by (apply bilerp_u16_ok; [done|by split]).
  destruct (table_corrections_ok cal input s target Hc Hv Htg) as (cs & warmup & -> & Hcs & Hwarm). cbn [mbind option_bind].
  destruct (evaluate_ae_ok cal input s Hc Hv Hap Had) as (active & pulse & steps & -> & Hpu & Hst & Htrig). cbn [mbind option_bind].
  set (s1 := _ <| FuelState.ae_active := active |>).
  destruct (arbitration_ok cal input s1 Hc Hsane) as (s2 & [fc sc] & -> & Hmix & Hown). cbn [mbind option_bind].
  destruct Hmix as (M1 & M2 & M3 & M4 & M5 & M6 & M7 & M8).
  destruct Hin as (Hrpm & _ & _ & Hlm).
  destruct (lambda_step_ok cal input target fc sc (FuelState.lambda_integrator_acc s2) (FuelState.ae_active s1))
    as (corr & lst & -> & Hcorr & Hlacc & Hlf & Hlfreeze); [done|done|done|done|done|rewrite M8; exact Hla|]. cbn [mbind option_bind].
  destruct (idle_step_ok cal input fc sc (FuelState.idle_integrator_acc s2) (FuelState.ae_active s))
    as (duty & ist & -> & Hduty & Hiacc & _); [done|done|done|done|done|rewrite M7; exact Hia|]. cbn [mbind option_bind].
  destruct (apply_corrections_ok (cs ++ [corr; 1000]) air Hairw) as (pw & -> & Hpw).
  { apply Forall_app. split; [done|]. repeat constructor; unfold fits; lia. }
  cbn [mbind option_bind].
  destruct (advance_trim_ok cal input (FuelState.rev_soft_active s2) (FuelState.knock_retard_deg10 s1) (FuelState.knock_recovery_counter s1) Hc Hsane)
    as (trim & -> & Htrim). cbn [mbind option_bind].
  set (p2 := saturating_add 32 _ dead).
  assert (u32 p2) as Hp2.
  { apply fits_saturating_add; [apply fits_saturating_add; [done|]|by apply u16_u32]. rewrite M5. exact Hpu. }
  eexists _, _. split; [reflexivity|].
  unfold observations_ok, fuel_state_ok. cbn [FuelObservations.ve_pct_x100 FuelObservations.target_afr_x100
    FuelObservations.pw_base_us FuelObservations.pw_air_us FuelObservations.pw_corr_us FuelObservations.fuel_cut
    FuelObservations.lambda_correction_x1000 FuelObservations.lambda_integrator_state FuelObservations.idle_duty_x1000
    FuelObservations.idle_integrator_state FuelObservations.advance_deg10_trim].
  setter_cbn. split; [|split].
  - unfold u16_max in Htg. rewrite (as_unsigned_small 16 target) by (unfold fits; lia). split; [by apply fits_mod|].
    split; [done|]. split; [done|]. split; [done|]. split; [unfold fits in *; destruct (fc || InputSnapshot.fuel_cut input); lia|].
    split; [by intros ->|]. done.
  - destruct (Hown (conj Hdf (conj Hkr Hkc))) as (Hd' & Hk' & Hc'). split_and!; try done.
    + unfold next_afterstart_cycle_count. rewrite M1. change (FuelState.afterstart_cycle_count s1) with (FuelState.afterstart_cycle_count s).
      destruct (is_running input); [|done]. destruct (_ =? 0); [done|]. unfold fits, saturating_add in *. lia.
    + rewrite M5. exact Hpu.
    + rewrite M6. exact Hst.
  - rewrite M2, M3. split; [done|]. split; [done|]. intros (thr & E & Hthr). rewrite (Hlf (Hlfreeze (or_introl (Htrig thr E Hthr)))).
    exact M8.
Qed.

Lemma fuel_step_rejected cal input s : calibration_typed cal -> calibration_sane cal -> input_typed input ->
  ~ calibration_accepted cal -> exists e, runtime_semantic_evaluate_fuel_with_state cal input s = Some (Err e).
Proof.
  intros Hc Hsane Hin Hn. unfold runtime_semantic_evaluate_fuel_with_state, validate_calibration.
  destruct (validate_axes_spec _ (calibration_axes_typed cal Hc)) as ([[]|e] & -> & Hr & _); [|by eexists]. cbn [mbind option_bind].
  destruct (air_pulse_width_ok cal input Hc Hsane (proj1 Hr eq_refl) Hin) as ([[[[ve target] base] air]|e] & -> & Hair); [|by eexists].
  destruct Hn. split; [by apply Hr|apply Hair].
Qed.

(** The strategy over a sequence of control steps, each from the state the last one left. *)
Fixpoint fuel_run (cal : Calibration.t) (inputs : list InputSnapshot.t) (s : FuelState.t) :
    option (Result (list FuelObservations.t * FuelState.t) FuelError.t) :=
  match inputs with
  | [] => Some (Ok ([], s))
  | input :: inputs =>
    r ← runtime_semantic_evaluate_fuel_with_state cal input s;
    match r with
    | Err e => Some (Err e)
    | Ok (obs, s) =>
      rest ← fuel_run cal inputs s;
      Some (match rest with Ok (obss, s) => Ok (obs :: obss, s) | Err e => Err e end)
    end
  end.

(** C18: the fuel strategy is bounded for ever: under any calibration whose scalars keep the
    arithmetic within its types, an accepted calibration evaluates every sequence of inputs
    without failing or overflowing, every pulse width lies between zero and the configured
    maximum and is zero under a fuel cut, the lambda correction stays within 0.75 to 1.25, the
    idle duty within 0 to 1, both integrators within their bounds, and the state stays
    well-formed; a calibration that is not accepted is refused at every step. *)
Theorem fuel_run_bounded cal inputs s :
  calibration_typed cal -> calibration_sane cal -> Forall input_typed inputs -> fuel_state_ok s ->
  (calibration_accepted cal ->
    exists obs s', fuel_run cal inputs s = Some (Ok (obs, s')) /\ length obs = length inputs
    /\ Forall (observations_ok cal) obs /\ fuel_state_ok s')
  /\ (~ calibration_accepted cal -> Forall (fun input =>
       exists e, runtime_semantic_evaluate_fuel_with_state cal input s = Some (Err e)) inputs).
Proof.
  intros Hc Hsane Hin Hs. split.
  - intros Hacc. revert s Hs. induction Hin as [|input inputs Hi Hin IH]; intros s Hs; cbn [fuel_run]; [by eexists [], _|].
    destruct (fuel_step cal input s Hc Hsane Hi Hs Hacc) as (obs & s1 & -> & Hobs & Hs1 & _). cbn [mbind option_bind].
    destruct (IH s1 Hs1) as (obss & s2 & -> & Hl & Hall & Hs2). cbn [mbind option_bind].
    eexists _, _. split; [reflexivity|]. split; [cbn; by rewrite Hl|]. split; [by constructor|done].
  - intros Hn. eapply Forall_impl; [exact Hin|]. intros input Hi. by apply fuel_step_rejected.
Qed.

(** acceleration enrichment is measured against a load that never moves: no evaluation
    changes the recorded load, so while the load stays a threshold away from it, enrichment
    counts as active at every step and the lambda integrator never moves either. *)
Theorem ae_reference_never_moves cal inputs s :
  calibration_typed cal -> calibration_sane cal -> calibration_accepted cal -> Forall input_typed inputs -> fuel_state_ok s ->
  exists obs s', fuel_run cal inputs s = Some (Ok (obs, s'))
  /\ FuelState.last_valid_load_kpa10 s' = FuelState.last_valid_load_kpa10 s
  /\ FuelState.last_valid_map_kpa10 s' = FuelState.last_valid_map_kpa10 s
  /\ (Forall (load_deviates cal (FuelState.last_valid_load_kpa10 s)) inputs ->
      FuelState.lambda_integrator_acc s' = FuelState.lambda_integrator_acc s).
Proof.
  intros Hc Hsane Hacc Hin. revert s. induction Hin as [|input inputs Hi Hin IH]; intros s Hs; cbn [fuel_run]; [by eexists [], _|].
  destruct (fuel_step cal input s Hc Hsane Hi Hs Hacc) as (obs & s1 & -> & _ & Hs1 & Hl & Hm & Hf). cbn [mbind option_bind].
  destruct (IH s1 Hs1) as (obss & s2 & -> & Hl2 & Hm2 & Hf2). cbn [mbind option_bind].
  eexists _, _. split; [reflexivity|]. split; [congruence|]. split; [congruence|].
  intros [Hd Hds]%Forall_cons. rewrite Hf2 by (by rewrite Hl). by apply Hf.
Qed.

(** ** Units of the load axis

    The tune's load axis is in kPa and its tables are looked up at loads in tenths of kPa. *)
Definition rows_typed (rows : list (list Z)) : Prop :=
  length rows = 16%nat /\ Forall (fun row => length row = 16%nat /\ Forall u16 row) rows.
Definition tune_typed (tune : FuelRuntimeTune.t) : Prop :=
  rows_typed (FuelRuntimeTune.ve_table tune) /\ rows_typed (FuelRuntimeTune.afr_table tune)
  /\ u16 (FuelRuntimeTune.required_fuel_us tune) /\ u16 (FuelRuntimeTune.injector_deadtime_us tune).

Lemma tune_axis_ok values : values = FUEL_RUNTIME_RPM_BINS \/ values = FUEL_RUNTIME_LOAD_BINS ->
  axis_typed (Axis16.mk 16 values) /\ axis_valid (Axis16.mk 16 values).
Proof.
  assert (forall a, axis_len a = 16%nat -> (forall i, (i + 1 < 16)%nat -> axis_at a i < axis_at a (i + 1)) -> axis_valid a) as Hax
    by (intros a E; unfold axis_valid; rewrite E; intuition lia).
  intros [->| ->]; (split; [split; [done|]; split; [done|]; apply (bool_decide_unpack _); exact I|]);
    (apply Hax; [reflexivity|]; intros i Hi; do 15 (destruct i as [|i]; [reflexivity|]); lia).
Qed.

Lemma two_point_axis_ok lo hi : u16 lo -> u16 hi -> lo < hi ->
  axis_typed (two_point_axis lo hi) /\ axis_valid (two_point_axis lo hi).
Proof. apply axis2_ok. Qed.

Lemma two_point_curve_ok axis y0 y1 : axis_typed axis -> u16 y0 -> u16 y1 -> curve_typed (two_point_curve axis y0 y1).
Proof. intros Ha H0 H1. split; [done|]. split; [done|]. repeat (constructor; [done|]). constructor. Qed.

Lemma rows_replicate y : u16 y -> rows_typed (replicate 16 (replicate 16 y)).
Proof. intros Hy. split; [done|]. apply Forall_replicate. split; [done|]. by apply Forall_replicate. Qed.

(** Every tune makes a calibration that the evaluator accepts. *)
Lemma tune_calibration_ok tune : tune_typed tune ->
  calibration_typed (runtime_semantic_calibration_from_fuel_tune tune)
  /\ calibration_accepted (runtime_semantic_calibration_from_fuel_tune tune).
Proof.
  intros (Hve & Hafr & Hreq & Hdead).
  destruct (tune_axis_ok FUEL_RUNTIME_RPM_BINS) as [T1 V1]; [by left|]. destruct (tune_axis_ok FUEL_RUNTIME_LOAD_BINS) as [T2 V2]; [by right|].
  destruct (two_point_axis_ok 0 2000) as [T3 V3]; [done..|]. destruct (two_point_axis_ok 0 20000) as [T4 V4]; [done..|].
  destruct (two_point_axis_ok 0 1000) as [T5 V5]; [done..|].
  pose proof (rows_replicate 1000 ltac:(done)) as R1. pose proof (rows_replicate _ Hdead) as R2.
  split; [split; [|split; [|split; [|split]]]|split; [|done]].
  - repeat (constructor; [split; [done|]; split; done|]). constructor.
  - repeat (constructor; [by apply two_point_curve_ok|]). constructor.
  - repeat (constructor; [done|]). constructor.
  - by apply u16_u32.
  - done.
  - repeat (constructor; [done|]). constructor.
Qed.

(** every load from 17 kPa on reads the tune's last row: the volumetric efficiency that
    the evaluator looks up does not depend on the load beyond 170 tenths of kPa. *)
Theorem tune_load_axis_saturates tune rpm load : tune_typed tune -> 170 <= load ->
  let table := Calibration.ve_table (runtime_semantic_calibration_from_fuel_tune tune) in
  exists y, semantic_bilerp_u16 table rpm load = Some y /\ semantic_bilerp_u16 table rpm 170 = Some y.
Proof.
  intros Hty Hload table.
  destruct (tune_calibration_ok tune Hty) as [(Ht & _) [Hv _]]. apply Forall_cons in Ht as [Ht _].
  change (table_typed u16 table) in Ht. assert (table_valid table) as Hv'.
  { apply Forall_cons in Hv as [Hvr Hv]. apply Forall_cons in Hv as [Hvl _]. by split. }
  destruct (bilerp_u16_ok table rpm load Ht Hv') as (y & E & _). exists y. split; [done|]. rewrite <- E.
  unfold semantic_bilerp_u16, semantic_bilerp.
  assert (semantic_find_segment (Table2d.load_axis table) load = Some 14%nat) as ->.
  { unfold semantic_find_segment. change (Z.to_nat (Axis16.len (Table2d.load_axis table))) with 16%nat.
    cbn [Nat.ltb Nat.leb]. change (Axis16.values (Table2d.load_axis table) !! 0%nat) with (Some 20).
    change (Axis16.values (Table2d.load_axis table) !! (16 - 1)%nat) with (Some 170). cbn [mbind option_bind].
    assert (clamp_u16_s load 20 170 = 170) as -> by (unfold clamp_u16_s; destruct (Z.ltb_spec load 20), (Z.ltb_spec 170 load); lia).
    reflexivity. }
  change (semantic_find_segment (Table2d.load_axis table) 170) with (Some 14%nat).
  destruct ((_ <? 2)%nat || (_ <? 2)%nat); [done|].
  destruct (semantic_find_segment (Table2d.rpm_axis table) rpm) as [i|]; [|done]. cbn [mbind option_bind].
  change (Nat.min (14 + 1) _) with 15%nat.
  change (Axis16.values (Table2d.load_axis table) !! 14%nat) with (Some 160).
  change (Axis16.values (Table2d.load_axis table) !! 15%nat) with (Some 170). cbn [mbind option_bind].
  assert (forall y0 y1, semantic_lerp_u16 160 170 y0 y1 load = semantic_lerp_u16 160 170 y0 y1 170) as Hlerp.
  { intros y0 y1. unfold semantic_lerp_u16, semantic_lerp. change (170 <=? 160) with false. cbv iota.
    assert (clamp_u16_s load 160 170 = 170) as -> by (unfold clamp_u16_s; destruct (Z.ltb_spec load 160), (Z.ltb_spec 170 load); lia).
    reflexivity. }
  repeat match goal with |- mbind _ ?x = _ => destruct x; cbn [mbind option_bind]; [|reflexivity] end.
  by rewrite Hlerp.
Qed.

(** ** An example *)
Definition sample_tune : FuelRuntimeTune.t :=
  FuelRuntimeTune.new (replicate 16 (replicate 16 8000)) (replicate 16 (replicate 16 1470)) 6000 800 0.
Definition sample_calibration : Calibration.t := runtime_semantic_calibration_from_fuel_tune sample_tune.
Definition sample_input : InputSnapshot.t :=
  InputSnapshot.mk 0 3000 500 500 2000 800 250 1010 13500 true 100 false 0 false false (SyncState.Locked true)
    false false false false false EngineMode.Running AfrOverride.None_.

Lemma sample_tune_typed : tune_typed sample_tune.
Proof. split; [by apply rows_replicate|]. split; [by apply rows_replicate|]. done. Qed.

Lemma sample_calibration_sane : calibration_sane sample_calibration.
Proof.
  split; [|done]. intros j i Hj Hi. change (axis_len _) with 16%nat in Hj. change (axis_len _) with 16%nat in Hi.
  assert (table_at (Calibration.afr_target_table sample_calibration) j i = 1470) as ->; [|done].
  unfold table_at. change (Table2d.values _) with (replicate 16 (replicate 16 1470)).
  rewrite (lookup_total_replicate_2 16 (replicate 16 1470) j) by done. by apply lookup_total_replicate_2.
Qed.

Lemma fuel_run_bounded_witness :
  calibration_typed sample_calibration /\ calibration_sane sample_calibration /\ calibration_accepted sample_calibration
  /\ exists obs s', fuel_run sample_calibration [sample_input; sample_input] FuelState.default = Some (Ok (obs, s'))
     /\ Forall (observations_ok sample_calibration) obs /\ map FuelObservations.pw_corr_us obs = [3169; 3169].
Proof.
  destruct (tune_calibration_ok sample_tune sample_tune_typed) as [Ht Ha].
  pose proof sample_calibration_sane as Hs.
  assert (Forall input_typed [sample_input; sample_input]) as Hi by (repeat constructor; done).
  assert (fuel_state_ok FuelState.default) as Hd by (repeat split; done).
  pose proof (fuel_run_bounded sample_calibration [sample_input; sample_input] FuelState.default Ht Hs Hi Hd) as H.
  destruct H as [H _]. destruct (H Ha) as (obs & s' & E & _ & Hobs & _).
  split; [exact Ht|]. split; [exact Hs|]. split; [exact Ha|].
  exists obs, s'. split; [exact E|]. split; [exact Hobs|].
  assert (fuel_run sample_calibration [sample_input; sample_input] FuelState.default = Some (Ok (obs, s'))) as E2 by exact E.
  vm_compute in E2. injection E2 as E2 _. rewrite <- E2. reflexivity.
Defined.

Lemma ae_reference_never_moves_witness :
  load_deviates sample_calibration 0 sample_input
  /\ exists obs s', fuel_run sample_calibration [sample_input; sample_input] FuelState.default = Some (Ok (obs, s'))
     /\ FuelState.last_valid_load_kpa10 s' = 0 /\ FuelState.ae_active s' = true /\ FuelState.lambda_integrator_acc s' = 0.
Proof.
  destruct (tune_calibration_ok sample_tune sample_tune_typed) as [Ht Ha].
  pose proof sample_calibration_sane as Hs.
  assert (Forall input_typed [sample_input; sample_input]) as Hi by (repeat constructor; done).
  assert (fuel_state_ok FuelState.default) as Hd by (repeat split; done).
  assert (load_deviates sample_calibration 0 sample_input) as Hdev by (exists 100; split; [reflexivity|done]).
  pose proof (ae_reference_never_moves sample_calibration [sample_input; sample_input] FuelState.default Ht Hs Ha Hi Hd) as H.
  destruct H as (obs & s' & E & Hl & _ & Hlam). split; [exact Hdev|]. exists obs, s'. split; [exact E|]. split; [exact Hl|].
  split; [|apply Hlam; repeat constructor; exact Hdev].
  assert (fuel_run sample_calibration [sample_input; sample_input] FuelState.default = Some (Ok (obs, s'))) as E2 by exact E.
  vm_compute in E2. injection E2 as _ E2. rewrite <- E2. reflexivity.
Defined.

Lemma tune_load_axis_saturates_witness :
  exists y, semantic_bilerp_u16 (Calibration.ve_table sample_calibration) 3000 1000 = Some y
  /\ semantic_bilerp_u16 (Calibration.ve_table sample_calibration) 3000 170 = Some y.
Proof.
  pose proof (tune_load_axis_saturates sample_tune 3000 1000 sample_tune_typed) as H. apply H. done.
Defined.
