(* ===== verification/SpecOracle.v ===== *)
(** * The executable specification's cut and controller steps (crates/spec)

    The repository keeps a specification crate of pure steps and tests the runtime against
    it.  Modelled here: the safety latch (safety.rs), rev limiter (rev_limit.rs), launch and
    flat-shift cuts (launch.rs, flatshift.rs), deceleration cut (dfco.rs), knock (knock.rs),
    the arbiter over them (arbiter.rs), and the idle and lambda controllers (idle.rs,
    lambda_cl.rs, and the rounding of numeric.rs).  The crate's calibration and input agree
    with the runtime's on the fields these steps read, and are the same records here;
    [LogicalState] has the fields they read.  The theorems say that the runtime's fuel
    strategy decides as they do, and where it does not. *)
From S2P Require Import Prelude Domain Semantic SemanticFuel.

Module KnockState.
Record t := mk { retard_deg10 : Z; recovery_counter : Z; detected : bool }.
End KnockState.

Module LogicalState.
Record t := mk {
  ae_active : bool; idle_integrator_acc : Z; lambda_integrator_acc : Z;
  dfco_active : bool; dfco_qualify_counter : Z; rev_soft_active : bool; rev_hard_active : bool;
  launch_cut_cycle_count : Z; flat_shift_cut_cycle_count : Z; knock_state : KnockState.t;
  safety_latched : bool; sensor_plausibility_latched : bool }.
End LogicalState.

(** ** Steps *)
Definition latch_fault_asserted (input : InputSnapshot.t) (state : LogicalState.t) : bool :=
  InputSnapshot.fuel_cut input || InputSnapshot.spark_cut input
  || bool_decide (InputSnapshot.mode input = EngineMode.Shutdown) || LogicalState.sensor_plausibility_latched state.

Definition latch_clear_condition (input : InputSnapshot.t) (state : LogicalState.t) : bool :=
  bool_decide (InputSnapshot.mode input = EngineMode.Off) && negb (InputSnapshot.fuel_cut input)
  && negb (InputSnapshot.spark_cut input) && negb (LogicalState.sensor_plausibility_latched state).

Definition safety_step (input : InputSnapshot.t) (state : LogicalState.t) : bool :=
  if latch_fault_asserted input state then true
  else if latch_clear_condition input state then false
  else LogicalState.safety_latched state.

Module RevLimitResult.
Record t := mk {
  soft_rev_spark_cut : bool; hard_rev_fuel_cut : bool; soft_retard_deg10 : Z; soft_active : bool; hard_active : bool }.
End RevLimitResult.

Definition rev_latch_with_hysteresis (active : bool) (rpm threshold hysteresis : Z) : bool :=
  let release := saturating_sub threshold hysteresis in
  if active then release <? rpm else threshold <=? rpm.

(** The retard is a negation in 16 bits. *)
Definition rev_limit_step (cal : Calibration.t) (input : InputSnapshot.t) (state : LogicalState.t) :
    option RevLimitResult.t :=
  let hard_active := rev_latch_with_hysteresis (LogicalState.rev_hard_active state) (InputSnapshot.rpm input)
    (Calibration.hard_rev_rpm cal) (Calibration.rev_hysteresis_rpm cal) in
  let soft_active := rev_latch_with_hysteresis (LogicalState.rev_soft_active state) (InputSnapshot.rpm input)
    (Calibration.soft_rev_rpm cal) (Calibration.rev_hysteresis_rpm cal) in
  soft_retard_deg10 ← (if soft_active then chk_i 16 (- as_signed 16 (Calibration.soft_retard_max_deg10 cal)) else Some 0);
  Some (RevLimitResult.mk (soft_active && negb hard_active) hard_active soft_retard_deg10 soft_active hard_active).

Module CutCycleResult.
Record t := mk { cut : bool; active : bool; cut_cycle_count : Z }.
End CutCycleResult.

(** [cut_cycles] cycles cut, then one not; the part that launch_step and flat_shift_step share. *)
Definition cut_cycle_phase (cut_cycles cut_cycle_count : Z) : CutCycleResult.t :=
  if cut_cycles =? 0 then CutCycleResult.mk true true 0
  else
    let phase := cut_cycle_count mod saturating_add 16 cut_cycles 1 in
    CutCycleResult.mk (phase <? cut_cycles) true (if cut_cycles <=? phase then 0 else saturating_add 16 cut_cycle_count 1).

Definition launch_step (cal : Calibration.t) (input : InputSnapshot.t) (state : LogicalState.t) : CutCycleResult.t :=
  if negb (InputSnapshot.launch_armed input) then CutCycleResult.mk false false 0
  else if negb (Calibration.launch_rpm_limit cal <=? InputSnapshot.rpm input) then CutCycleResult.mk false true 0
  else cut_cycle_phase (Calibration.launch_cut_cycles cal) (LogicalState.launch_cut_cycle_count state).

Definition flat_shift_step (cal : Calibration.t) (input : InputSnapshot.t) (state : LogicalState.t) : CutCycleResult.t :=
  let active := InputSnapshot.flat_shift_armed input && (Calibration.flat_shift_rpm_min cal <=? InputSnapshot.rpm input) in
  if negb active then CutCycleResult.mk false false 0
  else cut_cycle_phase (Calibration.flat_shift_cut_cycles cal) (LogicalState.flat_shift_cut_cycle_count state).

Module DfcoResult.
Record t := mk { fuel_cut : bool; dfco_active : bool; dfco_qualify_counter : Z }.
End DfcoResult.

Definition dfco_step (cal : Calibration.t) (input : InputSnapshot.t) (state : LogicalState.t) : DfcoResult.t :=
  if negb (bool_decide (InputSnapshot.mode input = EngineMode.Running)) then DfcoResult.mk false false 0
  else if LogicalState.dfco_active state then
    let active := (Calibration.dfco_exit_rpm cal <? InputSnapshot.rpm input)
      && (InputSnapshot.tps_x100 input <=? Calibration.dfco_exit_tps_x100 cal) in
    DfcoResult.mk active active 0
  else
    let qualify_now := (Calibration.dfco_entry_rpm cal <=? InputSnapshot.rpm input)
      && (InputSnapshot.tps_x100 input <=? Calibration.dfco_entry_tps_x100 cal)
      && (InputSnapshot.map_kpa10 input <=? Calibration.dfco_entry_map_kpa10 cal) in
    if negb qualify_now then DfcoResult.mk false false 0
    else
      let qualify_counter := saturating_add 16 (LogicalState.dfco_qualify_counter state) 1 in
      let active := Calibration.dfco_delay_cycles cal <=? qualify_counter in
      DfcoResult.mk active active qualify_counter.

Module KnockResult.
Record t := mk { advance_trim_deg10 : Z; knock_active : bool; next_state : KnockState.t }.
End KnockResult.

Definition knock_step (cal : Calibration.t) (input : InputSnapshot.t) (state : LogicalState.t) : option KnockResult.t :=
  let retard := KnockState.retard_deg10 (LogicalState.knock_state state) in
  let recovery_counter := KnockState.recovery_counter (LogicalState.knock_state state) in
  let detected := Calibration.knock_threshold_x100 cal <=? InputSnapshot.knock_intensity_x100 input in
  let '(retard, recovery_counter) :=
    if detected then
      let max := as_signed 16 (Calibration.knock_retard_max_deg10 cal) in
      let retard := saturating_add_i16 retard (as_signed 16 (Calibration.knock_retard_step_deg10 cal)) in
      (if max <? retard then max else retard, 0)
    else if 0 <? retard then
      if Calibration.knock_recovery_delay_cycles cal <=? recovery_counter then
        let retard := saturating_sub_i16 retard (as_signed 16 (Calibration.knock_recovery_step_deg10 cal)) in
        (if retard <? 0 then 0 else retard, 0)
      else (retard, saturating_add 16 recovery_counter 1)
    else (retard, 0) in
  advance_trim_deg10 ← chk_i 16 (- retard);
  Some (KnockResult.mk advance_trim_deg10 (0 <? retard) (KnockState.mk retard recovery_counter detected)).

(** ** The arbiter *)
Module ArbiterInputs.
Record t := mk {
  safety_latched : bool; dfco_cut : bool; rev_limit : RevLimitResult.t; launch_cut : bool;
  flat_shift : CutCycleResult.t; knock : KnockResult.t }.
End ArbiterInputs.

Module ArbiterResult.
Record t := mk { cut_reason_code : Z; fuel_cut : bool; spark_cut : bool }.
End ArbiterResult.

Definition arbiter_step (input : ArbiterInputs.t) : ArbiterResult.t :=
  if ArbiterInputs.safety_latched input then ArbiterResult.mk 1 true true
  else if RevLimitResult.hard_rev_fuel_cut (ArbiterInputs.rev_limit input) then ArbiterResult.mk 2 true true
  else if ArbiterInputs.launch_cut input then ArbiterResult.mk 3 true true
  else if CutCycleResult.cut (ArbiterInputs.flat_shift input) then ArbiterResult.mk 4 true true
  else if ArbiterInputs.dfco_cut input then ArbiterResult.mk 5 true false
  else if RevLimitResult.soft_rev_spark_cut (ArbiterInputs.rev_limit input) then ArbiterResult.mk 6 false true
  else if KnockResult.knock_active (ArbiterInputs.knock input) then ArbiterResult.mk 7 false false
  else ArbiterResult.mk 0 false false.

(** The first part of the oracle's [step]. *)
Definition oracle_cuts (cal : Calibration.t) (input : InputSnapshot.t) (state : LogicalState.t) : option ArbiterResult.t :=
  let dfco := dfco_step cal input state in
  rev_limit ← rev_limit_step cal input state;
  let launch := launch_step cal input state in
  let flat_shift := flat_shift_step cal input state in
  knock ← knock_step cal input state;
  let safety := safety_step input state in
  Some (arbiter_step (ArbiterInputs.mk safety (DfcoResult.fuel_cut dfco) rev_limit (CutCycleResult.cut launch) flat_shift knock)).

(** ** Controllers *)
Definition mul_div_floor_i32 (value mul div : Z) : Z :=
  let quotient := value * mul / div in
  if (quotient <? -2147483648) || (i32_max <? quotient)
  then if quotient <? -2147483648 then -2147483648 else i32_max
  else quotient.

Definition apply_gain (error gain_x1000 : Z) : Z := mul_div_floor_i32 error gain_x1000 1000.

Definition effective_error (deadband raw : Z) : Z := if Z.abs raw <=? deadband then 0 else raw.

Definition saturation_freeze (lo hi pre i_step : Z) : bool :=
  ((pre <=? lo) && (i_step <? 0)) || ((hi <=? pre) && (0 <? i_step)).

Definition i32_to_u16_saturating (value : Z) : Z :=
  if value <? 0 then 0 else if u16_max <? value then u16_max else value.

(** The proportional-integral step that idle_step and lambda_step_with_error share: from a
    base value, with the freeze gate and the bounds of accumulator and output. *)
Definition pi_step (base error kp ki acc lo hi : Z) (freeze_gate : bool) : option (Z * PiIntegratorState.t) :=
  let p_term := apply_gain error kp in
  let i_step := apply_gain error ki in
  biased ← chk_i 32 (base + p_term);
  pre ← chk_i 32 (biased + acc);
  let freeze := freeze_gate || saturation_freeze lo hi pre i_step in
  let acc_next := if freeze then acc else integrate acc i_step (-2000) 2000 in
  out ← chk_i 32 (biased + acc_next);
  Some (clamp (i32_to_u16_saturating out) lo hi, PiIntegratorState.mk acc_next (-2000) 2000 freeze).

Definition idle_step (cal : Calibration.t) (input : InputSnapshot.t) (state : LogicalState.t) :
    option (Z * PiIntegratorState.t) :=
  pi_step (Calibration.idle_base_duty_x1000 cal)
    (effective_error 20 (Calibration.idle_target_rpm cal - InputSnapshot.rpm input))
    (Calibration.idle_kp_x1000 cal) (Calibration.idle_ki_x1000 cal) (LogicalState.idle_integrator_acc state) 0 1000
    ((InputSnapshot.clt_c10 input <? 700) || LogicalState.ae_active state
     || InputSnapshot.fuel_cut input || InputSnapshot.spark_cut input).

Definition lambda_step_with_error (cal : Calibration.t) (input : InputSnapshot.t) (state : LogicalState.t)
    (ae_active : bool) (lambda_error_x1000 : Z) : option (Z * PiIntegratorState.t) :=
  pi_step 1000 (effective_error 10 lambda_error_x1000)
    (Calibration.lambda_kp_x1000 cal) (Calibration.lambda_ki_x1000 cal) (LogicalState.lambda_integrator_acc state) 750 1250
    ((InputSnapshot.clt_c10 input <? 700) || ae_active || InputSnapshot.fuel_cut input || InputSnapshot.spark_cut input).

(** ** The runtime against the oracle *)

(** The oracle's view of the runtime's state; a sensor whose plausibility latched is the
    runtime's request for the safety latch. *)
Definition logical_of (input : InputSnapshot.t) (s : FuelState.t) : LogicalState.t :=
  LogicalState.mk (FuelState.ae_active s) (FuelState.idle_integrator_acc s) (FuelState.lambda_integrator_acc s)
    (FuelState.dfco_active s) (FuelState.dfco_qualify_counter s) (FuelState.rev_soft_active s) (FuelState.rev_hard_active s)
    (FuelState.launch_cut_cycle_count s) (FuelState.flat_shift_cut_cycle_count s)
    (KnockState.mk (FuelState.knock_retard_deg10 s) (FuelState.knock_recovery_counter s) false)
    (FuelState.safety_latched s) (InputSnapshot.safety_latch_request input).

(** Knock steps of less than half the type, and a retard that is one. *)
Definition knock_sane (cal : Calibration.t) (s : FuelState.t) : Prop :=
  0 <= FuelState.knock_retard_deg10 s <= 32767
  /\ 0 <= Calibration.knock_retard_step_deg10 cal < 32768 /\ 0 <= Calibration.knock_retard_max_deg10 cal < 32768
  /\ 0 <= Calibration.knock_recovery_step_deg10 cal < 32768.

Lemma rev_latch_same active rpm thr h : rev_latch_with_hysteresis active rpm thr h = latch_with_hysteresis active rpm thr h.
Proof. done. Qed.

Lemma safety_same input s0 s : FuelState.safety_latched s = FuelState.safety_latched s0 ->
  FuelState.safety_latched (update_safety_latch input s) = safety_step input (logical_of input s0).
Proof.
  intros E. unfold update_safety_latch, safety_step, latch_fault_asserted, latch_clear_condition.
  cbn [logical_of LogicalState.safety_latched LogicalState.sensor_plausibility_latched]. rewrite E.
  destruct (FuelState.safety_latched s0) eqn:L, (InputSnapshot.fuel_cut input), (InputSnapshot.spark_cut input),
    (InputSnapshot.safety_latch_request input), (InputSnapshot.mode input); cbn; rewrite ?E; done.
Qed.

Lemma cycle_phase_same cycles count : 0 <= cycles < u16_max ->
  (if cycles =? 0 then Some true else period ← chk 16 (cycles + 1); Some (count mod period <? cycles))
  = Some (CutCycleResult.cut (cut_cycle_phase cycles count)).
Proof.
  unfold u16_max. intros H. unfold cut_cycle_phase. destruct (cycles =? 0); [done|].
  rewrite chk_ok by lia. unfold saturating_add. by rewrite Z.min_l by lia.
Qed.

Lemma launch_same cal input s0 : 0 <= Calibration.launch_cut_cycles cal < u16_max ->
  cycle_cut (InputSnapshot.launch_armed input) (InputSnapshot.rpm input) (Calibration.launch_rpm_limit cal)
    (Calibration.launch_cut_cycles cal) (FuelState.launch_cut_cycle_count s0)
  = Some (CutCycleResult.cut (launch_step cal input (logical_of input s0))).
Proof.
  intros H. unfold cycle_cut, launch_step. destruct (InputSnapshot.launch_armed input); [|done]. cbn [andb negb].
  destruct (_ <=? _); [|done]. cbn [negb]. by apply cycle_phase_same.
Qed.

Lemma flat_shift_same cal input s0 : 0 <= Calibration.flat_shift_cut_cycles cal < u16_max ->
  cycle_cut (InputSnapshot.flat_shift_armed input) (InputSnapshot.rpm input) (Calibration.flat_shift_rpm_min cal)
    (Calibration.flat_shift_cut_cycles cal) (FuelState.flat_shift_cut_cycle_count s0)
  = Some (CutCycleResult.cut (flat_shift_step cal input (logical_of input s0))).
Proof.
  intros H. unfold cycle_cut, flat_shift_step. cbv zeta. destruct (InputSnapshot.flat_shift_armed input && _); [|done].
  cbn [negb]. by apply cycle_phase_same.
Qed.

Lemma dfco_same cal input s0 s : FuelState.dfco_active s = FuelState.dfco_active s0 ->
  FuelState.dfco_qualify_counter s = FuelState.dfco_qualify_counter s0 ->
  let running := bool_decide (InputSnapshot.mode input = EngineMode.Running) in
  running && FuelState.dfco_active (if running then update_dfco cal input s else s)
  = DfcoResult.fuel_cut (dfco_step cal input (logical_of input s0)).
Proof.
  intros Ea Eq running. unfold dfco_step. fold running. destruct running; [|done]. cbn [negb andb].
  unfold update_dfco. cbn [logical_of LogicalState.dfco_active LogicalState.dfco_qualify_counter]. rewrite Ea.
  destruct (FuelState.dfco_active s0); [done|]. destruct (_ && _); cbn [negb]; [|exact Ea].
  cbv zeta. setter_cbn. rewrite Eq. destruct (Calibration.dfco_delay_cycles cal <=? _); [done|exact Ea].
Qed.

(** The retard that the oracle computes is the runtime's, while it is within the maximum. *)
Lemma knock_step_ok cal input s : knock_sane cal s ->
  exists k, knock_step cal input (logical_of input s) = Some k
  /\ (FuelState.knock_retard_deg10 s <= Calibration.knock_retard_max_deg10 cal ->
      KnockState.retard_deg10 (KnockResult.next_state k) = FuelState.knock_retard_deg10 (update_knock cal input s)).
Proof.
  intros (Hr & Hs & Hm & Hv). unfold knock_step, update_knock.
  cbn [logical_of LogicalState.knock_state KnockState.retard_deg10 KnockState.recovery_counter].
  rewrite !(as_signed_small 16) by (change (2 ^ (16 - 1)) with 32768; lia). cbv zeta.
  assert (forall x, -32767 <= x <= 32767 -> chk_i 16 (- x) = Some (- x)) as Hchk
    by (intros x ?; apply chk_i_ok; change (2 ^ (16 - 1)) with 32768; lia).
  setter_cbn.
  assert (saturating_add_i16 (FuelState.knock_retard_deg10 s) (Calibration.knock_retard_step_deg10 cal)
    = Z.min (FuelState.knock_retard_deg10 s + Calibration.knock_retard_step_deg10 cal) 32767) as ->
    by (unfold saturating_add_i16, clamp; repeat case_match; to_prop; lia).
  assert (saturating_sub_i16 (FuelState.knock_retard_deg10 s) (Calibration.knock_recovery_step_deg10 cal)
    = FuelState.knock_retard_deg10 s - Calibration.knock_recovery_step_deg10 cal) as ->
    by (unfold saturating_sub_i16, clamp; repeat case_match; to_prop; lia).
  set (up := Z.min _ 32767). set (down := _ - Calibration.knock_recovery_step_deg10 cal).
  destruct (Z.leb_spec (Calibration.knock_threshold_x100 cal) (InputSnapshot.knock_intensity_x100 input));
    [|destruct (Z.ltb_spec 0 (FuelState.knock_retard_deg10 s));
      [destruct (Calibration.knock_recovery_delay_cycles cal <=? FuelState.knock_recovery_counter s)|]].
  - destruct (Z.ltb_spec (Calibration.knock_retard_max_deg10 cal) up);
      rewrite Hchk by lia; (eexists; split; [reflexivity|]); intros ?;
      cbn [KnockResult.next_state KnockState.retard_deg10];
      (destruct (Z.ltb_spec (FuelState.knock_retard_deg10 s) (Calibration.knock_retard_max_deg10 cal)); setter_cbn; lia).
  - destruct (Z.ltb_spec down 0); rewrite Hchk by lia; (eexists; split; [reflexivity|]); done.
  - rewrite Hchk by lia. eexists. split; [reflexivity|]. done.
  - rewrite Hchk by lia. eexists. split; [reflexivity|]. done.
Qed.

(** The update of the safety latch changes the latch alone. *)
Lemma safety_latch_frame input s0 :
  let s := update_safety_latch input ((s0 <| FuelState.launch_active := false |>) <| FuelState.flat_shift_active := false |>) in
  FuelState.rev_hard_active s = FuelState.rev_hard_active s0 /\ FuelState.rev_soft_active s = FuelState.rev_soft_active s0
  /\ FuelState.launch_cut_cycle_count s = FuelState.launch_cut_cycle_count s0
  /\ FuelState.flat_shift_cut_cycle_count s = FuelState.flat_shift_cut_cycle_count s0
  /\ FuelState.dfco_active s = FuelState.dfco_active s0 /\ FuelState.dfco_qualify_counter s = FuelState.dfco_qualify_counter s0
  /\ FuelState.launch_active s = false /\ FuelState.flat_shift_active s = false.
Proof. unfold update_safety_latch. repeat case_match; done. Qed.

Lemma update_dfco_frame cal input s :
  FuelState.safety_latched (update_dfco cal input s) = FuelState.safety_latched s
  /\ FuelState.rev_soft_active (update_dfco cal input s) = FuelState.rev_soft_active s
  /\ FuelState.launch_active (update_dfco cal input s) = FuelState.launch_active s
  /\ FuelState.flat_shift_active (update_dfco cal input s) = FuelState.flat_shift_active s.
Proof. unfold update_dfco. cbv zeta. repeat case_match; done. Qed.

Lemma update_knock_frame cal input s :
  FuelState.safety_latched (update_knock cal input s) = FuelState.safety_latched s
  /\ FuelState.launch_active (update_knock cal input s) = FuelState.launch_active s
  /\ FuelState.flat_shift_active (update_knock cal input s) = FuelState.flat_shift_active s.
Proof. unfold update_knock. cbv zeta. repeat case_match; done. Qed.

(** The oracle's decision, its failing parts apart. *)
Lemma oracle_cuts_ok cal input s : u16 (Calibration.soft_retard_max_deg10 cal) -> Calibration.soft_retard_max_deg10 cal <> 32768 ->
  knock_sane cal s -> exists ret k,
  let ls := logical_of input s in
  let hard := latch_with_hysteresis (FuelState.rev_hard_active s) (InputSnapshot.rpm input)
    (Calibration.hard_rev_rpm cal) (Calibration.rev_hysteresis_rpm cal) in
  let soft := latch_with_hysteresis (FuelState.rev_soft_active s) (InputSnapshot.rpm input)
    (Calibration.soft_rev_rpm cal) (Calibration.rev_hysteresis_rpm cal) in
  oracle_cuts cal input ls = Some (arbiter_step (ArbiterInputs.mk (safety_step input ls)
    (DfcoResult.fuel_cut (dfco_step cal input ls)) (RevLimitResult.mk (soft && negb hard) hard ret soft hard)
    (CutCycleResult.cut (launch_step cal input ls)) (flat_shift_step cal input ls) k)).
Proof.
  intros Hu Hm Hk. destruct (knock_step_ok cal input s Hk) as (k & Ek & _).
  assert (forall b : bool, exists y, (if b then chk_i 16 (- as_signed 16 (Calibration.soft_retard_max_deg10 cal)) else Some 0) = Some y) as Hret.
  { intros []; [|by eexists]. pose proof (as_signed_min (Calibration.soft_retard_max_deg10 cal) Hu Hm).
    rewrite chk_i_ok by (change (2 ^ (16 - 1)) with 32768; lia). by eexists. }
  unfold oracle_cuts, rev_limit_step. cbv zeta.
  match goal with |- context [if ?b then chk_i 16 _ else _] => destruct (Hret b) as (ret & E) end.
  exists ret, k. rewrite E. cbn [mbind option_bind]. rewrite Ek. done.
Qed.


(** ** The controllers *)
Lemma mul_div_same error gain : - 2 ^ 31 <= error * gain / 1000 < 2 ^ 31 ->
  semantic_mul_div_floor_i32 error gain 1000 = apply_gain error gain.
Proof.
  intros H. rewrite mul_div_floor_i32_eq by done. unfold apply_gain, mul_div_floor_i32, i32_max. cbv zeta.
  destruct (Z.ltb_spec (error * gain / 1000) (-2147483648)); [lia|].
  by destruct (Z.ltb_spec 2147483647 (error * gain / 1000)); [lia|].
Qed.

(** The error that the runtime computes from target and measurement. *)
Definition lambda_error (cal : Calibration.t) (input : InputSnapshot.t) (target_afr_x100 : Z) : Z :=
  Calibration.stoich_afr_x100 cal * 1000 / target_afr_x100 - InputSnapshot.lambda_measured input * 10.

(** C38: the runtime's controllers are the oracle's: on every input of its type the idle step
    is the oracle's under the arbitrated cuts, and the lambda step, when the sensor is valid
    and the loop closed, is the oracle's on the error between target and measurement, with
    the same output, accumulator and freeze. *)
Theorem controllers_match_oracle cal input s fuel_cut spark_cut target :
  calibration_typed cal -> input_typed input -> 3 <= target <= u16_max ->
  let arbitrated := (input <| InputSnapshot.fuel_cut := fuel_cut |>) <| InputSnapshot.spark_cut := spark_cut |> in
  runtime_semantic_idle_step cal input fuel_cut spark_cut (FuelState.idle_integrator_acc s) (FuelState.ae_active s)
  = idle_step cal arbitrated (logical_of input s)
  /\ (InputSnapshot.lambda_valid input = true -> InputSnapshot.requested_open_loop input = false -> forall ae_active,
      runtime_semantic_lambda_step cal input target fuel_cut spark_cut (FuelState.lambda_integrator_acc s) ae_active
      = lambda_step_with_error cal arbitrated (logical_of input s) ae_active (lambda_error cal input target)).
Proof.
  intros (_ & _ & Hsc & _) (Hrpm & _ & _ & Hlm) Ht arbitrated.
  unfold calibration_scalars in Hsc. repeat (apply Forall_cons in Hsc as [? Hsc]). split.
  - unfold runtime_semantic_idle_step, idle_step, pi_step.
    change (semantic_effective_idle_rpm_error (Calibration.idle_target_rpm cal) (InputSnapshot.rpm input))
      with (effective_error 20 (Calibration.idle_target_rpm cal - InputSnapshot.rpm arbitrated)).
    set (error := effective_error 20 _).
    assert (Z.abs error <= 65535) as He by (apply deadband_abs; unfold arbitrated, fits in *; cbn; lia).
    pose proof (gain_bounds error (Calibration.idle_kp_x1000 cal) _ ltac:(done) He ltac:(lia)).
    pose proof (gain_bounds error (Calibration.idle_ki_x1000 cal) _ ltac:(done) He ltac:(lia)).
    rewrite !mul_div_same by lia. done.
  - intros Hvalid Hclosed ae. unfold runtime_semantic_lambda_step, lambda_step_with_error, pi_step.
    rewrite Hvalid, Hclosed. cbn [negb orb]. unfold u16_max in Ht. unfold fits in *.
    destruct (Z.eqb_spec target 0); [lia|].
    rewrite mul_div_floor_ok by lia. destruct (Z.eqb_spec target 0); [lia|]. cbn [mbind option_bind].
    assert (0 <= Calibration.stoich_afr_x100 cal * 1000 / target <= 21845000) as Hq.
    { split; [apply Z.div_pos; lia|]. apply Z.div_le_upper_bound; nia. }
    rewrite as_signed_small by lia. fold (lambda_error cal input target).
    change (semantic_effective_lambda_error (lambda_error cal input target)) with (effective_error 10 (lambda_error cal input target)).
    set (error := effective_error 10 _).
    assert (Z.abs error <= 21845000) as He by (apply deadband_abs; unfold lambda_error; lia).
    pose proof (gain_bounds error (Calibration.lambda_kp_x1000 cal) _ ltac:(done) He ltac:(lia)).
    pose proof (gain_bounds error (Calibration.lambda_ki_x1000 cal) _ ltac:(done) He ltac:(lia)).
    rewrite !mul_div_same by lia. done.
Qed.

(** ** Where the two differ *)

(** A directly requested cut of one channel decides before the safety latch is looked at:
    whatever latched or asks to latch, only that channel is cut and the latch is not set. *)
Theorem direct_cut_bypasses_latch cal input s :
  InputSnapshot.direct_fuel_cut_request input = false -> InputSnapshot.direct_spark_cut_request input = true ->
  exists s', evaluate_cut_arbitration cal input s = Some (s', (false, true))
  /\ FuelState.safety_latched s' = FuelState.safety_latched s
  /\ (InputSnapshot.safety_latch_request input = true -> safety_step input (logical_of input s) = true).
Proof.
  intros Hf Hs. unfold evaluate_cut_arbitration. rewrite Hf, Hs. cbn [orb]. eexists. split; [reflexivity|]. split; [done|].
  intros Hl. unfold safety_step, latch_fault_asserted. cbn [logical_of LogicalState.sensor_plausibility_latched].
  by rewrite Hl, orb_true_r.
Qed.

(** ** Examples *)
Definition sample_cut_input : InputSnapshot.t :=
  (sample_input <| InputSnapshot.launch_armed := true |>) <| InputSnapshot.safety_latch_request := false |>.

Lemma sample_knock_sane : knock_sane sample_calibration FuelState.default.
Proof. repeat split; done. Qed.


Lemma controllers_match_oracle_witness :
  runtime_semantic_lambda_step sample_calibration sample_input 1470 false false 0 false
  = lambda_step_with_error sample_calibration sample_input (logical_of sample_input FuelState.default) false 0.
Proof.
  destruct (tune_calibration_ok sample_tune sample_tune_typed) as [Ht _].
  assert (input_typed sample_input) as Hi by (repeat split; done).
  assert (3 <= 1470 <= u16_max) as Hr by (split; done).
  pose proof (controllers_match_oracle sample_calibration sample_input FuelState.default false false 1470 Ht Hi Hr) as H.
  exact (proj2 H eq_refl eq_refl false).
Defined.

Lemma direct_cut_bypasses_latch_witness :
  exists s', evaluate_cut_arbitration sample_calibration
    ((sample_input <| InputSnapshot.direct_spark_cut_request := true |>) <| InputSnapshot.safety_latch_request := true |>)
    FuelState.default = Some (s', (false, true)) /\ FuelState.safety_latched s' = false.
Proof.
  pose proof (direct_cut_bypasses_latch sample_calibration
    ((sample_input <| InputSnapshot.direct_spark_cut_request := true |>) <| InputSnapshot.safety_latch_request := true |>)
    FuelState.default eq_refl eq_refl) as H.
  destruct H as (s' & E & Hl & _). exists s'. split; [exact E|exact Hl].
Defined.
