(* ===== verification/SemanticSchedule.v ===== *)
(** * Semantic schedule and torque (crates/runtime/src: semantic/schedule.rs, semantic/torque.rs, outputs.rs)

    The evaluator that turns fuel observations into event angles for every cylinder, and
    the torque pipeline, over the tables of [Semantic].  Angles are tenths of a degree of
    the 720-degree cycle.  The theorems say where each event lies and that none is emitted
    without authority over the whole cycle. *)
From S2P Require Import Prelude Domain BoardApi Semantic SemanticFuel.

(** ** Authority (outputs.rs) *)
Definition absolute_authorizes_full_sequential (absolute : AbsoluteTimeAuthority.t) : bool :=
  match absolute with
  | AbsoluteTimeAuthority.ExpertManual | AbsoluteTimeAuthority.CommunityProfile
  | AbsoluteTimeAuthority.CertifiedProfile | AbsoluteTimeAuthority.BenchLearned => true
  | _ => false
  end.

Definition runtime_full_sequential_authorized (authority : EngineTimeAuthority.t) : bool :=
  is_ok (EngineTimeAuthority.validate authority) && EngineTimeAuthority.has_primary_lock authority
  && bool_decide (EngineTimeAuthority.phase authority = PhaseSyncState.CamValidated720)
  && absolute_authorizes_full_sequential (EngineTimeAuthority.absolute authority).

(** ** Types *)
Module CylinderArray.
Record t := mk { count : Z; values : list Z }.
End CylinderArray.

Module InjectionAngleMode.
Inductive t := StartOfInjection | EndOfInjection.
End InjectionAngleMode.

Module ScheduleCalibration.
Record t := mk {
  spark_advance_table_deg10 : Table2d.t; dwell_table_us : Table2d.t; injection_target_table_deg10 : Table2d.t;
  injection_angle_mode : InjectionAngleMode.t; cylinder_phase_deg10 : CylinderArray.t }.
End ScheduleCalibration.

Module ScheduleDiagnostic.
Inductive t := None_ | FuelCutActive | SparkCutActive | Unsynced | CalibrationInvalid.
End ScheduleDiagnostic.

Module EventKind.
Inductive t := InjectionOpen | InjectionClose | CoilChargeStart | CoilFire.
#[global] Instance eq_dec : EqDecision t.
Proof. solve_decision. Defined.
End EventKind.

Module ScheduleEvent.
Record t := mk { kind : EventKind.t; cylinder : Z; angle_deg10 : Z }.
End ScheduleEvent.

Module EventBatch.
Record t := mk { len : Z; events : list ScheduleEvent.t }.
End EventBatch.

Module ScheduleObservations.
Record t := mk {
  injection_target_deg10 : Z; spark_advance_deg10 : Z; dwell_us : Z; injection_duration_deg10 : Z;
  dwell_duration_deg10 : Z; soi_deg10 : CylinderArray.t; eoi_deg10 : CylinderArray.t;
  spark_deg10 : CylinderArray.t; dwell_start_deg10 : CylinderArray.t; events : EventBatch.t;
  diagnostic : ScheduleDiagnostic.t }.
End ScheduleObservations.

Module ScheduleError.
Inductive t :=
| AxisLenInvalid | AxisNotStrictlyIncreasing | CylinderCountInvalid | CylinderPhaseInvalid
| DurationOverflow | EventBatchFull.
End ScheduleError.

(** ** Validation *)
Definition axis_len_valid (axis : Axis16.t) : bool :=
  (2 <=? Axis16.len axis) && (Axis16.len axis <=? 16).

(** One loop over neighbouring entries; [true] when they increase. *)
Fixpoint axis_increasing_loop (n idx : nat) (axis : Axis16.t) : option bool :=
  match n with
  | O => Some true
  | S n =>
    lo ← Axis16.values axis !! idx;
    hi ← Axis16.values axis !! (idx + 1)%nat;
    if hi <=? lo then Some false else axis_increasing_loop n (idx + 1) axis
  end.

Fixpoint axes_increasing (axes : list Axis16.t) : option bool :=
  match axes with
  | [] => Some true
  | axis :: rest =>
    ok ← axis_increasing_loop (Z.to_nat (Axis16.len axis) - 1) 0 axis;
    if ok : bool then axes_increasing rest else Some false
  end.

Fixpoint phases_valid_loop (n idx : nat) (phases : list Z) : option bool :=
  match n with
  | O => Some true
  | S n =>
    phase ← phases !! idx;
    if 7200 <=? phase then Some false else phases_valid_loop n (idx + 1) phases
  end.

Definition schedule_axes (cal : ScheduleCalibration.t) : list Axis16.t :=
  [ Table2d.rpm_axis (ScheduleCalibration.spark_advance_table_deg10 cal);
    Table2d.load_axis (ScheduleCalibration.spark_advance_table_deg10 cal);
    Table2d.rpm_axis (ScheduleCalibration.dwell_table_us cal);
    Table2d.load_axis (ScheduleCalibration.dwell_table_us cal);
    Table2d.rpm_axis (ScheduleCalibration.injection_target_table_deg10 cal);
    Table2d.load_axis (ScheduleCalibration.injection_target_table_deg10 cal) ].

Definition validate_schedule_calibration (cal : ScheduleCalibration.t) : option (Result unit ScheduleError.t) :=
  let phases := ScheduleCalibration.cylinder_phase_deg10 cal in
  if negb (forallb axis_len_valid (schedule_axes cal)) then Some (Err ScheduleError.AxisLenInvalid)
  else
    increasing ← axes_increasing (schedule_axes cal);
    if negb increasing then Some (Err ScheduleError.AxisNotStrictlyIncreasing)
    else if negb ((1 <=? CylinderArray.count phases) && (CylinderArray.count phases <=? 8))
    then Some (Err ScheduleError.CylinderCountInvalid)
    else
      valid ← phases_valid_loop (Z.to_nat (CylinderArray.count phases)) 0 (CylinderArray.values phases);
      if negb valid then Some (Err ScheduleError.CylinderPhaseInvalid) else Some (Ok tt).

(** ** Angles *)
Definition norm7200_i32 (x : Z) : Z :=
  let v := Z.rem x 7200 in
  as_unsigned 16 (if v <? 0 then v + 7200 else v).

Definition duration_deg10 (us rpm : Z) : Result Z ScheduleError.t :=
  let raw := us * rpm * 6 / 100000 in
  if u16_max <? raw then Err ScheduleError.DurationOverflow else Ok raw.

(** The four angles of a cylinder. *)
Module CylinderAngles.
Record t := mk { soi : Z; eoi : Z; spark : Z; dwell_start : Z }.
End CylinderAngles.

Definition cylinder_angles (mode : InjectionAngleMode.t)
    (phase injection_target_deg10 injection_duration_deg10 spark_advance_deg10 dwell_duration_deg10 : Z) : CylinderAngles.t :=
  let '(soi, eoi) :=
    match mode with
    | InjectionAngleMode.EndOfInjection =>
      let eoi_i := phase - injection_target_deg10 in
      (norm7200_i32 (eoi_i - injection_duration_deg10), norm7200_i32 eoi_i)
    | InjectionAngleMode.StartOfInjection =>
      let soi_i := phase - injection_target_deg10 in
      (norm7200_i32 soi_i, norm7200_i32 (soi_i + injection_duration_deg10))
    end in
  CylinderAngles.mk soi eoi (norm7200_i32 (phase - spark_advance_deg10))
    (norm7200_i32 (phase - spark_advance_deg10 - dwell_duration_deg10)).

(** The loop over cylinders: [n] are left, from [cyl] on. *)
Fixpoint angles_loop (n cyl : nat) (phases : list Z) (angles_of : Z -> CylinderAngles.t)
    (soi eoi spark dwell_start : list Z) : option (list Z * list Z * list Z * list Z) :=
  match n with
  | O => Some (soi, eoi, spark, dwell_start)
  | S n =>
    phase ← phases !! cyl;
    if (cyl <? 16)%nat then
      let a := angles_of phase in
      angles_loop n (cyl + 1) phases angles_of (<[cyl := CylinderAngles.soi a]> soi) (<[cyl := CylinderAngles.eoi a]> eoi)
        (<[cyl := CylinderAngles.spark a]> spark) (<[cyl := CylinderAngles.dwell_start a]> dwell_start)
    else None
  end.

(** ** Events: the array's filled part; [n] cylinders are left, from [cyl] on. *)
Fixpoint events_loop (n cyl : nat) (fuel_events_enabled spark_events_enabled : bool)
    (soi eoi spark dwell_start : list Z) (events : list ScheduleEvent.t) :
    option (Result (list ScheduleEvent.t) ScheduleError.t) :=
  match n with
  | O => Some (Ok events)
  | S n =>
    if (64 <? length events + 4)%nat then Some (Err ScheduleError.EventBatchFull)
    else
      let c := Z.of_nat cyl in
      events ←
        (if fuel_events_enabled then
           soi_angle ← soi !! cyl;
           eoi_angle ← eoi !! cyl;
           Some (events ++ [ScheduleEvent.mk EventKind.InjectionOpen c soi_angle; ScheduleEvent.mk EventKind.InjectionClose c eoi_angle])
         else Some events);
      events ←
        (if spark_events_enabled then
           dwell_angle ← dwell_start !! cyl;
           spark_angle ← spark !! cyl;
           Some (events ++ [ScheduleEvent.mk EventKind.CoilChargeStart c dwell_angle; ScheduleEvent.mk EventKind.CoilFire c spark_angle])
         else Some events);
      events_loop n (cyl + 1) fuel_events_enabled spark_events_enabled soi eoi spark dwell_start events
  end.

Definition empty_event : ScheduleEvent.t := ScheduleEvent.mk EventKind.InjectionOpen 0 0.

Definition engine_enabled (input : InputSnapshot.t) : bool :=
  bool_decide (InputSnapshot.mode input = EngineMode.Cranking) || bool_decide (InputSnapshot.mode input = EngineMode.Running).
Definition sync_enabled (input : InputSnapshot.t) (authority : EngineTimeAuthority.t) : bool :=
  match InputSnapshot.sync input with SyncState.Locked _ => true | _ => false end
  && runtime_full_sequential_authorized authority.

Definition runtime_semantic_evaluate_schedule_with_authority (cal : ScheduleCalibration.t) (input : InputSnapshot.t)
    (fuel : FuelObservations.t) (authority : EngineTimeAuthority.t) :
    option (Result ScheduleObservations.t ScheduleError.t) :=
  valid ← validate_schedule_calibration cal;
  match valid with
  | Err e => Some (Err e)
  | Ok _ =>
    let rpm := InputSnapshot.rpm input in
    let load_kpa10 := InputSnapshot.load_kpa10 input in
    let count := CylinderArray.count (ScheduleCalibration.cylinder_phase_deg10 cal) in
    match duration_deg10 (FuelObservations.pw_corr_us fuel) rpm with
    | Err e => Some (Err e)
    | Ok injection_duration_deg10 =>
      dwell_us ← semantic_bilerp_u32 (ScheduleCalibration.dwell_table_us cal) rpm load_kpa10;
      match duration_deg10 dwell_us rpm with
      | Err e => Some (Err e)
      | Ok dwell_duration_deg10 =>
        base_spark_advance_deg10 ← semantic_bilerp_i16 (ScheduleCalibration.spark_advance_table_deg10 cal) rpm load_kpa10;
        let spark_advance_deg10 := clamp (base_spark_advance_deg10 + FuelObservations.advance_deg10_trim fuel) (-32768) 32767 in
        injection_target_deg10 ← semantic_bilerp_u16 (ScheduleCalibration.injection_target_table_deg10 cal) rpm load_kpa10;
        angles ← angles_loop (Z.to_nat count) 0 (CylinderArray.values (ScheduleCalibration.cylinder_phase_deg10 cal))
          (fun phase => cylinder_angles (ScheduleCalibration.injection_angle_mode cal) phase injection_target_deg10
             injection_duration_deg10 spark_advance_deg10 dwell_duration_deg10)
          (replicate 16 0) (replicate 16 0) (replicate 16 0) (replicate 16 0);
        let '(soi, eoi, spark, dwell_start) := angles in
        let enabled := engine_enabled input && sync_enabled input authority in
        let fuel_events_enabled := enabled && negb (FuelObservations.fuel_cut fuel) && (0 <? FuelObservations.pw_corr_us fuel) in
        let spark_events_enabled := enabled && negb (FuelObservations.spark_cut fuel) in
        events ← events_loop (Z.to_nat count) 0 fuel_events_enabled spark_events_enabled soi eoi spark dwell_start [];
        match events with
        | Err e => Some (Err e)
        | Ok events =>
          let diagnostic :=
            if FuelObservations.fuel_cut fuel then ScheduleDiagnostic.FuelCutActive
            else if FuelObservations.spark_cut fuel then ScheduleDiagnostic.SparkCutActive
            else if engine_enabled input && negb (sync_enabled input authority) then ScheduleDiagnostic.Unsynced
            else ScheduleDiagnostic.None_ in
          Some (Ok (ScheduleObservations.mk (as_unsigned 16 injection_target_deg10) spark_advance_deg10 dwell_us
            injection_duration_deg10 dwell_duration_deg10
            (CylinderArray.mk count soi) (CylinderArray.mk count eoi) (CylinderArray.mk count spark) (CylinderArray.mk count dwell_start)
            (EventBatch.mk (Z.of_nat (length events)) (events ++ replicate (64 - length events) empty_event))
            diagnostic))
        end
      end
    end
  end.

Definition runtime_semantic_evaluate_schedule (cal : ScheduleCalibration.t) (input : InputSnapshot.t) (fuel : FuelObservations.t) :
    option (Result ScheduleObservations.t ScheduleError.t) :=
  runtime_semantic_evaluate_schedule_with_authority cal input fuel EngineTimeAuthority.none.

(** ** Torque (torque.rs) *)
Module TorqueInput.
Record t := mk {
  tps_x100 : Z; mode : EngineMode.t; fuel_cut : bool; spark_cut : bool; safety_latched : bool;
  rev_soft_active : bool; rev_hard_active : bool; launch_cut : bool; flat_shift_cut : bool }.
End TorqueInput.

Module TorqueResult.
Record t := mk {
  torque_request_x1000 : Z; torque_allowed_x1000 : Z; torque_actuated_x1000 : Z; fuel_trim_x1000 : Z; spark_trim_x1000 : Z }.
End TorqueResult.

Definition TORQUE_SCALE_X1000_MAX : Z := 1000.
Definition clamp_x1000 (value : Z) : Z := Z.min value TORQUE_SCALE_X1000_MAX.
Definition torque_mode_ceiling (mode : EngineMode.t) : Z :=
  match mode with
  | EngineMode.Off | EngineMode.Shutdown => 0
  | EngineMode.Cranking | EngineMode.Running => TORQUE_SCALE_X1000_MAX
  end.

Definition runtime_semantic_evaluate_torque (input : TorqueInput.t) : TorqueResult.t :=
  let torque_request_x1000 := clamp_x1000 (TorqueInput.tps_x100 input / 10) in
  let limiter_ceiling_x1000 := torque_mode_ceiling (TorqueInput.mode input) in
  let torque_allowed_x1000 :=
    if TorqueInput.rev_hard_active input then 0 else Z.min torque_request_x1000 limiter_ceiling_x1000 in
  let any_cut := TorqueInput.safety_latched input || TorqueInput.fuel_cut input || TorqueInput.spark_cut input
    || TorqueInput.launch_cut input || TorqueInput.flat_shift_cut input in
  let torque_actuated_x1000 := if any_cut then 0 else torque_allowed_x1000 in
  TorqueResult.mk torque_request_x1000 torque_allowed_x1000 torque_actuated_x1000 torque_actuated_x1000 torque_actuated_x1000.

(** ** Lemmas *)
Lemma norm7200_mod x : norm7200_i32 x = x mod 7200.
Proof.
  unfold norm7200_i32. cbv zeta.
  assert ((if Z.rem x 7200 <? 0 then Z.rem x 7200 + 7200 else Z.rem x 7200) = x mod 7200) as ->.
  { pose proof (Z.quot_rem' x 7200). pose proof (Z.rem_bound_abs x 7200 ltac:(lia)).
    destruct (Z.ltb_spec (Z.rem x 7200) 0).
    - apply Z.mod_unique with (Z.quot x 7200 - 1); lia.
    - apply Z.mod_unique with (Z.quot x 7200); lia. }
  apply as_unsigned_small. unfold fits. pose proof (Z.mod_pos_bound x 7200). lia.
Qed.

Lemma norm7200_range x : 0 <= norm7200_i32 x < 7200.
Proof. rewrite norm7200_mod. apply Z.mod_pos_bound. lia. Qed.

Lemma norm7200_diff a b d : a - b = d -> (norm7200_i32 a - norm7200_i32 b) mod 7200 = d mod 7200.
Proof. intros <-. by rewrite !norm7200_mod, <- Zminus_mod. Qed.

(** The two gates of the repository on outputs that need the whole cycle are one. *)
Lemma runtime_gate_is_island_gate authority :
  runtime_full_sequential_authorized authority = BoardApi.engine_time_authorizes_full_sequential authority.
Proof.
  unfold runtime_full_sequential_authorized, BoardApi.engine_time_authorizes_full_sequential.
  destruct authority as [[] [] [] conf losses]; cbn; unfold EngineTimeAuthority.validate; cbn;
    destruct (Z.ltb_spec EngineTimeAuthority.MAX_CONFIDENCE_X1000 conf), (Z.leb_spec conf EngineTimeAuthority.MAX_CONFIDENCE_X1000);
    try lia; done.
Qed.

(** *** The loops *)
Definition filled (g : CylinderAngles.t -> Z) (angles_of : Z -> CylinderAngles.t) (phases : list Z)
    (cyl n : nat) (old new : list Z) : Prop :=
  length new = length old
  /\ forall k, new !! k = if ((cyl <=? k)%nat && (k <? cyl + n)%nat) then (fun p => g (angles_of p)) <$> phases !! k else old !! k.

Lemma filled_step g angles_of phases cyl n old new phase :
  phases !! cyl = Some phase -> (cyl < length old)%nat ->
  filled g angles_of phases (cyl + 1) n (<[cyl := g (angles_of phase)]> old) new -> filled g angles_of phases cyl (S n) old new.
Proof.
  intros Hp Hl [Hlen Hk]. rewrite length_insert in Hlen. split; [done|]. intros k. rewrite Hk.
  destruct (decide (k = cyl)) as [->|Hne].
  - destruct (Nat.leb_spec (cyl + 1) cyl), (Nat.leb_spec cyl cyl), (Nat.ltb_spec cyl (cyl + S n)); try lia. cbn [andb].
    rewrite list_lookup_insert_eq by done. by rewrite Hp.
  - rewrite list_lookup_insert_ne by done.
    destruct (Nat.leb_spec (cyl + 1) k), (Nat.leb_spec cyl k), (Nat.ltb_spec k (cyl + 1 + n)), (Nat.ltb_spec k (cyl + S n)); try lia; done.
Qed.

Lemma angles_loop_spec n cyl phases angles_of soi eoi spark dwell :
  length phases = 16%nat -> (cyl + n <= 16)%nat ->
  length soi = 16%nat -> length eoi = 16%nat -> length spark = 16%nat -> length dwell = 16%nat ->
  exists soi' eoi' spark' dwell', angles_loop n cyl phases angles_of soi eoi spark dwell = Some (soi', eoi', spark', dwell')
  /\ filled CylinderAngles.soi angles_of phases cyl n soi soi' /\ filled CylinderAngles.eoi angles_of phases cyl n eoi eoi'
  /\ filled CylinderAngles.spark angles_of phases cyl n spark spark'
  /\ filled CylinderAngles.dwell_start angles_of phases cyl n dwell dwell'.
Proof.
  intros Hp. revert cyl soi eoi spark dwell. induction n as [|n IH]; intros cyl soi eoi spark dwell Hn H1 H2 H3 H4; cbn [angles_loop].
  - eexists _, _, _, _. split; [reflexivity|]. split_and!; (split; [done|]); intros k;
      (destruct (Nat.leb_spec cyl k), (Nat.ltb_spec k (cyl + 0)); try lia; done).
  - destruct (lookup_lt_is_Some_2 phases cyl) as [phase E]; [lia|]. rewrite E. cbn [mbind option_bind].
    destruct (Nat.ltb_spec cyl 16); [|lia].
    destruct (IH (cyl + 1)%nat (<[cyl := CylinderAngles.soi (angles_of phase)]> soi) (<[cyl := CylinderAngles.eoi (angles_of phase)]> eoi)
      (<[cyl := CylinderAngles.spark (angles_of phase)]> spark) (<[cyl := CylinderAngles.dwell_start (angles_of phase)]> dwell))
      as (a & b & c & d & -> & F1 & F2 & F3 & F4); [lia|by rewrite length_insert..|].
    eexists _, _, _, _. split; [reflexivity|]. split_and!; eapply filled_step; done || lia.
Qed.

(** The events of one cylinder. *)
Definition cylinder_events (fuel spark_on : bool) (soi eoi spark dwell_start : list Z) (cyl : nat) : list ScheduleEvent.t :=
  let c := Z.of_nat cyl in
  (if fuel then [ScheduleEvent.mk EventKind.InjectionOpen c (soi !!! cyl); ScheduleEvent.mk EventKind.InjectionClose c (eoi !!! cyl)] else [])
  ++ (if spark_on then [ScheduleEvent.mk EventKind.CoilChargeStart c (dwell_start !!! cyl); ScheduleEvent.mk EventKind.CoilFire c (spark !!! cyl)] else []).

Lemma events_loop_spec n cyl fuel spark_on soi eoi spark dwell events :
  (cyl + n <= 16)%nat -> length soi = 16%nat -> length eoi = 16%nat -> length spark = 16%nat -> length dwell = 16%nat ->
  (length events + 4 * n <= 64)%nat ->
  events_loop n cyl fuel spark_on soi eoi spark dwell events
  = Some (Ok (events ++ concat (cylinder_events fuel spark_on soi eoi spark dwell <$> seq cyl n))).
Proof.
  intros Hn H1 H2 H3 H4. revert cyl events Hn. induction n as [|n IH]; intros cyl events Hn He; cbn [events_loop].
  { cbn. by rewrite app_nil_r. }
  destruct (Nat.ltb_spec 64 (length events + 4)); [lia|].
  rewrite !(list_lookup_lookup_total_lt _ cyl) by lia. cbn [mbind option_bind seq fmap list_fmap concat].
  rewrite Nat.add_1_r. unfold cylinder_events at 1.
  destruct fuel, spark_on; cbn [mbind option_bind app]; rewrite IH by (rewrite ?length_app; cbn [length]; lia);
    rewrite <- ?app_assoc; done.
Qed.

(** *** Validation *)
Definition schedule_typed (cal : ScheduleCalibration.t) : Prop :=
  table_typed i16 (ScheduleCalibration.spark_advance_table_deg10 cal)
  /\ table_typed u32 (ScheduleCalibration.dwell_table_us cal)
  /\ table_typed u16 (ScheduleCalibration.injection_target_table_deg10 cal)
  /\ length (CylinderArray.values (ScheduleCalibration.cylinder_phase_deg10 cal)) = 16%nat
  /\ u8 (CylinderArray.count (ScheduleCalibration.cylinder_phase_deg10 cal)).

Definition cylinder_count (cal : ScheduleCalibration.t) : nat :=
  Z.to_nat (CylinderArray.count (ScheduleCalibration.cylinder_phase_deg10 cal)).
Definition phase_of (cal : ScheduleCalibration.t) (cyl : nat) : Z :=
  CylinderArray.values (ScheduleCalibration.cylinder_phase_deg10 cal) !!! cyl.

Definition schedule_valid (cal : ScheduleCalibration.t) : Prop :=
  Forall axis_valid (schedule_axes cal) /\ (1 <= cylinder_count cal <= 8)%nat
  /\ forall cyl, (cyl < cylinder_count cal)%nat -> phase_of cal cyl < 7200.

Lemma axis_increasing_validate n idx a :
  axis_increasing_loop n idx a = (r ← validate_axis_loop n idx a; Some (is_ok r)).
Proof.
  revert idx. induction n as [|n IH]; intros idx; [done|]. cbn [axis_increasing_loop validate_axis_loop].
  destruct (Axis16.values a !! idx); [|done]. cbn [mbind option_bind].
  destruct (Axis16.values a !! (idx + 1)%nat); [|done]. cbn [mbind option_bind].
  case_match; [done|]. apply IH.
Qed.

Lemma axes_increasing_spec axes : Forall axis_typed axes -> Forall (fun a => (2 <= axis_len a <= 16)%nat) axes ->
  exists b, axes_increasing axes = Some b /\ (b = true <-> Forall axis_valid axes).
Proof.
  intros Ht Hl. induction Ht as [|a axes Ha Ht IH]; cbn [axes_increasing]; [by exists true|].
  apply Forall_cons in Hl as [Hla Hl]. destruct (IH Hl) as (b & -> & Hb).
  rewrite axis_increasing_validate. fold (axis_len a).
  destruct (validate_axis_loop_spec (axis_len a - 1) 0 a Ha ltac:(lia)) as (r & -> & Hr & He). cbn [mbind option_bind].
  assert (r = Ok tt <-> axis_valid a) as Hra.
  { rewrite Hr. unfold axis_valid. split; [intros H; split; [done|]; intros i ?; apply H; lia|intros [_ H] i ?; apply H; lia]. }
  destruct r as [[]|e]; cbn [is_ok].
  - exists b. split; [done|]. rewrite Forall_cons, Hb. tauto.
  - exists false. split; [done|]. rewrite Forall_cons. split; [done|]. intros [H _]. by apply Hra in H.
Qed.

Lemma phases_valid_spec n idx phases : (idx + n <= length phases)%nat ->
  exists b, phases_valid_loop n idx phases = Some b
  /\ (b = true <-> forall cyl, (idx <= cyl < idx + n)%nat -> phases !!! cyl < 7200).
Proof.
  revert idx. induction n as [|n IH]; intros idx Hn; cbn [phases_valid_loop].
  { exists true. split; [done|]. split; [lia|done]. }
  rewrite (list_lookup_lookup_total_lt phases idx) by lia. cbn [mbind option_bind].
  destruct (Z.leb_spec 7200 (phases !!! idx)) as [H|H].
  - exists false. split; [done|]. split; [done|]. intros Hall. specialize (Hall idx). lia.
  - destruct (IH (idx + 1)%nat ltac:(lia)) as (b & -> & Hb). exists b. split; [done|]. rewrite Hb.
    split; intros Hall cyl ?; [|apply Hall; lia]. destruct (decide (cyl = idx)) as [->|]; [done|]. apply Hall. lia.
Qed.

Lemma axis_len_valid_spec a : axis_typed a -> axis_len_valid a = true <-> (2 <= axis_len a <= 16)%nat.
Proof.
  intros (Hu & _). unfold axis_len_valid, axis_len, fits in *.
  destruct (Z.leb_spec 2 (Axis16.len a)), (Z.leb_spec (Axis16.len a) 16); cbn [andb]; split; (done || lia).
Qed.

Lemma validate_schedule_spec cal : schedule_typed cal ->
  exists r, validate_schedule_calibration cal = Some r /\ (r = Ok tt <-> schedule_valid cal)
  /\ r <> Err ScheduleError.EventBatchFull /\ r <> Err ScheduleError.DurationOverflow.
Proof.
  intros (Hs & Hd & Hi & Hp & Hc).
  assert (Forall axis_typed (schedule_axes cal)) as Ha by (repeat (constructor; [apply Hs || apply Hd || apply Hi|]); constructor).
  unfold validate_schedule_calibration, schedule_valid, cylinder_count, phase_of.
  destruct (forallb axis_len_valid (schedule_axes cal)) eqn:El; cbn [negb].
  2:{ eexists. split; [reflexivity|]. split; [|done]. split; [done|]. intros [Hv _]. exfalso.
      apply not_true_iff_false in El. apply El, forallb_forall. intros a Hin. apply list_elem_of_In in Hin.
      apply axis_len_valid_spec; [exact (proj1 (Forall_forall _ _) Ha a Hin)|]. apply (proj1 (Forall_forall _ _) Hv a Hin). }
  assert (Forall (fun a => (2 <= axis_len a <= 16)%nat) (schedule_axes cal)) as Hl.
  { apply Forall_forall. intros a Hin. apply axis_len_valid_spec; [exact (proj1 (Forall_forall _ _) Ha a Hin)|].
    apply (proj1 (forallb_forall _ _) El a). by apply list_elem_of_In. }
  destruct (axes_increasing_spec _ Ha Hl) as (b & -> & Hb). cbn [mbind option_bind].
  destruct b; cbn [negb]; [|eexists; split; [reflexivity|]; split; [split; [done|]; intros [Hv _]; by apply Hb in Hv|done]].
  set (count := CylinderArray.count _) in *.
  destruct (Z.leb_spec 1 count), (Z.leb_spec count 8); cbn [andb negb];
    try (eexists; split; [reflexivity|]; split; [split; [done|lia]|done]).
  destruct (phases_valid_spec (Z.to_nat count) 0 (CylinderArray.values (ScheduleCalibration.cylinder_phase_deg10 cal)) ltac:(lia))
    as (b & -> & Hbp). cbn [mbind option_bind].
  destruct b; cbn [negb]; (eexists; split; [reflexivity|]; split; [|done]).
  - split; [|done]. intros _. split; [by apply Hb|]. split; [lia|]. intros cyl ?. apply Hbp; [done|lia].
  - split; [done|]. intros (_ & _ & Hph). assert (false = true) by (apply Hbp; intros cyl ?; apply Hph; lia). done.
Qed.

(** ** The evaluation *)

(** The angles of a cylinder in the arrays of the observations. *)
Definition observed_angle (a : CylinderArray.t) (cyl : nat) : Z := CylinderArray.values a !!! cyl.

Lemma filled_at g angles_of phases n new cyl : filled g angles_of phases 0 n (replicate 16 0) new -> (cyl < n)%nat ->
  (n <= length phases)%nat -> new !!! cyl = g (angles_of (phases !!! cyl)).
Proof.
  intros [_ Hk] Hc Hl. apply list_lookup_total_correct. rewrite Hk.
  destruct (Nat.leb_spec 0 cyl), (Nat.ltb_spec cyl (0 + n)); try lia. cbn [andb].
  by rewrite (list_lookup_lookup_total_lt phases cyl) by lia.
Qed.

(** The evaluation succeeds on a valid calibration whose durations fit sixteen bits. *)
Definition schedulable (cal : ScheduleCalibration.t) (input : InputSnapshot.t) (fuel : FuelObservations.t) : Prop :=
  let rpm := InputSnapshot.rpm input in
  schedule_valid cal
  /\ FuelObservations.pw_corr_us fuel * rpm * 6 / 100000 <= u16_max
  /\ exists dwell_us, semantic_bilerp_u32 (ScheduleCalibration.dwell_table_us cal) rpm (InputSnapshot.load_kpa10 input) = Some dwell_us
     /\ dwell_us * rpm * 6 / 100000 <= u16_max.

(** What it observes of the tables: the values at the operating point, the advance trimmed. *)
Definition looked_up (cal : ScheduleCalibration.t) (input : InputSnapshot.t) (fuel : FuelObservations.t)
    (obs : ScheduleObservations.t) : Prop :=
  let rpm := InputSnapshot.rpm input in
  let load_kpa10 := InputSnapshot.load_kpa10 input in
  semantic_bilerp_u32 (ScheduleCalibration.dwell_table_us cal) rpm load_kpa10 = Some (ScheduleObservations.dwell_us obs)
  /\ semantic_bilerp_u16 (ScheduleCalibration.injection_target_table_deg10 cal) rpm load_kpa10
     = Some (ScheduleObservations.injection_target_deg10 obs)
  /\ exists base, semantic_bilerp_i16 (ScheduleCalibration.spark_advance_table_deg10 cal) rpm load_kpa10 = Some base
     /\ ScheduleObservations.spark_advance_deg10 obs
        = clamp (base + FuelObservations.advance_deg10_trim fuel) (-32768) 32767.

Lemma evaluate_schedule_ok cal input fuel authority : schedule_typed cal ->
  exists r, runtime_semantic_evaluate_schedule_with_authority cal input fuel authority = Some r /\
  match r with
  | Err e => e <> ScheduleError.EventBatchFull /\ ~ schedulable cal input fuel
  | Ok obs =>
    schedulable cal input fuel
    /\ let angles cyl := cylinder_angles (ScheduleCalibration.injection_angle_mode cal) (phase_of cal cyl)
         (ScheduleObservations.injection_target_deg10 obs) (ScheduleObservations.injection_duration_deg10 obs)
         (ScheduleObservations.spark_advance_deg10 obs) (ScheduleObservations.dwell_duration_deg10 obs) in
       let enabled := engine_enabled input && sync_enabled input authority in
       let fuel_on := enabled && negb (FuelObservations.fuel_cut fuel) && (0 <? FuelObservations.pw_corr_us fuel) in
       let spark_on := enabled && negb (FuelObservations.spark_cut fuel) in
       (forall cyl, (cyl < cylinder_count cal)%nat ->
          observed_angle (ScheduleObservations.soi_deg10 obs) cyl = CylinderAngles.soi (angles cyl)
          /\ observed_angle (ScheduleObservations.eoi_deg10 obs) cyl = CylinderAngles.eoi (angles cyl)
          /\ observed_angle (ScheduleObservations.spark_deg10 obs) cyl = CylinderAngles.spark (angles cyl)
          /\ observed_angle (ScheduleObservations.dwell_start_deg10 obs) cyl = CylinderAngles.dwell_start (angles cyl))
       /\ take (Z.to_nat (EventBatch.len (ScheduleObservations.events obs))) (EventBatch.events (ScheduleObservations.events obs))
          = concat (cylinder_events fuel_on spark_on (CylinderArray.values (ScheduleObservations.soi_deg10 obs))
              (CylinderArray.values (ScheduleObservations.eoi_deg10 obs)) (CylinderArray.values (ScheduleObservations.spark_deg10 obs))
              (CylinderArray.values (ScheduleObservations.dwell_start_deg10 obs)) <$> seq 0 (cylinder_count cal))
       /\ ScheduleObservations.injection_duration_deg10 obs = FuelObservations.pw_corr_us fuel * InputSnapshot.rpm input * 6 / 100000
       /\ ScheduleObservations.dwell_duration_deg10 obs = ScheduleObservations.dwell_us obs * InputSnapshot.rpm input * 6 / 100000
       /\ looked_up cal input fuel obs
  end.
Proof.
  intros Hty. pose proof Hty as (Hs & Hd & Hi & Hp & Hc).
  unfold runtime_semantic_evaluate_schedule_with_authority.
  destruct (validate_schedule_spec cal Hty) as (r & -> & Hr & Hne & _). cbn [mbind option_bind].
  destruct r as [[]|e]; [|eexists; split; [reflexivity|]; split; [intros ->; done|]; intros (Hv & _); by apply Hr in Hv].
  destruct (proj1 Hr eq_refl) as (Hv & Hcount & Hph). pose proof Hv as Hva. unfold schedule_axes in Hva.
  repeat (apply Forall_cons in Hva as [? Hva]).
  unfold duration_deg10.
  destruct (Z.ltb_spec u16_max (FuelObservations.pw_corr_us fuel * InputSnapshot.rpm input * 6 / 100000)) as [|Hpw];
    [eexists; split; [reflexivity|]; split; [done|]; intros (_ & ? & _); lia|].
  destruct (bilerp_ok (lerp := semantic_lerp_u32) (narrow := id) (P := u32) (ScheduleCalibration.dwell_table_us cal) (InputSnapshot.rpm input) (InputSnapshot.load_kpa10 input) Hd)
    as (dwell_us & Edw & _); [by split|]. fold (semantic_bilerp_u32 (ScheduleCalibration.dwell_table_us cal)) in Edw.
  rewrite Edw. cbn [mbind option_bind].
  destruct (Z.ltb_spec u16_max (dwell_us * InputSnapshot.rpm input * 6 / 100000)) as [|Hdw];
    [eexists; split; [reflexivity|]; split; [done|]; intros (_ & _ & us & E & ?); rewrite Edw in E; injection E as <-; lia|].
  destruct (bilerp_ok (lerp := semantic_lerp_i32) (narrow := id) (P := i16) (ScheduleCalibration.spark_advance_table_deg10 cal) (InputSnapshot.rpm input) (InputSnapshot.load_kpa10 input) Hs)
    as (base & Eadv & _); [by split|]. fold (semantic_bilerp_i16 (ScheduleCalibration.spark_advance_table_deg10 cal)) in Eadv.
  rewrite Eadv. cbn [mbind option_bind].
  destruct (bilerp_u16_ok (ScheduleCalibration.injection_target_table_deg10 cal) (InputSnapshot.rpm input) (InputSnapshot.load_kpa10 input) Hi)
    as (target & Etg & Htg); [by split|]. rewrite Etg. cbn [mbind option_bind].
  fold (cylinder_count cal). set (phases := CylinderArray.values (ScheduleCalibration.cylinder_phase_deg10 cal)) in *.
  match goal with |- context [angles_loop _ _ _ ?f _ _ _ _] => set (angles_of := f) end.
  destruct (angles_loop_spec (cylinder_count cal) 0 phases angles_of (replicate 16 0) (replicate 16 0) (replicate 16 0) (replicate 16 0))
    as (soi & eoi & spark & dwell & -> & F1 & F2 & F3 & F4); [done|lia|done..|]. cbn [mbind option_bind].
  pose proof (proj1 F1) as L1. pose proof (proj1 F2) as L2. pose proof (proj1 F3) as L3. pose proof (proj1 F4) as L4.
  rewrite length_replicate in L1, L2, L3, L4.
  rewrite events_loop_spec by (done || cbn [length]; lia). cbn [mbind option_bind app].
  eexists. split; [reflexivity|]. split; [split; [done|]; split; [done|]; by exists dwell_us|]. cbv zeta. unfold looked_up.
  cbn [ScheduleObservations.injection_target_deg10 ScheduleObservations.injection_duration_deg10
    ScheduleObservations.spark_advance_deg10 ScheduleObservations.dwell_duration_deg10 ScheduleObservations.soi_deg10
    ScheduleObservations.eoi_deg10 ScheduleObservations.spark_deg10 ScheduleObservations.dwell_start_deg10
    ScheduleObservations.events EventBatch.len EventBatch.events CylinderArray.values ScheduleObservations.dwell_us].
  rewrite (as_unsigned_small 16 target Htg). split; [|split; [|split; [done|split; [done|split; [done|split; [done|by exists base]]]]]].
  - intros cyl Hcyl. unfold observed_angle, phase_of. cbn [CylinderArray.values]. fold phases.
    rewrite (filled_at _ _ _ _ _ cyl F1), (filled_at _ _ _ _ _ cyl F2), (filled_at _ _ _ _ _ cyl F3), (filled_at _ _ _ _ _ cyl F4) by lia.
    done.
  - rewrite Nat2Z.id. by rewrite take_app_length.
Qed.

(** event angles follow the angle law: whenever the evaluator succeeds, each cylinder's
    four angles lie in the cycle, injection ends where it began plus its duration, the coil
    fires where it began to charge plus the dwell, the spark lies the advance before the
    cylinder's phase, and injection ends, or begins, the target before it as configured, all
    modulo the cycle and for durations longer than a cycle too. *)
Theorem schedule_angles_lawful cal input fuel authority obs cyl : schedule_typed cal ->
  runtime_semantic_evaluate_schedule_with_authority cal input fuel authority = Some (Ok obs) ->
  (cyl < cylinder_count cal)%nat ->
  let soi := observed_angle (ScheduleObservations.soi_deg10 obs) cyl in
  let eoi := observed_angle (ScheduleObservations.eoi_deg10 obs) cyl in
  let spark := observed_angle (ScheduleObservations.spark_deg10 obs) cyl in
  let dwell_start := observed_angle (ScheduleObservations.dwell_start_deg10 obs) cyl in
  Forall (fun angle => 0 <= angle < 7200) [soi; eoi; spark; dwell_start]
  /\ (eoi - soi) mod 7200 = (FuelObservations.pw_corr_us fuel * InputSnapshot.rpm input * 6 / 100000) mod 7200
  /\ (spark - dwell_start) mod 7200 = (ScheduleObservations.dwell_us obs * InputSnapshot.rpm input * 6 / 100000) mod 7200
  /\ (phase_of cal cyl - spark) mod 7200 = ScheduleObservations.spark_advance_deg10 obs mod 7200
  /\ (phase_of cal cyl - match ScheduleCalibration.injection_angle_mode cal with
        | InjectionAngleMode.EndOfInjection => eoi | InjectionAngleMode.StartOfInjection => soi end) mod 7200
     = ScheduleObservations.injection_target_deg10 obs mod 7200.
Proof.
  intros Hty E Hcyl. destruct (evaluate_schedule_ok cal input fuel authority Hty) as (r & Er & Hr).
  rewrite E in Er. injection Er as <-. destruct Hr as (_ & Ha & _ & Hinj & Hdw & _). cbv zeta.
  destruct (Ha cyl Hcyl) as (-> & -> & -> & ->). rewrite <- Hinj, <- Hdw.
  assert (forall p a d, (p - norm7200_i32 a) mod 7200 = d mod 7200 <-> (p - a) mod 7200 = d mod 7200) as Hn
    by (intros p a d; by rewrite norm7200_mod, Zminus_mod_idemp_r).
  unfold cylinder_angles. destruct (ScheduleCalibration.injection_angle_mode cal);
    cbn [CylinderAngles.soi CylinderAngles.eoi CylinderAngles.spark CylinderAngles.dwell_start].
  all: split; [repeat (constructor; [apply norm7200_range|]); constructor|].
  all: split; [apply norm7200_diff; lia|]. all: split; [apply norm7200_diff; lia|].
  all: split; apply Hn; f_equal; lia.
Qed.

(** What the two gates amount to on the input and the authority. *)
Definition emission_enabled (input : InputSnapshot.t) (a : EngineTimeAuthority.t) : Prop :=
  (InputSnapshot.mode input = EngineMode.Cranking \/ InputSnapshot.mode input = EngineMode.Running)
  /\ (exists phase, InputSnapshot.sync input = SyncState.Locked phase)
  /\ EngineTimeAuthority.crank a = CrankSyncState.PrimaryLocked
  /\ EngineTimeAuthority.phase a = PhaseSyncState.CamValidated720
  /\ EngineTimeAuthority.confidence_x1000 a <= EngineTimeAuthority.MAX_CONFIDENCE_X1000
  /\ EngineTimeAuthority.absolute a ∈ [AbsoluteTimeAuthority.ExpertManual; AbsoluteTimeAuthority.CommunityProfile;
       AbsoluteTimeAuthority.CertifiedProfile; AbsoluteTimeAuthority.BenchLearned].

Lemma emission_enabled_iff input a :
  engine_enabled input = true /\ sync_enabled input a = true <-> emission_enabled input a.
Proof.
  assert (engine_enabled input = true <-> InputSnapshot.mode input = EngineMode.Cranking \/ InputSnapshot.mode input = EngineMode.Running) as ->.
  { unfold engine_enabled. by rewrite orb_true_iff, !bool_decide_eq_true. }
  assert (sync_enabled input a = true <-> (exists phase, InputSnapshot.sync input = SyncState.Locked phase)
    /\ runtime_full_sequential_authorized a = true) as ->.
  { unfold sync_enabled. destruct (InputSnapshot.sync input); cbn; split; intros H; destruct_and?; eauto; naive_solver. }
  assert (runtime_full_sequential_authorized a = true <->
    EngineTimeAuthority.crank a = CrankSyncState.PrimaryLocked /\ EngineTimeAuthority.phase a = PhaseSyncState.CamValidated720
    /\ EngineTimeAuthority.confidence_x1000 a <= EngineTimeAuthority.MAX_CONFIDENCE_X1000
    /\ EngineTimeAuthority.absolute a ∈ [AbsoluteTimeAuthority.ExpertManual; AbsoluteTimeAuthority.CommunityProfile;
       AbsoluteTimeAuthority.CertifiedProfile; AbsoluteTimeAuthority.BenchLearned]) as ->.
  { rewrite !elem_of_cons, elem_of_nil. unfold runtime_full_sequential_authorized, EngineTimeAuthority.validate.
    destruct a as [[] [] [] conf losses]; cbn;
      destruct (Z.ltb_spec EngineTimeAuthority.MAX_CONFIDENCE_X1000 conf); cbn;
      split; try discriminate; try lia; intros; destruct_and?; try discriminate; try lia; naive_solver (try lia). }
  unfold emission_enabled. tauto.
Qed.

#[global] Instance emission_enabled_dec input a : Decision (emission_enabled input a).
Proof.
  refine (cast_if (decide (engine_enabled input = true /\ sync_enabled input a = true)));
    by rewrite <- emission_enabled_iff.
Defined.

(** *** The events meant *)
Section Meant.
Variables (cal : ScheduleCalibration.t) (input : InputSnapshot.t) (fuel : FuelObservations.t)
  (authority : EngineTimeAuthority.t) (obs : ScheduleObservations.t).

Definition fuel_meant : Prop :=
  emission_enabled input authority /\ FuelObservations.fuel_cut fuel = false /\ 0 < FuelObservations.pw_corr_us fuel.
Definition spark_meant : Prop := emission_enabled input authority /\ FuelObservations.spark_cut fuel = false.

#[global] Instance fuel_meant_dec : Decision fuel_meant.
Proof. unfold fuel_meant. apply _. Defined.
#[global] Instance spark_meant_dec : Decision spark_meant.
Proof. unfold spark_meant. apply _. Defined.

(** How far the crank turns, in tenths of a degree, in [us] microseconds. *)
Definition turned (us : Z) : Z := us * InputSnapshot.rpm input * 6 / 100000.

(** The target places the end of the injection or its beginning, whichever the calibration
    says, that far before the cylinder's phase; the advance places the spark. *)
Definition injection_meant (cyl : nat) : list ScheduleEvent.t :=
  let mark := phase_of cal cyl - ScheduleObservations.injection_target_deg10 obs in
  let open_for := turned (FuelObservations.pw_corr_us fuel) in
  let '(opens, closes) :=
    match ScheduleCalibration.injection_angle_mode cal with
    | InjectionAngleMode.EndOfInjection => (mark - open_for, mark)
    | InjectionAngleMode.StartOfInjection => (mark, mark + open_for)
    end in
  [ScheduleEvent.mk EventKind.InjectionOpen (Z.of_nat cyl) (opens mod 7200);
   ScheduleEvent.mk EventKind.InjectionClose (Z.of_nat cyl) (closes mod 7200)].

Definition ignition_meant (cyl : nat) : list ScheduleEvent.t :=
  let fires := phase_of cal cyl - ScheduleObservations.spark_advance_deg10 obs in
  [ScheduleEvent.mk EventKind.CoilChargeStart (Z.of_nat cyl) ((fires - turned (ScheduleObservations.dwell_us obs)) mod 7200);
   ScheduleEvent.mk EventKind.CoilFire (Z.of_nat cyl) (fires mod 7200)].

Definition events_meant (cyl : nat) : list ScheduleEvent.t :=
  (if decide fuel_meant then injection_meant cyl else []) ++ (if decide spark_meant then ignition_meant cyl else []).
End Meant.

Lemma decide_gate (P : Prop) `{Decision P} (b : bool) {A} (x y : A) : (b = true <-> P) ->
  (if b then x else y) = if decide P then x else y.
Proof. intros H1. destruct b, (decide P); naive_solver. Qed.

(** C20: the events of a cycle are exactly the ones meant.  The evaluator always answers,
    succeeds exactly on a valid calibration whose injection and dwell durations fit sixteen
    bits, and never runs out of room.  On success it emits, for each cylinder in turn and
    nothing else: the opening and closing of that cylinder's injector, if fuel is meant, and
    the charge and firing of that cylinder's coil, if spark is.  Both need a cranking or
    running engine, a locked summary and validated authority over the whole cycle; fuel
    moreover a positive pulse width and no fuel cut, spark no spark cut.  The angles, modulo
    the cycle, are: the coil fires the advance before the cylinder's phase, having charged
    for the dwell; injection ends, or begins, the target before the phase as the calibration
    says, and lasts the pulse width.  Target, dwell and advance are the tables' values at
    the operating point, the advance trimmed and kept to sixteen bits. *)
Theorem schedule_events_gated cal input fuel authority : schedule_typed cal ->
  exists r, runtime_semantic_evaluate_schedule_with_authority cal input fuel authority = Some r
  /\ r <> Err ScheduleError.EventBatchFull
  /\ (is_ok r = true <-> schedulable cal input fuel)
  /\ forall obs, r = Ok obs ->
     let batch := ScheduleObservations.events obs in
     take (Z.to_nat (EventBatch.len batch)) (EventBatch.events batch)
     = concat (events_meant cal input fuel authority obs <$> seq 0 (cylinder_count cal))
     /\ looked_up cal input fuel obs.
Proof.
  intros Hty. destruct (evaluate_schedule_ok cal input fuel authority Hty) as (r & -> & Hr).
  exists r. split; [done|]. destruct r as [obs|e]; cbn [is_ok].
  - destruct Hr as (Hs & Ha & He & Hinj & Hdw & Hl). split; [done|]. split; [done|]. intros o [= <-]. cbv zeta in *.
    split; [|done]. rewrite He. f_equal. apply list_fmap_ext. intros i cyl [-> Hcyl]%lookup_seq. cbn [Nat.add].
    destruct (Ha i Hcyl) as (E1 & E2 & E3 & E4). unfold observed_angle in *. unfold cylinder_events, events_meant.
    rewrite E1, E2, E3, E4, Hinj, Hdw. clear E1 E2 E3 E4. f_equal.
    + rewrite (decide_gate (fuel_meant input fuel authority))
        by (unfold fuel_meant; rewrite <- emission_enabled_iff, !andb_true_iff, negb_true_iff, Z.ltb_lt; tauto).
      unfold injection_meant, cylinder_angles, turned.
      destruct (decide _), (ScheduleCalibration.injection_angle_mode cal); by rewrite ?norm7200_mod.
    + rewrite (decide_gate (spark_meant input fuel authority))
        by (unfold spark_meant; rewrite <- emission_enabled_iff, !andb_true_iff, negb_true_iff; tauto).
      unfold ignition_meant, cylinder_angles, turned.
      destruct (decide _), (ScheduleCalibration.injection_angle_mode cal); by rewrite ?norm7200_mod.
  - destruct Hr as [He Hs]. split; [congruence|]. split; [by split|]. done.
Qed.

(** The torque pipeline only ever takes away: what is actuated is at most what is allowed,
    that at most what is requested, and nothing is actuated under any cut, the hard rev
    limit or a stopped engine. *)
Lemma semantic_torque_ordered input : 0 <= TorqueInput.tps_x100 input ->
  let r := runtime_semantic_evaluate_torque input in
  0 <= TorqueResult.torque_actuated_x1000 r <= TorqueResult.torque_allowed_x1000 r
  /\ TorqueResult.torque_allowed_x1000 r <= TorqueResult.torque_request_x1000 r <= 1000
  /\ (TorqueInput.safety_latched input || TorqueInput.fuel_cut input || TorqueInput.spark_cut input
      || TorqueInput.launch_cut input || TorqueInput.flat_shift_cut input || TorqueInput.rev_hard_active input = true
      \/ torque_mode_ceiling (TorqueInput.mode input) = 0 ->
      TorqueResult.torque_actuated_x1000 r = 0).
Proof.
  intros Ht. unfold runtime_semantic_evaluate_torque, clamp_x1000, TORQUE_SCALE_X1000_MAX. cbv zeta.
  cbn [TorqueResult.torque_actuated_x1000 TorqueResult.torque_allowed_x1000 TorqueResult.torque_request_x1000].
  assert (0 <= TorqueInput.tps_x100 input / 10) by (apply Z.div_pos; lia).
  assert (0 <= torque_mode_ceiling (TorqueInput.mode input) <= 1000) by (unfold torque_mode_ceiling, TORQUE_SCALE_X1000_MAX; destruct (TorqueInput.mode input); lia).
  destruct (TorqueInput.safety_latched input || _ || _ || _ || TorqueInput.flat_shift_cut input), (TorqueInput.rev_hard_active input); cbn [orb];
    (split; [lia|]; split; [lia|]); intros [?|Hc]; (done || lia).
Qed.

(** ** Examples *)
Definition sample_schedule : ScheduleCalibration.t :=
  let table y := Table2d.mk (two_point_axis 500 8000) (two_point_axis 200 1000) (replicate 16 (replicate 16 y)) in
  ScheduleCalibration.mk (table 150) (table 3000) (table 3600) InjectionAngleMode.EndOfInjection
    (CylinderArray.mk 4 ([0; 1800; 3600; 5400] ++ replicate 12 0)).
Definition sample_fuel : FuelObservations.t :=
  FuelObservations.mk 8000 1470 4800 2400 5000 1000 false false 1000 PiIntegratorState.default 0 PiIntegratorState.default (-20).
Definition sample_fuel_cut : FuelObservations.t :=
  FuelObservations.mk 8000 1470 4800 2400 5000 1000 true false 1000 PiIntegratorState.default 0 PiIntegratorState.default (-20).
Definition sample_authority : EngineTimeAuthority.t :=
  EngineTimeAuthority.mk CrankSyncState.PrimaryLocked PhaseSyncState.CamValidated720 AbsoluteTimeAuthority.CertifiedProfile 1000 0.

Lemma sample_schedule_typed : schedule_typed sample_schedule.
Proof.
  destruct (two_point_axis_ok 500 8000) as [T1 _]; [done..|]. destruct (two_point_axis_ok 200 1000) as [T2 _]; [done..|].
  assert (forall (P : Z -> Prop) y, P y -> table_typed P (Table2d.mk (two_point_axis 500 8000) (two_point_axis 200 1000) (replicate 16 (replicate 16 y)))) as H.
  { intros P y Hy. split; [done|]. split; [done|]. split; [done|]. apply Forall_replicate. split; [done|]. by apply Forall_replicate. }
  split; [by apply H|]. split; [by apply H|]. split; [by apply H|]. done.
Qed.

Lemma schedule_angles_lawful_witness :
  exists obs, runtime_semantic_evaluate_schedule_with_authority sample_schedule sample_input sample_fuel sample_authority = Some (Ok obs)
  /\ (observed_angle (ScheduleObservations.eoi_deg10 obs) 1 - observed_angle (ScheduleObservations.soi_deg10 obs) 1) mod 7200 = 900.
Proof.
  destruct (runtime_semantic_evaluate_schedule_with_authority sample_schedule sample_input sample_fuel sample_authority) as [[obs|e]|] eqn:E;
    [|vm_compute in E; discriminate E|vm_compute in E; discriminate E].
  exists obs. split; [reflexivity|].
  assert (1 < cylinder_count sample_schedule)%nat as Hc by (apply Nat.ltb_lt; reflexivity).
  pose proof (schedule_angles_lawful sample_schedule sample_input sample_fuel sample_authority obs 1 sample_schedule_typed E Hc) as H.
  cbv zeta in H. destruct H as (_ & H & _). rewrite H. reflexivity.
Defined.

(** With fuel cut, the four coils still charge and fire, 1800 tenths of a degree apart. *)
Lemma schedule_events_gated_witness :
  exists obs, runtime_semantic_evaluate_schedule_with_authority sample_schedule sample_input
      sample_fuel_cut sample_authority = Some (Ok obs)
  /\ take (Z.to_nat (EventBatch.len (ScheduleObservations.events obs))) (EventBatch.events (ScheduleObservations.events obs))
     = concat ((fun cyl => [ScheduleEvent.mk EventKind.CoilChargeStart cyl ((6530 + 1800 * cyl) mod 7200);
                            ScheduleEvent.mk EventKind.CoilFire cyl ((7070 + 1800 * cyl) mod 7200)]) <$> [0; 1; 2; 3]).
Proof.
  pose proof (schedule_events_gated sample_schedule sample_input sample_fuel_cut sample_authority sample_schedule_typed) as H.
  destruct (runtime_semantic_evaluate_schedule_with_authority sample_schedule sample_input sample_fuel_cut sample_authority) as [[obs|e]|] eqn:E;
    [|vm_compute in E; discriminate E|vm_compute in E; discriminate E].
  exists obs. split; [reflexivity|]. destruct H as (r & Er & _ & _ & H). injection Er as <-.
  rewrite (proj1 (H obs eq_refl)). vm_compute in E. injection E as <-. vm_compute. reflexivity.
Defined.
