(* ===== verification/ExpertTrigger.v ===== *)
(** * The expert trigger record (crates/calibration/src/expert_trigger.rs)

    The trigger setup a tuner edits, its validation and its 48-byte record.  The enums the
    source declares with [code_enum!] are instances of the class [CodeEnum] of types with a
    byte code.  The theorems say that the record is a bijection between the valid setups
    and the canonical records, that no sequence of accepted edits forges a certified
    profile, and what authority a setup can grant. *)
From S2P Require Import Prelude Domain Bytes BoardApi.

(** ** Enumerations with byte codes: [code_enum!] *)
Class CodeEnum (T : Type) := {
  code : T -> Z;
  from_code : Z -> option T;
  code_default : T;
  from_code_code x : from_code (code x) = Some x;
  code_from_code n x : from_code n = Some x -> code x = n;
  code_byte x : byte (code x);
}.

#[global] Arguments code {T CodeEnum} x : simpl never.
#[global] Arguments from_code {T CodeEnum} n : simpl never.

(** Decides the laws of an enumeration: case analysis on its variants and on the code. *)
Ltac code_enum_laws :=
  cbv beta;
  first
  [ solve [intros []; done]
  | let n := fresh in let x := fresh in
    intros n x; repeat match goal with |- context [Z.eqb n ?k] => destruct (Z.eqb_spec n k) end;
    intros ?; by simplify_eq ].

Module ExpertUnlock.
Inductive t := Locked | Unlocked.
#[global] Instance eq_dec : EqDecision t.
Proof. solve_decision. Defined.
#[global, refine] Instance codes : CodeEnum t := {|
  code x := match x with Locked => 0 | Unlocked => 1 end;
  from_code n := if n =? 0 then Some Locked else if n =? 1 then Some Unlocked else None;
  code_default := Locked |}.
Proof. all: code_enum_laws. Defined.
End ExpertUnlock.

Module TriggerAuthority.
Inductive t := None_ | ExpertManual | CommunityProfile | CertifiedProfile | BenchLearned.
#[global] Instance eq_dec : EqDecision t.
Proof. solve_decision. Defined.
#[global, refine] Instance codes : CodeEnum t := {|
  code x := match x with None_ => 0 | ExpertManual => 1 | CommunityProfile => 2 | CertifiedProfile => 3 | BenchLearned => 4 end;
  from_code n := if n =? 0 then Some None_ else if n =? 1 then Some ExpertManual else if n =? 2 then Some CommunityProfile
    else if n =? 3 then Some CertifiedProfile else if n =? 4 then Some BenchLearned else None;
  code_default := None_ |}.
Proof. all: code_enum_laws. Defined.
End TriggerAuthority.

Module TriggerPattern.
Inductive t := MissingTooth | BasicDistributor | DualWheel | NonUniform.
#[global] Instance eq_dec : EqDecision t.
Proof. solve_decision. Defined.
#[global, refine] Instance codes : CodeEnum t := {|
  code x := match x with MissingTooth => 0 | BasicDistributor => 1 | DualWheel => 2 | NonUniform => 3 end;
  from_code n := if n =? 0 then Some MissingTooth else if n =? 1 then Some BasicDistributor else if n =? 2 then Some DualWheel
    else if n =? 3 then Some NonUniform else None;
  code_default := MissingTooth |}.
Proof. all: code_enum_laws. Defined.
End TriggerPattern.

Module PrimaryTriggerSpeed.
Inductive t := Crank | Cam.
#[global] Instance eq_dec : EqDecision t.
Proof. solve_decision. Defined.
#[global, refine] Instance codes : CodeEnum t := {|
  code x := match x with Crank => 0 | Cam => 1 end;
  from_code n := if n =? 0 then Some Crank else if n =? 1 then Some Cam else None;
  code_default := Crank |}.
Proof. all: code_enum_laws. Defined.
End PrimaryTriggerSpeed.

Module TriggerEdge.
Inductive t := Rising | Falling.
#[global] Instance eq_dec : EqDecision t.
Proof. solve_decision. Defined.
#[global, refine] Instance codes : CodeEnum t := {|
  code x := match x with Rising => 0 | Falling => 1 end;
  from_code n := if n =? 0 then Some Rising else if n =? 1 then Some Falling else None;
  code_default := Rising |}.
Proof. all: code_enum_laws. Defined.
End TriggerEdge.

Module SecondaryTriggerMode.
Inductive t := None_ | SingleToothCam | FourMinusOneCam | PollLevel | MultiToothCam | OemPattern.
#[global] Instance eq_dec : EqDecision t.
Proof. solve_decision. Defined.
#[global, refine] Instance codes : CodeEnum t := {|
  code x := match x with None_ => 0 | SingleToothCam => 1 | FourMinusOneCam => 2 | PollLevel => 3 | MultiToothCam => 4
    | OemPattern => 5 end;
  from_code n := if n =? 0 then Some None_ else if n =? 1 then Some SingleToothCam else if n =? 2 then Some FourMinusOneCam
    else if n =? 3 then Some PollLevel else if n =? 4 then Some MultiToothCam else if n =? 5 then Some OemPattern else None;
  code_default := None_ |}.
Proof. all: code_enum_laws. Defined.
End SecondaryTriggerMode.

Module PollLevelPolarity.
Inductive t := Low | High.
#[global] Instance eq_dec : EqDecision t.
Proof. solve_decision. Defined.
#[global, refine] Instance codes : CodeEnum t := {|
  code x := match x with Low => 0 | High => 1 end;
  from_code n := if n =? 0 then Some Low else if n =? 1 then Some High else None;
  code_default := Low |}.
Proof. all: code_enum_laws. Defined.
End PollLevelPolarity.

Module TriggerFilter.
Inductive t := Off | Weak | Medium | Aggressive.
#[global] Instance eq_dec : EqDecision t.
Proof. solve_decision. Defined.
#[global, refine] Instance codes : CodeEnum t := {|
  code x := match x with Off => 0 | Weak => 1 | Medium => 2 | Aggressive => 3 end;
  from_code n := if n =? 0 then Some Off else if n =? 1 then Some Weak else if n =? 2 then Some Medium
    else if n =? 3 then Some Aggressive else None;
  code_default := Medium |}.
Proof. all: code_enum_laws. Defined.
End TriggerFilter.

Module ExpertIgnitionMode.
Inductive t := SingleCoil | WastedSpark | WastedCop | SequentialCop.
#[global] Instance eq_dec : EqDecision t.
Proof. solve_decision. Defined.
#[global, refine] Instance codes : CodeEnum t := {|
  code x := match x with SingleCoil => 0 | WastedSpark => 1 | WastedCop => 2 | SequentialCop => 3 end;
  from_code n := if n =? 0 then Some SingleCoil else if n =? 1 then Some WastedSpark else if n =? 2 then Some WastedCop
    else if n =? 3 then Some SequentialCop else None;
  code_default := WastedSpark |}.
Proof. all: code_enum_laws. Defined.
End ExpertIgnitionMode.

Module ExpertInjectionLayout.
Inductive t := Batch | Paired | SemiSequential | Banked | Sequential.
#[global] Instance eq_dec : EqDecision t.
Proof. solve_decision. Defined.
#[global, refine] Instance codes : CodeEnum t := {|
  code x := match x with Batch => 0 | Paired => 1 | SemiSequential => 2 | Banked => 3 | Sequential => 4 end;
  from_code n := if n =? 0 then Some Batch else if n =? 1 then Some Paired else if n =? 2 then Some SemiSequential
    else if n =? 3 then Some Banked else if n =? 4 then Some Sequential else None;
  code_default := Paired |}.
Proof. all: code_enum_laws. Defined.
End ExpertInjectionLayout.

Module FixedTimingMode.
Inductive t := Table | Fixed.
#[global] Instance eq_dec : EqDecision t.
Proof. solve_decision. Defined.
#[global, refine] Instance codes : CodeEnum t := {|
  code x := match x with Table => 0 | Fixed => 1 end;
  from_code n := if n =? 0 then Some Table else if n =? 1 then Some Fixed else None;
  code_default := Table |}.
Proof. all: code_enum_laws. Defined.
End FixedTimingMode.

(** ** The setup *)
Definition EXPERT_TRIGGER_RECORD_LEN : nat := 48.
(** [CalibrationSchemaVersion::CURRENT] *)
Definition SCHEMA_CURRENT : Z := 1.

Module ExpertTriggerCalibration.
Record t := mk {
  schema_version : Z; expert_unlock : ExpertUnlock.t; authority : TriggerAuthority.t;
  profile_identity : Z; profile_hash : Z; trigger_pattern : TriggerPattern.t;
  primary_base_teeth : Z; missing_teeth : Z; primary_trigger_speed : PrimaryTriggerSpeed.t;
  trigger_angle_atdc_deg10 : Z; trigger_angle_multiplier : Z;
  primary_trigger_edge : TriggerEdge.t; secondary_trigger_edge : TriggerEdge.t;
  secondary_trigger_mode : SecondaryTriggerMode.t; poll_level_polarity : PollLevelPolarity.t;
  trigger_filter : TriggerFilter.t; resync_every_cycle : bool; skip_cycles : Z;
  ignition_mode : ExpertIgnitionMode.t; injection_layout : ExpertInjectionLayout.t;
  fixed_timing_mode : FixedTimingMode.t; fixed_timing_deg10 : Z }.
#[global] Instance eq_dec : EqDecision t.
Proof. solve_decision. Defined.
#[global] Instance eta : Eta t := fun c =>
  mk (schema_version c) (expert_unlock c) (authority c) (profile_identity c) (profile_hash c) (trigger_pattern c)
    (primary_base_teeth c) (missing_teeth c) (primary_trigger_speed c) (trigger_angle_atdc_deg10 c)
    (trigger_angle_multiplier c) (primary_trigger_edge c) (secondary_trigger_edge c) (secondary_trigger_mode c)
    (poll_level_polarity c) (trigger_filter c) (resync_every_cycle c) (skip_cycles c) (ignition_mode c)
    (injection_layout c) (fixed_timing_mode c) (fixed_timing_deg10 c).

Definition default : t :=
  mk SCHEMA_CURRENT ExpertUnlock.Locked TriggerAuthority.None_ 0 0 TriggerPattern.MissingTooth 60 2
    PrimaryTriggerSpeed.Crank 0 1 TriggerEdge.Rising TriggerEdge.Rising SecondaryTriggerMode.None_
    PollLevelPolarity.Low TriggerFilter.Medium false 2 ExpertIgnitionMode.WastedSpark ExpertInjectionLayout.Paired
    FixedTimingMode.Table 100.
End ExpertTriggerCalibration.

Module ValidationError.
(** [ExpertTriggerValidationError] *)
Inductive t :=
| SchemaVersionMismatch | ExpertUnlockRequired | CertifiedProfileRequiresTrustedPath | CertifiedProfileIdentityRequired
| CertifiedProfileMustStayLocked | CertifiedProfileOverwrite | InvalidPrimaryBaseTeeth | InvalidMissingTeeth
| MissingTeethOnlyForMissingTooth | InvalidTriggerAngle | InvalidTriggerAngleMultiplier | SecondaryRequired
| InvalidSkipCycles | InvalidFixedTiming.
#[global] Instance eq_dec : EqDecision t.
Proof. solve_decision. Defined.
End ValidationError.

Module RuntimeAuthorityError.
(** [ExpertTriggerRuntimeAuthorityError] *)
Inductive t :=
| InvalidCalibration (e : ValidationError.t) | ExpertManualAuthorityRequired | DecoderPrimaryLockRequired
| CamValidated720Required.
End RuntimeAuthorityError.

Module RecordError.
(** [ExpertTriggerRecordError] *)
Inductive t := WrongSize | InvalidEnum | NonCanonicalRecord | InvalidCalibration (e : ValidationError.t).
#[global] Instance eq_dec : EqDecision t.
Proof. solve_decision. Defined.
End RecordError.

Definition EXPERT_TRIGGER_RESERVED_BYTES : list nat :=
  [29; 32; 33; 34; 35; 36; 37; 38; 39; 40; 41; 42; 43; 44; 45; 46; 47]%nat.

(** ** Validation *)
Section operations.
Import ExpertTriggerCalibration.

Definition requires_cam_validated_720 (c : t) : bool :=
  bool_decide (ignition_mode c = ExpertIgnitionMode.SequentialCop)
  || bool_decide (injection_layout c = ExpertInjectionLayout.Sequential).

(** An early return of [validate]. *)
Definition fail_if (cond : bool) (e : ValidationError.t) : Result unit ValidationError.t :=
  if cond then Err e else Ok tt.

Definition validate_authority (c : t) : Result unit ValidationError.t :=
  let? _ := fail_if (bool_decide (authority c = TriggerAuthority.ExpertManual)
    && negb (bool_decide (expert_unlock c = ExpertUnlock.Unlocked))) ValidationError.ExpertUnlockRequired in
  if bool_decide (authority c = TriggerAuthority.CertifiedProfile) then
    let? _ := fail_if ((profile_identity c =? 0) || (profile_hash c =? 0)) ValidationError.CertifiedProfileIdentityRequired in
    fail_if (negb (bool_decide (expert_unlock c = ExpertUnlock.Locked))) ValidationError.CertifiedProfileMustStayLocked
  else Ok tt.

Definition validate_teeth (c : t) : Result unit ValidationError.t :=
  let? _ := fail_if (primary_base_teeth c =? 0) ValidationError.InvalidPrimaryBaseTeeth in
  match trigger_pattern c with
  | TriggerPattern.MissingTooth =>
    fail_if ((primary_base_teeth c <? 2) || (missing_teeth c =? 0) || (primary_base_teeth c <=? missing_teeth c))
      ValidationError.InvalidMissingTeeth
  | _ => fail_if (negb (missing_teeth c =? 0)) ValidationError.MissingTeethOnlyForMissingTooth
  end.

Definition validate (c : t) : Result unit ValidationError.t :=
  let? _ := fail_if (negb (schema_version c =? SCHEMA_CURRENT)) ValidationError.SchemaVersionMismatch in
  let? _ := validate_authority c in
  let? _ := validate_teeth c in
  let? _ := fail_if (7200 <? trigger_angle_atdc_deg10 c) ValidationError.InvalidTriggerAngle in
  let? _ := fail_if ((trigger_angle_multiplier c =? 0) || (8 <? trigger_angle_multiplier c))
    ValidationError.InvalidTriggerAngleMultiplier in
  let? _ := fail_if (resync_every_cycle c && bool_decide (secondary_trigger_mode c = SecondaryTriggerMode.None_))
    ValidationError.SecondaryRequired in
  let? _ := fail_if ((bool_decide (ignition_mode c = ExpertIgnitionMode.SequentialCop)
      || bool_decide (injection_layout c = ExpertInjectionLayout.Sequential))
      && bool_decide (secondary_trigger_mode c = SecondaryTriggerMode.None_)) ValidationError.SecondaryRequired in
  let? _ := fail_if (16 <? skip_cycles c) ValidationError.InvalidSkipCycles in
  fail_if (bool_decide (fixed_timing_mode c = FixedTimingMode.Fixed)
    && negb ((-100 <=? fixed_timing_deg10 c) && (fixed_timing_deg10 c <=? 600))) ValidationError.InvalidFixedTiming.

Definition to_runtime_engine_time_authority (startup_authority : EngineTimeAuthority.t) (c : t) :
    Result EngineTimeAuthority.t RuntimeAuthorityError.t :=
  match validate c with
  | Err e => Err (RuntimeAuthorityError.InvalidCalibration e)
  | Ok _ =>
    if negb (bool_decide (authority c = TriggerAuthority.ExpertManual))
    then Err RuntimeAuthorityError.ExpertManualAuthorityRequired
    else if negb (EngineTimeAuthority.has_primary_lock startup_authority)
    then Err RuntimeAuthorityError.DecoderPrimaryLockRequired
    else if requires_cam_validated_720 c
      && negb (bool_decide (EngineTimeAuthority.phase startup_authority = PhaseSyncState.CamValidated720))
    then Err RuntimeAuthorityError.CamValidated720Required
    else Ok (EngineTimeAuthority.mk CrankSyncState.PrimaryLocked (EngineTimeAuthority.phase startup_authority)
      AbsoluteTimeAuthority.ExpertManual (EngineTimeAuthority.confidence_x1000 startup_authority)
      (EngineTimeAuthority.sync_loss_count startup_authority))
  end.

Definition validate_transition_from (current c : t) : Result unit ValidationError.t :=
  let certified x := bool_decide (authority x = TriggerAuthority.CertifiedProfile) in
  let? _ := validate c in
  let? _ := fail_if (certified c && negb (certified current)) ValidationError.CertifiedProfileRequiresTrustedPath in
  let? _ := fail_if (certified current && certified c && negb (bool_decide (c = current)))
    ValidationError.CertifiedProfileOverwrite in
  fail_if (certified current && negb (certified c) && negb (bool_decide (expert_unlock c = ExpertUnlock.Unlocked)))
    ValidationError.ExpertUnlockRequired.

(** ** The record *)

(** The writes of [encode_record], at their offsets, in the order of the source. *)
Definition record_fields (c : t) : list (nat * list Z) :=
  [(0%nat, le16 (schema_version c)); (2%nat, [code (expert_unlock c)]); (3%nat, [code (authority c)]);
   (4%nat, le32 (profile_identity c)); (8%nat, le32 (profile_hash c)); (12%nat, [code (trigger_pattern c)]);
   (13%nat, [primary_base_teeth c]); (14%nat, [missing_teeth c]); (15%nat, [code (primary_trigger_speed c)]);
   (16%nat, le16 (trigger_angle_atdc_deg10 c)); (18%nat, [trigger_angle_multiplier c]);
   (19%nat, [code (primary_trigger_edge c)]); (20%nat, [code (secondary_trigger_edge c)]);
   (21%nat, [code (secondary_trigger_mode c)]); (22%nat, [code (poll_level_polarity c)]);
   (23%nat, [code (trigger_filter c)]); (24%nat, [Z.b2z (resync_every_cycle c)]); (25%nat, [skip_cycles c]);
   (26%nat, [code (ignition_mode c)]); (27%nat, [code (injection_layout c)]); (28%nat, [code (fixed_timing_mode c)]);
   (30%nat, le16 (fixed_timing_deg10 c))].

Definition write_fields (fields : list (nat * list Z)) (out : list Z) : list Z :=
  fold_left (fun out '(off, src) => copy_at off src out) fields out.

Definition encode_record (out : list Z) (c : t) : list Z * Result Z RecordError.t :=
  match validate c with
  | Err e => (out, Err (RecordError.InvalidCalibration e))
  | Ok _ =>
    if (length out <? EXPERT_TRIGGER_RECORD_LEN)%nat then (out, Err RecordError.WrongSize)
    else
      (write_fields (record_fields c) (copy_at 0 (replicate EXPERT_TRIGGER_RECORD_LEN 0) out),
       Ok (Z.of_nat EXPERT_TRIGGER_RECORD_LEN))
  end.

(** [from_code(data[i]).ok_or(InvalidEnum)?] *)
Definition read_code {T} `{CodeEnum T} (i : nat) (data : list Z) : Result T RecordError.t :=
  match from_code (get_byte i data) with Some x => Ok x | None => Err RecordError.InvalidEnum end.

Definition decode_record (data : list Z) : Result t RecordError.t :=
  if (length data <? EXPERT_TRIGGER_RECORD_LEN)%nat then Err RecordError.WrongSize
  else if 1 <? get_byte 24 data then Err RecordError.NonCanonicalRecord
  else if existsb (fun index => negb (get_byte index data =? 0)) EXPERT_TRIGGER_RESERVED_BYTES
  then Err RecordError.NonCanonicalRecord
  else
    let? expert_unlock := read_code 2 data in
    let? authority := read_code 3 data in
    let? trigger_pattern := read_code 12 data in
    let? primary_trigger_speed := read_code 15 data in
    let? primary_trigger_edge := read_code 19 data in
    let? secondary_trigger_edge := read_code 20 data in
    let? secondary_trigger_mode := read_code 21 data in
    let? poll_level_polarity := read_code 22 data in
    let? trigger_filter := read_code 23 data in
    let? ignition_mode := read_code 26 data in
    let? injection_layout := read_code 27 data in
    let? fixed_timing_mode := read_code 28 data in
    let record := mk (rd_u16 data 0) expert_unlock authority (rd_u32 data 4) (rd_u32 data 8) trigger_pattern
      (get_byte 13 data) (get_byte 14 data) primary_trigger_speed (rd_u16 data 16) (get_byte 18 data)
      primary_trigger_edge secondary_trigger_edge secondary_trigger_mode poll_level_polarity trigger_filter
      (negb (get_byte 24 data =? 0)) (get_byte 25 data) ignition_mode injection_layout fixed_timing_mode
      (as_signed 16 (rd_u16 data 30)) in
    match validate record with
    | Err e => Err (RecordError.InvalidCalibration e)
    | Ok _ => Ok record
    end.
End operations.

(** ** The record as a list *)
Definition record_bytes (c : ExpertTriggerCalibration.t) : list Z :=
  let '(ExpertTriggerCalibration.mk schema unlock auth id hash pattern teeth missing speed angle mult edge1 edge2 mode pol
         filt resync skip ign inj fixed_mode fixed) := c in
  le16 schema ++ [code unlock; code auth] ++ le32 id ++ le32 hash ++ [code pattern; teeth; missing; code speed]
  ++ le16 angle ++ [mult; code edge1; code edge2; code mode; code pol; code filt; Z.b2z resync; skip; code ign; code inj;
      code fixed_mode; 0] ++ le16 fixed ++ replicate 16 0.

Definition typed (c : ExpertTriggerCalibration.t) : Prop :=
  u16 (ExpertTriggerCalibration.schema_version c) /\ u32 (ExpertTriggerCalibration.profile_identity c)
  /\ u32 (ExpertTriggerCalibration.profile_hash c) /\ byte (ExpertTriggerCalibration.primary_base_teeth c)
  /\ byte (ExpertTriggerCalibration.missing_teeth c) /\ u16 (ExpertTriggerCalibration.trigger_angle_atdc_deg10 c)
  /\ byte (ExpertTriggerCalibration.trigger_angle_multiplier c) /\ byte (ExpertTriggerCalibration.skip_cycles c)
  /\ - 32768 <= ExpertTriggerCalibration.fixed_timing_deg10 c < 32768.

Lemma record_bytes_length c : length (record_bytes c) = EXPERT_TRIGGER_RECORD_LEN.
Proof. by destruct c. Qed.

Lemma record_bytes_bytes c : typed c -> bytes (record_bytes c).
Proof.
  destruct c. unfold typed. cbn. intros. destruct_and!.
  assert (byte (Z.b2z resync_every_cycle)) by (unfold byte; destruct resync_every_cycle; cbn; lia).
  assert (byte 0) by (unfold byte; lia).
  repeat (apply Forall_cons_2; [first [apply byte_of_range | apply (code_byte (T := _)) | assumption]|]). done.
Qed.

Lemma encode_record_ok c out : validate c = Ok tt -> (EXPERT_TRIGGER_RECORD_LEN <= length out)%nat ->
  encode_record out c = (record_bytes c ++ drop EXPERT_TRIGGER_RECORD_LEN out, Ok (Z.of_nat EXPERT_TRIGGER_RECORD_LEN)).
Proof.
  intros Hv Hl. unfold encode_record. rewrite Hv. destruct (Nat.ltb_spec (length out) EXPERT_TRIGGER_RECORD_LEN); [lia|].
  f_equal. rewrite copy_at_0, length_replicate. destruct c. reflexivity.
Qed.

Lemma encode_record_err c out e : validate c = Err e -> encode_record out c = (out, Err (RecordError.InvalidCalibration e)).
Proof. intros Hv. unfold encode_record. by rewrite Hv. Qed.

(** ** Reading back *)
Lemma read_code_ok {T} `{CodeEnum T} i data (x : T) : get_byte i data = code x -> read_code i data = Ok x.
Proof. intros E. unfold read_code. by rewrite E, from_code_code. Qed.

Lemma read_code_inv {T} `{CodeEnum T} i data (x : T) : read_code i data = Ok x -> code x = get_byte i data.
Proof. unfold read_code. destruct (from_code _) eqn:E; intros; simplify_eq. by apply code_from_code. Qed.

Lemma signed_le16 v : - 32768 <= v < 32768 -> as_signed 16 (byte_of v 0 + 2 ^ 8 * byte_of v 1) = v.
Proof.
  intros Hv. unfold as_signed, byte_of. change (2 ^ (8 * 0)) with 1. change (2 ^ (8 * 1)) with 256.
  change (2 ^ 16) with 65536. change (2 ^ (16 - 1)) with 32768. change (2 ^ 8) with 256.
  destruct (Z.ltb_spec ((v / 1 mod 256 + 256 * (v / 256 mod 256)) mod 65536) 32768);
    Z.to_euclidean_division_equations; lia.
Qed.

Lemma decode_record_bytes c rest : typed c -> validate c = Ok tt -> decode_record (record_bytes c ++ rest) = Ok c.
Proof.
  destruct c. unfold typed. cbn [ExpertTriggerCalibration.schema_version ExpertTriggerCalibration.profile_identity
    ExpertTriggerCalibration.profile_hash ExpertTriggerCalibration.primary_base_teeth ExpertTriggerCalibration.missing_teeth
    ExpertTriggerCalibration.trigger_angle_atdc_deg10 ExpertTriggerCalibration.trigger_angle_multiplier
    ExpertTriggerCalibration.skip_cycles ExpertTriggerCalibration.fixed_timing_deg10].
  intros (H1 & H2 & H3 & H4 & H5 & H6 & H7 & H8 & H9) Hv. unfold decode_record.
  rewrite length_app, record_bytes_length. destruct (Nat.ltb_spec (EXPERT_TRIGGER_RECORD_LEN + length rest) EXPERT_TRIGGER_RECORD_LEN); [lia|].
  unfold rd_u16, rd_u32. cbn [record_bytes app get_byte nth le16 le32 Nat.add replicate].
  destruct (Z.ltb_spec 1 (Z.b2z resync_every_cycle)); [by destruct resync_every_cycle|].
  cbn [existsb EXPERT_TRIGGER_RESERVED_BYTES Z.eqb negb orb].
  repeat (erewrite read_code_ok by reflexivity; cbn [result_bind]).
  repeat rewrite le32_value by done. rewrite signed_le16 by done. repeat rewrite le16_value by done.
  assert (negb (Z.b2z resync_every_cycle =? 0) = resync_every_cycle) as -> by (by destruct resync_every_cycle).
  by rewrite Hv.
Qed.

(** *** A decoded record is the encoding of what it decodes to *)
Lemma take_get_bytes n data : (n <= length data)%nat -> take n data = map (fun i => get_byte i data) (seq 0 n).
Proof.
  revert data. induction n as [|n IH]; intros data Hn; [done|]. destruct data as [|b data]; [cbn in Hn; lia|].
  cbn [take seq map get_byte nth]. f_equal. rewrite IH by (cbn in Hn; lia). rewrite <- seq_shift, map_map. done.
Qed.

Lemma get_byte_range i data : bytes data -> byte (get_byte i data).
Proof.
  intros H. unfold get_byte. rewrite nth_lookup. destruct (data !! i) eqn:E; [by eapply Forall_lookup_1|].
  unfold byte. cbn. lia.
Qed.

Lemma byte_of_words a b c d : byte a -> byte b -> byte c -> byte d ->
  let v := a + 2 ^ 8 * b + 2 ^ 16 * c + 2 ^ 24 * d in
  u32 v /\ byte_of v 0 = a /\ byte_of v 1 = b /\ byte_of v 2 = c /\ byte_of v 3 = d.
Proof.
  unfold byte, fits, byte_of. change (2 ^ (8 * 0)) with 1. change (2 ^ (8 * 1)) with 256.
  change (2 ^ (8 * 2)) with 65536. change (2 ^ (8 * 3)) with 16777216. change (2 ^ 8) with 256.
  change (2 ^ 16) with 65536. change (2 ^ 24) with 16777216. change (2 ^ 32) with 4294967296.
  intros. cbv zeta. split_and!; Z.to_euclidean_division_equations; lia.
Qed.

Lemma byte_of_pair a b : byte a -> byte b ->
  let v := a + 2 ^ 8 * b in u16 v /\ le16 v = [a; b] /\ - 32768 <= as_signed 16 v < 32768 /\ le16 (as_signed 16 v) = [a; b].
Proof.
  unfold byte, fits, le16, byte_of, as_signed. change (2 ^ (8 * 0)) with 1. change (2 ^ (8 * 1)) with 256.
  change (2 ^ 8) with 256. change (2 ^ 16) with 65536. change (2 ^ (16 - 1)) with 32768. intros. cbv zeta.
  rewrite (Z.mod_small (a + 256 * b) 65536) by lia.
  split; [lia|]. destruct (Z.ltb_spec (a + 256 * b) 32768);
    (split; [repeat f_equal; Z.to_euclidean_division_equations; lia|]); (split; [lia|]);
    repeat f_equal; Z.to_euclidean_division_equations; lia.
Qed.

Lemma le32_rd data off : bytes data ->
  u32 (rd_u32 data off) /\ le32 (rd_u32 data off) = [get_byte off data; get_byte (off + 1) data; get_byte (off + 2) data; get_byte (off + 3) data].
Proof.
  intros H. unfold rd_u32, le32.
  destruct (byte_of_words (get_byte off data) (get_byte (off + 1) data) (get_byte (off + 2) data) (get_byte (off + 3) data))
    as (? & -> & -> & -> & ->); try by apply get_byte_range. done.
Qed.

Lemma le16_rd data off : bytes data -> let v := rd_u16 data off in
  u16 v /\ le16 v = [get_byte off data; get_byte (off + 1) data] /\ - 32768 <= as_signed 16 v < 32768
  /\ le16 (as_signed 16 v) = [get_byte off data; get_byte (off + 1) data].
Proof. intros H. by apply byte_of_pair; apply get_byte_range. Qed.

Lemma reserved_zero data : existsb (fun index => negb (get_byte index data =? 0)) EXPERT_TRIGGER_RESERVED_BYTES = false ->
  Forall (fun i => get_byte i data = 0) EXPERT_TRIGGER_RESERVED_BYTES.
Proof.
  generalize EXPERT_TRIGGER_RESERVED_BYTES. intros l. induction l as [|i l IH]; cbn; [constructor|].
  intros [Hi Hl]%orb_false_iff. constructor; [by apply negb_false_iff, Z.eqb_eq in Hi|by apply IH].
Qed.

Lemma decode_record_ok data c : bytes data -> decode_record data = Ok c ->
  typed c /\ validate c = Ok tt /\ (EXPERT_TRIGGER_RECORD_LEN <= length data)%nat
  /\ take EXPERT_TRIGGER_RECORD_LEN data = record_bytes c.
Proof.
  intros Hb. unfold decode_record. destruct (Nat.ltb_spec (length data) EXPERT_TRIGGER_RECORD_LEN) as [|Hl]; [done|].
  destruct (Z.ltb_spec 1 (get_byte 24 data)) as [|H24]; [done|].
  destruct (existsb _ _) eqn:Hres; [done|]. pose proof (reserved_zero data Hres) as Hz. clear Hres.
  intros H. do 12 (apply result_bind_ok in H as (? & ?%read_code_inv & H)).
  destruct (validate _) as [[]|] eqn:Hv; [|done]. injection H as <-.
  pose proof (get_byte_range 24 data Hb). unfold byte in *.
  destruct (le16_rd data 0 Hb) as (? & ? & _), (le16_rd data 16 Hb) as (? & ? & _), (le16_rd data 30 Hb) as (_ & _ & ? & ?),
    (le32_rd data 4 Hb) as [? ?], (le32_rd data 8 Hb) as [? ?].
  split; [unfold typed; cbn; split_and!; try done; try lia; by apply get_byte_range|]. split; [done|]. split; [done|].
  rewrite take_get_bytes by done. unfold record_bytes. repeat match goal with H : le16 _ = _ |- _ => rewrite H end.
  repeat match goal with H : le32 _ = _ |- _ => rewrite H end. repeat match goal with H : code _ = _ |- _ => rewrite H end.
  assert (Z.b2z (negb (get_byte 24 data =? 0)) = get_byte 24 data) as ->.
  { destruct (Z.eqb_spec (get_byte 24 data) 0); cbn; lia. }
  repeat (apply Forall_cons in Hz as [? Hz]). change (seq 0 EXPERT_TRIGGER_RECORD_LEN) with (seq 0 29 ++ [29] ++ [30; 31] ++ seq 32 16)%nat. rewrite !map_app.
  assert (map (fun i => get_byte i data) (seq 32 16) = replicate 16 0) as ->.
  { cbn [seq map]. by repeat match goal with H : get_byte _ data = 0 |- _ => rewrite H; clear H end. }
  cbn [map]. by match goal with H : get_byte 29 data = 0 |- _ => rewrite H end.
Qed.

(** ** The record is a bijection *)

(** the record and the setup determine each other: a valid setup is written over the
    first 48 bytes of a buffer, nothing after them is touched, and what is written reads
    back as the setup; an invalid one is refused with its reason and writes nothing; a
    short buffer is refused; and every record that decodes is the one record of a valid
    setup, so writing back what was read changes nothing. *)
Theorem expert_record_bijective :
  (forall c out, typed c -> (EXPERT_TRIGGER_RECORD_LEN <= length out)%nat ->
    match validate c with
    | Ok _ => exists out', encode_record out c = (out', Ok (Z.of_nat EXPERT_TRIGGER_RECORD_LEN))
        /\ decode_record out' = Ok c /\ length out' = length out
        /\ drop EXPERT_TRIGGER_RECORD_LEN out' = drop EXPERT_TRIGGER_RECORD_LEN out
    | Err e => encode_record out c = (out, Err (RecordError.InvalidCalibration e))
    end)
  /\ (forall c out, (length out < EXPERT_TRIGGER_RECORD_LEN)%nat ->
      exists e, encode_record out c = (out, Err e) /\ decode_record out = Err RecordError.WrongSize)
  /\ (forall data c, bytes data -> decode_record data = Ok c ->
      typed c /\ encode_record data c = (data, Ok (Z.of_nat EXPERT_TRIGGER_RECORD_LEN))).
Proof.
  split; [|split].
  - intros c out Ht Hl. destruct (validate c) as [[]|e] eqn:Hv; [|by apply encode_record_err].
    exists (record_bytes c ++ drop EXPERT_TRIGGER_RECORD_LEN out). split; [by apply encode_record_ok|].
    split; [by apply decode_record_bytes|]. rewrite length_app, length_drop, record_bytes_length. split; [lia|].
    by rewrite drop_app_ge, record_bytes_length, Nat.sub_diag by (rewrite record_bytes_length; lia).
  - intros c out Hl. apply Nat.ltb_lt in Hl. unfold encode_record, decode_record. rewrite Hl. destruct (validate c); eauto.
  - intros data c Hb Hd. destruct (decode_record_ok data c Hb Hd) as (Ht & Hv & Hl & E). split; [done|].
    rewrite encode_record_ok by done. by rewrite <- E, take_drop.
Qed.

(** ** Edits *)

(** A tuner's edit replaces the setup if the transition is accepted. *)
Definition certified (c : ExpertTriggerCalibration.t) : Prop :=
  ExpertTriggerCalibration.authority c = TriggerAuthority.CertifiedProfile.
Definition edit_step (current c : ExpertTriggerCalibration.t) : ExpertTriggerCalibration.t :=
  if is_ok (validate_transition_from current c) then c else current.
Definition edit_run (current : ExpertTriggerCalibration.t) (edits : list ExpertTriggerCalibration.t) :
    ExpertTriggerCalibration.t := fold_left edit_step edits current.

Lemma fail_if_ok b e : fail_if b e = Ok tt <-> b = false.
Proof. destruct b; cbn; split; congruence. Qed.

Lemma transition_ok current c : validate_transition_from current c = Ok tt <->
  validate c = Ok tt /\ (certified c -> certified current /\ c = current)
  /\ (certified current -> ~ certified c -> ExpertTriggerCalibration.expert_unlock c = ExpertUnlock.Unlocked).
Proof.
  unfold validate_transition_from, certified. destruct (validate c) as [[]|]; cbn [result_bind]; [|naive_solver].
  destruct (bool_decide_reflect (ExpertTriggerCalibration.authority c = TriggerAuthority.CertifiedProfile)),
    (bool_decide_reflect (ExpertTriggerCalibration.authority current = TriggerAuthority.CertifiedProfile)),
    (bool_decide_reflect (c = current)), (bool_decide_reflect (ExpertTriggerCalibration.expert_unlock c = ExpertUnlock.Unlocked));
    cbn [andb negb fail_if result_bind]; naive_solver.
Qed.

Lemma edit_step_cases current c :
  edit_step current c = current \/ (edit_step current c = c /\ validate_transition_from current c = Ok tt).
Proof. unfold edit_step. destruct (validate_transition_from current c) as [[]|]; auto. Qed.

(** C39: a certified profile cannot be forged: whatever edits are tried, a setup that ends
    up certified is the one that was in place, certified, from the start; once it has been
    replaced it does not come back; and every setup put in place is valid. *)
Theorem certified_profile_unforgeable c0 edits :
  let c := edit_run c0 edits in
  (certified c -> c = c0) /\ (c = c0 \/ validate c = Ok tt)
  /\ (certified c0 -> c <> c0 -> exists e, e ∈ edits /\ ExpertTriggerCalibration.expert_unlock e = ExpertUnlock.Unlocked
      /\ validate_transition_from c0 e = Ok tt).
Proof.
  cbv zeta. revert c0. induction edits as [|e edits IH]; intros c0; [split; [done|]; split; [by left|done]|].
  change (edit_run c0 (e :: edits)) with (edit_run (edit_step c0 e) edits). destruct (edit_step_cases c0 e) as [->|[-> Hok]].
  - destruct (IH c0) as (H1 & H2 & H3). split; [done|]. split; [done|]. intros Hc Hne.
    destruct (H3 Hc Hne) as (x & ? & ?). exists x. split; [by right|done].
  - pose proof Hok as (Hv & Hcert & Hlock)%transition_ok. destruct (IH e) as (H1 & H2 & H3).
    split; [|split].
    + intros Hc. pose proof (H1 Hc) as E. rewrite E in Hc. rewrite E. by apply Hcert.
    + destruct H2 as [->|]; by right.
    + intros Hc Hne. destruct (decide (ExpertTriggerCalibration.authority e = TriggerAuthority.CertifiedProfile)) as [He|He].
      * destruct (Hcert He) as [_ ->]. destruct (H3 Hc Hne) as (x & ? & ?). exists x. split; [by right|done].
      * exists e. split; [by left|]. split; [by apply Hlock|done].
Qed.

(** ** The authority a setup grants *)

(** an expert setup grants exactly the decoder's own authority with manual absolute
    timing: it needs an unlocked, valid, manual setup and a decoder with primary lock; the
    phase, confidence and loss count are the decoder's; a setup with sequential outputs is
    refused until the cam is validated, and an authority it grants to one authorises full
    sequential output whenever the confidence is in range. *)
Theorem expert_authority_sound c a :
  match to_runtime_engine_time_authority a c with
  | Ok a' => validate c = Ok tt /\ ExpertTriggerCalibration.authority c = TriggerAuthority.ExpertManual
      /\ ExpertTriggerCalibration.expert_unlock c = ExpertUnlock.Unlocked
      /\ EngineTimeAuthority.crank a = CrankSyncState.PrimaryLocked
      /\ a' = (a <| EngineTimeAuthority.absolute := AbsoluteTimeAuthority.ExpertManual |>)
      /\ (requires_cam_validated_720 c = true -> EngineTimeAuthority.confidence_x1000 a <= EngineTimeAuthority.MAX_CONFIDENCE_X1000 ->
          BoardApi.engine_time_authorizes_full_sequential a' = true)
  | Err e => match e with
      | RuntimeAuthorityError.InvalidCalibration why => validate c = Err why
      | RuntimeAuthorityError.ExpertManualAuthorityRequired => ExpertTriggerCalibration.authority c <> TriggerAuthority.ExpertManual
      | RuntimeAuthorityError.DecoderPrimaryLockRequired => EngineTimeAuthority.crank a <> CrankSyncState.PrimaryLocked
      | RuntimeAuthorityError.CamValidated720Required =>
          requires_cam_validated_720 c = true /\ EngineTimeAuthority.phase a <> PhaseSyncState.CamValidated720
      end
  end.
Proof.
  unfold to_runtime_engine_time_authority. destruct (validate c) as [[]|] eqn:Hv; [|done].
  case_bool_decide as Hm; cbn [negb]; [|done].
  destruct (EngineTimeAuthority.has_primary_lock a) eqn:Hp; cbn [negb].
  2: { intros E. unfold EngineTimeAuthority.has_primary_lock in Hp. by rewrite E in Hp. }
  assert (EngineTimeAuthority.crank a = CrankSyncState.PrimaryLocked) as Hc.
  { unfold EngineTimeAuthority.has_primary_lock in Hp. by destruct (EngineTimeAuthority.crank a). }
  assert (ExpertTriggerCalibration.expert_unlock c = ExpertUnlock.Unlocked) as Hu.
  { revert Hv. unfold validate, validate_authority. rewrite Hm. rewrite (bool_decide_eq_true_2 (_ = TriggerAuthority.ExpertManual)) by done.
    destruct (ExpertTriggerCalibration.schema_version c =? SCHEMA_CURRENT), (ExpertTriggerCalibration.expert_unlock c); cbn; done. }
  case_bool_decide as Hph; rewrite ?andb_false_r, ?andb_true_r; cbn [negb].
  - split; [done|]. split; [done|]. split; [done|]. split; [done|]. destruct a as [cr ph ab cf ls]. cbn in Hc, Hph. subst.
    split; [done|]. cbn. intros _ Hcf. unfold BoardApi.engine_time_authorizes_full_sequential. cbn.
    by destruct (Z.leb_spec cf EngineTimeAuthority.MAX_CONFIDENCE_X1000); [|lia].
  - destruct (requires_cam_validated_720 c) eqn:Hr; [done|].
    split; [done|]. split; [done|]. split; [done|]. split; [done|]. destruct a as [cr ph ab cf ls]. cbn in Hc. subst. split; [done|]. done.
Qed.

(** ** Examples *)
Definition sample_certified : ExpertTriggerCalibration.t :=
  ((ExpertTriggerCalibration.default <| ExpertTriggerCalibration.authority := TriggerAuthority.CertifiedProfile |>)
    <| ExpertTriggerCalibration.profile_identity := 7 |>) <| ExpertTriggerCalibration.profile_hash := 9 |>.
Definition sample_manual : ExpertTriggerCalibration.t :=
  (((ExpertTriggerCalibration.default <| ExpertTriggerCalibration.authority := TriggerAuthority.ExpertManual |>)
    <| ExpertTriggerCalibration.expert_unlock := ExpertUnlock.Unlocked |>)
    <| ExpertTriggerCalibration.injection_layout := ExpertInjectionLayout.Sequential |>)
    <| ExpertTriggerCalibration.secondary_trigger_mode := SecondaryTriggerMode.SingleToothCam |>.

Lemma default_typed : typed ExpertTriggerCalibration.default.
Proof. by repeat split. Qed.

Lemma expert_record_bijective_witness :
  exists out', encode_record (replicate 50 255) ExpertTriggerCalibration.default = (out', Ok 48)
  /\ decode_record out' = Ok ExpertTriggerCalibration.default /\ drop 48 out' = [255; 255].
Proof.
  destruct expert_record_bijective as (H & _ & _).
  specialize (H ExpertTriggerCalibration.default (replicate 50 255) default_typed ltac:(vm_compute; lia)).
  cbn [validate result_bind fail_if] in H. destruct H as (out' & E & Hd & _ & Hdrop).
  exists out'. split; [exact E|]. split; [exact Hd|]. etrans; [exact Hdrop|reflexivity].
Defined.

(** The certified profile is replaced by an unlocked setup and can then not be put back. *)
Lemma certified_profile_unforgeable_witness :
  let edits := [sample_certified <| ExpertTriggerCalibration.profile_hash := 10 |>; sample_manual; sample_certified] in
  edit_run sample_certified edits = sample_manual
  /\ exists e, e ∈ edits /\ ExpertTriggerCalibration.expert_unlock e = ExpertUnlock.Unlocked.
Proof.
  cbv zeta. split; [reflexivity|].
  destruct (certified_profile_unforgeable sample_certified
    [sample_certified <| ExpertTriggerCalibration.profile_hash := 10 |>; sample_manual; sample_certified]) as (_ & _ & H).
  destruct H as (e & ? & ? & _); [reflexivity|discriminate|]. by exists e.
Defined.

Lemma expert_authority_sound_witness :
  exists a', to_runtime_engine_time_authority (EngineTimeAuthority.mk CrankSyncState.PrimaryLocked PhaseSyncState.CamValidated720
    AbsoluteTimeAuthority.GeometryOnly 900 0) sample_manual = Ok a'
  /\ engine_time_authorizes_full_sequential a' = true.
Proof.
  pose proof (expert_authority_sound sample_manual (EngineTimeAuthority.mk CrankSyncState.PrimaryLocked PhaseSyncState.CamValidated720
    AbsoluteTimeAuthority.GeometryOnly 900 0)) as H.
  destruct (to_runtime_engine_time_authority _ sample_manual) as [a'|e] eqn:E; [|vm_compute in E; discriminate E].
  exists a'. split; [reflexivity|]. apply H; [reflexivity|]. cbn. unfold EngineTimeAuthority.MAX_CONFIDENCE_X1000. lia.
Defined.
