(* ===== verification/Calibration.v ===== *)
(** * Calibration data and persisted packages (crates/calibration/src/model.rs)

    The active and the staged calibration with their revisions, the identity and CRC-32
    checksum of a package, its review, migration and comparison, and its wire format, over
    the records of [ExpertTrigger].  The theorems say that the format is a bijection on
    packages built from a blob, what a migration may do, and what two packages that compare
    as unchanged share. *)
From S2P Require Import Prelude Domain Bytes BoardApi ExpertTrigger.

(** ** Data *)
Module GeometryCalibration.
Record t := mk { expert_trigger : ExpertTriggerCalibration.t }.
#[global] Instance eq_dec : EqDecision t.
Proof. solve_decision. Defined.
Definition default : t := mk ExpertTriggerCalibration.default.
End GeometryCalibration.

Module Calibration.
(** The shells of the other domains are structs without fields: [unit]. *)
Record t := mk {
  geometry : GeometryCalibration.t; fuel : unit; ignition : unit; lambda : unit; torque : unit; idle : unit;
  aux : unit; safety : unit; sensors : unit }.
#[global] Instance eq_dec : EqDecision t.
Proof. solve_decision. Defined.
#[global] Instance eta : Eta t := fun c =>
  mk (geometry c) (fuel c) (ignition c) (lambda c) (torque c) (idle c) (aux c) (safety c) (sensors c).
Definition default : t := mk GeometryCalibration.default tt tt tt tt tt tt tt tt.
Definition set_expert_trigger (e : ExpertTriggerCalibration.t) (c : t) : t :=
  c <| geometry := GeometryCalibration.mk e |>.
End Calibration.

Module ActiveCalibration.
Record t := mk { revision : Z; calibration : Calibration.t }.
#[global] Instance eq_dec : EqDecision t.
Proof. solve_decision. Defined.
Definition new := mk.
Definition default : t := mk 0 Calibration.default.
End ActiveCalibration.

Module StagedCalibration.
Record t := mk { base_revision : Z; revision : Z; dirty : bool; calibration : Calibration.t }.
#[global] Instance eq_dec : EqDecision t.
Proof. solve_decision. Defined.
#[global] Instance eta : Eta t := fun s => mk (base_revision s) (revision s) (dirty s) (calibration s).
Definition new (base_revision : Z) (calibration : Calibration.t) : t := mk base_revision base_revision false calibration.
Definition default : t := mk 0 0 false Calibration.default.
Definition is_dirty (s : t) : bool := dirty s.
Definition mark_dirty (s : t) : t := (s <| dirty := true |>) <| revision := saturating_add 32 (revision s) 1 |>.
Definition clear_dirty (s : t) : t := s <| dirty := false |>.
Definition replace_calibration (c : Calibration.t) (s : t) : t :=
  if negb (bool_decide (calibration s = c)) then mark_dirty (s <| calibration := c |>) else s.
End StagedCalibration.

Module CalibrationSnapshot.
Record t := mk { active : ActiveCalibration.t; staged : StagedCalibration.t }.
#[global] Instance eq_dec : EqDecision t.
Proof. solve_decision. Defined.
Definition default : t := mk ActiveCalibration.default StagedCalibration.default.
End CalibrationSnapshot.

Module PersistedCalibrationBlob.
Record t := mk { schema_version : Z; revision : Z; snapshot : CalibrationSnapshot.t }.
#[global] Instance eq_dec : EqDecision t.
Proof. solve_decision. Defined.
Definition new (s : CalibrationSnapshot.t) : t :=
  mk SCHEMA_CURRENT (ActiveCalibration.revision (CalibrationSnapshot.active s)) s.
Definition default : t := new CalibrationSnapshot.default.
End PersistedCalibrationBlob.

(** ** Checksum: CRC-32 *)
Definition crc32_init : Z := 0xffffffff.
Definition crc32_finish (state : Z) : Z := Z.lxor state 0xffffffff.
Definition crc32_bit (state : Z) : Z :=
  if Z.land state 1 =? 1 then Z.lxor (Z.shiftr state 1) 0xedb88320 else Z.shiftr state 1.
Definition crc32_byte (state b : Z) : Z := Nat.iter 8 crc32_bit (Z.lxor state b).
Definition crc32_update (state : Z) (data : list Z) : Z := fold_left crc32_byte data state.

(** The record of an invalid setup: a tag that no valid record starts with, and every field. *)
Definition bad_record_fields (c : ExpertTriggerCalibration.t) : list (nat * list Z) :=
  [(0%nat, [66; 65; 68; 33]); (4%nat, le16 (ExpertTriggerCalibration.schema_version c));
   (6%nat, [code (ExpertTriggerCalibration.expert_unlock c)]); (7%nat, [code (ExpertTriggerCalibration.authority c)]);
   (8%nat, le32 (ExpertTriggerCalibration.profile_identity c)); (12%nat, le32 (ExpertTriggerCalibration.profile_hash c));
   (16%nat, [code (ExpertTriggerCalibration.trigger_pattern c)]); (17%nat, [ExpertTriggerCalibration.primary_base_teeth c]);
   (18%nat, [ExpertTriggerCalibration.missing_teeth c]); (19%nat, [code (ExpertTriggerCalibration.primary_trigger_speed c)]);
   (20%nat, le16 (ExpertTriggerCalibration.trigger_angle_atdc_deg10 c));
   (22%nat, [ExpertTriggerCalibration.trigger_angle_multiplier c]);
   (23%nat, [code (ExpertTriggerCalibration.primary_trigger_edge c)]);
   (24%nat, [code (ExpertTriggerCalibration.secondary_trigger_edge c)]);
   (25%nat, [code (ExpertTriggerCalibration.secondary_trigger_mode c)]);
   (26%nat, [code (ExpertTriggerCalibration.poll_level_polarity c)]); (27%nat, [code (ExpertTriggerCalibration.trigger_filter c)]);
   (28%nat, [Z.b2z (ExpertTriggerCalibration.resync_every_cycle c)]); (29%nat, [ExpertTriggerCalibration.skip_cycles c]);
   (30%nat, [code (ExpertTriggerCalibration.ignition_mode c)]); (31%nat, [code (ExpertTriggerCalibration.injection_layout c)]);
   (32%nat, [code (ExpertTriggerCalibration.fixed_timing_mode c)]);
   (33%nat, le16 (ExpertTriggerCalibration.fixed_timing_deg10 c))].

Definition expert_trigger_checksum_record (c : ExpertTriggerCalibration.t) : list Z :=
  let '(record, r) := encode_record (replicate EXPERT_TRIGGER_RECORD_LEN 0) c in
  if is_ok r then record else write_fields (bad_record_fields c) record.

Definition expert_of (c : Calibration.t) : ExpertTriggerCalibration.t := GeometryCalibration.expert_trigger (Calibration.geometry c).

Definition checksum_from_snapshot (schema_version : Z) (snapshot : CalibrationSnapshot.t) (staged_dirty : bool) : Z :=
  let active := CalibrationSnapshot.active snapshot in
  let staged := CalibrationSnapshot.staged snapshot in
  let state := crc32_init in
  let state := crc32_update state (le16 schema_version) in
  let state := crc32_update state (le32 (ActiveCalibration.revision active)) in
  let state := crc32_update state (le32 (StagedCalibration.base_revision staged)) in
  let state := crc32_update state (le32 (StagedCalibration.revision staged)) in
  let state := crc32_update state [Z.b2z staged_dirty; 0; 0; 0] in
  let state := crc32_update state (expert_trigger_checksum_record (expert_of (ActiveCalibration.calibration active))) in
  let state := crc32_update state (expert_trigger_checksum_record (expert_of (StagedCalibration.calibration staged))) in
  crc32_finish state.

(** ** Identities *)
Module PackageIdentity.
(** [CalibrationPackageIdentity] *)
Record t := mk {
  schema_version : Z; active_revision : Z; staged_base_revision : Z; staged_revision : Z; staged_dirty : bool; checksum : Z }.
#[global] Instance eq_dec : EqDecision t.
Proof. solve_decision. Defined.

Definition from_snapshot_with_staged_dirty (s : CalibrationSnapshot.t) (staged_dirty : bool) : t :=
  mk SCHEMA_CURRENT (ActiveCalibration.revision (CalibrationSnapshot.active s))
    (StagedCalibration.base_revision (CalibrationSnapshot.staged s)) (StagedCalibration.revision (CalibrationSnapshot.staged s))
    staged_dirty (checksum_from_snapshot SCHEMA_CURRENT s staged_dirty).
Definition from_snapshot (s : CalibrationSnapshot.t) : t :=
  from_snapshot_with_staged_dirty s (StagedCalibration.is_dirty (CalibrationSnapshot.staged s)).
Definition from_blob (blob : PersistedCalibrationBlob.t) : t :=
  let s := PersistedCalibrationBlob.snapshot blob in
  let dirty := StagedCalibration.is_dirty (CalibrationSnapshot.staged s) in
  mk (PersistedCalibrationBlob.schema_version blob) (ActiveCalibration.revision (CalibrationSnapshot.active s))
    (StagedCalibration.base_revision (CalibrationSnapshot.staged s)) (StagedCalibration.revision (CalibrationSnapshot.staged s))
    dirty (checksum_from_snapshot (PersistedCalibrationBlob.schema_version blob) s dirty).
End PackageIdentity.

Module Compatibility.
(** [CalibrationPackageCompatibility] *)
Inductive t :=
| Compatible
| SchemaVersionMismatch (expected actual : Z)
| RuntimeBuildMismatch (expected actual : Z)
| HardwareTargetMismatch (expected actual : Z).
End Compatibility.

Module TargetIdentity.
(** [CalibrationPackageTargetIdentity] *)
Record t := mk { package : PackageIdentity.t; runtime_build_id : Z; hardware_target_id : Z }.
#[global] Instance eq_dec : EqDecision t.
Proof. solve_decision. Defined.

Definition from_snapshot (s : CalibrationSnapshot.t) (build hw : Z) : t := mk (PackageIdentity.from_snapshot s) build hw.
Definition from_blob (blob : PersistedCalibrationBlob.t) (build hw : Z) : t := mk (PackageIdentity.from_blob blob) build hw.

Definition compatibility_with (build hw : Z) (i : t) : Compatibility.t :=
  let schema := PackageIdentity.schema_version (package i) in
  if negb (schema =? SCHEMA_CURRENT) then Compatibility.SchemaVersionMismatch SCHEMA_CURRENT schema
  else if negb (runtime_build_id i =? build) then Compatibility.RuntimeBuildMismatch build (runtime_build_id i)
  else if negb (hardware_target_id i =? hw) then Compatibility.HardwareTargetMismatch hw (hardware_target_id i)
  else Compatibility.Compatible.
End TargetIdentity.

(** ** Packages *)
Module MigrationStatus.
(** [CalibrationPackageMigrationStatus] *)
Inductive t := NoMigrationRequired | MigrationRequired (from to : Z).
End MigrationStatus.

Module PackageReview.
(** [CalibrationPackageReview] *)
Record t := mk { package : TargetIdentity.t; compatibility : Compatibility.t; migration : MigrationStatus.t }.
End PackageReview.

Module CompareResult.
(** [CalibrationPackageCompareResult] *)
Record t := mk {
  current : TargetIdentity.t; candidate : TargetIdentity.t; schema_changed : bool; checksum_changed : bool;
  runtime_build_changed : bool; hardware_target_changed : bool; active_revision_changed : bool;
  staged_base_revision_changed : bool; staged_revision_changed : bool; staged_dirty_changed : bool }.
Definition any_change (r : t) : bool :=
  schema_changed r || checksum_changed r || runtime_build_changed r || hardware_target_changed r
  || active_revision_changed r || staged_base_revision_changed r || staged_revision_changed r || staged_dirty_changed r.
End CompareResult.

Module WireError.
(** [CalibrationPackageWireError] *)
Inductive t :=
| WrongSize | BadMagic | NonCanonical | ActiveExpertTrigger (e : RecordError.t) | StagedExpertTrigger (e : RecordError.t).
End WireError.

Module Package.
(** [PersistedCalibrationPackage] *)
Record t := mk { blob : PersistedCalibrationBlob.t; identity : TargetIdentity.t }.
#[global] Instance eq_dec : EqDecision t.
Proof. solve_decision. Defined.

Definition WIRE_MAGIC : list Z := [80; 67; 80; 75].
Definition WIRE_LEN : nat := 4 + 4 + 2 + 2 + 4 + 4 + 4 + 1 + 3 + EXPERT_TRIGGER_RECORD_LEN * 2.

Definition new (blob : PersistedCalibrationBlob.t) (build hw : Z) : t := mk blob (TargetIdentity.from_blob blob build hw).

Definition schema (p : t) : Z := PackageIdentity.schema_version (TargetIdentity.package (identity p)).

Definition review_against (build hw : Z) (p : t) : PackageReview.t :=
  PackageReview.mk (identity p) (TargetIdentity.compatibility_with build hw (identity p))
    (if schema p =? SCHEMA_CURRENT then MigrationStatus.NoMigrationRequired
     else MigrationStatus.MigrationRequired (schema p) SCHEMA_CURRENT).

Definition compare_against (candidate p : t) : CompareResult.t :=
  let i := TargetIdentity.package (identity p) in
  let j := TargetIdentity.package (identity candidate) in
  CompareResult.mk (identity p) (identity candidate)
    (negb (PackageIdentity.schema_version i =? PackageIdentity.schema_version j))
    (negb (PackageIdentity.checksum i =? PackageIdentity.checksum j))
    (negb (TargetIdentity.runtime_build_id (identity p) =? TargetIdentity.runtime_build_id (identity candidate)))
    (negb (TargetIdentity.hardware_target_id (identity p) =? TargetIdentity.hardware_target_id (identity candidate)))
    (negb (PackageIdentity.active_revision i =? PackageIdentity.active_revision j))
    (negb (PackageIdentity.staged_base_revision i =? PackageIdentity.staged_base_revision j))
    (negb (PackageIdentity.staged_revision i =? PackageIdentity.staged_revision j))
    (negb (Bool.eqb (PackageIdentity.staged_dirty i) (PackageIdentity.staged_dirty j))).

Inductive migration_result :=
| Unchanged (review : PackageReview.t) (package : t)
| Migrated (review : PackageReview.t) (package : t)
| Rejected (review : PackageReview.t).

Definition migrate_against (build hw : Z) (p : t) : migration_result :=
  let review := review_against build hw p in
  if negb (TargetIdentity.runtime_build_id (identity p) =? build)
     || negb (TargetIdentity.hardware_target_id (identity p) =? hw) then Rejected review
  else if schema p =? SCHEMA_CURRENT then Unchanged review p
  else Migrated review (new (PersistedCalibrationBlob.new (PersistedCalibrationBlob.snapshot (blob p))) build hw).

(** *** Wire format *)
Definition header_fields (p : t) : list (nat * list Z) :=
  let s := PersistedCalibrationBlob.snapshot (blob p) in
  [(0%nat, WIRE_MAGIC); (4%nat, le32 (TargetIdentity.runtime_build_id (identity p)));
   (8%nat, le16 (TargetIdentity.hardware_target_id (identity p)));
   (10%nat, le16 (PersistedCalibrationBlob.schema_version (blob p)));
   (12%nat, le32 (ActiveCalibration.revision (CalibrationSnapshot.active s)));
   (16%nat, le32 (StagedCalibration.base_revision (CalibrationSnapshot.staged s)));
   (20%nat, le32 (StagedCalibration.revision (CalibrationSnapshot.staged s)));
   (24%nat, [Z.b2z (StagedCalibration.is_dirty (CalibrationSnapshot.staged s))])].

Definition active_start : nat := 28.
Definition staged_start : nat := active_start + EXPERT_TRIGGER_RECORD_LEN.

Definition active_expert (p : t) : ExpertTriggerCalibration.t :=
  expert_of (ActiveCalibration.calibration (CalibrationSnapshot.active (PersistedCalibrationBlob.snapshot (blob p)))).
Definition staged_expert (p : t) : ExpertTriggerCalibration.t :=
  expert_of (StagedCalibration.calibration (CalibrationSnapshot.staged (PersistedCalibrationBlob.snapshot (blob p)))).

(** [encode_record] into a sub-slice of the buffer. *)
Definition encode_record_at (off : nat) (out : list Z) (c : ExpertTriggerCalibration.t) : list Z * Result Z RecordError.t :=
  let '(record, r) := encode_record (slice off (off + EXPERT_TRIGGER_RECORD_LEN) out) c in (copy_at off record out, r).

Definition encode_wire (out : list Z) (p : t) : list Z * Result Z WireError.t :=
  if (length out <? WIRE_LEN)%nat then (out, Err WireError.WrongSize)
  else
    let out := write_fields (header_fields p) (copy_at 0 (replicate WIRE_LEN 0) out) in
    match encode_record_at active_start out (active_expert p) with
    | (out, Err e) => (out, Err (WireError.ActiveExpertTrigger e))
    | (out, Ok _) =>
      match encode_record_at staged_start out (staged_expert p) with
      | (out, Err e) => (out, Err (WireError.StagedExpertTrigger e))
      | (out, Ok _) => (out, Ok (Z.of_nat WIRE_LEN))
      end
    end.

Definition decode_wire (data : list Z) : Result t WireError.t :=
  if (length data <? WIRE_LEN)%nat then Err WireError.WrongSize
  else if negb (bool_decide (take 4 data = WIRE_MAGIC)) then Err WireError.BadMagic
  else if (1 <? get_byte 24 data) || negb (get_byte 25 data =? 0) || negb (get_byte 26 data =? 0) || negb (get_byte 27 data =? 0)
  then Err WireError.NonCanonical
  else
    match decode_record (slice active_start (active_start + EXPERT_TRIGGER_RECORD_LEN) data) with
    | Err e => Err (WireError.ActiveExpertTrigger e)
    | Ok active_expert =>
      match decode_record (slice staged_start (staged_start + EXPERT_TRIGGER_RECORD_LEN) data) with
      | Err e => Err (WireError.StagedExpertTrigger e)
      | Ok staged_expert =>
        let active := ActiveCalibration.new (rd_u32 data 12) (Calibration.set_expert_trigger active_expert Calibration.default) in
        let staged := StagedCalibration.mk (rd_u32 data 16) (rd_u32 data 20) (get_byte 24 data =? 1)
          (Calibration.set_expert_trigger staged_expert Calibration.default) in
        Ok (new (PersistedCalibrationBlob.mk (rd_u16 data 10) (rd_u32 data 12) (CalibrationSnapshot.mk active staged))
              (rd_u32 data 4) (rd_u16 data 8))
      end
    end.
End Package.

(** ** Activation *)
Module CalibrationClass.
Inductive t := NoChange | MetadataOnly | RuntimeSafe | RuntimeSensitive | SafetyCritical | Mixed.
End CalibrationClass.

Module CalibrationDiff.
Record t := mk { base_revision : Z; staged_revision : Z; class : CalibrationClass.t }.
Definition new := mk.
Definition from_views (active : ActiveCalibration.t) (staged : StagedCalibration.t) (class : CalibrationClass.t) : t :=
  new (ActiveCalibration.revision active) (StagedCalibration.revision staged) class.
End CalibrationDiff.

Module CommitVerdict.
Inductive t := AllowNow | Defer.
End CommitVerdict.

(** [CommitRules::evaluate] *)
Definition commit_rules_evaluate (policy : CommitPolicy.t) (diff : CalibrationDiff.t) (runtime_safe : bool) : CommitVerdict.t :=
  match policy with
  | CommitPolicy.Deferred => CommitVerdict.Defer
  | CommitPolicy.SafeOnly => if runtime_safe then CommitVerdict.AllowNow else CommitVerdict.Defer
  | CommitPolicy.Immediate =>
    match CalibrationDiff.class diff with
    | CalibrationClass.NoChange | CalibrationClass.MetadataOnly => CommitVerdict.AllowNow
    | CalibrationClass.RuntimeSafe | CalibrationClass.RuntimeSensitive
    | CalibrationClass.SafetyCritical | CalibrationClass.Mixed =>
      if runtime_safe then CommitVerdict.AllowNow else CommitVerdict.Defer
    end
  end.

(** ** Lemmas *)

(** *** The wire format as a list *)
Definition header_bytes (p : Package.t) : list Z :=
  let s := PersistedCalibrationBlob.snapshot (Package.blob p) in
  Package.WIRE_MAGIC ++ le32 (TargetIdentity.runtime_build_id (Package.identity p))
  ++ le16 (TargetIdentity.hardware_target_id (Package.identity p)) ++ le16 (PersistedCalibrationBlob.schema_version (Package.blob p))
  ++ le32 (ActiveCalibration.revision (CalibrationSnapshot.active s))
  ++ le32 (StagedCalibration.base_revision (CalibrationSnapshot.staged s))
  ++ le32 (StagedCalibration.revision (CalibrationSnapshot.staged s))
  ++ [Z.b2z (StagedCalibration.is_dirty (CalibrationSnapshot.staged s)); 0; 0; 0].

Definition wire_bytes (p : Package.t) : list Z :=
  header_bytes p ++ record_bytes (Package.active_expert p) ++ record_bytes (Package.staged_expert p).

(** A package as the constructors build it: from a blob whose revision is the active one,
    with fields of their width. *)
Definition package_wf (p : Package.t) : Prop :=
  let blob := Package.blob p in
  let s := PersistedCalibrationBlob.snapshot blob in
  p = Package.new blob (TargetIdentity.runtime_build_id (Package.identity p)) (TargetIdentity.hardware_target_id (Package.identity p))
  /\ PersistedCalibrationBlob.revision blob = ActiveCalibration.revision (CalibrationSnapshot.active s)
  /\ u32 (TargetIdentity.runtime_build_id (Package.identity p)) /\ u16 (TargetIdentity.hardware_target_id (Package.identity p))
  /\ u16 (PersistedCalibrationBlob.schema_version blob) /\ u32 (ActiveCalibration.revision (CalibrationSnapshot.active s))
  /\ u32 (StagedCalibration.base_revision (CalibrationSnapshot.staged s)) /\ u32 (StagedCalibration.revision (CalibrationSnapshot.staged s))
  /\ typed (Package.active_expert p) /\ typed (Package.staged_expert p).

Lemma header_bytes_length p : length (header_bytes p) = Package.active_start.
Proof. done. Qed.

Lemma wire_bytes_length p : length (wire_bytes p) = Package.WIRE_LEN.
Proof. unfold wire_bytes. by rewrite !length_app, !record_bytes_length. Qed.

Lemma encode_record_at_spec off pre mid rest c : length pre = off -> length mid = EXPERT_TRIGGER_RECORD_LEN ->
  Package.encode_record_at off (pre ++ mid ++ rest) c
  = match validate c with
    | Ok _ => (pre ++ record_bytes c ++ rest, Ok (Z.of_nat EXPERT_TRIGGER_RECORD_LEN))
    | Err e => (pre ++ mid ++ rest, Err (RecordError.InvalidCalibration e))
    end.
Proof.
  intros Hp Hm. unfold Package.encode_record_at. rewrite slice_app by (try lia; done).
  assert (forall r, length r = EXPERT_TRIGGER_RECORD_LEN -> copy_at off r (pre ++ mid ++ rest) = pre ++ r ++ rest) as Hcopy.
  { intros r Hr. unfold copy_at. rewrite <- Hp, take_app_length, Hr, <- Hm. f_equal. f_equal.
    rewrite app_assoc, drop_app_ge by (rewrite length_app; lia). rewrite length_app, Nat.sub_diag. done. }
  destruct (validate c) as [[]|e] eqn:Hv.
  - rewrite encode_record_ok by (done || lia). rewrite drop_ge, app_nil_r by lia. by rewrite Hcopy by apply record_bytes_length.
  - rewrite encode_record_err with (e := e) by done. by rewrite Hcopy.
Qed.

Lemma encode_wire_spec p out : (Package.WIRE_LEN <= length out)%nat ->
  let rest := drop Package.WIRE_LEN out in
  let zeros := replicate EXPERT_TRIGGER_RECORD_LEN 0 in
  Package.encode_wire out p =
  match validate (Package.active_expert p) with
  | Err e => (header_bytes p ++ zeros ++ zeros ++ rest, Err (WireError.ActiveExpertTrigger (RecordError.InvalidCalibration e)))
  | Ok _ =>
    match validate (Package.staged_expert p) with
    | Err e => (header_bytes p ++ record_bytes (Package.active_expert p) ++ zeros ++ rest,
                Err (WireError.StagedExpertTrigger (RecordError.InvalidCalibration e)))
    | Ok _ => (wire_bytes p ++ rest, Ok (Z.of_nat Package.WIRE_LEN))
    end
  end.
Proof.
  intros Hl. cbv zeta. unfold Package.encode_wire. destruct (Nat.ltb_spec (length out) Package.WIRE_LEN); [lia|].
  rewrite copy_at_0, length_replicate. set (rest := drop Package.WIRE_LEN out). set (zeros := replicate EXPERT_TRIGGER_RECORD_LEN 0).
  assert (write_fields (Package.header_fields p) (replicate Package.WIRE_LEN 0 ++ rest) = header_bytes p ++ zeros ++ zeros ++ rest)
    as -> by reflexivity.
  rewrite encode_record_at_spec by done. destruct (validate (Package.active_expert p)) as [[]|]; [|done].
  rewrite app_assoc, encode_record_at_spec by (done || (rewrite length_app, header_bytes_length, record_bytes_length; done)).
  destruct (validate (Package.staged_expert p)) as [[]|]; unfold wire_bytes; by rewrite <- !app_assoc.
Qed.

Lemma set_expert_default c : Calibration.set_expert_trigger (expert_of c) Calibration.default = c.
Proof. destruct c as [[] [] [] [] [] [] [] [] []]. reflexivity. Qed.

Lemma decode_wire_bytes p rest : package_wf p -> validate (Package.active_expert p) = Ok tt -> validate (Package.staged_expert p) = Ok tt ->
  Package.decode_wire (wire_bytes p ++ rest) = Ok p.
Proof.
  intros (Hnew & Hrev & Hbuild & Hhw & Hschema & Har & Hsb & Hsr & Hat & Hst) Hva Hvs. unfold Package.decode_wire.
  rewrite length_app, wire_bytes_length. destruct (Nat.ltb_spec (Package.WIRE_LEN + length rest) Package.WIRE_LEN); [lia|].
  assert (slice Package.active_start (Package.active_start + EXPERT_TRIGGER_RECORD_LEN) (wire_bytes p ++ rest) = record_bytes (Package.active_expert p)) as ->.
  { unfold wire_bytes. rewrite <- !app_assoc. apply slice_app; [done|by rewrite record_bytes_length]. }
  assert (slice Package.staged_start (Package.staged_start + EXPERT_TRIGGER_RECORD_LEN) (wire_bytes p ++ rest) = record_bytes (Package.staged_expert p)) as ->.
  { unfold wire_bytes. rewrite app_assoc, <- app_assoc. apply slice_app; [|by rewrite record_bytes_length].
    by rewrite length_app, record_bytes_length. }
  rewrite <- (app_nil_r (record_bytes (Package.active_expert p))), <- (app_nil_r (record_bytes (Package.staged_expert p))).
  rewrite !decode_record_bytes by done.
  destruct p as [[schema rev [[ar ac] [sb sr dirty sc]]] [pid build hw]]. cbn in Hnew, Hrev, Hbuild, Hhw, Hschema, Har, Hsb, Hsr.
  injection Hnew as Hpid. subst rev.
  unfold wire_bytes, header_bytes, rd_u32, rd_u16. cbn [app get_byte nth le16 le32 Nat.add Package.WIRE_MAGIC Package.blob
    Package.identity PersistedCalibrationBlob.snapshot PersistedCalibrationBlob.schema_version CalibrationSnapshot.active CalibrationSnapshot.staged
    ActiveCalibration.revision StagedCalibration.base_revision StagedCalibration.revision StagedCalibration.is_dirty
    StagedCalibration.dirty TargetIdentity.runtime_build_id TargetIdentity.hardware_target_id].
  repeat rewrite le32_value by done. repeat rewrite le16_value by done.
  assert ((1 <? Z.b2z dirty) = false) as -> by (by destruct dirty). assert ((Z.b2z dirty =? 1) = dirty) as -> by (by destruct dirty).
  rewrite bool_decide_true by done. cbn [negb orb Z.eqb]. unfold Package.active_expert, Package.staged_expert.
  cbn [Package.blob PersistedCalibrationBlob.snapshot CalibrationSnapshot.active CalibrationSnapshot.staged
    ActiveCalibration.calibration StagedCalibration.calibration].
  rewrite !set_expert_default. unfold Package.new, TargetIdentity.from_blob, ActiveCalibration.new. by rewrite Hpid.
Qed.

Lemma decode_wire_ok data p : bytes data -> Package.decode_wire data = Ok p ->
  package_wf p /\ validate (Package.active_expert p) = Ok tt /\ validate (Package.staged_expert p) = Ok tt
  /\ (Package.WIRE_LEN <= length data)%nat /\ take Package.WIRE_LEN data = wire_bytes p.
Proof.
  intros Hb. unfold Package.decode_wire. destruct (Nat.ltb_spec (length data) Package.WIRE_LEN) as [|Hl]; [done|].
  case_bool_decide as Hmagic; [|done]. cbn [negb].
  destruct (Z.ltb_spec 1 (get_byte 24 data)) as [|H24]; [done|].
  destruct (Z.eqb_spec (get_byte 25 data) 0) as [H25|]; [|done]. destruct (Z.eqb_spec (get_byte 26 data) 0) as [H26|]; [|done].
  destruct (Z.eqb_spec (get_byte 27 data) 0) as [H27|]; [|done]. cbn [negb orb].
  set (d1 := slice Package.active_start _ data). set (d2 := slice Package.staged_start _ data).
  destruct (decode_record d1) as [ae|] eqn:Ea; [|done]. destruct (decode_record d2) as [se|] eqn:Es; [|done].
  intros [= <-].
  apply decode_record_ok in Ea as (Hat & Hva & _ & Ea); [|by apply Forall_take, Forall_drop].
  apply decode_record_ok in Es as (Hst & Hvs & _ & Es); [|by apply Forall_take, Forall_drop].
  destruct (le32_rd data 4 Hb) as [? ?], (le16_rd data 8 Hb) as (? & ? & _), (le16_rd data 10 Hb) as (? & ? & _),
    (le32_rd data 12 Hb) as [? ?], (le32_rd data 16 Hb) as [? ?], (le32_rd data 20 Hb) as [? ?].
  split; [by split_and!|]. split; [done|]. split; [done|]. split; [done|].
  unfold wire_bytes. change (Package.active_expert _) with ae. change (Package.staged_expert _) with se. rewrite <- Ea, <- Es.
  unfold d1, d2, slice, EXPERT_TRIGGER_RECORD_LEN, Package.staged_start, Package.active_start, EXPERT_TRIGGER_RECORD_LEN.
  cbn [Nat.add Nat.sub]. rewrite !take_take.
  change Package.WIRE_LEN with (28 + (48 + 48))%nat. cbn [Nat.min].
  assert (take (28 + (48 + 48)) data = take 28 data ++ take 48 (drop 28 data) ++ take 48 (drop 76 data)) as ->.
  { rewrite <- (take_drop 28 data) at 1. rewrite take_app_ge by (rewrite length_take; lia).
    rewrite length_take. f_equal. rewrite Nat.min_l by (unfold Package.WIRE_LEN, EXPERT_TRIGGER_RECORD_LEN in Hl; lia).
    replace (28 + (48 + 48) - 28)%nat with (48 + 48)%nat by lia.
    rewrite <- (take_drop 48 (drop 28 data)) at 1. rewrite drop_drop.
    rewrite take_app_ge by (rewrite length_take; lia). rewrite length_take, length_drop.
    rewrite Nat.min_l by (unfold Package.WIRE_LEN, EXPERT_TRIGGER_RECORD_LEN in Hl; lia). done. }
  f_equal. rewrite take_get_bytes by (unfold Package.WIRE_LEN, EXPERT_TRIGGER_RECORD_LEN in Hl; lia).
  unfold header_bytes. cbn [Package.new Package.blob Package.identity TargetIdentity.from_blob TargetIdentity.runtime_build_id
    TargetIdentity.hardware_target_id PersistedCalibrationBlob.snapshot PersistedCalibrationBlob.schema_version CalibrationSnapshot.active
    CalibrationSnapshot.staged ActiveCalibration.revision ActiveCalibration.new StagedCalibration.base_revision StagedCalibration.revision
    StagedCalibration.is_dirty StagedCalibration.dirty].
  repeat match goal with H : le16 _ = _ |- _ => rewrite H end. repeat match goal with H : le32 _ = _ |- _ => rewrite H end.
  pose proof (get_byte_range 24 data Hb). unfold byte in *.
  assert (Z.b2z (get_byte 24 data =? 1) = get_byte 24 data) as -> by (destruct (Z.eqb_spec (get_byte 24 data) 1); cbn; lia).
  rewrite take_get_bytes in Hmagic by (unfold Package.WIRE_LEN, EXPERT_TRIGGER_RECORD_LEN in Hl; lia).
  rewrite <- Hmagic. cbn [seq map app Nat.add]. by rewrite H25, H26, H27.
Qed.

(** *** The checksum detects a changed byte *)
Lemma land_1 z : Z.land z 1 = z mod 2.
Proof. change 1 with (Z.ones 1) at 1. by rewrite Z.land_ones. Qed.

Lemma crc32_bit_high x : u32 x -> u32 (crc32_bit x) /\ Z.testbit (crc32_bit x) 31 = Z.odd x.
Proof.
  intros Hx. unfold crc32_bit. rewrite land_1, Z.shiftr_div_pow2 by lia. change (2 ^ 1) with 2.
  unfold fits in *. assert (0 <= x / 2 < 2 ^ 31) as Hh by (change (2 ^ 31) with 2147483648; change (2 ^ 32) with 4294967296 in Hx; Z.to_euclidean_division_equations; lia).
  assert (Z.testbit (x / 2) 31 = false) as Hb.
  { rewrite Z.testbit_eqb by lia. rewrite Z.div_small by lia. done. }
  rewrite Zmod_odd. destruct (Z.odd x); cbn [Z.eqb Pos.eqb].
  - rewrite Z.lxor_spec, Hb. split; [|done]. split; [by apply Z.lxor_nonneg; split; intros; lia|].
    apply Z.log2_lt_cancel. change (Z.log2 (2 ^ 32)) with 32.
    eapply Z.le_lt_trans; [apply Z.log2_lxor; lia|]. change (Z.log2 0xedb88320) with 31.
    apply Z.max_lub_lt; [|lia]. destruct (Z.eq_dec (x / 2) 0) as [->|]; [done|].
    apply Z.log2_lt_pow2; [lia|]. change (2 ^ 32) with 4294967296. change (2 ^ 31) with 2147483648 in Hh. lia.
  - split; [|done]. change (2 ^ 32) with 4294967296. change (2 ^ 31) with 2147483648 in Hh. lia.
Qed.

Lemma crc32_bit_inj x y : u32 x -> u32 y -> crc32_bit x = crc32_bit y -> x = y.
Proof.
  intros Hx Hy E. pose proof (crc32_bit_high x Hx) as [_ Hox]. pose proof (crc32_bit_high y Hy) as [_ Hoy].
  rewrite E, Hoy in Hox. revert E. unfold crc32_bit.
  rewrite !land_1, !Zmod_odd, <- Hox, !Z.shiftr_div_pow2 by lia. change (2 ^ 1) with 2.
  pose proof (Z.div_mod x 2 ltac:(lia)) as Dx. pose proof (Z.div_mod y 2 ltac:(lia)) as Dy.
  rewrite Zmod_odd, <- Hox in Dx. rewrite Zmod_odd in Dy.
  destruct (Z.odd y); cbn [Z.eqb Pos.eqb]; intros E; [|lia].
  apply (f_equal (fun z => Z.lxor z 0xedb88320)) in E. rewrite !Z.lxor_assoc, Z.lxor_nilpotent, !Z.lxor_0_r in E. lia.
Qed.

Lemma crc32_iter n x : u32 x -> u32 (Nat.iter n crc32_bit x).
Proof. intros Hx. induction n as [|n IH]; [done|]. by apply crc32_bit_high. Qed.

Lemma crc32_iter_inj n x y : u32 x -> u32 y -> Nat.iter n crc32_bit x = Nat.iter n crc32_bit y -> x = y.
Proof. intros Hx Hy. induction n as [|n IH]; [done|]. intros E. apply IH, crc32_bit_inj; [by apply crc32_iter..|done]. Qed.

Lemma lxor_byte s b : u32 s -> byte b -> u32 (Z.lxor s b).
Proof.
  unfold fits, byte. intros Hs Hb. split; [by apply Z.lxor_nonneg; split; intros; lia|].
  destruct (Z.eq_dec (Z.lxor s b) 0) as [->|]; [done|]. assert (0 <= Z.lxor s b) by (apply Z.lxor_nonneg; split; intros; lia).
  apply Z.log2_lt_cancel. change (Z.log2 (2 ^ 32)) with 32. eapply Z.le_lt_trans; [apply Z.log2_lxor; lia|].
  apply Z.max_lub_lt.
  - destruct (Z.eq_dec s 0) as [->|]; [done|]. apply Z.log2_lt_pow2; lia.
  - destruct (Z.eq_dec b 0) as [->|]; [done|]. apply Z.log2_lt_pow2; [lia|]. change (2 ^ 32) with 4294967296. lia.
Qed.

Lemma crc32_byte_fits s b : u32 s -> byte b -> u32 (crc32_byte s b).
Proof. intros Hs Hb. by apply crc32_iter, lxor_byte. Qed.

Lemma lxor_cancel_l s a b : Z.lxor s a = Z.lxor s b -> a = b.
Proof. intros E. apply (f_equal (Z.lxor s)) in E. by rewrite <- !Z.lxor_assoc, Z.lxor_nilpotent, !Z.lxor_0_l in E. Qed.

Lemma crc32_update_fits data s : bytes data -> u32 s -> u32 (crc32_update s data).
Proof. intros H. revert s. induction H as [|b data Hb _ IH]; intros s Hs; [done|]. by apply IH, crc32_byte_fits. Qed.

Lemma crc32_update_inj data s s' : bytes data -> u32 s -> u32 s' -> crc32_update s data = crc32_update s' data -> s = s'.
Proof.
  intros H. revert s s'. induction H as [|b data Hb _ IH]; intros s s' Hs Hs' E; [done|].
  apply IH, crc32_iter_inj in E; [|by try apply crc32_byte_fits; try apply lxor_byte..].
  rewrite (Z.lxor_comm s), (Z.lxor_comm s') in E. by apply lxor_cancel_l in E.
Qed.

Lemma crc32_update_app s a b : crc32_update s (a ++ b) = crc32_update (crc32_update s a) b.
Proof. apply fold_left_app. Qed.

Lemma crc32_detects_byte pre post b b' s : bytes pre -> bytes post -> byte b -> byte b' -> u32 s -> b <> b' ->
  crc32_update s (pre ++ b :: post) <> crc32_update s (pre ++ b' :: post).
Proof.
  intros Hpre Hpost Hb Hb' Hs Hne E. rewrite !crc32_update_app in E. cbn [crc32_update fold_left] in E.
  pose proof (crc32_update_fits pre s Hpre Hs) as Hm. apply (crc32_update_inj post) in E; [|done|by apply crc32_byte_fits..].
  apply crc32_iter_inj in E; [|by apply lxor_byte..]. by apply lxor_cancel_l in E.
Qed.

(** The bytes the checksum is taken over. *)
Definition checksum_payload (schema_version : Z) (s : CalibrationSnapshot.t) (staged_dirty : bool) : list Z :=
  le16 schema_version ++ le32 (ActiveCalibration.revision (CalibrationSnapshot.active s))
  ++ le32 (StagedCalibration.base_revision (CalibrationSnapshot.staged s))
  ++ le32 (StagedCalibration.revision (CalibrationSnapshot.staged s)) ++ [Z.b2z staged_dirty; 0; 0; 0]
  ++ expert_trigger_checksum_record (expert_of (ActiveCalibration.calibration (CalibrationSnapshot.active s)))
  ++ expert_trigger_checksum_record (expert_of (StagedCalibration.calibration (CalibrationSnapshot.staged s))).

Lemma checksum_payload_ok schema s dirty :
  checksum_from_snapshot schema s dirty = crc32_finish (crc32_update crc32_init (checksum_payload schema s dirty)).
Proof. unfold checksum_payload. by rewrite !crc32_update_app. Qed.

Lemma crc32_finish_inj x y : crc32_finish x = crc32_finish y -> x = y.
Proof. unfold crc32_finish. rewrite (Z.lxor_comm x), (Z.lxor_comm y). apply lxor_cancel_l. Qed.

Lemma payload_bytes schema s dirty : typed (expert_of (ActiveCalibration.calibration (CalibrationSnapshot.active s))) ->
  typed (expert_of (StagedCalibration.calibration (CalibrationSnapshot.staged s))) -> bytes (checksum_payload schema s dirty).
Proof.
  intros Ha Hs.
  assert (forall c, typed c -> bytes (expert_trigger_checksum_record c)) as Hrec.
  { intros c Hc. unfold expert_trigger_checksum_record. destruct (validate c) as [[]|e] eqn:Hv.
    - rewrite encode_record_ok by (done || rewrite length_replicate; lia). cbn [is_ok].
      apply Forall_app_2; [by apply record_bytes_bytes|]. by apply Forall_drop, Forall_replicate.
    - rewrite (encode_record_err _ _ e) by done. cbn [is_ok].
      destruct c, Hc as (? & ? & ? & ? & ? & ? & ? & ? & ?). assert (byte (Z.b2z resync_every_cycle)) by (by destruct resync_every_cycle).
      cbn [write_fields bad_record_fields fold_left].
      assert (forall out fields, bytes out -> Forall (fun '(_, src) => bytes src) fields -> bytes (write_fields fields out)) as Hw.
      { intros out fields. revert out. induction fields as [|[off src] fields IH]; intros out Ho Hf; [done|].
        apply Forall_cons in Hf as [Hsrc Hf]. apply IH; [|done]. unfold copy_at.
        by apply Forall_app_2; [apply Forall_take|apply Forall_app_2; [|apply Forall_drop]]. }
      apply (Hw (replicate EXPERT_TRIGGER_RECORD_LEN 0) (bad_record_fields _)); [by apply Forall_replicate|].
      repeat (apply Forall_cons_2; [first [apply le16_bytes | apply le32_bytes | (apply Forall_singleton; first [apply code_byte | done])
        | by repeat (apply Forall_cons_2; [done|])]|]). done. }
  unfold checksum_payload. assert (bytes [Z.b2z dirty; 0; 0; 0]) by (destruct dirty; by repeat (apply Forall_cons_2; [done|])).
  repeat (apply Forall_app_2; [first [apply le16_bytes | apply le32_bytes | done | by apply Hrec]|]). by apply Hrec.
Qed.

Lemma payload_split schema s dirty : exists pre post, length pre = 14%nat /\
  checksum_payload schema s dirty = pre ++ Z.b2z dirty :: post
  /\ checksum_payload schema s (negb dirty) = pre ++ Z.b2z (negb dirty) :: post.
Proof.
  exists (le16 schema ++ le32 (ActiveCalibration.revision (CalibrationSnapshot.active s))
    ++ le32 (StagedCalibration.base_revision (CalibrationSnapshot.staged s))
    ++ le32 (StagedCalibration.revision (CalibrationSnapshot.staged s))). eexists. split; [done|].
  unfold checksum_payload. rewrite <- !app_assoc. done.
Qed.

(** *** Edits of the staged calibration *)
Definition edits_run (s : StagedCalibration.t) (cs : list Calibration.t) : StagedCalibration.t :=
  fold_left (fun s c => StagedCalibration.replace_calibration c s) cs s.

(** How often the calibration changes along a list of replacements. *)
Fixpoint changes (current : Calibration.t) (cs : list Calibration.t) : Z :=
  match cs with
  | [] => 0
  | c :: cs => (if bool_decide (current = c) then 0 else 1) + changes c cs
  end.

Lemma changes_nonneg c cs : 0 <= changes c cs.
Proof. revert c. induction cs as [|d cs IH]; intros c; cbn; [lia|]. specialize (IH d). case_bool_decide; lia. Qed.

(** The revision counts the changes, up to its largest value; the calibration is dirty
    once one was made. *)
Lemma staged_revision_counts s cs : u32 (StagedCalibration.revision s) ->
  let s' := edits_run s cs in
  let n := changes (StagedCalibration.calibration s) cs in
  StagedCalibration.revision s' = Z.min (StagedCalibration.revision s + n) u32_max
  /\ StagedCalibration.dirty s' = StagedCalibration.dirty s || (0 <? n)
  /\ StagedCalibration.base_revision s' = StagedCalibration.base_revision s
  /\ StagedCalibration.calibration s' = default (StagedCalibration.calibration s) (last cs).
Proof.
  cbv zeta. unfold fits, u32_max. change (2 ^ 32) with 4294967296. revert s.
  induction cs as [|c cs IH]; intros s Hs; cbn [edits_run fold_left changes].
  { rewrite orb_false_r. split_and!; [lia|done..]. }
  change (fold_left _ cs ?x) with (edits_run x cs).
  pose proof (changes_nonneg c cs) as Hn. unfold StagedCalibration.replace_calibration.
  destruct (bool_decide_reflect (StagedCalibration.calibration s = c)) as [<-|Hne]; cbn [negb].
  - destruct (IH s Hs) as (-> & -> & -> & ->). split; [f_equal; lia|]. split; [done|]. split; [done|]. rewrite last_cons. by destruct (last cs).
  - set (s1 := StagedCalibration.mark_dirty _).
    assert (StagedCalibration.revision s1 = Z.min (StagedCalibration.revision s + 1) 4294967295) as E by done.
    destruct (IH s1) as (-> & -> & -> & ->); [rewrite E; lia|]. rewrite E. split; [change (StagedCalibration.calibration s1) with c; lia|].
    split; [change (StagedCalibration.dirty s1) with true; rewrite orb_true_l; by rewrite (proj2 (Z.ltb_lt 0 _)), orb_true_r by lia|]. split; [done|]. rewrite last_cons. by destruct (last cs).
Qed.

(** ** Theorems *)

(** the wire format and the package determine each other: a package whose trigger
    setups are valid is written over the first 124 bytes of a buffer and reads back as
    itself, identity included; an invalid setup is refused by name, with the header already
    written; a short buffer is refused untouched; and every buffer that decodes holds the
    encoding of what it decodes to. *)
Theorem package_wire_bijective :
  (forall p out, package_wf p -> (Package.WIRE_LEN <= length out)%nat ->
    exists out', drop Package.WIRE_LEN out' = drop Package.WIRE_LEN out /\ length out' = length out
    /\ Package.encode_wire out p = (out',
         match validate (Package.active_expert p), validate (Package.staged_expert p) with
         | Ok _, Ok _ => Ok (Z.of_nat Package.WIRE_LEN)
         | Ok _, Err e => Err (WireError.StagedExpertTrigger (RecordError.InvalidCalibration e))
         | Err e, _ => Err (WireError.ActiveExpertTrigger (RecordError.InvalidCalibration e))
         end)
    /\ (validate (Package.active_expert p) = Ok tt -> validate (Package.staged_expert p) = Ok tt ->
        Package.decode_wire out' = Ok p))
  /\ (forall p out, (length out < Package.WIRE_LEN)%nat ->
      Package.encode_wire out p = (out, Err WireError.WrongSize) /\ Package.decode_wire out = Err WireError.WrongSize)
  /\ (forall data p, bytes data -> Package.decode_wire data = Ok p ->
      package_wf p /\ Package.encode_wire data p = (data, Ok (Z.of_nat Package.WIRE_LEN))).
Proof.
  split; [|split].
  - intros p out Hp Hl. pose proof (encode_wire_spec p out Hl) as E. cbv zeta in E. rewrite E.
    assert (forall l, length l = Package.WIRE_LEN -> drop Package.WIRE_LEN (l ++ drop Package.WIRE_LEN out) = drop Package.WIRE_LEN out
      /\ length (l ++ drop Package.WIRE_LEN out) = length out) as Hkeep.
    { intros l El. rewrite drop_app_ge, El, Nat.sub_diag by lia. split; [done|]. rewrite length_app, length_drop. lia. }
    destruct (validate (Package.active_expert p)) as [[]|] eqn:Ea; [destruct (validate (Package.staged_expert p)) as [[]|] eqn:Es|].
    + exists (wire_bytes p ++ drop Package.WIRE_LEN out). destruct (Hkeep (wire_bytes p) (wire_bytes_length p)) as [-> ->].
      split; [done|]. split; [done|]. split; [done|]. intros _ _. by apply decode_wire_bytes.
    + eexists. rewrite !app_assoc. edestruct Hkeep as [H1 H2]; [|split; [exact H1|split; [exact H2|done]]].
      by rewrite !length_app, record_bytes_length.
    + eexists. rewrite !app_assoc. edestruct Hkeep as [H1 H2]; [|split; [exact H1|split; [exact H2|done]]]. done.
  - intros p out Hl. apply Nat.ltb_lt in Hl. unfold Package.encode_wire, Package.decode_wire. by rewrite Hl.
  - intros data p Hb Hd. destruct (decode_wire_ok data p Hb Hd) as (Hp & Ha & Hs & Hl & E). split; [done|].
    rewrite encode_wire_spec, Ha, Hs, <- E, take_drop by done. done.
Qed.

(** a change confined to one byte of what the checksum is taken over changes the
    checksum; in particular an identity and the same identity with the staged calibration
    marked the other way never share a checksum. *)
Theorem checksum_detects_byte schema schema' s s' dirty dirty' :
  let payload := checksum_payload schema s dirty in
  let payload' := checksum_payload schema' s' dirty' in
  typed (expert_of (ActiveCalibration.calibration (CalibrationSnapshot.active s))) ->
  typed (expert_of (StagedCalibration.calibration (CalibrationSnapshot.staged s))) ->
  (forall pre post b b', payload = pre ++ b :: post -> payload' = pre ++ b' :: post -> byte b' -> b <> b' ->
    checksum_from_snapshot schema s dirty <> checksum_from_snapshot schema' s' dirty')
  /\ checksum_from_snapshot schema s dirty <> checksum_from_snapshot schema s (negb dirty).
Proof.
  intros payload payload' Ha Hs. pose proof (payload_bytes schema s dirty Ha Hs) as Hb. fold payload in Hb.
  assert (u32 crc32_init) by done.
  assert (forall p pre post b b', payload = pre ++ b :: post -> p = pre ++ b' :: post -> byte b' -> b <> b' ->
    crc32_update crc32_init payload <> crc32_update crc32_init p) as Hdet.
  { intros p pre post b b' E -> Hb' Hne. rewrite E in Hb |- *. apply Forall_app in Hb as [? [? ?]%Forall_cons]. by apply crc32_detects_byte. }
  rewrite !checksum_payload_ok. split.
  - intros pre post b b' E E' Hb' Hne Heq%crc32_finish_inj. exact (Hdet _ pre post b b' E E' Hb' Hne Heq).
  - intros Heq%crc32_finish_inj. destruct (payload_split schema s dirty) as (pre & post & _ & E & E').
    refine (Hdet _ pre post _ _ E E' _ _ Heq); clear; [by destruct dirty|by destruct dirty].
Qed.

(** a migration is refused exactly when the package is bound to another firmware
    build or hardware target; otherwise what comes back keeps the calibration, is bound to
    the requested target and reviews as compatible, and it is the package itself unless its
    schema was old.  A package compares as unchanged with another only if the two have the
    same identity. *)
Theorem package_migration_sound build hw p q :
  TargetIdentity.package (Package.identity p) = PackageIdentity.from_blob (Package.blob p) ->
  (match Package.migrate_against build hw p with
   | Package.Rejected review => review = Package.review_against build hw p
       /\ (TargetIdentity.runtime_build_id (Package.identity p) <> build \/ TargetIdentity.hardware_target_id (Package.identity p) <> hw)
   | Package.Unchanged review p' => review = Package.review_against build hw p /\ p' = p
       /\ PackageReview.compatibility review = Compatibility.Compatible
       /\ PackageReview.migration review = MigrationStatus.NoMigrationRequired
   | Package.Migrated review p' => review = Package.review_against build hw p
       /\ PackageReview.migration review = MigrationStatus.MigrationRequired (Package.schema p) SCHEMA_CURRENT
       /\ PersistedCalibrationBlob.snapshot (Package.blob p') = PersistedCalibrationBlob.snapshot (Package.blob p)
       /\ PackageReview.compatibility (Package.review_against build hw p') = Compatibility.Compatible
       /\ PackageReview.migration (Package.review_against build hw p') = MigrationStatus.NoMigrationRequired
       /\ p' = Package.new (Package.blob p') build hw /\ Package.schema p <> SCHEMA_CURRENT
   end)
  /\ (CompareResult.any_change (Package.compare_against q p) = false <-> Package.identity p = Package.identity q).
Proof.
  intros Hid. split.
  - unfold Package.migrate_against, Package.review_against, TargetIdentity.compatibility_with. fold (Package.schema p).
    destruct (Z.eqb_spec (TargetIdentity.runtime_build_id (Package.identity p)) build) as [Hb|]; cbn [negb orb]; [|auto].
    destruct (Z.eqb_spec (TargetIdentity.hardware_target_id (Package.identity p)) hw) as [Hh|]; cbn [negb orb]; [|auto].
    destruct (Z.eqb_spec (Package.schema p) SCHEMA_CURRENT); [done|].
    split; [done|]. split; [done|]. split; [done|]. unfold Package.new, Package.schema. cbn. by rewrite !Z.eqb_refl.
  - unfold CompareResult.any_change, Package.compare_against. cbn. rewrite !orb_false_iff, !negb_false_iff, !Z.eqb_eq, eqb_true_iff.
    destruct (Package.identity p) as [[] ? ?], (Package.identity q) as [[] ? ?]. cbn. split; [intros; destruct_and!; congruence|].
    intros [= -> -> -> -> -> -> -> ->]. done.
Qed.

(** ** Examples *)
Definition sample_package : Package.t :=
  Package.new (PersistedCalibrationBlob.new (CalibrationSnapshot.mk
    (ActiveCalibration.new 3 (Calibration.set_expert_trigger sample_manual Calibration.default))
    (StagedCalibration.mk 3 4 true Calibration.default))) 17 4.

Lemma sample_manual_typed : typed sample_manual.
Proof. by repeat split. Qed.

Lemma sample_package_wf : package_wf sample_package.
Proof.
  split; [reflexivity|]. split; [reflexivity|]. do 6 (split; [by split|]). split; [exact sample_manual_typed|exact default_typed].
Qed.

Lemma package_wire_bijective_witness :
  exists out', Package.encode_wire (replicate 130 7) sample_package = (out', Ok 124)
  /\ Package.decode_wire out' = Ok sample_package.
Proof.
  destruct package_wire_bijective as (H & _ & _).
  assert (Package.WIRE_LEN <= length (replicate 130 7))%nat as Hl by (rewrite length_replicate; unfold Package.WIRE_LEN, EXPERT_TRIGGER_RECORD_LEN; lia).
  destruct (H sample_package (replicate 130 7) sample_package_wf Hl) as (out' & _ & _ & E & Hd). exists out'.
  assert (validate (Package.active_expert sample_package) = Ok tt) as Ha by reflexivity.
  assert (validate (Package.staged_expert sample_package) = Ok tt) as Hs by reflexivity.
  rewrite Ha, Hs in E. split; [exact E|]. exact (Hd Ha Hs).
Defined.

Lemma checksum_detects_byte_witness :
  checksum_from_snapshot 1 (PersistedCalibrationBlob.snapshot (Package.blob sample_package)) true
  <> checksum_from_snapshot 1 (PersistedCalibrationBlob.snapshot (Package.blob sample_package)) false.
Proof.
  destruct (checksum_detects_byte 1 1 (PersistedCalibrationBlob.snapshot (Package.blob sample_package))
    (PersistedCalibrationBlob.snapshot (Package.blob sample_package)) true true sample_manual_typed default_typed) as [_ H]. exact H.
Defined.

(** Another build is refused; an old schema is migrated. *)
Lemma package_migration_sound_witness :
  (exists review, Package.migrate_against 18 4 sample_package = Package.Rejected review)
  /\ exists review p', Package.migrate_against 17 4
       (Package.new (PersistedCalibrationBlob.mk 0 3 (PersistedCalibrationBlob.snapshot (Package.blob sample_package))) 17 4)
     = Package.Migrated review p' /\ PackageReview.compatibility (Package.review_against 17 4 p') = Compatibility.Compatible.
Proof.
  split; [eexists; reflexivity|].
  pose proof (package_migration_sound 17 4
    (Package.new (PersistedCalibrationBlob.mk 0 3 (PersistedCalibrationBlob.snapshot (Package.blob sample_package))) 17 4)
    sample_package eq_refl) as [H _].
  eexists _, _. split; [reflexivity|]. cbn [Package.migrate_against] in H. exact (proj1 (proj2 (proj2 (proj2 H)))).
Defined.
