(* ===== verification/Engine.v ===== *)
(** * The runtime engine: state and control (crates/runtime/src: observations.rs, engine.rs,
    engine/config.rs, engine/control.rs; crates/control/src/types.rs)

    The state the runtime owns, what configures it, and how one control step is composed:
    the selected fuel strategy, enrichment, lambda trim, torque and ignition.  An overflow
    that a checked build stops at is [None].  [StrategyInput], [StrategyObservations] and
    [FuelIntent] are the [FuelInputSnapshot], [FuelObservations] and [FuelIntent] of the
    control crate. *)
From S2P Require Import Prelude Domain Semantic SemanticFuel SemanticSchedule Control.
From S2P Require Import ExpertTrigger Calibration BoardApi SchedTypes Queue SchedState Scheduler.

(** ** Vocabulary of the fuel strategies (control/src/types.rs) *)
Module FuelLoadSource.
Inductive t := Map | Tps.
End FuelLoadSource.

Module FuelEngineMode.
Inductive t := Off | Cranking | Running | Shutdown.
#[global] Instance eq_dec : EqDecision t.
Proof. solve_decision. Defined.
End FuelEngineMode.

Module FuelAfrOverride.
Inductive t := None_ | Some_ (v : Z).
End FuelAfrOverride.

Module FuelStartupWindowMode.
Inductive t := Inactive | Milliseconds.
End FuelStartupWindowMode.

Module FuelAfterstartWindowMode.
Inductive t := Inactive | Milliseconds | Cycles.
End FuelAfterstartWindowMode.

Module StrategyInput.
Record t := mk {
  now_us : Z; rpm : Z; map_kpa10 : Z; load_kpa10 : Z; tps_x100 : Z; knock_intensity_x100 : Z; maf_x100 : Z;
  clt_c10 : Z; iat_c10 : Z; baro_kpa10 : Z; vbatt_mv : Z; maf_valid : bool; lambda_valid : bool;
  lambda_measured : Z; requested_open_loop : bool; baro_valid : bool; sync : SyncState.t;
  mode : FuelEngineMode.t; launch_armed : bool; flat_shift_armed : bool; fuel_cut_request : bool;
  spark_cut_request : bool; target_afr_override_x100 : FuelAfrOverride.t }.
End StrategyInput.

Module StrategyObservations.
Record t := mk {
  ve_pct_x100 : option Z; target_afr_x100 : option Z; pw_base_us : Z; pw_air_us : option Z; pw_corr_us : Z;
  warmup_active : bool; warmup_correction_x100 : Z; warmup_temperature_mode : FuelWarmupTemperatureMode.t;
  startup_active : bool; startup_window_remaining : Z; startup_window_mode : FuelStartupWindowMode.t;
  afterstart_active : bool; afterstart_window_remaining : Z; afterstart_window_mode : FuelAfterstartWindowMode.t;
  lambda_ae_freeze_active : bool; ae_pulse_us : Z; ae_decay_steps_remaining : Z;
  lambda_correction_x1000 : Z; lambda_integrator_acc : Z; lambda_integrator_min_acc : Z;
  lambda_integrator_max_acc : Z; lambda_integrator_frozen : bool;
  idle_active : bool; idle_duty_x1000 : Z; idle_integrator_acc : Z; idle_integrator_min_acc : Z;
  idle_integrator_max_acc : Z; idle_integrator_frozen : bool;
  advance_deg10_trim : Z; strategy_is_direct_pw : bool }.
#[global] Instance eta : Eta t := fun o =>
  mk (ve_pct_x100 o) (target_afr_x100 o) (pw_base_us o) (pw_air_us o) (pw_corr_us o) (warmup_active o)
    (warmup_correction_x100 o) (warmup_temperature_mode o) (startup_active o) (startup_window_remaining o)
    (startup_window_mode o) (afterstart_active o) (afterstart_window_remaining o) (afterstart_window_mode o)
    (lambda_ae_freeze_active o) (ae_pulse_us o) (ae_decay_steps_remaining o) (lambda_correction_x1000 o)
    (lambda_integrator_acc o) (lambda_integrator_min_acc o) (lambda_integrator_max_acc o)
    (lambda_integrator_frozen o) (idle_active o) (idle_duty_x1000 o) (idle_integrator_acc o)
    (idle_integrator_min_acc o) (idle_integrator_max_acc o) (idle_integrator_frozen o) (advance_deg10_trim o)
    (strategy_is_direct_pw o).
End StrategyObservations.

Module FuelIntent.
Record t := mk {
  pulse_width_us : Z; target_angle_deg10 : Z; fuel_cut : bool; spark_cut : bool;
  observations : StrategyObservations.t }.
#[global] Instance eta : Eta t := fun i =>
  mk (pulse_width_us i) (target_angle_deg10 i) (fuel_cut i) (spark_cut i) (observations i).
End FuelIntent.

(** ** State (observations.rs, engine.rs) *)
Module EngineState.
Record t := mk {
  sync : SyncState.t; engine_time_authority : EngineTimeAuthority.t; phase : EnginePhase.t; mode : ControlMode.t;
  rpm : Z; load_kpa10 : Z; angle_x10 : Z }.
#[global] Instance eta : Eta t := fun e =>
  mk (sync e) (engine_time_authority e) (phase e) (mode e) (rpm e) (load_kpa10 e) (angle_x10 e).
Definition initial : t :=
  mk SyncState.Unsynced EngineTimeAuthority.none EnginePhase.Off ControlMode.OpenLoop 0 0 0.
End EngineState.

Module ControlState.
Record t := mk { fuel_pulse_width : Z; ignition_advance : Z; dwell : Z; lambda_target : Z; torque_limit_x100 : Z }.
Definition initial : t := mk 0 0 0 100 100.
End ControlState.

Module FaultState.
Record t := mk { fault : FaultCode.t; severity : FaultSeverity.t; cancel_reason : CancelReason.t }.
Definition initial : t := mk FaultCode.None FaultSeverity.Info CancelReason.Manual.
End FaultState.

Module CalibrationState.
Record t := mk { active : CalibrationSnapshot.t; staged_dirty : bool }.
#[global] Instance eta : Eta t := fun c => mk (active c) (staged_dirty c).
Definition initial : t := mk CalibrationSnapshot.default false.
End CalibrationState.

Module RuntimeFuelStrategy.
Inductive t :=
| DirectPulseWidthTable (fuel_model : BaseFuelModel.t)
| SpeedDensityVe (calibration : SemanticFuel.Calibration.t) (state : FuelState.t)
| AlphaN (calibration : SemanticFuel.Calibration.t) (state : FuelState.t)
| Maf (calibration : SemanticFuel.Calibration.t) (state : FuelState.t).
Definition default : t := DirectPulseWidthTable BaseFuelModel.default.
End RuntimeFuelStrategy.

Module RuntimeFuelStrategyMode.
Inductive t := DirectPulseWidthTable | SpeedDensityVe | AlphaN | Maf.
End RuntimeFuelStrategyMode.

Definition runtime_fuel_strategy_mode (s : RuntimeFuelStrategy.t) : RuntimeFuelStrategyMode.t :=
  match s with
  | RuntimeFuelStrategy.DirectPulseWidthTable _ => RuntimeFuelStrategyMode.DirectPulseWidthTable
  | RuntimeFuelStrategy.SpeedDensityVe _ _ => RuntimeFuelStrategyMode.SpeedDensityVe
  | RuntimeFuelStrategy.AlphaN _ _ => RuntimeFuelStrategyMode.AlphaN
  | RuntimeFuelStrategy.Maf _ _ => RuntimeFuelStrategyMode.Maf
  end.

Module ControlPlannerState.
Record t := mk {
  fuel_strategy : RuntimeFuelStrategy.t; startup_config : StartupConfig.t; warmup_config : WarmupConfig.t;
  after_start_config : AfterStartConfig.t; acceleration_config : AccelerationConfig.t;
  lambda_config : LambdaTrimConfig.t; dwell_config : DwellConfig.t; enrichment : EnrichmentController.t;
  lambda : LambdaTrimPlanner.t }.
#[global] Instance eta : Eta t := fun p =>
  mk (fuel_strategy p) (startup_config p) (warmup_config p) (after_start_config p) (acceleration_config p)
    (lambda_config p) (dwell_config p) (enrichment p) (lambda p).
(** The torque arbiter and the ignition planner are structs without fields. *)
Definition default : t :=
  mk RuntimeFuelStrategy.default StartupConfig.DEFAULT WarmupConfig.DEFAULT AfterStartConfig.DEFAULT
    AccelerationConfig.DEFAULT LambdaTrimConfig.DEFAULT DwellConfig.DEFAULT EnrichmentController.new
    LambdaTrimPlanner.new.
End ControlPlannerState.

Module RuntimeSnapshot.
Record t := mk {
  engine : EngineState.t; control : ControlState.t; faults : FaultState.t; calibration : CalibrationState.t;
  scheduler : SchedulerState.t; output_profile : RuntimeOutputProfile.t;
  fuel_strategy_mode : RuntimeFuelStrategyMode.t; rev_soft_active : bool; rev_hard_active : bool;
  launch_active : bool; flat_shift_active : bool; safety_latched : bool; direct_fuel_cut_request : bool;
  direct_spark_cut_request : bool; fuel_cut : bool; spark_cut : bool; legacy_cut_reason_code : Z;
  knock_intensity_x100 : Z; knock_retard_deg10 : Z }.
End RuntimeSnapshot.

Module EngineRuntime.
Record t := mk {
  engine : EngineState.t; control : ControlState.t; faults : FaultState.t; calibration : CalibrationState.t;
  scheduler : SchedulerState.t; planners : ControlPlannerState.t; runtime_snapshot : RuntimeSnapshot.t;
  calibration_snapshot : CalibrationSnapshot.t; output_profile : RuntimeOutputProfile.t;
  rev_soft_active : bool; rev_hard_active : bool; launch_active : bool; flat_shift_active : bool;
  direct_fuel_cut_request : bool; direct_spark_cut_request : bool; safety_latched : bool; fuel_cut : bool;
  spark_cut : bool; knock_intensity_x100 : Z; knock_retard_deg10 : Z }.
#[global] Instance eta : Eta t := fun r =>
  mk (engine r) (control r) (faults r) (calibration r) (scheduler r) (planners r) (runtime_snapshot r)
    (calibration_snapshot r) (output_profile r) (rev_soft_active r) (rev_hard_active r) (launch_active r)
    (flat_shift_active r) (direct_fuel_cut_request r) (direct_spark_cut_request r) (safety_latched r) (fuel_cut r)
    (spark_cut r) (knock_intensity_x100 r) (knock_retard_deg10 r).
End EngineRuntime.

(** ** Engine time *)
Definition engine_phase_from_authority (authority : EngineTimeAuthority.t) (rpm : Z) : EnginePhase.t :=
  if rpm =? 0 then EnginePhase.Off
  else if EngineTimeAuthority.has_primary_lock authority
    && negb (bool_decide (EngineTimeAuthority.phase authority = PhaseSyncState.Unknown))
  then EnginePhase.Running else EnginePhase.Cranking.

Definition derive_engine_time_authority (current : EngineTimeAuthority.t) (trigger_synced cam_seen : bool) (rpm : Z) :
    EngineTimeAuthority.t :=
  if negb trigger_synced then
    let crank :=
      if EngineTimeAuthority.has_primary_lock current then CrankSyncState.SyncLost
      else if 0 <? rpm then CrankSyncState.PrimarySearching else CrankSyncState.NoSignal in
    let sync_loss_count :=
      if EngineTimeAuthority.has_primary_lock current
      then saturating_add 16 (EngineTimeAuthority.sync_loss_count current) 1
      else EngineTimeAuthority.sync_loss_count current in
    EngineTimeAuthority.mk crank PhaseSyncState.Unknown AbsoluteTimeAuthority.None 0 sync_loss_count
  else
    let phase :=
      if cam_seen then
        if bool_decide (EngineTimeAuthority.phase current = PhaseSyncState.CamValidated720)
        then PhaseSyncState.CamValidated720 else PhaseSyncState.CamObserved720
      else PhaseSyncState.CrankOnly360 in
    let absolute :=
      if EngineTimeAuthority.has_absolute_timing current then EngineTimeAuthority.absolute current
      else AbsoluteTimeAuthority.GeometryOnly in
    let confidence_x1000 :=
      if EngineTimeAuthority.confidence_x1000 current =? 0 then EngineTimeAuthority.MAX_CONFIDENCE_X1000
      else Z.min (EngineTimeAuthority.confidence_x1000 current) EngineTimeAuthority.MAX_CONFIDENCE_X1000 in
    EngineTimeAuthority.mk CrankSyncState.PrimaryLocked phase absolute confidence_x1000
      (EngineTimeAuthority.sync_loss_count current).

Definition output_profile_requires_full_sequential_authority (profile : RuntimeOutputProfile.t) : bool :=
  match profile with
  | RuntimeOutputProfile.FullEcu p =>
    OutputAuthorityRequirement.requires_full_sequential (FullEcuOutputProfile.authority p)
    || IgnitionOutputProfile.phase_required (FullEcuOutputProfile.ignition p)
    || InjectionOutputProfile.phase_required (FullEcuOutputProfile.injection p)
  | _ => false
  end.

(** ** Inputs and results of a step (observations.rs) *)
Module FuelSensorInputs.
Record t := mk { maf_valid : bool; maf_x100 : Z; iat_c10 : Z; vbatt_mv : Z; baro_valid : bool; baro_kpa10 : Z }.
Definition explicit_substitutions : t := mk false 0 250 12000 false 1010.
End FuelSensorInputs.

Module ControlInputs.
Record t := mk {
  enrichment : EnrichmentInputs.t; lambda : LambdaTrimInputs.t; torque : TorqueInputs.t;
  ignition : IgnitionInputs.t; fuel_sensors : FuelSensorInputs.t; knock_intensity_x100 : Z }.
Definition spark_only (now_us : Z) (ignition : IgnitionInputs.t) : t :=
  mk (EnrichmentInputs.mk now_us 0 false false 0 0) (LambdaTrimInputs.mk now_us 0 false false 100 true)
    (TorqueInputs.new 100 100 100 100 100) ignition FuelSensorInputs.explicit_substitutions 0.
End ControlInputs.

Module ValidatedInputs.
Record t := mk { rpm : Z; load_kpa10 : Z; angle_x10 : Z; clamped : bool }.
End ValidatedInputs.

Module ControlPlan.
Record t := mk {
  base_fuel : Z; enriched_fuel : Z; enrichment : EnrichmentResult.t; lambda : LambdaTrimResult.t;
  torque : AllowedTorque.t; ignition : Control.IgnitionPlan.t; fuel_cut : bool; spark_cut : bool;
  fuel_intent : FuelIntent.t }.
End ControlPlan.

(** ** Configuration (engine/config.rs) *)
Section config.
Import EngineRuntime.

Definition legacy_knock_reason_active (r : t) : bool :=
  (0 <? knock_retard_deg10 r)
  || match ControlPlannerState.fuel_strategy (planners r) with
     | RuntimeFuelStrategy.SpeedDensityVe calibration _ | RuntimeFuelStrategy.AlphaN calibration _
     | RuntimeFuelStrategy.Maf calibration _ =>
       SemanticFuel.Calibration.knock_threshold_x100 calibration <=? knock_intensity_x100 r
     | RuntimeFuelStrategy.DirectPulseWidthTable _ => false
     end.

Definition legacy_cut_flags (r : t) : bool * bool :=
  let paired_cut := direct_fuel_cut_request r || direct_spark_cut_request r
    || bool_decide (EngineState.mode (engine r) = ControlMode.Shutdown) || safety_latched r || rev_hard_active r
    || launch_active r || flat_shift_active r in
  if paired_cut then (true, true) else (fuel_cut r, spark_cut r).

Definition legacy_cut_reason_code (r : t) : Z :=
  if safety_latched r || direct_fuel_cut_request r || direct_spark_cut_request r
     || bool_decide (EngineState.mode (engine r) = ControlMode.Shutdown) then 1
  else if rev_hard_active r then 2
  else if launch_active r then 3
  else if flat_shift_active r then 4
  else if fuel_cut r && negb (spark_cut r) then 5
  else if spark_cut r then 6
  else if legacy_knock_reason_active r then 7
  else 0.

Definition initial_snapshot : RuntimeSnapshot.t :=
  RuntimeSnapshot.mk EngineState.initial ControlState.initial FaultState.initial CalibrationState.initial
    SchedulerState.new RuntimeOutputProfile.LegacySingleChannel RuntimeFuelStrategyMode.DirectPulseWidthTable
    false false false false false false false false false 0 0 0.

Definition new : t :=
  mk EngineState.initial ControlState.initial FaultState.initial CalibrationState.initial SchedulerState.new
    ControlPlannerState.default initial_snapshot CalibrationSnapshot.default RuntimeOutputProfile.LegacySingleChannel
    false false false false false false false false false 0 0.

Definition refresh_snapshot (r : t) : t :=
  r <| runtime_snapshot :=
       RuntimeSnapshot.mk (engine r) (control r) (faults r) (calibration r) (scheduler r) (output_profile r)
         (runtime_fuel_strategy_mode (ControlPlannerState.fuel_strategy (planners r)))
         (rev_soft_active r) (rev_hard_active r) (launch_active r) (flat_shift_active r) (safety_latched r)
         (direct_fuel_cut_request r) (direct_spark_cut_request r) (fuel_cut r) (spark_cut r)
         (legacy_cut_reason_code r) (knock_intensity_x100 r) (knock_retard_deg10 r) |>
    <| calibration_snapshot := CalibrationState.active (calibration r) |>.

Definition set_direct_cut_requests (fuel_cut_request spark_cut_request : bool) (r : t) : t :=
  r <| direct_fuel_cut_request := fuel_cut_request |> <| direct_spark_cut_request := spark_cut_request |>.

Definition configure_runtime_fuel_model (strategy : RuntimeFuelStrategy.t) (r : t) : t :=
  r <| planners ::= fun p => p <| ControlPlannerState.fuel_strategy := strategy |> |>.
Definition configure_fuel_model (fuel_model : BaseFuelModel.t) : t -> t :=
  configure_runtime_fuel_model (RuntimeFuelStrategy.DirectPulseWidthTable fuel_model).
Definition configure_speed_density_ve (calibration : SemanticFuel.Calibration.t) (state : FuelState.t) : t -> t :=
  configure_runtime_fuel_model (RuntimeFuelStrategy.SpeedDensityVe calibration state).
Definition configure_alpha_n (calibration : SemanticFuel.Calibration.t) (state : FuelState.t) : t -> t :=
  configure_runtime_fuel_model (RuntimeFuelStrategy.AlphaN calibration state).
Definition configure_maf (calibration : SemanticFuel.Calibration.t) (state : FuelState.t) : t -> t :=
  configure_runtime_fuel_model (RuntimeFuelStrategy.Maf calibration state).
Definition configure_startup_enrichment (config : StartupConfig.t) (r : t) : t :=
  r <| planners ::= fun p => p <| ControlPlannerState.startup_config := config |> |>.
Definition configure_warmup_enrichment (config : WarmupConfig.t) (r : t) : t :=
  r <| planners ::= fun p => p <| ControlPlannerState.warmup_config := config |> |>.
Definition configure_after_start_enrichment (config : AfterStartConfig.t) (r : t) : t :=
  r <| planners ::= fun p => p <| ControlPlannerState.after_start_config := config |> |>.
Definition configure_acceleration_enrichment (config : AccelerationConfig.t) (r : t) : t :=
  r <| planners ::= fun p => p <| ControlPlannerState.acceleration_config := config |> |>.
Definition configure_lambda_trim (config : LambdaTrimConfig.t) (r : t) : t :=
  r <| planners ::= fun p => p <| ControlPlannerState.lambda_config := config |> |>.
Definition configure_dwell (config : DwellConfig.t) (r : t) : t :=
  r <| planners ::= fun p => p <| ControlPlannerState.dwell_config := config |> |>.

Definition configure_output_profile (profile : RuntimeOutputProfile.t) (r : t) : t := r <| output_profile := profile |>.
Definition configure_crank_only_wasted_spark (cylinder_count : Z) : t -> t :=
  configure_output_profile (RuntimeOutputProfile.IgnitionOnly (SparkOutputProfile.crank_only_wasted_spark cylinder_count)).
Definition configure_crank_only_single_coil (cylinder_count : Z) : t -> t :=
  configure_output_profile (RuntimeOutputProfile.IgnitionOnly (SparkOutputProfile.crank_only_single_coil cylinder_count)).
Definition configure_single_point_injection : t -> t :=
  configure_output_profile (RuntimeOutputProfile.InjectionOnly FuelOutputProfile.single_point).
Definition configure_batch_injection (channel_count : Z) : t -> t :=
  configure_output_profile (RuntimeOutputProfile.InjectionOnly (FuelOutputProfile.batch channel_count)).
Definition configure_full_ecu (profile : FullEcuOutputProfile.t) : t -> t :=
  configure_output_profile (RuntimeOutputProfile.FullEcu profile).

Definition apply_engine_time_authority (authority : EngineTimeAuthority.t) (r : t) : t :=
  r <| engine := (((engine r) <| EngineState.engine_time_authority := authority |>)
         <| EngineState.sync := EngineTimeAuthority.compatibility_summary authority |>)
         <| EngineState.phase := engine_phase_from_authority authority (EngineState.rpm (engine r)) |> |>.

(** An authority that does not validate is replaced by none. *)
Definition set_engine_time_authority_inner (authority : EngineTimeAuthority.t) (r : t) : t :=
  apply_engine_time_authority
    (if is_ok (EngineTimeAuthority.validate authority) then authority else EngineTimeAuthority.none) r.
Definition set_engine_time_authority (authority : EngineTimeAuthority.t) (r : t) : t :=
  refresh_snapshot (set_engine_time_authority_inner authority r).
Definition try_set_engine_time_authority (authority : EngineTimeAuthority.t) (r : t) :
    t * Result unit (EngineTimeAuthority.t * EngineTimeAuthorityError.t) :=
  match EngineTimeAuthority.validate authority with
  | Err reason => (r, Err (authority, reason))
  | Ok _ => (refresh_snapshot (apply_engine_time_authority authority r), Ok tt)
  end.

Definition set_fault_state (fault : FaultCode.t) (severity : FaultSeverity.t) (cancel_reason : CancelReason.t) (r : t) : t :=
  refresh_snapshot (r <| faults := FaultState.mk fault severity cancel_reason |>).
Definition set_staged_dirty (dirty : bool) (r : t) : t :=
  refresh_snapshot (r <| calibration ::= fun c => c <| CalibrationState.staged_dirty := dirty |> |>).
Definition apply_sensor_sample (rpm load_kpa10 angle_x10 : Z) (r : t) : t :=
  refresh_snapshot (r <| engine := (((engine r) <| EngineState.rpm := rpm |>) <| EngineState.load_kpa10 := load_kpa10 |>)
    <| EngineState.angle_x10 := angle_x10 |> |>).
End config.

(** ** Control (engine/control.rs) *)

(** The product of a pulse width and a trim stays within 32 bits. *)
Definition apply_lambda_trim (base trim_x100 : Z) : Z :=
  if trim_x100 <=? 0 then 0
  else
    let scaled := base * trim_x100 / 100 in
    as_unsigned 16 (Z.min scaled u16_max).

Definition lambda_trim_to_x1000 (trim_x100 : Z) : Z :=
  if trim_x100 <=? 0 then 0 else as_unsigned 16 (Z.min (trim_x100 * 10) u16_max).

Definition direct_acceleration_enrichment_pulse_us (base_fuel : Z) (enrichment : EnrichmentResult.t) : option Z :=
  without_accel ← EnrichmentResult.apply_to base_fuel
    (EnrichmentResult.new (EnrichmentResult.startup_x100 enrichment) (EnrichmentResult.warmup_x100 enrichment)
      (EnrichmentResult.after_start_x100 enrichment) 100);
  with_accel ← EnrichmentResult.apply_to base_fuel enrichment;
  Some (saturating_sub with_accel without_accel).

Definition direct_afterstart_observations (state : AfterStartState.t) (now_us : Z) (cfg : AfterStartConfig.t) :
    bool * Z * FuelAfterstartWindowMode.t :=
  if negb (AfterStartState.active state) then (false, 0, FuelAfterstartWindowMode.Inactive)
  else (true, AfterStartState.remaining_ms now_us cfg state, FuelAfterstartWindowMode.Milliseconds).

Definition semantic_afterstart_observations (window_cycles : Z) (state : FuelState.t) :
    bool * Z * FuelAfterstartWindowMode.t :=
  if window_cycles =? 0 then (false, 0, FuelAfterstartWindowMode.Inactive)
  else
    let consumed := as_unsigned 16 (Z.min (FuelState.afterstart_cycle_count state) window_cycles) in
    let remaining := saturating_sub window_cycles consumed in
    if remaining =? 0 then (false, 0, FuelAfterstartWindowMode.Inactive)
    else (true, remaining, FuelAfterstartWindowMode.Cycles).

Definition startup_observations (state : StartupState.t) (now_us : Z) (cfg : StartupConfig.t) :
    bool * Z * FuelStartupWindowMode.t :=
  if negb (StartupState.active state) then (false, 0, FuelStartupWindowMode.Inactive)
  else (true, StartupState.remaining_ms now_us cfg state, FuelStartupWindowMode.Milliseconds).

Definition warmup_observations (clt_c : Z) (cfg : WarmupConfig.t) : option (bool * Z * FuelWarmupTemperatureMode.t) :=
  correction_x100 ← WarmupConfig.compute_percent_x100 clt_c cfg;
  Some (negb (correction_x100 =? 100), correction_x100, WarmupConfig.temperature_mode clt_c cfg).

(** [None] where the axis claims more points than its array holds. *)
Definition semantic_warmup_observations (curve : Curve16.t) (clt_c10 correction_x1000 : Z) :
    option (bool * Z * FuelWarmupTemperatureMode.t) :=
  let x := as_unsigned 16 (Z.max clt_c10 0) in
  let axis := Curve16.axis curve in
  let len := Z.to_nat (Axis16.len axis) in
  temperature_mode ←
    (if (len <? 2)%nat then Some FuelWarmupTemperatureMode.NeutralFallback
     else
       first ← Axis16.values axis !! 0%nat;
       if x <=? first then Some FuelWarmupTemperatureMode.ColdClamp
       else
         last ← Axis16.values axis !! (len - 1)%nat;
         Some (if last <=? x then FuelWarmupTemperatureMode.HotClamp else FuelWarmupTemperatureMode.Interpolating));
  let correction_x100 := as_unsigned 16 (Z.min ((correction_x1000 + 5) / 10) u16_max) in
  Some (negb (correction_x1000 =? 1000), correction_x100, temperature_mode).

(** The first component of [semantic_idle_observations]; the others are fields. *)
Definition semantic_idle_active (calibration : SemanticFuel.Calibration.t) (obs : FuelObservations.t) : bool :=
  negb (SemanticFuel.Calibration.idle_target_rpm calibration =? 0)
  || negb (SemanticFuel.Calibration.idle_base_duty_x1000 calibration =? 0)
  || negb (SemanticFuel.Calibration.idle_kp_x1000 calibration =? 0)
  || negb (SemanticFuel.Calibration.idle_ki_x1000 calibration =? 0)
  || negb (FuelObservations.idle_duty_x1000 obs =? 0)
  || negb (PiIntegratorState.acc (FuelObservations.idle_integrator_state obs) =? 0).

(** [min(u16::MAX) as u16] *)
Definition cap_u16 (x : Z) : Z := as_unsigned 16 (Z.min x u16_max).

(** The observations a strategy without a semantic model reports. *)
Definition plain_observations (pw_base_us pw_corr_us : Z) (direct : bool) : StrategyObservations.t :=
  StrategyObservations.mk None None pw_base_us None pw_corr_us
    false 100 FuelWarmupTemperatureMode.Inactive false 0 FuelStartupWindowMode.Inactive
    false 0 FuelAfterstartWindowMode.Inactive false 0 0 1000 0 0 0 false false 0 0 0 0 false 0 direct.

Section control.
Import EngineRuntime.

Definition clear_semantic_runtime_flags (r : t) : t :=
  r <| rev_soft_active := false |> <| rev_hard_active := false |> <| launch_active := false |>
    <| flat_shift_active := false |> <| knock_retard_deg10 := 0 |>.

Definition apply_semantic_runtime_flags (state : FuelState.t) (r : t) : t :=
  r <| rev_soft_active := FuelState.rev_soft_active state |> <| rev_hard_active := FuelState.rev_hard_active state |>
    <| launch_active := FuelState.launch_active state |> <| flat_shift_active := FuelState.flat_shift_active state |>
    <| safety_latched := FuelState.safety_latched state |> <| knock_retard_deg10 := FuelState.knock_retard_deg10 state |>.

Definition apply_direct_runtime_flags (mode : FuelEngineMode.t) (safety_latch_request : bool) (r : t) : t * bool :=
  let r := clear_semantic_runtime_flags r in
  let r :=
    if safety_latched r && bool_decide (mode = FuelEngineMode.Off) && negb safety_latch_request
    then r <| safety_latched := false |>
    else if safety_latch_request then r <| safety_latched := true |> else r in
  (r, safety_latched r).

Definition semantic_input_for_strategy (input : StrategyInput.t) (load_source : FuelLoadSource.t) (sync : SyncState.t)
    (mode : FuelEngineMode.t) (safety_latch_request : bool) : InputSnapshot.t :=
  let selected_load := match load_source with
    | FuelLoadSource.Map => StrategyInput.map_kpa10 input | FuelLoadSource.Tps => StrategyInput.tps_x100 input end in
  InputSnapshot.mk (StrategyInput.now_us input) (StrategyInput.rpm input) (StrategyInput.map_kpa10 input) selected_load
    (StrategyInput.tps_x100 input) (StrategyInput.clt_c10 input) (StrategyInput.iat_c10 input)
    (StrategyInput.baro_kpa10 input) (StrategyInput.vbatt_mv input) (StrategyInput.lambda_valid input)
    (StrategyInput.lambda_measured input) (StrategyInput.requested_open_loop input)
    (StrategyInput.knock_intensity_x100 input) (StrategyInput.launch_armed input) (StrategyInput.flat_shift_armed input)
    sync false false (StrategyInput.fuel_cut_request input) (StrategyInput.spark_cut_request input) safety_latch_request
    match mode with
    | FuelEngineMode.Off => EngineMode.Off | FuelEngineMode.Cranking => EngineMode.Cranking
    | FuelEngineMode.Running => EngineMode.Running | FuelEngineMode.Shutdown => EngineMode.Shutdown end
    match StrategyInput.target_afr_override_x100 input with
    | FuelAfrOverride.None_ => AfrOverride.None_ | FuelAfrOverride.Some_ v => AfrOverride.Some_ v end.

Definition fuel_input_snapshot (validated : ValidatedInputs.t) (inputs : ControlInputs.t)
    (launch_armed flat_shift_armed : bool) (r : t) : StrategyInput.t :=
  let enrichment := ControlInputs.enrichment inputs in
  let lambda := ControlInputs.lambda inputs in
  let sensors := ControlInputs.fuel_sensors inputs in
  StrategyInput.mk (EnrichmentInputs.now_us enrichment) (ValidatedInputs.rpm validated)
    (ValidatedInputs.load_kpa10 validated) (ValidatedInputs.load_kpa10 validated)
    (Z.max (TorqueInputs.driver_request_x100 (ControlInputs.torque inputs))
      (TorqueInputs.idle_request_x100 (ControlInputs.torque inputs)))
    (ControlInputs.knock_intensity_x100 inputs) (FuelSensorInputs.maf_x100 sensors)
    (clamp (EnrichmentInputs.clt_c enrichment * 10) (-32768) 32767) (FuelSensorInputs.iat_c10 sensors)
    (if FuelSensorInputs.baro_valid sensors then FuelSensorInputs.baro_kpa10 sensors
     else FuelSensorInputs.baro_kpa10 FuelSensorInputs.explicit_substitutions)
    (FuelSensorInputs.vbatt_mv sensors) (FuelSensorInputs.maf_valid sensors) (LambdaTrimInputs.lambda_valid lambda)
    (LambdaTrimInputs.measured_lambda100 lambda) (LambdaTrimInputs.requested_open_loop lambda)
    (FuelSensorInputs.baro_valid sensors) (EngineState.sync (engine r))
    match EngineState.phase (engine r) with
    | EnginePhase.Off => FuelEngineMode.Off | EnginePhase.Cranking => FuelEngineMode.Cranking
    | EnginePhase.Running => FuelEngineMode.Running | EnginePhase.Stopping => FuelEngineMode.Shutdown end
    launch_armed flat_shift_armed (direct_fuel_cut_request r) (direct_spark_cut_request r) FuelAfrOverride.None_.

Definition semantic_fuel_cut_intent (r : t) : FuelIntent.t :=
  FuelIntent.mk 0 (EngineState.angle_x10 (engine r)) true true (plain_observations 0 0 false).

(** The intent of an evaluated semantic strategy. *)
Definition semantic_intent (calibration : SemanticFuel.Calibration.t) (clt_c10 : Z) (obs : FuelObservations.t)
    (next_state : FuelState.t) (r : t) : option FuelIntent.t :=
  let pw := cap_u16 (FuelObservations.pw_corr_us obs) in
  warmup ← semantic_warmup_observations (SemanticFuel.Calibration.warmup_curve calibration) clt_c10
    (FuelObservations.warmup_corr_x1000 obs);
  let '(warmup_active, warmup_correction_x100, warmup_temperature_mode) := warmup in
  let '(afterstart_active, afterstart_window_remaining, afterstart_window_mode) :=
    semantic_afterstart_observations (SemanticFuel.Calibration.afterstart_window_cycles calibration) next_state in
  let idle := FuelObservations.idle_integrator_state obs in
  let lambda := FuelObservations.lambda_integrator_state obs in
  Some (FuelIntent.mk pw (EngineState.angle_x10 (engine r)) (FuelObservations.fuel_cut obs) (FuelObservations.spark_cut obs)
    (StrategyObservations.mk (Some (FuelObservations.ve_pct_x100 obs)) (Some (FuelObservations.target_afr_x100 obs))
      (cap_u16 (FuelObservations.pw_base_us obs)) (Some (cap_u16 (FuelObservations.pw_air_us obs))) pw
      warmup_active warmup_correction_x100 warmup_temperature_mode false 0 FuelStartupWindowMode.Inactive
      afterstart_active afterstart_window_remaining afterstart_window_mode (FuelState.ae_active next_state)
      (cap_u16 (FuelState.ae_pulse_us next_state)) (FuelState.ae_decay_steps_remaining next_state)
      (FuelObservations.lambda_correction_x1000 obs) (PiIntegratorState.acc lambda) (PiIntegratorState.min_acc lambda)
      (PiIntegratorState.max_acc lambda) (PiIntegratorState.frozen lambda)
      (semantic_idle_active calibration obs) (FuelObservations.idle_duty_x1000 obs) (PiIntegratorState.acc idle)
      (PiIntegratorState.min_acc idle) (PiIntegratorState.max_acc idle) (PiIntegratorState.frozen idle)
      (FuelObservations.advance_deg10_trim obs) false)).

(** The arm of a semantic strategy: its intent, and the next state if it evaluated. *)
Definition evaluate_semantic (calibration : SemanticFuel.Calibration.t) (semantic_input : InputSnapshot.t) (clt_c10 : Z)
    (state : FuelState.t) (r : t) : option (FuelIntent.t * option FuelState.t) :=
  evaluated ← runtime_semantic_evaluate_fuel_with_state calibration semantic_input state;
  match evaluated with
  | Ok (obs, next_state) => intent ← semantic_intent calibration clt_c10 obs next_state r; Some (intent, Some next_state)
  | Err _ => Some (semantic_fuel_cut_intent r, None)
  end.

Definition direct_fuel_intent (fuel_model : BaseFuelModel.t) (input : StrategyInput.t) (safety_latch_request : bool)
    (r : t) : option (t * FuelIntent.t) :=
  let '(r, safety_latched) := apply_direct_runtime_flags (StrategyInput.mode input) safety_latch_request r in
  let shutdown_cut := bool_decide (StrategyInput.mode input = FuelEngineMode.Shutdown)
    || bool_decide (EngineState.mode (engine r) = ControlMode.Shutdown) in
  let sync_loss_cut := bool_decide (EngineTimeAuthority.crank (EngineState.engine_time_authority (engine r))
    = CrankSyncState.SyncLost) in
  let fuel_cut := StrategyInput.fuel_cut_request input || safety_latched || shutdown_cut || sync_loss_cut in
  let spark_cut := StrategyInput.spark_cut_request input || safety_latched || shutdown_cut || sync_loss_cut in
  raw_pw ← BaseFuelModel.calculate_base_fuel (StrategyInput.rpm input) (StrategyInput.load_kpa10 input) fuel_model;
  let pw := if fuel_cut then 0 else raw_pw in
  Some (r, FuelIntent.mk pw (EngineState.angle_x10 (engine r)) fuel_cut spark_cut (plain_observations raw_pw pw true)).

(** The input of a semantic arm of [compute_fuel_intent]. *)
Definition arm_input (input : StrategyInput.t) (source : FuelLoadSource.t) (safety_latch_request : bool) : InputSnapshot.t :=
  semantic_input_for_strategy input source (StrategyInput.sync input) (StrategyInput.mode input) safety_latch_request.

Definition evaluate_speed_density (calibration : SemanticFuel.Calibration.t) (input : StrategyInput.t)
    (safety_latch_request : bool) (state : FuelState.t) (r : t) : option (FuelIntent.t * option FuelState.t) :=
  evaluate_semantic calibration (arm_input input FuelLoadSource.Map safety_latch_request) (StrategyInput.clt_c10 input) state r.

Definition evaluate_alpha_n (calibration : SemanticFuel.Calibration.t) (input : StrategyInput.t)
    (safety_latch_request : bool) (state : FuelState.t) (r : t) : option (FuelIntent.t * option FuelState.t) :=
  evaluate_semantic calibration (arm_input input FuelLoadSource.Tps safety_latch_request) (StrategyInput.clt_c10 input) state r.

(** The load of this arm is the air mass; without a valid one it cuts. *)
Definition evaluate_maf (calibration : SemanticFuel.Calibration.t) (input : StrategyInput.t)
    (safety_latch_request : bool) (state : FuelState.t) (r : t) : option (FuelIntent.t * option FuelState.t) :=
  if negb (StrategyInput.maf_valid input) then Some (semantic_fuel_cut_intent r, None)
  else evaluate_semantic calibration
    ((arm_input input FuelLoadSource.Map safety_latch_request) <| InputSnapshot.load_kpa10 := StrategyInput.maf_x100 input |>)
    (StrategyInput.clt_c10 input) state r.

Definition compute_fuel_intent (input : StrategyInput.t) (safety_latch_request : bool) (r : t) :
    option (t * FuelIntent.t) :=
  let finish (evaluated : option (FuelIntent.t * option FuelState.t)) (with_state : FuelState.t -> RuntimeFuelStrategy.t) :=
    evaluated ← evaluated;
    let '(intent, next_state) := evaluated in
    Some (match next_state with
          | Some state => apply_semantic_runtime_flags state (configure_runtime_fuel_model (with_state state) r)
          | None => clear_semantic_runtime_flags r
          end, intent) in
  match ControlPlannerState.fuel_strategy (planners r) with
  | RuntimeFuelStrategy.DirectPulseWidthTable fuel_model => direct_fuel_intent fuel_model input safety_latch_request r
  | RuntimeFuelStrategy.SpeedDensityVe calibration state =>
    finish (evaluate_speed_density calibration input safety_latch_request state r) (RuntimeFuelStrategy.SpeedDensityVe calibration)
  | RuntimeFuelStrategy.AlphaN calibration state =>
    finish (evaluate_alpha_n calibration input safety_latch_request state r) (RuntimeFuelStrategy.AlphaN calibration)
  | RuntimeFuelStrategy.Maf calibration state =>
    finish (evaluate_maf calibration input safety_latch_request state r) (RuntimeFuelStrategy.Maf calibration)
  end.
End control.

Section compose.
Import EngineRuntime.

(** The startup, warmup and afterstart observations that [compose_control] writes over
    those of the strategy; the last two only for the pulse-width table. *)
Definition observe_enrichment (inputs : EnrichmentInputs.t) (base_fuel : Z) (enrichment : EnrichmentResult.t) (r : t)
    (obs : StrategyObservations.t) : option StrategyObservations.t :=
  let now_us := EnrichmentInputs.now_us inputs in
  let controller := ControlPlannerState.enrichment (planners r) in
  let direct := StrategyObservations.strategy_is_direct_pw obs in
  let '(startup_active, startup_window_remaining, startup_window_mode) :=
    startup_observations (EnrichmentController.startup controller) now_us (ControlPlannerState.startup_config (planners r)) in
  obs ←
    (if direct then
      warmup ← warmup_observations (EnrichmentInputs.clt_c inputs) (ControlPlannerState.warmup_config (planners r));
      let '(warmup_active, warmup_correction_x100, warmup_temperature_mode) := warmup in
      Some (obs <| StrategyObservations.warmup_active := warmup_active |>
                <| StrategyObservations.warmup_correction_x100 := warmup_correction_x100 |>
                <| StrategyObservations.warmup_temperature_mode := warmup_temperature_mode |>)
     else Some obs);
  let obs := obs <| StrategyObservations.startup_active := startup_active |>
    <| StrategyObservations.startup_window_remaining := startup_window_remaining |>
    <| StrategyObservations.startup_window_mode := startup_window_mode |> in
  if direct then
    let '(afterstart_active, afterstart_window_remaining, afterstart_window_mode) :=
      direct_afterstart_observations (EnrichmentController.after_start controller) now_us
        (ControlPlannerState.after_start_config (planners r)) in
    ae_pulse_us ← direct_acceleration_enrichment_pulse_us base_fuel enrichment;
    Some (obs <| StrategyObservations.afterstart_active := afterstart_active |>
              <| StrategyObservations.afterstart_window_remaining := afterstart_window_remaining |>
              <| StrategyObservations.afterstart_window_mode := afterstart_window_mode |>
              <| StrategyObservations.lambda_ae_freeze_active := 100 <? EnrichmentResult.acceleration_x100 enrichment |>
              <| StrategyObservations.ae_pulse_us := ae_pulse_us |>
              <| StrategyObservations.ae_decay_steps_remaining := 0 |>)
  else Some obs.

Definition observe_lambda (lambda : LambdaTrimResult.t) (obs : StrategyObservations.t) : StrategyObservations.t :=
  if StrategyObservations.strategy_is_direct_pw obs then
    obs <| StrategyObservations.lambda_correction_x1000 := lambda_trim_to_x1000 (LambdaTrimResult.trim_x100 lambda) |>
        <| StrategyObservations.lambda_integrator_acc := 0 |> <| StrategyObservations.lambda_integrator_min_acc := 0 |>
        <| StrategyObservations.lambda_integrator_max_acc := 0 |> <| StrategyObservations.lambda_integrator_frozen := false |>
  else obs.

Definition limit_torque (rev_hard_active : bool) (torque : AllowedTorque.t) : AllowedTorque.t :=
  if rev_hard_active && negb (AllowedTorque.allowed_x100 torque =? 0) then
    AllowedTorque.mk (AllowedTorque.requested_x100 torque) (AllowedTorque.requested_x1000 torque) 0
      (AllowedTorque.allowed_x1000 torque) TorqueLimitReason.RevLimiter
  else torque.

Definition compose_control (validated : ValidatedInputs.t) (inputs : ControlInputs.t)
    (launch_armed flat_shift_armed safety_latch_request : bool) (r : t) : option (t * ControlPlan.t) :=
  let r := r <| knock_intensity_x100 := ControlInputs.knock_intensity_x100 inputs |> in
  let fuel_input := fuel_input_snapshot validated inputs launch_armed flat_shift_armed r in
  '(r, fuel_intent) ← compute_fuel_intent fuel_input safety_latch_request r;
  let base_fuel := FuelIntent.pulse_width_us fuel_intent in
  let p := planners r in
  '(controller, enrichment) ← EnrichmentController.update (ControlInputs.enrichment inputs)
    (ControlPlannerState.startup_config p) (ControlPlannerState.warmup_config p)
    (ControlPlannerState.after_start_config p) (ControlPlannerState.acceleration_config p)
    (ControlPlannerState.enrichment p);
  let r := r <| planners ::= fun p => p <| ControlPlannerState.enrichment := controller |> |> in
  obs ← observe_enrichment (ControlInputs.enrichment inputs) base_fuel enrichment r (FuelIntent.observations fuel_intent);
  '(planner, lambda) ← LambdaTrimPlanner.update (ControlInputs.lambda inputs) (ControlPlannerState.lambda_config p)
    (ValidatedInputs.load_kpa10 validated) (StrategyObservations.lambda_ae_freeze_active obs)
    (FuelIntent.fuel_cut fuel_intent || FuelIntent.spark_cut fuel_intent) (ControlPlannerState.lambda p);
  let r := r <| planners ::= fun p => p <| ControlPlannerState.lambda := planner |> |> in
  let fuel_intent := fuel_intent <| FuelIntent.observations := observe_lambda lambda obs |> in
  let torque := limit_torque (rev_hard_active r) (TorqueArbiter.evaluate (ControlInputs.torque inputs)) in
  ignition ← IgnitionPlanner.plan (ControlInputs.ignition inputs) (ControlPlannerState.dwell_config p);
  enriched_fuel ←
    (if StrategyObservations.strategy_is_direct_pw obs then
      enriched ← EnrichmentResult.apply_to base_fuel enrichment;
      Some (apply_lambda_trim enriched (LambdaTrimResult.trim_x100 lambda))
     else Some base_fuel);
  Some (r <| control := ControlState.mk enriched_fuel (Control.IgnitionPlan.advance_deg10 ignition)
               (Control.IgnitionPlan.dwell_us ignition) (LambdaTrimResult.target_lambda100 lambda)
               (AllowedTorque.allowed_x100 torque) |>,
    ControlPlan.mk base_fuel enriched_fuel enrichment lambda torque ignition (FuelIntent.fuel_cut fuel_intent)
      (FuelIntent.spark_cut fuel_intent) fuel_intent).
End compose.
