(* ===== verification/EngineStep.v ===== *)
(** * The runtime engine: actions and steps (crates/runtime/src: engine/actions.rs,
    engine/step.rs, engine/snapshot.rs)

    What a composed control plan makes the engine do: the scheduler windows it reserves and
    the batch of actions it emits; the three step entries; decoder observations. *)
From S2P Require Import Prelude Domain Semantic SemanticFuel SemanticSchedule Control.
From S2P Require Import ExpertTrigger Calibration BoardApi SchedTypes Queue SchedState Batch Scheduler Planner Lowering Engine.

Definition RUNTIME_ACTION_CAP : nat := 20.

(** ** Actions (engine/actions.rs) *)

(** [let _ = actions.push(action)] *)
Definition push_action (action : Action.t) (actions : ActionBatch.t) : ActionBatch.t :=
  fst (ActionBatch.push action actions).

(** The scheduler and the batch under construction. *)
Definition Emission : Type := SchedulerState.t * ActionBatch.t.

(** [if let Ok(injection) = schedule_injection(..) { push(ArmInjection(injection)) }] *)
Definition arm_injection (now_us : Z) (injection : TimedInjectionPlan.t) (e : Emission) : Emission :=
  match SchedulerState.schedule_injection now_us (TimedInjectionPlan.start_at injection)
    (TimedInjectionPlan.end_at injection) (TimedInjectionPlan.plan injection) (fst e) with
  | (s, Ok injection) => (s, push_action (Action.ArmInjection injection) (snd e))
  | (s, Err _) => (s, snd e)
  end.

Definition arm_ignition (now_us : Z) (ignition : TimedIgnitionPlan.t) (e : Emission) : Emission :=
  match SchedulerState.schedule_ignition now_us (TimedIgnitionPlan.start_at ignition)
    (TimedIgnitionPlan.end_at ignition) (TimedIgnitionPlan.plan ignition) (fst e) with
  | (s, Ok ignition) => (s, push_action (Action.ArmIgnition ignition) (snd e))
  | (s, Err _) => (s, snd e)
  end.

(** [if actions.is_empty() { push(Idle) }] *)
Definition idle_if_empty (e : Emission) : Emission :=
  if ActionBatch.len (snd e) =? 0 then (fst e, push_action Action.Idle (snd e)) else e.

Definition result_ok {A E} (r : Result A E) : option A := match r with Ok a => Some a | Err _ => None end.

Section emission.
Import EngineRuntime.

Definition crank_snapshot (now_us : Z) (r : t) : CrankSnapshot.t :=
  CrankSnapshot.mk now_us (EngineState.rpm (engine r)) (EngineState.angle_x10 (engine r))
    (EngineState.engine_time_authority (engine r)).

Definition spark_of (control : ControlPlan.t) : SparkPlan.t :=
  SparkPlan.mk (Control.IgnitionPlan.dwell_us (ControlPlan.ignition control))
    (Control.IgnitionPlan.advance_deg10 (ControlPlan.ignition control)).

Definition make_ignition_plan (control : ControlPlan.t) : IgnitionPlan.t :=
  IgnitionPlan.mk (ExclusiveChannel.mk OutputGroup.Ignition 1)
    (Control.IgnitionPlan.dwell_us (ControlPlan.ignition control))
    (Control.IgnitionPlan.advance_deg10 (ControlPlan.ignition control)).

Definition make_ignition_only_plan (profile : SparkOutputProfile.t) (event_index : Z) (control : ControlPlan.t)
    (now_us : Z) (r : t) : TimedIgnitionPlan.t :=
  IgnitionScheduler.plan_event (IgnitionScheduler.mk profile) (crank_snapshot now_us r) event_index (spark_of control).

Definition make_injection_only_plan (profile : FuelOutputProfile.t) (event_index : Z) (control : ControlPlan.t)
    (now_us : Z) (r : t) : TimedInjectionPlan.t :=
  InjectionScheduler.plan_event (InjectionScheduler.mk profile) (crank_snapshot now_us r) event_index
    (FuelPlan.mk (ControlPlan.enriched_fuel control)).

Definition make_full_ecu_ignition_plan (profile : FullEcuOutputProfile.t) (event_index : Z) (control : ControlPlan.t)
    (now_us : Z) (r : t) : TimedIgnitionPlan.t :=
  FullEcuIgnitionScheduler.plan_event
    (FullEcuIgnitionScheduler.mk (FullEcuOutputProfile.ignition profile) (FullEcuOutputProfile.event_count profile))
    (crank_snapshot now_us r) event_index (spark_of control).

Definition make_full_ecu_injection_plan (profile : FullEcuOutputProfile.t) (event_index : Z) (control : ControlPlan.t)
    (now_us : Z) (r : t) : TimedInjectionPlan.t :=
  FullEcuInjectionScheduler.plan_event (FullEcuInjectionScheduler.mk (FullEcuOutputProfile.injection profile))
    (crank_snapshot now_us r) event_index (FuelPlan.mk (ControlPlan.enriched_fuel control)).

Definition allow_injection (control : ControlPlan.t) : bool :=
  negb (ControlPlan.fuel_cut control) && (0 <? ControlPlan.enriched_fuel control).
Definition allow_ignition (control : ControlPlan.t) : bool :=
  negb (ControlPlan.spark_cut control) && (0 <? Control.IgnitionPlan.dwell_us (ControlPlan.ignition control)).

(** The window of the legacy channel: it opens at once and lasts at least a microsecond. *)
Definition legacy_end (now_us duration : Z) : Z :=
  Z.max (saturating_add 32 now_us duration) (saturating_add 32 now_us 2).

(** Each side books its window, or cancels its group. *)
Definition legacy_injection (now_us : Z) (control : ControlPlan.t) (s : SchedulerState.t) :
    SchedulerState.t * option TimedInjectionPlan.t :=
  if allow_injection control then
    let '(s, scheduled) := SchedulerState.schedule_injection now_us (saturating_add 32 now_us 1)
      (legacy_end now_us (ControlPlan.enriched_fuel control))
      (InjectionPlan.mk (ExclusiveChannel.mk OutputGroup.Injector 1) (ControlPlan.enriched_fuel control)) s in
    (s, result_ok scheduled)
  else (SchedulerState.cancel_group OutputGroup.Injector s, None).

Definition legacy_ignition (now_us : Z) (control : ControlPlan.t) (s : SchedulerState.t) :
    SchedulerState.t * option TimedIgnitionPlan.t :=
  if allow_ignition control then
    let '(s, scheduled) := SchedulerState.schedule_ignition now_us (saturating_add 32 now_us 1)
      (legacy_end now_us (Control.IgnitionPlan.dwell_us (ControlPlan.ignition control)))
      (make_ignition_plan control) s in
    (s, result_ok scheduled)
  else (SchedulerState.cancel_group OutputGroup.Ignition s, None).

Definition emit_legacy (now_us : Z) (control : ControlPlan.t) (e : Emission) : Emission :=
  let '(s, injection) := legacy_injection now_us control (fst e) in
  let '(s, ignition) := legacy_ignition now_us control s in
  (s, push_action
    match injection, ignition with
    | Some injection, Some ignition => Action.ArmScheduler injection ignition
    | Some injection, None => Action.ArmInjection injection
    | None, Some ignition => Action.ArmIgnition ignition
    | None, None => Action.Idle
    end (snd e)).

(** One slot of the full-ECU loop: both plans are made, each is armed if allowed. *)
Definition emit_full_ecu_slot (now_us : Z) (control : ControlPlan.t) (profile : FullEcuOutputProfile.t) (r : t)
    (e : Emission) (slot : Z) : Emission :=
  let e := if allow_injection control
    then arm_injection now_us (make_full_ecu_injection_plan profile slot control now_us r) e else e in
  if allow_ignition control
  then arm_ignition now_us (make_full_ecu_ignition_plan profile slot control now_us r) e else e.

(** The outputs of a locked engine, by profile. *)
Definition emit_profile (now_us : Z) (control : ControlPlan.t) (r : t) (e : Emission) : Emission :=
  let idle := (fst e, push_action Action.Idle (snd e)) in
  let stopped := EngineState.rpm (engine r) =? 0 in
  match output_profile r with
  | RuntimeOutputProfile.LegacySingleChannel => emit_legacy now_us control e
  | RuntimeOutputProfile.IgnitionOnly profile =>
    if stopped || ControlPlan.spark_cut control then idle
    else
      idle_if_empty (fold_left (fun e event_index =>
          arm_ignition now_us (make_ignition_only_plan profile event_index control now_us r) e)
        (seqZ 0 (IgnitionScheduler.event_count (IgnitionScheduler.mk profile))) e)
  | RuntimeOutputProfile.InjectionOnly profile =>
    if stopped || ControlPlan.fuel_cut control || (ControlPlan.enriched_fuel control =? 0) then idle
    else
      idle_if_empty (fold_left (fun e event_index =>
          arm_injection now_us (make_injection_only_plan profile event_index control now_us r) e)
        (seqZ 0 (InjectionScheduler.event_count (InjectionScheduler.mk profile))) e)
  | RuntimeOutputProfile.FullEcu profile =>
    let event_count := FullEcuOutputProfile.event_count profile in
    if (event_count =? 0) || stopped then idle
    else idle_if_empty (fold_left (emit_full_ecu_slot now_us control profile r) (seqZ 0 event_count) e)
  end.

Definition limp_home_aux_commands (r : t) : Batch.t AuxCommand.t :=
  let push command (commands : Batch.t AuxCommand.t) := fst (Batch.push command commands) in
  let commands := push (AuxCommand.mk (AuxOutput.SafetyRelay 1) (AuxValue.Level OutputLevel.High))
    (Batch.new AuxCommand.EMPTY RUNTIME_AUX_COMMAND_CAP) in
  match output_profile r with
  | RuntimeOutputProfile.FullEcu profile =>
    fold_left (fun commands output => push (AuxCommand.mk output AuxValue.Off) commands)
      (omap id (AuxSafetyProfile.off_on_limp_outputs (FullEcuOutputProfile.aux_safety profile))) commands
  | _ => commands
  end.

Definition hard_shutdown (r : t) : bool :=
  bool_decide (EngineState.mode (engine r) = ControlMode.Shutdown)
  || bool_decide (FaultState.fault (faults r) = FaultCode.SafetyCut)
  || bool_decide (FaultState.severity (faults r) = FaultSeverity.Critical).

(** The branch of [emit_actions] that decides about outputs. *)
Definition emit_outputs (now_us : Z) (control : ControlPlan.t) (r : t) : Emission :=
  let s := scheduler r in
  let actions := ActionBatch.new RUNTIME_ACTION_CAP in
  if hard_shutdown r then
    (SchedulerState.on_hard_safety_shutdown s, push_action (Action.CancelScheduler CancelReason.SafetyShutdown) actions)
  else if bool_decide (EngineState.sync (engine r) = SyncState.Unsynced) && SchedulerState.is_armed s then
    (SchedulerState.on_sync_loss s, push_action (Action.CancelScheduler CancelReason.SyncLoss) actions)
  else if output_profile_requires_full_sequential_authority (output_profile r)
       && negb (runtime_full_sequential_authorized (EngineState.engine_time_authority (engine r))) then
    if SchedulerState.is_armed s
    then (SchedulerState.on_sync_loss s, push_action (Action.CancelScheduler CancelReason.SyncLoss) actions)
    else (s, push_action Action.Idle actions)
  else
    match EngineState.sync (engine r) with
    | SyncState.Locked _ => emit_profile now_us control r (SchedulerState.on_sync_recovered s, actions)
    | _ => (s, push_action Action.Idle actions)
    end.

Definition emit_actions (now_us : Z) (control : ControlPlan.t) (r : t) : t * ActionBatch.t :=
  let '(s, actions) := emit_outputs now_us control r in
  let r := r <| scheduler := s |> in
  let actions :=
    if bool_decide (EngineState.mode (engine r) = ControlMode.LimpHome)
    then push_action (Action.ApplyAux (limp_home_aux_commands r)) actions else actions in
  let actions :=
    if CalibrationState.staged_dirty (calibration r) then push_action Action.PersistCalibration actions else actions in
  (r, push_action Action.PublishSnapshot actions).
End emission.

(** ** Steps (engine/step.rs) *)
Module StepInputs.
Record t := mk {
  now_us : Z; rpm : Z; load_kpa10 : Z; angle_x10 : Z; trigger_synced : bool; cam_seen : bool;
  launch_armed : bool; flat_shift_armed : bool; safety_latch_request : bool }.
#[global] Instance eta : Eta t := fun i =>
  mk (now_us i) (rpm i) (load_kpa10 i) (angle_x10 i) (trigger_synced i) (cam_seen i) (launch_armed i)
    (flat_shift_armed i) (safety_latch_request i).
End StepInputs.

Module AuthorityStepInputs.
Record t := mk {
  now_us : Z; rpm : Z; load_kpa10 : Z; angle_x10 : Z; authority : EngineTimeAuthority.t;
  launch_armed : bool; flat_shift_armed : bool; safety_latch_request : bool }.
Definition new := mk.
End AuthorityStepInputs.

Module RuntimeEngineMode.
Inductive t := Off | Cranking | Running | Shutdown.
End RuntimeEngineMode.

Module DifferentialInput.
(** [DifferentialInputSnapshot] *)
Record t := mk {
  now_us : Z; rpm : Z; map_kpa10 : Z; load_kpa10 : Z; angle_x10 : Z; clt_c10 : Z; iat_c10 : Z; baro_kpa10 : Z;
  vbatt_mv : Z; sync : SyncState.t; fuel_cut : bool; spark_cut : bool; mode : RuntimeEngineMode.t;
  target_afr_override_x100 : FuelAfrOverride.t; launch_armed : bool; flat_shift_armed : bool;
  safety_latch_request : bool }.

Definition to_step_inputs (i : t) : StepInputs.t :=
  let locked := match sync i with SyncState.Locked _ => true | _ => false end in
  StepInputs.mk (now_us i) (rpm i) (load_kpa10 i) (angle_x10 i) locked locked (launch_armed i) (flat_shift_armed i)
    (safety_latch_request i).

Definition authority_from_sync_summary (sync : SyncState.t) : EngineTimeAuthority.t :=
  match sync with
  | SyncState.Locked _ => EngineTimeAuthority.mk CrankSyncState.PrimaryLocked PhaseSyncState.CrankOnly360
      AbsoluteTimeAuthority.GeometryOnly EngineTimeAuthority.MAX_CONFIDENCE_X1000 0
  | SyncState.Provisional => EngineTimeAuthority.mk CrankSyncState.PrimarySearching PhaseSyncState.Unknown
      AbsoluteTimeAuthority.None 0 0
  | SyncState.Unsynced => EngineTimeAuthority.none
  end.

Definition to_authority_step_inputs (i : t) : AuthorityStepInputs.t :=
  AuthorityStepInputs.mk (now_us i) (rpm i) (load_kpa10 i) (angle_x10 i) (authority_from_sync_summary (sync i))
    (launch_armed i) (flat_shift_armed i) (safety_latch_request i).
End DifferentialInput.

Module TorqueObservations.
Record t := mk { request_x1000 : Z; allowed_x1000 : Z; actuated_x1000 : Z }.

Definition from_step (torque : AllowedTorque.t) (operating_mode : ControlMode.t) (engine_phase : EnginePhase.t)
    (rev_hard_active fuel_cut spark_cut : bool) : t :=
  let allowed_x1000 :=
    if bool_decide (operating_mode = ControlMode.Shutdown) || bool_decide (engine_phase = EnginePhase.Off)
       || rev_hard_active then 0 else AllowedTorque.allowed_x1000 torque in
  mk (AllowedTorque.requested_x1000 torque) allowed_x1000 (if fuel_cut || spark_cut then 0 else allowed_x1000).
End TorqueObservations.

Module StepResult.
Record t := mk {
  validated : ValidatedInputs.t; operating_mode : ControlMode.t; control : ControlPlan.t;
  actions : ActionBatch.t; torque_observations : TorqueObservations.t }.
End StepResult.

Definition MAX_RPM : Z := 9000.
Definition MAX_LOAD : Z := 2000.
Definition MAX_ANGLE_X10 : Z := 7200.

Definition validate_step_scalars (rpm load_kpa10 angle_x10 : Z) : ValidatedInputs.t :=
  let clamped_rpm := as_unsigned 16 (Z.min rpm MAX_RPM) in
  let clamped_load := as_unsigned 16 (Z.min load_kpa10 MAX_LOAD) in
  let clamped_angle := as_signed 16 (clamp angle_x10 (- MAX_ANGLE_X10) MAX_ANGLE_X10) in
  ValidatedInputs.mk clamped_rpm clamped_load clamped_angle
    (negb (clamped_rpm =? rpm) || negb (clamped_load =? load_kpa10) || negb (clamped_angle =? angle_x10)).

Section step.
Import EngineRuntime.

Definition derive_operating_mode (r : t) : ControlMode.t :=
  if bool_decide (FaultState.severity (faults r) = FaultSeverity.Critical)
     || bool_decide (FaultState.fault (faults r) = FaultCode.SafetyCut) then ControlMode.Shutdown
  else if bool_decide (FaultState.severity (faults r) = FaultSeverity.Warning)
     || bool_decide (FaultState.fault (faults r) = FaultCode.SensorOutOfRange) then ControlMode.LimpHome
  else if bool_decide (EngineState.sync (engine r) = SyncState.Unsynced) then ControlMode.OpenLoop
  else if bool_decide (EngineState.phase (engine r) = EnginePhase.Running) then ControlMode.ClosedLoop
  else ControlMode.OpenLoop.

Definition apply_control_cut_state (control : ControlPlan.t) (r : t) : t :=
  r <| fuel_cut := ControlPlan.fuel_cut control |> <| spark_cut := ControlPlan.spark_cut control |>.

(** What a step writes into the engine before control is composed. *)
Definition take_inputs (validated : ValidatedInputs.t) (authority : EngineTimeAuthority.t) (r : t) : t :=
  let r := r <| engine := (((engine r) <| EngineState.rpm := ValidatedInputs.rpm validated |>)
    <| EngineState.angle_x10 := ValidatedInputs.angle_x10 validated |>)
    <| EngineState.load_kpa10 := ValidatedInputs.load_kpa10 validated |> |> in
  let r := set_engine_time_authority_inner authority r in
  r <| engine ::= fun e => e <| EngineState.mode := derive_operating_mode r |> |>.

Definition step_with_validated (now_us : Z) (validated : ValidatedInputs.t) (control_inputs : ControlInputs.t)
    (authority : EngineTimeAuthority.t) (launch_armed flat_shift_armed safety_latch_request : bool) (r : t) :
    option (t * StepResult.t) :=
  let r := take_inputs validated authority r in
  '(r, control) ← compose_control validated control_inputs launch_armed flat_shift_armed safety_latch_request r;
  let '(r, actions) := emit_actions now_us control r in
  let r := apply_control_cut_state control r in
  let torque_observations := TorqueObservations.from_step (ControlPlan.torque control) (EngineState.mode (engine r))
    (EngineState.phase (engine r)) (rev_hard_active r) (fuel_cut r) (spark_cut r) in
  let r := refresh_snapshot r in
  Some (r, StepResult.mk validated (EngineState.mode (engine r)) control actions torque_observations).

Definition step (inputs : StepInputs.t) (control_inputs : ControlInputs.t) (r : t) : option (t * StepResult.t) :=
  let validated := validate_step_scalars (StepInputs.rpm inputs) (StepInputs.load_kpa10 inputs) (StepInputs.angle_x10 inputs) in
  let authority := derive_engine_time_authority (EngineState.engine_time_authority (engine r))
    (StepInputs.trigger_synced inputs) (StepInputs.cam_seen inputs) (ValidatedInputs.rpm validated) in
  step_with_validated (StepInputs.now_us inputs) validated control_inputs authority (StepInputs.launch_armed inputs)
    (StepInputs.flat_shift_armed inputs) (StepInputs.safety_latch_request inputs) r.

Definition step_with_authority (inputs : AuthorityStepInputs.t) (control_inputs : ControlInputs.t) (r : t) :
    option (t * StepResult.t) :=
  let validated := validate_step_scalars (AuthorityStepInputs.rpm inputs) (AuthorityStepInputs.load_kpa10 inputs)
    (AuthorityStepInputs.angle_x10 inputs) in
  step_with_validated (AuthorityStepInputs.now_us inputs) validated control_inputs (AuthorityStepInputs.authority inputs)
    (AuthorityStepInputs.launch_armed inputs) (AuthorityStepInputs.flat_shift_armed inputs)
    (AuthorityStepInputs.safety_latch_request inputs) r.

Definition step_with_differential_input (input : DifferentialInput.t) (control_inputs : ControlInputs.t) (r : t) :
    option (t * StepResult.t) :=
  let r := set_direct_cut_requests (DifferentialInput.fuel_cut input) (DifferentialInput.spark_cut input) r in
  let r := match DifferentialInput.mode input with
    | RuntimeEngineMode.Shutdown => set_fault_state FaultCode.SafetyCut FaultSeverity.Critical CancelReason.SafetyShutdown r
    | _ => set_fault_state FaultCode.None FaultSeverity.Info CancelReason.Manual r end in
  let inputs := DifferentialInput.to_step_inputs input in
  let inputs := match DifferentialInput.mode input with
    | RuntimeEngineMode.Off => inputs <| StepInputs.rpm := 0 |> <| StepInputs.load_kpa10 := 0 |>
        <| StepInputs.trigger_synced := false |> <| StepInputs.cam_seen := false |>
    | RuntimeEngineMode.Cranking => inputs <| StepInputs.rpm := Z.max (StepInputs.rpm inputs) 1 |>
        <| StepInputs.trigger_synced := false |> <| StepInputs.cam_seen := false |>
    | RuntimeEngineMode.Running => inputs <| StepInputs.rpm := Z.max (StepInputs.rpm inputs) 1 |>
        <| StepInputs.trigger_synced := true |> <| StepInputs.cam_seen := true |>
    | RuntimeEngineMode.Shutdown => inputs end in
  step inputs control_inputs r.
End step.

(** ** Decoder observations (engine/snapshot.rs) *)
Module DecoderObservation.
Inductive t :=
| Trigger (at_us rpm angle_x10 : Z) (synced : bool)
| Cam (at_us : Z) (cam_seen : bool).
End DecoderObservation.

Definition apply_decoder_observation (observation : DecoderObservation.t) (r : EngineRuntime.t) : EngineRuntime.t :=
  let authority_of r := EngineState.engine_time_authority (EngineRuntime.engine r) in
  refresh_snapshot
    match observation with
    | DecoderObservation.Trigger _ rpm angle_x10 synced =>
      let r := r <| EngineRuntime.engine ::= fun e => (e <| EngineState.rpm := rpm |>) <| EngineState.angle_x10 := angle_x10 |> |> in
      let cam_seen := match EngineTimeAuthority.phase (authority_of r) with
        | PhaseSyncState.CamObserved720 | PhaseSyncState.CamValidated720 => true | _ => false end in
      set_engine_time_authority_inner (derive_engine_time_authority (authority_of r) synced cam_seen rpm) r
    | DecoderObservation.Cam _ cam_seen =>
      set_engine_time_authority_inner
        (derive_engine_time_authority (authority_of r) (EngineTimeAuthority.has_primary_lock (authority_of r)) cam_seen
          (EngineState.rpm (EngineRuntime.engine r))) r
    end.
