(* ===== verification/EngineRun.v ===== *)
(** * Runs of the runtime engine

    What a step may arm and when it must cancel, that the actions it emits and the windows
    it reserves correspond, and what every run of the engine of EngineStep.v keeps. *)
From S2P Require Import Prelude Domain Semantic SemanticFuel SemanticSchedule Control.
From S2P Require Import ExpertTrigger Calibration BoardApi SchedTypes Queue SchedState Batch Scheduler Planner Lowering.
From S2P Require Import Engine EngineStep.

(** ** Lemmas: what an emission adds *)

(** A batch of the runtime that batch_holds [xs]. *)
Definition batch_holds (xs : list Action.t) (b : ActionBatch.t) : Prop :=
  ActionBatch.actions b = (Some <$> xs) ++ replicate (RUNTIME_ACTION_CAP - length xs) None
  /\ ActionBatch.len b = Z.of_nat (length xs) /\ (length xs <= RUNTIME_ACTION_CAP)%nat.

Lemma batch_holds_new : batch_holds [] (ActionBatch.new RUNTIME_ACTION_CAP).
Proof. split; [done|]. split; [done|]. cbn; lia. Qed.

Lemma batch_holds_push xs b a : batch_holds xs b -> (length xs < RUNTIME_ACTION_CAP)%nat -> batch_holds (xs ++ [a]) (push_action a b).
Proof.
  intros (Ha & Hl & _) Hlt. unfold push_action, ActionBatch.push. rewrite Ha, Hl, length_app, length_fmap, length_replicate.
  destruct (Z.eqb_spec (Z.of_nat (length xs)) (Z.of_nat (length xs + (RUNTIME_ACTION_CAP - length xs)))); [lia|]. unfold batch_holds. cbn [fst].
  cbn [ActionBatch.actions ActionBatch.len]. rewrite length_app, Nat2Z.id. cbn [length]. split; [|split; lia].
  rewrite insert_app_r_alt, length_fmap, Nat.sub_diag by (rewrite length_fmap; lia).
  replace (RUNTIME_ACTION_CAP - length xs)%nat with (S (RUNTIME_ACTION_CAP - (length xs + 1))) by lia.
  cbn [replicate]. rewrite fmap_app. cbn. by rewrite <- app_assoc.
Qed.

Lemma batch_holds_iter xs b : batch_holds xs b -> ActionBatch.iter b = xs.
Proof.
  intros (Ha & _). unfold ActionBatch.iter. rewrite Ha, omap_app, omap_replicate_None, app_nil_r. apply list_fmap_omap_ok.
Qed.

Lemma batch_holds_len xs b : batch_holds xs b -> (ActionBatch.len b =? 0) = bool_decide (xs = []).
Proof. intros (_ & -> & _). by destruct xs. Qed.

(** The windows an action arms. *)
Definition injection_reservation (p : TimedInjectionPlan.t) : Window.t :=
  Window.mk (InjectionPlan.output (TimedInjectionPlan.plan p)) (TimedInjectionPlan.start_at p) (TimedInjectionPlan.end_at p).
Definition ignition_reservation (p : TimedIgnitionPlan.t) : Window.t :=
  Window.mk (IgnitionPlan.output (TimedIgnitionPlan.plan p)) (TimedIgnitionPlan.start_at p) (TimedIgnitionPlan.end_at p).
Definition action_windows (action : Action.t) : list Window.t :=
  match action with
  | Action.ArmScheduler injection ignition => [injection_reservation injection; ignition_reservation ignition]
  | Action.ArmInjection injection => [injection_reservation injection]
  | Action.ArmIgnition ignition => [ignition_reservation ignition]
  | _ => []
  end.
Definition armed_windows (actions : list Action.t) : list Window.t := concat (action_windows <$> actions).

Lemma armed_windows_app xs ys : armed_windows (xs ++ ys) = armed_windows xs ++ armed_windows ys.
Proof. unfold armed_windows. by rewrite fmap_app, concat_app. Qed.

(** A window of the future. *)
Definition ahead_of (now : Z) (w : Window.t) : Prop := now < Window.start_at w < Window.end_at w.

(** The groups a control plan lets the engine drive. *)
Definition group_allowed (control : ControlPlan.t) (g : OutputGroup.t) : Prop :=
  match g with
  | OutputGroup.Injector => ControlPlan.fuel_cut control = false /\ ControlPlan.enriched_fuel control <> 0
  | OutputGroup.Ignition => ControlPlan.spark_cut control = false
  | _ => False
  end.

(** What a control plan may arm at [now]. *)
Definition may_arm (now : Z) (control : ControlPlan.t) (action : Action.t) : Prop :=
  Forall (ahead_of now) (action_windows action) /\ action_windows action <> []
  /\ (forall w, w ∈ action_windows action -> group_allowed control (ExclusiveChannel.group (Window.output w))).

(** [e'] arms at most [n] more actions than [e], and reserves exactly their windows. *)
Definition extends (n : nat) (now : Z) (control : ControlPlan.t) (e e' : Emission) : Prop :=
  forall acts, batch_holds acts (snd e) -> (length acts + n <= RUNTIME_ACTION_CAP)%nat ->
  exists xs, (length xs <= n)%nat /\ Forall (may_arm now control) xs /\ batch_holds (acts ++ xs) (snd e')
    /\ windows (fst e') ≡ₚ armed_windows xs ++ windows (fst e)
    /\ frontier (fst e') = frontier (fst e)
    /\ (ownership_inv (fst e) -> ownership_inv (fst e')).

Lemma extends_refl now control e : extends 0 now control e e.
Proof.
  intros acts Ha _. exists []. rewrite app_nil_r. split_and!; [done|constructor|done|done|done|done].
Qed.

Lemma extends_weaken m n now control e e' : (m <= n)%nat -> extends m now control e e' -> extends n now control e e'.
Proof.
  intros Hm H acts Ha Hl. destruct (H acts Ha ltac:(lia)) as (xs & Hx & ? & ? & ? & ? & ?). exists xs. split_and!; [lia|done..].
Qed.

Lemma extends_trans m n now control e1 e2 e3 :
  extends m now control e1 e2 -> extends n now control e2 e3 -> extends (m + n) now control e1 e3.
Proof.
  intros H1 H2 acts Ha Hl. destruct (H1 acts Ha ltac:(lia)) as (xs & Hx & Px & Hx2 & Wx & Fx & Ox).
  destruct (H2 (acts ++ xs) Hx2 ltac:(rewrite length_app; lia)) as (ys & Hy & Py & Hy2 & Wy & Fy & Oy).
  exists (xs ++ ys). rewrite length_app, app_assoc, armed_windows_app. split_and!; [lia|by apply Forall_app|done| |congruence|auto].
  rewrite Wy, Wx. rewrite app_assoc. by rewrite (Permutation_app_comm (armed_windows ys)).
Qed.

Lemma extends_fold {A} (f : Emission -> A -> Emission) n now control xs e :
  (forall x e, x ∈ xs -> extends n now control e (f e x)) ->
  extends (length xs * n) now control e (fold_left f xs e).
Proof.
  revert e. induction xs as [|x xs IH]; intros e H; [apply extends_refl|]. cbn [fold_left length Nat.mul].
  eapply extends_trans; [apply H; by left|]. apply IH. intros y e' Hy. apply H. by right.
Qed.

(** [s'] is [s] with the window [w] of the future booked. *)
Definition books (now : Z) (w : Window.t) (s s' : SchedulerState.t) : Prop :=
  ahead_of now w /\ windows s' ≡ₚ w :: windows s /\ frontier s' = frontier s /\ (ownership_inv s -> ownership_inv s').

Lemma reserved_books now a b output s s1 s2 :
  SchedulerState.reserve_window output a b s = (s1, Ok tt) -> now < a < b -> 0 <= ExclusiveChannel.channel output ->
  ownership s2 = ownership s1 -> frontier s2 = frontier s1 -> books now (Window.mk output a b) s s2.
Proof.
  intros Hr Hlt Hc Ho Hf. destruct (reserve_window_ok _ _ _ _ _ Hr) as (_ & Hw & _ & _ & Hfr).
  split; [done|]. split; [|split; [congruence|]].
  - assert (windows s2 = windows s1) as -> by (unfold ownership in Ho; unfold windows; congruence). done.
  - intros Hi. eapply ownership_inv_ext; [symmetry; exact Ho|].
    replace s1 with (fst (SchedulerState.reserve_window output a b s)) by (by rewrite Hr). by apply ownership_reserve.
Qed.

Lemma schedule_injection_books now a b plan s : 0 <= ExclusiveChannel.channel (InjectionPlan.output plan) ->
  let '(s', r) := SchedulerState.schedule_injection now a b plan s in
  match r with
  | Ok p => p = TimedInjectionPlan.mk plan a b /\ books now (injection_reservation p) s s'
  | Err _ => s' = s
  end.
Proof.
  intros Hc. pose proof (schedule_injection_cases now a b plan s) as H.
  destruct (SchedulerState.schedule_injection now a b plan s) as [s' r].
  destruct H as [([_ Hlt] & s1 & Hr & -> & ->)|(-> & e & -> & _)]; [|done]. split; [done|]. by eapply reserved_books.
Qed.

Lemma schedule_ignition_books now a b plan s : 0 <= ExclusiveChannel.channel (IgnitionPlan.output plan) ->
  let '(s', r) := SchedulerState.schedule_ignition now a b plan s in
  match r with
  | Ok p => p = TimedIgnitionPlan.mk plan a b /\ books now (ignition_reservation p) s s'
  | Err _ => s' = s
  end.
Proof.
  intros Hc. pose proof (schedule_ignition_cases now a b plan s) as H.
  destruct (SchedulerState.schedule_ignition now a b plan s) as [s' r].
  destruct H as [([_ Hlt] & s1 & Hr & -> & ->)|(-> & e & -> & _)]; [|done]. split; [done|]. by eapply reserved_books.
Qed.

(** One booking and its action. *)
Lemma extends_one now control e s a w :
  action_windows a = [w] -> group_allowed control (ExclusiveChannel.group (Window.output w)) -> books now w (fst e) s ->
  extends 1 now control e (s, push_action a (snd e)).
Proof.
  intros Ha Hg (Hlt & Hw & Hf & Ho) acts Hacts Hl. exists [a].
  split_and!; [done| |by apply batch_holds_push; [|lia]| |done|done].
  - constructor; [|constructor]. unfold may_arm. rewrite Ha. split; [by constructor|]. split; [done|].
    by intros ? ->%list_elem_of_singleton.
  - cbn. by rewrite Ha, Hw.
Qed.

Lemma extends_arm_injection now control p e :
  channel_ok (ExclusiveChannel.channel (InjectionPlan.output (TimedInjectionPlan.plan p))) ->
  group_allowed control (ExclusiveChannel.group (InjectionPlan.output (TimedInjectionPlan.plan p))) ->
  extends 1 now control e (arm_injection now p e).
Proof.
  intros [Hc _] Hg. unfold arm_injection.
  pose proof (schedule_injection_books now (TimedInjectionPlan.start_at p) (TimedInjectionPlan.end_at p)
    (TimedInjectionPlan.plan p) (fst e) Hc) as H.
  destruct (SchedulerState.schedule_injection _ _ _ _ (fst e)) as [s [timed|err]].
  - destruct H as [-> Hb]. eapply extends_one; [done|exact Hg|exact Hb].
  - subst s. destruct e. by eapply extends_weaken, extends_refl; lia.
Qed.

Lemma extends_arm_ignition now control p e :
  channel_ok (ExclusiveChannel.channel (IgnitionPlan.output (TimedIgnitionPlan.plan p))) ->
  group_allowed control (ExclusiveChannel.group (IgnitionPlan.output (TimedIgnitionPlan.plan p))) ->
  extends 1 now control e (arm_ignition now p e).
Proof.
  intros [Hc _] Hg. unfold arm_ignition.
  pose proof (schedule_ignition_books now (TimedIgnitionPlan.start_at p) (TimedIgnitionPlan.end_at p)
    (TimedIgnitionPlan.plan p) (fst e) Hc) as H.
  destruct (SchedulerState.schedule_ignition _ _ _ _ (fst e)) as [s [timed|err]].
  - destruct H as [-> Hb]. eapply extends_one; [done|exact Hg|exact Hb].
  - subst s. destruct e. by eapply extends_weaken, extends_refl; lia.
Qed.

(** ** The outputs of a locked engine *)

(** The windows of a scheduler that the profile does not cancel: only the legacy channel
    cancels the windows of a group it may not drive. *)
Definition kept (profile : RuntimeOutputProfile.t) (control : ControlPlan.t) (w : Window.t) : bool :=
  match profile, ExclusiveChannel.group (Window.output w) with
  | RuntimeOutputProfile.LegacySingleChannel, OutputGroup.Injector => allow_injection control
  | RuntimeOutputProfile.LegacySingleChannel, OutputGroup.Ignition => allow_ignition control
  | _, _ => true
  end.

(** Either nothing but an idle mark, or actions that may all be armed. *)
Definition profile_actions (now : Z) (control : ControlPlan.t) (xs : list Action.t) : Prop :=
  xs = [Action.Idle] \/ xs <> [] /\ Forall (may_arm now control) xs.

(** The emission [e'] of the profile over the scheduler [s]: its actions, and the windows
    that stay and those booked. *)
Definition emitted (now : Z) (control : ControlPlan.t) (profile : RuntimeOutputProfile.t) (s : SchedulerState.t)
    (xs : list Action.t) (e' : Emission) : Prop :=
  batch_holds xs (snd e') /\ (length xs <= MAX_SCHEDULED_WINDOWS)%nat /\ profile_actions now control xs
  /\ windows (fst e') ≡ₚ armed_windows xs ++ filter (kept profile control) (windows s)
  /\ frontier (fst e') = frontier s /\ (ownership_inv s -> ownership_inv (fst e')).

Lemma filter_everything {A} (P : A -> Prop) `{forall x, Decision (P x)} (xs : list A) : (forall x, P x) -> filter P xs = xs.
Proof. intros HP. induction xs as [|x xs IH]; [done|]. rewrite filter_cons, IH. by rewrite decide_True. Qed.

Lemma filter_kept_all profile control (ws : list Window.t) :
  profile <> RuntimeOutputProfile.LegacySingleChannel -> filter (kept profile control) ws = ws.
Proof. intros Hp. apply filter_everything. intros w. by destruct profile. Qed.

Lemma max_windows : MAX_SCHEDULED_WINDOWS = 16%nat.
Proof. done. Qed.

Ltac caps := rewrite ?max_windows in *; unfold RUNTIME_ACTION_CAP in *; cbn [length app] in *; lia.

(** A profile that idles. *)
Lemma emitted_idle now control profile s actions :
  profile <> RuntimeOutputProfile.LegacySingleChannel -> batch_holds [] actions ->
  emitted now control profile s [Action.Idle] (s, push_action Action.Idle actions).
Proof.
  intros Hp Ha. split_and!; [by apply (batch_holds_push []); [|caps]|caps|by left| |done|done].
  by rewrite filter_kept_all.
Qed.

(** A profile that arms what it can and idles if that is nothing. *)
Lemma emitted_extends n now control profile s actions e' :
  profile <> RuntimeOutputProfile.LegacySingleChannel -> batch_holds [] actions -> (n <= MAX_SCHEDULED_WINDOWS)%nat ->
  extends n now control (s, actions) e' -> exists xs, emitted now control profile s xs (idle_if_empty e').
Proof.
  intros Hp Ha Hn He. destruct (He [] Ha) as (xs & Hx & Hm & Hh & Hw & Hf & Ho); [caps|]. cbn [app fst] in *.
  unfold idle_if_empty. rewrite (batch_holds_len xs) by done. case_bool_decide as E.
  - subst xs. exists [Action.Idle]. split_and!; [by apply (batch_holds_push []); [|caps]|caps|by left| |done|done].
    cbn. by rewrite filter_kept_all.
  - exists xs. split_and!; [done|lia|by right| |done|done]. by rewrite filter_kept_all.
Qed.

Lemma cancel_group_windows g s :
  windows (SchedulerState.cancel_group g s)
  = filter (fun w => bool_decide (ExclusiveChannel.group (Window.output w) = g) = false) (windows s).
Proof. unfold SchedulerState.cancel_group. rewrite <- clear_if_occupied. by destruct (_ && _). Qed.


(** One side of the legacy channel: from [s] to [s1], with the window it booked. *)
Definition legacy_side (now : Z) (control : ControlPlan.t) (g : OutputGroup.t) (allowed : bool)
    (s s1 : SchedulerState.t) (booked : list Window.t) : Prop :=
  (booked = [] \/ exists w, booked = [w] /\ ExclusiveChannel.group (Window.output w) = g /\ ahead_of now w /\ group_allowed control g)
  /\ windows s1 ≡ₚ booked ++ filter (fun w => ExclusiveChannel.group (Window.output w) = g -> allowed = true) (windows s)
  /\ frontier s1 = frontier s /\ (ownership_inv s -> ownership_inv s1).

Lemma legacy_side_cancel now control g s : legacy_side now control g false s (SchedulerState.cancel_group g s) [].
Proof.
  split; [by left|]. split; [|split; [apply cancel_group_frontier|apply ownership_cancel_group]].
  rewrite cancel_group_windows. apply reflexive_eq, list_filter_iff. intros w. rewrite bool_decide_eq_false. naive_solver.
Qed.

Lemma legacy_filter_all g (ws : list Window.t) :
  filter (fun w => ExclusiveChannel.group (Window.output w) = g -> true = true) ws = ws.
Proof. by apply filter_everything. Qed.

Lemma legacy_side_keep now control g s : legacy_side now control g true s s [].
Proof. split; [by left|]. by rewrite legacy_filter_all. Qed.

Lemma legacy_side_books now control g w s s1 :
  ExclusiveChannel.group (Window.output w) = g -> group_allowed control g -> books now w s s1 ->
  legacy_side now control g true s s1 [w].
Proof.
  intros Hg Ha (Hlt & Hw & Hf & Ho). split; [right; by exists w|]. rewrite legacy_filter_all. done.
Qed.

(** The two sides of a locked legacy engine. *)
Lemma legacy_sides now control s s1 s2 b1 b2 :
  legacy_side now control OutputGroup.Injector (allow_injection control) s s1 b1 ->
  legacy_side now control OutputGroup.Ignition (allow_ignition control) s1 s2 b2 ->
  windows s2 ≡ₚ b1 ++ b2 ++ filter (kept RuntimeOutputProfile.LegacySingleChannel control) (windows s)
  /\ frontier s2 = frontier s /\ (ownership_inv s -> ownership_inv s2).
Proof.
  intros (H1 & W1 & F1 & O1) (H2 & W2 & F2 & O2). split; [|split; [congruence|auto]].
  rewrite W2, W1, filter_app, list_filter_filter.
  assert (forall b, (b = [] \/ exists w, b = [w] /\ ExclusiveChannel.group (Window.output w) = OutputGroup.Injector) ->
    filter (fun w => ExclusiveChannel.group (Window.output w) = OutputGroup.Ignition -> allow_ignition control = true) b = b) as Hb.
  { intros b [->|(w & -> & Hw)]; [done|]. rewrite filter_cons, decide_True; [done|]. rewrite Hw. done. }
  rewrite (Hb b1) by naive_solver. rewrite (Permutation_app_swap_app b2). do 2 apply Permutation_app_head.
  apply reflexive_eq, list_filter_iff. intros w. unfold kept.
  destruct (ExclusiveChannel.group (Window.output w)), (allow_injection control), (allow_ignition control); cbn;
    intuition (done || auto).
Qed.

Lemma allow_injection_group control : allow_injection control = true -> group_allowed control OutputGroup.Injector.
Proof. unfold allow_injection. intros [H1%negb_true_iff H2%Z.ltb_lt]%andb_true_iff. split; [done|lia]. Qed.
Lemma allow_ignition_group control : allow_ignition control = true -> group_allowed control OutputGroup.Ignition.
Proof. unfold allow_ignition. by intros [H1%negb_true_iff _]%andb_true_iff. Qed.

Lemma legacy_injection_side now control s :
  let '(s1, p) := legacy_injection now control s in
  legacy_side now control OutputGroup.Injector (allow_injection control) s s1 (from_option (fun p => [injection_reservation p]) [] p).
Proof.
  unfold legacy_injection. destruct (allow_injection control) eqn:E; [|apply legacy_side_cancel].
  match goal with |- context [SchedulerState.schedule_injection now ?a ?b ?plan s] =>
    pose proof (schedule_injection_books now a b plan s ltac:(done)) as H;
    destruct (SchedulerState.schedule_injection now a b plan s) as [s1 [p|err]] end.
  - destruct H as [-> Hb]. apply legacy_side_books; [done|by apply allow_injection_group|exact Hb].
  - subst. apply legacy_side_keep.
Qed.

Lemma legacy_ignition_side now control s :
  let '(s1, p) := legacy_ignition now control s in
  legacy_side now control OutputGroup.Ignition (allow_ignition control) s s1 (from_option (fun p => [ignition_reservation p]) [] p).
Proof.
  unfold legacy_ignition. destruct (allow_ignition control) eqn:E; [|apply legacy_side_cancel].
  match goal with |- context [SchedulerState.schedule_ignition now ?a ?b ?plan s] =>
    pose proof (schedule_ignition_books now a b plan s ltac:(done)) as H;
    destruct (SchedulerState.schedule_ignition now a b plan s) as [s1 [p|err]] end.
  - destruct H as [-> Hb]. apply legacy_side_books; [done|by apply allow_ignition_group|exact Hb].
  - subst. apply legacy_side_keep.
Qed.

Lemma emit_legacy_emitted now control s actions : batch_holds [] actions ->
  exists xs, emitted now control RuntimeOutputProfile.LegacySingleChannel s xs (emit_legacy now control (s, actions)).
Proof.
  intros Ha. unfold emit_legacy. cbn [fst snd]. pose proof (legacy_injection_side now control s) as S1.
  destruct (legacy_injection now control s) as [s1 p1]. pose proof (legacy_ignition_side now control s1) as S2.
  destruct (legacy_ignition now control s1) as [s2 p2].
  destruct (legacy_sides _ _ _ _ _ _ _ S1 S2) as (Hw & Hf & Ho). destruct S1 as [B1 _], S2 as [B2 _].
  match goal with |- context [push_action ?a _] => set (action := a); exists [action] end.
  assert (armed_windows [action] = from_option (fun p => [injection_reservation p]) [] p1
    ++ from_option (fun p => [ignition_reservation p]) [] p2) as Haw by (by destruct p1, p2).
  split_and!; [by apply (batch_holds_push []); [|caps]|caps| |by rewrite Haw, <- app_assoc|done|done].
  assert (Forall (fun w => ahead_of now w /\ group_allowed control (ExclusiveChannel.group (Window.output w)))
    (action_windows action)) as Hall.
  { unfold armed_windows in Haw. cbn in Haw. rewrite app_nil_r in Haw. rewrite Haw. apply Forall_app.
    split; [destruct B1 as [->|(w & -> & <- & ? & ?)]|destruct B2 as [->|(w & -> & <- & ? & ?)]];
      [constructor|by apply Forall_singleton|constructor|by apply Forall_singleton]. }
  destruct p1, p2; try (by left); right; split; try done; constructor; [|constructor| |constructor| |constructor];
    (split; [by eapply Forall_impl; [exact Hall|naive_solver]|split; [done|by apply Forall_forall; eapply Forall_impl; [exact Hall|naive_solver]]]).
Qed.

(** *** Every profile *)
Lemma full_ecu_events_le p : FullEcuOutputProfile.event_count p <= FULL_ECU_MAX_CYLINDERS.
Proof.
  unfold FullEcuOutputProfile.event_count, FullEcuOutputProfile.is_valid.
  destruct (InjectionOutputProfile.is_valid (FullEcuOutputProfile.injection p)) eqn:E; [|done]. destruct (_ && _); [|done].
  unfold InjectionOutputProfile.event_count. rewrite E. unfold InjectionOutputProfile.is_valid in E.
  destruct (_ || _) eqn:B; [done|]. repeat match goal with H : (_ || _) = false |- _ => apply orb_false_iff in H as [? ?] end. lia.
Qed.

Lemma seqZ_events n : n <= FULL_ECU_MAX_CYLINDERS -> (length (seqZ 0 n) <= 8)%nat.
Proof. unfold FULL_ECU_MAX_CYLINDERS. rewrite length_seqZ. lia. Qed.

Lemma extends_slot now control profile r e slot : extends 2 now control e (emit_full_ecu_slot now control profile r e slot).
Proof.
  unfold emit_full_ecu_slot. apply (extends_trans 1 1 _ _ _
    (if allow_injection control then arm_injection now (make_full_ecu_injection_plan profile slot control now r) e else e)).
  - destruct (allow_injection control) eqn:E; [|by eapply extends_weaken, extends_refl; lia].
    apply extends_arm_injection; [apply injector_channel_ok|by apply allow_injection_group].
  - destruct (allow_ignition control) eqn:E; [|by eapply extends_weaken, extends_refl; lia].
    apply extends_arm_ignition; [apply ignition_channel_ok|by apply allow_ignition_group].
Qed.

(** What [emit_profile] emits for any profile, from an empty batch. *)
Lemma emit_profile_emitted now control r s actions : batch_holds [] actions ->
  exists xs, emitted now control (EngineRuntime.output_profile r) s xs (emit_profile now control r (s, actions)).
Proof.
  intros Ha. unfold emit_profile. destruct (EngineRuntime.output_profile r) as [|profile|profile|profile] eqn:Ep.
  - by apply emit_legacy_emitted.
  - destruct (_ || _) eqn:Ec; [eexists; by apply emitted_idle|]. apply orb_false_iff in Ec as [_ Ec].
    eapply emitted_extends; [done|done| |apply (extends_fold _ 1)].
    + pose proof (seqZ_events _ (proj2 (events_per_crank_rev_bounds profile))).
      unfold IgnitionScheduler.event_count. cbn [IgnitionScheduler.profile]. caps.
    + intros i e _. apply extends_arm_ignition; [apply spark_channel_ok|exact Ec].
  - destruct (_ || _) eqn:Ec; [eexists; by apply emitted_idle|]. apply orb_false_iff in Ec as [[_ Ec]%orb_false_iff Ez%Z.eqb_neq].
    eapply emitted_extends; [done|done| |apply (extends_fold _ 1)].
    + pose proof (seqZ_events _ (proj2 (events_per_pulse_bounds profile))).
      unfold InjectionScheduler.event_count. cbn [InjectionScheduler.profile]. caps.
    + intros i e _. apply extends_arm_injection; [apply fuel_channel_ok|]. done.
  - destruct (_ || _) eqn:Ec; [eexists; by apply emitted_idle|].
    eapply emitted_extends; [done|done| |apply (extends_fold _ 2)].
    + pose proof (seqZ_events _ (full_ecu_events_le profile)). caps.
    + intros i e _. apply extends_slot.
Qed.

(** ** What composing control leaves alone *)
Section frame.
Import EngineRuntime.

Definition base_fields (r : t) := (engine r, faults r, calibration r, scheduler r, output_profile r).

Lemma clear_flags_base r : base_fields (clear_semantic_runtime_flags r) = base_fields r.
Proof. done. Qed.

Lemma apply_flags_base state r : base_fields (apply_semantic_runtime_flags state r) = base_fields r.
Proof. done. Qed.

Lemma direct_flags_base mode latch r : base_fields (fst (apply_direct_runtime_flags mode latch r)) = base_fields r.
Proof. unfold apply_direct_runtime_flags. by destruct (_ && _), latch. Qed.

Lemma direct_intent_base model input latch r r' intent :
  direct_fuel_intent model input latch r = Some (r', intent) -> base_fields r' = base_fields r.
Proof.
  unfold direct_fuel_intent. pose proof (direct_flags_base (StrategyInput.mode input) latch r) as H.
  destruct (apply_direct_runtime_flags _ _ r) as [r1 latched]. intros (pw & _ & [= <- _])%bind_Some. exact H.
Qed.

Lemma fuel_intent_base input latch r r' intent :
  compute_fuel_intent input latch r = Some (r', intent) -> base_fields r' = base_fields r.
Proof.
  unfold compute_fuel_intent. destruct (ControlPlannerState.fuel_strategy (planners r)); [apply direct_intent_base|..];
    intros ([i [state'|]] & _ & [= <- _])%bind_Some; done.
Qed.

Lemma compose_control_base validated inputs launch shift latch r r' control :
  compose_control validated inputs launch shift latch r = Some (r', control) -> base_fields r' = base_fields r.
Proof.
  unfold compose_control. intros ([r1 intent] & Hi & H)%bind_Some. apply fuel_intent_base in Hi.
  repeat match goal with
    | H : context [let '(_, _) := ?p in _] |- _ => is_var p; destruct p
    | H : (_ ≫= _) = Some _ |- _ => apply bind_Some in H as (? & _ & H)
    end.
  injection H as <- _. exact Hi.
Qed.
End frame.

(** ** What a step may make the outputs do *)
Section outputs.
Import EngineRuntime.

(** The engine may not drive its outputs on the time it has: no lock, or less than the
    profile asks for. *)
Definition authority_missing (r : t) : bool :=
  output_profile_requires_full_sequential_authority (output_profile r)
  && negb (runtime_full_sequential_authorized (EngineState.engine_time_authority (engine r))).

(** Nothing scheduled, the scheduler suspended and every permit withdrawn. *)
Definition stood_down (s : SchedulerState.t) : Prop :=
  windows s = [] /\ SchedulerState.mode s = SchedulerMode.Suspended
  /\ SchedulerState.active_permit_mask s = SafetyPermitMask.NONE /\ ownership_inv s.

(** The first actions of a step in a runtime [r] that found the scheduler [s], and the
    scheduler they leave. *)
Inductive outputs (now : Z) (control : ControlPlan.t) (r : t) (s : SchedulerState.t) :
    list Action.t -> SchedulerState.t -> Prop :=
| outputs_shutdown s' : hard_shutdown r = true -> s' = SchedulerState.on_hard_safety_shutdown s -> stood_down s' ->
    outputs now control r s [Action.CancelScheduler CancelReason.SafetyShutdown] s'
| outputs_cancel s' : hard_shutdown r = false -> SchedulerState.is_armed s = true ->
    EngineState.sync (engine r) = SyncState.Unsynced \/ authority_missing r = true ->
    s' = SchedulerState.on_sync_loss s -> stood_down s' ->
    outputs now control r s [Action.CancelScheduler CancelReason.SyncLoss] s'
| outputs_hold : hard_shutdown r = false ->
    (SchedulerState.is_armed s = false /\ (EngineState.sync (engine r) = SyncState.Unsynced \/ authority_missing r = true))
    \/ (EngineState.sync (engine r) = SyncState.Provisional /\ authority_missing r = false) ->
    outputs now control r s [Action.Idle] s
| outputs_drive kind xs s' : hard_shutdown r = false -> authority_missing r = false ->
    EngineState.sync (engine r) = SyncState.Locked kind ->
    profile_actions now control xs -> (length xs <= MAX_SCHEDULED_WINDOWS)%nat ->
    windows s' ≡ₚ armed_windows xs ++ filter (kept (output_profile r) control) (windows s) ->
    frontier s' = frontier s -> (ownership_inv s -> ownership_inv s') ->
    outputs now control r s xs s'.

Lemma stood_down_suspend s : SchedulerState.active_permit_mask s = SafetyPermitMask.NONE -> stood_down (SchedulerState.suspend s).
Proof.
  intros Hm. split; [|split; [done|split; [|apply ownership_suspend]]]; unfold SchedulerState.suspend,
    SchedulerState.clear_scheduled_ownership, SchedulerState.refresh_mode_from_groups; by destruct (negb _).
Qed.

Lemma stood_down_sync_loss s : stood_down (SchedulerState.on_sync_loss s).
Proof. by apply stood_down_suspend. Qed.

Lemma stood_down_shutdown s : stood_down (SchedulerState.on_hard_safety_shutdown s).
Proof. by apply stood_down_suspend. Qed.

Lemma sync_recovered_keeps s : windows (SchedulerState.on_sync_recovered s) = windows s
  /\ frontier (SchedulerState.on_sync_recovered s) = frontier s.
Proof. unfold SchedulerState.on_sync_recovered. by destruct (bool_decide _). Qed.

Lemma emit_outputs_spec now control r :
  exists xs, batch_holds xs (snd (emit_outputs now control r)) /\ (length xs <= MAX_SCHEDULED_WINDOWS)%nat
    /\ outputs now control r (scheduler r) xs (fst (emit_outputs now control r)).
Proof.
  unfold emit_outputs. pose proof batch_holds_new as Hn.
  destruct (hard_shutdown r) eqn:Eh.
  { eexists. split; [by apply (batch_holds_push []); [|caps]|]. split; [caps|]. apply outputs_shutdown; [done|done|apply stood_down_shutdown]. }
  destruct (bool_decide _ && SchedulerState.is_armed (scheduler r)) eqn:Eu.
  { apply andb_true_iff in Eu as [Eu%bool_decide_eq_true Ea].
    eexists. split; [by apply (batch_holds_push []); [|caps]|]. split; [caps|].
    apply outputs_cancel; [done|done|by left|done|apply stood_down_sync_loss]. }
  fold (authority_missing r). destruct (authority_missing r) eqn:Em.
  { destruct (SchedulerState.is_armed (scheduler r)) eqn:Ea; eexists; (split; [by apply (batch_holds_push []); [|caps]|]); (split; [caps|]).
    - apply outputs_cancel; [done|done|by right|done|apply stood_down_sync_loss].
    - apply outputs_hold; [done|left; by auto]. }
  destruct (EngineState.sync (engine r)) eqn:Es.
  - eexists. split; [by apply (batch_holds_push []); [|caps]|]. split; [caps|]. apply outputs_hold; [done|]. left.
    rewrite andb_true_l in Eu. by auto.
  - eexists. split; [by apply (batch_holds_push []); [|caps]|]. split; [caps|]. apply outputs_hold; [done|right; by auto].
  - destruct (emit_profile_emitted now control r (SchedulerState.on_sync_recovered (scheduler r)) _ Hn)
      as (xs & Hh & Hl & Hp & Hw & Hf & Ho).
    destruct (sync_recovered_keeps (scheduler r)) as [Ew Ef]. rewrite Ew in Hw. rewrite Ef in Hf. exists xs. split; [done|]. split; [done|].
    eapply outputs_drive; try done. intros H. by apply Ho, ownership_sync_recovered.
Qed.

(** The actions that follow. *)
Definition trailing (r : t) : list Action.t :=
  (if bool_decide (EngineState.mode (engine r) = ControlMode.LimpHome) then [Action.ApplyAux (limp_home_aux_commands r)] else [])
  ++ (if CalibrationState.staged_dirty (calibration r) then [Action.PersistCalibration] else [])
  ++ [Action.PublishSnapshot].

Lemma emit_actions_spec now control r :
  let '(r', actions) := emit_actions now control r in
  exists xs, batch_holds (xs ++ trailing r) actions /\ outputs now control r (scheduler r) xs (scheduler r')
    /\ r' = r <| scheduler := scheduler r' |>.
Proof.
  unfold emit_actions. destruct (emit_outputs_spec now control r) as (xs & Hh & Hl & Ho).
  destruct (emit_outputs now control r) as [s actions]. cbn [fst snd] in *. cbv beta iota zeta. exists xs. split; [|by split].
  unfold trailing. rewrite !app_assoc.
  assert (forall (b : bool) ys a c, batch_holds ys c -> (length ys <= 18)%nat ->
    batch_holds (ys ++ (if b then [a] else [])) (if b then push_action a c else c)) as Hpush.
  { intros [] ys a c Hc Hlen; [apply batch_holds_push; [done|caps]|by rewrite app_nil_r]. }
  apply batch_holds_push; [apply Hpush; [apply Hpush; [done|caps]|]|]; rewrite ?length_app; repeat case_bool_decide;
    repeat case_match; caps.
Qed.
End outputs.

(** ** Runs *)
Module EngineOp.
(** The operations of the engine's interface that write to it. *)
Inductive t :=
| SetDirectCutRequests (fuel_cut spark_cut : bool)
| ConfigureFuel (strategy : RuntimeFuelStrategy.t)
| ConfigureStartup (config : StartupConfig.t)
| ConfigureWarmup (config : WarmupConfig.t)
| ConfigureAfterStart (config : AfterStartConfig.t)
| ConfigureAcceleration (config : AccelerationConfig.t)
| ConfigureLambda (config : LambdaTrimConfig.t)
| ConfigureDwell (config : DwellConfig.t)
| ConfigureOutput (profile : RuntimeOutputProfile.t)
| SetAuthority (authority : EngineTimeAuthority.t)
| TrySetAuthority (authority : EngineTimeAuthority.t)
| SetFault (fault : FaultCode.t) (severity : FaultSeverity.t) (reason : CancelReason.t)
| SetStagedDirty (dirty : bool)
| SensorSample (rpm load_kpa10 angle_x10 : Z)
| Observe (observation : DecoderObservation.t)
| Step (inputs : StepInputs.t) (control : ControlInputs.t)
| StepAuthority (inputs : AuthorityStepInputs.t) (control : ControlInputs.t)
| StepDifferential (input : DifferentialInput.t) (control : ControlInputs.t).

Definition run_step (stepped : option (EngineRuntime.t * StepResult.t)) : option (EngineRuntime.t * list Action.t) :=
  '(r, result) ← stepped; Some (r, ActionBatch.iter (StepResult.actions result)).

Lemma run_step_Some stepped r' actions : run_step stepped = Some (r', actions) ->
  exists result, stepped = Some (r', result) /\ actions = ActionBatch.iter (StepResult.actions result).
Proof. unfold run_step. intros ([r1 result] & -> & [= -> <-])%bind_Some. by exists result. Qed.

(** One operation: the engine it leaves and the actions it emits. *)
Definition run (op : t) (r : EngineRuntime.t) : option (EngineRuntime.t * list Action.t) :=
  let quiet r := Some (r, []) in
  match op with
  | SetDirectCutRequests fuel_cut spark_cut => quiet (set_direct_cut_requests fuel_cut spark_cut r)
  | ConfigureFuel strategy => quiet (configure_runtime_fuel_model strategy r)
  | ConfigureStartup config => quiet (configure_startup_enrichment config r)
  | ConfigureWarmup config => quiet (configure_warmup_enrichment config r)
  | ConfigureAfterStart config => quiet (configure_after_start_enrichment config r)
  | ConfigureAcceleration config => quiet (configure_acceleration_enrichment config r)
  | ConfigureLambda config => quiet (configure_lambda_trim config r)
  | ConfigureDwell config => quiet (configure_dwell config r)
  | ConfigureOutput profile => quiet (configure_output_profile profile r)
  | SetAuthority authority => quiet (set_engine_time_authority authority r)
  | TrySetAuthority authority => quiet (fst (try_set_engine_time_authority authority r))
  | SetFault fault severity reason => quiet (set_fault_state fault severity reason r)
  | SetStagedDirty dirty => quiet (set_staged_dirty dirty r)
  | SensorSample rpm load_kpa10 angle_x10 => quiet (apply_sensor_sample rpm load_kpa10 angle_x10 r)
  | Observe observation => quiet (apply_decoder_observation observation r)
  | Step inputs control => run_step (step inputs control r)
  | StepAuthority inputs control => run_step (step_with_authority inputs control r)
  | StepDifferential input control => run_step (step_with_differential_input input control r)
  end.

(** A run: the engine it ends in and all the actions on the way. *)
Fixpoint run_all (ops : list t) (r : EngineRuntime.t) : option (EngineRuntime.t * list Action.t) :=
  match ops with
  | [] => Some (r, [])
  | op :: ops =>
    '(r, actions) ← run op r;
    '(r, later) ← run_all ops r;
    Some (r, actions ++ later)
  end.
End EngineOp.

#[global] Strategy 100 [step_with_validated].

Section step_spec.
Import EngineRuntime.

(** What a step has done: its actions come from what the outputs were allowed, and the
    published snapshot is the state it leaves. *)
Definition stepped (now : Z) (r r' : t) (result : StepResult.t) : Prop :=
  exists xs, ActionBatch.iter (StepResult.actions result) = xs ++ trailing r'
    /\ outputs now (StepResult.control result) r' (scheduler r) xs (scheduler r')
    /\ faults r' = faults r /\ output_profile r' = output_profile r
    /\ EngineState.mode (engine r') = derive_operating_mode r'
    /\ StepResult.operating_mode result = derive_operating_mode r'
    /\ fuel_cut r' = ControlPlan.fuel_cut (StepResult.control result)
    /\ spark_cut r' = ControlPlan.spark_cut (StepResult.control result)
    /\ refresh_snapshot r' = r'.

Lemma outputs_ext now control r1 r2 s xs s' : engine r1 = engine r2 -> faults r1 = faults r2 ->
  output_profile r1 = output_profile r2 -> outputs now control r1 s xs s' -> outputs now control r2 s xs s'.
Proof.
  intros He Hf Hp. assert (hard_shutdown r1 = hard_shutdown r2) as Hh by (unfold hard_shutdown; by rewrite He, Hf).
  assert (authority_missing r1 = authority_missing r2) as Hm by (unfold authority_missing; by rewrite He, Hp).
  intros [s1 H1 H2 H3|s1 H1 H2 H3 H4 H5|H1 H2|kind ys s1 H1 H2 H3 H4 H5 H6 H7 H8]; rewrite ?Hh, ?Hm, ?He, ?Hp in *.
  - by constructor.
  - by constructor.
  - by constructor.
  - by econstructor.
Qed.

Lemma step_stepped now validated inputs authority launch shift latch r r' result :
  step_with_validated now validated inputs authority launch shift latch r = Some (r', result) ->
  stepped now r r' result
  /\ base_fields (r' <| scheduler := scheduler r |>) = base_fields (take_inputs validated authority r).
Proof.
  unfold step_with_validated. intros ([r1 control] & Hc & H)%bind_Some.
  apply compose_control_base in Hc. pose proof (emit_actions_spec now control r1) as He.
  destruct (emit_actions now control r1) as [r2 actions]. destruct He as (xs & Hh & Ho & Hr). cbv zeta in H.
  injection H as <- <-. set (r0 := take_inputs validated authority r) in *.
  assert (scheduler r0 = scheduler r) as Es by done. assert (faults r0 = faults r /\ output_profile r0 = output_profile r) as [Ef Ep] by done.
  assert (EngineState.mode (engine r0) = derive_operating_mode r0) as Hm0 by done. clearbody r0.
  unfold base_fields in Hc. injection Hc as E1 E2 E3 E4 E5.
  assert (EngineState.mode (engine r1) = derive_operating_mode r1) as Hm.
  { rewrite E1, Hm0. unfold derive_operating_mode. by rewrite E1, E2. }
  rewrite Hr. split.
  - exists xs. cbn -[trailing derive_operating_mode].
    split_and!; try done; try congruence; try exact Hm.
    + rewrite (batch_holds_iter _ _ Hh). done.
    + rewrite <- Es, <- E4. by eapply outputs_ext; [..|exact Ho].
  - unfold base_fields. cbn. by rewrite E1, E2, E3, E5, Es.
Qed.
End step_spec.

(** ** The invariant of the engine *)
Section invariant.
Import EngineRuntime.

(** Its scheduler is well formed and holds no permit, its sync summary is that of an
    authority that validates. *)
Record engine_inv (r : t) : Prop := {
  engine_ownership : ownership_inv (scheduler r);
  engine_frontier : frontier_inv (scheduler r);
  engine_permits : SchedulerState.active_permit_mask (scheduler r) = SafetyPermitMask.NONE;
  engine_sync : EngineState.sync (engine r) = EngineTimeAuthority.compatibility_summary (EngineState.engine_time_authority (engine r));
  engine_authority : is_ok (EngineTimeAuthority.validate (EngineState.engine_time_authority (engine r))) = true
}.

Lemma engine_inv_new : engine_inv new.
Proof. destruct scheduler_inv_new. by constructor. Qed.

(** The part of the state the invariant is about. *)
Definition inv_fields (r : t) :=
  (scheduler r, EngineState.sync (engine r), EngineState.engine_time_authority (engine r)).

Lemma engine_inv_ext r r' : inv_fields r' = inv_fields r -> engine_inv r -> engine_inv r'.
Proof. unfold inv_fields. intros [= E1 E2 E3] []. constructor; rewrite ?E1, ?E2, ?E3; done. Qed.

Lemma engine_inv_authority authority r : engine_inv r -> engine_inv (set_engine_time_authority_inner authority r).
Proof.
  intros []. unfold set_engine_time_authority_inner.
  destruct (is_ok (EngineTimeAuthority.validate authority)) eqn:E; by constructor.
Qed.

Lemma outputs_inv now control r s xs s' : outputs now control r s xs s' ->
  ownership_inv s /\ frontier_inv s /\ SchedulerState.active_permit_mask s = SafetyPermitMask.NONE ->
  ownership_inv s' /\ frontier_inv s' /\ SchedulerState.active_permit_mask s' = SafetyPermitMask.NONE.
Proof.
  intros [s1 _ -> (_ & _ & Hm & Ho)|s1 _ _ _ -> (_ & _ & Hm & Ho)|_ _|kind ys s1 _ _ _ _ _ _ Hf Ho] (Hown & Hfr & Hn); [| |done|].
  - split; [done|]. split; [|done]. by eapply frontier_inv_ext; [symmetry; apply (suspend_frontier (SchedulerState.clear_live_frontier_state _ s))|apply frontier_clear].
  - split; [done|]. split; [|done]. by eapply frontier_inv_ext; [symmetry; apply (suspend_frontier (SchedulerState.clear_live_frontier_state _ s))|apply frontier_clear].
  - split; [auto|]. split; [by eapply frontier_inv_ext|]. unfold frontier in Hf. congruence.
Qed.

Lemma step_inv now validated inputs authority launch shift latch r r' result :
  step_with_validated now validated inputs authority launch shift latch r = Some (r', result) ->
  engine_inv r -> engine_inv r'.
Proof.
  intros H Hi. apply step_stepped in H as [(xs & _ & Ho & _) Hb].
  assert (engine_inv (take_inputs validated authority r)) as Ht.
  { unfold take_inputs. eapply engine_inv_ext; [|apply (engine_inv_authority authority); eapply engine_inv_ext; [|exact Hi]]; done. }
  assert (engine r' = engine (take_inputs validated authority r)) as He by (by injection Hb).
  destruct Ht as [_ _ _ Hs Ha], Hi as [H1 H2 H3 _ _]. rewrite <- He in Hs, Ha.
  destruct (outputs_inv _ _ _ _ _ _ Ho) as (H1' & H2' & H3'); [done|]. by constructor.
Qed.

Lemma quiet_eq {A B} (a a' : A) (b b' : B) : Some (a, b) = Some (a', b') -> a' = a /\ b' = b.
Proof. by intros [= -> ->]. Qed.

Lemma engine_inv_run op r r' acts : EngineOp.run op r = Some (r', acts) -> engine_inv r -> engine_inv r'.
Proof.
  intros H Hi. destruct op; cbn [EngineOp.run] in H;
    first [apply EngineOp.run_step_Some in H as (result & H & _) | apply quiet_eq in H as [-> _]];
    try (apply (engine_inv_ext r); [reflexivity|exact Hi]).
  - apply (engine_inv_ext (set_engine_time_authority_inner authority r)); [reflexivity|]. by apply engine_inv_authority.
  - unfold try_set_engine_time_authority. destruct (EngineTimeAuthority.validate authority) eqn:E; [|done].
    apply (engine_inv_ext (set_engine_time_authority_inner authority r)); [|by apply engine_inv_authority].
    unfold set_engine_time_authority_inner. by rewrite E.
  - unfold apply_decoder_observation.
    destruct observation; (eapply engine_inv_ext; [|apply engine_inv_authority; eapply engine_inv_ext; [|exact Hi]]); reflexivity.
  - unfold step in H. by eapply step_inv.
  - unfold step_with_authority in H. by eapply step_inv.
  - unfold step_with_differential_input, step in H. eapply step_inv; [exact H|].
    destruct (DifferentialInput.mode input); (apply (engine_inv_ext r); [reflexivity|exact Hi]).
Qed.

Lemma engine_inv_run_all ops r r' acts : EngineOp.run_all ops r = Some (r', acts) -> engine_inv r -> engine_inv r'.
Proof.
  revert r acts. induction ops as [|op ops IH]; cbn; intros r acts H Hi; [by simplify_eq|].
  apply bind_Some in H as ([r1 a] & H1 & H). apply bind_Some in H as ([r2 b] & H2 & [= <- _]).
  eapply IH; [done|]. by eapply engine_inv_run.
Qed.
End invariant.

(** ** Theorems *)
Section theorems.
Import EngineRuntime.

Lemma trailing_windows r : armed_windows (trailing r) = [].
Proof. unfold trailing. by repeat case_match. Qed.

(** Without a cancellation no window leaves the scheduler. *)
Lemma outputs_windows now control r s xs s' : outputs now control r s xs s' ->
  output_profile r <> RuntimeOutputProfile.LegacySingleChannel -> Forall (fun a => forall reason, a <> Action.CancelScheduler reason) xs ->
  windows s' ≡ₚ armed_windows xs ++ windows s.
Proof.
  intros [s1 _ _ _|s1 _ _ _ _ _|_ _|kind ys s1 _ _ _ _ _ Hw _ _] Hp Hc;
    [by destruct (Forall_inv Hc CancelReason.SafetyShutdown)|by destruct (Forall_inv Hc CancelReason.SyncLoss)|done|].
  by rewrite Hw, filter_kept_all.
Qed.

Lemma step_windows now validated inputs authority launch shift latch r r' result :
  step_with_validated now validated inputs authority launch shift latch r = Some (r', result) ->
  output_profile r <> RuntimeOutputProfile.LegacySingleChannel ->
  Forall (fun a => forall reason, a <> Action.CancelScheduler reason) (ActionBatch.iter (StepResult.actions result)) ->
  windows (scheduler r') ≡ₚ armed_windows (ActionBatch.iter (StepResult.actions result)) ++ windows (scheduler r)
  /\ output_profile r' = output_profile r.
Proof.
  intros H Hp Hc. apply step_stepped in H as [(xs & Hx & Ho & _ & Ep & _) _]. split; [|done]. rewrite Hx in Hc |- *.
  apply Forall_app in Hc as [Hc _]. rewrite armed_windows_app, trailing_windows, app_nil_r.
  eapply outputs_windows; [done|by rewrite Ep|done].
Qed.

Lemma run_windows op r r' acts : EngineOp.run op r = Some (r', acts) ->
  output_profile r <> RuntimeOutputProfile.LegacySingleChannel ->
  op <> EngineOp.ConfigureOutput RuntimeOutputProfile.LegacySingleChannel ->
  Forall (fun a => forall reason, a <> Action.CancelScheduler reason) acts ->
  windows (scheduler r') ≡ₚ armed_windows acts ++ windows (scheduler r)
  /\ output_profile r' <> RuntimeOutputProfile.LegacySingleChannel.
Proof.
  intros H Hp Hop Hc. destruct op; cbn [EngineOp.run] in H;
    first [apply EngineOp.run_step_Some in H as (result & H & ->) | apply quiet_eq in H as [-> ->]];
    try (split; [reflexivity|exact Hp]).
  - split; [reflexivity|]. cbn. intros E. apply Hop. by rewrite E.
  - unfold try_set_engine_time_authority. by destruct (EngineTimeAuthority.validate authority).
  - unfold apply_decoder_observation. by destruct observation.
  - unfold step in H. apply step_windows in H as [Hw ->]; done.
  - unfold step_with_authority in H. apply step_windows in H as [Hw ->]; done.
  - unfold step_with_differential_input, step in H. apply step_windows in H; [|by destruct (DifferentialInput.mode input)|done].
    destruct H as [Hw ->], (DifferentialInput.mode input); done.
Qed.

Lemma run_all_windows ops r r' acts : EngineOp.run_all ops r = Some (r', acts) ->
  output_profile r <> RuntimeOutputProfile.LegacySingleChannel ->
  EngineOp.ConfigureOutput RuntimeOutputProfile.LegacySingleChannel ∉ ops ->
  Forall (fun a => forall reason, a <> Action.CancelScheduler reason) acts ->
  windows (scheduler r') ≡ₚ armed_windows acts ++ windows (scheduler r).
Proof.
  revert r acts. induction ops as [|op ops IH]; cbn; intros r acts H Hp Hops Hc; [by simplify_eq|].
  apply bind_Some in H as ([r1 a] & H1 & H). apply bind_Some in H as ([r2 b] & H2 & E). apply quiet_eq in E as [-> ->].
  apply Forall_app in Hc as [Ha Hb]. apply not_elem_of_cons in Hops as [Hop Hops].
  destruct (run_windows _ _ _ _ H1) as [Hw Hp1]; [done|congruence|done|]. rewrite (IH _ _ H2), Hw, armed_windows_app; [|done..].
  rewrite app_assoc. by rewrite (Permutation_app_comm (armed_windows b)).
Qed.

(** C2: every step does to the outputs one of four things, and then applies the limp-home
    outputs, persists a staged calibration and publishes the snapshot.  With a critical
    fault or a safety cut it cancels the scheduler and stands it down; without the sync or
    the authority its profile asks for it cancels what is armed; with nothing armed, or
    authorised but with the sync still provisional, it leaves the scheduler as it is; and
    only when locked and authorised does it arm, windows of the future only, of groups that
    are not cut only, and reserves exactly the windows of its actions. *)
Theorem engine_step_outputs now validated inputs authority launch shift latch r r' result :
  step_with_validated now validated inputs authority launch shift latch r = Some (r', result) ->
  stepped now r r' result
  /\ (hard_shutdown r' = true <->
      FaultState.severity (faults r) = FaultSeverity.Critical \/ FaultState.fault (faults r) = FaultCode.SafetyCut).
Proof.
  intros H. apply step_stepped in H as [H _]. split; [done|]. destruct H as (xs & _ & _ & Ef & _ & Em & _).
  unfold hard_shutdown. rewrite Em, !orb_true_iff, !bool_decide_eq_true. unfold derive_operating_mode. rewrite Ef.
  split; [|tauto]. intros [[H|H]|H]; [|tauto..]. revert H. repeat case_bool_decide; cbn; try tauto; repeat case_match; done.
Qed.

(** C8: whatever is called on an engine, its scheduler stays well formed and holds no permit,
    and the sync it reports is that of an engine-time authority that validates. *)
Theorem engine_run_invariant ops r acts : EngineOp.run_all ops new = Some (r, acts) -> engine_inv r.
Proof. intros H. eapply engine_inv_run_all; [exact H|apply engine_inv_new]. Qed.

(** C9: the engine never tells its scheduler that a window has passed.  Under any profile but
    the legacy one, along every run that cancels nothing, the windows in the scheduler are
    all those ever armed, so such a run arms at most as many windows as the scheduler has
    slots, however long it is. *)
Theorem engine_never_releases_windows ops r r' acts : EngineOp.run_all ops r = Some (r', acts) -> engine_inv r ->
  output_profile r <> RuntimeOutputProfile.LegacySingleChannel ->
  EngineOp.ConfigureOutput RuntimeOutputProfile.LegacySingleChannel ∉ ops ->
  Forall (fun a => forall reason, a <> Action.CancelScheduler reason) acts ->
  windows (scheduler r') ≡ₚ armed_windows acts ++ windows (scheduler r)
  /\ (length (armed_windows acts) + length (windows (scheduler r)) <= MAX_SCHEDULED_WINDOWS)%nat.
Proof.
  intros H Hi Hp Hops Hc. pose proof (run_all_windows _ _ _ _ H Hp Hops Hc) as Hw. split; [done|].
  pose proof (engine_inv_run_all _ _ _ _ H Hi) as [Ho _ _ _ _]. pose proof (length_occupied_le (SchedulerState.scheduled_windows (scheduler r'))).
  rewrite <- (own_slots _ Ho), <- length_app, <- Hw. done.
Qed.
End theorems.

(** ** Witnesses: a crank-only four-cylinder ignition engine *)
Definition sample_ignition : IgnitionInputs.t := IgnitionInputs.mk 120 0 0 0 false 3000.
Definition sample_authority : EngineTimeAuthority.t :=
  EngineTimeAuthority.mk CrankSyncState.PrimaryLocked PhaseSyncState.CrankOnly360 AbsoluteTimeAuthority.GeometryOnly 1000 0.
Definition sample_engine : EngineRuntime.t := configure_crank_only_single_coil 4
  (configure_dwell (DwellConfig.mk 3200 1200 4200 0 1000 8000) new).
Definition sample_step (now : Z) : EngineOp.t :=
  EngineOp.StepAuthority (AuthorityStepInputs.mk now 3000 700 1200 sample_authority false false false)
    (ControlInputs.spark_only now sample_ignition).
Definition sample_ops (n : nat) : list EngineOp.t := (fun i => sample_step (1000 + 20000 * i)) <$> seqZ 0 (Z.of_nat n).
Definition is_cancel (a : Action.t) : bool := match a with Action.CancelScheduler _ => true | _ => false end.

Lemma no_cancel acts : forallb (fun a => negb (is_cancel a)) acts = true ->
  Forall (fun a => forall reason, a <> Action.CancelScheduler reason) acts.
Proof. rewrite forallb_forall. intros H. apply Forall_forall. intros a Ha%list_elem_of_In reason ->. by apply H in Ha. Qed.

Lemma sample_not_legacy : EngineRuntime.output_profile sample_engine <> RuntimeOutputProfile.LegacySingleChannel.
Proof. done. Qed.

Lemma sample_ops_not_legacy n : EngineOp.ConfigureOutput RuntimeOutputProfile.LegacySingleChannel ∉ sample_ops n.
Proof. unfold sample_ops. by intros (i & ? & _)%list_elem_of_fmap. Qed.

Lemma sample_engine_inv : engine_inv sample_engine.
Proof. eapply engine_inv_ext; [|apply engine_inv_new]. done. Qed.

(** Ten revolutions arm the windows of eight: sixteen, and then no more. *)
Lemma engine_never_releases_windows_witness :
  match EngineOp.run_all (sample_ops 10) sample_engine with
  | Some (r, acts) => length (armed_windows acts) = 16%nat /\ windows (EngineRuntime.scheduler r) ≡ₚ armed_windows acts
  | None => False
  end.
Proof.
  assert (option_map (fun x => (length (armed_windows (snd x)), forallb (fun a => negb (is_cancel a)) (snd x)))
    (EngineOp.run_all (sample_ops 10) sample_engine) = Some (16%nat, true)) as Hc by (lazy; reflexivity).
  pose proof (fun r acts H => engine_never_releases_windows (sample_ops 10) sample_engine r acts H sample_engine_inv
    sample_not_legacy (sample_ops_not_legacy 10)) as H.
  destruct (EngineOp.run_all (sample_ops 10) sample_engine) as [[r acts]|]; [|done]. injection Hc as Hl Hn.
  split; [done|]. destruct (H r acts eq_refl (no_cancel acts Hn)) as [Hw _]. by rewrite app_nil_r in Hw.
Defined.

Lemma engine_run_invariant_witness :
  match EngineOp.run_all (sample_ops 3) new with Some (r, _) => engine_inv r | None => False end.
Proof.
  assert (is_Some (EngineOp.run_all (sample_ops 3) new)) as [[r acts] H] by (lazy; by eexists).
  rewrite H. exact (engine_run_invariant _ _ _ H).
Defined.

Lemma engine_step_outputs_witness :
  match step_with_validated 1000 (ValidatedInputs.mk 3000 700 1200 false) (ControlInputs.spark_only 1000 sample_ignition)
    sample_authority false false false sample_engine with
  | Some (r', result) => stepped 1000 sample_engine r' result /\ hard_shutdown r' = false
  | None => False
  end.
Proof.
  set (stepped_to := step_with_validated _ _ _ _ _ _ _ _).
  assert (option_map (fun x => hard_shutdown (fst x)) stepped_to = Some false) as Hc by (lazy; reflexivity).
  pose proof (engine_step_outputs 1000 (ValidatedInputs.mk 3000 700 1200 false) (ControlInputs.spark_only 1000 sample_ignition)
    sample_authority false false false sample_engine) as H. fold stepped_to in H.
  destruct stepped_to as [[r' result]|]; [|done]. injection Hc as Hc. by destruct (H r' result eq_refl).
Defined.
