(* ===== verification/Observations.v ===== *)
(** * What the runtime shows of a step (crates/runtime/src/observations.rs)

    The projections of a step's result and of the published snapshot onto the surface that
    conformance tests read.  The theorems say that the counts and times shown of a step are
    those of the windows it armed, and how the reasons and actions shown relate to the state. *)
From S2P Require Import Prelude Domain Semantic SemanticFuel SemanticSchedule Control.
From S2P Require Import ExpertTrigger Calibration BoardApi SchedTypes Queue SchedState Batch Scheduler Planner Lowering.
From S2P Require Import Engine EngineStep EngineRun.

Definition MODEL_MAX_PENDING : nat := 4.

(** ** Cuts *)
Module CutReason.
(** [RuntimeCutReason] *)
Inductive t := None_ | SafetyLatched | DirectRequest | Shutdown | HardRev | Launch | FlatShift | FuelOnly | SoftRev
  | SparkOnly | KnockRetard.
#[global] Instance eq_dec : EqDecision t.
Proof. solve_decision. Defined.
End CutReason.

Module CutObservations.
(** [RuntimeCutObservations] *)
Record t := mk { fuel_cut : bool; spark_cut : bool; reason : CutReason.t }.
End CutObservations.

Definition extract_cut_observations (snapshot : RuntimeSnapshot.t) : CutObservations.t :=
  let fuel_cut := RuntimeSnapshot.fuel_cut snapshot in
  let spark_cut := RuntimeSnapshot.spark_cut snapshot in
  CutObservations.mk fuel_cut spark_cut
    (if RuntimeSnapshot.safety_latched snapshot then CutReason.SafetyLatched
     else if RuntimeSnapshot.direct_fuel_cut_request snapshot || RuntimeSnapshot.direct_spark_cut_request snapshot
       then CutReason.DirectRequest
     else if bool_decide (EngineState.mode (RuntimeSnapshot.engine snapshot) = ControlMode.Shutdown) then CutReason.Shutdown
     else if RuntimeSnapshot.rev_hard_active snapshot then CutReason.HardRev
     else if RuntimeSnapshot.launch_active snapshot then CutReason.Launch
     else if RuntimeSnapshot.flat_shift_active snapshot then CutReason.FlatShift
     else if fuel_cut && negb spark_cut then CutReason.FuelOnly
     else if RuntimeSnapshot.rev_soft_active snapshot && spark_cut then CutReason.SoftRev
     else if spark_cut then CutReason.SparkOnly
     else if RuntimeSnapshot.legacy_cut_reason_code snapshot =? 7 then CutReason.KnockRetard
     else CutReason.None_).

(** ** Faults and protection *)
Module FaultAction.
(** [RuntimeFaultAction] *)
Inductive t := None_ | ObserveOnly | LimpHome | Shutdown.
#[global] Instance eq_dec : EqDecision t.
Proof. solve_decision. Defined.
End FaultAction.

Module ProtectionLevel.
(** [RuntimeProtectionLevel] *)
Inductive t := Inactive | Degraded | ShutdownDriving.
End ProtectionLevel.

Module ProtectionSource.
(** [RuntimeProtectionSource] *)
Inductive t := None_ | RuntimeFault | SafetyLatch | ControlMode.
End ProtectionSource.

Module ProtectionAction.
(** [RuntimeProtectionAction] *)
Inductive t := None_ | ObserveOnly | LimpHome | OutputSuppressed | Shutdown.
#[global] Instance eq_dec : EqDecision t.
Proof. solve_decision. Defined.
End ProtectionAction.

Module ProtectionPersistence.
(** [RuntimeProtectionPersistence] *)
Inductive t := Inactive | Reversible | LatchedUntilClear.
End ProtectionPersistence.

Module ProtectionObservations.
(** [RuntimeProtectionObservations] *)
Record t := mk {
  level : ProtectionLevel.t; source : ProtectionSource.t; action : ProtectionAction.t;
  persistence : ProtectionPersistence.t }.
Definition default : t :=
  mk ProtectionLevel.Inactive ProtectionSource.None_ ProtectionAction.None_ ProtectionPersistence.Inactive.
End ProtectionObservations.

Module FaultObservations.
(** [RuntimeFaultObservations] *)
Record t := mk {
  active : bool; fault : FaultCode.t; severity : FaultSeverity.t; cancel_reason : CancelReason.t;
  action : FaultAction.t; persistence : ProtectionPersistence.t }.
End FaultObservations.

Definition runtime_fault_action_policy (fault : FaultCode.t) (severity : FaultSeverity.t) (cancel_reason : CancelReason.t) :
    FaultAction.t * ProtectionPersistence.t :=
  if bool_decide (fault = FaultCode.None) then (FaultAction.None_, ProtectionPersistence.Inactive)
  else if bool_decide (cancel_reason = CancelReason.SafetyShutdown) || bool_decide (severity = FaultSeverity.Critical)
          || bool_decide (fault = FaultCode.SafetyCut)
  then (FaultAction.Shutdown, ProtectionPersistence.LatchedUntilClear)
  else if bool_decide (severity = FaultSeverity.Warning) || bool_decide (fault = FaultCode.SensorOutOfRange)
  then (FaultAction.LimpHome, ProtectionPersistence.LatchedUntilClear)
  else (FaultAction.ObserveOnly, ProtectionPersistence.LatchedUntilClear).

Definition runtime_protection_action_from_fault_action (action : FaultAction.t) : ProtectionAction.t :=
  match action with
  | FaultAction.None_ => ProtectionAction.None_
  | FaultAction.ObserveOnly => ProtectionAction.ObserveOnly
  | FaultAction.LimpHome => ProtectionAction.LimpHome
  | FaultAction.Shutdown => ProtectionAction.Shutdown
  end.

Definition extract_protection_observations (snapshot : RuntimeSnapshot.t) : ProtectionObservations.t :=
  let faults := RuntimeSnapshot.faults snapshot in
  if RuntimeSnapshot.safety_latched snapshot then
    ProtectionObservations.mk ProtectionLevel.ShutdownDriving ProtectionSource.SafetyLatch
      ProtectionAction.OutputSuppressed ProtectionPersistence.LatchedUntilClear
  else if negb (bool_decide (FaultState.fault faults = FaultCode.None)) then
    let '(fault_action, persistence) :=
      runtime_fault_action_policy (FaultState.fault faults) (FaultState.severity faults) (FaultState.cancel_reason faults) in
    let action := runtime_protection_action_from_fault_action fault_action in
    ProtectionObservations.mk
      (if bool_decide (action = ProtectionAction.Shutdown) then ProtectionLevel.ShutdownDriving else ProtectionLevel.Degraded)
      ProtectionSource.RuntimeFault action persistence
  else
    match EngineState.mode (RuntimeSnapshot.engine snapshot) with
    | ControlMode.Shutdown =>
      ProtectionObservations.mk ProtectionLevel.ShutdownDriving ProtectionSource.ControlMode ProtectionAction.Shutdown
        ProtectionPersistence.Reversible
    | ControlMode.LimpHome =>
      ProtectionObservations.mk ProtectionLevel.Degraded ProtectionSource.ControlMode ProtectionAction.LimpHome
        ProtectionPersistence.Reversible
    | _ => ProtectionObservations.default
    end.

Definition extract_fault_observations (snapshot : RuntimeSnapshot.t) : FaultObservations.t :=
  let faults := RuntimeSnapshot.faults snapshot in
  let '(action, persistence) :=
    runtime_fault_action_policy (FaultState.fault faults) (FaultState.severity faults) (FaultState.cancel_reason faults) in
  FaultObservations.mk (negb (bool_decide (FaultState.fault faults = FaultCode.None))) (FaultState.fault faults)
    (FaultState.severity faults) (FaultState.cancel_reason faults) action persistence.

(** ** Shells of the snapshot *)
Module AuthorityObservations.
(** [RuntimeAuthorityObservations] *)
Record t := mk { authority : EngineTimeAuthority.t; summary : SyncState.t; phase : EnginePhase.t; full_sequential_authorized : bool }.
End AuthorityObservations.

Definition extract_authority_observations (snapshot : RuntimeSnapshot.t) : AuthorityObservations.t :=
  let engine := RuntimeSnapshot.engine snapshot in
  AuthorityObservations.mk (EngineState.engine_time_authority engine) (EngineState.sync engine) (EngineState.phase engine)
    (runtime_full_sequential_authorized (EngineState.engine_time_authority engine)).

Module KnockObservations.
(** [RuntimeKnockObservations] *)
Record t := mk { intensity_x100 : Z; retard_deg10 : Z }.
End KnockObservations.

Definition extract_knock_observations (snapshot : RuntimeSnapshot.t) : KnockObservations.t :=
  KnockObservations.mk (RuntimeSnapshot.knock_intensity_x100 snapshot) (RuntimeSnapshot.knock_retard_deg10 snapshot).
Definition extract_engine_observations : RuntimeSnapshot.t -> EngineState.t := RuntimeSnapshot.engine.
Definition extract_calibration_observations : RuntimeSnapshot.t -> CalibrationState.t := RuntimeSnapshot.calibration.
Definition extract_calibration_identity_observations (snapshot : RuntimeSnapshot.t) : PackageIdentity.t :=
  PackageIdentity.from_snapshot_with_staged_dirty (CalibrationState.active (RuntimeSnapshot.calibration snapshot))
    (CalibrationState.staged_dirty (RuntimeSnapshot.calibration snapshot)).
Definition extract_control_observations : RuntimeSnapshot.t -> ControlState.t := RuntimeSnapshot.control.
Definition extract_scheduler_observations : RuntimeSnapshot.t -> SchedulerState.t := RuntimeSnapshot.scheduler.
Definition extract_output_profile_observations : RuntimeSnapshot.t -> RuntimeOutputProfile.t := RuntimeSnapshot.output_profile.
Definition extract_fuel_strategy_observations : RuntimeSnapshot.t -> RuntimeFuelStrategyMode.t := RuntimeSnapshot.fuel_strategy_mode.

(** ** Shells of the step's control plan *)
Definition strategy_observations (result : StepResult.t) : StrategyObservations.t :=
  FuelIntent.observations (ControlPlan.fuel_intent (StepResult.control result)).

Module FuelShell.
(** [RuntimeFuelObservations] *)
Record t := mk {
  base_fuel_pw_us : Z; enriched_fuel_pw_us : Z; lambda_target_x100 : Z; startup_active : bool;
  startup_window_remaining : Z; startup_window_mode : FuelStartupWindowMode.t; warmup_active : bool;
  warmup_correction_x100 : Z; warmup_temperature_mode : FuelWarmupTemperatureMode.t; afterstart_active : bool;
  afterstart_window_remaining : Z; afterstart_window_mode : FuelAfterstartWindowMode.t;
  transient_enrichment_active : bool; transient_enrichment_pulse_us : Z; transient_enrichment_decay_steps_remaining : Z }.
End FuelShell.

Definition extract_fuel_observations (result : StepResult.t) : FuelShell.t :=
  let o := strategy_observations result in
  FuelShell.mk (ControlPlan.base_fuel (StepResult.control result)) (ControlPlan.enriched_fuel (StepResult.control result))
    (LambdaTrimResult.target_lambda100 (ControlPlan.lambda (StepResult.control result)))
    (StrategyObservations.startup_active o) (StrategyObservations.startup_window_remaining o)
    (StrategyObservations.startup_window_mode o) (StrategyObservations.warmup_active o)
    (StrategyObservations.warmup_correction_x100 o) (StrategyObservations.warmup_temperature_mode o)
    (StrategyObservations.afterstart_active o) (StrategyObservations.afterstart_window_remaining o)
    (StrategyObservations.afterstart_window_mode o) (StrategyObservations.lambda_ae_freeze_active o)
    (StrategyObservations.ae_pulse_us o) (StrategyObservations.ae_decay_steps_remaining o).

Module FuelCoreShell.
(** [RuntimeFuelCoreObservations] *)
Record t := mk {
  semantic_available : bool; ve_pct_x100 : option Z; target_afr_x100 : option Z; pw_base_us : Z; pw_air_us : option Z;
  pw_corr_us : Z }.
End FuelCoreShell.

Definition extract_fuel_core_observations (result : StepResult.t) : FuelCoreShell.t :=
  let o := strategy_observations result in
  FuelCoreShell.mk (negb (StrategyObservations.strategy_is_direct_pw o)) (StrategyObservations.ve_pct_x100 o)
    (StrategyObservations.target_afr_x100 o) (StrategyObservations.pw_base_us o) (StrategyObservations.pw_air_us o)
    (StrategyObservations.pw_corr_us o).

Module IdleShell.
(** [RuntimeIdleObservations] *)
Record t := mk {
  active : bool; duty_x1000 : Z; integrator_acc : Z; integrator_min_acc : Z; integrator_max_acc : Z; integrator_frozen : bool }.
End IdleShell.

Definition extract_idle_observations (result : StepResult.t) : IdleShell.t :=
  let o := strategy_observations result in
  IdleShell.mk (StrategyObservations.idle_active o) (StrategyObservations.idle_duty_x1000 o)
    (StrategyObservations.idle_integrator_acc o) (StrategyObservations.idle_integrator_min_acc o)
    (StrategyObservations.idle_integrator_max_acc o) (StrategyObservations.idle_integrator_frozen o).

Module LambdaCorrectionShell.
(** [RuntimeLambdaCorrectionObservations] *)
Record t := mk {
  active : bool; correction_x1000 : Z; integrator_available : bool; integrator_acc : Z; integrator_min_acc : Z;
  integrator_max_acc : Z; integrator_frozen : bool }.
End LambdaCorrectionShell.

Definition extract_lambda_correction_observations (result : StepResult.t) : LambdaCorrectionShell.t :=
  let o := strategy_observations result in
  LambdaCorrectionShell.mk (LambdaTrimResult.active (ControlPlan.lambda (StepResult.control result)))
    (StrategyObservations.lambda_correction_x1000 o) (negb (StrategyObservations.strategy_is_direct_pw o))
    (StrategyObservations.lambda_integrator_acc o) (StrategyObservations.lambda_integrator_min_acc o)
    (StrategyObservations.lambda_integrator_max_acc o) (StrategyObservations.lambda_integrator_frozen o).

Module IgnitionTrimShell.
(** [RuntimeIgnitionTrimObservations] *)
Record t := mk { active : bool; trim_deg10 : Z }.
End IgnitionTrimShell.

Definition extract_ignition_trim_observations (result : StepResult.t) : IgnitionTrimShell.t :=
  let trim := StrategyObservations.advance_deg10_trim (strategy_observations result) in
  IgnitionTrimShell.mk (negb (trim =? 0)) trim.

Module LambdaShell.
(** [RuntimeLambdaObservations] *)
Record t := mk {
  mode : LambdaMode.t; active : bool; target_lambda_x100 : Z; measured_lambda_x100 : Z; trim_x100 : Z;
  disable_reason : LambdaDisableReason.t }.
End LambdaShell.

Definition extract_lambda_observations (result : StepResult.t) : LambdaShell.t :=
  let lambda := ControlPlan.lambda (StepResult.control result) in
  LambdaShell.mk (LambdaTrimResult.mode lambda) (LambdaTrimResult.active lambda) (LambdaTrimResult.target_lambda100 lambda)
    (LambdaTrimResult.measured_lambda100 lambda) (LambdaTrimResult.trim_x100 lambda) (LambdaTrimResult.disable_reason lambda).

Definition extract_validated_observations : StepResult.t -> ValidatedInputs.t := StepResult.validated.
Definition extract_ignition_observations (result : StepResult.t) : Control.IgnitionPlan.t :=
  ControlPlan.ignition (StepResult.control result).
Definition extract_torque_observations : StepResult.t -> TorqueObservations.t := StepResult.torque_observations.

(** ** Actions *)
Module ActionShell.
(** [RuntimeActionObservations] *)
Record t := mk {
  total_action_count : Z; arm_scheduler_count : Z; arm_injection_count : Z; arm_ignition_count : Z; apply_aux_count : Z;
  apply_aux_command_count : Z; idle_count : Z; publish_snapshot_count : Z; publish_snapshot : bool;
  persist_calibration : bool; persist_calibration_count : Z; cancel_scheduler : bool; cancel_reason : CancelReason.t;
  cancel_scheduler_count : Z; multiple_cancel_reasons : bool }.
#[global] Instance eta : Eta t := fun o =>
  mk (total_action_count o) (arm_scheduler_count o) (arm_injection_count o) (arm_ignition_count o) (apply_aux_count o)
    (apply_aux_command_count o) (idle_count o) (publish_snapshot_count o) (publish_snapshot o) (persist_calibration o)
    (persist_calibration_count o) (cancel_scheduler o) (cancel_reason o) (cancel_scheduler_count o) (multiple_cancel_reasons o).
Definition default : t := mk 0 0 0 0 0 0 0 0 false false 0 false CancelReason.Manual 0 false.
End ActionShell.

(** [saturating_add(1)] of a [u8] *)
Definition count_one (x : Z) : Z := saturating_add 8 x 1.

(** The body of the loop over the actions. *)
Definition observe_action (o : ActionShell.t) (action : Action.t) : ActionShell.t :=
  let o := o <| ActionShell.total_action_count ::= count_one |> in
  match action with
  | Action.ArmScheduler _ _ => o <| ActionShell.arm_scheduler_count ::= count_one |>
  | Action.ArmInjection _ => o <| ActionShell.arm_injection_count ::= count_one |>
  | Action.ArmIgnition _ => o <| ActionShell.arm_ignition_count ::= count_one |>
  | Action.ApplyAux commands =>
    o <| ActionShell.apply_aux_count ::= count_one |>
      <| ActionShell.apply_aux_command_count ::= fun n => saturating_add 8 n (as_unsigned 8 (Z.min (Batch.len commands) u8_max)) |>
  | Action.PublishSnapshot =>
    o <| ActionShell.publish_snapshot := true |> <| ActionShell.publish_snapshot_count ::= count_one |>
  | Action.PersistCalibration =>
    o <| ActionShell.persist_calibration := true |> <| ActionShell.persist_calibration_count ::= count_one |>
  | Action.CancelScheduler cancel_reason =>
    let o :=
      if ActionShell.cancel_scheduler o && negb (bool_decide (ActionShell.cancel_reason o = cancel_reason))
      then o <| ActionShell.multiple_cancel_reasons := true |> else o in
    o <| ActionShell.cancel_scheduler := true |> <| ActionShell.cancel_reason := cancel_reason |>
      <| ActionShell.cancel_scheduler_count ::= count_one |>
  | Action.Idle => o <| ActionShell.idle_count ::= count_one |>
  end.

Definition extract_action_observations (result : StepResult.t) : ActionShell.t :=
  fold_left observe_action (ActionBatch.iter (StepResult.actions result)) ActionShell.default.

(** ** Transitions *)
Module TransitionShell.
(** [RuntimeTransitionObservations] *)
Record t := mk {
  total_transition_count : Z; injector_transition_count : Z; ignition_transition_count : Z;
  earliest_transition_at_us : option Z; latest_transition_at_us : option Z;
  earliest_injector_transition_at_us : option Z; latest_injector_transition_at_us : option Z;
  earliest_ignition_transition_at_us : option Z; latest_ignition_transition_at_us : option Z; export_error : bool }.
#[global] Instance eta : Eta t := fun o =>
  mk (total_transition_count o) (injector_transition_count o) (ignition_transition_count o)
    (earliest_transition_at_us o) (latest_transition_at_us o) (earliest_injector_transition_at_us o)
    (latest_injector_transition_at_us o) (earliest_ignition_transition_at_us o) (latest_ignition_transition_at_us o)
    (export_error o).
Definition default : t := mk 0 0 0 None None None None None None false.
End TransitionShell.

Definition update_earliest_transition (at_us : Z) (slot : option Z) : option Z :=
  match slot with
  | Some current => if current <=? at_us then slot else Some at_us
  | None => Some at_us
  end.
Definition update_latest_transition (at_us : Z) (slot : option Z) : option Z :=
  match slot with
  | Some current => if at_us <=? current then slot else Some at_us
  | None => Some at_us
  end.

(** The body of the loop over the exported transitions. *)
Definition observe_transition (o : TransitionShell.t) (transition : RuntimeTransition.t) : TransitionShell.t :=
  let at_us := RuntimeTransition.at_us transition in
  let o := o <| TransitionShell.total_transition_count ::= count_one |>
    <| TransitionShell.earliest_transition_at_us ::= update_earliest_transition at_us |>
    <| TransitionShell.latest_transition_at_us ::= update_latest_transition at_us |> in
  match RuntimeTransition.kind transition with
  | RuntimeTransition.Injector =>
    o <| TransitionShell.injector_transition_count ::= count_one |>
      <| TransitionShell.earliest_injector_transition_at_us ::= update_earliest_transition at_us |>
      <| TransitionShell.latest_injector_transition_at_us ::= update_latest_transition at_us |>
  | RuntimeTransition.Ignition =>
    o <| TransitionShell.ignition_transition_count ::= count_one |>
      <| TransitionShell.earliest_ignition_transition_at_us ::= update_earliest_transition at_us |>
      <| TransitionShell.latest_ignition_transition_at_us ::= update_latest_transition at_us |>
  end.

Definition observe_export (o : TransitionShell.t) (action : Action.t) : TransitionShell.t :=
  match export_scheduled_transitions MODEL_MAX_PENDING action with
  | Ok batch => fold_left observe_transition (RuntimeTransitionBatch.iter batch) o
  | Err _ => o <| TransitionShell.export_error := true |>
  end.

Definition extract_transition_observations (result : StepResult.t) : TransitionShell.t :=
  fold_left observe_export (ActionBatch.iter (StepResult.actions result)) TransitionShell.default.

(** ** The surface *)
Module ObservedSurface.
(** [RuntimeObservedSurface] *)
Record t := mk {
  rpm : Z; sync : bool; runtime_engine : EngineState.t; runtime_control : ControlState.t;
  runtime_calibration : CalibrationState.t; runtime_calibration_identity : PackageIdentity.t;
  runtime_scheduler : SchedulerState.t; runtime_output_profile : RuntimeOutputProfile.t;
  runtime_fuel_strategy : RuntimeFuelStrategyMode.t; runtime_authority : AuthorityObservations.t;
  runtime_validated : ValidatedInputs.t; fuel_cut : bool; spark_cut : bool; legacy_cut_reason_code : Z;
  runtime_cut : CutObservations.t; runtime_fault : FaultObservations.t; runtime_protection : ProtectionObservations.t;
  runtime_knock : KnockObservations.t; knock_intensity_x100 : Z; knock_retard_deg10 : Z;
  torque_request_x100 : Z; torque_allowed_x100 : Z; torque_actuated_x100 : Z; torque_request_x1000 : Z;
  torque_allowed_x1000 : Z; torque_actuated_x1000 : Z; runtime_torque : TorqueObservations.t;
  runtime_base_fuel_pw_us : Z; runtime_enriched_fuel_pw_us : Z; runtime_lambda_target_x100 : Z;
  runtime_lambda : LambdaShell.t; runtime_lambda_correction : LambdaCorrectionShell.t; runtime_fuel : FuelShell.t;
  runtime_fuel_core : FuelCoreShell.t; runtime_idle : IdleShell.t; runtime_ignition_trim : IgnitionTrimShell.t;
  runtime_ignition : Control.IgnitionPlan.t; runtime_actions : ActionShell.t; runtime_transitions : TransitionShell.t;
  ignition_advance_deg10 : Z; dwell_us : Z; control_mode : ControlMode.t; validated_rpm : Z;
  validated_load_kpa10 : Z; validated_clamped : bool }.
End ObservedSurface.

Definition extract_runtime_observed_surface (result : StepResult.t) (snapshot : RuntimeSnapshot.t) : ObservedSurface.t :=
  let control := StepResult.control result in
  let validated := StepResult.validated result in
  let torque := extract_torque_observations result in
  let fuel := extract_fuel_observations result in
  let lambda := extract_lambda_observations result in
  ObservedSurface.mk (ValidatedInputs.rpm validated) (0 <? ValidatedInputs.rpm validated)
    (extract_engine_observations snapshot) (extract_control_observations snapshot)
    (extract_calibration_observations snapshot) (extract_calibration_identity_observations snapshot)
    (extract_scheduler_observations snapshot) (extract_output_profile_observations snapshot)
    (extract_fuel_strategy_observations snapshot) (extract_authority_observations snapshot)
    (extract_validated_observations result) (RuntimeSnapshot.fuel_cut snapshot) (RuntimeSnapshot.spark_cut snapshot)
    (RuntimeSnapshot.legacy_cut_reason_code snapshot) (extract_cut_observations snapshot)
    (extract_fault_observations snapshot) (extract_protection_observations snapshot) (extract_knock_observations snapshot)
    (RuntimeSnapshot.knock_intensity_x100 snapshot) (RuntimeSnapshot.knock_retard_deg10 snapshot)
    (AllowedTorque.requested_x100 (ControlPlan.torque control)) (AllowedTorque.allowed_x100 (ControlPlan.torque control)) 0
    (TorqueObservations.request_x1000 torque) (TorqueObservations.allowed_x1000 torque)
    (TorqueObservations.actuated_x1000 torque) torque
    (FuelShell.base_fuel_pw_us fuel) (FuelShell.enriched_fuel_pw_us fuel) (LambdaShell.target_lambda_x100 lambda) lambda
    (extract_lambda_correction_observations result) fuel (extract_fuel_core_observations result)
    (extract_idle_observations result) (extract_ignition_trim_observations result) (extract_ignition_observations result)
    (extract_action_observations result) (extract_transition_observations result)
    (Control.IgnitionPlan.advance_deg10 (ControlPlan.ignition control)) (Control.IgnitionPlan.dwell_us (ControlPlan.ignition control))
    (StepResult.operating_mode result) (ValidatedInputs.rpm validated) (ValidatedInputs.load_kpa10 validated)
    (ValidatedInputs.clamped validated).

(** [runtime_x100_to_spec_x1000] (lib.rs) *)
Definition runtime_x100_to_spec_x1000 (runtime_x100 : Z) : Z := saturating_mul 16 runtime_x100 10.

(** ** Lemmas: what a fold over transitions has seen *)

(** The fold of the source over a list of times. *)
Definition earliest_of (xs : list Z) : option Z := fold_left (fun m x => update_earliest_transition x m) xs None.
Definition latest_of (xs : list Z) : option Z := fold_left (fun m x => update_latest_transition x m) xs None.

Lemma earliest_min x m : update_earliest_transition x m = Some (from_option (fun c => Z.min c x) x m).
Proof. destruct m as [c|]; [|done]. cbn. destruct (Z.leb_spec c x); f_equal; lia. Qed.

Lemma latest_max x m : update_latest_transition x m = Some (from_option (fun c => Z.max c x) x m).
Proof. destruct m as [c|]; [|done]. cbn. destruct (Z.leb_spec x c); f_equal; lia. Qed.

(** The least and the greatest of a list, if it has any. *)
Fixpoint least (xs : list Z) : option Z :=
  match xs with [] => None | x :: xs => Some (from_option (Z.min x) x (least xs)) end.
Fixpoint greatest (xs : list Z) : option Z :=
  match xs with [] => None | x :: xs => Some (from_option (Z.max x) x (greatest xs)) end.

Lemma least_spec xs m : least xs = Some m <-> m ∈ xs /\ Forall (Z.le m) xs.
Proof.
  revert m. induction xs as [|x xs IH]; intros m; cbn [least]; [split; [done|intros [[]%elem_of_nil _]]|].
  rewrite elem_of_cons, Forall_cons. destruct (least xs) as [k|] eqn:E; cbn.
  - destruct (proj1 (IH k) eq_refl) as [Hk Hall]. split.
    + intros [= <-]. destruct (Z.min_spec x k) as [[? ->]|[? ->]]; (split; [by auto|split; [lia|]]); [|done].
      eapply Forall_impl; [exact Hall|]. cbn. lia.
    + intros [Hm [Hx Hle]]. f_equal. destruct Hm as [->|Hm]; [rewrite Forall_forall in Hle; specialize (Hle k Hk); lia|].
      rewrite Forall_forall in Hall. specialize (Hall m Hm). rewrite Forall_forall in Hle. specialize (Hle k Hk). lia.
  - assert (xs = []) as -> by (by destruct xs). split; [intros [= <-]; split; [by left|by split]|].
    by intros [[->|[]%elem_of_nil] _].
Qed.

Lemma earliest_fold xs m : fold_left (fun m x => update_earliest_transition x m) xs m
  = match m, least xs with None, l => l | Some a, None => Some a | Some a, Some b => Some (Z.min a b) end.
Proof.
  revert m. induction xs as [|x xs IH]; intros m; cbn [fold_left least]; [by destruct m|]. rewrite IH, earliest_min.
  destruct m, (least xs); cbn; f_equal; lia.
Qed.
Lemma latest_fold xs m : fold_left (fun m x => update_latest_transition x m) xs m
  = match m, greatest xs with None, l => l | Some a, None => Some a | Some a, Some b => Some (Z.max a b) end.
Proof.
  revert m. induction xs as [|x xs IH]; intros m; cbn [fold_left greatest]; [by destruct m|]. rewrite IH, latest_max.
  destruct m, (greatest xs); cbn; f_equal; lia.
Qed.
Lemma earliest_of_least xs : earliest_of xs = least xs.
Proof. apply earliest_fold. Qed.
Lemma latest_of_greatest xs : latest_of xs = greatest xs.
Proof. apply latest_fold. Qed.

Lemma earliest_swap x y m : update_earliest_transition x (update_earliest_transition y m)
  = update_earliest_transition y (update_earliest_transition x m).
Proof. rewrite !earliest_min. destruct m; cbn; f_equal; lia. Qed.

Lemma latest_swap x y m : update_latest_transition x (update_latest_transition y m)
  = update_latest_transition y (update_latest_transition x m).
Proof. rewrite !latest_max. destruct m; cbn; f_equal; lia. Qed.

Lemma fold_swap {A B} (f : A -> B -> A) xs ys : (forall a x y, f (f a x) y = f (f a y) x) -> xs ≡ₚ ys ->
  forall a, fold_left f xs a = fold_left f ys a.
Proof.
  intros Hf Hp. induction Hp as [|x xs ys _ IH|x y xs|xs ys zs _ IH1 _ IH2]; intros a; cbn; [done|by rewrite IH|by rewrite Hf|].
  by rewrite IH1.
Qed.

#[global] Instance earliest_of_perm : Proper ((≡ₚ) ==> (=)) earliest_of.
Proof. intros xs ys H. apply fold_swap; [|done]. intros. apply earliest_swap. Qed.
#[global] Instance latest_of_perm : Proper ((≡ₚ) ==> (=)) latest_of.
Proof. intros xs ys H. apply fold_swap; [|done]. intros. apply latest_swap. Qed.

(** Of windows that open before they close, the openings decide the earliest and the closings
    the latest. *)
Lemma earliest_of_windows (ws : list (Z * Z)) : Forall (fun w => fst w < snd w) ws ->
  earliest_of (concat ((fun w => [fst w; snd w]) <$> ws)) = earliest_of (fst <$> ws).
Proof.
  unfold earliest_of. generalize (@None Z). induction ws as [|[a b] ws IH]; intros m H; [done|].
  apply Forall_cons in H as [Hab H]. cbn in *. rewrite <- IH by done. f_equal.
  rewrite !earliest_min. destruct m; cbn; f_equal; lia.
Qed.

Lemma latest_of_windows (ws : list (Z * Z)) : Forall (fun w => fst w < snd w) ws ->
  latest_of (concat ((fun w => [fst w; snd w]) <$> ws)) = latest_of (snd <$> ws).
Proof.
  unfold latest_of. generalize (@None Z). induction ws as [|[a b] ws IH]; intros m H; [done|].
  apply Forall_cons in H as [Hab H]. cbn in *. rewrite <- IH by done. f_equal.
  rewrite !latest_max. destruct m; cbn; f_equal; lia.
Qed.

Definition times (kind : RuntimeTransition.kind_t -> bool) (ts : list RuntimeTransition.t) : list Z :=
  RuntimeTransition.at_us <$> filter (fun t => kind (RuntimeTransition.kind t)) ts.
Definition any_kind (_ : RuntimeTransition.kind_t) : bool := true.
Definition is_injector (k : RuntimeTransition.kind_t) : bool := match k with RuntimeTransition.Injector => true | _ => false end.
Definition is_ignition (k : RuntimeTransition.kind_t) : bool := match k with RuntimeTransition.Ignition => true | _ => false end.

(** What is shown of a list of transitions. *)
Definition summary (ts : list RuntimeTransition.t) : TransitionShell.t :=
  let count kind := Z.min (Z.of_nat (length (times kind ts))) u8_max in
  TransitionShell.mk (count any_kind) (count is_injector) (count is_ignition)
    (earliest_of (times any_kind ts)) (latest_of (times any_kind ts)) (earliest_of (times is_injector ts)) (latest_of (times is_injector ts))
    (earliest_of (times is_ignition ts)) (latest_of (times is_ignition ts)) false.

Lemma times_snoc kind ts t : times kind (ts ++ [t])
  = times kind ts ++ (if kind (RuntimeTransition.kind t) then [RuntimeTransition.at_us t] else []).
Proof. unfold times. rewrite filter_app, fmap_app. f_equal. rewrite filter_cons. by destruct (kind _). Qed.

Lemma count_one_snoc (n : nat) : count_one (Z.min (Z.of_nat n) u8_max) = Z.min (Z.of_nat (n + 1)) u8_max.
Proof. unfold count_one, saturating_add, u8_max. lia. Qed.

Lemma observe_snoc ts t : observe_transition (summary ts) t = summary (ts ++ [t]).
Proof.
  unfold observe_transition, summary, earliest_of, latest_of. rewrite !times_snoc. destruct t as [at_us kind ch lv].
  destruct kind; cbn -[count_one u8_max Z.min Z.of_nat fold_left]; rewrite ?app_nil_r, !length_app, !fold_left_app; cbn [length]; rewrite <- !count_one_snoc; done.
Qed.

Lemma observe_all us ts : fold_left observe_transition us (summary ts) = summary (ts ++ us).
Proof.
  revert ts. induction us as [|u us IH]; intros ts; [by rewrite app_nil_r|]. cbn. by rewrite observe_snoc, IH, <- app_assoc.
Qed.

#[global] Instance times_perm kind : Proper ((≡ₚ) ==> (≡ₚ)) (times kind).
Proof. intros ts us H. unfold times. by rewrite H. Qed.

#[global] Instance summary_perm : Proper ((≡ₚ) ==> (=)) summary.
Proof.
  intros ts us H. unfold summary. assert (forall kind, times kind ts ≡ₚ times kind us) as Ht by (intros; by rewrite H).
  by rewrite !(earliest_of_perm _ _ (Ht _)), !(latest_of_perm _ _ (Ht _)), !(Permutation_length (Ht _)).
Qed.

(** Over actions whose windows are not empty nothing fails to export. *)
Lemma observe_exports acts ts : Forall windows_nonempty acts ->
  fold_left observe_export acts (summary ts) = summary (ts ++ (runtime_of <$> concat (action_transitions <$> acts))).
Proof.
  revert ts. induction acts as [|a acts IH]; intros ts H; [cbn; by rewrite app_nil_r|].
  apply Forall_cons in H as [Ha H]. cbn [fold_left fmap list_fmap concat]. unfold observe_export at 2.
  destruct (export_action a Ha) as (b & E & P). unfold MODEL_MAX_PENDING. rewrite E, observe_all, IH by done.
  rewrite P, fmap_app. by rewrite <- app_assoc.
Qed.

(** ** Theorems *)
Section theorems.

(** The plans an action arms, and their windows of time. *)
Definition action_injections (a : Action.t) : list TimedInjectionPlan.t :=
  match a with Action.ArmScheduler p _ | Action.ArmInjection p => [p] | _ => [] end.
Definition action_ignitions (a : Action.t) : list TimedIgnitionPlan.t :=
  match a with Action.ArmScheduler _ p | Action.ArmIgnition p => [p] | _ => [] end.
Definition injections (acts : list Action.t) : list (Z * Z) :=
  (fun p => (TimedInjectionPlan.start_at p, TimedInjectionPlan.end_at p)) <$> concat (action_injections <$> acts).
Definition ignitions (acts : list Action.t) : list (Z * Z) :=
  (fun p => (TimedIgnitionPlan.start_at p, TimedIgnitionPlan.end_at p)) <$> concat (action_ignitions <$> acts).
Definition pairs (ws : list (Z * Z)) : list Z := concat ((fun w => [fst w; snd w]) <$> ws).

Lemma pairs_app xs ys : pairs (xs ++ ys) = pairs xs ++ pairs ys.
Proof. unfold pairs. by rewrite fmap_app, concat_app. Qed.
Lemma pairs_length ws : length (pairs ws) = (2 * length ws)%nat.
Proof. unfold pairs. induction ws as [|w ws IH]; [done|]. cbn. rewrite IH. cbn. lia. Qed.

Lemma times_app kind ts us : times kind (ts ++ us) = times kind ts ++ times kind us.
Proof. unfold times. by rewrite filter_app, fmap_app. Qed.

Lemma injections_cons a acts : injections (a :: acts) = injections [a] ++ injections acts.
Proof. unfold injections. cbn. by rewrite app_nil_r, fmap_app. Qed.
Lemma ignitions_cons a acts : ignitions (a :: acts) = ignitions [a] ++ ignitions acts.
Proof. unfold ignitions. cbn. by rewrite app_nil_r, fmap_app. Qed.

Lemma exported_times acts :
  let ts := runtime_of <$> concat (action_transitions <$> acts) in
  times is_injector ts = pairs (injections acts) /\ times is_ignition ts = pairs (ignitions acts)
  /\ times any_kind ts ≡ₚ pairs (injections acts ++ ignitions acts).
Proof.
  cbv zeta. induction acts as [|a acts (H1 & H2 & H3)]; [done|]. cbn [fmap list_fmap concat].
  rewrite fmap_app, !times_app, H1, H2, H3, injections_cons, ignitions_cons, !pairs_app.
  split; [by destruct a|]. split; [by destruct a|].
  assert (times any_kind (runtime_of <$> action_transitions a) = pairs (injections [a]) ++ pairs (ignitions [a])) as -> by (by destruct a).
  rewrite <- !app_assoc. f_equiv. apply Permutation_app_swap_app.
Qed.

(** The windows of a step's actions open before they close, and there are few of them. *)
Lemma step_windows_sane now control r s xs s' : outputs now control r s xs s' ->
  Forall (Forall (fun w => Window.start_at w < Window.end_at w)) (action_windows <$> xs ++ trailing r)
  /\ (length xs <= MAX_SCHEDULED_WINDOWS)%nat.
Proof.
  intros H. assert (Forall (Forall (fun w => Window.start_at w < Window.end_at w)) (action_windows <$> trailing r)) as Ht.
  { unfold trailing. rewrite !fmap_app. apply Forall_app. split; [case_match; by repeat constructor|].
    apply Forall_app. split; [case_match; by repeat constructor|by repeat constructor]. }
  rewrite fmap_app, Forall_app.
  destruct H as [s1 _ _ _|s1 _ _ _ _ _|_ _|kind ys s1 _ _ _ Hp Hl _ _ _];
    (split; [split; [|exact Ht]|]); try (by repeat constructor); try (rewrite max_windows; cbn; lia); [|done].
  destruct Hp as [->|[_ Hp]]; [by repeat constructor|]. apply Forall_fmap. eapply Forall_impl; [exact Hp|].
  intros a (Ha & _ & _). eapply Forall_impl; [exact Ha|]. by intros w [_ ?].
Qed.

Lemma nonempty_of_windows a : Forall (fun w => Window.start_at w < Window.end_at w) (action_windows a) -> windows_nonempty a.
Proof. destruct a; cbn; rewrite ?Forall_cons; cbn; try done; intuition lia. Qed.

Lemma spans_sane acts : Forall (Forall (fun w => Window.start_at w < Window.end_at w)) (action_windows <$> acts) ->
  Forall (fun w => fst w < snd w) (injections acts) /\ Forall (fun w => fst w < snd w) (ignitions acts).
Proof.
  induction acts as [|a acts IH]; [split; constructor|]. intros H. apply Forall_cons in H as [Ha H].
  rewrite injections_cons, ignitions_cons, !Forall_app. destruct (IH H) as [H1 H2]. split; (split; [|done]);
    destruct a; cbn in *; rewrite ?Forall_cons in *; cbn in *; intuition.
Qed.

Lemma spans_few acts : (length (injections acts) + length (ignitions acts) <= 2 * length (filter (fun a => action_windows a <> []) acts))%nat.
Proof.
  induction acts as [|a acts IH]; [cbn; lia|]. rewrite injections_cons, ignitions_cons, !length_app, filter_cons.
  destruct a; case_decide; cbn in *; try lia; try done.
Qed.

(** C10: what is shown of a step's transitions is what the step armed.  Nothing fails to
    export; every window counts twice, under its kind, and no counter saturates; the earliest
    time shown is the earliest opening and the latest the latest closing, of all windows and
    of each kind. *)
Theorem step_transitions_reported now validated inputs authority launch shift latch r r' result :
  step_with_validated now validated inputs authority launch shift latch r = Some (r', result) ->
  let inj := injections (ActionBatch.iter (StepResult.actions result)) in
  let ign := ignitions (ActionBatch.iter (StepResult.actions result)) in
  extract_transition_observations result
  = TransitionShell.mk (2 * Z.of_nat (length (inj ++ ign))) (2 * Z.of_nat (length inj)) (2 * Z.of_nat (length ign))
      (least (fst <$> inj ++ ign)) (greatest (snd <$> inj ++ ign)) (least (fst <$> inj)) (greatest (snd <$> inj))
      (least (fst <$> ign)) (greatest (snd <$> ign)) false.
Proof.
  intros H. apply step_stepped in H as [(xs & Hx & Ho & _) _]. cbv zeta.
  destruct (step_windows_sane _ _ _ _ _ _ Ho) as [Hw Hl]. rewrite <- Hx in Hw.
  pose proof (spans_few (ActionBatch.iter (StepResult.actions result))) as Hfew. rewrite Hx, filter_app, length_app in Hfew.
  assert (filter (fun a => action_windows a <> []) (trailing r') = []) as Ht by (unfold trailing; by repeat case_match).
  rewrite Ht in Hfew. cbn [length] in Hfew. rewrite <- Hx in Hfew.
  pose proof (length_filter (fun a => action_windows a <> []) xs) as Hle. rewrite max_windows in Hl.
  unfold extract_transition_observations. change TransitionShell.default with (summary []).
  set (acts := ActionBatch.iter (StepResult.actions result)) in *.
  rewrite observe_exports; [|eapply Forall_impl; [exact (proj1 (Forall_fmap action_windows _ acts) Hw)|exact nonempty_of_windows]].
  destruct (spans_sane acts Hw) as [Hi Hg]. destruct (exported_times acts) as (T1 & T2 & T3). cbv zeta in T1, T2, T3.
  cbn [app]. unfold summary. rewrite T1, T2, !T3, !pairs_length, length_app in *. unfold u8_max.
  f_equal; try (rewrite !Nat2Z.inj_mul, Z.min_l; lia); rewrite <- ?earliest_of_least, <- ?latest_of_greatest;
    try (by apply earliest_of_windows); try (by apply latest_of_windows);
    [apply earliest_of_windows|apply latest_of_windows]; by apply Forall_app.
Qed.

(** The reason shown and the legacy code of a cut agree, on every snapshot an engine publishes. *)
Definition cut_reason_code (reason : CutReason.t) : Z :=
  match reason with
  | CutReason.None_ => 0
  | CutReason.SafetyLatched | CutReason.DirectRequest | CutReason.Shutdown => 1
  | CutReason.HardRev => 2 | CutReason.Launch => 3 | CutReason.FlatShift => 4 | CutReason.FuelOnly => 5
  | CutReason.SoftRev | CutReason.SparkOnly => 6
  | CutReason.KnockRetard => 7
  end.

Lemma cut_reason_has_code r :
  let snapshot := EngineRuntime.runtime_snapshot (refresh_snapshot r) in
  RuntimeSnapshot.legacy_cut_reason_code snapshot = cut_reason_code (CutObservations.reason (extract_cut_observations snapshot)).
Proof.
  cbn -[legacy_cut_reason_code]. unfold legacy_cut_reason_code.
  destruct (EngineRuntime.safety_latched r); [done|].
  destruct (EngineRuntime.direct_fuel_cut_request r); [done|]. destruct (EngineRuntime.direct_spark_cut_request r); [done|].
  cbn [orb]. case_bool_decide; [done|].
  by destruct (EngineRuntime.rev_hard_active r), (EngineRuntime.launch_active r), (EngineRuntime.flat_shift_active r),
    (EngineRuntime.fuel_cut r), (EngineRuntime.spark_cut r), (EngineRuntime.rev_soft_active r), (legacy_knock_reason_active r).
Qed.

(** The action shown of a fault and the mode of the step that ran with it: they differ only
    for a fault whose cancel reason says shutdown while its severity does not. *)
Lemma fault_action_mode r : let faults := EngineRuntime.faults r in
  FaultState.fault faults <> FaultCode.None ->
  let action := fst (runtime_fault_action_policy (FaultState.fault faults) (FaultState.severity faults) (FaultState.cancel_reason faults)) in
  (action = FaultAction.Shutdown <-> derive_operating_mode r = ControlMode.Shutdown \/ FaultState.cancel_reason faults = CancelReason.SafetyShutdown)
  /\ (action = FaultAction.LimpHome <-> derive_operating_mode r = ControlMode.LimpHome /\ FaultState.cancel_reason faults <> CancelReason.SafetyShutdown).
Proof.
  cbv zeta. intros Hf. unfold runtime_fault_action_policy, derive_operating_mode. rewrite bool_decide_false by done.
  repeat case_bool_decide; cbn; try naive_solver; repeat case_match; naive_solver.
Qed.
End theorems.

(** One revolution of the sample engine of [EngineRun]: two sparks, so four transitions. *)
Lemma step_transitions_reported_witness :
  match step_with_validated 1000 (ValidatedInputs.mk 3000 700 1200 false) (ControlInputs.spark_only 1000 sample_ignition)
    sample_authority false false false sample_engine with
  | Some (_, result) =>
    let shown := extract_transition_observations result in
    TransitionShell.ignition_transition_count shown = 4 /\ TransitionShell.earliest_transition_at_us shown = Some 1001
    /\ TransitionShell.latest_transition_at_us shown = Some 13666
  | None => False
  end.
Proof.
  pose proof (step_transitions_reported 1000 (ValidatedInputs.mk 3000 700 1200 false) (ControlInputs.spark_only 1000 sample_ignition)
    sample_authority false false false sample_engine) as H.
  set (stepped_to := step_with_validated _ _ _ _ _ _ _ _) in *.
  assert (option_map (fun x => (injections (ActionBatch.iter (StepResult.actions (snd x))),
    ignitions (ActionBatch.iter (StepResult.actions (snd x))))) stepped_to = Some ([], [(10466, 13666); (1001, 3666)])) as Hc
    by (lazy; reflexivity).
  destruct stepped_to as [[r' result]|]; [|done]. injection Hc as Hi Hg. cbv zeta. rewrite (H r' result eq_refl), Hi, Hg. done.
Defined.
