(* ===== verification/CanTypes.v ===== *)
(** * Messages and routes of the transports (crates/transport/src: lib.rs, message.rs, and the
    vocabulary of can.rs)

    The messages between the parts of the controller, the errors and statistics of a
    transport, and how CAN names, filters and prioritises them. *)
From S2P Require Import Prelude.

(** ** Messages (message.rs) *)
Definition CLASSIC_CAN_SINGLE_FRAME_PAYLOAD : nat := 7.
Definition MAX_ENCODED_MESSAGE_SIZE : nat := 1024.

Module Message.
(** The payload of an identity-provisioning request: three fields with their lengths. *)
Record Identity := mkIdentity {
  vin_len : Z; vin : list Z; calibration_id_len : Z; calibration_id : list Z;
  board_build_identity_len : Z; board_build_identity : list Z }.

Inductive t :=
| TriggerTiming (gap_period_us tooth_period_us tooth_position : Z) (synced : bool) (timestamp_us : Z)
| SensorData (map_kpa_x10 tps_percent iat_offset clt_offset voltage_x10 lambda_x100 flags timestamp_us : Z)
| GpsData (latitude_e7 longitude_e7 speed_cm_per_s heading_deg_x10 timestamp_us : Z)
| ExternalEgtData (bank channel egt_c_x10 flags timestamp_us : Z)
| Obd2Request (service : Z) (parameter_id : option Z) (payload_len : Z) (payload : list Z)
| Obd2Response (service : Z) (parameter_id negative_response_code : option Z) (payload_len : Z) (payload : list Z)
| Obd2SegmentedResponse (service : Z) (parameter_id : option Z)
    (sequence_index segment_count total_payload_len segment_len : Z) (segment : list Z)
| Obd2IdentityProvisioningCommand (request_id : Z) (identity : Identity)
| Obd2IdentityProvisioningArm (request_id nonce : Z) (identity : Identity) (tag : list Z)
| Obd2IdentityProvisioningArmAudit (request_id : Z) (armed : bool)
| Obd2IdentityProvisioningAudit (request_id : Z)
    (authorized authorization_failed attempted accepted store_failed : bool)
    (rejected_field vin_len calibration_id_len board_build_identity_len : Z)
| Obd2IdentityProvisioningKeyCommand (request_id nonce generation : Z) (revoke : bool) (key tag : list Z)
| Obd2IdentityProvisioningKeyAudit (request_id : Z) (authorized accepted store_failed : bool) (rejected_reason generation : Z)
| IpwTable (version : Z) (data : list (list Z)) (crc32 : Z)
| IgnitionTable (version : Z) (data : list (list Z)) (crc32 : Z)
| EngineConfig (num_cylinders displacement_cc injection_mode ignition_mode trigger_teeth trigger_missing : Z)
| InjectorConfig (flow_rate_cc_per_min dead_time_us voltage_slope_x100 : Z)
| Heartbeat (node_id uptime_seconds status error_count cpu_usage : Z)
| Error (node_id error_code severity timestamp_us : Z) (data : list Z)
| CmdReset (target_node_id : Z)
| CmdEngineControl (command : Z)
| CmdCalibrate (target_node_id cal_type : Z).
End Message.

(** The serializer (the postcard crate): [to_slice] fails when the bytes do not fit the
    buffer it is given. *)
Class Postcard := {
  to_slice : nat -> Message.t -> Result (list Z) unit;
  from_bytes : list Z -> Result Message.t unit;
}.

(** What is documented of it: it reads back what it wrote, in bytes, within the buffer. *)
Class PostcardLaws `{!Postcard} : Prop := {
  from_to : forall n m data, to_slice n m = Ok data -> from_bytes data = Ok m;
  to_slice_fits : forall n m data, to_slice n m = Ok data -> (length data <= n)%nat;
  to_slice_bytes : forall n m data, to_slice n m = Ok data -> Forall (fun b => 0 <= b < 256) data;
}.

Section encoded.
Context `{!Postcard}.
Definition encoded_len (m : Message.t) : Result nat unit :=
  match to_slice MAX_ENCODED_MESSAGE_SIZE m with Ok data => Ok (length data) | Err e => Err e end.
Definition requires_fragmentation (m : Message.t) : bool :=
  match encoded_len m with Ok len => (CLASSIC_CAN_SINGLE_FRAME_PAYLOAD <? len)%nat | Err _ => true end.
End encoded.

(** ** The transport interface (lib.rs) *)
Module TransportError.
Inductive t := BufferFull | MessageTooLarge | SerializationFailed | DeserializationFailed | HardwareError | NotReady.
#[global] Instance eq_dec : EqDecision t.
Proof. solve_decision. Defined.
End TransportError.

Module TransportStats.
Record t := mk {
  tx_count : Z; rx_count : Z; tx_errors : Z; rx_errors : Z; tx_buffer_usage : Z; rx_buffer_usage : Z;
  avg_latency_us : option Z }.
#[global] Instance eta : Eta t := fun s =>
  mk (tx_count s) (rx_count s) (tx_errors s) (rx_errors s) (tx_buffer_usage s) (rx_buffer_usage s) (avg_latency_us s).
Definition default : t := mk 0 0 0 0 0 0 None.
End TransportStats.

(** ** Bus health (can.rs) *)
Module CanBusHealthState.
Inductive t := Healthy | Degraded | BusOff.
End CanBusHealthState.

Module CanBusRecoveryState.
Inductive t := None_ | Needed | InProgress.
End CanBusRecoveryState.

Module CanBusHealth.
Record t := mk {
  state : CanBusHealthState.t; tx_error_count : Z; rx_error_count : Z; bus_off : bool; recovery : CanBusRecoveryState.t }.
Definition healthy : t := mk CanBusHealthState.Healthy 0 0 false CanBusRecoveryState.None_.
Definition is_send_blocked (h : t) : bool :=
  bus_off h || negb match recovery h with CanBusRecoveryState.None_ => true | _ => false end.
End CanBusHealth.

(** ** Routes (can.rs) *)
Module CanMessagePriority.
Inductive t := EmergencyControl | Fault | Timing | Sensor | CalibrationData | Configuration | Heartbeat.
(** The derived order of the variants. *)
Definition rank (p : t) : nat :=
  match p with
  | EmergencyControl => 0 | Fault => 1 | Timing => 2 | Sensor => 3 | CalibrationData => 4 | Configuration => 5
  | Heartbeat => 6
  end.
End CanMessagePriority.

Module CanMessageClass.
Inductive t := Fault | ResetCommand | EngineControlCommand | TriggerTiming | SensorData | GpsData | ExternalEgtData
  | FuelTable | IgnitionTable | EngineConfig | InjectorConfig | CalibrationCommand | Obd2Request | Obd2Response | Heartbeat.
#[global] Instance eq_dec : EqDecision t.
Proof. solve_decision. Defined.

Definition arbitration_id (c : t) : Z :=
  match c with
  | Fault => 0x080 | ResetCommand => 0x050 | EngineControlCommand => 0x060 | TriggerTiming => 0x100
  | SensorData => 0x200 | GpsData => 0x220 | ExternalEgtData => 0x230 | FuelTable => 0x300 | IgnitionTable => 0x310
  | EngineConfig => 0x400 | InjectorConfig => 0x410 | CalibrationCommand => 0x420 | Obd2Request => 0x430
  | Obd2Response => 0x440 | Heartbeat => 0x700
  end.

Definition priority (c : t) : CanMessagePriority.t :=
  match c with
  | ResetCommand | EngineControlCommand => CanMessagePriority.EmergencyControl
  | Fault => CanMessagePriority.Fault
  | TriggerTiming => CanMessagePriority.Timing
  | SensorData | GpsData | ExternalEgtData => CanMessagePriority.Sensor
  | FuelTable | IgnitionTable => CanMessagePriority.CalibrationData
  | EngineConfig | InjectorConfig | CalibrationCommand | Obd2Request | Obd2Response => CanMessagePriority.Configuration
  | Heartbeat => CanMessagePriority.Heartbeat
  end.
End CanMessageClass.

Module CanMessageRoute.
Record t := mk { class : CanMessageClass.t; priority : CanMessagePriority.t; arbitration_id : Z }.
Definition new (class : CanMessageClass.t) : t :=
  mk class (CanMessageClass.priority class) (CanMessageClass.arbitration_id class).
End CanMessageRoute.

Definition CAN_ROUTE_MAP : list CanMessageRoute.t := CanMessageRoute.new <$>
  [CanMessageClass.Fault; CanMessageClass.ResetCommand; CanMessageClass.EngineControlCommand;
   CanMessageClass.TriggerTiming; CanMessageClass.SensorData; CanMessageClass.GpsData;
   CanMessageClass.ExternalEgtData; CanMessageClass.FuelTable; CanMessageClass.IgnitionTable;
   CanMessageClass.EngineConfig; CanMessageClass.InjectorConfig; CanMessageClass.CalibrationCommand;
   CanMessageClass.Obd2Request; CanMessageClass.Obd2Response; CanMessageClass.Heartbeat].

Module CanFilterPolicyGroup.
Inductive t := CoreControl | CalibrationDiagnostic | OptionalTelemetry.
#[global] Instance eq_dec : EqDecision t.
Proof. solve_decision. Defined.
End CanFilterPolicyGroup.

Module CanFilterPolicyEntry.
Record t := mk { class : CanMessageClass.t; group : CanFilterPolicyGroup.t }.
End CanFilterPolicyEntry.

Definition CAN_FILTER_POLICY_MAP : list CanFilterPolicyEntry.t :=
  [CanFilterPolicyEntry.mk CanMessageClass.Fault CanFilterPolicyGroup.CoreControl;
   CanFilterPolicyEntry.mk CanMessageClass.ResetCommand CanFilterPolicyGroup.CoreControl;
   CanFilterPolicyEntry.mk CanMessageClass.EngineControlCommand CanFilterPolicyGroup.CoreControl;
   CanFilterPolicyEntry.mk CanMessageClass.TriggerTiming CanFilterPolicyGroup.CoreControl;
   CanFilterPolicyEntry.mk CanMessageClass.SensorData CanFilterPolicyGroup.CoreControl;
   CanFilterPolicyEntry.mk CanMessageClass.GpsData CanFilterPolicyGroup.OptionalTelemetry;
   CanFilterPolicyEntry.mk CanMessageClass.ExternalEgtData CanFilterPolicyGroup.OptionalTelemetry;
   CanFilterPolicyEntry.mk CanMessageClass.FuelTable CanFilterPolicyGroup.CalibrationDiagnostic;
   CanFilterPolicyEntry.mk CanMessageClass.IgnitionTable CanFilterPolicyGroup.CalibrationDiagnostic;
   CanFilterPolicyEntry.mk CanMessageClass.EngineConfig CanFilterPolicyGroup.CalibrationDiagnostic;
   CanFilterPolicyEntry.mk CanMessageClass.InjectorConfig CanFilterPolicyGroup.CalibrationDiagnostic;
   CanFilterPolicyEntry.mk CanMessageClass.CalibrationCommand CanFilterPolicyGroup.CalibrationDiagnostic;
   CanFilterPolicyEntry.mk CanMessageClass.Obd2Request CanFilterPolicyGroup.CalibrationDiagnostic;
   CanFilterPolicyEntry.mk CanMessageClass.Obd2Response CanFilterPolicyGroup.CalibrationDiagnostic;
   CanFilterPolicyEntry.mk CanMessageClass.Heartbeat CanFilterPolicyGroup.CoreControl].

(** ** Standard devices (can.rs) *)
Module CanStandardDeviceClass.
Inductive t := Dash | Logger | Pdm | Gps | ExternalLambda | ExternalEgt.
End CanStandardDeviceClass.

Module CanStandardDeviceSupport.
Inductive t := Supported | UnsupportedMissingMessageClass.
End CanStandardDeviceSupport.

Module CanStandardDeviceProfile.
Record t := mk {
  device_class : CanStandardDeviceClass.t; support : CanStandardDeviceSupport.t;
  required_rx_message_class_count : nat; required_rx_message_classes : list (option CanMessageClass.t);
  required_tx_message_class_count : nat; required_tx_message_classes : list (option CanMessageClass.t);
  required_filter_policy_group_count : nat; required_filter_policy_groups : list (option CanFilterPolicyGroup.t);
  heartbeat_required : bool }.

Definition is_supported (p : t) : bool :=
  match support p with CanStandardDeviceSupport.Supported => true | _ => false end.

(** The entry below the count: an index past the array is [None] of the outer option. *)
Definition required_rx_message_class (index : nat) (p : t) : option (option CanMessageClass.t) :=
  if (index <? required_rx_message_class_count p)%nat then required_rx_message_classes p !! index else Some None.
Definition required_tx_message_class (index : nat) (p : t) : option (option CanMessageClass.t) :=
  if (index <? required_tx_message_class_count p)%nat then required_tx_message_classes p !! index else Some None.
Definition required_filter_policy_group (index : nat) (p : t) : option (option CanFilterPolicyGroup.t) :=
  if (index <? required_filter_policy_group_count p)%nat then required_filter_policy_groups p !! index else Some None.

Definition profile (class : CanStandardDeviceClass.t) : t :=
  match class with
  | CanStandardDeviceClass.Dash =>
    mk class CanStandardDeviceSupport.Supported 0 [None; None; None; None]
      3 [Some CanMessageClass.SensorData; Some CanMessageClass.Fault; Some CanMessageClass.Heartbeat; None]
      1 [Some CanFilterPolicyGroup.CoreControl; None] true
  | CanStandardDeviceClass.Logger =>
    mk class CanStandardDeviceSupport.Supported 0 [None; None; None; None]
      4 [Some CanMessageClass.TriggerTiming; Some CanMessageClass.SensorData; Some CanMessageClass.Fault; Some CanMessageClass.Heartbeat]
      1 [Some CanFilterPolicyGroup.CoreControl; None] true
  | CanStandardDeviceClass.Pdm =>
    mk class CanStandardDeviceSupport.Supported
      2 [Some CanMessageClass.Fault; Some CanMessageClass.Heartbeat; None; None]
      2 [Some CanMessageClass.EngineControlCommand; Some CanMessageClass.ResetCommand; None; None]
      1 [Some CanFilterPolicyGroup.CoreControl; None] true
  | CanStandardDeviceClass.Gps =>
    mk class CanStandardDeviceSupport.Supported
      2 [Some CanMessageClass.GpsData; Some CanMessageClass.Heartbeat; None; None]
      0 [None; None; None; None] 1 [Some CanFilterPolicyGroup.OptionalTelemetry; None] true
  | CanStandardDeviceClass.ExternalLambda =>
    mk class CanStandardDeviceSupport.Supported
      2 [Some CanMessageClass.SensorData; Some CanMessageClass.Heartbeat; None; None]
      0 [None; None; None; None] 1 [Some CanFilterPolicyGroup.CoreControl; None] true
  | CanStandardDeviceClass.ExternalEgt =>
    mk class CanStandardDeviceSupport.Supported
      2 [Some CanMessageClass.ExternalEgtData; Some CanMessageClass.Heartbeat; None; None]
      0 [None; None; None; None] 1 [Some CanFilterPolicyGroup.OptionalTelemetry; None] true
  end.
End CanStandardDeviceProfile.

Definition CAN_STANDARD_DEVICE_PROFILE_MAP : list CanStandardDeviceProfile.t := CanStandardDeviceProfile.profile <$>
  [CanStandardDeviceClass.Dash; CanStandardDeviceClass.Logger; CanStandardDeviceClass.Pdm; CanStandardDeviceClass.Gps;
   CanStandardDeviceClass.ExternalLambda; CanStandardDeviceClass.ExternalEgt].

(** ** Lemmas *)

(** Two messages of different classes never contend with one identifier. *)
Lemma arbitration_id_inj c c' : CanMessageClass.arbitration_id c = CanMessageClass.arbitration_id c' -> c = c'.
Proof. by destruct c, c'. Qed.

(** A lower identifier wins the bus: what has the higher priority has the lower identifier. *)
Lemma priority_arbitrates c c' :
  (CanMessagePriority.rank (CanMessageClass.priority c) < CanMessagePriority.rank (CanMessageClass.priority c'))%nat ->
  CanMessageClass.arbitration_id c < CanMessageClass.arbitration_id c'.
Proof. destruct c, c'; cbn; lia. Qed.

(** Both maps list every class once. *)
Lemma route_map_complete c :
  length (filter (fun r => CanMessageRoute.class r = c) CAN_ROUTE_MAP) = 1%nat
  /\ length (filter (fun e => CanFilterPolicyEntry.class e = c) CAN_FILTER_POLICY_MAP) = 1%nat.
Proof. by destruct c. Qed.

(** The group that admits a class. *)
Definition filter_group (c : CanMessageClass.t) : option CanFilterPolicyGroup.t :=
  CanFilterPolicyEntry.group <$> head (filter (fun e => CanFilterPolicyEntry.class e = c) CAN_FILTER_POLICY_MAP).

(** A supported device's filter groups admit every class it sends to the controller, and the
    heartbeat is among its classes. *)
Lemma device_profiles_consistent class :
  let p := CanStandardDeviceProfile.profile class in
  Forall (fun c => exists g, filter_group c = Some g
      /\ (g = CanFilterPolicyGroup.CoreControl \/ Some g ∈ CanStandardDeviceProfile.required_filter_policy_groups p))
    (omap id (CanStandardDeviceProfile.required_rx_message_classes p))
  /\ CanStandardDeviceProfile.is_supported p = true
  /\ length (omap id (CanStandardDeviceProfile.required_rx_message_classes p)) = CanStandardDeviceProfile.required_rx_message_class_count p
  /\ length (omap id (CanStandardDeviceProfile.required_tx_message_classes p)) = CanStandardDeviceProfile.required_tx_message_class_count p.
Proof.
  destruct class; (split; [|done]); repeat constructor; eexists; (split; [reflexivity|]); first [by left|right; by left].
Qed.
