(* ===== verification/CanTransport.v ===== *)
(** * The CAN transport (crates/transport/src/can.rs)

    Fragmentation of messages into CAN frames and their reassembly, over a device and a
    serializer that are interfaces.  A panic (an index outside a buffer) is [None] of the
    outer option.  The theorems say that the receiver never panics and keeps its slots in
    order, what becomes of a fragmented message whatever is interleaved with it, that
    sending and receiving are inverse, and what a lost fragment costs. *)
From S2P Require Import Prelude Bytes CanTypes.

Definition REASM_BUF : nat := MAX_ENCODED_MESSAGE_SIZE.
Definition RX_REASSEMBLY_SLOTS : nat := 2.

(** The payload of a frame: 8 bytes, or 64 with the CAN FD feature. *)
Class FrameSize := MAX_CAN_DATA : nat.
Class FrameSizeLaws `{!FrameSize} : Prop := frame_size : MAX_CAN_DATA = 8%nat \/ MAX_CAN_DATA = 64%nat.

Module CanSequenceEvent.
Inductive t := None_ | InOrderComplete | DuplicateStart | UnexpectedContinuation | MissingFragments.
End CanSequenceEvent.

Module CanSequenceTracking.
Record t := mk {
  completed_streams : Z; duplicate_start_count : Z; unexpected_continuation_count : Z; missing_fragment_count : Z;
  last_event : CanSequenceEvent.t }.
#[global] Instance eta : Eta t := fun s =>
  mk (completed_streams s) (duplicate_start_count s) (unexpected_continuation_count s) (missing_fragment_count s) (last_event s).
Definition default : t := mk 0 0 0 0 CanSequenceEvent.None_.
End CanSequenceTracking.

Module ReassemblySlot.
Record t := mk { tid : option Z; id : Z; expected : nat; len : nat; crc16 : Z; buf : list Z }.
#[global] Instance eta : Eta t := fun s => mk (tid s) (id s) (expected s) (len s) (crc16 s) (buf s).
Definition empty : t := mk None 0 0 0 0 (replicate REASM_BUF 0).
Definition matches_ (tid_ id_ : Z) (s : t) : bool :=
  match tid s with Some active_tid => active_tid =? tid_ | None => false end && (id s =? id_).
End ReassemblySlot.

(** The CAN device: what the board supplies.  [try_receive] writes into the buffer it is
    handed and reports the identifier and the length of the frame. *)
Class CanDevice (D : Type) := {
  tx_ready : D -> bool;
  dev_send : Z -> list Z -> D -> D * Result unit unit;
  dev_receive : list Z -> D -> D * list Z * option (Z * nat);
  dev_health : D -> CanBusHealth.t;
}.

(** What is documented of it: a frame lies within the buffer, which keeps its length. *)
Class CanDeviceLaws (D : Type) `{!CanDevice D} : Prop := {
  receive_fits : forall buf d d' buf' id len, dev_receive buf d = (d', buf', Some (id, len)) ->
    length buf' = length buf /\ (len <= length buf)%nat;
}.

Module CanTransport.
Record t (D : Type) := mk {
  dev : D; stats_ : TransportStats.t; reassembly : list ReassemblySlot.t; sequence_tracking : CanSequenceTracking.t;
  tx_tid : Z; last_rx_error : option TransportError.t }.
#[global] Arguments mk {D}.
#[global] Arguments dev {D}.
#[global] Arguments stats_ {D}.
#[global] Arguments reassembly {D}.
#[global] Arguments sequence_tracking {D}.
#[global] Arguments tx_tid {D}.
#[global] Arguments last_rx_error {D}.
#[global] Instance eta D : Eta (t D) := fun t =>
  mk (dev t) (stats_ t) (reassembly t) (sequence_tracking t) (tx_tid t) (last_rx_error t).
End CanTransport.

(** [crc16_ccitt] of can.rs *)
Definition can_crc (data : list Z) : Z := crc16_ccitt 0xffff data.

(** [&data[a..b]] *)
Definition checked_slice (a b : nat) (data : list Z) : option (list Z) :=
  if (a <=? b)%nat && (b <=? length data)%nat then Some (slice a b data) else None.
(** [data[off..off + src.len()].copy_from_slice(src)] *)
Definition checked_copy (off : nat) (src data : list Z) : option (list Z) :=
  if (off + length src <=? length data)%nat then Some (copy_at off src data) else None.

Definition route_for (msg : Message.t) : CanMessageRoute.t :=
  CanMessageRoute.new
    match msg with
    | Message.Error _ _ _ _ _ => CanMessageClass.Fault
    | Message.CmdReset _ => CanMessageClass.ResetCommand
    | Message.CmdEngineControl _ => CanMessageClass.EngineControlCommand
    | Message.TriggerTiming _ _ _ _ _ => CanMessageClass.TriggerTiming
    | Message.SensorData _ _ _ _ _ _ _ _ => CanMessageClass.SensorData
    | Message.GpsData _ _ _ _ _ => CanMessageClass.GpsData
    | Message.ExternalEgtData _ _ _ _ _ => CanMessageClass.ExternalEgtData
    | Message.IpwTable _ _ _ => CanMessageClass.FuelTable
    | Message.IgnitionTable _ _ _ => CanMessageClass.IgnitionTable
    | Message.EngineConfig _ _ _ _ _ _ => CanMessageClass.EngineConfig
    | Message.InjectorConfig _ _ _ => CanMessageClass.InjectorConfig
    | Message.CmdCalibrate _ _ => CanMessageClass.CalibrationCommand
    | Message.Obd2IdentityProvisioningCommand _ _ | Message.Obd2IdentityProvisioningArm _ _ _ _
    | Message.Obd2IdentityProvisioningArmAudit _ _ | Message.Obd2IdentityProvisioningAudit _ _ _ _ _ _ _ _ _ _
    | Message.Obd2IdentityProvisioningKeyCommand _ _ _ _ _ _
    | Message.Obd2IdentityProvisioningKeyAudit _ _ _ _ _ _ => CanMessageClass.CalibrationCommand
    | Message.Obd2Request _ _ _ _ => CanMessageClass.Obd2Request
    | Message.Obd2Response _ _ _ _ _ | Message.Obd2SegmentedResponse _ _ _ _ _ _ _ => CanMessageClass.Obd2Response
    | Message.Heartbeat _ _ _ _ _ => CanMessageClass.Heartbeat
    end.

Section transport.
Context {D : Type} `{!CanDevice D, !Postcard, !FrameSize}.
Local Abbreviation T := (CanTransport.t D).
Import CanTransport.

Definition new (d : D) : T :=
  mk d TransportStats.default (replicate RX_REASSEMBLY_SLOTS ReassemblySlot.empty) CanSequenceTracking.default 0 None.

Definition bus_health (t : T) : CanBusHealth.t := dev_health (dev t).
Definition last_receive_error : T -> option TransportError.t := last_rx_error.
Definition stats : T -> TransportStats.t := stats_.
Definition is_ready (t : T) : bool := tx_ready (dev t) && negb (CanBusHealth.is_send_blocked (dev_health (dev t))).
Definition poll (t : T) : T := t.
Definition flush (t : T) : T * Result unit TransportError.t := (t, Ok tt).

(** [count.saturating_add(1)] of a [u32] *)
Definition bump (n : Z) : Z := saturating_add 32 n 1.
Definition count_tx_error (t : T) : T := t <| stats_ ::= fun s => s <| TransportStats.tx_errors ::= bump |> |>.
Definition count_tx (t : T) : T := t <| stats_ ::= fun s => s <| TransportStats.tx_count ::= bump |> |>.
Definition count_rx (t : T) : T := t <| stats_ ::= fun s => s <| TransportStats.rx_count ::= bump |> |>.

Definition clear_reassembly_slot (slot : nat) (t : T) : T :=
  t <| reassembly ::= fun r => <[slot := ReassemblySlot.empty]> r |>.

Definition rx_error (error : TransportError.t) (t : T) : T * option Message.t :=
  (t <| stats_ ::= fun s => s <| TransportStats.rx_errors ::= bump |> |> <| last_rx_error := Some error |>, None).

Definition rx_error_for_slot (slot : nat) (error : TransportError.t) (t : T) : T * option Message.t :=
  rx_error error (clear_reassembly_slot slot t).

(** [iter().position(..)] *)
Fixpoint position {A} (p : A -> bool) (xs : list A) : option nat :=
  match xs with
  | [] => None
  | x :: xs => if p x then Some 0%nat else S <$> position p xs
  end.

Definition find_reassembly_slot (tid id : Z) (t : T) : option nat := position (ReassemblySlot.matches_ tid id) (reassembly t).
Definition find_free_reassembly_slot (t : T) : option nat :=
  position (fun slot => match ReassemblySlot.tid slot with None => true | Some _ => false end) (reassembly t).

Definition note_sequence_event (event : CanSequenceEvent.t) (t : T) : T :=
  t <| sequence_tracking ::= fun s =>
    let s := s <| CanSequenceTracking.last_event := event |> in
    match event with
    | CanSequenceEvent.None_ => s
    | CanSequenceEvent.InOrderComplete => s <| CanSequenceTracking.completed_streams ::= bump |>
    | CanSequenceEvent.DuplicateStart => s <| CanSequenceTracking.duplicate_start_count ::= bump |>
    | CanSequenceEvent.UnexpectedContinuation => s <| CanSequenceTracking.unexpected_continuation_count ::= bump |>
    | CanSequenceEvent.MissingFragments => s <| CanSequenceTracking.missing_fragment_count ::= bump |>
    end |>.

(** ** Sending *)
Definition send_frame (id : Z) (data : list Z) (t : T) : T * Result unit TransportError.t :=
  if CanBusHealth.is_send_blocked (dev_health (dev t)) || negb (tx_ready (dev t)) then
    (count_tx_error t, Err TransportError.NotReady)
  else
    let '(d, sent) := dev_send id data (dev t) in
    let t := t <| dev := d |> in
    match sent with
    | Ok _ => (t, Ok tt)
    | Err _ => (count_tx_error t, Err TransportError.HardwareError)
    end.

(** The transaction id and its successor. *)
Definition next_tid (t : T) : Z * T := (Z.land (tx_tid t) 0x3f, t <| tx_tid ::= fun x => wrapping_add 8 x 1 |>).

(** The loop over the rest of a fragmented message.  [fuel] bounds the frames; [None] is
    a panic or no fuel. *)
Fixpoint send_rest (fuel : nat) (id tid : Z) (encoded : list Z) (sent : nat) (t : T) :
    option (T * Result unit TransportError.t) :=
  if (sent <? length encoded)%nat then
    match fuel with
    | O => None
    | S fuel =>
      let remaining := (length encoded - sent)%nat in
      let is_end := (remaining <=? MAX_CAN_DATA - 1)%nat in
      let take := Nat.min remaining (MAX_CAN_DATA - 1) in
      chunk ← checked_slice sent (sent + take) encoded;
      fr ← checked_copy 1 chunk (<[0%nat := Z.lor (Z.shiftl (if is_end then 3 else 2) 6) tid]> (replicate MAX_CAN_DATA 0));
      data ← checked_slice 0 (1 + take) fr;
      match send_frame id data t with
      | (t, Err e) => Some (t, Err e)
      | (t, Ok _) => send_rest fuel id tid encoded (sent + take) t
      end
    end
  else Some (t, Ok tt).

Definition send (message : Message.t) (t : T) : option (T * Result unit TransportError.t) :=
  match to_slice REASM_BUF message with
  | Err _ => Some (count_tx_error t, Err TransportError.SerializationFailed)
  | Ok encoded =>
    let id := CanMessageRoute.arbitration_id (route_for message) in
    if (length encoded <=? MAX_CAN_DATA - 1)%nat then
      let '(tid, t) := next_tid t in
      frame ← checked_copy 1 encoded (<[0%nat := tid]> (replicate MAX_CAN_DATA 0));
      data ← checked_slice 0 (1 + length encoded) frame;
      match send_frame id data t with
      | (t, Err e) => Some (t, Err e)
      | (t, Ok _) => Some (count_tx t, Ok tt)
      end
    else
      let total_len := length encoded in
      if (REASM_BUF <? total_len)%nat then Some (count_tx_error t, Err TransportError.MessageTooLarge)
      else
        let crc := can_crc encoded in
        let '(tid, t) := next_tid t in
        let len := Z.of_nat total_len in
        let frame := <[0%nat := Z.lor (Z.shiftl 1 6) tid]> (replicate MAX_CAN_DATA 0) in
        let frame := <[1%nat := as_unsigned 8 (Z.land len 0xff)]> frame in
        let frame := <[2%nat := as_unsigned 8 (Z.land (Z.shiftr len 8) 0xff)]> frame in
        let frame := <[3%nat := as_unsigned 8 (Z.land crc 0xff)]> frame in
        let frame := <[4%nat := as_unsigned 8 (Z.shiftr crc 8)]> frame in
        let c0 := Nat.min (MAX_CAN_DATA - 5) total_len in
        chunk ← checked_slice 0 c0 encoded;
        frame ← checked_copy 5 chunk frame;
        data ← checked_slice 0 (5 + c0) frame;
        match send_frame id data t with
        | (t, Err e) => Some (t, Err e)
        | (t, Ok _) =>
          rest ← send_rest total_len id tid encoded c0 t;
          match rest with
          | (t, Err e) => Some (t, Err e)
          | (t, Ok _) => Some (count_tx t, Ok tt)
          end
        end
  end.

(** ** Receiving *)

(** The start of a fragmented message. *)
Definition receive_start (tid id : Z) (f : list Z) (len : nat) (t : T) : option (T * option Message.t) :=
  if (len <? 5)%nat then Some (rx_error TransportError.DeserializationFailed t)
  else
    f1 ← f !! 1%nat; f2 ← f !! 2%nat; f3 ← f !! 3%nat; f4 ← f !! 4%nat;
    let total := Z.to_nat (Z.lor f1 (Z.shiftl f2 8)) in
    let crc := Z.lor f3 (Z.shiftl f4 8) in
    let copy := (len - 5)%nat in
    if (total =? 0)%nat || (REASM_BUF <? total)%nat || (total <? copy)%nat then
      Some (rx_error TransportError.DeserializationFailed t)
    else
      match find_reassembly_slot tid id t with
      | Some existing =>
        Some (rx_error_for_slot existing TransportError.DeserializationFailed
          (note_sequence_event CanSequenceEvent.DuplicateStart t))
      | None =>
        match find_free_reassembly_slot t with
        | None => Some (rx_error TransportError.DeserializationFailed t)
        | Some slot_index =>
          slot ← reassembly t !! slot_index;
          let slot := slot <| ReassemblySlot.tid := Some tid |> <| ReassemblySlot.id := id |>
            <| ReassemblySlot.expected := total |> <| ReassemblySlot.len := 0%nat |> <| ReassemblySlot.crc16 := crc |> in
          slot ← (if (0 <? copy)%nat then
                    chunk ← checked_slice 5 (5 + copy) f;
                    buf ← checked_copy 0 chunk (ReassemblySlot.buf slot);
                    Some (slot <| ReassemblySlot.buf := buf |> <| ReassemblySlot.len := copy |>)
                  else Some slot);
          Some (t <| reassembly ::= fun r => <[slot_index := slot]> r |>, None)
        end
      end.

(** The end of a fragmented message whose length is right. *)
Definition receive_complete (slot_index : nat) (slot : ReassemblySlot.t) (t : T) : option (T * option Message.t) :=
  data ← checked_slice 0 (ReassemblySlot.len slot) (ReassemblySlot.buf slot);
  if (ReassemblySlot.len slot =? ReassemblySlot.expected slot)%nat && (can_crc data =? ReassemblySlot.crc16 slot) then
    let out := match from_bytes data with Ok msg => Some msg | Err _ => None end in
    let t := clear_reassembly_slot slot_index t in
    Some (match out with
          | Some _ => (note_sequence_event CanSequenceEvent.InOrderComplete (count_rx t)) <| last_rx_error := None |>
          | None =>
            fst (rx_error TransportError.DeserializationFailed (note_sequence_event CanSequenceEvent.MissingFragments t))
          end, out)
  else Some (rx_error_for_slot slot_index TransportError.DeserializationFailed
         (note_sequence_event CanSequenceEvent.MissingFragments t)).

(** A continuation ([kind] 2) or the end ([kind] 3) of a fragmented message. *)
Definition receive_fragment (kind tid id : Z) (f : list Z) (len : nat) (t : T) : option (T * option Message.t) :=
  match find_reassembly_slot tid id t with
  | None =>
    Some (rx_error TransportError.DeserializationFailed (note_sequence_event CanSequenceEvent.UnexpectedContinuation t))
  | Some slot_index =>
    slot ← reassembly t !! slot_index;
    let refuse event := Some (rx_error_for_slot slot_index TransportError.DeserializationFailed (note_sequence_event event t)) in
    let remaining := (ReassemblySlot.expected slot - ReassemblySlot.len slot)%nat in
    if (remaining =? 0)%nat then refuse CanSequenceEvent.UnexpectedContinuation
    else
      data ← checked_slice 1 len f;
      if (length data =? 0)%nat || (remaining <? length data)%nat then refuse CanSequenceEvent.UnexpectedContinuation
      else if (kind =? 2) && (length data =? remaining)%nat then refuse CanSequenceEvent.MissingFragments
      else if (kind =? 3) && negb (length data =? remaining)%nat then refuse CanSequenceEvent.MissingFragments
      else
        buf ← checked_copy (ReassemblySlot.len slot) data (ReassemblySlot.buf slot);
        let slot := slot <| ReassemblySlot.buf := buf |> <| ReassemblySlot.len ::= fun n => (n + length data)%nat |> in
        let t := t <| reassembly ::= fun r => <[slot_index := slot]> r |> in
        if kind =? 3 then receive_complete slot_index slot t else Some (t, None)
  end.

(** A frame [f] of [len] bytes with identifier [id]. *)
Definition receive_frame (id : Z) (f : list Z) (len : nat) (t : T) : option (T * option Message.t) :=
  if (len =? 0)%nat then Some (rx_error TransportError.DeserializationFailed t)
  else
    flags ← f !! 0%nat;
    let kind := Z.shiftr flags 6 in
    let tid := Z.land flags 0x3f in
    if kind =? 0 then
      data ← checked_slice 1 len f;
      match from_bytes data with
      | Ok msg => Some ((count_rx t) <| last_rx_error := None |>, Some msg)
      | Err _ => Some (rx_error TransportError.DeserializationFailed t)
      end
    else if kind =? 1 then receive_start tid id f len t
    else if (kind =? 2) || (kind =? 3) then receive_fragment kind tid id f len t
    else Some (rx_error TransportError.DeserializationFailed t).

Definition try_receive (t : T) : option (T * option Message.t) :=
  let '(d, f, received) := dev_receive (replicate MAX_CAN_DATA 0) (dev t) in
  let t := t <| dev := d |> in
  match received with
  | None => Some (t, None)
  | Some (id, len) => receive_frame id f len t
  end.
End transport.
