(* ===== verification/CanReassembly.v ===== *)
(** * Reassembly of fragmented CAN messages

    The receiver of CanTransport.v against a finite map from streams (a transaction of a
    sender's identifier) to what has arrived of them: refinement, delivery of a message
    whatever is interleaved with it, the round trip with the sender, and the streams that
    are never finished. *)
From S2P Require Import Prelude Bytes CanTypes CanTransport.
From stdpp Require Import gmap.
Import CanTransport.
Open Scope Z_scope.

(** ** The specification *)
Module Stream.
(** A message that has begun to arrive. *)
Record t := mk { total : nat; crc : Z; data : list Z }.
End Stream.

(** A transaction id and an arbitration id. *)
Abbreviation Key := (Z * Z)%type.
Abbreviation Streams := (gmap Key Stream.t).

Module Outcome.
Inductive t := Delivered (msg : Message.t) | Pending | Refused.
Definition message (o : t) : option Message.t := match o with Delivered msg => Some msg | _ => None end.
End Outcome.

Section spec.
Context `{!Postcard}.

Definition decoded (data : list Z) : Outcome.t :=
  match from_bytes data with Ok msg => Outcome.Delivered msg | Err _ => Outcome.Refused end.

(** The start of a stream of key [k], when at most [slots] may be open. *)
Definition spec_start (slots : nat) (k : Key) (body : list Z) (m : Streams) : Streams * Outcome.t :=
  match body with
  | f1 :: f2 :: f3 :: f4 :: chunk =>
    let total := Z.to_nat (Z.lor f1 (Z.shiftl f2 8)) in
    if (total =? 0)%nat || (REASM_BUF <? total)%nat || (total <? length chunk)%nat then (m, Outcome.Refused)
    else
      match m !! k with
      | Some _ => (delete k m, Outcome.Refused)
      | None =>
        if (size m <? slots)%nat
        then (<[k := Stream.mk total (Z.lor f3 (Z.shiftl f4 8)) chunk]> m, Outcome.Pending) else (m, Outcome.Refused)
      end
  | _ => (m, Outcome.Refused)
  end.

(** A fragment of key [k], the last one or not. *)
Definition spec_fragment (last : bool) (k : Key) (body : list Z) (m : Streams) : Streams * Outcome.t :=
  match m !! k with
  | None => (m, Outcome.Refused)
  | Some s =>
    let data := Stream.data s ++ body in
    if (length body =? 0)%nat then (delete k m, Outcome.Refused)
    else if last then
      (delete k m,
       if (length data =? Stream.total s)%nat && (can_crc data =? Stream.crc s) then decoded data else Outcome.Refused)
    else if (length data <? Stream.total s)%nat
      then (<[k := Stream.mk (Stream.total s) (Stream.crc s) data]> m, Outcome.Pending)
    else (delete k m, Outcome.Refused)
  end.

Definition key_of (id flags : Z) : Key := (Z.land flags 0x3f, id).

Definition spec_receive (slots : nat) (id : Z) (frame : list Z) (m : Streams) : Streams * Outcome.t :=
  match frame with
  | [] => (m, Outcome.Refused)
  | flags :: body =>
    let kind := Z.shiftr flags 6 in
    if kind =? 0 then (m, decoded body)
    else if kind =? 1 then spec_start slots (key_of id flags) body m
    else if (kind =? 2) || (kind =? 3) then spec_fragment (kind =? 3) (key_of id flags) body m
    else (m, Outcome.Refused)
  end.
End spec.

(** ** The slots as a map *)
Definition entry (s : ReassemblySlot.t) : option (Key * Stream.t) :=
  tid ← ReassemblySlot.tid s;
  Some ((tid, ReassemblySlot.id s),
    Stream.mk (ReassemblySlot.expected s) (ReassemblySlot.crc16 s) (take (ReassemblySlot.len s) (ReassemblySlot.buf s))).

Definition streams_of (slots : list ReassemblySlot.t) : Streams := list_to_map (omap entry slots).

(** A slot whose stream is unfinished and fits its buffer. *)
Definition slot_ok (s : ReassemblySlot.t) : Prop :=
  length (ReassemblySlot.buf s) = REASM_BUF
  /\ (ReassemblySlot.tid s <> None -> (ReassemblySlot.len s <= ReassemblySlot.expected s <= REASM_BUF)%nat).

Definition slots_ok (slots : list ReassemblySlot.t) : Prop := Forall slot_ok slots /\ NoDup (omap entry slots).*1.

Lemma omap_entry_cons s slots : omap entry (s :: slots) = option_list (entry s) ++ omap entry slots.
Proof. cbn. by destruct (entry s). Qed.

Lemma length_entries_le slots : (length (omap entry slots) <= length slots)%nat.
Proof. induction slots as [|s slots IH]; [done|]. rewrite omap_entry_cons, length_app. destruct (entry s); cbn; lia. Qed.

Lemma slots_split (slots : list ReassemblySlot.t) i s : slots !! i = Some s ->
  exists rest, (omap entry slots ≡ₚ option_list (entry s) ++ rest)
    /\ (forall s', omap entry (<[i := s']> slots) ≡ₚ option_list (entry s') ++ rest).
Proof.
  intros Hi. apply list_elem_of_split_length in Hi as (l1 & l2 & -> & ->).
  exists (omap entry (l1 ++ l2)). rewrite !omap_app.
  split.
  - rewrite omap_entry_cons. apply Permutation_app_swap_app.
  - intros s'. rewrite insert_app_r_alt by lia. rewrite Nat.sub_diag. cbn [insert list_insert].
    rewrite omap_app, omap_entry_cons. apply Permutation_app_swap_app.
Qed.

(** What one slot contributes to the map, and what replacing it does. *)
Lemma streams_replace slots i s : slots_ok slots -> slots !! i = Some s ->
  exists M : Streams,
    (match entry s with Some (k, v) => M !! k = None /\ streams_of slots = <[k := v]> M | None => streams_of slots = M end)
    /\ (forall s', slot_ok s' ->
        match entry s' with
        | Some (k, v) => M !! k = None -> slots_ok (<[i := s']> slots) /\ streams_of (<[i := s']> slots) = <[k := v]> M
        | None => slots_ok (<[i := s']> slots) /\ streams_of (<[i := s']> slots) = M
        end).
Proof.
  intros [Hok Hnd] Hi. destruct (slots_split _ _ _ Hi) as (rest & Hs & Hr). exists (list_to_map rest).
  assert (NoDup rest.*1) as Hnr.
  { rewrite Hs, fmap_app in Hnd. by apply NoDup_app in Hnd as (_ & _ & ?). }
  assert (streams_of slots = list_to_map (option_list (entry s) ++ rest)) as Es by (by apply list_to_map_proper).
  split.
  - destruct (entry s) as [[k v]|]; [|done]. cbn [option_list] in *. rewrite Hs in Hnd.
    apply NoDup_cons in Hnd as [Hk _]. split; [by apply not_elem_of_list_to_map|done].
  - intros s' Hs'. assert (Forall slot_ok (<[i:=s']> slots)) as Hf by (by apply Forall_insert).
    destruct (entry s') as [[k v]|] eqn:E.
    + intros Hk. assert (NoDup (omap entry (<[i:=s']> slots)).*1) as Hn.
      { rewrite (Hr s'), E. cbn. apply NoDup_cons. split; [|done]. by apply not_elem_of_list_to_map_2. }
      split; [done|]. unfold streams_of. rewrite (list_to_map_proper _ _ Hn (Hr s')), E. done.
    + assert (NoDup (omap entry (<[i:=s']> slots)).*1) as Hn by (by rewrite (Hr s'), E).
      split; [done|]. unfold streams_of. by rewrite (list_to_map_proper _ _ Hn (Hr s')), E.
Qed.

(** ** Searching the slots *)
Lemma position_Some {A} (p : A -> bool) xs i : position p xs = Some i -> exists x, xs !! i = Some x /\ p x = true.
Proof.
  revert i. induction xs as [|x xs IH]; intros i H; [done|]. cbn in H. destruct (p x) eqn:E; [injection H as <-; by exists x|].
  apply fmap_Some in H as (j & Hj & ->). by apply IH.
Qed.

Lemma position_None {A} (p : A -> bool) xs : position p xs = None -> Forall (fun x => p x = false) xs.
Proof.
  induction xs as [|x xs IH]; intros H; [done|]. cbn in H. destruct (p x) eqn:E; [done|].
  apply fmap_None in H. constructor; [done|by apply IH].
Qed.

Lemma matches_entry tid id s :
  ReassemblySlot.matches_ tid id s = true <-> exists v, entry s = Some ((tid, id), v).
Proof.
  unfold ReassemblySlot.matches_, entry. destruct (ReassemblySlot.tid s) as [x|]; cbn; [|by split; [|intros (? & ?)]].
  rewrite andb_true_iff, !Z.eqb_eq. split; [intros [-> ->]; by eexists|intros (v & [= -> -> _]); done].
Qed.

Section receiver.
Context {D : Type} `{!CanDevice D, !Postcard, !FrameSize}.
Implicit Types t : CanTransport.t D.

Lemma find_slot tid id t : slots_ok (reassembly t) ->
  match find_reassembly_slot tid id t with
  | Some i => exists s v, reassembly t !! i = Some s /\ entry s = Some ((tid, id), v)
  | None => streams_of (reassembly t) !! (tid, id) = None
  end.
Proof.
  intros [_ Hnd]. unfold find_reassembly_slot. destruct (position _ _) as [i|] eqn:E.
  - apply position_Some in E as (s & Hs & Hm). apply matches_entry in Hm as (v & Hv). by exists s, v.
  - apply position_None in E. apply not_elem_of_list_to_map. intros Hin.
    apply list_elem_of_fmap in Hin as ([k v] & Hk & Hin). cbn in Hk. subst k.
    apply list_elem_of_omap in Hin as (s & Hs & He). rewrite Forall_forall in E. specialize (E _ Hs).
    assert (ReassemblySlot.matches_ tid id s = true) by (apply matches_entry; by exists v). congruence.
Qed.

Lemma find_free t : slots_ok (reassembly t) ->
  match find_free_reassembly_slot t with
  | Some i => exists s, reassembly t !! i = Some s /\ entry s = None
      /\ (size (streams_of (reassembly t)) < length (reassembly t))%nat
  | None => size (streams_of (reassembly t)) = length (reassembly t)
  end.
Proof.
  intros [_ Hnd]. assert (size (streams_of (reassembly t)) = length (omap entry (reassembly t))) as Hsize.
  { unfold streams_of. rewrite <- length_map_to_list. apply Permutation_length. by apply map_to_list_to_map. }
  rewrite Hsize. unfold find_free_reassembly_slot. generalize (reassembly t) as slots. clear.
  induction slots as [|s slots IH]; [done|]. rewrite omap_entry_cons, length_app. cbn [position length].
  destruct (ReassemblySlot.tid s) as [x|] eqn:E.
  - assert (length (option_list (entry s)) = 1%nat) as -> by (unfold entry; by rewrite E).
    destruct (position _ slots) as [i|]; cbn [fmap option_fmap option_map]; [|lia].
    destruct IH as (s' & H1 & H2 & H3). exists s'. split; [done|]. split; [done|lia].
  - assert (entry s = None) as -> by (unfold entry; by rewrite E).
    exists s. split; [done|]. split; [unfold entry; by rewrite E|]. pose proof (length_entries_le slots). cbn. lia.
Qed.
End receiver.

(** ** One frame *)
Lemma empty_ok : slot_ok ReassemblySlot.empty.
Proof. split; [apply length_replicate|done]. Qed.

Lemma streams_clear slots i s k v : slots_ok slots -> slots !! i = Some s -> entry s = Some (k, v) ->
  slots_ok (<[i := ReassemblySlot.empty]> slots)
  /\ streams_of (<[i := ReassemblySlot.empty]> slots) = delete k (streams_of slots).
Proof.
  intros Hok Hi He. destruct (streams_replace _ _ _ Hok Hi) as (M & HM & Hr). rewrite He in HM. destruct HM as [Hk ->].
  destruct (Hr _ empty_ok) as [? ->]. split; [done|]. by rewrite delete_insert_id.
Qed.

Lemma streams_set slots i s s' k v : slots_ok slots -> slots !! i = Some s -> slot_ok s' -> entry s' = Some (k, v) ->
  (exists v0, entry s = Some (k, v0)) \/ entry s = None /\ streams_of slots !! k = None ->
  slots_ok (<[i := s']> slots) /\ streams_of (<[i := s']> slots) = <[k := v]> (streams_of slots).
Proof.
  intros Hok Hi Hs' He' H. destruct (streams_replace _ _ _ Hok Hi) as (M & HM & Hr). specialize (Hr _ Hs'). rewrite He' in Hr.
  destruct H as [(v0 & He)|[He Hk]]; rewrite He in HM.
  - destruct HM as [Hk ->]. destruct (Hr Hk) as [? ->]. split; [done|]. by rewrite insert_insert_eq.
  - subst M. by destruct (Hr Hk) as [? ->].
Qed.

Lemma slot_entry_of slots i s k v : slots_ok slots -> slots !! i = Some s -> entry s = Some (k, v) ->
  streams_of slots !! k = Some v.
Proof.
  intros Hok Hi He. destruct (streams_replace _ _ _ Hok Hi) as (M & HM & _). rewrite He in HM. destruct HM as [_ ->].
  apply lookup_insert_eq.
Qed.

Lemma checked_slice_app (pre mid post : list Z) a b : length pre = a -> b = (a + length mid)%nat ->
  checked_slice a b (pre ++ mid ++ post) = Some mid.
Proof.
  intros Ha Hb. unfold checked_slice. rewrite (slice_app a b pre mid post) by done. rewrite !length_app.
  destruct (Nat.leb_spec a b); [|lia]. destruct (Nat.leb_spec b (length pre + (length mid + length post))); [done|lia].
Qed.

Lemma checked_slice_0 (mid post : list Z) n : n = length mid -> checked_slice 0 n (mid ++ post) = Some mid.
Proof. intros ->. by apply (checked_slice_app [] mid post). Qed.

Section step.
Context {D : Type} `{!CanDevice D, !Postcard, !FrameSize}.
Implicit Types t : CanTransport.t D.

(** What an outcome does besides the streams. *)
Definition settled (o : Outcome.t) t t' : Prop :=
  dev t' = dev t /\ tx_tid t' = tx_tid t /\ length (reassembly t') = length (reassembly t)
  /\ stats_ t' = match o with
                 | Outcome.Delivered _ => (stats_ t) <| TransportStats.rx_count ::= bump |>
                 | Outcome.Pending => stats_ t
                 | Outcome.Refused => (stats_ t) <| TransportStats.rx_errors ::= bump |>
                 end
  /\ last_rx_error t' = match o with
                        | Outcome.Delivered _ => None
                        | Outcome.Pending => last_rx_error t
                        | Outcome.Refused => Some TransportError.DeserializationFailed
                        end.

(** The receiver has done what the specification says. *)
Definition does (r : option (CanTransport.t D * option Message.t)) t (spec : Streams * Outcome.t) : Prop :=
  exists t', r = Some (t', Outcome.message (snd spec)) /\ slots_ok (reassembly t')
    /\ streams_of (reassembly t') = fst spec /\ settled (snd spec) t t'.

Lemma does_refuse t : slots_ok (reassembly t) ->
  does (Some (rx_error TransportError.DeserializationFailed t)) t (streams_of (reassembly t), Outcome.Refused).
Proof. intros Hok. by eexists. Qed.

Lemma does_refuse_event event t : slots_ok (reassembly t) ->
  does (Some (rx_error TransportError.DeserializationFailed (note_sequence_event event t))) t
    (streams_of (reassembly t), Outcome.Refused).
Proof. intros Hok. by eexists. Qed.

Lemma does_refuse_slot event i s k v t : slots_ok (reassembly t) -> reassembly t !! i = Some s -> entry s = Some (k, v) ->
  does (Some (rx_error_for_slot i TransportError.DeserializationFailed (note_sequence_event event t))) t
    (delete k (streams_of (reassembly t)), Outcome.Refused).
Proof.
  intros Hok Hi He. destruct (streams_clear _ _ _ _ _ Hok Hi He) as [H1 H2]. eexists. split; [reflexivity|].
  split; [exact H1|]. split; [exact H2|]. split; [done|]. split; [done|]. split; [apply length_insert|done].
Qed.

Lemma does_set i s s' k v t : slots_ok (reassembly t) -> reassembly t !! i = Some s -> slot_ok s' -> entry s' = Some (k, v) ->
  (exists v0, entry s = Some (k, v0)) \/ entry s = None /\ streams_of (reassembly t) !! k = None ->
  does (Some (t <| reassembly ::= fun r => <[i := s']> r |>, None)) t (<[k := v]> (streams_of (reassembly t)), Outcome.Pending).
Proof.
  intros Hok Hi Hs' He' Hfrom. destruct (streams_set _ _ _ _ _ _ Hok Hi Hs' He' Hfrom) as [H1 H2]. eexists. split; [reflexivity|].
  split; [exact H1|]. split; [exact H2|]. split; [done|]. split; [done|]. split; [apply length_insert|done].
Qed.

Lemma start_refines k body flags garbage t : slots_ok (reassembly t) ->
  does (receive_start (fst k) (snd k) ((flags :: body) ++ garbage) (length (flags :: body)) t) t
    (spec_start (length (reassembly t)) k body (streams_of (reassembly t))).
Proof.
  intros Hok. unfold receive_start, spec_start.
  destruct body as [|f1 [|f2 [|f3 [|f4 chunk]]]]; try by apply does_refuse.
  cbn [length app]. change (S (S (S (S (S (length chunk)))))) with (5 + length chunk)%nat.
  destruct (Nat.ltb_spec (5 + length chunk) 5) as [?|_]; [lia|]. cbn [lookup list_lookup mbind option_bind].
  replace (5 + length chunk - 5)%nat with (length chunk) by lia.
  set (total := Z.to_nat (Z.lor f1 (Z.shiftl f2 8))). destruct (_ || (total <? length chunk)%nat) eqn:Eb; [by apply does_refuse|].
  apply orb_false_iff in Eb as [Eb Hc%Nat.ltb_ge]. apply orb_false_iff in Eb as [Ht%Nat.eqb_neq Hm%Nat.ltb_ge].
  pose proof (find_slot (fst k) (snd k) t Hok) as Hf. rewrite <- surjective_pairing in Hf.
  destruct (find_reassembly_slot (fst k) (snd k) t) as [i|].
  - destruct Hf as (s & v & Hi & He). rewrite (slot_entry_of _ _ _ _ _ Hok Hi He). by eapply does_refuse_slot.
  - rewrite Hf. pose proof (find_free t Hok) as Hfree. destruct (find_free_reassembly_slot t) as [i|].
    + destruct Hfree as (s & Hi & He & Hlt). destruct (Nat.ltb_spec (size (streams_of (reassembly t))) (length (reassembly t))); [|lia].
      rewrite Hi. cbn [mbind option_bind].
      assert (length (ReassemblySlot.buf s) = REASM_BUF) as Hlen.
      { destruct Hok as [Hok _]. rewrite Forall_forall in Hok. apply (Hok s). by apply list_elem_of_lookup_2 in Hi. }
      assert (entry s = None /\ streams_of (reassembly t) !! k = None) as Hnone by done.
      destruct (Nat.ltb_spec 0 (length chunk)) as [Hpos|Hzero].
      * change (flags :: f1 :: f2 :: f3 :: f4 :: chunk ++ garbage) with ([flags; f1; f2; f3; f4] ++ chunk ++ garbage).
        rewrite (checked_slice_app [flags; f1; f2; f3; f4] chunk garbage) by done. cbn [mbind option_bind].
        unfold checked_copy. cbn. destruct (Nat.leb_spec (length chunk) (length (ReassemblySlot.buf s))); [|lia]. cbn.
        eapply does_set; [done|exact Hi| | |by right].
        -- split; [|cbn; lia]. change (length (copy_at 0 chunk (ReassemblySlot.buf s)) = REASM_BUF). by rewrite copy_at_length.
        -- unfold entry. cbn -[copy_at take]. change (take 0 (ReassemblySlot.buf s)) with (@nil Z). rewrite app_nil_l, take_app_length. by destruct k.
      * cbn. eapply does_set; [done|exact Hi| | |by right].
        -- split; [done|cbn; lia].
        -- unfold entry. cbn. assert (chunk = []) as -> by (by apply nil_length_inv; lia). by destruct k.
    + rewrite Hfree, Nat.ltb_irrefl. by apply does_refuse.
Qed.

Lemma take_copy_at off (src buf : list Z) : (off + length src <= length buf)%nat ->
  take (off + length src) (copy_at off src buf) = take off buf ++ src.
Proof.
  intros Hfit. unfold copy_at. rewrite app_assoc. apply take_app_length'. rewrite length_app, length_take. lia.
Qed.

(** The end of a stream of the right length. *)
Lemma complete_refines i s s' k v data t : slots_ok (reassembly t) -> reassembly t !! i = Some s -> entry s = Some (k, v) ->
  (ReassemblySlot.len s' <= length (ReassemblySlot.buf s'))%nat -> take (ReassemblySlot.len s') (ReassemblySlot.buf s') = data ->
  ReassemblySlot.len s' = ReassemblySlot.expected s' ->
  does (receive_complete i s' (t <| reassembly ::= fun r => <[i := s']> r |>)) t
    (delete k (streams_of (reassembly t)), if can_crc data =? ReassemblySlot.crc16 s' then decoded data else Outcome.Refused).
Proof.
  intros Hok Hi He Hlen Hdata Hexp. unfold receive_complete.
  assert (checked_slice 0 (ReassemblySlot.len s') (ReassemblySlot.buf s') = Some data) as ->.
  { rewrite <- (take_drop (ReassemblySlot.len s') (ReassemblySlot.buf s')). rewrite Hdata. apply checked_slice_0.
    rewrite <- Hdata, length_take. lia. }
  cbn [mbind option_bind]. rewrite Hexp, Nat.eqb_refl. cbn [andb].
  destruct (streams_clear _ _ _ _ _ Hok Hi He) as [H1 H2].
  assert (forall r : list ReassemblySlot.t, <[i := ReassemblySlot.empty]> (<[i := s']> r) = <[i := ReassemblySlot.empty]> r) as Hii
    by (intros; apply list_insert_insert_eq).
  unfold does, decoded. destruct (can_crc data =? ReassemblySlot.crc16 s'); [destruct (from_bytes data)|];
    (eexists; split; [reflexivity|]; split; [cbn; by rewrite Hii|]; split; [cbn; by rewrite Hii|];
     split; [done|]; split; [done|]; split; [cbn; by rewrite !length_insert|done]).
Qed.

Lemma fragment_refines kind k body flags garbage t : kind = 2 \/ kind = 3 -> slots_ok (reassembly t) ->
  does (receive_fragment kind (fst k) (snd k) ((flags :: body) ++ garbage) (length (flags :: body)) t) t
    (spec_fragment (kind =? 3) k body (streams_of (reassembly t))).
Proof.
  intros Hkind Hok. unfold receive_fragment, spec_fragment.
  pose proof (find_slot (fst k) (snd k) t Hok) as Hf. rewrite <- surjective_pairing in Hf.
  destruct (find_reassembly_slot (fst k) (snd k) t) as [i|]; [|rewrite Hf; by apply does_refuse_event].
  destruct Hf as (s & v & Hi & He). rewrite (slot_entry_of _ _ _ _ _ Hok Hi He), Hi. cbn [mbind option_bind].
  assert (slot_ok s) as [Hbuf Hlen].
  { destruct Hok as [Hall _]. rewrite Forall_forall in Hall. by apply Hall, list_elem_of_lookup_2 with i. }
  assert (ReassemblySlot.tid s = Some (fst k) /\ ReassemblySlot.id s = snd k) as [Htid Hid].
  { unfold entry in He. destruct (ReassemblySlot.tid s); [|done]. injection He as <- _. done. }
  unfold entry in He. rewrite Htid in He. injection He as Hk Hv. rewrite Htid in Hlen. specialize (Hlen ltac:(done)).
  assert (entry s = Some (k, v)) as He by (unfold entry; rewrite Htid; cbn; by rewrite Hk, Hv).
  subst v. cbn [Stream.data Stream.total Stream.crc].
  rewrite length_app, length_take, Hbuf, Nat.min_l by lia.
  set (len := ReassemblySlot.len s) in *. set (total := ReassemblySlot.expected s) in *.
  destruct (Nat.eqb_spec (total - len) 0) as [Hr|Hr].
  { assert (len = total) as Hlt by lia. destruct (Nat.eqb_spec (length body) 0); [by eapply does_refuse_slot|].
    destruct (kind =? 3); [destruct (Nat.eqb_spec (len + length body) total)|destruct (Nat.ltb_spec (len + length body) total)];
      try lia; cbn [andb]; by eapply does_refuse_slot. }
  change ((flags :: body) ++ garbage) with ([flags] ++ body ++ garbage).
  rewrite (checked_slice_app [flags] body garbage) by done. cbn [mbind option_bind].
  destruct (Nat.eqb_spec (length body) 0); [by eapply does_refuse_slot|]. cbn [orb].
  destruct (Nat.ltb_spec (total - len) (length body)).
  { destruct (kind =? 3); [destruct (Nat.eqb_spec (len + length body) total)|destruct (Nat.ltb_spec (len + length body) total)];
      try lia; cbn [andb]; by eapply does_refuse_slot. }
  unfold checked_copy. rewrite Hbuf. destruct (Nat.leb_spec (len + length body) REASM_BUF); [|lia]. cbn [mbind option_bind].
  pose proof (take_copy_at len body (ReassemblySlot.buf s) ltac:(lia)) as Htake.
  destruct Hkind as [->| ->]; cbn [Z.eqb Pos.eqb andb].
  - destruct (Nat.eqb_spec (length body) (total - len)).
    { destruct (Nat.ltb_spec (len + length body) total); [lia|]. by eapply does_refuse_slot. }
    destruct (Nat.ltb_spec (len + length body) total); [|lia].
    eapply does_set; [done|exact Hi| | |left; by eexists].
    + split; [|cbn; fold len total; lia].
      change (length (copy_at len body (ReassemblySlot.buf s)) = REASM_BUF). rewrite copy_at_length; [done|lia].
    + unfold entry. cbn -[copy_at take]. rewrite Htid. cbn -[copy_at take]. fold len total. by rewrite Htake, Hk.
  - destruct (Nat.eqb_spec (length body) (total - len)).
    + destruct (Nat.eqb_spec (len + length body) total); [|lia]. cbn [negb andb].
      set (s' := (s <| ReassemblySlot.buf := copy_at len body (ReassemblySlot.buf s) |>) <| ReassemblySlot.len ::= fun n => (n + length body)%nat |>).
      eapply (complete_refines i s s' k _ (take len (ReassemblySlot.buf s) ++ body)); [done|done|exact He| | |].
      * change ((len + length body <= length (copy_at len body (ReassemblySlot.buf s)))%nat). rewrite copy_at_length; lia.
      * exact Htake.
      * change ((len + length body)%nat = total). done.
    + destruct (Nat.eqb_spec (len + length body) total); [lia|]. cbn [negb andb]. by eapply does_refuse_slot.
Qed.

(** A frame of [len] bytes in a buffer is received as the specification says. *)
Lemma frame_refines id frame garbage t : slots_ok (reassembly t) ->
  does (receive_frame id (frame ++ garbage) (length frame) t) t
    (spec_receive (length (reassembly t)) id frame (streams_of (reassembly t))).
Proof.
  intros Hok. unfold receive_frame, spec_receive. destruct frame as [|flags body]; [by apply does_refuse|].
  cbn [length Nat.eqb app lookup list_lookup mbind option_bind]. change (flags :: body ++ garbage) with ((flags :: body) ++ garbage).
  destruct (Z.eqb_spec (Z.shiftr flags 6) 0) as [_|_].
  { change ((flags :: body) ++ garbage) with ([flags] ++ body ++ garbage).
    rewrite (checked_slice_app [flags] body garbage) by done. cbn [mbind option_bind]. unfold does, decoded.
    destruct (from_bytes body); by eexists. }
  destruct (Z.eqb_spec (Z.shiftr flags 6) 1) as [_|_]; [exact (start_refines (key_of id flags) body flags garbage t Hok)|].
  destruct (_ || _) eqn:E; [|by apply does_refuse].
  apply orb_true_iff in E. rewrite !Z.eqb_eq in E. exact (fragment_refines _ (key_of id flags) body flags garbage t E Hok).
Qed.
End step.

(** ** Runs of the receiver *)
Section runs.
Context {D : Type} `{!CanDevice D, !Postcard, !FrameSize}.
Implicit Types t : CanTransport.t D.

(** A frame in the buffer of the device. *)
Definition padded (frame : list Z) : list Z := frame ++ replicate (MAX_CAN_DATA - length frame) 0.

Fixpoint receive_all (frames : list (Z * list Z)) t : option (CanTransport.t D * list (option Message.t)) :=
  match frames with
  | [] => Some (t, [])
  | (id, frame) :: frames =>
    '(t, out) ← receive_frame id (padded frame) (length frame) t;
    '(t, outs) ← receive_all frames t;
    Some (t, out :: outs)
  end.

Fixpoint spec_all (slots : nat) (frames : list (Z * list Z)) (m : Streams) : Streams * list Outcome.t :=
  match frames with
  | [] => (m, [])
  | (id, frame) :: frames =>
    let '(m, o) := spec_receive slots id frame m in
    let '(m, os) := spec_all slots frames m in
    (m, o :: os)
  end.

Lemma receive_all_refines frames t : slots_ok (reassembly t) ->
  let '(m, os) := spec_all (length (reassembly t)) frames (streams_of (reassembly t)) in
  exists t', receive_all frames t = Some (t', Outcome.message <$> os) /\ slots_ok (reassembly t')
    /\ streams_of (reassembly t') = m /\ length (reassembly t') = length (reassembly t).
Proof.
  revert t. induction frames as [|[id frame] frames IH]; intros t Hok; [by exists t|]. cbn [spec_all receive_all].
  pose proof (frame_refines id frame (replicate (MAX_CAN_DATA - length frame) 0) t Hok) as (t1 & E & Hok1 & Hm & _ & _ & Hl & _).
  destruct (spec_receive _ id frame _) as [m o]. cbn [fst snd] in *. unfold padded. rewrite E. cbn [mbind option_bind].
  specialize (IH t1 Hok1). rewrite Hl, Hm in IH. destruct (spec_all _ frames m) as [m' os].
  destruct IH as (t2 & E2 & Hok2 & Hm2 & Hl2). rewrite E2. cbn. exists t2. split; [done|]. split; [done|]. split; [done|congruence].
Qed.

Lemma spec_all_app slots xs ys m :
  spec_all slots (xs ++ ys) m
  = (fst (spec_all slots ys (fst (spec_all slots xs m))), snd (spec_all slots xs m) ++ snd (spec_all slots ys (fst (spec_all slots xs m)))).
Proof.
  revert m. induction xs as [|[id frame] xs IH]; intros m; [apply surjective_pairing|]. cbn [app spec_all].
  destruct (spec_receive slots id frame m) as [m1 o]. rewrite IH. by destruct (spec_all slots xs m1).
Qed.

Lemma spec_all_length slots xs m : length (snd (spec_all slots xs m)) = length xs.
Proof.
  revert m. induction xs as [|[id frame] xs IH]; intros m; [done|]. cbn [spec_all].
  destruct (spec_receive slots id frame m) as [m1 o]. specialize (IH m1). destruct (spec_all slots xs m1). cbn in *. by rewrite IH.
Qed.

(** ** Streams do not disturb one another *)

(** A fragment of the stream [k]; a message in one frame is none. *)
Definition of_stream (k : Key) (f : Z * list Z) : bool :=
  match snd f with
  | [] => false
  | flags :: _ => negb (Z.shiftr flags 6 =? 0) && bool_decide (key_of (fst f) flags = k)
  end.

Lemma spec_other slots id frame k m : of_stream k (id, frame) = false -> fst (spec_receive slots id frame m) !! k = m !! k.
Proof.
  unfold of_stream, spec_receive. cbn [fst snd]. destruct frame as [|flags body]; [done|].
  destruct (Z.shiftr flags 6 =? 0); [done|]. cbn [negb andb]. intros Hk%bool_decide_eq_false.
  destruct (Z.shiftr flags 6 =? 1).
  - unfold spec_start. destruct body as [|f1 [|f2 [|f3 [|f4 chunk]]]]; try done. destruct (_ || _); [done|].
    destruct (m !! key_of id flags); [by cbn; apply lookup_delete_ne|]. destruct (_ <? _)%nat; [by cbn; apply lookup_insert_ne|done].
  - destruct (_ || _); [|done]. unfold spec_fragment. destruct (m !! key_of id flags); [|done].
    destruct (_ =? _)%nat; [by cbn; apply lookup_delete_ne|]. destruct (_ =? 3); [by cbn; apply lookup_delete_ne|].
    destruct (_ <? _)%nat; [by cbn; apply lookup_insert_ne|by cbn; apply lookup_delete_ne].
Qed.

(** The frames of a stream, as a sender forms them: [kind] and transaction in the first byte. *)
Definition tagged (kind tid : Z) (body : list Z) : list Z := Z.lor (Z.shiftl kind 6) tid :: body.

Lemma tag_fields kind tid : 0 <= kind < 4 -> 0 <= tid < 64 ->
  Z.shiftr (Z.lor (Z.shiftl kind 6) tid) 6 = kind /\ Z.land (Z.lor (Z.shiftl kind 6) tid) 0x3f = tid.
Proof.
  intros Hk Ht. pose (p := fun x => (Z.shiftr (Z.lor (Z.shiftl (x / 64) 6) (x mod 64)) 6 =? x / 64)
    && (Z.land (Z.lor (Z.shiftl (x / 64) 6) (x mod 64)) 0x3f =? x mod 64)).
  assert (p (kind * 64 + tid) = true) as Hp by (apply (all_below p 256); [by vm_compute|lia]).
  unfold p in Hp. rewrite andb_true_iff, !Z.eqb_eq, Z.div_add_l, Z.div_small, Z.add_0_r, (Z.add_comm (kind * 64)),
    Z.mod_add, Z.mod_small in Hp by lia. exact Hp.
Qed.

Lemma of_stream_tagged kind tid id body : 0 < kind < 4 -> 0 <= tid < 64 -> of_stream (tid, id) (id, tagged kind tid body) = true.
Proof.
  intros Hk Ht. destruct (tag_fields kind tid) as [H1 H2]; [lia..|]. unfold of_stream, tagged, key_of. cbn [fst snd].
  rewrite H1, H2. destruct (Z.eqb_spec kind 0); [lia|]. by rewrite bool_decide_true.
Qed.

(** Between its start and its end a stream collects its fragments, whatever else arrives. *)
Lemma spec_middle slots tid id total crc mid chunks got m :
  0 <= tid < 64 -> m !! (tid, id) = Some (Stream.mk total crc got) ->
  filter (fun f => of_stream (tid, id) f = true) mid = (fun c => (id, tagged 2 tid c)) <$> chunks ->
  Forall (fun c => c <> []) chunks -> (length (got ++ concat chunks) < total)%nat ->
  fst (spec_all slots mid m) !! (tid, id) = Some (Stream.mk total crc (got ++ concat chunks)).
Proof.
  intros Ht. revert chunks got m. induction mid as [|[id' frame] mid IH]; intros chunks got m Hm Hf Hc Hl.
  { destruct chunks; [|done]. by rewrite app_nil_r. }
  cbn [spec_all]. rewrite filter_cons in Hf. destruct (decide _) as [Hof|Hof] in Hf.
  - destruct chunks as [|c chunks]; [done|]. injection Hf as -> -> Hf. apply Forall_cons in Hc as [Hc0 Hc].
    assert (spec_receive slots id (tagged 2 tid c) m = (<[(tid, id) := Stream.mk total crc (got ++ c)]> m, Outcome.Pending)) as ->.
    { unfold spec_receive, tagged. destruct (tag_fields 2 tid) as [H1 H2]; [lia..|]. unfold key_of. rewrite H1, H2. cbn [Z.eqb Pos.eqb orb].
      unfold spec_fragment. rewrite Hm. cbn [Stream.data Stream.total Stream.crc].
      destruct (Nat.eqb_spec (length c) 0) as [E|_]; [by apply nil_length_inv in E|].
      cbn [concat] in Hl. rewrite !length_app in Hl. rewrite length_app.
      destruct (Nat.ltb_spec (length got + length c) total); [done|lia]. }
    specialize (IH chunks (got ++ c) (<[(tid, id) := Stream.mk total crc (got ++ c)]> m)).
    cbn [concat] in *. rewrite <- app_assoc in IH. destruct (spec_all _ mid _) as [m' os] eqn:E. cbn [fst] in *.
    apply IH; [apply lookup_insert_eq|done|done|done].
  - specialize (IH chunks got (fst (spec_receive slots id' frame m))). rewrite spec_other in IH by (by destruct (of_stream _ _)).
    destruct (spec_receive slots id' frame m) as [m1 o]. cbn [fst] in IH. destruct (spec_all slots mid m1) as [m' os]. cbn [fst] in *.
    by apply IH.
Qed.
End runs.

(** ** The sender *)

(** A bus that takes every frame and hands them out again in order. *)
Definition Bus : Type := list (Z * list Z).
#[global] Instance bus_device : CanDevice Bus := {
  tx_ready _ := true;
  dev_send id data d := (d ++ [(id, data)], Ok tt);
  dev_receive buf d :=
    match d with
    | [] => (d, buf, None)
    | (id, data) :: d => let data := take (length buf) data in (d, copy_at 0 data buf, Some (id, length data))
    end;
  dev_health _ := CanBusHealth.healthy;
}.

#[global] Instance bus_device_laws : CanDeviceLaws Bus.
Proof.
  constructor. intros buf [|[id data] d] d' buf' id' len; cbn -[copy_at]; [done|]. intros [= <- <- <- <-].
  rewrite length_take. split; [|lia]. apply copy_at_length. rewrite length_take. lia.
Qed.

Section sender.
Context `{!Postcard, !FrameSize, !FrameSizeLaws}.
Implicit Types t : CanTransport.t Bus.

Definition put (frames : list (Z * list Z)) t : CanTransport.t Bus := t <| dev ::= fun d => d ++ frames |>.

Lemma put_put xs ys t : put ys (put xs t) = put (xs ++ ys) t.
Proof.
  destruct t as [d s r q x l]. change (CanTransport.mk ((d ++ xs) ++ ys : Bus) s r q x l = CanTransport.mk (d ++ xs ++ ys : Bus) s r q x l).
  by rewrite <- (app_assoc d).
Qed.

Lemma send_frame_bus id data t : send_frame id data t = (put [(id, data)] t, Ok tt).
Proof. done. Qed.

Lemma frame_size_min : (8 <= MAX_CAN_DATA)%nat.
Proof. destruct frame_size; lia. Qed.

(** A frame assembled in a zeroed buffer: its head and then a chunk. *)
Lemma assembled (head chunk : list Z) n : (length head + length chunk <= n)%nat ->
  checked_copy (length head) chunk (head ++ replicate (n - length head) 0)
    = Some (head ++ chunk ++ replicate (n - length head - length chunk) 0)
  /\ checked_slice 0 (length head + length chunk) (head ++ chunk ++ replicate (n - length head - length chunk) 0)
    = Some (head ++ chunk).
Proof.
  intros Hfit. split.
  - unfold checked_copy, copy_at. rewrite length_app, length_replicate, take_app_length.
    destruct (Nat.leb_spec (length head + length chunk) (length head + (n - length head))); [|lia].
    rewrite drop_app_ge by lia. replace (length head + length chunk - length head)%nat with (length chunk) by lia.
    by rewrite drop_replicate.
  - rewrite (app_assoc head chunk). apply checked_slice_0. by rewrite length_app.
Qed.

Lemma chunk_of (encoded : list Z) sent n : (sent + n <= length encoded)%nat ->
  checked_slice sent (sent + n) encoded = Some (take n (drop sent encoded)).
Proof.
  intros Hfit. rewrite <- (take_drop sent encoded) at 1. rewrite <- (take_drop n (drop sent encoded)) at 1.
  apply checked_slice_app; rewrite length_take; [lia|rewrite length_drop; lia].
Qed.

Lemma send_rest_bus fuel id tid encoded sent t : (sent < length encoded)%nat -> (length encoded - sent <= fuel)%nat ->
  exists chunks last, send_rest fuel id tid encoded sent t
      = Some (put (((fun c => (id, tagged 2 tid c)) <$> chunks) ++ [(id, tagged 3 tid last)]) t, Ok tt)
    /\ concat chunks ++ last = drop sent encoded /\ Forall (fun c => c <> []) chunks /\ last <> [].
Proof.
  pose proof frame_size_min as Hmax. revert sent t. induction fuel as [|fuel IH]; intros sent t Hs Hfuel; [lia|].
  cbn [send_rest]. destruct (Nat.ltb_spec sent (length encoded)); [|lia].
  set (n := Nat.min (length encoded - sent) (MAX_CAN_DATA - 1)). rewrite (chunk_of encoded sent n) by lia. cbn [mbind option_bind].
  set (chunk := take n (drop sent encoded)).
  assert (length chunk = n) as Hn by (unfold chunk; rewrite length_take, length_drop; lia).
  set (tag := Z.lor (Z.shiftl (if (length encoded - sent <=? MAX_CAN_DATA - 1)%nat then 3 else 2) 6) tid).
  assert (<[0%nat := tag]> (replicate MAX_CAN_DATA 0) = [tag] ++ replicate (MAX_CAN_DATA - 1) 0) as ->.
  { destruct MAX_CAN_DATA; [lia|]. cbn. by rewrite Nat.sub_0_r. }
  destruct (assembled [tag] chunk MAX_CAN_DATA) as [E1 E2]; [cbn; lia|]. cbn [length] in E1, E2. rewrite E1. cbn [mbind option_bind].
  replace (1 + n)%nat with (1 + length chunk)%nat by lia. rewrite E2. cbn [mbind option_bind]. rewrite send_frame_bus. cbv beta iota.
  unfold tag. destruct (Nat.leb_spec (length encoded - sent) (MAX_CAN_DATA - 1)) as [Hend|Hmore].
  - exists [], chunk. assert (n = (length encoded - sent)%nat) as Hnn by lia.
    assert (send_rest fuel id tid encoded (sent + n) (put [(id, [Z.lor (Z.shiftl 3 6) tid] ++ chunk)] t)
      = Some (put [(id, [Z.lor (Z.shiftl 3 6) tid] ++ chunk)] t, Ok tt)) as ->.
    { destruct fuel; cbn [send_rest]; (destruct (Nat.ltb_spec (sent + n) (length encoded)); [lia|done]). }
    split; [done|]. split; [|split; [constructor|intros E; rewrite E in Hn; cbn in Hn; lia]].
    cbn. unfold chunk. rewrite Hnn. apply take_ge. rewrite length_drop. lia.
  - destruct (IH (sent + n)%nat (put [(id, [Z.lor (Z.shiftl 2 6) tid] ++ chunk)] t)) as (chunks & last & E & Hc & Hne & Hl); [lia..|].
    rewrite E. exists (chunk :: chunks), last. rewrite put_put. split; [done|]. split; [|split; [|done]].
    + cbn [concat]. rewrite <- (app_assoc chunk), Hc. unfold chunk. rewrite <- drop_drop. apply take_drop.
    + constructor; [|done]. intros E'. rewrite E' in Hn. cbn in Hn. lia.
Qed.

(** The header of a start frame: the length and the checksum, low byte first. *)
Definition header (encoded : list Z) : list Z :=
  let len := Z.of_nat (length encoded) in
  let crc := can_crc encoded in
  [as_unsigned 8 (Z.land len 0xff); as_unsigned 8 (Z.land (Z.shiftr len 8) 0xff);
   as_unsigned 8 (Z.land crc 0xff); as_unsigned 8 (Z.shiftr crc 8)].

Definition route_id (message : Message.t) : Z := CanMessageRoute.arbitration_id (route_for message).

Lemma five_bytes (a b c d e : Z) n : (5 <= n)%nat ->
  <[4%nat := e]> (<[3%nat := d]> (<[2%nat := c]> (<[1%nat := b]> (<[0%nat := a]> (replicate n 0)))))
  = [a; b; c; d; e] ++ replicate (n - 5) 0.
Proof. intros Hn. do 5 (destruct n as [|n]; [lia|]). cbn. by rewrite Nat.sub_0_r. Qed.

Lemma send_single message encoded t : to_slice REASM_BUF message = Ok encoded -> (length encoded <= MAX_CAN_DATA - 1)%nat ->
  send message t = Some (count_tx (put [(route_id message, Z.land (tx_tid t) 0x3f :: encoded)] (snd (next_tid t))), Ok tt).
Proof.
  intros Hs Hl. pose proof frame_size_min. unfold send. rewrite Hs. fold (route_id message).
  destruct (Nat.leb_spec (length encoded) (MAX_CAN_DATA - 1)); [|lia]. cbv beta iota delta [next_tid snd].
  set (tid := Z.land (tx_tid t) 0x3f).
  assert (<[0%nat := tid]> (replicate MAX_CAN_DATA 0) = [tid] ++ replicate (MAX_CAN_DATA - 1) 0) as ->.
  { destruct MAX_CAN_DATA; [lia|]. cbn. by rewrite Nat.sub_0_r. }
  destruct (assembled [tid] encoded MAX_CAN_DATA) as [E1 E2]; [cbn; lia|]. cbn [length] in E1, E2.
  rewrite E1. cbn [mbind option_bind]. rewrite E2. cbn [mbind option_bind]. by rewrite send_frame_bus.
Qed.

(** The frames of a message too long for one: its header and first chunk, the chunks that
    follow, the last. *)
Lemma send_fragmented message encoded t : to_slice REASM_BUF message = Ok encoded -> (length encoded <= REASM_BUF)%nat ->
  (MAX_CAN_DATA - 1 < length encoded)%nat ->
  exists chunk0 chunks last, send message t
      = Some (count_tx (put ((route_id message, tagged 1 (Z.land (tx_tid t) 0x3f) (header encoded ++ chunk0))
          :: ((fun c => (route_id message, tagged 2 (Z.land (tx_tid t) 0x3f) c)) <$> chunks)
          ++ [(route_id message, tagged 3 (Z.land (tx_tid t) 0x3f) last)]) (snd (next_tid t))), Ok tt)
    /\ chunk0 ++ concat chunks ++ last = encoded /\ Forall (fun c => c <> []) chunks /\ last <> [].
Proof.
  intros Hs Hfit Hl. pose proof frame_size_min. unfold send. rewrite Hs. fold (route_id message).
  destruct (Nat.leb_spec (length encoded) (MAX_CAN_DATA - 1)); [lia|].
  destruct (Nat.ltb_spec REASM_BUF (length encoded)); [lia|]. cbv beta iota zeta delta [next_tid snd].
  set (tid := Z.land (tx_tid t) 0x3f). rewrite five_bytes by lia. set (c0 := Nat.min (MAX_CAN_DATA - 5) (length encoded)).
  pose proof (chunk_of encoded 0 c0) as Hc. change (0 + c0)%nat with c0 in Hc. rewrite Hc by lia. cbn [mbind option_bind]. rewrite drop_0.
  set (chunk := take c0 encoded). assert (length chunk = c0) as Hn by (unfold chunk; rewrite length_take; lia).
  destruct (assembled (Z.lor (Z.shiftl 1 6) tid :: header encoded) chunk MAX_CAN_DATA) as [E1 E2]; [cbn [length header]; lia|].
  cbn [length header] in E1, E2. change (Z.lor (Z.shiftl 1 6) tid :: header encoded) with ([Z.lor (Z.shiftl 1 6) tid] ++ header encoded) in E1, E2.
  unfold header in E1, E2. cbn [app] in E1, E2 |- *. rewrite E1. cbn [mbind option_bind]. replace (5 + c0)%nat with (5 + length chunk)%nat by lia.
  rewrite E2. cbn [mbind option_bind]. rewrite send_frame_bus. cbv beta iota.
  destruct (send_rest_bus (length encoded) (route_id message) tid encoded c0
    (put [(route_id message, tagged 1 tid (header encoded ++ chunk))] (snd (next_tid t)))) as (chunks & last & E & Hcat & Hne & Hlast); [lia..|].
  exists chunk, chunks, last. split; [|split; [|done]].
  - unfold tagged, header in E |- *. cbn [app] in E |- *. unfold next_tid in E. cbn [snd] in E. rewrite E. cbn [mbind option_bind].
    by rewrite put_put.
  - rewrite Hcat. apply take_drop.
Qed.
End sender.

(** ** Delivery *)
Section delivery.
Context `{!Postcard, !PostcardLaws, !FrameSize, !FrameSizeLaws}.

Lemma header_read encoded : bytes encoded -> (length encoded <= REASM_BUF)%nat ->
  match header encoded with
  | [f1; f2; f3; f4] =>
    Z.to_nat (Z.lor f1 (Z.shiftl f2 8)) = length encoded /\ Z.lor f3 (Z.shiftl f4 8) = can_crc encoded
  | _ => False
  end.
Proof.
  intros Hb Hl. unfold header. assert (u16 (can_crc encoded)) as Hcrc by (by apply crc_fits).
  assert (forall v, u16 v -> Z.lor (as_unsigned 8 (Z.land v 0xff)) (Z.shiftl (as_unsigned 8 (Z.shiftr v 8)) 8) = v) as Hjoin.
  { intros v Hv. unfold as_unsigned. change 0xff with (Z.ones 8). rewrite Z.land_ones, Z.shiftr_div_pow2, Z.mod_mod by lia.
    rewrite Z.lor_comm, join_bytes by (apply Z.mod_pos_bound; lia). unfold fits in Hv.
    rewrite (Z.mod_small (v / 2 ^ 8)) by (split; [apply Z.div_pos; lia|apply Z.div_lt_upper_bound; lia]).
    pose proof (Z.div_mod v (2 ^ 8)). lia. }
  split; [|by apply Hjoin].
  set (v := Z.of_nat (length encoded)). assert (0 <= v <= 1024) as Hv by (unfold v, REASM_BUF, MAX_ENCODED_MESSAGE_SIZE in *; lia).
  assert (Z.land (Z.shiftr v 8) 0xff = Z.shiftr v 8) as ->.
  { change 0xff with (Z.ones 8). rewrite Z.land_ones by lia. apply Z.mod_small. rewrite Z.shiftr_div_pow2 by lia.
    split; [apply Z.div_pos; lia|apply Z.div_lt_upper_bound; lia]. }
  rewrite Hjoin by (unfold fits; lia). unfold v. lia.
Qed.

(** The start, the middle and the end of a message that has been sent, at the receiver. *)
Lemma spec_delivers slots tid id msg encoded chunk0 chunks last mid m :
  0 <= tid < 64 -> bytes encoded -> from_bytes encoded = Ok msg -> (length encoded <= REASM_BUF)%nat ->
  chunk0 ++ concat chunks ++ last = encoded -> Forall (fun c => c <> []) chunks -> last <> [] ->
  filter (fun f => of_stream (tid, id) f = true) mid = (fun c => (id, tagged 2 tid c)) <$> chunks ->
  m !! (tid, id) = None -> (size m < slots)%nat ->
  exists m' os, spec_all slots ((id, tagged 1 tid (header encoded ++ chunk0)) :: mid ++ [(id, tagged 3 tid last)]) m
      = (m', Outcome.Pending :: os ++ [Outcome.Delivered msg]) /\ m' !! (tid, id) = None /\ length os = length mid.
Proof.
  intros Ht Hb Hmsg Hfit Hcat Hne Hlast Hmid Hk Hfree.
  assert (length last <> 0)%nat as Hl0 by (intros E; by apply nil_length_inv in E).
  assert (length encoded = length chunk0 + length (concat chunks) + length last)%nat as Hlen by (rewrite <- Hcat, !length_app; lia).
  pose proof (header_read encoded Hb Hfit) as Hh. unfold header in *. destruct Hh as [Htotal Hcrc].
  cbn [spec_all app]. unfold spec_receive at 1, tagged at 1. destruct (tag_fields 1 tid) as [Htag1 Htag2]; [lia..|].
  unfold key_of. rewrite Htag1, Htag2. cbn [Z.eqb Pos.eqb spec_start]. rewrite Htotal, Hcrc, Hk.
  destruct (Nat.eqb_spec (length encoded) 0); [lia|]. destruct (Nat.ltb_spec REASM_BUF (length encoded)); [lia|].
  destruct (Nat.ltb_spec (length encoded) (length chunk0)); [lia|]. cbn [orb]. destruct (Nat.ltb_spec (size m) slots); [|lia].
  set (m1 := <[(tid, id) := Stream.mk (length encoded) (can_crc encoded) chunk0]> m).
  rewrite spec_all_app. pose proof (spec_middle slots tid id (length encoded) (can_crc encoded) mid chunks chunk0 m1) as Hm.
  specialize (Hm Ht ltac:(apply lookup_insert_eq) Hmid Hne ltac:(rewrite length_app; lia)).
  pose proof (spec_all_length slots mid m1) as Hos.
  destruct (spec_all slots mid m1) as [m2 os]. cbn [fst snd] in *.
  cbn [spec_all]. unfold spec_receive, tagged. destruct (tag_fields 3 tid) as [Htag3 Htag4]; [lia..|].
  unfold key_of. rewrite Htag3, Htag4. cbn [Z.eqb Pos.eqb orb]. unfold spec_fragment. rewrite Hm. cbn [Stream.data Stream.total Stream.crc].
  destruct (Nat.eqb_spec (length last) 0); [lia|]. rewrite <- app_assoc, Hcat, Nat.eqb_refl, Z.eqb_refl. cbn [andb fst snd].
  unfold decoded. rewrite Hmsg. eexists _, os. split; [reflexivity|]. split; [apply lookup_delete_eq|done].
Qed.
End delivery.

(** The frames [sent] of the stream [k], among frames of other streams. *)
Inductive carries (k : Key) : list (Z * list Z) -> list (Z * list Z) -> Prop :=
| carries_one frame : carries k [frame] [frame]
| carries_many start inner fin mid :
    filter (fun f => of_stream k f = true) mid = inner -> carries k (start :: inner ++ [fin]) (start :: mid ++ [fin]).

(** What opens and continues no stream in [m]. *)
Definition foreign (m : Streams) (f : Z * list Z) : Prop := forall k, is_Some (m !! k) -> of_stream k f = false.

(** A message in one frame. *)
Definition unfragmented (f : Z * list Z) : bool := match snd f with [] => false | flags :: _ => Z.shiftr flags 6 =? 0 end.

Lemma spec_full `{!Postcard} slots id frame m : size m = slots -> foreign m (id, frame) ->
  fst (spec_receive slots id frame m) = m
  /\ (unfragmented (id, frame) = false -> snd (spec_receive slots id frame m) = Outcome.Refused).
Proof.
  intros Hfull Hf. unfold spec_receive, unfragmented. cbn [fst snd]. destruct frame as [|flags body]; [done|].
  destruct (Z.shiftr flags 6 =? 0) eqn:E0; [done|].
  assert (m !! key_of id flags = None) as Hk.
  { destruct (m !! key_of id flags) as [v|] eqn:E; [|done]. specialize (Hf (key_of id flags) ltac:(by eexists)).
    unfold of_stream in Hf. cbn [fst snd] in Hf. rewrite E0, bool_decide_true in Hf by done. done. }
  destruct (Z.shiftr flags 6 =? 1).
  - unfold spec_start. destruct body as [|f1 [|f2 [|f3 [|f4 chunk]]]]; try done. destruct (_ || _); [done|].
    rewrite Hk. destruct (Nat.ltb_spec (size m) slots); [lia|done].
  - destruct (_ || _); [|done]. unfold spec_fragment. by rewrite Hk.
Qed.

Lemma spec_all_full `{!Postcard} slots frames m : size m = slots -> Forall (foreign m) frames ->
  fst (spec_all slots frames m) = m
  /\ Forall2 (fun f o => unfragmented f = false -> o = Outcome.Refused) frames (snd (spec_all slots frames m)).
Proof.
  intros Hfull Hf. induction Hf as [|[id frame] frames Hf _ IH]; [split; [done|constructor]|]. cbn [spec_all].
  destruct (spec_full slots id frame m Hfull Hf) as [E1 E2]. destruct (spec_receive slots id frame m) as [m1 o].
  cbn [fst snd] in *. subst m1. destruct IH as [E3 E4]. destruct (spec_all slots frames m) as [m2 os]. cbn [fst snd] in *.
  split; [done|by constructor].
Qed.

(** ** Theorems *)
Lemma new_ok {D} (d : D) : slots_ok (reassembly (new d)) /\ streams_of (reassembly (new d)) = ∅.
Proof. split; [|done]. split; [repeat constructor; apply empty_ok|constructor]. Qed.

(** C21: Receiving refines a finite map from streams to what has arrived of them.  Whatever
    frame the device hands over, of any length and content, a step of the receiver does not
    panic; it returns the message the specification delivers, its slots stay distinct and
    within their buffers and hold the map the specification computes, and the counters and
    the last error tell which of the three outcomes it was. *)
Theorem try_receive_refines {D} `{!CanDevice D, !CanDeviceLaws D, !Postcard, !FrameSize} (t : CanTransport.t D) :
  slots_ok (reassembly t) ->
  match dev_receive (replicate MAX_CAN_DATA 0) (dev t) with
  | (d, _, None) => try_receive t = Some (t <| dev := d |>, None)
  | (d, buffer, Some (id, len)) =>
    does (try_receive t) (t <| dev := d |>)
      (spec_receive (length (reassembly t)) id (take len buffer) (streams_of (reassembly t)))
  end.
Proof.
  intros Hok. unfold try_receive. destruct (dev_receive _ _) as [[d buffer] [[id len]|]] eqn:E; [|done].
  destruct (receive_fits _ _ _ _ _ _ E) as [Hbuf Hlen].
  set (t' := t <| dev := d |>). pose proof (frame_refines id (take len buffer) (drop len buffer) t' Hok) as Hr.
  rewrite take_drop, length_take, Nat.min_l in Hr by lia. exact Hr.
Qed.

(** C22: A message that was sent arrives: the receiver of any device, handed the frames of the
    sender in order with any frames of other streams between them, delivers exactly that
    message at its last frame, provided a slot was free and the stream was not open when
    its first frame came. *)
Theorem interleaved_message_delivered {D} `{!CanDevice D, !Postcard, !PostcardLaws, !FrameSize, !FrameSizeLaws}
    msg (s s' : CanTransport.t Bus) sent frames (r : CanTransport.t D) :
  send msg s = Some (s', Ok tt) -> dev s' = dev s ++ sent ->
  carries (Z.land (tx_tid s) 0x3f, route_id msg) sent frames ->
  slots_ok (reassembly r) -> streams_of (reassembly r) !! (Z.land (tx_tid s) 0x3f, route_id msg) = None ->
  (size (streams_of (reassembly r)) < length (reassembly r))%nat ->
  exists r' outs, receive_all frames r = Some (r', outs ++ [Some msg]) /\ length frames = S (length outs)
    /\ slots_ok (reassembly r') /\ streams_of (reassembly r') !! (Z.land (tx_tid s) 0x3f, route_id msg) = None.
Proof.
  intros Hsend Hdev Hcarry Hok Hk Hfree. pose proof (receive_all_refines frames r Hok) as Href.
  set (tid := Z.land (tx_tid s) 0x3f) in *.
  assert (0 <= tid < 64) as Htid by (unfold tid; change 0x3f with (Z.ones 6); rewrite Z.land_ones by lia; apply Z.mod_pos_bound; lia).
  destruct (to_slice REASM_BUF msg) as [encoded|] eqn:Henc; [|unfold send in Hsend; by rewrite Henc in Hsend].
  pose proof (from_to _ _ _ Henc) as Hmsg. pose proof (to_slice_fits _ _ _ Henc) as Hfit. pose proof (to_slice_bytes _ _ _ Henc) as Hb.
  assert (exists m' os, spec_all (length (reassembly r)) frames (streams_of (reassembly r)) = (m', os ++ [Outcome.Delivered msg])
    /\ m' !! (tid, route_id msg) = None /\ length frames = S (length os)) as (m' & os & E & Hm' & Hos).
  { destruct (le_lt_dec (length encoded) (MAX_CAN_DATA - 1)) as [Hl|Hl].
    - rewrite (send_single _ _ _ Henc Hl) in Hsend. injection Hsend as <-. apply app_inv_head in Hdev. subst sent.
      inversion Hcarry as [frame|start inner fin mid Hin Hlist]; [|by destruct inner]. subst. exists (streams_of (reassembly r)), [].
      split; [|done]. cbn [spec_all]. unfold spec_receive. destruct (tag_fields 0 tid) as [Htag _]; [lia..|].
      rewrite Z.shiftl_0_l, Z.lor_0_l in Htag. fold tid. rewrite Htag. cbn [Z.eqb]. unfold decoded. by rewrite Hmsg.
    - destruct (send_fragmented _ _ s Henc Hfit Hl) as (chunk0 & chunks & last & Hs & Hcat & Hne & Hlast).
      rewrite Hs in Hsend. injection Hsend as <-. apply app_inv_head in Hdev. fold tid in Hdev.
      inversion Hcarry as [frame Hone|start inner fin mid Hin Hlist]; subst sent; [by destruct chunks|].
      injection Hlist as -> Hlist. apply app_inj_tail in Hlist as [Hlist ->]. subst frames.
      destruct (spec_delivers (length (reassembly r)) tid (route_id msg) msg encoded chunk0 chunks last mid
        (streams_of (reassembly r)) Htid Hb Hmsg Hfit Hcat Hne Hlast ltac:(congruence) Hk Hfree) as (m' & os & E & Hm' & Hos).
      exists m', (Outcome.Pending :: os). split; [exact E|]. split; [done|]. cbn. rewrite length_app. cbn. lia. }
  rewrite E in Href. destruct Href as (r' & Er & Hok' & Hm & _). exists r', (Outcome.message <$> os).
  rewrite fmap_app in Er. split; [exact Er|]. split; [by rewrite length_fmap|]. split; [done|by rewrite Hm].
Qed.

(** C23: Streams that are never finished block the receiver: once as many are open as there
    are slots, then for as long as no frame of those very streams arrives, every fragmented
    message of any other sender is refused, since nothing ages a slot. *)
Theorem abandoned_streams_block {D} `{!CanDevice D, !Postcard, !FrameSize} (frames : list (Z * list Z)) (r : CanTransport.t D) :
  slots_ok (reassembly r) -> size (streams_of (reassembly r)) = length (reassembly r) ->
  Forall (foreign (streams_of (reassembly r))) frames ->
  exists r' outs, receive_all frames r = Some (r', outs)
    /\ streams_of (reassembly r') = streams_of (reassembly r) /\ length (reassembly r') = length (reassembly r)
    /\ Forall2 (fun f out => unfragmented f = false -> out = None) frames outs.
Proof.
  intros Hok Hfull Hf. pose proof (receive_all_refines frames r Hok) as Href.
  destruct (spec_all_full _ frames _ Hfull Hf) as [E1 E2]. destruct (spec_all _ frames _) as [m os]. cbn [fst snd] in *. subst m.
  destruct Href as (r' & Er & _ & Hm & Hl). exists r', (Outcome.message <$> os). split; [done|]. split; [done|]. split; [done|].
  apply Forall2_fmap_r. apply (Forall2_impl _ _ _ _ E2). intros f o Ho Hu. by rewrite (Ho Hu).
Qed.

(** ** Witnesses *)

(** A serializer of heartbeats and engine commands, for the witnesses. *)
#[local] Instance sample_postcard : Postcard := {
  to_slice n m :=
    match m with
    | Message.Heartbeat a b c d e =>
      let data := [17; a; b; 0; 0; 0; c; d; 0; e] in
      if (10 <=? n)%nat && forallb (fun x => (0 <=? x) && (x <? 256)) data then Ok data else Err tt
    | Message.CmdEngineControl a => if (2 <=? n)%nat && (0 <=? a) && (a <? 256) then Ok [20; a] else Err tt
    | _ => Err tt
    end;
  from_bytes data :=
    match data with
    | [17; a; b; 0; 0; 0; c; d; 0; e] => Ok (Message.Heartbeat a b c d e)
    | [20; a] => Ok (Message.CmdEngineControl a)
    | _ => Err tt
    end;
}.

#[local] Instance sample_postcard_laws : PostcardLaws.
Proof.
  constructor; intros n m data; destruct m; cbn -[forallb Nat.leb]; try done;
    destruct (_ && _) eqn:E; try done; intros [= <-].
  - done.
  - done.
  - apply andb_true_iff in E as [E%Nat.leb_le _]. exact E.
  - apply andb_true_iff in E as [[E%Nat.leb_le _]%andb_true_iff _]. exact E.
  - apply andb_true_iff in E as [_ E]. rewrite forallb_forall in E. apply Forall_forall. intros x Hx%list_elem_of_In.
    specialize (E x Hx). rewrite andb_true_iff, Z.leb_le, Z.ltb_lt in E. exact E.
  - rewrite !andb_true_iff, Z.leb_le, Z.ltb_lt in E. repeat constructor; lia.
Qed.

#[local] Instance sample_size : FrameSize := 8%nat.
#[local] Instance sample_size_laws : FrameSizeLaws := or_introl eq_refl.

Definition sample_transport (frames : Bus) : CanTransport.t Bus := new frames.

Lemma try_receive_refines_witness :
  slots_ok (reassembly (sample_transport [(0x120, [65; 10; 0; 0; 0; 17])]))
  /\ match try_receive (sample_transport [(0x120, [65; 10; 0; 0; 0; 17])]) with
     | Some (t, None) => streams_of (reassembly t) !! (1, 0x120) = Some (Stream.mk 10 0 [17])
     | _ => False
     end.
Proof.
  split; [apply new_ok|].
  destruct (try_receive_refines (sample_transport [(0x120, [65; 10; 0; 0; 0; 17])]) (proj1 (new_ok _))) as (t' & -> & _ & -> & _).
  reflexivity.
Defined.

(** A heartbeat, with a command and the start of another node's message among its frames. *)
Definition sample_heartbeat : Message.t := Message.Heartbeat 3 7 1 0 40.
Definition sample_sent : list (Z * list Z) :=
  match send sample_heartbeat (sample_transport []) with Some (s, _) => dev s | None => [] end.
Definition sample_frames : list (Z * list Z) :=
  match sample_sent with
  | [start; fin] => [start; (0x20, [5; 20; 9]); (0x120, [65; 10; 0; 0; 0; 17]); fin]
  | _ => []
  end.

Definition sample_sender : CanTransport.t Bus :=
  match send sample_heartbeat (sample_transport []) with Some (s, _) => s | None => sample_transport [] end.

Lemma interleaved_message_delivered_witness :
  carries (0, route_id sample_heartbeat) sample_sent sample_frames
  /\ exists r' outs, receive_all sample_frames (sample_transport []) = Some (r', outs ++ [Some sample_heartbeat]) /\ length outs = 3%nat.
Proof.
  assert (carries (0, route_id sample_heartbeat) sample_sent sample_frames) as Hc.
  { let f := eval lazy in sample_sent in change sample_sent with f. let f := eval lazy in sample_frames in change sample_frames with f.
    apply (carries_many _ _ [] _ [_; _]). reflexivity. }
  split; [exact Hc|].
  assert (send sample_heartbeat (sample_transport []) = Some (sample_sender, Ok tt)) as Hs by (lazy; reflexivity).
  assert (dev sample_sender = dev (sample_transport []) ++ sample_sent) as Hd by (lazy; reflexivity).
  destruct (interleaved_message_delivered sample_heartbeat (sample_transport []) sample_sender sample_sent sample_frames
    (sample_transport []) Hs Hd Hc (proj1 (new_ok _)) eq_refl ltac:(unfold sample_transport; rewrite (proj2 (new_ok _)), map_size_empty; cbn; lia)) as (r' & outs & Er & Hl & _).
  exists r', outs. split; [exact Er|]. injection Hl as Hl. symmetry. exact Hl.
Defined.

(** Two messages begun and never finished. *)
Definition sample_abandoned : CanTransport.t Bus :=
  match receive_all [(0x120, [65; 10; 0; 0; 0; 17]); (0x121, [65; 10; 0; 0; 0; 17])] (sample_transport []) with
  | Some (t, _) => t
  | None => sample_transport []
  end.

Lemma abandoned_streams_block_witness :
  Forall (foreign (streams_of (reassembly sample_abandoned))) sample_sent
  /\ exists r', receive_all sample_sent sample_abandoned = Some (r', [None; None]).
Proof.
  assert (slots_ok (reassembly sample_abandoned)) as Hok.
  { pose proof (receive_all_refines [(0x120, [65; 10; 0; 0; 0; 17]); (0x121, [65; 10; 0; 0; 0; 17])] (sample_transport [])
      (proj1 (new_ok _))) as Hr.
    destruct (spec_all _ _ _) as [m os]. destruct Hr as (r' & Er & Hok & _). unfold sample_abandoned. rewrite Er. exact Hok. }
  assert (streams_of (reassembly sample_abandoned)
    = <[(1, 0x120) := Stream.mk 10 0 [17]]> (<[(1, 0x121) := Stream.mk 10 0 [17]]> ∅)) as Hm by reflexivity.
  assert (Forall (foreign (streams_of (reassembly sample_abandoned))) sample_sent) as Hf.
  { rewrite Hm. let f := eval lazy in sample_sent in change sample_sent with f.
    repeat constructor; intros k Hk; unfold of_stream, key_of; apply andb_false_iff; right; apply bool_decide_eq_false; intros <-;
      cbn in Hk; by destruct Hk. }
  split; [exact Hf|].
  destruct (abandoned_streams_block sample_sent sample_abandoned Hok eq_refl Hf) as (r' & outs & Er & _ & _ & Ho).
  exists r'. rewrite Er. do 2 f_equal.
  revert Ho. let f := eval lazy in sample_sent in change sample_sent with f.
  intros Ho. inversion Ho as [|? ? ? ? H1 Ho']; subst. inversion Ho' as [|? ? ? ? H2 Ho'']; subst. inversion Ho''; subst.
  by rewrite (H1 eq_refl), (H2 eq_refl).
Defined.
