(* ===== verification/CanObd2Spec.v ===== *)
(** * What the OBD-II services answer

    A specification of the answers as a table of services and identifiers, that the handlers
    of CanObd2.v implement it, and what follows: the form of an answer, segments that carry
    the whole value, and announcements that are honoured. *)
From S2P Require Import Prelude Domain Bytes CanTypes CanTransport CanReassembly CanObd2.
Open Scope Z_scope.

(** ** The specification *)
Module Answer.
(** One frame, or a value in segments. *)
Inductive t :=
| Single (verdict : CanObd2MultiServiceDispatchVerdict.t) (frame : CanObd2ResponseFrame.t)
| Segmented (info_type_id : Z) (value : list Z).
End Answer.

Definition padded_to_six (bytes : list Z) : list Z := bytes ++ replicate (6 - length bytes) 0.
Definition positive (service : Z) (id : option Z) (bytes : list Z) : CanObd2ResponseFrame.t :=
  CanObd2ResponseFrame.mk (service + 0x40) id None (Z.of_nat (length bytes)) (padded_to_six bytes).
Definition negative (service : Z) (code : CanObd2NegativeResponseCode.t) : CanObd2ResponseFrame.t :=
  CanObd2ResponseFrame.mk 0x7F (Some service) (Some (CanObd2NegativeResponseCode.raw code)) 0 (replicate 6 0).
Definition out_of_range (service : Z) : Answer.t :=
  Answer.Single (CanObd2MultiServiceDispatchVerdict.NegativeResponse CanObd2NegativeResponseCode.RequestOutOfRange)
    (negative service CanObd2NegativeResponseCode.RequestOutOfRange).

(** The identifiers with a value of a sensor, and its bytes. *)
Definition sensor_pid (id : Z) : bool := (id =? 0x05) || (id =? 0x0F) || (id =? 0x11) || (id =? 0x42).
Definition sensor_value (id : Z) (source : Message.t) : option (list Z) :=
  match source with
  | Message.SensorData _ tps iat clt voltage_x10 _ _ _ =>
    Some (if id =? 0x05 then [clt] else if id =? 0x0F then [iat]
          else if id =? 0x11 then [Z.min 255 ((tps * 255 + 50) / 100)]
          else [voltage_x10 * 100 / 256; voltage_x10 * 100 mod 256])
  | _ => None
  end.

(** The bits of the identifiers in a block, most significant first. *)
Definition pid_bits (start : Z) : option (list Z) :=
  if start =? 0 then Some [0x88; 0x02; 0x80; 0] else if start =? 0x40 then Some [0x40; 0; 0; 0] else None.
Definition info_bits (start : Z) (fault : bool) : option (list Z) :=
  if start =? 0 then Some [0x50; 0x40; 0; 0] else if start =? 0xE0 then Some [if fault then 0xC0 else 0x80; 0; 0; 0] else None.

Definition monitor_bits (supported complete : bool) (s i : Z) : Z :=
  if supported then s + (if complete then 0 else i) else 0.
Definition readiness_bytes (r : CanObd2ReadinessMonitorInputs.t) : list Z :=
  [Z.min 127 (CanObd2ReadinessMonitorInputs.stored_dtc_count r) + (if CanObd2ReadinessMonitorInputs.mil_requested r then 128 else 0);
   monitor_bits (CanObd2ReadinessMonitorInputs.misfire_supported r) (CanObd2ReadinessMonitorInputs.misfire_complete r) 128 4
   + monitor_bits (CanObd2ReadinessMonitorInputs.fuel_system_supported r) (CanObd2ReadinessMonitorInputs.fuel_system_complete r) 64 2
   + monitor_bits (CanObd2ReadinessMonitorInputs.comprehensive_components_supported r)
       (CanObd2ReadinessMonitorInputs.comprehensive_components_complete r) 32 1; 0; 0].

Section spec.
Variable inputs : CanObd2MultiServiceDispatchInputs.t.
Local Abbreviation info := (CanObd2MultiServiceDispatchInputs.vehicle_info inputs).
Local Abbreviation Answered := (Result Answer.t CanObd2MultiServiceDispatchError.t).

Definition spec_current_data (id : option Z) : Answered :=
  let error e := Err (CanObd2MultiServiceDispatchError.Mode01 e) in
  match id with
  | None => error CanObd2RequestDispatchError.MissingParameterId
  | Some id =>
    match pid_bits id with
    | Some bits => Ok (Answer.Single CanObd2MultiServiceDispatchVerdict.SupportedPidDiscoveryPositive (positive 1 (Some id) bits))
    | None =>
      if id =? 1 then
        match CanObd2MultiServiceDispatchInputs.readiness_monitor inputs with
        | None => error CanObd2RequestDispatchError.MissingReadinessInputs
        | Some r =>
          Ok (Answer.Single CanObd2MultiServiceDispatchVerdict.ReadinessMonitorPositive (positive 1 (Some id) (readiness_bytes r)))
        end
      else if sensor_pid id then
        match CanObd2MultiServiceDispatchInputs.current_data_value_source inputs with
        | None => error (CanObd2RequestDispatchError.MissingValueSource CanMessageClass.SensorData)
        | Some source =>
          match sensor_value id source with
          | None => error (CanObd2RequestDispatchError.IncompatibleValueSource CanMessageClass.SensorData)
          | Some bytes => Ok (Answer.Single CanObd2MultiServiceDispatchVerdict.CurrentDataPositive (positive 1 (Some id) bytes))
          end
        end
      else Ok (out_of_range 1)
    end
  end.

Definition spec_freeze_frame (id : option Z) : Answered :=
  let error e := Err (CanObd2MultiServiceDispatchError.DtcFreezeFrame e) in
  match CanObd2MultiServiceDispatchInputs.freeze_frame_dtc inputs, id with
  | None, _ => Err CanObd2MultiServiceDispatchError.MissingFreezeFrameDtc
  | Some _, None => error CanObd2DtcFreezeFrameResponseError.MissingParameterId
  | Some _, Some id =>
    if sensor_pid id then
      match CanObd2MultiServiceDispatchInputs.freeze_frame_value_source inputs with
      | None => error (CanObd2DtcFreezeFrameResponseError.MissingFreezeFrameValueSource CanMessageClass.SensorData)
      | Some source =>
        match sensor_value id source with
        | None => error (CanObd2DtcFreezeFrameResponseError.IncompatibleFreezeFrameValueSource CanMessageClass.SensorData)
        | Some bytes => Ok (Answer.Single CanObd2MultiServiceDispatchVerdict.FreezeFrame (positive 2 (Some id) bytes))
        end
      end
    else error (CanObd2DtcFreezeFrameResponseError.UnsupportedPid id)
  end.

Definition spec_stored_dtcs : Answer.t :=
  Answer.Single CanObd2MultiServiceDispatchVerdict.StoredDtcs (positive 3 None
    (c ← take 3 (CanObd2MultiServiceDispatchInputs.stored_dtcs inputs);
     let raw := CanObd2StoredDtc.raw_bytes (CanObd2StoredDtc.from_diag_code c) in [fst raw; snd raw])).

Definition spec_clear (id : option Z) : Answered :=
  match CanObd2MultiServiceDispatchInputs.dtc_clear inputs, id with
  | None, _ => Err CanObd2MultiServiceDispatchError.MissingDtcClearInputs
  | Some _, Some id =>
    Err (CanObd2MultiServiceDispatchError.DtcClear (CanObd2DtcClearResponseError.UnexpectedParameterId id))
  | Some _, None => Ok (Answer.Single CanObd2MultiServiceDispatchVerdict.DtcClearPositive (positive 4 None []))
  end.

Definition spec_vehicle_info (id : option Z) : Answered :=
  match id with
  | None => Err (CanObd2MultiServiceDispatchError.VehicleInfo CanObd2VehicleInfoResponseError.MissingInfoTypeId)
  | Some id =>
    let prefix (len : Z) (value : list Z) := take (Z.to_nat len) value in
    let status {A} (value : A -> list Z) (status : option A) :=
      match status with
      | Some s => Ok (Answer.Segmented id (value s))
      | None => Err (CanObd2MultiServiceDispatchError.SegmentedVehicleInfo
                  (CanObd2SegmentedVehicleInfoResponseError.UnsupportedInfoType id))
      end in
    if id =? 0x02 then Ok (Answer.Segmented id (prefix (CanObd2VehicleInfoInputs.vin_len info) (CanObd2VehicleInfoInputs.vin info)))
    else if id =? 0x04 then
      Ok (Answer.Segmented id (prefix (CanObd2VehicleInfoInputs.calibration_id_len info) (CanObd2VehicleInfoInputs.calibration_id info)))
    else if id =? 0x0A then
      Ok (Answer.Single CanObd2MultiServiceDispatchVerdict.VehicleInfoPositive
        (CanObd2ResponseFrame.mk 0x49 (Some id) None (Z.min 6 (CanObd2VehicleInfoInputs.ecu_name_len info))
          (CanObd2VehicleInfoInputs.ecu_name info)))
    else if id =? 0xE1 then
      status (fun s => be32 (CanObd2IdentityKeyLifecycleStatus.request_id s)
        ++ [CanObd2IdentityKeyLifecycleStatus.flags s; CanObd2IdentityKeyLifecycleStatus.rejected_reason s]
        ++ be32 (CanObd2IdentityKeyLifecycleStatus.generation s)) (CanObd2VehicleInfoInputs.identity_key_lifecycle info)
    else if id =? 0xE2 then
      status (fun s => [if CanObd2FlashWriteFaultStatus.present s then 128 else 0;
          CanObd2FlashWriteFaultPhase.code (CanObd2FlashWriteFaultStatus.phase s)] ++ be32 (CanObd2FlashWriteFaultStatus.sr_bits s))
        (CanObd2VehicleInfoInputs.flash_write_fault info)
    else
      match info_bits id (match CanObd2VehicleInfoInputs.flash_write_fault info with Some _ => true | None => false end) with
      | Some bits => Ok (Answer.Single CanObd2MultiServiceDispatchVerdict.VehicleInfoPositive (positive 9 (Some id) bits))
      | None => Ok (out_of_range 9)
      end
  end.

(** The answer to a request of [service] for [id]. *)
Definition spec_answer (service : Z) (id : option Z) : Answered :=
  if service =? 1 then spec_current_data id
  else if service =? 2 then spec_freeze_frame id
  else if service =? 3 then Ok spec_stored_dtcs
  else if service =? 4 then spec_clear id
  else if service =? 9 then spec_vehicle_info id
  else Err (CanObd2MultiServiceDispatchError.UnsupportedService service).
End spec.

(** ** The answers that were given *)

(** What a tester puts together from the segments. *)
Definition reassemble (segments : list (option CanObd2SegmentedResponseFrame.t)) : list Z :=
  f ← omap id segments; take (Z.to_nat (CanObd2SegmentedResponseFrame.segment_len f)) (CanObd2SegmentedResponseFrame.segment f).

Definition answer_of (o : CanObd2MultiServiceDispatchOutcome.t) : Answer.t :=
  match o with
  | CanObd2MultiServiceDispatchOutcome.Single s =>
    Answer.Single (CanObd2MultiServiceDispatchSurface.verdict s) (CanObd2MultiServiceDispatchSurface.response s)
  | CanObd2MultiServiceDispatchOutcome.SegmentedVehicleInfo g =>
    Answer.Segmented (CanObd2SegmentedVehicleInfoResponseSurface.info_type_id g)
      (reassemble (CanObd2SegmentedVehicleInfoResponseSurface.segments g))
  end.

(** Segment [i] of [value], as the loop forms it. *)
Definition segment_at (service id : Z) (value : list Z) (i : nat) : CanObd2SegmentedResponseFrame.t :=
  let chunk := take 6 (drop (i * 6) value) in
  CanObd2SegmentedResponseFrame.mk service (Some id) (Z.of_nat i) (Z.of_nat ((length value + 5) / 6))
    (Z.of_nat (length value)) (Z.of_nat (length chunk)) (padded_to_six chunk).

Definition segments_of (service id : Z) (value : list Z) : list (option CanObd2SegmentedResponseFrame.t) :=
  let n := ((length value + 5) / 6)%nat in
  ((fun i => Some (segment_at service id value i)) <$> seq 0 n) ++ replicate (4 - n) None.

(** ** The segments *)
Lemma padded_copy bytes : (length bytes <= 6)%nat -> checked_copy 0 bytes (replicate 6 0) = Some (padded_to_six bytes).
Proof.
  intros Hl. unfold checked_copy. rewrite length_replicate. destruct (Nat.leb_spec (0 + length bytes) 6); [|lia].
  rewrite copy_at_0. unfold padded_to_six. by rewrite drop_replicate.
Qed.

Lemma six_padded bytes : (length bytes <= 6)%nat -> six bytes = padded_to_six bytes.
Proof. intros Hl. unfold six. rewrite copy_at_0. unfold padded_to_six. by rewrite drop_replicate. Qed.

Lemma fill_spec fuel source service id total i segs :
  (total <= length source)%nat -> (i + fuel = (total + 5) / 6)%nat -> ((total + 5) / 6 <= length segs)%nat ->
  CanObd2SegmentedVehicleInfoResponseSurface.fill fuel source service id (Z.of_nat ((total + 5) / 6)) (Z.of_nat total) (Z.of_nat i) segs
  = Some (take i segs ++ ((fun i => Some (segment_at service id (take total source) i)) <$> seq i fuel) ++ drop ((total + 5) / 6) segs).
Proof.
  intros Hsrc. pose proof (Nat.div_mod (total + 5) 6 ltac:(done)) as Hdiv. pose proof (Nat.mod_upper_bound (total + 5) 6 ltac:(done)).
  set (n := ((total + 5) / 6)%nat) in *. revert i segs. induction fuel as [|fuel IH]; intros i segs Hi Hsegs;
    cbn [CanObd2SegmentedVehicleInfoResponseSurface.fill].
  - destruct (Z.ltb_spec (Z.of_nat i) (Z.of_nat n)); [lia|]. replace i with n by lia. cbn. by rewrite take_drop.
  - destruct (Z.ltb_spec (Z.of_nat i) (Z.of_nat n)); [|lia]. rewrite Nat2Z.id. unfold checked_sub.
    destruct (Z.leb_spec (Z.of_nat (i * 6)) (Z.of_nat total)); [|lia]. cbn [mbind option_bind].
    replace (Z.to_nat (Z.of_nat total - Z.of_nat (i * 6))) with (total - i * 6)%nat by lia.
    set (len := Nat.min (total - i * 6) 6). rewrite (chunk_of source (i * 6) len) by lia. cbn [mbind option_bind].
    assert (take len (drop (i * 6) source) = take 6 (drop (i * 6) (take total source))) as ->.
    { rewrite skipn_firstn_comm, take_take. f_equal. unfold len. lia. }
    assert (length (take 6 (drop (i * 6) (take total source))) = len) as Hlen
      by (rewrite length_take, length_drop, length_take; unfold len; lia).
    rewrite padded_copy by lia. cbn [mbind option_bind]. destruct (Nat.ltb_spec i (length segs)); [|lia].
    replace (Z.of_nat i + 1) with (Z.of_nat (S i)) by lia. rewrite IH; [|lia|rewrite length_insert; lia].
    cbn [seq fmap list_fmap]. f_equal. rewrite (insert_take_drop _ _ _ ltac:(done)).
    assert (length (take i segs) = i) as Hti by (rewrite length_take; lia).
    rewrite take_app_ge, Hti by lia. replace (S i - i)%nat with 1%nat by lia. cbn [take]. rewrite drop_app_ge, Hti by lia.
    replace (n - i)%nat with (S (n - S i)) by lia. cbn [drop]. rewrite drop_drop. replace (S i + (n - S i))%nat with n by lia.
    rewrite <- app_assoc. cbn [app]. do 3 f_equal.
    unfold segment_at. rewrite !length_take, Nat.min_l by lia. rewrite length_drop, length_take. fold n. f_equal.
    unfold len, as_unsigned. rewrite Z.mod_small by lia. lia.
Qed.

Lemma chunks_concat (value : list Z) n k :
  concat ((fun i => take 6 (drop (i * 6) value)) <$> seq k n) = take (n * 6) (drop (k * 6) value).
Proof.
  revert k. induction n as [|n IH]; intros k; [done|]. cbn [seq fmap list_fmap concat]. rewrite IH.
  replace (drop (S k * 6) value) with (drop 6 (drop (k * 6) value)) by (rewrite drop_drop; f_equal; lia).
  replace (S n * 6)%nat with (6 + n * 6)%nat by lia. generalize (drop (k * 6) value) as rest. intros rest.
  rewrite <- (take_drop 6 (take (6 + n * 6) rest)). rewrite take_take, Nat.min_l, skipn_firstn_comm by lia. do 2 f_equal. lia.
Qed.

Lemma reassemble_segments service info value : reassemble (segments_of service info value) = value.
Proof.
  unfold reassemble, segments_of. set (n := ((length value + 5) / 6)%nat). rewrite omap_app.
  assert (omap id (replicate (4 - n) (@None CanObd2SegmentedResponseFrame.t)) = []) as -> by (by induction (4 - n)%nat).
  rewrite app_nil_r.
  assert (forall xs : list nat, omap id ((fun i => Some (segment_at service info value i)) <$> xs) = segment_at service info value <$> xs) as ->
    by (induction xs as [|x xs IH]; [done|]; cbn; f_equal; exact IH).
  transitivity (concat ((fun i => take 6 (drop (i * 6) value)) <$> seq 0 n)).
  - generalize (seq 0 n) as xs. induction xs as [|x xs IH]; [done|]. cbn [fmap list_fmap concat]. cbn [mbind list_bind]. f_equal; [|exact IH].
    cbn. rewrite Nat2Z.id. unfold padded_to_six. by rewrite take_app_length.
  - rewrite chunks_concat, drop_0. apply take_ge. unfold n. pose proof (Nat.div_mod (length value + 5) 6 ltac:(done)).
    pose proof (Nat.mod_upper_bound (length value + 5) 6 ltac:(done)). lia.
Qed.

(** ** Catalogues and projections *)
Definition sensor_typed (source : option Message.t) : Prop :=
  match source with
  | Some (Message.SensorData _ tps iat clt voltage_x10 _ _ _) => u8 tps /\ u8 iat /\ u8 clt /\ u8 voltage_x10
  | _ => True
  end.

(** A decidable property of a byte, by trying them all. *)
Lemma every_byte (P : Z -> Prop) `{forall x, Decision (P x)} x : forallb (fun x => bool_decide (P x)) (seqZ 0 256) = true -> u8 x -> P x.
Proof. intros Hall Hx. apply (bool_decide_eq_true_1 (P x)). exact (all_below (fun x => bool_decide (P x)) 256 x Hall Hx). Qed.

Lemma pid_block_bits start : u8 start ->
  CanObd2SupportedPidBitmapSurface.bitmap <$> CanObd2SupportedPidBitmapSurface.from_pid_block start = pid_bits start.
Proof.
  apply (every_byte (fun s => CanObd2SupportedPidBitmapSurface.bitmap <$> CanObd2SupportedPidBitmapSurface.from_pid_block s
    = pid_bits s)). by lazy.
Qed.

Lemma info_block_bits start : u8 start ->
  CanObd2SupportedInfoTypeBitmapSurface.bitmap <$> CanObd2SupportedInfoTypeBitmapSurface.from_info_type_block start
  = info_bits start true.
Proof.
  apply (every_byte (fun s => CanObd2SupportedInfoTypeBitmapSurface.bitmap <$>
    CanObd2SupportedInfoTypeBitmapSurface.from_info_type_block s = info_bits s true)). by lazy.
Qed.

(** Whether an identifier is the start of a block of 32. *)
Lemma info_bits_block start fault : u8 start -> info_bits start fault <> None -> Z.land start 0x1f = 0.
Proof. intros _. unfold info_bits. destruct (Z.eqb_spec start 0) as [->|_]; [done|]. by destruct (Z.eqb_spec start 0xE0) as [->|_]. Qed.

Definition by_id (id : Z) : option CanObd2SupportedPidProfile.t :=
  find (fun profile => CanObd2SupportedPidProfile.pid_id profile =? id) CAN_OBD2_SUPPORTED_PID_CATALOG.

Lemma find_service_1 id :
  find (fun profile => (CanObd2SupportedPidProfile.service_id profile =? 1) && (CanObd2SupportedPidProfile.pid_id profile =? id))
    CAN_OBD2_SUPPORTED_PID_CATALOG = by_id id.
Proof. done. Qed.

Lemma by_id_none id : u8 id -> (id =? 1) = false -> sensor_pid id = false -> by_id id = None.
Proof.
  intros Hid H1 Hs.
  pose (p := fun id => (id =? 1) || sensor_pid id || match by_id id with None => true | Some _ => false end).
  assert (p id = true) as Hp by (apply (all_below p 256); [by lazy|exact Hid]).
  unfold p in Hp. rewrite H1, Hs in Hp. by destruct (by_id id).
Qed.

Lemma by_id_sensor id source : sensor_pid id = true -> sensor_typed (Some source) ->
  exists profile projection, by_id id = Some profile
    /\ CanObd2SupportedPidProfile.backing profile = CanObd2PidBacking.Message CanMessageClass.SensorData
    /\ value_projection (CanObd2SupportedPidProfile.pid profile) = Some projection
    /\ CanObd2ValueProjectionSurface.backing_message_class projection = CanMessageClass.SensorData
    /\ match sensor_value id source, CanObd2ValueProjectionSurface.project_from_message projection source with
       | Some value, Some payload =>
         take (Z.to_nat (CanObd2ProjectedPayload.payload_len payload)) (CanObd2ProjectedPayload.bytes payload) = value
         /\ CanObd2ProjectedPayload.payload_len payload = Z.of_nat (length value) /\ (length value <= 6)%nat
       | None, None => True
       | _, _ => False
       end.
Proof.
  unfold sensor_pid. rewrite !orb_true_iff, !Z.eqb_eq. intros Hid Hm.
  destruct Hid as [[[->| ->]| ->]| ->]; (eexists _, _; split; [reflexivity|]; split; [done|]; split; [reflexivity|]; split; [done|]);
    destruct source; try done; cbn -[Z.mul Z.div Z.modulo]; (split; [|split; [done|lia]]); try done;
    destruct Hm as (Ht & _ & _ & Hv); unfold fits, as_unsigned in *.
  - rewrite Z.min_comm, Z.mod_small; [done|].
    assert (0 <= (tps_percent * 255 + 50) / 100) by (apply Z.div_pos; lia). lia.
  - rewrite Z.shiftr_div_pow2 by lia. change 255 with (Z.ones 8). rewrite Z.land_ones by lia. rewrite Z.mod_mod by lia.
    rewrite Z.mod_small; [done|]. split; [apply Z.div_pos; lia|apply Z.div_lt_upper_bound; lia].
Qed.

(** ** The services *)
Section services.
Variable inputs : CanObd2MultiServiceDispatchInputs.t.
Local Abbreviation info := (CanObd2MultiServiceDispatchInputs.vehicle_info inputs).

(** What the types of the inputs say: bytes are bytes and arrays have their lengths. *)
Record inputs_typed : Prop := {
  typed_current : sensor_typed (CanObd2MultiServiceDispatchInputs.current_data_value_source inputs);
  typed_freeze : sensor_typed (CanObd2MultiServiceDispatchInputs.freeze_frame_value_source inputs);
  typed_readiness : forall r, CanObd2MultiServiceDispatchInputs.readiness_monitor inputs = Some r ->
    u8 (CanObd2ReadinessMonitorInputs.stored_dtc_count r);
  typed_name : length (CanObd2VehicleInfoInputs.ecu_name info) = 6%nat /\ u8 (CanObd2VehicleInfoInputs.ecu_name_len info);
  typed_vin : length (CanObd2VehicleInfoInputs.vin info) = CAN_OBD2_VIN_LEN /\ u8 (CanObd2VehicleInfoInputs.vin_len info);
  typed_calibration : length (CanObd2VehicleInfoInputs.calibration_id info) = CAN_OBD2_VIN_LEN
    /\ u8 (CanObd2VehicleInfoInputs.calibration_id_len info);
}.
Hypothesis Htyped : inputs_typed.

Local Abbreviation request service id len payload := (Message.Obd2Request service id len payload).

(** An outcome that answers as specified; segments, if any, are those of the value. *)
Definition answers (service : Z) (r : option (Result CanObd2MultiServiceDispatchOutcome.t CanObd2MultiServiceDispatchError.t))
    (a : Result Answer.t CanObd2MultiServiceDispatchError.t) : Prop :=
  exists o, r = Some o /\ map_ok answer_of o = a
    /\ match o with
       | Ok (CanObd2MultiServiceDispatchOutcome.Single s) => CanObd2MultiServiceDispatchSurface.request_service_id s = service
       | Ok (CanObd2MultiServiceDispatchOutcome.SegmentedVehicleInfo g) =>
         CanObd2SegmentedVehicleInfoResponseSurface.request_service_id g = service
         /\ exists value, CanObd2SegmentedVehicleInfoResponseSurface.segments g
              = segments_of (service + 0x40) (CanObd2SegmentedVehicleInfoResponseSurface.info_type_id g) value
              /\ CanObd2SegmentedVehicleInfoResponseSurface.segment_count g = Z.of_nat ((length value + 5) / 6)
              /\ (length value <= CAN_OBD2_VIN_LEN)%nat
       | Err _ => True
       end.

Lemma six_frame service id len value : (length value <= 6)%nat -> len = Z.of_nat (length value) ->
  CanObd2ResponseFrame.mk (service + 0x40) id None len (six value) = positive service id value.
Proof. intros Hl ->. by rewrite six_padded. Qed.

Lemma readiness_encoded r : u8 (CanObd2ReadinessMonitorInputs.stored_dtc_count r) ->
  CanObd2ReadinessMonitorMeaning.encode_payload (CanObd2ReadinessMonitorInputs.into_meaning r) = readiness_bytes r.
Proof.
  destruct r as [mil n ms mc fs fc cs cc]. cbn [CanObd2ReadinessMonitorInputs.stored_dtc_count]. intros Hn.
  unfold CanObd2ReadinessMonitorMeaning.encode_payload, readiness_bytes. cbn -[Z.lor Z.land Z.min Z.add]. f_equal.
  - revert Hn. apply (every_byte (fun n => Z.lor (Z.land (if 127 <? n then 127 else n) 127) (if mil then 128 else 0)
      = Z.min 127 n + (if mil then 128 else 0))). by destruct mil; lazy.
  - f_equal. by destruct ms, mc, fs, fc, cs, cc.
Qed.

Lemma surface_of_request {E} (e : E) f service id len payload :
  request_surface e f (request service id len payload)
  = Ok (CanObd2ServiceSurface.mk CanObd2ServiceDirection.Request service id len true None).
Proof. done. Qed.

Lemma discovery_assembled id len payload : u8 id ->
  CanObd2SupportedPidDiscoveryResponseSurface.assemble (request 1 (Some id) len payload)
  = match pid_bits id with
    | Some bits => Ok (CanObd2SupportedPidDiscoveryResponseSurface.mk 1 id 0x41 bits
        (Message.Obd2Response 0x41 (Some id) None 4 (six bits)))
    | None => Err (CanObd2SupportedPidDiscoveryResponseError.UnsupportedPidBlock id)
    end.
Proof.
  intros Hid. unfold CanObd2SupportedPidDiscoveryResponseSurface.assemble. rewrite surface_of_request.
  rewrite <- (pid_block_bits id Hid). cbn. by destruct (CanObd2SupportedPidBitmapSurface.from_pid_block id).
Qed.

Lemma pid_bits_shape id bits : pid_bits id = Some bits -> length bits = 4%nat.
Proof. unfold pid_bits. destruct (_ =? _); [by intros [= <-]|]. destruct (_ =? _); [by intros [= <-]|done]. Qed.

(** The value of a sensor, as an answer is assembled from it. *)
Lemma current_assembled id source len payload : sensor_pid id = true -> sensor_typed (Some source) ->
  exists r, CanObd2ResponseAssemblySurface.assemble (request 1 (Some id) len payload) source = r
  /\ match sensor_value id source with
     | Some value => exists s, r = Ok s /\ CanObd2ResponseAssemblySurface.request_service_id s = 1
         /\ CanObd2ResponseFrame.from_message (CanObd2ResponseAssemblySurface.response s) = Some (positive 1 (Some id) value)
     | None => r = Err (CanObd2ResponseAssemblyError.IncompatibleValueSource CanMessageClass.SensorData)
     end.
Proof.
  intros Hs Hm. eexists. split; [reflexivity|]. destruct (by_id_sensor id source Hs Hm) as (profile & projection & E1 & _ & E2 & E3 & Hv).
  unfold CanObd2ResponseAssemblySurface.assemble. rewrite surface_of_request. cbn [result_bind CanObd2ServiceSurface.service_id
    CanObd2ServiceSurface.parameter_id ok_or Z.eqb Pos.eqb negb]. rewrite find_service_1, E1. cbn [ok_or result_bind]. rewrite E2.
  cbn [ok_or result_bind]. rewrite E3.
  destruct (sensor_value id source) as [value|], (CanObd2ValueProjectionSurface.project_from_message projection source) as [p|]; try done.
  destruct Hv as (H1 & H2 & H3). eexists. split; [reflexivity|]. split; [done|]. cbn [CanObd2ResponseAssemblySurface.response
    CanObd2ResponseFrame.from_message]. rewrite H1. f_equal. by apply (six_frame 1).
Qed.

Lemma current_data_answers id len payload : from_option u8 True id ->
  answers 1 (dispatch_outcome (request 1 id len payload) inputs) (spec_current_data inputs id).
Proof.
  intros Hid. unfold dispatch_outcome. rewrite surface_of_request. cbn [CanObd2ServiceSurface.service_id
    CanObd2ServiceSurface.parameter_id Z.eqb Pos.eqb andb].
  unfold CanObd2MultiServiceDispatchSurface.dispatch. rewrite surface_of_request. cbn [CanObd2ServiceSurface.service_id
    CanObd2ServiceSurface.parameter_id Z.eqb Pos.eqb].
  unfold CanObd2RequestDispatchSurface.dispatch_with_readiness. rewrite surface_of_request. cbn [CanObd2ServiceSurface.service_id
    CanObd2ServiceSurface.parameter_id Z.eqb Pos.eqb result_bind negb].
  destruct id as [id|]; [|by eexists]. cbn [ok_or result_bind]. rewrite discovery_assembled by done. unfold spec_current_data.
  destruct (pid_bits id) as [bits|] eqn:Ebits.
  { eexists. split; [reflexivity|]. split; [|done]. apply pid_bits_shape in Ebits. cbn. do 2 f_equal.
    apply (six_frame 1); rewrite Ebits; [lia|done]. }
  rewrite find_service_1. destruct (id =? 1) eqn:E1.
  { apply Z.eqb_eq in E1 as ->. change (by_id 1) with (Some (pid_profile CanObd2Pid.MonitorStatusSinceDtcsCleared)).
    cbn [pid_profile CanObd2SupportedPidProfile.backing CanObd2Pid.backing].
    destruct (CanObd2MultiServiceDispatchInputs.readiness_monitor inputs) as [r|] eqn:Er; [|by eexists].
    eexists. split; [reflexivity|]. split; [|done]. cbn -[six]. do 2 f_equal.
    rewrite readiness_encoded by (exact (typed_readiness Htyped _ Er)). apply (six_frame 1); cbn; lia. }
  destruct (sensor_pid id) eqn:Es; [|rewrite (by_id_none id Hid E1 Es); by eexists].
  destruct (CanObd2MultiServiceDispatchInputs.current_data_value_source inputs) as [source|] eqn:Esrc.
  - pose proof (typed_current Htyped) as Hsrc. rewrite Esrc in Hsrc.
    destruct (by_id_sensor id source Es Hsrc) as (profile & _ & -> & -> & _). cbn [ok_or result_bind].
    destruct (current_assembled id source len payload Es Hsrc) as (r & -> & Hr).
    destruct (sensor_value id source) as [value|]; [|subst r; by eexists].
    destruct Hr as (s & -> & Hreq & Hframe). eexists. split.
    { cbn. unfold CanObd2MultiServiceDispatchSurface.from_mode01. cbn. rewrite Hframe. reflexivity. }
    split; [done|]. exact Hreq.
  - destruct (by_id_sensor id (Message.CmdReset 0) Es I) as (profile & _ & -> & -> & _). by eexists.
Qed.

Local Ltac serve :=
  unfold dispatch_outcome, CanObd2MultiServiceDispatchSurface.dispatch; rewrite !surface_of_request;
  cbn [CanObd2ServiceSurface.service_id CanObd2ServiceSurface.parameter_id Z.eqb Pos.eqb andb result_bind negb].

Lemma freeze_frame_answers id len payload : from_option u8 True id ->
  answers 2 (dispatch_outcome (request 2 id len payload) inputs) (spec_freeze_frame inputs id).
Proof.
  intros Hid. serve. unfold spec_freeze_frame.
  destruct (CanObd2MultiServiceDispatchInputs.freeze_frame_dtc inputs) as [dtc|]; [|by eexists].
  unfold CanObd2DtcFreezeFrameResponseSurface.assemble_freeze_frame. rewrite surface_of_request.
  cbn [CanObd2ServiceSurface.service_id CanObd2ServiceSurface.parameter_id Z.eqb Pos.eqb result_bind negb].
  destruct id as [id|]; [|by eexists]. cbn [ok_or result_bind]. fold (by_id id).
  destruct (sensor_pid id) eqn:Es.
  - destruct (CanObd2MultiServiceDispatchInputs.freeze_frame_value_source inputs) as [source|] eqn:Esrc.
    + pose proof (typed_freeze Htyped) as Hsrc. rewrite Esrc in Hsrc.
      destruct (by_id_sensor id source Es Hsrc) as (profile & projection & -> & E1 & E2 & E3 & Hv).
      cbn [ok_or result_bind]. rewrite E1. cbn [ok_or result_bind]. rewrite E2. cbn [ok_or result_bind].
      destruct (sensor_value id source) as [value|], (CanObd2ValueProjectionSurface.project_from_message projection source) as [p|];
        try done; [|by eexists].
      destruct Hv as (H1 & H2 & H3). eexists. split; [reflexivity|]. split; [|done]. cbn. rewrite H1. do 2 f_equal.
      by apply (six_frame 2).
    + destruct (by_id_sensor id (Message.CmdReset 0) Es I) as (profile & projection & -> & E1 & _). cbn [ok_or result_bind]. rewrite E1. by eexists.
  - destruct (id =? 1) eqn:E1; [apply Z.eqb_eq in E1 as ->; by eexists|]. rewrite (by_id_none id Hid E1 Es). by eexists.
Qed.

Lemma stored_dtcs_answers id len payload :
  answers 3 (dispatch_outcome (request 3 id len payload) inputs) (Ok (spec_stored_dtcs inputs)).
Proof.
  serve. unfold CanObd2DtcFreezeFrameResponseSurface.assemble_stored_dtcs. rewrite surface_of_request.
  cbn [CanObd2ServiceSurface.service_id CanObd2ServiceSurface.parameter_id Z.eqb Pos.eqb result_bind negb].
  unfold spec_stored_dtcs. destruct (CanObd2MultiServiceDispatchInputs.stored_dtcs inputs) as [|a [|b [|c codes]]]; [by eexists..|].
  cbn [length]. rewrite Nat.min_r by lia. change (as_unsigned 8 (Z.of_nat 3)) with 3. change (Z.to_nat 3) with 3%nat. by eexists.
Qed.

Lemma clear_answers id len payload :
  answers 4 (dispatch_outcome (request 4 id len payload) inputs) (spec_clear inputs id).
Proof.
  serve. unfold spec_clear. destruct (CanObd2MultiServiceDispatchInputs.dtc_clear inputs) as [c|]; [|by eexists].
  unfold CanObd2DtcClearSurface.assemble. rewrite surface_of_request.
  cbn [CanObd2ServiceSurface.service_id CanObd2ServiceSurface.parameter_id Z.eqb Pos.eqb result_bind negb].
  destruct id as [id|]; by eexists.
Qed.

Lemma segments_for_nat k : (k <= CAN_OBD2_VIN_LEN)%nat ->
  CanObd2SegmentedVehicleInfoResponseSurface.segments_for (Z.of_nat k) = Z.of_nat ((k + 5) / 6).
Proof.
  unfold CAN_OBD2_VIN_LEN, CanObd2SegmentedVehicleInfoResponseSurface.segments_for. intros Hk.
  destruct (Z.eqb_spec (Z.of_nat k) 0) as [E|_].
  - destruct k; [done|lia].
  - unfold as_unsigned. replace (Z.of_nat k + 5) with (Z.of_nat (k + 5)) by lia. change 6 with (Z.of_nat 6).
    rewrite <- Nat2Z.inj_div. assert ((k + 5) / 6 <= 4)%nat by (apply Nat.Div0.div_le_upper_bound; lia).
    apply Z.mod_small. lia.
Qed.

(** The loop over the segments of a value, from the start. *)
Lemma fill_all source service id total : 0 <= total <= Z.of_nat CAN_OBD2_VIN_LEN -> length source = CAN_OBD2_VIN_LEN ->
  CanObd2SegmentedVehicleInfoResponseSurface.fill (Z.to_nat (CanObd2SegmentedVehicleInfoResponseSurface.segments_for total))
    source service id (CanObd2SegmentedVehicleInfoResponseSurface.segments_for total) total 0
    (replicate CAN_OBD2_SEGMENTED_RESPONSE_CAPACITY None)
  = Some (segments_of service id (take (Z.to_nat total) source)).
Proof.
  intros Ht Hsrc. unfold CAN_OBD2_VIN_LEN in *. destruct (Z_of_nat_complete total) as [k ->]; [lia|].
  assert ((k + 5) / 6 <= 4)%nat as Hn by (apply Nat.Div0.div_le_upper_bound; lia).
  rewrite segments_for_nat by (unfold CAN_OBD2_VIN_LEN; lia).
  rewrite !Nat2Z.id. pose proof (fill_spec ((k + 5) / 6) source service id k 0 (replicate CAN_OBD2_SEGMENTED_RESPONSE_CAPACITY None))
    as Hfill. change (Z.of_nat 0) with 0 in Hfill. rewrite Hfill by (rewrite ?length_replicate; unfold CAN_OBD2_SEGMENTED_RESPONSE_CAPACITY; lia).
  unfold segments_of. rewrite take_0, drop_replicate. cbn [app]. f_equal.
  rewrite length_take, Nat.min_l by lia. done.
Qed.

Lemma vin_cap n : u8 n -> 0 <= (if as_unsigned 8 (Z.of_nat CAN_OBD2_VIN_LEN) <? n then as_unsigned 8 (Z.of_nat CAN_OBD2_VIN_LEN) else n)
  <= Z.of_nat CAN_OBD2_VIN_LEN.
Proof. unfold fits. change (as_unsigned 8 (Z.of_nat CAN_OBD2_VIN_LEN)) with 17. change (Z.of_nat CAN_OBD2_VIN_LEN) with 17. destruct (Z.ltb_spec 17 n); lia. Qed.

Lemma vin_prefix n (value : list Z) : u8 n -> length value = CAN_OBD2_VIN_LEN ->
  take (Z.to_nat (if as_unsigned 8 (Z.of_nat CAN_OBD2_VIN_LEN) <? n then as_unsigned 8 (Z.of_nat CAN_OBD2_VIN_LEN) else n)) value
  = take (Z.to_nat n) value.
Proof.
  unfold fits, CAN_OBD2_VIN_LEN. change (as_unsigned 8 (Z.of_nat 17)) with 17. intros Hn Hl.
  destruct (Z.ltb_spec 17 n); [|done]. rewrite !take_ge by lia. done.
Qed.

Definition segmented_id (id : Z) : bool := (id =? 0x02) || (id =? 0x04) || (id =? 0xE1) || (id =? 0xE2).

Lemma segmented_answers id len payload : segmented_id id = true ->
  match CanObd2SegmentedVehicleInfoResponseSurface.source_of id (CanObd2VehicleInfoInputs.normalized info) with
  | Ok (source, total, meaning) => length source = CAN_OBD2_VIN_LEN -> 0 <= total <= Z.of_nat CAN_OBD2_VIN_LEN ->
    answers 9 (dispatch_outcome (request 9 (Some id) len payload) inputs) (Ok (Answer.Segmented id (take (Z.to_nat total) source)))
  | Err e => answers 9 (dispatch_outcome (request 9 (Some id) len payload) inputs)
      (Err (CanObd2MultiServiceDispatchError.SegmentedVehicleInfo e))
  end.
Proof.
  intros Hid.
  assert (dispatch_outcome (request 9 (Some id) len payload) inputs
    = (r ← CanObd2SegmentedVehicleInfoResponseSurface.assemble (request 9 (Some id) len payload) info;
       Some (map_ok CanObd2MultiServiceDispatchOutcome.SegmentedVehicleInfo
         (map_err CanObd2MultiServiceDispatchError.SegmentedVehicleInfo r)))) as ->.
  { unfold dispatch_outcome. rewrite surface_of_request. cbn [CanObd2ServiceSurface.service_id CanObd2ServiceSurface.parameter_id].
    change (_ || _ || _ || _) with (segmented_id id). by rewrite Hid. }
  unfold CanObd2SegmentedVehicleInfoResponseSurface.assemble. rewrite surface_of_request.
  cbn [CanObd2ServiceSurface.service_id CanObd2ServiceSurface.parameter_id Z.eqb Pos.eqb result_bind negb ok_or].
  destruct (CanObd2SegmentedVehicleInfoResponseSurface.source_of _ _) as [[[source total] meaning]|e]; [|by eexists].
  cbn [result_bind]. intros Hsrc Ht. rewrite fill_all by done. eexists. split; [reflexivity|]. cbn [map_ok map_err answer_of
    CanObd2SegmentedVehicleInfoResponseSurface.info_type_id CanObd2SegmentedVehicleInfoResponseSurface.segments
    CanObd2SegmentedVehicleInfoResponseSurface.request_service_id].
  rewrite reassemble_segments. split; [done|]. split; [done|]. eexists. split_and!; [done| |].
  - cbn [CanObd2SegmentedVehicleInfoResponseSurface.segment_count]. rewrite length_take, Nat.min_l by lia.
    rewrite <- segments_for_nat by lia. by rewrite Z2Nat.id by lia.
  - rewrite length_take. lia.
Qed.

Lemma single_info_answers id len payload : u8 id -> segmented_id id = false ->
  answers 9 (dispatch_outcome (request 9 (Some id) len payload) inputs) (spec_vehicle_info inputs (Some id)).
Proof.
  intros Hid Hs. unfold dispatch_outcome. rewrite surface_of_request. cbn [CanObd2ServiceSurface.service_id
    CanObd2ServiceSurface.parameter_id]. change (_ || _ || _ || _) with (segmented_id id). rewrite Hs.
  unfold segmented_id in Hs. rewrite !orb_false_iff in Hs. destruct Hs as [[[H2 H4] HE1] HE2].
  serve. unfold CanObd2VehicleInfoResponseSurface.assemble. rewrite surface_of_request.
  cbn [CanObd2ServiceSurface.service_id CanObd2ServiceSurface.parameter_id Z.eqb Pos.eqb result_bind negb ok_or].
  unfold spec_vehicle_info. rewrite H2, H4, HE1, HE2. destruct (Z.eqb_spec id 0x0A) as [->|HA].
  { eexists. split; [reflexivity|]. split; [|done]. cbn. do 3 f_equal. unfold fits in *.
    pose proof (typed_name Htyped) as [_ Hn]. unfold fits in Hn. destruct (Z.ltb_spec 6 (CanObd2VehicleInfoInputs.ecu_name_len info)); lia. }
  pose proof (info_block_bits id Hid) as Hblock. destruct (Z.land id 0x1f =? 0) eqn:Hland.
  - destruct (CanObd2SupportedInfoTypeBitmapSurface.from_info_type_block id) as [b|] eqn:Eb.
    + cbn [ok_or result_bind fmap option_fmap option_map] in *. symmetry in Hblock. unfold info_bits in *.
      destruct (Z.eqb_spec id 0) as [->|_]; [|destruct (Z.eqb_spec id 0xE0) as [->|_]; [|done]];
        injection Hblock as <-; (eexists; split; [reflexivity|]; split; [|done]); cbn;
        destruct (CanObd2VehicleInfoInputs.flash_write_fault info); done.
    + cbn [ok_or result_bind fmap option_fmap option_map] in *. unfold info_bits in *.
      destruct (id =? 0); [done|]. destruct (id =? 0xE0); [done|]. by eexists.
  - assert (forall fault, info_bits id fault = None) as E.
    { intros fault. destruct (info_bits id fault) as [bits|] eqn:Ei; [|done].
      assert (Z.land id 0x1f = 0) as E0 by (apply (info_bits_block id fault); [done|by rewrite Ei]). by rewrite E0 in Hland. }
    rewrite E. by eexists.
Qed.

Lemma vehicle_info_answers id len payload : from_option u8 True id ->
  answers 9 (dispatch_outcome (request 9 id len payload) inputs) (spec_vehicle_info inputs id).
Proof.
  intros Hid. destruct id as [id|]; [|by eexists]. destruct (segmented_id id) eqn:Hs; [|by apply single_info_answers].
  pose proof (segmented_answers id len payload Hs) as Hseg. destruct Htyped as [_ _ _ _ [Hvl Hv] [Hcl Hc]].
  unfold segmented_id in Hs. rewrite !orb_true_iff, !Z.eqb_eq in Hs. destruct Hs as [[[->| ->]| ->]| ->].
  - cbn -[dispatch_outcome take Z.of_nat] in Hseg |- *. specialize (Hseg Hvl (vin_cap _ Hv)). by rewrite vin_prefix in Hseg.
  - cbn -[dispatch_outcome take Z.of_nat] in Hseg |- *. specialize (Hseg Hcl (vin_cap _ Hc)). by rewrite vin_prefix in Hseg.
  - cbn -[dispatch_outcome take Z.of_nat] in Hseg |- *.
    destruct (CanObd2VehicleInfoInputs.identity_key_lifecycle info) as [s|]; [|exact Hseg]. by apply Hseg.
  - cbn -[dispatch_outcome take Z.of_nat] in Hseg |- *.
    destruct (CanObd2VehicleInfoInputs.flash_write_fault info) as [s|]; [|exact Hseg].
    assert ((if CanObd2FlashWriteFaultStatus.present s then 128 else 0) = Z.shiftl (Z.b2z (CanObd2FlashWriteFaultStatus.present s)) 7) as ->
      by (by destruct (CanObd2FlashWriteFaultStatus.present s)).
    by apply Hseg.
Qed.
End services.

(** ** Theorems *)

(** The answer to any request. *)
Lemma dispatch_answers inputs service id len payload : inputs_typed inputs -> from_option u8 True id ->
  answers service (dispatch_outcome (Message.Obd2Request service id len payload) inputs) (spec_answer inputs service id).
Proof.
  intros Hin Hid. unfold spec_answer.
  destruct (Z.eqb_spec service 1) as [->|H1]; [by apply current_data_answers|].
  destruct (Z.eqb_spec service 2) as [->|H2]; [by apply freeze_frame_answers|].
  destruct (Z.eqb_spec service 3) as [->|H3]; [by apply stored_dtcs_answers|].
  destruct (Z.eqb_spec service 4) as [->|H4]; [by apply clear_answers|].
  destruct (Z.eqb_spec service 9) as [->|H9]; [by apply vehicle_info_answers|].
  unfold dispatch_outcome, CanObd2MultiServiceDispatchSurface.dispatch. rewrite !surface_of_request.
  cbn [CanObd2ServiceSurface.service_id CanObd2ServiceSurface.parameter_id]. apply Z.eqb_neq in H1, H2, H3, H4, H9.
  rewrite H9, H1, H2, H3, H4. cbn [andb]. by eexists.
Qed.

(** A request of any service and identifier is answered as the table says: no panic, the
    specified positive or negative frame or the specified value in segments, and otherwise
    the error that names the missing input.  The segments are those of the value in order,
    with their counts, and put together they are the value. *)
Theorem obd2_answers_as_specified inputs service id len payload : inputs_typed inputs -> from_option u8 True id ->
  answers service (dispatch_outcome (Message.Obd2Request service id len payload) inputs) (spec_answer inputs service id).
Proof. apply dispatch_answers. Qed.

(** Bit [id] in the four bytes of the block that starts at [start]. *)
Definition announced_in (bits : list Z) (start id : Z) : bool :=
  Z.testbit (nth (Z.to_nat ((id - start - 1) / 8)) bits 0) (7 - (id - start - 1) mod 8).

(** Whether the answer to a request for the block of [id] announces it. *)
Definition announces inputs (service id : Z) : bool :=
  let start := id - id mod 32 in
  match dispatch_outcome (Message.Obd2Request service (Some start) 0 (replicate 6 0)) inputs with
  | Some (Ok (CanObd2MultiServiceDispatchOutcome.Single s)) =>
    match CanObd2MultiServiceDispatchSurface.verdict s with
    | CanObd2MultiServiceDispatchVerdict.NegativeResponse _ => false
    | _ => announced_in (CanObd2ResponseFrame.payload (CanObd2MultiServiceDispatchSurface.response s)) start id
    end
  | _ => false
  end.

(** Whether a request for [id] is answered, and not in the negative. *)
Definition answered inputs (service id : Z) : bool :=
  match dispatch_outcome (Message.Obd2Request service (Some id) 0 (replicate 6 0)) inputs with
  | Some (Ok (CanObd2MultiServiceDispatchOutcome.Single s)) =>
    match CanObd2MultiServiceDispatchSurface.verdict s with
    | CanObd2MultiServiceDispatchVerdict.NegativeResponse _ => false
    | _ => true
    end
  | Some (Ok (CanObd2MultiServiceDispatchOutcome.SegmentedVehicleInfo _)) => true
  | _ => false
  end.

Definition answer_positive (a : Result Answer.t CanObd2MultiServiceDispatchError.t) : bool :=
  match a with
  | Ok (Answer.Single (CanObd2MultiServiceDispatchVerdict.NegativeResponse _) _) | Err _ => false
  | _ => true
  end.

Lemma answered_as_specified inputs service id a :
  answers service (dispatch_outcome (Message.Obd2Request service (Some id) 0 (replicate 6 0)) inputs) a ->
  answered inputs service id = answer_positive a.
Proof. intros (o & E & <- & _). unfold answered. rewrite E. by destruct o as [[s|g]|e]; cbn; [destruct (CanObd2MultiServiceDispatchSurface.verdict s)|..]. Qed.

Lemma announced_as_specified inputs service id a :
  answers service (dispatch_outcome (Message.Obd2Request service (Some (id - id mod 32)) 0 (replicate 6 0)) inputs) a ->
  announces inputs service id =
  match a with
  | Ok (Answer.Single verdict frame) =>
    answer_positive a && announced_in (CanObd2ResponseFrame.payload frame) (id - id mod 32) id
  | _ => false
  end.
Proof.
  intros (o & E & <- & _). unfold announces. rewrite E.
  by destruct o as [[s|g]|e]; cbn -[announced_in]; [destruct (CanObd2MultiServiceDispatchSurface.verdict s)|..].
Qed.

(** The bits of a block, as a tester reads them. *)
Definition reads (bits : option (list Z)) (start id : Z) : bool :=
  match bits with Some bits => announced_in (padded_to_six bits) start id | None => false end.

Lemma pid_table id : u8 id ->
  id mod 32 <> 0 -> pid_bits id = None /\ (id - id mod 32 =? 1) = false /\ sensor_pid (id - id mod 32) = false
    /\ reads (pid_bits (id - id mod 32)) (id - id mod 32) id = (id =? 1) || sensor_pid id.
Proof.
  apply (every_byte (fun id => id mod 32 <> 0 -> pid_bits id = None /\ (id - id mod 32 =? 1) = false
    /\ sensor_pid (id - id mod 32) = false
    /\ reads (pid_bits (id - id mod 32)) (id - id mod 32) id = (id =? 1) || sensor_pid id)). by lazy.
Qed.

Lemma info_table id : u8 id -> id mod 32 <> 0 ->
  info_bits id true = None /\ info_bits id false = None
  /\ (segmented_id (id - id mod 32) || (id - id mod 32 =? 0x0A)) = false
  /\ reads (info_bits (id - id mod 32) true) (id - id mod 32) id = segmented_id id || (id =? 0x0A)
  /\ reads (info_bits (id - id mod 32) false) (id - id mod 32) id = (segmented_id id && negb (id =? 0xE2)) || (id =? 0x0A).
Proof.
  apply (every_byte (fun id => id mod 32 <> 0 ->
    info_bits id true = None /\ info_bits id false = None
    /\ (segmented_id (id - id mod 32) || (id - id mod 32 =? 0x0A)) = false
    /\ reads (info_bits (id - id mod 32) true) (id - id mod 32) id = segmented_id id || (id =? 0x0A)
    /\ reads (info_bits (id - id mod 32) false) (id - id mod 32) id = (segmented_id id && negb (id =? 0xE2)) || (id =? 0x0A))). by lazy.
Qed.

(** What the controller announces is what it answers: with a sensor source and readiness
    inputs at hand, the bit of a parameter in the answer for its block is set exactly if the
    parameter is answered; so with vehicle information, except that the life cycle of the
    identity key is announced even by a controller that keeps none and refuses it. *)
Theorem announcements_honoured inputs tps iat clt voltage map lambda flags at_us readiness id :
  inputs_typed inputs -> u8 id -> id mod 32 <> 0 ->
  CanObd2MultiServiceDispatchInputs.current_data_value_source inputs
    = Some (Message.SensorData map tps iat clt voltage lambda flags at_us) ->
  CanObd2MultiServiceDispatchInputs.readiness_monitor inputs = Some readiness ->
  announces inputs 1 id = answered inputs 1 id
  /\ announces inputs 9 id = answered inputs 9 id
       || ((id =? 0xE1) && match CanObd2VehicleInfoInputs.identity_key_lifecycle (CanObd2MultiServiceDispatchInputs.vehicle_info inputs) with
                           | None => true | Some _ => false end).
Proof.
  intros Hin Hid Hblock Hsrc Hready.
  assert (u8 (id - id mod 32)) as Hstart by (unfold fits in *; Z.to_euclidean_division_equations; lia).
  split.
  - rewrite (answered_as_specified _ _ _ _ (current_data_answers inputs Hin (Some id) 0 (replicate 6 0) Hid)).
    rewrite (announced_as_specified _ _ _ _ (current_data_answers inputs Hin (Some (id - id mod 32)) 0 (replicate 6 0) Hstart)).
    destruct (pid_table id Hid Hblock) as (E1 & E2 & E3 & E4). unfold spec_current_data. rewrite Hsrc, Hready, E1, E2, E3.
    transitivity ((id =? 1) || sensor_pid id).
    + rewrite <- E4. by destruct (pid_bits (id - id mod 32)).
    + destruct (id =? 1); [done|]. by destruct (sensor_pid id).
  - rewrite (answered_as_specified _ _ _ _ (vehicle_info_answers inputs Hin (Some id) 0 (replicate 6 0) Hid)).
    rewrite (announced_as_specified _ _ _ _ (vehicle_info_answers inputs Hin (Some (id - id mod 32)) 0 (replicate 6 0) Hstart)).
    destruct (info_table id Hid Hblock) as (E1 & E2 & E3 & E4 & E5). unfold spec_vehicle_info.
    unfold segmented_id in E3. rewrite !orb_false_iff in E3. destruct E3 as [[[[S1 S2] S3] S4] S5].
    rewrite S1, S2, S3, S4, S5. unfold segmented_id in E4, E5.
    destruct (CanObd2VehicleInfoInputs.flash_write_fault (CanObd2MultiServiceDispatchInputs.vehicle_info inputs)) as [f|].
    + cbv iota. transitivity (reads (info_bits (id - id mod 32) true) (id - id mod 32) id); [by destruct (info_bits (id - id mod 32) true)|]. rewrite E4, E1.
      destruct (Z.eqb_spec id 2) as [->|_]; [done|]. destruct (Z.eqb_spec id 4) as [->|_]; [done|].
      destruct (Z.eqb_spec id 0xA) as [->|_]; [done|]. destruct (Z.eqb_spec id 0xE1) as [->|_]; [by destruct (CanObd2VehicleInfoInputs.identity_key_lifecycle _)|].
      by destruct (id =? 0xE2).
    + cbv iota. transitivity (reads (info_bits (id - id mod 32) false) (id - id mod 32) id); [by destruct (info_bits (id - id mod 32) false)|]. rewrite E5, E2.
      destruct (Z.eqb_spec id 2) as [->|_]; [done|]. destruct (Z.eqb_spec id 4) as [->|_]; [done|].
      destruct (Z.eqb_spec id 0xA) as [->|_]; [done|]. destruct (Z.eqb_spec id 0xE1) as [->|_]; [by destruct (CanObd2VehicleInfoInputs.identity_key_lifecycle _)|].
      by destruct (id =? 0xE2).
Qed.

(** ** Witnesses *)
Definition sample_inputs : CanObd2MultiServiceDispatchInputs.t :=
  CanObd2MultiServiceDispatchInputs.mk (Some (Message.SensorData 1000 40 60 130 138 100 0 5))
    (Some (CanObd2ReadinessMonitorInputs.mk true 3 true false true true false false)) None None [DiagCode.MapRange] None
    (CanObd2VehicleInfoInputs.mk 6 CanObd2VehicleInfoInputs.PIPOCO 8 (CanObd2VehicleInfoInputs.PIPOCO ++ replicate 11 48)
      17 (CanObd2VehicleInfoInputs.PIPOCO ++ replicate 11 48) None None).

Lemma sample_inputs_typed : inputs_typed sample_inputs.
Proof. split; cbn; [..|intros ? [= <-]| | |]; unfold fits; cbn; repeat split; lia. Qed.

Lemma obd2_answers_as_specified_witness :
  inputs_typed sample_inputs
  /\ exists o, dispatch_outcome (Message.Obd2Request 9 (Some 2) 0 (replicate 6 0)) sample_inputs = Some o
    /\ map_ok answer_of o = Ok (Answer.Segmented 2 [80; 73; 80; 79; 67; 79; 48; 48]).
Proof.
  split; [exact sample_inputs_typed|].
  destruct (obd2_answers_as_specified sample_inputs 9 (Some 2) 0 (replicate 6 0) sample_inputs_typed ltac:(done)) as (o & E & Ha & _).
  exists o. split; [exact E|exact Ha].
Defined.

Lemma announcements_honoured_witness :
  announces sample_inputs 1 0x05 = true /\ answered sample_inputs 1 0x05 = true
  /\ announces sample_inputs 9 0xE1 = true /\ answered sample_inputs 9 0xE1 = false.
Proof.
  pose proof (announcements_honoured sample_inputs 40 60 130 138 1000 100 0 5
    (CanObd2ReadinessMonitorInputs.mk true 3 true false true true false false)) as Hh.
  destruct (Hh 0x05 sample_inputs_typed ltac:(done) ltac:(done) eq_refl eq_refl) as [E1 _].
  destruct (Hh 0xE1 sample_inputs_typed ltac:(done) ltac:(done) eq_refl eq_refl) as [_ E2].
  assert (answered sample_inputs 1 0x05 = true) as A1 by reflexivity.
  assert (answered sample_inputs 9 0xE1 = false) as A2 by reflexivity.
  rewrite E1, E2, A1, A2. done.
Defined.
