(* ===== verification/CanRoster.v ===== *)
(** * The roster of CAN modules (crates/transport/src/can.rs)

    Heartbeats of the modules on the bus, the registry of those that were heard, how old
    their heartbeats are and what may be trusted of them, the log of their changes of state
    and the summaries a reader of the log draws from it.  An array of a constant length is a
    list; an index outside it is a panic, [None] of an outer option. *)
From S2P Require Import Prelude CanTypes CanTransport.

Definition CAN_HEARTBEAT_STARTUP_WINDOW_SECONDS : Z := 5.
Definition CAN_HEARTBEAT_TIMEOUT_MS : Z := 100.
Definition CAN_MODULE_ROSTER_CAPACITY : nat := 16.
Definition CAN_MODULE_ROSTER_CHANGE_SET_CAPACITY : nat := CAN_MODULE_ROSTER_CAPACITY * 2.
Definition CAN_MODULE_ROSTER_EVENT_LOG_CAPACITY : nat := CAN_MODULE_ROSTER_CHANGE_SET_CAPACITY * 2.

(** The loop [while index < len { if let Some(entry) = entries[index] { .. } index += 1 }]:
    the entries it visits. *)
Definition visited {A} (len : nat) (entries : list (option A)) : option (list A) :=
  if (len <=? length entries)%nat then Some (omap (fun e => e) (take len entries)) else None.

(** ** Heartbeats *)
Module CanModuleHeartbeatStatus.
Inductive t := Ok | Warning | Error | Unknown (raw : Z).
Definition from_raw (status : Z) : t :=
  if status =? 0 then Ok else if status =? 1 then Warning else if status =? 2 then Error else Unknown status.
End CanModuleHeartbeatStatus.

Module CanModuleHeartbeatState.
Inductive t := Starting | Alive | Degraded | Unavailable.
#[global] Instance eq_dec : EqDecision t.
Proof. solve_decision. Defined.
End CanModuleHeartbeatState.

Module CanModuleHeartbeatContract.
Record t := mk {
  node_id : Z; uptime_seconds : Z; status : CanModuleHeartbeatStatus.t; error_count : Z; cpu_usage : Z;
  state : CanModuleHeartbeatState.t }.
#[global] Instance eta : Eta t := fun c =>
  mk (node_id c) (uptime_seconds c) (status c) (error_count c) (cpu_usage c) (state c).

Definition from_fields (node_id uptime_seconds status error_count cpu_usage : Z) (stale : bool) : t :=
  let decoded_status := CanModuleHeartbeatStatus.from_raw status in
  let state :=
    if stale then CanModuleHeartbeatState.Unavailable
    else if uptime_seconds <=? CAN_HEARTBEAT_STARTUP_WINDOW_SECONDS then CanModuleHeartbeatState.Starting
    else if match decoded_status with CanModuleHeartbeatStatus.Ok => true | _ => false end && (error_count =? 0)
    then CanModuleHeartbeatState.Alive else CanModuleHeartbeatState.Degraded in
  mk node_id uptime_seconds decoded_status error_count cpu_usage state.

Definition from_message (message : Message.t) (stale : bool) : option t :=
  match message with
  | Message.Heartbeat node_id uptime_seconds status error_count cpu_usage =>
    Some (from_fields node_id uptime_seconds status error_count cpu_usage stale)
  | _ => None
  end.
End CanModuleHeartbeatContract.

Module CanHeartbeatObservationPolicy.
Record t := mk { timeout_ms : Z }.
Definition default : t := mk CAN_HEARTBEAT_TIMEOUT_MS.
Definition is_stale (p : t) (age_ms : option Z) : bool :=
  match age_ms with Some age_ms => timeout_ms p <? age_ms | None => true end.
Definition observe_message (p : t) (message : Message.t) (age_ms : option Z) : option CanModuleHeartbeatContract.t :=
  CanModuleHeartbeatContract.from_message message (is_stale p age_ms).
End CanHeartbeatObservationPolicy.

Module CanModuleAvailabilityTransition.
Inductive t := NoChange (state : CanModuleHeartbeatState.t) | Changed (from to : CanModuleHeartbeatState.t).
Definition between (previous current : CanModuleHeartbeatState.t) : t :=
  if bool_decide (previous = current) then NoChange current else Changed previous current.
Definition current (t : t) : CanModuleHeartbeatState.t := match t with NoChange state => state | Changed _ to => to end.
End CanModuleAvailabilityTransition.

Module CanRemoteModuleFallbackPolicy.
Inductive t := RemoteDataTrusted | HoldLastKnownGood | RequireLocalFallback.
Definition from_state (state : CanModuleHeartbeatState.t) : t :=
  match state with
  | CanModuleHeartbeatState.Alive => RemoteDataTrusted
  | CanModuleHeartbeatState.Starting | CanModuleHeartbeatState.Degraded => HoldLastKnownGood
  | CanModuleHeartbeatState.Unavailable => RequireLocalFallback
  end.
Definition from_contract (c : CanModuleHeartbeatContract.t) : t := from_state (CanModuleHeartbeatContract.state c).
Definition from_transition (x : CanModuleAvailabilityTransition.t) : t := from_state (CanModuleAvailabilityTransition.current x).
End CanRemoteModuleFallbackPolicy.

Module CanModuleRosterEntry.
Record t := mk {
  heartbeat : CanModuleHeartbeatContract.t; availability_transition : CanModuleAvailabilityTransition.t;
  fallback_policy : CanRemoteModuleFallbackPolicy.t }.
Definition from_contract_and_transition (heartbeat : CanModuleHeartbeatContract.t) (x : CanModuleAvailabilityTransition.t) : t :=
  mk heartbeat x (CanRemoteModuleFallbackPolicy.from_transition x).
End CanModuleRosterEntry.

(** ** What an entry of the log means *)
Module CanModuleRosterEventMeaning.
Inductive t :=
| FirstObservation (state : CanModuleHeartbeatState.t)
| RecoveryToAlive (from : CanModuleHeartbeatState.t)
| TransitionToDegraded (from : CanModuleHeartbeatState.t)
| TimedOutToUnavailable
| Other (previous_state current_state : option CanModuleHeartbeatState.t).
End CanModuleRosterEventMeaning.

Module CanModuleRosterEventInterpretation.
Record t := mk { meaning : CanModuleRosterEventMeaning.t; fallback_impact : CanRemoteModuleFallbackPolicy.t }.
End CanModuleRosterEventInterpretation.

Module CanModuleRosterChangeSetEntry.
Record t := mk { node_id : Z; previous_state : option CanModuleHeartbeatState.t; current_state : option CanModuleHeartbeatState.t }.

Definition meaning (e : t) : CanModuleRosterEventMeaning.t :=
  match previous_state e, current_state e with
  | None, Some state => CanModuleRosterEventMeaning.FirstObservation state
  | Some ((CanModuleHeartbeatState.Starting | CanModuleHeartbeatState.Degraded | CanModuleHeartbeatState.Unavailable) as from),
    Some CanModuleHeartbeatState.Alive => CanModuleRosterEventMeaning.RecoveryToAlive from
  | Some from, Some CanModuleHeartbeatState.Degraded => CanModuleRosterEventMeaning.TransitionToDegraded from
  | Some _, Some CanModuleHeartbeatState.Unavailable => CanModuleRosterEventMeaning.TimedOutToUnavailable
  | previous_state, current_state => CanModuleRosterEventMeaning.Other previous_state current_state
  end.

Definition fallback_impact (e : t) : CanRemoteModuleFallbackPolicy.t :=
  match current_state e with
  | Some CanModuleHeartbeatState.Alive => CanRemoteModuleFallbackPolicy.RemoteDataTrusted
  | Some CanModuleHeartbeatState.Starting | Some CanModuleHeartbeatState.Degraded => CanRemoteModuleFallbackPolicy.HoldLastKnownGood
  | Some CanModuleHeartbeatState.Unavailable | None => CanRemoteModuleFallbackPolicy.RequireLocalFallback
  end.

Definition interpretation (e : t) : CanModuleRosterEventInterpretation.t :=
  CanModuleRosterEventInterpretation.mk (meaning e) (fallback_impact e).
End CanModuleRosterChangeSetEntry.

(** ** States of startup and shutdown *)
Module CanModuleRosterStartupReadinessState.
Inductive t := NoRemoteModules | ReadyForTrust | WaitingForStartup | HoldingLastKnownGood | BlockedByUnavailable.
End CanModuleRosterStartupReadinessState.

Module CanModuleRosterStartupReadiness.
Record t := mk {
  state : CanModuleRosterStartupReadinessState.t; total_module_count : nat; ready_for_trust_module_count : nat;
  waiting_on_startup_module_count : nat; degraded_hold_last_known_good_module_count : nat;
  blocked_by_unavailable_module_count : nat }.
End CanModuleRosterStartupReadiness.

Module CanModuleRosterShutdownCoordinationState.
Inductive t := NoRemoteModules | NoShutdownNeeded | CoordinatedShutdownRecommended | LocalTakeoverRequired.
End CanModuleRosterShutdownCoordinationState.

Module CanModuleRosterShutdownCoordination.
Record t := mk {
  state : CanModuleRosterShutdownCoordinationState.t; total_module_count : nat; degraded_module_count : nat;
  unavailable_module_count : nat; require_local_fallback_module_count : nat }.
End CanModuleRosterShutdownCoordination.

Definition shutdown_coordination_from_interpretation (i : CanModuleRosterEventInterpretation.t) :
    CanModuleRosterShutdownCoordinationState.t :=
  match CanModuleRosterEventInterpretation.fallback_impact i with
  | CanRemoteModuleFallbackPolicy.RequireLocalFallback => CanModuleRosterShutdownCoordinationState.LocalTakeoverRequired
  | CanRemoteModuleFallbackPolicy.RemoteDataTrusted | CanRemoteModuleFallbackPolicy.HoldLastKnownGood =>
    match CanModuleRosterEventInterpretation.meaning i with
    | CanModuleRosterEventMeaning.FirstObservation CanModuleHeartbeatState.Degraded
    | CanModuleRosterEventMeaning.TransitionToDegraded _ =>
      CanModuleRosterShutdownCoordinationState.CoordinatedShutdownRecommended
    | _ => CanModuleRosterShutdownCoordinationState.NoShutdownNeeded
    end
  end.

Definition startup_readiness_from_interpretation (i : CanModuleRosterEventInterpretation.t) :
    CanModuleRosterStartupReadinessState.t :=
  match CanModuleRosterEventInterpretation.fallback_impact i with
  | CanRemoteModuleFallbackPolicy.RequireLocalFallback => CanModuleRosterStartupReadinessState.BlockedByUnavailable
  | CanRemoteModuleFallbackPolicy.RemoteDataTrusted => CanModuleRosterStartupReadinessState.ReadyForTrust
  | CanRemoteModuleFallbackPolicy.HoldLastKnownGood =>
    match CanModuleRosterEventInterpretation.meaning i with
    | CanModuleRosterEventMeaning.FirstObservation CanModuleHeartbeatState.Starting =>
      CanModuleRosterStartupReadinessState.WaitingForStartup
    | CanModuleRosterEventMeaning.FirstObservation CanModuleHeartbeatState.Degraded
    | CanModuleRosterEventMeaning.TransitionToDegraded _ => CanModuleRosterStartupReadinessState.HoldingLastKnownGood
    | CanModuleRosterEventMeaning.FirstObservation CanModuleHeartbeatState.Alive
    | CanModuleRosterEventMeaning.RecoveryToAlive _ => CanModuleRosterStartupReadinessState.ReadyForTrust
    | CanModuleRosterEventMeaning.FirstObservation CanModuleHeartbeatState.Unavailable
    | CanModuleRosterEventMeaning.TimedOutToUnavailable => CanModuleRosterStartupReadinessState.BlockedByUnavailable
    | CanModuleRosterEventMeaning.Other _ (Some CanModuleHeartbeatState.Starting) =>
      CanModuleRosterStartupReadinessState.WaitingForStartup
    | CanModuleRosterEventMeaning.Other _ (Some CanModuleHeartbeatState.Degraded) =>
      CanModuleRosterStartupReadinessState.HoldingLastKnownGood
    | CanModuleRosterEventMeaning.Other _ (Some CanModuleHeartbeatState.Alive) =>
      CanModuleRosterStartupReadinessState.ReadyForTrust
    | CanModuleRosterEventMeaning.Other _ (Some CanModuleHeartbeatState.Unavailable | None) =>
      CanModuleRosterStartupReadinessState.BlockedByUnavailable
    end
  end.

(** ** Changes *)
Module CanModuleRosterChangeDigest.
Record t := mk {
  changed_module_count : nat; became_alive_count : nat; became_degraded_count : nat; became_unavailable_count : nat }.
#[global] Instance eta : Eta t := fun d =>
  mk (changed_module_count d) (became_alive_count d) (became_degraded_count d) (became_unavailable_count d).
Definition default : t := mk 0 0 0 0.

Definition observe_transition (previous current : option CanModuleHeartbeatState.t) (d : t) : t :=
  if bool_decide (previous = current) then d
  else
    let d := d <| changed_module_count ::= S |> in
    match current with
    | Some CanModuleHeartbeatState.Alive => d <| became_alive_count ::= S |>
    | Some CanModuleHeartbeatState.Degraded => d <| became_degraded_count ::= S |>
    | Some CanModuleHeartbeatState.Unavailable => d <| became_unavailable_count ::= S |>
    | Some CanModuleHeartbeatState.Starting | None => d
    end.
End CanModuleRosterChangeDigest.

Module CanModuleRosterChangeSet.
Record t := mk { len : nat; entries : list (option CanModuleRosterChangeSetEntry.t) }.
Definition new : t := mk 0 (replicate CAN_MODULE_ROSTER_CHANGE_SET_CAPACITY None).
Definition capacity (_ : t) : nat := CAN_MODULE_ROSTER_CHANGE_SET_CAPACITY.
Definition is_empty (s : t) : bool := (len s =? 0)%nat.
Definition entry (s : t) (index : nat) : option CanModuleRosterChangeSetEntry.t := mjoin (entries s !! index).
Definition get (s : t) (node_id : Z) : option CanModuleRosterChangeSetEntry.t :=
  head (filter (fun e => CanModuleRosterChangeSetEntry.node_id e = node_id) (omap (fun e => e) (entries s))).

Definition digest (s : t) : option CanModuleRosterChangeDigest.t :=
  es ← visited (len s) (entries s);
  Some (fold_left (fun d e => CanModuleRosterChangeDigest.observe_transition (CanModuleRosterChangeSetEntry.previous_state e)
    (CanModuleRosterChangeSetEntry.current_state e) d) es CanModuleRosterChangeDigest.default).

Definition push_change (node_id : Z) (previous_state current_state : option CanModuleHeartbeatState.t) (s : t) : t :=
  if bool_decide (previous_state = current_state) then s
  else if (CAN_MODULE_ROSTER_CHANGE_SET_CAPACITY <=? len s)%nat then s
  else mk (S (len s)) (<[len s := Some (CanModuleRosterChangeSetEntry.mk node_id previous_state current_state)]> (entries s)).
End CanModuleRosterChangeSet.

(** ** Snapshots *)
Module CanModuleRosterSnapshotEntry.
Record t := mk { module : CanModuleRosterEntry.t; heartbeat_age_ms : Z }.
Definition node_id (e : t) : Z := CanModuleHeartbeatContract.node_id (CanModuleRosterEntry.heartbeat (module e)).
Definition state (e : t) : CanModuleHeartbeatState.t := CanModuleHeartbeatContract.state (CanModuleRosterEntry.heartbeat (module e)).
End CanModuleRosterSnapshotEntry.

Module CanModuleRosterSummary.
Record t := mk {
  total_count : nat; alive_count : nat; starting_count : nat; degraded_count : nat; unavailable_count : nat;
  trusted_count : nat; hold_last_known_good_count : nat; require_local_fallback_count : nat }.
#[global] Instance eta : Eta t := fun s =>
  mk (total_count s) (alive_count s) (starting_count s) (degraded_count s) (unavailable_count s) (trusted_count s)
    (hold_last_known_good_count s) (require_local_fallback_count s).
Definition default : t := mk 0 0 0 0 0 0 0 0.

(** The body of the loop of [CanModuleRosterSnapshot::summary]. *)
Definition observe (s : t) (e : CanModuleRosterSnapshotEntry.t) : t :=
  let s := s <| total_count ::= S |> in
  let s :=
    match CanModuleRosterSnapshotEntry.state e with
    | CanModuleHeartbeatState.Alive => s <| alive_count ::= S |>
    | CanModuleHeartbeatState.Starting => s <| starting_count ::= S |>
    | CanModuleHeartbeatState.Degraded => s <| degraded_count ::= S |>
    | CanModuleHeartbeatState.Unavailable => s <| unavailable_count ::= S |>
    end in
  match CanModuleRosterEntry.fallback_policy (CanModuleRosterSnapshotEntry.module e) with
  | CanRemoteModuleFallbackPolicy.RemoteDataTrusted => s <| trusted_count ::= S |>
  | CanRemoteModuleFallbackPolicy.HoldLastKnownGood => s <| hold_last_known_good_count ::= S |>
  | CanRemoteModuleFallbackPolicy.RequireLocalFallback => s <| require_local_fallback_count ::= S |>
  end.

Definition startup_readiness (s : t) : CanModuleRosterStartupReadiness.t :=
  CanModuleRosterStartupReadiness.mk
    (if (total_count s =? 0)%nat then CanModuleRosterStartupReadinessState.NoRemoteModules
     else if (0 <? unavailable_count s)%nat then CanModuleRosterStartupReadinessState.BlockedByUnavailable
     else if (0 <? degraded_count s)%nat then CanModuleRosterStartupReadinessState.HoldingLastKnownGood
     else if (0 <? starting_count s)%nat then CanModuleRosterStartupReadinessState.WaitingForStartup
     else CanModuleRosterStartupReadinessState.ReadyForTrust)
    (total_count s) (trusted_count s) (starting_count s) (degraded_count s) (unavailable_count s).

Definition shutdown_coordination (s : t) : CanModuleRosterShutdownCoordination.t :=
  CanModuleRosterShutdownCoordination.mk
    (if (total_count s =? 0)%nat then CanModuleRosterShutdownCoordinationState.NoRemoteModules
     else if (0 <? unavailable_count s)%nat || (0 <? require_local_fallback_count s)%nat then
       CanModuleRosterShutdownCoordinationState.LocalTakeoverRequired
     else if (0 <? degraded_count s)%nat then CanModuleRosterShutdownCoordinationState.CoordinatedShutdownRecommended
     else CanModuleRosterShutdownCoordinationState.NoShutdownNeeded)
    (total_count s) (degraded_count s) (unavailable_count s) (require_local_fallback_count s).
End CanModuleRosterSummary.

Module CanModuleRosterSnapshot.
Record t := mk { len : nat; entries : list (option CanModuleRosterSnapshotEntry.t) }.
Definition new : t := mk 0 (replicate CAN_MODULE_ROSTER_CAPACITY None).
Definition capacity (_ : t) : nat := CAN_MODULE_ROSTER_CAPACITY.
Definition is_empty (s : t) : bool := (len s =? 0)%nat.
Definition entry (s : t) (index : nat) : option CanModuleRosterSnapshotEntry.t := mjoin (entries s !! index).
Definition get (s : t) (node_id : Z) : option CanModuleRosterSnapshotEntry.t :=
  head (filter (fun e => CanModuleRosterSnapshotEntry.node_id e = node_id) (omap (fun e => e) (entries s))).

Definition summary (s : t) : option CanModuleRosterSummary.t :=
  es ← visited (len s) (entries s);
  Some (fold_left CanModuleRosterSummary.observe es CanModuleRosterSummary.default).
Definition startup_readiness (s : t) : option CanModuleRosterStartupReadiness.t :=
  CanModuleRosterSummary.startup_readiness <$> summary s.
Definition shutdown_coordination (s : t) : option CanModuleRosterShutdownCoordination.t :=
  CanModuleRosterSummary.shutdown_coordination <$> summary s.

(** The first loop notes the nodes it has seen, the second passes over them; the array of
    the nodes is as long as the entries, so the index into it is in range. *)
Definition change_set_since (s previous : t) : option CanModuleRosterChangeSet.t :=
  current ← visited (len s) (entries s);
  let set := fold_left (fun set e =>
    CanModuleRosterChangeSet.push_change (CanModuleRosterSnapshotEntry.node_id e)
      (CanModuleRosterSnapshotEntry.state <$> get previous (CanModuleRosterSnapshotEntry.node_id e))
      (Some (CanModuleRosterSnapshotEntry.state e)) set) current CanModuleRosterChangeSet.new in
  let processed := CanModuleRosterSnapshotEntry.node_id <$> current in
  olds ← visited (len previous) (entries previous);
  Some (fold_left (fun set old =>
    if bool_decide (CanModuleRosterSnapshotEntry.node_id old ∈ processed) then set
    else CanModuleRosterChangeSet.push_change (CanModuleRosterSnapshotEntry.node_id old)
      (Some (CanModuleRosterSnapshotEntry.state old)) None set) olds set).

Definition change_digest_since (s previous : t) : option CanModuleRosterChangeDigest.t :=
  set ← change_set_since s previous; CanModuleRosterChangeSet.digest set.
End CanModuleRosterSnapshot.

(** ** What a reader of the log has not seen *)
Module CanModuleRosterEventDeltaSummary.
Record t := mk {
  retained_unread_event_count : nat; dropped_unread_event_count : Z; first_observation_count : nat;
  recovery_to_alive_count : nat; transition_to_degraded_count : nat; timed_out_to_unavailable_count : nat;
  trust_impact_count : nat; hold_last_known_good_impact_count : nat; require_local_fallback_impact_count : nat }.
#[global] Instance eta : Eta t := fun s =>
  mk (retained_unread_event_count s) (dropped_unread_event_count s) (first_observation_count s) (recovery_to_alive_count s)
    (transition_to_degraded_count s) (timed_out_to_unavailable_count s) (trust_impact_count s)
    (hold_last_known_good_impact_count s) (require_local_fallback_impact_count s).
Definition default : t := mk 0 0 0 0 0 0 0 0 0.

Definition observe_interpretation (i : CanModuleRosterEventInterpretation.t) (s : t) : t :=
  let s :=
    match CanModuleRosterEventInterpretation.meaning i with
    | CanModuleRosterEventMeaning.FirstObservation _ => s <| first_observation_count ::= S |>
    | CanModuleRosterEventMeaning.RecoveryToAlive _ => s <| recovery_to_alive_count ::= S |>
    | CanModuleRosterEventMeaning.TransitionToDegraded _ => s <| transition_to_degraded_count ::= S |>
    | CanModuleRosterEventMeaning.TimedOutToUnavailable => s <| timed_out_to_unavailable_count ::= S |>
    | CanModuleRosterEventMeaning.Other _ _ => s
    end in
  match CanModuleRosterEventInterpretation.fallback_impact i with
  | CanRemoteModuleFallbackPolicy.RemoteDataTrusted => s <| trust_impact_count ::= S |>
  | CanRemoteModuleFallbackPolicy.HoldLastKnownGood => s <| hold_last_known_good_impact_count ::= S |>
  | CanRemoteModuleFallbackPolicy.RequireLocalFallback => s <| require_local_fallback_impact_count ::= S |>
  end.
End CanModuleRosterEventDeltaSummary.

Module CanModuleRosterLatestUnreadSummary.
Record t := mk {
  latest_unread_node_count : nat; first_observation_count : nat; recovery_to_alive_count : nat;
  transition_to_degraded_count : nat; timed_out_to_unavailable_count : nat; trust_impact_count : nat;
  hold_last_known_good_impact_count : nat; require_local_fallback_impact_count : nat }.
#[global] Instance eta : Eta t := fun s =>
  mk (latest_unread_node_count s) (first_observation_count s) (recovery_to_alive_count s)
    (transition_to_degraded_count s) (timed_out_to_unavailable_count s) (trust_impact_count s)
    (hold_last_known_good_impact_count s) (require_local_fallback_impact_count s).
Definition default : t := mk 0 0 0 0 0 0 0 0.

Definition observe_interpretation (i : CanModuleRosterEventInterpretation.t) (s : t) : t :=
  let s := s <| latest_unread_node_count ::= S |> in
  let s :=
    match CanModuleRosterEventInterpretation.meaning i with
    | CanModuleRosterEventMeaning.FirstObservation _ => s <| first_observation_count ::= S |>
    | CanModuleRosterEventMeaning.RecoveryToAlive _ => s <| recovery_to_alive_count ::= S |>
    | CanModuleRosterEventMeaning.TransitionToDegraded _ => s <| transition_to_degraded_count ::= S |>
    | CanModuleRosterEventMeaning.TimedOutToUnavailable => s <| timed_out_to_unavailable_count ::= S |>
    | CanModuleRosterEventMeaning.Other _ _ => s
    end in
  match CanModuleRosterEventInterpretation.fallback_impact i with
  | CanRemoteModuleFallbackPolicy.RemoteDataTrusted => s <| trust_impact_count ::= S |>
  | CanRemoteModuleFallbackPolicy.HoldLastKnownGood => s <| hold_last_known_good_impact_count ::= S |>
  | CanRemoteModuleFallbackPolicy.RequireLocalFallback => s <| require_local_fallback_impact_count ::= S |>
  end.
End CanModuleRosterLatestUnreadSummary.

Module CanModuleRosterLatestUnreadShutdownImpactSummary.
Record t := mk {
  latest_unread_node_count : nat; no_shutdown_needed_count : nat; coordinated_shutdown_recommended_count : nat;
  local_takeover_required_count : nat }.
#[global] Instance eta : Eta t := fun s =>
  mk (latest_unread_node_count s) (no_shutdown_needed_count s) (coordinated_shutdown_recommended_count s)
    (local_takeover_required_count s).
Definition default : t := mk 0 0 0 0.
Definition observe_interpretation (i : CanModuleRosterEventInterpretation.t) (s : t) : t :=
  let s := s <| latest_unread_node_count ::= S |> in
  match shutdown_coordination_from_interpretation i with
  | CanModuleRosterShutdownCoordinationState.NoRemoteModules => s
  | CanModuleRosterShutdownCoordinationState.NoShutdownNeeded => s <| no_shutdown_needed_count ::= S |>
  | CanModuleRosterShutdownCoordinationState.CoordinatedShutdownRecommended => s <| coordinated_shutdown_recommended_count ::= S |>
  | CanModuleRosterShutdownCoordinationState.LocalTakeoverRequired => s <| local_takeover_required_count ::= S |>
  end.
End CanModuleRosterLatestUnreadShutdownImpactSummary.

Module CanModuleRosterLatestUnreadStartupReadinessSummary.
Record t := mk {
  latest_unread_node_count : nat; ready_for_trust_count : nat; waiting_on_startup_count : nat;
  holding_last_known_good_count : nat; blocked_by_unavailable_count : nat }.
#[global] Instance eta : Eta t := fun s =>
  mk (latest_unread_node_count s) (ready_for_trust_count s) (waiting_on_startup_count s)
    (holding_last_known_good_count s) (blocked_by_unavailable_count s).
Definition default : t := mk 0 0 0 0 0.
Definition observe_interpretation (i : CanModuleRosterEventInterpretation.t) (s : t) : t :=
  let s := s <| latest_unread_node_count ::= S |> in
  match startup_readiness_from_interpretation i with
  | CanModuleRosterStartupReadinessState.NoRemoteModules => s
  | CanModuleRosterStartupReadinessState.ReadyForTrust => s <| ready_for_trust_count ::= S |>
  | CanModuleRosterStartupReadinessState.WaitingForStartup => s <| waiting_on_startup_count ::= S |>
  | CanModuleRosterStartupReadinessState.HoldingLastKnownGood => s <| holding_last_known_good_count ::= S |>
  | CanModuleRosterStartupReadinessState.BlockedByUnavailable => s <| blocked_by_unavailable_count ::= S |>
  end.
End CanModuleRosterLatestUnreadStartupReadinessSummary.

Module CanModuleRosterLatestUnreadEventEntry.
Record t := mk { node_id : Z; interpretation : CanModuleRosterEventInterpretation.t }.
End CanModuleRosterLatestUnreadEventEntry.

Module CanModuleRosterLatestUnreadEventSet.
Record t := mk { len : nat; entries : list (option CanModuleRosterLatestUnreadEventEntry.t) }.
Definition new : t := mk 0 (replicate CAN_MODULE_ROSTER_CAPACITY None).
Definition capacity (_ : t) : nat := CAN_MODULE_ROSTER_CAPACITY.
Definition is_empty (s : t) : bool := (len s =? 0)%nat.
Definition entry (s : t) (index : nat) : option CanModuleRosterLatestUnreadEventEntry.t := mjoin (entries s !! index).
Definition get (s : t) (node_id : Z) : option CanModuleRosterLatestUnreadEventEntry.t :=
  head (filter (fun e => CanModuleRosterLatestUnreadEventEntry.node_id e = node_id) (omap (fun e => e) (entries s))).

(** The loop of the three summaries. *)
Definition fold {S} (observe : CanModuleRosterEventInterpretation.t -> S -> S) (default : S) (s : t) : option S :=
  es ← visited (len s) (entries s);
  Some (fold_left (fun acc e => observe (CanModuleRosterLatestUnreadEventEntry.interpretation e) acc) es default).
Definition summary (s : t) : option CanModuleRosterLatestUnreadSummary.t :=
  fold CanModuleRosterLatestUnreadSummary.observe_interpretation CanModuleRosterLatestUnreadSummary.default s.
Definition shutdown_impact_summary (s : t) : option CanModuleRosterLatestUnreadShutdownImpactSummary.t :=
  fold CanModuleRosterLatestUnreadShutdownImpactSummary.observe_interpretation
    CanModuleRosterLatestUnreadShutdownImpactSummary.default s.
Definition startup_readiness_summary (s : t) : option CanModuleRosterLatestUnreadStartupReadinessSummary.t :=
  fold CanModuleRosterLatestUnreadStartupReadinessSummary.observe_interpretation
    CanModuleRosterLatestUnreadStartupReadinessSummary.default s.

(** The body of the loop of [latest_per_node]: the entry of a node is replaced or appended. *)
Definition note (e : CanModuleRosterChangeSetEntry.t) (s : t) : t :=
  let latest := CanModuleRosterLatestUnreadEventEntry.mk (CanModuleRosterChangeSetEntry.node_id e)
    (CanModuleRosterChangeSetEntry.interpretation e) in
  match position (fun slot =>
      match slot with
      | Some existing => CanModuleRosterLatestUnreadEventEntry.node_id existing =? CanModuleRosterChangeSetEntry.node_id e
      | None => false
      end) (take (len s) (entries s)) with
  | Some existing_index => mk (len s) (<[existing_index := Some latest]> (entries s))
  | None =>
    if (len s <? CAN_MODULE_ROSTER_CAPACITY)%nat then mk (S (len s)) (<[len s := Some latest]> (entries s)) else s
  end.
End CanModuleRosterLatestUnreadEventSet.

(** ** The log *)
Module CanModuleRosterEventLogWatermark.
Record t := mk { retained_event_count : nat; dropped_event_count : Z; total_written_event_count : Z }.
Definition default : t := mk 0 0 0.
End CanModuleRosterEventLogWatermark.

Module CanModuleRosterEventLogDelta.
Record t := mk {
  previous_watermark : CanModuleRosterEventLogWatermark.t; current_watermark : CanModuleRosterEventLogWatermark.t;
  retained_new_event_count : nat; dropped_unread_event_count : Z; entries : list (option CanModuleRosterChangeSetEntry.t) }.

Definition summary (d : t) : option CanModuleRosterEventDeltaSummary.t :=
  es ← visited (retained_new_event_count d) (entries d);
  Some (fold_left (fun s e => CanModuleRosterEventDeltaSummary.observe_interpretation (CanModuleRosterChangeSetEntry.interpretation e) s) es
    (CanModuleRosterEventDeltaSummary.default
      <| CanModuleRosterEventDeltaSummary.retained_unread_event_count := retained_new_event_count d |>
      <| CanModuleRosterEventDeltaSummary.dropped_unread_event_count := dropped_unread_event_count d |>)).

Definition latest_per_node (d : t) : option CanModuleRosterLatestUnreadEventSet.t :=
  es ← visited (retained_new_event_count d) (entries d);
  Some (fold_left (fun s e => CanModuleRosterLatestUnreadEventSet.note e s) es CanModuleRosterLatestUnreadEventSet.new).

Definition latest_unread_summary (d : t) : option CanModuleRosterLatestUnreadSummary.t :=
  s ← latest_per_node d; CanModuleRosterLatestUnreadEventSet.summary s.
Definition latest_unread_shutdown_impact_summary (d : t) : option CanModuleRosterLatestUnreadShutdownImpactSummary.t :=
  s ← latest_per_node d; CanModuleRosterLatestUnreadEventSet.shutdown_impact_summary s.
Definition latest_unread_startup_readiness_summary (d : t) : option CanModuleRosterLatestUnreadStartupReadinessSummary.t :=
  s ← latest_per_node d; CanModuleRosterLatestUnreadEventSet.startup_readiness_summary s.
End CanModuleRosterEventLogDelta.

Module CanModuleRosterEventLog.
Record t := mk { len : nat; dropped_count : Z; entries : list (option CanModuleRosterChangeSetEntry.t) }.
#[global] Instance eta : Eta t := fun l => mk (len l) (dropped_count l) (entries l).
Definition new : t := mk 0 0 (replicate CAN_MODULE_ROSTER_EVENT_LOG_CAPACITY None).
Definition capacity (_ : t) : nat := CAN_MODULE_ROSTER_EVENT_LOG_CAPACITY.
Definition is_empty (l : t) : bool := (len l =? 0)%nat.
Definition entry (l : t) (index : nat) : option CanModuleRosterChangeSetEntry.t := mjoin (entries l !! index).
Definition entry_meaning (l : t) (index : nat) : option CanModuleRosterEventMeaning.t :=
  CanModuleRosterChangeSetEntry.meaning <$> entry l index.
Definition entry_interpretation (l : t) (index : nat) : option CanModuleRosterEventInterpretation.t :=
  CanModuleRosterChangeSetEntry.interpretation <$> entry l index.

Definition watermark (l : t) : CanModuleRosterEventLogWatermark.t :=
  CanModuleRosterEventLogWatermark.mk (len l) (dropped_count l) (saturating_add 32 (dropped_count l) (as_unsigned 32 (Z.of_nat (len l)))).

(** The loop that copies the entries from [source] on to the start of [target]. *)
Definition copy_tail (l : t) (source : nat) : option (list (option CanModuleRosterChangeSetEntry.t)) :=
  let count := (len l - source)%nat in
  if (source <? len l)%nat && ((length (entries l) <? len l)%nat || (CAN_MODULE_ROSTER_EVENT_LOG_CAPACITY <? count)%nat) then None
  else Some (take count (drop source (entries l)) ++ replicate (CAN_MODULE_ROSTER_EVENT_LOG_CAPACITY - count) None).

Definition delta_since (l : t) (previous : CanModuleRosterEventLogWatermark.t) : option CanModuleRosterEventLogDelta.t :=
  let current := watermark l in
  let total := CanModuleRosterEventLogWatermark.total_written_event_count in
  let len32 := as_unsigned 32 (Z.of_nat (len l)) in
  let new_event_count := saturating_sub (total current) (total previous) in
  let earliest_retained_total := saturating_sub (total current) len32 in
  let retained_start_total := Z.max (total previous) earliest_retained_total in
  let retained := Z.to_nat (Z.min (saturating_sub (total current) retained_start_total) len32) in
  let dropped := saturating_sub new_event_count (as_unsigned 32 (Z.of_nat retained)) in
  entries ← copy_tail l (len l - retained);
  Some (CanModuleRosterEventLogDelta.mk previous current retained dropped entries).

Definition delta_summary_since (l : t) (previous : CanModuleRosterEventLogWatermark.t) : option CanModuleRosterEventDeltaSummary.t :=
  d ← delta_since l previous; CanModuleRosterEventLogDelta.summary d.
Definition delta_latest_per_node_since (l : t) (previous : CanModuleRosterEventLogWatermark.t) :
    option CanModuleRosterLatestUnreadEventSet.t :=
  d ← delta_since l previous; CanModuleRosterEventLogDelta.latest_per_node d.
Definition delta_latest_unread_summary_since (l : t) (previous : CanModuleRosterEventLogWatermark.t) :
    option CanModuleRosterLatestUnreadSummary.t :=
  d ← delta_since l previous; CanModuleRosterEventLogDelta.latest_unread_summary d.
Definition delta_latest_unread_shutdown_impact_summary_since (l : t) (previous : CanModuleRosterEventLogWatermark.t) :
    option CanModuleRosterLatestUnreadShutdownImpactSummary.t :=
  d ← delta_since l previous; CanModuleRosterEventLogDelta.latest_unread_shutdown_impact_summary d.
Definition delta_latest_unread_startup_readiness_summary_since (l : t) (previous : CanModuleRosterEventLogWatermark.t) :
    option CanModuleRosterLatestUnreadStartupReadinessSummary.t :=
  d ← delta_since l previous; CanModuleRosterEventLogDelta.latest_unread_startup_readiness_summary d.

(** The loop that moves every entry one place to the front. *)
Definition shift_down (entries : list (option CanModuleRosterChangeSetEntry.t)) : list (option CanModuleRosterChangeSetEntry.t) :=
  fold_left (fun es index => match es !! index with Some e => <[(index - 1)%nat := e]> es | None => es end)
    (seq 1 (CAN_MODULE_ROSTER_EVENT_LOG_CAPACITY - 1)) entries.

Definition push_change (node_id : Z) (previous_state current_state : option CanModuleHeartbeatState.t) (l : t) : t :=
  if bool_decide (previous_state = current_state) then l
  else
    let e := CanModuleRosterChangeSetEntry.mk node_id previous_state current_state in
    if (len l <? CAN_MODULE_ROSTER_EVENT_LOG_CAPACITY)%nat then
      l <| entries ::= fun es => <[len l := Some e]> es |> <| len ::= S |>
    else
      l <| entries ::= fun es => <[(CAN_MODULE_ROSTER_EVENT_LOG_CAPACITY - 1)%nat := Some e]> (shift_down es) |>
        <| dropped_count ::= fun n => saturating_add 32 n 1 |>.
End CanModuleRosterEventLog.

(** ** The registry *)
Module CanModuleRosterUpdate.
Inductive t := Inserted (entry : CanModuleRosterEntry.t) | Updated (entry : CanModuleRosterEntry.t) | RejectedCapacity (node_id : Z).
Definition entry (u : t) : option CanModuleRosterEntry.t :=
  match u with Inserted entry | Updated entry => Some entry | RejectedCapacity _ => None end.
End CanModuleRosterUpdate.

Module CanModuleRosterSweepSummary.
Record t := mk { stale_count : nat; transitioned_count : nat }.
#[global] Instance eta : Eta t := fun s => mk (stale_count s) (transitioned_count s).
Definition default : t := mk 0 0.
End CanModuleRosterSweepSummary.

Definition observed_age_ms (policy : CanHeartbeatObservationPolicy.t) (age_ms : option Z) : Z :=
  match age_ms with
  | Some age_ms => age_ms
  | None => saturating_add 32 (CanHeartbeatObservationPolicy.timeout_ms policy) 1
  end.

Module CanModuleRosterRegistry.
Record t := mk {
  slots : list (option CanModuleRosterEntry.t); heartbeat_age_ms : list Z; event_log_ : CanModuleRosterEventLog.t; len : nat }.
#[global] Instance eta : Eta t := fun r => mk (slots r) (heartbeat_age_ms r) (event_log_ r) (len r).

Definition new : t :=
  mk (replicate CAN_MODULE_ROSTER_CAPACITY None) (replicate CAN_MODULE_ROSTER_CAPACITY 0) CanModuleRosterEventLog.new 0.
Definition capacity (_ : t) : nat := CAN_MODULE_ROSTER_CAPACITY.
Definition is_empty (r : t) : bool := (len r =? 0)%nat.
Definition event_log (r : t) : CanModuleRosterEventLog.t := event_log_ r.
Definition event_log_watermark (r : t) : CanModuleRosterEventLogWatermark.t := CanModuleRosterEventLog.watermark (event_log_ r).
Definition event_log_delta_since (r : t) (w : CanModuleRosterEventLogWatermark.t) : option CanModuleRosterEventLogDelta.t :=
  CanModuleRosterEventLog.delta_since (event_log_ r) w.
Definition event_log_delta_summary_since (r : t) (w : CanModuleRosterEventLogWatermark.t) : option CanModuleRosterEventDeltaSummary.t :=
  CanModuleRosterEventLog.delta_summary_since (event_log_ r) w.
Definition event_log_delta_latest_per_node_since (r : t) (w : CanModuleRosterEventLogWatermark.t) :
    option CanModuleRosterLatestUnreadEventSet.t := CanModuleRosterEventLog.delta_latest_per_node_since (event_log_ r) w.
Definition event_log_delta_latest_unread_summary_since (r : t) (w : CanModuleRosterEventLogWatermark.t) :
    option CanModuleRosterLatestUnreadSummary.t := CanModuleRosterEventLog.delta_latest_unread_summary_since (event_log_ r) w.
Definition event_log_delta_latest_unread_shutdown_impact_summary_since (r : t) (w : CanModuleRosterEventLogWatermark.t) :
    option CanModuleRosterLatestUnreadShutdownImpactSummary.t :=
  CanModuleRosterEventLog.delta_latest_unread_shutdown_impact_summary_since (event_log_ r) w.
Definition event_log_delta_latest_unread_startup_readiness_summary_since (r : t) (w : CanModuleRosterEventLogWatermark.t) :
    option CanModuleRosterLatestUnreadStartupReadinessSummary.t :=
  CanModuleRosterEventLog.delta_latest_unread_startup_readiness_summary_since (event_log_ r) w.

Definition find_slot_index (r : t) (node_id : Z) : option nat :=
  position (fun slot =>
    match slot with
    | Some entry => CanModuleHeartbeatContract.node_id (CanModuleRosterEntry.heartbeat entry) =? node_id
    | None => false
    end) (slots r).
Definition first_empty_slot_index (r : t) : option nat :=
  position (fun slot => match slot with None => true | Some _ => false end) (slots r).

(** The loop of [snapshot]: the entries of the occupied slots with their ages. *)
Fixpoint snapshot_entries (slots : list (option CanModuleRosterEntry.t)) (ages : list Z) : list CanModuleRosterSnapshotEntry.t :=
  match slots, ages with
  | Some module :: slots, age :: ages => CanModuleRosterSnapshotEntry.mk module age :: snapshot_entries slots ages
  | None :: slots, _ :: ages => snapshot_entries slots ages
  | _, _ => []
  end.

Definition snapshot (r : t) : CanModuleRosterSnapshot.t :=
  let es := snapshot_entries (slots r) (heartbeat_age_ms r) in
  CanModuleRosterSnapshot.mk (length es) ((Some <$> es) ++ replicate (CAN_MODULE_ROSTER_CAPACITY - length es) None).

Definition summary (r : t) : option CanModuleRosterSummary.t := CanModuleRosterSnapshot.summary (snapshot r).
Definition startup_readiness (r : t) : option CanModuleRosterStartupReadiness.t := CanModuleRosterSummary.startup_readiness <$> summary r.
Definition shutdown_coordination (r : t) : option CanModuleRosterShutdownCoordination.t :=
  CanModuleRosterSummary.shutdown_coordination <$> summary r.
Definition change_set_since (r : t) (previous : CanModuleRosterSnapshot.t) : option CanModuleRosterChangeSet.t :=
  CanModuleRosterSnapshot.change_set_since (snapshot r) previous.
Definition change_digest_since (r : t) (previous : CanModuleRosterSnapshot.t) : option CanModuleRosterChangeDigest.t :=
  set ← change_set_since r previous; CanModuleRosterChangeSet.digest set.

Definition get (r : t) (node_id : Z) : option CanModuleRosterEntry.t :=
  slot_index ← find_slot_index r node_id; mjoin (slots r !! slot_index).

(** [None] is the panic of an [expect] of a slot that [find_slot_index] found. *)
Definition observe_contract_with_age_ms (heartbeat : CanModuleHeartbeatContract.t) (age_ms : Z) (r : t) :
    option (t * CanModuleRosterUpdate.t) :=
  let node_id := CanModuleHeartbeatContract.node_id heartbeat in
  let state := CanModuleHeartbeatContract.state heartbeat in
  let store slot_index entry (r : t) :=
    r <| slots ::= fun s => <[slot_index := Some entry]> s |> <| heartbeat_age_ms ::= fun a => <[slot_index := age_ms]> a |> in
  match find_slot_index r node_id with
  | Some slot_index =>
    previous ← mjoin (slots r !! slot_index);
    let previous_state := CanModuleHeartbeatContract.state (CanModuleRosterEntry.heartbeat previous) in
    let r := r <| event_log_ ::= CanModuleRosterEventLog.push_change node_id (Some previous_state) (Some state) |> in
    let entry := CanModuleRosterEntry.from_contract_and_transition heartbeat
      (CanModuleAvailabilityTransition.between previous_state state) in
    Some (store slot_index entry r, CanModuleRosterUpdate.Updated entry)
  | None =>
    match first_empty_slot_index r with
    | Some slot_index =>
      let r := r <| event_log_ ::= CanModuleRosterEventLog.push_change node_id None (Some state) |> in
      let entry := CanModuleRosterEntry.from_contract_and_transition heartbeat (CanModuleAvailabilityTransition.NoChange state) in
      Some ((store slot_index entry r) <| len ::= S |>, CanModuleRosterUpdate.Inserted entry)
    | None => Some (r, CanModuleRosterUpdate.RejectedCapacity node_id)
    end
  end.

Definition observe_contract (heartbeat : CanModuleHeartbeatContract.t) (r : t) : option (t * CanModuleRosterUpdate.t) :=
  observe_contract_with_age_ms heartbeat 0 r.

Definition observe_message (policy : CanHeartbeatObservationPolicy.t) (message : Message.t) (age_ms : option Z) (r : t) :
    option (t * option CanModuleRosterUpdate.t) :=
  match CanHeartbeatObservationPolicy.observe_message policy message age_ms with
  | Some heartbeat =>
    '(r, update) ← observe_contract_with_age_ms heartbeat (observed_age_ms policy age_ms) r;
    Some (r, Some update)
  | None => Some (r, None)
  end.

(** The body of the loop of [sweep_stale] at a slot. *)
Definition sweep_slot (policy : CanHeartbeatObservationPolicy.t) (elapsed_ms : Z) (slot_index : nat)
    (acc : t * CanModuleRosterSweepSummary.t) : option (t * CanModuleRosterSweepSummary.t) :=
  let '(r, summary) := acc in
  slot ← slots r !! slot_index;
  match slot with
  | None => Some (r, summary)
  | Some entry =>
    age ← heartbeat_age_ms r !! slot_index;
    let next_age_ms := saturating_add 32 age elapsed_ms in
    let r := r <| heartbeat_age_ms ::= fun a => <[slot_index := next_age_ms]> a |> in
    if CanHeartbeatObservationPolicy.is_stale policy (Some next_age_ms) then
      let summary := summary <| CanModuleRosterSweepSummary.stale_count ::= S |> in
      let heartbeat := CanModuleRosterEntry.heartbeat entry in
      let state := CanModuleHeartbeatContract.state heartbeat in
      if negb (bool_decide (state = CanModuleHeartbeatState.Unavailable)) then
        let r := r <| event_log_ ::= CanModuleRosterEventLog.push_change (CanModuleHeartbeatContract.node_id heartbeat)
          (Some state) (Some CanModuleHeartbeatState.Unavailable) |> in
        let updated := CanModuleRosterEntry.from_contract_and_transition
          (heartbeat <| CanModuleHeartbeatContract.state := CanModuleHeartbeatState.Unavailable |>)
          (CanModuleAvailabilityTransition.between state CanModuleHeartbeatState.Unavailable) in
        Some (r <| slots ::= fun s => <[slot_index := Some updated]> s |>,
          summary <| CanModuleRosterSweepSummary.transitioned_count ::= S |>)
      else
        match CanModuleRosterEntry.availability_transition entry with
        | CanModuleAvailabilityTransition.NoChange CanModuleHeartbeatState.Unavailable => Some (r, summary)
        | _ =>
          Some (r <| slots ::= fun s => <[slot_index := Some (CanModuleRosterEntry.from_contract_and_transition heartbeat
            (CanModuleAvailabilityTransition.NoChange CanModuleHeartbeatState.Unavailable))]> s |>, summary)
        end
    else Some (r, summary)
  end.

(** The slots are visited in order. *)
Fixpoint sweep_from (policy : CanHeartbeatObservationPolicy.t) (elapsed_ms : Z) (indices : list nat)
    (acc : t * CanModuleRosterSweepSummary.t) : option (t * CanModuleRosterSweepSummary.t) :=
  match indices with
  | [] => Some acc
  | i :: indices => acc ← sweep_slot policy elapsed_ms i acc; sweep_from policy elapsed_ms indices acc
  end.

Definition sweep_stale (policy : CanHeartbeatObservationPolicy.t) (elapsed_ms : Z) (r : t) :
    option (t * CanModuleRosterSweepSummary.t) :=
  sweep_from policy elapsed_ms (seq 0 CAN_MODULE_ROSTER_CAPACITY) (r, CanModuleRosterSweepSummary.default).
End CanModuleRosterRegistry.
