(* ===== verification/CanRosterRun.v ===== *)
(** * The roster over time

    The registry of CanRoster.v against a list of modules and the history of their changes:
    refinement along every sequence of observations and sweeps, what a reader of the log is
    shown, and what may be trusted. *)
From S2P Require Import Prelude CanTypes CanTransport CanReassembly CanRoster.
Open Scope Z_scope.

Abbreviation CAP := CAN_MODULE_ROSTER_CAPACITY.
Abbreviation LOG := CAN_MODULE_ROSTER_EVENT_LOG_CAPACITY.
Abbreviation Change := CanModuleRosterChangeSetEntry.t.

(** ** The specification *)
Module Roster.
(** The modules in the order of their first heartbeats, each with the age of its last one,
    and every change of state there has been. *)
Record t := mk { modules : list (CanModuleRosterEntry.t * Z); history : list Change }.
End Roster.

Definition node_of (m : CanModuleRosterEntry.t * Z) : Z :=
  CanModuleHeartbeatContract.node_id (CanModuleRosterEntry.heartbeat (fst m)).
Definition state_of (m : CanModuleRosterEntry.t * Z) : CanModuleHeartbeatState.t :=
  CanModuleHeartbeatContract.state (CanModuleRosterEntry.heartbeat (fst m)).
Definition of_node (node : Z) (m : CanModuleRosterEntry.t * Z) : bool := node_of m =? node.

Definition change (node : Z) (previous current : option CanModuleHeartbeatState.t) : list Change :=
  if bool_decide (previous = current) then [] else [CanModuleRosterChangeSetEntry.mk node previous current].

Definition spec_observe (heartbeat : CanModuleHeartbeatContract.t) (age : Z) (s : Roster.t) : Roster.t * CanModuleRosterUpdate.t :=
  let node := CanModuleHeartbeatContract.node_id heartbeat in
  let state := CanModuleHeartbeatContract.state heartbeat in
  let ms := Roster.modules s in
  match position (of_node node) ms with
  | Some i =>
    let previous := from_option state_of state (ms !! i) in
    let entry := CanModuleRosterEntry.from_contract_and_transition heartbeat (CanModuleAvailabilityTransition.between previous state) in
    (Roster.mk (<[i := (entry, age)]> ms) (Roster.history s ++ change node (Some previous) (Some state)),
     CanModuleRosterUpdate.Updated entry)
  | None =>
    if (length ms <? CAP)%nat then
      let entry := CanModuleRosterEntry.from_contract_and_transition heartbeat (CanModuleAvailabilityTransition.NoChange state) in
      (Roster.mk (ms ++ [(entry, age)]) (Roster.history s ++ change node None (Some state)), CanModuleRosterUpdate.Inserted entry)
    else (s, CanModuleRosterUpdate.RejectedCapacity node)
  end.

(** A module a moment later. *)
Definition swept (policy : CanHeartbeatObservationPolicy.t) (elapsed : Z) (m : CanModuleRosterEntry.t * Z) : CanModuleRosterEntry.t * Z :=
  let age := saturating_add 32 (snd m) elapsed in
  if CanHeartbeatObservationPolicy.timeout_ms policy <? age then
    (CanModuleRosterEntry.from_contract_and_transition
       ((CanModuleRosterEntry.heartbeat (fst m)) <| CanModuleHeartbeatContract.state := CanModuleHeartbeatState.Unavailable |>)
       (CanModuleAvailabilityTransition.between (state_of m) CanModuleHeartbeatState.Unavailable), age)
  else (fst m, age).

Definition timed_out (policy : CanHeartbeatObservationPolicy.t) (elapsed : Z) (m : CanModuleRosterEntry.t * Z) : list Change :=
  change (node_of m) (Some (state_of m)) (Some (state_of (swept policy elapsed m))).

Definition spec_sweep (policy : CanHeartbeatObservationPolicy.t) (elapsed : Z) (s : Roster.t) : Roster.t * CanModuleRosterSweepSummary.t :=
  (Roster.mk (swept policy elapsed <$> Roster.modules s) (Roster.history s ++ (Roster.modules s ≫= timed_out policy elapsed)),
   CanModuleRosterSweepSummary.mk
     (length (filter (fun m => CanHeartbeatObservationPolicy.timeout_ms policy < saturating_add 32 (snd m) elapsed) (Roster.modules s)))
     (length (Roster.modules s ≫= timed_out policy elapsed))).

(** ** How the registry represents it *)
Definition tail_of {A} (n : nat) (xs : list A) : list A := drop (length xs - n) xs.

Definition log_represents (l : CanModuleRosterEventLog.t) (h : list Change) : Prop :=
  let kept := tail_of LOG h in
  CanModuleRosterEventLog.entries l = (Some <$> kept) ++ replicate (LOG - length kept) None
  /\ CanModuleRosterEventLog.len l = length kept
  /\ CanModuleRosterEventLog.dropped_count l = Z.min (Z.of_nat (length h - LOG)) (2 ^ 32 - 1).

Definition slots_of (ms : list (CanModuleRosterEntry.t * Z)) : list (option CanModuleRosterEntry.t) :=
  (Some <$> ms.*1) ++ replicate (CAP - length ms) None.

Definition ages_of (ms : list (CanModuleRosterEntry.t * Z)) : list Z := ms.*2 ++ replicate (CAP - length ms) 0.

(** What an entry says of its heartbeat. *)
Definition coherent (m : CanModuleRosterEntry.t * Z) : Prop :=
  CanModuleAvailabilityTransition.current (CanModuleRosterEntry.availability_transition (fst m)) = state_of m
  /\ CanModuleRosterEntry.fallback_policy (fst m) = CanRemoteModuleFallbackPolicy.from_state (state_of m).

Definition represents (r : CanModuleRosterRegistry.t) (s : Roster.t) : Prop :=
  let ms := Roster.modules s in
  CanModuleRosterRegistry.slots r = slots_of ms
  /\ CanModuleRosterRegistry.heartbeat_age_ms r = ages_of ms
  /\ CanModuleRosterRegistry.len r = length ms /\ (length ms <= CAP)%nat
  /\ log_represents (CanModuleRosterRegistry.event_log_ r) (Roster.history s) /\ Forall coherent ms.

(** ** Searching *)
Lemma position_app {A} (p : A -> bool) xs ys :
  position p (xs ++ ys) = match position p xs with Some i => Some i | None => (fun i => length xs + i)%nat <$> position p ys end.
Proof.
  induction xs as [|x xs IH]; [cbn; by destruct (position p ys)|]. cbn [app position]. destruct (p x); [done|]. rewrite IH.
  destruct (position p xs); [done|]. by destruct (position p ys).
Qed.

Lemma position_fmap {A B} (f : A -> B) (p : B -> bool) xs : position p (f <$> xs) = position (fun x => p (f x)) xs.
Proof. induction xs as [|x xs IH]; [done|]. cbn. destruct (p (f x)); [done|]. by rewrite <- IH. Qed.

Lemma position_never {A} (p : A -> bool) x n : p x = false -> position p (replicate n x) = None.
Proof. intros Hx. induction n as [|n IH]; [done|]. cbn. by rewrite Hx, IH. Qed.

Lemma find_represented r s node : represents r s ->
  CanModuleRosterRegistry.find_slot_index r node = position (of_node node) (Roster.modules s).
Proof.
  intros (Hs & _). unfold CanModuleRosterRegistry.find_slot_index. rewrite Hs. unfold slots_of. rewrite position_app.
  rewrite position_never by done. rewrite <- list_fmap_compose, position_fmap. cbn. by destruct (position _ _).
Qed.

Lemma empty_represented r s : represents r s ->
  CanModuleRosterRegistry.first_empty_slot_index r
  = if (length (Roster.modules s) <? CAP)%nat then Some (length (Roster.modules s)) else None.
Proof.
  intros (Hs & _ & _ & Hl & _). unfold CanModuleRosterRegistry.first_empty_slot_index. rewrite Hs. unfold slots_of. rewrite position_app.
  rewrite position_fmap. assert (forall xs : list CanModuleRosterEntry.t, position (fun _ => false) xs = None) as Hnone
    by (induction xs as [|x xs IH]; [done|]; cbn; by rewrite IH).
  rewrite Hnone, !length_fmap. destruct (Nat.ltb_spec (length (Roster.modules s)) CAP).
  - destruct (CAP - length (Roster.modules s))%nat eqn:E; [lia|]. cbn. f_equal. lia.
  - replace (CAP - length (Roster.modules s))%nat with 0%nat by lia. done.
Qed.

(** ** The log *)
Lemma shift_prefix (es : list (option Change)) k : (S k <= length es)%nat ->
  fold_left (fun es index => match es !! index with Some e => <[(index - 1)%nat := e]> es | None => es end) (seq 1 k) es
  = take k (drop 1 es) ++ drop k es.
Proof.
  intros Hl. induction k as [|k IH]; [by rewrite take_0, drop_0|]. rewrite seq_S, fold_left_app, IH by lia. cbn [fold_left].
  assert (length (take k (drop 1 es)) = k) as Hk by (rewrite length_take, length_drop; lia).
  destruct (lookup_lt_is_Some_2 es (S k)) as [e He]; [lia|].
  assert ((take k (drop 1 es) ++ drop k es) !! (1 + k)%nat = Some e) as ->.
  { rewrite lookup_app_r, Hk by lia. replace (1 + k - k)%nat with 1%nat by lia. rewrite lookup_drop. by replace (k + 1)%nat with (S k) by lia. }
  replace (1 + k - 1)%nat with (length (take k (drop 1 es)) + 0)%nat by lia. rewrite insert_app_r.
  destruct (lookup_lt_is_Some_2 es k) as [x Hx]; [lia|]. rewrite (drop_S _ _ _ Hx). cbn [insert list_insert].
  rewrite (take_S_r (drop 1 es) k e) by (by rewrite lookup_drop). by rewrite <- app_assoc.
Qed.

Lemma shift_down_spec (es : list (option Change)) : length es = LOG ->
  CanModuleRosterEventLog.shift_down es = drop 1 es ++ drop (LOG - 1) es.
Proof.
  intros Hl. unfold CanModuleRosterEventLog.shift_down. rewrite shift_prefix by (rewrite Hl; unfold LOG; cbn; lia). f_equal.
  apply take_ge. rewrite length_drop. lia.
Qed.

Lemma tail_short {A} n (xs : list A) : (length xs <= n)%nat -> tail_of n xs = xs.
Proof. intros Hl. unfold tail_of. by replace (length xs - n)%nat with 0%nat by lia. Qed.

Lemma length_tail {A} n (xs : list A) : length (tail_of n xs) = Nat.min (length xs) n.
Proof. unfold tail_of. rewrite length_drop. lia. Qed.

Lemma tail_snoc {A} n (xs : list A) x : (n <= length xs)%nat -> (0 < n)%nat -> tail_of n (xs ++ [x]) = drop 1 (tail_of n xs) ++ [x].
Proof.
  intros Hl Hn. unfold tail_of. rewrite length_app. cbn. rewrite drop_drop, drop_app_le by lia.
  by replace (length xs + 1 - n)%nat with (length xs - n + 1)%nat by lia.
Qed.

Lemma push_represented l h node previous current : log_represents l h ->
  log_represents (CanModuleRosterEventLog.push_change node previous current l) (h ++ change node previous current).
Proof.
  unfold CanModuleRosterEventLog.push_change, change. intros (He & Hl & Hd). destruct (bool_decide _); [by rewrite app_nil_r|].
  set (e := CanModuleRosterChangeSetEntry.mk node previous current). rewrite length_tail in Hl.
  pose proof (length_tail LOG h) as Ht. assert (LOG = 64%nat) as HLOG by done. destruct (Nat.ltb_spec (CanModuleRosterEventLog.len l) LOG).
  - unfold log_represents. rewrite (tail_short LOG h) in He by lia. rewrite (tail_short LOG (h ++ [e])) by (rewrite length_app; cbn [length]; lia).
    cbn -[LOG]. split; [|split; [rewrite length_app; cbn [length]; lia|rewrite Hd, length_app; cbn [length]; lia]]. rewrite He, Hl, fmap_app, length_app. cbn [length fmap list_fmap].
    replace (LOG - length h)%nat with (S (LOG - (length h + 1))) by lia. cbn [replicate].
    replace (Nat.min (length h) LOG) with (length (Some <$> h) + 0)%nat by (rewrite length_fmap; lia).
    rewrite insert_app_r. cbn. by rewrite <- app_assoc.
  - assert (LOG <= length h)%nat as Hlong by lia. unfold log_represents. cbn [CanModuleRosterEventLog.len CanModuleRosterEventLog.entries CanModuleRosterEventLog.dropped_count]. rewrite tail_snoc by lia.
    rewrite length_app, length_drop, Ht. cbn [length]. split; [|split].
    + change (CanModuleRosterEventLog.entries _) with (<[(LOG - 1)%nat := Some e]> (CanModuleRosterEventLog.shift_down (CanModuleRosterEventLog.entries l))).
      rewrite He. replace (LOG - length (tail_of LOG h))%nat with 0%nat by lia. cbn [replicate]. rewrite app_nil_r.
      rewrite shift_down_spec by (rewrite length_fmap; lia).
      replace (LOG - (Nat.min (length h) LOG - 1 + 1))%nat with 0%nat by lia. cbn [replicate]. rewrite app_nil_r, fmap_app, fmap_drop.
      assert (length (drop 1 (Some <$> tail_of LOG h)) = LOG - 1)%nat as Hk by (rewrite length_drop, length_fmap; lia).
      replace (LOG - 1)%nat with (length (drop 1 (Some <$> tail_of LOG h)) + 0)%nat at 1 by lia. rewrite insert_app_r. f_equal.
      assert (length (drop (LOG - 1) (Some <$> tail_of LOG h)) = 1%nat) as Hone
        by (rewrite length_drop, length_fmap, Ht; lia).
      destruct (drop (LOG - 1) (Some <$> tail_of LOG h)) as [|x [|]]; done.
    + change (CanModuleRosterEventLog.len _) with (CanModuleRosterEventLog.len l). rewrite Hl. lia.
    + change (CanModuleRosterEventLog.dropped_count _) with (saturating_add 32 (CanModuleRosterEventLog.dropped_count l) 1).
      rewrite Hd, length_app. unfold saturating_add. cbn [length]. lia.
Qed.

(** ** Observations *)
Section arrays.
Context {A B : Type} (f : A -> B) (fill : B).
Implicit Types ms : list A.
Let array (ms : list A) : list B := (f <$> ms) ++ replicate (CAP - length ms) fill.

Lemma array_insert ms i m : (i < length ms)%nat -> <[i := f m]> (array ms) = array (<[i := m]> ms).
Proof.
  intros Hi. unfold array. rewrite insert_app_l by (by rewrite length_fmap). by rewrite list_fmap_insert, length_insert.
Qed.

Lemma array_snoc ms m : (length ms < CAP)%nat -> <[length ms := f m]> (array ms) = array (ms ++ [m]).
Proof.
  intros Hl. unfold array. replace (length ms) with (length (f <$> ms) + 0)%nat at 1 by (rewrite length_fmap; lia). rewrite insert_app_r.
  rewrite length_app, fmap_app. cbn [length fmap list_fmap]. replace (CAP - length ms)%nat with (S (CAP - (length ms + 1))) by lia.
  cbn. by rewrite <- app_assoc.
Qed.

Lemma array_lookup ms i m : ms !! i = Some m -> array ms !! i = Some (f m).
Proof. intros Hi. unfold array. rewrite lookup_app_l by (rewrite length_fmap; by eapply lookup_lt_Some). by rewrite list_lookup_fmap, Hi. Qed.
End arrays.

Lemma slots_array ms : slots_of ms = ((fun m => Some (fst m)) <$> ms) ++ replicate (CAP - length ms) None.
Proof. unfold slots_of. by rewrite <- list_fmap_compose. Qed.

Lemma coherent_contract heartbeat x age :
  CanModuleAvailabilityTransition.current x = CanModuleHeartbeatContract.state heartbeat ->
  coherent (CanModuleRosterEntry.from_contract_and_transition heartbeat x, age).
Proof. intros Hx. split; [exact Hx|]. cbn. unfold CanRemoteModuleFallbackPolicy.from_transition. by rewrite Hx. Qed.

Lemma between_current p c : CanModuleAvailabilityTransition.current (CanModuleAvailabilityTransition.between p c) = c.
Proof. unfold CanModuleAvailabilityTransition.between. by destruct (bool_decide _). Qed.

Lemma observe_represented heartbeat age r s : represents r s ->
  exists r', CanModuleRosterRegistry.observe_contract_with_age_ms heartbeat age r = Some (r', snd (spec_observe heartbeat age s))
    /\ represents r' (fst (spec_observe heartbeat age s)).
Proof.
  intros Hr. pose proof Hr as (Hs & Ha & Hn & Hl & Hlog & Hc).
  unfold CanModuleRosterRegistry.observe_contract_with_age_ms, spec_observe. rewrite (find_represented _ _ _ Hr).
  destruct (position _ _) as [i|] eqn:Ei.
  - destruct (position_Some _ _ _ Ei) as (m & Hi & _). rewrite Hs, slots_array, (array_lookup _ _ _ _ _ Hi), Hi. cbn [mjoin option_join mbind option_bind from_option].
    pose proof (lookup_lt_Some _ _ _ Hi) as Hlt. eexists. split; [reflexivity|]. cbn [fst]. unfold represents. cbn [Roster.modules Roster.history].
    split; [|split; [|split; [|split; [|split]]]].
    + cbn. rewrite Hs, !slots_array. set (m' := (_, age)). change (CanModuleRosterEntry.from_contract_and_transition heartbeat _) with (fst m').
      by apply (array_insert (fun m => Some (fst m))).
    + cbn. rewrite Ha. set (m' := (_, age)). change age with (snd m') at 1. by apply (array_insert snd).
    + cbn. by rewrite length_insert.
    + by rewrite length_insert.
    + by apply push_represented.
    + apply Forall_insert; [done|]. apply coherent_contract, between_current.
  - rewrite (empty_represented _ _ Hr). destruct (Nat.ltb_spec (length (Roster.modules s)) CAP) as [Hroom|_].
    + eexists. split; [reflexivity|]. cbn [fst]. unfold represents. cbn [Roster.modules Roster.history].
      split; [|split; [|split; [|split; [|split]]]].
      * cbn. rewrite Hs, !slots_array. set (m' := (_, age)). change (CanModuleRosterEntry.from_contract_and_transition heartbeat _) with (fst m').
        by apply (array_snoc (fun m => Some (fst m))).
      * cbn. rewrite Ha. set (m' := (_, age)). change age with (snd m') at 1. by apply (array_snoc snd).
      * cbn. rewrite Hn, length_app. cbn. lia.
      * rewrite length_app. cbn [length]. lia.
      * by apply push_represented.
      * apply Forall_app. split; [done|]. constructor; [|done]. by apply coherent_contract.
    + by exists r.
Qed.

(** ** Sweeps *)
Section sweep.
Variables (policy : CanHeartbeatObservationPolicy.t) (elapsed : Z).
Local Abbreviation late m := (CanHeartbeatObservationPolicy.timeout_ms policy < saturating_add 32 (snd m) elapsed).

Definition stale_count (ms : list (CanModuleRosterEntry.t * Z)) : nat := length (filter (fun m => late m) ms).

Lemma swept_coherent m : coherent m -> coherent (swept policy elapsed m).
Proof.
  intros [H1 H2]. unfold swept. destruct (_ <? _); [|done]. apply coherent_contract. rewrite between_current. done.
Qed.

(** Replacing a module and its age at its place. *)
Lemma put_represented front m m' rest h h' r log :
  represents r (Roster.mk (front ++ m :: rest) h) -> log_represents log h' -> coherent m' ->
  represents (CanModuleRosterRegistry.mk (<[length front := Some (fst m')]> (CanModuleRosterRegistry.slots r))
    (<[length front := snd m']> (CanModuleRosterRegistry.heartbeat_age_ms r)) log (CanModuleRosterRegistry.len r))
    (Roster.mk (front ++ m' :: rest) h').
Proof.
  intros (Hs & Ha & Hn & Hl & _ & Hc) Hlog Hm. unfold represents in *. cbn [Roster.modules Roster.history CanModuleRosterRegistry.slots
    CanModuleRosterRegistry.heartbeat_age_ms CanModuleRosterRegistry.len CanModuleRosterRegistry.event_log_] in *.
  assert (<[length front := m']> (front ++ m :: rest) = front ++ m' :: rest) as Hput
    by (replace (length front) with (length front + 0)%nat by lia; by rewrite insert_app_r).
  assert (length front < length (front ++ m :: rest))%nat as Hlt by (rewrite length_app; cbn; lia).
  split; [|split; [|split; [|split; [|split; [done|]]]]].
  - rewrite Hs, !slots_array, <- Hput. by apply (array_insert (fun m => Some (fst m))).
  - rewrite Ha. rewrite <- Hput. by apply (array_insert snd).
  - rewrite Hn, !length_app. done.
  - rewrite !length_app in *. done.
  - apply Forall_app in Hc as [H1 H2]. apply Forall_cons in H2 as [_ H2]. apply Forall_app. split; [done|by constructor].
Qed.

Lemma state_swept m : state_of (swept policy elapsed m)
  = if CanHeartbeatObservationPolicy.timeout_ms policy <? saturating_add 32 (snd m) elapsed
    then CanModuleHeartbeatState.Unavailable else state_of m.
Proof. unfold swept. by destruct (_ <? _). Qed.

Lemma sweep_slot_represented front m rest h r sum : represents r (Roster.mk (front ++ m :: rest) h) ->
  exists r', CanModuleRosterRegistry.sweep_slot policy elapsed (length front) (r, sum)
    = Some (r', CanModuleRosterSweepSummary.mk (CanModuleRosterSweepSummary.stale_count sum + stale_count [m])
        (CanModuleRosterSweepSummary.transitioned_count sum + length (timed_out policy elapsed m)))
    /\ represents r' (Roster.mk (front ++ swept policy elapsed m :: rest) (h ++ timed_out policy elapsed m)).
Proof.
  intros Hr. pose proof Hr as (Hs & Ha & _ & _ & Hlog & Hc). cbn [Roster.modules Roster.history] in *.
  assert ((front ++ m :: rest) !! length front = Some m) as Hi by (by apply list_lookup_middle).
  assert (coherent m) as Hm by (by eapply Forall_lookup_1). pose proof (swept_coherent m Hm) as Hm'.
  assert (CanModuleRosterRegistry.slots r !! length front = Some (Some (fst m))) as Hs'
    by (rewrite Hs, slots_array; exact (array_lookup _ _ _ _ _ Hi)).
  assert (CanModuleRosterRegistry.heartbeat_age_ms r !! length front = Some (snd m)) as Ha'
    by (rewrite Ha; exact (array_lookup snd _ _ _ _ Hi)).
  pose proof (fun log => put_represented front m (swept policy elapsed m) rest h (h ++ timed_out policy elapsed m) r log Hr) as Hput.
  clear Hr Hs Ha Hc Hi.
  assert (<[length front := Some (fst m)]> (CanModuleRosterRegistry.slots r) = CanModuleRosterRegistry.slots r) as Hsame
    by (by apply list_insert_id).
  unfold CanModuleRosterRegistry.sweep_slot. rewrite Hs'. cbn [mbind option_bind]. rewrite Ha'. cbn [mbind option_bind].
  change (CanHeartbeatObservationPolicy.is_stale policy (Some ?a)) with (CanHeartbeatObservationPolicy.timeout_ms policy <? a).
  unfold timed_out, stale_count in *. rewrite filter_cons, filter_nil. rewrite state_swept in *. unfold swept in *.
  destruct sum as [stale moved], m as [[hb x fallback] age]. cbn [fst snd] in *.
  destruct (Z.ltb_spec (CanHeartbeatObservationPolicy.timeout_ms policy) (saturating_add 32 age elapsed)) as [Hlate|Hfresh].
  - rewrite decide_True by done. cbn [length CanModuleRosterEntry.heartbeat CanModuleRosterEntry.availability_transition] in *.
    change (state_of (CanModuleRosterEntry.mk hb x fallback, age)) with (CanModuleHeartbeatContract.state hb) in *.
    change (node_of (CanModuleRosterEntry.mk hb x fallback, age)) with (CanModuleHeartbeatContract.node_id hb) in *.
    destruct (bool_decide (CanModuleHeartbeatContract.state hb = CanModuleHeartbeatState.Unavailable)) eqn:Eu; cbn [negb].
    + apply bool_decide_eq_true in Eu. unfold change in *. rewrite Eu, bool_decide_true, app_nil_r in * by done. cbn [length].
      specialize (Hput (CanModuleRosterRegistry.event_log_ r) Hlog Hm').
      unfold CanModuleAvailabilityTransition.between in *. rewrite bool_decide_true in * by done.
      assert (hb <| CanModuleHeartbeatContract.state := CanModuleHeartbeatState.Unavailable |> = hb) as Ehb
        by (destruct hb; cbn in *; by subst). rewrite Ehb in *.
      destruct Hm as [Hx Hfb]. unfold state_of in Hx, Hfb. cbn in Hx, Hfb. rewrite Eu in Hx, Hfb. cbn in Hfb. subst fallback.
      rewrite Nat.add_1_r, Nat.add_0_r.
      destruct x as [[]|]; (eexists; split; [reflexivity|]); try exact Hput.
      match type of Hput with represents (CanModuleRosterRegistry.mk ?sl _ _ _) _ =>
        assert (sl = CanModuleRosterRegistry.slots r) as Es by exact Hsame; rewrite Es in Hput end. exact Hput.
    + apply bool_decide_eq_false in Eu. unfold change in *. rewrite bool_decide_false in * by (by intros [= E]). cbn [length].
      eexists. split; [rewrite !Nat.add_1_r; reflexivity|]. apply (Hput _); [|done].
      pose proof (push_represented _ _ (CanModuleHeartbeatContract.node_id hb) (Some (CanModuleHeartbeatContract.state hb))
        (Some CanModuleHeartbeatState.Unavailable) Hlog) as Hp. unfold change in Hp. rewrite bool_decide_false in Hp by (by intros [= E]).
      exact Hp.
  - rewrite decide_False by lia. unfold change in *. rewrite bool_decide_true, app_nil_r in * by done. cbn [length].
    specialize (Hput (CanModuleRosterRegistry.event_log_ r) Hlog Hm'). cbn [fst snd] in Hput. rewrite Hsame in Hput.
    rewrite !Nat.add_0_r. eexists. split; [reflexivity|exact Hput].
Qed.

Lemma sweep_empty r s k n sum : represents r s -> (length (Roster.modules s) <= k)%nat -> (k + n <= CAP)%nat ->
  CanModuleRosterRegistry.sweep_from policy elapsed (seq k n) (r, sum) = Some (r, sum).
Proof.
  intros (Hs & _). revert k. induction n as [|n IH]; intros k Hk Hn; [done|]. cbn [seq CanModuleRosterRegistry.sweep_from].
  unfold CanModuleRosterRegistry.sweep_slot at 1. rewrite Hs. unfold slots_of at 1.
  rewrite lookup_app_r by (rewrite !length_fmap; lia). rewrite lookup_replicate_2 by (rewrite !length_fmap; lia).
  cbn [mbind option_bind]. apply IH; lia.
Qed.

Lemma sweep_rest front rest h r sum : represents r (Roster.mk (front ++ rest) h) ->
  exists r', CanModuleRosterRegistry.sweep_from policy elapsed (seq (length front) (CAP - length front)) (r, sum)
    = Some (r', CanModuleRosterSweepSummary.mk (CanModuleRosterSweepSummary.stale_count sum + stale_count rest)
        (CanModuleRosterSweepSummary.transitioned_count sum + length (rest ≫= timed_out policy elapsed)))
    /\ represents r' (Roster.mk (front ++ (swept policy elapsed <$> rest)) (h ++ (rest ≫= timed_out policy elapsed))).
Proof.
  revert front h r sum. induction rest as [|m rest IH]; intros front h r sum Hr.
  - exists r. pose proof Hr as (_ & _ & _ & Hl & _). cbn [Roster.modules] in Hl.
    rewrite (sweep_empty _ _ _ _ _ Hr); [|cbn; rewrite app_nil_r; lia|rewrite app_nil_r in Hl; lia].
    cbn [mbind list_bind fmap list_fmap length]. unfold stale_count. cbn [filter list_filter length]. rewrite !Nat.add_0_r, (app_nil_r h).
    split; [by destruct sum|exact Hr].
  - pose proof Hr as (_ & _ & _ & Hl & _). cbn [Roster.modules] in Hl. rewrite length_app in Hl. cbn [length] in Hl.
    destruct (CAP - length front)%nat as [|n] eqn:En; [lia|]. cbn [seq CanModuleRosterRegistry.sweep_from].
    destruct (sweep_slot_represented _ _ _ _ _ sum Hr) as (r1 & -> & Hr1). cbn [mbind option_bind].
    specialize (IH (front ++ [swept policy elapsed m]) (h ++ timed_out policy elapsed m) r1
      (CanModuleRosterSweepSummary.mk (CanModuleRosterSweepSummary.stale_count sum + stale_count [m])
        (CanModuleRosterSweepSummary.transitioned_count sum + length (timed_out policy elapsed m)))).
    rewrite <- app_assoc in IH. destruct (IH Hr1) as (r2 & E2 & Hr2). rewrite length_app in E2. cbn [length] in E2.
    replace (length front + 1)%nat with (S (length front)) in E2 by lia. replace (CAP - S (length front))%nat with n in E2 by lia.
    exists r2. rewrite E2. split.
    + cbn [CanModuleRosterSweepSummary.stale_count CanModuleRosterSweepSummary.transitioned_count]. do 3 f_equal.
      * unfold stale_count. rewrite (filter_cons _ m rest), (filter_cons _ m []), filter_nil. destruct (decide _); cbn [length]; lia.
      * rewrite bind_cons, length_app. lia.
    + rewrite bind_cons, fmap_cons. rewrite <- !app_assoc in Hr2. exact Hr2.
Qed.

Lemma sweep_represented r s : represents r s ->
  exists r', CanModuleRosterRegistry.sweep_stale policy elapsed r = Some (r', snd (spec_sweep policy elapsed s))
    /\ represents r' (fst (spec_sweep policy elapsed s)).
Proof.
  intros Hr. destruct s as [ms h]. destruct (sweep_rest [] ms h r CanModuleRosterSweepSummary.default Hr) as (r' & E & Hr').
  exists r'. split; [exact E|exact Hr'].
Qed.
End sweep.

(** ** Operations and runs *)
Module RosterOp.
(** The calls that change the registry. *)
Inductive t :=
| ObserveContract (heartbeat : CanModuleHeartbeatContract.t) (age_ms : Z)
| ObserveMessage (policy : CanHeartbeatObservationPolicy.t) (message : Message.t) (age_ms : option Z)
| SweepStale (policy : CanHeartbeatObservationPolicy.t) (elapsed_ms : Z).

(** What a call returns. *)
Inductive Answer := Observed (update : option CanModuleRosterUpdate.t) | Swept (summary : CanModuleRosterSweepSummary.t).

Definition run (op : t) (r : CanModuleRosterRegistry.t) : option (CanModuleRosterRegistry.t * Answer) :=
  match op with
  | ObserveContract heartbeat age_ms =>
    '(r, u) ← CanModuleRosterRegistry.observe_contract_with_age_ms heartbeat age_ms r; Some (r, Observed (Some u))
  | ObserveMessage policy message age_ms =>
    '(r, u) ← CanModuleRosterRegistry.observe_message policy message age_ms r; Some (r, Observed u)
  | SweepStale policy elapsed_ms => '(r, s) ← CanModuleRosterRegistry.sweep_stale policy elapsed_ms r; Some (r, Swept s)
  end.

Definition spec (op : t) (s : Roster.t) : Roster.t * Answer :=
  match op with
  | ObserveContract heartbeat age_ms => let '(s, u) := spec_observe heartbeat age_ms s in (s, Observed (Some u))
  | ObserveMessage policy message age_ms =>
    match CanHeartbeatObservationPolicy.observe_message policy message age_ms with
    | Some heartbeat => let '(s, u) := spec_observe heartbeat (observed_age_ms policy age_ms) s in (s, Observed (Some u))
    | None => (s, Observed None)
    end
  | SweepStale policy elapsed_ms => let '(s, u) := spec_sweep policy elapsed_ms s in (s, Swept u)
  end.

Fixpoint run_all (ops : list t) (r : CanModuleRosterRegistry.t) : option (CanModuleRosterRegistry.t * list Answer) :=
  match ops with
  | [] => Some (r, [])
  | op :: ops => '(r, a) ← run op r; '(r, answers) ← run_all ops r; Some (r, a :: answers)
  end.

Fixpoint spec_all (ops : list t) (s : Roster.t) : Roster.t * list Answer :=
  match ops with
  | [] => (s, [])
  | op :: ops => let '(s, a) := spec op s in let '(s, answers) := spec_all ops s in (s, a :: answers)
  end.
End RosterOp.

Definition empty_roster : Roster.t := Roster.mk [] [].

Lemma new_represents : represents CanModuleRosterRegistry.new empty_roster.
Proof. split; [done|]. split; [done|]. split; [done|]. split; [cbn; lia|]. by repeat split. Qed.

Lemma op_represented op r s : represents r s ->
  exists r', RosterOp.run op r = Some (r', snd (RosterOp.spec op s)) /\ represents r' (fst (RosterOp.spec op s)).
Proof.
  intros Hr. destruct op as [hb age|policy message age|policy elapsed]; cbn [RosterOp.run RosterOp.spec].
  - destruct (observe_represented hb age r s Hr) as (r' & -> & Hr'). destruct (spec_observe hb age s) as [s' u]. by exists r'.
  - unfold CanModuleRosterRegistry.observe_message. destruct (CanHeartbeatObservationPolicy.observe_message _ _ _) as [hb|]; [|by exists r].
    destruct (observe_represented hb (observed_age_ms policy age) r s Hr) as (r' & -> & Hr').
    destruct (spec_observe hb _ s) as [s' u]. by exists r'.
  - destruct (sweep_represented policy elapsed r s Hr) as (r' & -> & Hr'). destruct (spec_sweep policy elapsed s) as [s' u]. by exists r'.
Qed.

Lemma run_represented ops r s : represents r s ->
  exists r', RosterOp.run_all ops r = Some (r', snd (RosterOp.spec_all ops s)) /\ represents r' (fst (RosterOp.spec_all ops s)).
Proof.
  revert r s. induction ops as [|op ops IH]; intros r s Hr; [by exists r|]. cbn [RosterOp.run_all RosterOp.spec_all].
  destruct (op_represented op r s Hr) as (r1 & -> & Hr1). destruct (RosterOp.spec op s) as [s1 a]. cbn [mbind option_bind fst snd] in *.
  destruct (IH r1 s1 Hr1) as (r2 & -> & Hr2). destruct (RosterOp.spec_all ops s1) as [s2 answers]. by exists r2.
Qed.

(** ** Lemmas on runs *)
Lemma node_swept policy elapsed m : node_of (swept policy elapsed m) = node_of m.
Proof. unfold swept. by destruct (_ <? _). Qed.

Lemma observe_nodup heartbeat age s : NoDup (node_of <$> Roster.modules s) ->
  NoDup (node_of <$> Roster.modules (fst (spec_observe heartbeat age s))).
Proof.
  intros Hnd. unfold spec_observe. destruct (position _ _) as [i|] eqn:Ei.
  - destruct (position_Some _ _ _ Ei) as (m & Hi & Hm). cbn. rewrite list_fmap_insert. cbn.
    rewrite list_insert_id; [done|]. rewrite list_lookup_fmap, Hi. apply (f_equal Some). apply Z.eqb_eq. exact Hm.
  - destruct (_ <? _)%nat; [|done]. cbn. rewrite fmap_app. apply NoDup_app. split; [done|]. split; [|apply NoDup_singleton].
    intros x Hx Hx'. apply list_elem_of_singleton in Hx' as ->. cbn in Hx. apply list_elem_of_fmap in Hx as (m & Em & Hin).
    apply position_None in Ei. rewrite Forall_forall in Ei. specialize (Ei m Hin). apply Z.eqb_neq in Ei. apply Ei. symmetry. exact Em.
Qed.

Lemma spec_nodup ops s : NoDup (node_of <$> Roster.modules s) -> NoDup (node_of <$> Roster.modules (fst (RosterOp.spec_all ops s))).
Proof.
  revert s. induction ops as [|op ops IH]; intros s Hnd; [done|]. cbn [RosterOp.spec_all].
  assert (NoDup (node_of <$> Roster.modules (fst (RosterOp.spec op s)))) as Hstep.
  { destruct op as [hb age|policy message age|policy elapsed]; cbn [RosterOp.spec].
    - pose proof (observe_nodup hb age s Hnd). by destruct (spec_observe hb age s).
    - destruct (CanHeartbeatObservationPolicy.observe_message _ _ _) as [hb|]; [|done].
      pose proof (observe_nodup hb (observed_age_ms policy age) s Hnd). by destruct (spec_observe hb _ s).
    - cbn. rewrite <- list_fmap_compose. rewrite (list_fmap_ext _ node_of) by (intros; apply node_swept). exact Hnd. }
  destruct (RosterOp.spec op s) as [s1 a]. specialize (IH s1 Hstep). by destruct (RosterOp.spec_all ops s1).
Qed.

Lemma history_grows ops s : exists more, Roster.history (fst (RosterOp.spec_all ops s)) = Roster.history s ++ more.
Proof.
  revert s. induction ops as [|op ops IH]; intros s; [exists []; by rewrite app_nil_r|]. cbn [RosterOp.spec_all].
  assert (forall hb age, exists more, Roster.history (fst (spec_observe hb age s)) = Roster.history s ++ more) as Hobs.
  { intros hb age. unfold spec_observe. destruct (position _ _); [by eexists|]. destruct (_ <? _)%nat; [by eexists|].
    exists []. by rewrite app_nil_r. }
  assert (exists more, Roster.history (fst (RosterOp.spec op s)) = Roster.history s ++ more) as [more Hmore].
  { destruct op as [hb age|policy message age|policy elapsed]; cbn [RosterOp.spec].
    - specialize (Hobs hb age). by destruct (spec_observe hb age s).
    - destruct (CanHeartbeatObservationPolicy.observe_message _ _ _) as [hb|]; [|exists []; by rewrite app_nil_r].
      specialize (Hobs hb (observed_age_ms policy age)). by destruct (spec_observe hb _ s).
    - by eexists. }
  destruct (RosterOp.spec op s) as [s1 a]. destruct (IH s1) as [rest Hrest]. destruct (RosterOp.spec_all ops s1) as [s2 answers].
  cbn [fst] in *. exists (more ++ rest). by rewrite Hrest, Hmore, <- app_assoc.
Qed.

(** ** Reading the log *)
Lemma visited_array {A} (xs : list A) k : visited (length xs) ((Some <$> xs) ++ replicate k None) = Some xs.
Proof.
  unfold visited. rewrite length_app, length_fmap, length_replicate. destruct (Nat.leb_spec (length xs) (length xs + k)); [|lia].
  rewrite take_app_le by (by rewrite length_fmap). rewrite take_ge by (by rewrite length_fmap). f_equal.
  induction xs as [|x xs IH]; [done|]. cbn. f_equal. apply IH. lia.
Qed.

Lemma tail_tail {A} n (xs ys : list A) : (n <= length ys)%nat -> tail_of n (xs ++ ys) = tail_of n ys.
Proof. intros Hl. unfold tail_of. rewrite length_app, drop_app_ge by lia. f_equal. lia. Qed.

Lemma delta_represented l h h0 more w : log_represents l h -> h = h0 ++ more -> Z.of_nat (length h) < 2 ^ 32 ->
  CanModuleRosterEventLogWatermark.total_written_event_count w = Z.of_nat (length h0) ->
  exists d, CanModuleRosterEventLog.delta_since l w = Some d
    /\ CanModuleRosterEventLogDelta.retained_new_event_count d = Nat.min (length more) LOG
    /\ CanModuleRosterEventLogDelta.dropped_unread_event_count d = Z.of_nat (length more - LOG)
    /\ CanModuleRosterEventLogDelta.entries d
       = (Some <$> tail_of LOG more) ++ replicate (LOG - length (tail_of LOG more)) None.
Proof.
  intros (He & Hl & Hd) -> Hmax Hw. rewrite length_tail in Hl. rewrite length_app in *.
  assert (LOG = 64%nat) as HLOG by done. set (n := length h0) in *. set (k := length more) in *.
  unfold CanModuleRosterEventLog.delta_since, CanModuleRosterEventLog.watermark.
  cbn [CanModuleRosterEventLogWatermark.total_written_event_count]. rewrite Hw, Hl, Hd.
  assert (as_unsigned 32 (Z.of_nat (Nat.min (n + k) LOG)) = Z.of_nat (Nat.min (n + k) LOG)) as ->
    by (unfold as_unsigned; apply Z.mod_small; lia).
  assert (saturating_add 32 (Z.min (Z.of_nat (n + k - LOG)) (2 ^ 32 - 1)) (Z.of_nat (Nat.min (n + k) LOG)) = Z.of_nat (n + k)) as ->
    by (unfold saturating_add; lia).
  unfold saturating_sub.
  replace (Z.to_nat (Z.min (Z.max 0 (Z.of_nat (n + k) - Z.max (Z.of_nat n)
    (Z.max 0 (Z.of_nat (n + k) - Z.of_nat (Nat.min (n + k) LOG))))) (Z.of_nat (Nat.min (n + k) LOG)))) with (Nat.min k LOG) by lia.
  assert (as_unsigned 32 (Z.of_nat (Nat.min k LOG)) = Z.of_nat (Nat.min k LOG)) as -> by (unfold as_unsigned; apply Z.mod_small; lia).
  assert (CanModuleRosterEventLog.copy_tail l (Nat.min (n + k) LOG - Nat.min k LOG)
    = Some ((Some <$> tail_of LOG more) ++ replicate (LOG - Nat.min k LOG) None)) as ->.
  { unfold CanModuleRosterEventLog.copy_tail. rewrite Hl, He.
    replace (Nat.min (n + k) LOG - (Nat.min (n + k) LOG - Nat.min k LOG))%nat with (Nat.min k LOG) by lia.
    assert (length (tail_of LOG (h0 ++ more)) = Nat.min (n + k) LOG) as Ht by (rewrite length_tail, length_app; done).
    rewrite length_app, length_fmap, length_replicate, Ht.
    destruct (Nat.ltb_spec (Nat.min (n + k) LOG + (LOG - Nat.min (n + k) LOG)) (Nat.min (n + k) LOG)); [lia|].
    destruct (Nat.ltb_spec LOG (Nat.min k LOG)); [lia|]. rewrite andb_false_r. do 2 f_equal.
    rewrite drop_app_le by (rewrite length_fmap; lia). rewrite <- fmap_drop.
    assert (drop (Nat.min (n + k) LOG - Nat.min k LOG) (tail_of LOG (h0 ++ more)) = tail_of LOG more) as ->.
    { unfold tail_of. rewrite drop_drop, length_app. fold n k. rewrite drop_app_ge by lia. f_equal. lia. }
    rewrite take_app_le by (rewrite length_fmap, length_tail; lia). apply take_ge. rewrite length_fmap, length_tail. lia. }
  eexists. split; [reflexivity|]. cbn. split; [done|]. split; [lia|]. by rewrite length_tail.
Qed.

(** ** Snapshots and summaries *)
Definition shown (m : CanModuleRosterEntry.t * Z) : CanModuleRosterSnapshotEntry.t := CanModuleRosterSnapshotEntry.mk (fst m) (snd m).

Lemma snapshot_represented r s : represents r s ->
  CanModuleRosterRegistry.snapshot r = CanModuleRosterSnapshot.mk (length (Roster.modules s))
    ((Some <$> (shown <$> Roster.modules s)) ++ replicate (CAP - length (Roster.modules s)) None).
Proof.
  intros (Hs & Ha & _ & _ & _). unfold CanModuleRosterRegistry.snapshot. rewrite Hs, Ha. unfold slots_of, ages_of.
  assert (forall (ms : list (CanModuleRosterEntry.t * Z)) k, CanModuleRosterRegistry.snapshot_entries ((Some <$> ms.*1) ++ replicate k None)
    (ms.*2 ++ replicate k 0) = shown <$> ms) as ->.
  { intros ms k. induction ms as [|m ms IH]; [by induction k|]. cbn. by rewrite IH. }
  by rewrite length_fmap.
Qed.

Definition is_starting (e : CanModuleRosterSnapshotEntry.t) : bool :=
  match CanModuleRosterSnapshotEntry.state e with CanModuleHeartbeatState.Starting => true | _ => false end.
Definition is_degraded (e : CanModuleRosterSnapshotEntry.t) : bool :=
  match CanModuleRosterSnapshotEntry.state e with CanModuleHeartbeatState.Degraded => true | _ => false end.
Definition is_unavailable (e : CanModuleRosterSnapshotEntry.t) : bool :=
  match CanModuleRosterSnapshotEntry.state e with CanModuleHeartbeatState.Unavailable => true | _ => false end.
Definition is_local (e : CanModuleRosterSnapshotEntry.t) : bool :=
  match CanModuleRosterEntry.fallback_policy (CanModuleRosterSnapshotEntry.module e) with
  | CanRemoteModuleFallbackPolicy.RequireLocalFallback => true | _ => false
  end.
Definition count {A} (p : A -> bool) (xs : list A) : nat := length (List.filter p xs).

Lemma count_positive {A} (p : A -> bool) xs : (0 <? count p xs)%nat = existsb p xs.
Proof. unfold count. induction xs as [|x xs IH]; [done|]. cbn. by destruct (p x). Qed.

Lemma summary_counts es acc :
  let s := fold_left CanModuleRosterSummary.observe es acc in
  CanModuleRosterSummary.total_count s = (CanModuleRosterSummary.total_count acc + length es)%nat
  /\ CanModuleRosterSummary.starting_count s = (CanModuleRosterSummary.starting_count acc + count is_starting es)%nat
  /\ CanModuleRosterSummary.degraded_count s = (CanModuleRosterSummary.degraded_count acc + count is_degraded es)%nat
  /\ CanModuleRosterSummary.unavailable_count s = (CanModuleRosterSummary.unavailable_count acc + count is_unavailable es)%nat
  /\ CanModuleRosterSummary.require_local_fallback_count s
     = (CanModuleRosterSummary.require_local_fallback_count acc + count is_local es)%nat.
Proof.
  cbv zeta. revert acc. induction es as [|e es IH]; intros acc; [cbn; lia|]. cbn [fold_left]. specialize (IH (CanModuleRosterSummary.observe acc e)).
  destruct IH as (-> & -> & -> & -> & ->). unfold CanModuleRosterSummary.observe, count. cbn [List.filter].
  unfold is_starting at 2, is_degraded at 2, is_unavailable at 2, is_local at 2.
  destruct (CanModuleRosterSnapshotEntry.state e), (CanModuleRosterEntry.fallback_policy (CanModuleRosterSnapshotEntry.module e)); cbn; lia.
Qed.

Lemma summary_represented r s : represents r s ->
  CanModuleRosterRegistry.summary r
  = Some (fold_left CanModuleRosterSummary.observe (shown <$> Roster.modules s) CanModuleRosterSummary.default).
Proof.
  intros Hr. unfold CanModuleRosterRegistry.summary, CanModuleRosterSnapshot.summary. rewrite (snapshot_represented _ _ Hr).
  cbn [CanModuleRosterSnapshot.len CanModuleRosterSnapshot.entries].
  replace (length (Roster.modules s)) with (length (shown <$> Roster.modules s)) by apply length_fmap.
  by rewrite visited_array.
Qed.

(** What startup and shutdown make of the modules. *)
Lemma readiness_represented r s : represents r s ->
  let es := shown <$> Roster.modules s in
  CanModuleRosterStartupReadiness.state <$> CanModuleRosterRegistry.startup_readiness r
    = Some (if (length es =? 0)%nat then CanModuleRosterStartupReadinessState.NoRemoteModules
            else if existsb is_unavailable es then CanModuleRosterStartupReadinessState.BlockedByUnavailable
            else if existsb is_degraded es then CanModuleRosterStartupReadinessState.HoldingLastKnownGood
            else if existsb is_starting es then CanModuleRosterStartupReadinessState.WaitingForStartup
            else CanModuleRosterStartupReadinessState.ReadyForTrust)
  /\ CanModuleRosterShutdownCoordination.state <$> CanModuleRosterRegistry.shutdown_coordination r
    = Some (if (length es =? 0)%nat then CanModuleRosterShutdownCoordinationState.NoRemoteModules
            else if existsb is_unavailable es || existsb is_local es
              then CanModuleRosterShutdownCoordinationState.LocalTakeoverRequired
            else if existsb is_degraded es then CanModuleRosterShutdownCoordinationState.CoordinatedShutdownRecommended
            else CanModuleRosterShutdownCoordinationState.NoShutdownNeeded).
Proof.
  intros Hr. cbv zeta. unfold CanModuleRosterRegistry.startup_readiness, CanModuleRosterRegistry.shutdown_coordination.
  rewrite (summary_represented _ _ Hr). cbn [fmap option_fmap option_map].
  destruct (summary_counts (shown <$> Roster.modules s) CanModuleRosterSummary.default) as (E1 & E2 & E3 & E4 & E5).
  unfold CanModuleRosterSummary.startup_readiness, CanModuleRosterSummary.shutdown_coordination.
  cbn [CanModuleRosterStartupReadiness.state CanModuleRosterShutdownCoordination.state].
  rewrite E1, E2, E3, E4, E5. cbn [CanModuleRosterSummary.default CanModuleRosterSummary.total_count CanModuleRosterSummary.starting_count
    CanModuleRosterSummary.degraded_count CanModuleRosterSummary.unavailable_count CanModuleRosterSummary.require_local_fallback_count Nat.add].
  by rewrite !count_positive.
Qed.

Definition trust_follows (e : CanModuleRosterSnapshotEntry.t) : Prop :=
  CanModuleRosterEntry.fallback_policy (CanModuleRosterSnapshotEntry.module e)
  = CanRemoteModuleFallbackPolicy.from_state (CanModuleRosterSnapshotEntry.state e).

Lemma ready_alive es :
  Some (if (length es =? 0)%nat then CanModuleRosterStartupReadinessState.NoRemoteModules
        else if existsb is_unavailable es then CanModuleRosterStartupReadinessState.BlockedByUnavailable
        else if existsb is_degraded es then CanModuleRosterStartupReadinessState.HoldingLastKnownGood
        else if existsb is_starting es then CanModuleRosterStartupReadinessState.WaitingForStartup
        else CanModuleRosterStartupReadinessState.ReadyForTrust) = Some CanModuleRosterStartupReadinessState.ReadyForTrust
  <-> es <> [] /\ Forall (fun e => CanModuleRosterSnapshotEntry.state e = CanModuleHeartbeatState.Alive) es.
Proof.
  assert (Forall (fun e => CanModuleRosterSnapshotEntry.state e = CanModuleHeartbeatState.Alive) es
    <-> existsb is_unavailable es = false /\ existsb is_degraded es = false /\ existsb is_starting es = false) as ->.
  { induction es as [|e es IH]; [done|]. rewrite Forall_cons, IH. cbn [existsb]. rewrite !orb_false_iff.
    unfold is_unavailable at 2, is_degraded at 2, is_starting at 2. destruct (CanModuleRosterSnapshotEntry.state e); intuition congruence. }
  destruct es as [|e es]; [by split; [|intros [? _]]|]. cbn [length Nat.eqb].
  destruct (existsb is_unavailable (e :: es)), (existsb is_degraded (e :: es)), (existsb is_starting (e :: es)); naive_solver.
Qed.

Lemma takeover_unavailable es : Forall trust_follows es ->
  Some (if (length es =? 0)%nat then CanModuleRosterShutdownCoordinationState.NoRemoteModules
        else if existsb is_unavailable es || existsb is_local es then CanModuleRosterShutdownCoordinationState.LocalTakeoverRequired
        else if existsb is_degraded es then CanModuleRosterShutdownCoordinationState.CoordinatedShutdownRecommended
        else CanModuleRosterShutdownCoordinationState.NoShutdownNeeded)
    = Some CanModuleRosterShutdownCoordinationState.LocalTakeoverRequired
  <-> Exists (fun e => CanModuleRosterSnapshotEntry.state e = CanModuleHeartbeatState.Unavailable) es.
Proof.
  intros Hes. assert (existsb is_local es = existsb is_unavailable es) as ->.
  { induction Hes as [|e es He _ IH]; [done|]. cbn [existsb]. rewrite IH. f_equal. unfold is_local, is_unavailable. rewrite He.
    by destruct (CanModuleRosterSnapshotEntry.state e). }
  assert (Exists (fun e => CanModuleRosterSnapshotEntry.state e = CanModuleHeartbeatState.Unavailable) es
    <-> existsb is_unavailable es = true) as ->.
  { clear Hes. induction es as [|e es IH]; [by rewrite Exists_nil|]. rewrite Exists_cons, IH. cbn [existsb]. rewrite orb_true_iff.
    unfold is_unavailable at 2. destruct (CanModuleRosterSnapshotEntry.state e); intuition congruence. }
  destruct es as [|e es]; [done|]. cbn [length Nat.eqb].
  destruct (existsb is_unavailable (e :: es)); [done|]. cbn [orb]. by destruct (existsb is_degraded (e :: es)).
Qed.

(** ** Theorems *)

(** C24: The registry is a map of modules with the history of their changes.  Over every
    sequence of observations and sweeps it does not panic, returns what the specification
    returns, and holds exactly the modules of the specification, one slot to a node, with
    the last 64 changes in its log and the number of those it dropped. *)
Theorem roster_run_refines (ops : list RosterOp.t) :
  let '(s, answers) := RosterOp.spec_all ops empty_roster in
  exists r, RosterOp.run_all ops CanModuleRosterRegistry.new = Some (r, answers) /\ represents r s
    /\ NoDup (node_of <$> Roster.modules s).
Proof.
  destruct (run_represented ops _ _ new_represents) as (r & E & Hr).
  pose proof (spec_nodup ops empty_roster NoDup_nil_2) as Hnd.
  destruct (RosterOp.spec_all ops empty_roster) as [s answers]. by exists r.
Qed.

(** A reader of the log misses nothing unknowingly.  From the watermark it took, after
    whatever calls came since, it is handed the last 64 of the changes made since, or all of
    them if there were fewer, in their order, and the number of those it was too late for. *)
Theorem unread_changes_exact (before since : list RosterOp.t) r r' answers answers' :
  RosterOp.run_all before CanModuleRosterRegistry.new = Some (r, answers) ->
  RosterOp.run_all since r = Some (r', answers') ->
  let s := fst (RosterOp.spec_all before empty_roster) in
  let s' := fst (RosterOp.spec_all since s) in
  let unread := drop (length (Roster.history s)) (Roster.history s') in
  Z.of_nat (length (Roster.history s')) < 2 ^ 32 ->
  Roster.history s' = Roster.history s ++ unread
  /\ exists d, CanModuleRosterRegistry.event_log_delta_since r' (CanModuleRosterRegistry.event_log_watermark r) = Some d
    /\ visited (CanModuleRosterEventLogDelta.retained_new_event_count d) (CanModuleRosterEventLogDelta.entries d)
       = Some (tail_of LOG unread)
    /\ CanModuleRosterEventLogDelta.dropped_unread_event_count d = Z.of_nat (length unread - LOG).
Proof.
  intros Hbefore Hsince. cbv zeta. destruct (run_represented before _ _ new_represents) as (r1 & E1 & Hr).
  rewrite Hbefore in E1. injection E1 as <- _. set (s := fst (RosterOp.spec_all before empty_roster)) in *.
  destruct (run_represented since r s Hr) as (r2 & E2 & Hr'). rewrite Hsince in E2. injection E2 as <- _.
  set (s' := fst (RosterOp.spec_all since s)) in *. destruct (history_grows since s) as [more Hmore]. fold s' in Hmore.
  rewrite Hmore, drop_app_length. intros Hmax. split; [done|].
  destruct Hr as (_ & _ & _ & _ & (_ & Hl & Hd) & _). rewrite length_tail in Hl. assert (LOG = 64%nat) as HLOG by done.
  assert (Z.of_nat (length (Roster.history s)) < 2 ^ 32) as Hmax0 by (rewrite length_app in Hmax; lia).
  destruct Hr' as (_ & _ & _ & _ & Hlog & _). rewrite Hmore in Hlog.
  destruct (delta_represented _ _ _ more (CanModuleRosterRegistry.event_log_watermark r) Hlog eq_refl Hmax) as (d & E & Hk & Hdrop & Hes).
  { unfold CanModuleRosterRegistry.event_log_watermark, CanModuleRosterEventLog.watermark.
    cbn [CanModuleRosterEventLogWatermark.total_written_event_count]. rewrite Hl, Hd. unfold as_unsigned. rewrite Z.mod_small by lia.
    unfold saturating_add. lia. }
  exists d. split; [exact E|]. rewrite Hk, Hes, Hdrop. split; [|done]. rewrite <- length_tail. apply visited_array.
Qed.

(** What is stale is not trusted.  After a sweep, whatever came before it, a module whose
    last heartbeat is older than the timeout is unavailable and requires the local fallback,
    and a module is trusted only while it is alive; startup waits for no module and calls
    the roster ready only if there are modules and every one of them is alive, and shutdown
    demands the local takeover exactly if some module is unavailable. *)
Theorem stale_modules_lose_trust (ops : list RosterOp.t) policy elapsed r answers :
  RosterOp.run_all ops CanModuleRosterRegistry.new = Some (r, answers) ->
  exists r' summary es, CanModuleRosterRegistry.sweep_stale policy elapsed r = Some (r', summary)
    /\ visited (CanModuleRosterSnapshot.len (CanModuleRosterRegistry.snapshot r'))
         (CanModuleRosterSnapshot.entries (CanModuleRosterRegistry.snapshot r')) = Some es
    /\ Forall (fun e =>
         (CanHeartbeatObservationPolicy.timeout_ms policy < CanModuleRosterSnapshotEntry.heartbeat_age_ms e ->
          CanModuleRosterSnapshotEntry.state e = CanModuleHeartbeatState.Unavailable)
         /\ CanModuleRosterEntry.fallback_policy (CanModuleRosterSnapshotEntry.module e)
            = CanRemoteModuleFallbackPolicy.from_state (CanModuleRosterSnapshotEntry.state e)) es
    /\ (CanModuleRosterStartupReadiness.state <$> CanModuleRosterRegistry.startup_readiness r'
          = Some CanModuleRosterStartupReadinessState.ReadyForTrust
        <-> es <> [] /\ Forall (fun e => CanModuleRosterSnapshotEntry.state e = CanModuleHeartbeatState.Alive) es)
    /\ (CanModuleRosterShutdownCoordination.state <$> CanModuleRosterRegistry.shutdown_coordination r'
          = Some CanModuleRosterShutdownCoordinationState.LocalTakeoverRequired
        <-> Exists (fun e => CanModuleRosterSnapshotEntry.state e = CanModuleHeartbeatState.Unavailable) es).
Proof.
  intros Hrun. destruct (run_represented ops _ _ new_represents) as (r1 & E1 & Hr). rewrite Hrun in E1. injection E1 as <- _.
  set (s := fst (RosterOp.spec_all ops empty_roster)) in *.
  destruct (sweep_represented policy elapsed r s Hr) as (r' & E & Hr'). exists r', (snd (spec_sweep policy elapsed s)),
    (shown <$> Roster.modules (fst (spec_sweep policy elapsed s))).
  split; [exact E|]. rewrite (snapshot_represented _ _ Hr'). cbn [CanModuleRosterSnapshot.len CanModuleRosterSnapshot.entries].
  split. { rewrite <- (length_fmap shown). apply visited_array. }
  destruct (readiness_represented _ _ Hr') as [-> ->]. pose proof Hr' as (_ & _ & _ & _ & _ & Hc).
  assert (Forall (fun m => CanHeartbeatObservationPolicy.timeout_ms policy < snd m -> state_of m = CanModuleHeartbeatState.Unavailable)
    (Roster.modules (fst (spec_sweep policy elapsed s)))) as Hstale.
  { cbn. apply Forall_fmap, Forall_forall. intros m _. unfold compose, swept. destruct (Z.ltb_spec (CanHeartbeatObservationPolicy.timeout_ms policy)
      (saturating_add 32 (snd m) elapsed)); cbn; [done|lia]. }
  revert Hstale Hc. generalize (Roster.modules (fst (spec_sweep policy elapsed s))) as ms. intros ms Hstale Hc.
  assert (Forall (fun e => (CanHeartbeatObservationPolicy.timeout_ms policy < CanModuleRosterSnapshotEntry.heartbeat_age_ms e ->
          CanModuleRosterSnapshotEntry.state e = CanModuleHeartbeatState.Unavailable)
         /\ CanModuleRosterEntry.fallback_policy (CanModuleRosterSnapshotEntry.module e)
            = CanRemoteModuleFallbackPolicy.from_state (CanModuleRosterSnapshotEntry.state e)) (shown <$> ms)) as Hes.
  { apply Forall_fmap. apply (Forall_impl (fun m => (CanHeartbeatObservationPolicy.timeout_ms policy < snd m ->
      state_of m = CanModuleHeartbeatState.Unavailable) /\ coherent m)); [by apply Forall_and|].
    intros m [Hm [_ Hf]]. by split. }
  split; [exact Hes|]. clear Hstale Hc. revert Hes. generalize (shown <$> ms) as es. intros es Hes. split.
  - apply ready_alive.
  - apply takeover_unavailable. apply (Forall_impl _ _ _ Hes). by intros e [_ He].
Qed.

(** ** Witnesses *)
Definition sample_policy : CanHeartbeatObservationPolicy.t := CanHeartbeatObservationPolicy.default.
Definition sample_before : list RosterOp.t :=
  [RosterOp.ObserveMessage sample_policy (Message.Heartbeat 3 2 0 0 10) (Some 0);
   RosterOp.ObserveMessage sample_policy (Message.Heartbeat 4 60 0 0 10) (Some 0)].
Definition sample_since : list RosterOp.t :=
  [RosterOp.ObserveMessage sample_policy (Message.Heartbeat 3 9 0 0 10) (Some 0); RosterOp.SweepStale sample_policy 101].
Definition sample_run (ops : list RosterOp.t) (r : CanModuleRosterRegistry.t) : CanModuleRosterRegistry.t * list RosterOp.Answer :=
  default (r, []) (RosterOp.run_all ops r).
Definition sample_roster : CanModuleRosterRegistry.t := fst (sample_run sample_before CanModuleRosterRegistry.new).
Definition sample_later : CanModuleRosterRegistry.t := fst (sample_run sample_since sample_roster).

Lemma unread_changes_exact_witness :
  exists d, CanModuleRosterRegistry.event_log_delta_since sample_later (CanModuleRosterRegistry.event_log_watermark sample_roster) = Some d
    /\ visited (CanModuleRosterEventLogDelta.retained_new_event_count d) (CanModuleRosterEventLogDelta.entries d)
       = Some [CanModuleRosterChangeSetEntry.mk 3 (Some CanModuleHeartbeatState.Starting) (Some CanModuleHeartbeatState.Alive);
               CanModuleRosterChangeSetEntry.mk 3 (Some CanModuleHeartbeatState.Alive) (Some CanModuleHeartbeatState.Unavailable);
               CanModuleRosterChangeSetEntry.mk 4 (Some CanModuleHeartbeatState.Alive) (Some CanModuleHeartbeatState.Unavailable)].
Proof.
  assert (RosterOp.run_all sample_before CanModuleRosterRegistry.new
    = Some (sample_roster, snd (sample_run sample_before CanModuleRosterRegistry.new))) as E1 by (lazy; reflexivity).
  assert (RosterOp.run_all sample_since sample_roster = Some (sample_later, snd (sample_run sample_since sample_roster))) as E2
    by (lazy; reflexivity).
  destruct (unread_changes_exact sample_before sample_since sample_roster sample_later _ _ E1 E2 ltac:(lazy; reflexivity))
    as (_ & d & Ed & Hv & _).
  exists d. split; [exact Ed|]. rewrite Hv. lazy. reflexivity.
Defined.

Definition sample_swept : CanModuleRosterRegistry.t * CanModuleRosterSweepSummary.t :=
  default (sample_roster, CanModuleRosterSweepSummary.default) (CanModuleRosterRegistry.sweep_stale sample_policy 101 sample_roster).

Lemma stale_modules_lose_trust_witness :
  CanModuleRosterShutdownCoordination.state <$> CanModuleRosterRegistry.shutdown_coordination (fst sample_swept)
  = Some CanModuleRosterShutdownCoordinationState.LocalTakeoverRequired.
Proof.
  assert (RosterOp.run_all sample_before CanModuleRosterRegistry.new
    = Some (sample_roster, snd (sample_run sample_before CanModuleRosterRegistry.new))) as E1 by (lazy; reflexivity).
  destruct (stale_modules_lose_trust sample_before sample_policy 101 sample_roster _ E1) as (r' & summary & es & Es & Hv & _ & _ & Hd).
  assert (r' = fst sample_swept) as -> by (unfold sample_swept; by rewrite Es).
  apply Hd. lazy in Hv. injection Hv as <-. apply Exists_cons_hd. reflexivity.
Defined.
