(* ===== verification/Sensors.v ===== *)
(** * Sensor conversion (crates/calibration/src/sensors, boards/common/src/sensors)

    From the counts of an analog converter to engineering units: the conversion to
    millivolts and ohms ([counts_to_mv], [node_mv_to_resistance_ohms]), the piecewise-linear
    curves ([Piecewise]), the two sensor models, the calibration of a board's sensors
    ([SensorsCal]), the pipeline over all channels ([convert_all]) and the two limiters of
    the rate of change.  The theorems say what a curve computes, what the pipeline's readings
    are, and when a limited signal arrives at its target.  A checked operation is [None]
    where a debug build panics; in a release build it wraps. *)
From Stdlib Require Import Sorted.
From S2P Require Import Prelude.

(** ** Converter and divider (convert.rs) *)
Module AdcConversionError.
Inductive t := InvalidBitDepth.
End AdcConversionError.

Definition counts_to_mv_checked (counts vref_mv bits : Z) : Result Z AdcConversionError.t :=
  if negb ((1 <=? bits) && (bits <=? 16)) then Err AdcConversionError.InvalidBitDepth
  else
    let max := Z.shiftl 1 bits - 1 in
    let clamped_counts := Z.min counts max in
    Ok (clamped_counts * vref_mv / max).

Definition counts_to_mv (counts vref_mv bits : Z) : Z :=
  match counts_to_mv_checked counts vref_mv bits with Ok mv => mv | Err _ => 0 end.

Module DividerConfig.
Inductive t := PullupTop | PulldownBottom.
End DividerConfig.

Definition node_mv_to_resistance_ohms (v_node_mv vref_mv r_known_ohms : Z) (cfg : DividerConfig.t) : option Z :=
  match cfg with
  | DividerConfig.PullupTop =>
    if vref_mv <=? v_node_mv then Some u32_max
    else Some (as_unsigned 32 (r_known_ohms * v_node_mv / (vref_mv - v_node_mv)))
  | DividerConfig.PulldownBottom =>
    if v_node_mv =? 0 then Some u32_max
    else
      above ← chk 64 (vref_mv - v_node_mv);
      Some (as_unsigned 32 (r_known_ohms * above / v_node_mv))
  end.

(** ** Piecewise-linear curves (curve.rs) *)
Module PiecewiseError.
Inductive t := EmptyDomain | DegenerateDomain | UnsortedDomain | DuplicateBreakpoint.
End PiecewiseError.

Module Piecewise.
(** [Piecewise<N>]: both arrays have [N] entries. *)
Record t := mk { xs : list Z; ys : list Z }.
#[global] Instance eta : Eta t := fun c => mk (xs c) (ys c).

Definition new : list Z -> list Z -> t := mk.

(** The loops from the second entry on; [prev] is the entry before. *)
Fixpoint is_sorted_loop (prev : Z) (rest : list Z) : bool :=
  match rest with
  | [] => true
  | x :: rest => if x <? prev then false else is_sorted_loop x rest
  end.

Definition is_sorted (c : t) : bool :=
  match xs c with [] => true | x :: rest => is_sorted_loop x rest end.

Fixpoint validate_domain_loop (prev : Z) (rest : list Z) : Result unit PiecewiseError.t :=
  match rest with
  | [] => Ok tt
  | x :: rest =>
    if x <? prev then Err PiecewiseError.UnsortedDomain
    else if x =? prev then Err PiecewiseError.DuplicateBreakpoint
    else validate_domain_loop x rest
  end.

Definition validate_domain (c : t) : Result unit PiecewiseError.t :=
  match xs c with
  | [] => Err PiecewiseError.EmptyDomain
  | [_] => Err PiecewiseError.DegenerateDomain
  | x :: rest => validate_domain_loop x rest
  end.

(** The search for the segment of [x]: the index where the loop stops. *)
Fixpoint segment_loop (x : Z) (idx : nat) (xs : list Z) : nat :=
  match xs with
  | x0 :: ((x1 :: _) as rest) =>
    if negb ((x0 <=? x) && (x <? x1)) then segment_loop x (S idx) rest else idx
  | _ => idx
  end.

(** [None] is an overflow of the product. *)
Definition map_checked (c : t) (x : Z) : option (Result Z PiecewiseError.t) :=
  match validate_domain c with
  | Err e => Some (Err e)
  | Ok _ =>
    let N := length (xs c) in
    if x <=? xs c !!! 0%nat then Some (Ok (ys c !!! 0%nat))
    else if xs c !!! (N - 1)%nat <=? x then Some (Ok (ys c !!! (N - 1)%nat))
    else
      let idx := segment_loop x 0 (xs c) in
      if (N <=? idx + 1)%nat then Some (Ok (ys c !!! (N - 1)%nat))
      else
        let x0 := xs c !!! idx in
        let x1 := xs c !!! (idx + 1)%nat in
        let y0 := ys c !!! idx in
        let y1 := ys c !!! (idx + 1)%nat in
        let dx := x1 - x0 in
        num ← chk_i 64 ((y1 - y0) * (x - x0));
        let y := y0 + Z.quot num dx in
        Some (Ok (as_signed 32 y))
  end.

Definition map (c : t) (x : Z) : option Z :=
  r ← map_checked c x;
  Some (match r with Ok y => y | Err _ => 0 end).
End Piecewise.

(** ** Sensor models (model.rs) *)
Class CalibratedSensor (S : Type) := value_from_counts : S -> Z -> option Z.

Module ResistiveSensor.
Record t := mk {
  vref_mv : Z; adc_bits : Z; r_known_ohms : Z; divider : DividerConfig.t; last_counts : Z;
  curve : Piecewise.t }.
Definition value_from_counts (s : t) (counts : Z) : option Z :=
  let mv := counts_to_mv counts (vref_mv s) (adc_bits s) in
  ohms ← node_mv_to_resistance_ohms mv (vref_mv s) (r_known_ohms s) (divider s);
  Piecewise.map (curve s) ohms.
End ResistiveSensor.
#[export] Instance resistive_calibrated : CalibratedSensor ResistiveSensor.t := ResistiveSensor.value_from_counts.

Module VoltageSensor.
Record t := mk { vref_mv : Z; adc_bits : Z; last_counts : Z; curve : Piecewise.t }.
Definition value_from_counts (s : t) (counts : Z) : option Z :=
  let mv := counts_to_mv counts (vref_mv s) (adc_bits s) in
  Piecewise.map (curve s) mv.
End VoltageSensor.
#[export] Instance voltage_calibrated : CalibratedSensor VoltageSensor.t := VoltageSensor.value_from_counts.

(** ** Calibration of the sensors (mod.rs) *)
Module SensorsCal.
Record t := mk {
  tps_min_counts : Z; tps_max_counts : Z;
  map_v0_mv : Z; map_kpa0_x10 : Z; map_v1_mv : Z; map_kpa1_x10 : Z;
  maf_mv : list Z; maf_flow_x100 : list Z;
  clt_deg_c : list Z; iat_deg_c : list Z; clt_ohms : list Z; iat_ohms : list Z }.
#[global] Instance eta : Eta t := fun c => mk (tps_min_counts c) (tps_max_counts c)
  (map_v0_mv c) (map_kpa0_x10 c) (map_v1_mv c) (map_kpa1_x10 c) (maf_mv c) (maf_flow_x100 c)
  (clt_deg_c c) (iat_deg_c c) (clt_ohms c) (iat_ohms c).

Definition default : t := {|
  tps_min_counts := 200; tps_max_counts := 3800;
  map_v0_mv := 500; map_kpa0_x10 := 100; map_v1_mv := 4500; map_kpa1_x10 := 2500;
  maf_mv := [0; 730; 1250; 1750; 2250; 2750; 3250; 4500];
  maf_flow_x100 := [0; 280; 780; 1520; 2520; 3880; 5680; 9300];
  clt_deg_c := [-40; -20; 0; 20; 40; 60; 80; 100];
  iat_deg_c := [-20; 0; 10; 20; 30; 40; 50; 60];
  clt_ohms := [100000; 60000; 35000; 20000; 12000; 7000; 4500; 3000];
  iat_ohms := [40000; 25000; 18000; 12000; 8000; 6000; 4500; 3500] |}.

Definition with_map_calibration (v0 kpa0 v1 kpa1 : Z) (c : t) : t :=
  c <| map_v0_mv := v0 |> <| map_kpa0_x10 := kpa0 |> <| map_v1_mv := v1 |> <| map_kpa1_x10 := kpa1 |>.
Definition with_maf_calibration (mv flow : list Z) (c : t) : t :=
  c <| maf_mv := mv |> <| maf_flow_x100 := flow |>.
Definition with_clt_calibration (deg ohms : list Z) (c : t) : t :=
  c <| clt_deg_c := deg |> <| clt_ohms := ohms |>.
Definition with_iat_calibration (deg ohms : list Z) (c : t) : t :=
  c <| iat_deg_c := deg |> <| iat_ohms := ohms |>.

Definition scale_mv (mv numerator denominator : Z) : Z :=
  if denominator =? 0 then 0 else as_unsigned 16 (mv * numerator / denominator).

Definition mpxh6400a_5v_scaled (num den : Z) : t :=
  with_map_calibration (scale_mv 200 num den) 200 (scale_mv 4800 num den) 4000 default.
Definition mpx5700ap_5v_scaled (num den : Z) : t :=
  with_map_calibration (scale_mv 296 num den) 150 (scale_mv 4700 num den) 7000 default.
End SensorsCal.

(** ** Choice of the pressure sensor (boards/common/src/sensors/map.rs) *)
Module MapSensorKind.
Inductive t := Mpxh6400a | Mpxh6400ac6u | Mpx5700ap.
End MapSensorKind.

Module MapCalibrationError.
Inductive t := ZeroDenominator | VoltageAmplification.
End MapCalibrationError.

Module VoltageScale.
Record t := new { numerator : Z; denominator : Z }.
Definition DIRECT_5V : t := new 1 1.
Definition validate (s : t) : Result t MapCalibrationError.t :=
  if denominator s =? 0 then Err MapCalibrationError.ZeroDenominator
  else if denominator s <? numerator s then Err MapCalibrationError.VoltageAmplification
  else Ok s.
End VoltageScale.

Definition map_sensor_calibration (kind : MapSensorKind.t) (scale : VoltageScale.t) : SensorsCal.t :=
  let scale := match VoltageScale.validate scale with Ok scale => scale | Err _ => VoltageScale.DIRECT_5V end in
  match kind with
  | MapSensorKind.Mpxh6400a | MapSensorKind.Mpxh6400ac6u =>
    SensorsCal.mpxh6400a_5v_scaled (VoltageScale.numerator scale) (VoltageScale.denominator scale)
  | MapSensorKind.Mpx5700ap =>
    SensorsCal.mpx5700ap_5v_scaled (VoltageScale.numerator scale) (VoltageScale.denominator scale)
  end.

Definition try_map_sensor_calibration (kind : MapSensorKind.t) (scale : VoltageScale.t) :
    Result SensorsCal.t MapCalibrationError.t :=
  let? scale := VoltageScale.validate scale in
  Ok (map_sensor_calibration kind scale).

(** ** The pipeline (adc_pipeline.rs) *)
Module ThermistorBias.
Record t := mk { known_ohms : Z; divider : DividerConfig.t }.
Definition PULLUP_2490 : t := mk 2490 DividerConfig.PullupTop.
End ThermistorBias.

Module LambdaAdcCalibration.
Record t := mk { mv_min : Z; lambda_min_x100 : Z; mv_max : Z; lambda_max_x100 : Z }.
Definition WIDEBAND_0V5_TO_4V5 : t := mk 500 68 4500 136.
End LambdaAdcCalibration.

Module BaroAdcCalibration.
Record t := mk { mv_min : Z; kpa_min_x10 : Z; mv_max : Z; kpa_max_x10 : Z }.
Definition LINEAR_0V5_TO_4V5 : t := mk 500 500 4500 1200.
End BaroAdcCalibration.

Module AdcConfig.
Record t := mk {
  vref_mv : Z; adc_bits : Z; vbatt_scale_num : Z; vbatt_scale_den : Z;
  clt_bias : ThermistorBias.t; iat_bias : ThermistorBias.t;
  lambda_cal : LambdaAdcCalibration.t; baro_cal : BaroAdcCalibration.t }.
End AdcConfig.

Module RawCounts.
Record t := mk {
  map : Z; maf : option Z; tps : Z; clt : Z; iat : Z; vbatt : Z; lambda : option Z; baro : option Z }.
End RawCounts.

Module SensorOutputs.
Record t := mk {
  map_kpa_x10 : Z; maf_valid : bool; maf_x100 : Z; tps_percent : Z; clt_c : Z; iat_c : Z;
  vbatt_mv : Z; lambda_valid : bool; lambda_x100 : Z; baro_valid : bool; baro_kpa_x10 : Z }.
End SensorOutputs.

(** The channels of [convert_all], in its order. *)
Definition map_channel (cfg : AdcConfig.t) (cal : SensorsCal.t) (raw : RawCounts.t) : option Z :=
  let map_curve := Piecewise.new
    [SensorsCal.map_v0_mv cal; SensorsCal.map_v1_mv cal]
    [SensorsCal.map_kpa0_x10 cal; SensorsCal.map_kpa1_x10 cal] in
  let map := VoltageSensor.mk (AdcConfig.vref_mv cfg) (AdcConfig.adc_bits cfg) 0 map_curve in
  v ← value_from_counts map (RawCounts.map raw);
  Some (as_unsigned 16 (clamp v 0 65535)).

Definition maf_channel (cfg : AdcConfig.t) (cal : SensorsCal.t) (raw : RawCounts.t) : option Z :=
  let maf_curve := Piecewise.new (SensorsCal.maf_mv cal) (SensorsCal.maf_flow_x100 cal) in
  let maf := VoltageSensor.mk (AdcConfig.vref_mv cfg) (AdcConfig.adc_bits cfg) 0 maf_curve in
  match RawCounts.maf raw with
  | Some counts => v ← value_from_counts maf counts; Some (as_unsigned 16 (clamp v 0 65535))
  | None => Some 0
  end.

Definition tps_channel (cal : SensorsCal.t) (raw : RawCounts.t) : Z :=
  let tps_min := SensorsCal.tps_min_counts cal in
  let tps_max := SensorsCal.tps_max_counts cal in
  let tps :=
    if tps_max <=? tps_min then 0
    else
      let tps_clamped := clamp (RawCounts.tps raw) tps_min tps_max in
      (tps_clamped - tps_min) * 100 / (tps_max - tps_min) in
  Z.min tps 100.

(** The thermistor table of a channel, in ascending order of resistance if it was in
    descending order. *)
Definition thermistor_curve (ohms deg : list Z) : Piecewise.t :=
  if ohms !!! 7%nat <? ohms !!! 0%nat then Piecewise.new (rev ohms) (rev deg)
  else Piecewise.new ohms deg.

Definition thermistor_channel (cfg : AdcConfig.t) (bias : ThermistorBias.t) (ohms deg : list Z)
    (counts : Z) : option Z :=
  let model := ResistiveSensor.mk (AdcConfig.vref_mv cfg) (AdcConfig.adc_bits cfg)
    (ThermistorBias.known_ohms bias) (ThermistorBias.divider bias) 0 (thermistor_curve ohms deg) in
  v ← value_from_counts model counts;
  Some (as_signed 16 v).

Definition vbatt_channel (cfg : AdcConfig.t) (raw : RawCounts.t) : Z :=
  let mv := counts_to_mv (RawCounts.vbatt raw) (AdcConfig.vref_mv cfg) (AdcConfig.adc_bits cfg) in
  if AdcConfig.vbatt_scale_den cfg =? 0 then 0
  else as_unsigned 16 (mv * AdcConfig.vbatt_scale_num cfg / AdcConfig.vbatt_scale_den cfg).

(** The line that the lambda and the barometer channel compute: from [lo] at [mv_min] to
    [hi] at [mv_max], in [i32]. *)
Definition linear_i32 (mv mv_min mv_max lo hi : Z) : option Z :=
  let mv_clamped := clamp mv mv_min mv_max in
  num ← chk_i 32 ((hi - lo) * (mv_clamped - mv_min));
  Some (lo + Z.quot num (mv_max - mv_min)).

Definition lambda_channel (cfg : AdcConfig.t) (raw : RawCounts.t) : option Z :=
  let cal := AdcConfig.lambda_cal cfg in
  match RawCounts.lambda raw with
  | Some counts =>
    let mv := counts_to_mv counts (AdcConfig.vref_mv cfg) (AdcConfig.adc_bits cfg) in
    if LambdaAdcCalibration.mv_max cal <=? LambdaAdcCalibration.mv_min cal then Some 100
    else
      lam ← linear_i32 mv (LambdaAdcCalibration.mv_min cal) (LambdaAdcCalibration.mv_max cal)
        (LambdaAdcCalibration.lambda_min_x100 cal) (LambdaAdcCalibration.lambda_max_x100 cal);
      Some (as_unsigned 16 (clamp lam 50 200))
  | None => Some 100
  end.

Definition baro_channel (cfg : AdcConfig.t) (raw : RawCounts.t) : option Z :=
  let cal := AdcConfig.baro_cal cfg in
  match RawCounts.baro raw with
  | Some counts =>
    let mv := counts_to_mv counts (AdcConfig.vref_mv cfg) (AdcConfig.adc_bits cfg) in
    if BaroAdcCalibration.mv_max cal <=? BaroAdcCalibration.mv_min cal then Some 0
    else
      kpa ← linear_i32 mv (BaroAdcCalibration.mv_min cal) (BaroAdcCalibration.mv_max cal)
        (BaroAdcCalibration.kpa_min_x10 cal) (BaroAdcCalibration.kpa_max_x10 cal);
      Some (as_unsigned 16 (clamp kpa 0 65535))
  | None => Some 0
  end.

Definition is_some {A} (o : option A) : bool := match o with Some _ => true | None => false end.

Definition convert_all (cfg : AdcConfig.t) (cal : SensorsCal.t) (raw : RawCounts.t) : option SensorOutputs.t :=
  map_kpa_x10 ← map_channel cfg cal raw;
  maf_x100 ← maf_channel cfg cal raw;
  clt_c ← thermistor_channel cfg (AdcConfig.clt_bias cfg) (SensorsCal.clt_ohms cal) (SensorsCal.clt_deg_c cal) (RawCounts.clt raw);
  iat_c ← thermistor_channel cfg (AdcConfig.iat_bias cfg) (SensorsCal.iat_ohms cal) (SensorsCal.iat_deg_c cal) (RawCounts.iat raw);
  lambda_x100 ← lambda_channel cfg raw;
  baro_kpa_x10 ← baro_channel cfg raw;
  Some {| SensorOutputs.map_kpa_x10 := map_kpa_x10;
          SensorOutputs.maf_valid := is_some (RawCounts.maf raw);
          SensorOutputs.maf_x100 := maf_x100;
          SensorOutputs.tps_percent := tps_channel cal raw;
          SensorOutputs.clt_c := clt_c;
          SensorOutputs.iat_c := iat_c;
          SensorOutputs.vbatt_mv := vbatt_channel cfg raw;
          SensorOutputs.lambda_valid := is_some (RawCounts.lambda raw);
          SensorOutputs.lambda_x100 := lambda_x100;
          SensorOutputs.baro_valid := is_some (RawCounts.baro raw);
          SensorOutputs.baro_kpa_x10 := baro_kpa_x10 |}.

(** ** Limits of the rate of change *)
Definition slew_max_delta (max_rate_per_s dt_us : Z) : Z :=
  as_signed 32 (saturating_mul 32 max_rate_per_s dt_us / 1000000).

Definition clamp_slew_u16 (prev new max_rate_per_s dt_us : Z) : Z :=
  if (dt_us =? 0) || (prev =? new) then new
  else
    let max_delta := slew_max_delta max_rate_per_s dt_us in
    let delta := new - prev in
    if max_delta <? delta then as_unsigned 16 (prev + max_delta)
    else if delta <? - max_delta then as_unsigned 16 (prev - max_delta)
    else new.

Definition clamp_slew_u8 (prev new max_rate_per_s dt_us : Z) : Z :=
  if (dt_us =? 0) || (prev =? new) then new
  else
    let max_delta := slew_max_delta max_rate_per_s dt_us in
    let delta := new - prev in
    if max_delta <? delta then as_unsigned 8 (clamp (prev + max_delta) 0 255)
    else if delta <? - max_delta then as_unsigned 8 (clamp (prev - max_delta) 0 255)
    else new.

Module sensors_examples.
Definition cfg : AdcConfig.t := {|
  AdcConfig.vref_mv := 3300; AdcConfig.adc_bits := 12;
  AdcConfig.vbatt_scale_num := 3; AdcConfig.vbatt_scale_den := 1;
  AdcConfig.clt_bias := ThermistorBias.PULLUP_2490; AdcConfig.iat_bias := ThermistorBias.PULLUP_2490;
  AdcConfig.lambda_cal := LambdaAdcCalibration.WIDEBAND_0V5_TO_4V5;
  AdcConfig.baro_cal := BaroAdcCalibration.LINEAR_0V5_TO_4V5 |}.
Definition raw : RawCounts.t := {|
  RawCounts.map := 2048; RawCounts.maf := Some 2048; RawCounts.tps := 2000; RawCounts.clt := 3000;
  RawCounts.iat := 3800; RawCounts.vbatt := 2000; RawCounts.lambda := Some 2048; RawCounts.baro := None |}.
End sensors_examples.

(** ** Curves against a reference definition

    The reference walks the breakpoints once: it holds the first value to the left of the
    table, the last to the right, and between two breakpoints follows the chord, rounded
    toward the value of the left one. *)
Definition chord (p q : Z * Z) (x : Z) : Z := p.2 + Z.quot ((q.2 - p.2) * (x - p.1)) (q.1 - p.1).

Fixpoint interp (pts : list (Z * Z)) (x : Z) : Z :=
  match pts with
  | [] => 0
  | p :: rest =>
    match rest with
    | [] => p.2
    | q :: _ => if x <=? p.1 then p.2 else if x <? q.1 then chord p q x else interp rest x
    end
  end.

Abbreviation ascending := (StronglySorted (fun p q : Z * Z => p.1 < q.1)).
Definition points (c : Piecewise.t) : list (Z * Z) := zip (Piecewise.xs c) (Piecewise.ys c).

(** The type of a curve, with room for the product of two spans in 64 bits. *)
Definition curve_typed (c : Piecewise.t) : Prop :=
  length (Piecewise.ys c) = length (Piecewise.xs c)
  /\ Forall u32 (Piecewise.xs c)
  /\ Forall (fun y => - 2 ^ 30 <= y < 2 ^ 30) (Piecewise.ys c).
Definition curve_valid (c : Piecewise.t) : Prop :=
  (2 <= length (Piecewise.xs c))%nat /\ StronglySorted Z.lt (Piecewise.xs c).

Lemma validate_domain_loop_ok prev rest :
  Piecewise.validate_domain_loop prev rest = Ok tt <-> Sorted Z.lt (prev :: rest).
Proof.
  revert prev. induction rest as [|x rest IH]; intros prev; cbn.
  - split; [by repeat constructor|done].
  - destruct (Z.ltb_spec x prev); [|destruct (Z.eqb_spec x prev)].
    1,2: split; [done|]; intros Hs; inversion_clear Hs as [|? ? _ Hh]; inversion Hh; lia.
    rewrite IH. split; [intros Hs; constructor; [done|]; constructor; lia|].
    intros Hs. by inversion_clear Hs.
Qed.

Lemma validate_domain_ok c : Piecewise.validate_domain c = Ok tt <-> curve_valid c.
Proof.
  unfold Piecewise.validate_domain, curve_valid.
  destruct (Piecewise.xs c) as [|x [|x' rest]]; cbn [length];
    [split; [done|lia]..|]. rewrite validate_domain_loop_ok.
  split; [|by intros [_ ?%StronglySorted_Sorted]].
  intros Hs. split; [lia|]. apply Sorted_StronglySorted; [intros ???; lia|done].
Qed.

Lemma validate_domain_cases c :
  Piecewise.validate_domain c = Ok tt \/ exists e, Piecewise.validate_domain c = Err e.
Proof. destruct (Piecewise.validate_domain c) as [[]|e]; eauto. Qed.

Lemma quot_between n k d : 0 <= k <= d -> 0 < d -> Z.min 0 n <= Z.quot (n * k) d <= Z.max 0 n.
Proof.
  intros Hk Hd. destruct (Z.leb_spec 0 n).
  - rewrite Z.quot_div_nonneg by nia. split; [|apply Z.div_le_upper_bound; nia].
    transitivity 0; [lia|]. apply Z.div_pos; nia.
  - replace (n * k) with (- (- n * k)) by lia. rewrite Z.quot_opp_l, Z.quot_div_nonneg by nia.
    assert (0 <= (- n * k) / d <= - n); [|lia].
    split; [apply Z.div_pos; nia|apply Z.div_le_upper_bound; nia].
Qed.

Lemma chord_between p q x : p.1 <= x <= q.1 -> p.1 < q.1 -> Z.min p.2 q.2 <= chord p q x <= Z.max p.2 q.2.
Proof. intros. unfold chord. pose proof (quot_between (q.2 - p.2) (x - p.1) (q.1 - p.1)). lia. Qed.

Lemma points_ascending xs ys : length ys = length xs -> StronglySorted Z.lt xs -> ascending (zip xs ys).
Proof.
  intros Hl Hs. revert ys Hl. induction Hs as [|x xs Hs IH Hx]; intros [|y ys] Hl; simplify_eq/=; [constructor..|].
  constructor; [by apply IH|]. apply Forall_forall. intros [a b] Hin. cbn.
  apply elem_of_zip_l in Hin. by eapply Forall_forall in Hx.
Qed.

Lemma segment_loop_cons x k x0 x1 rest :
  Piecewise.segment_loop x k (x0 :: x1 :: rest)
  = if negb ((x0 <=? x) && (x <? x1)) then Piecewise.segment_loop x (S k) (x1 :: rest) else k.
Proof. done. Qed.

Lemma interp_cons p q rest x :
  interp (p :: q :: rest) x = if x <=? p.1 then p.2 else if x <? q.1 then chord p q x else interp (q :: rest) x.
Proof. done. Qed.

Lemma segment_loop_S x k xs : Piecewise.segment_loop x (S k) xs = S (Piecewise.segment_loop x k xs).
Proof.
  revert k. induction xs as [|x0 [|x1 rest] IH]; intros k; [done..|].
  rewrite !segment_loop_cons. destruct (negb _); [apply IH|done].
Qed.

(** The segment the search stops at, and the chord there is the reference's. *)
Lemma segment_loop_spec x xs ys : length ys = length xs -> StronglySorted Z.lt xs ->
  xs !!! 0%nat <= x -> x < xs !!! (length xs - 1)%nat ->
  let i := Piecewise.segment_loop x 0 xs in
  (i + 1 < length xs)%nat /\ xs !!! i <= x < xs !!! (i + 1)%nat
  /\ interp (zip xs ys) x = chord (xs !!! i, ys !!! i) (xs !!! (i + 1)%nat, ys !!! (i + 1)%nat) x.
Proof.
  intros Hl Hs. revert ys Hl. induction Hs as [|x0 xs Hs IH Hx]; intros ys Hl; [cbn; lia|].
  destruct xs as [|x1 xs]; [cbn; lia|]. destruct ys as [|y0 [|y1 ys]]; try done.
  assert (x0 < x1) as H01 by (by inversion Hx). intros H0 Hlast.
  rewrite segment_loop_cons. cbn [zip zip_with] in *. rewrite interp_cons.
  change ((x0 :: x1 :: xs) !!! 0%nat) with x0 in H0. cbn [fst snd].
  destruct (Z.leb_spec x0 x); [|lia]. cbn [andb].
  destruct (Z.ltb_spec x x1) as [Hlt|Hge]; cbn [negb].
  - split; [cbn; lia|]. split; [cbn; lia|].
    destruct (Z.leb_spec x x0); [|done]. assert (x = x0) as -> by lia.
    unfold chord. cbn. rewrite Z.sub_diag, Z.mul_0_r, Z.quot_0_l; lia.
  - rewrite segment_loop_S. cbn zeta.
    specialize (IH (y1 :: ys) ltac:(cbn in *; lia) Hge). cbn zeta in IH.
    destruct IH as (Hi & Hb & He); [by replace (length (x1 :: xs) - 1)%nat with (length xs) by (cbn; lia)|].
    split; [cbn [length] in *; lia|]. split; [exact Hb|].
    destruct (Z.leb_spec x x0); [lia|]. exact He.
Qed.

Lemma interp_left p pts x : x <= p.1 -> interp (p :: pts) x = p.2.
Proof. intros Hx. cbn. destruct pts; [done|]. by destruct (Z.leb_spec x p.1); [|lia]. Qed.

Lemma interp_right pts p x : ascending (pts ++ [p]) -> p.1 <= x -> interp (pts ++ [p]) x = p.2.
Proof.
  induction pts as [|q pts IH]; intros Hs Hx; [done|]. rewrite <- app_comm_cons in *.
  inversion_clear Hs as [|? ? Hs' Hq].
  assert (forall r, r ∈ pts ++ [p] -> q.1 < r.1 /\ r.1 <= p.1) as Hr.
  { intros r Hr. split; [by eapply Forall_forall in Hq|].
    clear -Hs' Hr. induction pts as [|s pts IH]; cbn in *; [by apply list_elem_of_singleton in Hr as ->|].
    inversion_clear Hs' as [|? ? Hs Hall]. apply elem_of_cons in Hr as [->|Hr]; [|by apply IH].
    eapply Forall_forall in Hall; [apply Z.lt_le_incl, Hall|]. apply elem_of_app. right. by apply list_elem_of_singleton. }
  destruct (pts ++ [p]) as [|r rest] eqn:E; [by destruct pts|].
  rewrite interp_cons. pose proof (Hr r ltac:(left)).
  destruct (Z.leb_spec x q.1); [lia|]. destruct (Z.ltb_spec x r.1); [lia|]. by apply IH.
Qed.

Lemma last_zip {A B} `{Inhabited A, Inhabited B} (xs : list A) (ys : list B) : xs <> [] -> length ys = length xs ->
  exists l, zip xs ys = l ++ [(xs !!! (length xs - 1)%nat, ys !!! (length xs - 1)%nat)].
Proof.
  revert ys. induction xs as [|x [|x' xs] IH]; intros [|y ys] Hne Hl; try done.
  - destruct ys; [|done]. by exists [].
  - destruct ys as [|y' ys]; [done|]. cbn in Hl.
    destruct (IH (y' :: ys) ltac:(done) ltac:(cbn; lia)) as [l Hz].
    exists ((x, y) :: l). cbn [zip zip_with] in *. rewrite Hz. cbn.
    by replace (length xs - 0)%nat with (length xs) by lia.
Qed.

(** A valid curve computes the reference, and nothing else. *)
Lemma map_checked_interp c x : curve_typed c -> curve_valid c -> u32 x ->
  Piecewise.map_checked c x = Some (Ok (interp (points c) x)).
Proof.
  intros (Hl & Hxs & Hys) Hv Hx. unfold Piecewise.map_checked.
  rewrite (proj2 (validate_domain_ok c) Hv). destruct Hv as [HN Hs].
  pose proof (points_ascending _ _ Hl Hs) as Hasc.
  destruct (last_zip (Piecewise.xs c) (Piecewise.ys c)) as [l Hlast]; [intros E; rewrite E in HN; cbn in HN; lia|done|].
  unfold points in *.
  destruct (Z.leb_spec x (Piecewise.xs c !!! 0%nat)).
  { destruct (Piecewise.xs c) as [|x0 xs], (Piecewise.ys c) as [|y0 ys]; try (cbn in *; lia).
    cbn [zip zip_with]. by rewrite interp_left. }
  destruct (Z.leb_spec (Piecewise.xs c !!! (length (Piecewise.xs c) - 1)%nat) x).
  { rewrite Hlast in *. by rewrite interp_right. }
  destruct (segment_loop_spec x _ _ Hl Hs) as (Hi & Hb & He); [lia..|].
  set (i := Piecewise.segment_loop x 0 (Piecewise.xs c)) in *.
  destruct (Nat.leb_spec (length (Piecewise.xs c)) (i + 1)); [lia|].
  assert (forall k, (k < length (Piecewise.xs c))%nat ->
    u32 (Piecewise.xs c !!! k) /\ - 2 ^ 30 <= Piecewise.ys c !!! k < 2 ^ 30) as Hk.
  { intros k Hlt. split; [apply (Forall_lookup_1 _ _ k _ Hxs)|apply (Forall_lookup_1 _ _ k _ Hys)];
      apply list_lookup_lookup_total_lt; lia. }
  destruct (Hk i ltac:(lia)) as [Hx0 Hy0], (Hk (i + 1)%nat Hi) as [Hx1 Hy1].
  unfold fits in *. rewrite chk_i_ok by nia. cbn [mbind option_bind]. rewrite He.
  do 2 f_equal. apply as_signed_small; [lia|].
  pose proof (chord_between (Piecewise.xs c !!! i, Piecewise.ys c !!! i)
    (Piecewise.xs c !!! (i + 1)%nat, Piecewise.ys c !!! (i + 1)%nat) x) as Hch.
  unfold chord in *. cbn [fst snd] in *. lia.
Qed.

Abbreviation rising := (StronglySorted (fun p q : Z * Z => p.2 <= q.2)).
Abbreviation falling := (StronglySorted (fun p q : Z * Z => q.2 <= p.2)).

Lemma interp_hull pts lo hi x : ascending pts -> pts <> [] -> Forall (fun p => lo <= p.2 <= hi) pts ->
  lo <= interp pts x <= hi.
Proof.
  intros Hs. induction Hs as [|p [|q pts] Hs IH Hp]; intros Hne Hall; [done|by inversion Hall|].
  inversion Hall as [|? ? Hlo Hall']; subst. inversion Hall' as [|? ? Hq _]; subst.
  inversion Hp as [|? ? Hpq _]; subst. rewrite interp_cons.
  destruct (Z.leb_spec x p.1); [done|]. destruct (Z.ltb_spec x q.1).
  - pose proof (chord_between p q x). lia.
  - by apply IH.
Qed.

Lemma interp_breakpoint pts p : ascending pts -> p ∈ pts -> interp pts p.1 = p.2.
Proof.
  intros Hs. induction Hs as [|a [|b pts] Hs IH Ha]; intros Hin; [by apply elem_of_nil in Hin|..].
  - by apply list_elem_of_singleton in Hin as ->.
  - apply elem_of_cons in Hin as [->|Hin]; [by apply interp_left|].
    assert (a.1 < p.1) by (by eapply Forall_forall in Ha). rewrite interp_cons.
    destruct (Z.leb_spec p.1 a.1); [lia|]. destruct (Z.ltb_spec p.1 b.1); [|by apply IH].
    apply elem_of_cons in Hin as [->|Hin]; [lia|].
    inversion_clear Hs as [|? ? _ Hb]. eapply Forall_forall in Hb; [|exact Hin]. lia.
Qed.

Lemma interp_mono pts x x' : ascending pts -> rising pts -> x <= x' -> interp pts x <= interp pts x'.
Proof.
  intros Hs Hr. revert x x'. induction Hs as [|p [|q pts] Hs IH Hp]; intros x x' Hx; [done..|].
  inversion Hp as [|? ? Hpq _]; subst. inversion Hr as [|? ? Hr' Hpr]; subst.
  inversion Hpr as [|? ? Hpq2 _]; subst. specialize (IH Hr'). rewrite !interp_cons.
  pose proof (chord_between p q x). pose proof (chord_between p q x').
  pose proof (IH q.1 x') as Hq. rewrite (interp_left q pts q.1) in Hq by lia.
  destruct (Z.leb_spec x p.1), (Z.leb_spec x' p.1); try lia.
  - destruct (Z.ltb_spec x' q.1); lia.
  - destruct (Z.ltb_spec x q.1), (Z.ltb_spec x' q.1); try lia; [|by apply IH].
    unfold chord. apply Z.add_le_mono_l, Z.quot_le_mono; nia.
Qed.

(** The same table with its values negated: what rises on one falls on the other. *)
Definition mirrored (pts : list (Z * Z)) : list (Z * Z) := (fun p => (p.1, - p.2)) <$> pts.

Lemma interp_mirrored pts x : interp (mirrored pts) x = - interp pts x.
Proof.
  induction pts as [|p [|q pts] IH]; [done..|]. unfold mirrored in *. rewrite !fmap_cons in *.
  rewrite !interp_cons, IH. cbn [fst snd]. repeat case_match; try done.
  unfold chord; cbn [fst snd].
  replace ((- q.2 - - p.2) * (x - p.1)) with (- ((q.2 - p.2) * (x - p.1))) by lia.
  destruct (decide (q.1 - p.1 = 0)) as [->|]; [rewrite !(Z.quot_0_r_ext _ 0) by done; lia|].
  rewrite Z.quot_opp_l by done. lia.
Qed.

Lemma ascending_mirrored pts : ascending pts -> ascending (mirrored pts).
Proof. induction 1; constructor; [done|]. by apply Forall_fmap. Qed.

Lemma rising_mirrored pts : falling pts -> rising (mirrored pts).
Proof.
  induction 1 as [|p pts _ IH Hp]; constructor; [done|]. apply Forall_fmap. 
  eapply Forall_impl; [exact Hp|]. cbn. lia.
Qed.

Lemma interp_anti pts x x' : ascending pts -> falling pts -> x <= x' -> interp pts x' <= interp pts x.
Proof.
  intros Hs Hf Hx. pose proof (interp_mono (mirrored pts) x x') as H. rewrite !interp_mirrored in H.
  specialize (H (ascending_mirrored _ Hs) (rising_mirrored _ Hf) Hx). lia.
Qed.

(** Each entry above the one before it. *)
Definition ascendingb : list Z -> bool := fix go l :=
  match l with a :: ((b :: _) as l) => (a <? b) && go l | _ => true end.
Lemma ascendingb_sound l : ascendingb l = true -> StronglySorted Z.lt l.
Proof.
  intros H. apply Sorted_StronglySorted; [intros ???; lia|].
  induction l as [|a [|b l] IH]; [constructor|by repeat constructor|].
  cbn in H. to_prop. constructor; [by apply IH|]. by constructor.
Qed.
Lemma ascendingb_complete l : StronglySorted Z.lt l -> ascendingb l = true.
Proof.
  induction 1 as [|a [|b l] _ IH Ha]; [done..|]. inversion_clear Ha as [|? ? Hab _].
  cbn in *. rewrite IH. destruct (Z.ltb_spec a b); [done|lia].
Qed.

(** What a curve reads: the reference on a table of two or more ascending breakpoints, zero
    on any other. *)
Definition curve_reading (c : Piecewise.t) (x : Z) : Z :=
  if (2 <=? length (Piecewise.xs c))%nat && ascendingb (Piecewise.xs c) then interp (points c) x else 0.

Lemma curve_reading_eq c x :
  curve_reading c x = if is_ok (Piecewise.validate_domain c) then interp (points c) x else 0.
Proof.
  unfold curve_reading. destruct (validate_domain_cases c) as [Hv|[e He]].
  - rewrite Hv. cbn [is_ok]. apply validate_domain_ok in Hv as [HN Hs].
    rewrite (ascendingb_complete _ Hs). destruct (Nat.leb_spec 2 (length (Piecewise.xs c))); [done|lia].
  - rewrite He. cbn [is_ok]. destruct (Nat.leb_spec 2 (length (Piecewise.xs c))) as [HN|]; [|done].
    destruct (ascendingb (Piecewise.xs c)) eqn:Hs; [|done]. apply ascendingb_sound in Hs.
    exfalso. enough (Piecewise.validate_domain c = Ok tt) by congruence. by apply validate_domain_ok.
Qed.

Lemma map_reading c x : curve_typed c -> u32 x -> Piecewise.map c x = Some (curve_reading c x).
Proof.
  intros Ht Hx. rewrite curve_reading_eq. unfold Piecewise.map.
  destruct (validate_domain_cases c) as [Hv|[e He]].
  - rewrite (map_checked_interp c x Ht (proj1 (validate_domain_ok c) Hv) Hx), Hv. done.
  - unfold Piecewise.map_checked. by rewrite He.
Qed.

Lemma points_hull c lo hi : curve_typed c -> curve_valid c ->
  Forall (fun y => lo <= y <= hi) (Piecewise.ys c) ->
  points c <> [] /\ Forall (fun p => lo <= p.2 <= hi) (points c).
Proof.
  intros (Hl & _) [HN _] Hy. unfold points. split.
  - destruct (Piecewise.xs c), (Piecewise.ys c); cbn in *; done || lia.
  - apply Forall_forall. intros [a b] Hin. cbn. apply elem_of_zip_r in Hin. by eapply Forall_forall in Hy.
Qed.

Lemma reading_hull c lo hi x : curve_typed c -> lo <= 0 <= hi ->
  Forall (fun y => lo <= y <= hi) (Piecewise.ys c) -> lo <= curve_reading c x <= hi.
Proof.
  intros Ht H0 Hy. rewrite curve_reading_eq. destruct (validate_domain_cases c) as [Hv|[e He]].
  - pose proof (proj1 (validate_domain_ok c) Hv) as Hc. rewrite Hv. cbn [is_ok].
    destruct (points_hull c lo hi Ht Hc Hy) as [Hne Hall].
    apply interp_hull; [|done..]. destruct Ht as [Hl _], Hc as [_ Hs]. by apply points_ascending.
  - by rewrite He.
Qed.

Section Converter.
Context (vref bits : Z) (Hvref : u16 vref) (Hbits : 1 <= bits <= 16).

Lemma adc_max : 1 <= Z.shiftl 1 bits - 1.
Proof using Hbits.
  rewrite Z.shiftl_mul_pow2 by lia. assert (2 ^ 1 <= 2 ^ bits) by (apply Z.pow_le_mono_r; lia). lia.
Qed.

Lemma counts_to_mv_eq counts :
  counts_to_mv counts vref bits = Z.min counts (Z.shiftl 1 bits - 1) * vref / (Z.shiftl 1 bits - 1).
Proof using Hbits.
  unfold counts_to_mv, counts_to_mv_checked.
  destruct (Z.leb_spec 1 bits), (Z.leb_spec bits 16); try lia. done.
Qed.

(** The share of the reference voltage that a count is of the converter's range, a count
    above the range read as its end. *)
Definition millivolts (counts : Z) : Z := Z.min counts (2 ^ bits - 1) * vref / (2 ^ bits - 1).

Lemma counts_to_mv_millivolts counts : counts_to_mv counts vref bits = millivolts counts.
Proof using Hbits. rewrite counts_to_mv_eq, Z.shiftl_mul_pow2 by lia. unfold millivolts. by rewrite Z.mul_1_l. Qed.

Lemma counts_to_mv_range counts : 0 <= counts -> 0 <= counts_to_mv counts vref bits <= vref.
Proof using Hvref Hbits.
  intros Hc. pose proof adc_max. rewrite counts_to_mv_eq. unfold fits in *. split.
  - apply Z.div_pos; nia.
  - apply Z.div_le_upper_bound; nia.
Qed.

Lemma counts_to_mv_mono c c' : c <= c' -> counts_to_mv c vref bits <= counts_to_mv c' vref bits.
Proof using Hvref Hbits.
  intros Hc. pose proof adc_max. rewrite !counts_to_mv_eq. unfold fits in *.
  apply Z.div_le_mono; [lia|]. apply Z.mul_le_mono_nonneg_r; lia.
Qed.

Lemma counts_to_mv_full counts : Z.shiftl 1 bits - 1 <= counts -> counts_to_mv counts vref bits = vref.
Proof using Hbits.
  intros Hc. pose proof adc_max. rewrite counts_to_mv_eq, Z.min_r, Z.mul_comm, Z.div_mul; lia.
Qed.

Lemma counts_to_mv_zero : counts_to_mv 0 vref bits = 0.
Proof using Hbits. pose proof adc_max. rewrite counts_to_mv_eq, Z.min_l by lia. apply Z.div_0_l. lia. Qed.

Section Divider.
Context (known : Z) (Hknown : 0 <= known <= 65536).

(** The resistance seen through the divider, when no division or cast falls out of range. *)
Definition divider_ohms (d : DividerConfig.t) (mv : Z) : Z :=
  match d with
  | DividerConfig.PullupTop => if vref <=? mv then u32_max else known * mv / (vref - mv)
  | DividerConfig.PulldownBottom => if mv =? 0 then u32_max else known * (vref - mv) / mv
  end.

Lemma div_u32 n d : 0 <= n < 2 ^ 32 -> 1 <= d -> 0 <= n / d < 2 ^ 32.
Proof. intros. split; [apply Z.div_pos; lia|]. apply Z.div_lt_upper_bound; nia. Qed.

Lemma node_ohms_eq d mv : 0 <= mv <= vref ->
  node_mv_to_resistance_ohms mv vref known d = Some (divider_ohms d mv) /\ u32 (divider_ohms d mv).
Proof using Hvref Hknown.
  intros Hmv. unfold node_mv_to_resistance_ohms, divider_ohms, fits in *.
  destruct d.
  - destruct (Z.leb_spec vref mv); [done|].
    assert (0 <= known * mv / (vref - mv) < 2 ^ 32) by (apply div_u32; nia).
    split; [|done]. by rewrite as_unsigned_small.
  - destruct (Z.eqb_spec mv 0); [done|]. rewrite chk_ok by lia. cbn [mbind option_bind].
    assert (0 <= known * (vref - mv) / mv < 2 ^ 32) by (apply div_u32; nia).
    split; [|done]. by rewrite as_unsigned_small.
Qed.

Lemma pullup_ohms_mono mv mv' : 0 <= mv <= mv' -> mv' <= vref ->
  divider_ohms DividerConfig.PullupTop mv <= divider_ohms DividerConfig.PullupTop mv'.
Proof using Hvref Hknown.
  intros Hmv Hv. pose proof (proj2 (node_ohms_eq DividerConfig.PullupTop mv ltac:(lia))) as Hu.
  unfold divider_ohms, fits, u32_max in *. 
  destruct (Z.leb_spec vref mv), (Z.leb_spec vref mv'); try lia.
  apply Z.div_le_lower_bound; [lia|].
  assert (known * mv / (vref - mv) * (vref - mv) <= known * mv) by (rewrite Z.mul_comm; apply Z.mul_div_le; lia).
  assert (0 <= known * mv / (vref - mv)) by (apply Z.div_pos; nia). nia.
Qed.
End Divider.
End Converter.

(** ** The channels of the pipeline *)

(** The inputs of the pipeline as their types bound them, with the spans for which nothing
    overflows: a known resistor of at most 65536 ohms, and linear channels whose rectangle
    of volts and values fits in 31 bits. *)
Definition span_fits (mv_min mv_max lo hi : Z) : Prop :=
  u16 mv_min /\ u16 mv_max /\ u16 lo /\ u16 hi /\ Z.abs (hi - lo) * (mv_max - mv_min) < 2 ^ 31.
Definition bias_fits (b : ThermistorBias.t) : Prop := 0 <= ThermistorBias.known_ohms b <= 65536.

Definition config_fits (cfg : AdcConfig.t) : Prop :=
  u16 (AdcConfig.vref_mv cfg) /\ 1 <= AdcConfig.adc_bits cfg <= 16
  /\ u16 (AdcConfig.vbatt_scale_num cfg) /\ u16 (AdcConfig.vbatt_scale_den cfg)
  /\ bias_fits (AdcConfig.clt_bias cfg) /\ bias_fits (AdcConfig.iat_bias cfg)
  /\ (let c := AdcConfig.lambda_cal cfg in
      span_fits (LambdaAdcCalibration.mv_min c) (LambdaAdcCalibration.mv_max c)
        (LambdaAdcCalibration.lambda_min_x100 c) (LambdaAdcCalibration.lambda_max_x100 c))
  /\ (let c := AdcConfig.baro_cal cfg in
      span_fits (BaroAdcCalibration.mv_min c) (BaroAdcCalibration.mv_max c)
        (BaroAdcCalibration.kpa_min_x10 c) (BaroAdcCalibration.kpa_max_x10 c)).

Definition thermistor_typed (ohms deg : list Z) : Prop :=
  length ohms = 8%nat /\ length deg = 8%nat /\ Forall u32 ohms /\ Forall i16 deg.

Definition cal_typed (cal : SensorsCal.t) : Prop :=
  u16 (SensorsCal.tps_min_counts cal) /\ u16 (SensorsCal.tps_max_counts cal)
  /\ u16 (SensorsCal.map_v0_mv cal) /\ u16 (SensorsCal.map_kpa0_x10 cal)
  /\ u16 (SensorsCal.map_v1_mv cal) /\ u16 (SensorsCal.map_kpa1_x10 cal)
  /\ length (SensorsCal.maf_mv cal) = 8%nat /\ length (SensorsCal.maf_flow_x100 cal) = 8%nat
  /\ Forall u16 (SensorsCal.maf_mv cal) /\ Forall u16 (SensorsCal.maf_flow_x100 cal)
  /\ thermistor_typed (SensorsCal.clt_ohms cal) (SensorsCal.clt_deg_c cal)
  /\ thermistor_typed (SensorsCal.iat_ohms cal) (SensorsCal.iat_deg_c cal).

Definition raw_typed (raw : RawCounts.t) : Prop :=
  u16 (RawCounts.map raw) /\ u16 (RawCounts.tps raw) /\ u16 (RawCounts.clt raw)
  /\ u16 (RawCounts.iat raw) /\ u16 (RawCounts.vbatt raw)
  /\ from_option u16 True (RawCounts.maf raw) /\ from_option u16 True (RawCounts.lambda raw)
  /\ from_option u16 True (RawCounts.baro raw).

Lemma u16_widen l : Forall u16 l -> Forall u32 l /\ Forall (fun y => - 2 ^ 30 <= y < 2 ^ 30) l.
Proof. intros H. split; (eapply Forall_impl; [exact H|]); unfold fits; intros; lia. Qed.

Lemma voltage_curve_typed xs ys : length ys = length xs -> Forall u16 xs -> Forall u16 ys ->
  curve_typed (Piecewise.new xs ys).
Proof. intros Hl Hx Hy. split; [done|]. split; [by apply u16_widen|by apply (u16_widen ys)]. Qed.

Lemma thermistor_curve_typed ohms deg : thermistor_typed ohms deg ->
  curve_typed (thermistor_curve ohms deg) /\ Forall i16 (Piecewise.ys (thermistor_curve ohms deg)).
Proof.
  intros (Ho & Hd & Huo & Hud). unfold thermistor_curve, curve_typed.
  assert (forall l, Forall i16 l -> Forall (fun y => - 2 ^ 30 <= y < 2 ^ 30) l) as Hw.
  { intros l Hl. eapply Forall_impl; [exact Hl|]. unfold i16. intros; lia. }
  destruct (_ <? _); cbn [Piecewise.xs Piecewise.ys Piecewise.new].
  - rewrite !length_rev, Ho, Hd. split; [|by apply Forall_rev]. split; [done|].
    split; [by apply Forall_rev|]. by apply Hw, Forall_rev.
  - rewrite Ho, Hd. auto.
Qed.

Lemma voltage_reading c vref bits counts : curve_typed c -> u16 vref -> 1 <= bits <= 16 -> u16 counts ->
  value_from_counts (VoltageSensor.mk vref bits 0 c) counts
  = Some (curve_reading c (counts_to_mv counts vref bits)).
Proof.
  intros Hc Hv Hb Hn. pose proof (counts_to_mv_range vref bits Hv Hb counts ltac:(apply Hn)).
  apply map_reading; [done|]. unfold fits in *. lia.
Qed.

(** The temperature a thermistor channel reads. *)
Definition thermistor_reading (cfg : AdcConfig.t) (bias : ThermistorBias.t) (ohms deg : list Z) (counts : Z) : Z :=
  curve_reading (thermistor_curve ohms deg)
    (divider_ohms (AdcConfig.vref_mv cfg) (ThermistorBias.known_ohms bias) (ThermistorBias.divider bias)
       (millivolts (AdcConfig.vref_mv cfg) (AdcConfig.adc_bits cfg) counts)).

Lemma thermistor_channel_reading cfg bias ohms deg counts :
  u16 (AdcConfig.vref_mv cfg) -> 1 <= AdcConfig.adc_bits cfg <= 16 -> bias_fits bias ->
  thermistor_typed ohms deg -> u16 counts ->
  thermistor_channel cfg bias ohms deg counts = Some (thermistor_reading cfg bias ohms deg counts)
  /\ i16 (thermistor_reading cfg bias ohms deg counts).
Proof.
  intros Hv Hb Hk Ht Hn. destruct (thermistor_curve_typed ohms deg Ht) as [Hc Hi].
  pose proof (counts_to_mv_range _ _ Hv Hb counts ltac:(apply Hn)) as Hmv.
  destruct (node_ohms_eq _ Hv _ Hk (ThermistorBias.divider bias) _ Hmv) as [He Hu].
  assert (i16 (thermistor_reading cfg bias ohms deg counts)) as Hr.
  { unfold thermistor_reading, i16.
    match goal with |- - 32768 <= ?r < 32768 => enough (-32768 <= r <= 32767) by lia end.
    apply reading_hull; [done|lia|]. eapply Forall_impl; [exact Hi|]. unfold i16. intros; lia. }
  split; [|done]. unfold thermistor_channel, value_from_counts, resistive_calibrated, ResistiveSensor.value_from_counts.
  cbn [ResistiveSensor.vref_mv ResistiveSensor.adc_bits ResistiveSensor.r_known_ohms ResistiveSensor.divider ResistiveSensor.curve].
  rewrite He. cbn [mbind option_bind]. rewrite (map_reading _ _ Hc Hu). cbn [mbind option_bind].
  rewrite counts_to_mv_millivolts by done. f_equal. apply as_signed_small; [lia|]. unfold i16 in Hr. exact Hr.
Qed.

Lemma reading_ends c : curve_typed c -> curve_valid c ->
  (forall x, x <= 0 -> curve_reading c x = Piecewise.ys c !!! 0%nat)
  /\ curve_reading c u32_max = Piecewise.ys c !!! (length (Piecewise.xs c) - 1)%nat.
Proof.
  intros (Hl & Hx & _) Hv. setoid_rewrite curve_reading_eq.
  rewrite (proj2 (validate_domain_ok c) Hv). cbn [is_ok].
  destruct Hv as [HN Hs]. pose proof (points_ascending _ _ Hl Hs) as Hasc. unfold points. split.
  - intros x Hx0. destruct (Piecewise.xs c) as [|x0 xs], (Piecewise.ys c) as [|y0 ys]; try (cbn in *; lia).
    inversion_clear Hx as [|? ? Hx00 _]. unfold fits in Hx00. cbn [zip zip_with].
    rewrite interp_left by (cbn; lia). done.
  - destruct (last_zip (Piecewise.xs c) (Piecewise.ys c)) as [l Hlast];
      [intros E; rewrite E in HN; cbn in HN; lia|done|].
    assert (u32 (Piecewise.xs c !!! (length (Piecewise.xs c) - 1)%nat)) as Hu.
    { apply (Forall_lookup_1 _ _ (length (Piecewise.xs c) - 1) _ Hx), list_lookup_lookup_total_lt. lia. }
    rewrite Hlast in *. rewrite interp_right; [done|exact Hasc|]. unfold fits in Hu. cbn [fst]. unfold u32_max. lia.
Qed.

(** A thermistor on a pull-up, with a table on which temperature falls as resistance
    rises, in either order of entry: every count gives a temperature, a higher count never
    a higher one; a short circuit reads as the hottest entry of the table and an open
    circuit, a full count, as the coldest. *)
Theorem thermistor_failures_read_extremes cfg bias ohms deg :
  0 < AdcConfig.vref_mv cfg -> u16 (AdcConfig.vref_mv cfg) -> 1 <= AdcConfig.adc_bits cfg <= 16 ->
  bias_fits bias -> ThermistorBias.divider bias = DividerConfig.PullupTop ->
  thermistor_typed ohms deg ->
  curve_valid (thermistor_curve ohms deg) -> falling (points (thermistor_curve ohms deg)) ->
  exists read : Z -> Z,
    (forall counts, u16 counts -> thermistor_channel cfg bias ohms deg counts = Some (read counts))
    /\ read 0 = Piecewise.ys (thermistor_curve ohms deg) !!! 0%nat
    /\ (forall counts, Z.shiftl 1 (AdcConfig.adc_bits cfg) - 1 <= counts ->
          read counts = Piecewise.ys (thermistor_curve ohms deg) !!! 7%nat)
    /\ (forall c c', 0 <= c <= c' -> read c' <= read c).
Proof.
  intros Hv0 Hv Hb Hk Hd Ht Hc Hf. exists (thermistor_reading cfg bias ohms deg).
  destruct (thermistor_curve_typed ohms deg Ht) as [Hct _].
  assert (length (Piecewise.xs (thermistor_curve ohms deg)) = 8%nat) as Hlen.
  { destruct Ht as (Ho & _). unfold thermistor_curve. by destruct (_ <? _); cbn; rewrite ?length_rev. }
  destruct (reading_ends _ Hct Hc) as [Hleft Hright]. rewrite Hlen in Hright.
  split_and!.
  - intros counts Hn. by apply thermistor_channel_reading.
  - unfold thermistor_reading. rewrite Hd, <- counts_to_mv_millivolts, counts_to_mv_zero by done. apply Hleft. cbn.
    destruct (Z.leb_spec (AdcConfig.vref_mv cfg) 0); [lia|]. rewrite Z.mul_0_r, Z.div_0_l; lia.
  - intros counts Hn. unfold thermistor_reading. rewrite Hd, <- counts_to_mv_millivolts, counts_to_mv_full by done. cbn [divider_ohms].
    by rewrite Z.leb_refl.
  - intros c c' Hcc. unfold thermistor_reading. rewrite !curve_reading_eq, <- !counts_to_mv_millivolts by done.
    rewrite (proj2 (validate_domain_ok _) Hc), Hd. cbn [is_ok]. apply interp_anti; [|done|].
    + destruct Hct as [Hl _], Hc as [_ Hs]. by apply points_ascending.
    + pose proof (counts_to_mv_range _ _ Hv Hb c). pose proof (counts_to_mv_range _ _ Hv Hb c').
      pose proof (counts_to_mv_mono _ _ Hv Hb c c'). apply pullup_ohms_mono; [done|done|lia|lia].
Qed.

Lemma thermistor_failures_read_extremes_witness :
  let cfg := sensors_examples.cfg in
  let c := SensorsCal.default in
  exists read, (forall counts, u16 counts ->
      thermistor_channel cfg (AdcConfig.clt_bias cfg) (SensorsCal.clt_ohms c) (SensorsCal.clt_deg_c c) counts = Some (read counts))
    /\ read 0 = 100
    /\ (forall counts, Z.shiftl 1 (AdcConfig.adc_bits cfg) - 1 <= counts -> read counts = -40)
    /\ (forall n n', 0 <= n <= n' -> read n' <= read n).
Proof.
  apply (thermistor_failures_read_extremes sensors_examples.cfg ThermistorBias.PULLUP_2490
    (SensorsCal.clt_ohms SensorsCal.default) (SensorsCal.clt_deg_c SensorsCal.default)).
  - done.
  - done.
  - change (1 <= 12 <= 16). lia.
  - change (0 <= 2490 <= 65536). lia.
  - done.
  - repeat split; repeat constructor; done.
  - split; [cbn; lia|]. apply ascendingb_sound. done.
  - cbn. repeat constructor; cbn; lia.
Defined.

Lemma linear_i32_between mv mv_min mv_max lo hi : span_fits mv_min mv_max lo hi -> mv_min < mv_max ->
  linear_i32 mv mv_min mv_max lo hi = Some (chord (mv_min, lo) (mv_max, hi) (clamp mv mv_min mv_max))
  /\ Z.min lo hi <= chord (mv_min, lo) (mv_max, hi) (clamp mv mv_min mv_max) <= Z.max lo hi.
Proof.
  intros (Hm & HM & Hlo & Hhi & Hs) Hlt. unfold linear_i32.
  pose proof (clamp_bounds mv mv_min mv_max ltac:(lia)) as Hc. set (x := clamp mv mv_min mv_max) in *.
  rewrite chk_i_ok by nia. cbn [mbind option_bind]. split; [done|].
  pose proof (chord_between (mv_min, lo) (mv_max, hi) x) as Hch. cbn in Hch. lia.
Qed.

Definition map_curve (cal : SensorsCal.t) : Piecewise.t :=
  Piecewise.new [SensorsCal.map_v0_mv cal; SensorsCal.map_v1_mv cal]
    [SensorsCal.map_kpa0_x10 cal; SensorsCal.map_kpa1_x10 cal].
Definition maf_curve (cal : SensorsCal.t) : Piecewise.t :=
  Piecewise.new (SensorsCal.maf_mv cal) (SensorsCal.maf_flow_x100 cal).

Lemma u16_reading c x : curve_typed c -> Forall u16 (Piecewise.ys c) -> u16 (curve_reading c x).
Proof.
  intros Hc Hy. unfold fits. enough (0 <= curve_reading c x <= 65535) by lia.
  apply reading_hull; [done|lia|]. eapply Forall_impl; [exact Hy|]. unfold fits. intros; lia.
Qed.

Lemma u16_clamp_cast v : u16 v -> as_unsigned 16 (clamp v 0 65535) = v.
Proof. intros Hv. unfold clamp, fits in *. repeat case_match; to_prop; try lia. by apply as_unsigned_small. Qed.

Lemma u16_voltage_channel c vref bits counts : curve_typed c -> Forall u16 (Piecewise.ys c) ->
  u16 vref -> 1 <= bits <= 16 -> u16 counts ->
  (v ← value_from_counts (VoltageSensor.mk vref bits 0 c) counts; Some (as_unsigned 16 (clamp v 0 65535)))
  = Some (curve_reading c (millivolts vref bits counts)).
Proof.
  intros Hc Hy Hv Hb Hn. rewrite voltage_reading by done. cbn [mbind option_bind].
  rewrite counts_to_mv_millivolts by done. by rewrite u16_clamp_cast by (by apply u16_reading).
Qed.

(** A table of two or more ascending breakpoints read by the reference; any other reads zero. *)
Definition table_reading (pts : list (Z * Z)) (x : Z) : Z :=
  if (2 <=? length pts)%nat && ascendingb pts.*1 then interp pts x else 0.

(** A thermistor's pairs of resistance and temperature, turned round where they end on a
    smaller resistance than they start with. *)
Definition thermistor_table (ohms deg : list Z) : list (Z * Z) :=
  let pts := zip ohms deg in
  match head pts, last pts with
  | Some p, Some q => if q.1 <? p.1 then reverse pts else pts
  | _, _ => pts
  end.

Lemma thermistor_table_points ohms deg : thermistor_typed ohms deg ->
  points (thermistor_curve ohms deg) = thermistor_table ohms deg.
Proof.
  intros (Ho & Hd & _). do 8 (destruct ohms as [|? ohms]; [done|]). destruct ohms; [|done].
  do 8 (destruct deg as [|? deg]; [done|]). destruct deg; [|done].
  unfold thermistor_curve, thermistor_table. cbn. by destruct (_ <? _).
Qed.

(** What each channel is to read, from its own counts. *)
Section Readings.
Context (cfg : AdcConfig.t) (cal : SensorsCal.t) (raw : RawCounts.t).

Definition volts (counts : Z) : Z := millivolts (AdcConfig.vref_mv cfg) (AdcConfig.adc_bits cfg) counts.

(** The temperature of the resistance that the divider's voltage stands for. *)
Definition temperature (bias : ThermistorBias.t) (ohms deg : list Z) (counts : Z) : Z :=
  table_reading (thermistor_table ohms deg)
    (divider_ohms (AdcConfig.vref_mv cfg) (ThermistorBias.known_ohms bias) (ThermistorBias.divider bias) (volts counts)).

(** The share of the calibrated span, in whole percents. *)
Definition throttle : Z :=
  let lo := SensorsCal.tps_min_counts cal in
  let hi := SensorsCal.tps_max_counts cal in
  if hi <=? lo then 0 else (clamp (RawCounts.tps raw) lo hi - lo) * 100 / (hi - lo).

(** The battery's voltage before it is stored in 16 bits. *)
Definition battery : Z :=
  if AdcConfig.vbatt_scale_den cfg =? 0 then 0
  else volts (RawCounts.vbatt raw) * AdcConfig.vbatt_scale_num cfg / AdcConfig.vbatt_scale_den cfg.

(** A point on the line from [lo] at [mv_min] to [hi] at [mv_max], held at its ends; [fallback]
    where the counts are absent or the line has no span. *)
Definition on_line (fallback mv_min mv_max lo hi : Z) (counts : option Z) : Z :=
  match counts with
  | Some n => if mv_max <=? mv_min then fallback
              else chord (mv_min, lo) (mv_max, hi) (clamp (volts n) mv_min mv_max)
  | None => fallback
  end.

Definition mixture : Z :=
  let c := AdcConfig.lambda_cal cfg in
  clamp (on_line 100 (LambdaAdcCalibration.mv_min c) (LambdaAdcCalibration.mv_max c)
    (LambdaAdcCalibration.lambda_min_x100 c) (LambdaAdcCalibration.lambda_max_x100 c) (RawCounts.lambda raw)) 50 200.
Definition barometer : Z :=
  let c := AdcConfig.baro_cal cfg in
  on_line 0 (BaroAdcCalibration.mv_min c) (BaroAdcCalibration.mv_max c)
    (BaroAdcCalibration.kpa_min_x10 c) (BaroAdcCalibration.kpa_max_x10 c) (RawCounts.baro raw).

(** The readings of a conversion: each channel its own, the flags of the optional ones as
    their counts are present.  The battery alone may leave the range of its field, where its
    last sixteen bits are stored. *)
Record readings_of (out : SensorOutputs.t) : Prop := {
  reads_map : SensorOutputs.map_kpa_x10 out = curve_reading (map_curve cal) (volts (RawCounts.map raw));
  reads_maf : SensorOutputs.maf_x100 out
    = from_option (fun n => curve_reading (maf_curve cal) (volts n)) 0 (RawCounts.maf raw);
  reads_tps : SensorOutputs.tps_percent out = throttle /\ 0 <= throttle <= 100
    /\ (RawCounts.tps raw <= SensorsCal.tps_min_counts cal -> throttle = 0)
    /\ (SensorsCal.tps_min_counts cal < SensorsCal.tps_max_counts cal <= RawCounts.tps raw -> throttle = 100);
  reads_clt : SensorOutputs.clt_c out
    = temperature (AdcConfig.clt_bias cfg) (SensorsCal.clt_ohms cal) (SensorsCal.clt_deg_c cal) (RawCounts.clt raw);
  reads_iat : SensorOutputs.iat_c out
    = temperature (AdcConfig.iat_bias cfg) (SensorsCal.iat_ohms cal) (SensorsCal.iat_deg_c cal) (RawCounts.iat raw);
  reads_vbatt : SensorOutputs.vbatt_mv out = battery mod 2 ^ 16
    /\ (battery < 2 ^ 16 -> SensorOutputs.vbatt_mv out = battery);
  reads_lambda : SensorOutputs.lambda_x100 out = mixture;
  reads_baro : SensorOutputs.baro_kpa_x10 out = barometer;
  reads_flags : SensorOutputs.maf_valid out = is_some (RawCounts.maf raw)
    /\ SensorOutputs.lambda_valid out = is_some (RawCounts.lambda raw)
    /\ SensorOutputs.baro_valid out = is_some (RawCounts.baro raw);
  reads_typed : u16 (SensorOutputs.map_kpa_x10 out) /\ u16 (SensorOutputs.maf_x100 out)
    /\ i16 (SensorOutputs.clt_c out) /\ i16 (SensorOutputs.iat_c out) /\ u16 (SensorOutputs.vbatt_mv out)
    /\ 50 <= SensorOutputs.lambda_x100 out <= 200 /\ u16 (SensorOutputs.baro_kpa_x10 out) }.

Context (Hcfg : config_fits cfg).

Lemma temperature_eq bias ohms deg counts : thermistor_typed ohms deg ->
  thermistor_reading cfg bias ohms deg counts = temperature bias ohms deg counts.
Proof using.
  intros Ht. pose proof (thermistor_table_points ohms deg Ht) as Hp.
  destruct (thermistor_curve_typed ohms deg Ht) as [(Hl & _) _].
  unfold thermistor_reading, temperature, curve_reading, table_reading. rewrite <- Hp. unfold points.
  rewrite (fst_zip (Piecewise.xs _)) by (rewrite Hl; lia).
  by rewrite length_zip, Hl, Nat.min_id.
Qed.

Lemma volts_eq counts : counts_to_mv counts (AdcConfig.vref_mv cfg) (AdcConfig.adc_bits cfg) = volts counts.
Proof using Hcfg. destruct Hcfg as (_ & Hb & _). by apply counts_to_mv_millivolts. Qed.

Lemma tps_channel_spec : u16 (SensorsCal.tps_min_counts cal) -> u16 (SensorsCal.tps_max_counts cal) ->
  tps_channel cal raw = throttle /\ 0 <= throttle <= 100
  /\ (RawCounts.tps raw <= SensorsCal.tps_min_counts cal -> throttle = 0)
  /\ (SensorsCal.tps_min_counts cal < SensorsCal.tps_max_counts cal <= RawCounts.tps raw -> throttle = 100).
Proof.
  intros Hm HM. unfold tps_channel, throttle, fits in *.
  destruct (Z.leb_spec (SensorsCal.tps_max_counts cal) (SensorsCal.tps_min_counts cal)); [lia|].
  pose proof (clamp_bounds (RawCounts.tps raw) (SensorsCal.tps_min_counts cal) (SensorsCal.tps_max_counts cal) ltac:(lia)) as Hc.
  match goal with |- Z.min ?q 100 = ?q /\ _ => assert (0 <= q <= 100) as Hq end.
  { split; [apply Z.div_pos; lia|]. apply Z.div_le_upper_bound; nia. }
  split; [lia|]. split; [exact Hq|]. clear Hq. split; intros Hle.
  - replace (clamp _ _ _) with (SensorsCal.tps_min_counts cal); [by rewrite Z.sub_diag, Z.mul_0_l, Z.div_0_l by lia|].
    unfold clamp in *. repeat case_match; to_prop; lia.
  - replace (clamp _ _ _) with (SensorsCal.tps_max_counts cal).
    + rewrite Z.mul_comm, Z.div_mul; lia.
    + unfold clamp in *. repeat case_match; to_prop; lia.
Qed.

Lemma lambda_channel_spec : lambda_channel cfg raw = Some mixture /\ 50 <= mixture <= 200.
Proof using Hcfg.
  pose proof Hcfg as (_ & _ & _ & _ & _ & _ & Hs & _). split; [|by apply clamp_bounds].
  unfold lambda_channel, mixture, on_line. destruct (RawCounts.lambda raw) as [n|]; [|done]. rewrite volts_eq.
  destruct (Z.leb_spec (LambdaAdcCalibration.mv_max (AdcConfig.lambda_cal cfg)) (LambdaAdcCalibration.mv_min (AdcConfig.lambda_cal cfg))); [done|].
  destruct (linear_i32_between (volts n) _ _ _ _ Hs) as [He _]; [lia|]. rewrite He. cbn [mbind option_bind].
  f_equal. apply as_unsigned_small. match goal with |- fits _ (clamp ?v _ _) => pose proof (clamp_bounds v 50 200) end.
  unfold fits. lia.
Qed.

Lemma baro_channel_spec : baro_channel cfg raw = Some barometer /\ u16 barometer.
Proof using Hcfg.
  pose proof Hcfg as (_ & _ & _ & _ & _ & _ & _ & Hs).
  unfold baro_channel, barometer, on_line. destruct (RawCounts.baro raw) as [n|]; [|done]. rewrite volts_eq.
  destruct (Z.leb_spec (BaroAdcCalibration.mv_max (AdcConfig.baro_cal cfg)) (BaroAdcCalibration.mv_min (AdcConfig.baro_cal cfg))); [done|].
  destruct (linear_i32_between (volts n) _ _ _ _ Hs) as [He Hr]; [lia|]. rewrite He. cbn [mbind option_bind].
  destruct Hs as (_ & _ & Hlo & Hhi & _).
  match goal with |- Some (as_unsigned 16 (clamp ?v 0 65535)) = _ /\ _ => assert (u16 v) as Hv end.
  { unfold fits in *. lia. }
  by rewrite u16_clamp_cast.
Qed.

Lemma vbatt_channel_spec : u16 (RawCounts.vbatt raw) ->
  vbatt_channel cfg raw = battery mod 2 ^ 16 /\ (battery < 2 ^ 16 -> vbatt_channel cfg raw = battery).
Proof using Hcfg.
  intros Hn. pose proof Hcfg as (Hv & Hb & Hnum & Hden & _). unfold vbatt_channel. rewrite volts_eq.
  assert (0 <= volts (RawCounts.vbatt raw)) as Hmv.
  { rewrite <- volts_eq. apply counts_to_mv_range; [done..|apply Hn]. }
  unfold battery. destruct (Z.eqb_spec (AdcConfig.vbatt_scale_den cfg) 0); [done|].
  split; [done|]. intros Hlt. apply as_unsigned_small. unfold fits in *. split; [|done].
  apply Z.div_pos; nia.
Qed.
End Readings.

(** C36: Under the spans a configuration must fit, the pipeline never overflows, on any
    counts and any tables, and every channel reads its own counts: pressure, air flow and
    temperatures by interpolation in their tables (zero on an invalid table), the throttle as
    the percentage of its span, held to its ends, lambda and the barometer on their lines,
    lambda held to 0.5 to 2.0.  Absent channels read their fixed value with their flag off.
    The battery's scaled voltage is the one value that can leave its field: where it does,
    the last sixteen bits are reported. *)
Theorem pipeline_readings cfg cal raw : config_fits cfg -> cal_typed cal -> raw_typed raw ->
  exists out, convert_all cfg cal raw = Some out /\ readings_of cfg cal raw out.
Proof.
  intros Hcfg (Htm & HtM & Hv0 & Hk0 & Hv1 & Hk1 & Hml & Hfl & Hmv & Hfv & Hclt & Hiat)
    (Rm & Rt & Rc & Ri & Rv & Rf & _).
  pose proof Hcfg as (Hv & Hb & _ & _ & Hcb & Hib & _ & _).
  assert (curve_typed (map_curve cal)) as Hmc by (apply voltage_curve_typed; [done|by rewrite !Forall_cons..]).
  assert (curve_typed (maf_curve cal)) as Hfc by (apply voltage_curve_typed; [by rewrite Hml|done..]).
  assert (Forall u16 (Piecewise.ys (map_curve cal))) as Hmy by (by cbn; rewrite !Forall_cons).
  destruct (thermistor_channel_reading _ _ _ _ _ Hv Hb Hcb Hclt Rc) as [Ec Tc].
  destruct (thermistor_channel_reading _ _ _ _ _ Hv Hb Hib Hiat Ri) as [Ei Ti].
  destruct (lambda_channel_spec cfg raw Hcfg) as [El Hl], (baro_channel_spec cfg raw Hcfg) as [Eb Hbr].
  assert (map_channel cfg cal raw = Some (curve_reading (map_curve cal) (volts cfg (RawCounts.map raw)))) as Em
    by (by apply u16_voltage_channel).
  assert (exists f, maf_channel cfg cal raw = Some f /\ u16 f
    /\ f = from_option (fun n => curve_reading (maf_curve cal) (volts cfg n)) 0 (RawCounts.maf raw)) as (maf & Ef & Tf & Hf).
  { unfold maf_channel. destruct (RawCounts.maf raw) as [n|]; [|by exists 0].
    eexists. split; [by apply u16_voltage_channel|]. split; [by apply u16_reading|done]. }
  unfold convert_all. rewrite Em, Ef, Ec, Ei, El, Eb. cbn [mbind option_bind].
  eexists. split; [reflexivity|]. destruct (vbatt_channel_spec cfg raw Hcfg Rv) as [Eq Hq].
  rewrite temperature_eq in Tc, Ti by done. rewrite !temperature_eq by done.
  constructor; cbn [SensorOutputs.map_kpa_x10 SensorOutputs.maf_valid SensorOutputs.maf_x100 SensorOutputs.tps_percent
    SensorOutputs.clt_c SensorOutputs.iat_c SensorOutputs.vbatt_mv SensorOutputs.lambda_valid SensorOutputs.lambda_x100
    SensorOutputs.baro_valid SensorOutputs.baro_kpa_x10]; try done.
  - by apply tps_channel_spec.
  - split_and!; try done; [by apply u16_reading|rewrite Eq; by apply fits_mod|lia..].
Qed.

Lemma pipeline_readings_witness :
  exists out, convert_all sensors_examples.cfg SensorsCal.default sensors_examples.raw = Some out
    /\ readings_of sensors_examples.cfg SensorsCal.default sensors_examples.raw out.
Proof.
  apply pipeline_readings.
  - unfold config_fits, span_fits, bias_fits, fits. cbn. lia.
  - unfold cal_typed, thermistor_typed. repeat split; repeat constructor; done.
  - repeat split; done.
Defined.

(** A full battery channel scaled by twenty leaves sixteen bits: 100 volts are reported as
    34.464. *)
Theorem battery_wraps : exists cfg raw,
  config_fits cfg /\ raw_typed raw /\ battery cfg raw = 100000 /\ vbatt_channel cfg raw = 34464.
Proof.
  exists (AdcConfig.mk 5000 12 20 1 ThermistorBias.PULLUP_2490 ThermistorBias.PULLUP_2490
    LambdaAdcCalibration.WIDEBAND_0V5_TO_4V5 BaroAdcCalibration.LINEAR_0V5_TO_4V5).
  exists (RawCounts.mk 0 None 0 0 0 4095 None None).
  split; [unfold config_fits, span_fits, bias_fits, fits; cbn; lia|]. split; [repeat split; done|]. by vm_compute.
Qed.

(** ** Limited signals *)

(** A signal that keeps one value is limited at every sample, each [dt_us] after the last. *)
Fixpoint slewed (limit : Z -> Z -> Z -> Z -> Z) (rate dt target : Z) (n : nat) (prev : Z) : Z :=
  match n with O => prev | S n => slewed limit rate dt target n (limit prev target rate dt) end.

Lemma slew_max_delta_eq rate dt : u16 rate -> u32 dt ->
  slew_max_delta rate dt = Z.min (rate * dt) u32_max / 1000000 /\ 0 <= slew_max_delta rate dt <= 4294.
Proof.
  intros Hr Hd. unfold slew_max_delta, saturating_mul, fits, u32_max in *.
  replace (2 ^ 32 - 1) with 4294967295 by done.
  assert (0 <= Z.min (rate * dt) 4294967295 / 1000000 <= 4294) as Hq.
  { split; [apply Z.div_pos; nia|]. enough (Z.min (rate * dt) 4294967295 / 1000000 < 4295) by lia.
    apply Z.div_lt_upper_bound; lia. }
  rewrite as_signed_small by (try lia; change (2 ^ (32 - 1)) with 2147483648; lia). done.
Qed.

(** One sample: the step towards the target, no longer than the limit. *)
Definition stepped (prev target d : Z) : Z :=
  if Z.abs (target - prev) <=? d then target else if prev <? target then prev + d else prev - d.

Lemma clamp_slew_stepped w prev new rate dt (limit := if w =? 16 then clamp_slew_u16 else clamp_slew_u8) :
  w = 8 \/ w = 16 -> fits w prev -> fits w new -> u16 rate -> u32 dt -> 0 < dt ->
  limit prev new rate dt = stepped prev new (slew_max_delta rate dt).
Proof.
  intros Hw Hp Hn Hr Hd H0. destruct (slew_max_delta_eq rate dt Hr Hd) as [_ Hm].
  assert (clamp_slew_u16 prev new rate dt = stepped prev new (slew_max_delta rate dt) \/ w = 8) as H16.
  { destruct Hw as [->| ->]; [by right|left].
    unfold clamp_slew_u16, stepped. destruct (Z.eqb_spec dt 0); [lia|]. cbn [orb].
    destruct (Z.eqb_spec prev new) as [->|].
    { rewrite Z.sub_diag. by destruct (Z.leb_spec (Z.abs 0) (slew_max_delta rate dt)); [|lia]. }
    cbn zeta. repeat case_match; to_prop; try lia; apply as_unsigned_small; unfold fits in *; lia. }
  unfold limit. destruct Hw as [->| ->]; cbn [Z.eqb Pos.eqb]; [|destruct H16; [done|lia]].
  clear H16. unfold clamp_slew_u8, stepped. destruct (Z.eqb_spec dt 0); [lia|]. cbn [orb].
  destruct (Z.eqb_spec prev new) as [->|].
  { rewrite Z.sub_diag. by destruct (Z.leb_spec (Z.abs 0) (slew_max_delta rate dt)); [|lia]. }
  cbn zeta. unfold fits in *. repeat case_match; to_prop; try lia.
  - rewrite as_unsigned_small by (unfold fits; pose proof (clamp_bounds (prev + slew_max_delta rate dt) 0 255); lia).
    unfold clamp. repeat case_match; to_prop; lia.
  - rewrite as_unsigned_small by (unfold fits; pose proof (clamp_bounds (prev - slew_max_delta rate dt) 0 255); lia).
    unfold clamp. repeat case_match; to_prop; lia.
Qed.

Lemma stepped_distance prev target d : 0 <= d ->
  Z.abs (target - stepped prev target d) = Z.max 0 (Z.abs (target - prev) - d)
  /\ Z.min prev target <= stepped prev target d <= Z.max prev target.
Proof. intros Hd. unfold stepped. repeat case_match; to_prop; lia. Qed.

Lemma stepped_zero prev target : stepped prev target 0 = prev.
Proof. unfold stepped. repeat case_match; to_prop; lia. Qed.

Lemma slewed_distance limit rate dt target d w n prev : 0 <= d ->
  (forall p, fits w p -> limit p target rate dt = stepped p target d) ->
  fits w prev -> fits w target ->
  Z.abs (target - slewed limit rate dt target n prev) = Z.max 0 (Z.abs (target - prev) - Z.of_nat n * d).
Proof.
  intros Hd Hlim. revert prev. induction n as [|n IH]; intros prev Hp Ht; [cbn; lia|].
  cbn [slewed]. rewrite Hlim by done. destruct (stepped_distance prev target d Hd) as [He Hb].
  rewrite IH by (unfold fits in *; lia || done). rewrite He. lia.
Qed.

(** A limited signal whose input holds one value arrives there after exactly as many
    samples as the distance needs at the limit of one sample, which is whole units per
    sample, capped at 4294.  So a signal sampled faster than one unit of its rate does not
    move at all: at 300 percent per second and a sample every 3333 us the throttle stays
    where it was. *)
Theorem slew_arrival_exact rate dt prev target n (d := Z.min (rate * dt) u32_max / 1000000) :
  u16 rate -> u32 dt -> 0 < dt ->
  (u16 prev -> u16 target ->
     (slewed clamp_slew_u16 rate dt target n prev = target <-> Z.abs (target - prev) <= Z.of_nat n * d)
     /\ (rate * dt < 1000000 -> slewed clamp_slew_u16 rate dt target n prev = prev))
  /\ (u8 prev -> u8 target ->
     (slewed clamp_slew_u8 rate dt target n prev = target <-> Z.abs (target - prev) <= Z.of_nat n * d)
     /\ (rate * dt < 1000000 -> slewed clamp_slew_u8 rate dt target n prev = prev)).
Proof.
  intros Hr Hd H0. destruct (slew_max_delta_eq rate dt Hr Hd) as [Hm Hm0].
  assert (forall w limit, (forall p, fits w p -> limit p target rate dt = stepped p target (slew_max_delta rate dt)) ->
    fits w prev -> fits w target ->
    (slewed limit rate dt target n prev = target <-> Z.abs (target - prev) <= Z.of_nat n * d)
    /\ (rate * dt < 1000000 -> slewed limit rate dt target n prev = prev)) as Hgen.
  { intros w limit Hlim Hp Ht. pose proof (slewed_distance _ _ _ _ _ w n prev (proj1 Hm0) Hlim Hp Ht) as Hdist.
    rewrite Hm in Hdist. fold d in Hdist. split; [lia|]. intros Hslow.
    assert (slew_max_delta rate dt = 0) as Hz.
    { rewrite Hm. unfold fits, u32_max in *. apply Z.div_small. nia. }
    clear Hdist. induction n as [|k IH]; [done|]. cbn [slewed]. by rewrite Hlim, Hz, stepped_zero. }
  split; intros Hp Ht.
  - apply (Hgen 16); [|done..]. intros p Hpp. by apply (clamp_slew_stepped 16); [right|..].
  - apply (Hgen 8); [|done..]. intros p Hpp. by apply (clamp_slew_stepped 8); [left|..].
Qed.

Lemma slew_arrival_exact_witness :
  slewed clamp_slew_u8 300 3333 90 1000 10 = 10
  /\ (slewed clamp_slew_u8 300 10000 90 27 10 = 90 <-> 80 <= 81).
Proof.
  split.
  - apply (slew_arrival_exact 300 3333 10 90 1000); done.
  - apply (slew_arrival_exact 300 10000 10 90 27); done.
Defined.
