(* ===== verification/BoardInputs.v ===== *)
(** * Inputs of a board (boards/common/src: live_inputs.rs, trigger_adapter.rs,
    sensor_sample.rs, control_inputs.rs, sensors/vss.rs; the sensor types of
    crates/board-api/src/sensors.rs and crates/io/src/sensor.rs)

    What a board hands to the runtime: the trigger decoder behind an adapter that turns each
    edge into an event ([SplitTriggerAdapter]), the copy of speed, angle and sync that the
    sensor sources keep ([SplitLiveInputs]), logical snapshots of the sensors, and control
    inputs.  The theorems say what the live sync state is and how it relates to the decoder's. *)
From Stdlib Require Import Sorted.
From S2P Require Import Prelude Domain BoardApi TriggerProfile TriggerDecoder TriggerProfiled Control Engine EngineStep.

(** ** Sensor vocabulary (crates/board-api/src/sensors.rs, crates/io/src/sensor.rs) *)
Module BoardSensorValidityFlags.
Definition MAF : Z := Z.shiftl 1 0.
Definition KNOCK : Z := Z.shiftl 1 1.
Definition VEHICLE_SPEED : Z := Z.shiftl 1 2.
Definition LAMBDA : Z := Z.shiftl 1 3.
Definition OIL_PRESSURE : Z := Z.shiftl 1 4.
Definition FUEL_PRESSURE : Z := Z.shiftl 1 5.

(** [BoardSensorValidityFlags(u8)] *)
Definition t : Type := Z.
Definition from_channels (maf_valid knock_valid vehicle_speed_valid lambda_valid : bool) : t :=
  let bits := 0 in
  let bits := if maf_valid then Z.lor bits MAF else bits in
  let bits := if knock_valid then Z.lor bits KNOCK else bits in
  let bits := if vehicle_speed_valid then Z.lor bits VEHICLE_SPEED else bits in
  if lambda_valid then Z.lor bits LAMBDA else bits.
Definition contains (f : t) (bit : Z) : bool := negb (Z.land f bit =? 0).
End BoardSensorValidityFlags.

Module BoardSensorSnapshot.
Record t := mk {
  rpm : Z; map_kpa10 : Z; tps_x100 : Z; clt_c10 : Z; iat_c10 : Z; vbatt_mv : Z; baro_kpa10 : Z;
  maf_x100 : Z; knock_x100 : Z; vehicle_speed_kph10 : Z; cam_phase_deg10 : option Z;
  lambda_x100 : Z; validity : BoardSensorValidityFlags.t }.
#[global] Instance eta : Eta t := fun s => mk (rpm s) (map_kpa10 s) (tps_x100 s) (clt_c10 s) (iat_c10 s)
  (vbatt_mv s) (baro_kpa10 s) (maf_x100 s) (knock_x100 s) (vehicle_speed_kph10 s) (cam_phase_deg10 s)
  (lambda_x100 s) (validity s).
Definition default : t := mk 0 0 0 0 0 0 0 0 0 0 None 0 0.
End BoardSensorSnapshot.

Module BoardSensorSnapshotCapture.
Record t := mk { at_us : Z; angle_x10 : Z; snapshot : BoardSensorSnapshot.t }.
End BoardSensorSnapshotCapture.

Module CaptureSample.
Record t := mk { at_us : Z; rpm : Z; load_kpa10 : Z; angle_x10 : Z }.
End CaptureSample.

Module SensorFrame.
Record t := mk {
  at_us : Z; rpm : Z; map_kpa10 : Z; maf_x100 : Z; maf_valid : bool; knock_x100 : Z;
  knock_valid : bool; cam_phase_deg10 : option Z; angle_x10 : Z; tps_x100 : Z; clt_c10 : Z;
  iat_c10 : Z; vbatt_mv : Z; baro_kpa10 : Z; vehicle_speed_kph10 : Z; vehicle_speed_valid : bool;
  lambda_valid : bool; lambda_x100 : Z }.
End SensorFrame.

(** The sources a board supplies: each call may change the source, and may fail. *)
Class SnapshotSource (S E : Type) :=
  next_snapshot_capture : S -> S * Result (option BoardSensorSnapshotCapture.t) E.
Class FrameSource (S E : Type) := next_frame : S -> S * Result (option SensorFrame.t) E.
Class SampleSource (S E : Type) := sample : S -> S * Result CaptureSample.t E.

(** ** Live inputs (live_inputs.rs) *)
Module SplitSyncState.
Inductive t := NoSignal | Unsynced | CrankSynced | CamSynced | FullSequentialAuthorized | SyncSuspect | SyncLost.
#[global] Instance eq_dec : EqDecision t.
Proof. solve_decision. Defined.

Definition from_authority (authority : EngineTimeAuthority.t) : t :=
  match EngineTimeAuthority.crank authority with
  | CrankSyncState.NoSignal => NoSignal
  | CrankSyncState.PrimarySearching => Unsynced
  | CrankSyncState.SyncLost => SyncLost
  | CrankSyncState.PrimaryLocked =>
    match EngineTimeAuthority.phase authority with
    | PhaseSyncState.Unknown => SyncSuspect
    | PhaseSyncState.CrankOnly360 => CrankSynced
    | PhaseSyncState.CamObserved720 => CamSynced
    | PhaseSyncState.CamValidated720 => FullSequentialAuthorized
    end
  end.

Definition from_trigger_sync (previous : t) (synced : bool) : t :=
  if synced then
    match previous with
    | NoSignal | Unsynced | SyncLost => CrankSynced
    | other => other
    end
  else
    match previous with
    | NoSignal | Unsynced => Unsynced
    | CrankSynced | CamSynced | FullSequentialAuthorized | SyncSuspect => SyncLost
    | SyncLost => SyncLost
    end.
End SplitSyncState.

Module SplitLiveTriggerEvent.
Record t := new { rpm : Z; angle_x10 : Z; synced : bool }.
End SplitLiveTriggerEvent.

Module SplitLiveInputs.
Record t := mk { rpm : Z; angle_x10 : Z; trigger_synced : bool; sync_state : SplitSyncState.t }.
Definition new : t := mk 0 0 false SplitSyncState.NoSignal.
Definition apply_event (event : SplitLiveTriggerEvent.t) (i : t) : t :=
  mk (SplitLiveTriggerEvent.rpm event) (SplitLiveTriggerEvent.angle_x10 event)
    (SplitLiveTriggerEvent.synced event)
    (SplitSyncState.from_trigger_sync (sync_state i) (SplitLiveTriggerEvent.synced event)).
End SplitLiveInputs.

(** ** The trigger adapter (trigger_adapter.rs) *)
Definition DEFAULT_MINIMUM_EDGE_INTERVAL_US : Z := 0.

Definition default_trigger_profile : TriggerProfile.t := {|
  TriggerProfile.pattern := TriggerPattern.MissingTooth 60 2;
  TriggerProfile.primary_speed := TriggerSpeed.Crank;
  TriggerProfile.primary_edge := TriggerEdge.Rising;
  TriggerProfile.secondary :=
    SecondaryTriggerProfile.mk SecondaryTriggerMode.None TriggerEdge.Rising PollLevelPolarity.ActiveHigh;
  TriggerProfile.trigger_angle_atdc_deg10 := TriggerAngle.ExpertManual 0;
  TriggerProfile.tooth_angle_multiplier := 1;
  TriggerProfile.filter := TriggerFilter.Off;
  TriggerProfile.resync := ResyncPolicy.OnSyncLoss;
  TriggerProfile.startup := StartupSyncPolicy.mk 2 true;
  TriggerProfile.latency := EngineTimeLatency.mk 0 0 0 |}.

Module TriggerEdgeInput.
(** The fields of [BoardEvent::TriggerEdge]. *)
Record t := mk { at_us : Z; rpm : Z; angle_x10 : Z; authority : EngineTimeAuthority.t; synced : bool }.
End TriggerEdgeInput.

Module SplitTriggerAdapter.
(** The time source is kept but never read. *)
Record t := mk { decoder : Profiled.t }.

Definition with_profile (profile : TriggerProfile.t) : Result t ValidationError.t :=
  let? runtime_profile := RuntimeProfile.from_import_profile profile in
  let? decoder := Profiled.try_new runtime_profile DEFAULT_MINIMUM_EDGE_INTERVAL_US
    DEFAULT_MISSING_TOOTH_GAP_RATIO_X1000 in
  Ok (mk decoder).

(** [None] is the [unreachable!] of a default profile that does not validate. *)
Definition new : option t :=
  match with_profile default_trigger_profile with Ok adapter => Some adapter | Err _ => None end.

Definition angle_x10 (now_us : Z) (a : t) : Z := default 0 (Profiled.crank_angle_at now_us (decoder a)).
Definition rpm (a : t) : Z := Profiled.rpm (decoder a).
Definition synced (a : t) : bool := Profiled.synced (decoder a).
Definition authority (a : t) : EngineTimeAuthority.t := Profiled.authority (decoder a).

Definition on_trigger_edge (at_us : Z) (a : t) : t * TriggerEdgeInput.t :=
  let a := mk (fst (Profiled.ingest_primary_edge at_us (decoder a))) in
  let authority := authority a in
  (a, {| TriggerEdgeInput.at_us := at_us;
         TriggerEdgeInput.rpm := rpm a;
         TriggerEdgeInput.angle_x10 := default 0 (Profiled.crank_angle_at at_us (decoder a));
         TriggerEdgeInput.authority := authority;
         TriggerEdgeInput.synced := synced a |}).

Definition sync_state (a : t) : SplitSyncState.t := SplitSyncState.from_authority (authority a).
Definition live_trigger_event (now_us : Z) (a : t) : SplitLiveTriggerEvent.t :=
  SplitLiveTriggerEvent.new (rpm a) (angle_x10 now_us a) (synced a).
Definition reset_sync (a : t) : t := mk (Profiled.reset_sync (decoder a)).
End SplitTriggerAdapter.

(** ** Sensor samples (sensor_sample.rs) *)
Module SplitSensorSignals.
Record t := mk { at_us : Z; load_kpa10 : Z }.
End SplitSensorSignals.

Definition split_capture_sample (live : SplitLiveInputs.t) (signals : SplitSensorSignals.t) : CaptureSample.t :=
  CaptureSample.mk (SplitSensorSignals.at_us signals) (SplitLiveInputs.rpm live)
    (SplitSensorSignals.load_kpa10 signals) (SplitLiveInputs.angle_x10 live).

Module BoardSensorRuntimeLoad.
Inductive t := MapSpeedDensity | MafFlow | TpsAlphaN.
End BoardSensorRuntimeLoad.

Module SampleError.
(** [BoardSensorSnapshotSampleError<E>] *)
Inductive t (E : Type) :=
| Source (e : E) | NoFrame | MafLoadInvalid | RuntimeLoadSourceUnsupported (l : BoardSensorRuntimeLoad.t).
Arguments Source {E}. Arguments NoFrame {E}. Arguments MafLoadInvalid {E}.
Arguments RuntimeLoadSourceUnsupported {E}.
End SampleError.

Definition project_runtime_load {E} (snapshot : BoardSensorSnapshot.t) (runtime_load : BoardSensorRuntimeLoad.t) :
    Result Z (SampleError.t E) :=
  match runtime_load with
  | BoardSensorRuntimeLoad.MapSpeedDensity => Ok (BoardSensorSnapshot.map_kpa10 snapshot)
  | BoardSensorRuntimeLoad.MafFlow =>
    if BoardSensorValidityFlags.contains (BoardSensorSnapshot.validity snapshot) BoardSensorValidityFlags.MAF
    then Err (SampleError.RuntimeLoadSourceUnsupported runtime_load)
    else Err SampleError.MafLoadInvalid
  | BoardSensorRuntimeLoad.TpsAlphaN => Err (SampleError.RuntimeLoadSourceUnsupported runtime_load)
  end.

Definition map_speed_density_capture_sample (capture : BoardSensorSnapshotCapture.t) : CaptureSample.t :=
  let snapshot := BoardSensorSnapshotCapture.snapshot capture in
  CaptureSample.mk (BoardSensorSnapshotCapture.at_us capture) (BoardSensorSnapshot.rpm snapshot)
    (BoardSensorSnapshot.map_kpa10 snapshot) (BoardSensorSnapshotCapture.angle_x10 capture).

Definition capture_sample_from_snapshot {E} (capture : BoardSensorSnapshotCapture.t)
    (runtime_load : BoardSensorRuntimeLoad.t) : Result CaptureSample.t (SampleError.t E) :=
  match runtime_load with
  | BoardSensorRuntimeLoad.MapSpeedDensity => Ok (map_speed_density_capture_sample capture)
  | _ =>
    let snapshot := BoardSensorSnapshotCapture.snapshot capture in
    let? load_kpa10 := project_runtime_load snapshot runtime_load in
    Ok (CaptureSample.mk (BoardSensorSnapshotCapture.at_us capture) (BoardSensorSnapshot.rpm snapshot)
          load_kpa10 (BoardSensorSnapshotCapture.angle_x10 capture))
  end.

Definition board_sensor_snapshot_from_frame (f : SensorFrame.t) : BoardSensorSnapshot.t := {|
  BoardSensorSnapshot.rpm := SensorFrame.rpm f;
  BoardSensorSnapshot.map_kpa10 := SensorFrame.map_kpa10 f;
  BoardSensorSnapshot.tps_x100 := SensorFrame.tps_x100 f;
  BoardSensorSnapshot.clt_c10 := SensorFrame.clt_c10 f;
  BoardSensorSnapshot.iat_c10 := SensorFrame.iat_c10 f;
  BoardSensorSnapshot.vbatt_mv := SensorFrame.vbatt_mv f;
  BoardSensorSnapshot.baro_kpa10 := SensorFrame.baro_kpa10 f;
  BoardSensorSnapshot.maf_x100 := SensorFrame.maf_x100 f;
  BoardSensorSnapshot.knock_x100 := SensorFrame.knock_x100 f;
  BoardSensorSnapshot.vehicle_speed_kph10 := SensorFrame.vehicle_speed_kph10 f;
  BoardSensorSnapshot.cam_phase_deg10 := SensorFrame.cam_phase_deg10 f;
  BoardSensorSnapshot.lambda_x100 := SensorFrame.lambda_x100 f;
  BoardSensorSnapshot.validity := BoardSensorValidityFlags.from_channels (SensorFrame.maf_valid f)
    (SensorFrame.knock_valid f) (SensorFrame.vehicle_speed_valid f) (SensorFrame.lambda_valid f) |}.

Definition snapshot_capture_of_frame (f : SensorFrame.t) : BoardSensorSnapshotCapture.t :=
  BoardSensorSnapshotCapture.mk (SensorFrame.at_us f) (SensorFrame.angle_x10 f) (board_sensor_snapshot_from_frame f).

Module SnapshotSampleSource.
(** [BoardSensorSnapshotSampleSource<S>] *)
Record t (S : Type) := mk {
  source : S; runtime_load : BoardSensorRuntimeLoad.t; last_snapshot : option BoardSensorSnapshot.t }.
Arguments mk {S}. Arguments source {S}. Arguments runtime_load {S}. Arguments last_snapshot {S}.

Definition new {S} (source : S) : t S := mk source BoardSensorRuntimeLoad.MapSpeedDensity None.
Definition with_runtime_load {S} (source : S) (load : BoardSensorRuntimeLoad.t) : t S := mk source load None.

Definition sample {S E} `{SnapshotSource S E} (s : t S) : t S * Result CaptureSample.t (SampleError.t E) :=
  let '(src, r) := next_snapshot_capture (source s) in
  let s := mk src (runtime_load s) (last_snapshot s) in
  match r with
  | Err e => (s, Err (SampleError.Source e))
  | Ok None => (s, Err SampleError.NoFrame)
  | Ok (Some capture) =>
    match capture_sample_from_snapshot capture (runtime_load s) with
    | Err e => (s, Err e)
    | Ok sample =>
      (mk src (runtime_load s) (Some (BoardSensorSnapshotCapture.snapshot capture)), Ok sample)
    end
  end.
End SnapshotSampleSource.
#[export] Instance snapshot_sample_source {S E} `{SnapshotSource S E} :
  SampleSource (SnapshotSampleSource.t S) (SampleError.t E) := SnapshotSampleSource.sample.

Module FrameSnapshotSource.
(** [SensorFrameSnapshotSource<S>] *)
Record t (S : Type) := mk { source : S; last_frame : option SensorFrame.t }.
Arguments mk {S}. Arguments source {S}. Arguments last_frame {S}.
Definition new {S} (source : S) : t S := mk source None.

Definition next_snapshot_capture {S E} `{FrameSource S E} (s : t S) :
    t S * Result (option BoardSensorSnapshotCapture.t) E :=
  let '(src, r) := next_frame (source s) in
  match r with
  | Err e => (mk src (last_frame s), Err e)
  | Ok None => (mk src (last_frame s), Ok None)
  | Ok (Some frame) => (mk src (Some frame), Ok (Some (snapshot_capture_of_frame frame)))
  end.
End FrameSnapshotSource.
#[export] Instance frame_snapshot_source {S E} `{FrameSource S E} :
  SnapshotSource (FrameSnapshotSource.t S) E := FrameSnapshotSource.next_snapshot_capture.

Module SensorFrameSampleSource.
Definition t (S : Type) : Type := SnapshotSampleSource.t (FrameSnapshotSource.t S).
Definition new {S} (source : S) : t S := SnapshotSampleSource.new (FrameSnapshotSource.new source).
Definition with_runtime_load {S} (source : S) (load : BoardSensorRuntimeLoad.t) : t S :=
  SnapshotSampleSource.with_runtime_load (FrameSnapshotSource.new source) load.
Definition sample {S E} `{FrameSource S E} : t S -> t S * Result CaptureSample.t (SampleError.t E) :=
  SnapshotSampleSource.sample.
Definition last_frame {S} (s : t S) : option SensorFrame.t :=
  FrameSnapshotSource.last_frame (SnapshotSampleSource.source s).
End SensorFrameSampleSource.

(** The bring-up sources; [now_us] is the reading of their clock. *)
Module LiveLoadSensor.
Record t (L : Type) := mk { load : L; live : SplitLiveInputs.t }.
Arguments mk {L}. Arguments load {L}. Arguments live {L}.
Definition new {L} (load : L) : t L := mk load SplitLiveInputs.new.
Definition apply_live_event {L} (event : SplitLiveTriggerEvent.t) (s : t L) : t L :=
  mk (load s) (SplitLiveInputs.apply_event event (live s)).
Definition sample {L E} (load_kpa10 : L -> L * Result Z E) (now_us : Z) (s : t L) : t L * Result CaptureSample.t E :=
  let '(l, r) := load_kpa10 (load s) in
  (mk l (live s),
   match r with
   | Ok load => Ok (split_capture_sample (live s) (SplitSensorSignals.mk now_us load))
   | Err e => Err e
   end).
Definition next_snapshot_capture {L E} (load_kpa10 : L -> L * Result Z E) (now_us : Z) (s : t L) :
    t L * Result (option BoardSensorSnapshotCapture.t) E :=
  let '(l, r) := load_kpa10 (load s) in
  (mk l (live s),
   match r with
   | Ok load => Ok (Some (BoardSensorSnapshotCapture.mk now_us (SplitLiveInputs.angle_x10 (live s))
       (BoardSensorSnapshot.default <| BoardSensorSnapshot.rpm := SplitLiveInputs.rpm (live s) |>
          <| BoardSensorSnapshot.map_kpa10 := load |>)))
   | Err e => Err e
   end).
End LiveLoadSensor.

Module FixedLoadSensor.
Record t := mk { live : SplitLiveInputs.t; load_kpa10 : Z }.
Definition new (load_kpa10 : Z) : t := mk SplitLiveInputs.new load_kpa10.
Definition apply_live_event (event : SplitLiveTriggerEvent.t) (s : t) : t :=
  mk (SplitLiveInputs.apply_event event (live s)) (load_kpa10 s).
Definition sample (now_us : Z) (s : t) : CaptureSample.t :=
  split_capture_sample (live s) (SplitSensorSignals.mk now_us (load_kpa10 s)).
Definition next_snapshot_capture (now_us : Z) (s : t) : BoardSensorSnapshotCapture.t :=
  BoardSensorSnapshotCapture.mk now_us (SplitLiveInputs.angle_x10 (live s))
    (BoardSensorSnapshot.default <| BoardSensorSnapshot.rpm := SplitLiveInputs.rpm (live s) |>
       <| BoardSensorSnapshot.map_kpa10 := load_kpa10 s |>).
End FixedLoadSensor.

(** ** Control inputs (control_inputs.rs) *)
Module SplitControlSignals.
Record t := mk {
  clt_c : Z; launch_armed : bool; flat_shift_armed : bool; lambda_valid : bool; measured_lambda100 : Z;
  requested_open_loop : bool; tpsdot_pct_s : Z; mapdot_kpa_s : Z; maf_valid : bool; maf_x100 : Z;
  iat_c10 : Z; vbatt_mv : Z; baro_valid : bool; baro_kpa10 : Z; spark_advance_x10 : Z; ignition_rpm : Z }.
Definition warm_bringup (ignition_rpm : Z) : t :=
  mk 80 false false true 100 false 0 0 false 0 250 12000 false 1010 100 ignition_rpm.
End SplitControlSignals.

Module SplitControlFrame.
Record t := mk { control : ControlInputs.t; launch_armed : bool; flat_shift_armed : bool }.
End SplitControlFrame.

Definition split_control_inputs (now_us : Z) (s : SplitControlSignals.t) : ControlInputs.t :=
  ControlInputs.mk
    (EnrichmentInputs.mk now_us (SplitControlSignals.clt_c s) false false
       (SplitControlSignals.tpsdot_pct_s s) (SplitControlSignals.mapdot_kpa_s s))
    (LambdaTrimInputs.mk now_us (SplitControlSignals.clt_c s) false (SplitControlSignals.lambda_valid s)
       (SplitControlSignals.measured_lambda100 s) (SplitControlSignals.requested_open_loop s))
    (TorqueInputs.new 90 90 90 90 90)
    (IgnitionInputs.mk (SplitControlSignals.spark_advance_x10 s) 0 0 0 false (SplitControlSignals.ignition_rpm s))
    (FuelSensorInputs.mk (SplitControlSignals.maf_valid s) (SplitControlSignals.maf_x100 s)
       (SplitControlSignals.iat_c10 s) (SplitControlSignals.vbatt_mv s) (SplitControlSignals.baro_valid s)
       (SplitControlSignals.baro_kpa10 s))
    0.

Section ControlSource.
Context {S E : Type} (signals : Z -> S -> S * Result SplitControlSignals.t E).

Definition split_control_frame_from (source : S) (now_us ignition_rpm : Z) : S * Result SplitControlFrame.t E :=
  let '(source, r) := signals ignition_rpm source in
  (source,
   let? s := r in
   Ok (SplitControlFrame.mk (split_control_inputs now_us s) (SplitControlSignals.launch_armed s)
         (SplitControlSignals.flat_shift_armed s))).

Definition split_control_inputs_from (source : S) (now_us ignition_rpm : Z) : S * Result ControlInputs.t E :=
  let '(source, r) := split_control_frame_from source now_us ignition_rpm in
  (source, let? f := r in Ok (SplitControlFrame.control f)).
End ControlSource.

(** ** Vehicle speed pulses (sensors/vss.rs) *)
Module VehicleSpeedPulseDecoder.
Record t := mk { config : VehicleSpeedPulseConfig.t; state : VehicleSpeed.State }.
Definition new (config : VehicleSpeedPulseConfig.t) : t := mk config (VehicleSpeed.mkState None 0).

Definition step (now_us : Z) (pulse_seen : bool) (d : t) : option (t * Z) :=
  result ← VehicleSpeed.pulse_step (config d) (state d) (VehicleSpeed.mkInput now_us pulse_seen);
  Some (mk (config d) (VehicleSpeed.next_state result), VehicleSpeed.result_speed_kph10 result).
Definition on_pulse (now_us : Z) (d : t) : option (t * Z) := step now_us true d.
Definition poll (now_us : Z) (d : t) : option (t * Z) := step now_us false d.
Definition speed (d : t) : Z := VehicleSpeed.speed_kph10 (state d).
End VehicleSpeedPulseDecoder.

(** ** Live sync *)

Definition live_run (events : list SplitLiveTriggerEvent.t) : SplitLiveInputs.t :=
  foldl (fun i e => SplitLiveInputs.apply_event e i) SplitLiveInputs.new events.

(** What the events so far say: nothing yet, synced, never synced, or synced once. *)
Definition live_summary (earlier : list SplitLiveTriggerEvent.t) (e : SplitLiveTriggerEvent.t) : SplitSyncState.t :=
  if SplitLiveTriggerEvent.synced e then SplitSyncState.CrankSynced
  else if existsb SplitLiveTriggerEvent.synced earlier then SplitSyncState.SyncLost
  else SplitSyncState.Unsynced.

Lemma live_run_last earlier e :
  live_run (earlier ++ [e]) =
    SplitLiveInputs.mk (SplitLiveTriggerEvent.rpm e) (SplitLiveTriggerEvent.angle_x10 e)
      (SplitLiveTriggerEvent.synced e) (live_summary earlier e).
Proof.
  revert e. induction earlier as [|d earlier IH] using rev_ind; intros e.
  - unfold live_run, live_summary, SplitLiveInputs.apply_event. cbn. by destruct (SplitLiveTriggerEvent.synced e).
  - unfold live_run in *. rewrite foldl_app, IH. cbn [foldl]. unfold SplitLiveInputs.apply_event.
    cbn [SplitLiveInputs.sync_state]. f_equal. unfold live_summary. rewrite existsb_app. cbn [existsb].
    rewrite orb_false_r.
    destruct (SplitLiveTriggerEvent.synced e), (SplitLiveTriggerEvent.synced d),
      (existsb SplitLiveTriggerEvent.synced earlier); done.
Qed.

(** ** Edges through the adapter *)

(** The decoder of the adapter under its primary edges: no filter, no cam, and the lock it
    reports is the lock of its authority as long as no two edges carry one timestamp. *)
Record primary_only (d : Decoder.t) : Prop := {
  po_filter : DecoderConfig.minimum_edge_interval (Decoder.config d) = 0;
  po_phase : Decoder.phase_validated d = false;
  po_authority : EngineTimeAuthority.phase (Decoder.authority d) =
    if EngineTimeAuthority.has_primary_lock (Decoder.authority d)
    then PhaseSyncState.CrankOnly360 else PhaseSyncState.Unknown;
  po_lock : EngineTimeAuthority.has_primary_lock (Decoder.authority d) = Decoder.primary_locked d;
  po_first : Decoder.last_edge_timestamp d = None -> Decoder.primary_locked d = false;
  po_interval : Decoder.primary_locked d = true -> Decoder.previous_interval d <> 0;
  po_intervals : Decoder.previous_interval d = Decoder.last_normal_interval d }.

Section PrimaryOnly.
Context (d : Decoder.t) (Hfilter : DecoderConfig.minimum_edge_interval (Decoder.config d) = 0)
  (Hphase : Decoder.phase_validated d = false)
  (Hintervals : Decoder.previous_interval d = Decoder.last_normal_interval d).

Lemma primary_only_searching : Decoder.primary_locked d = false ->
  primary_only (Decoder.set_searching_authority d)
  /\ Decoder.last_edge_timestamp (Decoder.set_searching_authority d) = Decoder.last_edge_timestamp d.
Proof using Hfilter Hphase Hintervals. intros Hl. split; [|done]. constructor; cbn; auto; congruence. Qed.

Lemma primary_only_locked : Decoder.primary_locked d = true ->
  is_Some (Decoder.last_edge_timestamp d) -> Decoder.previous_interval d <> 0 ->
  primary_only (Decoder.set_locked_authority d)
  /\ Decoder.last_edge_timestamp (Decoder.set_locked_authority d) = Decoder.last_edge_timestamp d.
Proof using Hfilter Hphase Hintervals.
  intros Hl [t Ht] Hi. unfold Decoder.set_locked_authority. rewrite Hphase.
  split; [|done]. constructor; cbn; auto; congruence.
Qed.
End PrimaryOnly.

Lemma primary_only_drop r t i ratio d : DecoderConfig.minimum_edge_interval (Decoder.config d) = 0 ->
  primary_only (Decoder.drop_sync r t i ratio d)
  /\ Decoder.last_edge_timestamp (Decoder.drop_sync r t i ratio d) = Some t.
Proof. intros Hf. split; [|done]. constructor; cbn; auto; done. Qed.

Lemma validate_secondary_keeps d : primary_only d ->
  let d' := Decoder.validate_secondary_before_next_gap d in
  Decoder.phase_validated d' = false /\ Decoder.last_normal_interval d' = Decoder.last_normal_interval d
  /\ Decoder.config d' = Decoder.config d.
Proof.
  intros H. cbv zeta. unfold Decoder.validate_secondary_before_next_gap.
  destruct (_ && _); [|split; [apply H|done]].
  pose proof (record_fault_fields SyncLossReason.SecondaryTimeout d) as Hf. cbv zeta in Hf. tauto.
Qed.

Lemma primary_only_edge t d : u32 t -> primary_only d ->
  (forall u, Decoder.last_edge_timestamp d = Some u -> u32 u /\ u <> t) ->
  let d' := fst (Decoder.ingest_primary_edge t d) in
  primary_only d' /\ Decoder.last_edge_timestamp d' = Some t.
Proof.
  intros Ht Hd Hts. cbv zeta. pose proof Hd as [Hc Hp Ha Hl Hf Hi Hn].
  unfold Decoder.ingest_primary_edge, Decoder.ingest_primary_edge_with_kind.
  rewrite bool_decide_eq_true_2 by done. cbn [negb].
  destruct (Decoder.last_edge_timestamp d) as [u|] eqn:Hu; [|by apply primary_only_searching; auto].
  destruct (Hts u eq_refl) as [Hu32 Hne]. cbv zeta.
  assert (0 <= elapsed_ticks t u) as Hpos by (apply fits_wrapping_sub; lia).
  assert (elapsed_ticks t u <> 0) as Hel by (intros E; apply Hne; symmetry; by apply (wrapping_sub_eq_0 32)).
  rewrite Hc. destruct (Z.ltb_spec (elapsed_ticks t u) 0); [lia|].
  destruct (Z.eqb_spec (Decoder.previous_interval d) 0) as [Hz|Hz]; cbn [orb].
  { apply primary_only_searching; try done. cbn. destruct (Decoder.primary_locked d); [by destruct Hi|done]. }
  destruct (Z.eqb_spec (elapsed_ticks t u) 0); [done|].
  unfold missing_tooth_gap_detected.
  destruct (Z.eqb_spec (elapsed_ticks t u) 0); [done|].
  destruct (Z.eqb_spec (Decoder.previous_interval d) 0); [done|]. cbn [orb]. cbv zeta.
  destruct (_ <=? _).
  - unfold Decoder.accept_gap. destruct (_ && _); [by apply primary_only_drop|].
    cbv zeta. cbn [fst]. destruct (validate_secondary_keeps d Hd) as (Hv1 & Hv2 & Hv3).
    set (e := Decoder.validate_secondary_before_next_gap d) in *.
    apply primary_only_locked; cbn; rewrite ?Hv2, ?Hv3; first [done|by eexists|congruence].
  - unfold Decoder.accept_tooth. destruct (_ && _); [by apply primary_only_drop|]. cbv zeta.
    destruct (Decoder.primary_locked d) eqn:Hlk;
      match goal with |- context [if Decoder.primary_locked ?x then _ else _] =>
        change (Decoder.primary_locked x) with (Decoder.primary_locked d) end; rewrite Hlk; cbn [fst].
    + apply primary_only_locked; cbn; first [done|by eexists|congruence].
    + by apply primary_only_searching.
Qed.

(** One edge as the board applies it ([apply_trigger_timestamp_to_runtime_adapter]): the event
    for the runtime and the live event for the sensor source. *)
Definition trigger_outputs (timestamp_us : Z) (a : SplitTriggerAdapter.t) :
    SplitTriggerAdapter.t * (TriggerEdgeInput.t * SplitLiveTriggerEvent.t) :=
  let '(a, event) := SplitTriggerAdapter.on_trigger_edge timestamp_us a in
  (a, (event, SplitTriggerAdapter.live_trigger_event timestamp_us a)).

Fixpoint trigger_run (timestamps : list Z) (a : SplitTriggerAdapter.t) :
    SplitTriggerAdapter.t * list (TriggerEdgeInput.t * SplitLiveTriggerEvent.t) :=
  match timestamps with
  | [] => (a, [])
  | t :: ts => let '(a, o) := trigger_outputs t a in let '(a, os) := trigger_run ts a in (a, o :: os)
  end.

(** An edge whose event agrees with itself, with its live event and with crank-only sync. *)
Definition consistent (o : TriggerEdgeInput.t * SplitLiveTriggerEvent.t) : Prop :=
  let '(e, l) := o in
  TriggerEdgeInput.synced e = EngineTimeAuthority.has_primary_lock (TriggerEdgeInput.authority e)
  /\ l = SplitLiveTriggerEvent.new (TriggerEdgeInput.rpm e) (TriggerEdgeInput.angle_x10 e) (TriggerEdgeInput.synced e)
  /\ EngineTimeAuthority.phase (TriggerEdgeInput.authority e)
     = if TriggerEdgeInput.synced e then PhaseSyncState.CrankOnly360 else PhaseSyncState.Unknown.

Lemma primary_only_new c d : DecoderConfig.minimum_edge_interval c = 0 -> Decoder.try_new c = Ok d ->
  primary_only d /\ Decoder.last_edge_timestamp d = None.
Proof. unfold Decoder.try_new. intros Hc H. repeat case_match; simplify_eq. by split; [constructor|]. Qed.

Lemma with_profile_decoder profile a : SplitTriggerAdapter.with_profile profile = Ok a ->
  primary_only (Profiled.decoder (SplitTriggerAdapter.decoder a))
  /\ Decoder.last_edge_timestamp (Profiled.decoder (SplitTriggerAdapter.decoder a)) = None.
Proof.
  unfold SplitTriggerAdapter.with_profile. intros (r & _ & (d & Hd & [= <-])%result_bind_ok)%result_bind_ok.
  unfold Profiled.try_new in Hd. apply result_bind_ok in Hd as (_ & _ & (x & Hx & [= <-])%result_bind_ok).
  by eapply primary_only_new; [|exact Hx].
Qed.

(** Profiles change neither the decoder nor the lock of the authority. *)
Lemma profiled_edge_decoder t p :
  Profiled.decoder (fst (Profiled.ingest_primary_edge t p)) = fst (Decoder.ingest_primary_edge t (Profiled.decoder p)).
Proof. unfold Profiled.ingest_primary_edge. repeat case_match; done. Qed.

Lemma profiled_authority_lock p : primary_only (Profiled.decoder p) ->
  EngineTimeAuthority.has_primary_lock (Profiled.authority p) = Profiled.synced p
  /\ EngineTimeAuthority.phase (Profiled.authority p)
     = if Profiled.synced p then PhaseSyncState.CrankOnly360 else PhaseSyncState.Unknown.
Proof.
  intros [_ _ Ha Hl _ _ _]. unfold Profiled.authority, Profiled.synced. cbv zeta. rewrite Hl in *.
  destruct (Decoder.primary_locked (Profiled.decoder p)); cbn [negb]; [|by rewrite Hl].
  destruct (RuntimeProfile.startup_authority_ready _ _); [by rewrite Hl|done].
Qed.

Lemma trigger_run_consistent timestamps a :
  let d := Profiled.decoder (SplitTriggerAdapter.decoder a) in
  primary_only d -> Forall u32 (option_list (Decoder.last_edge_timestamp d)) -> Forall u32 timestamps ->
  Sorted (fun t t' => t <> t') (option_list (Decoder.last_edge_timestamp d) ++ timestamps) ->
  Forall consistent (snd (trigger_run timestamps a)).
Proof.
  revert a. induction timestamps as [|t ts IH]; intros a d Hd Hlast Hu Hs; [by constructor|].
  inversion Hu as [|? ? Ht Hts]; subst. cbn [trigger_run]. unfold trigger_outputs, SplitTriggerAdapter.on_trigger_edge.
  set (p' := fst (Profiled.ingest_primary_edge t (SplitTriggerAdapter.decoder a))). cbv zeta.
  assert (Profiled.decoder p' = fst (Decoder.ingest_primary_edge t d)) as Hp' by apply profiled_edge_decoder.
  destruct (primary_only_edge t d Ht Hd) as [Hd' Hl'].
  { intros u E. rewrite E in *. cbn in *. inversion_clear Hlast. split; [done|].
    inversion_clear Hs as [|? ? _ Hh]. by inversion_clear Hh. }
  rewrite <- Hp' in Hd', Hl'.
  specialize (IH (SplitTriggerAdapter.mk p')). cbv zeta in IH. cbn [SplitTriggerAdapter.decoder] in IH.
  rewrite Hl' in IH. destruct (trigger_run ts (SplitTriggerAdapter.mk p')) as [a' os]. cbn [snd] in *.
  constructor.
  - destruct (profiled_authority_lock p' Hd') as [Hlock Hphase]. by split_and!.
  - apply IH; [done|by constructor|done|]. cbn. destruct (Decoder.last_edge_timestamp d); [by inversion_clear Hs|done].
Qed.

Lemma trigger_run_app timestamps t a :
  trigger_run (timestamps ++ [t]) a =
    let '(a1, os) := trigger_run timestamps a in
    let '(a2, o) := trigger_outputs t a1 in (a2, os ++ [o]).
Proof.
  revert a. induction timestamps as [|u ts IH]; intros a; cbn [app trigger_run].
  - by destruct (trigger_outputs t a).
  - destruct (trigger_outputs u a) as [a1 o]. rewrite IH.
    destruct (trigger_run ts a1) as [a2 os]. by destruct (trigger_outputs t a2).
Qed.

(** C37: The trigger adapter, from any profile it accepts, over edges no two consecutive of
    which carry one timestamp: every event says it is synced exactly when its authority has
    the lock, its live event repeats it, and it never knows more than the crank, so that the
    live inputs end synced exactly when the decoder is, at the decoder's speed and angle, and
    in no other synced state than crank sync. *)
Theorem trigger_edges_consistent profile a timestamps t :
  SplitTriggerAdapter.with_profile profile = Ok a -> Forall u32 (timestamps ++ [t]) ->
  Sorted (fun t t' => t <> t') (timestamps ++ [t]) ->
  let '(a', os) := trigger_run (timestamps ++ [t]) a in
  let live := live_run (map snd os) in
  Forall consistent os
  /\ SplitLiveInputs.trigger_synced live = SplitTriggerAdapter.synced a'
  /\ SplitLiveInputs.rpm live = SplitTriggerAdapter.rpm a'
  /\ SplitLiveInputs.angle_x10 live = SplitTriggerAdapter.angle_x10 t a'
  /\ (SplitLiveInputs.sync_state live = SplitSyncState.CrankSynced
      <-> SplitTriggerAdapter.sync_state a' = SplitSyncState.CrankSynced)
  /\ SplitTriggerAdapter.sync_state a' <> SplitSyncState.CamSynced
  /\ SplitTriggerAdapter.sync_state a' <> SplitSyncState.FullSequentialAuthorized.
Proof.
  intros Ha Hu Hs. destruct (with_profile_decoder profile a Ha) as [Hd Hn].
  pose proof (trigger_run_consistent (timestamps ++ [t]) a Hd) as Hc. rewrite Hn in Hc.
  specialize (Hc ltac:(constructor) Hu Hs).
  rewrite trigger_run_app in *. destruct (trigger_run timestamps a) as [a1 os] eqn:E1. 
  destruct (trigger_outputs t a1) as [a' [e l]] eqn:E2. cbn [snd] in *. cbv zeta. split; [exact Hc|].
  rewrite map_app. cbn [map snd]. rewrite live_run_last. cbn [SplitLiveInputs.trigger_synced SplitLiveInputs.rpm SplitLiveInputs.angle_x10
    SplitLiveInputs.sync_state].
  pose proof (proj1 (Forall_app _ _ _) Hc) as [_ Ho]. apply Forall_singleton in Ho as (Hsy & _ & Hph).
  unfold trigger_outputs, SplitTriggerAdapter.on_trigger_edge in E2.
  injection E2 as Ha' He Hl. rewrite <- He in *. cbn [TriggerEdgeInput.synced TriggerEdgeInput.authority] in *. rewrite Ha' in *.
  rewrite <- Hl. cbn [SplitLiveTriggerEvent.rpm SplitLiveTriggerEvent.angle_x10 SplitLiveTriggerEvent.synced SplitTriggerAdapter.live_trigger_event].
  split_and!; try done.
  all: unfold live_summary, SplitTriggerAdapter.sync_state, SplitSyncState.from_authority.
  all: cbn [SplitTriggerAdapter.live_trigger_event SplitLiveTriggerEvent.synced].
  all: unfold EngineTimeAuthority.has_primary_lock in Hsy; rewrite Hph, Hsy.
  all: destruct (EngineTimeAuthority.crank (SplitTriggerAdapter.authority a')); cbn; repeat case_match; done.
Qed.

(** A wheel turning at one tooth per millisecond, and the same with its last edge twice. *)
Definition turning_wheel : list Z := [1000; 2000; 3000; 4000; 7000; 8000].

(** The default adapter has no edge filter: an edge delivered twice leaves its events synced
    under an authority without the lock, and the live inputs in crank sync. *)
Lemma duplicate_edge_splits_events :
  exists a, SplitTriggerAdapter.new = Some a
  /\ let '(a', os) := trigger_run (turning_wheel ++ [8000]) a in
     (fun o => TriggerEdgeInput.synced o.1) <$> last os = Some true
     /\ EngineTimeAuthority.has_primary_lock (SplitTriggerAdapter.authority a') = false
     /\ SplitTriggerAdapter.sync_state a' = SplitSyncState.Unsynced
     /\ SplitLiveInputs.sync_state (live_run (map snd os)) = SplitSyncState.CrankSynced.
Proof. eexists. split; [reflexivity|]. by vm_compute. Qed.

Lemma trigger_edges_consistent_witness :
  exists a, SplitTriggerAdapter.with_profile default_trigger_profile = Ok a
  /\ let '(a', os) := trigger_run (turning_wheel ++ [9000]) a in
     Forall consistent os /\ SplitTriggerAdapter.synced a' = true.
Proof.
  eexists. split; [reflexivity|].
  match goal with |- context [trigger_run _ ?a] =>
    pose proof (trigger_edges_consistent default_trigger_profile a turning_wheel 9000) as H end.
  specialize (H ltac:(reflexivity)). destruct (trigger_run _ _) as [a' os] eqn:E.
  destruct H as (Hc & Hs & _).
  - repeat constructor; done.
  - repeat constructor; done.
  - split; [exact Hc|]. rewrite <- Hs. vm_compute in E. injection E as <- <-. reflexivity.
Defined.
