(* ===== verification/Obd2History.v ===== *)
(** * Retained OBD-II diagnostics (boards/common/src/transport_service.rs,
    crates/spec/src/fault.rs)

    What a board remembers of its faults for a scan tool: the projection of its sensors as
    current data, the policy that turns a runtime fault or a change of fault into a
    diagnostic event, and the bounded history of stored trouble codes and one freeze frame
    ([RetainedHistory]).  The history refines a small specification: the first three distinct
    codes, and the first event with the data of its moment. *)
From S2P Require Import Prelude Domain Engine Bytes CanTypes CanObd2 BoardInputs.

Definition OBD2_STORED_DTC_CAP : nat := 3.
Definition OBD2_LIVE_DIAG_EVENT_INGRESS_CAP : nat := 2.
Definition DIAG_LOG_ENTRY_COUNT : nat := 16.
Definition OBD2_DEFAULT_CLT_C10 : Z := 200.
Definition OBD2_DEFAULT_IAT_C10 : Z := 250.
Definition OBD2_DEFAULT_VBATT_MV : Z := 12500.
Definition OBD2_DEFAULT_LAMBDA_X100 : Z := 100.

(** ** Current data *)
Definition obd2_percent_from_tps_x100 (tps_x100 : Z) : Z := Z.min (tps_x100 / 100) 100.

Definition obd2_temp_offset_from_c10 (temp_c10 fallback_c10 : Z) : Z :=
  let source_c10 := if temp_c10 =? 0 then fallback_c10 else temp_c10 in
  let degrees_c := Z.quot source_c10 10 in
  as_unsigned 8 (clamp (degrees_c + 40) 0 255).

(** [None] is the overflow of the rounding offset in 16 bits. *)
Definition obd2_decivolts_from_mv (millivolts fallback_mv : Z) : option Z :=
  let source_mv := if millivolts =? 0 then fallback_mv else millivolts in
  rounded ← chk 16 (source_mv + 50);
  Some (Z.min (rounded / 100) u8_max).

Definition obd2_lambda_from_snapshot (snapshot : BoardSensorSnapshot.t) : Z :=
  if BoardSensorValidityFlags.contains (BoardSensorSnapshot.validity snapshot) BoardSensorValidityFlags.LAMBDA
  then Z.min (BoardSensorSnapshot.lambda_x100 snapshot) u8_max
  else OBD2_DEFAULT_LAMBDA_X100.

Definition obd2_sensor_message_from_snapshot (s : BoardSensorSnapshot.t) (timestamp_us : Z) : option Message.t :=
  voltage ← obd2_decivolts_from_mv (BoardSensorSnapshot.vbatt_mv s) OBD2_DEFAULT_VBATT_MV;
  Some (Message.SensorData (BoardSensorSnapshot.map_kpa10 s)
    (obd2_percent_from_tps_x100 (BoardSensorSnapshot.tps_x100 s))
    (obd2_temp_offset_from_c10 (BoardSensorSnapshot.iat_c10 s) OBD2_DEFAULT_IAT_C10)
    (obd2_temp_offset_from_c10 (BoardSensorSnapshot.clt_c10 s) OBD2_DEFAULT_CLT_C10)
    voltage (obd2_lambda_from_snapshot s) 0 timestamp_us).

Definition obd2_default_sensor_message (map_kpa_x10 timestamp_us : Z) : option Message.t :=
  voltage ← obd2_decivolts_from_mv 0 OBD2_DEFAULT_VBATT_MV;
  Some (Message.SensorData map_kpa_x10 0 (obd2_temp_offset_from_c10 0 OBD2_DEFAULT_IAT_C10)
    (obd2_temp_offset_from_c10 0 OBD2_DEFAULT_CLT_C10) voltage OBD2_DEFAULT_LAMBDA_X100 0 timestamp_us).

Definition obd2_current_data_from_board_inputs (logical_sensor_capture : option BoardSensorSnapshotCapture.t)
    (capture_sample : option CaptureSample.t) : option Message.t :=
  match logical_sensor_capture, capture_sample with
  | Some capture, _ =>
    obd2_sensor_message_from_snapshot (BoardSensorSnapshotCapture.snapshot capture)
      (BoardSensorSnapshotCapture.at_us capture)
  | None, Some sample => obd2_default_sensor_message (CaptureSample.load_kpa10 sample) (CaptureSample.at_us sample)
  | None, None => obd2_default_sensor_message 0 0
  end.

Definition obd2_sensor_timestamp (m : Message.t) : option Z :=
  match m with Message.SensorData _ _ _ _ _ _ _ timestamp_us => Some timestamp_us | _ => None end.

Definition obd2_diag_context_and_source (fault : FaultCode.t) (m : Message.t) : option Z * DiagSource.t :=
  match fault, m with
  | FaultCode.SensorOutOfRange, Message.SensorData map_kpa_x10 _ _ _ _ _ _ _ => (Some map_kpa_x10, DiagSource.Sensor)
  | FaultCode.SafetyCut, Message.SensorData map_kpa_x10 _ _ _ _ _ _ _ => (Some map_kpa_x10, DiagSource.Safety)
  | FaultCode.ActuatorFault, Message.SensorData _ tps_percent _ _ _ _ _ _ => (Some tps_percent, DiagSource.Sensor)
  | FaultCode.SyncLoss, _ => (None, DiagSource.Trigger)
  | FaultCode.CalibrationInvalid, _ => (None, DiagSource.User)
  | FaultCode.SensorOutOfRange, _ => (None, DiagSource.Sensor)
  | FaultCode.SafetyCut, _ => (None, DiagSource.Safety)
  | FaultCode.ActuatorFault, _ => (None, DiagSource.Sensor)
  | FaultCode.None, _ => (None, DiagSource.Safety)
  end.

(** The first [DIAG_LOG_ENTRY_COUNT] slots of a log, padded. *)
Definition obd2_diag_log_events_array (log : DiagLog.t) : list (option DiagEvent.t) :=
  let kept := take DIAG_LOG_ENTRY_COUNT (DiagLog.events log) in
  kept ++ replicate (DIAG_LOG_ENTRY_COUNT - length kept) None.

(** ** Fault policy (crates/spec/src/fault.rs) *)
Module SpecFaultCode.
Inductive t := None_ | SensorOutOfRange | SafetyCut | Other.
End SpecFaultCode.
Module SpecFaultSeverity.
Inductive t := Info | Warning | Critical.
End SpecFaultSeverity.
Module SpecCancelReason.
Inductive t := None_ | Manual | SafetyShutdown | Other.
End SpecCancelReason.
Module SpecFaultAction.
Inductive t := None_ | ObserveOnly | LimpHome | Shutdown | Cleared.
End SpecFaultAction.
Module SpecFaultPersistence.
Inductive t := Inactive | LatchedUntilClear.
End SpecFaultPersistence.
Module SpecFaultState.
Record t := mk { code : SpecFaultCode.t; severity : SpecFaultSeverity.t; cancel_reason : SpecCancelReason.t }.
End SpecFaultState.
Module SpecFaultEvent.
Record t := mk { active : bool; action : SpecFaultAction.t; persistence : SpecFaultPersistence.t }.
End SpecFaultEvent.

Definition fault_event_from_state (s : SpecFaultState.t) : SpecFaultEvent.t :=
  let active := match SpecFaultState.code s with SpecFaultCode.None_ => false | _ => true end in
  let '(action, persistence) :=
    if negb active then (SpecFaultAction.None_, SpecFaultPersistence.Inactive)
    else if match SpecFaultState.cancel_reason s with SpecCancelReason.SafetyShutdown => true | _ => false end
            || match SpecFaultState.severity s with SpecFaultSeverity.Critical => true | _ => false end
            || match SpecFaultState.code s with SpecFaultCode.SafetyCut => true | _ => false end
    then (SpecFaultAction.Shutdown, SpecFaultPersistence.LatchedUntilClear)
    else if match SpecFaultState.severity s with SpecFaultSeverity.Warning => true | _ => false end
            || match SpecFaultState.code s with SpecFaultCode.SensorOutOfRange => true | _ => false end
    then (SpecFaultAction.LimpHome, SpecFaultPersistence.LatchedUntilClear)
    else (SpecFaultAction.ObserveOnly, SpecFaultPersistence.LatchedUntilClear) in
  SpecFaultEvent.mk active action persistence.

Definition fault_event_for_clear (previous : SpecFaultState.t) : SpecFaultEvent.t :=
  match SpecFaultState.code previous with
  | SpecFaultCode.None_ => SpecFaultEvent.mk false SpecFaultAction.None_ SpecFaultPersistence.Inactive
  | _ => SpecFaultEvent.mk false SpecFaultAction.Cleared SpecFaultPersistence.Inactive
  end.

(** ** Diagnostic events from faults *)
Definition obd2_diag_code_from_runtime_fault (fault : FaultCode.t) : option DiagCode.t :=
  match fault with
  | FaultCode.None => None
  | FaultCode.SyncLoss => Some DiagCode.CamMissing
  | FaultCode.SensorOutOfRange => Some DiagCode.MapRange
  | FaultCode.CalibrationInvalid => Some DiagCode.PersistCrcFault
  | FaultCode.SafetyCut => Some DiagCode.MapFailureHighLoad
  | FaultCode.ActuatorFault => Some DiagCode.TpsMapPlausibility
  end.

Definition spec_fault_state_from_runtime_fault (f : FaultState.t) : SpecFaultState.t :=
  SpecFaultState.mk
    (match FaultState.fault f with
     | FaultCode.None => SpecFaultCode.None_
     | FaultCode.SensorOutOfRange => SpecFaultCode.SensorOutOfRange
     | FaultCode.SafetyCut => SpecFaultCode.SafetyCut
     | _ => SpecFaultCode.Other
     end)
    (match FaultState.severity f with
     | FaultSeverity.Info => SpecFaultSeverity.Info
     | FaultSeverity.Warning => SpecFaultSeverity.Warning
     | FaultSeverity.Critical => SpecFaultSeverity.Critical
     end)
    (match FaultState.cancel_reason f with
     | CancelReason.Manual => SpecCancelReason.Manual
     | CancelReason.SafetyShutdown => SpecCancelReason.SafetyShutdown
     | _ => SpecCancelReason.Other
     end).

Definition obd2_fault_event_from_runtime_fault (f : FaultState.t) : SpecFaultEvent.t :=
  fault_event_from_state (spec_fault_state_from_runtime_fault f).

(** The change of fault that the board publishes (crates/board-api/src/telemetry.rs). *)
Module FaultTransitionEventId.
Inductive t := None_ | FaultEntered | FaultUpdated | FaultCleared.
#[global] Instance eq_dec : EqDecision t.
Proof. solve_decision. Defined.
End FaultTransitionEventId.
Module FaultTransitionAction.
Inductive t := None_ | ObserveOnly | LimpHome | Shutdown | Cleared.
#[global] Instance eq_dec : EqDecision t.
Proof. solve_decision. Defined.
End FaultTransitionAction.
Module FaultTransitionEvent.
Record t := mk { event_id : FaultTransitionEventId.t; severity : FaultSeverity.t; action : FaultTransitionAction.t }.
End FaultTransitionEvent.
Module FaultTransition.
Record t := mk {
  changed : bool; at_us : Z; event : FaultTransitionEvent.t;
  previous : FaultState.t; current : FaultState.t }.
Definition default : t :=
  mk false 0 (FaultTransitionEvent.mk FaultTransitionEventId.None_ FaultSeverity.Info FaultTransitionAction.None_)
    FaultState.initial FaultState.initial.
End FaultTransition.

Definition obd2_fault_event_from_fault_transition (f : FaultTransition.t) : SpecFaultEvent.t :=
  match FaultTransitionEvent.event_id (FaultTransition.event f) with
  | FaultTransitionEventId.None_ => SpecFaultEvent.mk false SpecFaultAction.None_ SpecFaultPersistence.Inactive
  | FaultTransitionEventId.FaultEntered | FaultTransitionEventId.FaultUpdated =>
    obd2_fault_event_from_runtime_fault (FaultTransition.current f)
  | FaultTransitionEventId.FaultCleared =>
    fault_event_for_clear (spec_fault_state_from_runtime_fault (FaultTransition.previous f))
  end.

Definition event_reported (e : SpecFaultEvent.t) : bool :=
  SpecFaultEvent.active e && negb match SpecFaultEvent.action e with SpecFaultAction.None_ => true | _ => false end.

Definition obd2_diag_event_from_runtime_fault (f : FaultState.t) (data : Message.t) : option DiagEvent.t :=
  if negb (event_reported (obd2_fault_event_from_runtime_fault f)) then None
  else
    code ← obd2_diag_code_from_runtime_fault (FaultState.fault f);
    let timestamp := default 0 (obd2_sensor_timestamp data) in
    let '(context, source) := obd2_diag_context_and_source (FaultState.fault f) data in
    Some (DiagEvent.mk code timestamp source context timestamp timestamp).

Definition obd2_diag_event_from_fault_transition (f : FaultTransition.t) (data : Message.t) : option DiagEvent.t :=
  if negb (FaultTransition.changed f) then None
  else if negb (event_reported (obd2_fault_event_from_fault_transition f)) then None
  else
    match FaultTransitionEvent.event_id (FaultTransition.event f) with
    | FaultTransitionEventId.None_ | FaultTransitionEventId.FaultCleared => None
    | FaultTransitionEventId.FaultEntered | FaultTransitionEventId.FaultUpdated =>
      let fault := FaultState.fault (FaultTransition.current f) in
      code ← obd2_diag_code_from_runtime_fault fault;
      let timestamp := FaultTransition.at_us f in
      let '(context, source) := obd2_diag_context_and_source fault data in
      Some (DiagEvent.mk code timestamp source context timestamp timestamp)
    end.

(** ** The retained history *)
Module RetainedHistory.
(** [Obd2RetainedDiagnosticHistory]; [stored_dtcs] has [OBD2_STORED_DTC_CAP] entries. *)
Record t := mk {
  current_data_value_source : Message.t;
  freeze_frame_value_source : option Message.t;
  stored_dtcs : list DiagCode.t;
  stored_dtc_count : Z;
  freeze_frame_dtc : option DiagCode.t;
  current_diag_event : option DiagEvent.t;
  freeze_frame_event : option DiagEvent.t;
  last_fault : FaultCode.t;
  last_observed_diag_code : option DiagCode.t;
  last_observed_diag_timestamp_us : Z }.
#[global] Instance eta : Eta t := fun h => mk (current_data_value_source h) (freeze_frame_value_source h)
  (stored_dtcs h) (stored_dtc_count h) (freeze_frame_dtc h) (current_diag_event h) (freeze_frame_event h)
  (last_fault h) (last_observed_diag_code h) (last_observed_diag_timestamp_us h).

Definition new (current_data_value_source : Message.t) : t :=
  mk current_data_value_source None (replicate OBD2_STORED_DTC_CAP DiagCode.MapRange) 0 None None None
    FaultCode.None None 0.

Definition stored (h : t) : list DiagCode.t := take (Z.to_nat (stored_dtc_count h)) (stored_dtcs h).

Definition push_stored_dtc (code : DiagCode.t) (h : t) : t :=
  if bool_decide (code ∈ stored h) then h
  else if Z.of_nat OBD2_STORED_DTC_CAP <=? stored_dtc_count h then h
  else h <| stored_dtcs ::= <[Z.to_nat (stored_dtc_count h) := code]> |> <| stored_dtc_count ::= fun n => n + 1 |>.

Definition last_observed (h : t) (e : DiagEvent.t) : bool :=
  bool_decide (last_observed_diag_code h = Some (DiagEvent.code e))
  && (last_observed_diag_timestamp_us h =? DiagEvent.timestamp e).

Definition observe_diag_event (e : DiagEvent.t) (h : t) : t :=
  if last_observed h e then h
  else
    let h := push_stored_dtc (DiagEvent.code e) h in
    let h :=
      match freeze_frame_dtc h with
      | None =>
        h <| freeze_frame_dtc := Some (DiagEvent.code e) |> <| freeze_frame_event := Some e |>
          <| freeze_frame_value_source := Some (current_data_value_source h) |>
      | Some _ => h
      end in
    h <| last_observed_diag_code := Some (DiagEvent.code e) |>
      <| last_observed_diag_timestamp_us := DiagEvent.timestamp e |>.

Definition observe_all (events : list (option DiagEvent.t)) (h : t) : t :=
  foldl (fun h e => observe_diag_event e h) h (omap id events).

Definition observe_live_diagnostic (fault_state : FaultState.t) (diag_event : option DiagEvent.t)
    (diag_log_events recent_diag_events : list (option DiagEvent.t)) (data : Message.t) (h : t) : t :=
  let h := h <| current_data_value_source := data |> in
  let from_fault := obd2_diag_event_from_runtime_fault fault_state data in
  let h := h <| current_diag_event := match diag_event with Some e => Some e | None => from_fault end |> in
  let h := observe_all diag_log_events h in
  let h := observe_all recent_diag_events h in
  let observed_recent_event :=
    existsb (fun e : option DiagEvent.t => match e with Some _ => true | None => false end)
      (diag_log_events ++ recent_diag_events) in
  let h :=
    if negb observed_recent_event then
      match from_fault with
      | Some e => if negb (bool_decide (FaultState.fault fault_state = last_fault h)) then observe_diag_event e h else h
      | None => h
      end
    else h in
  h <| last_fault := FaultState.fault fault_state |>.

Definition readiness_monitor_inputs (h : t) : CanObd2ReadinessMonitorInputs.t :=
  let active := match current_diag_event h with Some _ => true | None => false end in
  CanObd2ReadinessMonitorInputs.mk active (Z.min (stored_dtc_count h) u8_max) false false false false true (negb active).

Definition dtc_clear_inputs (h : t) : CanObd2DtcClearInputs.t :=
  CanObd2DtcClearInputs.mk (Z.min (stored_dtc_count h) u8_max)
    (match freeze_frame_dtc h with Some _ => true | None => false end) true.

Definition clear (h : t) : t :=
  h <| freeze_frame_value_source := None |> <| stored_dtc_count := 0 |> <| freeze_frame_dtc := None |>
    <| current_diag_event := None |> <| freeze_frame_event := None |> <| last_fault := FaultCode.None |>
    <| last_observed_diag_code := None |> <| last_observed_diag_timestamp_us := 0 |>.

(** [Obd2RetainedDiagnosticHistorySnapshot] has the fields of the history, its count as a
    [u8]; the conversions saturate it both ways. *)
Definition snapshot (h : t) : t := h <| stored_dtc_count ::= fun n => Z.min n u8_max |>.
Definition restore_from_snapshot (s : t) (h : t) : t :=
  s <| stored_dtc_count ::= fun n => Z.min n (Z.of_nat OBD2_STORED_DTC_CAP) |>.
Definition from_snapshot (s : t) : t := restore_from_snapshot s (new (current_data_value_source s)).
End RetainedHistory.

(** ** What the history promises

    The operations on a history: an observation of the live state, a clear, and the trip of
    its snapshot through a store. *)
Module HistoryOp.
Inductive t :=
| Observe (fault_state : FaultState.t) (diag_event : option DiagEvent.t)
    (diag_log_events recent_diag_events : list (option DiagEvent.t)) (data : Message.t)
| Clear
| Reload.
End HistoryOp.

Definition history_step (op : HistoryOp.t) (h : RetainedHistory.t) : RetainedHistory.t :=
  match op with
  | HistoryOp.Observe f e log recent data => RetainedHistory.observe_live_diagnostic f e log recent data h
  | HistoryOp.Clear => RetainedHistory.clear h
  | HistoryOp.Reload => RetainedHistory.restore_from_snapshot (RetainedHistory.snapshot h) h
  end.

(** The specification keeps every event since the last clear with the data of its moment,
    and the last fault. *)
Record HistorySpec := mkHistorySpec { seen : list (DiagEvent.t * Message.t); fault_seen : FaultCode.t }.

(** What one observation adds: the events it is given, or else the one of a new fault. *)
Definition events_observed (f : FaultState.t) (log recent : list (option DiagEvent.t)) (data : Message.t)
    (last_fault : FaultCode.t) : list DiagEvent.t :=
  match omap id (log ++ recent) with
  | [] => if bool_decide (FaultState.fault f = last_fault) then []
          else option_list (obd2_diag_event_from_runtime_fault f data)
  | events => events
  end.

Definition history_spec_step (op : HistoryOp.t) (s : HistorySpec) : HistorySpec :=
  match op with
  | HistoryOp.Observe f _ log recent data =>
    mkHistorySpec (seen s ++ ((., data) <$> events_observed f log recent data (fault_seen s))) (FaultState.fault f)
  | HistoryOp.Clear => mkHistorySpec [] FaultCode.None
  | HistoryOp.Reload => s
  end.

(** The distinct values of a list in order of first appearance. *)
Definition add_first {A} `{EqDecision A} (xs : list A) (x : A) : list A := if bool_decide (x ∈ xs) then xs else xs ++ [x].
Definition firsts {A} `{EqDecision A} (xs : list A) : list A := foldl add_first [] xs.

Definition codes_seen (s : HistorySpec) : list DiagCode.t := firsts ((fun o => DiagEvent.code o.1) <$> seen s).

Lemma firsts_app {A} `{EqDecision A} (xs : list A) x : firsts (xs ++ [x]) = add_first (firsts xs) x.
Proof. unfold firsts. by rewrite foldl_app. Qed.

Lemma elem_of_firsts {A} `{EqDecision A} (xs : list A) x : x ∈ firsts xs <-> x ∈ xs.
Proof.
  induction xs as [|y xs IH] using rev_ind; [done|]. rewrite firsts_app, elem_of_app, list_elem_of_singleton.
  unfold add_first. case_bool_decide as Hy; [|by rewrite elem_of_app, list_elem_of_singleton, IH].
  rewrite IH. split; [tauto|]. intros [?| ->]; [done|]. by apply IH.
Qed.

Lemma firsts_NoDup {A} `{EqDecision A} (xs : list A) : NoDup (firsts xs).
Proof.
  induction xs as [|y xs IH] using rev_ind; [constructor|]. rewrite firsts_app.
  unfold add_first. case_bool_decide as Hy; [done|]. apply NoDup_app. split_and!; [done| |apply NoDup_singleton].
  intros x Hx ->%list_elem_of_singleton. done.
Qed.

(** Adding to a list of which only a prefix is kept. *)
Lemma take_add_first {A} `{EqDecision A} n (xs : list A) x :
  take n (add_first xs x) =
    if bool_decide (x ∈ take n xs) then take n xs
    else if (n <=? length (take n xs))%nat then take n xs else take n xs ++ [x].
Proof.
  unfold add_first. rewrite length_take. destruct (decide (length xs < n)%nat) as [Hl|Hl].
  - rewrite (take_ge xs) by lia. case_bool_decide; [by rewrite take_ge by lia|].
    destruct (Nat.leb_spec n (n `min` length xs)); [lia|]. rewrite take_ge; [done|]. rewrite length_app. cbn. lia.
  - assert (forall ys, take n (xs ++ ys) = take n xs) as Happ by (intros; apply take_app_le; lia).
    destruct (Nat.leb_spec n (n `min` length xs)); [|lia].
    repeat case_bool_decide; by rewrite ?Happ.
Qed.

(** The history shows the first three codes and the first event. *)
Record history_shows (h : RetainedHistory.t) (s : HistorySpec) : Prop := {
  shows_codes : RetainedHistory.stored h = take OBD2_STORED_DTC_CAP (codes_seen s);
  shows_count : RetainedHistory.stored_dtc_count h = Z.of_nat (length (take OBD2_STORED_DTC_CAP (codes_seen s)));
  shows_slots : length (RetainedHistory.stored_dtcs h) = OBD2_STORED_DTC_CAP;
  shows_freeze_dtc : RetainedHistory.freeze_frame_dtc h = (fun o => DiagEvent.code o.1) <$> head (seen s);
  shows_freeze_event : RetainedHistory.freeze_frame_event h = fst <$> head (seen s);
  shows_freeze_data : RetainedHistory.freeze_frame_value_source h = snd <$> head (seen s);
  shows_fault : RetainedHistory.last_fault h = fault_seen s;
  shows_last : forall c, RetainedHistory.last_observed_diag_code h = Some c -> c ∈ codes_seen s }.

Lemma codes_seen_snoc s e data f :
  codes_seen (mkHistorySpec (seen s ++ [(e, data)]) f) = add_first (codes_seen s) (DiagEvent.code e).
Proof. unfold codes_seen. cbn [seen]. rewrite fmap_app. exact (firsts_app _ _). Qed.

Lemma push_stored_shows code h xs : length (RetainedHistory.stored_dtcs h) = OBD2_STORED_DTC_CAP ->
  RetainedHistory.stored_dtc_count h = Z.of_nat (length (take OBD2_STORED_DTC_CAP xs)) ->
  RetainedHistory.stored h = take OBD2_STORED_DTC_CAP xs ->
  let h' := RetainedHistory.push_stored_dtc code h in
  RetainedHistory.stored h' = take OBD2_STORED_DTC_CAP (add_first xs code)
  /\ RetainedHistory.stored_dtc_count h' = Z.of_nat (length (take OBD2_STORED_DTC_CAP (add_first xs code)))
  /\ length (RetainedHistory.stored_dtcs h') = OBD2_STORED_DTC_CAP.
Proof.
  intros Hl Hc Hs. cbv zeta. unfold RetainedHistory.push_stored_dtc. rewrite Hs, take_add_first, Hc.
  case_bool_decide; [by rewrite Hs, Hc|].
  destruct (Nat.leb_spec OBD2_STORED_DTC_CAP (length (take OBD2_STORED_DTC_CAP xs))),
    (Z.leb_spec (Z.of_nat OBD2_STORED_DTC_CAP) (Z.of_nat (length (take OBD2_STORED_DTC_CAP xs)))); try lia.
  { by rewrite Hs, Hc. }
  set (k := length (take OBD2_STORED_DTC_CAP xs)) in *.
  unfold RetainedHistory.stored in *. rewrite Hc, Nat2Z.id in Hs.
  rewrite length_app. fold k. cbn [length].
  cbn -[OBD2_STORED_DTC_CAP]. rewrite Hc, length_insert. split_and!; [|lia|done].
  replace (Z.to_nat (Z.of_nat k + 1)) with (S k) by lia. rewrite Nat2Z.id.
  rewrite (take_S_r _ _ code) by (apply list_lookup_insert_eq; unfold OBD2_STORED_DTC_CAP in *; lia).
  by rewrite take_insert_ge by lia; rewrite Hs.
Qed.

Lemma observe_diag_event_data e h :
  RetainedHistory.current_data_value_source (RetainedHistory.observe_diag_event e h)
  = RetainedHistory.current_data_value_source h.
Proof. unfold RetainedHistory.observe_diag_event, RetainedHistory.push_stored_dtc. by repeat case_match. Qed.

(** One event: the code is stored if it is new, the first event is frozen. *)
Lemma observe_diag_event_shows e h s : history_shows h s ->
  history_shows (RetainedHistory.observe_diag_event e h)
    (mkHistorySpec (seen s ++ [(e, RetainedHistory.current_data_value_source h)]) (fault_seen s)).
Proof.
  intros Hh. unfold RetainedHistory.observe_diag_event. destruct (RetainedHistory.last_observed h e) eqn:El.
  - unfold RetainedHistory.last_observed in El. apply andb_true_iff in El as [El%bool_decide_eq_true _].
    pose proof (shows_last _ _ Hh _ El) as Hin.
    assert (exists o os, seen s = o :: os) as (o & os & Es).
    { destruct (seen s) as [|o os] eqn:E; [|by eauto]. unfold codes_seen in Hin. rewrite E in Hin. cbn in Hin.
      by apply elem_of_nil in Hin. }
    assert (codes_seen (mkHistorySpec (seen s ++ [(e, RetainedHistory.current_data_value_source h)]) (fault_seen s))
            = codes_seen s) as Ec.
    { rewrite codes_seen_snoc. unfold add_first. by rewrite bool_decide_true. }
    destruct Hh. rewrite Es in *. split; rewrite ?Ec; cbn; done.
  - pose proof (push_stored_shows (DiagEvent.code e) h (codes_seen s) (shows_slots _ _ Hh) (shows_count _ _ Hh)
      (shows_codes _ _ Hh)) as (H1 & H2 & H3).
    assert (forall c : DiagCode.t, Some (DiagEvent.code e) = Some c -> c ∈ add_first (codes_seen s) (DiagEvent.code e)) as Hl.
    { intros c [= <-]. unfold add_first. case_bool_decide; [done|]. set_solver. }
    set (h' := RetainedHistory.push_stored_dtc (DiagEvent.code e) h) in *.
    assert (RetainedHistory.freeze_frame_dtc h' = RetainedHistory.freeze_frame_dtc h
      /\ RetainedHistory.freeze_frame_event h' = RetainedHistory.freeze_frame_event h
      /\ RetainedHistory.freeze_frame_value_source h' = RetainedHistory.freeze_frame_value_source h
      /\ RetainedHistory.current_data_value_source h' = RetainedHistory.current_data_value_source h
      /\ RetainedHistory.last_fault h' = RetainedHistory.last_fault h) as (F1 & F2 & F3 & F4 & F5).
    { unfold h', RetainedHistory.push_stored_dtc. repeat case_match; done. }
    pose proof (codes_seen_snoc s e (RetainedHistory.current_data_value_source h) (fault_seen s)) as Ec.
    set (s' := mkHistorySpec _ _) in *.
    assert (head (seen s') = Some (default (e, RetainedHistory.current_data_value_source h) (head (seen s)))) as Eh.
    { unfold s'. cbn [seen]. by destruct (seen s). }
    destruct Hh as [_ _ _ G1 G2 G3 G4 _]. rewrite F1, G1. unfold RetainedHistory.stored in *.
    split; rewrite ?Eh, ?Ec; destruct (head (seen s)); cbn -[OBD2_STORED_DTC_CAP] in *; first [done|congruence].
Qed.

Lemma observe_all_shows events h s : history_shows h s ->
  history_shows (RetainedHistory.observe_all events h)
    (mkHistorySpec (seen s ++ ((., RetainedHistory.current_data_value_source h) <$> omap id events)) (fault_seen s))
  /\ RetainedHistory.current_data_value_source (RetainedHistory.observe_all events h)
     = RetainedHistory.current_data_value_source h.
Proof.
  unfold RetainedHistory.observe_all. revert h s. induction (omap id events) as [|e es IH]; intros h s Hh.
  { cbn. rewrite app_nil_r. by destruct s. }
  cbn [foldl fmap list_fmap]. pose proof (observe_diag_event_shows e h s Hh) as H1.
  destruct (IH _ _ H1) as [H2 H3]. rewrite observe_diag_event_data in H2, H3. cbn [seen fault_seen] in H2.
  rewrite <- app_assoc in H2. done.
Qed.

(** Only the stored codes, the frozen frame and the two latches matter. *)
Lemma history_shows_ext h h' s : history_shows h s ->
  RetainedHistory.stored_dtcs h' = RetainedHistory.stored_dtcs h ->
  RetainedHistory.stored_dtc_count h' = RetainedHistory.stored_dtc_count h ->
  RetainedHistory.freeze_frame_dtc h' = RetainedHistory.freeze_frame_dtc h ->
  RetainedHistory.freeze_frame_event h' = RetainedHistory.freeze_frame_event h ->
  RetainedHistory.freeze_frame_value_source h' = RetainedHistory.freeze_frame_value_source h ->
  RetainedHistory.last_observed_diag_code h' = RetainedHistory.last_observed_diag_code h ->
  history_shows h' (mkHistorySpec (seen s) (RetainedHistory.last_fault h')).
Proof.
  intros [] E1 E2 E3 E4 E5 E6. unfold RetainedHistory.stored in *.
  split; unfold RetainedHistory.stored; rewrite ?E1, ?E2, ?E3, ?E4, ?E5, ?E6; done.
Qed.

Lemma history_shows_fault h s f : history_shows h s ->
  history_shows (h <| RetainedHistory.last_fault := f |>) (mkHistorySpec (seen s) f).
Proof. intros []. by split. Qed.

Lemma existsb_omap_id {A} (es : list (option A)) :
  existsb (fun e : option A => match e with Some _ => true | None => false end) es
  = match omap id es with [] => false | _ => true end.
Proof. induction es as [|[a|] es IH]; cbn; [done..|]. by rewrite IH. Qed.

Lemma observe_live_shows f e log recent data h s : history_shows h s ->
  history_shows (RetainedHistory.observe_live_diagnostic f e log recent data h)
    (history_spec_step (HistoryOp.Observe f e log recent data) s).
Proof.
  intros Hh. unfold RetainedHistory.observe_live_diagnostic. set (from_fault := obd2_diag_event_from_runtime_fault f data).
  set (h1 := _ <| RetainedHistory.current_diag_event := _ |>).
  assert (history_shows h1 s) as H1.
  { pose proof (history_shows_ext h h1 s Hh eq_refl eq_refl eq_refl eq_refl eq_refl eq_refl) as H1.
    cbn [RetainedHistory.last_fault h1] in H1. replace (RetainedHistory.last_fault h1) with (fault_seen s) in H1
      by (symmetry; apply (shows_fault _ _ Hh)). by destruct s. }
  destruct (observe_all_shows log _ _ H1) as [H2 D2]. destruct (observe_all_shows recent _ _ H2) as [H3 D3].
  rewrite D2 in H3, D3. cbn [seen fault_seen] in H3. rewrite <- app_assoc, <- fmap_app, <- omap_app in H3.
  set (h3 := RetainedHistory.observe_all recent _) in *. change (RetainedHistory.current_data_value_source h1) with data in *.
  cbn [history_spec_step]. unfold events_observed. rewrite existsb_omap_id.
  pose proof (shows_fault _ _ H3) as F3. cbn [fault_seen] in F3. rewrite F3.
  destruct (omap id (log ++ recent)) as [|o os] eqn:Eo; cbn [negb].
  2:{ exact (history_shows_fault _ _ _ H3). }
  cbn [fmap list_fmap] in H3. rewrite app_nil_r in H3. fold from_fault. case_bool_decide as Hf; cbn [negb].
  - cbn [fmap list_fmap]. rewrite app_nil_r. destruct from_fault; exact (history_shows_fault _ _ _ H3).
  - destruct from_fault as [x|]; cbn [option_list fmap list_fmap].
    + pose proof (observe_diag_event_shows x _ _ H3) as H4. rewrite D3 in H4. exact (history_shows_fault _ _ _ H4).
    + rewrite app_nil_r. exact (history_shows_fault _ _ _ H3).
Qed.

Lemma shown_count_le h s : history_shows h s -> 0 <= RetainedHistory.stored_dtc_count h <= Z.of_nat OBD2_STORED_DTC_CAP.
Proof. intros []. rewrite shows_count0, length_take. lia. Qed.

(** A snapshot within the capacity comes back as it was. *)
Lemma snapshot_restored h h' : 0 <= RetainedHistory.stored_dtc_count h <= Z.of_nat OBD2_STORED_DTC_CAP ->
  RetainedHistory.restore_from_snapshot (RetainedHistory.snapshot h) h' = h.
Proof.
  intros Hc. unfold RetainedHistory.restore_from_snapshot, RetainedHistory.snapshot.
  destruct h. unfold modify_field. cbn -[u8_max OBD2_STORED_DTC_CAP] in *.
  hnf. f_equal. unfold u8_max, OBD2_STORED_DTC_CAP in *. cbn in *. lia.
Qed.

Lemma history_step_shows op h s : history_shows h s -> history_shows (history_step op h) (history_spec_step op s).
Proof.
  intros Hh. destruct op as [f e log recent data| |].
  - by apply observe_live_shows.
  - destruct Hh. by split.
  - cbn [history_step history_spec_step]. by rewrite snapshot_restored by (eapply shown_count_le; done).
Qed.

(** C26: The retained history is exact: after any sequence of observations, clears and reloads
    of its snapshot, the codes it reports are the first three distinct codes of the events
    observed since the last clear, in order and without repetition; the freeze frame is the
    first of those events with the sensor data of its moment; and a fault state alone adds an
    event only when it differs from the last one and no other event was observed. *)
Theorem retained_history_exact ops data :
  let h := fold_left (fun h op => history_step op h) ops (RetainedHistory.new data) in
  let s := fold_left (fun s op => history_spec_step op s) ops (mkHistorySpec [] FaultCode.None) in
  history_shows h s /\ NoDup (RetainedHistory.stored h)
  /\ 0 <= RetainedHistory.stored_dtc_count h <= Z.of_nat OBD2_STORED_DTC_CAP
  /\ RetainedHistory.from_snapshot (RetainedHistory.snapshot h) = h.
Proof.
  cbv zeta. set (h0 := RetainedHistory.new data). set (s0 := mkHistorySpec [] FaultCode.None).
  assert (history_shows h0 s0) as H0 by by split.
  clearbody h0 s0. revert h0 s0 H0. induction ops as [|op ops IH]; intros h s Hh; cbn [fold_left].
  - pose proof (shown_count_le _ _ Hh). split_and!; [done| |lia|lia|by apply snapshot_restored].
    rewrite (shows_codes _ _ Hh). eapply sublist_NoDup; [apply firsts_NoDup|apply sublist_take].
  - apply IH. by apply history_step_shows.
Qed.
