(* ===== verification/Obd2Snapshot.v ===== *)
(** * Persisted OBD-II history (boards/common/src/transport_service.rs)

    How the retained history survives a power cycle: its 92-byte encoding, the 100-byte record
    a flash page keeps beside the calibration pages, the halfwords by which a board installs
    it, and the state that writes it only when it changed.  What is read back is the history
    that was written, and nothing else of the page is touched. *)
From S2P Require Import Prelude Domain Engine Bytes CanTypes CanObd2 KvStore Obd2History.

Definition OBD2_SNAPSHOT_SENSOR_DATA_BYTES : nat := 12.
Definition OBD2_SNAPSHOT_DIAG_EVENT_BYTES : nat := 20.
Definition OBD2_RETAINED_HISTORY_SNAPSHOT_BYTES : nat := 92.
Definition OBD2_RETAINED_HISTORY_SIDECAR_HEADER_BYTES : nat := 8.
Definition OBD2_RETAINED_HISTORY_SIDECAR_BYTES : nat :=
  OBD2_RETAINED_HISTORY_SIDECAR_HEADER_BYTES + OBD2_RETAINED_HISTORY_SNAPSHOT_BYTES.
Definition OBD2_RETAINED_HISTORY_SIDECAR_MAGIC : Z := 0x3244424F.
Definition OBD2_RETAINED_HISTORY_SIDECAR_VERSION : Z := 1.

(** ** Encoders

    An encoder leaves its output buffer and the count of bytes it wrote, or [None] where it
    gives up: what it wrote before stays. *)
Definition Written : Type := list Z * option nat.

Definition and_then (w : Written) (k : list Z -> nat -> Written) : Written :=
  match w with
  | (out, Some n) => k out n
  | (out, None) => (out, None)
  end.
Declare Scope history_scope.
Notation "'let+' ( out , n ) := w 'in' k" := (and_then w (fun out n => k))
  (at level 10, out name, n name, k at level 200) : history_scope.
Open Scope history_scope.

(** [encode(.., &mut out[cursor..])] *)
Definition at_cursor (cursor : nat) (encode : list Z -> Written) (out : list Z) : Written :=
  let '(tail, n) := encode (drop cursor out) in (take cursor out ++ tail, n).

Definition encode_snapshot_sensor_message (message : Message.t) (out : list Z) : Written :=
  match message with
  | Message.SensorData map_kpa_x10 tps_percent iat_offset clt_offset voltage_x10 lambda_x100 flags timestamp_us =>
    if (length out <? OBD2_SNAPSHOT_SENSOR_DATA_BYTES)%nat then (out, None)
    else
      let out := copy_at 0 (le16 map_kpa_x10) out in
      let out := copy_at 2 [tps_percent] out in
      let out := copy_at 3 [iat_offset] out in
      let out := copy_at 4 [clt_offset] out in
      let out := copy_at 5 [voltage_x10] out in
      let out := copy_at 6 [lambda_x100] out in
      let out := copy_at 7 [flags] out in
      let out := copy_at 8 (le32 timestamp_us) out in
      (out, Some OBD2_SNAPSHOT_SENSOR_DATA_BYTES)
  | _ => (out, None)
  end.

Definition decode_snapshot_sensor_message (input : list Z) : option Message.t :=
  if (length input <? OBD2_SNAPSHOT_SENSOR_DATA_BYTES)%nat then None
  else Some (Message.SensorData (rd_u16 input 0) (get_byte 2 input) (get_byte 3 input) (get_byte 4 input)
    (get_byte 5 input) (get_byte 6 input) (get_byte 7 input) (rd_u32 input 8)).

Definition encode_snapshot_diag_source (source : DiagSource.t) : Z :=
  match source with
  | DiagSource.Sensor => 1 | DiagSource.Trigger => 2 | DiagSource.Scheduler => 3
  | DiagSource.Safety => 4 | DiagSource.User => 5
  end.

Definition decode_snapshot_diag_source (raw : Z) : option DiagSource.t :=
  match raw with
  | 1 => Some DiagSource.Sensor | 2 => Some DiagSource.Trigger | 3 => Some DiagSource.Scheduler
  | 4 => Some DiagSource.Safety | 5 => Some DiagSource.User | _ => None
  end.

Definition decode_snapshot_diag_code (raw : Z) : option DiagCode.t :=
  match raw with
  | 1 => Some DiagCode.MapRange | 2 => Some DiagCode.TpsRange | 3 => Some DiagCode.CamMissing
  | 4 => Some DiagCode.LowVoltage | 5 => Some DiagCode.Overvoltage | 6 => Some DiagCode.MapFailureHighLoad
  | 7 => Some DiagCode.TpsMapPlausibility | 8 => Some DiagCode.KnockDetected | 9 => Some DiagCode.PersistCrcFault
  | 10 => Some DiagCode.OilPressureLow | 11 => Some DiagCode.FuelPressureLow | 12 => Some DiagCode.LambdaInvalid
  | _ => None
  end.

Definition encode_snapshot_fault_code (fault : FaultCode.t) : Z :=
  match fault with
  | FaultCode.None => 0 | FaultCode.SyncLoss => 1 | FaultCode.SensorOutOfRange => 2
  | FaultCode.CalibrationInvalid => 3 | FaultCode.SafetyCut => 4 | FaultCode.ActuatorFault => 5
  end.

Definition decode_snapshot_fault_code (raw : Z) : option FaultCode.t :=
  match raw with
  | 0 => Some FaultCode.None | 1 => Some FaultCode.SyncLoss | 2 => Some FaultCode.SensorOutOfRange
  | 3 => Some FaultCode.CalibrationInvalid | 4 => Some FaultCode.SafetyCut | 5 => Some FaultCode.ActuatorFault
  | _ => None
  end.

Definition encode_snapshot_diag_event (event : option DiagEvent.t) (out : list Z) : Written :=
  if (length out <? OBD2_SNAPSHOT_DIAG_EVENT_BYTES)%nat then (out, None)
  else
    let out :=
      match event with
      | Some e =>
        let out := copy_at 0 [1] out in
        let out := copy_at 1 [DiagCode.to_u8 (DiagEvent.code e)] out in
        let out := copy_at 2 (le32 (DiagEvent.timestamp e)) out in
        let out := copy_at 6 [encode_snapshot_diag_source (DiagEvent.source e)] out in
        let out :=
          match DiagEvent.context e with
          | Some context => copy_at 8 (le32 context) (copy_at 7 [1] out)
          | None => copy_at 8 (le32 0) (copy_at 7 [0] out)
          end in
        let out := copy_at 12 (le32 (DiagEvent.start_us e)) out in
        copy_at 16 (le32 (DiagEvent.end_us e)) out
      | None => copy_at 0 (replicate OBD2_SNAPSHOT_DIAG_EVENT_BYTES 0) out
      end in
    (out, Some OBD2_SNAPSHOT_DIAG_EVENT_BYTES).

Definition decode_snapshot_diag_event (input : list Z) : option (option DiagEvent.t) :=
  if (length input <? OBD2_SNAPSHOT_DIAG_EVENT_BYTES)%nat then None
  else if get_byte 0 input =? 0 then Some None
  else
    code ← decode_snapshot_diag_code (get_byte 1 input);
    let timestamp := rd_u32 input 2 in
    source ← decode_snapshot_diag_source (get_byte 6 input);
    let context := if get_byte 7 input =? 0 then None else Some (rd_u32 input 8) in
    Some (Some (DiagEvent.mk code timestamp source context (rd_u32 input 12) (rd_u32 input 16))).

(** A code of a slot that may hold none. *)
Definition code_byte (code : option DiagCode.t) : Z := default 0 (DiagCode.to_u8 <$> code).
Definition decode_code_byte (raw : Z) : option (option DiagCode.t) :=
  if raw =? 0 then Some None else Some <$> decode_snapshot_diag_code raw.

(** The freeze frame at the cursor; its result is the cursor after it. *)
Definition encode_freeze_frame (freeze : option Message.t) (cursor : nat) (out : list Z) : Written :=
  match freeze with
  | Some message =>
    let out := copy_at cursor [1] out in
    let cursor := (cursor + 1)%nat in
    let+ (out, n) := at_cursor cursor (encode_snapshot_sensor_message message) out in
    (out, Some (cursor + n)%nat)
  | None =>
    let out := copy_at cursor [0] out in
    let cursor := (cursor + 1)%nat in
    let out := copy_at cursor (replicate OBD2_SNAPSHOT_SENSOR_DATA_BYTES 0) out in
    (out, Some (cursor + OBD2_SNAPSHOT_SENSOR_DATA_BYTES)%nat)
  end.

Definition encode_obd2_retained_history_snapshot (s : RetainedHistory.t) (out : list Z) : Written :=
  if (length out <? OBD2_RETAINED_HISTORY_SNAPSHOT_BYTES)%nat then (out, None)
  else
    let cursor := 0%nat in
    let+ (out, n) := at_cursor cursor (encode_snapshot_sensor_message (RetainedHistory.current_data_value_source s)) out in
    let cursor := (cursor + n)%nat in
    let+ (out, cursor) := encode_freeze_frame (RetainedHistory.freeze_frame_value_source s) cursor out in
    let out := copy_at cursor (DiagCode.to_u8 <$> RetainedHistory.stored_dtcs s) out in
    let cursor := (cursor + OBD2_STORED_DTC_CAP)%nat in
    let out := copy_at cursor [RetainedHistory.stored_dtc_count s] out in
    let cursor := (cursor + 1)%nat in
    let out := copy_at cursor [code_byte (RetainedHistory.freeze_frame_dtc s)] out in
    let cursor := (cursor + 1)%nat in
    let+ (out, n) := at_cursor cursor (encode_snapshot_diag_event (RetainedHistory.current_diag_event s)) out in
    let cursor := (cursor + n)%nat in
    let+ (out, n) := at_cursor cursor (encode_snapshot_diag_event (RetainedHistory.freeze_frame_event s)) out in
    let cursor := (cursor + n)%nat in
    let out := copy_at cursor [encode_snapshot_fault_code (RetainedHistory.last_fault s)] out in
    let cursor := (cursor + 1)%nat in
    let out := copy_at cursor [code_byte (RetainedHistory.last_observed_diag_code s)] out in
    let cursor := (cursor + 1)%nat in
    let out := copy_at cursor (le32 (RetainedHistory.last_observed_diag_timestamp_us s)) out in
    let cursor := (cursor + 4)%nat in
    let out := copy_at cursor (replicate (OBD2_RETAINED_HISTORY_SNAPSHOT_BYTES - cursor) 0) out in
    (out, Some OBD2_RETAINED_HISTORY_SNAPSHOT_BYTES).

Definition decode_freeze_frame (cursor : nat) (input : list Z) : option (option Message.t) :=
  if get_byte cursor input =? 0 then Some None
  else
    Some <$> decode_snapshot_sensor_message (slice (cursor + 1) (cursor + 1 + OBD2_SNAPSHOT_SENSOR_DATA_BYTES) input).

Definition decode_obd2_retained_history_snapshot (input : list Z) : option RetainedHistory.t :=
  if (length input <? OBD2_RETAINED_HISTORY_SNAPSHOT_BYTES)%nat then None
  else
    let cursor := 0%nat in
    current ← decode_snapshot_sensor_message (slice cursor (cursor + OBD2_SNAPSHOT_SENSOR_DATA_BYTES) input);
    let cursor := (cursor + OBD2_SNAPSHOT_SENSOR_DATA_BYTES)%nat in
    freeze ← decode_freeze_frame cursor input;
    let cursor := (cursor + 1 + OBD2_SNAPSHOT_SENSOR_DATA_BYTES)%nat in
    stored_dtcs ← mapM decode_snapshot_diag_code (slice cursor (cursor + OBD2_STORED_DTC_CAP) input);
    let cursor := (cursor + OBD2_STORED_DTC_CAP)%nat in
    let stored_dtc_count := Z.min (get_byte cursor input) (Z.of_nat OBD2_STORED_DTC_CAP) in
    let cursor := (cursor + 1)%nat in
    freeze_frame_dtc ← decode_code_byte (get_byte cursor input);
    let cursor := (cursor + 1)%nat in
    current_diag_event ← decode_snapshot_diag_event (slice cursor (cursor + OBD2_SNAPSHOT_DIAG_EVENT_BYTES) input);
    let cursor := (cursor + OBD2_SNAPSHOT_DIAG_EVENT_BYTES)%nat in
    freeze_frame_event ← decode_snapshot_diag_event (slice cursor (cursor + OBD2_SNAPSHOT_DIAG_EVENT_BYTES) input);
    let cursor := (cursor + OBD2_SNAPSHOT_DIAG_EVENT_BYTES)%nat in
    last_fault ← decode_snapshot_fault_code (get_byte cursor input);
    let cursor := (cursor + 1)%nat in
    last_observed_diag_code ← decode_code_byte (get_byte cursor input);
    let cursor := (cursor + 1)%nat in
    Some (RetainedHistory.mk current freeze stored_dtcs stored_dtc_count freeze_frame_dtc current_diag_event
      freeze_frame_event last_fault last_observed_diag_code (rd_u32 input cursor)).

(** ** The record in a flash page *)
Definition encode_obd2_retained_history_sidecar (s : RetainedHistory.t) (out : list Z) : Written :=
  if (length out <? OBD2_RETAINED_HISTORY_SIDECAR_BYTES)%nat then (out, None)
  else
    let out := copy_at 0 (le32 OBD2_RETAINED_HISTORY_SIDECAR_MAGIC) out in
    let out := copy_at 4 (le16 OBD2_RETAINED_HISTORY_SIDECAR_VERSION) out in
    let out := copy_at 6 (le16 (Z.of_nat OBD2_RETAINED_HISTORY_SNAPSHOT_BYTES)) out in
    let '(payload, written) :=
      encode_obd2_retained_history_snapshot s
        (slice OBD2_RETAINED_HISTORY_SIDECAR_HEADER_BYTES OBD2_RETAINED_HISTORY_SIDECAR_BYTES out) in
    let+ (out, _n) := (copy_at OBD2_RETAINED_HISTORY_SIDECAR_HEADER_BYTES payload out, written) in
    (out, Some OBD2_RETAINED_HISTORY_SIDECAR_BYTES).

(** [out.get_mut(offset..offset + OBD2_RETAINED_HISTORY_SIDECAR_BYTES)] *)
Definition encode_obd2_retained_history_sidecar_at (s : RetainedHistory.t) (out : list Z) (offset : nat) : list Z * bool :=
  if (length out <? offset + OBD2_RETAINED_HISTORY_SIDECAR_BYTES)%nat then (out, false)
  else
    let '(prefix, written) :=
      encode_obd2_retained_history_sidecar s (slice offset (offset + OBD2_RETAINED_HISTORY_SIDECAR_BYTES) out) in
    (copy_at offset prefix out, bool_decide (is_Some written)).

Definition encode_obd2_retained_history_sidecar_prefix (s : RetainedHistory.t) (out : list Z) : list Z * bool :=
  encode_obd2_retained_history_sidecar_at s out 0.

Definition stage_obd2_retained_history_sidecar_bytes (s : RetainedHistory.t) : option (list Z) :=
  match encode_obd2_retained_history_sidecar s (replicate OBD2_RETAINED_HISTORY_SIDECAR_BYTES 0) with
  | (out, Some _) => Some out
  | (_, None) => None
  end.

Definition stage_optional_obd2_retained_history_sidecar_bytes (s : option RetainedHistory.t) : option (option (list Z)) :=
  match s with
  | Some s => Some <$> stage_obd2_retained_history_sidecar_bytes s
  | None => Some None
  end.

Section Device.
(** What the callbacks do to the device that holds the record. *)
Context {D : Type} (write_sidecar : list Z -> D -> D) (install_halfword : nat -> Z -> D -> D) (read_sidecar : D -> list Z).

Definition write_obd2_retained_history_snapshot_with (s : RetainedHistory.t) (d : D) : D * bool :=
  match stage_obd2_retained_history_sidecar_bytes s with
  | None => (d, false)
  | Some bytes => (write_sidecar bytes d, true)
  end.

Definition write_optional_obd2_retained_history_snapshot_with (s : option RetainedHistory.t) (d : D) : D * option unit :=
  match s with
  | Some s =>
    match stage_obd2_retained_history_sidecar_bytes s with
    | None => (d, None)
    | Some bytes => (write_sidecar bytes d, Some tt)
    end
  | None => (d, Some tt)
  end.

(** The loop over the even offsets of the record. *)
Definition install_halfwords (bytes : list Z) (d : D) : D :=
  foldl (fun d k => let offset := (2 * k)%nat in install_halfword offset (rd_u16 bytes offset) d) d
    (seq 0 ((length bytes + 1) / 2)).

Definition install_obd2_retained_history_snapshot_halfwords_with (s : RetainedHistory.t) (d : D) : D * bool :=
  match stage_obd2_retained_history_sidecar_bytes s with
  | None => (d, false)
  | Some bytes => (install_halfwords bytes d, true)
  end.

Definition install_optional_obd2_retained_history_snapshot_halfwords_with (s : option RetainedHistory.t) (d : D) : D * option unit :=
  match s with
  | None => (d, Some tt)
  | Some s =>
    match stage_obd2_retained_history_sidecar_bytes s with
    | None => (d, None)
    | Some bytes => (install_halfwords bytes d, Some tt)
    end
  end.

Definition decode_obd2_retained_history_sidecar (input : list Z) : option RetainedHistory.t :=
  if (length input <? OBD2_RETAINED_HISTORY_SIDECAR_BYTES)%nat then None
  else if negb (rd_u32 input 0 =? OBD2_RETAINED_HISTORY_SIDECAR_MAGIC) then None
  else if negb (rd_u16 input 4 =? OBD2_RETAINED_HISTORY_SIDECAR_VERSION) then None
  else if negb (rd_u16 input 6 =? Z.of_nat OBD2_RETAINED_HISTORY_SNAPSHOT_BYTES) then None
  else
    decode_obd2_retained_history_snapshot
      (slice OBD2_RETAINED_HISTORY_SIDECAR_HEADER_BYTES OBD2_RETAINED_HISTORY_SIDECAR_BYTES input).

Definition decode_obd2_retained_history_sidecar_at (input : list Z) (offset : nat) : option RetainedHistory.t :=
  if (length input <? offset + OBD2_RETAINED_HISTORY_SIDECAR_BYTES)%nat then None
  else decode_obd2_retained_history_sidecar (slice offset (offset + OBD2_RETAINED_HISTORY_SIDECAR_BYTES) input).

Definition decode_obd2_retained_history_sidecar_prefix (input : list Z) : option RetainedHistory.t :=
  decode_obd2_retained_history_sidecar_at input 0.
Definition decode_staged_obd2_retained_history_sidecar : list Z -> option RetainedHistory.t :=
  decode_obd2_retained_history_sidecar.

Definition read_obd2_retained_history_snapshot_with (d : D) : option RetainedHistory.t :=
  decode_staged_obd2_retained_history_sidecar (read_sidecar d).
End Device.

(** ** Page updates that keep the record *)
Module Obd2RetainedHistoryPageUpdateError.
Inductive t := UnknownKey | InvalidLength.
End Obd2RetainedHistoryPageUpdateError.

(** The page a key names, of [SlotContents]. *)
Module PageKey.
Inductive t := Fuel | Ign | Angles.
Definition named (key : list Z) : option t :=
  if bool_decide (key = KEY_FUEL) then Some Fuel
  else if bool_decide (key = KEY_IGN) then Some Ign
  else if bool_decide (key = KEY_ANGLES) then Some Angles
  else None.
Definition page (k : t) (pages : SlotContents.t) : list Z :=
  match k with
  | Fuel => SlotContents.fuel pages | Ign => SlotContents.ign pages | Angles => SlotContents.angles pages
  end.
Definition set_page (k : t) (data : list Z) (pages : SlotContents.t) : SlotContents.t :=
  match k with
  | Fuel => pages <| SlotContents.fuel := data |> | Ign => pages <| SlotContents.ign := data |>
  | Angles => pages <| SlotContents.angles := data |>
  end.
End PageKey.

Definition apply_retained_history_page_update (key data : list Z) (pages : SlotContents.t)
    : SlotContents.t * Result unit Obd2RetainedHistoryPageUpdateError.t :=
  match PageKey.named key with
  | None => (pages, Err Obd2RetainedHistoryPageUpdateError.UnknownKey)
  | Some k =>
    if negb (length data =? length (PageKey.page k pages))%nat
    then (pages, Err Obd2RetainedHistoryPageUpdateError.InvalidLength)
    else (PageKey.set_page k data pages, Ok tt)
  end.

Module FlashRewrite.
(** [Obd2RetainedHistoryFlashRewrite] *)
Record t (Pages : Type) := mk { pages : Pages; snapshot : option RetainedHistory.t }.
Arguments mk {Pages}. Arguments pages {Pages}. Arguments snapshot {Pages}.
End FlashRewrite.

Definition prepare_retained_history_snapshot_rewrite {Pages} (pages : Pages) (s : RetainedHistory.t) : FlashRewrite.t Pages :=
  FlashRewrite.mk pages (Some s).

Definition prepare_retained_history_preserved_page_rewrite {Pages E} (pages : Pages)
    (preserved_snapshot : option RetainedHistory.t) (apply_update : Pages -> Pages * Result unit E) :
    Result (FlashRewrite.t Pages) E :=
  match apply_update pages with
  | (pages, Ok _) => Ok (FlashRewrite.mk pages preserved_snapshot)
  | (_, Err e) => Err e
  end.

Definition persist_retained_history_flash_rewrite {Pages E D} (current_pages : Pages)
    (current_snapshot : option RetainedHistory.t)
    (prepare : Pages -> option RetainedHistory.t -> Result (FlashRewrite.t Pages) E)
    (commit : FlashRewrite.t Pages -> D -> D * Result unit E) (d : D) : D * Result unit E :=
  match prepare current_pages current_snapshot with
  | Ok rewrite => commit rewrite d
  | Err e => (d, Err e)
  end.

(** ** Writing only what changed *)
#[export] Instance identity_eq_dec : EqDecision Message.Identity.
Proof. solve_decision. Defined.
#[export] Instance message_eq_dec : EqDecision Message.t.
Proof. solve_decision. Defined.
#[export] Instance diag_event_eq_dec : EqDecision DiagEvent.t.
Proof. solve_decision. Defined.
#[export] Instance history_eq_dec : EqDecision RetainedHistory.t.
Proof. solve_decision. Defined.

(** [Obd2RetainedHistoryStore] *)
Class HistoryStore (S E : Type) := {
  load_snapshot : S -> option RetainedHistory.t;
  save_snapshot : RetainedHistory.t -> S -> S * Result unit E }.
(** [Obd2RetainedHistoryOwner] *)
Class HistoryOwner (O : Type) := {
  owner_snapshot : O -> RetainedHistory.t;
  owner_restore : RetainedHistory.t -> O -> O }.

Module PersistenceState.
(** [Obd2RetainedHistoryPersistenceState] *)
Record t := mk { last_persisted_snapshot : RetainedHistory.t }.

Definition restore_from_store {O S E} `{HistoryOwner O, HistoryStore S E} (owner : O) (store : S) : O * t :=
  let owner := match load_snapshot store with Some s => owner_restore s owner | None => owner end in
  (owner, mk (owner_snapshot owner)).

Definition persist_if_changed {O S E} `{HistoryOwner O, HistoryStore S E} (owner : O) (store : S) (p : t)
    : t * S * Result bool E :=
  let s := owner_snapshot owner in
  if bool_decide (s = last_persisted_snapshot p) then (p, store, Ok false)
  else
    match save_snapshot s store with
    | (store, Ok _) => (mk s, store, Ok true)
    | (store, Err e) => (p, store, Err e)
    end.
End PersistenceState.

(** ** What is read back

    The bytes of each part. *)
Definition message_bytes (m : Message.t) : list Z :=
  match m with
  | Message.SensorData map_kpa_x10 tps_percent iat_offset clt_offset voltage_x10 lambda_x100 flags timestamp_us =>
    le16 map_kpa_x10 ++ [tps_percent; iat_offset; clt_offset; voltage_x10; lambda_x100; flags] ++ le32 timestamp_us
  | _ => []
  end.

Definition event_bytes (e : option DiagEvent.t) : list Z :=
  match e with
  | Some e =>
    [1; DiagCode.to_u8 (DiagEvent.code e)] ++ le32 (DiagEvent.timestamp e)
    ++ [encode_snapshot_diag_source (DiagEvent.source e); if DiagEvent.context e is Some _ then 1 else 0]
    ++ le32 (default 0 (DiagEvent.context e)) ++ le32 (DiagEvent.start_us e) ++ le32 (DiagEvent.end_us e)
  | None => replicate 20 0
  end.

Definition freeze_bytes (m : option Message.t) : list Z :=
  match m with Some m => 1 :: message_bytes m | None => replicate 13 0 end.

Definition snapshot_bytes (s : RetainedHistory.t) : list Z :=
  message_bytes (RetainedHistory.current_data_value_source s)
  ++ freeze_bytes (RetainedHistory.freeze_frame_value_source s)
  ++ (DiagCode.to_u8 <$> RetainedHistory.stored_dtcs s)
  ++ [RetainedHistory.stored_dtc_count s]
  ++ [code_byte (RetainedHistory.freeze_frame_dtc s)]
  ++ event_bytes (RetainedHistory.current_diag_event s)
  ++ event_bytes (RetainedHistory.freeze_frame_event s)
  ++ [encode_snapshot_fault_code (RetainedHistory.last_fault s)]
  ++ [code_byte (RetainedHistory.last_observed_diag_code s)]
  ++ le32 (RetainedHistory.last_observed_diag_timestamp_us s)
  ++ replicate 16 0.

Definition sidecar_bytes (s : RetainedHistory.t) : list Z :=
  le32 OBD2_RETAINED_HISTORY_SIDECAR_MAGIC ++ le16 OBD2_RETAINED_HISTORY_SIDECAR_VERSION
  ++ le16 (Z.of_nat OBD2_RETAINED_HISTORY_SNAPSHOT_BYTES) ++ snapshot_bytes s.

(** What the fields hold by their types; the data is a sensor message. *)
Definition message_typed (m : Message.t) : Prop :=
  match m with
  | Message.SensorData map_kpa_x10 tps iat clt voltage lambda flags timestamp_us =>
    u16 map_kpa_x10 /\ bytes [tps; iat; clt; voltage; lambda; flags] /\ u32 timestamp_us
  | _ => False
  end.

Definition event_typed (e : DiagEvent.t) : Prop :=
  u32 (DiagEvent.timestamp e) /\ u32 (DiagEvent.start_us e) /\ u32 (DiagEvent.end_us e)
  /\ match DiagEvent.context e with Some c => u32 c | None => True end.

Definition opt {A} (P : A -> Prop) (o : option A) : Prop := match o with Some x => P x | None => True end.

Record snapshot_typed (s : RetainedHistory.t) : Prop := {
  typed_current : message_typed (RetainedHistory.current_data_value_source s);
  typed_freeze : opt message_typed (RetainedHistory.freeze_frame_value_source s);
  typed_slots : length (RetainedHistory.stored_dtcs s) = OBD2_STORED_DTC_CAP;
  typed_count : 0 <= RetainedHistory.stored_dtc_count s <= Z.of_nat OBD2_STORED_DTC_CAP;
  typed_event : opt event_typed (RetainedHistory.current_diag_event s);
  typed_freeze_event : opt event_typed (RetainedHistory.freeze_frame_event s);
  typed_last : u32 (RetainedHistory.last_observed_diag_timestamp_us s) }.

(** An encoder that writes these bytes at the front of its buffer. *)
Definition writes (encode : list Z -> Written) (bs : list Z) : Prop :=
  forall out, (length bs <= length out)%nat -> encode out = (bs ++ drop (length bs) out, Some (length bs)).

Lemma at_cursor_writes encode bs pre cursor out : writes encode bs -> length pre = cursor ->
  (cursor + length bs <= length out)%nat ->
  at_cursor cursor encode (pre ++ drop cursor out)
  = ((pre ++ bs) ++ drop (cursor + length bs) out, Some (length bs)).
Proof.
  intros Hw <- Hl. unfold at_cursor. rewrite drop_app_length, take_app_length, Hw by (rewrite length_drop; lia).
  by rewrite drop_drop, app_assoc.
Qed.

Lemma copy_at_end off pre src out n : length pre = off -> n = (off + length src)%nat ->
  copy_at off src (pre ++ drop off out) = (pre ++ src) ++ drop n out.
Proof. intros H ->. by apply copy_at_app. Qed.

(** Splits a buffer that is long enough into its front, element by element. *)
Lemma front_of n (out : list Z) : (n <= length out)%nat -> exists l, length l = n /\ out = l ++ drop n out.
Proof. intros H. exists (take n out). by rewrite length_take, take_drop by lia; split; [lia|]. Qed.

Ltac explode l := repeat (destruct l as [|? l]; [discriminate|]); destruct l; [|discriminate].

Lemma message_writes m : message_typed m -> writes (encode_snapshot_sensor_message m) (message_bytes m).
Proof.
  intros Hm out Hl. destruct m; try done. cbn [message_bytes length app le16 le32] in *.
  destruct (front_of 12 out Hl) as (l & Hn & E). set (r := drop 12 out) in *. clearbody r. subst out. explode l.
  reflexivity.
Qed.

Lemma event_writes e : writes (encode_snapshot_diag_event e) (event_bytes e).
Proof.
  intros out Hl. assert (length (event_bytes e) = 20%nat) as El by (by destruct e as [[]|]). rewrite El in *.
  destruct (front_of 20 out Hl) as (l & Hn & E). set (r := drop 20 out) in *. clearbody r. subst out. explode l.
  destruct e as [[code ts source [c|] s0 s1]|]; reflexivity.
Qed.

Lemma message_bytes_length m : message_typed m -> length (message_bytes m) = 12%nat.
Proof. by destruct m. Qed.
Lemma event_bytes_length e : length (event_bytes e) = 20%nat.
Proof. by destruct e as [[]|]. Qed.
Lemma freeze_bytes_length m : opt message_typed m -> length (freeze_bytes m) = 13%nat.
Proof. destruct m; [|done]. cbn. intros H. by rewrite message_bytes_length. Qed.

Lemma snapshot_bytes_length s : snapshot_typed s -> length (snapshot_bytes s) = OBD2_RETAINED_HISTORY_SNAPSHOT_BYTES.
Proof.
  intros []. unfold snapshot_bytes. rewrite !length_app, !event_bytes_length, length_fmap.
  by rewrite message_bytes_length, freeze_bytes_length, typed_slots0.
Qed.

(** The freeze frame as the encoder writes it: a flag, then a message or zeroes. *)
Lemma freeze_writes m pre out : opt message_typed m -> length pre = 12%nat -> (25 <= length out)%nat ->
  encode_freeze_frame m 12 (pre ++ drop 12 out)
  = ((pre ++ freeze_bytes m) ++ drop 25 out, Some 25%nat).
Proof.
  intros Hm Hp Hl. destruct m as [m|]; cbn [encode_freeze_frame Nat.add].
  - rewrite (copy_at_end _ _ _ _ 13) by done.
    rewrite (at_cursor_writes _ _ _ _ _ (message_writes m Hm)) by (rewrite ?length_app, ?message_bytes_length, ?Hp by done; cbn; lia).
    rewrite message_bytes_length by done. cbn [and_then Nat.add freeze_bytes]. by rewrite <- !app_assoc.
  - rewrite (copy_at_end _ _ _ _ 13) by done.
    rewrite (copy_at_end _ _ _ _ 25) by (rewrite ?length_app, ?Hp; reflexivity). by rewrite <- !app_assoc.
Qed.

Lemma snapshot_writes s : snapshot_typed s -> writes (encode_obd2_retained_history_snapshot s) (snapshot_bytes s).
Proof.
  intros Hs out Hl. rewrite snapshot_bytes_length in * by done. unfold OBD2_RETAINED_HISTORY_SNAPSHOT_BYTES in Hl.
  unfold encode_obd2_retained_history_snapshot.
  destruct (Nat.ltb_spec (length out) OBD2_RETAINED_HISTORY_SNAPSHOT_BYTES) as [|_]; [unfold OBD2_RETAINED_HISTORY_SNAPSHOT_BYTES in *; lia|].
  destruct Hs. pose proof (message_bytes_length _ typed_current0) as L1.
  pose proof (at_cursor_writes _ _ [] 0 out (message_writes _ typed_current0) eq_refl) as E1.
  cbn [drop app Nat.add] in E1. rewrite drop_0, L1 in E1. rewrite E1 by lia. cbn [and_then Nat.add].
  pose proof (freeze_writes _ _ out typed_freeze0 L1 ltac:(lia)) as E2.
  rewrite E2. cbn [and_then].
  pose proof (freeze_bytes_length _ typed_freeze0) as L2.
  unfold OBD2_STORED_DTC_CAP. cbn [Nat.add].
  assert (length (DiagCode.to_u8 <$> RetainedHistory.stored_dtcs s) = 3%nat) as L3 by (by rewrite length_fmap).
  rewrite (copy_at_end _ _ _ _ 28) by (rewrite ?length_app; lia).
  rewrite (copy_at_end _ _ _ _ 29) by (rewrite ?length_app; cbn [length]; lia).
  rewrite (copy_at_end _ _ _ _ 30) by (rewrite ?length_app; cbn [length]; lia).
  pose proof (event_bytes_length (RetainedHistory.current_diag_event s)) as L4.
  pose proof (event_bytes_length (RetainedHistory.freeze_frame_event s)) as L5.
  rewrite (at_cursor_writes _ _ _ _ _ (event_writes _)) by (rewrite ?length_app; cbn [length]; lia).
  rewrite L4. cbn [and_then Nat.add].
  rewrite (at_cursor_writes _ _ _ _ _ (event_writes _)) by (rewrite ?length_app; cbn [length]; lia).
  rewrite L5. cbn [and_then Nat.add].
  rewrite (copy_at_end _ _ _ _ 71) by (rewrite ?length_app; cbn [length]; lia).
  rewrite (copy_at_end _ _ _ _ 72) by (rewrite ?length_app; cbn [length]; lia).
  rewrite (copy_at_end _ _ _ _ 76) by (rewrite ?length_app; cbn [length le32]; lia).
  change (OBD2_RETAINED_HISTORY_SNAPSHOT_BYTES - 76)%nat with 16%nat.
  rewrite (copy_at_end _ _ _ _ 92) by (rewrite ?length_app; cbn [length le32 replicate]; lia).
  unfold snapshot_bytes. by rewrite <- !app_assoc.
Qed.

(** Reading past a part whose length is known. *)
Lemma slice_skip n a b x y : length x = n -> (n <= a)%nat -> slice a b (x ++ y) = slice (a - n) (b - n) y.
Proof. intros <- Ha. unfold slice. rewrite drop_app_ge by lia. f_equal. lia. Qed.
Lemma slice_front n x y : length x = n -> slice 0 n (x ++ y) = x.
Proof. intros <-. unfold slice. by rewrite drop_0, Nat.sub_0_r, take_app_length. Qed.
Lemma get_byte_skip n i x y : length x = n -> (n <= i)%nat -> get_byte i (x ++ y) = get_byte (i - n) y.
Proof. intros <- Hi. unfold get_byte. by rewrite app_nth2 by lia. Qed.
Lemma rd_u32_skip n i x y : length x = n -> (n <= i)%nat -> rd_u32 (x ++ y) i = rd_u32 y (i - n).
Proof.
  intros Hx Hi. unfold rd_u32. rewrite !(get_byte_skip n) by (done || lia).
  by replace (i + 1 - n)%nat with (i - n + 1)%nat by lia; replace (i + 2 - n)%nat with (i - n + 2)%nat by lia;
    replace (i + 3 - n)%nat with (i - n + 3)%nat by lia.
Qed.
Lemma get_byte_front b y : get_byte 0 ([b] ++ y) = b.
Proof. done. Qed.
Lemma rd_u32_front v y : u32 v -> rd_u32 (le32 v ++ y) 0 = v.
Proof. exact (rd_u32_app 0 [] v y eq_refl). Qed.

Lemma decode_message m : message_typed m -> decode_snapshot_sensor_message (message_bytes m) = Some m.
Proof.
  intros Hm. destruct m; try done. destruct Hm as (H1 & _ & H2).
  unfold decode_snapshot_sensor_message. cbn -[byte_of rd_u16 rd_u32]. do 2 f_equal.
  - by apply (rd_u16_app 0 []).
  - by apply (rd_u32_app 8 [_; _; _; _; _; _; _; _] _ []).
Qed.

Lemma decode_code c : decode_snapshot_diag_code (DiagCode.to_u8 c) = Some c.
Proof. by destruct c. Qed.
Lemma decode_code_opt c : decode_code_byte (code_byte c) = Some c.
Proof. by destruct c as [[]|]. Qed.
Lemma decode_fault f : decode_snapshot_fault_code (encode_snapshot_fault_code f) = Some f.
Proof. by destruct f. Qed.
Lemma decode_codes cs : mapM decode_snapshot_diag_code (DiagCode.to_u8 <$> cs) = Some cs.
Proof. induction cs as [|c cs IH]; [done|]. cbn. rewrite decode_code. cbn. by rewrite IH. Qed.

Lemma decode_event e : opt event_typed e -> decode_snapshot_diag_event (event_bytes e) = Some e.
Proof.
  intros He. destruct e as [[code ts source ctx s0 s1]|]; [|done]. destruct He as (H1 & H2 & H3 & H4). cbn in *.
  unfold decode_snapshot_diag_event. cbn -[byte_of rd_u32 decode_snapshot_diag_code decode_snapshot_diag_source].
  rewrite decode_code. cbn -[byte_of rd_u32 decode_snapshot_diag_source].
  assert (decode_snapshot_diag_source (encode_snapshot_diag_source source) = Some source) as -> by (by destruct source).
  cbn -[byte_of rd_u32]. do 3 f_equal.
  - by apply (rd_u32_app 2 [_; _] ts).
  - destruct ctx as [c|]; [|done]. cbn -[byte_of rd_u32]. f_equal. by apply (rd_u32_app 8 [_; _; _; _; _; _; _; _] c).
  - by apply (rd_u32_app 12 [_; _; _; _; _; _; _; _; _; _; _; _] s0).
  - by apply (rd_u32_app 16 [_; _; _; _; _; _; _; _; _; _; _; _; _; _; _; _] s1 []).
Qed.

Lemma decode_freeze m x y : opt message_typed m -> length x = 12%nat ->
  decode_freeze_frame 12 (x ++ freeze_bytes m ++ y) = Some m.
Proof.
  intros Hm Hx. unfold decode_freeze_frame. rewrite (get_byte_skip 12) by (done || lia). cbn [Nat.sub].
  destruct m as [m|]; [|done]. cbn [freeze_bytes app]. cbn -[slice message_bytes].
  rewrite (slice_skip 12) by (done || lia). cbn [Nat.sub].
  change (1 :: message_bytes m ++ y) with ([1] ++ message_bytes m ++ y).
  rewrite (slice_skip 1) by (done || lia). cbn [Nat.sub].
  rewrite (slice_front 12) by (by apply message_bytes_length). by rewrite decode_message.
Qed.

(** Moves a read past the parts before it. *)
Ltac part_length x :=
  match goal with
  | H : length x = _ |- _ => constr:(H)
  | _ => match x with [?v] => constr:(eq_refl : length [v] = 1%nat) end
  end.
Ltac skip_parts :=
  repeat match goal with
  | |- context [slice ?a ?b (?x ++ ?y)] => let L := part_length x in rewrite (slice_skip _ a b x y L) by lia
  | |- context [get_byte ?i (?x ++ ?y)] => let L := part_length x in rewrite (get_byte_skip _ i x y L) by lia
  | |- context [rd_u32 (?x ++ ?y) ?i] => let L := part_length x in rewrite (rd_u32_skip _ i x y L) by lia
  end; cbn [Nat.sub].

Lemma decode_snapshot_bytes s r : snapshot_typed s ->
  decode_obd2_retained_history_snapshot (snapshot_bytes s ++ r) = Some s.
Proof.
  intros Hs. unfold decode_obd2_retained_history_snapshot.
  destruct (Nat.ltb_spec (length (snapshot_bytes s ++ r)) OBD2_RETAINED_HISTORY_SNAPSHOT_BYTES) as [Hl|_].
  { rewrite length_app, snapshot_bytes_length in Hl by done. lia. }
  destruct Hs. unfold snapshot_bytes.
  pose proof (message_bytes_length _ typed_current0) as L1. pose proof (freeze_bytes_length _ typed_freeze0) as L2.
  assert (length (DiagCode.to_u8 <$> RetainedHistory.stored_dtcs s) = 3%nat) as L3 by (by rewrite length_fmap).
  pose proof (event_bytes_length (RetainedHistory.current_diag_event s)) as L4.
  pose proof (event_bytes_length (RetainedHistory.freeze_frame_event s)) as L5.
  rewrite <- !app_assoc. unfold OBD2_SNAPSHOT_SENSOR_DATA_BYTES, OBD2_STORED_DTC_CAP, OBD2_SNAPSHOT_DIAG_EVENT_BYTES.
  cbn [Nat.add].
  rewrite (slice_front 12), decode_message by done. cbn [mbind option_bind].
  rewrite decode_freeze by done. cbn [mbind option_bind].
  skip_parts. rewrite (slice_front 3), decode_codes by done. cbn [mbind option_bind].
  rewrite !get_byte_front, !decode_code_opt. cbn [mbind option_bind].
  rewrite !(slice_front 20), !decode_event by done. cbn [mbind option_bind].
  rewrite decode_fault. cbn [mbind option_bind].
  rewrite rd_u32_front by done. rewrite Z.min_l by (unfold OBD2_STORED_DTC_CAP in *; lia). by destruct s.
Qed.

(** ** The record *)
Lemma sidecar_bytes_length s : snapshot_typed s -> length (sidecar_bytes s) = OBD2_RETAINED_HISTORY_SIDECAR_BYTES.
Proof. intros Hs. unfold sidecar_bytes. by rewrite !length_app, snapshot_bytes_length. Qed.

Lemma sidecar_writes s : snapshot_typed s -> writes (encode_obd2_retained_history_sidecar s) (sidecar_bytes s).
Proof.
  intros Hs out Hl. rewrite sidecar_bytes_length in * by done. unfold encode_obd2_retained_history_sidecar.
  destruct (Nat.ltb_spec (length out) OBD2_RETAINED_HISTORY_SIDECAR_BYTES) as [|_]; [lia|].
  change OBD2_RETAINED_HISTORY_SIDECAR_BYTES with 100%nat in *. change OBD2_RETAINED_HISTORY_SIDECAR_HEADER_BYTES with 8%nat.
  rewrite copy_at_0. cbn [length le32].
  rewrite (copy_at_end 4 (le32 OBD2_RETAINED_HISTORY_SIDECAR_MAGIC) _ out 6) by done.
  rewrite (copy_at_end _ _ _ _ 8) by done. set (header := (_ ++ _) ++ le16 _).
  assert (slice 8 100 (header ++ drop 8 out) = take 92 (drop 8 out)) as ->.
  { unfold slice. by rewrite drop_app_length'. }
  rewrite snapshot_writes by (done || rewrite ?snapshot_bytes_length, ?length_take, ?length_drop by done;
    unfold OBD2_RETAINED_HISTORY_SNAPSHOT_BYTES; lia).
  rewrite snapshot_bytes_length by done. unfold OBD2_RETAINED_HISTORY_SNAPSHOT_BYTES.
  rewrite drop_ge by (rewrite length_take, length_drop; lia). rewrite app_nil_r. cbn [and_then].
  rewrite (copy_at_end _ _ _ _ 100) by (done || rewrite snapshot_bytes_length; done).
  unfold header, sidecar_bytes. by rewrite <- !app_assoc.
Qed.

Lemma decode_sidecar_bytes s r : snapshot_typed s -> decode_obd2_retained_history_sidecar (sidecar_bytes s ++ r) = Some s.
Proof.
  intros Hs. unfold decode_obd2_retained_history_sidecar.
  destruct (Nat.ltb_spec (length (sidecar_bytes s ++ r)) OBD2_RETAINED_HISTORY_SIDECAR_BYTES) as [Hl|_].
  { rewrite length_app, sidecar_bytes_length in Hl by done. lia. }
  assert (rd_u32 (sidecar_bytes s ++ r) 0 = OBD2_RETAINED_HISTORY_SIDECAR_MAGIC) as -> by (vm_compute; reflexivity).
  assert (rd_u16 (sidecar_bytes s ++ r) 4 = OBD2_RETAINED_HISTORY_SIDECAR_VERSION) as -> by (vm_compute; reflexivity).
  assert (rd_u16 (sidecar_bytes s ++ r) 6 = Z.of_nat OBD2_RETAINED_HISTORY_SNAPSHOT_BYTES) as -> by (vm_compute; reflexivity).
  rewrite !Z.eqb_refl. cbn [negb]. unfold sidecar_bytes.
  rewrite <- !app_assoc. set (header := le32 OBD2_RETAINED_HISTORY_SIDECAR_MAGIC).
  assert (slice OBD2_RETAINED_HISTORY_SIDECAR_HEADER_BYTES OBD2_RETAINED_HISTORY_SIDECAR_BYTES
    (header ++ le16 OBD2_RETAINED_HISTORY_SIDECAR_VERSION
    ++ le16 (Z.of_nat OBD2_RETAINED_HISTORY_SNAPSHOT_BYTES) ++ snapshot_bytes s ++ r) = snapshot_bytes s) as ->.
  { rewrite (app_assoc header), (app_assoc (header ++ _)). apply slice_app; [done|]. by rewrite snapshot_bytes_length. }
  rewrite <- (app_nil_r (snapshot_bytes s)). by apply decode_snapshot_bytes.
Qed.

Lemma stage_bytes s : snapshot_typed s -> stage_obd2_retained_history_sidecar_bytes s = Some (sidecar_bytes s).
Proof.
  intros Hs. unfold stage_obd2_retained_history_sidecar_bytes.
  rewrite sidecar_writes by (rewrite ?sidecar_bytes_length, ?length_replicate; done).
  rewrite sidecar_bytes_length, drop_ge by (rewrite ?length_replicate; done). by rewrite app_nil_r.
Qed.

(** Installing the halfwords one by one writes the bytes in order. *)
Definition put_halfword (offset : nat) (v : Z) (memory : list Z) : list Z := copy_at offset (le16 v) memory.

Lemma halfword_bytes a b r : byte a -> byte b -> le16 (rd_u16 (a :: b :: r) 0) = [a; b].
Proof.
  intros Ha Hb. unfold le16, byte_of, rd_u16, get_byte, byte in *. cbn [nth Nat.add].
  change (2 ^ (8 * 0)) with 1. change (2 ^ (8 * 1)) with 256. change (2 ^ 8) with 256.
  f_equal; [|f_equal]; Z.to_euclidean_division_equations; lia.
Qed.

Lemma put_halfword_at pre off b0 b1 r mem : length pre = off -> byte b0 -> byte b1 ->
  put_halfword off (rd_u16 (pre ++ b0 :: b1 :: r) off) (pre ++ drop off mem) = (pre ++ [b0; b1]) ++ drop (off + 2) mem.
Proof.
  intros Hp H0 H1. unfold put_halfword. rewrite (copy_at_end _ _ _ _ (off + 2)) by done. do 2 f_equal.
  transitivity (le16 (rd_u16 (b0 :: b1 :: r) 0)); [|by apply halfword_bytes].
  f_equal. unfold rd_u16. rewrite <- (Nat.add_0_r off) at 1. by rewrite !get_byte_app_r.
Qed.

Lemma install_halfwords_spec bs mem n : bytes bs -> length bs = (2 * n)%nat -> (length bs <= length mem)%nat ->
  install_halfwords put_halfword bs mem = bs ++ drop (length bs) mem.
Proof.
  intros Hb Hn Hm. unfold install_halfwords. rewrite Hn.
  replace ((2 * n + 1) / 2)%nat with n by (rewrite Nat.mul_comm, Nat.div_add_l by lia; cbn; lia).
  assert (forall k, (k <= n)%nat -> foldl (fun d k => put_halfword (2 * k) (rd_u16 bs (2 * k)) d) mem (seq 0 k)
    = take (2 * k) bs ++ drop (2 * k) mem) as H.
  { intros k. induction k as [|k IH]; intros Hk; [done|]. rewrite seq_S, foldl_app, IH by lia. cbn [foldl Nat.add].
    pose proof (take_drop (2 * k) bs) as E. assert (length (take (2 * k) bs) = (2 * k)%nat) as Hl by (rewrite length_take; lia).
    assert (2 <= length (drop (2 * k) bs))%nat as Hd by (rewrite length_drop; lia).
    pose proof (Forall_drop _ (2 * k) _ Hb) as Hbd. set (pre := take (2 * k) bs) in *. set (rest := drop (2 * k) bs) in *.
    clearbody pre rest. subst bs. destruct rest as [|b0 [|b1 r]]; [cbn in Hd; lia..|].
    apply Forall_cons in Hbd as [Hb0 Hbd]. apply Forall_cons in Hbd as [Hb1 _].
    rewrite put_halfword_at by done. replace (2 * S k)%nat with (2 * k + 2)%nat by lia. f_equal.
    rewrite take_app_ge by lia. rewrite Hl. by replace (2 * k + 2 - 2 * k)%nat with 2%nat by lia. }
  by rewrite H, take_ge by lia.
Qed.

Lemma message_bytes_bytes m : message_typed m -> bytes (message_bytes m).
Proof. destruct m; try done. intros (_ & H & _). cbn [message_bytes]. apply Forall_app. split; [apply le16_bytes|].
  apply Forall_app. split; [done|apply le32_bytes]. Qed.
Lemma small_byte b : 0 <= b < 256 -> bytes [b].
Proof. intros H. by apply Forall_singleton. Qed.
Lemma zero_bytes n : bytes (replicate n 0).
Proof. by apply Forall_replicate. Qed.
Lemma code_byte_byte c : bytes [code_byte c].
Proof. by apply small_byte; destruct c as [[]|]. Qed.
Lemma event_bytes_bytes e : bytes (event_bytes e).
Proof.
  destruct e as [[code ts source ctx s0 s1]|]; [|apply zero_bytes]. cbn [event_bytes].
  repeat (apply Forall_app; split); try apply le32_bytes; apply bytes_pair; cbn.
  - done.
  - by destruct code.
  - by destruct source.
  - by destruct ctx.
Qed.

Lemma sidecar_bytes_bytes s : snapshot_typed s -> bytes (sidecar_bytes s).
Proof.
  intros []. unfold sidecar_bytes, snapshot_bytes.
  repeat (apply Forall_app; split);
    try apply le32_bytes; try apply le16_bytes; try apply event_bytes_bytes; try apply code_byte_byte.
  - by apply message_bytes_bytes.
  - destruct (RetainedHistory.freeze_frame_value_source s); [|apply zero_bytes].
    by apply Forall_cons_2; [|apply message_bytes_bytes].
  - apply Forall_fmap, Forall_true. by intros [].
  - apply small_byte. unfold OBD2_STORED_DTC_CAP in *. lia.
  - apply small_byte. by destruct (RetainedHistory.last_fault s).
  - apply zero_bytes.
Qed.

(** C27: The retained diagnostics survive a power cycle: written at any offset of a flash page
    that has room, the record leaves every other byte of the page as it was, and reading it
    back gives the snapshot, from which the history is restored as it was; installed by
    halfwords it leaves the same bytes. *)
Theorem history_survives_power_cycle h page offset : snapshot_typed (RetainedHistory.snapshot h) ->
  0 <= RetainedHistory.stored_dtc_count h <= Z.of_nat OBD2_STORED_DTC_CAP ->
  (offset + OBD2_RETAINED_HISTORY_SIDECAR_BYTES <= length page)%nat ->
  let s := RetainedHistory.snapshot h in
  exists record, stage_obd2_retained_history_sidecar_bytes s = Some record
    /\ length record = OBD2_RETAINED_HISTORY_SIDECAR_BYTES
    /\ encode_obd2_retained_history_sidecar_at s page offset = (copy_at offset record page, true)
    /\ (offset = 0%nat -> install_obd2_retained_history_snapshot_halfwords_with put_halfword s page
          = (copy_at offset record page, true))
    /\ decode_obd2_retained_history_sidecar_at (copy_at offset record page) offset = Some s
    /\ forall other, RetainedHistory.restore_from_snapshot s other = h.
Proof.
  intros Hs Hc Hp s. exists (sidecar_bytes s). pose proof (sidecar_bytes_length s Hs) as Hl.
  assert (slice offset (offset + OBD2_RETAINED_HISTORY_SIDECAR_BYTES) (copy_at offset (sidecar_bytes s) page)
    = sidecar_bytes s) as Er.
  { unfold copy_at. apply slice_app; [rewrite length_take|]; lia. }
  split_and!; [by apply stage_bytes|done| | | |].
  - unfold encode_obd2_retained_history_sidecar_at.
    destruct (Nat.ltb_spec (length page) (offset + OBD2_RETAINED_HISTORY_SIDECAR_BYTES)) as [|_]; [lia|].
    assert (length (slice offset (offset + OBD2_RETAINED_HISTORY_SIDECAR_BYTES) page) = OBD2_RETAINED_HISTORY_SIDECAR_BYTES)
      as Hsl by (unfold slice; rewrite length_take, length_drop; lia).
    rewrite sidecar_writes by (done || lia). by rewrite Hl, drop_ge, app_nil_r by lia.
  - intros ->. unfold install_obd2_retained_history_snapshot_halfwords_with. rewrite stage_bytes by done.
    rewrite (install_halfwords_spec _ _ 50) by (by apply sidecar_bytes_bytes || lia || by rewrite Hl).
    by rewrite copy_at_0.
  - unfold decode_obd2_retained_history_sidecar_at. rewrite copy_at_length by lia.
    destruct (Nat.ltb_spec (length page) (offset + OBD2_RETAINED_HISTORY_SIDECAR_BYTES)) as [|_]; [lia|].
    rewrite Er, <- (app_nil_r (sidecar_bytes s)). by apply decode_sidecar_bytes.
  - intros other. by apply snapshot_restored.
Qed.

(** A history with one code, its frozen frame and an active event. *)
Definition sample_data : Message.t := Message.SensorData 1013 25 65 80 138 100 0 123456.
Definition sample_event : DiagEvent.t := DiagEvent.mk DiagCode.MapRange 120000 DiagSource.Sensor (Some 1013) 120000 120000.
Definition sample_history : RetainedHistory.t :=
  RetainedHistory.observe_live_diagnostic FaultState.initial None [Some sample_event] [None; None] sample_data
    (RetainedHistory.new sample_data).

Lemma history_survives_power_cycle_witness :
  snapshot_typed (RetainedHistory.snapshot sample_history)
  /\ RetainedHistory.stored sample_history = [DiagCode.MapRange]
  /\ exists record, decode_obd2_retained_history_sidecar_at (copy_at 28 record (replicate 200 255)) 28
      = Some (RetainedHistory.snapshot sample_history).
Proof.
  assert (snapshot_typed (RetainedHistory.snapshot sample_history)) as Hs.
  { split; vm_compute; repeat split; try discriminate; repeat constructor; discriminate. }
  split_and!; [exact Hs|reflexivity|].
  destruct (history_survives_power_cycle sample_history (replicate 200 255) 28 Hs) as (record & _ & _ & _ & _ & H & _).
  - split; vm_compute; discriminate.
  - apply leb_complete. reflexivity.
  - exists record. exact H.
Defined.

(** ** Writes over the life of a board

    The board restores its history from the store, then lets the persistence state look at the
    history after each step of its work. *)
Fixpoint persist_run {O S E} `{HistoryOwner O, HistoryStore S E} (owners : list O) (store : S) (p : PersistenceState.t)
    : PersistenceState.t * S * list (Result bool E) :=
  match owners with
  | [] => (p, store, [])
  | o :: rest =>
    let '(p, store, r) := PersistenceState.persist_if_changed o store p in
    let '(p, store, rs) := persist_run rest store p in (p, store, r :: rs)
  end.

(** A store whose saves succeed and are read back. *)
Class HistoryStoreLaws (S E : Type) `{HistoryStore S E} : Prop := {
  save_ok : forall s st, (save_snapshot s st).2 = Ok tt;
  load_saved : forall s st, load_snapshot (save_snapshot s st).1 = Some s }.

(** Which of the histories differ from the one before. *)
Fixpoint changes_from (last : RetainedHistory.t) (snapshots : list RetainedHistory.t) : list bool :=
  match snapshots with
  | [] => []
  | s :: rest => negb (bool_decide (s = last)) :: changes_from s rest
  end.

Section Persistence.
Context {O S E : Type} `{HistoryOwner O, HistoryStore S E, !HistoryStoreLaws S E}.

Lemma persist_step (o : O) (st : S) p :
  PersistenceState.persist_if_changed o st p =
    (PersistenceState.mk (owner_snapshot o),
     if bool_decide (owner_snapshot o = PersistenceState.last_persisted_snapshot p) then st
     else (save_snapshot (owner_snapshot o) st).1,
     Ok (negb (bool_decide (owner_snapshot o = PersistenceState.last_persisted_snapshot p)))).
Proof.
  unfold PersistenceState.persist_if_changed. case_bool_decide as Hs.
  - rewrite Hs. by destruct p.
  - pose proof (save_ok (owner_snapshot o) st) as Hok. destruct (save_snapshot (owner_snapshot o) st) as [st' r].
    cbn in Hok. by rewrite Hok.
Qed.

Lemma persist_run_spec (owners : list O) (st : S) p :
  let '(p', st', rs) := persist_run owners st p in
  rs = Ok <$> changes_from (PersistenceState.last_persisted_snapshot p) (owner_snapshot <$> owners)
  /\ PersistenceState.last_persisted_snapshot p'
     = default (PersistenceState.last_persisted_snapshot p) (last (owner_snapshot <$> owners))
  /\ (if existsb id (changes_from (PersistenceState.last_persisted_snapshot p) (owner_snapshot <$> owners))
      then load_snapshot st' = Some (PersistenceState.last_persisted_snapshot p') else st' = st).
Proof.
  revert st p. induction owners as [|o rest IH]; intros st p; [done|]. cbn [persist_run fmap list_fmap changes_from].
  rewrite persist_step. set (st1 := if bool_decide _ then st else _).
  specialize (IH st1 (PersistenceState.mk (owner_snapshot o))). cbn [PersistenceState.last_persisted_snapshot] in IH.
  destruct (persist_run rest st1 _) as [[p' st'] rs]. destruct IH as (-> & IHp & IHs). split_and!; [done| |].
  - rewrite IHp, last_cons. by destruct (last _).
  - cbn [existsb]. destruct (existsb id (changes_from (owner_snapshot o) _)) eqn:Ee; [by rewrite orb_true_r|].
    rewrite orb_false_r. subst st'. unfold st1, id.
    assert (PersistenceState.last_persisted_snapshot p' = owner_snapshot o) as Hp.
    { rewrite IHp. clear -Ee. revert Ee. generalize (owner_snapshot o). induction (owner_snapshot <$> rest) as [|s ss IH]; [done|].
      intros s0. cbn [changes_from existsb]. unfold id at 1. case_bool_decide as Hs; [|done]. cbn [negb orb]. intros Ee.
      subst s0. specialize (IH s Ee). rewrite last_cons. by destruct (last ss). }
    rewrite Hp. case_bool_decide; cbn [negb]; [done|]. apply load_saved.
Qed.

(** The store is written exactly when the history changed: after a restore from the store,
    each look at the owner reports a write if and only if its snapshot differs from the one
    before; when any was written the store holds the latest snapshot, and otherwise the store
    is as it was. *)
Theorem persistence_writes_changes_only (owner : O) (store : S) (owners : list O) :
  let '(o, p) := PersistenceState.restore_from_store owner store in
  let '(_, store', results) := persist_run owners store p in
  let written := changes_from (owner_snapshot o) (owner_snapshot <$> owners) in
  results = Ok <$> written
  /\ (if existsb id written then load_snapshot store' = last (owner_snapshot <$> owners) else store' = store).
Proof.
  unfold PersistenceState.restore_from_store. set (o := match load_snapshot store with Some s => _ | None => _ end).
  pose proof (persist_run_spec owners store (PersistenceState.mk (owner_snapshot o))) as H2.
  destruct (persist_run owners store _) as [[p' st'] rs]. destruct H2 as (E1 & E2 & E3).
  cbn [PersistenceState.last_persisted_snapshot] in *. split; [done|].
  destruct (existsb id (changes_from _ _)) eqn:Ee; [|done]. rewrite E3, E2.
  destruct (owner_snapshot <$> owners) as [|s ss]; [discriminate Ee|]. rewrite last_cons. by destruct (last ss).
Qed.
End Persistence.

(** A store of one cell, owned by a history. *)
Definition cell_store : HistoryStore (option RetainedHistory.t) unit := {|
  load_snapshot := id; save_snapshot := fun s _ => (Some s, Ok tt) |}.
Definition cell_laws : @HistoryStoreLaws _ _ cell_store :=
  Build_HistoryStoreLaws _ _ cell_store (fun _ _ => eq_refl) (fun _ _ => eq_refl).
Definition history_owner : HistoryOwner RetainedHistory.t := {|
  owner_snapshot := RetainedHistory.snapshot; owner_restore := RetainedHistory.restore_from_snapshot |}.

Lemma persistence_writes_changes_only_witness :
  let h0 := RetainedHistory.new sample_data in
  exists results : list (Result bool unit),
    (@persist_run _ _ _ history_owner cell_store [h0; sample_history; sample_history] None
       (PersistenceState.mk (RetainedHistory.snapshot h0))).2 = results
    /\ results = [Ok false; Ok true; Ok false].
Proof.
  intros h0. pose proof (@persistence_writes_changes_only _ _ _ history_owner cell_store cell_laws h0 None
    [h0; sample_history; sample_history]) as H.
  change (@PersistenceState.restore_from_store _ _ _ history_owner cell_store h0 None)
    with (h0, PersistenceState.mk (RetainedHistory.snapshot h0)) in H. cbv beta iota zeta in H.
  destruct (@persist_run _ _ _ history_owner cell_store _ _ _) as [[p st] rs]. destruct H as [H _].
  exists rs. split; [reflexivity|]. rewrite H. reflexivity.
Defined.
