(* ===== verification/FlashKv.v ===== *)
(** * The flash store of the rp2040 (boards/rp2040-pico/src/flash_kv.rs)

    The key/value store over the two sectors of [KvStore], with the retained diagnostics of
    [Obd2Snapshot] behind the pages of a sector.  Every write rewrites the stale sector from
    the selected one with one page, or the diagnostics, exchanged.  The store keeps the three
    pages of the tune and no other key, and refuses to write while the engine runs. *)
From S2P Require Import Prelude Bytes KvStore RamKv Obd2History Obd2Snapshot.

Definition OBD2_SNAPSHOT_OFFSET : nat := SLOT_USED_LEN.

Definition install_retained_history_snapshot_into_sector (snapshot : option RetainedHistory.t) (sector : list Z) :
    list Z * option unit :=
  install_optional_obd2_retained_history_snapshot_halfwords_with
    (fun offset value sector => copy_at (OBD2_SNAPSHOT_OFFSET + offset) (le16 value) sector) snapshot sector.

Module FlashKv.
(** [engine_running] is what the predicate says of its context; false without one. *)
Record t := mk { flash : Flash.t; engine_running : bool }.
#[global] Instance eta : Eta t := fun kv => mk (flash kv) (engine_running kv).

Definition scan (kv : t) : BootScan.t := Flash.boot (flash kv).
Definition boot_integrity (kv : t) : StoreIntegrityStatus.t := store_integrity_from_boot_scan (scan kv).

Definition load_current (current : BootScan.t) (kv : t) : SlotContents.t :=
  let c := SlotContents.zeroed in
  match current with
  | BootScan.Valid slot seq _ =>
    let buf := Flash.sector slot (flash kv) in
    SlotContents.mk seq (fst (read_key buf KEY_FUEL (SlotContents.fuel c))) (fst (read_key buf KEY_IGN (SlotContents.ign c)))
      (fst (read_key buf KEY_ANGLES (SlotContents.angles c)))
  | _ => c
  end.

(** The bytes behind the pages of a sector. *)
Definition read_sidecar (slot : Z) (f : Flash.t) : list Z :=
  slice OBD2_SNAPSHOT_OFFSET (OBD2_SNAPSHOT_OFFSET + OBD2_RETAINED_HISTORY_SIDECAR_BYTES) (Flash.sector slot f).

Definition load_current_obd2_snapshot (current : BootScan.t) (kv : t) : option RetainedHistory.t :=
  match current with
  | BootScan.Valid slot _ _ => read_obd2_retained_history_snapshot_with (read_sidecar slot) (flash kv)
  | _ => None
  end.
Definition load_retained_obd2_history_snapshot (kv : t) : option RetainedHistory.t :=
  load_current_obd2_snapshot (scan kv) kv.

Definition stage_retained_history_sector (pages : SlotContents.t) (snapshot : option RetainedHistory.t) :
    Result (list Z) KvError.t :=
  let sector := fst (serialize_slot pages (replicate SECTOR 0xFF)) in
  match install_retained_history_snapshot_into_sector snapshot sector with
  | (_, None) => Err KvError.Io
  | (sector, Some _) => Ok sector
  end.

(** A sector erased and programmed with every byte of the image: programming only clears bits. *)
Definition flash_erase (slot : Z) (f : Flash.t) : Flash.t := Flash.set_sector slot (replicate SECTOR 0xFF) f.
Definition flash_program (slot : Z) (data : list Z) (f : Flash.t) : Flash.t :=
  Flash.set_sector slot (zip_with Z.land (Flash.sector slot f) data) f.

Definition rewrite_retained_history_sector (target : Z) (pages : SlotContents.t) (snapshot : option RetainedHistory.t)
    (f : Flash.t) : Flash.t * Result unit KvError.t :=
  match stage_retained_history_sector pages snapshot with
  | Err e => (f, Err e)
  | Ok sector => (flash_program target sector (flash_erase target f), Ok tt)
  end.

Definition finalize_retained_history_rewrite (current : BootScan.t) (rewrite : FlashRewrite.t SlotContents.t) :
    Z * FlashRewrite.t SlotContents.t :=
  (write_target current,
   FlashRewrite.mk ((FlashRewrite.pages rewrite) <| SlotContents.seq := next_seq current |>) (FlashRewrite.snapshot rewrite)).

Definition persist_retained_history_rewrite
    (prepare : SlotContents.t -> option RetainedHistory.t -> Result (FlashRewrite.t SlotContents.t) KvError.t) (kv : t) :
    t * Result unit KvError.t :=
  if engine_running kv then (kv, Err KvError.EngineRunning)
  else
    let current := scan kv in
    let '(f, r) :=
      persist_retained_history_flash_rewrite (load_current current kv) (load_current_obd2_snapshot current kv) prepare
        (fun rewrite f =>
           let '(target, rewrite) := finalize_retained_history_rewrite current rewrite in
           rewrite_retained_history_sector target (FlashRewrite.pages rewrite) (FlashRewrite.snapshot rewrite) f)
        (flash kv) in
    (kv <| flash := f |>, r).

Definition save_retained_obd2_history_snapshot (snapshot : RetainedHistory.t) (kv : t) : t * Result unit KvError.t :=
  persist_retained_history_rewrite (fun current_pages _ => Ok (prepare_retained_history_snapshot_rewrite current_pages snapshot)) kv.

Definition page_update_error (e : Obd2RetainedHistoryPageUpdateError.t) : KvError.t :=
  match e with
  | Obd2RetainedHistoryPageUpdateError.UnknownKey => KvError.NotFound
  | Obd2RetainedHistoryPageUpdateError.InvalidLength => KvError.Io
  end.

Definition read (kv : t) (key out : list Z) : list Z * Result nat KvError.t :=
  match scan kv with
  | BootScan.Valid slot _ _ =>
    let buf := Flash.sector slot (flash kv) in
    if bool_decide (key = KEY_FUEL) || bool_decide (key = KEY_IGN) || bool_decide (key = KEY_ANGLES) then
      match read_key buf key out with (out, Some n) => (out, Ok n) | (out, None) => (out, Err KvError.Io) end
    else (out, Err KvError.NotFound)
  | _ => (out, Err KvError.NotFound)
  end.

Definition write (kv : t) (key data : list Z) : t * Result unit KvError.t :=
  persist_retained_history_rewrite (fun current_pages current_snapshot =>
    prepare_retained_history_preserved_page_rewrite current_pages current_snapshot (fun pages =>
      let '(pages, r) := apply_retained_history_page_update key data pages in
      (pages, match r with Ok _ => Ok tt | Err e => Err (page_update_error e) end))) kv.
End FlashKv.

#[export] Instance flash_kv : KvStore FlashKv.t := {| kv_read := FlashKv.read; kv_write := FlashKv.write |}.
#[export] Instance flash_history_store : HistoryStore FlashKv.t KvError.t := {|
  load_snapshot := FlashKv.load_retained_obd2_history_snapshot;
  save_snapshot := FlashKv.save_retained_obd2_history_snapshot |}.

(** ** The image of a sector *)
#[local] Opaque SECTOR page_crc.

Definition sector_wf (s : list Z) : Prop := bytes s /\ length s = SECTOR.

(** What follows the pages of an image. *)
Definition tail_of (snapshot : option RetainedHistory.t) : list Z :=
  match snapshot with
  | Some h => sidecar_bytes h ++ replicate (SECTOR - SLOT_USED_LEN - OBD2_RETAINED_HISTORY_SIDECAR_BYTES) 0xFF
  | None => replicate (SECTOR - SLOT_USED_LEN) 0xFF
  end.

Lemma sidecar_fits : (SLOT_USED_LEN + OBD2_RETAINED_HISTORY_SIDECAR_BYTES <= SECTOR)%nat.
Proof. apply Nat.leb_le. vm_compute. reflexivity. Qed.

Lemma copy_at_behind pre o src m : copy_at (length pre + o) src (pre ++ m) = pre ++ copy_at o src m.
Proof.
  unfold copy_at. rewrite take_app_ge, drop_app_ge by lia. rewrite <- !app_assoc. do 2 f_equal; [f_equal; lia|].
  f_equal. f_equal. lia.
Qed.

Lemma install_behind bs pre m :
  install_halfwords (fun o v s => copy_at (length pre + o) (le16 v) s) bs (pre ++ m) = pre ++ install_halfwords put_halfword bs m.
Proof.
  unfold install_halfwords. revert m. generalize (seq 0 ((length bs + 1) / 2)). intros l. induction l as [|k l IH]; intros m; [done|].
  cbn [foldl]. by rewrite copy_at_behind, IH.
Qed.

Lemma stage_sector c snapshot : contents_wf c -> opt snapshot_typed snapshot ->
  FlashKv.stage_retained_history_sector c snapshot = Ok (frame c ++ tail_of snapshot).
Proof.
  intros Hc Hs. pose proof sidecar_fits. pose proof (slot_frame_length c Hc) as Hl. unfold FlashKv.stage_retained_history_sector.
  rewrite serialize_slot_frame by (rewrite ?length_replicate; done || lia). cbn [fst]. rewrite drop_replicate.
  unfold install_retained_history_snapshot_into_sector, install_optional_obd2_retained_history_snapshot_halfwords_with.
  destruct snapshot as [h|]; [|done]. cbn [opt] in Hs. rewrite stage_bytes by done. do 2 f_equal.
  unfold OBD2_SNAPSHOT_OFFSET.
  pose proof (install_behind (sidecar_bytes h) (frame c) (replicate (SECTOR - SLOT_USED_LEN) 0xFF)) as E. rewrite Hl in E. rewrite E.
  f_equal.
  rewrite (install_halfwords_spec _ _ 50) by (rewrite ?sidecar_bytes_length, ?length_replicate by done; auto using sidecar_bytes_bytes; lia).
  unfold tail_of. by rewrite sidecar_bytes_length, drop_replicate by done.
Qed.

Lemma frame_bytes c : contents_wf c -> bytes (frame c).
Proof.
  intros (_ & Hf & _ & Hi & _ & Ha & _). unfold frame, header. repeat apply Forall_app_2; auto using le16_bytes, le32_bytes.
Qed.

Lemma image_wf c snapshot : contents_wf c -> opt snapshot_typed snapshot -> sector_wf (frame c ++ tail_of snapshot).
Proof.
  intros Hc Hs. pose proof sidecar_fits. assert (byte 0xFF) as Hff by (unfold byte; lia).
  split.
  - apply Forall_app_2; [by apply frame_bytes|]. destruct snapshot; [|by apply Forall_replicate].
    apply Forall_app_2; [by apply sidecar_bytes_bytes|by apply Forall_replicate].
  - rewrite length_app, slot_frame_length by done. destruct snapshot; cbn [tail_of].
    + rewrite length_app, sidecar_bytes_length, length_replicate by done. lia.
    + rewrite length_replicate. lia.
Qed.

Lemma tail_decodes c snapshot : contents_wf c -> opt snapshot_typed snapshot ->
  decode_obd2_retained_history_sidecar
    (slice OBD2_SNAPSHOT_OFFSET (OBD2_SNAPSHOT_OFFSET + OBD2_RETAINED_HISTORY_SIDECAR_BYTES) (frame c ++ tail_of snapshot)) = snapshot.
Proof.
  intros Hc Hs. pose proof sidecar_fits. pose proof (slot_frame_length c Hc) as Hl. unfold OBD2_SNAPSHOT_OFFSET.
  destruct snapshot as [h|]; cbn [tail_of opt] in *.
  - rewrite (slice_app _ _ (frame c) (sidecar_bytes h)) by (rewrite ?sidecar_bytes_length by done; done).
    rewrite <- (app_nil_r (sidecar_bytes h)). by apply decode_sidecar_bytes.
  - unfold slice. rewrite <- Hl, drop_app_length, take_replicate.
    replace (_ `min` _)%nat with OBD2_RETAINED_HISTORY_SIDECAR_BYTES by lia. vm_compute. reflexivity.
Qed.

(** Programming an erased sector leaves the image. *)
Lemma land_erased l n : bytes l -> length l = n -> zip_with Z.land (replicate n 0xFF) l = l.
Proof.
  intros Hl <-. induction Hl as [|b l Hb Hl IH]; [done|]. cbn [length replicate zip_with]. f_equal; [|done].
  change 0xFF with (Z.ones 8). rewrite Z.land_comm, Z.land_ones by lia. by apply Z.mod_small.
Qed.

Lemma program_erased slot image f : slot = 0 \/ slot = 1 -> sector_wf image ->
  FlashKv.flash_program slot image (FlashKv.flash_erase slot f) = Flash.set_sector slot image f.
Proof.
  intros Hs [Hb Hl]. unfold FlashKv.flash_program, FlashKv.flash_erase. destruct f as [a b].
  destruct Hs as [->| ->]; cbn; by rewrite land_erased.
Qed.

(** ** What the store holds *)
Definition pages_of (kv : FlashKv.t) : SlotContents.t := FlashKv.load_current (FlashKv.scan kv) kv.
Definition flash_wf (f : Flash.t) : Prop := sector_wf (Flash.slot_a f) /\ sector_wf (Flash.slot_b f).

(** Sectors of bytes, retained diagnostics that were written by the store, and sequence
    numbers left for [n] writes. *)
Definition room (n : nat) (kv : FlashKv.t) : Prop :=
  flash_wf (FlashKv.flash kv) /\ opt snapshot_typed (FlashKv.load_current_obd2_snapshot (FlashKv.scan kv) kv)
  /\ match FlashKv.scan kv with BootScan.Valid _ seq _ => 0 <= seq <= u32_max - Z.of_nat n | _ => Z.of_nat n <= u32_max end.

Lemma sector_of_wf slot f : flash_wf f -> sector_wf (Flash.sector slot f).
Proof. intros [Ha Hb]. unfold Flash.sector. by case_match. Qed.

Lemma set_sector_wf slot image f : flash_wf f -> sector_wf image -> flash_wf (Flash.set_sector slot image f).
Proof. intros [Ha Hb] Hi. unfold Flash.set_sector, flash_wf. destruct f. by case_match. Qed.

Lemma read_key_sector s key off len out : sector_wf s -> key_range key = Some (off, len) -> (off + len <= SLOT_USED_LEN)%nat ->
  (len <= length out)%nat -> read_key s key out = (slice off (off + len) s ++ drop len out, Some len).
Proof.
  intros [_ Hs] Hk Hr Ho. pose proof sector_fits. apply (read_key_hit s key off); [lia|done|done| |done].
  unfold slice. rewrite length_take, length_drop. lia.
Qed.

Lemma slice_bytes_wf a b (s : list Z) : bytes s -> bytes (slice a b s).
Proof. intros H. unfold slice. by apply Forall_take, Forall_drop. Qed.

(** The pages of the selected sector. *)
Lemma load_current_pages kv slot seq sc : FlashKv.scan kv = BootScan.Valid slot seq sc -> flash_wf (FlashKv.flash kv) ->
  let s := Flash.sector slot (FlashKv.flash kv) in
  pages_of kv = SlotContents.mk seq (slice OFF_FUEL (OFF_FUEL + LEN_FUEL) s) (slice OFF_IGN (OFF_IGN + LEN_IGN) s)
    (slice OFF_ANGLES (OFF_ANGLES + LEN_ANGLES) s).
Proof.
  intros Hs Hf s. pose proof (sector_of_wf slot _ Hf) as Hw. fold s in Hw. unfold pages_of. rewrite Hs. cbn [FlashKv.load_current].
  fold s. unfold SlotContents.zeroed. cbn [SlotContents.fuel SlotContents.ign SlotContents.angles].
  rewrite (read_key_sector s KEY_FUEL OFF_FUEL LEN_FUEL), (read_key_sector s KEY_IGN OFF_IGN LEN_IGN),
    (read_key_sector s KEY_ANGLES OFF_ANGLES LEN_ANGLES)
    by (done || (rewrite length_replicate; lia) || (apply Nat.leb_le; reflexivity)).
  cbn [fst]. by rewrite !drop_ge, !app_nil_r by (rewrite length_replicate; lia).
Qed.

Lemma slice_length a n (s : list Z) : sector_wf s -> (a + n <= SLOT_USED_LEN)%nat -> length (slice a (a + n) s) = n.
Proof. intros [_ Hl] H. pose proof sector_fits. unfold slice. rewrite length_take, length_drop. lia. Qed.

Lemma zeroed_wf : contents_wf SlotContents.zeroed.
Proof.
  unfold contents_wf, SlotContents.zeroed. cbn [SlotContents.seq SlotContents.fuel SlotContents.ign SlotContents.angles].
  rewrite !length_replicate. split_and!; try done; by apply Forall_replicate.
Qed.

Lemma pages_wf kv seq : flash_wf (FlashKv.flash kv) -> u32 seq -> contents_wf ((pages_of kv) <| SlotContents.seq := seq |>).
Proof.
  intros Hf Hs. unfold pages_of. destruct (FlashKv.scan kv) as [| |slot s sc] eqn:E.
  1,2: by apply contents_wf_seq; [exact zeroed_wf|].
  pose proof (load_current_pages kv slot s sc E Hf) as Hp. unfold pages_of in Hp. rewrite E in Hp. cbv zeta in Hp. rewrite Hp.
  pose proof (sector_of_wf slot _ Hf) as Hw.
  match goal with |- contents_wf ((SlotContents.mk _ ?a ?b ?c) <| SlotContents.seq := _ |>) =>
    change (contents_wf (SlotContents.mk seq a b c)) end.
  unfold contents_wf. cbn [SlotContents.seq SlotContents.fuel SlotContents.ign SlotContents.angles].
  rewrite !slice_length by (done || (apply Nat.leb_le; reflexivity)). destruct Hw as [Hb _]. by split_and!; auto using slice_bytes_wf.
Qed.

(** ** What a rewrite leaves *)
Lemma boot_after_rewrite f c rest : contents_wf c -> SlotContents.seq c = next_seq (Flash.boot f) ->
  match Flash.boot f with BootScan.Valid _ seq _ => 0 <= seq < u32_max | _ => True end ->
  let target := write_target (Flash.boot f) in
  let f' := Flash.set_sector target (frame c ++ rest) f in
  (target = 0 \/ target = 1) /\ Flash.sector target f' = frame c ++ rest
  /\ exists sc, Flash.boot f' = BootScan.Valid target (SlotContents.seq c) sc.
Proof.
  intros Hc Hseq Hroom target f'. pose proof (classify_frame c rest Hc) as Hcl. destruct (Flash.boot f) as [| |slot seq sc] eqn:E;
    cbn [write_target next_seq] in *.
  3: { assert (SlotContents.seq c = seq + 1) as Hs by (rewrite Hseq; unfold wrapping_add, u32_max in *; apply Z.mod_small; lia).
    destruct (boot_after_write f (frame c ++ rest) slot seq sc E) as (Hslot & _ & Hnew & Hboot). cbv zeta in Hboot.
    rewrite Hcl, Hs in Hboot. destruct (Z.ltb_spec seq (seq + 1)) in Hboot; [|lia].
    split; [subst target; lia|]. split; [exact Hnew|]. exists false. rewrite Hs. exact Hboot. }
  all: split; [by left|]; split; [by destruct f|]; subst target f'; destruct f as [a b]; unfold Flash.boot in *; cbn [Flash.slot_a Flash.slot_b] in *.
  all: change (Flash.set_sector 0 (frame c ++ rest) (Flash.mk a b)) with (Flash.mk (frame c ++ rest) b); cbn [Flash.slot_a Flash.slot_b].
  all: rewrite scan_cases in E |- *; rewrite Hcl; cbn [slot_seq].
  all: destruct (slot_seq (classify_slot b)); [destruct (slot_seq (classify_slot a)); [case_match|]; done|by eexists].
Qed.

Lemma room_seq n kv : room (S n) kv ->
  u32 (next_seq (FlashKv.scan kv)) /\ 0 <= next_seq (FlashKv.scan kv) <= u32_max - Z.of_nat n
  /\ match FlashKv.scan kv with BootScan.Valid _ seq _ => 0 <= seq < u32_max | _ => True end.
Proof.
  intros (_ & _ & H). destruct (FlashKv.scan kv); cbn [next_seq]; unfold fits, u32_max in *; [lia..|].
  assert (wrapping_add 32 seq 1 = seq + 1) as -> by (unfold wrapping_add; apply Z.mod_small; lia). lia.
Qed.

(** A rewrite with well-formed pages is done; the store then holds them, and the diagnostics. *)
Lemma rewrite_kept n kv c snapshot : room (S n) kv -> contents_wf (c <| SlotContents.seq := next_seq (FlashKv.scan kv) |>) ->
  opt snapshot_typed snapshot ->
  let c := c <| SlotContents.seq := next_seq (FlashKv.scan kv) |> in
  exists f', FlashKv.rewrite_retained_history_sector (write_target (FlashKv.scan kv)) c snapshot (FlashKv.flash kv) = (f', Ok tt)
  /\ let kv' := kv <| FlashKv.flash := f' |> in
     room n kv' /\ pages_of kv' = c /\ FlashKv.load_retained_obd2_history_snapshot kv' = snapshot
     /\ exists slot seq sc, FlashKv.scan kv' = BootScan.Valid slot seq sc.
Proof.
  intros Hr Hc Hs. destruct (room_seq n kv Hr) as (_ & Hn & Hseq). pose proof Hr as (Hf & _ & _).
  set (c' := c <| SlotContents.seq := next_seq (FlashKv.scan kv) |>) in *. cbv zeta.
  pose proof (image_wf c' snapshot Hc Hs) as Hi. unfold FlashKv.rewrite_retained_history_sector. rewrite stage_sector by done.
  destruct (boot_after_rewrite (FlashKv.flash kv) c' (tail_of snapshot) Hc eq_refl Hseq) as (Ht & Hsec & sc & Hboot).
  fold (FlashKv.scan kv) in Ht, Hsec, Hboot. rewrite program_erased by done. eexists. split; [reflexivity|].
  set (kv' := kv <| FlashKv.flash := _ |>).
  assert (FlashKv.scan kv' = BootScan.Valid (write_target (FlashKv.scan kv)) (SlotContents.seq c') sc) as Hscan by exact Hboot.
  assert (flash_wf (FlashKv.flash kv')) as Hf' by (by apply set_sector_wf).
  assert (Flash.sector (write_target (FlashKv.scan kv)) (FlashKv.flash kv') = frame c' ++ tail_of snapshot) as Hsec' by exact Hsec.
  assert (FlashKv.load_retained_obd2_history_snapshot kv' = snapshot) as Hsnap.
  { unfold FlashKv.load_retained_obd2_history_snapshot. rewrite Hscan. cbn [FlashKv.load_current_obd2_snapshot].
    unfold read_obd2_retained_history_snapshot_with, decode_staged_obd2_retained_history_sidecar, FlashKv.read_sidecar.
    rewrite Hsec'. by apply tail_decodes. }
  split; [|split; [|split; [done|by eexists _, _, _]]].
  - split; [done|]. split; [unfold FlashKv.load_retained_obd2_history_snapshot in Hsnap; by rewrite Hsnap|].
    rewrite Hscan. change (SlotContents.seq c') with (next_seq (FlashKv.scan kv)). lia.
  - rewrite (load_current_pages kv' _ _ _ Hscan Hf'), Hsec'. destruct (frame_pages c' (tail_of snapshot) Hc) as (-> & -> & ->). by destruct c.
Qed.

(** ** Reads *)
Lemma named_range key k : PageKey.named key = Some k ->
  exists off len, key_range key = Some (off, len) /\ (off + len <= SLOT_USED_LEN)%nat
    /\ bool_decide (key = KEY_FUEL) || bool_decide (key = KEY_IGN) || bool_decide (key = KEY_ANGLES) = true
    /\ forall seq s, PageKey.page k (SlotContents.mk seq (slice OFF_FUEL (OFF_FUEL + LEN_FUEL) s)
         (slice OFF_IGN (OFF_IGN + LEN_IGN) s) (slice OFF_ANGLES (OFF_ANGLES + LEN_ANGLES) s)) = slice off (off + len) s.
Proof.
  unfold PageKey.named, key_range. intros H. repeat case_bool_decide; try discriminate; injection H as <-; subst;
    (eexists _, _; split; [reflexivity|]; split; [apply Nat.leb_le; reflexivity|done]).
Qed.

Lemma read_page_named kv slot seq sc key k out : FlashKv.scan kv = BootScan.Valid slot seq sc -> flash_wf (FlashKv.flash kv) ->
  PageKey.named key = Some k -> (length (PageKey.page k (pages_of kv)) <= length out)%nat ->
  FlashKv.read kv key out
  = (PageKey.page k (pages_of kv) ++ drop (length (PageKey.page k (pages_of kv))) out, Ok (length (PageKey.page k (pages_of kv)))).
Proof.
  intros Hs Hf Hk. destruct (named_range key k Hk) as (off & len & Hr & Hu & Hb & Hp).
  rewrite (load_current_pages kv slot seq sc Hs Hf), Hp. pose proof (sector_of_wf slot _ Hf) as Hw.
  rewrite slice_length by done. intros Ho. unfold FlashKv.read. rewrite Hs, Hb.
  by rewrite (read_key_sector _ key off len) by done.
Qed.

(** What is kept is a page of the selected sector. *)
Lemma kept_named kv key data : flash_wf (FlashKv.flash kv) -> kept kv key data ->
  exists slot seq sc k, FlashKv.scan kv = BootScan.Valid slot seq sc /\ PageKey.named key = Some k
    /\ data = PageKey.page k (pages_of kv).
Proof.
  intros Hf Hk. destruct (FlashKv.scan kv) as [| |slot seq sc] eqn:E.
  1,2: specialize (Hk data (le_n _)); cbn [kv_read flash_kv] in Hk; unfold FlashKv.read in Hk; by rewrite E in Hk.
  destruct (PageKey.named key) as [k|] eqn:En.
  - exists slot, seq, sc, k. split; [done|]. split; [done|].
    set (page := PageKey.page k (pages_of kv)). set (out := data ++ page).
    pose proof (Hk out ltac:(subst out; rewrite length_app; lia)) as H1. cbn [kv_read flash_kv] in H1.
    rewrite (read_page_named kv slot seq sc key k out E Hf En) in H1 by (subst out; rewrite length_app; fold page; lia).
    fold page in H1. injection H1 as H1 H2. by apply app_inj_1 in H1 as [-> _].
  - specialize (Hk data (le_n _)). cbn [kv_read flash_kv] in Hk. unfold FlashKv.read in Hk. rewrite E in Hk.
    unfold PageKey.named in En. by repeat case_bool_decide.
Qed.

(** ** The store is honest *)
Lemma named_inj key key' k : PageKey.named key = Some k -> PageKey.named key' = Some k -> key' = key.
Proof. unfold PageKey.named. repeat case_bool_decide; congruence. Qed.

Lemma set_page_wf k data c : contents_wf c -> bytes data -> length data = length (PageKey.page k c) ->
  contents_wf (PageKey.set_page k data c).
Proof.
  intros (Hs & Bf & Lf & Bi & Li & Ba & La) Hb Hl. destruct k; cbn [PageKey.page PageKey.set_page] in *;
    unfold contents_wf; rewrite ?Lf, ?Li, ?La in Hl; by split_and!.
Qed.

Lemma page_set k data c : PageKey.page k (PageKey.set_page k data c) = data
  /\ (forall k', k' <> k -> PageKey.page k' (PageKey.set_page k data c) = PageKey.page k' c)
  /\ (forall k' seq, PageKey.page k' (c <| SlotContents.seq := seq |>) = PageKey.page k' c).
Proof. split; [by destruct k|]. split; [by intros []; destruct k|by intros []]. Qed.

(** A page of the right length is written while the engine stands. *)
Lemma flash_write n kv key k data : room (S n) kv -> bytes data -> FlashKv.engine_running kv = false ->
  PageKey.named key = Some k -> length data = length (PageKey.page k (pages_of kv)) ->
  exists f', FlashKv.write kv key data = (kv <| FlashKv.flash := f' |>, Ok tt)
  /\ let kv' := kv <| FlashKv.flash := f' |> in
     room n kv' /\ pages_of kv' = (PageKey.set_page k data (pages_of kv)) <| SlotContents.seq := next_seq (FlashKv.scan kv) |>
     /\ exists slot seq sc, FlashKv.scan kv' = BootScan.Valid slot seq sc.
Proof.
  intros Hr Hb He Hk Hl. unfold FlashKv.write, FlashKv.persist_retained_history_rewrite. rewrite He.
  unfold persist_retained_history_flash_rewrite, prepare_retained_history_preserved_page_rewrite, apply_retained_history_page_update.
  fold (pages_of kv). rewrite Hk, Hl, Nat.eqb_refl. cbn [negb].
  unfold FlashKv.finalize_retained_history_rewrite. cbn [FlashRewrite.pages FlashRewrite.snapshot].
  destruct (room_seq n kv Hr) as (Hu & _). pose proof Hr as (Hf & Hsnap & _).
  set (c := PageKey.set_page k data (pages_of kv)).
  assert (contents_wf (c <| SlotContents.seq := next_seq (FlashKv.scan kv) |>)) as Hc.
  { pose proof (pages_wf kv (next_seq (FlashKv.scan kv)) Hf Hu) as Hp.
    apply (set_page_wf k data) in Hp; [|done|by rewrite (proj2 (proj2 (page_set k data (pages_of kv))))]. subst c. by destruct k. }
  destruct (rewrite_kept n kv c _ Hr Hc Hsnap) as (f' & -> & Hroom & Hpages & _ & Hscan). by exists f'.
Qed.

#[export] Instance flash_kv_honest : KvHonest FlashKv.t room.
Proof.
  split.
  - intros n s key data s' Hr Hb. cbn [kv_write flash_kv]. destruct (FlashKv.engine_running s) eqn:He.
    { unfold FlashKv.write, FlashKv.persist_retained_history_rewrite. by rewrite He. }
    destruct (PageKey.named key) as [k|] eqn:Ek; [destruct (decide (length data = length (PageKey.page k (pages_of s)))) as [Hl|Hl]|].
    2,3: unfold FlashKv.write, FlashKv.persist_retained_history_rewrite; rewrite He; unfold persist_retained_history_flash_rewrite,
      prepare_retained_history_preserved_page_rewrite, apply_retained_history_page_update; fold (pages_of s); rewrite Ek; first [done|by apply Nat.eqb_neq in Hl as ->].
    destruct (flash_write n s key k data Hr Hb He Ek Hl) as (f' & -> & Hroom & Hpages & slot & seq & sc & Hscan).
    intros [= <-]. set (s' := s <| FlashKv.flash := f' |>) in *. pose proof Hr as (Hf & _). pose proof Hroom as (Hf' & _).
    set (c := PageKey.set_page k data (pages_of s)) in *.
    assert (forall key' k', PageKey.named key' = Some k' -> kept s' key' (PageKey.page k' c)) as Hkept.
    { intros key' k' En out Ho. rewrite <- (proj2 (proj2 (page_set k' data c)) k' (next_seq (FlashKv.scan s))), <- Hpages in *.
      by apply (read_page_named s' slot seq sc). }
    destruct (page_set k data (pages_of s)) as (P1 & P2 & _). split; [|split; [|done]].
    + rewrite <- P1 at 1. by apply Hkept.
    + intros key' data' Hne Hk'. destruct (kept_named s key' data' Hf Hk') as (_ & _ & _ & k' & _ & En & ->).
      rewrite <- P2; [by apply Hkept|]. intros ->. by apply Hne, (named_inj _ _ k).
  - intros s key data s' e. cbn [kv_write flash_kv]. unfold FlashKv.write, FlashKv.persist_retained_history_rewrite.
    destruct (FlashKv.engine_running s); [by intros [= <- _]|]. unfold persist_retained_history_flash_rewrite.
    destruct (prepare_retained_history_preserved_page_rewrite _ _ _) as [[c h]|e'].
    + unfold FlashKv.finalize_retained_history_rewrite, FlashKv.rewrite_retained_history_sector.
      destruct (FlashKv.stage_retained_history_sector _ _); [done|]. intros [= <- _]. by destruct s.
    + intros [= <- _]. by destruct s.
Qed.

(** The length of a page it keeps. *)
Definition flash_page_len (k : PageKey.t) : nat :=
  match k with PageKey.Fuel => LEN_FUEL | PageKey.Ign => LEN_IGN | PageKey.Angles => LEN_ANGLES end.

Lemma pages_of_length kv k : flash_wf (FlashKv.flash kv) -> length (PageKey.page k (pages_of kv)) = flash_page_len k.
Proof. intros Hf. destruct (pages_wf kv 0 Hf ltac:(done)) as (_ & _ & L1 & _ & L2 & _ & L3). by destruct k. Qed.

(** Several pages, one after another. *)
Lemma flash_accepts n kv key k data : room (S n) kv -> bytes data -> FlashKv.engine_running kv = false ->
  PageKey.named key = Some k -> length data = flash_page_len k ->
  exists kv', kv_write kv key data = (kv', Ok tt) /\ room n kv' /\ FlashKv.engine_running kv' = false.
Proof.
  intros Hr Hb He Hk Hl. destruct (flash_write n kv key k data Hr Hb He Hk) as (f' & Hw & Hr' & _);
    [rewrite pages_of_length by apply Hr; done|]. by exists (kv <| FlashKv.flash := f' |>).
Qed.

(** The retained diagnostics survive with the tune: saved while the engine stands, they are
    what is loaded, and the pages are as they were. *)
Theorem flash_history_saved n kv h : room (S n) kv -> snapshot_typed h -> FlashKv.engine_running kv = false ->
  exists kv', save_snapshot h kv = (kv', Ok tt) /\ load_snapshot (E := KvError.t) kv' = Some h /\ room n kv'
  /\ forall k, PageKey.page k (pages_of kv') = PageKey.page k (pages_of kv).
Proof.
  intros Hr Hh He. cbn [save_snapshot load_snapshot flash_history_store].
  unfold FlashKv.save_retained_obd2_history_snapshot, FlashKv.persist_retained_history_rewrite. rewrite He.
  unfold persist_retained_history_flash_rewrite, prepare_retained_history_snapshot_rewrite, FlashKv.finalize_retained_history_rewrite.
  cbn [FlashRewrite.pages FlashRewrite.snapshot]. fold (pages_of kv). destruct (room_seq n kv Hr) as (Hu & _).
  destruct (rewrite_kept n kv (pages_of kv) (Some h) Hr) as (f' & -> & Hroom & Hpages & Hsnap & _); [apply pages_wf; [apply Hr|done]|done|].
  eexists. split; [reflexivity|]. split; [exact Hsnap|]. split; [done|]. intros k. rewrite Hpages. by destruct k.
Qed.

(** It keeps no other key than those of the three pages. *)
Lemma flash_refuses_setup kv data : exists e, kv_write kv PERSIST_KEY_EXPERT_TRIGGER data = (kv, Err e)
  /\ e = if FlashKv.engine_running kv then KvError.EngineRunning else KvError.NotFound.
Proof.
  cbn [kv_write flash_kv]. unfold FlashKv.write, FlashKv.persist_retained_history_rewrite.
  destruct (FlashKv.engine_running kv) eqn:E; [by eexists|]. eexists. split; [|reflexivity]. by destruct kv.
Qed.

Lemma flash_lacks_setup kv out : exists out' e, kv_read kv PERSIST_KEY_EXPERT_TRIGGER out = (out', Err e).
Proof. cbn [kv_read flash_kv]. unfold FlashKv.read. destruct (FlashKv.scan kv); by eexists _, _. Qed.
