(* ===== verification/Obd2Service.v ===== *)
(** * OBD-II service (boards/common/src/transport_service.rs)

    The identity a board reports, and the services that take one message from a transport,
    answer it from the retained history and clear the diagnostics on request.  The owner of
    the diagnostics and the transport are interfaces; the CAN transport is an instance.  A
    request is answered as CanObd2Spec.v says, and the diagnostics are cleared only once the
    tester has been told so. *)
From S2P Require Import Prelude Domain Engine Bytes Calibration CanTypes CanTransport CanObd2 CanObd2Spec Obd2History.

(** ** Identities *)

(** The loop that keeps letters, in upper case, and digits, up to the capacity. *)
Fixpoint normalize_loop (input out : list Z) (len : nat) : list Z * nat :=
  match input with
  | [] => (out, len)
  | byte :: rest =>
    if (length out <=? len)%nat then (out, len)
    else
      let normalized :=
        if (97 <=? byte) && (byte <=? 122) then Some (byte - 32)
        else if ((65 <=? byte) && (byte <=? 90)) || ((48 <=? byte) && (byte <=? 57)) then Some byte
        else None in
      match normalized with
      | Some b => normalize_loop rest (<[len := b]> out) (len + 1)
      | None => normalize_loop rest out len
      end
  end.

Definition normalize_ascii_identity (input : list Z) : list Z * nat :=
  normalize_loop input (replicate CAN_OBD2_VIN_LEN 0) 0.

(** [slots] from the last, with the low nibble first. *)
Fixpoint hex_slots (n : nat) (value : Z) (slots : list Z) : list Z :=
  match n, slots with
  | S n, _ :: rest =>
    let nibble := Z.land value 0x0f in
    (if nibble <=? 9 then 48 + nibble else 65 + (nibble - 10)) :: hex_slots n (Z.shiftr value 4) rest
  | _, _ => slots
  end.
Definition write_hex_u32 (value : Z) (out : list Z) : list Z := rev (hex_slots 8 value (rev out)).

Module Obd2VehicleIdentity.
Record t := mk {
  ecu_name_len : Z; ecu_name : list Z; vin_len : Z; vin : list Z; calibration_id_len : Z; calibration_id : list Z }.
#[global] Instance eta : Eta t := fun i =>
  mk (ecu_name_len i) (ecu_name i) (vin_len i) (vin i) (calibration_id_len i) (calibration_id i).

Definition empty : t := mk 0 (replicate 6 0) 0 (replicate CAN_OBD2_VIN_LEN 0) 0 (replicate CAN_OBD2_VIN_LEN 0).
Definition default : t :=
  let d := CanObd2VehicleInfoInputs.default_identity in
  mk (CanObd2VehicleInfoInputs.ecu_name_len d) (CanObd2VehicleInfoInputs.ecu_name d)
    (CanObd2VehicleInfoInputs.vin_len d) (CanObd2VehicleInfoInputs.vin d)
    (CanObd2VehicleInfoInputs.vin_len d) (CanObd2VehicleInfoInputs.vin d).

Definition from_signature (signature : list Z) : t :=
  let '(normalized, len) := normalize_ascii_identity signature in
  if (len =? 0)%nat then default
  else
    let l := as_unsigned 8 (Z.of_nat len) in
    mk (as_unsigned 8 (Z.of_nat (Nat.min len 6))) (take 6 normalized) l normalized l normalized.

(** [ecu_ts::TS_SIGNATURE], b"IPW-ECU V0.1". *)
Definition TS_SIGNATURE : list Z := [73; 80; 87; 45; 69; 67; 85; 32; 86; 48; 46; 49].

Definition from_calibration_identity (calibration : PackageIdentity.t) : t :=
  let identity := from_signature TS_SIGNATURE in
  let id := replicate CAN_OBD2_VIN_LEN 0 in
  let id := copy_at 0 [67] id in
  let id := copy_at 1 (write_hex_u32 (PackageIdentity.active_revision calibration) (slice 1 9 id)) id in
  let id := copy_at 9 (write_hex_u32 (PackageIdentity.checksum calibration) (slice 9 17 id)) id in
  let l := as_unsigned 8 (Z.of_nat CAN_OBD2_VIN_LEN) in
  identity <| vin_len := l |> <| vin := id |> <| calibration_id_len := l |> <| calibration_id := id |>.

Definition into_transport_inputs (i : t) : CanObd2VehicleInfoInputs.t :=
  CanObd2VehicleInfoInputs.mk (ecu_name_len i) (ecu_name i) (vin_len i) (vin i) (calibration_id_len i) (calibration_id i)
    None None.
End Obd2VehicleIdentity.

(** What the flash record and its use hold in common. *)
Module ProvisionedIdentity.
(** [Obd2ProvisionedIdentityRecord], [ProvisionedObd2Identity] *)
Record t := mk {
  vin_len : Z; vin : list Z; calibration_id_len : Z; calibration_id : list Z;
  board_build_identity_len : Z; board_build_identity : list Z }.
#[global] Instance eta : Eta t := fun i =>
  mk (vin_len i) (vin i) (calibration_id_len i) (calibration_id i) (board_build_identity_len i) (board_build_identity i).

Definition default : t :=
  mk 0 (replicate CAN_OBD2_VIN_LEN 0) 0 (replicate CAN_OBD2_VIN_LEN 0) 0 (replicate 6 0).

(** [Obd2ProvisionedIdentityRecord::from_ascii] *)
Definition record_from_ascii (vin_ calibration_id_ board_build_identity_ : option (list Z)) : t :=
  let identity := default in
  let identity :=
    match vin_ with
    | Some v =>
      let '(normalized, len) := normalize_ascii_identity v in
      identity <| vin_len := as_unsigned 8 (Z.of_nat len) |> <| vin := normalized |>
    | None => identity
    end in
  let identity :=
    match calibration_id_ with
    | Some c =>
      let '(normalized, len) := normalize_ascii_identity c in
      identity <| calibration_id_len := as_unsigned 8 (Z.of_nat len) |> <| calibration_id := normalized |>
    | None => identity
    end in
  match board_build_identity_ with
  | Some b =>
    let '(normalized, len) := normalize_ascii_identity b in
    identity <| board_build_identity_len := as_unsigned 8 (Z.of_nat (Nat.min len 6)) |>
      <| board_build_identity := take 6 normalized |>
  | None => identity
  end.

Definition into_provisioned_identity (i : t) : t :=
  let vin_max := as_unsigned 8 (Z.of_nat CAN_OBD2_VIN_LEN) in
  mk (Z.min (vin_len i) vin_max) (vin i) (Z.min (calibration_id_len i) vin_max) (calibration_id i)
    (Z.min (board_build_identity_len i) 6) (board_build_identity i).

(** [ProvisionedObd2Identity::from_ascii] *)
Definition from_ascii (vin_ calibration_id_ board_build_identity_ : option (list Z)) : t :=
  into_provisioned_identity (record_from_ascii vin_ calibration_id_ board_build_identity_).
End ProvisionedIdentity.

Definition with_provisioned_identity (provisioned : ProvisionedIdentity.t) (i : Obd2VehicleIdentity.t) : Obd2VehicleIdentity.t :=
  let vin_max := as_unsigned 8 (Z.of_nat CAN_OBD2_VIN_LEN) in
  let i :=
    if 0 <? ProvisionedIdentity.board_build_identity_len provisioned then
      i <| Obd2VehicleIdentity.ecu_name_len := Z.min (ProvisionedIdentity.board_build_identity_len provisioned)
             (as_unsigned 8 (Z.of_nat (length (Obd2VehicleIdentity.ecu_name i)))) |>
        <| Obd2VehicleIdentity.ecu_name := ProvisionedIdentity.board_build_identity provisioned |>
    else i in
  let i :=
    if 0 <? ProvisionedIdentity.vin_len provisioned then
      i <| Obd2VehicleIdentity.vin_len := Z.min (ProvisionedIdentity.vin_len provisioned) vin_max |>
        <| Obd2VehicleIdentity.vin := ProvisionedIdentity.vin provisioned |>
    else i in
  if 0 <? ProvisionedIdentity.calibration_id_len provisioned then
    i <| Obd2VehicleIdentity.calibration_id_len := Z.min (ProvisionedIdentity.calibration_id_len provisioned) vin_max |>
      <| Obd2VehicleIdentity.calibration_id := ProvisionedIdentity.calibration_id provisioned |>
  else i.

Definition obd2_vehicle_info_from_identity_signature (signature : list Z) : CanObd2VehicleInfoInputs.t :=
  Obd2VehicleIdentity.into_transport_inputs (Obd2VehicleIdentity.from_signature signature).

(** ** What the history offers to a request *)
Definition dispatch_inputs_with_vehicle_identity_and_statuses (identity : Obd2VehicleIdentity.t)
    (identity_key_lifecycle : option CanObd2IdentityKeyLifecycleStatus.t)
    (flash_write_fault : option CanObd2FlashWriteFaultStatus.t) (h : RetainedHistory.t) :
    CanObd2MultiServiceDispatchInputs.t :=
  let v := Obd2VehicleIdentity.into_transport_inputs identity in
  CanObd2MultiServiceDispatchInputs.mk (Some (RetainedHistory.current_data_value_source h))
    (Some (RetainedHistory.readiness_monitor_inputs h)) (Some (RetainedHistory.dtc_clear_inputs h))
    (RetainedHistory.freeze_frame_value_source h) (RetainedHistory.stored h) (RetainedHistory.freeze_frame_dtc h)
    (CanObd2VehicleInfoInputs.mk (CanObd2VehicleInfoInputs.ecu_name_len v) (CanObd2VehicleInfoInputs.ecu_name v)
      (CanObd2VehicleInfoInputs.vin_len v) (CanObd2VehicleInfoInputs.vin v)
      (CanObd2VehicleInfoInputs.calibration_id_len v) (CanObd2VehicleInfoInputs.calibration_id v)
      identity_key_lifecycle flash_write_fault).

Definition dispatch_inputs_with_vehicle_identity_and_key_lifecycle (identity : Obd2VehicleIdentity.t)
    (identity_key_lifecycle : option CanObd2IdentityKeyLifecycleStatus.t) :=
  dispatch_inputs_with_vehicle_identity_and_statuses identity identity_key_lifecycle None.
Definition dispatch_inputs_with_vehicle_identity (identity : Obd2VehicleIdentity.t) :=
  dispatch_inputs_with_vehicle_identity_and_key_lifecycle identity (Some CanObd2IdentityKeyLifecycleStatus.absent).
Definition dispatch_inputs :=
  dispatch_inputs_with_vehicle_identity (Obd2VehicleIdentity.from_signature Obd2VehicleIdentity.TS_SIGNATURE).

(** ** Interfaces *)

(** What a service uses of a transport; [None] is a panic of it. *)
Class Transport (T : Type) := {
  poll : T -> T;
  try_receive : T -> option (T * option Message.t);
  send : Message.t -> T -> option (T * Result unit TransportError.t) }.

#[export] Instance can_transport {D} `{!CanDevice D, !Postcard, !FrameSize} : Transport (CanTransport.t D) := {
  poll := CanTransport.poll; try_receive := CanTransport.try_receive; send := CanTransport.send }.

Module DiagClearSummary.
Record t := mk { cleared_active_count : Z; cleared_log_entries : Z; emergency_cleared : bool }.
End DiagClearSummary.

Class DiagnosticClearOwner (O : Type) := clear_diagnostics : O -> O * DiagClearSummary.t.

(** [obd2_retained_history_mut] is given by what it is used to write; the projections of the
    sensors may overflow ([None]). *)
Class LiveObd2RequestOwner (O : Type) `{DiagnosticClearOwner O} := {
  fault_state : O -> FaultState.t;
  current_obd2_sensor_data : O -> option Message.t;
  obd2_retained_history : O -> RetainedHistory.t;
  set_obd2_retained_history : RetainedHistory.t -> O -> O;
  current_obd2_diag_event : O -> option (option DiagEvent.t);
  obd2_diag_log_events : O -> list (option DiagEvent.t);
  recent_obd2_diag_events : O -> option (list (option DiagEvent.t));
  fallback_obd2_vehicle_identity : O -> Obd2VehicleIdentity.t;
  provisioned_obd2_identity : O -> ProvisionedIdentity.t;
  obd2_identity_key_lifecycle_status : O -> option CanObd2IdentityKeyLifecycleStatus.t;
  obd2_flash_write_fault_status : O -> option CanObd2FlashWriteFaultStatus.t }.

Section Owner.
Context {O : Type} `{LiveObd2RequestOwner O}.
Definition obd2_vehicle_identity (o : O) : Obd2VehicleIdentity.t :=
  with_provisioned_identity (provisioned_obd2_identity o) (fallback_obd2_vehicle_identity o).
End Owner.

(** ** The clear-only service *)
Module Obd2DtcClearExecutionSurface.
Record t := mk { clear_summary : DiagClearSummary.t; transport : CanObd2DtcClearSurface.t }.
End Obd2DtcClearExecutionSurface.

Definition dtc_clear_inputs_from_summary (s : DiagClearSummary.t) : CanObd2DtcClearInputs.t :=
  CanObd2DtcClearInputs.mk
    (saturating_add 8 (DiagClearSummary.cleared_active_count s) (DiagClearSummary.cleared_log_entries s))
    ((0 <? DiagClearSummary.cleared_active_count s) || (0 <? DiagClearSummary.cleared_log_entries s)) true.

Definition compose_obd2_dtc_clear {O} `{DiagnosticClearOwner O} (state : O) (request : Message.t) :
    O * Result Obd2DtcClearExecutionSurface.t CanObd2DtcClearResponseError.t :=
  match CanObd2DtcClearSurface.assemble request (CanObd2DtcClearInputs.mk 0 false true) with
  | Err e => (state, Err e)
  | Ok transport =>
    let '(state, clear_summary) := clear_diagnostics state in
    let inputs := dtc_clear_inputs_from_summary clear_summary in
    let verdict := CanObd2DtcClearVerdict.mk (CanObd2DtcClearInputs.cleared_dtc_count inputs)
      (CanObd2DtcClearInputs.freeze_frame_cleared inputs) (CanObd2DtcClearInputs.readiness_reset inputs) in
    (state, Ok (Obd2DtcClearExecutionSurface.mk clear_summary
      (CanObd2DtcClearSurface.mk (CanObd2DtcClearSurface.request_service_id transport) verdict
        (CanObd2DtcClearSurface.response transport))))
  end.

Module Obd2TransportServiceOutcome.
Inductive t := Ignored (m : Message.t) | DtcClear (s : Obd2DtcClearExecutionSurface.t).
End Obd2TransportServiceOutcome.

Module Obd2TransportServiceError.
Inductive t := Compose (e : CanObd2DtcClearResponseError.t) | Send (e : TransportError.t).
End Obd2TransportServiceError.

Module Obd2TransportService.
Definition pump_once {T O} `{Transport T, DiagnosticClearOwner O} (t : T) (state : O) :
    option (T * O * Result (option Obd2TransportServiceOutcome.t) Obd2TransportServiceError.t) :=
  '(t, received) ← try_receive (poll t);
  match received with
  | None => Some (t, state, Ok None)
  | Some (Message.Obd2Request 0x04 _ _ _ as request) =>
    match compose_obd2_dtc_clear state request with
    | (state, Err e) => Some (t, state, Err (Obd2TransportServiceError.Compose e))
    | (state, Ok surface) =>
      '(t, sent) ← send (CanObd2DtcClearSurface.response (Obd2DtcClearExecutionSurface.transport surface)) t;
      match sent with
      | Err e => Some (t, state, Err (Obd2TransportServiceError.Send e))
      | Ok _ => Some (t, state, Ok (Some (Obd2TransportServiceOutcome.DtcClear surface)))
      end
    end
  | Some other => Some (t, state, Ok (Some (Obd2TransportServiceOutcome.Ignored other)))
  end.
End Obd2TransportService.

(** ** The service of all modes *)
Module Obd2IgnoredMessageSurface.
Record t := mk { obd2_service : option Z; parameter_id : option Z }.
Definition from_message (m : Message.t) : t :=
  match m with
  | Message.Obd2Request service parameter_id _ _ | Message.Obd2Response service parameter_id _ _ _
  | Message.Obd2SegmentedResponse service parameter_id _ _ _ _ _ => mk (Some service) parameter_id
  | _ => mk None None
  end.
End Obd2IgnoredMessageSurface.

Module Obd2MultiServiceTransportServiceOutcome.
Inductive t :=
| Ignored (s : Obd2IgnoredMessageSurface.t)
| Dispatch (s : CanObd2MultiServiceDispatchSurface.t)
| SegmentedDispatch (s : CanObd2SegmentedVehicleInfoResponseSurface.t)
| DtcClear (clear_summary : DiagClearSummary.t) (dispatch : CanObd2MultiServiceDispatchSurface.t).
End Obd2MultiServiceTransportServiceOutcome.

Module Obd2MultiServiceTransportServiceError.
Inductive t := Send (e : TransportError.t).
End Obd2MultiServiceTransportServiceError.

(** The code of the refusal that stands for an error. *)
Definition negative_code_from_error (error : CanObd2MultiServiceDispatchError.t) : CanObd2NegativeResponseCode.t :=
  let unsupported := CanObd2NegativeResponseCode.ServiceNotSupported in
  let out_of_range := CanObd2NegativeResponseCode.RequestOutOfRange in
  match error with
  | CanObd2MultiServiceDispatchError.UnsupportedService _ => unsupported
  | CanObd2MultiServiceDispatchError.MissingFreezeFrameDtc
  | CanObd2MultiServiceDispatchError.MissingDtcClearInputs => out_of_range
  | CanObd2MultiServiceDispatchError.Mode01 mode01 =>
    match mode01 with
    | CanObd2RequestDispatchError.NotObd2Request => unsupported
    | CanObd2RequestDispatchError.MissingParameterId | CanObd2RequestDispatchError.MissingReadinessInputs
    | CanObd2RequestDispatchError.MissingValueSource _ | CanObd2RequestDispatchError.IncompatibleValueSource _ => out_of_range
    end
  | CanObd2MultiServiceDispatchError.DtcClear clear =>
    match clear with
    | CanObd2DtcClearResponseError.NotObd2Request | CanObd2DtcClearResponseError.UnsupportedService _ => unsupported
    | CanObd2DtcClearResponseError.UnexpectedParameterId _ => out_of_range
    end
  | CanObd2MultiServiceDispatchError.DtcFreezeFrame freeze =>
    match freeze with
    | CanObd2DtcFreezeFrameResponseError.NotObd2Request | CanObd2DtcFreezeFrameResponseError.UnsupportedService _ => unsupported
    | CanObd2DtcFreezeFrameResponseError.MissingParameterId | CanObd2DtcFreezeFrameResponseError.UnsupportedPid _
    | CanObd2DtcFreezeFrameResponseError.MissingFreezeFrameValueSource _
    | CanObd2DtcFreezeFrameResponseError.IncompatibleFreezeFrameValueSource _ => out_of_range
    end
  | CanObd2MultiServiceDispatchError.VehicleInfo vehicle_info =>
    match vehicle_info with
    | CanObd2VehicleInfoResponseError.NotObd2Request | CanObd2VehicleInfoResponseError.UnsupportedService _ => unsupported
    | CanObd2VehicleInfoResponseError.MissingInfoTypeId | CanObd2VehicleInfoResponseError.UnsupportedInfoType _ => out_of_range
    end
  | CanObd2MultiServiceDispatchError.SegmentedVehicleInfo vehicle_info =>
    match vehicle_info with
    | CanObd2SegmentedVehicleInfoResponseError.NotObd2Request
    | CanObd2SegmentedVehicleInfoResponseError.UnsupportedService _ => unsupported
    | CanObd2SegmentedVehicleInfoResponseError.MissingInfoTypeId
    | CanObd2SegmentedVehicleInfoResponseError.UnsupportedInfoType _ => out_of_range
    end
  | CanObd2MultiServiceDispatchError.NotObd2Request => unsupported
  end.

Definition negative_dispatch_from_error (request : Message.t) (error : CanObd2MultiServiceDispatchError.t) :
    CanObd2MultiServiceDispatchSurface.t :=
  let '(request_service_id, parameter_id) :=
    match request with
    | Message.Obd2Request service parameter_id _ _ => (service, parameter_id)
    | _ => (0, None)
    end in
  let code := negative_code_from_error error in
  CanObd2MultiServiceDispatchSurface.mk request_service_id parameter_id
    (CanObd2MultiServiceDispatchVerdict.NegativeResponse code)
    (CanObd2ResponseFrame.mk 0x7F (Some request_service_id) (Some (CanObd2NegativeResponseCode.raw code)) 0 (replicate 6 0)).

(** The messages one after the other, up to the first that is refused. *)
Fixpoint send_all {T} `{Transport T} (messages : list Message.t) (t : T) : option (T * Result unit TransportError.t) :=
  match messages with
  | [] => Some (t, Ok tt)
  | m :: rest =>
    '(t, sent) ← send m t;
    match sent with Err e => Some (t, Err e) | Ok _ => send_all rest t end
  end.

Module Obd2MultiServiceTransportService.
(** What the service does with the history before it looks for a message. *)
Definition observe {O} `{LiveObd2RequestOwner O} (o : O) : option O :=
  let diag_log_events := obd2_diag_log_events o in
  recent_diag_events ←
    (if existsb (fun e : option DiagEvent.t => match e with Some _ => true | None => false end) diag_log_events
     then Some (replicate OBD2_LIVE_DIAG_EVENT_INGRESS_CAP None)
     else recent_obd2_diag_events o);
  data ← current_obd2_sensor_data o;
  diag_event ← current_obd2_diag_event o;
  Some (set_obd2_retained_history
    (RetainedHistory.observe_live_diagnostic (fault_state o) diag_event diag_log_events recent_diag_events
      data (obd2_retained_history o)) o).

Definition inputs_of {O} `{LiveObd2RequestOwner O} (o : O) : CanObd2MultiServiceDispatchInputs.t :=
  dispatch_inputs_with_vehicle_identity_and_statuses (obd2_vehicle_identity o) (obd2_identity_key_lifecycle_status o)
    (obd2_flash_write_fault_status o) (obd2_retained_history o).

Definition pump_once {T O} `{Transport T, LiveObd2RequestOwner O} (t : T) (o : O) :
    option (T * O * Result (option Obd2MultiServiceTransportServiceOutcome.t) Obd2MultiServiceTransportServiceError.t) :=
  let t := poll t in
  o ← observe o;
  '(t, received) ← try_receive t;
  match received with
  | None => Some (t, o, Ok None)
  | Some (Message.Obd2Request _ _ _ _ as request) =>
    r ← dispatch_outcome request (inputs_of o);
    let outcome :=
      match r with
      | Ok outcome => outcome
      | Err error => CanObd2MultiServiceDispatchOutcome.Single (negative_dispatch_from_error request error)
      end in
    match outcome with
    | CanObd2MultiServiceDispatchOutcome.SegmentedVehicleInfo dispatch =>
      '(t, sent) ← send_all (CanObd2SegmentedResponseFrame.to_message
        <$> omap id (take (Z.to_nat (CanObd2SegmentedVehicleInfoResponseSurface.segment_count dispatch))
               (CanObd2SegmentedVehicleInfoResponseSurface.segments dispatch))) t;
      match sent with
      | Err e => Some (t, o, Err (Obd2MultiServiceTransportServiceError.Send e))
      | Ok _ => Some (t, o, Ok (Some (Obd2MultiServiceTransportServiceOutcome.SegmentedDispatch dispatch)))
      end
    | CanObd2MultiServiceDispatchOutcome.Single dispatch =>
      '(t, sent) ← send (CanObd2ResponseFrame.to_message (CanObd2MultiServiceDispatchSurface.response dispatch)) t;
      match sent with
      | Err e => Some (t, o, Err (Obd2MultiServiceTransportServiceError.Send e))
      | Ok _ =>
        match CanObd2MultiServiceDispatchSurface.verdict dispatch with
        | CanObd2MultiServiceDispatchVerdict.DtcClearPositive =>
          let '(o, clear_summary) := clear_diagnostics o in
          let o := set_obd2_retained_history (RetainedHistory.clear (obd2_retained_history o)) o in
          Some (t, o, Ok (Some (Obd2MultiServiceTransportServiceOutcome.DtcClear clear_summary dispatch)))
        | _ => Some (t, o, Ok (Some (Obd2MultiServiceTransportServiceOutcome.Dispatch dispatch)))
        end
      end
    end
  | Some other =>
    Some (t, o, Ok (Some (Obd2MultiServiceTransportServiceOutcome.Ignored (Obd2IgnoredMessageSurface.from_message other))))
  end.
End Obd2MultiServiceTransportService.

(** ** Identities are well formed *)

(** A byte as an identity keeps it. *)
Definition normalized_byte (byte : Z) : option Z :=
  if (97 <=? byte) && (byte <=? 122) then Some (byte - 32)
  else if ((65 <=? byte) && (byte <=? 90)) || ((48 <=? byte) && (byte <=? 57)) then Some byte
  else None.

Definition padded (n : nat) (bs : list Z) : list Z := take n bs ++ replicate (n - length bs) 0.

Lemma padded_length n bs : length (padded n bs) = n.
Proof. unfold padded. rewrite length_app, length_take, length_replicate. lia. Qed.

Lemma padded_snoc n bs b : (length bs < n)%nat -> <[length bs := b]> (padded n bs) = padded n (bs ++ [b]).
Proof.
  intros Hl. unfold padded. rewrite !take_ge, length_app by (rewrite ?length_app; cbn; lia). cbn [length].
  rewrite insert_app_r_alt by lia. rewrite Nat.sub_diag. replace (n - length bs)%nat with (S (n - (length bs + 1))) by lia.
  cbn. by rewrite <- app_assoc.
Qed.

Lemma normalize_loop_spec input bs n : (length bs <= n)%nat ->
  normalize_loop input (padded n bs) (length bs)
  = (padded n (bs ++ omap normalized_byte input), Nat.min n (length (bs ++ omap normalized_byte input))).
Proof.
  revert bs. induction input as [|byte rest IH]; intros bs Hl; cbn [normalize_loop omap list_omap].
  { rewrite app_nil_r. f_equal. lia. }
  rewrite padded_length. destruct (Nat.leb_spec n (length bs)) as [Hfull|Hroom].
  - unfold padded. rewrite !length_app, take_app_le by lia. f_equal; [|lia].
    by replace (n - length bs)%nat with 0%nat by lia; replace (n - (length bs + _))%nat with 0%nat by lia.
  - fold (normalized_byte byte). destruct (normalized_byte byte) as [b|]; [|by apply IH].
    rewrite padded_snoc by done. replace (length bs + 1)%nat with (length (bs ++ [b])) by (rewrite length_app; cbn; lia).
    rewrite IH by (rewrite length_app; cbn; lia). by rewrite <- app_assoc.
Qed.

(** An identity is the first letters and digits of its input, in upper case. *)
Lemma normalize_spec input :
  normalize_ascii_identity input
  = (padded CAN_OBD2_VIN_LEN (omap normalized_byte input), Nat.min CAN_OBD2_VIN_LEN (length (omap normalized_byte input))).
Proof. exact (normalize_loop_spec input [] CAN_OBD2_VIN_LEN (Nat.le_0_l _)). Qed.

(** The widths of the fields of an identity. *)
Record identity_typed (i : Obd2VehicleIdentity.t) : Prop := {
  typed_ecu_name : length (Obd2VehicleIdentity.ecu_name i) = 6%nat /\ 0 <= Obd2VehicleIdentity.ecu_name_len i <= 6;
  typed_vin_ : length (Obd2VehicleIdentity.vin i) = CAN_OBD2_VIN_LEN /\ 0 <= Obd2VehicleIdentity.vin_len i <= 17;
  typed_cal_ : length (Obd2VehicleIdentity.calibration_id i) = CAN_OBD2_VIN_LEN
    /\ 0 <= Obd2VehicleIdentity.calibration_id_len i <= 17 }.

Record provisioned_typed (p : ProvisionedIdentity.t) : Prop := {
  provisioned_vin : length (ProvisionedIdentity.vin p) = CAN_OBD2_VIN_LEN /\ u8 (ProvisionedIdentity.vin_len p);
  provisioned_cal : length (ProvisionedIdentity.calibration_id p) = CAN_OBD2_VIN_LEN
    /\ u8 (ProvisionedIdentity.calibration_id_len p);
  provisioned_name : length (ProvisionedIdentity.board_build_identity p) = 6%nat
    /\ u8 (ProvisionedIdentity.board_build_identity_len p) }.

Lemma small_cast n : (n <= 17)%nat -> as_unsigned 8 (Z.of_nat n) = Z.of_nat n.
Proof. intros Hn. apply Z.mod_small. lia. Qed.

Lemma from_signature_typed signature : identity_typed (Obd2VehicleIdentity.from_signature signature).
Proof.
  unfold Obd2VehicleIdentity.from_signature. rewrite normalize_spec.
  set (n := length (omap normalized_byte signature)). destruct (Nat.eqb_spec (Nat.min CAN_OBD2_VIN_LEN n) 0) as [_|Hn].
  { split; vm_compute; repeat split; discriminate. }
  unfold CAN_OBD2_VIN_LEN in *. rewrite !small_cast by lia.
  split; cbn -[padded Nat.min Z.of_nat]; unfold CAN_OBD2_VIN_LEN; rewrite ?length_take, ?padded_length; lia.
Qed.

Lemma hex_slots_length n value slots : length (hex_slots n value slots) = length slots.
Proof. revert value slots. induction n as [|n IH]; intros value [|s rest]; cbn; [done..|]. by rewrite IH. Qed.

Lemma write_hex_length value out : length (write_hex_u32 value out) = length out.
Proof. unfold write_hex_u32. by rewrite length_rev, hex_slots_length, length_rev. Qed.

(** The digits read back give the word. *)
Definition digit_value (c : Z) : Z := if c <=? 57 then c - 48 else c - 55.
Definition hex_value (digits : list Z) : Z := fold_right (fun c acc => digit_value c + 16 * acc) 0 digits.

Lemma hex_slots_value n value slots : length slots = n -> 0 <= value < 16 ^ Z.of_nat n -> hex_value (hex_slots n value slots) = value.
Proof.
  revert value slots. induction n as [|n IH]; intros value slots Hl Hv.
  { destruct slots; [|done]. cbn in Hv |- *. lia. }
  destruct slots as [|s rest]; [done|]. injection Hl as Hl. cbn [hex_slots hex_value fold_right]. fold (hex_value (hex_slots n (Z.shiftr value 4) rest)).
  rewrite Nat2Z.inj_succ, Z.pow_succ_r in Hv by lia.
  change 0x0f with (Z.ones 4). rewrite Z.land_ones, Z.shiftr_div_pow2 by lia. change (2 ^ 4) with 16.
  rewrite IH by (done || (split; [apply Z.div_pos; lia|apply Z.div_lt_upper_bound; lia])).
  pose proof (Z.mod_pos_bound value 16 ltac:(lia)). pose proof (Z_div_mod_eq_full value 16).
  unfold digit_value. destruct (Z.leb_spec (value mod 16) 9).
  - destruct (Z.leb_spec (48 + value mod 16) 57); lia.
  - destruct (Z.leb_spec (65 + (value mod 16 - 10)) 57); lia.
Qed.

Lemma write_hex_reads_back value out : u32 value -> length out = 8%nat -> hex_value (rev (write_hex_u32 value out)) = value.
Proof.
  intros Hv Hl. unfold write_hex_u32. rewrite rev_involutive. apply hex_slots_value; [by rewrite length_rev|exact Hv].
Qed.

Lemma from_calibration_typed c : identity_typed (Obd2VehicleIdentity.from_calibration_identity c).
Proof.
  pose proof (from_signature_typed Obd2VehicleIdentity.TS_SIGNATURE) as [Hn _ _].
  assert (forall v w, length (copy_at 9 (write_hex_u32 v (slice 9 17 (copy_at 1 (write_hex_u32 w (slice 1 9
      (copy_at 0 [67] (replicate CAN_OBD2_VIN_LEN 0)))) (copy_at 0 [67] (replicate CAN_OBD2_VIN_LEN 0)))))
      (copy_at 1 (write_hex_u32 w (slice 1 9 (copy_at 0 [67] (replicate CAN_OBD2_VIN_LEN 0))))
        (copy_at 0 [67] (replicate CAN_OBD2_VIN_LEN 0)))) = CAN_OBD2_VIN_LEN) as Hl.
  { intros v w. assert (forall u, length (copy_at 1 (write_hex_u32 u (slice 1 9 (copy_at 0 [67] (replicate CAN_OBD2_VIN_LEN 0))))
      (copy_at 0 [67] (replicate CAN_OBD2_VIN_LEN 0))) = CAN_OBD2_VIN_LEN) as H1.
    { intros u. rewrite copy_at_length by (rewrite write_hex_length; vm_compute; lia). reflexivity. }
    rewrite copy_at_length; [apply H1|]. rewrite write_hex_length, H1. unfold slice. rewrite length_take, length_drop, H1.
    unfold CAN_OBD2_VIN_LEN. lia. }
  split; [exact Hn|..]; (split; [apply Hl|vm_compute; split; discriminate]).
Qed.

Lemma with_provisioned_typed p i : provisioned_typed p -> identity_typed i -> identity_typed (with_provisioned_identity p i).
Proof.
  intros [[V1 V2] [C1 C2] [N1 N2]] [[A1 A2] [B1 B2] [D1 D2]]. unfold fits in *. unfold with_provisioned_identity.
  assert (as_unsigned 8 (Z.of_nat (length (Obd2VehicleIdentity.ecu_name i))) = 6) as E6 by (by rewrite A1).
  change (as_unsigned 8 (Z.of_nat CAN_OBD2_VIN_LEN)) with 17. rewrite E6.
  destruct (Z.ltb_spec 0 (ProvisionedIdentity.board_build_identity_len p)), (Z.ltb_spec 0 (ProvisionedIdentity.vin_len p)),
    (Z.ltb_spec 0 (ProvisionedIdentity.calibration_id_len p)); split; cbn; split; try done; lia.
Qed.

Lemma from_ascii_typed vin cal board : provisioned_typed (ProvisionedIdentity.from_ascii vin cal board).
Proof.
  unfold ProvisionedIdentity.from_ascii, ProvisionedIdentity.record_from_ascii. unfold fits.
  destruct vin as [v|], cal as [c|], board as [b|]; rewrite ?normalize_spec; unfold CAN_OBD2_VIN_LEN;
    rewrite ?small_cast by lia; split; cbn -[padded Nat.min Z.of_nat Z.min];
    change (as_unsigned 8 (Z.of_nat CAN_OBD2_VIN_LEN)) with 17;
    rewrite ?length_take, ?padded_length, ?length_replicate; unfold CAN_OBD2_VIN_LEN, fits; (split; [done || lia|lia]).
Qed.

(** ** What a request brings about *)

(** A known service refuses what it is asked for as out of range, an unknown one as such. *)
Definition refusal_code (service : Z) : Z :=
  if existsb (Z.eqb service) [1; 2; 3; 4; 9] then 0x31 else 0x11.

(** The messages that carry an answer. *)
Definition reply_messages (service : Z) (a : Result Answer.t CanObd2MultiServiceDispatchError.t) : list Message.t :=
  match a with
  | Ok (Answer.Single _ frame) => [CanObd2ResponseFrame.to_message frame]
  | Ok (Answer.Segmented id value) =>
    (fun i => CanObd2SegmentedResponseFrame.to_message (segment_at (service + 0x40) id value i))
      <$> seq 0 ((length value + 5) / 6)
  | Err _ => [Message.Obd2Response 0x7F (Some service) (Some (refusal_code service)) 0 (replicate 6 0)]
  end.

(** Whether an answer promises that the diagnostics are cleared. *)
Definition promises_clear (a : Result Answer.t CanObd2MultiServiceDispatchError.t) : bool :=
  match a with
  | Ok (Answer.Single CanObd2MultiServiceDispatchVerdict.DtcClearPositive _) => true
  | _ => false
  end.

(** A request to clear: service 4, of nothing in particular. *)
Definition is_clear_request (service : Z) (id : option Z) : bool :=
  (service =? 4) && match id with None => true | Some _ => false end.

Lemma promise_of_clear inputs service id : is_Some (CanObd2MultiServiceDispatchInputs.dtc_clear inputs) ->
  promises_clear (spec_answer inputs service id) = is_clear_request service id.
Proof.
  intros [c Hc]. unfold spec_answer, is_clear_request. destruct (Z.eqb_spec service 4) as [->|H4].
  - unfold spec_clear. rewrite Hc. by destruct id.
  - unfold promises_clear, spec_current_data, spec_freeze_frame, spec_stored_dtcs, spec_vehicle_info.
    repeat case_match; simplify_eq; done.
Qed.

Lemma refused_as inputs service id e : spec_answer inputs service id = Err e ->
  CanObd2NegativeResponseCode.raw (negative_code_from_error e) = refusal_code service.
Proof.
  unfold spec_answer, refusal_code. cbn [existsb].
  destruct (Z.eqb_spec service 1) as [->|_]; [|destruct (Z.eqb_spec service 2) as [->|_]];
    [| |destruct (Z.eqb_spec service 3) as [->|_]]; [| | |destruct (Z.eqb_spec service 4) as [->|_]];
    [| | | |destruct (Z.eqb_spec service 9) as [->|_]]; cbn [orb].
  - unfold spec_current_data. intros E. repeat case_match; simplify_eq; done.
  - unfold spec_freeze_frame. intros E. repeat case_match; simplify_eq; done.
  - done.
  - unfold spec_clear. intros E. repeat case_match; simplify_eq; done.
  - unfold spec_vehicle_info. intros E. repeat case_match; simplify_eq; done.
  - by intros [= <-].
Qed.

Lemma send_all_one {T} `{Transport T} m (t : T) : send_all [m] t = send m t.
Proof. cbn. destruct (send m t) as [[t' [[]|e]]|]; done. Qed.

(** The segments that are sent are all of them. *)
Lemma segments_sent service info value :
  omap id (take (Z.to_nat (Z.of_nat ((length value + 5) / 6))) (segments_of service info value))
  = segment_at service info value <$> seq 0 ((length value + 5) / 6).
Proof.
  rewrite Nat2Z.id. unfold segments_of. rewrite take_app_le, take_ge by (rewrite length_fmap, length_seq; lia).
  induction (seq 0 ((length value + 5) / 6)) as [|i l IH]; [done|]. cbn. by rewrite IH.
Qed.

(** What a pump does with a received request, from what it answers. *)
Definition answered_as {T O} `{Transport T, LiveObd2RequestOwner O} (service : Z) (id : option Z) (t : T) (o : O)
    (messages : list Message.t)
    (r : option (T * O * Result (option Obd2MultiServiceTransportServiceOutcome.t) Obd2MultiServiceTransportServiceError.t)) : Prop :=
  match send_all messages t with
  | None => r = None
  | Some (t', Err e) => r = Some (t', o, Err (Obd2MultiServiceTransportServiceError.Send e))
  | Some (t', Ok _) =>
    exists outcome, r = Some (t',
      (if is_clear_request service id then
         let o' := (clear_diagnostics o).1 in
         set_obd2_retained_history (RetainedHistory.clear (obd2_retained_history o')) o'
       else o), Ok (Some outcome))
  end.

Module Pump.
Import Obd2MultiServiceTransportService.
Section pump.
Context {T O : Type} `{Transport T, LiveObd2RequestOwner O}.
Implicit Types (t : T) (o : O).

Lemma pump_request t o o1 t1 service id len payload : observe o = Some o1 -> inputs_typed (inputs_of o1) ->
  from_option u8 True id ->
  try_receive (poll t) = Some (t1, Some (Message.Obd2Request service id len payload)) ->
  answered_as service id t1 o1 (reply_messages service (spec_answer (inputs_of o1) service id)) (pump_once t o).
Proof.
  intros Ho Hin Hid Hr. destruct (dispatch_answers _ service id len payload Hin Hid) as (r & Hd & Ha & Hg).
  assert (promises_clear (spec_answer (inputs_of o1) service id) = is_clear_request service id) as Hc.
  { apply promise_of_clear. by eexists. }
  pose proof (refused_as (inputs_of o1) service id) as Hcode.
  unfold pump_once. rewrite Ho. cbn [mbind option_bind]. rewrite Hr. cbn [mbind option_bind]. rewrite Hd. cbn [mbind option_bind]. rewrite <- Ha in *.
  unfold answered_as. rewrite <- Hc.
  destruct r as [[s|g]|e]; cbn [map_ok answer_of reply_messages promises_clear].
  - rewrite send_all_one. destruct (send _ t1) as [[t2 [[]|e]]|]; cbn [mbind option_bind]; [|done..].
    destruct (CanObd2MultiServiceDispatchSurface.verdict s); try by eexists.
    destruct (clear_diagnostics o1) as [o' summary]. by eexists.
  - destruct Hg as (Hs & value & Hseg & Hn & _). rewrite Hn, Hseg, segments_sent, reassemble_segments.
    rewrite <- list_fmap_compose. unfold compose.
    destruct (send_all _ t1) as [[t2 [[]|e]]|]; cbn [mbind option_bind]; [by eexists|done..].
  - rewrite send_all_one. unfold negative_dispatch_from_error. rewrite <- (Hcode e eq_refl).
    cbn [CanObd2MultiServiceDispatchSurface.response CanObd2MultiServiceDispatchSurface.verdict].
    destruct (send _ t1) as [[t2 [[]|e']]|]; cbn [mbind option_bind]; [by eexists|done..].
Qed.
End pump.
End Pump.

(** C25: A pump answers what it received and clears only what it has promised: without a
    message, or with one that is no request, it sends nothing and only notes the live state
    in the history; a request is answered by exactly the messages of the specified answer
    (one frame, the segments in order, or the refusal), in order until the transport refuses
    one, which is then the error returned; and the diagnostics and the history are cleared
    exactly when the request was one to clear and its answer has been sent. *)
Theorem requests_answered_then_cleared {T O} `{Transport T, LiveObd2RequestOwner O} (t : T) (o o1 : O) :
  Obd2MultiServiceTransportService.observe o = Some o1 ->
  inputs_typed (Obd2MultiServiceTransportService.inputs_of o1) ->
  let r := Obd2MultiServiceTransportService.pump_once t o in
  match try_receive (poll t) with
  | None => r = None
  | Some (t1, None) => r = Some (t1, o1, Ok None)
  | Some (t1, Some (Message.Obd2Request service id _ _)) => from_option u8 True id ->
      answered_as service id t1 o1
        (reply_messages service (spec_answer (Obd2MultiServiceTransportService.inputs_of o1) service id)) r
  | Some (t1, Some m) =>
      r = Some (t1, o1, Ok (Some (Obd2MultiServiceTransportServiceOutcome.Ignored (Obd2IgnoredMessageSurface.from_message m))))
  end.
Proof.
  intros Ho Hin r. destruct (try_receive (poll t)) as [[t1 [m|]]|] eqn:Er.
  - destruct m; try (unfold r, Obd2MultiServiceTransportService.pump_once; rewrite Ho; cbn [mbind option_bind]; by rewrite Er).
    intros Hid. by eapply Pump.pump_request.
  - unfold r, Obd2MultiServiceTransportService.pump_once. rewrite Ho. cbn [mbind option_bind]. by rewrite Er.
  - unfold r, Obd2MultiServiceTransportService.pump_once. rewrite Ho. cbn [mbind option_bind]. by rewrite Er.
Qed.

(** The clear-only service clears before it answers: when its answer is refused the
    diagnostics are gone all the same. *)
Lemma clear_service_clears_first {T O} `{Transport T, DiagnosticClearOwner O} (t t1 t2 : T) (o : O) len payload m e :
  try_receive (poll t) = Some (t1, Some (Message.Obd2Request 4 None len payload)) ->
  m = Message.Obd2Response 0x44 None None 0 (replicate 6 0) -> send m t1 = Some (t2, Err e) ->
  Obd2TransportService.pump_once t o
  = Some (t2, (clear_diagnostics o).1, Err (Obd2TransportServiceError.Send e)).
Proof.
  intros Hr -> Hs. unfold Obd2TransportService.pump_once. rewrite Hr. cbn [mbind option_bind].
  unfold compose_obd2_dtc_clear.
  assert (CanObd2DtcClearSurface.assemble (Message.Obd2Request 4 None len payload) (CanObd2DtcClearInputs.mk 0 false true)
    = Ok (CanObd2DtcClearSurface.mk 4 (CanObd2DtcClearVerdict.mk 0 false true)
        (Message.Obd2Response 0x44 None None 0 (replicate 6 0)))) as -> by reflexivity.
  destruct (clear_diagnostics o) as [o' summary].
  cbn [Obd2DtcClearExecutionSurface.transport CanObd2DtcClearSurface.response]. by rewrite Hs.
Qed.

(** ** A bus in memory and an owner that is its history *)
Record TestBus := mkTestBus { inbox : list Message.t; outbox : list Message.t; refuses : bool }.
Definition test_bus : Transport TestBus := {|
  poll := id;
  try_receive := fun b => match inbox b with
    | [] => Some (b, None) | m :: rest => Some (mkTestBus rest (outbox b) (refuses b), Some m) end;
  send := fun m b => if refuses b then Some (b, Err TransportError.BufferFull)
    else Some (mkTestBus (inbox b) (outbox b ++ [m]) (refuses b), Ok tt) |}.
Definition test_clear : DiagnosticClearOwner RetainedHistory.t := fun h => (h, DiagClearSummary.mk 1 0 false).
Definition test_data : Message.t := Message.SensorData 1013 25 65 80 138 100 0 123456.
Definition test_event : DiagEvent.t := DiagEvent.mk DiagCode.MapRange 120000 DiagSource.Sensor (Some 1013) 120000 120000.
Definition test_owner : @LiveObd2RequestOwner RetainedHistory.t test_clear := {|
  fault_state := fun _ => FaultState.initial; current_obd2_sensor_data := fun _ => Some test_data;
  obd2_retained_history := id; set_obd2_retained_history := fun h _ => h;
  current_obd2_diag_event := fun _ => Some None; obd2_diag_log_events := fun _ => [Some test_event];
  recent_obd2_diag_events := fun _ => Some [];
  fallback_obd2_vehicle_identity := fun _ => Obd2VehicleIdentity.from_signature Obd2VehicleIdentity.TS_SIGNATURE;
  provisioned_obd2_identity := fun _ => ProvisionedIdentity.default;
  obd2_identity_key_lifecycle_status := fun _ => None; obd2_flash_write_fault_status := fun _ => None |}.

Lemma requests_answered_then_cleared_witness :
  let bus := mkTestBus [Message.Obd2Request 4 None 0 (replicate 6 0)] [] false in
  let o := RetainedHistory.new test_data in
  exists o1 outcome, @Obd2MultiServiceTransportService.observe _ test_clear test_owner o = Some o1
  /\ @Obd2MultiServiceTransportService.pump_once _ _ test_bus test_clear test_owner bus o
    = Some (mkTestBus [] [Message.Obd2Response 0x44 None None 0 (replicate 6 0)] false, RetainedHistory.clear o1, Ok (Some outcome))
  /\ RetainedHistory.stored o1 = [DiagCode.MapRange].
Proof.
  intros bus o.
  destruct (@Obd2MultiServiceTransportService.observe _ test_clear test_owner o) as [o1|] eqn:Ho; [|discriminate Ho].
  assert (inputs_typed (@Obd2MultiServiceTransportService.inputs_of _ test_clear test_owner o1)) as Hin.
  { vm_compute in Ho. injection Ho as <-. split; [vm_compute; repeat split; discriminate..| | | |].
    - intros r [= <-]. vm_compute. split; [discriminate|reflexivity].
    - vm_compute; repeat split; discriminate.
    - vm_compute; repeat split; discriminate.
    - vm_compute; repeat split; discriminate. }
  pose proof (@requests_answered_then_cleared _ _ test_bus test_clear test_owner bus o o1 Ho Hin I) as Hp.
  unfold answered_as in Hp.
  destruct Hp as (outcome & Hp). exists o1, outcome. split_and!; [done|exact Hp|]. by injection Ho as <-.
Defined.
