(* ===== verification/BoardTelemetry.v ===== *)
(** * What a board shows of itself (crates/board-api/src/telemetry.rs, the mappings of
    boards/common/src/adapter.rs)

    The telemetry records of the common adapter and the functions that fill them from the
    state of the runtime and of the scheduler: the synchronisation, the reasons of limits and
    cuts, the policy of a fault and of a change of fault, the protection and the limp action,
    the counts of actions, and what a step shows of its control plan. *)
From S2P Require Import Prelude Domain BoardApi Queue SchedState Batch Outputs Lowering Control Calibration Engine EngineStep.
From S2P Require Import BoardInputs Obd2History Observations.

(** ** Synchronisation *)
Module CommonSyncTelemetryState.
Inductive t := NoSignal | Unsynced | CrankSynced | FullSequentialAuthorized | SyncLost | CamSynced | SyncSuspect.
End CommonSyncTelemetryState.

Definition common_sync_telemetry_state (s : SplitSyncState.t) : CommonSyncTelemetryState.t :=
  match s with
  | SplitSyncState.NoSignal => CommonSyncTelemetryState.NoSignal
  | SplitSyncState.Unsynced => CommonSyncTelemetryState.Unsynced
  | SplitSyncState.CrankSynced => CommonSyncTelemetryState.CrankSynced
  | SplitSyncState.CamSynced => CommonSyncTelemetryState.CamSynced
  | SplitSyncState.FullSequentialAuthorized => CommonSyncTelemetryState.FullSequentialAuthorized
  | SplitSyncState.SyncSuspect => CommonSyncTelemetryState.SyncSuspect
  | SplitSyncState.SyncLost => CommonSyncTelemetryState.SyncLost
  end.

Module EngineTimeAuthorityTelemetry.
Record t := mk { authority : EngineTimeAuthority.t; summary : SyncState.t; full_sequential_authorized : bool }.
Definition new (authority : EngineTimeAuthority.t) : t :=
  mk authority (EngineTimeAuthority.compatibility_summary authority) (engine_time_authorizes_full_sequential authority).
Definition legacy (sync_state : SyncState.t) : t := new (sync_state_authority sync_state).
End EngineTimeAuthorityTelemetry.

(** ** Lambda *)
Module CommonLambdaMode.
Inductive t := OpenLoop | ClosedLoop.
End CommonLambdaMode.

Definition common_lambda_mode (mode : LambdaMode.t) : CommonLambdaMode.t :=
  match mode with LambdaMode.OpenLoop => CommonLambdaMode.OpenLoop | LambdaMode.ClosedLoop => CommonLambdaMode.ClosedLoop end.

Module CommonLambdaActivity.
Inductive t := Inactive | Frozen | Active.
End CommonLambdaActivity.

Module CommonLambdaDisableReason.
Inductive t := None_ | OpenLoop | RequestedOpenLoop | SensorInvalid | WarmupGate | LowLoadGate | StartupDelay
  | PowerReductionCut | AccelerationEnrichment.
End CommonLambdaDisableReason.

Definition common_lambda_disable_reason (reason : LambdaDisableReason.t) : CommonLambdaDisableReason.t :=
  match reason with
  | LambdaDisableReason.None_ => CommonLambdaDisableReason.None_
  | LambdaDisableReason.RequestedOpenLoop => CommonLambdaDisableReason.RequestedOpenLoop
  | LambdaDisableReason.SensorInvalid => CommonLambdaDisableReason.SensorInvalid
  | LambdaDisableReason.WarmupGate => CommonLambdaDisableReason.WarmupGate
  | LambdaDisableReason.LowLoadGate => CommonLambdaDisableReason.LowLoadGate
  | LambdaDisableReason.StartupDelay => CommonLambdaDisableReason.StartupDelay
  | LambdaDisableReason.PowerReductionCut => CommonLambdaDisableReason.PowerReductionCut
  | LambdaDisableReason.AccelerationEnrichment => CommonLambdaDisableReason.AccelerationEnrichment
  end.

Module CommonLambdaTelemetry.
Record t := mk { activity : CommonLambdaActivity.t; reason : CommonLambdaDisableReason.t }.
Definition default : t := mk CommonLambdaActivity.Inactive CommonLambdaDisableReason.None_.
End CommonLambdaTelemetry.

Module CommonLambdaCorrectionTelemetry.
Record t := mk { measured_lambda : Z; target_lambda : Z; trim_x100 : Z; status : CommonLambdaTelemetry.t }.
Definition default : t := mk 0 0 0 CommonLambdaTelemetry.default.
End CommonLambdaCorrectionTelemetry.

Module LastLambdaInputs.
Record t := mk { seen : bool; lambda_valid : bool; measured_lambda100 : Z; requested_open_loop : bool }.
Definition default : t := mk false false 0 false.
End LastLambdaInputs.

(** ** Limits of ignition and torque *)
Module CommonIgnitionLimitReason.
Inductive t := None_ | Knock | Torque | RevLimiter.
End CommonIgnitionLimitReason.

Definition common_ignition_limit_reason (reason : IgnitionLimitReason.t) : CommonIgnitionLimitReason.t :=
  match reason with
  | IgnitionLimitReason.None_ => CommonIgnitionLimitReason.None_
  | IgnitionLimitReason.Knock => CommonIgnitionLimitReason.Knock
  | IgnitionLimitReason.Torque => CommonIgnitionLimitReason.Torque
  | IgnitionLimitReason.RevLimiter => CommonIgnitionLimitReason.RevLimiter
  end.

Module CommonTorqueLimitReason.
Inductive t := None_ | Idle | Driver | RevLimiter | Knock | LimpMode.
End CommonTorqueLimitReason.

Definition common_torque_limit_reason (reason : TorqueLimitReason.t) : CommonTorqueLimitReason.t :=
  match reason with
  | TorqueLimitReason.None_ => CommonTorqueLimitReason.None_
  | TorqueLimitReason.Idle => CommonTorqueLimitReason.Idle
  | TorqueLimitReason.Driver => CommonTorqueLimitReason.Driver
  | TorqueLimitReason.RevLimiter => CommonTorqueLimitReason.RevLimiter
  | TorqueLimitReason.Knock => CommonTorqueLimitReason.Knock
  | TorqueLimitReason.LimpMode => CommonTorqueLimitReason.LimpMode
  end.

Module CommonControlReasonTelemetry.
Record t := mk {
  lambda_mode : CommonLambdaMode.t; lambda_active : bool; lambda_trim_x100 : Z;
  lambda_disable_reason : CommonLambdaDisableReason.t; ignition_limit_reason : CommonIgnitionLimitReason.t;
  torque_limit_reason : CommonTorqueLimitReason.t }.
Definition default : t := mk CommonLambdaMode.OpenLoop false 0 CommonLambdaDisableReason.None_
  CommonIgnitionLimitReason.None_ CommonTorqueLimitReason.None_.
End CommonControlReasonTelemetry.

Module CommonControlTelemetry.
Record t := mk { fuel_pulse_width : Z; ignition_advance : Z; dwell : Z; lambda_target : Z; torque_limit_x100 : Z }.
End CommonControlTelemetry.

Definition common_lambda_telemetry (reasons : CommonControlReasonTelemetry.t) (last_inputs : LastLambdaInputs.t) :
    CommonLambdaTelemetry.t :=
  let inactive := CommonLambdaTelemetry.mk CommonLambdaActivity.Inactive in
  let frozen := CommonLambdaTelemetry.mk CommonLambdaActivity.Frozen in
  if negb (LastLambdaInputs.seen last_inputs) then CommonLambdaTelemetry.default
  else if CommonControlReasonTelemetry.lambda_active reasons
  then CommonLambdaTelemetry.mk CommonLambdaActivity.Active CommonLambdaDisableReason.None_
  else
    match CommonControlReasonTelemetry.lambda_disable_reason reasons with
    | CommonLambdaDisableReason.RequestedOpenLoop => frozen CommonLambdaDisableReason.RequestedOpenLoop
    | CommonLambdaDisableReason.SensorInvalid => inactive CommonLambdaDisableReason.SensorInvalid
    | CommonLambdaDisableReason.WarmupGate => inactive CommonLambdaDisableReason.WarmupGate
    | CommonLambdaDisableReason.LowLoadGate => inactive CommonLambdaDisableReason.LowLoadGate
    | CommonLambdaDisableReason.StartupDelay => inactive CommonLambdaDisableReason.StartupDelay
    | CommonLambdaDisableReason.PowerReductionCut => frozen CommonLambdaDisableReason.PowerReductionCut
    | CommonLambdaDisableReason.AccelerationEnrichment => frozen CommonLambdaDisableReason.AccelerationEnrichment
    | CommonLambdaDisableReason.None_ | CommonLambdaDisableReason.OpenLoop =>
      match CommonControlReasonTelemetry.lambda_mode reasons with
      | CommonLambdaMode.OpenLoop => inactive CommonLambdaDisableReason.OpenLoop
      | CommonLambdaMode.ClosedLoop => CommonLambdaTelemetry.default
      end
    end.

Definition common_lambda_correction_telemetry (control : CommonControlTelemetry.t)
    (reasons : CommonControlReasonTelemetry.t) (status : CommonLambdaTelemetry.t) (last_inputs : LastLambdaInputs.t) :
    CommonLambdaCorrectionTelemetry.t :=
  if negb (LastLambdaInputs.seen last_inputs) then CommonLambdaCorrectionTelemetry.default
  else CommonLambdaCorrectionTelemetry.mk (LastLambdaInputs.measured_lambda100 last_inputs)
    (CommonControlTelemetry.lambda_target control) (CommonControlReasonTelemetry.lambda_trim_x100 reasons) status.

(** ** The scheduler and its frontier *)
Module CommonSchedulerMode.
Inductive t := Idle | Armed | Suspended.
End CommonSchedulerMode.

Definition common_scheduler_mode (mode : SchedulerMode.t) : CommonSchedulerMode.t :=
  match mode with
  | SchedulerMode.Idle => CommonSchedulerMode.Idle
  | SchedulerMode.Armed => CommonSchedulerMode.Armed
  | SchedulerMode.Suspended => CommonSchedulerMode.Suspended
  end.

Module CommonFrontierFaultEventId.
Inductive t := None_ | SyncLost | HeartbeatExpired | HorizonExpired | PermitDenied | TimingFault
  | AdmittedEventRejected | BoardOutputFault.
End CommonFrontierFaultEventId.

Module CommonFrontierFaultAction.
Inductive t := None_ | OutputSuppressed | SafeStateTransition.
#[global] Instance eq_dec : EqDecision t.
Proof. solve_decision. Defined.
End CommonFrontierFaultAction.

Module CommonFrontierFaultTelemetry.
Record t := mk { event_id : CommonFrontierFaultEventId.t; severity : FaultSeverity.t; action : CommonFrontierFaultAction.t }.
End CommonFrontierFaultTelemetry.

Definition common_frontier_fault_telemetry (reason : StopReason.t) : CommonFrontierFaultTelemetry.t :=
  match reason with
  | StopReason.None => CommonFrontierFaultTelemetry.mk CommonFrontierFaultEventId.None_ FaultSeverity.Info
      CommonFrontierFaultAction.None_
  | StopReason.SyncLost => CommonFrontierFaultTelemetry.mk CommonFrontierFaultEventId.SyncLost FaultSeverity.Warning
      CommonFrontierFaultAction.SafeStateTransition
  | StopReason.HeartbeatExpired => CommonFrontierFaultTelemetry.mk CommonFrontierFaultEventId.HeartbeatExpired
      FaultSeverity.Warning CommonFrontierFaultAction.OutputSuppressed
  | StopReason.HorizonExpired => CommonFrontierFaultTelemetry.mk CommonFrontierFaultEventId.HorizonExpired
      FaultSeverity.Info CommonFrontierFaultAction.OutputSuppressed
  | StopReason.PermitDenied => CommonFrontierFaultTelemetry.mk CommonFrontierFaultEventId.PermitDenied
      FaultSeverity.Warning CommonFrontierFaultAction.SafeStateTransition
  | StopReason.TimingFault => CommonFrontierFaultTelemetry.mk CommonFrontierFaultEventId.TimingFault
      FaultSeverity.Critical CommonFrontierFaultAction.SafeStateTransition
  | StopReason.AdmittedEventRejected => CommonFrontierFaultTelemetry.mk CommonFrontierFaultEventId.AdmittedEventRejected
      FaultSeverity.Critical CommonFrontierFaultAction.SafeStateTransition
  | StopReason.BoardOutputFault => CommonFrontierFaultTelemetry.mk CommonFrontierFaultEventId.BoardOutputFault
      FaultSeverity.Critical CommonFrontierFaultAction.SafeStateTransition
  end.

Module CommonFrontierTelemetry.
Record t := mk {
  active_horizon_id : option Z; horizon_start_us : option Micros; horizon_end_us : option Micros;
  last_accepted_horizon_id : option Z; last_accepted_horizon_start_us : option Micros;
  last_accepted_horizon_end_us : option Micros; heartbeat_deadline_us : option Micros; active_permit_mask : Z;
  active_stop_reason : StopReason.t; fault : CommonFrontierFaultTelemetry.t }.
End CommonFrontierTelemetry.

Module CommonSchedulerOwnershipTelemetry.
Record t := mk { mode : CommonSchedulerMode.t; active_groups : Z; injection_count : Z; ignition_count : Z }.
End CommonSchedulerOwnershipTelemetry.

Module CommonSchedulerReservationTelemetry.
Record t := mk { injector_channels : Z; ignition_channels : Z; idle_channels : Z; fan_channels : Z }.
End CommonSchedulerReservationTelemetry.

Module CommonSchedulerWindowTelemetry.
Record t := mk {
  last_injection_start : option Micros; last_injection_end : option Micros; last_ignition_start : option Micros;
  last_ignition_end : option Micros }.
End CommonSchedulerWindowTelemetry.

(** [SchedulerObservabilitySource], and its implementation by the executor, whose one field
    is the scheduler adapter. *)
Class SchedulerObservabilitySource (A : Type) := {
  timing_metrics : A -> Metrics.t;
  active_queue_count : A -> Z;
  free_queue_slots : A -> Z;
  queue_capacity : A -> Z;
  frontier_telemetry : A -> CommonFrontierTelemetry.t;
  scheduler_ownership_telemetry : A -> CommonSchedulerOwnershipTelemetry.t;
  scheduler_reservation_telemetry : A -> CommonSchedulerReservationTelemetry.t;
  scheduler_state_summary_telemetry : A -> bool;
  scheduler_window_telemetry : A -> CommonSchedulerWindowTelemetry.t }.

Definition queue_count (n : Z) : Z := as_unsigned 8 (Z.min n u8_max).

#[export] Instance executor_observability : SchedulerObservabilitySource Adapter.t := {
  timing_metrics a := Queue.metrics (Adapter.queue a);
  active_queue_count a := queue_count (Queue.active_count (Adapter.queue a));
  free_queue_slots a := queue_count (Queue.free_slots (Adapter.queue a));
  queue_capacity a := queue_count (Queue.capacity (Adapter.queue a));
  frontier_telemetry a :=
    let f := Adapter.frontier a in
    CommonFrontierTelemetry.mk (SchedulerState.active_horizon_id f) (SchedulerState.horizon_start_us f)
      (SchedulerState.horizon_end_us f) (SchedulerState.last_accepted_horizon_id f)
      (SchedulerState.last_accepted_horizon_start_us f) (SchedulerState.last_accepted_horizon_end_us f)
      (SchedulerState.heartbeat_deadline_us f) (SchedulerState.active_permit_mask f)
      (SchedulerState.active_stop_reason f) (common_frontier_fault_telemetry (SchedulerState.active_stop_reason f));
  scheduler_ownership_telemetry a :=
    let f := Adapter.frontier a in
    CommonSchedulerOwnershipTelemetry.mk (common_scheduler_mode (SchedulerState.mode f)) (SchedulerState.active_groups f)
      (SchedulerState.injection_count f) (SchedulerState.ignition_count f);
  scheduler_reservation_telemetry a :=
    let reserved n := nth n (SchedulerState.reserved_channels (Adapter.frontier a)) 0 in
    CommonSchedulerReservationTelemetry.mk (reserved 0%nat) (reserved 1%nat) (reserved 2%nat) (reserved 3%nat);
  scheduler_state_summary_telemetry a := SchedulerState.is_armed (Adapter.frontier a);
  scheduler_window_telemetry a :=
    let f := Adapter.frontier a in
    CommonSchedulerWindowTelemetry.mk (SchedulerState.last_injection_start f) (SchedulerState.last_injection_end f)
      (SchedulerState.last_ignition_start f) (SchedulerState.last_ignition_end f) }.

(** ** Faults *)
Definition runtime_action_of (state : FaultState.t) (none : FaultTransitionAction.t) : FaultTransitionAction.t :=
  if bool_decide (FaultState.fault state = FaultCode.None) then none
  else if bool_decide (FaultState.cancel_reason state = CancelReason.SafetyShutdown)
          || bool_decide (FaultState.severity state = FaultSeverity.Critical)
  then FaultTransitionAction.Shutdown
  else if bool_decide (FaultState.severity state = FaultSeverity.Warning)
          || bool_decide (FaultState.fault state = FaultCode.SensorOutOfRange)
  then FaultTransitionAction.LimpHome
  else FaultTransitionAction.ObserveOnly.

Definition common_fault_transition_event (previous current : FaultState.t) : FaultTransitionEvent.t :=
  let was_none := bool_decide (FaultState.fault previous = FaultCode.None) in
  let is_none := bool_decide (FaultState.fault current = FaultCode.None) in
  let event_id :=
    if was_none && negb is_none then FaultTransitionEventId.FaultEntered
    else if negb was_none && is_none then FaultTransitionEventId.FaultCleared
    else FaultTransitionEventId.FaultUpdated in
  FaultTransitionEvent.mk event_id (FaultState.severity current) (runtime_action_of current FaultTransitionAction.Cleared).

Module CommonRuntimeFaultTelemetry.
Record t := mk {
  active : bool; fault_code : FaultCode.t; severity : FaultSeverity.t; cancel_reason : CancelReason.t;
  action : FaultTransitionAction.t }.
End CommonRuntimeFaultTelemetry.

Definition common_runtime_fault_telemetry (state : FaultState.t) : CommonRuntimeFaultTelemetry.t :=
  CommonRuntimeFaultTelemetry.mk (negb (bool_decide (FaultState.fault state = FaultCode.None))) (FaultState.fault state)
    (FaultState.severity state) (FaultState.cancel_reason state) (runtime_action_of state FaultTransitionAction.None_).

(** ** Cuts *)
Module CommonCutReason.
Inductive t := None_ | SafetyLatched | DirectRequest | Shutdown | HardRev | Launch | FlatShift | FuelOnly | SoftRev
  | SparkOnly | KnockRetard.
#[global] Instance eq_dec : EqDecision t.
Proof. solve_decision. Defined.
End CommonCutReason.

Section cuts.
Import RuntimeSnapshot CommonCutReason.

Definition common_fuel_cut_reason (s : RuntimeSnapshot.t) : CommonCutReason.t :=
  if negb (fuel_cut s) then None_
  else if safety_latched s then SafetyLatched
  else if direct_fuel_cut_request s then DirectRequest
  else if bool_decide (EngineState.mode (engine s) = ControlMode.Shutdown) then Shutdown
  else if rev_hard_active s then HardRev
  else if launch_active s then Launch
  else if flat_shift_active s then FlatShift
  else if fuel_cut s && negb (spark_cut s) then FuelOnly
  else if rev_soft_active s then SoftRev
  else if direct_spark_cut_request s then DirectRequest
  else None_.

Definition common_spark_cut_reason (s : RuntimeSnapshot.t) : CommonCutReason.t :=
  if negb (spark_cut s) then None_
  else if safety_latched s then SafetyLatched
  else if direct_spark_cut_request s then DirectRequest
  else if bool_decide (EngineState.mode (engine s) = ControlMode.Shutdown) then Shutdown
  else if rev_hard_active s then HardRev
  else if launch_active s then Launch
  else if flat_shift_active s then FlatShift
  else if rev_soft_active s then SoftRev
  else if spark_cut s && negb (fuel_cut s) then SparkOnly
  else if legacy_cut_reason_code s =? 7 then KnockRetard
  else if direct_fuel_cut_request s then DirectRequest
  else None_.
End cuts.

Module CommonDecisionTelemetry.
Record t := mk {
  control_mode : ControlMode.t; rev_soft_active : bool; rev_hard_active : bool; launch_active : bool;
  flat_shift_active : bool; fuel_cut : bool; spark_cut : bool; fuel_cut_reason : CommonCutReason.t;
  spark_cut_reason : CommonCutReason.t }.
End CommonDecisionTelemetry.

(** [decision_telemetry] of the adapter, of the snapshot of its runtime. *)
Definition decision_of (s : RuntimeSnapshot.t) : CommonDecisionTelemetry.t :=
  CommonDecisionTelemetry.mk (EngineState.mode (RuntimeSnapshot.engine s)) (RuntimeSnapshot.rev_soft_active s)
    (RuntimeSnapshot.rev_hard_active s) (RuntimeSnapshot.launch_active s) (RuntimeSnapshot.flat_shift_active s)
    (RuntimeSnapshot.fuel_cut s) (RuntimeSnapshot.spark_cut s) (common_fuel_cut_reason s) (common_spark_cut_reason s).

(** ** Protection *)
Module CommonProtectionLevel.
Inductive t := Inactive | Degraded | ShutdownDriving.
End CommonProtectionLevel.

Module CommonProtectionSource.
Inductive t := None_ | RuntimeFault | FrontierFault | ControlMode.
End CommonProtectionSource.

Module CommonProtectionAction.
Inductive t := None_ | ObserveOnly | LimpHome | OutputSuppressed | SafeStateTransition | Shutdown.
#[global] Instance eq_dec : EqDecision t.
Proof. solve_decision. Defined.
End CommonProtectionAction.

Module CommonProtectionPersistence.
Inductive t := Inactive | Reversible | LatchedUntilClear | LatchedUntilRecovery.
End CommonProtectionPersistence.

Module CommonProtectionTelemetry.
Record t := mk {
  level : CommonProtectionLevel.t; source : CommonProtectionSource.t; action : CommonProtectionAction.t;
  persistence : CommonProtectionPersistence.t }.
Definition default : t := mk CommonProtectionLevel.Inactive CommonProtectionSource.None_ CommonProtectionAction.None_
  CommonProtectionPersistence.Inactive.
End CommonProtectionTelemetry.

Definition common_protection_telemetry (decision : CommonDecisionTelemetry.t) (fault : CommonRuntimeFaultTelemetry.t)
    (frontier_fault : CommonFrontierFaultTelemetry.t) : CommonProtectionTelemetry.t :=
  match CommonFrontierFaultTelemetry.action frontier_fault with
  | CommonFrontierFaultAction.OutputSuppressed =>
    CommonProtectionTelemetry.mk CommonProtectionLevel.Degraded CommonProtectionSource.FrontierFault
      CommonProtectionAction.OutputSuppressed CommonProtectionPersistence.LatchedUntilRecovery
  | CommonFrontierFaultAction.SafeStateTransition =>
    CommonProtectionTelemetry.mk CommonProtectionLevel.ShutdownDriving CommonProtectionSource.FrontierFault
      CommonProtectionAction.SafeStateTransition CommonProtectionPersistence.LatchedUntilRecovery
  | CommonFrontierFaultAction.None_ =>
    if CommonRuntimeFaultTelemetry.active fault then
      let action :=
        match CommonRuntimeFaultTelemetry.action fault with
        | FaultTransitionAction.None_ | FaultTransitionAction.Cleared => CommonProtectionAction.None_
        | FaultTransitionAction.ObserveOnly => CommonProtectionAction.ObserveOnly
        | FaultTransitionAction.LimpHome => CommonProtectionAction.LimpHome
        | FaultTransitionAction.Shutdown => CommonProtectionAction.Shutdown
        end in
      CommonProtectionTelemetry.mk
        (if bool_decide (action = CommonProtectionAction.Shutdown) then CommonProtectionLevel.ShutdownDriving
         else CommonProtectionLevel.Degraded)
        CommonProtectionSource.RuntimeFault action CommonProtectionPersistence.LatchedUntilClear
    else
      match CommonDecisionTelemetry.control_mode decision with
      | ControlMode.Shutdown =>
        CommonProtectionTelemetry.mk CommonProtectionLevel.ShutdownDriving CommonProtectionSource.ControlMode
          CommonProtectionAction.Shutdown CommonProtectionPersistence.Reversible
      | ControlMode.LimpHome =>
        CommonProtectionTelemetry.mk CommonProtectionLevel.Degraded CommonProtectionSource.ControlMode
          CommonProtectionAction.LimpHome CommonProtectionPersistence.Reversible
      | _ => CommonProtectionTelemetry.default
      end
  end.

(** ** Actions of a step *)
(** [CommonActionTelemetry] has the fields of [RuntimeActionObservations]. *)
Definition observe_common_action (o : ActionShell.t) (action : Action.t) : ActionShell.t :=
  let o := o <| ActionShell.total_action_count ::= count_one |> in
  match action with
  | Action.ArmScheduler _ _ => o <| ActionShell.arm_scheduler_count ::= count_one |>
  | Action.ArmInjection _ => o <| ActionShell.arm_injection_count ::= count_one |>
  | Action.ArmIgnition _ => o <| ActionShell.arm_ignition_count ::= count_one |>
  | Action.ApplyAux commands =>
    o <| ActionShell.apply_aux_count ::= count_one |>
      <| ActionShell.apply_aux_command_count ::= fun n => saturating_add 8 n (as_unsigned 8 (Z.min (Batch.len commands) u8_max)) |>
  | Action.PublishSnapshot =>
    o <| ActionShell.publish_snapshot := true |> <| ActionShell.publish_snapshot_count ::= count_one |>
  | Action.PersistCalibration =>
    o <| ActionShell.persist_calibration := true |> <| ActionShell.persist_calibration_count ::= count_one |>
  | Action.CancelScheduler cancel_reason =>
    let o :=
      if ActionShell.cancel_scheduler o && negb (bool_decide (ActionShell.cancel_reason o = cancel_reason))
      then o <| ActionShell.multiple_cancel_reasons := true |> else o in
    o <| ActionShell.cancel_scheduler := true |> <| ActionShell.cancel_reason := cancel_reason |>
      <| ActionShell.cancel_scheduler_count ::= count_one |>
  | Action.Idle => o <| ActionShell.idle_count ::= count_one |>
  end.

Definition common_action_telemetry (result : StepResult.t) : ActionShell.t :=
  fold_left observe_common_action (ActionBatch.iter (StepResult.actions result)) ActionShell.default.

(** ** Limp action *)
Module CommonLimpActionLevel.
Inductive t := Inactive | AuxOnly | OutputSuppressed | ShutdownDriving.
End CommonLimpActionLevel.

Module CommonLimpActionSource.
Inductive t := None_ | RuntimeFault | FrontierFault | ControlMode | SyncAuthority.
End CommonLimpActionSource.

Module CommonLimpActionTelemetry.
Record t := mk {
  level : CommonLimpActionLevel.t; source : CommonLimpActionSource.t; cancel_scheduler : bool;
  cancel_reason : CancelReason.t; apply_aux : bool; aux_command_count : Z;
  persistence : CommonProtectionPersistence.t }.
Definition default : t := mk CommonLimpActionLevel.Inactive CommonLimpActionSource.None_ false CancelReason.Manual false 0
  CommonProtectionPersistence.Inactive.
End CommonLimpActionTelemetry.

Definition common_limp_action_telemetry (actions : ActionShell.t) (protection : CommonProtectionTelemetry.t)
    (frontier_fault : CommonFrontierFaultTelemetry.t) : CommonLimpActionTelemetry.t :=
  let apply_aux := (0 <? ActionShell.apply_aux_count actions) || (0 <? ActionShell.apply_aux_command_count actions) in
  let mapped_source :=
    match CommonProtectionTelemetry.source protection with
    | CommonProtectionSource.RuntimeFault => CommonLimpActionSource.RuntimeFault
    | CommonProtectionSource.FrontierFault => CommonLimpActionSource.FrontierFault
    | CommonProtectionSource.ControlMode => CommonLimpActionSource.ControlMode
    | CommonProtectionSource.None_ => CommonLimpActionSource.None_
    end in
  let commands := ActionShell.apply_aux_command_count actions in
  if negb (bool_decide (CommonFrontierFaultTelemetry.action frontier_fault = CommonFrontierFaultAction.None_)) then
    CommonLimpActionTelemetry.mk
      (if bool_decide (CommonFrontierFaultTelemetry.action frontier_fault = CommonFrontierFaultAction.OutputSuppressed)
       then CommonLimpActionLevel.OutputSuppressed else CommonLimpActionLevel.ShutdownDriving)
      CommonLimpActionSource.FrontierFault (ActionShell.cancel_scheduler actions) (ActionShell.cancel_reason actions)
      apply_aux commands CommonProtectionPersistence.LatchedUntilRecovery
  else if ActionShell.cancel_scheduler actions && bool_decide (ActionShell.cancel_reason actions = CancelReason.SyncLoss) then
    CommonLimpActionTelemetry.mk CommonLimpActionLevel.OutputSuppressed
      match mapped_source with CommonLimpActionSource.None_ => CommonLimpActionSource.SyncAuthority | s => s end
      true (ActionShell.cancel_reason actions) apply_aux commands CommonProtectionPersistence.LatchedUntilRecovery
  else if ActionShell.cancel_scheduler actions then
    CommonLimpActionTelemetry.mk CommonLimpActionLevel.ShutdownDriving mapped_source (ActionShell.cancel_scheduler actions)
      (ActionShell.cancel_reason actions) apply_aux commands (CommonProtectionTelemetry.persistence protection)
  else if apply_aux then
    CommonLimpActionTelemetry.mk CommonLimpActionLevel.AuxOnly mapped_source false (ActionShell.cancel_reason actions)
      true commands (CommonProtectionTelemetry.persistence protection)
  else CommonLimpActionTelemetry.default.

(** ** What a step shows *)
Module CommonFuelStrategyMode.
Inductive t := DirectPulseWidthTable | SpeedDensityVe | AlphaN | Maf.
End CommonFuelStrategyMode.

Definition common_fuel_strategy_mode (strategy : RuntimeFuelStrategy.t) : CommonFuelStrategyMode.t :=
  match strategy with
  | RuntimeFuelStrategy.DirectPulseWidthTable _ => CommonFuelStrategyMode.DirectPulseWidthTable
  | RuntimeFuelStrategy.SpeedDensityVe _ _ => CommonFuelStrategyMode.SpeedDensityVe
  | RuntimeFuelStrategy.AlphaN _ _ => CommonFuelStrategyMode.AlphaN
  | RuntimeFuelStrategy.Maf _ _ => CommonFuelStrategyMode.Maf
  end.

Module CommonFuelObservationTelemetry.
Record t := mk { base_fuel_pulse_width : Z; enriched_fuel_pulse_width : Z }.
Definition default : t := mk 0 0.
End CommonFuelObservationTelemetry.

Module CommonEnrichmentTelemetry.
Record t := mk { startup_x100 : Z; warmup_x100 : Z; after_start_x100 : Z; acceleration_x100 : Z; total_x100 : Z }.
Definition default : t := mk 0 0 0 0 0.
End CommonEnrichmentTelemetry.

Module CommonWarmupTelemetry.
Record t := mk { active : bool; correction_x100 : Z; temperature_mode : FuelWarmupTemperatureMode.t }.
Definition default : t := mk false 0 FuelWarmupTemperatureMode.Inactive.
End CommonWarmupTelemetry.

Module CommonStartupTelemetry.
Record t := mk { active : bool; remaining_window : Z; window_mode : FuelStartupWindowMode.t }.
Definition default : t := mk false 0 FuelStartupWindowMode.Inactive.
End CommonStartupTelemetry.

Module CommonAfterstartTelemetry.
Record t := mk { active : bool; remaining_window : Z; window_mode : FuelAfterstartWindowMode.t }.
Definition default : t := mk false 0 FuelAfterstartWindowMode.Inactive.
End CommonAfterstartTelemetry.

Module CommonTransientEnrichmentTelemetry.
Record t := mk { acceleration_active : bool; acceleration_pulse_us : Z; acceleration_decay_steps_remaining : Z }.
Definition default : t := mk false 0 0.
End CommonTransientEnrichmentTelemetry.

Module CommonTorqueTelemetry.
Record t := mk { request_x1000 : Z; allowed_x1000 : Z; actuated_x1000 : Z }.
Definition default : t := mk 0 0 0.
End CommonTorqueTelemetry.

(** The telemetry that a tick copies from the result of its step; [None] is the overflow of
    the total enrichment. *)
Module StepTelemetry.
Record t := mk {
  action_telemetry : ActionShell.t; control_reasons : CommonControlReasonTelemetry.t;
  last_lambda_inputs : LastLambdaInputs.t; validated : ValidatedInputs.t; fuel : CommonFuelObservationTelemetry.t;
  enrichment : CommonEnrichmentTelemetry.t; warmup : CommonWarmupTelemetry.t; startup : CommonStartupTelemetry.t;
  afterstart : CommonAfterstartTelemetry.t; transient_enrichment : CommonTransientEnrichmentTelemetry.t;
  torque : CommonTorqueTelemetry.t }.
Definition default : t :=
  mk ActionShell.default CommonControlReasonTelemetry.default LastLambdaInputs.default (ValidatedInputs.mk 0 0 0 false)
    CommonFuelObservationTelemetry.default CommonEnrichmentTelemetry.default CommonWarmupTelemetry.default
    CommonStartupTelemetry.default CommonAfterstartTelemetry.default CommonTransientEnrichmentTelemetry.default
    CommonTorqueTelemetry.default.

Definition of_step (result : StepResult.t) (control : ControlInputs.t) : option t :=
  let c := StepResult.control result in
  let o := FuelIntent.observations (ControlPlan.fuel_intent c) in
  let e := ControlPlan.enrichment c in
  let torque := StepResult.torque_observations result in
  total_x100 ← EnrichmentResult.total_x100 e;
  Some (mk (common_action_telemetry result)
    (CommonControlReasonTelemetry.mk (common_lambda_mode (LambdaTrimResult.mode (ControlPlan.lambda c)))
      (LambdaTrimResult.active (ControlPlan.lambda c)) (LambdaTrimResult.trim_x100 (ControlPlan.lambda c))
      (common_lambda_disable_reason (LambdaTrimResult.disable_reason (ControlPlan.lambda c)))
      (common_ignition_limit_reason (Control.IgnitionPlan.limit_reason (ControlPlan.ignition c)))
      (common_torque_limit_reason (AllowedTorque.reason (ControlPlan.torque c))))
    (LastLambdaInputs.mk true (LambdaTrimInputs.lambda_valid (ControlInputs.lambda control))
      (LambdaTrimInputs.measured_lambda100 (ControlInputs.lambda control))
      (LambdaTrimInputs.requested_open_loop (ControlInputs.lambda control)))
    (StepResult.validated result)
    (CommonFuelObservationTelemetry.mk (ControlPlan.base_fuel c) (ControlPlan.enriched_fuel c))
    (CommonEnrichmentTelemetry.mk (EnrichmentResult.startup_x100 e) (StrategyObservations.warmup_correction_x100 o)
      (EnrichmentResult.after_start_x100 e) (EnrichmentResult.acceleration_x100 e) total_x100)
    (CommonWarmupTelemetry.mk (StrategyObservations.warmup_active o) (StrategyObservations.warmup_correction_x100 o)
      (StrategyObservations.warmup_temperature_mode o))
    (CommonStartupTelemetry.mk (StrategyObservations.startup_active o) (StrategyObservations.startup_window_remaining o)
      (StrategyObservations.startup_window_mode o))
    (CommonAfterstartTelemetry.mk (StrategyObservations.afterstart_active o)
      (StrategyObservations.afterstart_window_remaining o) (StrategyObservations.afterstart_window_mode o))
    (CommonTransientEnrichmentTelemetry.mk (StrategyObservations.lambda_ae_freeze_active o)
      (StrategyObservations.ae_pulse_us o) (StrategyObservations.ae_decay_steps_remaining o))
    (CommonTorqueTelemetry.mk (TorqueObservations.request_x1000 torque) (TorqueObservations.allowed_x1000 torque)
      (TorqueObservations.actuated_x1000 torque))).
End StepTelemetry.

(** ** What the board shows against what the runtime shows ([Observations]) *)
Lemma action_telemetry_agrees result : common_action_telemetry result = extract_action_observations result.
Proof. reflexivity. Qed.

(** The action shown for a fault is the policy's, unless the fault is a safety cut that is
    neither critical nor a shutdown: for that one the policy shuts down and the board does
    not say so. *)
Definition transition_action_of (action : FaultAction.t) : FaultTransitionAction.t :=
  match action with
  | FaultAction.None_ => FaultTransitionAction.None_
  | FaultAction.ObserveOnly => FaultTransitionAction.ObserveOnly
  | FaultAction.LimpHome => FaultTransitionAction.LimpHome
  | FaultAction.Shutdown => FaultTransitionAction.Shutdown
  end.

Lemma fault_action_agrees (state : FaultState.t) :
  let 'FaultState.mk fault severity reason := state in
  let shown := CommonRuntimeFaultTelemetry.action (common_runtime_fault_telemetry state) in
  shown = transition_action_of (fst (runtime_fault_action_policy fault severity reason))
  <-> ~ (fault = FaultCode.SafetyCut /\ reason <> CancelReason.SafetyShutdown /\ severity <> FaultSeverity.Critical).
Proof. destruct state as [[] [] []]; vm_compute; intuition congruence. Qed.

(** The reasons shown of a cut are the runtime's, when it is of the fuel alone or of the spark
    alone.  A cut of both that no limiter, launch, shift, latch, request or shutdown explains
    is one of the spark for the runtime; the board gives no reason for its fuel. *)
Definition common_cut_reason_of (reason : CutReason.t) : CommonCutReason.t :=
  match reason with
  | CutReason.None_ => CommonCutReason.None_
  | CutReason.SafetyLatched => CommonCutReason.SafetyLatched
  | CutReason.DirectRequest => CommonCutReason.DirectRequest
  | CutReason.Shutdown => CommonCutReason.Shutdown
  | CutReason.HardRev => CommonCutReason.HardRev
  | CutReason.Launch => CommonCutReason.Launch
  | CutReason.FlatShift => CommonCutReason.FlatShift
  | CutReason.FuelOnly => CommonCutReason.FuelOnly
  | CutReason.SoftRev => CommonCutReason.SoftRev
  | CutReason.SparkOnly => CommonCutReason.SparkOnly
  | CutReason.KnockRetard => CommonCutReason.KnockRetard
  end.

Lemma fuel_cut_reason_agrees (s : RuntimeSnapshot.t) :
  RuntimeSnapshot.fuel_cut s = true -> RuntimeSnapshot.direct_spark_cut_request s = false ->
  common_fuel_cut_reason s = common_cut_reason_of (CutObservations.reason (extract_cut_observations s))
  \/ (RuntimeSnapshot.spark_cut s = true /\ common_fuel_cut_reason s = CommonCutReason.None_
      /\ CutObservations.reason (extract_cut_observations s) = CutReason.SparkOnly).
Proof.
  intros Hf Hs. unfold common_fuel_cut_reason, extract_cut_observations. cbn [CutObservations.reason]. rewrite Hf, Hs, orb_false_r.
  cbn [negb]. repeat (case_match; cbn in *; try (by left); try congruence).
  all: first [by left|right; split_and!; congruence].
Qed.

Lemma spark_cut_reason_agrees (s : RuntimeSnapshot.t) :
  RuntimeSnapshot.spark_cut s = true -> RuntimeSnapshot.fuel_cut s = false -> RuntimeSnapshot.direct_fuel_cut_request s = false ->
  common_spark_cut_reason s = common_cut_reason_of (CutObservations.reason (extract_cut_observations s)).
Proof.
  intros Hs Hf Hd. unfold common_spark_cut_reason, extract_cut_observations. cbn [CutObservations.reason].
  rewrite Hf, Hs, Hd. cbn [negb orb andb]. repeat (case_match; cbn in *; try done; try congruence).
Qed.
