(* ===== verification/BoardAdapter.v ===== *)
(** * The board adapter (boards/common/src/adapter.rs)

    The object that composes a board: the runtime engine, the ports it drives (sensor,
    capture, action executor, watchdog, transport, calibration store), the inputs collected
    for the next step, the telemetry of the last one, and the diagnostics.  Board events
    update the inputs; a tick steps the runtime, delivers its actions and watches the sensors
    for faults, whose events go to the log and to the retained history.  An operation is
    partial ([None]) where its arithmetic or a port's may overflow.  The two observability
    traces are in [BoardTrace]. *)
From S2P Require Import Prelude Domain BoardApi Lowering SemanticFuel Calibration Engine EngineStep KvStore CanTypes CanObd2.
From S2P Require Import BoardInputs Obd2History Obd2Snapshot Obd2Service Observations BoardTelemetry.

Definition OIL_PRESSURE_MIN_KPA10 : Z := 1000.
Definition FUEL_PRESSURE_MIN_KPA10 : Z := 2500.
(** crates/compat/src/constants.rs *)
Definition BROWNOUT_CRITICAL_MV : Z := 8000.
Definition OVERVOLTAGE_MV : Z := 16500.

(** ** Ports *)
Class CaptureSink (C E : Type) := capture_sample : CaptureSample.t -> C -> C * Result unit E.
(** [None] is a panic of the executor. *)
Class ActionExecutor (A E : Type) := execute : Action.t -> A -> option (A * Result unit E).
Class Watchdog (W E : Type) := feed : W -> W * Result unit E.
Class TransportPublisher (T E : Type) := publish_snapshot : RuntimeSnapshot.t -> T -> T * Result unit E.
Class PersistedCalibrationStore (P E : Type) := save : PersistedCalibrationBlob.t -> P -> P * Result unit E.

Module BoardEvent.
Inductive t :=
| TriggerEdge (at_us rpm angle_x10 : Z) (authority : EngineTimeAuthority.t) (synced : bool)
| CamEdge (at_us : Z) (cam_seen : bool)
| SensorSnapshotCapture (capture : BoardSensorSnapshotCapture.t)
| PressureSnapshot (now_us oil_pressure_kpa10 fuel_pressure_kpa10 : Z) (oil_valid fuel_valid : bool)
| Tick (now_us : Z) (control : ControlInputs.t).
End BoardEvent.

Module BoardAdapterError.
Inductive t (ES EC EA EW ET EP : Type) :=
| Sensor (e : ES) | Capture (e : EC) | Action (e : EA) | Watchdog (e : EW) | Transport (e : ET) | Persistence (e : EP).
Arguments Sensor {ES EC EA EW ET EP} e.
Arguments Capture {ES EC EA EW ET EP} e.
Arguments Action {ES EC EA EW ET EP} e.
Arguments Watchdog {ES EC EA EW ET EP} e.
Arguments Transport {ES EC EA EW ET EP} e.
Arguments Persistence {ES EC EA EW ET EP} e.
End BoardAdapterError.

(** ** The detectors of live faults *)
Module SharedDiagLatchState.
Record t := mk { active : bool; start_us : Z; in_range_since_us : Z; total_us : Z }.
#[global] Instance eta : Eta t := fun l => mk (active l) (start_us l) (in_range_since_us l) (total_us l).
Definition default : t := mk false 0 0 0.
Definition latch (since : Z) (l : t) : t :=
  l <| active := true |> <| start_us := since |> <| in_range_since_us := 0 |>.
Definition clear (l : t) : t := l <| active := false |>.
End SharedDiagLatchState.

Module SharedLiveDiagState.
Record t := mk {
  low_voltage_active : bool; overvoltage_active : bool; knock_active : bool; oil_pressure_low_active : bool;
  fuel_pressure_low_active : bool; lambda_invalid_active : bool; map_range : SharedDiagLatchState.t;
  tps_range : SharedDiagLatchState.t }.
#[global] Instance eta : Eta t := fun d => mk (low_voltage_active d) (overvoltage_active d) (knock_active d)
  (oil_pressure_low_active d) (fuel_pressure_low_active d) (lambda_invalid_active d) (map_range d) (tps_range d).
Definition default : t := mk false false false false false false SharedDiagLatchState.default SharedDiagLatchState.default.
End SharedLiveDiagState.

Module SharedSensorLimits.
Record t := mk {
  map_min_kpa_x10 : Z; map_max_kpa_x10 : Z; tps_min_percent : Z; tps_max_percent : Z; clear_time_s : Z }.
Definition default : t := mk 100 3000 0 100 3.
End SharedSensorLimits.

Definition shared_live_diag_event (code : DiagCode.t) (timestamp : Z) (source : DiagSource.t) (context : option Z) : DiagEvent.t :=
  DiagEvent.mk code timestamp source context timestamp 0.

Definition shared_live_knock_threshold_x100 (strategy : RuntimeFuelStrategy.t) : option Z :=
  match strategy with
  | RuntimeFuelStrategy.DirectPulseWidthTable _ => None
  | RuntimeFuelStrategy.SpeedDensityVe calibration _ | RuntimeFuelStrategy.AlphaN calibration _
  | RuntimeFuelStrategy.Maf calibration _ => Some (SemanticFuel.Calibration.knock_threshold_x100 calibration)
  end.

(** One of the two range detectors of [observe_shared_sensor_recovery_sources]: the latch and
    the event to log.  The total that is written is reset with the latch. *)
Definition observe_range (code : DiagCode.t) (now_us raw lo hi clear_time_us : Z) (latch : SharedDiagLatchState.t) :
    SharedDiagLatchState.t * option DiagEvent.t :=
  if (raw <? lo) || (hi <? raw) then
    (if negb (SharedDiagLatchState.active latch) then SharedDiagLatchState.latch now_us latch else latch, None)
  else if SharedDiagLatchState.active latch then
    let latch :=
      if SharedDiagLatchState.in_range_since_us latch =? 0
      then latch <| SharedDiagLatchState.in_range_since_us := now_us |> else latch in
    if clear_time_us <=? wrapping_sub 32 now_us (SharedDiagLatchState.in_range_since_us latch) then
      (SharedDiagLatchState.default,
        Some (DiagEvent.mk code now_us DiagSource.Sensor (Some raw) (SharedDiagLatchState.start_us latch) now_us))
    else (latch, None)
  else (latch, None).

(** One of the detectors of a condition: an event when it begins. *)
Definition observe_condition (code : DiagCode.t) (now_us value : Z) (was active : bool) : option DiagEvent.t :=
  if active && negb was then Some (shared_live_diag_event code now_us DiagSource.Sensor (Some value)) else None.

(** ** The adapter *)
Definition initial_inputs : AuthorityStepInputs.t :=
  AuthorityStepInputs.mk 0 0 0 0 EngineTimeAuthority.none false false false.

#[export] Instance pending_eta : Eta AuthorityStepInputs.t := fun i =>
  AuthorityStepInputs.mk (AuthorityStepInputs.now_us i) (AuthorityStepInputs.rpm i) (AuthorityStepInputs.load_kpa10 i)
    (AuthorityStepInputs.angle_x10 i) (AuthorityStepInputs.authority i) (AuthorityStepInputs.launch_armed i)
    (AuthorityStepInputs.flat_shift_armed i) (AuthorityStepInputs.safety_latch_request i).
#[export] Instance fault_state_eq_dec : EqDecision FaultState.t.
Proof. solve_decision. Defined.

Module CommonTriggerEdgeTelemetry.
Record t := mk { seen : bool; at_us : Z; rpm : Z; angle_x10 : Z; authority : EngineTimeAuthority.t; synced : bool }.
Definition default : t := mk false 0 0 0 EngineTimeAuthority.none false.
End CommonTriggerEdgeTelemetry.
Module CommonCamEdgeTelemetry.
Record t := mk { seen : bool; at_us : Z; cam_seen : bool }.
Definition default : t := mk false 0 false.
End CommonCamEdgeTelemetry.

Module BoardAdapter.
(** [telemetry] stands for the eleven fields that a tick copies from its step. *)
Record t {Sen Cap Act Dog Pub Sto : Type} := mk {
  runtime : EngineRuntime.t; sensor : Sen; capture : Cap; actions : Act; watchdog : Dog; transport : Pub; store : Sto;
  pending_inputs : AuthorityStepInputs.t; telemetry : StepTelemetry.t; fault_transition : FaultTransition.t;
  staged_dirty : bool; trigger_edge : CommonTriggerEdgeTelemetry.t; cam_edge : CommonCamEdgeTelemetry.t;
  captured : option CaptureSample.t; logical_sensor_capture : option BoardSensorSnapshotCapture.t; diag_log : DiagLog.t;
  store_integrity_latched : bool; retained_obd2_history : RetainedHistory.t; provisioned_identity : ProvisionedIdentity.t;
  identity_key_lifecycle_status : option CanObd2IdentityKeyLifecycleStatus.t;
  flash_write_fault_status : option CanObd2FlashWriteFaultStatus.t; shared_live_diag_state : SharedLiveDiagState.t;
  sensor_limits : SharedSensorLimits.t }.
Arguments t : clear implicits.
#[global] Instance eta {Sen Cap Act Dog Pub Sto} : Eta (t Sen Cap Act Dog Pub Sto) := fun a =>
  mk _ _ _ _ _ _ (runtime a) (sensor a) (capture a) (actions a) (watchdog a) (transport a) (store a) (pending_inputs a)
    (telemetry a) (fault_transition a) (staged_dirty a) (trigger_edge a) (cam_edge a) (captured a)
    (logical_sensor_capture a) (diag_log a) (store_integrity_latched a) (retained_obd2_history a) (provisioned_identity a)
    (identity_key_lifecycle_status a) (flash_write_fault_status a) (shared_live_diag_state a) (sensor_limits a).
Arguments mk {Sen Cap Act Dog Pub Sto}.

Section ops.
Context {Sen Cap Act Dog Pub Sto : Type}.
Abbreviation adapter := (t Sen Cap Act Dog Pub Sto).

(** It fails if the default sensor message does, which it does not. *)
Definition new (sensor : Sen) (capture : Cap) (actions : Act) (watchdog : Dog) (transport : Pub) (store : Sto) :
    option adapter :=
  data ← obd2_current_data_from_board_inputs None None;
  Some (mk Engine.new sensor capture actions watchdog transport store initial_inputs StepTelemetry.default
    FaultTransition.default false CommonTriggerEdgeTelemetry.default CommonCamEdgeTelemetry.default None None
    (DiagLog.new DIAG_LOG_ENTRY_COUNT) false (RetainedHistory.new data) ProvisionedIdentity.default
    (Some CanObd2IdentityKeyLifecycleStatus.absent) None SharedLiveDiagState.default SharedSensorLimits.default).

Definition fault_state (a : adapter) : FaultState.t := RuntimeSnapshot.faults (EngineRuntime.runtime_snapshot (runtime a)).
Definition sync_state (a : adapter) : SplitSyncState.t :=
  SplitSyncState.from_authority (EngineState.engine_time_authority (EngineRuntime.engine (runtime a))).
Definition calibration_package_identity (a : adapter) : PackageIdentity.t :=
  PackageIdentity.from_snapshot_with_staged_dirty (EngineRuntime.calibration_snapshot (runtime a)) (staged_dirty a).
Definition set_provisioned_obd2_identity (identity : ProvisionedIdentity.t) (a : adapter) : adapter :=
  a <| provisioned_identity := identity |>.
Definition install_provisioned_obd2_identity_record (record : ProvisionedIdentity.t) : adapter -> adapter :=
  set_provisioned_obd2_identity (ProvisionedIdentity.into_provisioned_identity record).
Definition set_obd2_identity_key_lifecycle_status (status : option CanObd2IdentityKeyLifecycleStatus.t) (a : adapter) : adapter :=
  a <| identity_key_lifecycle_status := status |>.
Definition set_obd2_flash_write_fault_status (status : option CanObd2FlashWriteFaultStatus.t) (a : adapter) : adapter :=
  a <| flash_write_fault_status := status |>.

(** *** Diagnostics *)
Definition current_obd2_value_source (a : adapter) : option Message.t :=
  obd2_current_data_from_board_inputs (logical_sensor_capture a) (captured a).
Definition current_obd2_diag_event_from_live_fault (a : adapter) : option (option DiagEvent.t) :=
  data ← current_obd2_value_source a;
  Some (obd2_diag_event_from_runtime_fault (fault_state a) data).
Definition current_obd2_recent_diag_events (a : adapter) : option (list (option DiagEvent.t)) :=
  data ← current_obd2_value_source a;
  Some [obd2_diag_event_from_fault_transition (fault_transition a) data; None].

Definition reseed_obd2_retained_history_from_live_state (a : adapter) : option adapter :=
  data ← current_obd2_value_source a;
  live ← current_obd2_diag_event_from_live_fault a;
  recent ← current_obd2_recent_diag_events a;
  Some (a <| retained_obd2_history ::= RetainedHistory.observe_live_diagnostic (fault_state a) live
    (obd2_diag_log_events_array (diag_log a)) recent data |>).

Definition push_shared_diag_log_event (event : DiagEvent.t) (a : adapter) : option adapter :=
  log ← DiagLog.push event (diag_log a);
  reseed_obd2_retained_history_from_live_state (a <| diag_log := log |>).
Definition push_live_diag_event : DiagEvent.t -> adapter -> option adapter := push_shared_diag_log_event.

(** The event of a detector, if it has one. *)
Definition push_detected (event : option DiagEvent.t) (a : adapter) : option adapter :=
  match event with Some e => push_shared_diag_log_event e a | None => Some a end.

Definition record_store_integrity_status (status : StoreIntegrityStatus.t) (a : adapter) : option adapter :=
  if store_integrity_latched a then Some a
  else
    match status with
    | StoreIntegrityStatus.Corrupt | StoreIntegrityStatus.ValidWithCorruptSibling =>
      a ← push_live_diag_event (DiagEvent.mk DiagCode.PersistCrcFault 0 DiagSource.User None 0 0) a;
      Some (a <| store_integrity_latched := true |>)
    | _ => Some a
    end.

Definition log_entries (a : adapter) : nat := length (omap id (DiagLog.events (diag_log a))).

Definition clear_diagnostics (a : adapter) : adapter * DiagClearSummary.t :=
  let summary := DiagClearSummary.mk (Z.b2z (negb (bool_decide (FaultState.fault (fault_state a) = FaultCode.None))))
    (as_unsigned 8 (Z.of_nat (log_entries a))) false in
  (a <| runtime ::= set_fault_state FaultCode.None FaultSeverity.Info CancelReason.Manual |>
     <| diag_log := DiagLog.new DIAG_LOG_ENTRY_COUNT |> <| store_integrity_latched := false |>
     <| retained_obd2_history ::= RetainedHistory.clear |> <| shared_live_diag_state := SharedLiveDiagState.default |>,
   summary).

Definition observe_shared_sensor_recovery_sources (now_us : Z) (snapshot : BoardSensorSnapshot.t) (a : adapter) : option adapter :=
  let lim := sensor_limits a in
  let raw_map_kpa_x10 := BoardSensorSnapshot.map_kpa10 snapshot in
  let raw_tps_percent := as_unsigned 8 (Z.min (BoardSensorSnapshot.tps_x100 snapshot / 100) u8_max) in
  clear_time_us ← chk 32 (SharedSensorLimits.clear_time_s lim * 1000000);
  let '(map_range, map_event) := observe_range DiagCode.MapRange now_us raw_map_kpa_x10
    (SharedSensorLimits.map_min_kpa_x10 lim) (SharedSensorLimits.map_max_kpa_x10 lim) clear_time_us
    (SharedLiveDiagState.map_range (shared_live_diag_state a)) in
  a ← push_detected map_event (a <| shared_live_diag_state ::= fun d => d <| SharedLiveDiagState.map_range := map_range |> |>);
  let '(tps_range, tps_event) := observe_range DiagCode.TpsRange now_us raw_tps_percent
    (SharedSensorLimits.tps_min_percent lim) (SharedSensorLimits.tps_max_percent lim) clear_time_us
    (SharedLiveDiagState.tps_range (shared_live_diag_state a)) in
  push_detected tps_event (a <| shared_live_diag_state ::= fun d => d <| SharedLiveDiagState.tps_range := tps_range |> |>).

Definition knock_detected (snapshot : BoardSensorSnapshot.t) (a : adapter) : bool :=
  BoardSensorValidityFlags.contains (BoardSensorSnapshot.validity snapshot) BoardSensorValidityFlags.KNOCK
  && match shared_live_knock_threshold_x100 (ControlPlannerState.fuel_strategy (EngineRuntime.planners (runtime a))) with
     | Some threshold => threshold <=? BoardSensorSnapshot.knock_x100 snapshot
     | None => false
     end.

Definition observe_shared_live_diag_sources (now_us : Z) (a : adapter) : option adapter :=
  match logical_sensor_capture a with
  | None => Some a
  | Some capture =>
    let snapshot := BoardSensorSnapshotCapture.snapshot capture in
    let vbatt := BoardSensorSnapshot.vbatt_mv snapshot in
    a ← observe_shared_sensor_recovery_sources now_us snapshot a;
    let low := (0 <? vbatt) && (vbatt <? BROWNOUT_CRITICAL_MV) in
    a ← push_detected (observe_condition DiagCode.LowVoltage now_us vbatt
      (SharedLiveDiagState.low_voltage_active (shared_live_diag_state a)) low) a;
    let a := a <| shared_live_diag_state ::= fun d => d <| SharedLiveDiagState.low_voltage_active := low |> |> in
    let high := OVERVOLTAGE_MV <? vbatt in
    a ← push_detected (observe_condition DiagCode.Overvoltage now_us vbatt
      (SharedLiveDiagState.overvoltage_active (shared_live_diag_state a)) high) a;
    let a := a <| shared_live_diag_state ::= fun d => d <| SharedLiveDiagState.overvoltage_active := high |> |> in
    let knock := knock_detected snapshot a in
    a ← push_detected (observe_condition DiagCode.KnockDetected now_us (BoardSensorSnapshot.knock_x100 snapshot)
      (SharedLiveDiagState.knock_active (shared_live_diag_state a)) knock) a;
    let a := a <| shared_live_diag_state ::= fun d => d <| SharedLiveDiagState.knock_active := knock |> |> in
    let invalid := (0 <? BoardSensorSnapshot.lambda_x100 snapshot)
      && negb (BoardSensorValidityFlags.contains (BoardSensorSnapshot.validity snapshot) BoardSensorValidityFlags.LAMBDA) in
    a ← push_detected (observe_condition DiagCode.LambdaInvalid now_us (BoardSensorSnapshot.lambda_x100 snapshot)
      (SharedLiveDiagState.lambda_invalid_active (shared_live_diag_state a)) invalid) a;
    Some (a <| shared_live_diag_state ::= fun d => d <| SharedLiveDiagState.lambda_invalid_active := invalid |> |>)
  end.

Definition observe_shared_pressure_diag_sources (now_us oil_pressure_kpa10 fuel_pressure_kpa10 : Z)
    (oil_valid fuel_valid : bool) (a : adapter) : option adapter :=
  let oil := oil_valid && (oil_pressure_kpa10 <? OIL_PRESSURE_MIN_KPA10) in
  a ← push_detected (observe_condition DiagCode.OilPressureLow now_us oil_pressure_kpa10
    (SharedLiveDiagState.oil_pressure_low_active (shared_live_diag_state a)) oil) a;
  let a := a <| shared_live_diag_state ::= fun d => d <| SharedLiveDiagState.oil_pressure_low_active := oil |> |> in
  let fuel := fuel_valid && (fuel_pressure_kpa10 <? FUEL_PRESSURE_MIN_KPA10) in
  a ← push_detected (observe_condition DiagCode.FuelPressureLow now_us fuel_pressure_kpa10
    (SharedLiveDiagState.fuel_pressure_low_active (shared_live_diag_state a)) fuel) a;
  Some (a <| shared_live_diag_state ::= fun d => d <| SharedLiveDiagState.fuel_pressure_low_active := fuel |> |>).

Definition push_fault_transition_live_diag_event (a : adapter) : option adapter :=
  data ← current_obd2_value_source a;
  push_detected (obd2_diag_event_from_fault_transition (fault_transition a) data) a.

(** *** Configuration *)
Definition configure_fuel_model (fuel_model : Control.BaseFuelModel.t) (a : adapter) : adapter :=
  a <| runtime ::= Engine.configure_fuel_model fuel_model |>.
Definition configure_speed_density_semantic (calibration : SemanticFuel.Calibration.t) (state : SemanticFuel.FuelState.t)
    (a : adapter) : adapter :=
  a <| runtime ::= Engine.configure_speed_density_ve calibration state |>.
Definition configure_runtime_fuel_strategy (strategy : RuntimeFuelStrategy.t) (a : adapter) : adapter :=
  a <| runtime ::= Engine.configure_runtime_fuel_model strategy |>.
Definition set_staged_dirty (dirty : bool) (a : adapter) : adapter :=
  a <| staged_dirty := dirty |> <| runtime ::= Engine.set_staged_dirty dirty |>.
Definition set_shift_arming (launch_armed flat_shift_armed : bool) (a : adapter) : adapter :=
  a <| pending_inputs ::= fun i =>
         (i <| AuthorityStepInputs.launch_armed := launch_armed |>) <| AuthorityStepInputs.flat_shift_armed := flat_shift_armed |> |>.

(** The sample's time, speed, load and angle as inputs of the next step. *)
Definition pend_sample (sample : CaptureSample.t) (i : AuthorityStepInputs.t) : AuthorityStepInputs.t :=
  i <| AuthorityStepInputs.now_us := CaptureSample.at_us sample |> <| AuthorityStepInputs.rpm := CaptureSample.rpm sample |>
    <| AuthorityStepInputs.load_kpa10 := CaptureSample.load_kpa10 sample |>
    <| AuthorityStepInputs.angle_x10 := CaptureSample.angle_x10 sample |>.
End ops.

(** *** Events *)
Section events.
Context {Sen Cap Act Dog Pub Sto ES EC EA EW ET EP : Type}.
Context `{!SampleSource Sen ES, !CaptureSink Cap EC, !ActionExecutor Act EA, !Watchdog Dog EW, !TransportPublisher Pub ET,
  !PersistedCalibrationStore Sto EP}.
Abbreviation adapter := (t Sen Cap Act Dog Pub Sto).
Abbreviation error := (BoardAdapterError.t ES EC EA EW ET EP).

(** [self.capture.capture(sample)?] *)
Definition capture_into (sample : CaptureSample.t) (a : adapter) : adapter * Result unit error :=
  match capture_sample sample (capture a) with
  | (c, Ok _) => (a <| capture := c |>, Ok tt)
  | (c, Err e) => (a <| capture := c |>, Err (BoardAdapterError.Capture e))
  end.

Definition poll_sensor (a : adapter) : adapter * Result CaptureSample.t error :=
  match BoardInputs.sample (sensor a) with
  | (s, Err e) => (a <| sensor := s |>, Err (BoardAdapterError.Sensor e))
  | (s, Ok sample) =>
    let a := a <| sensor := s |> <| pending_inputs ::= pend_sample sample |> <| captured := Some sample |> in
    match capture_into sample a with
    | (a, Ok _) => (a, Ok sample)
    | (a, Err e) => (a, Err e)
    end
  end.

Definition on_trigger_edge (at_us rpm angle_x10 : Z) (authority : EngineTimeAuthority.t) (synced : bool) (a : adapter) :
    adapter * Result unit error :=
  let load_kpa10 := EngineState.load_kpa10 (RuntimeSnapshot.engine (EngineRuntime.runtime_snapshot (runtime a))) in
  let sample := CaptureSample.mk at_us rpm load_kpa10 angle_x10 in
  let a := a <| pending_inputs ::= fun i =>
      i <| AuthorityStepInputs.now_us := at_us |> <| AuthorityStepInputs.rpm := rpm |>
        <| AuthorityStepInputs.angle_x10 := angle_x10 |> <| AuthorityStepInputs.authority := authority |> |>
    <| trigger_edge := CommonTriggerEdgeTelemetry.mk true at_us rpm angle_x10 authority synced |>
    <| captured := Some sample |> in
  match capture_into sample a with
  | (a, Err e) => (a, Err e)
  | (a, Ok _) =>
    (a <| runtime ::= fun r => set_engine_time_authority authority (apply_sensor_sample rpm load_kpa10 angle_x10 r) |>, Ok tt)
  end.

Definition on_cam_edge (at_us : Z) (cam_seen : bool) (a : adapter) : adapter :=
  let a := a <| pending_inputs ::= fun i => i <| AuthorityStepInputs.now_us := at_us |> |>
    <| cam_edge := CommonCamEdgeTelemetry.mk true at_us cam_seen |>
    <| runtime ::= apply_decoder_observation (DecoderObservation.Cam at_us cam_seen) |> in
  a <| pending_inputs ::= fun i =>
    i <| AuthorityStepInputs.authority := EngineState.engine_time_authority (EngineRuntime.engine (runtime a)) |> |>.

Definition on_sensor_snapshot (c : BoardSensorSnapshotCapture.t) (a : adapter) : adapter * Result unit error :=
  let sample := map_speed_density_capture_sample c in
  capture_into sample
    (a <| captured := Some sample |> <| logical_sensor_capture := Some c |> <| pending_inputs ::= pend_sample sample |>
       <| runtime ::= apply_sensor_sample (CaptureSample.rpm sample) (CaptureSample.load_kpa10 sample)
            (CaptureSample.angle_x10 sample) |>).

(** The loop of [execute_step]. *)
Fixpoint execute_actions (todo : list Action.t) (a : adapter) : option (adapter * Result unit error) :=
  match todo with
  | [] => Some (a, Ok tt)
  | Action.PublishSnapshot :: todo =>
    match publish_snapshot (EngineRuntime.runtime_snapshot (runtime a)) (transport a) with
    | (t, Ok _) => execute_actions todo (a <| transport := t |>)
    | (t, Err e) => Some (a <| transport := t |>, Err (BoardAdapterError.Transport e))
    end
  | Action.PersistCalibration :: todo =>
    match save (PersistedCalibrationBlob.new (EngineRuntime.calibration_snapshot (runtime a))) (store a) with
    | (s, Ok _) => execute_actions todo (a <| store := s |>)
    | (s, Err e) => Some (a <| store := s |>, Err (BoardAdapterError.Persistence e))
    end
  | Action.Idle :: todo => execute_actions todo a
  | other :: todo =>
    '(x, r) ← execute other (actions a);
    match r with
    | Ok _ => execute_actions todo (a <| actions := x |>)
    | Err e => Some (a <| actions := x |>, Err (BoardAdapterError.Action e))
    end
  end.

Definition execute_step (result : StepResult.t) (a : adapter) : option (adapter * Result unit error) :=
  '(a, r) ← execute_actions (ActionBatch.iter (StepResult.actions result)) a;
  match r with
  | Err e => Some (a, Err e)
  | Ok _ =>
    match feed (watchdog a) with
    | (w, Ok _) => Some (a <| watchdog := w |>, Ok tt)
    | (w, Err e) => Some (a <| watchdog := w |>, Err (BoardAdapterError.Watchdog e))
    end
  end.

(** What a tick does after its step, from the fault state before it. *)
Definition note_fault_transition (now_us : Z) (pre_step_fault_state : FaultState.t) (a : adapter) : option adapter :=
  let post_step_fault_state := fault_state a in
  let cached_fault_state :=
    if FaultTransition.changed (fault_transition a) then FaultTransition.current (fault_transition a) else FaultState.initial in
  if negb (bool_decide (post_step_fault_state = pre_step_fault_state))
     || negb (bool_decide (post_step_fault_state = cached_fault_state)) then
    let previous_fault_state :=
      if negb (bool_decide (post_step_fault_state = pre_step_fault_state)) then pre_step_fault_state else cached_fault_state in
    push_fault_transition_live_diag_event
      (a <| fault_transition := FaultTransition.mk true now_us
              (common_fault_transition_event previous_fault_state post_step_fault_state)
              previous_fault_state post_step_fault_state |>)
  else Some a.

Definition on_tick (now_us : Z) (control : ControlInputs.t) (a : adapter) :
    option (adapter * Result StepResult.t error) :=
  let a := a <| pending_inputs ::= fun i => i <| AuthorityStepInputs.now_us := now_us |> |> in
  let pre_step_fault_state := fault_state a in
  '(r, result) ← step_with_authority (pending_inputs a) control (runtime a);
  '(a, executed) ← execute_step result (a <| runtime := r |>);
  match executed with
  | Err e => Some (a, Err e)
  | Ok _ =>
    a ← observe_shared_live_diag_sources now_us a;
    a ← note_fault_transition now_us pre_step_fault_state a;
    shown ← StepTelemetry.of_step result control;
    Some (a <| telemetry := shown |>, Ok result)
  end.

Definition done (r : adapter * Result unit error) : option (adapter * Result (option StepResult.t) error) :=
  Some (r.1, match r.2 with Ok _ => Ok None | Err e => Err e end).

Definition apply_event (event : BoardEvent.t) (a : adapter) : option (adapter * Result (option StepResult.t) error) :=
  match event with
  | BoardEvent.TriggerEdge at_us rpm angle_x10 authority synced => done (on_trigger_edge at_us rpm angle_x10 authority synced a)
  | BoardEvent.CamEdge at_us cam_seen => Some (on_cam_edge at_us cam_seen a, Ok None)
  | BoardEvent.SensorSnapshotCapture c => done (on_sensor_snapshot c a)
  | BoardEvent.PressureSnapshot now_us oil_pressure_kpa10 fuel_pressure_kpa10 oil_valid fuel_valid =>
    a ← observe_shared_pressure_diag_sources now_us oil_pressure_kpa10 fuel_pressure_kpa10 oil_valid fuel_valid
      (a <| pending_inputs ::= fun i => i <| AuthorityStepInputs.now_us := now_us |> |>);
    Some (a, Ok None)
  | BoardEvent.Tick now_us control =>
    '(a, r) ← on_tick now_us control a;
    Some (a, match r with Ok result => Ok (Some result) | Err e => Err e end)
  end.
End events.
End BoardAdapter.

(** ** The adapter as the owner that the services on the bus use *)
#[export] Instance board_clear_owner {Sen Cap Act Dog Pub Sto} : DiagnosticClearOwner (BoardAdapter.t Sen Cap Act Dog Pub Sto) :=
  BoardAdapter.clear_diagnostics.

#[export] Instance board_request_owner {Sen Cap Act Dog Pub Sto} :
    LiveObd2RequestOwner (BoardAdapter.t Sen Cap Act Dog Pub Sto) := {
  fault_state := BoardAdapter.fault_state;
  current_obd2_sensor_data := BoardAdapter.current_obd2_value_source;
  obd2_retained_history := BoardAdapter.retained_obd2_history;
  set_obd2_retained_history := fun h a => a <| BoardAdapter.retained_obd2_history := h |>;
  current_obd2_diag_event := BoardAdapter.current_obd2_diag_event_from_live_fault;
  obd2_diag_log_events := fun a => obd2_diag_log_events_array (BoardAdapter.diag_log a);
  recent_obd2_diag_events := BoardAdapter.current_obd2_recent_diag_events;
  fallback_obd2_vehicle_identity := fun a =>
    Obd2VehicleIdentity.from_calibration_identity (BoardAdapter.calibration_package_identity a);
  provisioned_obd2_identity := BoardAdapter.provisioned_identity;
  obd2_identity_key_lifecycle_status := BoardAdapter.identity_key_lifecycle_status;
  obd2_flash_write_fault_status := BoardAdapter.flash_write_fault_status }.

#[export] Instance board_history_owner {Sen Cap Act Dog Pub Sto} : HistoryOwner (BoardAdapter.t Sen Cap Act Dog Pub Sto) := {
  owner_snapshot := fun a => RetainedHistory.snapshot (BoardAdapter.retained_obd2_history a);
  owner_restore := fun s a => a <| BoardAdapter.retained_obd2_history ::= RetainedHistory.restore_from_snapshot s |> }.
