(* ===== verification/BoardRun.v ===== *)
(** * Runs of the board adapter

    What a board does over any sequence of the calls made on its adapter: which of its ports
    an event drives and how ([Ports]), what its engine can become, and which diagnostic events
    it logs and retains.  The specification of the diagnostics ([expected]) is a function of
    the history of what was observed: a condition is reported when it begins, an excursion
    when it has been over for the clear time. *)
From S2P Require Import Prelude Domain BoardApi Lowering Control SemanticFuel Calibration Engine EngineStep EngineRun KvStore CanTypes CanObd2.
From S2P Require Import BoardInputs Obd2History Obd2Snapshot Obd2Service Observations BoardTelemetry BoardAdapter.
Import BoardAdapter.

(** ** Observations

    What the detectors look at: a tick with a sensor capture, a pressure reading, an event from
    outside, the state of the store; and what else the diagnostics depend on: a request on the
    bus, the clear of the diagnostics, and a history restored from a snapshot. *)
Module Obs.
Inductive t :=
| Sample (now_us : Z) (snapshot : BoardSensorSnapshot.t) (knock_threshold : option Z)
| Pressure (now_us oil_pressure_kpa10 fuel_pressure_kpa10 : Z) (oil_valid fuel_valid : bool)
| External (e : DiagEvent.t)
| Store (damaged : bool)
| Asked
| Clear
| Restored (snapshot : RetainedHistory.t).
End Obs.

(** *** Conditions: the time, the value and whether the condition holds *)
Definition low_voltage (o : Obs.t) : option (Z * Z * bool) :=
  match o with
  | Obs.Sample now s _ => Some (now, BoardSensorSnapshot.vbatt_mv s,
      (0 <? BoardSensorSnapshot.vbatt_mv s) && (BoardSensorSnapshot.vbatt_mv s <? BROWNOUT_CRITICAL_MV))
  | _ => None
  end.
Definition overvoltage (o : Obs.t) : option (Z * Z * bool) :=
  match o with
  | Obs.Sample now s _ => Some (now, BoardSensorSnapshot.vbatt_mv s, OVERVOLTAGE_MV <? BoardSensorSnapshot.vbatt_mv s)
  | _ => None
  end.
Definition knocking (o : Obs.t) : option (Z * Z * bool) :=
  match o with
  | Obs.Sample now s threshold => Some (now, BoardSensorSnapshot.knock_x100 s,
      BoardSensorValidityFlags.contains (BoardSensorSnapshot.validity s) BoardSensorValidityFlags.KNOCK
      && match threshold with Some x => x <=? BoardSensorSnapshot.knock_x100 s | None => false end)
  | _ => None
  end.
Definition lambda_invalid (o : Obs.t) : option (Z * Z * bool) :=
  match o with
  | Obs.Sample now s _ => Some (now, BoardSensorSnapshot.lambda_x100 s,
      (0 <? BoardSensorSnapshot.lambda_x100 s)
      && negb (BoardSensorValidityFlags.contains (BoardSensorSnapshot.validity s) BoardSensorValidityFlags.LAMBDA))
  | _ => None
  end.
Definition oil_low (o : Obs.t) : option (Z * Z * bool) :=
  match o with
  | Obs.Pressure now oil _ valid _ => Some (now, oil, valid && (oil <? OIL_PRESSURE_MIN_KPA10))
  | _ => None
  end.
Definition fuel_low (o : Obs.t) : option (Z * Z * bool) :=
  match o with
  | Obs.Pressure now _ fuel _ valid => Some (now, fuel, valid && (fuel <? FUEL_PRESSURE_MIN_KPA10))
  | _ => None
  end.

(** Whether a condition held when it was last looked at. *)
Definition holds (condition : Obs.t -> option (Z * Z * bool)) (before : list Obs.t) : bool :=
  match last (omap condition before) with Some (_, _, b) => b | None => false end.

(** A condition is reported when it begins. *)
Definition begins (code : DiagCode.t) (condition : Obs.t -> option (Z * Z * bool)) (before : list Obs.t) (o : Obs.t) :
    list DiagEvent.t :=
  match condition o with
  | Some (now, value, true) =>
    if holds condition before then [] else [DiagEvent.mk code now DiagSource.Sensor (Some value) now 0]
  | _ => []
  end.

(** *** Excursions: the time, the value and whether it is within its range *)
Definition map_reading (o : Obs.t) : option (Z * Z * bool) :=
  match o with
  | Obs.Sample now s _ =>
    let raw := BoardSensorSnapshot.map_kpa10 s in Some (now, raw, (100 <=? raw) && (raw <=? 3000))
  | _ => None
  end.
Definition tps_reading (o : Obs.t) : option (Z * Z * bool) :=
  match o with
  | Obs.Sample now s _ =>
    let raw := as_unsigned 8 (Z.min (BoardSensorSnapshot.tps_x100 s / 100) u8_max) in Some (now, raw, (0 <=? raw) && (raw <=? 100))
  | _ => None
  end.

Definition CLEAR_TIME_US : Z := 3000000.

(** The excursion under way: when it began, and the first reading within range after that
    (one at time zero does not count).  It ends when the readings have gone on for the clear
    time after that one; readings out of range in between do not matter. *)
Definition excursion_step (e : option (Z * option Z)) (r : Z * Z * bool) : option (Z * option Z) * bool :=
  let '(now, _, in_range) := r in
  match e, in_range with
  | None, true => (None, false)
  | None, false => (Some (now, None), false)
  | Some (start, since), false => (Some (start, since), false)
  | Some (start, since), true =>
    let since' := default now since in
    if CLEAR_TIME_US <=? wrapping_sub 32 now since' then (None, true)
    else (Some (start, if since' =? 0 then None else Some since'), false)
  end.
Definition excursion (readings : list (Z * Z * bool)) : option (Z * option Z) :=
  fold_left (fun e r => (excursion_step e r).1) readings None.
Definition ends (code : DiagCode.t) (reading : Obs.t -> option (Z * Z * bool)) (before : list Obs.t) (o : Obs.t) :
    list DiagEvent.t :=
  match reading o, excursion (omap reading before) with
  | Some (now, value, b), Some (start, since) =>
    if (excursion_step (Some (start, since)) (now, value, b)).2
    then [DiagEvent.mk code now DiagSource.Sensor (Some value) start now] else []
  | _, _ => []
  end.

(** *** The events that an observation causes, given those before it since the last clear *)
Definition damaged_store (o : Obs.t) : bool := match o with Obs.Store b => b | _ => false end.

Definition events_at (before : list Obs.t) (o : Obs.t) : list DiagEvent.t :=
  match o with
  | Obs.Sample _ _ _ =>
    ends DiagCode.MapRange map_reading before o ++ ends DiagCode.TpsRange tps_reading before o
    ++ begins DiagCode.LowVoltage low_voltage before o ++ begins DiagCode.Overvoltage overvoltage before o
    ++ begins DiagCode.KnockDetected knocking before o ++ begins DiagCode.LambdaInvalid lambda_invalid before o
  | Obs.Pressure _ _ _ _ _ =>
    begins DiagCode.OilPressureLow oil_low before o ++ begins DiagCode.FuelPressureLow fuel_low before o
  | Obs.External e => [e]
  | Obs.Store damaged =>
    if damaged && negb (existsb damaged_store before)
    then [DiagEvent.mk DiagCode.PersistCrcFault 0 DiagSource.User None 0 0] else []
  | Obs.Asked | Obs.Clear | Obs.Restored _ => []
  end.

(** An observation with the sensor data of its moment, if the data can be projected. *)
Definition Moment : Type := Obs.t * option Message.t.

(** *** What is retained

    The codes in the order they were first reported, and the first event with the data of its
    moment.  Nothing is ever added but by a look at the whole log. *)
Record Reported := mkReported { reported_codes : list DiagCode.t; reported_frame : option (DiagEvent.t * Message.t) }.
Definition nothing_reported : Reported := mkReported [] None.

Definition report (r : Reported) (x : DiagEvent.t * Message.t) : Reported :=
  mkReported (add_first (reported_codes r) (DiagEvent.code x.1))
    (match reported_frame r with Some f => Some f | None => Some x end).

(** The slots of the log after [events]: each holds the latest event that came to it. *)
Definition log_slots (N : nat) (events : list DiagEvent.t) : list (option DiagEvent.t) :=
  let n := length events in
  (fun j => if (n <=? j)%nat then None else events !! (n - 1 - (n - 1 - j) mod N)%nat) <$> seq 0 N.

(** A look at the log: the events still in it, in the order of its slots. *)
Definition look (data : Message.t) (events : list DiagEvent.t) (r : Reported) : Reported :=
  fold_left report ((., data) <$> omap id (log_slots DIAG_LOG_ENTRY_COUNT events)) r.

(** What a snapshot retains. *)
Definition reported_of (snapshot : RetainedHistory.t) : Reported :=
  mkReported (RetainedHistory.stored snapshot)
    (e ← RetainedHistory.freeze_frame_event snapshot; d ← RetainedHistory.freeze_frame_value_source snapshot; Some (e, d)).

(** The events since the last clear, with the data of their moments, and what is retained. *)
Definition Diagnosed : Type := list (DiagEvent.t * Message.t) * Reported.
Definition log_event (data : Message.t) (s : Diagnosed) (e : DiagEvent.t) : Diagnosed :=
  let events := s.1 ++ [(e, data)] in (events, look data events.*1 s.2).
Definition log_events (data : option Message.t) (es : list DiagEvent.t) (s : Diagnosed) : Diagnosed :=
  match data with Some d => fold_left (log_event d) es s | None => s end.

(** The observations since the last clear, and what they have led to. *)
Definition expected_step (s : list Obs.t * Diagnosed) (m : Moment) : list Obs.t * Diagnosed :=
  let '(before, d) := s in
  match m.1 with
  | Obs.Clear => ([], ([], nothing_reported))
  | Obs.Asked => (before, (d.1, match m.2 with Some data => look data d.1.*1 d.2 | None => d.2 end))
  | Obs.Restored snapshot => (before, (d.1, reported_of snapshot))
  | o => (before ++ [o], log_events m.2 (events_at before o) d)
  end.
Definition expected (ms : list Moment) : list Obs.t * Diagnosed := fold_left expected_step ms ([], ([], nothing_reported)).

(** ** Operations *)
Module BoardOp.
Inductive t :=
| Event (e : BoardEvent.t)
| PollSensor
| ClearDiagnostics
| Integrity (status : StoreIntegrityStatus.t)
| PushLive (e : DiagEvent.t)
| Serve
| Configure (strategy : RuntimeFuelStrategy.t)
| SetStagedDirty (dirty : bool)
| SetShiftArming (launch_armed flat_shift_armed : bool)
| Restore (snapshot : RetainedHistory.t)
| SetIdentity (identity : ProvisionedIdentity.t)
| SetKeyLifecycle (status : option CanObd2IdentityKeyLifecycleStatus.t)
| SetFlashFault (status : option CanObd2FlashWriteFaultStatus.t).
End BoardOp.

Section runs.
Context {Sen Cap Act Dog Pub Sto ES EC EA EW ET EP : Type}.
Context `{!SampleSource Sen ES, !CaptureSink Cap EC, !ActionExecutor Act EA, !Watchdog Dog EW, !TransportPublisher Pub ET,
  !PersistedCalibrationStore Sto EP}.
Abbreviation adapter := (BoardAdapter.t Sen Cap Act Dog Pub Sto).

Definition moment (o : Obs.t) (a : adapter) : Moment := (o, current_obd2_value_source a).

(** What a tick that has delivered its actions looks at. *)
Definition sample_moments (now_us : Z) (a : adapter) : list Moment :=
  match logical_sensor_capture a with
  | Some c => [moment (Obs.Sample now_us (BoardSensorSnapshotCapture.snapshot c)
      (shared_live_knock_threshold_x100 (ControlPlannerState.fuel_strategy (EngineRuntime.planners (runtime a))))) a]
  | None => []
  end.

(** An operation, its error aside, and what was observed. *)
Definition run_op (op : BoardOp.t) (a : adapter) : option (adapter * list Moment) :=
  match op with
  | BoardOp.Event e =>
    '(a', r) ← (apply_event e a : option (adapter * Result (option StepResult.t) (BoardAdapterError.t ES EC EA EW ET EP)));
    Some (a', match e, r with
              | BoardEvent.Tick now_us _, Ok _ => sample_moments now_us a'
              | BoardEvent.PressureSnapshot now oil fuel ov fv, _ => [moment (Obs.Pressure now oil fuel ov fv) a]
              | _, _ => []
              end)
  | BoardOp.PollSensor => Some ((poll_sensor a : adapter * Result CaptureSample.t (BoardAdapterError.t ES EC EA EW ET EP)).1, [])
  | BoardOp.ClearDiagnostics => Some ((clear_diagnostics a).1, [moment Obs.Clear a])
  | BoardOp.Integrity status =>
    a' ← record_store_integrity_status status a;
    Some (a', [moment (Obs.Store match status with
                 | StoreIntegrityStatus.Corrupt | StoreIntegrityStatus.ValidWithCorruptSibling => true | _ => false end) a])
  | BoardOp.PushLive e => a' ← push_live_diag_event e a; Some (a', [moment (Obs.External e) a])
  | BoardOp.Serve => a' ← Obd2MultiServiceTransportService.observe a; Some (a', [moment Obs.Asked a])
  | BoardOp.Configure strategy => Some (configure_runtime_fuel_strategy strategy a, [])
  | BoardOp.SetStagedDirty dirty => Some (set_staged_dirty dirty a, [])
  | BoardOp.SetShiftArming l f => Some (set_shift_arming l f a, [])
  | BoardOp.Restore snapshot => Some (owner_restore snapshot a, [moment (Obs.Restored snapshot) a])
  | BoardOp.SetIdentity identity => Some (set_provisioned_obd2_identity identity a, [])
  | BoardOp.SetKeyLifecycle status => Some (set_obd2_identity_key_lifecycle_status status a, [])
  | BoardOp.SetFlashFault status => Some (set_obd2_flash_write_fault_status status a, [])
  end.

Fixpoint run_ops (ops : list BoardOp.t) (a : adapter) : option (adapter * list Moment) :=
  match ops with
  | [] => Some (a, [])
  | op :: ops => '(a, ms) ← run_op op a; '(a, ms') ← run_ops ops a; Some (a, ms ++ ms')
  end.

End runs.

(** ** The engine of a board

    The calls that an adapter makes on its engine. *)
Definition board_call (op : EngineOp.t) : Prop :=
  match op with
  | EngineOp.ConfigureFuel _ | EngineOp.SetAuthority _ | EngineOp.SetStagedDirty _ | EngineOp.SensorSample _ _ _
  | EngineOp.Observe _ | EngineOp.StepAuthority _ _ => True
  | EngineOp.SetFault fault severity reason => FaultState.mk fault severity reason = FaultState.initial
  | _ => False
  end.

(** It has not been told of a fault nor given a calibration. *)
Record untouched (r : EngineRuntime.t) : Prop := {
  ut_faults : EngineRuntime.faults r = FaultState.initial;
  ut_shown : RuntimeSnapshot.faults (EngineRuntime.runtime_snapshot r) = FaultState.initial;
  ut_active : CalibrationState.active (EngineRuntime.calibration r) = CalibrationSnapshot.default;
  ut_calibration : EngineRuntime.calibration_snapshot r = CalibrationSnapshot.default
}.

Lemma untouched_new : untouched Engine.new.
Proof. by split. Qed.

Lemma refreshed_untouched r : EngineRuntime.faults r = FaultState.initial ->
  CalibrationState.active (EngineRuntime.calibration r) = CalibrationSnapshot.default -> untouched (refresh_snapshot r).
Proof. by split. Qed.

Lemma board_call_untouched op r r' acts : board_call op -> EngineOp.run op r = Some (r', acts) -> untouched r -> untouched r'.
Proof.
  intros Hc H [U1 U2 U3 U4]. destruct op; try done; cbn [EngineOp.run] in H.
  - apply quiet_eq in H as [-> _]. by split.
  - apply quiet_eq in H as [-> _]. by apply refreshed_untouched.
  - apply quiet_eq in H as [-> _]. by apply refreshed_untouched.
  - apply quiet_eq in H as [-> _]. by apply refreshed_untouched.
  - apply quiet_eq in H as [-> _]. by apply refreshed_untouched.
  - apply quiet_eq in H as [-> _]. destruct observation; by apply refreshed_untouched.
  - apply EngineOp.run_step_Some in H as (result & H & _). unfold step_with_authority in H.
    apply step_stepped in H as [(xs & _ & _ & Hf & _ & _ & _ & _ & _ & Hr) Hb].
    rewrite <- Hr. unfold base_fields in Hb. injection Hb as _ _ Hcal _.
    apply refreshed_untouched; [congruence|]. cbn in Hcal. by rewrite Hcal.
Qed.

Lemma board_calls_untouched ops r r' acts : Forall board_call ops -> EngineOp.run_all ops r = Some (r', acts) ->
  untouched r -> untouched r'.
Proof.
  revert r acts. induction ops as [|op ops IH]; cbn; intros r acts Hc H Hu; [by simplify_eq|].
  apply Forall_cons in Hc as [Hop Hc].
  apply bind_Some in H as ([r1 x] & H1 & H). apply bind_Some in H as ([r2 y] & H2 & [= <- _]).
  eapply IH; [done..|]. by eapply board_call_untouched.
Qed.

(** ** What the parts of an event leave alone *)
Section frames.
Context {Sen Cap Act Dog Pub Sto ES EC EA EW ET EP : Type}.
Context `{!SampleSource Sen ES, !CaptureSink Cap EC, !ActionExecutor Act EA, !Watchdog Dog EW, !TransportPublisher Pub ET,
  !PersistedCalibrationStore Sto EP}.
Abbreviation adapter := (BoardAdapter.t Sen Cap Act Dog Pub Sto).
Abbreviation outcome := (Result unit (BoardAdapterError.t ES EC EA EW ET EP)).
Implicit Types (a : adapter).

Definition with_diagnostics (log : DiagLog.t) (h : RetainedHistory.t) (d : SharedLiveDiagState.t) a : adapter :=
  a <| diag_log := log |> <| retained_obd2_history := h |> <| shared_live_diag_state := d |>.

(** The adapters that differ in their diagnostics only. *)
Definition same_but_diagnostics a a' : Prop := exists log h d, a' = with_diagnostics log h d a.

#[local] Instance same_refl : Reflexive same_but_diagnostics.
Proof. intros a. exists (diag_log a), (retained_obd2_history a), (shared_live_diag_state a). by destruct a. Qed.
#[local] Instance same_trans : Transitive same_but_diagnostics.
Proof. intros a b c (l1 & h1 & d1 & ->) (l2 & h2 & d2 & ->). by exists l2, h2, d2. Qed.

Lemma same_flags f a : same_but_diagnostics a (a <| shared_live_diag_state ::= f |>).
Proof. exists (diag_log a), (retained_obd2_history a), (f (shared_live_diag_state a)). by destruct a. Qed.

Lemma push_same e a a' : push_shared_diag_log_event e a = Some a' ->
  same_but_diagnostics a a' /\ shared_live_diag_state a' = shared_live_diag_state a.
Proof.
  unfold push_shared_diag_log_event, reseed_obd2_retained_history_from_live_state.
  intros (log & _ & (d & _ & (live & _ & (recent & _ & H)%bind_Some)%bind_Some)%bind_Some)%bind_Some.
  injection H as <-. split; [|done].
  exists log, (RetainedHistory.observe_live_diagnostic (fault_state a) live (obd2_diag_log_events_array log) recent d
    (retained_obd2_history a)), (shared_live_diag_state a). by destruct a.
Qed.

Lemma detected_same e a a' : push_detected e a = Some a' ->
  same_but_diagnostics a a' /\ shared_live_diag_state a' = shared_live_diag_state a.
Proof. destruct e; cbn; [apply push_same|]. intros [= <-]. by split. Qed.

Lemma observe_pressure_same now oil fuel ov fv a a' :
  observe_shared_pressure_diag_sources now oil fuel ov fv a = Some a' -> same_but_diagnostics a a'.
Proof.
  unfold observe_shared_pressure_diag_sources.
  intros (a1 & [H1 _]%detected_same & (a2 & [H2 _]%detected_same & [= <-])%bind_Some)%bind_Some.
  etrans; [exact H1|]. etrans; [apply same_flags|]. etrans; [exact H2|apply same_flags].
Qed.

Lemma observe_range_same now s a a' : observe_shared_sensor_recovery_sources now s a = Some a' -> same_but_diagnostics a a'.
Proof.
  unfold observe_shared_sensor_recovery_sources. intros (c & _ & H)%bind_Some.
  destruct (observe_range DiagCode.MapRange _ _ _ _ _ _) as [m e].
  apply bind_Some in H as (a1 & [H1 _]%detected_same & H).
  destruct (observe_range DiagCode.TpsRange _ _ _ _ _ _) as [t e'].
  apply detected_same in H as [H _].
  etrans; [apply same_flags|]. etrans; [exact H1|]. etrans; [apply same_flags|exact H].
Qed.

Lemma observe_live_same now a a' : observe_shared_live_diag_sources now a = Some a' -> same_but_diagnostics a a'.
Proof.
  unfold observe_shared_live_diag_sources. destruct (logical_sensor_capture a) as [c|]; [|by intros [= <-]].
  intros (a0 & H0%observe_range_same & (a1 & [H1 _]%detected_same & (a2 & [H2 _]%detected_same & (a3 & [H3 _]%detected_same &
    (a4 & [H4 _]%detected_same & [= <-])%bind_Some)%bind_Some)%bind_Some)%bind_Some)%bind_Some.
  etrans; [exact H0|]. etrans; [exact H1|]. etrans; [apply same_flags|]. etrans; [exact H2|]. etrans; [apply same_flags|].
  etrans; [exact H3|]. etrans; [apply same_flags|]. etrans; [exact H4|apply same_flags].
Qed.

(** *** The ports *)
Definition with_outputs (x : Act) (t : Pub) (s : Sto) a : adapter :=
  a <| actions := x |> <| transport := t |> <| store := s |>.

Lemma execute_actions_frame todo a a' (r : outcome) : execute_actions todo a = Some (a', r) ->
  exists x t s, a' = with_outputs x t s a.
Proof.
  revert a. induction todo as [|action todo IH]; intros a; cbn [execute_actions].
  { intros [= <- _]. exists (actions a), (transport a), (store a). by destruct a. }
  destruct action.
  1-4,7: intros ([x [[]|e]] & _ & H)%bind_Some;
    [apply IH in H as (x' & t & s & ->); by exists x', t, s|injection H as <- _; by exists x, (transport a), (store a); destruct a].
  - destruct (publish_snapshot _ _) as [t [[]|e]]; intros H;
      [apply IH in H as (x' & t' & s & ->); by exists x', t', s|injection H as <- _; by exists (actions a), t, (store a); destruct a].
  - destruct (save _ _) as [s [[]|e]]; intros H;
      [apply IH in H as (x' & t' & s' & ->); by exists x', t', s'|injection H as <- _; by exists (actions a), (transport a), s; destruct a].
  - apply IH.
Qed.

Lemma execute_step_frame result a a' (r : outcome) : execute_step result a = Some (a', r) ->
  exists x t s w, a' = (with_outputs x t s a) <| watchdog := w |>.
Proof.
  unfold execute_step. intros ([a1 r1] & H & H')%bind_Some. apply execute_actions_frame in H as (x & t & s & ->).
  destruct r1; [|injection H' as <- _; exists x, t, s, (watchdog a); by destruct a].
  destruct (feed _) as [w [|]]; injection H' as <- _; by exists x, t, s, w.
Qed.

Definition at_time (now_us : Z) a : adapter :=
  a <| pending_inputs ::= fun i => i <| AuthorityStepInputs.now_us := now_us |> |>.

(** A tick: its step, the delivery, and when that has succeeded the diagnostics. *)
Lemma on_tick_spec now control a a' (r : Result StepResult.t (BoardAdapterError.t ES EC EA EW ET EP)) :
  on_tick now control a = Some (a', r) ->
  exists rt result a1 (r1 : outcome),
    step_with_authority (pending_inputs (at_time now a)) control (runtime a) = Some (rt, result)
    /\ execute_step result ((at_time now a) <| runtime := rt |>) = Some (a1, r1)
    /\ match r1 with
       | Err e => a' = a1 /\ r = Err e
       | Ok _ => exists a2 a3 shown, observe_shared_live_diag_sources now a1 = Some a2
           /\ note_fault_transition now (fault_state a) a2 = Some a3 /\ StepTelemetry.of_step result control = Some shown
           /\ a' = a3 <| telemetry := shown |> /\ r = Ok result
       end.
Proof.
  unfold on_tick. intros ([rt result] & Hs & H)%bind_Some. apply bind_Some in H as ([a1 r1] & He & H).
  exists rt, result, a1, r1. split; [exact Hs|]. split; [exact He|]. destruct r1 as [[]|e].
  - apply bind_Some in H as (a2 & H2 & (a3 & H3 & (shown & H4 & H)%bind_Some)%bind_Some). injection H as <- <-.
    by exists a2, a3, shown.
  - by injection H as <- <-.
Qed.

(** While there is no fault the transition stays as it is. *)
Lemma no_fault_no_transition now a : fault_state a = FaultState.initial -> fault_transition a = FaultTransition.default ->
  note_fault_transition now FaultState.initial a = Some a.
Proof. intros Hf Ht. unfold note_fault_transition. by rewrite Hf, Ht. Qed.
End frames.

(** ** A run of the board is a run of its engine *)
Definition dirty_after (dirty : bool) (op : EngineOp.t) : bool :=
  match op with EngineOp.SetStagedDirty d => d | _ => dirty end.

Lemma board_call_dirty op r r' acts : board_call op -> EngineOp.run op r = Some (r', acts) ->
  CalibrationState.staged_dirty (EngineRuntime.calibration r')
  = dirty_after (CalibrationState.staged_dirty (EngineRuntime.calibration r)) op.
Proof.
  intros Hc H. destruct op; try done; cbn [EngineOp.run] in H;
    first [apply quiet_eq in H as [-> _] | apply EngineOp.run_step_Some in H as (result & H & _)]; try done.
  - by destruct observation.
  - unfold step_with_authority in H. apply step_stepped in H as [_ Hb]. unfold base_fields in Hb. injection Hb as _ _ Hcal _.
    by rewrite Hcal.
Qed.

Lemma board_calls_dirty ops r r' acts : Forall board_call ops -> EngineOp.run_all ops r = Some (r', acts) ->
  CalibrationState.staged_dirty (EngineRuntime.calibration r')
  = fold_left dirty_after ops (CalibrationState.staged_dirty (EngineRuntime.calibration r)).
Proof.
  revert r acts. induction ops as [|op ops IH]; cbn; intros r acts Hc H; [by simplify_eq|].
  apply Forall_cons in Hc as [Hop Hc].
  apply bind_Some in H as ([r1 x] & H1 & H). apply bind_Some in H as ([r2 y] & H2 & [= <- _]).
  erewrite IH by done. by erewrite board_call_dirty.
Qed.

Lemma run_all_app ops1 ops2 r r1 r2 acts1 acts2 : EngineOp.run_all ops1 r = Some (r1, acts1) ->
  EngineOp.run_all ops2 r1 = Some (r2, acts2) -> EngineOp.run_all (ops1 ++ ops2) r = Some (r2, acts1 ++ acts2).
Proof.
  revert r acts1. induction ops1 as [|op ops IH]; cbn; intros r acts1 H1 H2; [by simplify_eq|].
  apply bind_Some in H1 as ([r' x] & Hr & H). rewrite Hr. cbn [mbind option_bind].
  apply bind_Some in H as ([r'' y] & Hr' & [= -> <-]). rewrite (IH _ _ Hr' H2). cbn. by rewrite app_assoc.
Qed.

Section engine.
Context {Sen Cap Act Dog Pub Sto ES EC EA EW ET EP : Type}.
Context `{!SampleSource Sen ES, !CaptureSink Cap EC, !ActionExecutor Act EA, !Watchdog Dog EW, !TransportPublisher Pub ET,
  !PersistedCalibrationStore Sto EP}.
Abbreviation adapter := (BoardAdapter.t Sen Cap Act Dog Pub Sto).
Implicit Types (a : adapter).

(** The calls on the engine that lead from one adapter to another. *)
Definition engine_calls (ops : list EngineOp.t) a a' : Prop :=
  Forall board_call ops /\ (exists acts, EngineOp.run_all ops (runtime a) = Some (runtime a', acts))
  /\ staged_dirty a' = fold_left dirty_after ops (staged_dirty a) /\ sensor_limits a' = sensor_limits a
  /\ (untouched (runtime a) -> fault_transition a = FaultTransition.default -> fault_transition a' = FaultTransition.default).

Lemma no_calls a a' : runtime a' = runtime a -> staged_dirty a' = staged_dirty a -> sensor_limits a' = sensor_limits a ->
  fault_transition a' = fault_transition a -> exists ops, engine_calls ops a a'.
Proof. intros E1 E2 E3 E4. exists []. split_and!; [constructor| |done|done|congruence]. exists []. cbn. by rewrite E1. Qed.

Lemma one_call op a a' acts : board_call op -> EngineOp.run op (runtime a) = Some (runtime a', acts) ->
  staged_dirty a' = dirty_after (staged_dirty a) op -> sensor_limits a' = sensor_limits a ->
  fault_transition a' = fault_transition a -> exists ops, engine_calls ops a a'.
Proof.
  intros Hc Hr E1 E2 E3. exists [op]. split_and!; [by constructor| |done|done|congruence].
  exists (acts ++ []). cbn [EngineOp.run_all]. by rewrite Hr.
Qed.

Lemma same_no_calls a a' : same_but_diagnostics a a' -> exists ops, engine_calls ops a a'.
Proof. intros (log & h & d & ->). by apply no_calls. Qed.

Lemma capture_into_frame sample a : exists c, (capture_into (ES := ES) (EA := EA) (EW := EW) (ET := ET) (EP := EP) sample a).1
  = a <| capture := c |>.
Proof. unfold capture_into. destruct (capture_sample _ _) as [c [|]]; by exists c. Qed.

Lemma tick_calls now control a a' (r : Result StepResult.t (BoardAdapterError.t ES EC EA EW ET EP)) :
  on_tick now control a = Some (a', r) -> exists ops, engine_calls ops a a'.
Proof.
  intros (rt & result & a1 & r1 & Hs & He & H)%on_tick_spec.
  set (op := EngineOp.StepAuthority (pending_inputs (at_time now a)) control).
  assert (EngineOp.run op (runtime a) = Some (rt, ActionBatch.iter (StepResult.actions result))) as Hr.
  { cbn [EngineOp.run op]. unfold EngineOp.run_step. by rewrite Hs. }
  apply execute_step_frame in He as (x & t & s & w & E1).
  destruct r1 as [[]|e].
  - destruct H as (a2 & a3 & shown & (log & h & d & E2)%observe_live_same & H3 & _ & -> & _).
    assert (runtime a2 = rt /\ staged_dirty a2 = staged_dirty a /\ sensor_limits a2 = sensor_limits a
      /\ fault_transition a2 = fault_transition a) as (G1 & G2 & G3 & G4) by (subst a2 a1; done).
    assert (runtime a3 = rt /\ staged_dirty a3 = staged_dirty a /\ sensor_limits a3 = sensor_limits a) as (F1 & F2 & F3).
    { unfold note_fault_transition in H3. destruct (_ || _); [|injection H3 as <-; done].
      unfold push_fault_transition_live_diag_event in H3. apply bind_Some in H3 as (dt & _ & H3).
      apply detected_same in H3 as [(l' & h' & d' & ->) _]. done. }
    exists [op]. split_and!; [by constructor| |done|done|].
    + eexists. cbn [EngineOp.run_all]. rewrite Hr. cbn [mbind option_bind]. change (runtime _) with (runtime a3).
      by rewrite F1.
    + intros Hu Ht. change (fault_transition _) with (fault_transition a3).
      assert (untouched rt) as Hu' by (eapply board_call_untouched; [|exact Hr|done]; done).
      destruct Hu as [_ Hsh _ _], Hu' as [_ Hsh' _ _].
      assert (fault_state a = FaultState.initial) as Ef by exact Hsh. rewrite Ef in H3.
      rewrite no_fault_no_transition in H3; [by injection H3 as <-; rewrite G4| |by rewrite G4].
      unfold fault_state. by rewrite G1.
  - destruct H as [-> _]. subst a1. eapply (one_call op); [done|exact Hr|done..].
Qed.

Lemma run_op_calls op a a' ms : run_op op a = Some (a', ms) -> exists ops, engine_calls ops a a'.
Proof.
  destruct op as [e| | |status|e| |strategy|dirty|l f|snapshot|identity|status|status]; cbn [run_op].
  - intros ([a1 r] & He & [= -> _])%bind_Some. destruct e as [at_us rpm angle authority synced|at_us seen|c|now oil fuel ov fv|now control];
      cbn [apply_event] in He.
    + injection He as He _. unfold on_trigger_edge in He.
      set (load := EngineState.load_kpa10 _) in He. set (a0 := _ <| captured := _ |>) in He.
      destruct (capture_into_frame (CaptureSample.mk at_us rpm load angle) a0) as [c Hc].
      destruct (capture_into _ a0) as [a2 [[]|er]]; cbn [fst] in *; subst a2; [|by apply no_calls; subst a'].
      exists [EngineOp.SensorSample rpm load angle; EngineOp.SetAuthority authority]. subst a'.
      split_and!; [by repeat constructor|by eexists|done|done|done].
    + injection He as <- _. by eapply (one_call (EngineOp.Observe (DecoderObservation.Cam at_us seen))).
    + injection He as He _. unfold on_sensor_snapshot in He.
      set (a0 := _ <| runtime ::= _ |>) in He. destruct (capture_into_frame (map_speed_density_capture_sample c) a0) as [k Hk].
      rewrite Hk in He. subst a'.
      by eapply (one_call (EngineOp.SensorSample (CaptureSample.rpm (map_speed_density_capture_sample c))
        (CaptureSample.load_kpa10 (map_speed_density_capture_sample c)) (CaptureSample.angle_x10 (map_speed_density_capture_sample c)))).
    + apply bind_Some in He as (a2 & H2 & [= -> _]). apply observe_pressure_same in H2 as (log & h & d & ->). by apply no_calls.
    + apply bind_Some in He as ([a2 r2] & H2 & [= -> _]). by eapply tick_calls.
  - intros [= <- _]. unfold poll_sensor. destruct (BoardInputs.sample (sensor a)) as [s [sample|er]]; [|by apply no_calls].
    set (a0 := _ <| captured := _ |>). destruct (capture_into_frame sample a0) as [k Hk].
    destruct (capture_into sample a0) as [a2 [[]|er]]; cbn [fst] in *; subst a2; by apply no_calls.
  - intros [= <- _]. by eapply (one_call (EngineOp.SetFault FaultCode.None FaultSeverity.Info CancelReason.Manual)).
  - intros (a1 & H & [= -> _])%bind_Some. unfold record_store_integrity_status in H.
    destruct (store_integrity_latched a); [injection H as <-; by apply no_calls|].
    destruct status; [injection H as <-; by apply no_calls..| |];
      (apply bind_Some in H as (a2 & H2 & [= <-]); apply push_same in H2 as [(log & h & d & ->) _]; by apply no_calls).
  - intros (a1 & H & [= -> _])%bind_Some. apply push_same in H as [H _]. by apply same_no_calls.
  - intros (a1 & H & [= -> _])%bind_Some. unfold Obd2MultiServiceTransportService.observe in H.
    apply bind_Some in H as (x & _ & (y & _ & (z & _ & [= <-])%bind_Some)%bind_Some). by apply no_calls.
  - intros [= <- _]. by eapply (one_call (EngineOp.ConfigureFuel strategy)).
  - intros [= <- _]. by eapply (one_call (EngineOp.SetStagedDirty dirty)).
  - intros [= <- _]. by apply no_calls.
  - intros [= <- _]. by apply no_calls.
  - intros [= <- _]. by apply no_calls.
  - intros [= <- _]. by apply no_calls.
  - intros [= <- _]. by apply no_calls.
Qed.
End engine.

(** ** What the ports have been given

    A port keeps a record of the calls it has accepted. *)
Class LoggedPorts (Act EA Dog EW Pub ET Sto EP : Type) `{!ActionExecutor Act EA, !Watchdog Dog EW, !TransportPublisher Pub ET,
    !PersistedCalibrationStore Sto EP} := {
  acted : Act -> list Action.t;
  published : Pub -> list RuntimeSnapshot.t;
  saved : Sto -> list PersistedCalibrationBlob.t;
  fed : Dog -> nat;
  acted_log : forall x p p' (r : Result unit EA), execute x p = Some (p', r) -> acted p' = acted p ++ (if is_ok r then [x] else []);
  published_log : forall s p, published (publish_snapshot s p).1 = published p ++ (if is_ok (publish_snapshot s p).2 then [s] else []);
  saved_log : forall b p, saved (save b p).1 = saved p ++ (if is_ok (save b p).2 then [b] else []);
  fed_log : forall w, fed (feed w).1 = (fed w + if is_ok (feed w).2 then 1 else 0)%nat
}.

(** The calls that a sequence of actions makes on each port. *)
Definition is_publish (x : Action.t) : bool := match x with Action.PublishSnapshot => true | _ => false end.
Definition is_persist (x : Action.t) : bool := match x with Action.PersistCalibration => true | _ => false end.
Definition is_output (x : Action.t) : bool :=
  match x with Action.PublishSnapshot | Action.PersistCalibration | Action.Idle => false | _ => true end.
Definition to_execute (todo : list Action.t) : list Action.t := filter (fun x => Is_true (is_output x)) todo.
Definition to_publish (r : EngineRuntime.t) (todo : list Action.t) : list RuntimeSnapshot.t :=
  (fun _ => EngineRuntime.runtime_snapshot r) <$> filter (fun x => Is_true (is_publish x)) todo.
Definition to_save (r : EngineRuntime.t) (todo : list Action.t) : list PersistedCalibrationBlob.t :=
  (fun _ => PersistedCalibrationBlob.new (EngineRuntime.calibration_snapshot r))
  <$> filter (fun x => Is_true (is_persist x)) todo.

Section delivery.
Context {Sen Cap Act Dog Pub Sto ES EC EA EW ET EP : Type}.
Context `{!SampleSource Sen ES, !CaptureSink Cap EC, !ActionExecutor Act EA, !Watchdog Dog EW, !TransportPublisher Pub ET,
  !PersistedCalibrationStore Sto EP, !LoggedPorts Act EA Dog EW Pub ET Sto EP}.
Abbreviation adapter := (BoardAdapter.t Sen Cap Act Dog Pub Sto).
Abbreviation outcome := (Result unit (BoardAdapterError.t ES EC EA EW ET EP)).
Implicit Types (a : adapter).

(** The ports have been given what [todo] asks for, and the watchdog nothing. *)
Definition given (todo : list Action.t) a a' : Prop :=
  acted (actions a') = acted (actions a) ++ to_execute todo
  /\ published (transport a') = published (transport a) ++ to_publish (runtime a) todo
  /\ saved (store a') = saved (store a) ++ to_save (runtime a) todo
  /\ watchdog a' = watchdog a /\ runtime a' = runtime a.

Lemma given_nothing a : given [] a a.
Proof. unfold given, to_execute, to_publish, to_save. cbn. by rewrite !app_nil_r. Qed.

Lemma given_cons x todo a a1 a' : given [x] a a1 -> given todo a1 a' -> given (x :: todo) a a'.
Proof.
  intros (A1 & B1 & C1 & D1 & E1) (A2 & B2 & C2 & D2 & E2). change (x :: todo) with ([x] ++ todo).
  unfold given, to_execute, to_publish, to_save in *.
  rewrite A2, A1, B2, B1, C2, C1, D2, D1, E2, E1, !filter_app, !fmap_app, <- !app_assoc. done.
Qed.

(** Where a delivery stopped: at the end, or at an action that was refused. *)
Definition not_watchdog (e : BoardAdapterError.t ES EC EA EW ET EP) : Prop :=
  match e with BoardAdapterError.Watchdog _ => False | _ => True end.
Definition stops_at (n : nat) (todo : list Action.t) (r : outcome) : Prop :=
  match r with Ok _ => n = length todo | Err e => not_watchdog e /\ (n < length todo)%nat end.

Lemma execute_actions_given todo a a' (r : outcome) : execute_actions todo a = Some (a', r) ->
  exists n, (n <= length todo)%nat /\ given (take n todo) a a' /\ stops_at n todo r.
Proof.
  revert a. induction todo as [|x todo IH]; intros a; cbn [execute_actions].
  { intros [= <- <-]. exists 0%nat. split_and!; [done|apply given_nothing|done]. }
  assert (forall a1, given [x] a a1 -> execute_actions todo a1 = Some (a', r) ->
    exists n, (n <= length (x :: todo))%nat /\ given (take n (x :: todo)) a a' /\ stops_at n (x :: todo) r) as Hok.
  { intros a1 Hg H. apply IH in H as (n & Hn & Hg' & Hr). exists (S n). cbn [length take].
    split_and!; [lia|by eapply given_cons|].
    unfold stops_at in *. cbn [length]. destruct r as [|[]]; intuition lia. }
  assert (forall a1 e, given [] a a1 -> not_watchdog e -> (a1, Err e) = (a', r) ->
    exists n, (n <= length (x :: todo))%nat /\ given (take n (x :: todo)) a a' /\ stops_at n (x :: todo) r) as Herr.
  { intros a1 e Hg Hw [= -> <-]. exists 0%nat. cbn. split; [lia|]. split; [exact Hg|]. split; [done|cbn; lia]. }
  clear IH. destruct x.
  1-4,7: intros ([p [[]|e]] & Hx%acted_log & H)%bind_Some; cbn [is_ok] in Hx;
    [eapply Hok; [|exact H]|injection H as <- <-; eapply Herr; [| |reflexivity]];
    unfold given, to_execute, to_publish, to_save; cbn; rewrite ?app_nil_r in *; done.
  - pose proof (published_log (EngineRuntime.runtime_snapshot (runtime a)) (transport a)) as Hp.
    destruct (publish_snapshot _ _) as [t [[]|e]]; cbn [fst snd is_ok] in Hp; intros H;
      [eapply Hok; [|exact H]|injection H as <- <-; eapply Herr; [| |reflexivity]];
      unfold given, to_execute, to_publish, to_save; cbn; rewrite ?app_nil_r in *; done.
  - pose proof (saved_log (PersistedCalibrationBlob.new (EngineRuntime.calibration_snapshot (runtime a))) (store a)) as Hp.
    destruct (save _ _) as [t [[]|e]]; cbn [fst snd is_ok] in Hp; intros H;
      [eapply Hok; [|exact H]|injection H as <- <-; eapply Herr; [| |reflexivity]];
      unfold given, to_execute, to_publish, to_save; cbn; rewrite ?app_nil_r in *; done.
  - intros H. eapply Hok; [|exact H]. unfold given, to_execute, to_publish, to_save. cbn. by rewrite !app_nil_r.
Qed.

(** *** The rest of a tick leaves the ports alone *)
Definition ports a := (actions a, watchdog a, transport a, store a).

Lemma same_ports a a' : same_but_diagnostics a a' -> ports a' = ports a /\ runtime a' = runtime a.
Proof. by intros (log & h & d & ->). Qed.

Lemma note_transition_ports now before a a' : note_fault_transition now before a = Some a' ->
  ports a' = ports a /\ runtime a' = runtime a.
Proof.
  unfold note_fault_transition. destruct (_ || _); [|by intros [= <-]].
  unfold push_fault_transition_live_diag_event. intros (d & _ & [H _]%detected_same)%bind_Some. by apply same_ports in H.
Qed.

Lemma capture_ports sample a : ports (capture_into (ES := ES) (EA := EA) (EW := EW) (ET := ET) (EP := EP) sample a).1 = ports a.
Proof. unfold capture_into. by destruct (capture_sample _ _) as [c [|]]. Qed.

Lemma trigger_ports at_us rpm angle authority synced a :
  ports (on_trigger_edge (ES := ES) (EA := EA) (EW := EW) (ET := ET) (EP := EP) at_us rpm angle authority synced a).1 = ports a.
Proof.
  unfold on_trigger_edge. set (a0 := _ <| captured := _ |>). set (sample := CaptureSample.mk _ _ _ _).
  pose proof (capture_ports sample a0) as H. destruct (capture_into sample a0) as [a1 [|]]; exact H.
Qed.
End delivery.

(** ** Theorems *)
Section theorems.
Context {Sen Cap Act Dog Pub Sto ES EC EA EW ET EP : Type}.
Context `{!SampleSource Sen ES, !CaptureSink Cap EC, !ActionExecutor Act EA, !Watchdog Dog EW, !TransportPublisher Pub ET,
  !PersistedCalibrationStore Sto EP}.
Abbreviation adapter := (BoardAdapter.t Sen Cap Act Dog Pub Sto).
Implicit Types (a : adapter).

(** C5: Whatever is done with a board, its adapter only steps its engine, feeds it samples,
    authority and observations, and configures it: the run of the board is a run of its
    engine that reports no fault.  So the engine keeps its invariant, and it never learns of a
    fault that the board detects: its fault state is that of a new engine, no change of fault
    is published, and its calibration is the default one. *)
Theorem board_engine_run ops sen cap act dog pub sto a0 a ms :
  new sen cap act dog pub sto = Some a0 -> run_ops ops a0 = Some (a, ms) ->
  (exists eops acts, Forall board_call eops /\ EngineOp.run_all eops Engine.new = Some (runtime a, acts))
  /\ engine_inv (runtime a) /\ fault_state a = FaultState.initial /\ fault_transition a = FaultTransition.default
  /\ CalibrationState.active (EngineRuntime.calibration (runtime a)) = CalibrationSnapshot.default
  /\ EngineRuntime.calibration_snapshot (runtime a) = CalibrationSnapshot.default
  /\ CalibrationState.staged_dirty (EngineRuntime.calibration (runtime a)) = staged_dirty a
  /\ sensor_limits a = SharedSensorLimits.default.
Proof.
  intros Hnew Hrun.
  assert (untouched (runtime a0) /\ engine_inv (runtime a0) /\ fault_transition a0 = FaultTransition.default
    /\ CalibrationState.staged_dirty (EngineRuntime.calibration (runtime a0)) = staged_dirty a0
    /\ sensor_limits a0 = SharedSensorLimits.default) as H0.
  { unfold new in Hnew. apply bind_Some in Hnew as (d & _ & [= <-]). cbn.
    split_and!; [apply untouched_new|apply engine_inv_new|done..]. }
  assert (exists eops acts, Forall board_call eops /\ EngineOp.run_all eops Engine.new = Some (runtime a0, acts)) as E0.
  { unfold new in Hnew. apply bind_Some in Hnew as (d & _ & [= <-]). by exists [], []. }
  clear Hnew. revert a0 ms Hrun H0 E0.
  induction ops as [|op ops IH]; intros a0 ms Hrun (Hu & Hi & Ht & Hd & Hl) He; cbn [run_ops] in Hrun.
  { injection Hrun as <- _. destruct Hu. split_and!; done. }
  apply bind_Some in Hrun as ([a1 m1] & H1 & Hrun). apply bind_Some in Hrun as ([a2 m2] & H2 & Hrun).
  injection Hrun as -> _.
  apply run_op_calls in H1 as (calls & Hc & (acts & Hr) & Hd1 & Hl1 & Ht1).
  eapply IH; [exact H2| |].
  - split_and!.
    + by eapply board_calls_untouched.
    + by eapply engine_inv_run_all.
    + by apply Ht1.
    + rewrite Hd1, <- Hd. by eapply board_calls_dirty.
    + congruence.
  - destruct He as (eops & acts0 & Hf & He). exists (eops ++ calls), (acts0 ++ acts).
    split; [by apply Forall_app|]. by eapply run_all_app.
Qed.

(** C4: Only a tick drives the ports of a board, and it does so in order: the actions of its
    step are handed on one by one, each to the port it is for (a snapshot of the stepped
    engine to the transport, its calibration to the store, an output to the executor), up to
    the first that is refused; the watchdog is fed exactly when every one of them has been
    accepted.  Any other event leaves the executor, the watchdog, the transport and the store
    untouched. *)
Theorem events_drive_ports `{!LoggedPorts Act EA Dog EW Pub ET Sto EP} event a a'
    (r : Result (option StepResult.t) (BoardAdapterError.t ES EC EA EW ET EP)) :
  apply_event event a = Some (a', r) ->
  match event with
  | BoardEvent.Tick now control => exists rt result n,
      step_with_authority (pending_inputs (at_time now a)) control (runtime a) = Some (rt, result) /\ runtime a' = rt
      /\ let todo := ActionBatch.iter (StepResult.actions result) in
         acted (actions a') = acted (actions a) ++ to_execute (take n todo)
         /\ published (transport a') = published (transport a) ++ to_publish rt (take n todo)
         /\ saved (store a') = saved (store a) ++ to_save rt (take n todo)
         /\ fed (watchdog a') = (fed (watchdog a) + if is_ok r then 1 else 0)%nat
         /\ match r with
            | Ok shown => n = length todo /\ shown = Some result
            | Err (BoardAdapterError.Watchdog _) => n = length todo
            | Err _ => (n < length todo)%nat
            end
  | _ => (actions a', watchdog a', transport a', store a') = (actions a, watchdog a, transport a, store a)
  end.
Proof.
  intros H. destruct event as [at_us rpm angle authority synced|at_us seen|c|now oil fuel ov fv|now control]; cbn [apply_event] in H.
  - injection H as <- _. apply trigger_ports.
  - by injection H as <- _.
  - injection H as <- _. unfold on_sensor_snapshot. cbn [done fst]. etrans; [apply capture_ports|reflexivity].
  - apply bind_Some in H as (a2 & H2 & [= <- _]). by apply observe_pressure_same, same_ports in H2 as [H2 _].
  - apply bind_Some in H as ([a2 r2] & (rt & result & a1 & r1 & Hs & He & H)%on_tick_spec & [= <- <-]).
    unfold execute_step in He. apply bind_Some in He as ([a3 r3] & He & Hw).
    apply execute_actions_given in He as (n & Hn & (G1 & G2 & G3 & G4 & G5) & Hst).
    exists rt, result, n. split; [exact Hs|]. destruct r3 as [[]|e].
    + pose proof (fed_log (watchdog a3)) as Hf. destruct (feed (watchdog a3)) as [w [[]|e]]; injection Hw as <- <-; cbn [fst snd is_ok] in Hf.
      * destruct H as (a4 & a5 & shown & [P4 R4]%observe_live_same%same_ports & [P5 R5]%note_transition_ports & _ & -> & ->).
        unfold ports in P4, P5. injection P4 as A4 W4 T4 S4. injection P5 as A5 W5 T5 S5. cbn in *.
        rewrite A5, A4, W5, W4, T5, T4, S5, S4, R5, R4, Hf, G4. by rewrite G1, G2, G3.
      * destruct H as [-> ->]. cbn in *. by rewrite Hf, G4, G1, G2, G3.
    + injection Hw as <- <-. destruct H as [-> ->]. destruct Hst as [Hnw Hlt]. cbn in *.
      rewrite G1, G2, G3, G4, G5, Nat.add_0_r. by destruct e.
Qed.
End theorems.

(** ** Witnesses: a board on a bench, whose ports keep what they are given up to a limit *)
Record BenchPort (A : Type) := mkBenchPort { kept : list A; limit : nat }.
Arguments mkBenchPort {A} _ _.
Arguments kept {A} _.
Arguments limit {A} _.
Definition keep {A} (x : A) (p : BenchPort A) : BenchPort A * Result unit unit :=
  if (length (kept p) <? limit p)%nat then (mkBenchPort (kept p ++ [x]) (limit p), Ok tt) else (p, Err tt).

Definition bench_sample : SampleSource unit unit := fun s => (s, Ok (CaptureSample.mk 0 3000 700 1200)).
Definition bench_capture : CaptureSink (BenchPort CaptureSample.t) unit := keep.
Definition bench_execute : ActionExecutor (BenchPort Action.t) unit := fun x p => Some (keep x p).
Definition bench_feed : Watchdog (BenchPort unit) unit := keep tt.
Definition bench_publish : TransportPublisher (BenchPort RuntimeSnapshot.t) unit := keep.
Definition bench_save : PersistedCalibrationStore (BenchPort PersistedCalibrationBlob.t) unit := keep.

#[local] Existing Instances bench_sample bench_capture bench_execute bench_feed bench_publish bench_save.

Lemma keep_log {A} (x : A) p : kept (keep x p).1 = kept p ++ (if is_ok (keep x p).2 then [x] else []).
Proof. unfold keep. destruct (_ <? _)%nat; cbn; by rewrite ?app_nil_r. Qed.

Definition bench_logged : LoggedPorts (BenchPort Action.t) unit (BenchPort unit) unit (BenchPort RuntimeSnapshot.t) unit
    (BenchPort PersistedCalibrationBlob.t) unit.
Proof.
  refine {| acted := kept; published := kept; saved := kept; fed := fun p => length (kept p) |}.
  - intros x p p' r H. injection H as H. pose proof (keep_log x p) as Hk. by rewrite H in Hk.
  - intros s p. apply keep_log.
  - intros s p. apply keep_log.
  - intros p. unfold feed, bench_feed. rewrite keep_log, length_app. by destruct (is_ok _).
Defined.

Abbreviation bench := (BoardAdapter.t unit (BenchPort CaptureSample.t) (BenchPort Action.t) (BenchPort unit)
  (BenchPort RuntimeSnapshot.t) (BenchPort PersistedCalibrationBlob.t)).
(** The executor takes [limit] actions. *)
Definition new_bench (limit : nat) : option bench :=
  new tt (mkBenchPort [] 100) (mkBenchPort [] limit) (mkBenchPort [] 100) (mkBenchPort [] 100) (mkBenchPort [] 100).

Definition bench_capture_of (now vbatt : Z) : BoardSensorSnapshotCapture.t :=
  BoardSensorSnapshotCapture.mk now 1200 (BoardSensorSnapshot.mk 3000 700 500 850 250 vbatt 1000 0 0 0 None 0 0).
Definition bench_tick (now : Z) : BoardEvent.t := BoardEvent.Tick now (ControlInputs.spark_only now sample_ignition).

(** The battery is low at the second tick and at the third, a store is damaged, the
    diagnostics are cleared, and the battery is still low. *)
Definition bench_ops : list BoardOp.t :=
  [BoardOp.Event (BoardEvent.TriggerEdge 500 3000 1200 sample_authority true); BoardOp.PollSensor;
   BoardOp.Event (BoardEvent.SensorSnapshotCapture (bench_capture_of 900 13800)); BoardOp.Event (bench_tick 1000);
   BoardOp.Event (BoardEvent.SensorSnapshotCapture (bench_capture_of 20900 7000)); BoardOp.Event (bench_tick 21000);
   BoardOp.Event (bench_tick 41000); BoardOp.Integrity StoreIntegrityStatus.Corrupt; BoardOp.Serve;
   BoardOp.SetStagedDirty true; BoardOp.Event (BoardEvent.PressureSnapshot 42000 500 3000 true true)].
Definition bench_cleared : list BoardOp.t := bench_ops ++ [BoardOp.ClearDiagnostics; BoardOp.Event (bench_tick 61000)].

(** The executor takes nothing: the tick stops at its first action, and the watchdog is not fed. *)
Definition ready_bench : option bench := a ← new_bench 0; '(a, _) ← run_ops (take 3 bench_ops) a; Some a.
Abbreviation bench_result := (Result (option StepResult.t) (BoardAdapterError.t unit unit unit unit unit unit)).

Lemma events_drive_ports_witness :
  match ready_bench with
  | Some a =>
    match (apply_event (bench_tick 1000) a : option (bench * bench_result)) with
    | Some (a', r) => is_ok r = false /\ kept (actions a') = [] /\ kept (watchdog a') = []
        /\ exists rt result n,
             step_with_authority (pending_inputs (at_time 1000 a)) (ControlInputs.spark_only 1000 sample_ignition) (runtime a)
             = Some (rt, result)
             /\ to_execute (take n (ActionBatch.iter (StepResult.actions result))) = []
             /\ kept (transport a') = to_publish rt (take n (ActionBatch.iter (StepResult.actions result)))
    | None => False
    end
  | None => False
  end.
Proof.
  assert (option_map (fun a : bench => (kept (actions a), length (kept (transport a)), kept (watchdog a))) ready_bench
    = Some ([], 0%nat, [])) as Ha by (vm_compute; reflexivity).
  assert (option_map (fun x : bench * bench_result => (is_ok x.2, kept (actions x.1), kept (watchdog x.1)))
    (a ← ready_bench; apply_event (bench_tick 1000) a) = Some (false, [], [])) as Hc by (vm_compute; reflexivity).
  destruct ready_bench as [a|]; [|done]. injection Ha as A1 A2 A3. cbn [mbind option_bind] in Hc.
  pose proof (events_drive_ports (ES := unit) (EC := unit) (LoggedPorts0 := bench_logged) (bench_tick 1000) a) as H.
  destruct (apply_event (bench_tick 1000) a) as [[a' r]|]; [|done]. injection Hc as C1 C2 C3. cbn [fst snd] in C1, C2, C3.
  destruct (H a' r eq_refl) as (rt & result & n & Hs & _ & Hx & Hp & _).
  cbn [bench_logged acted published] in Hx, Hp. rewrite A1, C2 in Hx. apply nil_length_inv in A2. rewrite A2 in Hp.
  split_and!; [done..|]. by exists rt, result, n.
Defined.

Definition seen_of {V} (f : bench -> list Moment -> V) (limit : nat) (ops : list BoardOp.t) : option V :=
  a ← new_bench limit; '(a, ms) ← run_ops ops a; Some (f a ms).

Lemma seen_of_Some {V} (f : bench -> list Moment -> V) limit ops v : seen_of f limit ops = Some v ->
  exists a0 a ms, new_bench limit = Some a0 /\ run_ops ops a0 = Some (a, ms) /\ f a ms = v.
Proof.
  unfold seen_of. intros (a0 & H0 & ([a ms] & H & [= Hf])%bind_Some)%bind_Some. by exists a0, a, ms.
Qed.

Lemma board_engine_run_witness :
  exists a0 a ms, new_bench 100 = Some a0 /\ run_ops bench_ops a0 = Some (a, ms)
  /\ engine_inv (runtime a) /\ fault_state a = FaultState.initial
  /\ CalibrationState.staged_dirty (EngineRuntime.calibration (runtime a)) = true.
Proof.
  assert (seen_of (fun a _ => staged_dirty a) 100 bench_ops = Some true) as (a0 & a & ms & H0 & H & Hc)%seen_of_Some
    by (vm_compute; reflexivity).
  exists a0, a, ms.
  destruct (board_engine_run (ES := unit) (EC := unit) bench_ops _ _ _ _ _ _ a0 a ms H0 H) as (_ & Hi & Hf & _ & _ & _ & Hd & _).
  rewrite Hd. done.
Defined.
