(* ===== verification/BoardDiag.v ===== *)
(** * The diagnostics of a board, exactly

    Along every run of a board its log and its retained history are those of the
    specification [BoardRun.expected]: the detectors keep of the observations what decides
    the next event, and every event is logged and retained once. *)
From S2P Require Import Prelude Domain BoardApi Lowering Control SemanticFuel Calibration Engine EngineStep EngineRun KvStore CanTypes CanObd2.
From S2P Require Import BoardInputs Obd2History Obd2Snapshot Obd2Service Observations BoardTelemetry BoardAdapter BoardRun.
Import BoardAdapter.

(** ** Lists of which nothing new is added *)
Lemma firsts_absorb {A} `{EqDecision A} (xs ys : list A) c : c ∈ ys -> (forall y, y ∈ ys -> y ∈ xs \/ y = c) ->
  firsts (xs ++ ys) = add_first (firsts xs) c.
Proof.
  intros Hc Hys.
  assert (firsts (xs ++ ys) = if bool_decide (c ∈ ys) then add_first (firsts xs) c else firsts xs) as ->.
  2:{ by rewrite bool_decide_true. }
  clear Hc. induction ys as [|y ys IH] using rev_ind; [by rewrite app_nil_r|].
  rewrite app_assoc, firsts_app, IH by (intros z Hz; apply Hys; set_solver).
  destruct (Hys y ltac:(set_solver)) as [Hy| ->].
  - assert (forall zs, (forall z, z ∈ firsts xs -> z ∈ zs) -> add_first zs y = zs) as Hin.
    { intros zs Hzs. unfold add_first. rewrite bool_decide_true; [done|]. by apply Hzs, elem_of_firsts. }
    rewrite Hin.
    2:{ intros z Hz. case_bool_decide; [|done]. unfold add_first. case_bool_decide; [done|]. set_solver. }
    case_bool_decide as H1; case_bool_decide as H2; try done; [set_solver|].
    assert (c = y) as -> by set_solver. by rewrite Hin.
  - rewrite (bool_decide_true (c ∈ ys ++ [c])) by set_solver. case_bool_decide; [|done].
    unfold add_first. repeat case_bool_decide; try done; set_solver.
Qed.

Lemma firsts_subset {A} `{EqDecision A} (xs ys : list A) : (forall y, y ∈ ys -> y ∈ xs) -> firsts (xs ++ ys) = firsts xs.
Proof.
  induction ys as [|y ys IH] using rev_ind; intros Hys; [by rewrite app_nil_r|].
  rewrite app_assoc, firsts_app, IH by set_solver. unfold add_first.
  rewrite bool_decide_true; [done|]. apply elem_of_firsts. set_solver.
Qed.

(** ** The log *)
Lemma slot_index N n j : (0 < N)%nat -> (j < N)%nat -> (j < n)%nat ->
  let i := (n - 1 - (n - 1 - j) mod N)%nat in (i < n)%nat /\ (n <= i + N)%nat /\ (i mod N = j)%nat.
Proof.
  intros HN Hj Hn i. pose proof (Nat.mod_upper_bound (n - 1 - j) N ltac:(lia)) as Hb.
  pose proof (Nat.Div0.mod_le (n - 1 - j) N) as Hle. split; [lia|]. split; [lia|].
  replace i with (j + (n - 1 - j) / N * N)%nat.
  - rewrite Nat.Div0.mod_add. by apply Nat.mod_small.
  - unfold i. pose proof (Nat.div_mod_eq (n - 1 - j) N). lia.
Qed.

Lemma log_slots_lookup N evs j : (j < N)%nat -> log_slots N evs !! j
  = Some (if (length evs <=? j)%nat then None else evs !! (length evs - 1 - (length evs - 1 - j) mod N)%nat).
Proof. intros Hj. unfold log_slots. rewrite list_lookup_fmap, lookup_seq_lt by done. done. Qed.

Lemma retains_slots N evs log : (0 < N)%nat -> retains N evs log -> DiagLog.events log = log_slots N evs.
Proof.
  intros HN (Hl & _ & Hk & Hf). apply list_eq. intros j. destruct (decide (j < N)%nat) as [Hj|Hj].
  - rewrite log_slots_lookup by done. destruct (Nat.leb_spec (length evs) j) as [Hle|Hlt]; [apply Hf; lia|].
    destruct (slot_index N (length evs) j HN Hj Hlt) as (Hi & Hn & Hm).
    destruct (lookup_lt_is_Some_2 evs _ Hi) as [e He]. rewrite He. specialize (Hk _ e He Hn). by rewrite Hm in Hk.
  - rewrite !lookup_ge_None_2; [done|unfold log_slots; rewrite length_fmap, length_seq; lia|lia].
Qed.

(** What is in the slots has been logged, and what was logged last is in them. *)
Lemma slots_subset N evs e : e ∈ omap id (log_slots N evs) -> e ∈ evs.
Proof.
  intros (x & Hx & He)%list_elem_of_omap. cbn in He. subst x. unfold log_slots in Hx.
  apply list_elem_of_fmap in Hx as (j & Hj & _). destruct (_ <=? j)%nat; [done|]. by eapply list_elem_of_lookup_2.
Qed.

Lemma slots_last N evs e : (0 < N)%nat -> e ∈ omap id (log_slots N (evs ++ [e])).
Proof.
  intros HN. apply list_elem_of_omap. exists (Some e). split; [|done]. set (n := length evs).
  pose proof (Nat.mod_upper_bound n N ltac:(lia)) as Hb. pose proof (Nat.Div0.mod_le n N) as Hle.
  eapply list_elem_of_lookup_2. rewrite (log_slots_lookup N _ (n mod N)) by lia. rewrite length_app. cbn [length]. fold n.
  destruct (Nat.leb_spec (n + 1) (n mod N)); [lia|].
  replace (n + 1 - 1 - (n + 1 - 1 - n mod N) mod N)%nat with n; [by rewrite list_lookup_middle|].
  replace (n + 1 - 1)%nat with n by lia.
  assert ((n - n mod N) mod N = 0)%nat as ->; [|lia].
  pose proof (Nat.div_mod_eq n N) as Hd. replace (n - n mod N)%nat with (n / N * N)%nat by lia. apply Nat.Div0.mod_mul.
Qed.

Lemma log_array log : length (DiagLog.events log) = DIAG_LOG_ENTRY_COUNT ->
  omap id (obd2_diag_log_events_array log) = omap id (DiagLog.events log).
Proof.
  intros Hl. unfold obd2_diag_log_events_array. rewrite (take_ge (DiagLog.events log)) by lia. by rewrite Hl, app_nil_r.
Qed.

(** ** The detectors *)
Definition latch_shows (l : SharedDiagLatchState.t) (e : option (Z * option Z)) : Prop :=
  match e with
  | None => SharedDiagLatchState.active l = false
  | Some (start, since) => SharedDiagLatchState.active l = true /\ SharedDiagLatchState.start_us l = start
      /\ SharedDiagLatchState.in_range_since_us l = default 0 since /\ since <> Some 0
  end.

Lemma observe_range_shows code now raw lo hi l e : latch_shows l e ->
  let b := (lo <=? raw) && (raw <=? hi) in
  let r := observe_range code now raw lo hi CLEAR_TIME_US l in
  latch_shows r.1 (excursion_step e (now, raw, b)).1
  /\ option_list r.2 = match e with
      | Some (start, _) =>
        if (excursion_step e (now, raw, b)).2 then [DiagEvent.mk code now DiagSource.Sensor (Some raw) start now] else []
      | None => []
      end.
Proof.
  intros Hl b. unfold observe_range.
  assert ((raw <? lo) || (hi <? raw) = negb b) as ->.
  { unfold b. rewrite negb_andb, <- !Z.ltb_antisym. done. }
  destruct e as [[start since]|]; cbn [latch_shows] in Hl.
  - destruct Hl as (Ha & Hs & Hi & Hne). rewrite Ha. destruct b; cbn [negb excursion_step]; [|by cbn].
    rewrite Hi. assert ((if default 0 since =? 0 then l <| SharedDiagLatchState.in_range_since_us := now |> else l)
      = l <| SharedDiagLatchState.in_range_since_us := default now since |>) as ->.
    { destruct since as [x|]; [|done]. cbn in Hi |- *. destruct (Z.eqb_spec x 0); [congruence|]. destruct l. cbn in Hi. by rewrite <- Hi. }
    change (SharedDiagLatchState.in_range_since_us (l <| SharedDiagLatchState.in_range_since_us := default now since |>))
      with (default now since).
    destruct (CLEAR_TIME_US <=? _); cbn -[CLEAR_TIME_US]; [by rewrite Hs|].
    split; [|done]. split; [done|]. split; [done|]. destruct (Z.eqb_spec (default now since) 0) as [->|]; [done|].
    cbn. split; [done|congruence].
  - rewrite Hl. destruct b; cbn [negb excursion_step]; [done|by cbn].
Qed.

(** A detector of a condition keeps whether it held. *)
Lemma observe_condition_begins code condition before o now value b : condition o = Some (now, value, b) ->
  option_list (observe_condition code now value (holds condition before) b) = begins code condition before o.
Proof.
  intros Hc. unfold observe_condition, begins, shared_live_diag_event. rewrite Hc. by destruct b, (holds condition before).
Qed.

Lemma holds_snoc condition before o :
  holds condition (before ++ [o]) = match condition o with Some (_, _, b) => b | None => holds condition before end.
Proof.
  unfold holds. rewrite omap_app. cbn. destruct (condition o) as [[[t v] b]|]; [by rewrite last_snoc|by rewrite app_nil_r].
Qed.

Lemma excursion_snoc (reading : Obs.t -> option (Z * Z * bool)) before o :
  excursion (omap reading (before ++ [o]))
  = match reading o with Some r => (excursion_step (excursion (omap reading before)) r).1 | None => excursion (omap reading before) end.
Proof.
  unfold excursion. rewrite omap_app. cbn. destruct (reading o); [by rewrite fold_left_app|by rewrite app_nil_r].
Qed.

(** The state of the detectors, and what it stands for. *)
Record detectors_show (before : list Obs.t) (d : SharedLiveDiagState.t) (latched : bool) : Prop := {
  ds_low : SharedLiveDiagState.low_voltage_active d = holds low_voltage before;
  ds_high : SharedLiveDiagState.overvoltage_active d = holds overvoltage before;
  ds_knock : SharedLiveDiagState.knock_active d = holds knocking before;
  ds_oil : SharedLiveDiagState.oil_pressure_low_active d = holds oil_low before;
  ds_fuel : SharedLiveDiagState.fuel_pressure_low_active d = holds fuel_low before;
  ds_lambda : SharedLiveDiagState.lambda_invalid_active d = holds lambda_invalid before;
  ds_map : latch_shows (SharedLiveDiagState.map_range d) (excursion (omap map_reading before));
  ds_tps : latch_shows (SharedLiveDiagState.tps_range d) (excursion (omap tps_reading before));
  ds_store : latched = existsb damaged_store before
}.

Lemma detectors_new : detectors_show [] SharedLiveDiagState.default false.
Proof. by split. Qed.

(** ** Pushes *)
Section pushes.
Context {Sen Cap Act Dog Pub Sto : Type}.
Abbreviation adapter := (BoardAdapter.t Sen Cap Act Dog Pub Sto).
Implicit Types (a : adapter).

(** The history retains what the specification says, as far as it has room. *)
Definition reports (h : RetainedHistory.t) (r : Reported) : Prop :=
  exists s, history_shows h s /\ take OBD2_STORED_DTC_CAP (reported_codes r) = take OBD2_STORED_DTC_CAP (codes_seen s)
    /\ reported_frame r = head (seen s).

(** No fault is reported, and the log and the history are those of the specification. *)
Record retained_shows (d : Diagnosed) a : Prop := {
  rs_fault : fault_state a = FaultState.initial;
  rs_transition : fault_transition a = FaultTransition.default;
  rs_log : retains DIAG_LOG_ENTRY_COUNT (d.1.*1) (diag_log a);
  rs_history : reports (retained_obd2_history a) d.2
}.

Lemma log_positive : (0 < DIAG_LOG_ENTRY_COUNT)%nat /\ (Z.of_nat DIAG_LOG_ENTRY_COUNT | 256).
Proof. split; [unfold DIAG_LOG_ENTRY_COUNT; lia|by exists 16]. Qed.

Lemma reports_new data : reports (RetainedHistory.new data) nothing_reported.
Proof. by exists (mkHistorySpec [] FaultCode.None). Qed.

Lemma report_all xs r s f : take OBD2_STORED_DTC_CAP (reported_codes r) = take OBD2_STORED_DTC_CAP (codes_seen s) ->
  reported_frame r = head (seen s) ->
  let r' := fold_left report xs r in
  let s' := mkHistorySpec (seen s ++ xs) f in
  take OBD2_STORED_DTC_CAP (reported_codes r') = take OBD2_STORED_DTC_CAP (codes_seen s') /\ reported_frame r' = head (seen s').
Proof.
  cbv zeta. revert r s. induction xs as [|[e data] xs IH]; intros r s Hc Hf; cbn [fold_left].
  { rewrite app_nil_r. unfold codes_seen in *. by cbn [seen]. }
  destruct (IH (report r (e, data)) (mkHistorySpec (seen s ++ [(e, data)]) f)) as [H1 H2].
  - rewrite codes_seen_snoc. unfold report. cbn [reported_codes fst]. by rewrite !take_add_first, Hc.
  - unfold report. cbn [reported_frame seen]. rewrite Hf. by destruct (seen s).
  - cbn [seen] in H1, H2. rewrite <- app_assoc in H1, H2. done.
Qed.

(** A look at the whole log. *)
Lemma look_reports events data log h live r : reports h r -> retains DIAG_LOG_ENTRY_COUNT events log ->
  reports (RetainedHistory.observe_live_diagnostic FaultState.initial live (obd2_diag_log_events_array log) [None; None] data h)
    (look data events r).
Proof.
  intros (s & Hh & Hc & Hf) Hr. eexists. split; [apply observe_live_shows, Hh|].
  assert (events_observed FaultState.initial (obd2_diag_log_events_array log) [None; None] data (fault_seen s)
    = omap id (log_slots DIAG_LOG_ENTRY_COUNT events)) as E.
  { unfold events_observed. rewrite omap_app, log_array by apply Hr. cbn [omap list_omap id].
    rewrite app_nil_r, (retains_slots _ _ _ (proj1 log_positive) Hr).
    destruct (omap id (log_slots _ _)); [|done]. by case_bool_decide. }
  cbn [history_spec_step]. rewrite E. by apply report_all.
Qed.

Lemma push_shows e a a' d : push_shared_diag_log_event e a = Some a' -> retained_shows d a ->
  exists data, current_obd2_value_source a = Some data /\ current_obd2_value_source a' = Some data
    /\ retained_shows (log_event data d e) a' /\ shared_live_diag_state a' = shared_live_diag_state a
    /\ store_integrity_latched a' = store_integrity_latched a.
Proof.
  intros H [Hf Ht Hl Hh]. unfold push_shared_diag_log_event in H. apply bind_Some in H as (log & Hp & H).
  unfold reseed_obd2_retained_history_from_live_state in H. set (a1 := a <| diag_log := log |>) in *.
  apply bind_Some in H as (data & Hd & (live & _ & (recent & Hr & H)%bind_Some)%bind_Some). injection H as <-.
  exists data. split; [exact Hd|]. split; [exact Hd|]. split; [|done].
  destruct (retains_push _ _ e _ (proj1 log_positive) (proj2 log_positive) Hl) as (log' & Hp' & Hl').
  rewrite Hp in Hp'. injection Hp' as <-.
  assert (retains DIAG_LOG_ENTRY_COUNT ((d.1 ++ [(e, data)]).*1) log) as Hlog by (by rewrite fmap_app).
  split; [exact Hf|exact Ht|exact Hlog|].
  unfold current_obd2_recent_diag_events in Hr. rewrite Hd in Hr. cbn [mbind option_bind] in Hr.
  change (fault_transition a1) with (fault_transition a) in Hr. rewrite Ht in Hr.
  change (obd2_diag_event_from_fault_transition FaultTransition.default data) with (@None DiagEvent.t) in Hr.
  injection Hr as <-. cbn [retained_obd2_history modify_field]. change (fault_state a1) with (fault_state a). rewrite Hf.
  exact (look_reports _ data log _ live _ Hh Hlog).
Qed.

Lemma detected_shows e a a' events : push_detected e a = Some a' -> retained_shows events a ->
  current_obd2_value_source a' = current_obd2_value_source a
  /\ retained_shows (log_events (current_obd2_value_source a) (option_list e) events) a'
  /\ shared_live_diag_state a' = shared_live_diag_state a /\ store_integrity_latched a' = store_integrity_latched a.
Proof.
  destruct e as [e|]; cbn [push_detected option_list].
  - intros H Hr. destruct (push_shows _ _ _ _ H Hr) as (data & -> & -> & H1 & H2 & H3). done.
  - intros [= <-] Hr. by destruct (current_obd2_value_source a).
Qed.

Lemma log_events_app data es es' d : log_events data (es ++ es') d = log_events data es' (log_events data es d).
Proof. destruct data; cbn; [apply fold_left_app|done]. Qed.

(** The flags of the detectors are no part of what is retained. *)
Lemma flags_retained events f a : retained_shows events a -> retained_shows events (a <| shared_live_diag_state ::= f |>).
Proof. intros []. by split. Qed.

(** Where an observation has come: the data, the events, the detectors and the store's latch. *)
Definition seen_so_far (data : option Message.t) (events : Diagnosed) (d : SharedLiveDiagState.t)
    (latched : bool) a : Prop :=
  current_obd2_value_source a = data /\ retained_shows events a /\ shared_live_diag_state a = d
  /\ store_integrity_latched a = latched.

(** A detector of a condition: its event, then its flag. *)
Lemma detector_step code condition now value b f g before o data events d latched a a' :
  push_detected (observe_condition code now value (f (shared_live_diag_state a)) b) a = Some a' ->
  seen_so_far data events d latched a -> f d = holds condition before -> condition o = Some (now, value, b) ->
  seen_so_far data (log_events data (begins code condition before o) events) (g d) latched (a' <| shared_live_diag_state ::= g |>).
Proof.
  intros H (<- & Hr & <- & <-) Hf Hc. apply detected_shows with (events := events) in H as (H1 & H2 & H3 & H4); [|done].
  rewrite Hf in H2. rewrite (observe_condition_begins _ _ _ _ _ _ _ Hc) in H2.
  split; [exact H1|]. split; [by apply flags_retained|]. split; [|exact H4].
  transitivity (g (shared_live_diag_state a')); [reflexivity|]. by rewrite H3.
Qed.

Lemma range_detector code (reading : Obs.t -> option (Z * Z * bool)) now raw lo hi l before o :
  latch_shows l (excursion (omap reading before)) -> reading o = Some (now, raw, (lo <=? raw) && (raw <=? hi)) ->
  let r := observe_range code now raw lo hi CLEAR_TIME_US l in
  latch_shows r.1 (excursion (omap reading (before ++ [o]))) /\ option_list r.2 = ends code reading before o.
Proof.
  intros Hl Hr. pose proof (observe_range_shows code now raw lo hi l _ Hl) as [H1 H2]. cbv zeta in *.
  rewrite excursion_snoc, Hr. split; [exact H1|]. rewrite H2. unfold ends. rewrite Hr.
  by destruct (excursion (omap reading before)) as [[start since]|].
Qed.

Lemma observe_ranges_shows now s threshold a a' before events latched : sensor_limits a = SharedSensorLimits.default ->
  observe_shared_sensor_recovery_sources now s a = Some a' -> retained_shows events a ->
  detectors_show before (shared_live_diag_state a) latched ->
  let o := Obs.Sample now s threshold in
  exists m t, shared_live_diag_state a'
      = (shared_live_diag_state a) <| SharedLiveDiagState.map_range := m |> <| SharedLiveDiagState.tps_range := t |>
  /\ latch_shows m (excursion (omap map_reading (before ++ [o]))) /\ latch_shows t (excursion (omap tps_reading (before ++ [o])))
  /\ current_obd2_value_source a' = current_obd2_value_source a
  /\ retained_shows (log_events (current_obd2_value_source a)
       (ends DiagCode.MapRange map_reading before o ++ ends DiagCode.TpsRange tps_reading before o) events) a'
  /\ store_integrity_latched a' = store_integrity_latched a.
Proof.
  intros Hl H Hr Hd o. unfold observe_shared_sensor_recovery_sources in H. rewrite Hl in H.
  change (chk 32 _) with (Some CLEAR_TIME_US) in H. cbn [mbind option_bind] in H.
  set (raw_map := BoardSensorSnapshot.map_kpa10 s) in *. set (raw_tps := as_unsigned 8 _) in *.
  pose proof (range_detector DiagCode.MapRange map_reading now raw_map 100 3000 _ before o (ds_map _ _ _ Hd) eq_refl) as [M1 M2].
  pose proof (range_detector DiagCode.TpsRange tps_reading now raw_tps 0 100 _ before o (ds_tps _ _ _ Hd) eq_refl) as [T1 T2].
  cbn [SharedSensorLimits.map_min_kpa_x10 SharedSensorLimits.map_max_kpa_x10 SharedSensorLimits.tps_min_percent
    SharedSensorLimits.tps_max_percent SharedSensorLimits.default] in H.
  destruct (observe_range DiagCode.MapRange now raw_map 100 3000 CLEAR_TIME_US _) as [m em]. cbn [fst snd] in M1, M2.
  apply bind_Some in H as (a1 & H1 & H).
  apply detected_shows with (events := events) in H1 as (V1 & R1 & S1 & L1); [|by apply flags_retained].
  change (current_obd2_value_source (_ <| shared_live_diag_state ::= _ |>)) with (current_obd2_value_source a) in V1, R1.
  change (store_integrity_latched (_ <| shared_live_diag_state ::= _ |>)) with (store_integrity_latched a) in L1.
  replace (SharedLiveDiagState.tps_range (shared_live_diag_state a1)) with (SharedLiveDiagState.tps_range (shared_live_diag_state a))
    in H by (by rewrite S1).
  destruct (observe_range DiagCode.TpsRange now raw_tps 0 100 CLEAR_TIME_US _) as [t et]. cbn [fst snd] in T1, T2.
  apply detected_shows with (events := log_events (current_obd2_value_source a) (option_list em) events) in H as (V2 & R2 & S2 & L2);
    [|by apply flags_retained].
  change (current_obd2_value_source (_ <| shared_live_diag_state ::= _ |>)) with (current_obd2_value_source a1) in V2, R2.
  change (store_integrity_latched (_ <| shared_live_diag_state ::= _ |>)) with (store_integrity_latched a1) in L2.
  exists m, t. rewrite V1 in V2, R2. rewrite M2, T2, <- log_events_app in R2.
  split_and!; [|done..|congruence].
  transitivity ((shared_live_diag_state a1) <| SharedLiveDiagState.tps_range := t |>); [exact S2|]. by rewrite S1.
Qed.

Lemma live_sources_shown now c a a' before events latched :
  sensor_limits a = SharedSensorLimits.default -> logical_sensor_capture a = Some c ->
  observe_shared_live_diag_sources now a = Some a' -> retained_shows events a ->
  detectors_show before (shared_live_diag_state a) latched -> store_integrity_latched a = latched ->
  let o := Obs.Sample now (BoardSensorSnapshotCapture.snapshot c)
    (shared_live_knock_threshold_x100 (ControlPlannerState.fuel_strategy (EngineRuntime.planners (runtime a)))) in
  exists d, detectors_show (before ++ [o]) d latched
    /\ seen_so_far (current_obd2_value_source a) (log_events (current_obd2_value_source a) (events_at before o) events) d latched a'.
Proof.
  intros Hl Hc H Hr Hd Hlat. unfold observe_shared_live_diag_sources in H. rewrite Hc in H.
  set (threshold := shared_live_knock_threshold_x100 _). intros o. subst o.
  set (s := BoardSensorSnapshotCapture.snapshot c) in *. set (o := Obs.Sample now s threshold).
  apply bind_Some in H as (a0 & H0 & H).
  pose proof (observe_range_same _ _ _ _ H0) as (log0 & h0 & d0 & E0).
  destruct (observe_ranges_shows now s threshold a a0 before events latched Hl H0 Hr Hd) as (m & t & S0 & M & T & V0 & R0 & L0).
  fold o in M, T, R0. rewrite Hlat in L0.
  assert (runtime a0 = runtime a) as Hrt by (by subst a0). clear E0 H0 Hr.
  destruct Hd as [D1 D2 D3 D4 D5 D6 _ _ D9].
  assert (seen_so_far (current_obd2_value_source a) _ _ latched a0) as P0 by exact (conj V0 (conj R0 (conj S0 L0))).
  apply bind_Some in H as (a1 & H1 & H).
  apply (detector_step _ low_voltage _ _ _ SharedLiveDiagState.low_voltage_active
    (fun d => d <| SharedLiveDiagState.low_voltage_active := (0 <? BoardSensorSnapshot.vbatt_mv s) && (BoardSensorSnapshot.vbatt_mv s <? BROWNOUT_CRITICAL_MV) |>)
    before o _ _ _ _ _ _ H1) in P0 as P1; [|exact D1|done].
  apply bind_Some in H as (a2 & H2 & H).
  apply (detector_step _ overvoltage _ _ _ SharedLiveDiagState.overvoltage_active
    (fun d => d <| SharedLiveDiagState.overvoltage_active := OVERVOLTAGE_MV <? BoardSensorSnapshot.vbatt_mv s |>)
    before o _ _ _ _ _ _ H2) in P1 as P2; [|exact D2|done].
  apply bind_Some in H as (a3 & H3 & H).
  set (knock := knock_detected s _) in *.
  assert (knocking o = Some (now, BoardSensorSnapshot.knock_x100 s, knock)) as Hk.
  { unfold knock, knock_detected. cbn [knocking o].
    replace (runtime (a2 <| shared_live_diag_state ::= _ |>)) with (runtime a); [done|].
    apply detected_same in H2 as [(? & ? & ? & ->) _]. apply detected_same in H1 as [(? & ? & ? & ->) _]. cbn. congruence. }
  apply (detector_step _ knocking _ _ _ SharedLiveDiagState.knock_active
    (fun d => d <| SharedLiveDiagState.knock_active := knock |>) before o _ _ _ _ _ _ H3) in P2 as P3; [|exact D3|done].
  apply bind_Some in H as (a4 & H4 & H).
  apply (detector_step _ lambda_invalid _ _ _ SharedLiveDiagState.lambda_invalid_active
    (fun d => d <| SharedLiveDiagState.lambda_invalid_active := (0 <? BoardSensorSnapshot.lambda_x100 s)
      && negb (BoardSensorValidityFlags.contains (BoardSensorSnapshot.validity s) BoardSensorValidityFlags.LAMBDA) |>)
    before o _ _ _ _ _ _ H4) in P3 as P4; [|exact D6|done].
  injection H as <-. rewrite <- !log_events_app, <- !app_assoc in P4. eexists. split; [|exact P4].
  split; rewrite ?holds_snoc; try done.
  - cbn. injection Hk as Hk. by rewrite Hk.
  - cbn. by rewrite existsb_app, <- D9, orb_false_r.
Qed.

Lemma pressure_sources_shown now oil fuel ov fv a a' before events latched :
  observe_shared_pressure_diag_sources now oil fuel ov fv a = Some a' -> retained_shows events a ->
  detectors_show before (shared_live_diag_state a) latched -> store_integrity_latched a = latched ->
  let o := Obs.Pressure now oil fuel ov fv in
  exists d, detectors_show (before ++ [o]) d latched
    /\ seen_so_far (current_obd2_value_source a) (log_events (current_obd2_value_source a) (events_at before o) events) d latched a'.
Proof.
  intros H Hr Hd Hlat o. unfold observe_shared_pressure_diag_sources in H.
  assert (seen_so_far (current_obd2_value_source a) events _ latched a) as P0 by exact (conj eq_refl (conj Hr (conj eq_refl Hlat))).
  destruct Hd as [D1 D2 D3 D4 D5 D6 M T D9].
  apply bind_Some in H as (a1 & H1 & H).
  apply (detector_step _ oil_low _ _ _ SharedLiveDiagState.oil_pressure_low_active
    (fun d => d <| SharedLiveDiagState.oil_pressure_low_active := ov && (oil <? OIL_PRESSURE_MIN_KPA10) |>)
    before o _ _ _ _ _ _ H1) in P0 as P1; [|exact D4|done].
  apply bind_Some in H as (a2 & H2 & H).
  apply (detector_step _ fuel_low _ _ _ SharedLiveDiagState.fuel_pressure_low_active
    (fun d => d <| SharedLiveDiagState.fuel_pressure_low_active := fv && (fuel <? FUEL_PRESSURE_MIN_KPA10) |>)
    before o _ _ _ _ _ _ H2) in P1 as P2; [|exact D5|done].
  injection H as <-. rewrite <- !log_events_app in P2. eexists. split; [|exact P2].
  split; rewrite ?holds_snoc, ?excursion_snoc; try done. cbn. by rewrite existsb_app, <- D9, orb_false_r.
Qed.
End pushes.

(** ** Operations *)
Section operations.
Context {Sen Cap Act Dog Pub Sto ES EC EA EW ET EP : Type}.
Context `{!SampleSource Sen ES, !CaptureSink Cap EC, !ActionExecutor Act EA, !Watchdog Dog EW, !TransportPublisher Pub ET,
  !PersistedCalibrationStore Sto EP}.
Abbreviation adapter := (BoardAdapter.t Sen Cap Act Dog Pub Sto).
Implicit Types (a : adapter).

(** The adapter after what has been observed. *)
Definition diagnosed (s : list Obs.t * Diagnosed) a : Prop :=
  retained_shows s.2 a /\ detectors_show s.1 (shared_live_diag_state a) (store_integrity_latched a).

Lemma diagnosed_same s a a' : diagnosed s a -> fault_state a' = FaultState.initial ->
  fault_transition a' = FaultTransition.default -> diag_log a' = diag_log a ->
  retained_obd2_history a' = retained_obd2_history a -> shared_live_diag_state a' = shared_live_diag_state a ->
  store_integrity_latched a' = store_integrity_latched a -> diagnosed s a'.
Proof. intros [[] Hd] E1 E2 E3 E4 E5 E6. split; [split|]; rewrite ?E3, ?E4, ?E5, ?E6; done. Qed.

(** The service of the bus looks at the log again. *)
Lemma serve_shows d a a' : Obd2MultiServiceTransportService.observe a = Some a' -> retained_shows d a ->
  exists data, current_obd2_value_source a = Some data /\ retained_shows (d.1, look data d.1.*1 d.2) a'
  /\ shared_live_diag_state a' = shared_live_diag_state a /\ store_integrity_latched a' = store_integrity_latched a.
Proof.
  intros H [Hf Ht Hl Hh]. unfold Obd2MultiServiceTransportService.observe in H.
  apply bind_Some in H as (recent & Hrec & (data & Hd & (live & _ & [= <-])%bind_Some)%bind_Some).
  exists data. split; [exact Hd|]. split; [|done]. split; [exact Hf|exact Ht|exact Hl|].
  cbn [obd2_diag_log_events recent_obd2_diag_events board_request_owner] in Hrec.
  assert (recent = [None; None]) as ->.
  { destruct (existsb _ _); [by injection Hrec as <-|]. unfold current_obd2_recent_diag_events in Hrec. rewrite Ht in Hrec.
    apply bind_Some in Hrec as (x & _ & [= <-]). reflexivity. }
  change (reports (RetainedHistory.observe_live_diagnostic (BoardAdapter.fault_state a) live
    (obd2_diag_log_events_array (diag_log a)) [None; None] data (retained_obd2_history a)) (look data d.1.*1 d.2)).
  rewrite Hf. by apply look_reports.
Qed.

Lemma detectors_snoc_other before d l o : (forall now s t, o <> Obs.Sample now s t) ->
  (forall now x y u v, o <> Obs.Pressure now x y u v) -> detectors_show before d l ->
  detectors_show (before ++ [o]) d (l || damaged_store o).
Proof.
  intros Hs Hp []. destruct o; try done; [by edestruct Hs|by edestruct Hp|..];
    (split; rewrite ?holds_snoc, ?excursion_snoc; try done; rewrite existsb_app; cbn; by subst l; rewrite orb_false_r).
Qed.

Lemma clear_diagnosed s a : diagnosed s a -> diagnosed ([], ([], nothing_reported)) (clear_diagnostics a).1.
Proof.
  intros [[Hf Ht _ Hh] _]. split; [|exact detectors_new]. split; [done|exact Ht|exact (retains_new _)|].
  destruct Hh as (h & Hh & _). eexists. split; [exact (history_step_shows HistoryOp.Clear _ _ Hh)|done].
Qed.

Lemma pushed_diagnosed e a a' o before events : push_shared_diag_log_event e a = Some a' -> diagnosed (before, events) a ->
  events_at before o = [e] -> (forall now s t, o <> Obs.Sample now s t) -> (forall now x y u v, o <> Obs.Pressure now x y u v) ->
  retained_shows (log_events (current_obd2_value_source a) (events_at before o) events) a'
  /\ detectors_show (before ++ [o]) (shared_live_diag_state a') (store_integrity_latched a' || damaged_store o).
Proof.
  intros H [Hr Hd] He Hs Hp. destruct (push_shows _ _ _ _ H Hr) as (data & -> & _ & Hr' & -> & ->). rewrite He.
  split; [exact Hr'|]. by apply detectors_snoc_other.
Qed.

Lemma tick_diagnosed now control a a' (r : Result StepResult.t (BoardAdapterError.t ES EC EA EW ET EP)) s :
  on_tick now control a = Some (a', r) -> sensor_limits a = SharedSensorLimits.default -> untouched (runtime a) ->
  diagnosed s a -> diagnosed (fold_left expected_step (if is_ok r then sample_moments now a' else []) s) a'.
Proof.
  intros (rt & result & a1 & r1 & Hs & He & H)%on_tick_spec Hl Hu Hd.
  assert (untouched rt) as Hu'.
  { eapply (board_call_untouched (EngineOp.StepAuthority (pending_inputs (at_time now a)) control)); [done| |exact Hu].
    cbn [EngineOp.run]. unfold EngineOp.run_step. by rewrite Hs. }
  apply execute_step_frame in He as (x & t & st & w & E1).
  assert (fault_state a1 = FaultState.initial) as Hf1 by (subst a1; apply Hu').
  assert (sensor_limits a1 = SharedSensorLimits.default) as Hl1 by (by subst a1).
  assert (diagnosed s a1) as Hd1.
  { apply (diagnosed_same s a); [exact Hd|exact Hf1|subst a1; apply Hd|by subst a1..]. }
  clear E1 Hd Hl. destruct r1 as [[]|e]; [|destruct H as [-> ->]; exact Hd1].
  destruct H as (a2 & a3 & shown & H2 & H3 & _ & -> & ->). cbn [is_ok].
  assert (fault_state a = FaultState.initial) as Ef by apply Hu. rewrite Ef in H3.
  pose proof (observe_live_same _ _ _ H2) as (log & h & d' & E2).
  rewrite no_fault_no_transition in H3; [|by subst a2|subst a2; apply Hd1]. injection H3 as <-.
  set (a3 := a2 <| telemetry := shown |>).
  assert (logical_sensor_capture a3 = logical_sensor_capture a1) as Ec3 by (by subst a2).
  assert (runtime a3 = runtime a1) as Er3 by (by subst a2). unfold sample_moments. rewrite Ec3.
  destruct (logical_sensor_capture a1) as [c|] eqn:Ec.
  - destruct s as [before events]. destruct Hd1 as [Hr Hd]. cbn [fst snd] in Hr, Hd.
    destruct (live_sources_shown now c a1 a2 before events _ Hl1 Ec H2 Hr Hd eq_refl) as (d & Hd2 & Hv & Hr2 & Hs2 & Hlat).
    unfold moment. rewrite Er3. change (current_obd2_value_source a3) with (current_obd2_value_source a2). rewrite Hv.
    cbn [fold_left expected_step fst snd]. split; cbn [fst snd]; [destruct Hr2; by split|].
    change (detectors_show (before ++ [Obs.Sample now (BoardSensorSnapshotCapture.snapshot c)
      (shared_live_knock_threshold_x100 (ControlPlannerState.fuel_strategy (EngineRuntime.planners (runtime a1))))])
      (shared_live_diag_state a2) (store_integrity_latched a2)). by rewrite Hs2, Hlat.
  - unfold observe_shared_live_diag_sources in H2. rewrite Ec in H2. injection H2 as <-. cbn [fold_left].
    apply (diagnosed_same s a1); try done. apply Hd1.
Qed.

(** What a snapshot of a history brings back. *)
Definition taken (snapshot : RetainedHistory.t) : Prop :=
  exists h s, history_shows h s /\ snapshot = RetainedHistory.snapshot h.
Definition restorable (op : BoardOp.t) : Prop := match op with BoardOp.Restore snapshot => taken snapshot | _ => True end.

Lemma restored_reports snapshot h : taken snapshot ->
  reports (RetainedHistory.restore_from_snapshot snapshot h) (reported_of snapshot).
Proof.
  intros (h0 & s & Hh & ->). pose proof (shown_count_le _ _ Hh) as Hc. exists s. rewrite snapshot_restored by done.
  split; [done|]. assert (RetainedHistory.stored (RetainedHistory.snapshot h0) = RetainedHistory.stored h0) as E.
  { unfold RetainedHistory.stored, RetainedHistory.snapshot. cbn -[u8_max].
    rewrite Z.min_l; [done|]. unfold u8_max, OBD2_STORED_DTC_CAP in *. lia. }
  split; cbn [reported_of reported_codes reported_frame].
  - by rewrite E, (shows_codes _ _ Hh), take_take, Nat.min_id.
  - change (RetainedHistory.freeze_frame_event (RetainedHistory.snapshot h0)) with (RetainedHistory.freeze_frame_event h0).
    change (RetainedHistory.freeze_frame_value_source (RetainedHistory.snapshot h0)) with (RetainedHistory.freeze_frame_value_source h0).
    rewrite (shows_freeze_event _ _ Hh), (shows_freeze_data _ _ Hh). by destruct (head (seen s)) as [[]|].
Qed.

Lemma run_op_diagnosed op a a' ms s : restorable op -> run_op op a = Some (a', ms) -> sensor_limits a = SharedSensorLimits.default ->
  untouched (runtime a) -> untouched (runtime a') -> fault_transition a' = FaultTransition.default ->
  diagnosed s a -> diagnosed (fold_left expected_step ms s) a'.
Proof.
  intros Hop H Hl Hu Hu' Ht' Hd. assert (fault_state a' = FaultState.initial) as Hf' by apply Hu'.
  destruct op as [e| | |status|e| |strategy|dirty|l f|snapshot|identity|status|status]; cbn [run_op] in H.
  - apply bind_Some in H as ([a1 r] & He & H). injection H as -> <-.
    destruct e as [at_us rpm angle authority synced|at_us seen|c|now oil fuel ov fv|now control]; cbn [apply_event] in He.
    + cbn [fold_left]. injection He as He _. unfold on_trigger_edge in He. set (a0 := _ <| captured := _ |>) in He.
      destruct (capture_into_frame (ES := ES) (EA := EA) (EW := EW) (ET := ET) (EP := EP) (CaptureSample.mk at_us rpm (EngineState.load_kpa10 (RuntimeSnapshot.engine (EngineRuntime.runtime_snapshot (runtime a)))) angle) a0) as [k Hk].
      destruct (capture_into _ a0) as [a2 [[]|er]]; cbn [fst] in *; subst a2 a'; by apply (diagnosed_same s a).
    + injection He as <- _. by apply (diagnosed_same s a).
    + cbn [fold_left]. injection He as He _. unfold on_sensor_snapshot in He. set (a0 := _ <| runtime ::= _ |>) in He.
      destruct (capture_into_frame (ES := ES) (EA := EA) (EW := EW) (ET := ET) (EP := EP) (map_speed_density_capture_sample c) a0) as [k Hk]. rewrite Hk in He. subst a'.
      by apply (diagnosed_same s a).
    + apply bind_Some in He as (a2 & H2 & [= -> _]). destruct s as [before events]. destruct Hd as [Hr Hd]. cbn [fst snd] in Hr, Hd.
      assert (retained_shows events (at_time now a)) as Hr0 by (destruct Hr; by split).
      destruct (pressure_sources_shown now oil fuel ov fv (at_time now a) a' before events _ H2 Hr0 Hd eq_refl)
        as (d & Hd2 & _ & Hr2 & Hs2 & Hlat).
      cbn [fold_left expected_step moment fst snd]. split; [exact Hr2|]. cbn [fst]. by rewrite Hs2, Hlat.
    + apply bind_Some in He as ([a2 r2] & H2 & [= -> <-]).
      pose proof (tick_diagnosed _ _ _ _ _ s H2 Hl Hu Hd) as Hdone. by destruct r2.
  - injection H as H <-. unfold poll_sensor in H.
    destruct (BoardInputs.sample (sensor a)) as [sn [sample|er]]; [|subst a'; by apply (diagnosed_same s a)].
    set (a0 := _ <| captured := _ |>) in H. destruct (capture_into_frame (ES := ES) (EA := EA) (EW := EW) (ET := ET) (EP := EP) sample a0) as [k Hk].
    destruct (capture_into sample a0) as [a2 [[]|er]]; cbn [fst] in *; subst a2 a'; by apply (diagnosed_same s a).
  - injection H as <- <-. destruct s. cbn. by eapply clear_diagnosed.
  - apply bind_Some in H as (a1 & H & [= -> <-]). destruct s as [before events]. unfold record_store_integrity_status in H.
    pose proof Hd as [Hr Hds]. cbn [fst snd] in Hr, Hds.
    assert (forall b, b && negb (existsb damaged_store before) = false -> store_integrity_latched a' = store_integrity_latched a ->
      a' = a -> diagnosed (fold_left expected_step [moment (Obs.Store b) a] (before, events)) a') as Hquiet.
    { intros b Hb Hlat ->. cbn [fold_left expected_step moment fst snd events_at]. rewrite Hb.
      split; cbn [fst snd]; [by destruct (current_obd2_value_source a)|].
      pose proof (detectors_snoc_other before _ _ (Obs.Store b) ltac:(done) ltac:(done) Hds) as H1. cbn in H1.
      rewrite (ds_store _ _ _ Hds) in *. destruct b, (existsb damaged_store before); done. }
    destruct (store_integrity_latched a) eqn:El.
    { injection H as <-. apply Hquiet; [|done..]. rewrite <- (ds_store _ _ _ Hds). by rewrite andb_false_r. }
    destruct status; [injection H as <-; by apply Hquiet..| |];
      (apply bind_Some in H as (a2 & H2 & [= <-]);
       pose proof (ds_store _ _ _ Hds) as Hst;
       destruct (pushed_diagnosed _ _ _ (Obs.Store true) _ _ H2 Hd) as [H3 H4]; [cbn; by rewrite <- Hst|done..|];
       cbn [fold_left expected_step moment fst snd]; split; [destruct H3; by split|];
       cbn in H4 |- *; by rewrite orb_true_r in H4).
  - apply bind_Some in H as (a1 & H & [= -> <-]). destruct s as [before events].
    destruct (pushed_diagnosed _ _ _ (Obs.External e) _ _ H Hd) as [H3 H4]; [done..|].
    cbn [fold_left expected_step moment fst snd]. split; [exact H3|]. cbn in H4 |- *. by rewrite orb_false_r in H4.
  - apply bind_Some in H as (a1 & H & [= -> <-]). destruct s as [before d], Hd as [Hr Hds]. cbn [fst snd] in Hr, Hds.
    destruct (serve_shows _ _ _ H Hr) as (data & Hdata & H1 & H2 & H3). cbn [fold_left expected_step moment fst snd].
    rewrite Hdata. split; [exact H1|]. cbn [fst]. by rewrite H2, H3.
  - injection H as <- <-. by apply (diagnosed_same s a).
  - injection H as <- <-. by apply (diagnosed_same s a).
  - injection H as <- <-. by apply (diagnosed_same s a).
  - injection H as <- <-. destruct s as [before d], Hd as [[Hf Ht Hl' _] Hds]. cbn [fold_left expected_step moment fst snd].
    split; [|exact Hds]. split; [exact Hf'|exact Ht'|exact Hl'|]. by apply restored_reports.
  - injection H as <- <-. by apply (diagnosed_same s a).
  - injection H as <- <-. by apply (diagnosed_same s a).
  - injection H as <- <-. by apply (diagnosed_same s a).
Qed.
End operations.

(** ** What is reported of a history that has not been restored *)
Definition reported_since (events : list (DiagEvent.t * Message.t)) : Reported :=
  mkReported (firsts ((fun e => DiagEvent.code e.1) <$> events)) (head events).

Lemma reports_codes xs r : reported_codes (fold_left report xs r)
  = foldl add_first (reported_codes r) ((fun e => DiagEvent.code e.1) <$> xs).
Proof. revert r. induction xs as [|x xs IH]; intros r; [done|]. cbn [fold_left fmap list_fmap foldl]. by rewrite IH. Qed.

Lemma reports_frame xs r : reported_frame (fold_left report xs r)
  = match reported_frame r with Some f => Some f | None => head xs end.
Proof.
  revert r. induction xs as [|x xs IH]; intros r; cbn [fold_left]; [by destruct (reported_frame r)|].
  rewrite IH. by destruct r as [cs [f|]].
Qed.

Lemma logged_codes (es : list DiagEvent.t) (data : Message.t) :
  (fun e : DiagEvent.t * Message.t => DiagEvent.code e.1) <$> ((., data) <$> es) = DiagEvent.code <$> es.
Proof. by rewrite <- list_fmap_compose. Qed.

Lemma events_codes (events : list (DiagEvent.t * Message.t)) :
  (fun e => DiagEvent.code e.1) <$> events = DiagEvent.code <$> events.*1.
Proof. by rewrite <- list_fmap_compose. Qed.

Lemma firsts_foldl (xs ys : list DiagCode.t) : foldl add_first (firsts xs) ys = firsts (xs ++ ys).
Proof. unfold firsts. by rewrite foldl_app. Qed.

(** A look at a log of which everything has been reported changes nothing. *)
Lemma look_again data events : look data events.*1 (reported_since events) = reported_since events.
Proof.
  unfold look. set (slots := omap id _).
  assert (forall e, e ∈ slots -> e ∈ events.*1) as Hsub by (apply slots_subset).
  destruct (fold_left report _ _) as [codes frame] eqn:E. unfold reported_since. f_equal.
  - change codes with (reported_codes (mkReported codes frame)). rewrite <- E, reports_codes, logged_codes.
    unfold reported_since. cbn [reported_codes]. rewrite firsts_foldl. apply firsts_subset.
    intros c (e & -> & He)%list_elem_of_fmap. rewrite events_codes. by apply list_elem_of_fmap_2, Hsub.
  - change frame with (reported_frame (mkReported codes frame)). rewrite <- E, reports_frame. clearbody slots. unfold reported_since. cbn [reported_frame].
    destruct events; [|done]. cbn. destruct slots as [|x xs]; [done|]. by specialize (Hsub x ltac:(left)) as ?%elem_of_nil.
Qed.

Lemma log_event_since data e events :
  log_event data (events, reported_since events) e = (events ++ [(e, data)], reported_since (events ++ [(e, data)])).
Proof.
  unfold log_event. cbn [fst snd]. f_equal. unfold look. rewrite fmap_app. cbn [fmap list_fmap fst].
  pose proof (slots_last DIAG_LOG_ENTRY_COUNT events.*1 e (proj1 log_positive)) as Hlast.
  pose proof (slots_subset DIAG_LOG_ENTRY_COUNT (events.*1 ++ [e])) as Hsub. set (slots := omap id _) in *.
  destruct (fold_left report _ _) as [codes frame] eqn:E. unfold reported_since. f_equal.
  - change codes with (reported_codes (mkReported codes frame)). rewrite <- E, reports_codes, logged_codes.
    unfold reported_since. cbn [reported_codes]. rewrite firsts_foldl, fmap_app. cbn [fmap list_fmap fst].
    rewrite firsts_app. apply firsts_absorb; [by apply list_elem_of_fmap_2|].
    intros c (y & -> & Hy)%list_elem_of_fmap. apply Hsub, elem_of_app in Hy as [Hy| ->%list_elem_of_singleton]; [left|by right].
    rewrite events_codes. by apply list_elem_of_fmap_2.
  - change frame with (reported_frame (mkReported codes frame)). rewrite <- E, reports_frame. clearbody slots. unfold reported_since. cbn [reported_frame].
    destruct events as [|x events]; [|done]. cbn in Hsub |- *. destruct slots as [|x xs]; [by apply elem_of_nil in Hlast|].
    specialize (Hsub x ltac:(left)). apply list_elem_of_singleton in Hsub as ->. done.
Qed.

Lemma log_events_since data es events :
  exists events', log_events data es (events, reported_since events) = (events', reported_since events').
Proof.
  destruct data as [data|]; [|by exists events]. unfold log_events. revert events.
  induction es as [|e es IH]; intros events; [by exists events|]. cbn [fold_left]. rewrite log_event_since. apply IH.
Qed.

(** Whether the history was restored since the last clear. *)
Definition restored_since_clear (ms : list Moment) : bool :=
  fold_left (fun b m => match m.1 with Obs.Clear => false | Obs.Restored _ => true | _ => b end) ms false.

Lemma unrestored_reports ms : restored_since_clear ms = false -> (expected ms).2.2 = reported_since (expected ms).2.1.
Proof.
  unfold restored_since_clear, expected. induction ms as [|[o data] ms IH] using rev_ind; [done|].
  rewrite !fold_left_app. cbn [fold_left]. destruct (fold_left expected_step ms _) as [before [events r]]. cbn [fst snd] in *.
  unfold expected_step. cbn [fst snd].
  assert (forall es, r = reported_since events -> (log_events data es (events, r)).2 = reported_since (log_events data es (events, r)).1) as Hlog.
  { intros es ->. by destruct (log_events_since data es events) as [events' ->]. }
  destruct o; intros Hb; try discriminate Hb; cbn [snd fst]; try exact (Hlog _ (IH Hb)); [|reflexivity].
  rewrite (IH Hb). destruct data; [apply look_again|reflexivity].
Qed.

(** ** Theorems *)

(** C3: The diagnostics of a board are exact.  After any run, errors included, its log holds
    the last sixteen of the events expected of what was observed since the last clear, each
    in its slot, and the detectors are where the specification says: each condition is
    logged once when it begins, each excursion once when it ends, a damaged store once.  Its
    retained history is what the looks at that log have reported, the first three distinct
    codes and the first event with the sensor data of its moment: without a restore since
    the last clear those are the first three codes of all the events since then and the first
    of them, so asking for the history over the bus reports nothing twice; a restore from
    the snapshot of a history, at boot or later, replaces what was reported by what the
    snapshot reports, until the next event or request looks at the log again.  A run is any
    sequence of the calls that change the state of an adapter. *)
Theorem board_diagnostics_exact {Sen Cap Act Dog Pub Sto ES EC EA EW ET EP : Type}
    `{!SampleSource Sen ES, !CaptureSink Cap EC, !ActionExecutor Act EA, !Watchdog Dog EW, !TransportPublisher Pub ET,
      !PersistedCalibrationStore Sto EP} ops sen cap act dog pub sto (a0 a : BoardAdapter.t Sen Cap Act Dog Pub Sto) ms :
  new sen cap act dog pub sto = Some a0 -> Forall restorable ops -> run_ops ops a0 = Some (a, ms) ->
  let '(before, (events, reported)) := expected ms in
  retains DIAG_LOG_ENTRY_COUNT events.*1 (diag_log a)
  /\ RetainedHistory.stored (retained_obd2_history a) = take OBD2_STORED_DTC_CAP (reported_codes reported)
  /\ RetainedHistory.freeze_frame_event (retained_obd2_history a) = fst <$> reported_frame reported
  /\ RetainedHistory.freeze_frame_value_source (retained_obd2_history a) = snd <$> reported_frame reported
  /\ (restored_since_clear ms = false ->
      reported = mkReported (firsts ((fun e => DiagEvent.code e.1) <$> events)) (head events))
  /\ detectors_show before (shared_live_diag_state a) (store_integrity_latched a).
Proof.
  intros Hnew Hops Hrun. cut (diagnosed (expected ms) a).
  { pose proof (unrestored_reports ms) as Hu. destruct (expected ms) as [before [events r]].
    intros [[_ _ Hl (s & [] & Hc & Hf)] Hd]. cbn [fst snd] in *. rewrite Hc, Hf. by split_and!. }
  unfold expected.
  assert (diagnosed ([], ([], nothing_reported)) a0 /\ untouched (runtime a0) /\ sensor_limits a0 = SharedSensorLimits.default) as H0.
  { unfold new in Hnew. apply bind_Some in Hnew as (d & _ & [= <-]).
    split; [|split; [apply untouched_new|done]]. split; [|exact detectors_new]. split; [done|done|exact (retains_new _)|apply reports_new]. }
  clear Hnew. revert a0 ms Hrun H0. generalize (([], ([], nothing_reported)) : list Obs.t * Diagnosed).
  induction Hops as [|op ops Hop Hops IH]; intros s a0 ms Hrun (Hd & Hu & Hl); cbn [run_ops] in Hrun.
  { injection Hrun as <- <-. exact Hd. }
  apply bind_Some in Hrun as ([a1 m1] & H1 & Hrun). apply bind_Some in Hrun as ([a2 m2] & H2 & Hrun). injection Hrun as -> <-.
  pose proof H1 as (calls & Hc & (acts & Hr) & _ & Hl1 & Ht1)%run_op_calls.
  assert (untouched (runtime a1)) as Hu1 by (by eapply board_calls_untouched).
  rewrite fold_left_app. eapply IH; [exact H2|]. split; [|split; [done|congruence]].
  eapply run_op_diagnosed; [exact Hop|exact H1|done..| |done]. apply Ht1; [done|apply Hd].
Qed.

(** A signal that has been within its range once counts as recovered three seconds later,
    whatever it does in between. *)
Lemma relapse_does_not_matter start since relapse now value :
  Forall (fun r : Z * Z * bool => r.2 = false) relapse -> since <> 0 ->
  CLEAR_TIME_US <= wrapping_sub 32 now since ->
  excursion ([(start, value, false); (since, value, true)] ++ relapse) = Some (start, Some since)
  /\ excursion_step (Some (start, Some since)) (now, value, true) = (None, true).
Proof.
  intros Hr Hs Hn. split.
  - unfold excursion. rewrite fold_left_app.
    assert (fold_left (fun e r => (excursion_step e r).1) [(start, value, false); (since, value, true)] None = Some (start, Some since)) as ->.
    { cbn -[CLEAR_TIME_US wrapping_sub]. unfold wrapping_sub. rewrite Z.sub_diag. cbn. by destruct (Z.eqb_spec since 0). }
    induction Hr as [|[[t v] b] rs Hb _ IH]; [done|]. cbn in Hb. subst b. exact IH.
  - cbn -[CLEAR_TIME_US wrapping_sub]. by rewrite (proj2 (Z.leb_le _ _)).
Qed.

(** ** Witness: a low battery, a damaged store and a low oil pressure *)
#[local] Existing Instances bench_sample bench_capture bench_execute bench_feed bench_publish bench_save.

(** The board is restored at boot from a history that had seen an overvoltage, after its
    damaged store was noticed, as the firmware does: the damage is reported with the next event. *)
Definition overvoltage_seen : DiagEvent.t := DiagEvent.mk DiagCode.Overvoltage 7 DiagSource.Sensor (Some 16000) 7 0.
Definition earlier : HistoryOp.t := HistoryOp.Observe FaultState.initial None [Some overvoltage_seen] [None] sample_data.
Definition earlier_snapshot : RetainedHistory.t := RetainedHistory.snapshot (history_step earlier (RetainedHistory.new sample_data)).
Definition rebooted : list BoardOp.t :=
  [BoardOp.Integrity StoreIntegrityStatus.Corrupt; BoardOp.Restore earlier_snapshot] ++ bench_ops.

Lemma earlier_taken : taken earlier_snapshot.
Proof.
  exists (history_step earlier (RetainedHistory.new sample_data)), (history_spec_step earlier (mkHistorySpec [] FaultCode.None)).
  split; [|done]. apply history_step_shows. by split.
Qed.

Lemma board_diagnostics_exact_witness :
  exists a0 a ms, new_bench 100 = Some a0 /\ run_ops rebooted a0 = Some (a, ms)
  /\ DiagEvent.code <$> (expected ms).2.1.*1 = [DiagCode.PersistCrcFault; DiagCode.LowVoltage; DiagCode.OilPressureLow]
  /\ RetainedHistory.stored (retained_obd2_history a)
     = [DiagCode.Overvoltage; DiagCode.PersistCrcFault; DiagCode.LowVoltage]
  /\ RetainedHistory.freeze_frame_event (retained_obd2_history a) = Some overvoltage_seen
  /\ retains DIAG_LOG_ENTRY_COUNT (expected ms).2.1.*1 (diag_log a).
Proof.
  assert (seen_of (fun _ ms => (DiagEvent.code <$> (expected ms).2.1.*1, take OBD2_STORED_DTC_CAP (reported_codes (expected ms).2.2),
      fst <$> reported_frame (expected ms).2.2)) 100 rebooted
    = Some ([DiagCode.PersistCrcFault; DiagCode.LowVoltage; DiagCode.OilPressureLow],
        [DiagCode.Overvoltage; DiagCode.PersistCrcFault; DiagCode.LowVoltage], Some overvoltage_seen))
    as (a0 & a & ms & H0 & H & Hc)%seen_of_Some by (vm_compute; reflexivity).
  exists a0, a, ms. injection Hc as C1 C2 C3.
  assert (Forall restorable rebooted) as Hr by (repeat constructor; apply earlier_taken).
  pose proof (board_diagnostics_exact (ES := unit) (EC := unit) rebooted _ _ _ _ _ _ a0 a ms H0 Hr H) as Hd.
  destruct (expected ms) as [before [events r]]. destruct Hd as (Hl & Hs & Hf & _). cbn [fst snd] in *.
  rewrite Hs, Hf, C2, C3. split_and!; done.
Defined.
