(* ===== verification/BoardTrace.v ===== *)
(** * Observability traces of a board (boards/common/src/adapter.rs)

    The fixed-capacity traces of observability samples and of tagged records, the pair of
    them that a board drains together, what a sample holds, and the operations of the adapter
    that push to them.  The two traces of the code have the same operations on items of two
    types; here they are one, over any type of item. *)
From S2P Require Import Prelude Domain BoardApi Queue SchedState Lowering Control SemanticFuel Calibration Engine EngineStep CanTypes.
From S2P Require Import BoardInputs Obd2History Observations BoardTelemetry BoardAdapter.

(** ** One trace *)
Module TraceStatus.
(** [CommonObservabilityTraceStatus] *)
Record t := mk { len : nat; capacity : nat; free_slots : nat; overflow_count : Z }.
End TraceStatus.

Module CycleReport.
(** [CommonObservabilityTraceCycleReport] *)
Record t := mk { drained : nat; overflow_count : Z; status : TraceStatus.t }.
End CycleReport.

Module Trace.
Section ops.
Context {A : Type}.

(** [FixedCommonObservabilityTrace<N>], [N] the length of [items]. *)
Record t := mk { items : list (option A); len : nat; overflow_count : Z }.
#[global] Instance eta : Eta t := fun tr => mk (items tr) (len tr) (overflow_count tr).

Definition new (N : nat) : t := mk (replicate N None) 0 0.
Definition capacity (tr : t) : nat := length (items tr).
Definition free_slots (tr : t) : nat := capacity tr - len tr.
Definition status (tr : t) : TraceStatus.t := TraceStatus.mk (len tr) (capacity tr) (free_slots tr) (overflow_count tr).
Definition take_overflow_count (tr : t) : t * Z := (tr <| overflow_count := 0 |>, overflow_count tr).
Definition get (index : nat) (tr : t) : option A :=
  if (index <? len tr)%nat then default None (items tr !! index) else None.

(** The error is the overflow with the capacity. *)
Definition push (x : A) (tr : t) : t * Result unit nat :=
  if (len tr =? capacity tr)%nat then (tr <| overflow_count ::= fun n => saturating_add 32 n 1 |>, Err (capacity tr))
  else (tr <| items ::= <[len tr := Some x]> |> <| len ::= S |>, Ok tt).

(** The loops of [drain_into]: the first moves the items that remain to the front, the second
    empties the slots behind them. *)
Definition move_down (count remaining : nat) (xs : list (option A)) : list (option A) :=
  fold_left (fun xs idx => <[idx := default None (xs !! (count + idx)%nat)]> xs) (seq 0 remaining) xs.
Definition empty_slots (from n : nat) (xs : list (option A)) : list (option A) :=
  fold_left (fun xs idx => <[idx := None]> xs) (seq from n) xs.

(** The trace, the slots written and the number of items given; [slots] is the length of the
    buffer. *)
Definition drain_into (slots : nat) (tr : t) : t * list (option A) * nat :=
  if (slots =? 0)%nat then (tr, [], 0%nat)
  else
    let count := Nat.min (len tr) slots in
    let out := (fun idx => if (idx <? count)%nat then default None (items tr !! idx) else None) <$> seq 0 slots in
    let remaining := (len tr - count)%nat in
    (mk (empty_slots remaining (len tr - remaining) (move_down count remaining (items tr))) remaining (overflow_count tr),
     out, count).

Definition drain_with_status (slots : nat) (tr : t) : t * list (option A) * (nat * TraceStatus.t) :=
  let '(tr, out, drained) := drain_into slots tr in (tr, out, (drained, status tr)).

Definition drain_cycle (slots : nat) (tr : t) : t * list (option A) * CycleReport.t :=
  let '(tr, overflow) := take_overflow_count tr in
  let '(tr, out, drained) := drain_into slots tr in
  (tr, out, CycleReport.mk drained overflow (status tr)).

Definition clear (tr : t) : t := tr <| len := 0%nat |>.
End ops.
Arguments t : clear implicits.
End Trace.

(** ** The pair of traces *)
Module CommonObservabilityRecordKind.
Inductive t := TriggerEdge | CamEdge | ShiftArming | CalibrationStagedDirty | FuelModelConfig | SpeedDensitySemanticConfig
  | RuntimeFuelStrategyConfig | SensorSnapshotCapture | SensorPoll | Tick.
End CommonObservabilityRecordKind.

Module TraceRecord.
(** [CommonObservabilityRecord] *)
Record t {A : Type} := mk { kind : CommonObservabilityRecordKind.t; sample : A }.
Arguments t : clear implicits.
Arguments mk {A}.
End TraceRecord.

Module PushPairError.
(** [PushObservabilityPairError] *)
Inductive t := Record_ (capacity : nat) | Sample (capacity : nat).
End PushPairError.

Module TracePair.
(** [FixedCommonObservabilityTracePair<S, R>] *)
Section ops.
Context {A : Type}.
Record t := mk { sample : Trace.t A; record : Trace.t (TraceRecord.t A) }.
#[global] Instance eta : Eta t := fun p => mk (sample p) (record p).
Definition new (S_ R : nat) : t := mk (Trace.new S_) (Trace.new R).
Definition status (p : t) : TraceStatus.t * TraceStatus.t := (Trace.status (sample p), Trace.status (record p)).

(** The record first; a sample whose record overflows is not pushed. *)
Definition push (x : A) (kind : CommonObservabilityRecordKind.t) (p : t) : t * Result unit PushPairError.t :=
  match Trace.push (TraceRecord.mk kind x) (record p) with
  | (r, Err capacity) => (p <| record := r |>, Err (PushPairError.Record_ capacity))
  | (r, Ok _) =>
    match Trace.push x (sample p) with
    | (s, Err capacity) => (mk s r, Err (PushPairError.Sample capacity))
    | (s, Ok _) => (mk s r, Ok tt)
    end
  end.

(** [drain_common_observability_cycle] *)
Definition drain_common_observability_cycle (sample_slots record_slots : nat) (p : t) :
    t * (list (option A) * list (option (TraceRecord.t A))) * (CycleReport.t * CycleReport.t) :=
  let '(s, sample_out, sample_report) := Trace.drain_cycle sample_slots (sample p) in
  let '(r, record_out, record_report) := Trace.drain_cycle record_slots (record p) in
  (mk s r, (sample_out, record_out), (sample_report, record_report)).

(** The slots with a value overwrite the buffers of the caller. *)
Definition overwrite {B} (out : list B) (slots : list (option B)) : list B := zip_with (fun old new => default old new) out slots.
Definition drain_cycle (sample_out : list A) (record_out : list (TraceRecord.t A)) (p : t) :
    t * (list A * list (TraceRecord.t A)) * (CycleReport.t * CycleReport.t) :=
  let '(p, (ss, rs), report) := drain_common_observability_cycle (length sample_out) (length record_out) p in
  (p, (overwrite sample_out ss, overwrite record_out rs), report).
End ops.
Arguments t : clear implicits.
End TracePair.

(** ** What a sample holds *)
Module CommonEngineTelemetry.
Record t := mk { rpm : Z; load_kpa10 : Z; angle_x10 : Z; phase : EnginePhase.t }.
End CommonEngineTelemetry.

Module CommonPendingInputTelemetry.
Record t := mk { now_us : Z; rpm : Z; load_kpa10 : Z; angle_x10 : Z; authority : EngineTimeAuthority.t }.
End CommonPendingInputTelemetry.

Module CommonDiagnosticsTelemetry.
Record t := mk {
  sync_state : CommonSyncTelemetryState.t; fault_state : FaultState.t; fault : CommonRuntimeFaultTelemetry.t;
  lambda : CommonLambdaTelemetry.t; lambda_correction : CommonLambdaCorrectionTelemetry.t; warmup : CommonWarmupTelemetry.t;
  startup : CommonStartupTelemetry.t; afterstart : CommonAfterstartTelemetry.t;
  transient_enrichment : CommonTransientEnrichmentTelemetry.t; protection : CommonProtectionTelemetry.t;
  limp_action : CommonLimpActionTelemetry.t; late_event_count : Z; max_lateness_us : Z; queue_high_water_mark : Z;
  last_drain_count : Z; active_queue_count : Z; free_queue_slots : Z; queue_capacity : Z }.
End CommonDiagnosticsTelemetry.

Module CommonHighRateLogTelemetry.
Record t := mk {
  decision : CommonDecisionTelemetry.t; fault : CommonRuntimeFaultTelemetry.t; frontier_fault : CommonFrontierFaultTelemetry.t;
  late_event_count : Z; max_lateness_us : Z; calibration_checksum : Z }.
End CommonHighRateLogTelemetry.

Definition common_high_rate_log_telemetry (decision : CommonDecisionTelemetry.t) (fault : CommonRuntimeFaultTelemetry.t)
    (frontier_fault : CommonFrontierFaultTelemetry.t) (diagnostics : CommonDiagnosticsTelemetry.t)
    (calibration : PackageIdentity.t) : CommonHighRateLogTelemetry.t :=
  CommonHighRateLogTelemetry.mk decision fault frontier_fault (CommonDiagnosticsTelemetry.late_event_count diagnostics)
    (CommonDiagnosticsTelemetry.max_lateness_us diagnostics) (PackageIdentity.checksum calibration).

(** [step] holds the telemetry of the last step: the lambda, warmup, startup, afterstart,
    transient, action, reason, fuel, enrichment, torque and validated-input telemetry. *)
Module CommonObservabilitySnapshot.
Record t := mk {
  diagnostics : CommonDiagnosticsTelemetry.t; step : StepTelemetry.t; high_rate_log : CommonHighRateLogTelemetry.t;
  sync_state : SplitSyncState.t; decision : CommonDecisionTelemetry.t; fuel_strategy_mode : CommonFuelStrategyMode.t;
  shift_arming : bool * bool; pending_input : CommonPendingInputTelemetry.t; control : CommonControlTelemetry.t;
  trigger_edge : CommonTriggerEdgeTelemetry.t; cam_edge : CommonCamEdgeTelemetry.t; engine : CommonEngineTelemetry.t;
  frontier : CommonFrontierTelemetry.t; scheduler_ownership : CommonSchedulerOwnershipTelemetry.t;
  scheduler_reservations : CommonSchedulerReservationTelemetry.t; scheduler_state_summary : bool;
  scheduler_window : CommonSchedulerWindowTelemetry.t; engine_time : EngineTimeAuthorityTelemetry.t;
  fault_transition : FaultTransition.t; calibration : PackageIdentity.t; capture_sample : option CaptureSample.t;
  logical_sensor_capture : option BoardSensorSnapshotCapture.t }.
End CommonObservabilitySnapshot.

Module CommonObservabilitySample.
Record t := mk { at_us : Z; snapshot : CommonObservabilitySnapshot.t }.
End CommonObservabilitySample.

Module Observability.
Import BoardAdapter.
Section ops.
Context {Sen Cap Act Dog Pub Sto : Type} `{!SchedulerObservabilitySource Act}.
Abbreviation adapter := (t Sen Cap Act Dog Pub Sto).

Definition control_telemetry (a : adapter) : CommonControlTelemetry.t :=
  let c := RuntimeSnapshot.control (EngineRuntime.runtime_snapshot (runtime a)) in
  CommonControlTelemetry.mk (ControlState.fuel_pulse_width c) (ControlState.ignition_advance c) (ControlState.dwell c)
    (ControlState.lambda_target c) (ControlState.torque_limit_x100 c).
Definition engine_telemetry (a : adapter) : CommonEngineTelemetry.t :=
  let e := RuntimeSnapshot.engine (EngineRuntime.runtime_snapshot (runtime a)) in
  CommonEngineTelemetry.mk (EngineState.rpm e) (EngineState.load_kpa10 e) (EngineState.angle_x10 e) (EngineState.phase e).
Definition lambda_telemetry (a : adapter) : CommonLambdaTelemetry.t :=
  common_lambda_telemetry (StepTelemetry.control_reasons (telemetry a)) (StepTelemetry.last_lambda_inputs (telemetry a)).
Definition lambda_correction_telemetry (a : adapter) : CommonLambdaCorrectionTelemetry.t :=
  common_lambda_correction_telemetry (control_telemetry a) (StepTelemetry.control_reasons (telemetry a))
    (lambda_telemetry a) (StepTelemetry.last_lambda_inputs (telemetry a)).
Definition decision_telemetry (a : adapter) : CommonDecisionTelemetry.t :=
  decision_of (EngineRuntime.runtime_snapshot (runtime a)).
Definition shift_arming_telemetry (a : adapter) : bool * bool :=
  (AuthorityStepInputs.launch_armed (pending_inputs a), AuthorityStepInputs.flat_shift_armed (pending_inputs a)).
Definition pending_input_telemetry (a : adapter) : CommonPendingInputTelemetry.t :=
  let i := pending_inputs a in
  CommonPendingInputTelemetry.mk (AuthorityStepInputs.now_us i)
    (as_unsigned 16 (Z.min (AuthorityStepInputs.rpm i) u16_max)) (as_unsigned 16 (Z.min (AuthorityStepInputs.load_kpa10 i) u16_max))
    (as_signed 16 (clamp (AuthorityStepInputs.angle_x10 i) (-32768) 32767)) (AuthorityStepInputs.authority i).

Definition diagnostics_telemetry (a : adapter) : CommonDiagnosticsTelemetry.t :=
  let m := timing_metrics (actions a) in
  let fault := common_runtime_fault_telemetry (fault_state a) in
  let frontier_fault := CommonFrontierTelemetry.fault (frontier_telemetry (actions a)) in
  let protection := common_protection_telemetry (decision_telemetry a) fault frontier_fault in
  let step := telemetry a in
  CommonDiagnosticsTelemetry.mk (common_sync_telemetry_state (sync_state a)) (fault_state a) fault (lambda_telemetry a)
    (lambda_correction_telemetry a) (StepTelemetry.warmup step) (StepTelemetry.startup step) (StepTelemetry.afterstart step)
    (StepTelemetry.transient_enrichment step) protection
    (common_limp_action_telemetry (StepTelemetry.action_telemetry step) protection frontier_fault)
    (Metrics.late_event_count m) (default 0 (Metrics.max_lateness_us m)) (Metrics.queue_high_water_mark m)
    (Metrics.last_drain_count m) (active_queue_count (actions a)) (free_queue_slots (actions a)) (queue_capacity (actions a)).

Definition observability_snapshot (a : adapter) : CommonObservabilitySnapshot.t :=
  let diagnostics := diagnostics_telemetry a in
  let frontier := frontier_telemetry (actions a) in
  CommonObservabilitySnapshot.mk diagnostics (telemetry a)
    (common_high_rate_log_telemetry (decision_telemetry a) (common_runtime_fault_telemetry (fault_state a))
      (CommonFrontierTelemetry.fault frontier) diagnostics (calibration_package_identity a))
    (sync_state a) (decision_telemetry a)
    (common_fuel_strategy_mode (ControlPlannerState.fuel_strategy (EngineRuntime.planners (runtime a))))
    (shift_arming_telemetry a) (pending_input_telemetry a) (control_telemetry a) (trigger_edge a) (cam_edge a)
    (engine_telemetry a) frontier (scheduler_ownership_telemetry (actions a)) (scheduler_reservation_telemetry (actions a))
    (scheduler_state_summary_telemetry (actions a)) (scheduler_window_telemetry (actions a))
    (EngineTimeAuthorityTelemetry.new (EngineState.engine_time_authority (EngineRuntime.engine (runtime a))))
    (fault_transition a) (calibration_package_identity a) (captured a) (logical_sensor_capture a).

Definition observability_sample (a : adapter) : CommonObservabilitySample.t :=
  CommonObservabilitySample.mk (AuthorityStepInputs.now_us (pending_inputs a)) (observability_snapshot a).

Definition runtime_fault_telemetry (a : adapter) : CommonRuntimeFaultTelemetry.t := common_runtime_fault_telemetry (fault_state a).
Definition protection_telemetry (a : adapter) : CommonProtectionTelemetry.t :=
  common_protection_telemetry (decision_telemetry a) (runtime_fault_telemetry a)
    (CommonFrontierTelemetry.fault (frontier_telemetry (actions a))).
Definition limp_action_telemetry (a : adapter) : CommonLimpActionTelemetry.t :=
  common_limp_action_telemetry (StepTelemetry.action_telemetry (telemetry a)) (protection_telemetry a)
    (CommonFrontierTelemetry.fault (frontier_telemetry (actions a))).
Definition high_rate_log_telemetry (a : adapter) : CommonHighRateLogTelemetry.t :=
  common_high_rate_log_telemetry (decision_telemetry a) (runtime_fault_telemetry a)
    (CommonFrontierTelemetry.fault (frontier_telemetry (actions a))) (diagnostics_telemetry a) (calibration_package_identity a).
Definition diagnostics_snapshot (a : adapter) : SplitSyncState.t * FaultState.t * Metrics.t :=
  (sync_state a, fault_state a, timing_metrics (actions a)).

(** *** Operations that record *)
Abbreviation pair := (TracePair.t CommonObservabilitySample.t).
Abbreviation records := (Trace.t (TraceRecord.t CommonObservabilitySample.t)).

Definition push_observability_sample (a : adapter) (tr : Trace.t CommonObservabilitySample.t) :
    Trace.t CommonObservabilitySample.t * Result unit nat := Trace.push (observability_sample a) tr.
Definition push_observability_record (kind : CommonObservabilityRecordKind.t) (a : adapter) (tr : records) :
    records * Result unit nat := Trace.push (TraceRecord.mk kind (observability_sample a)) tr.
Definition set_shift_arming_and_record (l f : bool) (a : adapter) (tr : records) : adapter * (records * Result unit nat) :=
  let a := set_shift_arming l f a in (a, push_observability_record CommonObservabilityRecordKind.ShiftArming a tr).
Definition set_staged_dirty_and_record (dirty : bool) (a : adapter) (tr : records) : adapter * (records * Result unit nat) :=
  let a := set_staged_dirty dirty a in (a, push_observability_record CommonObservabilityRecordKind.CalibrationStagedDirty a tr).
Definition configure_fuel_model_and_record (fuel_model : BaseFuelModel.t) (a : adapter) (tr : records) :
    adapter * (records * Result unit nat) :=
  let a := configure_fuel_model fuel_model a in (a, push_observability_record CommonObservabilityRecordKind.FuelModelConfig a tr).
Definition configure_speed_density_semantic_and_record (calibration : SemanticFuel.Calibration.t)
    (state : SemanticFuel.FuelState.t) (a : adapter) (tr : records) : adapter * (records * Result unit nat) :=
  let a := configure_speed_density_semantic calibration state a in
  (a, push_observability_record CommonObservabilityRecordKind.SpeedDensitySemanticConfig a tr).
Definition configure_runtime_fuel_strategy_and_record (strategy : RuntimeFuelStrategy.t) (a : adapter) (tr : records) :
    adapter * (records * Result unit nat) :=
  let a := configure_runtime_fuel_strategy strategy a in
  (a, push_observability_record CommonObservabilityRecordKind.RuntimeFuelStrategyConfig a tr).

Definition push_observability_pair (kind : CommonObservabilityRecordKind.t) (a : adapter) (p : pair) :
    pair * Result unit PushPairError.t := TracePair.push (observability_sample a) kind p.

Definition set_shift_arming_and_push_pair (l f : bool) (a : adapter) (p : pair) : adapter * (pair * Result unit PushPairError.t) :=
  let a := set_shift_arming l f a in (a, push_observability_pair CommonObservabilityRecordKind.ShiftArming a p).
Definition set_staged_dirty_and_push_pair (dirty : bool) (a : adapter) (p : pair) : adapter * (pair * Result unit PushPairError.t) :=
  let a := set_staged_dirty dirty a in (a, push_observability_pair CommonObservabilityRecordKind.CalibrationStagedDirty a p).
Definition configure_fuel_model_and_push_pair (fuel_model : BaseFuelModel.t) (a : adapter) (p : pair) :
    adapter * (pair * Result unit PushPairError.t) :=
  let a := configure_fuel_model fuel_model a in (a, push_observability_pair CommonObservabilityRecordKind.FuelModelConfig a p).
Definition configure_speed_density_semantic_and_push_pair (calibration : SemanticFuel.Calibration.t)
    (state : SemanticFuel.FuelState.t) (a : adapter) (p : pair) : adapter * (pair * Result unit PushPairError.t) :=
  let a := configure_speed_density_semantic calibration state a in
  (a, push_observability_pair CommonObservabilityRecordKind.SpeedDensitySemanticConfig a p).
Definition configure_runtime_fuel_strategy_and_push_pair (strategy : RuntimeFuelStrategy.t) (a : adapter) (p : pair) :
    adapter * (pair * Result unit PushPairError.t) :=
  let a := configure_runtime_fuel_strategy strategy a in
  (a, push_observability_pair CommonObservabilityRecordKind.RuntimeFuelStrategyConfig a p).
End ops.

Definition observability_kind (event : BoardEvent.t) : CommonObservabilityRecordKind.t :=
  match event with
  | BoardEvent.TriggerEdge _ _ _ _ _ => CommonObservabilityRecordKind.TriggerEdge
  | BoardEvent.CamEdge _ _ => CommonObservabilityRecordKind.CamEdge
  | BoardEvent.SensorSnapshotCapture _ => CommonObservabilityRecordKind.SensorSnapshotCapture
  | BoardEvent.PressureSnapshot _ _ _ _ _ => CommonObservabilityRecordKind.SensorSnapshotCapture
  | BoardEvent.Tick _ _ => CommonObservabilityRecordKind.Tick
  end.

(** [ApplyAndPushPairError] and [PollSensorAndPushPairError], [ApplyAndRecordError] and
    [PollSensorAndRecordError]: the error of the operation, or of the push. *)
Module RecordedError.
Inductive t (E O : Type) := Operation (e : E) | Push (e : O).
Arguments Operation {E O} e.
Arguments Push {E O} e.
End RecordedError.

Section events.
Context {Sen Cap Act Dog Pub Sto ES EC EA EW ET EP : Type}.
Context `{!SampleSource Sen ES, !CaptureSink Cap EC, !ActionExecutor Act EA, !Watchdog Dog EW, !TransportPublisher Pub ET,
  !PersistedCalibrationStore Sto EP, !SchedulerObservabilitySource Act}.
Abbreviation adapter := (BoardAdapter.t Sen Cap Act Dog Pub Sto).
Abbreviation pair := (TracePair.t CommonObservabilitySample.t).
Abbreviation records := (Trace.t (TraceRecord.t CommonObservabilitySample.t)).
Abbreviation error O := (RecordedError.t (BoardAdapterError.t ES EC EA EW ET EP) O).

(** The operation's value with its sample pushed, unless it failed. *)
Definition recorded {V T O} (push : adapter -> T -> T * Result unit O) (traces : T)
    (done : adapter * Result V (BoardAdapterError.t ES EC EA EW ET EP)) : adapter * T * Result V (error O) :=
  match done with
  | (a, Err e) => (a, traces, Err (RecordedError.Operation e))
  | (a, Ok v) =>
    match push a traces with
    | (traces, Ok _) => (a, traces, Ok v)
    | (traces, Err e) => (a, traces, Err (RecordedError.Push e))
    end
  end.

Definition apply_event_and_record (event : BoardEvent.t) (a : adapter) (tr : records) :
    option (adapter * records * Result (option StepResult.t) (error nat)) :=
  applied ← apply_event event a;
  Some (recorded (push_observability_record (observability_kind event)) tr applied).

Definition apply_event_and_push_pair (event : BoardEvent.t) (a : adapter) (p : pair) :
    option (adapter * pair * Result (option StepResult.t) (error PushPairError.t)) :=
  applied ← apply_event event a;
  Some (recorded (push_observability_pair (observability_kind event)) p applied).

Definition poll_sensor_and_record (a : adapter) (tr : records) : adapter * records * Result CaptureSample.t (error nat) :=
  recorded (push_observability_record CommonObservabilityRecordKind.SensorPoll) tr (poll_sensor a).

Definition poll_sensor_and_push_pair (a : adapter) (p : pair) : adapter * pair * Result CaptureSample.t (error PushPairError.t) :=
  recorded (push_observability_pair CommonObservabilityRecordKind.SensorPoll) p (poll_sensor a).
End events.
End Observability.

(** ** A trace is a bounded queue that counts what it refused *)
Module TraceOp.
Inductive t (A : Type) := Push (x : A) | Drain (slots : nat) | Cycle (slots : nat) | TakeOverflow | Clear.
Arguments Push {A} x.
Arguments Drain {A} slots.
Arguments Cycle {A} slots.
Arguments TakeOverflow {A}.
Arguments Clear {A}.
End TraceOp.

Module TraceOut.
Inductive t (A : Type) :=
| Pushed (r : Result unit nat)
| Given (out : list (option A)) (drained : nat)
| Cycled (out : list (option A)) (report : CycleReport.t)
| Overflows (n : Z)
| Cleared.
Arguments Pushed {A} r.
Arguments Given {A} out drained.
Arguments Cycled {A} out report.
Arguments Overflows {A} n.
Arguments Cleared {A}.
End TraceOut.

Section fifo.
Context {A : Type}.
Implicit Types (tr : Trace.t A) (xs : list A).

Definition trace_step (op : TraceOp.t A) tr : Trace.t A * TraceOut.t A :=
  match op with
  | TraceOp.Push x => let '(tr, r) := Trace.push x tr in (tr, TraceOut.Pushed r)
  | TraceOp.Drain slots => let '(tr, out, n) := Trace.drain_into slots tr in (tr, TraceOut.Given out n)
  | TraceOp.Cycle slots => let '(tr, out, r) := Trace.drain_cycle slots tr in (tr, TraceOut.Cycled out r)
  | TraceOp.TakeOverflow => let '(tr, n) := Trace.take_overflow_count tr in (tr, TraceOut.Overflows n)
  | TraceOp.Clear => (Trace.clear tr, TraceOut.Cleared)
  end.

(** The queue: its items, oldest first, and how many were refused. *)
Definition padded_slots (slots : nat) xs : list (option A) :=
  (Some <$> take slots xs) ++ replicate (slots - length xs) None.
Definition status_of (N : nat) xs (refused : Z) : TraceStatus.t :=
  TraceStatus.mk (length xs) N (N - length xs) refused.

Definition queue_step (N : nat) (op : TraceOp.t A) (q : list A * Z) : list A * Z * TraceOut.t A :=
  let '(xs, refused) := q in
  match op with
  | TraceOp.Push x =>
    if (length xs <? N)%nat then (xs ++ [x], refused, TraceOut.Pushed (Ok tt))
    else (xs, Z.min (refused + 1) u32_max, TraceOut.Pushed (Err N))
  | TraceOp.Drain slots => (drop slots xs, refused, TraceOut.Given (padded_slots slots xs) (Nat.min (length xs) slots))
  | TraceOp.Cycle slots =>
    (drop slots xs, 0, TraceOut.Cycled (padded_slots slots xs)
      (CycleReport.mk (Nat.min (length xs) slots) refused (status_of N (drop slots xs) 0)))
  | TraceOp.TakeOverflow => (xs, 0, TraceOut.Overflows refused)
  | TraceOp.Clear => ([], refused, TraceOut.Cleared)
  end.

Fixpoint run_trace (ops : list (TraceOp.t A)) tr : Trace.t A * list (TraceOut.t A) :=
  match ops with
  | [] => (tr, [])
  | op :: ops => let '(tr, o) := trace_step op tr in let '(tr, os) := run_trace ops tr in (tr, o :: os)
  end.
Fixpoint run_queue (N : nat) (ops : list (TraceOp.t A)) (q : list A * Z) : list A * Z * list (TraceOut.t A) :=
  match ops with
  | [] => (q, [])
  | op :: ops => let '(q, o) := queue_step N op q in let '(q, os) := run_queue N ops q in (q, o :: os)
  end.

(** The occupied slots of a trace are its items. *)
Definition trace_holds (N : nat) tr (q : list A * Z) : Prop :=
  length (Trace.items tr) = N /\ Trace.len tr = length q.1 /\ (length q.1 <= N)%nat
  /\ take (Trace.len tr) (Trace.items tr) = Some <$> q.1 /\ Trace.overflow_count tr = q.2.

Lemma trace_holds_new N : trace_holds N (Trace.new N) ([], 0).
Proof. split_and!; cbn; rewrite ?length_replicate; done || lia. Qed.

(** The loops, by what is read at each index. *)
Lemma move_down_lookup count remaining (ys : list (option A)) i : (0 < count)%nat -> (count + remaining <= length ys)%nat ->
  length (Trace.move_down count remaining ys) = length ys
  /\ Trace.move_down count remaining ys !! i = if (i <? remaining)%nat then ys !! (count + i)%nat else ys !! i.
Proof.
  intros Hc. unfold Trace.move_down. revert i. induction remaining as [|r IH]; intros i Hr; [done|].
  rewrite seq_S, fold_left_app. cbn [fold_left Nat.add].
  set (zs := fold_left _ (seq 0 r) ys) in *.
  assert (length zs = length ys) as Hl by (apply (IH 0%nat); lia).
  rewrite length_insert. split; [done|].
  destruct (IH (count + r)%nat ltac:(lia)) as [_ Hread]. rewrite (proj2 (Nat.ltb_ge _ _)) in Hread by lia.
  destruct (decide (i = r)) as [->|Hne].
  - rewrite list_lookup_insert_eq by lia. rewrite (proj2 (Nat.ltb_lt _ _)) by lia. rewrite Hread.
    destruct (lookup_lt_is_Some_2 ys (count + r) ltac:(lia)) as [y ->]. done.
  - rewrite list_lookup_insert_ne by done. destruct (IH i ltac:(lia)) as [_ ->].
    destruct (Nat.ltb_spec i r), (Nat.ltb_spec i (S r)); try lia; done.
Qed.

Lemma empty_slots_lookup from n (ys : list (option A)) i :
  length (Trace.empty_slots from n ys) = length ys
  /\ ((i < from)%nat -> Trace.empty_slots from n ys !! i = ys !! i).
Proof.
  unfold Trace.empty_slots. revert from ys. induction n as [|n IH]; intros from ys; [done|]. cbn [seq fold_left].
  destruct (IH (S from) (<[from:=None]> ys)) as [Hl Hi]. rewrite length_insert in Hl. split; [done|].
  intros Hlt. rewrite Hi by lia. apply list_lookup_insert_ne. lia.
Qed.

(** What is read from a trace below its length. *)
Lemma trace_read N tr q i : trace_holds N tr q -> (i < length q.1)%nat ->
  exists x, q.1 !! i = Some x /\ Trace.items tr !! i = Some (Some x).
Proof.
  intros (_ & Hl & _ & Ht & _) Hi. destruct (lookup_lt_is_Some_2 q.1 i Hi) as [x Hx]. exists x. split; [done|].
  rewrite <- (lookup_take_lt _ (Trace.len tr)) by lia. by rewrite Ht, list_lookup_fmap, Hx.
Qed.

Lemma drain_holds N slots tr xs refused : trace_holds N tr (xs, refused) ->
  let '(tr', out, n) := Trace.drain_into slots tr in
  trace_holds N tr' (drop slots xs, refused) /\ out = padded_slots slots xs /\ n = Nat.min (length xs) slots.
Proof.
  intros H. pose proof H as (HN & Hl & Hle & Ht & Ho). cbn [fst snd] in *. unfold Trace.drain_into.
  destruct (Nat.eqb_spec slots 0) as [->|Hs].
  { split_and!; [done|by unfold padded_slots|lia]. }
  rewrite Hl. remember (Nat.min (length xs) slots) as count eqn:Ec. split_and!; [|..|done].
  - remember (length xs - count)%nat as remaining eqn:Er.
    assert (length (Trace.move_down count remaining (Trace.items tr)) = N) as Hm.
    { destruct (decide (remaining = 0)%nat) as [E|E]; [by rewrite E|].
      assert (0 < count)%nat by lia. assert (count + remaining <= length (Trace.items tr))%nat by lia.
      by rewrite (proj1 (move_down_lookup count remaining _ 0 ltac:(done) ltac:(done))). }
    split_and!; cbn [Trace.items Trace.len Trace.overflow_count fst snd]; rewrite ?length_drop; try lia; [|].
    { by rewrite (proj1 (empty_slots_lookup _ _ _ 0)). }
    apply list_eq. intros i. rewrite list_lookup_fmap, lookup_drop.
    destruct (decide (i < remaining)%nat) as [Hi|Hi].
    + rewrite lookup_take_lt by done. rewrite (proj2 (empty_slots_lookup _ _ _ i)) by done.
      rewrite (proj2 (move_down_lookup count remaining (Trace.items tr) i ltac:(lia) ltac:(lia))), (proj2 (Nat.ltb_lt _ _)) by lia.
      destruct (trace_read N tr (xs, refused) (count + i) H) as (x & Hx & ->); [cbn; lia|]. cbn [fst] in Hx.
      replace (slots + i)%nat with (count + i)%nat by lia. by rewrite Hx.
    + rewrite lookup_take_ge by lia. by rewrite lookup_ge_None_2 by lia.
  - unfold padded_slots. apply list_eq. intros i. rewrite list_lookup_fmap.
    destruct (decide (i < slots)%nat) as [Hi|Hi].
    + rewrite lookup_seq_lt by done. cbn [fmap option_fmap option_map].
      destruct (Nat.ltb_spec (0 + i) count) as [Hc|Hc].
      * destruct (trace_read N tr (xs, refused) i H) as (x & Hx & Hx'); [cbn; lia|]. cbn [fst] in Hx. cbn [Nat.add]. rewrite Hx'.
        rewrite lookup_app_l by (rewrite length_fmap, length_take; lia).
        rewrite list_lookup_fmap, lookup_take_lt by lia. by rewrite Hx.
      * rewrite lookup_app_r by (rewrite length_fmap, length_take; lia). rewrite length_fmap, length_take.
        symmetry. apply lookup_replicate. split; [done|]. lia.
    + rewrite lookup_seq_ge by lia. symmetry. apply lookup_ge_None_2.
      rewrite length_app, length_fmap, length_take, length_replicate. lia.
Qed.

Lemma trace_step_refines N op tr q : trace_holds N tr q ->
  let '(tr', o) := trace_step op tr in let '(q', o') := queue_step N op q in o = o' /\ trace_holds N tr' q'.
Proof.
  destruct q as [xs refused]. intros H. pose proof H as (HN & Hl & Hle & Ht & Ho). cbn [fst snd] in *.
  destruct op as [x|slots|slots| |]; cbn [trace_step queue_step].
  - unfold Trace.push, Trace.capacity. rewrite HN, Hl. destruct (Nat.eqb_spec (length xs) N) as [E|E].
    + rewrite (proj2 (Nat.ltb_ge _ _)) by lia. split; [done|]. split_and!; cbn; try done. by rewrite Ho.
    + rewrite (proj2 (Nat.ltb_lt _ _)) by lia. split; [done|].
      split_and!; cbn; rewrite ?length_insert, ?length_app; cbn; try done; try lia.
      rewrite Hl, (take_S_r _ _ (Some x)) by (apply list_lookup_insert_eq; lia).
      rewrite take_insert_ge by lia. rewrite <- Hl, Ht. by rewrite fmap_app.
  - pose proof (drain_holds N slots tr xs refused H) as Hd. destruct (Trace.drain_into slots tr) as [[tr' out] n].
    destruct Hd as (Hh & -> & ->). done.
  - unfold Trace.drain_cycle, Trace.take_overflow_count.
    assert (trace_holds N (tr <| Trace.overflow_count := 0 |>) (xs, 0)) as H0 by by split_and!.
    pose proof (drain_holds N slots _ xs 0 H0) as Hd. destruct (Trace.drain_into slots _) as [[tr' out] n].
    destruct Hd as (Hh & -> & ->). split; [|done]. rewrite Ho. f_equal. f_equal.
    destruct Hh as (E1 & E2 & E3 & E4 & E5). cbn [fst snd] in *. unfold Trace.status, Trace.free_slots, Trace.capacity, status_of.
    by rewrite E1, E2, E5.
  - by split; [rewrite <- Ho|split_and!].
  - split; [done|]. split_and!; cbn; try done. lia.
Qed.
End fifo.

(** C35: A trace is a bounded queue: for any sequence of pushes, drains, cycles and clears, what
    it answers is what the queue answers.  A push is refused exactly when the trace is full
    and is then counted, up to the largest count; a drain gives the oldest items in order and
    fills the rest of the buffer with nothing; a cycle reports the refusals since the one
    before; and nothing is lost, repeated or reordered. *)
Theorem trace_refines_queue {A} (N : nat) (ops : list (TraceOp.t A)) :
  let '(tr, outs) := run_trace ops (Trace.new N) in
  let '(q, outs') := run_queue N ops ([], 0) in
  outs = outs' /\ trace_holds N tr q.
Proof.
  pose proof (@trace_holds_new A N) as H. revert H. generalize (Trace.new (A := A) N) as tr, (([], 0) : list A * Z).
  induction ops as [|op ops IH]; intros tr q H; cbn [run_trace run_queue]; [done|].
  pose proof (trace_step_refines N op tr q H) as Hs. destruct (trace_step op tr) as [tr' o].
  destruct (queue_step N op q) as [q' o']. destruct Hs as [-> Hh]. specialize (IH tr' q' Hh).
  destruct (run_trace ops tr'), (run_queue N ops q') as [[? ?] ?]. destruct IH as [-> ?]. done.
Qed.
