(* ===== verification/TsPages.v ===== *)
(** * Tuning pages (crates/ts/src/pages: registry.rs, dto.rs, codecs.rs, codecs/)

    The table of the pages a tuning program reads and writes, the contents of each page as a
    record, and the encoder and decoder of each.  [TsCodecs] has their laws. *)
From S2P Require Import Prelude Domain Bytes BoardApi ExpertTrigger.

(** ** Registry (registry.rs) *)
Definition TABLE_AXIS_LEN : nat := 16.
Definition TABLE_CELL_COUNT : nat := TABLE_AXIS_LEN * TABLE_AXIS_LEN.
Definition TABLE_PAGE_BYTES : nat := TABLE_CELL_COUNT * 2.
Definition AE_PAGE_BYTES : nat := 16.
Definition DFCO_PAGE_BYTES : nat := 16.
Definition WUE_PAGE_BYTES : nat := 8.
Definition ASE_PAGE_BYTES : nat := 8.
Definition IDLE_PAGE_BYTES : nat := 6.
Definition FAN_PAGE_BYTES : nat := 6.
Definition CLOSED_LOOP_PAGE_BYTES : nat := 8.
Definition ANGLES_PAGE_BYTES : nat := 68.
Definition SENSORS_PAGE_BYTES : nat := 128.
Definition LIMITS_PAGE_BYTES : nat := 10.
Definition VE_TUNE_PAGE_BYTES : nat := 16.
Definition SNAPSHOT_PAGE_BYTES : nat := 32.
Definition EXPERT_TRIGGER_PAGE_BYTES : nat := 48.
Definition DIAG_PAGE_BYTES : nat := 32.
Definition DIAG_LOG_ENTRY_BYTES : nat := 16.
Definition DIAG_LOG_ENTRY_COUNT : nat := 16.
Definition DIAG_LOG_PAGE_BYTES : nat := DIAG_LOG_ENTRY_BYTES * DIAG_LOG_ENTRY_COUNT.

(** Page numbers, as [u8]. *)
Definition PAGE_FUEL : Z := 1.
Definition PAGE_IGN : Z := 2.
Definition PAGE_SENSORS : Z := 3.
Definition PAGE_AE : Z := 4.
Definition PAGE_DFCO : Z := 5.
Definition PAGE_LIMITS : Z := 6.
Definition PAGE_DIAG : Z := 7.
Definition PAGE_DIAG_LOG : Z := 8.
Definition PAGE_ANGLES : Z := 9.
Definition PAGE_WUE : Z := 10.
Definition PAGE_ASE : Z := 11.
Definition PAGE_IDLE : Z := 12.
Definition PAGE_FAN : Z := 13.
Definition PAGE_CL : Z := 14.
Definition PAGE_SNAPSHOT : Z := 15.
Definition PAGE_EXPERT_TRIGGER : Z := 16.
Definition PAGE_VE_TUNE : Z := 17.
Definition PAGE_VE_TABLE : Z := 18.
Definition PAGE_AFR_TABLE : Z := 19.
Definition TS_PAGE_COUNT : nat := 19.

Module PageCodecFamily.
Inductive t :=
| FuelTable | IgnitionTable | Sensors | Ae | Dfco | Limits | Diag | DiagLog | Angles | Wue | Ase | Idle | Fan
| ClosedLoop | Snapshot | ExpertTrigger | VeTune | VeTable | AfrTable.
End PageCodecFamily.

Module TsPageDescriptor.
(** The label is its bytes. *)
Record t := mk {
  page : Z; len : nat; writable : bool; label : list Z; persisted_setup_page : bool; codec_family : PageCodecFamily.t }.
End TsPageDescriptor.

Definition TS_PAGE_DESCRIPTORS : list TsPageDescriptor.t :=
  let d := TsPageDescriptor.mk in
  [ d PAGE_FUEL TABLE_PAGE_BYTES true [102; 117; 101; 108] true PageCodecFamily.FuelTable;
    d PAGE_IGN TABLE_PAGE_BYTES true [105; 103; 110] true PageCodecFamily.IgnitionTable;
    d PAGE_SENSORS SENSORS_PAGE_BYTES true [115; 101; 110; 115; 111; 114; 115] false PageCodecFamily.Sensors;
    d PAGE_AE AE_PAGE_BYTES true [97; 101] false PageCodecFamily.Ae;
    d PAGE_DFCO DFCO_PAGE_BYTES true [100; 102; 99; 111] false PageCodecFamily.Dfco;
    d PAGE_LIMITS LIMITS_PAGE_BYTES true [108; 105; 109; 105; 116; 115] false PageCodecFamily.Limits;
    d PAGE_DIAG DIAG_PAGE_BYTES false [100; 105; 97; 103] false PageCodecFamily.Diag;
    d PAGE_DIAG_LOG DIAG_LOG_PAGE_BYTES false [100; 105; 97; 103; 95; 108; 111; 103] false PageCodecFamily.DiagLog;
    d PAGE_ANGLES ANGLES_PAGE_BYTES true [97; 110; 103; 108; 101; 115] true PageCodecFamily.Angles;
    d PAGE_WUE WUE_PAGE_BYTES true [119; 117; 101] false PageCodecFamily.Wue;
    d PAGE_ASE ASE_PAGE_BYTES true [97; 115; 101] false PageCodecFamily.Ase;
    d PAGE_IDLE IDLE_PAGE_BYTES true [105; 100; 108; 101] false PageCodecFamily.Idle;
    d PAGE_FAN FAN_PAGE_BYTES true [102; 97; 110] false PageCodecFamily.Fan;
    d PAGE_CL CLOSED_LOOP_PAGE_BYTES true [99; 108] false PageCodecFamily.ClosedLoop;
    d PAGE_SNAPSHOT SNAPSHOT_PAGE_BYTES false [115; 110; 97; 112; 115; 104; 111; 116] false PageCodecFamily.Snapshot;
    d PAGE_EXPERT_TRIGGER EXPERT_TRIGGER_PAGE_BYTES true
      [101; 120; 112; 101; 114; 116; 95; 116; 114; 105; 103; 103; 101; 114] false PageCodecFamily.ExpertTrigger;
    d PAGE_VE_TUNE VE_TUNE_PAGE_BYTES true [118; 101; 95; 116; 117; 110; 101] false PageCodecFamily.VeTune;
    d PAGE_VE_TABLE TABLE_PAGE_BYTES true [118; 101; 95; 116; 97; 98; 108; 101] false PageCodecFamily.VeTable;
    d PAGE_AFR_TABLE TABLE_PAGE_BYTES true [97; 102; 114; 95; 116; 97; 98; 108; 101] false PageCodecFamily.AfrTable ].

(** The search of [ts_page_descriptor]: the first descriptor of that number. *)
Definition ts_page_descriptor (page : Z) : option TsPageDescriptor.t :=
  find (fun descriptor => TsPageDescriptor.page descriptor =? page) TS_PAGE_DESCRIPTORS.

Definition ts_page_schema_version (page : Z) : option Z :=
  match ts_page_descriptor page with Some _ => Some 1 | None => None end.

(** ** Errors and limits (codecs.rs) *)
Module PageCodecError.
Inductive t := WrongSize | Invalid.
#[global] Instance eq_dec : EqDecision t.
Proof. solve_decision. Defined.
End PageCodecError.

Definition AFR_TARGET_MIN_X10 : Z := 100.
Definition AFR_TARGET_MAX_X10 : Z := 220.
Definition IDLE_DUTY_MAX_X10 : Z := 1000.
Definition VE_TUNE_LOAD_SOURCE_MAX : Z := 1.
Definition LIMITS_TRIGGER_MAP_BIT : Z := 1.
Definition LIMITS_TRIGGER_TPS_BIT : Z := 2.
Definition LIMITS_TRIGGER_BITS_MASK : Z := Z.lor LIMITS_TRIGGER_MAP_BIT LIMITS_TRIGGER_TPS_BIT.
Definition EXPERT_SCHEMA_VERSION_CURRENT : Z := 1.
Definition EXPERT_UNLOCK_LOCKED : Z := 0.
Definition EXPERT_UNLOCK_UNLOCKED : Z := 1.
Definition TRIGGER_AUTHORITY_EXPERT_MANUAL : Z := 1.
Definition TRIGGER_AUTHORITY_CERTIFIED_PROFILE : Z := 3.
Definition TRIGGER_PATTERN_MISSING_TOOTH : Z := 0.
Definition SECONDARY_TRIGGER_NONE : Z := 0.
Definition EXPERT_IGNITION_SEQUENTIAL_COP : Z := 3.
Definition EXPERT_INJECTION_SEQUENTIAL : Z := 4.
Definition FIXED_TIMING_FIXED : Z := 1.
Definition VE_TUNE_INJECTOR_DEADTIME_MAX_US : Z := 10000.
Definition SENSOR_ADC_INPUT_MAX_MV : Z := 5000.
(** stores.rs *)
Definition TS_DIAG_SOURCE_CONTEXT_PRESENT : Z := Z.shiftl 1 7.

(** [(lo..=hi).contains(&x)] *)
Definition in_range (lo hi x : Z) : bool := (lo <=? x) && (x <=? hi).
(** [i16::from_le_bytes] at an offset. *)
Definition rd_i16 (buf : list Z) (off : nat) : Z := as_signed 16 (rd_u16 buf off).
(** [!x] of a byte. *)
Definition not8 (x : Z) : Z := as_unsigned 8 (Z.lnot x).
(** [data[i] != 0] *)
Definition flag (i : nat) (data : list Z) : bool := negb (get_byte i data =? 0).

(** An early [return Err(Invalid)]. *)
Definition refuse_if (cond : bool) : Result unit PageCodecError.t := if cond then Err PageCodecError.Invalid else Ok tt.

(** The encoders write at fixed offsets, once the buffer is known to be long enough. *)
Definition encode_at (len : nat) (fields : list (nat * list Z)) (out : list Z) : list Z * Result nat PageCodecError.t :=
  if (length out <? len)%nat then (out, Err PageCodecError.WrongSize) else (write_fields fields out, Ok len).

(** [out[idx..idx + n].copy_from_slice(bytes); idx += n] *)
Definition put (src : list Z) (s : list Z * nat) : list Z * nat := (copy_at s.2 src s.1, (s.2 + length src)%nat).
Definition put_each {A} (to_bytes : A -> list Z) (vs : list A) (s : list Z * nat) : list Z * nat :=
  fold_left (fun s v => put (to_bytes v) s) vs s.

(** [for v in array.iter_mut() { *v = read(idx); idx += width }] *)
Definition read_each (read : list Z -> nat -> Z) (width : nat) (data : list Z) (idx n : nat) : list Z :=
  map (fun k => read data (idx + k * width)%nat) (seq 0 n).

(** ** Tables (tables.rs) *)
Definition table := list (list Z).

Definition encode_table (cells : table) (out : list Z) : list Z * Result nat PageCodecError.t :=
  if (length out <? TABLE_PAGE_BYTES)%nat then (out, Err PageCodecError.WrongSize)
  else ((fold_left (fun s row => put_each le16 row s) cells (out, 0%nat)).1, Ok TABLE_PAGE_BYTES).

(** One row, then every row, from index [idx] on. *)
Fixpoint decode_row (read : list Z -> nat -> Z) (data : list Z) (idx : nat) (row : list Z) : list Z * nat :=
  match row with
  | [] => ([], idx)
  | _ :: row => let '(row, last) := decode_row read data (idx + 2) row in (read data idx :: row, last)
  end.
Fixpoint decode_rows (read : list Z -> nat -> Z) (data : list Z) (idx : nat) (rows : table) : table * nat :=
  match rows with
  | [] => ([], idx)
  | row :: rows =>
    let '(row, idx) := decode_row read data idx row in
    let '(rows, idx) := decode_rows read data idx rows in (row :: rows, idx)
  end.

Definition decode_table_into (read : list Z -> nat -> Z) (data : list Z) (cells : table) :
    table * Result unit PageCodecError.t :=
  if negb (length data =? TABLE_PAGE_BYTES)%nat then (cells, Err PageCodecError.WrongSize)
  else ((decode_rows read data 0 cells).1, Ok tt).

Definition zero_table : table := replicate TABLE_AXIS_LEN (replicate TABLE_AXIS_LEN 0).
Definition decode_table (read : list Z -> nat -> Z) (data : list Z) : Result table PageCodecError.t :=
  let '(cells, r) := decode_table_into read data zero_table in
  let? _ := r in Ok cells.

Definition encode_fuel_table_page := encode_table.
Definition decode_fuel_table_page_into := decode_table_into rd_u16.
Definition decode_fuel_table_page := decode_table rd_u16.
Definition encode_ignition_table_page := encode_table.
Definition decode_ignition_table_page_into := decode_table_into rd_i16.
Definition decode_ignition_table_page := decode_table rd_i16.
Definition encode_ve_table_page := encode_table.
Definition decode_ve_table_page_into := decode_table_into rd_u16.
Definition decode_ve_table_page := decode_table rd_u16.
Definition encode_afr_table_page := encode_table.

(** The cells of this one are checked one by one, each after those before it have been
    written: an error leaves the table as far as it got. *)
Fixpoint decode_afr_row (data : list Z) (idx : nat) (row : list Z) : list Z * Result nat PageCodecError.t :=
  match row with
  | [] => ([], Ok idx)
  | cell :: row =>
    let target := rd_u16 data idx in
    if negb (in_range AFR_TARGET_MIN_X10 AFR_TARGET_MAX_X10 target) then (cell :: row, Err PageCodecError.Invalid)
    else let '(row, r) := decode_afr_row data (idx + 2) row in (target :: row, r)
  end.
Fixpoint decode_afr_rows (data : list Z) (idx : nat) (rows : table) : table * Result nat PageCodecError.t :=
  match rows with
  | [] => ([], Ok idx)
  | row :: rows =>
    match decode_afr_row data idx row with
    | (row, Err e) => (row :: rows, Err e)
    | (row, Ok idx) => let '(rows, r) := decode_afr_rows data idx rows in (row :: rows, r)
    end
  end.
Definition decode_afr_table_page_into (data : list Z) (cells : table) : table * Result unit PageCodecError.t :=
  if negb (length data =? TABLE_PAGE_BYTES)%nat then (cells, Err PageCodecError.WrongSize)
  else let '(cells, r) := decode_afr_rows data 0 cells in (cells, let? _ := r in Ok tt).
Definition decode_afr_table_page (data : list Z) : Result table PageCodecError.t :=
  let '(cells, r) := decode_afr_table_page_into data zero_table in
  let? _ := r in Ok cells.

(** ** Enrichment and actuators (enrichment.rs)

    The setup and configuration types of a page ([AeSetup], [AeConfig] and so on) have the
    fields of the page and are the same records here, but for the after-start page, which
    narrows one. *)
Module AePage.
Record t := mk {
  tpsdot_thresh_pct_s : Z; mapdot_thresh_kpa_s : Z; percent_gain : Z; decay_time_ms : Z; lockout_ms : Z }.
Definition default : t := mk 150 80 15 400 150.
End AePage.

Definition ae_fields (p : AePage.t) : list (nat * list Z) :=
  [(0%nat, le16 (AePage.tpsdot_thresh_pct_s p)); (2%nat, le16 (AePage.mapdot_thresh_kpa_s p));
   (4%nat, [AePage.percent_gain p]); (5%nat, [0]); (6%nat, le32 (AePage.decay_time_ms p));
   (10%nat, le32 (AePage.lockout_ms p)); (14%nat, [0]); (15%nat, [0])].
Definition encode_ae_page (p : AePage.t) := encode_at AE_PAGE_BYTES (ae_fields p).
Definition decode_ae_page (data : list Z) : Result AePage.t PageCodecError.t :=
  if (length data <? AE_PAGE_BYTES)%nat then Err PageCodecError.WrongSize
  else
    let page := AePage.mk (rd_i16 data 0) (rd_i16 data 2) (get_byte 4 data) (rd_u32 data 6) (rd_u32 data 10) in
    let? _ := refuse_if ((100 <? AePage.percent_gain page) || (AePage.decay_time_ms page =? 0)) in
    Ok page.

Module DfcoPage.
Record t := mk {
  tps_max_pct : Z; map_max_kpa : Z; rpm_min : Z; rpm_max : Z; delay_ms : Z; resume_hyst_ms : Z }.
Definition default : t := mk 2 30 1500 7000 200 300.
End DfcoPage.

Definition dfco_fields (p : DfcoPage.t) : list (nat * list Z) :=
  [(0%nat, [DfcoPage.tps_max_pct p]); (1%nat, [0]); (2%nat, le16 (DfcoPage.map_max_kpa p));
   (4%nat, le16 (DfcoPage.rpm_min p)); (6%nat, le16 (DfcoPage.rpm_max p)); (8%nat, le32 (DfcoPage.delay_ms p));
   (12%nat, le32 (DfcoPage.resume_hyst_ms p))].
Definition encode_dfco_page (p : DfcoPage.t) := encode_at DFCO_PAGE_BYTES (dfco_fields p).
Definition decode_dfco_page (data : list Z) : Result DfcoPage.t PageCodecError.t :=
  if (length data <? DFCO_PAGE_BYTES)%nat then Err PageCodecError.WrongSize
  else
    let page := DfcoPage.mk (get_byte 0 data) (rd_u16 data 2) (rd_u16 data 4) (rd_u16 data 6) (rd_u32 data 8) (rd_u32 data 12) in
    let? _ := refuse_if ((100 <? DfcoPage.tps_max_pct page) || (DfcoPage.rpm_min page =? 0)
      || (DfcoPage.rpm_max page <? DfcoPage.rpm_min page)) in
    Ok page.

Module WuePage.
Record t := mk { max_percent : Z; min_percent : Z; start_c : Z; end_c : Z }.
Definition default : t := mk 40 0 (-20) 60.
End WuePage.

Definition wue_fields (p : WuePage.t) : list (nat * list Z) :=
  [(0%nat, [WuePage.max_percent p]); (1%nat, [WuePage.min_percent p]); (2%nat, le16 (WuePage.start_c p));
   (4%nat, le16 (WuePage.end_c p)); (6%nat, [0]); (7%nat, [0])].
Definition encode_wue_page (p : WuePage.t) := encode_at WUE_PAGE_BYTES (wue_fields p).
Definition decode_wue_page (data : list Z) : Result WuePage.t PageCodecError.t :=
  if (length data <? WUE_PAGE_BYTES)%nat then Err PageCodecError.WrongSize
  else
    let page := WuePage.mk (get_byte 0 data) (get_byte 1 data) (rd_i16 data 2) (rd_i16 data 4) in
    let? _ := refuse_if ((100 <? WuePage.max_percent page) || (100 <? WuePage.min_percent page)
      || (WuePage.end_c page <=? WuePage.start_c page)) in
    Ok page.

Module AsePage.
(** The lockout is a [u16] here. *)
Record t := mk { percent : Z; taper_time_ms : Z; lockout_ms : Z }.
End AsePage.

Definition ase_fields (p : AsePage.t) : list (nat * list Z) :=
  [(0%nat, [AsePage.percent p]); (1%nat, [0]); (2%nat, le32 (AsePage.taper_time_ms p)); (6%nat, le16 (AsePage.lockout_ms p))].
Definition encode_ase_page (p : AsePage.t) := encode_at ASE_PAGE_BYTES (ase_fields p).
Definition decode_ase_page (data : list Z) : Result AsePage.t PageCodecError.t :=
  if (length data <? ASE_PAGE_BYTES)%nat then Err PageCodecError.WrongSize
  else
    let page := AsePage.mk (get_byte 0 data) (rd_u32 data 2) (rd_u16 data 6) in
    let? _ := refuse_if ((100 <? AsePage.percent page) || (AsePage.taper_time_ms page =? 0)) in
    Ok page.

Module IdlePage.
Record t := mk { enable : bool; duty_x10 : Z; freq_hz : Z }.
Definition default : t := mk false 0 100.
End IdlePage.

Definition idle_fields (p : IdlePage.t) : list (nat * list Z) :=
  [(0%nat, [Z.b2z (IdlePage.enable p)]); (1%nat, le16 (IdlePage.duty_x10 p)); (3%nat, le16 (IdlePage.freq_hz p)); (5%nat, [0])].
Definition encode_idle_page (p : IdlePage.t) := encode_at IDLE_PAGE_BYTES (idle_fields p).
Definition decode_idle_page (data : list Z) : Result IdlePage.t PageCodecError.t :=
  if (length data <? IDLE_PAGE_BYTES)%nat then Err PageCodecError.WrongSize
  else
    let page := IdlePage.mk (flag 0 data) (rd_u16 data 1) (rd_u16 data 3) in
    let? _ := refuse_if ((IDLE_DUTY_MAX_X10 <? IdlePage.duty_x10 page) || (IdlePage.freq_hz page =? 0)) in
    Ok page.

Module FanPage.
Record t := mk { enable : bool; on_c : Z; off_c : Z }.
Definition default : t := mk false 95 90.
End FanPage.

Definition fan_fields (p : FanPage.t) : list (nat * list Z) :=
  [(0%nat, [Z.b2z (FanPage.enable p)]); (1%nat, le16 (FanPage.on_c p)); (3%nat, le16 (FanPage.off_c p)); (5%nat, [0])].
Definition encode_fan_page (p : FanPage.t) := encode_at FAN_PAGE_BYTES (fan_fields p).
Definition decode_fan_page (data : list Z) : Result FanPage.t PageCodecError.t :=
  if (length data <? FAN_PAGE_BYTES)%nat then Err PageCodecError.WrongSize
  else
    let page := FanPage.mk (flag 0 data) (rd_i16 data 1) (rd_i16 data 3) in
    let? _ := refuse_if (FanPage.on_c page <=? FanPage.off_c page) in
    Ok page.

Module ClosedLoopPage.
Record t := mk { enable : bool; target_afr_x10 : Z; kp_i : Z; ki_i : Z }.
#[global] Instance eta : Eta t := fun p => mk (enable p) (target_afr_x10 p) (kp_i p) (ki_i p).
Definition default : t := mk false 147 0 0.
End ClosedLoopPage.

Definition cl_fields (p : ClosedLoopPage.t) : list (nat * list Z) :=
  [(0%nat, [Z.b2z (ClosedLoopPage.enable p)]); (1%nat, [0]); (2%nat, le16 (ClosedLoopPage.target_afr_x10 p));
   (4%nat, le16 (ClosedLoopPage.kp_i p)); (6%nat, le16 (ClosedLoopPage.ki_i p))].
Definition encode_closed_loop_page (p : ClosedLoopPage.t) := encode_at CLOSED_LOOP_PAGE_BYTES (cl_fields p).
Definition decode_closed_loop_page (data : list Z) : Result ClosedLoopPage.t PageCodecError.t :=
  if (length data <? CLOSED_LOOP_PAGE_BYTES)%nat then Err PageCodecError.WrongSize
  else
    let page := ClosedLoopPage.mk (flag 0 data) (rd_u16 data 2) (rd_u16 data 4) (rd_u16 data 6) in
    let? _ := refuse_if (negb (in_range AFR_TARGET_MIN_X10 AFR_TARGET_MAX_X10 (ClosedLoopPage.target_afr_x10 page))) in
    Ok page.

(** ** Fuel tune (fuel_tune.rs) *)
Module VeTunePageLimits.
Record t := mk { min_pulse_width_us : Z; max_pulse_width_us : Z; max_injector_deadtime_us : Z }.
Definition new (min_pulse_width_us max_pulse_width_us : Z) : t :=
  mk min_pulse_width_us max_pulse_width_us VE_TUNE_INJECTOR_DEADTIME_MAX_US.
Definition with_deadtime_cap := mk.
Definition validate (l : t) : Result unit PageCodecError.t :=
  refuse_if (max_pulse_width_us l <? min_pulse_width_us l).
End VeTunePageLimits.

Module VeTunePage.
Record t := mk {
  target_afr_x10 : Z; kp_i : Z; ki_i : Z; required_fuel_us : Z; injector_deadtime_us : Z; ve_load_source : Z }.
#[global] Instance eta : Eta t := fun p =>
  mk (target_afr_x10 p) (kp_i p) (ki_i p) (required_fuel_us p) (injector_deadtime_us p) (ve_load_source p).
(** [u16::clamp] asserts its bounds, which [validate] has checked. *)
Definition apply_limits (l : VeTunePageLimits.t) (p : t) : Result t PageCodecError.t :=
  let? _ := VeTunePageLimits.validate l in
  Ok (p <| required_fuel_us ::= fun v => clamp v (VeTunePageLimits.min_pulse_width_us l) (VeTunePageLimits.max_pulse_width_us l) |>
        <| injector_deadtime_us ::= fun v => Z.min v (VeTunePageLimits.max_injector_deadtime_us l) |>).
End VeTunePage.

Definition ve_tune_fields (limits : VeTunePageLimits.t) (p : VeTunePage.t) : list (nat * list Z) :=
  [(0%nat, le16 (VeTunePage.target_afr_x10 p)); (2%nat, le16 (VeTunePage.kp_i p)); (4%nat, le16 (VeTunePage.ki_i p));
   (6%nat, le16 (VeTunePage.required_fuel_us p)); (8%nat, le16 (VeTunePage.injector_deadtime_us p));
   (10%nat, [VeTunePage.ve_load_source p]); (11%nat, [0]); (12%nat, le16 (VeTunePageLimits.min_pulse_width_us limits));
   (14%nat, le16 (VeTunePageLimits.max_pulse_width_us limits))].
Definition encode_ve_tune_page (p : VeTunePage.t) (limits : VeTunePageLimits.t) (out : list Z) :
    list Z * Result nat PageCodecError.t :=
  if (length out <? VE_TUNE_PAGE_BYTES)%nat then (out, Err PageCodecError.WrongSize)
  else
    match VeTunePageLimits.validate limits with
    | Err e => (out, Err e)
    | Ok _ => (write_fields (ve_tune_fields limits p) out, Ok VE_TUNE_PAGE_BYTES)
    end.
Definition decode_ve_tune_page (data : list Z) : Result VeTunePage.t PageCodecError.t :=
  if (length data <? VE_TUNE_PAGE_BYTES)%nat then Err PageCodecError.WrongSize
  else
    let page := VeTunePage.mk (rd_u16 data 0) (rd_u16 data 2) (rd_u16 data 4) (rd_u16 data 6) (rd_u16 data 8) (get_byte 10 data) in
    let? _ := refuse_if (negb (in_range AFR_TARGET_MIN_X10 AFR_TARGET_MAX_X10 (VeTunePage.target_afr_x10 page))) in
    let? _ := refuse_if (VE_TUNE_LOAD_SOURCE_MAX <? VeTunePage.ve_load_source page) in
    Ok page.

(** ** Sensors, limits and angles (sensors_limits_angles.rs) *)
Module AnglesPage.
Record t := mk { inj_angles_x10 : list Z; tdc_angles_x10 : list Z; tooth0_angle_x10 : Z; cam_timeout_ms : Z }.
End AnglesPage.

Definition encode_angles_page (p : AnglesPage.t) (out : list Z) : list Z * Result nat PageCodecError.t :=
  if (length out <? ANGLES_PAGE_BYTES)%nat then (out, Err PageCodecError.WrongSize)
  else
    let s := put_each le16 (AnglesPage.inj_angles_x10 p) (out, 0%nat) in
    let s := put_each le16 (AnglesPage.tdc_angles_x10 p) s in
    let s := put (le16 (AnglesPage.tooth0_angle_x10 p)) s in
    let s := put (le16 (AnglesPage.cam_timeout_ms p)) s in
    (s.1, Ok ANGLES_PAGE_BYTES).

(** A loop that fills [n] angles and stops at one past [limit]. *)
Fixpoint read_angles (limit : Z) (data : list Z) (idx n : nat) : Result (list Z) PageCodecError.t :=
  match n with
  | O => Ok []
  | S n =>
    let angle := rd_u16 data idx in
    let? _ := refuse_if (limit <? angle) in
    let? angles := read_angles limit data (idx + 2) n in
    Ok (angle :: angles)
  end.
Definition decode_angles_page (data : list Z) : Result AnglesPage.t PageCodecError.t :=
  if (length data <? ANGLES_PAGE_BYTES)%nat then Err PageCodecError.WrongSize
  else
    let? inj_angles_x10 := read_angles 3600 data 0 16 in
    let? tdc_angles_x10 := read_angles 7200 data 32 16 in
    let tooth0_angle_x10 := rd_u16 data 64 in
    let? _ := refuse_if (3600 <? tooth0_angle_x10) in
    let cam_timeout_ms := rd_u16 data 66 in
    Ok (AnglesPage.mk inj_angles_x10 tdc_angles_x10 tooth0_angle_x10 cam_timeout_ms).

Module SensorsPage.
Record t := mk {
  tps_min_counts : Z; tps_max_counts : Z; map_v0_mv : Z; map_kpa0_x10 : Z; map_v1_mv : Z; map_kpa1_x10 : Z;
  clt_deg_c : list Z; iat_deg_c : list Z; clt_ohms : list Z; iat_ohms : list Z }.
End SensorsPage.

(** The reserved tail is left as it is. *)
Definition encode_sensors_page (p : SensorsPage.t) (out : list Z) : list Z * Result nat PageCodecError.t :=
  if (length out <? SENSORS_PAGE_BYTES)%nat then (out, Err PageCodecError.WrongSize)
  else
    let s := put (le16 (SensorsPage.tps_min_counts p)) (out, 0%nat) in
    let s := put (le16 (SensorsPage.tps_max_counts p)) s in
    let s := put (le16 (SensorsPage.map_v0_mv p)) s in
    let s := put (le16 (SensorsPage.map_kpa0_x10 p)) s in
    let s := put (le16 (SensorsPage.map_v1_mv p)) s in
    let s := put (le16 (SensorsPage.map_kpa1_x10 p)) s in
    let s := put_each le16 (SensorsPage.clt_deg_c p) s in
    let s := put_each le16 (SensorsPage.iat_deg_c p) s in
    let s := put_each le32 (SensorsPage.clt_ohms p) s in
    let s := put_each le32 (SensorsPage.iat_ohms p) s in
    (s.1, Ok SENSORS_PAGE_BYTES).
Definition decode_sensors_page (data : list Z) : Result SensorsPage.t PageCodecError.t :=
  if (length data <? SENSORS_PAGE_BYTES)%nat then Err PageCodecError.WrongSize
  else
    let tps_min_counts := rd_u16 data 0 in
    let tps_max_counts := rd_u16 data 2 in
    let? _ := refuse_if (tps_max_counts <=? tps_min_counts) in
    let map_v0_mv := rd_u16 data 4 in
    let map_kpa0_x10 := rd_u16 data 6 in
    let map_v1_mv := rd_u16 data 8 in
    let map_kpa1_x10 := rd_u16 data 10 in
    let? _ := refuse_if ((map_v1_mv <=? map_v0_mv) || (map_kpa1_x10 <=? map_kpa0_x10) || (SENSOR_ADC_INPUT_MAX_MV <? map_v1_mv)) in
    Ok (SensorsPage.mk tps_min_counts tps_max_counts map_v0_mv map_kpa0_x10 map_v1_mv map_kpa1_x10
      (read_each rd_i16 2 data 12 8) (read_each rd_i16 2 data 28 8) (read_each rd_u32 4 data 44 8) (read_each rd_u32 4 data 76 8)).

Module LimitsPage.
Record t := mk {
  map_min_kpa_x10 : Z; map_max_kpa_x10 : Z; tps_min_percent : Z; tps_max_percent : Z; clear_time_s : Z;
  emerg_trig_map : bool; emerg_trig_tps : bool }.
End LimitsPage.

Definition limits_trigger (p : LimitsPage.t) : Z :=
  let trigger := 0 in
  let trigger := if LimitsPage.emerg_trig_map p then Z.lor trigger LIMITS_TRIGGER_MAP_BIT else trigger in
  if LimitsPage.emerg_trig_tps p then Z.lor trigger LIMITS_TRIGGER_TPS_BIT else trigger.
Definition limits_fields (p : LimitsPage.t) : list (nat * list Z) :=
  [(0%nat, le16 (LimitsPage.map_min_kpa_x10 p)); (2%nat, le16 (LimitsPage.map_max_kpa_x10 p));
   (4%nat, [LimitsPage.tps_min_percent p]); (5%nat, [LimitsPage.tps_max_percent p]);
   (6%nat, le16 (LimitsPage.clear_time_s p)); (8%nat, [limits_trigger p]); (9%nat, [0])].
Definition encode_limits_page (p : LimitsPage.t) := encode_at LIMITS_PAGE_BYTES (limits_fields p).
Definition decode_limits_page (data : list Z) : Result LimitsPage.t PageCodecError.t :=
  if (length data <? LIMITS_PAGE_BYTES)%nat then Err PageCodecError.WrongSize
  else
    let map_min_kpa_x10 := rd_u16 data 0 in
    let map_max_kpa_x10 := rd_u16 data 2 in
    let tps_min_percent := get_byte 4 data in
    let tps_max_percent := get_byte 5 data in
    let clear_time_s := rd_u16 data 6 in
    let trigger := get_byte 8 data in
    let? _ := refuse_if ((map_min_kpa_x10 =? 0) || (map_max_kpa_x10 <=? map_min_kpa_x10)) in
    let? _ := refuse_if ((100 <? tps_max_percent) || (tps_max_percent <=? tps_min_percent)) in
    let? _ := refuse_if (clear_time_s =? 0) in
    let? _ := refuse_if (negb (Z.land trigger (not8 LIMITS_TRIGGER_BITS_MASK) =? 0)) in
    Ok (LimitsPage.mk map_min_kpa_x10 map_max_kpa_x10 tps_min_percent tps_max_percent clear_time_s
      (negb (Z.land trigger LIMITS_TRIGGER_MAP_BIT =? 0)) (negb (Z.land trigger LIMITS_TRIGGER_TPS_BIT =? 0))).

(** ** Diagnostics and snapshot (diagnostics_snapshot.rs) *)
Module SnapshotPage.
Record t := mk {
  rpm : Z; sync_code : Z; cancel_reason : Z; base_pw_us : Z; enrich_mult_x100 : Z; stft_x10 : Z; fuel_mult_x100 : Z;
  final_pw_us : Z; fault_code : Z; fault_severity : Z; isr_count : Z; isr_max_us : Z; isr_avg_us : Z }.
End SnapshotPage.

Definition snapshot_fields (p : SnapshotPage.t) : list (nat * list Z) :=
  [(0%nat, le16 (SnapshotPage.rpm p)); (2%nat, [SnapshotPage.sync_code p]); (3%nat, [SnapshotPage.cancel_reason p]);
   (4%nat, le32 (SnapshotPage.base_pw_us p)); (8%nat, le16 (SnapshotPage.enrich_mult_x100 p));
   (10%nat, le16 (SnapshotPage.stft_x10 p)); (12%nat, le16 (SnapshotPage.fuel_mult_x100 p));
   (14%nat, le32 (SnapshotPage.final_pw_us p)); (18%nat, [SnapshotPage.fault_code p]); (19%nat, [SnapshotPage.fault_severity p]);
   (20%nat, le32 (SnapshotPage.isr_count p)); (24%nat, le32 (SnapshotPage.isr_max_us p)); (28%nat, le32 (SnapshotPage.isr_avg_us p))].
Definition encode_snapshot_page (p : SnapshotPage.t) := encode_at SNAPSHOT_PAGE_BYTES (snapshot_fields p).

Module DiagPage.
Record t := mk {
  current_tooth_count : Z; cam_seen : bool; sync_state : Z; phase_state : Z; absolute_authority : Z;
  trigger_angle_source : Z; output_gating_reason : Z; last_sync_loss_reason : Z; primary_rpm : Z; detected_gap_ratio : Z;
  sync_loss_counter : Z; board_pin_map_identity : Z; profile_identity : Z; profile_hash : Z; current_fault_code : Z;
  current_fault_severity : Z; current_fault_action : Z; current_cancel_reason : Z; fault_flags : Z; latest_diag_code : Z }.
End DiagPage.

Definition diag_fields (p : DiagPage.t) : list (nat * list Z) :=
  [(0%nat, replicate DIAG_PAGE_BYTES 0); (0%nat, [DiagPage.current_tooth_count p]); (1%nat, [Z.b2z (DiagPage.cam_seen p)]);
   (2%nat, [DiagPage.sync_state p]); (3%nat, [DiagPage.phase_state p]); (4%nat, [DiagPage.absolute_authority p]);
   (5%nat, [DiagPage.trigger_angle_source p]); (6%nat, [DiagPage.output_gating_reason p]);
   (7%nat, [DiagPage.last_sync_loss_reason p]); (8%nat, le16 (DiagPage.primary_rpm p));
   (10%nat, le16 (DiagPage.detected_gap_ratio p)); (12%nat, le16 (DiagPage.sync_loss_counter p));
   (14%nat, le16 (DiagPage.board_pin_map_identity p)); (16%nat, le32 (DiagPage.profile_identity p));
   (20%nat, le32 (DiagPage.profile_hash p)); (24%nat, [DiagPage.current_fault_code p]);
   (25%nat, [DiagPage.current_fault_severity p]); (26%nat, [DiagPage.current_fault_action p]);
   (27%nat, [DiagPage.current_cancel_reason p]); (28%nat, [DiagPage.fault_flags p]); (29%nat, [DiagPage.latest_diag_code p])].
Definition encode_diag_page (p : DiagPage.t) := encode_at DIAG_PAGE_BYTES (diag_fields p).
Definition decode_diag_page (data : list Z) : Result DiagPage.t PageCodecError.t :=
  if negb (length data =? DIAG_PAGE_BYTES)%nat then Err PageCodecError.WrongSize
  else
    let b i := get_byte i data in
    Ok (DiagPage.mk (b 0%nat) (flag 1 data) (b 2%nat) (b 3%nat) (b 4%nat) (b 5%nat) (b 6%nat) (b 7%nat)
      (rd_u16 data 8) (rd_u16 data 10) (rd_u16 data 12) (rd_u16 data 14) (rd_u32 data 16) (rd_u32 data 20)
      (b 24%nat) (b 25%nat) (b 26%nat) (b 27%nat) (b 28%nat) (b 29%nat)).

Module DiagLogEntryPage.
Record t := mk {
  code : Z; severity : Z; action : Z; source : Z; context_present : bool; context : Z; start_us : Z; end_us : Z }.
Definition empty : t := mk 0 0 0 0 false 0 0 0.
End DiagLogEntryPage.

Definition diag_log_entry_fields (offset : nat) (e : DiagLogEntryPage.t) : list (nat * list Z) :=
  [(offset, [DiagLogEntryPage.code e]); ((offset + 1)%nat, [DiagLogEntryPage.severity e]);
   ((offset + 2)%nat, [DiagLogEntryPage.action e]);
   ((offset + 3)%nat, [Z.lor (DiagLogEntryPage.source e)
      (if DiagLogEntryPage.context_present e then TS_DIAG_SOURCE_CONTEXT_PRESENT else 0)]);
   ((offset + 4)%nat, le32 (DiagLogEntryPage.start_us e)); ((offset + 8)%nat, le32 (DiagLogEntryPage.end_us e));
   ((offset + 12)%nat, le32 (DiagLogEntryPage.context e))].
Definition encode_diag_log_page (entries : list DiagLogEntryPage.t) (out : list Z) : list Z * Result nat PageCodecError.t :=
  if (length out <? DIAG_LOG_PAGE_BYTES)%nat then (out, Err PageCodecError.WrongSize)
  else
    (fold_left (fun out '(idx, entry) => write_fields (diag_log_entry_fields (idx * DIAG_LOG_ENTRY_BYTES) entry) out)
       (zip (seq 0 (length entries)) entries) out, Ok DIAG_LOG_PAGE_BYTES).

Definition decode_diag_log_entry (data : list Z) (idx : nat) : DiagLogEntryPage.t :=
  let offset := (idx * DIAG_LOG_ENTRY_BYTES)%nat in
  let source := get_byte (offset + 3) data in
  DiagLogEntryPage.mk (get_byte offset data) (get_byte (offset + 1) data) (get_byte (offset + 2) data)
    (Z.land source (not8 TS_DIAG_SOURCE_CONTEXT_PRESENT)) (negb (Z.land source TS_DIAG_SOURCE_CONTEXT_PRESENT =? 0))
    (rd_u32 data (offset + 12)) (rd_u32 data (offset + 4)) (rd_u32 data (offset + 8)).
Definition decode_diag_log_page (data : list Z) : Result (list DiagLogEntryPage.t) PageCodecError.t :=
  if negb (length data =? DIAG_LOG_PAGE_BYTES)%nat then Err PageCodecError.WrongSize
  else Ok (map (decode_diag_log_entry data) (seq 0 DIAG_LOG_ENTRY_COUNT)).

(** ** The expert trigger page (expert_trigger.rs)

    The page holds the bytes as they are; [expert_trigger_calibration_from_page] checks that
    each is the code of a variant. *)
Module ExpertTriggerPage.
Record t := mk {
  schema_version : Z; expert_unlock : Z; authority : Z; profile_identity : Z; profile_hash : Z; trigger_pattern : Z;
  primary_base_teeth : Z; missing_teeth : Z; primary_trigger_speed : Z; trigger_angle_atdc_deg10 : Z;
  trigger_angle_multiplier : Z; primary_trigger_edge : Z; secondary_trigger_edge : Z; secondary_trigger_mode : Z;
  poll_level_polarity : Z; trigger_filter : Z; resync_every_cycle : bool; skip_cycles : Z; ignition_mode : Z;
  injection_layout : Z; fixed_timing_mode : Z; fixed_timing_deg10 : Z }.
#[global] Instance eq_dec : EqDecision t.
Proof. solve_decision. Defined.
Definition default_layout : t :=
  mk EXPERT_SCHEMA_VERSION_CURRENT EXPERT_UNLOCK_LOCKED 0 0 0 TRIGGER_PATTERN_MISSING_TOOTH 60 2 0 0 1 0 0
    SECONDARY_TRIGGER_NONE 0 2 false 2 1 1 0 100.
End ExpertTriggerPage.

Section ExpertPage.
Import ExpertTriggerPage.

Definition known_codes (p : t) : bool :=
  negb ((EXPERT_UNLOCK_UNLOCKED <? expert_unlock p) || (4 <? authority p) || (3 <? trigger_pattern p)
    || (1 <? primary_trigger_speed p) || (1 <? primary_trigger_edge p) || (1 <? secondary_trigger_edge p)
    || (5 <? secondary_trigger_mode p) || (1 <? poll_level_polarity p) || (3 <? trigger_filter p)
    || (3 <? ignition_mode p) || (4 <? injection_layout p) || (1 <? fixed_timing_mode p)).

Definition validate_page_teeth (p : t) : Result unit PageCodecError.t :=
  let? _ := refuse_if (primary_base_teeth p =? 0) in
  if trigger_pattern p =? TRIGGER_PATTERN_MISSING_TOOTH
  then refuse_if ((primary_base_teeth p <? 2) || (missing_teeth p =? 0) || (primary_base_teeth p <=? missing_teeth p))
  else refuse_if (negb (missing_teeth p =? 0)).

(** The part of the validation that looks at the page alone. *)
Definition validate_page_fields (p : t) : Result unit PageCodecError.t :=
  let? _ := validate_page_teeth p in
  let? _ := refuse_if (7200 <? trigger_angle_atdc_deg10 p) in
  let? _ := refuse_if ((trigger_angle_multiplier p =? 0) || (8 <? trigger_angle_multiplier p)) in
  let? _ := refuse_if (resync_every_cycle p && (secondary_trigger_mode p =? SECONDARY_TRIGGER_NONE)) in
  let? _ := refuse_if (((ignition_mode p =? EXPERT_IGNITION_SEQUENTIAL_COP) || (injection_layout p =? EXPERT_INJECTION_SEQUENTIAL))
    && (secondary_trigger_mode p =? SECONDARY_TRIGGER_NONE)) in
  let? _ := refuse_if (16 <? skip_cycles p) in
  refuse_if ((fixed_timing_mode p =? FIXED_TIMING_FIXED) && negb (in_range (-100) 600 (fixed_timing_deg10 p))).

Definition certified_page (p : t) : bool := authority p =? TRIGGER_AUTHORITY_CERTIFIED_PROFILE.

Definition validate_page_authority (p : t) : Result unit PageCodecError.t :=
  let? _ := refuse_if ((authority p =? TRIGGER_AUTHORITY_EXPERT_MANUAL) && negb (expert_unlock p =? EXPERT_UNLOCK_UNLOCKED)) in
  if certified_page p then
    let? _ := refuse_if ((profile_identity p =? 0) || (profile_hash p =? 0)) in
    refuse_if (negb (expert_unlock p =? EXPERT_UNLOCK_LOCKED))
  else Ok tt.

Definition validate_expert_trigger_page (p : t) (current : option t) (allow_certified_profile : bool) :
    Result unit PageCodecError.t :=
  let? _ := refuse_if (negb (schema_version p =? EXPERT_SCHEMA_VERSION_CURRENT)) in
  let? _ := refuse_if (negb allow_certified_profile && certified_page p) in
  let? _ := refuse_if (negb (known_codes p)) in
  let? _ := validate_page_authority p in
  let? _ := validate_page_fields p in
  match current with
  | Some current =>
    if certified_page current then
      let? _ := refuse_if (certified_page p && negb (bool_decide (p = current))) in
      refuse_if (negb (certified_page p) && negb (expert_unlock p =? EXPERT_UNLOCK_UNLOCKED))
    else Ok tt
  | None => Ok tt
  end.

Definition expert_page_fields (p : t) : list (nat * list Z) :=
  [(0%nat, replicate EXPERT_TRIGGER_PAGE_BYTES 0);
   (0%nat, le16 (schema_version p)); (2%nat, [expert_unlock p]); (3%nat, [authority p]);
   (4%nat, le32 (profile_identity p)); (8%nat, le32 (profile_hash p)); (12%nat, [trigger_pattern p]);
   (13%nat, [primary_base_teeth p]); (14%nat, [missing_teeth p]); (15%nat, [primary_trigger_speed p]);
   (16%nat, le16 (trigger_angle_atdc_deg10 p)); (18%nat, [trigger_angle_multiplier p]); (19%nat, [primary_trigger_edge p]);
   (20%nat, [secondary_trigger_edge p]); (21%nat, [secondary_trigger_mode p]); (22%nat, [poll_level_polarity p]);
   (23%nat, [trigger_filter p]); (24%nat, [Z.b2z (resync_every_cycle p)]); (25%nat, [skip_cycles p]);
   (26%nat, [ignition_mode p]); (27%nat, [injection_layout p]); (28%nat, [fixed_timing_mode p]);
   (30%nat, le16 (fixed_timing_deg10 p))].
Definition encode_expert_trigger_page (p : t) (out : list Z) : list Z * Result nat PageCodecError.t :=
  match validate_expert_trigger_page p None true with
  | Err e => (out, Err e)
  | Ok _ => encode_at EXPERT_TRIGGER_PAGE_BYTES (expert_page_fields p) out
  end.

Definition read_expert_page (data : list Z) : t :=
  let b i := get_byte i data in
  mk (rd_u16 data 0) (b 2%nat) (b 3%nat) (rd_u32 data 4) (rd_u32 data 8) (b 12%nat) (b 13%nat) (b 14%nat) (b 15%nat)
    (rd_u16 data 16) (b 18%nat) (b 19%nat) (b 20%nat) (b 21%nat) (b 22%nat) (b 23%nat) (flag 24 data) (b 25%nat)
    (b 26%nat) (b 27%nat) (b 28%nat) (rd_i16 data 30).
Definition decode_expert_trigger_page_inner (data : list Z) (current : option t) (allow_certified_profile : bool) :
    Result t PageCodecError.t :=
  if negb (length data =? EXPERT_TRIGGER_PAGE_BYTES)%nat then Err PageCodecError.WrongSize
  else
    let page := read_expert_page data in
    let? _ := validate_expert_trigger_page page current allow_certified_profile in
    Ok page.
Definition decode_expert_trigger_page_with_current (data : list Z) (current : option t) :=
  decode_expert_trigger_page_inner data current false.
Definition decode_trusted_expert_trigger_page (data : list Z) := decode_expert_trigger_page_inner data None true.
Definition decode_expert_trigger_page (data : list Z) := decode_expert_trigger_page_with_current data None.

(** [ExpertUnlock::from_code(page.expert_unlock).ok_or(Invalid)?] and the like. *)
Definition known {T} `{CodeEnum T} (n : Z) : Result T PageCodecError.t :=
  match from_code n with Some x => Ok x | None => Err PageCodecError.Invalid end.

Definition expert_trigger_page_from_calibration (c : ExpertTriggerCalibration.t) : t :=
  mk (ExpertTriggerCalibration.schema_version c) (code (ExpertTriggerCalibration.expert_unlock c))
    (code (ExpertTriggerCalibration.authority c)) (ExpertTriggerCalibration.profile_identity c)
    (ExpertTriggerCalibration.profile_hash c) (code (ExpertTriggerCalibration.trigger_pattern c))
    (ExpertTriggerCalibration.primary_base_teeth c) (ExpertTriggerCalibration.missing_teeth c)
    (code (ExpertTriggerCalibration.primary_trigger_speed c)) (ExpertTriggerCalibration.trigger_angle_atdc_deg10 c)
    (ExpertTriggerCalibration.trigger_angle_multiplier c) (code (ExpertTriggerCalibration.primary_trigger_edge c))
    (code (ExpertTriggerCalibration.secondary_trigger_edge c)) (code (ExpertTriggerCalibration.secondary_trigger_mode c))
    (code (ExpertTriggerCalibration.poll_level_polarity c)) (code (ExpertTriggerCalibration.trigger_filter c))
    (ExpertTriggerCalibration.resync_every_cycle c) (ExpertTriggerCalibration.skip_cycles c)
    (code (ExpertTriggerCalibration.ignition_mode c)) (code (ExpertTriggerCalibration.injection_layout c))
    (code (ExpertTriggerCalibration.fixed_timing_mode c)) (ExpertTriggerCalibration.fixed_timing_deg10 c).

Definition expert_trigger_calibration_from_page (p : t) : Result ExpertTriggerCalibration.t PageCodecError.t :=
  let? unlock := known (expert_unlock p) in
  let? auth := known (authority p) in
  let? pattern := known (trigger_pattern p) in
  let? speed := known (primary_trigger_speed p) in
  let? edge1 := known (primary_trigger_edge p) in
  let? edge2 := known (secondary_trigger_edge p) in
  let? mode := known (secondary_trigger_mode p) in
  let? polarity := known (poll_level_polarity p) in
  let? filter := known (trigger_filter p) in
  let? ign := known (ignition_mode p) in
  let? inj := known (injection_layout p) in
  let? fixed := known (fixed_timing_mode p) in
  let cal := ExpertTriggerCalibration.mk (schema_version p) unlock auth (profile_identity p) (profile_hash p) pattern
    (primary_base_teeth p) (missing_teeth p) speed (trigger_angle_atdc_deg10 p) (trigger_angle_multiplier p)
    edge1 edge2 mode polarity filter (resync_every_cycle p) (skip_cycles p) ign inj fixed (fixed_timing_deg10 p) in
  match validate cal with Err _ => Err PageCodecError.Invalid | Ok _ => Ok cal end.
End ExpertPage.
