(* ===== verification/TsCodecs.v ===== *)
(** * Laws of the page codecs (crates/ts/src/pages/codecs/)

    The class [PageCodec] states what the store of the pages relies on: an encoder writes the
    bytes of a page over the front of the buffer and nothing else, a decoder reads them back,
    and what it accepts has fields in the range of their types.  There is an instance for each
    page that is a record, and the corresponding lemmas for the tables, the log and the expert
    trigger page. *)
From S2P Require Import Prelude Domain Bytes BoardApi ExpertTrigger TsPages.

Class PageCodec (P : Type) := {
  codec_len : nat;
  codec_typed : P -> Prop;
  codec_valid : P -> bool;
  codec_bytes : P -> list Z;
  codec_encode : P -> list Z -> list Z * Result nat PageCodecError.t;
  codec_decode : list Z -> Result P PageCodecError.t;
  codec_bytes_ok p : codec_typed p -> bytes (codec_bytes p) /\ (length (codec_bytes p) <= codec_len)%nat;
  codec_encode_short p out : (length out < codec_len)%nat -> codec_encode p out = (out, Err PageCodecError.WrongSize);
  codec_encode_ok p out : codec_typed p -> (codec_len <= length out)%nat ->
    codec_encode p out = (codec_bytes p ++ drop (length (codec_bytes p)) out, Ok codec_len);
  codec_decode_bytes p rest : codec_typed p -> codec_valid p = true -> length (codec_bytes p ++ rest) = codec_len ->
    codec_decode (codec_bytes p ++ rest) = Ok p;
  codec_decode_ok data p : bytes data -> codec_decode data = Ok p -> codec_typed p /\ codec_valid p = true;
}.

(** ** Writes *)

(** Fields that lie one after another from an offset on. *)
Fixpoint tiled (off : nat) (fields : list (nat * list Z)) : Prop :=
  match fields with
  | [] => True
  | (o, src) :: fields => o = off /\ tiled (off + length src) fields
  end.

Lemma write_tiled fields pre out : tiled (length pre) fields ->
  write_fields fields (pre ++ drop (length pre) out)
  = (pre ++ concat (map snd fields)) ++ drop (length pre + length (concat (map snd fields))) out.
Proof.
  revert pre. induction fields as [|[o src] fields IH]; intros pre; cbn [tiled write_fields fold_left map concat].
  - intros _. by rewrite app_nil_r, Nat.add_0_r.
  - intros [-> Ht]. change (fold_left _ fields ?x) with (write_fields fields x).
    rewrite (copy_at_app (length pre) pre src out) by done.
    rewrite <- length_app in Ht |- *. rewrite IH by done. f_equal; [by rewrite app_assoc|].
    f_equal. rewrite !length_app. cbn [snd]. lia.
Qed.

Lemma encode_tiled len fields out : tiled 0 fields -> (len <= length out)%nat ->
  encode_at len fields out = (concat (map snd fields) ++ drop (length (concat (map snd fields))) out, Ok len).
Proof.
  intros Ht Hl. unfold encode_at. destruct (Nat.ltb_spec (length out) len); [lia|].
  f_equal. exact (write_tiled fields [] out Ht).
Qed.

Lemma encode_at_short len fields out : (length out < len)%nat -> encode_at len fields out = (out, Err PageCodecError.WrongSize).
Proof. intros H. unfold encode_at. by destruct (Nat.ltb_spec (length out) len); [|lia]. Qed.

(** A page that is cleared first: the rest of the buffer stays. *)
Lemma encode_cleared len fields out : (len <= length out)%nat ->
  encode_at len ((0%nat, replicate len 0) :: fields) out
  = (write_fields fields (replicate len 0 ++ drop len out), Ok len).
Proof.
  intros Hl. unfold encode_at. destruct (Nat.ltb_spec (length out) len); [lia|]. cbn [write_fields fold_left].
  by rewrite copy_at_0, length_replicate.
Qed.

(** The running writes extend a prefix. *)
Lemma put_app pre src out : put src (pre ++ drop (length pre) out, length pre)
  = ((pre ++ src) ++ drop (length (pre ++ src)) out, length (pre ++ src)).
Proof. unfold put. cbn [fst snd]. by rewrite copy_at_app, length_app by done. Qed.

Lemma put_each_app {A} (to_bytes : A -> list Z) vs pre out :
  put_each to_bytes vs (pre ++ drop (length pre) out, length pre)
  = ((pre ++ concat (map to_bytes vs)) ++ drop (length (pre ++ concat (map to_bytes vs))) out,
     length (pre ++ concat (map to_bytes vs))).
Proof.
  revert pre. induction vs as [|v vs IH]; intros pre; [by rewrite app_nil_r|]. cbn [map concat].
  change (put_each to_bytes (v :: vs) ?s) with (put_each to_bytes vs (put (to_bytes v) s)).
  by rewrite put_app, IH, app_assoc.
Qed.

Lemma put_start (out : list Z) : (out, 0%nat) = ([] ++ drop (length (@nil Z)) out, length (@nil Z)).
Proof. done. Qed.

(** ** Reads *)
Lemma rd_i16_range data off : bytes data -> i16 (rd_i16 data off).
Proof. intros H. unfold rd_i16, i16. by destruct (le16_rd data off H) as (_ & _ & ? & _). Qed.

Lemma rd_u16_range data off : bytes data -> u16 (rd_u16 data off).
Proof. intros H. by destruct (le16_rd data off H). Qed.

Lemma rd_u32_range data off : bytes data -> u32 (rd_u32 data off).
Proof. intros H. by destruct (le32_rd data off H). Qed.

Lemma b2z_byte b : byte (Z.b2z b).
Proof. unfold byte. destruct b; cbn; lia. Qed.

Lemma b2z_flag b : negb (Z.b2z b =? 0) = b.
Proof. by destruct b. Qed.

Lemma zero_byte : byte 0.
Proof. unfold byte. lia. Qed.

#[export] Hint Resolve rd_i16_range rd_u16_range rd_u32_range get_byte_range le16_bytes le32_bytes b2z_byte zero_byte
  byte_of_range : ecu.

Lemma refuse_if_ok b r : refuse_if b = Ok r -> b = false.
Proof. by destruct b. Qed.

Lemma refuse_if_false b : b = false -> refuse_if b = Ok tt.
Proof. by intros ->. Qed.

Lemma negb_false b : negb b = true -> b = false.
Proof. by destruct b. Qed.

(** A list of bytes, byte by byte and word by word. *)
Ltac bytes_of_fields :=
  repeat first [apply Forall_nil_2 | apply Forall_app_2 | apply Forall_cons_2]; auto with ecu.

(** The fields of a page whose bytes, given as the definition [fields], are before us. *)
Ltac read_fields fields :=
  unfold rd_i16, rd_u16, rd_u32, flag, fields;
  cbn [get_byte nth app concat map snd le16 le32 Nat.add];
  repeat first
  [ rewrite b2z_flag
  | rewrite le32_value by done
  | rewrite signed_le16 by done
  | rewrite le16_value by done ].

(** The page that is read is the page [p]. *)
Ltac same_page p fields :=
  cbv zeta;
  match goal with
  | |- context [@Ok _ PageCodecError.t ?page] =>
    lazymatch page with
    | p => fail
    | _ => replace page with p by (symmetry; read_fields fields; by destruct p)
    end
  end.

(** What an accepted page has been through. *)
Ltac accepted :=
  repeat match goal with
  | H : result_bind (refuse_if ?b) _ = Ok _ |- _ =>
      let E := fresh "E" in destruct b eqn:E; [done|]; cbn [refuse_if result_bind] in H
  end.

(** The laws of a page of fields at fixed offsets. *)
Ltac codec_bytes_ok typed len :=
  let p := fresh "p" in intros p Ht; unfold typed in Ht; destruct_and? Ht;
  split; [cbn; bytes_of_fields|cbn; unfold len; lia].
Ltac codec_decode_bytes typed decode fields :=
  let p := fresh "p" in let rest := fresh "rest" in let Hv := fresh "Hv" in let Hl := fresh "Hl" in
  intros p rest Ht Hv Hl; unfold typed in Ht; destruct_and? Ht; apply negb_false in Hv;
  unfold decode; rewrite Hl, Nat.ltb_irrefl; same_page p fields;
  repeat match goal with H : _ = false |- _ => rewrite H; clear H end; done.
Ltac codec_decode_ok typed decode :=
  let data := fresh "data" in let p := fresh "p" in let Hb := fresh "Hb" in let H := fresh "H" in
  intros data p Hb; unfold decode; destruct (_ <? _)%nat; [done|]; cbv zeta; intros H; accepted;
  injection H as <-; split; [unfold typed; cbn; auto 20 with ecu|];
  repeat match goal with E : _ = false |- _ => rewrite E; clear E end; done.

(** ** Pages of fields *)
Definition ae_typed (p : AePage.t) : Prop :=
  i16 (AePage.tpsdot_thresh_pct_s p) /\ i16 (AePage.mapdot_thresh_kpa_s p) /\ byte (AePage.percent_gain p)
  /\ u32 (AePage.decay_time_ms p) /\ u32 (AePage.lockout_ms p).
#[export, refine] Instance ae_codec : PageCodec AePage.t := {|
  codec_len := AE_PAGE_BYTES; codec_typed := ae_typed;
  codec_valid p := negb ((100 <? AePage.percent_gain p) || (AePage.decay_time_ms p =? 0));
  codec_bytes p := concat (map snd (ae_fields p)); codec_encode := encode_ae_page; codec_decode := decode_ae_page |}.
Proof.
  - codec_bytes_ok ae_typed AE_PAGE_BYTES.
  - intros p out. apply encode_at_short.
  - intros p out _. by apply encode_tiled.
  - codec_decode_bytes ae_typed decode_ae_page ae_fields.
  - codec_decode_ok ae_typed decode_ae_page.
Defined.

Definition dfco_typed (p : DfcoPage.t) : Prop :=
  byte (DfcoPage.tps_max_pct p) /\ u16 (DfcoPage.map_max_kpa p) /\ u16 (DfcoPage.rpm_min p) /\ u16 (DfcoPage.rpm_max p)
  /\ u32 (DfcoPage.delay_ms p) /\ u32 (DfcoPage.resume_hyst_ms p).
#[export, refine] Instance dfco_codec : PageCodec DfcoPage.t := {|
  codec_len := DFCO_PAGE_BYTES; codec_typed := dfco_typed;
  codec_valid p := negb ((100 <? DfcoPage.tps_max_pct p) || (DfcoPage.rpm_min p =? 0)
    || (DfcoPage.rpm_max p <? DfcoPage.rpm_min p));
  codec_bytes p := concat (map snd (dfco_fields p)); codec_encode := encode_dfco_page; codec_decode := decode_dfco_page |}.
Proof.
  - codec_bytes_ok dfco_typed DFCO_PAGE_BYTES.
  - intros p out. apply encode_at_short.
  - intros p out _. by apply encode_tiled.
  - codec_decode_bytes dfco_typed decode_dfco_page dfco_fields.
  - codec_decode_ok dfco_typed decode_dfco_page.
Defined.

Definition wue_typed (p : WuePage.t) : Prop :=
  byte (WuePage.max_percent p) /\ byte (WuePage.min_percent p) /\ i16 (WuePage.start_c p) /\ i16 (WuePage.end_c p).
#[export, refine] Instance wue_codec : PageCodec WuePage.t := {|
  codec_len := WUE_PAGE_BYTES; codec_typed := wue_typed;
  codec_valid p := negb ((100 <? WuePage.max_percent p) || (100 <? WuePage.min_percent p)
    || (WuePage.end_c p <=? WuePage.start_c p));
  codec_bytes p := concat (map snd (wue_fields p)); codec_encode := encode_wue_page; codec_decode := decode_wue_page |}.
Proof.
  - codec_bytes_ok wue_typed WUE_PAGE_BYTES.
  - intros p out. apply encode_at_short.
  - intros p out _. by apply encode_tiled.
  - codec_decode_bytes wue_typed decode_wue_page wue_fields.
  - codec_decode_ok wue_typed decode_wue_page.
Defined.

Definition ase_typed (p : AsePage.t) : Prop :=
  byte (AsePage.percent p) /\ u32 (AsePage.taper_time_ms p) /\ u16 (AsePage.lockout_ms p).
#[export, refine] Instance ase_codec : PageCodec AsePage.t := {|
  codec_len := ASE_PAGE_BYTES; codec_typed := ase_typed;
  codec_valid p := negb ((100 <? AsePage.percent p) || (AsePage.taper_time_ms p =? 0));
  codec_bytes p := concat (map snd (ase_fields p)); codec_encode := encode_ase_page; codec_decode := decode_ase_page |}.
Proof.
  - codec_bytes_ok ase_typed ASE_PAGE_BYTES.
  - intros p out. apply encode_at_short.
  - intros p out _. by apply encode_tiled.
  - codec_decode_bytes ase_typed decode_ase_page ase_fields.
  - codec_decode_ok ase_typed decode_ase_page.
Defined.

Definition idle_typed (p : IdlePage.t) : Prop := u16 (IdlePage.duty_x10 p) /\ u16 (IdlePage.freq_hz p).
#[export, refine] Instance idle_codec : PageCodec IdlePage.t := {|
  codec_len := IDLE_PAGE_BYTES; codec_typed := idle_typed;
  codec_valid p := negb ((IDLE_DUTY_MAX_X10 <? IdlePage.duty_x10 p) || (IdlePage.freq_hz p =? 0));
  codec_bytes p := concat (map snd (idle_fields p)); codec_encode := encode_idle_page; codec_decode := decode_idle_page |}.
Proof.
  - codec_bytes_ok idle_typed IDLE_PAGE_BYTES.
  - intros p out. apply encode_at_short.
  - intros p out _. by apply encode_tiled.
  - codec_decode_bytes idle_typed decode_idle_page idle_fields.
  - codec_decode_ok idle_typed decode_idle_page.
Defined.

Definition fan_typed (p : FanPage.t) : Prop := i16 (FanPage.on_c p) /\ i16 (FanPage.off_c p).
#[export, refine] Instance fan_codec : PageCodec FanPage.t := {|
  codec_len := FAN_PAGE_BYTES; codec_typed := fan_typed;
  codec_valid p := negb (FanPage.on_c p <=? FanPage.off_c p);
  codec_bytes p := concat (map snd (fan_fields p)); codec_encode := encode_fan_page; codec_decode := decode_fan_page |}.
Proof.
  - codec_bytes_ok fan_typed FAN_PAGE_BYTES.
  - intros p out. apply encode_at_short.
  - intros p out _. by apply encode_tiled.
  - codec_decode_bytes fan_typed decode_fan_page fan_fields.
  - codec_decode_ok fan_typed decode_fan_page.
Defined.

Definition cl_typed (p : ClosedLoopPage.t) : Prop :=
  u16 (ClosedLoopPage.target_afr_x10 p) /\ u16 (ClosedLoopPage.kp_i p) /\ u16 (ClosedLoopPage.ki_i p).
Definition afr_target_ok (v : Z) : bool := in_range AFR_TARGET_MIN_X10 AFR_TARGET_MAX_X10 v.
#[export, refine] Instance cl_codec : PageCodec ClosedLoopPage.t := {|
  codec_len := CLOSED_LOOP_PAGE_BYTES; codec_typed := cl_typed;
  codec_valid p := negb (negb (in_range AFR_TARGET_MIN_X10 AFR_TARGET_MAX_X10 (ClosedLoopPage.target_afr_x10 p)));
  codec_bytes p := concat (map snd (cl_fields p)); codec_encode := encode_closed_loop_page;
  codec_decode := decode_closed_loop_page |}.
Proof.
  - codec_bytes_ok cl_typed CLOSED_LOOP_PAGE_BYTES.
  - intros p out. apply encode_at_short.
  - intros p out _. by apply encode_tiled.
  - codec_decode_bytes cl_typed decode_closed_loop_page cl_fields.
  - codec_decode_ok cl_typed decode_closed_loop_page.
Defined.

(** The page of the fuel tune, for limits that are in order. *)
Definition ve_tune_typed (p : VeTunePage.t) : Prop :=
  u16 (VeTunePage.target_afr_x10 p) /\ u16 (VeTunePage.kp_i p) /\ u16 (VeTunePage.ki_i p)
  /\ u16 (VeTunePage.required_fuel_us p) /\ u16 (VeTunePage.injector_deadtime_us p) /\ byte (VeTunePage.ve_load_source p).
Definition ve_tune_valid (p : VeTunePage.t) : bool :=
  in_range AFR_TARGET_MIN_X10 AFR_TARGET_MAX_X10 (VeTunePage.target_afr_x10 p)
  && negb (VE_TUNE_LOAD_SOURCE_MAX <? VeTunePage.ve_load_source p).
#[refine] Instance ve_tune_codec (limits : VeTunePageLimits.t) (Hl : VeTunePageLimits.validate limits = Ok tt) :
    PageCodec VeTunePage.t := {|
  codec_len := VE_TUNE_PAGE_BYTES; codec_typed := ve_tune_typed; codec_valid := ve_tune_valid;
  codec_bytes p := concat (map snd (ve_tune_fields limits p));
  codec_encode p := encode_ve_tune_page p limits; codec_decode := decode_ve_tune_page |}.
Proof.
  - codec_bytes_ok ve_tune_typed VE_TUNE_PAGE_BYTES.
  - intros p out H. unfold encode_ve_tune_page. by destruct (Nat.ltb_spec (length out) VE_TUNE_PAGE_BYTES); [|lia].
  - intros p out _ H. unfold encode_ve_tune_page. destruct (Nat.ltb_spec (length out) VE_TUNE_PAGE_BYTES); [lia|].
    rewrite Hl. f_equal. exact (write_tiled (ve_tune_fields limits p) [] out ltac:(done)).
  - intros p rest (? & ? & ? & ? & ? & ?) Hv Hlen. apply andb_true_iff in Hv as [Ha Hs%negb_false].
    unfold decode_ve_tune_page. rewrite Hlen, Nat.ltb_irrefl. same_page p ve_tune_fields. by rewrite Ha, Hs.
  - intros data p Hb. unfold decode_ve_tune_page. destruct (_ <? _)%nat; [done|]. cbv zeta. intros H. accepted.
    injection H as <-. split; [unfold ve_tune_typed; cbn; auto 20 with ecu|].
    unfold ve_tune_valid. apply andb_true_iff. split; [by apply negb_false_iff|]. by rewrite E0.
Defined.

(** The triggers of an emergency as bits. *)
Lemma limits_trigger_read p :
  byte (limits_trigger p) /\ Z.land (limits_trigger p) (not8 LIMITS_TRIGGER_BITS_MASK) = 0
  /\ negb (Z.land (limits_trigger p) LIMITS_TRIGGER_MAP_BIT =? 0) = LimitsPage.emerg_trig_map p
  /\ negb (Z.land (limits_trigger p) LIMITS_TRIGGER_TPS_BIT =? 0) = LimitsPage.emerg_trig_tps p.
Proof. unfold limits_trigger, byte. destruct (LimitsPage.emerg_trig_map p), (LimitsPage.emerg_trig_tps p); cbn; split_and!; try done; lia. Qed.

Definition limits_typed (p : LimitsPage.t) : Prop :=
  u16 (LimitsPage.map_min_kpa_x10 p) /\ u16 (LimitsPage.map_max_kpa_x10 p) /\ byte (LimitsPage.tps_min_percent p)
  /\ byte (LimitsPage.tps_max_percent p) /\ u16 (LimitsPage.clear_time_s p).
Definition limits_valid (p : LimitsPage.t) : bool :=
  negb ((LimitsPage.map_min_kpa_x10 p =? 0) || (LimitsPage.map_max_kpa_x10 p <=? LimitsPage.map_min_kpa_x10 p))
  && negb ((100 <? LimitsPage.tps_max_percent p) || (LimitsPage.tps_max_percent p <=? LimitsPage.tps_min_percent p))
  && negb (LimitsPage.clear_time_s p =? 0).
#[export, refine] Instance limits_codec : PageCodec LimitsPage.t := {|
  codec_len := LIMITS_PAGE_BYTES; codec_typed := limits_typed; codec_valid := limits_valid;
  codec_bytes p := concat (map snd (limits_fields p)); codec_encode := encode_limits_page;
  codec_decode := decode_limits_page |}.
Proof.
  - intros p (? & ? & ? & ? & ?). destruct (limits_trigger_read p) as (? & _).
    split; [cbn [limits_fields map concat snd app]; bytes_of_fields|cbn; unfold LIMITS_PAGE_BYTES; lia].
  - intros p out. apply encode_at_short.
  - intros p out _. by apply encode_tiled.
  - intros p rest (? & ? & ? & ? & ?) Hv Hl. unfold limits_valid in Hv. rewrite !andb_true_iff in Hv.
    destruct Hv as [[E1%negb_false E2%negb_false] E3%negb_false]. destruct (limits_trigger_read p) as (_ & Ht0 & Ht1 & Ht2).
    unfold decode_limits_page. rewrite Hl, Nat.ltb_irrefl. cbv zeta.
    read_fields limits_fields. rewrite Ht0, Ht1, Ht2, E1, E2, E3. cbn [negb Z.eqb refuse_if result_bind]. by destruct p.
  - intros data p Hb. unfold decode_limits_page. destruct (_ <? _)%nat; [done|]. cbv zeta. intros H. accepted.
    injection H as <-. split; [unfold limits_typed; cbn; auto 20 with ecu|]. unfold limits_valid. cbn.
    by rewrite E, E0, E1.
Defined.

(** ** Pages of arrays *)
Section Arrays.
Context (read : list Z -> nat -> Z) (to_bytes : Z -> list Z) (width : nat) (ok : Z -> Prop).
Hypothesis read_back : forall v pre rest, ok v -> read (pre ++ to_bytes v ++ rest) (length pre) = v.
Hypothesis bytes_width : forall v, length (to_bytes v) = width.

Lemma concat_width vs : length (concat (map to_bytes vs)) = (length vs * width)%nat.
Proof. induction vs as [|v vs IH]; [done|]. cbn [map concat length]. rewrite length_app, bytes_width, IH. lia. Qed.

Lemma read_each_succ data idx n : read_each read width data idx (S n) = read data idx :: read_each read width data (idx + width) n.
Proof.
  unfold read_each. cbn [seq map]. f_equal; [f_equal; lia|]. rewrite <- seq_shift, map_map. apply map_ext. intros k. f_equal. lia.
Qed.

Lemma read_each_bytes vs pre rest : Forall ok vs ->
  read_each read width (pre ++ concat (map to_bytes vs) ++ rest) (length pre) (length vs) = vs.
Proof.
  intros H. revert pre. induction H as [|v vs Hv Hvs IH]; intros pre; [done|]. cbn [length map concat].
  rewrite read_each_succ, <- app_assoc, read_back by done. f_equal.
  pose proof (IH (pre ++ to_bytes v)) as E. by rewrite length_app, bytes_width, <- app_assoc in E.
Qed.
End Arrays.

Lemma read_each_length read width data idx n : length (read_each read width data idx n) = n.
Proof. unfold read_each. by rewrite length_map, length_seq. Qed.

Lemma read_each_range read (ok : Z -> Prop) width data idx n : (forall off, ok (read data off)) ->
  Forall ok (read_each read width data idx n).
Proof. intros H. unfold read_each. induction (seq 0 n) as [|k ks IH]; cbn [map]; [constructor|by constructor]. Qed.

Lemma rd_u16_back v pre rest : u16 v -> rd_u16 (pre ++ le16 v ++ rest) (length pre) = v.
Proof. intros H. by apply rd_u16_app. Qed.

Lemma rd_u32_back v pre rest : u32 v -> rd_u32 (pre ++ le32 v ++ rest) (length pre) = v.
Proof. intros H. by apply rd_u32_app. Qed.

Lemma rd_i16_back v (pre rest : list Z) : i16 v -> rd_i16 (pre ++ le16 v ++ rest) (length pre) = v.
Proof.
  intros H. unfold rd_i16, rd_u16. rewrite <- (Nat.add_0_r (length pre)) at 1. rewrite !get_byte_app_r by done.
  by apply signed_le16.
Qed.

Lemma concat_bytes {A} (to_bytes : A -> list Z) vs : (forall v, bytes (to_bytes v)) -> bytes (concat (map to_bytes vs)).
Proof. intros H. induction vs as [|v vs IH]; [constructor|]. apply Forall_app_2; [apply H|exact IH]. Qed.

Lemma le16_length v : length (le16 v) = 2%nat.
Proof. done. Qed.
Lemma le32_length v : length (le32 v) = 4%nat.
Proof. done. Qed.

(** *** Angles *)
Definition angles_bytes (p : AnglesPage.t) : list Z :=
  concat (map le16 (AnglesPage.inj_angles_x10 p)) ++ concat (map le16 (AnglesPage.tdc_angles_x10 p))
  ++ le16 (AnglesPage.tooth0_angle_x10 p) ++ le16 (AnglesPage.cam_timeout_ms p).
Definition angles_typed (p : AnglesPage.t) : Prop :=
  length (AnglesPage.inj_angles_x10 p) = 16%nat /\ length (AnglesPage.tdc_angles_x10 p) = 16%nat
  /\ Forall u16 (AnglesPage.inj_angles_x10 p) /\ Forall u16 (AnglesPage.tdc_angles_x10 p)
  /\ u16 (AnglesPage.tooth0_angle_x10 p) /\ u16 (AnglesPage.cam_timeout_ms p).
Definition angles_valid (p : AnglesPage.t) : bool :=
  forallb (fun a => negb (3600 <? a)) (AnglesPage.inj_angles_x10 p)
  && forallb (fun a => negb (7200 <? a)) (AnglesPage.tdc_angles_x10 p) && negb (3600 <? AnglesPage.tooth0_angle_x10 p).

Lemma read_angles_bytes limit vs pre rest : Forall u16 vs -> forallb (fun a => negb (limit <? a)) vs = true ->
  read_angles limit (pre ++ concat (map le16 vs) ++ rest) (length pre) (length vs) = Ok vs.
Proof.
  intros H. revert pre. induction H as [|v vs Hv Hvs IH]; intros pre; [done|].
  cbn [length map concat read_angles forallb]. intros [E%negb_false Hall]%andb_true_iff.
  rewrite <- app_assoc, rd_u16_back, E by done. cbn [refuse_if result_bind].
  pose proof (IH (pre ++ le16 v) Hall) as IHv. rewrite length_app, <- app_assoc in IHv. cbn [length le16] in IHv.
  by rewrite IHv.
Qed.

Lemma read_angles_ok limit data idx n vs : bytes data -> read_angles limit data idx n = Ok vs ->
  length vs = n /\ Forall u16 vs /\ forallb (fun a => negb (limit <? a)) vs = true.
Proof.
  intros Hb. revert idx vs. induction n as [|n IH]; intros idx vs; cbn [read_angles]; [by intros [= <-]|].
  destruct (limit <? rd_u16 data idx) eqn:E; [done|]. cbn [refuse_if result_bind].
  destruct (read_angles limit data (idx + 2) n) as [r|] eqn:Hr; [|done]. intros [= <-].
  apply IH in Hr as (? & ? & ?). cbn [length forallb]. rewrite E. split_and!; [lia|constructor; [by apply rd_u16_range|done]|done].
Qed.

Lemma encode_angles_ok p out : (ANGLES_PAGE_BYTES <= length out)%nat ->
  encode_angles_page p out = (angles_bytes p ++ drop (length (angles_bytes p)) out, Ok ANGLES_PAGE_BYTES).
Proof.
  intros Hl. unfold encode_angles_page. destruct (Nat.ltb_spec (length out) ANGLES_PAGE_BYTES); [lia|]. cbv zeta.
  rewrite put_start, !put_each_app, !put_app. cbn [app fst]. unfold angles_bytes. by rewrite <- !app_assoc.
Qed.

Lemma angles_bytes_length p : angles_typed p -> length (angles_bytes p) = ANGLES_PAGE_BYTES.
Proof.
  intros (H1 & H2 & _). unfold angles_bytes. rewrite !length_app, !(concat_width le16 2 le16_length), H1, H2. done.
Qed.

#[export, refine] Instance angles_codec : PageCodec AnglesPage.t := {|
  codec_len := ANGLES_PAGE_BYTES; codec_typed := angles_typed; codec_valid := angles_valid;
  codec_bytes := angles_bytes; codec_encode := encode_angles_page; codec_decode := decode_angles_page |}.
Proof.
  - intros p Ht. rewrite angles_bytes_length by done. split; [|lia]. unfold angles_bytes.
    repeat apply Forall_app_2; auto using concat_bytes with ecu.
  - intros p out H. unfold encode_angles_page. by destruct (Nat.ltb_spec (length out) ANGLES_PAGE_BYTES); [|lia].
  - intros p out _. apply encode_angles_ok.
  - intros p rest (H1 & H2 & H3 & H4 & H5 & H6) Hv Hl. unfold angles_valid in Hv. rewrite !andb_true_iff in Hv.
    destruct Hv as [[E1 E2] E3%negb_false]. unfold decode_angles_page. rewrite Hl, Nat.ltb_irrefl. unfold angles_bytes.
    set (inj := concat (map le16 (AnglesPage.inj_angles_x10 p))). set (tdc := concat (map le16 (AnglesPage.tdc_angles_x10 p))).
    set (tail := le16 (AnglesPage.tooth0_angle_x10 p) ++ le16 (AnglesPage.cam_timeout_ms p)).
    assert (length inj = 32%nat) as Hi by (subst inj; by rewrite (concat_width le16 2 le16_length), H1).
    assert (length tdc = 32%nat) as Hd by (subst tdc; by rewrite (concat_width le16 2 le16_length), H2).
    pose proof (read_angles_bytes 3600 _ [] (tdc ++ tail ++ rest) H3 E1) as R1.
    pose proof (read_angles_bytes 7200 _ inj (tail ++ rest) H4 E2) as R2.
    rewrite H1 in R1. rewrite H2, Hi in R2. fold inj in R1. fold tdc in R2. cbn [app length] in R1.
    assert ((inj ++ tdc ++ tail) ++ rest = inj ++ tdc ++ tail ++ rest) as -> by (by rewrite <- !app_assoc).
    rewrite R1. cbn [result_bind]. rewrite R2. cbn [result_bind]. cbv zeta.
    pose proof (rd_u16_back (AnglesPage.tooth0_angle_x10 p) (inj ++ tdc) (le16 (AnglesPage.cam_timeout_ms p) ++ rest) H5) as R3.
    pose proof (rd_u16_back (AnglesPage.cam_timeout_ms p) (inj ++ tdc ++ le16 (AnglesPage.tooth0_angle_x10 p)) rest H6) as R4.
    rewrite !length_app, Hi, Hd, <- !app_assoc in R3. rewrite !length_app, Hi, Hd, <- !app_assoc in R4.
    cbn [length le16 Nat.add] in R3, R4.
    subst tail. rewrite <- !app_assoc, R3, R4, E3. cbn [refuse_if result_bind]. by destruct p.
  - intros data p Hb. unfold decode_angles_page. destruct (_ <? _)%nat; [done|]. cbv zeta.
    destruct (read_angles 3600 _ _ _) as [inj|] eqn:R1; [|done]. destruct (read_angles 7200 _ _ _) as [tdc|] eqn:R2; [|done].
    cbn [result_bind]. intros H. accepted. injection H as <-.
    apply read_angles_ok in R1 as (? & ? & E1), R2 as (? & ? & E2); [|done..].
    unfold angles_typed, angles_valid. cbn. rewrite E1, E2, E. auto 10 with ecu.
Defined.

(** *** Sensors *)
Definition sensors_bytes (p : SensorsPage.t) : list Z :=
  le16 (SensorsPage.tps_min_counts p) ++ le16 (SensorsPage.tps_max_counts p) ++ le16 (SensorsPage.map_v0_mv p)
  ++ le16 (SensorsPage.map_kpa0_x10 p) ++ le16 (SensorsPage.map_v1_mv p) ++ le16 (SensorsPage.map_kpa1_x10 p)
  ++ concat (map le16 (SensorsPage.clt_deg_c p)) ++ concat (map le16 (SensorsPage.iat_deg_c p))
  ++ concat (map le32 (SensorsPage.clt_ohms p)) ++ concat (map le32 (SensorsPage.iat_ohms p)).
Definition sensors_typed (p : SensorsPage.t) : Prop :=
  (u16 (SensorsPage.tps_min_counts p) /\ u16 (SensorsPage.tps_max_counts p) /\ u16 (SensorsPage.map_v0_mv p)
   /\ u16 (SensorsPage.map_kpa0_x10 p) /\ u16 (SensorsPage.map_v1_mv p) /\ u16 (SensorsPage.map_kpa1_x10 p))
  /\ (length (SensorsPage.clt_deg_c p) = 8%nat /\ length (SensorsPage.iat_deg_c p) = 8%nat
      /\ length (SensorsPage.clt_ohms p) = 8%nat /\ length (SensorsPage.iat_ohms p) = 8%nat)
  /\ Forall i16 (SensorsPage.clt_deg_c p) /\ Forall i16 (SensorsPage.iat_deg_c p)
  /\ Forall u32 (SensorsPage.clt_ohms p) /\ Forall u32 (SensorsPage.iat_ohms p).
Definition sensors_valid (p : SensorsPage.t) : bool :=
  negb (SensorsPage.tps_max_counts p <=? SensorsPage.tps_min_counts p)
  && negb ((SensorsPage.map_v1_mv p <=? SensorsPage.map_v0_mv p) || (SensorsPage.map_kpa1_x10 p <=? SensorsPage.map_kpa0_x10 p)
           || (SENSOR_ADC_INPUT_MAX_MV <? SensorsPage.map_v1_mv p)).

Lemma sensors_bytes_length p : sensors_typed p -> length (sensors_bytes p) = 108%nat.
Proof.
  intros (_ & (H1 & H2 & H3 & H4) & _). unfold sensors_bytes.
  by rewrite !length_app, !(concat_width le16 2 le16_length), !(concat_width le32 4 le32_length), H1, H2, H3, H4.
Qed.

Lemma encode_sensors_ok p out : (SENSORS_PAGE_BYTES <= length out)%nat ->
  encode_sensors_page p out = (sensors_bytes p ++ drop (length (sensors_bytes p)) out, Ok SENSORS_PAGE_BYTES).
Proof.
  intros Hl. unfold encode_sensors_page. destruct (Nat.ltb_spec (length out) SENSORS_PAGE_BYTES); [lia|]. cbv zeta.
  rewrite put_start. do 6 rewrite put_app. rewrite !put_each_app. cbn [fst]. unfold sensors_bytes. by rewrite <- !app_assoc.
Qed.

Lemma read_sensors p rest : sensors_typed p ->
  let data := sensors_bytes p ++ rest in
  (rd_u16 data 0 = SensorsPage.tps_min_counts p /\ rd_u16 data 2 = SensorsPage.tps_max_counts p
   /\ rd_u16 data 4 = SensorsPage.map_v0_mv p /\ rd_u16 data 6 = SensorsPage.map_kpa0_x10 p
   /\ rd_u16 data 8 = SensorsPage.map_v1_mv p /\ rd_u16 data 10 = SensorsPage.map_kpa1_x10 p)
  /\ read_each rd_i16 2 data 12 8 = SensorsPage.clt_deg_c p /\ read_each rd_i16 2 data 28 8 = SensorsPage.iat_deg_c p
  /\ read_each rd_u32 4 data 44 8 = SensorsPage.clt_ohms p /\ read_each rd_u32 4 data 76 8 = SensorsPage.iat_ohms p.
Proof.
  intros (Hw & (L1 & L2 & L3 & L4) & F1 & F2 & F3 & F4). cbv zeta. unfold sensors_bytes.
  set (a1 := concat (map le16 (SensorsPage.clt_deg_c p))). set (a2 := concat (map le16 (SensorsPage.iat_deg_c p))).
  set (a3 := concat (map le32 (SensorsPage.clt_ohms p))). set (a4 := concat (map le32 (SensorsPage.iat_ohms p))).
  split.
  { clearbody a1 a2 a3 a4. destruct_and? Hw. unfold rd_u16. cbn [get_byte nth app le16 Nat.add].
    by rewrite !le16_value by done. }
  set (head := le16 (SensorsPage.tps_min_counts p) ++ le16 (SensorsPage.tps_max_counts p) ++ le16 (SensorsPage.map_v0_mv p)
    ++ le16 (SensorsPage.map_kpa0_x10 p) ++ le16 (SensorsPage.map_v1_mv p) ++ le16 (SensorsPage.map_kpa1_x10 p)).
  assert (length head = 12%nat) as Hh by done.
  pose proof (read_each_bytes _ _ 2 i16 rd_i16_back le16_length _ head (a2 ++ a3 ++ a4 ++ rest) F1) as R1.
  pose proof (read_each_bytes _ _ 2 i16 rd_i16_back le16_length _ (head ++ a1) (a3 ++ a4 ++ rest) F2) as R2.
  pose proof (read_each_bytes _ _ 4 u32 rd_u32_back le32_length _ (head ++ a1 ++ a2) (a4 ++ rest) F3) as R3.
  pose proof (read_each_bytes _ _ 4 u32 rd_u32_back le32_length _ (head ++ a1 ++ a2 ++ a3) rest F4) as R4.
  assert (length a1 = 16%nat /\ length a2 = 16%nat /\ length a3 = 32%nat) as (E1 & E2 & E3).
  { subst a1 a2 a3. by rewrite !(concat_width le16 2 le16_length), !(concat_width le32 4 le32_length), L1, L2, L3. }
  rewrite ?length_app, ?Hh, ?E1, ?E2, ?E3, <- ?app_assoc, L1 in R1. rewrite ?length_app, ?Hh, ?E1, ?E2, ?E3, <- ?app_assoc, L2 in R2.
  rewrite ?length_app, ?Hh, ?E1, ?E2, ?E3, <- ?app_assoc, L3 in R3. rewrite ?length_app, ?Hh, ?E1, ?E2, ?E3, <- ?app_assoc, L4 in R4.
  assert (forall l, (le16 (SensorsPage.tps_min_counts p) ++ le16 (SensorsPage.tps_max_counts p) ++ le16 (SensorsPage.map_v0_mv p)
    ++ le16 (SensorsPage.map_kpa0_x10 p) ++ le16 (SensorsPage.map_v1_mv p) ++ le16 (SensorsPage.map_kpa1_x10 p) ++ l) = head ++ l) as Eh by done.
  rewrite Eh, <- !app_assoc. exact (conj R1 (conj R2 (conj R3 R4))).
Qed.

#[local] Arguments read_each : simpl never.
#[export, refine] Instance sensors_codec : PageCodec SensorsPage.t := {|
  codec_len := SENSORS_PAGE_BYTES; codec_typed := sensors_typed; codec_valid := sensors_valid;
  codec_bytes := sensors_bytes; codec_encode := encode_sensors_page; codec_decode := decode_sensors_page |}.
Proof.
  - intros p Ht. rewrite sensors_bytes_length by done. split; [|unfold SENSORS_PAGE_BYTES; lia]. unfold sensors_bytes.
    repeat apply Forall_app_2; auto using concat_bytes with ecu.
  - intros p out H. unfold encode_sensors_page. by destruct (Nat.ltb_spec (length out) SENSORS_PAGE_BYTES); [|lia].
  - intros p out _. apply encode_sensors_ok.
  - intros p rest Ht Hv Hl. destruct (read_sensors p rest Ht) as ((E1 & E2 & E3 & E4 & E5 & E6) & R1 & R2 & R3 & R4).
    unfold sensors_valid in Hv. apply andb_true_iff in Hv as [V1%negb_false V2%negb_false].
    unfold decode_sensors_page. rewrite Hl, Nat.ltb_irrefl. cbv zeta.
    rewrite E1, E2, E3, E4, E5, E6, R1, R2, R3, R4, V1, V2. by destruct p.
  - intros data p Hb. unfold decode_sensors_page. destruct (_ <? _)%nat; [done|]. cbv zeta. intros H. accepted.
    injection H as <-. unfold sensors_typed, sensors_valid. cbn. rewrite !read_each_length, E, E0.
    split_and!; auto using read_each_range with ecu.
Defined.

(** ** Tables *)
Definition row_bytes (row : list Z) : list Z := concat (map le16 row).
Definition table_bytes (cells : table) : list Z := concat (map row_bytes cells).
(** Sixteen rows of sixteen cells. *)
Definition square (cells : table) : Prop :=
  length cells = TABLE_AXIS_LEN /\ Forall (fun row => length row = TABLE_AXIS_LEN) cells.
Definition same_shape (a b : table) : Prop := Forall2 (fun r r' : list Z => length r = length r') a b.

Lemma row_bytes_length row : length (row_bytes row) = (length row * 2)%nat.
Proof. exact (concat_width le16 2 le16_length row). Qed.

Lemma row_bytes_bytes row : bytes (row_bytes row).
Proof. apply concat_bytes. auto with ecu. Qed.

Lemma table_bytes_bytes cells : bytes (table_bytes cells).
Proof. apply concat_bytes, row_bytes_bytes. Qed.

Lemma table_bytes_length cells : square cells -> length (table_bytes cells) = TABLE_PAGE_BYTES.
Proof.
  intros [Hn Hr]. change TABLE_PAGE_BYTES with (TABLE_AXIS_LEN * (TABLE_AXIS_LEN * 2))%nat. rewrite <- Hn at 1. clear Hn.
  induction Hr as [|row cells Hrow Hr IH]; [done|]. unfold table_bytes in *. cbn [map concat length].
  rewrite length_app, row_bytes_length, Hrow, IH. lia.
Qed.

Lemma put_rows cells pre out :
  fold_left (fun s row => put_each le16 row s) cells (pre ++ drop (length pre) out, length pre)
  = ((pre ++ table_bytes cells) ++ drop (length (pre ++ table_bytes cells)) out, length (pre ++ table_bytes cells)).
Proof.
  revert pre. induction cells as [|row cells IH]; intros pre; [by rewrite app_nil_r|]. cbn [fold_left].
  rewrite put_each_app. fold (row_bytes row). rewrite IH. unfold table_bytes. cbn [map concat]. by rewrite !app_assoc.
Qed.

Lemma encode_table_ok cells out : (TABLE_PAGE_BYTES <= length out)%nat ->
  encode_table cells out = (table_bytes cells ++ drop (length (table_bytes cells)) out, Ok TABLE_PAGE_BYTES).
Proof.
  intros Hl. unfold encode_table. destruct (Nat.ltb_spec (length out) TABLE_PAGE_BYTES); [lia|].
  by rewrite put_start, put_rows.
Qed.

Section Cells.
Context (read : list Z -> nat -> Z) (ok : Z -> Prop).
Hypothesis read_back : forall v pre rest, ok v -> read (pre ++ le16 v ++ rest) (length pre) = v.
Hypothesis read_bytes : forall data off, bytes data -> le16 (read data off) = [get_byte off data; get_byte (off + 1) data].
Hypothesis read_ok : forall data off, bytes data -> ok (read data off).

Lemma decode_row_back vs pre rest shape : Forall ok vs -> length shape = length vs ->
  decode_row read (pre ++ row_bytes vs ++ rest) (length pre) shape = (vs, length (pre ++ row_bytes vs)).
Proof.
  intros H. revert pre shape. induction H as [|v vs Hv Hvs IH]; intros pre [|c shape]; [by rewrite app_nil_r|done..|].
  intros [= Hs]. cbn [decode_row]. unfold row_bytes. cbn [map concat]. fold (row_bytes vs).
  rewrite <- app_assoc, read_back by done. pose proof (IH (pre ++ le16 v) shape Hs) as E.
  rewrite length_app, <- app_assoc in E. cbn [length le16] in E. rewrite E. by rewrite <- app_assoc.
Qed.

Lemma decode_rows_back vs pre rest shape : Forall (Forall ok) vs -> same_shape shape vs ->
  decode_rows read (pre ++ table_bytes vs ++ rest) (length pre) shape = (vs, length (pre ++ table_bytes vs)).
Proof.
  intros H. revert pre shape. induction H as [|v vs Hv Hvs IH]; intros pre shape Hs; inversion Hs; subst;
    [by rewrite app_nil_r|]. cbn [decode_rows]. unfold table_bytes. cbn [map concat]. fold (table_bytes vs).
  rewrite <- app_assoc, decode_row_back by done. pose proof (IH (pre ++ row_bytes v) l) as E.
  rewrite <- app_assoc in E. rewrite E by done. by rewrite <- app_assoc.
Qed.

Lemma decode_row_bytes data idx shape : bytes data ->
  let '(row, last) := decode_row read data idx shape in
  last = (idx + length shape * 2)%nat /\ length row = length shape /\ Forall ok row
  /\ row_bytes row = map (fun i => get_byte i data) (seq idx (length shape * 2)).
Proof.
  intros Hb. revert idx. induction shape as [|c shape IH]; intros idx; [cbn; split_and!; [lia|done..|]; done|].
  cbn [decode_row]. specialize (IH (idx + 2)%nat). destruct (decode_row _ _ _ _) as [row last].
  destruct IH as (-> & Hl & Ho & Hr). cbn [length]. split_and!; [lia|lia|constructor; auto|].
  unfold row_bytes in *. cbn [map concat]. rewrite Hr, read_bytes by done.
  replace (S (length shape) * 2)%nat with (S (S (length shape * 2))) by lia. cbn [seq map app].
  by rewrite <- (Nat.add_1_r idx), <- (Nat.add_1_r (idx + 1)), <- Nat.add_assoc.
Qed.

Lemma decode_rows_bytes data idx shape : bytes data ->
  let '(rows, last) := decode_rows read data idx shape in
  last = (idx + length (table_bytes shape))%nat /\ same_shape shape rows /\ Forall (Forall ok) rows
  /\ table_bytes rows = map (fun i => get_byte i data) (seq idx (length (table_bytes shape))).
Proof.
  intros Hb. revert idx. induction shape as [|r shape IH]; intros idx; [cbn; split_and!; [lia|constructor|constructor|done]|].
  cbn [decode_rows]. pose proof (decode_row_bytes data idx r Hb) as Hr. destruct (decode_row _ _ _ _) as [row mid].
  destruct Hr as (-> & Hl & Ho & Hr). specialize (IH (idx + length r * 2)%nat). destruct (decode_rows _ _ _ _) as [rows last].
  destruct IH as (-> & Hs & Hos & Hrs). unfold table_bytes in *. cbn [map concat].
  rewrite !length_app, !row_bytes_length, Hr, Hrs. split_and!; [lia|by constructor|by constructor|].
  by rewrite <- map_app, <- seq_app.
Qed.

Lemma same_shape_square shape cells : square shape -> same_shape shape cells -> square cells.
Proof.
  intros [Hn Hf] Hs. split; [by rewrite <- (Forall2_length _ _ _ Hs)|]. clear Hn.
  induction Hs; [constructor|]. inversion Hf; subst. constructor; [congruence|auto].
Qed.

Lemma square_same_shape a b : square a -> square b -> same_shape a b.
Proof.
  intros [Ha Fa] [Hb Fb]. apply Forall2_same_length_lookup_2; [congruence|]. intros i x y Hx Hy.
  rewrite Forall_lookup in Fa, Fb. by rewrite (Fa _ _ Hx), (Fb _ _ Hy).
Qed.

(** What is decoded from a page into a table is a table whose bytes are the page. *)
Lemma decode_table_into_ok data cells cells' : bytes data -> square cells ->
  decode_table_into read data cells = (cells', Ok tt) ->
  square cells' /\ Forall (Forall ok) cells' /\ table_bytes cells' = data.
Proof.
  intros Hb Hs. unfold decode_table_into. destruct (Nat.eqb_spec (length data) TABLE_PAGE_BYTES) as [Hl|]; [|done].
  cbn [negb]. pose proof (decode_rows_bytes data 0 cells Hb) as H. destruct (decode_rows _ _ _ _) as [rows last].
  destruct H as (_ & Hsh & Ho & Hr). cbn [fst]. intros [= ->]. split; [by eapply same_shape_square|]. split; [done|].
  rewrite Hr, table_bytes_length by done. rewrite <- take_get_bytes by lia. by apply take_ge; lia.
Qed.

Lemma decode_table_into_back cells shape : Forall (Forall ok) cells -> square cells -> square shape ->
  decode_table_into read (table_bytes cells) shape = (cells, Ok tt).
Proof.
  intros Ho Hc Hs. unfold decode_table_into. rewrite table_bytes_length, Nat.eqb_refl by done. cbn [negb].
  pose proof (decode_rows_back cells [] [] shape Ho (square_same_shape _ _ Hs Hc)) as E.
  cbn [app length] in E. rewrite app_nil_r in E. by rewrite E.
Qed.
End Cells.

Lemma rd_u16_bytes data off : bytes data -> le16 (rd_u16 data off) = [get_byte off data; get_byte (off + 1) data].
Proof. intros H. by destruct (le16_rd data off H) as (_ & ? & _). Qed.

Lemma rd_i16_bytes data off : bytes data -> le16 (rd_i16 data off) = [get_byte off data; get_byte (off + 1) data].
Proof. intros H. by destruct (le16_rd data off H) as (_ & _ & _ & ?). Qed.

(** *** The checked table *)
Definition targets_ok (row : list Z) : bool := forallb (in_range AFR_TARGET_MIN_X10 AFR_TARGET_MAX_X10) row.

Lemma decode_afr_row_spec data idx row :
  let '(new, last) := decode_row rd_u16 data idx row in
  match decode_afr_row data idx row with
  | (row', Ok n) => row' = new /\ n = last /\ targets_ok new = true
  | (row', Err e) => e = PageCodecError.Invalid
      /\ exists k v, new !! k = Some v /\ in_range AFR_TARGET_MIN_X10 AFR_TARGET_MAX_X10 v = false
         /\ row' = take k new ++ drop k row /\ targets_ok (take k new) = true
  end.
Proof.
  revert idx. induction row as [|c row IH]; intros idx; [done|]. cbn [decode_row decode_afr_row].
  specialize (IH (idx + 2)%nat). destruct (decode_row rd_u16 data (idx + 2) row) as [new last].
  destruct (in_range _ _ (rd_u16 data idx)) eqn:E; cbn [negb].
  - destruct (decode_afr_row data (idx + 2) row) as [row' [n|e]]; unfold targets_ok in *; cbn [forallb].
    + destruct IH as (-> & -> & H). by rewrite E.
    + destruct IH as (-> & k & v & Hk & Hv & -> & Hok). split; [done|].
      exists (S k), v. cbn [take drop app forallb]. rewrite E. by split_and!.
  - split; [done|]. exists 0%nat, (rd_u16 data idx). by split_and!.
Qed.

Lemma decode_row_length read data idx row : length (decode_row read data idx row).1 = length row.
Proof.
  revert idx. induction row as [|c row IH]; intros idx; [done|]. cbn [decode_row].
  specialize (IH (idx + 2)%nat). destruct (decode_row _ _ _ _). cbn in *. congruence.
Qed.

(** On success the table is that of the unchecked decoder; on failure it is that table up to
    the first target out of range and the old one from there on. *)
Lemma decode_afr_rows_spec data idx rows :
  let '(new, last) := decode_rows rd_u16 data idx rows in
  match decode_afr_rows data idx rows with
  | (rows', Ok n) => rows' = new /\ n = last /\ forallb targets_ok new = true
  | (rows', Err e) => e = PageCodecError.Invalid /\ same_shape rows rows'
      /\ exists k v, concat new !! k = Some v /\ in_range AFR_TARGET_MIN_X10 AFR_TARGET_MAX_X10 v = false
         /\ concat rows' = take k (concat new) ++ drop k (concat rows) /\ targets_ok (take k (concat new)) = true
  end.
Proof.
  revert idx. induction rows as [|row rows IH]; intros idx; [done|]. cbn [decode_rows decode_afr_rows].
  pose proof (decode_afr_row_spec data idx row) as Hr. pose proof (decode_row_length rd_u16 data idx row) as Hlen.
  destruct (decode_row rd_u16 data idx row) as [new mid]. cbn [fst] in Hlen.
  specialize (IH mid). destruct (decode_rows rd_u16 data mid rows) as [news last].
  destruct (decode_afr_row data idx row) as [row' [n|e]].
  - destruct Hr as (-> & -> & Hok). destruct (decode_afr_rows data mid rows) as [rows' [n'|e]]; cbn [forallb].
    + destruct IH as (-> & -> & ->). by rewrite Hok.
    + destruct IH as (-> & Hs & k & v & Hk & Hv & Hc & Ht). split; [done|]. split; [by constructor|].
      exists (length row + k)%nat, v. cbn [concat]. rewrite Hc. split; [|split; [done|split]].
      * rewrite <- Hlen, lookup_app_r, Nat.add_comm, Nat.add_sub by lia. done.
      * rewrite drop_app_add. rewrite <- Hlen, take_app_add. by rewrite <- app_assoc.
      * rewrite <- Hlen, take_app_add. unfold targets_ok in *. by rewrite forallb_app, Hok, Ht.
  - destruct Hr as (-> & k & v & Hk & Hv & -> & Ht). pose proof (lookup_lt_Some _ _ _ Hk) as Hlt. split; [done|]. split.
    + constructor; [rewrite length_app, length_take, length_drop; lia|]. clear. unfold same_shape. induction rows; by constructor.
    + exists k, v. cbn [concat]. rewrite lookup_app_l, take_app_le, drop_app_le by lia.
      split_and!; [done|done|by rewrite <- app_assoc|done].
Qed.

Lemma decode_row_read read data idx row : (decode_row read data idx row).1 = read_each read 2 data idx (length row)
  /\ (decode_row read data idx row).2 = (idx + length row * 2)%nat.
Proof.
  revert idx. induction row as [|c row IH]; intros idx; [cbn; split; [done|lia]|]. cbn [decode_row length].
  rewrite (read_each_succ read 2). specialize (IH (idx + 2)%nat). destruct (decode_row _ _ _ _) as [r l]. cbn [fst snd] in *.
  destruct IH as [-> ->]. split; [done|lia].
Qed.

Lemma read_each_app read width data idx n m :
  read_each read width data idx (n + m) = read_each read width data idx n ++ read_each read width data (idx + n * width) m.
Proof.
  revert idx. induction n as [|n IH]; intros idx; [cbn [Nat.add Nat.mul app]; by rewrite Nat.add_0_r|].
  cbn [Nat.add]. rewrite !(read_each_succ read width), IH. cbn [app]. do 3 f_equal. lia.
Qed.

(** The cells read are the words of the page, one after another. *)
Lemma decode_rows_read read data idx rows :
  concat (decode_rows read data idx rows).1 = read_each read 2 data idx (length (concat rows)).
Proof.
  revert idx. induction rows as [|row rows IH]; intros idx; [done|]. cbn [decode_rows concat].
  pose proof (decode_row_read read data idx row) as [Hr Hl]. destruct (decode_row _ _ _ _) as [r mid]. cbn [fst snd] in *. subst.
  specialize (IH (idx + length row * 2)%nat). destruct (decode_rows _ _ _ _) as [rs last]. cbn [fst concat] in *. rewrite IH, length_app.
  by rewrite read_each_app.
Qed.

(** ** Diagnostics *)
Lemma write_fields_length fields out :
  Forall (fun '(off, src) => (off + length src <= length out)%nat) fields -> length (write_fields fields out) = length out.
Proof.
  revert out. induction fields as [|[off src] fields IH]; intros out H; [done|].
  inversion H as [|? ? H1 H2]; subst. cbn [write_fields fold_left]. change (fold_left _ fields ?x) with (write_fields fields x).
  rewrite IH; rewrite copy_at_length by done; done.
Qed.

Lemma encode_diag_ok p out : (DIAG_PAGE_BYTES <= length out)%nat ->
  exists image, encode_diag_page p out = (image, Ok DIAG_PAGE_BYTES) /\ length image = length out.
Proof.
  intros Hl. unfold encode_diag_page, encode_at. destruct (Nat.ltb_spec (length out) DIAG_PAGE_BYTES); [lia|].
  eexists. split; [reflexivity|]. apply write_fields_length. unfold DIAG_PAGE_BYTES in *.
  repeat (constructor; [cbn; lia|]). constructor.
Qed.

Lemma encode_snapshot_ok p out : (SNAPSHOT_PAGE_BYTES <= length out)%nat ->
  exists image, encode_snapshot_page p out = (image, Ok SNAPSHOT_PAGE_BYTES) /\ length image = length out.
Proof.
  intros Hl. unfold encode_snapshot_page, encode_at. destruct (Nat.ltb_spec (length out) SNAPSHOT_PAGE_BYTES); [lia|].
  eexists. split; [reflexivity|]. apply write_fields_length. unfold SNAPSHOT_PAGE_BYTES in *.
  repeat (constructor; [cbn; lia|]). constructor.
Qed.

Lemma encode_diag_log_ok entries out : length entries = DIAG_LOG_ENTRY_COUNT -> (DIAG_LOG_PAGE_BYTES <= length out)%nat ->
  exists image, encode_diag_log_page entries out = (image, Ok DIAG_LOG_PAGE_BYTES) /\ length image = length out.
Proof.
  intros Hn Hl. unfold encode_diag_log_page. destruct (Nat.ltb_spec (length out) DIAG_LOG_PAGE_BYTES) as [|_]; [lia|].
  eexists. split; [reflexivity|]. rewrite Hn.
  assert (Forall (fun '(idx, _) => idx < DIAG_LOG_ENTRY_COUNT)%nat (zip (seq 0 DIAG_LOG_ENTRY_COUNT) entries)) as Hz.
  { apply Forall_forall. intros [i e] Hi%elem_of_zip_l. apply elem_of_seq in Hi. lia. }
  revert out Hl. induction Hz as [|[i e] l Hi Hz IH]; intros out Hl; [done|]. cbn [fold_left].
  assert (length (write_fields (diag_log_entry_fields (i * DIAG_LOG_ENTRY_BYTES) e) out) = length out) as E.
  { apply write_fields_length. unfold DIAG_LOG_PAGE_BYTES, DIAG_LOG_ENTRY_BYTES, DIAG_LOG_ENTRY_COUNT in *.
    repeat (constructor; [cbn [length le32]; lia|]). constructor. }
  rewrite IH; [done|by rewrite E].
Qed.

(** ** The expert trigger page *)
Definition expert_page_bytes (p : ExpertTriggerPage.t) : list Z :=
  let '(ExpertTriggerPage.mk schema unlock auth id hash pattern teeth missing speed angle mult edge1 edge2 mode pol
         filt resync skip ign inj fixed_mode fixed) := p in
  le16 schema ++ [unlock; auth] ++ le32 id ++ le32 hash ++ [pattern; teeth; missing; speed]
  ++ le16 angle ++ [mult; edge1; edge2; mode; pol; filt; Z.b2z resync; skip; ign; inj; fixed_mode; 0]
  ++ le16 fixed ++ replicate 16 0.

Definition expert_page_typed (p : ExpertTriggerPage.t) : Prop :=
  (u16 (ExpertTriggerPage.schema_version p) /\ u32 (ExpertTriggerPage.profile_identity p)
   /\ u32 (ExpertTriggerPage.profile_hash p) /\ u16 (ExpertTriggerPage.trigger_angle_atdc_deg10 p)
   /\ i16 (ExpertTriggerPage.fixed_timing_deg10 p))
  /\ (byte (ExpertTriggerPage.expert_unlock p) /\ byte (ExpertTriggerPage.authority p) /\ byte (ExpertTriggerPage.trigger_pattern p)
      /\ byte (ExpertTriggerPage.primary_base_teeth p) /\ byte (ExpertTriggerPage.missing_teeth p)
      /\ byte (ExpertTriggerPage.primary_trigger_speed p) /\ byte (ExpertTriggerPage.trigger_angle_multiplier p)
      /\ byte (ExpertTriggerPage.primary_trigger_edge p) /\ byte (ExpertTriggerPage.secondary_trigger_edge p))
  /\ byte (ExpertTriggerPage.secondary_trigger_mode p) /\ byte (ExpertTriggerPage.poll_level_polarity p)
  /\ byte (ExpertTriggerPage.trigger_filter p) /\ byte (ExpertTriggerPage.skip_cycles p)
  /\ byte (ExpertTriggerPage.ignition_mode p) /\ byte (ExpertTriggerPage.injection_layout p)
  /\ byte (ExpertTriggerPage.fixed_timing_mode p).

Lemma expert_page_bytes_length p : length (expert_page_bytes p) = EXPERT_TRIGGER_PAGE_BYTES.
Proof. by destruct p. Qed.

Lemma expert_page_bytes_ok p : expert_page_typed p -> bytes (expert_page_bytes p).
Proof.
  intros (Hw & Hb & Hc). destruct_and? Hw. destruct_and? Hb. destruct_and? Hc. destruct p.
  unfold expert_page_bytes. cbn [ExpertTriggerPage.expert_unlock ExpertTriggerPage.authority ExpertTriggerPage.trigger_pattern
    ExpertTriggerPage.primary_base_teeth ExpertTriggerPage.missing_teeth ExpertTriggerPage.primary_trigger_speed
    ExpertTriggerPage.trigger_angle_multiplier ExpertTriggerPage.primary_trigger_edge ExpertTriggerPage.secondary_trigger_edge
    ExpertTriggerPage.secondary_trigger_mode ExpertTriggerPage.poll_level_polarity ExpertTriggerPage.trigger_filter
    ExpertTriggerPage.skip_cycles ExpertTriggerPage.ignition_mode ExpertTriggerPage.injection_layout
    ExpertTriggerPage.fixed_timing_mode] in *.
  repeat apply Forall_app_2; auto with ecu; bytes_of_fields.
Qed.

Lemma encode_expert_page_ok p out : validate_expert_trigger_page p None true = Ok tt ->
  (EXPERT_TRIGGER_PAGE_BYTES <= length out)%nat ->
  encode_expert_trigger_page p out = (expert_page_bytes p ++ drop EXPERT_TRIGGER_PAGE_BYTES out, Ok EXPERT_TRIGGER_PAGE_BYTES).
Proof.
  intros Hv Hl. unfold encode_expert_trigger_page. rewrite Hv. unfold expert_page_fields.
  rewrite encode_cleared by done. f_equal. destruct p. reflexivity.
Qed.

Lemma read_expert_page_back p rest : expert_page_typed p -> read_expert_page (expert_page_bytes p ++ rest) = p.
Proof.
  intros ((? & ? & ? & ? & ?) & _). destruct p. unfold expert_page_bytes, read_expert_page, rd_i16, rd_u16, rd_u32, flag.
  cbn [get_byte nth app le16 le32 Nat.add ExpertTriggerPage.schema_version ExpertTriggerPage.profile_identity
    ExpertTriggerPage.profile_hash ExpertTriggerPage.trigger_angle_atdc_deg10 ExpertTriggerPage.fixed_timing_deg10] in *.
  rewrite b2z_flag. repeat rewrite le32_value by done. rewrite signed_le16 by done. by repeat rewrite le16_value by done.
Qed.

Lemma read_expert_page_typed data : bytes data -> expert_page_typed (read_expert_page data).
Proof. intros Hb. unfold expert_page_typed, read_expert_page. cbn. split_and!; auto with ecu. Qed.

(** What the page that is in place asks of a new one. *)
Definition current_check (current p : ExpertTriggerPage.t) : Result unit PageCodecError.t :=
  if certified_page current then
    let? _ := refuse_if (certified_page p && negb (bool_decide (p = current))) in
    refuse_if (negb (certified_page p) && negb (ExpertTriggerPage.expert_unlock p =? EXPERT_UNLOCK_UNLOCKED))
  else Ok tt.

Lemma validate_with_current p current allow : validate_expert_trigger_page p (Some current) allow
  = result_bind (validate_expert_trigger_page p None allow) (fun _ => current_check current p).
Proof.
  unfold validate_expert_trigger_page.
  repeat match goal with |- result_bind ?r _ = _ => destruct r as [[]|]; [cbn [result_bind]|reflexivity] end. reflexivity.
Qed.

Lemma validate_none_ok p allow : validate_expert_trigger_page p None allow = Ok tt <->
  (ExpertTriggerPage.schema_version p = EXPERT_SCHEMA_VERSION_CURRENT /\ (allow = false -> certified_page p = false)
   /\ known_codes p = true /\ validate_page_authority p = Ok tt /\ validate_page_fields p = Ok tt).
Proof.
  unfold validate_expert_trigger_page. destruct (Z.eqb_spec (ExpertTriggerPage.schema_version p) EXPERT_SCHEMA_VERSION_CURRENT) as [E|E];
    cbn [negb refuse_if result_bind]; [|split; [done|by intros (? & _)]].
  destruct (certified_page p); destruct allow; cbn [negb andb refuse_if result_bind];
    try (split; [done|intros (_ & H & _); by specialize (H eq_refl)]).
  all: destruct (known_codes p); cbn [negb refuse_if result_bind]; [|split; [done|by intros (_ & _ & ? & _)]].
  all: destruct (validate_page_authority p) as [[]|]; cbn [result_bind]; [|split; [done|by intros (_ & _ & _ & ? & _)]].
  all: destruct (validate_page_fields p) as [[]|]; cbn [result_bind]; [split; [done|done]|split; [done|by intros (_ & _ & _ & _ & ?)]].
Qed.

Lemma validate_trusted p : validate_expert_trigger_page p None false = Ok tt -> validate_expert_trigger_page p None true = Ok tt.
Proof. rewrite !validate_none_ok. naive_solver. Qed.

(** A page and the setup it stands for are accepted together. *)
Lemma code_eqb {T} `{CodeEnum T, EqDecision T} (x y : T) : (code x =? code y) = bool_decide (x = y).
Proof.
  destruct (bool_decide_reflect (x = y)) as [->|Hne]; [apply Z.eqb_refl|]. apply Z.eqb_neq. intros E. apply Hne.
  pose proof (from_code_code x) as Hx. rewrite E, from_code_code in Hx. congruence.
Qed.

Lemma known_codes_from_calibration c : known_codes (expert_trigger_page_from_calibration c) = true.
Proof.
  unfold known_codes, expert_trigger_page_from_calibration. cbn [ExpertTriggerPage.expert_unlock ExpertTriggerPage.authority
    ExpertTriggerPage.trigger_pattern ExpertTriggerPage.primary_trigger_speed ExpertTriggerPage.primary_trigger_edge
    ExpertTriggerPage.secondary_trigger_edge ExpertTriggerPage.secondary_trigger_mode ExpertTriggerPage.poll_level_polarity
    ExpertTriggerPage.trigger_filter ExpertTriggerPage.ignition_mode ExpertTriggerPage.injection_layout
    ExpertTriggerPage.fixed_timing_mode].
  assert ((EXPERT_UNLOCK_UNLOCKED <? code (ExpertTriggerCalibration.expert_unlock c)) = false) as -> by (by destruct (ExpertTriggerCalibration.expert_unlock c)).
  assert ((4 <? code (ExpertTriggerCalibration.authority c)) = false) as -> by (by destruct (ExpertTriggerCalibration.authority c)).
  assert ((3 <? code (ExpertTriggerCalibration.trigger_pattern c)) = false) as -> by (by destruct (ExpertTriggerCalibration.trigger_pattern c)).
  assert ((1 <? code (ExpertTriggerCalibration.primary_trigger_speed c)) = false) as -> by (by destruct (ExpertTriggerCalibration.primary_trigger_speed c)).
  assert (forall e : TriggerEdge.t, (1 <? code e) = false) as He by (by intros []). rewrite !He.
  assert ((5 <? code (ExpertTriggerCalibration.secondary_trigger_mode c)) = false) as -> by (by destruct (ExpertTriggerCalibration.secondary_trigger_mode c)).
  assert ((1 <? code (ExpertTriggerCalibration.poll_level_polarity c)) = false) as -> by (by destruct (ExpertTriggerCalibration.poll_level_polarity c)).
  assert ((3 <? code (ExpertTriggerCalibration.trigger_filter c)) = false) as -> by (by destruct (ExpertTriggerCalibration.trigger_filter c)).
  assert ((3 <? code (ExpertTriggerCalibration.ignition_mode c)) = false) as -> by (by destruct (ExpertTriggerCalibration.ignition_mode c)).
  assert ((4 <? code (ExpertTriggerCalibration.injection_layout c)) = false) as -> by (by destruct (ExpertTriggerCalibration.injection_layout c)).
  by assert ((1 <? code (ExpertTriggerCalibration.fixed_timing_mode c)) = false) as -> by (by destruct (ExpertTriggerCalibration.fixed_timing_mode c)).
Qed.

Lemma calibration_from_page_from c : validate c = Ok tt ->
  expert_trigger_calibration_from_page (expert_trigger_page_from_calibration c) = Ok c.
Proof.
  intros Hv. unfold expert_trigger_calibration_from_page, expert_trigger_page_from_calibration, known.
  cbn [ExpertTriggerPage.expert_unlock ExpertTriggerPage.authority
    ExpertTriggerPage.trigger_pattern ExpertTriggerPage.primary_trigger_speed ExpertTriggerPage.primary_trigger_edge
    ExpertTriggerPage.secondary_trigger_edge ExpertTriggerPage.secondary_trigger_mode ExpertTriggerPage.poll_level_polarity
    ExpertTriggerPage.trigger_filter ExpertTriggerPage.ignition_mode ExpertTriggerPage.injection_layout
    ExpertTriggerPage.fixed_timing_mode].
  rewrite !from_code_code. cbn [result_bind].
  assert (forall c', c' = c -> match validate c' with Err _ => Err PageCodecError.Invalid | Ok _ => Ok c' end = Ok c) as E
    by (intros ? ->; by rewrite Hv).
  apply E. by destruct c.
Qed.

Lemma known_ok {T} `{CodeEnum T} n (x : T) : known n = Ok x -> code x = n.
Proof. unfold known. destruct (from_code n) eqn:E; [|done]. intros [= <-]. by apply code_from_code. Qed.

Lemma calibration_from_page_ok p c : expert_trigger_calibration_from_page p = Ok c ->
  validate c = Ok tt /\ expert_trigger_page_from_calibration c = p.
Proof.
  unfold expert_trigger_calibration_from_page. intros H. do 12 (apply result_bind_ok in H as (? & ?%known_ok & H)).
  cbv zeta in H. destruct (validate _) as [[]|] eqn:Hv; [|done]. injection H as <-. split; [done|].
  unfold expert_trigger_page_from_calibration. cbn. destruct p. cbn in *. by subst.
Qed.

(** The two validations ask the same of the authority, of the teeth and of the rest. *)
Definition page_error (r : Result unit ValidationError.t) : Result unit PageCodecError.t :=
  match r with Ok _ => Ok tt | Err _ => Err PageCodecError.Invalid end.

Lemma validate_page_authority_from c :
  validate_page_authority (expert_trigger_page_from_calibration c) = page_error (validate_authority c).
Proof.
  destruct c as [? unlock auth id hash]. unfold validate_page_authority, validate_authority, certified_page. cbn.
  destruct auth, unlock; try reflexivity; cbn; destruct (id =? 0), (hash =? 0); reflexivity.
Qed.

Lemma validate_page_teeth_from c :
  validate_page_teeth (expert_trigger_page_from_calibration c) = page_error (validate_teeth c).
Proof.
  destruct c as [? ? ? ? ? pattern teeth missing]. unfold validate_page_teeth, validate_teeth. cbn.
  destruct (teeth =? 0); [done|]. destruct pattern; cbn.
  - by destruct ((teeth <? 2) || (missing =? 0) || (teeth <=? missing)).
  - by destruct (missing =? 0).
  - by destruct (missing =? 0).
  - by destruct (missing =? 0).
Qed.

Lemma validate_page_from c : validate c = Ok tt ->
  validate_expert_trigger_page (expert_trigger_page_from_calibration c) None true = Ok tt.
Proof.
  intros H. unfold validate in H. do 8 (apply result_bind_ok in H as ([] & ? & H)).
  unfold validate_expert_trigger_page, validate_page_fields.
  rewrite known_codes_from_calibration, validate_page_authority_from, validate_page_teeth_from.
  repeat match goal with H : fail_if _ _ = Ok tt |- _ => apply fail_if_ok in H end.
  repeat match goal with H : _ = Ok tt |- _ => rewrite H; clear H end.
  repeat match goal with H : context [bool_decide (?x = ?y)] |- _ => rewrite <- (code_eqb x y) in H end.
  cbn [negb refuse_if result_bind andb page_error].
  repeat match goal with
  | |- result_bind (refuse_if ?b) _ = Ok tt =>
    assert (refuse_if b = Ok tt) as -> by (apply refuse_if_false; assumption); cbn [result_bind]
  | |- result_bind (result_bind (refuse_if ?b) _) _ = Ok tt =>
    assert (refuse_if b = Ok tt) as -> by (apply refuse_if_false; assumption); cbn [result_bind]
  end.
  done.
Qed.

(** ** What was accepted is read back *)
Lemma codec_reread `{PageCodec P} data p out : bytes data -> codec_decode data = Ok p -> (codec_len <= length out)%nat ->
  exists image, codec_encode p out = (image, Ok codec_len) /\ length image = length out
    /\ codec_decode (take codec_len image) = Ok p.
Proof.
  intros Hb Hd Hl. destruct (codec_decode_ok data p Hb Hd) as [Ht Hv]. destruct (codec_bytes_ok p Ht) as [_ Hn].
  exists (codec_bytes p ++ drop (length (codec_bytes p)) out). split; [by apply codec_encode_ok|]. split.
  - rewrite length_app, length_drop. lia.
  - rewrite take_app, take_ge by lia. apply codec_decode_bytes; [done..|].
    rewrite length_app, length_take, length_drop. lia.
Qed.

Lemma codec_readable `{PageCodec P} p out : codec_typed p -> (codec_len <= length out)%nat ->
  exists image, codec_encode p out = (image, Ok codec_len) /\ length image = length out /\ (bytes out -> bytes image).
Proof.
  intros Ht Hl. destruct (codec_bytes_ok p Ht) as [Hb Hn].
  exists (codec_bytes p ++ drop (length (codec_bytes p)) out). split; [by apply codec_encode_ok|].
  rewrite length_app, length_drop. split; [lia|]. intros Ho. apply Forall_app_2; [done|by apply Forall_drop].
Qed.

Lemma table_readable cells out : square cells -> (TABLE_PAGE_BYTES <= length out)%nat ->
  exists image, encode_table cells out = (image, Ok TABLE_PAGE_BYTES) /\ length image = length out
    /\ take TABLE_PAGE_BYTES image = table_bytes cells.
Proof.
  intros Hs Hl. pose proof (table_bytes_length cells Hs) as Hn. eexists. split; [by apply encode_table_ok|].
  rewrite length_app, length_drop, Hn. split; [lia|]. by rewrite <- Hn, take_app_length.
Qed.

(** The checked table accepts what it gives. *)
Lemma decode_afr_into_ok data cells cells' : bytes data -> square cells ->
  decode_afr_table_page_into data cells = (cells', Ok tt) ->
  square cells' /\ Forall (Forall u16) cells' /\ table_bytes cells' = data /\ forallb targets_ok cells' = true.
Proof.
  intros Hb Hs. unfold decode_afr_table_page_into. destruct (Nat.eqb_spec (length data) TABLE_PAGE_BYTES) as [Hl|]; [|done].
  cbn [negb]. pose proof (decode_afr_rows_spec data 0 cells) as H.
  assert (decode_table_into rd_u16 data cells = ((decode_rows rd_u16 data 0 cells).1, Ok tt)) as Hd
    by (unfold decode_table_into; by rewrite Hl, Nat.eqb_refl).
  destruct (decode_rows rd_u16 data 0 cells) as [new last]. destruct (decode_afr_rows data 0 cells) as [rows [n|err]]; [|done].
  destruct H as (-> & _ & Ht). cbn [result_bind fst] in *. intros [= <-].
  destruct (decode_table_into_ok rd_u16 u16 rd_u16_bytes rd_u16_range _ _ _ Hb Hs Hd) as (? & ? & ?). done.
Qed.

Lemma decode_afr_into_back cells shape : Forall (Forall u16) cells -> square cells -> square shape ->
  forallb targets_ok cells = true -> decode_afr_table_page_into (table_bytes cells) shape = (cells, Ok tt).
Proof.
  intros Ho Hc Hs Ht. pose proof (decode_table_into_back rd_u16 u16 rd_u16_back cells shape Ho Hc Hs) as Hd.
  unfold decode_table_into in Hd. unfold decode_afr_table_page_into. rewrite table_bytes_length, Nat.eqb_refl in * by done.
  cbn [negb] in *. pose proof (decode_afr_rows_spec (table_bytes cells) 0 shape) as H.
  destruct (decode_rows rd_u16 (table_bytes cells) 0 shape) as [new last]. injection Hd as ->.
  destruct (decode_afr_rows (table_bytes cells) 0 shape) as [rows [n|err]].
  - by destruct H as (-> & _).
  - destruct H as (_ & _ & k & v & Hk & Hv & _). exfalso.
    assert (forallb (in_range AFR_TARGET_MIN_X10 AFR_TARGET_MAX_X10) (concat cells) = true) as Hall.
    { clear -Ht. induction cells as [|r cells IH]; [done|]. cbn [forallb concat] in *. apply andb_true_iff in Ht as [H1 H2].
      rewrite forallb_app. unfold targets_ok in H1. by rewrite H1, IH. }
    rewrite forallb_forall in Hall. rewrite Hall in Hv; [done|]. by apply list_elem_of_In, (list_elem_of_lookup_2 _ k).
Qed.
