(* ===== verification/TsStore.v ===== *)
(** * The page stores (crates/ts/src/pages: stores.rs, stores/, ecu_store.rs;
      boards/common/src/ts/page_store.rs; the traits of crates/ts/src/server.rs)

    The class [PageStore] of what the tuning server asks of a store, the stores of the single
    families of pages, and [EcuPageStore], the store of all nineteen pages over the tune.  The
    theorems say what a write does: which pages it can change, that what is read of an accepted
    page is accepted again unchanged, and what a refused one leaves behind. *)
From S2P Require Import Prelude Domain Bytes BoardApi ExpertTrigger Sensors TsPages TsCodecs.

(** ** Errors and the interface (server.rs) *)
Module PageError.
Inductive t := Invalid | WrongSize.
#[global] Instance eq_dec : EqDecision t.
Proof. solve_decision. Defined.
End PageError.

Module PersistError.
Inductive t := Unsupported | Fail | EngineRunning.
#[global] Instance eq_dec : EqDecision t.
Proof. solve_decision. Defined.
End PersistError.

Class PageStore (S : Type) := {
  page_len : S -> Z -> option nat;
  read_page : S -> Z -> list Z -> list Z * option nat;
  write_page : Z -> list Z -> S -> S * Result unit PageError.t;
  burn : S -> S * Result unit PersistError.t;
  export_package_wire : S -> list Z -> list Z * Result nat PageError.t;
  import_package_wire : list Z -> S -> S * Result unit PageError.t;
}.

(** The methods the trait provides. *)
Definition burn_unsupported {S} (s : S) : S * Result unit PersistError.t := (s, Err PersistError.Unsupported).
Definition burn_nothing {S} (s : S) : S * Result unit PersistError.t := (s, Ok tt).
Definition export_unsupported {S} (s : S) (out : list Z) : list Z * Result nat PageError.t := (out, Err PageError.Invalid).
Definition import_unsupported {S} (data : list Z) (s : S) : S * Result unit PageError.t := (s, Err PageError.Invalid).

Definition page_codec_error_to_page_error (e : PageCodecError.t) : PageError.t :=
  match e with PageCodecError.WrongSize => PageError.WrongSize | PageCodecError.Invalid => PageError.Invalid end.

(** [.ok()], and [.map_err(page_codec_error_to_page_error)]. *)
Definition ok_len (r : list Z * Result nat PageCodecError.t) : list Z * option nat :=
  (r.1, match r.2 with Ok n => Some n | Err _ => None end).
Definition map_page_err {A} (r : Result A PageCodecError.t) : Result A PageError.t :=
  match r with Ok a => Ok a | Err e => Err (page_codec_error_to_page_error e) end.

(** [let page = decode(data)?; assign; Ok(())] *)
Definition store_decoded {P S} (r : Result P PageCodecError.t) (assign : P -> S) (s : S) : S * Result unit PageError.t :=
  match map_page_err r with Ok p => (assign p, Ok tt) | Err e => (s, Err e) end.

(** ** Codes of the diagnostic pages (stores.rs) *)
Definition TS_CURRENT_FAULT_NONE : Z := 0.
Definition TS_CURRENT_FAULT_MAP_FAILURE_HIGH_LOAD : Z := 6.
Definition TS_CURRENT_FAULT_TPS_MAP_PLAUSIBILITY : Z := 7.
Definition TS_CURRENT_FAULT_PERSIST_CRC_FAULT : Z := 9.
Definition TS_CURRENT_FAULT_SYNC_LOSS : Z := 10.
Definition TS_CURRENT_FAULT_SENSOR_OUT_OF_RANGE : Z := 11.
Definition TS_CURRENT_FAULT_CALIBRATION_INVALID : Z := 12.
Definition TS_CURRENT_FAULT_SAFETY_CUT : Z := 13.
Definition TS_CURRENT_FAULT_ACTUATOR_FAULT : Z := 14.
Definition TS_FAULT_SEVERITY_NONE : Z := 0.
Definition TS_FAULT_SEVERITY_INFO : Z := 1.
Definition TS_FAULT_SEVERITY_WARNING : Z := 2.
Definition TS_FAULT_SEVERITY_CRITICAL : Z := 3.
Definition TS_FAULT_ACTION_NONE : Z := 0.
Definition TS_FAULT_ACTION_OBSERVE_ONLY : Z := 1.
Definition TS_FAULT_ACTION_LIMP_HOME : Z := 2.
Definition TS_FAULT_ACTION_SHUTDOWN : Z := 3.
Definition TS_DIAG_SOURCE_TRIGGER : Z := 2.
Definition TS_DIAG_SOURCE_SCHEDULER : Z := 3.
Definition TS_DIAG_SOURCE_SAFETY : Z := 4.

Definition ts_fault_code_from_diag_code (c : DiagCode.t) : Z := DiagCode.to_u8 c.
Definition ts_fault_code_from_runtime_fault (f : FaultCode.t) : Z :=
  match f with
  | FaultCode.None => TS_CURRENT_FAULT_NONE
  | FaultCode.SyncLoss => TS_CURRENT_FAULT_SYNC_LOSS
  | FaultCode.SensorOutOfRange => TS_CURRENT_FAULT_SENSOR_OUT_OF_RANGE
  | FaultCode.CalibrationInvalid => TS_CURRENT_FAULT_CALIBRATION_INVALID
  | FaultCode.SafetyCut => TS_CURRENT_FAULT_SAFETY_CUT
  | FaultCode.ActuatorFault => TS_CURRENT_FAULT_ACTUATOR_FAULT
  end.
Definition ts_fault_severity_code (s : FaultSeverity.t) : Z :=
  match s with
  | FaultSeverity.Info => TS_FAULT_SEVERITY_INFO
  | FaultSeverity.Warning => TS_FAULT_SEVERITY_WARNING
  | FaultSeverity.Critical => TS_FAULT_SEVERITY_CRITICAL
  end.
Definition ts_cancel_reason_code (r : CancelReason.t) : Z :=
  match r with
  | CancelReason.Manual => 0 | CancelReason.SyncLoss => 1 | CancelReason.SafetyShutdown => 2
  | CancelReason.Commit => 3 | CancelReason.Timeout => 4
  end.
Definition ts_diag_source_code (s : DiagSource.t) : Z :=
  match s with
  | DiagSource.Sensor => 1 | DiagSource.Trigger => TS_DIAG_SOURCE_TRIGGER | DiagSource.Scheduler => TS_DIAG_SOURCE_SCHEDULER
  | DiagSource.Safety => TS_DIAG_SOURCE_SAFETY | DiagSource.User => 5
  end.
Definition ts_diag_log_severity_code (code : Z) : Z :=
  if code =? TS_CURRENT_FAULT_NONE then TS_FAULT_SEVERITY_NONE
  else if code =? TS_CURRENT_FAULT_PERSIST_CRC_FAULT then TS_FAULT_SEVERITY_CRITICAL
  else TS_FAULT_SEVERITY_WARNING.
Definition ts_diag_log_action_code (code source : Z) : Z :=
  if code =? TS_CURRENT_FAULT_NONE then TS_FAULT_ACTION_NONE
  else if code =? TS_CURRENT_FAULT_PERSIST_CRC_FAULT then TS_FAULT_ACTION_SHUTDOWN
  else if (code =? TS_CURRENT_FAULT_MAP_FAILURE_HIGH_LOAD) || (code =? TS_CURRENT_FAULT_TPS_MAP_PLAUSIBILITY)
  then TS_FAULT_ACTION_LIMP_HOME
  else if (source =? TS_DIAG_SOURCE_TRIGGER) || (source =? TS_DIAG_SOURCE_SCHEDULER) || (source =? TS_DIAG_SOURCE_SAFETY)
  then TS_FAULT_ACTION_LIMP_HOME
  else TS_FAULT_ACTION_OBSERVE_ONLY.

(** ** The stores of one family of pages

    A store of references to parts of the tune is a record of those parts; its caller puts
    them back.  One whose parts are the fields of its page is that page. *)

(** *** Fuel and ignition tables (tables.rs) *)
Module FuelIgnPageStore.
Record t := mk { fuel : table; ign : table }.
#[global] Instance eta : Eta t := fun s => mk (fuel s) (ign s).

Definition read_fuel (s : t) (out : list Z) := ok_len (encode_fuel_table_page (fuel s) out).
Definition read_ign (s : t) (out : list Z) := ok_len (encode_ignition_table_page (ign s) out).
Definition write_fuel (data : list Z) (s : t) : t * Result unit PageError.t :=
  let '(cells, r) := decode_fuel_table_page_into data (fuel s) in (s <| fuel := cells |>, map_page_err r).
Definition write_ign (data : list Z) (s : t) : t * Result unit PageError.t :=
  let '(cells, r) := decode_ignition_table_page_into data (ign s) in (s <| ign := cells |>, map_page_err r).
#[global] Instance store : PageStore t := {|
  page_len _ page := if (page =? PAGE_FUEL) || (page =? PAGE_IGN) then Some TABLE_PAGE_BYTES else None;
  read_page s page out :=
    if page =? PAGE_FUEL then read_fuel s out else if page =? PAGE_IGN then read_ign s out else (out, None);
  write_page page data s :=
    if page =? PAGE_FUEL then write_fuel data s else if page =? PAGE_IGN then write_ign data s else (s, Err PageError.Invalid);
  burn := burn_nothing; export_package_wire := export_unsupported; import_package_wire := import_unsupported |}.
End FuelIgnPageStore.

(** *** Fuel tune (fuel_tune.rs) *)
Module FuelTunePageStore.
Record t := mk { ve : table; afr : table; tune : VeTunePage.t; limits : VeTunePageLimits.t }.
#[global] Instance eta : Eta t := fun s => mk (ve s) (afr s) (tune s) (limits s).

Definition read_page_from (page : Z) (ve afr : table) (tune : VeTunePage.t) (limits : VeTunePageLimits.t) (out : list Z) :
    list Z * option nat :=
  if page =? PAGE_VE_TUNE then ok_len (encode_ve_tune_page tune limits out)
  else if page =? PAGE_VE_TABLE then ok_len (encode_ve_table_page ve out)
  else if page =? PAGE_AFR_TABLE then ok_len (encode_afr_table_page afr out)
  else (out, None).

Definition write_ve_tune (data : list Z) (s : t) : t * Result unit PageError.t :=
  store_decoded (let? page := decode_ve_tune_page data in VeTunePage.apply_limits (limits s) page)
    (fun page => s <| tune := page |>) s.
Definition write_ve_table (data : list Z) (s : t) : t * Result unit PageError.t :=
  let '(cells, r) := decode_ve_table_page_into data (ve s) in (s <| ve := cells |>, map_page_err r).
(** [self.afr[0][0]] *)
Definition first_cell (cells : table) : Z := nth 0 (nth 0 cells []) 0.
Definition write_afr_table (data : list Z) (s : t) : t * Result unit PageError.t :=
  let '(cells, r) := decode_afr_table_page_into data (afr s) in
  let s := s <| afr := cells |> in
  match map_page_err r with
  | Err e => (s, Err e)
  | Ok _ => (s <| tune ::= fun p => p <| VeTunePage.target_afr_x10 := first_cell cells |> |>, Ok tt)
  end.
#[global] Instance store : PageStore t := {|
  page_len _ page :=
    if page =? PAGE_VE_TUNE then Some VE_TUNE_PAGE_BYTES
    else if (page =? PAGE_VE_TABLE) || (page =? PAGE_AFR_TABLE) then Some TABLE_PAGE_BYTES else None;
  read_page s page out := read_page_from page (ve s) (afr s) (tune s) (limits s) out;
  write_page page data s :=
    if page =? PAGE_VE_TUNE then write_ve_tune data s
    else if page =? PAGE_VE_TABLE then write_ve_table data s
    else if page =? PAGE_AFR_TABLE then write_afr_table data s else (s, Err PageError.Invalid);
  burn := burn_nothing; export_package_wire := export_unsupported; import_package_wire := import_unsupported |}.
End FuelTunePageStore.

(** *** Actuators (actuators.rs) *)
Module ActuatorPageStore.
Record t := mk { idle : IdlePage.t; fan : FanPage.t; cl : ClosedLoopPage.t }.
#[global] Instance eta : Eta t := fun s => mk (idle s) (fan s) (cl s).

Definition read_page_from (page : Z) (idle : IdlePage.t) (fan : FanPage.t) (cl : ClosedLoopPage.t) (out : list Z) :
    list Z * option nat :=
  if page =? PAGE_IDLE then ok_len (encode_idle_page idle out)
  else if page =? PAGE_FAN then ok_len (encode_fan_page fan out)
  else if page =? PAGE_CL then ok_len (encode_closed_loop_page cl out)
  else (out, None).
Definition write_idle (data : list Z) (s : t) := store_decoded (decode_idle_page data) (fun p => s <| idle := p |>) s.
Definition write_fan (data : list Z) (s : t) := store_decoded (decode_fan_page data) (fun p => s <| fan := p |>) s.
Definition write_cl (data : list Z) (s : t) := store_decoded (decode_closed_loop_page data) (fun p => s <| cl := p |>) s.
#[global] Instance store : PageStore t := {|
  page_len _ page :=
    if page =? PAGE_IDLE then Some IDLE_PAGE_BYTES else if page =? PAGE_FAN then Some FAN_PAGE_BYTES
    else if page =? PAGE_CL then Some CLOSED_LOOP_PAGE_BYTES else None;
  read_page s page out := read_page_from page (idle s) (fan s) (cl s) out;
  write_page page data s :=
    if page =? PAGE_IDLE then write_idle data s else if page =? PAGE_FAN then write_fan data s
    else if page =? PAGE_CL then write_cl data s else (s, Err PageError.Invalid);
  burn := burn_nothing; export_package_wire := export_unsupported; import_package_wire := import_unsupported |}.
End ActuatorPageStore.

(** *** Limits, sensors and angles (sensors_limits_angles.rs) *)
Module LimitsPageStore.
Definition read_page_from (page : Z) (limits : LimitsPage.t) (out : list Z) : list Z * option nat :=
  if page =? PAGE_LIMITS then ok_len (encode_limits_page limits out) else (out, None).
Definition write_limits (data : list Z) (s : LimitsPage.t) := store_decoded (decode_limits_page data) id s.
#[global] Instance store : PageStore LimitsPage.t := {|
  page_len _ page := if page =? PAGE_LIMITS then Some LIMITS_PAGE_BYTES else None;
  read_page s page out := read_page_from page s out;
  write_page page data s := if page =? PAGE_LIMITS then write_limits data s else (s, Err PageError.Invalid);
  burn := burn_nothing; export_package_wire := export_unsupported; import_package_wire := import_unsupported |}.
End LimitsPageStore.

Module SensorsPageStore.
Definition read_page_from (page : Z) (sensors : SensorsPage.t) (out : list Z) : list Z * option nat :=
  if page =? PAGE_SENSORS then ok_len (encode_sensors_page sensors out) else (out, None).
Definition write_sensors (data : list Z) (s : SensorsPage.t) := store_decoded (decode_sensors_page data) id s.
#[global] Instance store : PageStore SensorsPage.t := {|
  page_len _ page := if page =? PAGE_SENSORS then Some SENSORS_PAGE_BYTES else None;
  read_page s page out := read_page_from page s out;
  write_page page data s := if page =? PAGE_SENSORS then write_sensors data s else (s, Err PageError.Invalid);
  burn := burn_nothing; export_package_wire := export_unsupported; import_package_wire := import_unsupported |}.
End SensorsPageStore.

Module AnglesPageStore.
Definition read_page_from (page : Z) (angles : AnglesPage.t) (out : list Z) : list Z * option nat :=
  if page =? PAGE_ANGLES then ok_len (encode_angles_page angles out) else (out, None).
Definition write_angles (data : list Z) (s : AnglesPage.t) := store_decoded (decode_angles_page data) id s.
#[global] Instance store : PageStore AnglesPage.t := {|
  page_len _ page := if page =? PAGE_ANGLES then Some ANGLES_PAGE_BYTES else None;
  read_page s page out := read_page_from page s out;
  write_page page data s := if page =? PAGE_ANGLES then write_angles data s else (s, Err PageError.Invalid);
  burn := burn_nothing; export_package_wire := export_unsupported; import_package_wire := import_unsupported |}.
End AnglesPageStore.

(** *** Enrichment (enrichment.rs) *)
Module AseSetup.
(** [AseSetup], [AseConfig]: the lockout is a [u32] here. *)
Record t := mk { percent : Z; taper_time_ms : Z; lockout_ms : Z }.
Definition default : t := mk 20 5000 2000.
End AseSetup.

Module EnrichmentSetup.
(** The four setups that [write_enrichment_page] takes by reference. *)
Record t := mk { ae : AePage.t; dfco : DfcoPage.t; wue : WuePage.t; ase : AseSetup.t }.
#[global] Instance eta : Eta t := fun s => mk (ae s) (dfco s) (wue s) (ase s).
End EnrichmentSetup.

Definition ase_page_of (a : AseSetup.t) : AsePage.t :=
  AsePage.mk (AseSetup.percent a) (AseSetup.taper_time_ms a) (as_unsigned 16 (AseSetup.lockout_ms a)).
Definition ase_setup_of (p : AsePage.t) : AseSetup.t :=
  AseSetup.mk (AsePage.percent p) (AsePage.taper_time_ms p) (AsePage.lockout_ms p).

Definition read_enrichment_page (page : Z) (e : EnrichmentSetup.t) (out : list Z) : list Z * option nat :=
  if page =? PAGE_AE then ok_len (encode_ae_page (EnrichmentSetup.ae e) out)
  else if page =? PAGE_DFCO then ok_len (encode_dfco_page (EnrichmentSetup.dfco e) out)
  else if page =? PAGE_WUE then ok_len (encode_wue_page (EnrichmentSetup.wue e) out)
  else if page =? PAGE_ASE then ok_len (encode_ase_page (ase_page_of (EnrichmentSetup.ase e)) out)
  else (out, None).

Definition write_enrichment_page (page : Z) (data : list Z) (e : EnrichmentSetup.t) : EnrichmentSetup.t * Result unit PageError.t :=
  if page =? PAGE_AE then store_decoded (decode_ae_page data) (fun p => e <| EnrichmentSetup.ae := p |>) e
  else if page =? PAGE_DFCO then store_decoded (decode_dfco_page data) (fun p => e <| EnrichmentSetup.dfco := p |>) e
  else if page =? PAGE_WUE then store_decoded (decode_wue_page data) (fun p => e <| EnrichmentSetup.wue := p |>) e
  else if page =? PAGE_ASE then
    store_decoded (decode_ase_page data) (fun p => e <| EnrichmentSetup.ase := ase_setup_of p |>) e
  else (e, Err PageError.Invalid).

(** *** Diagnostics and snapshot (diagnostics_snapshot.rs) *)
Module SnapshotPageStore.
Definition read_page_from (page : Z) (p : SnapshotPage.t) (out : list Z) : list Z * option nat :=
  if page =? PAGE_SNAPSHOT then ok_len (encode_snapshot_page p out) else (out, None).
#[global] Instance store : PageStore SnapshotPage.t := {|
  page_len _ page := if page =? PAGE_SNAPSHOT then Some SNAPSHOT_PAGE_BYTES else None;
  read_page s page out := read_page_from page s out;
  write_page _ _ s := (s, Err PageError.Invalid);
  burn := burn_nothing; export_package_wire := export_unsupported; import_package_wire := import_unsupported |}.
End SnapshotPageStore.

Module DiagnosticPageStore.
(** A log entry has the fields of an entry of the page. *)
Record t := mk { snapshot : DiagPage.t; log_entries : list (option DiagLogEntryPage.t) }.

(** An array of [DIAG_LOG_ENTRY_COUNT] entries, zipped with as many slots. *)
Definition diag_log_page (log_entries : list (option DiagLogEntryPage.t)) : list DiagLogEntryPage.t :=
  map (fun source => match source with Some source => source | None => DiagLogEntryPage.empty end) log_entries.
Definition read_page_from (page : Z) (snapshot : DiagPage.t) (log_entries : list (option DiagLogEntryPage.t)) (out : list Z) :
    list Z * option nat :=
  if page =? PAGE_DIAG then ok_len (encode_diag_page snapshot out)
  else if page =? PAGE_DIAG_LOG then ok_len (encode_diag_log_page (diag_log_page log_entries) out)
  else (out, None).
#[global] Instance store : PageStore t := {|
  page_len _ page :=
    if page =? PAGE_DIAG then Some DIAG_PAGE_BYTES else if page =? PAGE_DIAG_LOG then Some DIAG_LOG_PAGE_BYTES else None;
  read_page s page out := read_page_from page (snapshot s) (log_entries s) out;
  write_page _ _ s := (s, Err PageError.Invalid);
  burn := burn_unsupported; export_package_wire := export_unsupported; import_package_wire := import_unsupported |}.
End DiagnosticPageStore.

(** *** Expert trigger (expert_trigger.rs) *)
(** [default_expert_trigger_record]: the writes over an array of zeros. *)
Definition DEFAULT_EXPERT_TRIGGER_RECORD : list Z :=
  write_fields (expert_page_fields ExpertTriggerPage.default_layout) (replicate EXPERT_TRIGGER_PAGE_BYTES 0).

Definition decode_expert_trigger_record (data : list Z) : Result ExpertTriggerPage.t PageError.t :=
  map_page_err (decode_expert_trigger_page data).

Module ExpertTriggerPageState.
Record t := mk { record : list Z }.
Definition new : t := mk DEFAULT_EXPERT_TRIGGER_RECORD.
Definition authority_code (s : t) : Z := get_byte 3 (record s).
Definition profile_identity (s : t) : Z := rd_u32 (record s) 4.
Definition profile_hash (s : t) : Z := rd_u32 (record s) 8.
#[global] Instance store : PageStore t := {|
  page_len _ page := if page =? PAGE_EXPERT_TRIGGER then Some EXPERT_TRIGGER_PAGE_BYTES else None;
  read_page s page out :=
    if negb (page =? PAGE_EXPERT_TRIGGER) || (length out <? EXPERT_TRIGGER_PAGE_BYTES)%nat then (out, None)
    else (copy_at 0 (record s) out, Some EXPERT_TRIGGER_PAGE_BYTES);
  write_page page data s :=
    if negb (page =? PAGE_EXPERT_TRIGGER) then (s, Err PageError.Invalid)
    else
      match decode_expert_trigger_record (record s) with
      | Err e => (s, Err e)
      | Ok current =>
        match map_page_err (decode_expert_trigger_page_with_current data (Some current)) with
        | Err e => (s, Err e)
        | Ok proposed =>
          let '(rec, r) := encode_expert_trigger_page proposed (record s) in
          (mk rec, match map_page_err r with Ok _ => Ok tt | Err e => Err e end)
        end
      end;
  burn := burn_nothing; export_package_wire := export_unsupported; import_package_wire := import_unsupported |}.
End ExpertTriggerPageState.

(** ** The store of every page (ecu_store.rs) *)
Module SensorsLimits.
Record t := mk {
  map_min_kpa_x10 : Z; map_max_kpa_x10 : Z; tps_min_percent : Z; tps_max_percent : Z; clear_time_s : Z }.
Definition default : t := mk 100 3000 0 100 3.
End SensorsLimits.

Module SystemSnapshot.
Record t := mk {
  rpm : Z; sync : SyncState.t; base_pw : Z; enrich_mult_x100 : Z; stft_x10 : Z; fuel_mult_x100 : Z; final_pw : Z;
  last_fault_code : Z; fault_severity : Z; cancel_reason : Z; isr_count : Z; isr_max_us : Z; isr_avg_us : Z }.
End SystemSnapshot.

Module EcuPageStore.
Record t := mk {
  fuel : table; ve : table; afr : table; required_fuel_us : Z; injector_deadtime_us : Z; ve_load_source : Z; ign : table;
  sens : SensorsCal.t; ae : AePage.t; dfco : DfcoPage.t; wue : WuePage.t; ase : AseSetup.t; idle : IdlePage.t;
  fan : FanPage.t; cl : ClosedLoopPage.t; limits : SensorsLimits.t; emerg_trig_map : bool; emerg_trig_tps : bool;
  diag_log_entries : list (option DiagLogEntryPage.t); snapshot : SystemSnapshot.t; tooth_count : Z;
  sync_loss_counter : Z; current_fault_code : Z; current_fault_severity : Z; current_fault_action : Z;
  current_cancel_reason : Z; fault_flags : Z; latest_diag_code : Z; angles_inj : list Z; angles_tdc : list Z;
  tooth0_angle_x10 : Z; cam_timeout_ms : Z; expert_trigger : ExpertTriggerPageState.t }.
#[global] Instance eta : Eta t := fun s => mk (fuel s) (ve s) (afr s) (required_fuel_us s) (injector_deadtime_us s)
  (ve_load_source s) (ign s) (sens s) (ae s) (dfco s) (wue s) (ase s) (idle s) (fan s) (cl s) (limits s)
  (emerg_trig_map s) (emerg_trig_tps s) (diag_log_entries s) (snapshot s) (tooth_count s) (sync_loss_counter s)
  (current_fault_code s) (current_fault_severity s) (current_fault_action s) (current_cancel_reason s) (fault_flags s)
  (latest_diag_code s) (angles_inj s) (angles_tdc s) (tooth0_angle_x10 s) (cam_timeout_ms s) (expert_trigger s).

Definition MIN_PULSE_WIDTH_US : Z := 500.
Definition MAX_PULSE_WIDTH_US : Z := 20000.
Definition ve_tune_limits : VeTunePageLimits.t := VeTunePageLimits.new MIN_PULSE_WIDTH_US MAX_PULSE_WIDTH_US.

Definition sync_code (sync : SyncState.t) : Z :=
  match sync with SyncState.Unsynced => 0 | SyncState.Provisional => 1 | SyncState.Locked _ => 2 end.
Definition phase_state (sync : SyncState.t) : Z :=
  match sync with
  | SyncState.Unsynced => 0 | SyncState.Provisional => 1 | SyncState.Locked false => 2 | SyncState.Locked true => 3
  end.
Definition cam_locked (sync : SyncState.t) : bool := match sync with SyncState.Locked cam_ref => cam_ref | _ => false end.

Definition diag_snapshot (s : t) : DiagPage.t :=
  let sync := SystemSnapshot.sync (snapshot s) in
  {| DiagPage.current_tooth_count := tooth_count s; DiagPage.cam_seen := cam_locked sync;
     DiagPage.sync_state := sync_code sync; DiagPage.phase_state := phase_state sync;
     DiagPage.absolute_authority := ExpertTriggerPageState.authority_code (expert_trigger s);
     DiagPage.trigger_angle_source := 0; DiagPage.output_gating_reason := 0; DiagPage.last_sync_loss_reason := 0;
     DiagPage.primary_rpm := SystemSnapshot.rpm (snapshot s); DiagPage.detected_gap_ratio := 0;
     DiagPage.sync_loss_counter := sync_loss_counter s; DiagPage.board_pin_map_identity := 0;
     DiagPage.profile_identity := ExpertTriggerPageState.profile_identity (expert_trigger s);
     DiagPage.profile_hash := ExpertTriggerPageState.profile_hash (expert_trigger s);
     DiagPage.current_fault_code := current_fault_code s; DiagPage.current_fault_severity := current_fault_severity s;
     DiagPage.current_fault_action := current_fault_action s; DiagPage.current_cancel_reason := current_cancel_reason s;
     DiagPage.fault_flags := fault_flags s; DiagPage.latest_diag_code := latest_diag_code s |}.

Definition snapshot_page (s : t) : SnapshotPage.t :=
  let x := snapshot s in
  SnapshotPage.mk (SystemSnapshot.rpm x) (sync_code (SystemSnapshot.sync x)) (SystemSnapshot.cancel_reason x)
    (SystemSnapshot.base_pw x) (SystemSnapshot.enrich_mult_x100 x) (SystemSnapshot.stft_x10 x)
    (SystemSnapshot.fuel_mult_x100 x) (SystemSnapshot.final_pw x) (SystemSnapshot.last_fault_code x)
    (SystemSnapshot.fault_severity x) (SystemSnapshot.isr_count x) (SystemSnapshot.isr_max_us x) (SystemSnapshot.isr_avg_us x).

(** What the other stores are given, and what they leave. *)
Definition sensors_setup (s : t) : SensorsPage.t :=
  let c := sens s in
  SensorsPage.mk (SensorsCal.tps_min_counts c) (SensorsCal.tps_max_counts c) (SensorsCal.map_v0_mv c)
    (SensorsCal.map_kpa0_x10 c) (SensorsCal.map_v1_mv c) (SensorsCal.map_kpa1_x10 c) (SensorsCal.clt_deg_c c)
    (SensorsCal.iat_deg_c c) (SensorsCal.clt_ohms c) (SensorsCal.iat_ohms c).
Definition put_sensors (p : SensorsPage.t) (s : t) : t :=
  s <| sens ::= fun c => SensorsCal.mk (SensorsPage.tps_min_counts p) (SensorsPage.tps_max_counts p) (SensorsPage.map_v0_mv p)
    (SensorsPage.map_kpa0_x10 p) (SensorsPage.map_v1_mv p) (SensorsPage.map_kpa1_x10 p) (SensorsCal.maf_mv c)
    (SensorsCal.maf_flow_x100 c) (SensorsPage.clt_deg_c p) (SensorsPage.iat_deg_c p) (SensorsPage.clt_ohms p)
    (SensorsPage.iat_ohms p) |>.
Definition limits_setup (s : t) : LimitsPage.t :=
  let l := limits s in
  LimitsPage.mk (SensorsLimits.map_min_kpa_x10 l) (SensorsLimits.map_max_kpa_x10 l) (SensorsLimits.tps_min_percent l)
    (SensorsLimits.tps_max_percent l) (SensorsLimits.clear_time_s l) (emerg_trig_map s) (emerg_trig_tps s).
Definition put_limits (p : LimitsPage.t) (s : t) : t :=
  s <| limits := SensorsLimits.mk (LimitsPage.map_min_kpa_x10 p) (LimitsPage.map_max_kpa_x10 p)
         (LimitsPage.tps_min_percent p) (LimitsPage.tps_max_percent p) (LimitsPage.clear_time_s p) |>
    <| emerg_trig_map := LimitsPage.emerg_trig_map p |> <| emerg_trig_tps := LimitsPage.emerg_trig_tps p |>.
Definition angles_setup (s : t) : AnglesPage.t :=
  AnglesPage.mk (angles_inj s) (angles_tdc s) (tooth0_angle_x10 s) (cam_timeout_ms s).
Definition put_angles (p : AnglesPage.t) (s : t) : t :=
  s <| angles_inj := AnglesPage.inj_angles_x10 p |> <| angles_tdc := AnglesPage.tdc_angles_x10 p |>
    <| tooth0_angle_x10 := AnglesPage.tooth0_angle_x10 p |> <| cam_timeout_ms := AnglesPage.cam_timeout_ms p |>.
Definition enrichment_setup (s : t) : EnrichmentSetup.t := EnrichmentSetup.mk (ae s) (dfco s) (wue s) (ase s).
Definition put_enrichment (e : EnrichmentSetup.t) (s : t) : t :=
  s <| ae := EnrichmentSetup.ae e |> <| dfco := EnrichmentSetup.dfco e |> <| wue := EnrichmentSetup.wue e |>
    <| ase := EnrichmentSetup.ase e |>.
Definition actuators (s : t) : ActuatorPageStore.t := ActuatorPageStore.mk (idle s) (fan s) (cl s).
Definition put_actuators (a : ActuatorPageStore.t) (s : t) : t :=
  s <| idle := ActuatorPageStore.idle a |> <| fan := ActuatorPageStore.fan a |> <| cl := ActuatorPageStore.cl a |>.
Definition tune (s : t) : VeTunePage.t :=
  VeTunePage.mk (ClosedLoopPage.target_afr_x10 (cl s)) (ClosedLoopPage.kp_i (cl s)) (ClosedLoopPage.ki_i (cl s))
    (required_fuel_us s) (injector_deadtime_us s) (ve_load_source s).
Definition fuel_tune (s : t) : FuelTunePageStore.t := FuelTunePageStore.mk (ve s) (afr s) (tune s) ve_tune_limits.
Definition put_fuel_tune (f : FuelTunePageStore.t) (s : t) : t :=
  let p := FuelTunePageStore.tune f in
  s <| ve := FuelTunePageStore.ve f |> <| afr := FuelTunePageStore.afr f |>
    <| cl ::= fun c => c <| ClosedLoopPage.target_afr_x10 := VeTunePage.target_afr_x10 p |>
         <| ClosedLoopPage.kp_i := VeTunePage.kp_i p |> <| ClosedLoopPage.ki_i := VeTunePage.ki_i p |> |>
    <| required_fuel_us := VeTunePage.required_fuel_us p |> <| injector_deadtime_us := VeTunePage.injector_deadtime_us p |>
    <| ve_load_source := VeTunePage.ve_load_source p |>.
Definition tables (s : t) : FuelIgnPageStore.t := FuelIgnPageStore.mk (fuel s) (ign s).
Definition put_tables (x : FuelIgnPageStore.t) (s : t) : t :=
  s <| fuel := FuelIgnPageStore.fuel x |> <| ign := FuelIgnPageStore.ign x |>.

(** A write through a store of references to parts of this one. *)
Definition write_via {P} `{PageStore P} (get : t -> P) (put_back : P -> t -> t) (page : Z) (data : list Z) (s : t) :
    t * Result unit PageError.t :=
  let '(p, r) := write_page page data (get s) in (put_back p s, r).

Definition one_of (page : Z) (pages : list Z) : bool := existsb (Z.eqb page) pages.
Definition ENRICHMENT_PAGES : list Z := [PAGE_AE; PAGE_DFCO; PAGE_WUE; PAGE_ASE].
Definition ACTUATOR_PAGES : list Z := [PAGE_IDLE; PAGE_FAN; PAGE_CL].
Definition FUEL_TUNE_PAGES : list Z := [PAGE_VE_TUNE; PAGE_VE_TABLE; PAGE_AFR_TABLE].

Definition read (s : t) (page : Z) (out : list Z) : list Z * option nat :=
  if page =? PAGE_FUEL then ok_len (encode_fuel_table_page (fuel s) out)
  else if page =? PAGE_IGN then ok_len (encode_ignition_table_page (ign s) out)
  else if page =? PAGE_SENSORS then SensorsPageStore.read_page_from page (sensors_setup s) out
  else if page =? PAGE_LIMITS then LimitsPageStore.read_page_from page (limits_setup s) out
  else if one_of page [PAGE_DIAG; PAGE_DIAG_LOG]
  then DiagnosticPageStore.read_page_from page (diag_snapshot s) (diag_log_entries s) out
  else if page =? PAGE_ANGLES then AnglesPageStore.read_page_from page (angles_setup s) out
  else if one_of page ENRICHMENT_PAGES then read_enrichment_page page (enrichment_setup s) out
  else if one_of page ACTUATOR_PAGES then ActuatorPageStore.read_page_from page (idle s) (fan s) (cl s) out
  else if one_of page FUEL_TUNE_PAGES then FuelTunePageStore.read_page_from page (ve s) (afr s) (tune s) ve_tune_limits out
  else if page =? PAGE_SNAPSHOT then SnapshotPageStore.read_page_from page (snapshot_page s) out
  else if page =? PAGE_EXPERT_TRIGGER then read_page (expert_trigger s) page out
  else (out, None).

Definition write (page : Z) (data : list Z) (s : t) : t * Result unit PageError.t :=
  if one_of page [PAGE_FUEL; PAGE_IGN] then write_via tables put_tables page data s
  else if page =? PAGE_SENSORS then write_via sensors_setup put_sensors page data s
  else if page =? PAGE_LIMITS then write_via limits_setup put_limits page data s
  else if one_of page ENRICHMENT_PAGES then
    match write_enrichment_page page data (enrichment_setup s) with
    | (_, Err e) => (s, Err e)
    | (e, Ok _) => (put_enrichment e s, Ok tt)
    end
  else if one_of page ACTUATOR_PAGES then write_via actuators put_actuators page data s
  else if one_of page FUEL_TUNE_PAGES then write_via fuel_tune put_fuel_tune page data s
  else if page =? PAGE_DIAG then (s, Err PageError.Invalid)
  else if page =? PAGE_EXPERT_TRIGGER then write_via expert_trigger (fun x s => s <| expert_trigger := x |>) page data s
  else if page =? PAGE_ANGLES then write_via angles_setup put_angles page data s
  else (s, Err PageError.Invalid).

#[global] Instance store : PageStore t := {|
  page_len _ page := TsPageDescriptor.len <$> ts_page_descriptor page;
  read_page := read; write_page := write;
  burn := burn_unsupported; export_package_wire := export_unsupported; import_package_wire := import_unsupported |}.
End EcuPageStore.

(** ** The assembly of a board's store (boards/common/src/ts/page_store.rs) *)
Definition diag_log_entry_of (ev : DiagEvent.t) : DiagLogEntryPage.t :=
  let code := DiagCode.to_u8 (DiagEvent.code ev) in
  let source := ts_diag_source_code (DiagEvent.source ev) in
  {| DiagLogEntryPage.code := code; DiagLogEntryPage.severity := ts_diag_log_severity_code code;
     DiagLogEntryPage.action := ts_diag_log_action_code code source; DiagLogEntryPage.source := source;
     DiagLogEntryPage.context_present := match DiagEvent.context ev with Some _ => true | None => false end;
     DiagLogEntryPage.context := default 0 (DiagEvent.context ev);
     DiagLogEntryPage.start_us := DiagEvent.start_us ev; DiagLogEntryPage.end_us := DiagEvent.end_us ev |}.

(** [entries.iter_mut().zip(events.iter())]: as many as both have; the others stay [None]. *)
Definition diag_log_entries_from (log : DiagLog.t) : list (option DiagLogEntryPage.t) :=
  let taken := map (option_map diag_log_entry_of) (take DIAG_LOG_ENTRY_COUNT (DiagLog.events log)) in
  taken ++ replicate (DIAG_LOG_ENTRY_COUNT - length taken) None.

(** [.rev().find_map(..)] *)
Definition last_fault_code_from (log : DiagLog.t) : Z :=
  default 0 (head (omap (option_map (fun ev => DiagCode.to_u8 (DiagEvent.code ev))) (rev (DiagLog.events log)))).

(** ** The well-formed store *)
Import EcuPageStore.

Definition ase_setup_typed (a : AseSetup.t) : Prop :=
  byte (AseSetup.percent a) /\ u32 (AseSetup.taper_time_ms a) /\ u32 (AseSetup.lockout_ms a).
(** A record that no write could have made of anything but an accepted page. *)
Definition expert_record_wf (x : ExpertTriggerPageState.t) : Prop :=
  exists p, ExpertTriggerPageState.record x = expert_page_bytes p /\ expert_page_typed p
    /\ validate_expert_trigger_page p None false = Ok tt.
Definition table_wf (ok : Z -> Prop) (cells : table) : Prop := square cells /\ Forall (Forall ok) cells.
Definition tables_wf (s : t) : Prop :=
  table_wf u16 (fuel s) /\ table_wf i16 (ign s) /\ table_wf u16 (ve s) /\ table_wf u16 (afr s).
Definition setups_wf (s : t) : Prop :=
  ae_typed (ae s) /\ dfco_typed (dfco s) /\ wue_typed (wue s) /\ ase_setup_typed (ase s) /\ idle_typed (idle s)
  /\ fan_typed (fan s) /\ cl_typed (cl s) /\ ve_tune_typed (tune s) /\ sensors_typed (sensors_setup s)
  /\ limits_typed (limits_setup s) /\ angles_typed (angles_setup s).
Definition store_wf (s : t) : Prop :=
  tables_wf s /\ setups_wf s /\ length (diag_log_entries s) = DIAG_LOG_ENTRY_COUNT /\ expert_record_wf (expert_trigger s).

(** Case analysis on a page number. *)
Definition PAGES : list Z := map TsPageDescriptor.page TS_PAGE_DESCRIPTORS.

Lemma page_cases (P : Z -> Prop) : Forall P PAGES -> (forall page, one_of page PAGES = false -> P page) -> forall page, P page.
Proof.
  intros HP Hn page. destruct (one_of page PAGES) eqn:E; [|by apply Hn].
  unfold one_of in E. apply existsb_exists in E as (x & Hx & ->%Z.eqb_eq). rewrite Forall_forall in HP.
  by apply HP, list_elem_of_In.
Qed.

Lemma pages_forall (P : Z -> Prop) :
  P PAGE_FUEL -> P PAGE_IGN -> P PAGE_SENSORS -> P PAGE_AE -> P PAGE_DFCO -> P PAGE_LIMITS -> P PAGE_DIAG -> P PAGE_DIAG_LOG ->
  P PAGE_ANGLES -> P PAGE_WUE -> P PAGE_ASE -> P PAGE_IDLE -> P PAGE_FAN -> P PAGE_CL -> P PAGE_SNAPSHOT ->
  P PAGE_EXPERT_TRIGGER -> P PAGE_VE_TUNE -> P PAGE_VE_TABLE -> P PAGE_AFR_TABLE -> Forall P PAGES.
Proof. intros. by repeat constructor. Qed.

Ltac each_page :=
  match goal with |- forall page, @?P page => refine (page_cases P _ _); [apply pages_forall|]; cbv beta end.

(** A page of no number is refused by every operation. *)
Lemma not_a_page page : one_of page PAGES = false ->
  ts_page_descriptor page = None /\ (forall data s, write page data s = (s, Err PageError.Invalid))
  /\ (forall out s, read s page out = (out, None)).
Proof.
  unfold one_of, PAGES. cbn [existsb map TS_PAGE_DESCRIPTORS TsPageDescriptor.page]. intros H.
  repeat (apply orb_false_iff in H as [? H]).
  repeat match goal with E : (page =? ?k) = false |- _ => apply Z.eqb_neq in E end.
  assert (forall k, page <> k -> (page =? k) = false) as Hk by (intros k; apply Z.eqb_neq).
  split; [|split].
  - unfold ts_page_descriptor, TS_PAGE_DESCRIPTORS. cbn [find TsPageDescriptor.page].
    rewrite !(Z.eqb_sym _ page), !Hk by done. done.
  - intros data s. unfold write, one_of, ENRICHMENT_PAGES, ACTUATOR_PAGES, FUEL_TUNE_PAGES. cbn [existsb].
    by rewrite !Hk by done.
  - intros out s. unfold read, one_of, ENRICHMENT_PAGES, ACTUATOR_PAGES, FUEL_TUNE_PAGES. cbn [existsb].
    by rewrite !Hk by done.
Qed.

(** ** A write changes its own page, and those that show the same data *)

(** The target ratio and the gains are on three pages; the diagnostics show the setup. *)
Definition affects (page q : Z) : bool :=
  (page =? q)
  || (one_of page [PAGE_CL; PAGE_VE_TUNE; PAGE_AFR_TABLE] && one_of q [PAGE_CL; PAGE_VE_TUNE])
  || ((page =? PAGE_EXPERT_TRIGGER) && (q =? PAGE_DIAG)).

Lemma put_back_same s : put_tables (tables s) s = s /\ put_sensors (sensors_setup s) s = s /\ put_limits (limits_setup s) s = s
  /\ put_angles (angles_setup s) s = s /\ put_enrichment (enrichment_setup s) s = s /\ put_actuators (actuators s) s = s
  /\ put_fuel_tune (fuel_tune s) s = s.
Proof. destruct s as [? ? ? ? ? ? ? [] ? ? ? ? ? ? [] []]. done. Qed.

Lemma store_decoded_cases {P S} (r : Result P PageCodecError.t) (assign : P -> S) s :
  (exists p, r = Ok p /\ store_decoded r assign s = (assign p, Ok tt))
  \/ (exists e, r = Err e /\ store_decoded r assign s = (s, Err (page_codec_error_to_page_error e))).
Proof. destruct r; [left|right]; eauto. Qed.

(** *** The write of each page *)
Definition put_cl (p : ClosedLoopPage.t) (s : t) : t := s <| cl := p |>.
Definition put_tune (p : VeTunePage.t) (s : t) : t :=
  s <| cl ::= fun c => c <| ClosedLoopPage.target_afr_x10 := VeTunePage.target_afr_x10 p |>
         <| ClosedLoopPage.kp_i := VeTunePage.kp_i p |> <| ClosedLoopPage.ki_i := VeTunePage.ki_i p |> |>
    <| required_fuel_us := VeTunePage.required_fuel_us p |> <| injector_deadtime_us := VeTunePage.injector_deadtime_us p |>
    <| ve_load_source := VeTunePage.ve_load_source p |>.
Definition put_target (v : Z) (s : t) : t := s <| cl ::= fun c => c <| ClosedLoopPage.target_afr_x10 := v |> |>.

Definition decode_tune (data : list Z) : Result VeTunePage.t PageCodecError.t :=
  let? page := decode_ve_tune_page data in VeTunePage.apply_limits ve_tune_limits page.

Ltac split_store s := destruct s as [? ? ? ? ? ? ? [] ? ? ? ? ? ? [] []].

Section Writes.
Variables (data : list Z) (s : t).

Lemma write_fuel_eq : write PAGE_FUEL data s =
  let '(c, r) := decode_table_into rd_u16 data (fuel s) in (s <| fuel := c |>, map_page_err r).
Proof. split_store s. change (write PAGE_FUEL) with (write_via tables put_tables PAGE_FUEL). unfold write_via. cbn.
  unfold FuelIgnPageStore.write_fuel, decode_fuel_table_page_into. cbn. by destruct (decode_table_into _ _ _). Qed.
Lemma write_ign_eq : write PAGE_IGN data s =
  let '(c, r) := decode_table_into rd_i16 data (ign s) in (s <| ign := c |>, map_page_err r).
Proof. split_store s. change (write PAGE_IGN) with (write_via tables put_tables PAGE_IGN). unfold write_via. cbn.
  unfold FuelIgnPageStore.write_ign, decode_ignition_table_page_into. cbn. by destruct (decode_table_into _ _ _). Qed.
Lemma write_ve_eq : write PAGE_VE_TABLE data s =
  let '(c, r) := decode_table_into rd_u16 data (ve s) in (s <| ve := c |>, map_page_err r).
Proof. split_store s. change (write PAGE_VE_TABLE) with (write_via fuel_tune put_fuel_tune PAGE_VE_TABLE). unfold write_via. cbn.
  unfold FuelTunePageStore.write_ve_table, decode_ve_table_page_into. cbn. by destruct (decode_table_into _ _ _). Qed.
Lemma write_afr_eq : write PAGE_AFR_TABLE data s =
  match decode_afr_table_page_into data (afr s) with
  | (c, Ok _) => (put_target (FuelTunePageStore.first_cell c) (s <| afr := c |>), Ok tt)
  | (c, Err e) => (s <| afr := c |>, Err (page_codec_error_to_page_error e))
  end.
Proof. split_store s. change (write PAGE_AFR_TABLE) with (write_via fuel_tune put_fuel_tune PAGE_AFR_TABLE). unfold write_via. cbn.
  unfold FuelTunePageStore.write_afr_table. cbn. by destruct (decode_afr_table_page_into _ _) as [? []]. Qed.
Lemma write_tune_eq : write PAGE_VE_TUNE data s = store_decoded (decode_tune data) (fun p => put_tune p s) s.
Proof.
  change (write PAGE_VE_TUNE data s) with
    (let '(p, r) := store_decoded (decode_tune data) (fun page => (fuel_tune s) <| FuelTunePageStore.tune := page |>) (fuel_tune s) in
     (put_fuel_tune p s, r)).
  split_store s. by destruct (decode_tune data).
Qed.
Lemma write_sensors_eq : write PAGE_SENSORS data s = store_decoded (decode_sensors_page data) (fun p => put_sensors p s) s.
Proof. split_store s. change (write PAGE_SENSORS) with (write_via sensors_setup put_sensors PAGE_SENSORS). unfold write_via. cbn.
  unfold SensorsPageStore.write_sensors. by destruct (decode_sensors_page data). Qed.
Lemma write_limits_eq : write PAGE_LIMITS data s = store_decoded (decode_limits_page data) (fun p => put_limits p s) s.
Proof. split_store s. change (write PAGE_LIMITS) with (write_via limits_setup put_limits PAGE_LIMITS). unfold write_via. cbn.
  unfold LimitsPageStore.write_limits. by destruct (decode_limits_page data). Qed.
Lemma write_angles_eq : write PAGE_ANGLES data s = store_decoded (decode_angles_page data) (fun p => put_angles p s) s.
Proof. split_store s. change (write PAGE_ANGLES) with (write_via angles_setup put_angles PAGE_ANGLES). unfold write_via. cbn.
  unfold AnglesPageStore.write_angles. by destruct (decode_angles_page data). Qed.
Lemma write_ae_eq : write PAGE_AE data s = store_decoded (decode_ae_page data) (fun p => s <| ae := p |>) s.
Proof. split_store s. unfold write. cbn. unfold write_enrichment_page. cbn. by destruct (decode_ae_page data). Qed.
Lemma write_dfco_eq : write PAGE_DFCO data s = store_decoded (decode_dfco_page data) (fun p => s <| dfco := p |>) s.
Proof. split_store s. unfold write. cbn. unfold write_enrichment_page. cbn. by destruct (decode_dfco_page data). Qed.
Lemma write_wue_eq : write PAGE_WUE data s = store_decoded (decode_wue_page data) (fun p => s <| wue := p |>) s.
Proof. split_store s. unfold write. cbn. unfold write_enrichment_page. cbn. by destruct (decode_wue_page data). Qed.
Lemma write_ase_eq : write PAGE_ASE data s = store_decoded (decode_ase_page data) (fun p => s <| ase := ase_setup_of p |>) s.
Proof. split_store s. unfold write. cbn. unfold write_enrichment_page. cbn. by destruct (decode_ase_page data). Qed.
Lemma write_idle_eq : write PAGE_IDLE data s = store_decoded (decode_idle_page data) (fun p => s <| idle := p |>) s.
Proof. split_store s. change (write PAGE_IDLE) with (write_via actuators put_actuators PAGE_IDLE). unfold write_via. cbn.
  unfold ActuatorPageStore.write_idle. by destruct (decode_idle_page data). Qed.
Lemma write_fan_eq : write PAGE_FAN data s = store_decoded (decode_fan_page data) (fun p => s <| fan := p |>) s.
Proof. split_store s. change (write PAGE_FAN) with (write_via actuators put_actuators PAGE_FAN). unfold write_via. cbn.
  unfold ActuatorPageStore.write_fan. by destruct (decode_fan_page data). Qed.
Lemma write_cl_eq : write PAGE_CL data s = store_decoded (decode_closed_loop_page data) (fun p => put_cl p s) s.
Proof. split_store s. change (write PAGE_CL) with (write_via actuators put_actuators PAGE_CL). unfold write_via. cbn.
  unfold ActuatorPageStore.write_cl. by destruct (decode_closed_loop_page data). Qed.
Lemma write_expert_eq : write PAGE_EXPERT_TRIGGER data s =
  let '(x, r) := write_page PAGE_EXPERT_TRIGGER data (expert_trigger s) in (s <| expert_trigger := x |>, r).
Proof. done. Qed.
Lemma write_read_only page : one_of page [PAGE_DIAG; PAGE_DIAG_LOG; PAGE_SNAPSHOT] = true -> write page data s = (s, Err PageError.Invalid).
Proof.
  unfold one_of. cbn. rewrite orb_false_r. intros [H|[H|H]%orb_true_iff]%orb_true_iff; apply Z.eqb_eq in H; by subst.
Qed.
End Writes.

(** The equation of the write in the goal. *)
Ltac write_eq :=
  lazymatch goal with
  | |- context [write PAGE_FUEL _ _] => rewrite write_fuel_eq
  | |- context [write PAGE_IGN _ _] => rewrite write_ign_eq
  | |- context [write PAGE_SENSORS _ _] => rewrite write_sensors_eq
  | |- context [write PAGE_AE _ _] => rewrite write_ae_eq
  | |- context [write PAGE_DFCO _ _] => rewrite write_dfco_eq
  | |- context [write PAGE_LIMITS _ _] => rewrite write_limits_eq
  | |- context [write PAGE_ANGLES _ _] => rewrite write_angles_eq
  | |- context [write PAGE_WUE _ _] => rewrite write_wue_eq
  | |- context [write PAGE_ASE _ _] => rewrite write_ase_eq
  | |- context [write PAGE_IDLE _ _] => rewrite write_idle_eq
  | |- context [write PAGE_FAN _ _] => rewrite write_fan_eq
  | |- context [write PAGE_CL _ _] => rewrite write_cl_eq
  | |- context [write PAGE_EXPERT_TRIGGER _ _] => rewrite write_expert_eq
  | |- context [write PAGE_VE_TUNE _ _] => rewrite write_tune_eq
  | |- context [write PAGE_VE_TABLE _ _] => rewrite write_ve_eq
  | |- context [write PAGE_AFR_TABLE _ _] => rewrite write_afr_eq
  | |- context [write ?page _ _] => rewrite (write_read_only _ _ page) by reflexivity
  end.

(** Every write is refused, leaving the store or a part of one table changed, or it is the
    assignment of a page that was decoded. *)
Ltac written :=
  match goal with
  | |- context [store_decoded ?r ?a ?s] =>
    let p := fresh "p" in let E := fresh "E" in let e := fresh "e" in
    destruct (store_decoded_cases r a s) as [(p & E & ->)|(e & E & ->)]
  | |- context [decode_table_into ?rd ?d ?c] =>
    let c' := fresh "c" in let r := fresh "r" in destruct (decode_table_into rd d c) as [c' r] eqn:?
  | |- context [decode_afr_table_page_into ?d ?c] =>
    let c' := fresh "c" in destruct (decode_afr_table_page_into d c) as [c' [[]|?]] eqn:?
  | |- context [write_page PAGE_EXPERT_TRIGGER ?d ?x] =>
    let x' := fresh "x" in let r := fresh "r" in destruct (write_page PAGE_EXPERT_TRIGGER d x) as [x' r] eqn:?
  end.

(** a write to one page leaves what every other page reads as it was, whether it is
    accepted or refused, except that the pages of the closed loop and of the fuel tune share
    the target ratio and the gains (the ratio with the target table as well), and the
    diagnostics show the expert setup. *)
Theorem ecu_page_writes_isolated s page data q out :
  affects page q = false -> read (fst (write page data s)) q out = read s q out.
Proof.
  revert page. each_page.
  20: { intros page Hn _. by rewrite (proj1 (proj2 (not_a_page page Hn))). }
  all: write_eq; try written; cbn [fst].
  all: revert q; each_page;
    [intros H; first [discriminate H|reflexivity]..|intros q Hn _; by rewrite !(proj2 (proj2 (not_a_page q Hn)))].
Qed.

(** ** Refused writes *)
Lemma expert_write_refused data (x x' : ExpertTriggerPageState.t) e : write_page PAGE_EXPERT_TRIGGER data x = (x', Err e) -> x' = x.
Proof.
  cbn [write_page ExpertTriggerPageState.store]. cbn [Z.eqb negb PAGE_EXPERT_TRIGGER Pos.eqb].
  destruct (decode_expert_trigger_record _) as [cur|]; [|by intros [= <-]].
  destruct (decode_expert_trigger_page_with_current data _) as [p|]; cbn [map_page_err]; [|by intros [= <-]].
  unfold encode_expert_trigger_page, encode_at. destruct x as [rec]. cbn [ExpertTriggerPageState.record].
  destruct (validate_expert_trigger_page p None true); [|by intros [= <-]].
  destruct (_ <? _)%nat; [by intros [= <-]|done].
Qed.

Lemma table_write_refused rd data c c' e : decode_table_into rd data c = (c', Err e) -> c' = c.
Proof. unfold decode_table_into. destruct (negb _); [by intros [= <-]|done]. Qed.

(** C29: a refused write leaves the store as it was, with one exception: a table of target
    ratios of the right length that has a ratio out of range is taken up to the first such
    ratio and left as it was from there on, although the tuning program is told that the
    write failed. *)
Theorem refused_page_write s page data s' e :
  write page data s = (s', Err e) ->
  s' = s
  \/ (page = PAGE_AFR_TABLE /\ e = PageError.Invalid /\ length data = TABLE_PAGE_BYTES
      /\ s' = s <| afr := afr s' |>
      /\ exists k v, let targets := read_each rd_u16 2 data 0 (length (concat (afr s))) in
         targets !! k = Some v /\ in_range AFR_TARGET_MIN_X10 AFR_TARGET_MAX_X10 v = false
         /\ targets_ok (take k targets) = true /\ concat (afr s') = take k targets ++ drop k (concat (afr s))).
Proof.
  revert page. each_page.
  20: { intros page Hn. rewrite (proj1 (proj2 (not_a_page page Hn))). intros [= <- _]. by left. }
  19: { rewrite write_afr_eq. unfold decode_afr_table_page_into.
    destruct (Nat.eqb_spec (length data) TABLE_PAGE_BYTES) as [Hl|]; cbn [negb].
    2: { intros [= <- _]. left. by destruct s. }
    pose proof (decode_afr_rows_spec data 0 (afr s)) as H. pose proof (decode_rows_read rd_u16 data 0 (afr s)) as Hr.
    destruct (decode_rows rd_u16 data 0 (afr s)) as [new last]. cbn [fst] in Hr.
    destruct (decode_afr_rows data 0 (afr s)) as [rows' [n|err]]; [done|]. cbn [result_bind].
    destruct H as (-> & _ & k & v & Hk & Hv & Hc & Ht). intros [= <- <-]. right. rewrite <- Hr.
    split_and!; [done..|by destruct s|]. exists k, v. by split_and!. }
  all: write_eq; try written; try (by intros [= <- _]; left).
  all: try (intros [= <- Hr]; left; match goal with H : decode_table_into _ _ _ = (_, ?r) |- _ =>
    destruct r; [done|]; apply table_write_refused in H; subst; by destruct s end).
  intros [= <- ->]. left. match goal with H : write_page _ _ _ = _ |- _ => apply expert_write_refused in H; subst end. by destruct s.
Qed.

(** ** The invariant *)
Lemma forall_concat (P : Z -> Prop) (cells : table) : Forall (Forall P) cells <-> Forall P (concat cells).
Proof.
  induction cells as [|r cells IH]; [done|]. cbn [concat]. rewrite Forall_cons, Forall_app. tauto.
Qed.

Lemma afr_write_wf data c c' r : bytes data -> table_wf u16 c -> decode_afr_table_page_into data c = (c', r) -> table_wf u16 c'.
Proof.
  intros Hb [Hs Hc] E. destruct r as [[]|e].
  - by destruct (decode_afr_into_ok data c c' Hb Hs E) as (? & ? & _).
  - unfold decode_afr_table_page_into in E. destruct (negb _); [by simplify_eq|].
    pose proof (decode_afr_rows_spec data 0 c) as H.
    pose proof (decode_rows_bytes rd_u16 u16 rd_u16_bytes rd_u16_range data 0 c Hb) as Hr.
    destruct (decode_rows rd_u16 data 0 c) as [new last]. destruct Hr as (_ & Hsh & Hn & _).
    destruct (decode_afr_rows data 0 c) as [rows [n|err]]; [done|]. injection E as -> _.
    destruct H as (_ & Hsh' & k & v & _ & _ & Hcc & _). split; [by eapply same_shape_square|].
    apply forall_concat. rewrite Hcc. apply Forall_app_2; [by apply Forall_take, forall_concat|by apply Forall_drop, forall_concat].
Qed.

Lemma first_cell_u16 c : Forall (Forall u16) c -> u16 (FuelTunePageStore.first_cell c).
Proof.
  unfold FuelTunePageStore.first_cell. intros H. destruct H as [|r c Hr _]; [done|]. cbn. by destruct Hr.
Qed.

Lemma table_write_wf rd ok data c c' r :
  (forall data off, bytes data -> le16 (rd data off) = [get_byte off data; get_byte (off + 1) data]) ->
  (forall data off, bytes data -> ok (rd data off)) ->
  bytes data -> table_wf ok c -> decode_table_into rd data c = (c', r) -> table_wf ok c'.
Proof.
  intros H1 H2 Hb [Hs Hc] E. destruct r as [[]|e].
  - by destruct (decode_table_into_ok rd ok H1 H2 data c c' Hb Hs E) as (? & ? & _).
  - apply table_write_refused in E. by subst.
Qed.

Lemma decode_tune_ok data p : bytes data -> decode_tune data = Ok p ->
  ve_tune_typed p /\ ve_tune_valid p = true /\ VeTunePage.apply_limits ve_tune_limits p = Ok p.
Proof.
  intros Hb H. unfold decode_tune in H. apply result_bind_ok in H as (q & Hd & H).
  destruct (codec_decode_ok (PageCodec := ve_tune_codec ve_tune_limits eq_refl) data q Hb Hd) as [Ht Hv].
  cbn [codec_typed codec_valid ve_tune_codec] in Ht, Hv. injection H as <-.
  destruct q as [t kp ki rf dt src]. destruct Ht as (? & ? & ? & ? & ? & ?). cbn in *.
  assert (u16 (clamp rf 500 20000)) by (unfold clamp, fits in *; repeat case_match; lia).
  assert (u16 (Z.min dt 10000)) by (unfold fits in *; lia).
  split; [by split_and!|]. split; [done|].
  assert (clamp (clamp rf 500 20000) 500 20000 = clamp rf 500 20000) as E1.
  { pose proof (clamp_bounds rf 500 20000 ltac:(lia)) as Hc. revert Hc. generalize (clamp rf 500 20000). intros v Hc.
    unfold clamp. destruct (Z.ltb_spec v 500); [lia|]. by destruct (Z.ltb_spec 20000 v); [lia|]. }
  assert (Z.min (Z.min dt 10000) 10000 = Z.min dt 10000) as E2 by lia.
  change (@Ok VeTunePage.t PageCodecError.t (VeTunePage.mk t kp ki (clamp (clamp rf 500 20000) 500 20000) (Z.min (Z.min dt 10000) 10000) src)
    = Ok (VeTunePage.mk t kp ki (clamp rf 500 20000) (Z.min dt 10000) src)).
  by rewrite E1, E2.
Qed.

(** An accepted setup is the record, whatever it replaced. *)
Lemma expert_write_accepted data (x x' : ExpertTriggerPageState.t) : bytes data -> expert_record_wf x ->
  write_page PAGE_EXPERT_TRIGGER data x = (x', Ok tt) ->
  length data = EXPERT_TRIGGER_PAGE_BYTES
  /\ ExpertTriggerPageState.record x' = expert_page_bytes (read_expert_page data)
  /\ validate_expert_trigger_page (read_expert_page data) None false = Ok tt.
Proof.
  intros Hb (cur & Hrec & Hct & _). cbn [write_page ExpertTriggerPageState.store]. cbn [Z.eqb negb PAGE_EXPERT_TRIGGER Pos.eqb].
  destruct (decode_expert_trigger_record _) as [cur'|]; [|done].
  unfold decode_expert_trigger_page_with_current, decode_expert_trigger_page_inner.
  destruct (Nat.eqb_spec (length data) EXPERT_TRIGGER_PAGE_BYTES) as [Hlen|]; [|done]. cbn [negb]. cbv zeta.
  destruct (validate_expert_trigger_page (read_expert_page data) (Some cur') false) as [[]|] eqn:Hv; [|done].
  cbn [result_bind map_page_err].
  assert (validate_expert_trigger_page (read_expert_page data) None false = Ok tt) as Hn.
  { rewrite validate_with_current in Hv. by apply result_bind_ok in Hv as ([] & ? & _). }
  pose proof (validate_trusted _ Hn) as Ht.
  rewrite encode_expert_page_ok by (try done; rewrite Hrec, expert_page_bytes_length; lia). intros [= <-].
  cbn [ExpertTriggerPageState.record]. rewrite Hrec, drop_ge by (rewrite expert_page_bytes_length; lia).
  done.
Qed.

Lemma expert_write_wf data (x x' : ExpertTriggerPageState.t) r : bytes data -> expert_record_wf x ->
  write_page PAGE_EXPERT_TRIGGER data x = (x', r) -> expert_record_wf x'.
Proof.
  intros Hb Hx E. destruct r as [[]|e]; [|by apply expert_write_refused in E; subst].
  destruct (expert_write_accepted data x x' Hb Hx E) as (_ & Hr & Hv).
  exists (read_expert_page data). split; [done|]. split; [by apply read_expert_page_typed|done].
Qed.

Ltac decoded_typed :=
  match goal with
  | Hb : bytes ?data, E : _ ?data = Ok ?p |- _ =>
    lazymatch type of E with
    | decode_tune _ = _ => let H := fresh in pose proof (decode_tune_ok data p Hb E) as (H & _ & _)
    | _ => let H := fresh in pose proof (codec_decode_ok data p Hb E) as [H _]
    end
  end.

(** the tables stay sixteen by sixteen and every value of the tune stays in the range of its
    type, whatever a tuning program writes to any page and whether it is accepted. *)
Theorem page_writes_keep_wf s page data : store_wf s -> bytes data -> store_wf (fst (write page data s)).
Proof.
  intros Hs Hb. revert page. each_page.
  20: { intros page Hn. by rewrite (proj1 (proj2 (not_a_page page Hn))). }
  all: destruct Hs as ((Hf & Hi & Hve & Hafr) & (Hae & Hdfco & Hwue & Hase & Hidle & Hfan & Hcl & Htu & Hse & Hli & Han) & Hlog & Hex).
  all: write_eq; try written; cbn [fst]; try (by split_and!); try decoded_typed.
  all: pose proof Hcl as (Hc1 & Hc2 & Hc3); pose proof Htu as (Ht1 & Ht2 & Ht3 & Ht4 & Ht5 & Ht6).
  all: try match goal with
  | E : decode_table_into rd_u16 _ ?c = _, H : table_wf _ ?c |- _ =>
      pose proof (table_write_wf _ u16 _ _ _ _ rd_u16_bytes rd_u16_range Hb H E)
  | E : decode_table_into rd_i16 _ ?c = _, H : table_wf _ ?c |- _ =>
      pose proof (table_write_wf _ i16 _ _ _ _ rd_i16_bytes rd_i16_range Hb H E)
  | E : decode_afr_table_page_into _ ?c = _, H : table_wf _ ?c |- _ =>
      let A := fresh "Ha" in pose proof (afr_write_wf _ _ _ _ Hb H E) as A; pose proof (first_cell_u16 _ (proj2 A))
  | E : write_page PAGE_EXPERT_TRIGGER _ _ = _ |- _ => pose proof (expert_write_wf _ _ _ _ Hb Hex E)
  end.
  all: try match goal with H : codec_typed ?p |- _ => let A := fresh "Hp" in rename H into A; cbn in A end.
  all: unfold store_wf, tables_wf, setups_wf; split_and!; try assumption.
  - destruct Hp as (? & ? & ?). split_and!; [done|done|]. cbn. unfold fits in *. lia.
  - destruct Hp as (? & ? & ?). by split_and!.
  - match goal with H : ve_tune_typed p |- _ => destruct H as (? & ? & ? & _) end. by split_and!.
  - by split_and!.
  - by split_and!.
Qed.

(** ** Accepted writes read back *)
Definition reads_back (page : Z) (n : nat) (s' : t) (out : list Z) : Prop :=
  exists image, read s' page out = (image, Some n) /\ length image = length out
    /\ write page (take n image) s' = (s', Ok tt).

Lemma codec_reads_back `{PageCodec P} page (get : t -> P) (put : P -> t -> t) s data p out :
  (forall data s, write page data s = store_decoded (codec_decode data) (fun p => put p s) s) ->
  (forall s out, read s page out = ok_len (codec_encode (get s) out)) ->
  get (put p s) = p -> put p (put p s) = put p s ->
  bytes data -> codec_decode data = Ok p -> (codec_len <= length out)%nat -> reads_back page codec_len (put p s) out.
Proof.
  intros Hw Hr Hg Hp Hb Hd Hl. destruct (codec_reread data p out Hb Hd Hl) as (image & He & Hi & Hd').
  exists image. rewrite Hr, Hg, He. split; [done|]. split; [done|]. rewrite Hw, Hd'. unfold store_decoded. cbn. by rewrite Hp.
Qed.

Lemma tune_reads_back s data p out : bytes data -> decode_tune data = Ok p -> (VE_TUNE_PAGE_BYTES <= length out)%nat ->
  reads_back PAGE_VE_TUNE VE_TUNE_PAGE_BYTES (put_tune p s) out.
Proof.
  intros Hb Hd Hl. destruct (decode_tune_ok data p Hb Hd) as (Ht & Hv & Ha).
  set (C := ve_tune_codec ve_tune_limits eq_refl). destruct (codec_bytes_ok (PageCodec := C) p Ht) as [_ Hn].
  pose proof (codec_encode_ok (PageCodec := C) p out Ht Hl) as He.
  exists (codec_bytes (PageCodec := C) p ++ drop (length (codec_bytes (PageCodec := C) p)) out).
  assert (tune (put_tune p s) = p) as Hg by (by destruct p). split; [|split].
  - change (read (put_tune p s) PAGE_VE_TUNE out) with (ok_len (encode_ve_tune_page (tune (put_tune p s)) ve_tune_limits out)).
    rewrite Hg. change (encode_ve_tune_page p ve_tune_limits out) with (codec_encode (PageCodec := C) p out). by rewrite He.
  - rewrite length_app, length_drop. change (codec_len (PageCodec := C)) with VE_TUNE_PAGE_BYTES in Hn. lia.
  - rewrite write_tune_eq. unfold decode_tune. change (codec_len (PageCodec := C)) with VE_TUNE_PAGE_BYTES in Hn.
    rewrite take_app, take_ge by lia.
    change decode_ve_tune_page with (codec_decode (PageCodec := C)).
    rewrite codec_decode_bytes by (try done; rewrite length_app, length_take, length_drop;
      change (codec_len (PageCodec := C)) with VE_TUNE_PAGE_BYTES; lia).
    cbn [result_bind]. rewrite Ha. unfold store_decoded. cbn. destruct s as [? ? ? ? ? ? ? ? ? ? ? ? ? ? []]. done.
Qed.

Lemma expert_reads_back data (x x' : ExpertTriggerPageState.t) out : bytes data -> expert_record_wf x ->
  write_page PAGE_EXPERT_TRIGGER data x = (x', Ok tt) -> (EXPERT_TRIGGER_PAGE_BYTES <= length out)%nat ->
  exists image, read_page x' PAGE_EXPERT_TRIGGER out = (image, Some EXPERT_TRIGGER_PAGE_BYTES) /\ length image = length out
    /\ write_page PAGE_EXPERT_TRIGGER (take EXPERT_TRIGGER_PAGE_BYTES image) x' = (x', Ok tt).
Proof.
  intros Hb Hx E Hl. pose proof (expert_write_wf data x x' _ Hb Hx E) as (p & Hr & Ht & Hv). destruct x' as [rec].
  cbn [ExpertTriggerPageState.record] in Hr. subst rec.
  assert (decode_expert_trigger_record (expert_page_bytes p) = Ok p
    /\ decode_expert_trigger_page_with_current (expert_page_bytes p) (Some p) = Ok p) as [Hd Hc].
  { unfold decode_expert_trigger_record, decode_expert_trigger_page, decode_expert_trigger_page_with_current,
      decode_expert_trigger_page_inner. rewrite expert_page_bytes_length, Nat.eqb_refl. cbn [negb]. cbv zeta.
    pose proof (read_expert_page_back p [] Ht) as Hback. rewrite app_nil_r in Hback. rewrite Hback, Hv. split; [done|].
    rewrite validate_with_current, Hv. cbn [result_bind]. unfold current_check.
    apply validate_none_ok in Hv as (_ & Hcert & _). by rewrite Hcert. }
  pose proof (validate_trusted p Hv) as Ht'.
  exists (copy_at 0 (expert_page_bytes p) out). split; [|split].
  - apply Nat.ltb_ge in Hl. cbn [read_page ExpertTriggerPageState.store ExpertTriggerPageState.record]. by rewrite Hl, Z.eqb_refl.
  - apply copy_at_length. rewrite expert_page_bytes_length. lia.
  - rewrite copy_at_0. rewrite <- (expert_page_bytes_length p) at 1. rewrite take_app_length.
    cbn [write_page ExpertTriggerPageState.store ExpertTriggerPageState.record]. cbn [Z.eqb negb PAGE_EXPERT_TRIGGER Pos.eqb].
    rewrite Hd, Hc. cbn [map_page_err]. rewrite encode_expert_page_ok by (try done; rewrite expert_page_bytes_length; lia).
    rewrite drop_ge by (rewrite expert_page_bytes_length; lia). by rewrite app_nil_r.
Qed.

Lemma table_reads_back page (get : t -> table) (put : table -> t -> t) s data out c rd (ok : Z -> Prop) :
  (forall data s, write page data s = let '(c, r) := decode_table_into rd data (get s) in (put c s, map_page_err r)) ->
  (forall s out, read s page out = ok_len (encode_table (get s) out)) ->
  get (put c s) = c -> put c (put c s) = put c s ->
  (forall v pre rest, ok v -> rd (pre ++ le16 v ++ rest) (length pre) = v) ->
  (forall data off, bytes data -> le16 (rd data off) = [get_byte off data; get_byte (off + 1) data]) ->
  (forall data off, bytes data -> ok (rd data off)) ->
  bytes data -> square (get s) -> decode_table_into rd data (get s) = (c, Ok tt) -> (TABLE_PAGE_BYTES <= length out)%nat ->
  exists image, read (put c s) page out = (image, Some TABLE_PAGE_BYTES) /\ length image = length out
    /\ write page (take TABLE_PAGE_BYTES image) (put c s) = (put c s, Ok tt) /\ take TABLE_PAGE_BYTES image = data.
Proof.
  intros Hw Hr Hg Hp H1 H2 H3 Hb Hs Hd Hl.
  destruct (decode_table_into_ok rd ok H2 H3 data _ _ Hb Hs Hd) as (Hc & Ho & Ht).
  destruct (table_readable c out Hc Hl) as (image & He & Hi & Htake). exists image.
  rewrite Hr, Hg, He, Htake. split; [done|]. split; [done|]. split; [|done].
  rewrite Hw, Hg, (decode_table_into_back rd ok H1 c c Ho Hc Hc). by rewrite Hp.
Qed.

(** After a page of its full length has been accepted, the page reads as a page which, written
    again, is accepted and changes nothing. *)
Lemma accepted_page_rereads s page d data s' out :
  store_wf s -> bytes data -> ts_page_descriptor page = Some d -> write page data s = (s', Ok tt) ->
  (TsPageDescriptor.len d <= length out)%nat -> reads_back page (TsPageDescriptor.len d) s' out.
Proof.
  intros ((Hf & Hi & Hve & Hafr) & _ & _ & Hex) Hb.
  pose proof (proj1 Hf). pose proof (proj1 Hi). pose proof (proj1 Hve). revert page. each_page.
  20: { intros page Hn. by rewrite (proj1 (not_a_page page Hn)). }
  all: intros [= <-] E Hl; cbn [TsPageDescriptor.len] in *; revert E.
  16: { rewrite write_expert_eq. destruct (write_page PAGE_EXPERT_TRIGGER data (expert_trigger s)) as [x r] eqn:E. intros [= <- ->].
    destruct (expert_reads_back data _ x out Hb Hex E Hl) as (image & Hr & Hlen & Hw). exists image.
    split; [exact Hr|]. split; [done|]. rewrite write_expert_eq.
    change (expert_trigger (s <| expert_trigger := x |>)) with x. rewrite Hw. by destruct s. }
  18: { rewrite write_afr_eq. destruct (decode_afr_table_page_into data (afr s)) as [c [[]|]] eqn:E; [|done]. intros [= <-].
    destruct (decode_afr_into_ok data _ c Hb (proj1 Hafr) E) as (Hsq & Ho & Ht & Hok).
    destruct (table_readable c out Hsq Hl) as (image & He & Hlen & Htake). exists image.
    change (read _ PAGE_AFR_TABLE out) with (ok_len (encode_table c out)). rewrite He, Htake.
    split; [done|]. split; [done|]. rewrite write_afr_eq. change (afr (put_target _ _)) with c.
    rewrite decode_afr_into_back by done. split_store s. done. }
  all: write_eq.
  all: try match goal with
  | |- context [store_decoded ?r ?a ?s] =>
    let p := fresh "p" in let E := fresh "E" in destruct (store_decoded_cases r a s) as [(p & E & ->)|(? & _ & ->)]; [|done]
  | |- context [decode_table_into ?rd ?d ?c] => let c' := fresh "c" in destruct (decode_table_into rd d c) as [c' [[]|]] eqn:?; [|done]
  end; try done; intros [= <-].
  1: destruct (table_reads_back PAGE_FUEL fuel (fun c s => s <| fuel := c |>) s data out c rd_u16 u16) as (image & ? & ? & ? & _);
    eauto using write_fuel_eq, rd_u16_back, rd_u16_bytes, rd_u16_range; by exists image.
  1: destruct (table_reads_back PAGE_IGN ign (fun c s => s <| ign := c |>) s data out c rd_i16 i16) as (image & ? & ? & ? & _);
    eauto using write_ign_eq, rd_i16_back, rd_i16_bytes, rd_i16_range; by exists image.
  12: destruct (table_reads_back PAGE_VE_TABLE ve (fun c s => s <| ve := c |>) s data out c rd_u16 u16) as (image & ? & ? & ? & _);
    eauto using write_ve_eq, rd_u16_back, rd_u16_bytes, rd_u16_range; by exists image.
  11: by apply (tune_reads_back s data).
  1: apply (codec_reads_back (H := sensors_codec) PAGE_SENSORS sensors_setup put_sensors s data p out); eauto using write_sensors_eq; by destruct p.
  1: apply (codec_reads_back (H := ae_codec) PAGE_AE ae (fun p s => s <| ae := p |>) s data p out); eauto using write_ae_eq.
  1: apply (codec_reads_back (H := dfco_codec) PAGE_DFCO dfco (fun p s => s <| dfco := p |>) s data p out); eauto using write_dfco_eq.
  1: apply (codec_reads_back (H := limits_codec) PAGE_LIMITS limits_setup put_limits s data p out); eauto using write_limits_eq; by destruct p.
  1: apply (codec_reads_back (H := angles_codec) PAGE_ANGLES angles_setup put_angles s data p out); eauto using write_angles_eq; by destruct p.
  1: apply (codec_reads_back (H := wue_codec) PAGE_WUE wue (fun p s => s <| wue := p |>) s data p out); eauto using write_wue_eq.
  2: apply (codec_reads_back (H := idle_codec) PAGE_IDLE idle (fun p s => s <| idle := p |>) s data p out); eauto using write_idle_eq.
  2: apply (codec_reads_back (H := fan_codec) PAGE_FAN fan (fun p s => s <| fan := p |>) s data p out); eauto using write_fan_eq.
  2: apply (codec_reads_back (H := cl_codec) PAGE_CL cl put_cl s data p out); eauto using write_cl_eq.
  apply (codec_reads_back (H := ase_codec) PAGE_ASE (fun s => ase_page_of (ase s)) (fun p s => s <| ase := ase_setup_of p |>) s data p out);
    eauto using write_ase_eq.
  destruct (codec_decode_ok (PageCodec := ase_codec) data p Hb E) as [(_ & _ & Hlock) _]. destruct p as [pc tt' lk]. unfold ase_page_of, ase_setup_of.
  cbn in *. f_equal. unfold as_unsigned. by rewrite Z.mod_small.
Qed.

(** ** Every page is readable *)
Lemma ase_page_typed a : ase_setup_typed a -> ase_typed (ase_page_of a).
Proof.
  intros (? & ? & ?). unfold ase_typed, ase_page_of. cbn. split_and!; [done|done|]. apply fits_mod. lia.
Qed.

(** The pages that are refused when written. *)
Definition READ_ONLY_PAGES : list Z := [PAGE_DIAG; PAGE_DIAG_LOG; PAGE_SNAPSHOT].

(** A page reads into a buffer; if it can be written, as bytes. *)
Definition readable (s : t) (page : Z) (n : nat) (out : list Z) : Prop :=
  exists image, read s page out = (image, Some n) /\ length image = length out
    /\ (bytes out -> one_of page READ_ONLY_PAGES = false -> bytes image).

Lemma readable_as {P} (E : P -> list Z -> list Z * Result nat PageCodecError.t) p s page n out :
  read s page out = ok_len (E p out) ->
  (exists image, E p out = (image, Ok n) /\ length image = length out /\ (bytes out -> bytes image)) ->
  readable s page n out.
Proof. intros Hr (image & He & Hl & Hb). exists image. rewrite Hr, He. by split_and!; auto. Qed.

Lemma read_only_readable {P} (E : P -> list Z -> list Z * Result nat PageCodecError.t) p s page n out :
  read s page out = ok_len (E p out) -> one_of page READ_ONLY_PAGES = true ->
  (exists image, E p out = (image, Ok n) /\ length image = length out) -> readable s page n out.
Proof. intros Hr Ho (image & He & Hl). exists image. rewrite Hr, He. split_and!; [done..|]. by rewrite Ho. Qed.

Lemma table_bytes_readable cells out : square cells -> (TABLE_PAGE_BYTES <= length out)%nat ->
  exists image, encode_table cells out = (image, Ok TABLE_PAGE_BYTES) /\ length image = length out
    /\ (bytes out -> bytes image).
Proof.
  intros Hs Hl. eexists. split; [by apply encode_table_ok|]. rewrite length_app, length_drop, table_bytes_length by done.
  split; [lia|]. intros Ho. apply Forall_app_2; [apply table_bytes_bytes|by apply Forall_drop].
Qed.

(** every listed page reads, into any buffer with room for it, as exactly its listed length. *)
Lemma page_readable s page d out :
  store_wf s -> ts_page_descriptor page = Some d -> (TsPageDescriptor.len d <= length out)%nat ->
  readable s page (TsPageDescriptor.len d) out.
Proof.
  intros ((Hf & Hi & Hve & Hafr) & (Hae & Hdfco & Hwue & Hase & Hidle & Hfan & Hcl & Htu & Hse & Hli & Han) & Hlog & Hex).
  revert page. each_page.
  20: { intros page Hn. by rewrite (proj1 (not_a_page page Hn)). }
  all: intros [= <-] Hl; cbn [TsPageDescriptor.len] in *.
  - apply (readable_as encode_table (fuel s)); [done|]. by apply table_bytes_readable; [apply Hf|].
  - apply (readable_as encode_table (ign s)); [done|]. by apply table_bytes_readable; [apply Hi|].
  - apply (readable_as encode_sensors_page (sensors_setup s)); [done|]. by apply (codec_readable (H := sensors_codec)).
  - apply (readable_as encode_ae_page (ae s)); [done|]. by apply (codec_readable (H := ae_codec)).
  - apply (readable_as encode_dfco_page (dfco s)); [done|]. by apply (codec_readable (H := dfco_codec)).
  - apply (readable_as encode_limits_page (limits_setup s)); [done|]. by apply (codec_readable (H := limits_codec)).
  - apply (read_only_readable encode_diag_page (diag_snapshot s)); [done..|]. by apply encode_diag_ok.
  - apply (read_only_readable encode_diag_log_page (DiagnosticPageStore.diag_log_page (diag_log_entries s))); [done..|].
    apply encode_diag_log_ok; [|done]. unfold DiagnosticPageStore.diag_log_page. by rewrite length_map.
  - apply (readable_as encode_angles_page (angles_setup s)); [done|]. by apply (codec_readable (H := angles_codec)).
  - apply (readable_as encode_wue_page (wue s)); [done|]. by apply (codec_readable (H := wue_codec)).
  - apply (readable_as encode_ase_page (ase_page_of (ase s))); [done|].
    apply (codec_readable (H := ase_codec)); [by apply ase_page_typed|done].
  - apply (readable_as encode_idle_page (idle s)); [done|]. by apply (codec_readable (H := idle_codec)).
  - apply (readable_as encode_fan_page (fan s)); [done|]. by apply (codec_readable (H := fan_codec)).
  - apply (readable_as encode_closed_loop_page (cl s)); [done|]. by apply (codec_readable (H := cl_codec)).
  - apply (read_only_readable encode_snapshot_page (snapshot_page s)); [done..|]. by apply encode_snapshot_ok.
  - destruct Hex as (p & Hr & Ht & _). exists (copy_at 0 (ExpertTriggerPageState.record (expert_trigger s)) out). split; [|split].
    + apply Nat.ltb_ge in Hl. change (read s PAGE_EXPERT_TRIGGER out) with (read_page (expert_trigger s) PAGE_EXPERT_TRIGGER out).
      cbn [read_page ExpertTriggerPageState.store]. by rewrite Hl, Z.eqb_refl.
    + apply copy_at_length. rewrite Hr, expert_page_bytes_length. lia.
    + intros Ho _. rewrite copy_at_0, Hr. apply Forall_app_2; [by apply expert_page_bytes_ok|by apply Forall_drop].
  - apply (readable_as (fun p => encode_ve_tune_page p ve_tune_limits) (tune s)); [done|].
    by apply (codec_readable (H := ve_tune_codec ve_tune_limits eq_refl)).
  - apply (readable_as encode_table (ve s)); [done|]. by apply table_bytes_readable; [apply Hve|].
  - apply (readable_as encode_table (afr s)); [done|]. by apply table_bytes_readable; [apply Hafr|].
Qed.

(** ** Diagnostic codes *)

(** Three faults a board can log have the numbers of other faults on the pages: low oil
    pressure shows as a loss of synchronisation, low fuel pressure as a sensor out of range, an
    invalid lambda reading as an invalid calibration. *)
Lemma fault_codes_collide :
  ts_fault_code_from_diag_code DiagCode.OilPressureLow = ts_fault_code_from_runtime_fault FaultCode.SyncLoss
  /\ ts_fault_code_from_diag_code DiagCode.FuelPressureLow = ts_fault_code_from_runtime_fault FaultCode.SensorOutOfRange
  /\ ts_fault_code_from_diag_code DiagCode.LambdaInvalid = ts_fault_code_from_runtime_fault FaultCode.CalibrationInvalid.
Proof. done. Qed.

(** The last fault code is that of the last slot that is taken, which is the last event only
    until the log has wrapped. *)
Lemma last_fault_code_spec log : 
  last_fault_code_from log =
  match last (omap id (DiagLog.events log)) with Some ev => DiagCode.to_u8 (DiagEvent.code ev) | None => 0 end.
Proof.
  unfold last_fault_code_from. induction (DiagLog.events log) as [|x l IH] using rev_ind; [done|].
  rewrite rev_app_distr, !omap_app. cbn [rev app omap list_omap]. destruct x as [ev|]; cbn [option_map omap list_omap id].
  - by rewrite last_snoc.
  - rewrite app_nil_r. exact IH.
Qed.

Definition logged (code : DiagCode.t) : DiagEvent.t := DiagEvent.mk code 0 DiagSource.Sensor None 0 0.
Lemma last_fault_code_after_wrap :
  exists log, DiagLog.push_all (replicate 16 (logged DiagCode.MapRange) ++ [logged DiagCode.PersistCrcFault]) (DiagLog.new 16) = Some log
    /\ last_fault_code_from log = DiagCode.to_u8 DiagCode.MapRange.
Proof. eexists. split; vm_compute; reflexivity. Qed.

(** ** Examples *)
Definition default_snapshot : SystemSnapshot.t := SystemSnapshot.mk 0 SyncState.Unsynced 0 100 0 100 0 0 0 0 0 0 0.
Definition default_store : t := {|
  fuel := replicate 16 (replicate 16 1000); ve := replicate 16 (replicate 16 100); afr := replicate 16 (replicate 16 147);
  required_fuel_us := 1000; injector_deadtime_us := 800; ve_load_source := 0; ign := replicate 16 (replicate 16 100);
  sens := SensorsCal.default; ae := AePage.default; dfco := DfcoPage.default; wue := WuePage.default; ase := AseSetup.default;
  idle := IdlePage.default; fan := FanPage.default; cl := ClosedLoopPage.default; limits := SensorsLimits.default;
  emerg_trig_map := false; emerg_trig_tps := false; diag_log_entries := replicate 16 None; snapshot := default_snapshot;
  tooth_count := 0; sync_loss_counter := 0; current_fault_code := 0; current_fault_severity := 0; current_fault_action := 0;
  current_cancel_reason := 0; fault_flags := 0; latest_diag_code := 0; angles_inj := replicate 16 0; angles_tdc := replicate 16 0;
  tooth0_angle_x10 := 0; cam_timeout_ms := 500; expert_trigger := ExpertTriggerPageState.new |}.

Lemma filled_table_wf (ok : Z -> Prop) v : ok v -> table_wf ok (replicate 16 (replicate 16 v)).
Proof.
  intros Hv. split; [split; [done|]|]; apply Forall_forall; intros row Hr%elem_of_replicate_inv; subst row; [done|].
  by apply Forall_replicate.
Qed.

Lemma default_store_wf : store_wf default_store.
Proof.
  split; [|split; [|split; [done|]]].
  - unfold tables_wf. split_and!; apply filled_table_wf; unfold fits, i16; lia.
  - unfold setups_wf. cbn.
    unfold ae_typed, dfco_typed, wue_typed, ase_setup_typed, idle_typed, fan_typed, cl_typed, ve_tune_typed, sensors_typed,
      limits_typed, angles_typed, i16, byte, fits. cbn.
    split_and!; try lia; repeat constructor; try lia.
  - exists ExpertTriggerPage.default_layout. split; [done|]. split; [|done].
    vm_compute. repeat split; discriminate.
Qed.

(** A target table whose second ratio is out of range. *)
Definition bad_targets : list Z := le16 200 ++ replicate 510 0.

Lemma refused_page_write_witness : exists s',
  write PAGE_AFR_TABLE bad_targets default_store = (s', Err PageError.Invalid) /\
  (s' = default_store
   \/ (PAGE_AFR_TABLE = PAGE_AFR_TABLE /\ PageError.Invalid = PageError.Invalid /\ length bad_targets = TABLE_PAGE_BYTES
       /\ s' = default_store <| afr := afr s' |>
       /\ exists k v, let targets := read_each rd_u16 2 bad_targets 0 (length (concat (afr default_store))) in
          targets !! k = Some v /\ in_range AFR_TARGET_MIN_X10 AFR_TARGET_MAX_X10 v = false
          /\ targets_ok (take k targets) = true /\ concat (afr s') = take k targets ++ drop k (concat (afr default_store)))).
Proof.
  exists (fst (write PAGE_AFR_TABLE bad_targets default_store)). split; [vm_compute; reflexivity|].
  apply (refused_page_write default_store PAGE_AFR_TABLE bad_targets _ PageError.Invalid). vm_compute. reflexivity.
Defined.

Lemma ecu_page_writes_isolated_witness :
  read (fst (write PAGE_FUEL (replicate 512 1) default_store)) PAGE_IGN [] = read default_store PAGE_IGN [].
Proof. apply (ecu_page_writes_isolated default_store PAGE_FUEL (replicate 512 1) PAGE_IGN []). reflexivity. Defined.
