(* ===== verification/TsKept.v ===== *)
(** * What a page keeps of what was written to it (crates/ts/src/pages/codecs/, pages/ecu_store.rs)

    For each family of pages, byte by byte, what a reader gets back after a write was accepted:
    the bytes as they were written, a flag reduced to its truth, a word brought into its range,
    or bytes that are not the writer's.  The layouts are written from the tables of the pages,
    not from the codecs, and the theorem ties the codecs and the store to them. *)
From S2P Require Import Prelude Domain Bytes BoardApi ExpertTrigger TsPages TsCodecs TsStore.
Import EcuPageStore.

(** ** Layouts *)
Module Part.
Inductive t :=
| Kept (n : nat)            (** [n] bytes as they were written *)
| Flag                      (** a byte that reads 0 or 1 *)
| Limited (f : Z -> Z)      (** a word, brought into its range *)
| Own (bs : list Z)         (** reserved, or the store's own *)
| Buffer (n : nat).         (** not written by a read: the reader's buffer shows *)

Definition len (p : t) : nat :=
  match p with Kept n | Buffer n => n | Flag => 1 | Limited _ => 2 | Own bs => length bs end.

(** What the part at [off] reads as, of the page [data], into the buffer [out]. *)
Definition shown (p : t) (off : nat) (data out : list Z) : list Z :=
  match p with
  | Kept n => slice off (off + n) data
  | Flag => [if get_byte off data =? 0 then 0 else 1]
  | Limited f => le16 (f (rd_u16 data off))
  | Own bs => bs
  | Buffer n => slice off (off + n) out
  end.
End Part.

Fixpoint shown_from (off : nat) (parts : list Part.t) (data out : list Z) : list Z :=
  match parts with
  | [] => []
  | p :: parts => Part.shown p off data out ++ shown_from (off + Part.len p) parts data out
  end.
Definition shown_page (parts : list Part.t) (data out : list Z) : list Z := shown_from 0 parts data out.

(** A required fuel of 500 to 20000 us and a dead time of at most 10000 us. *)
Definition layout (family : PageCodecFamily.t) : list Part.t :=
  match family with
  | PageCodecFamily.FuelTable | PageCodecFamily.IgnitionTable | PageCodecFamily.VeTable | PageCodecFamily.AfrTable =>
    [Part.Kept 512]
  | PageCodecFamily.Sensors => [Part.Kept 108; Part.Buffer 20]
  | PageCodecFamily.Ae => [Part.Kept 5; Part.Own [0]; Part.Kept 8; Part.Own [0; 0]]
  | PageCodecFamily.Dfco => [Part.Kept 1; Part.Own [0]; Part.Kept 14]
  | PageCodecFamily.Limits => [Part.Kept 9; Part.Own [0]]
  | PageCodecFamily.Angles => [Part.Kept 68]
  | PageCodecFamily.Wue => [Part.Kept 6; Part.Own [0; 0]]
  | PageCodecFamily.Ase => [Part.Kept 1; Part.Own [0]; Part.Kept 6]
  | PageCodecFamily.Idle | PageCodecFamily.Fan => [Part.Flag; Part.Kept 4; Part.Own [0]]
  | PageCodecFamily.ClosedLoop => [Part.Flag; Part.Own [0]; Part.Kept 6]
  | PageCodecFamily.ExpertTrigger =>
    [Part.Kept 24; Part.Flag; Part.Kept 4; Part.Own [0]; Part.Kept 2; Part.Own (replicate 16 0)]
  | PageCodecFamily.VeTune =>
    [Part.Kept 6; Part.Limited (fun v => Z.max 500 (Z.min v 20000)); Part.Limited (fun v => Z.min v 10000); Part.Kept 1;
     Part.Own ([0] ++ le16 500 ++ le16 20000)]
  | PageCodecFamily.Diag | PageCodecFamily.DiagLog | PageCodecFamily.Snapshot => []
  end.

(** ** Bytes *)
Lemma slice_bytes_at off n (data : list Z) : (off + n <= length data)%nat ->
  slice off (off + n) data = map (fun k => get_byte (off + k) data) (seq 0 n).
Proof.
  intros H. apply list_eq. intros i. unfold slice. replace (off + n - off)%nat with n by lia. rewrite list_lookup_fmap.
  destruct (Nat.lt_ge_cases i n).
  - rewrite lookup_take_lt, lookup_drop, lookup_seq_lt by lia. cbn [fmap option_fmap option_map Nat.add].
    unfold get_byte. symmetry. rewrite nth_lookup. destruct (data !! (off + i)%nat) eqn:E; [done|].
    apply lookup_ge_None in E. lia.
  - rewrite lookup_take_ge, lookup_seq_ge by lia. done.
Qed.

Lemma rd_u32_bytes data off : bytes data ->
  le32 (rd_u32 data off) = [get_byte off data; get_byte (off + 1) data; get_byte (off + 2) data; get_byte (off + 3) data].
Proof. intros H. by destruct (le32_rd data off H). Qed.

Lemma flag_byte i data : Z.b2z (flag i data) = if get_byte i data =? 0 then 0 else 1.
Proof. unfold flag. by destruct (get_byte i data =? 0). Qed.

Lemma read_angles_each limit data idx n vs : read_angles limit data idx n = Ok vs -> vs = read_each rd_u16 2 data idx n.
Proof.
  revert idx vs. induction n as [|n IH]; intros idx vs; cbn [read_angles]; [by intros [= <-]|].
  rewrite read_each_succ. intros ([] & _ & (angles & Hr & [= <-])%result_bind_ok)%result_bind_ok. f_equal. by apply IH.
Qed.

(** The trigger bits that are let through are the ones that come back. *)
Definition trigger_back (b : Z) : Z :=
  let trigger := if negb (Z.land b LIMITS_TRIGGER_MAP_BIT =? 0) then Z.lor 0 LIMITS_TRIGGER_MAP_BIT else 0 in
  if negb (Z.land b LIMITS_TRIGGER_TPS_BIT =? 0) then Z.lor trigger LIMITS_TRIGGER_TPS_BIT else trigger.

Lemma trigger_bits_back b : byte b -> Z.land b (not8 LIMITS_TRIGGER_BITS_MASK) = 0 -> trigger_back b = b.
Proof.
  intros Hb Hm.
  assert (forallb (fun n => let b := Z.of_nat n in
    negb (Z.land b (not8 LIMITS_TRIGGER_BITS_MASK) =? 0) || (trigger_back b =? b)) (seq 0 256) = true) as H by (vm_compute; reflexivity).
  rewrite forallb_forall in H. unfold byte in Hb. specialize (H (Z.to_nat b)). cbv beta zeta in H. rewrite in_seq, Z2Nat.id, Hm in H by lia.
  apply Z.eqb_eq. apply H. lia.
Qed.

(** ** What the codecs make of a page *)

(** The bytes a decoded page is encoded to, and the part of the buffer they leave. *)
Definition keeps `{PageCodec P} (parts : list Part.t) : Prop :=
  forall data p out, bytes data -> codec_decode data = Ok p ->
  codec_bytes p ++ slice (length (codec_bytes p)) codec_len out = shown_page parts data out.

(** The fields of a page, none of its bytes. *)
Ltac page_fields := cbn -[le16 le32 rd_u16 rd_i16 rd_u32 flag get_byte slice Z.b2z Z.eqb Z.min Z.max clamp Nat.ltb].

(** Both sides of an equation of page bytes, byte by byte. *)
Ltac byte_by_byte :=
  unfold shown_page;
  page_fields;
  rewrite ?rd_u16_bytes, ?rd_i16_bytes, ?rd_u32_bytes, ?flag_byte by done;
  page_fields;
  repeat match goal with
  | _ : bytes ?l |- context [slice ?a ?b ?l] =>
    let n := eval cbv in (b - a)%nat in change (slice a b l) with (slice a (a + n) l); rewrite (slice_bytes_at a n l) by (cbn; lia)
  end;
  page_fields; try reflexivity.

Ltac page_keeps decode fields len :=
  let data := fresh "data" in let p := fresh "p" in let out := fresh "out" in let Hb := fresh "Hb" in
  let Hl := fresh "Hl" in let H := fresh "H" in
  intros data p out Hb; page_fields; unfold decode;
  destruct (Nat.ltb_spec (length data) len) as [|Hl]; [done|]; cbv zeta; intros H; accepted;
  injection H as <-; unfold len in Hl; unfold fields; byte_by_byte.

Lemma ae_keeps : keeps (P := AePage.t) (layout PageCodecFamily.Ae).
Proof. page_keeps decode_ae_page ae_fields AE_PAGE_BYTES. Qed.
Lemma dfco_keeps : keeps (P := DfcoPage.t) (layout PageCodecFamily.Dfco).
Proof. page_keeps decode_dfco_page dfco_fields DFCO_PAGE_BYTES. Qed.
Lemma wue_keeps : keeps (P := WuePage.t) (layout PageCodecFamily.Wue).
Proof. page_keeps decode_wue_page wue_fields WUE_PAGE_BYTES. Qed.
Lemma ase_keeps : keeps (P := AsePage.t) (layout PageCodecFamily.Ase).
Proof. page_keeps decode_ase_page ase_fields ASE_PAGE_BYTES. Qed.
Lemma idle_keeps : keeps (P := IdlePage.t) (layout PageCodecFamily.Idle).
Proof. page_keeps decode_idle_page idle_fields IDLE_PAGE_BYTES. Qed.
Lemma fan_keeps : keeps (P := FanPage.t) (layout PageCodecFamily.Fan).
Proof. page_keeps decode_fan_page fan_fields FAN_PAGE_BYTES. Qed.
Lemma cl_keeps : keeps (P := ClosedLoopPage.t) (layout PageCodecFamily.ClosedLoop).
Proof. page_keeps decode_closed_loop_page cl_fields CLOSED_LOOP_PAGE_BYTES. Qed.
Lemma sensors_keeps : keeps (P := SensorsPage.t) (layout PageCodecFamily.Sensors).
Proof. page_keeps decode_sensors_page sensors_bytes SENSORS_PAGE_BYTES. by rewrite app_nil_r. Qed.

Lemma angles_keeps : keeps (P := AnglesPage.t) (layout PageCodecFamily.Angles).
Proof.
  intros data p out Hb. page_fields. unfold decode_angles_page.
  destruct (Nat.ltb_spec (length data) ANGLES_PAGE_BYTES) as [|Hl]; [done|].
  intros (inj & ->%read_angles_each & (tdc & ->%read_angles_each & H)%result_bind_ok)%result_bind_ok. accepted. injection H as <-.
  unfold ANGLES_PAGE_BYTES in Hl. unfold angles_bytes. byte_by_byte.
Qed.

Lemma limits_keeps : keeps (P := LimitsPage.t) (layout PageCodecFamily.Limits).
Proof.
  intros data p out Hb. page_fields. unfold decode_limits_page.
  destruct (Nat.ltb_spec (length data) LIMITS_PAGE_BYTES) as [|Hl]; [done|].
  cbv zeta. intros H. accepted. injection H as <-. apply negb_false_iff, Z.eqb_eq in E2.
  unfold LIMITS_PAGE_BYTES in Hl.
  unfold limits_fields.
  match goal with |- context [limits_trigger ?q] => change (limits_trigger q) with (trigger_back (get_byte 8 data)) end.
  rewrite trigger_bits_back by (done || by apply get_byte_range). byte_by_byte.
Qed.

Lemma tune_keeps data p out : bytes data -> decode_tune data = Ok p ->
  concat (map snd (ve_tune_fields ve_tune_limits p)) = shown_page (layout PageCodecFamily.VeTune) data out.
Proof.
  intros Hb (q & Hd & Hp)%result_bind_ok. change (VeTunePage.apply_limits ve_tune_limits q) with
    (@Ok VeTunePage.t PageCodecError.t (q <| VeTunePage.required_fuel_us ::= fun v => clamp v 500 20000 |>
       <| VeTunePage.injector_deadtime_us ::= fun v => Z.min v 10000 |>)) in Hp. injection Hp as <-.
  unfold decode_ve_tune_page in Hd. destruct (Nat.ltb_spec (length data) VE_TUNE_PAGE_BYTES) as [|Hl]; [done|]. cbv zeta in Hd. accepted.
  injection Hd as <-. unfold VE_TUNE_PAGE_BYTES in Hl.
  assert (forall v, clamp v 500 20000 = Z.max 500 (Z.min v 20000)) as Hc by (intros v; unfold clamp; repeat case_match; lia).
  unfold ve_tune_fields. page_fields. rewrite Hc. byte_by_byte.
Qed.

Lemma expert_keeps data out : bytes data -> length data = EXPERT_TRIGGER_PAGE_BYTES ->
  expert_page_bytes (read_expert_page data) = shown_page (layout PageCodecFamily.ExpertTrigger) data out.
Proof. intros Hb Hl. unfold EXPERT_TRIGGER_PAGE_BYTES in Hl. unfold expert_page_bytes, read_expert_page. byte_by_byte. Qed.

(** ** Reading what was accepted *)
Definition shows (family : PageCodecFamily.t) (page : Z) (n : nat) (s' : t) (data out : list Z) : Prop :=
  read s' page out = (shown_page (layout family) data out ++ drop n out, Some n).

Lemma codec_shown `{PageCodec P} family page (get : t -> P) s' p data out :
  (forall s out, read s page out = ok_len (codec_encode (get s) out)) -> get s' = p ->
  bytes data -> codec_decode data = Ok p -> (codec_len <= length out)%nat -> keeps (layout family) ->
  shows family page codec_len s' data out.
Proof.
  intros Hr Hg Hb Hd Hl Hk. destruct (codec_decode_ok data p Hb Hd) as [Ht _]. destruct (codec_bytes_ok p Ht) as [_ Hn].
  unfold shows. rewrite Hr, Hg, codec_encode_ok, <- (Hk data p out Hb Hd) by done. unfold ok_len. cbn [fst snd]. f_equal.
  rewrite <- app_assoc. f_equal. unfold slice. rewrite <- (take_drop (codec_len - length (codec_bytes p)) (drop (length (codec_bytes p)) out)) at 1.
  rewrite drop_drop. f_equal. f_equal. lia.
Qed.

Lemma table_shown page (get : t -> table) s' family data out :
  (forall s out, read s page out = ok_len (encode_table (get s) out)) -> layout family = [Part.Kept 512] ->
  square (get s') -> table_bytes (get s') = data -> (TABLE_PAGE_BYTES <= length out)%nat ->
  shows family page TABLE_PAGE_BYTES s' data out.
Proof.
  intros Hr Hf Hs Ht Hl. unfold shows. rewrite Hr, Hf, encode_table_ok by done. unfold ok_len, shown_page. cbn [fst snd shown_from Part.shown].
  pose proof (table_bytes_length _ Hs) as Hn. rewrite Hn, Ht. rewrite Ht in Hn.
  change (slice 0 (0 + 512) data) with (take 512 (drop 0 data)). rewrite drop_0, take_ge by (by rewrite Hn). by rewrite app_nil_r.
Qed.

Lemma tune_shown s data p out : bytes data -> decode_tune data = Ok p -> (VE_TUNE_PAGE_BYTES <= length out)%nat ->
  shows PageCodecFamily.VeTune PAGE_VE_TUNE VE_TUNE_PAGE_BYTES (put_tune p s) data out.
Proof.
  intros Hb Hd Hl. destruct (decode_tune_ok data p Hb Hd) as (Ht & _). unfold shows. rewrite <- (tune_keeps data p out Hb Hd).
  pose proof (codec_encode_ok (PageCodec := ve_tune_codec ve_tune_limits eq_refl) p out Ht Hl) as He.
  assert (tune (put_tune p s) = p) as Hg by (by destruct p).
  change (read (put_tune p s) PAGE_VE_TUNE out) with (ok_len (encode_ve_tune_page (tune (put_tune p s)) ve_tune_limits out)).
  rewrite Hg. change (encode_ve_tune_page p ve_tune_limits out) with (codec_encode (PageCodec := ve_tune_codec ve_tune_limits eq_refl) p out).
  by rewrite He.
Qed.

Lemma expert_shown s data x out : bytes data -> expert_record_wf (expert_trigger s) ->
  write_page PAGE_EXPERT_TRIGGER data (expert_trigger s) = (x, Ok tt) -> (EXPERT_TRIGGER_PAGE_BYTES <= length out)%nat ->
  shows PageCodecFamily.ExpertTrigger PAGE_EXPERT_TRIGGER EXPERT_TRIGGER_PAGE_BYTES (s <| expert_trigger := x |>) data out.
Proof.
  intros Hb Hx E Hl. destruct (expert_write_accepted data _ x Hb Hx E) as (Hlen & Hr & _). unfold shows.
  rewrite <- (expert_keeps data out Hb Hlen), <- Hr. apply Nat.ltb_ge in Hl.
  change (read _ PAGE_EXPERT_TRIGGER out) with (read_page x PAGE_EXPERT_TRIGGER out).
  cbn [read_page ExpertTriggerPageState.store]. rewrite Hl, Z.eqb_refl. cbn [negb orb]. by rewrite copy_at_0, Hr, expert_page_bytes_length.
Qed.

Lemma accepted_page_shown s page d data s' out :
  store_wf s -> bytes data -> ts_page_descriptor page = Some d -> write page data s = (s', Ok tt) ->
  (TsPageDescriptor.len d <= length out)%nat ->
  shows (TsPageDescriptor.codec_family d) page (TsPageDescriptor.len d) s' data out.
Proof.
  intros ((Hf & Hi & Hve & Hafr) & _ & _ & Hex) Hb.
  pose proof (proj1 Hf). pose proof (proj1 Hi). pose proof (proj1 Hve). revert page. each_page.
  20: { intros page Hn. by rewrite (proj1 (not_a_page page Hn)). }
  all: intros [= <-] E Hl; cbn [TsPageDescriptor.len TsPageDescriptor.codec_family] in *; revert E.
  16: { rewrite write_expert_eq. destruct (write_page PAGE_EXPERT_TRIGGER data (expert_trigger s)) as [x r] eqn:E. intros [= <- ->].
    by apply expert_shown. }
  18: { rewrite write_afr_eq. destruct (decode_afr_table_page_into data (afr s)) as [c [[]|]] eqn:E; [|done]. intros [= <-].
    destruct (decode_afr_into_ok data (afr s) c Hb (proj1 Hafr) E) as (Hsq & _ & Ht & _). by apply (table_shown PAGE_AFR_TABLE afr). }
  all: write_eq.
  all: try match goal with
  | |- context [store_decoded ?r ?a ?s] =>
    let p := fresh "p" in let E := fresh "E" in destruct (store_decoded_cases r a s) as [(p & E & ->)|(? & _ & ->)]; [|done]
  | |- context [decode_table_into ?rd ?d ?c] =>
    let c' := fresh "c" in let E := fresh "E" in destruct (decode_table_into rd d c) as [c' [[]|]] eqn:E; [|done]
  end; try done; intros [= <-].
  1: destruct (decode_table_into_ok rd_u16 u16 rd_u16_bytes rd_u16_range data (fuel s) c) as (? & _ & ?); [done..|]; by apply (table_shown PAGE_FUEL fuel).
  1: destruct (decode_table_into_ok rd_i16 i16 rd_i16_bytes rd_i16_range data (ign s) c) as (? & _ & ?); [done..|]; by apply (table_shown PAGE_IGN ign).
  12: destruct (decode_table_into_ok rd_u16 u16 rd_u16_bytes rd_u16_range data (ve s) c) as (? & _ & ?); [done..|]; by apply (table_shown PAGE_VE_TABLE ve).
  11: by apply tune_shown.
  1: apply (codec_shown (H := sensors_codec) _ PAGE_SENSORS sensors_setup _ p); auto using sensors_keeps; by destruct p.
  1: apply (codec_shown (H := ae_codec) _ PAGE_AE ae _ p); auto using ae_keeps.
  1: apply (codec_shown (H := dfco_codec) _ PAGE_DFCO dfco _ p); auto using dfco_keeps.
  1: apply (codec_shown (H := limits_codec) _ PAGE_LIMITS limits_setup _ p); auto using limits_keeps; by destruct p.
  1: apply (codec_shown (H := angles_codec) _ PAGE_ANGLES angles_setup _ p); auto using angles_keeps; by destruct p.
  1: apply (codec_shown (H := wue_codec) _ PAGE_WUE wue _ p); auto using wue_keeps.
  2: apply (codec_shown (H := idle_codec) _ PAGE_IDLE idle _ p); auto using idle_keeps.
  2: apply (codec_shown (H := fan_codec) _ PAGE_FAN fan _ p); auto using fan_keeps.
  2: apply (codec_shown (H := cl_codec) _ PAGE_CL cl _ p); auto using cl_keeps.
  apply (codec_shown (H := ase_codec) _ PAGE_ASE (fun s => ase_page_of (ase s)) _ p); auto using ase_keeps.
  destruct (codec_decode_ok (PageCodec := ase_codec) data p Hb E) as [(_ & _ & Hlock) _]. destruct p. unfold ase_page_of, ase_setup_of.
  cbn in *. f_equal. unfold as_unsigned. by rewrite Z.mod_small.
Qed.

(** C28: what was accepted is there: after a write to a listed page was accepted, the page
    reads, byte for byte, as the layout of its family says of the bytes written: a table and
    every field of a setup as they were written, but for flags, which read 0 or 1, the required
    fuel and the dead time of the tune, which are brought into their ranges, and the reserved
    bytes.  What is read, written again, is accepted and changes nothing; and the write left
    what every other page reads as it was, but for those that show the same data ([affects]). *)
Theorem accepted_page_reads_back s page d data s' out :
  store_wf s -> bytes data -> ts_page_descriptor page = Some d -> write page data s = (s', Ok tt) ->
  (TsPageDescriptor.len d <= length out)%nat ->
  let shown := shown_page (layout (TsPageDescriptor.codec_family d)) data out in
  read s' page out = (shown ++ drop (TsPageDescriptor.len d) out, Some (TsPageDescriptor.len d))
  /\ write page shown s' = (s', Ok tt)
  /\ forall q buf, affects page q = false -> read s' q buf = read s q buf.
Proof.
  intros Hwf Hb Hd Hw Hl shown. pose proof (accepted_page_shown s page d data s' out Hwf Hb Hd Hw Hl) as Hr.
  destruct (accepted_page_rereads s page d data s' out Hwf Hb Hd Hw Hl) as (image & Hi & Hlen & Hagain).
  unfold shows in Hr. fold shown in Hr. split; [exact Hr|]. rewrite Hi in Hr. injection Hr as ->. split.
  - rewrite length_app, length_drop in Hlen. by rewrite take_app_length' in Hagain by lia.
  - intros q buf Ha. rewrite <- (ecu_page_writes_isolated s page data q buf Ha). by rewrite Hw.
Qed.

(** ** Example *)
Definition cl_descriptor : TsPageDescriptor.t :=
  TsPageDescriptor.mk PAGE_CL CLOSED_LOOP_PAGE_BYTES true [99; 108] false PageCodecFamily.ClosedLoop.

(** Enabled by a 7, 14.0:1, gains 258 and 772. *)
Lemma accepted_page_reads_back_witness :
  let s' := fst (write PAGE_CL [7; 9; 140; 0; 2; 1; 4; 3] default_store) in
  read s' PAGE_CL (replicate 10 85) = ([1; 0; 140; 0; 2; 1; 4; 3; 85; 85], Some 8%nat)
  /\ write PAGE_CL [1; 0; 140; 0; 2; 1; 4; 3] s' = (s', Ok tt)
  /\ read s' PAGE_FUEL [] = read default_store PAGE_FUEL [].
Proof.
  destruct (accepted_page_reads_back default_store PAGE_CL cl_descriptor [7; 9; 140; 0; 2; 1; 4; 3]
    (fst (write PAGE_CL [7; 9; 140; 0; 2; 1; 4; 3] default_store)) (replicate 10 85)) as (H1 & H2 & H3).
  - exact default_store_wf.
  - repeat constructor; vm_compute; done.
  - reflexivity.
  - vm_compute. reflexivity.
  - apply Nat.leb_le. vm_compute. reflexivity.
  - split; [exact H1|]. split; [exact H2|]. apply H3. reflexivity.
Defined.
