(* ===== verification/TsServer.v ===== *)
(** * The tuning server (crates/ts/src: server.rs, outpc.rs; boards/common/src/ts: service.rs, outpc.rs)

    [Server] answers one request frame of [Serial] from a provider of live data and a store of
    pages, and [TsService] feeds it with the frames of a port.  The classes [OutpcProvider],
    [PageStore] (in [TsStore]) and [BenchToolingOwner] are what the server asks of its owners.
    [TsServed] says what each request does to the store and which reply it gets. *)
From S2P Require Import Prelude Domain Bytes Serial BoardApi ExpertTrigger Sensors TsPages TsCodecs TsStore BoardInputs.

(** ** The block of live data (outpc.rs) *)
Module Outpc.
Record t := mk {
  rpm : Z; map_kpa_x10 : Z; tps_percent : Z; clt_c : Z; iat_c : Z; vbatt_mv : Z; lambda_x100 : Z; pw_us : Z;
  dwell_us : Z; advance_x10 : Z; synced : Z; target_afr_x10 : Z; ego_correction_percent : Z; ego_sensor : Z;
  mapdot_kpa_s : Z; tpsdot_pct_s : Z; inj_duty_x10 : Z; idle_duty_x10 : Z; fan_state : Z; engine_state : Z;
  baro_kpa : Z; gear : Z; vehicle_speed_kph_x10 : Z; maf_x100 : Z; knock_x100 : Z; cam_phase_deg10 : Z;
  cam_phase_valid : Z; sensor_validity_flags : Z }.
#[global] Instance eta : Eta t := fun o => mk (rpm o) (map_kpa_x10 o) (tps_percent o) (clt_c o) (iat_c o) (vbatt_mv o)
  (lambda_x100 o) (pw_us o) (dwell_us o) (advance_x10 o) (synced o) (target_afr_x10 o) (ego_correction_percent o)
  (ego_sensor o) (mapdot_kpa_s o) (tpsdot_pct_s o) (inj_duty_x10 o) (idle_duty_x10 o) (fan_state o) (engine_state o)
  (baro_kpa o) (gear o) (vehicle_speed_kph_x10 o) (maf_x100 o) (knock_x100 o) (cam_phase_deg10 o) (cam_phase_valid o)
  (sensor_validity_flags o).
Definition default : t := mk 0 0 0 0 0 0 0 0 0 0 0 0 0 0 0 0 0 0 0 0 0 0 0 0 0 0 0 0.
Definition WIRE_LEN : nat := 48.

(** Each field and where it is written. *)
Definition fields (o : t) : list (nat * list Z) :=
  [ (0, le16 (rpm o)); (2, le16 (map_kpa_x10 o)); (4, [tps_percent o]); (5, le16 (clt_c o)); (7, le16 (iat_c o));
    (9, le16 (vbatt_mv o)); (11, le16 (lambda_x100 o)); (13, le16 (pw_us o)); (15, le16 (dwell_us o));
    (17, le16 (advance_x10 o)); (19, [synced o]); (20, le16 (target_afr_x10 o)); (22, [ego_correction_percent o]);
    (23, [ego_sensor o]); (24, le16 (mapdot_kpa_s o)); (26, le16 (tpsdot_pct_s o)); (28, le16 (inj_duty_x10 o));
    (30, le16 (idle_duty_x10 o)); (32, [fan_state o]); (33, le16 (engine_state o)); (35, le16 (baro_kpa o));
    (37, [gear o]); (38, le16 (vehicle_speed_kph_x10 o)); (40, le16 (maf_x100 o)); (42, le16 (knock_x100 o));
    (44, le16 (cam_phase_deg10 o)); (46, [cam_phase_valid o]); (47, [sensor_validity_flags o]) ]%nat.
Definition encode (o : t) (out : list Z) : list Z * option nat :=
  if (length out <? WIRE_LEN)%nat then (out, None) else (write_fields (fields o) out, Some WIRE_LEN).
End Outpc.

(** *** The sensors of a board in it (boards/common/src/ts/outpc.rs)

    [clt_c10 / 10] rounds towards zero. *)
Definition fill_outpc_sensor_fields (out : Outpc.t) (s : BoardSensorSnapshot.t) : Outpc.t :=
  let out := out <| Outpc.rpm := BoardSensorSnapshot.rpm s |> in
  let out := out <| Outpc.map_kpa_x10 := BoardSensorSnapshot.map_kpa10 s |> in
  let out := out <| Outpc.tps_percent := as_unsigned 8 (Z.min (BoardSensorSnapshot.tps_x100 s / 100) 100) |> in
  let out := out <| Outpc.clt_c := Z.quot (BoardSensorSnapshot.clt_c10 s) 10 |> in
  let out := out <| Outpc.iat_c := Z.quot (BoardSensorSnapshot.iat_c10 s) 10 |> in
  let out := out <| Outpc.vbatt_mv := BoardSensorSnapshot.vbatt_mv s |> in
  let out := out <| Outpc.baro_kpa := BoardSensorSnapshot.baro_kpa10 s / 10 |> in
  let out := out <| Outpc.vehicle_speed_kph_x10 := BoardSensorSnapshot.vehicle_speed_kph10 s |> in
  let out := out <| Outpc.maf_x100 := BoardSensorSnapshot.maf_x100 s |> in
  let out := out <| Outpc.knock_x100 := BoardSensorSnapshot.knock_x100 s |> in
  let out := out <| Outpc.sensor_validity_flags := BoardSensorSnapshot.validity s |> in
  let out := out <| Outpc.cam_phase_deg10 := default 0 (BoardSensorSnapshot.cam_phase_deg10 s) |> in
  let out := out <| Outpc.cam_phase_valid := match BoardSensorSnapshot.cam_phase_deg10 s with Some _ => 1 | None => 0 end |> in
  if BoardSensorValidityFlags.contains (BoardSensorSnapshot.validity s) BoardSensorValidityFlags.LAMBDA
  then out <| Outpc.lambda_x100 := BoardSensorSnapshot.lambda_x100 s |> else out.
Definition fill_outpc_sensor_fields_from_frame (out : Outpc.t) (frame : SensorFrame.t) : Outpc.t :=
  fill_outpc_sensor_fields out (board_sensor_snapshot_from_frame frame).

(** ** What the server asks of its owners (server.rs) *)
Class OutpcProvider (P : Type) := {
  fill_outpc : P -> Outpc.t -> Outpc.t;
  engine_running : P -> bool }.
(** The method the trait provides. *)
Definition not_running {P} (p : P) : bool := false.

(** A handler of an owner: its state, the reply buffer and the length of the reply. *)
Definition Handler (B : Type) : Type := list Z -> list Z -> B -> B * list Z * option nat.

Class BenchToolingOwner (B : Type) := {
  handle_output_test : Handler B;
  handle_tooth_stats : Handler B;
  handle_tooth_composite_log : Handler B;
  handle_version_info : Handler B;
  handle_compatibility_info : Handler B;
  handle_reboot : Handler B }.

(** [b"ERR"], [b"OK"] and [b"PONG"] *)
Definition ERR : list Z := [69; 82; 82].
Definition OK : list Z := [79; 75].
Definition PONG : list Z := [80; 79; 78; 71].
Definition PERSIST_ERR_RUNNING : list Z := [1; 82; 85; 78].

Module NoBenchTooling.
Inductive t := mk.
Definition refuse_unless (ok : list Z -> bool) (cmd : Cmd.t) : Handler t := fun payload out b =>
  if negb (ok payload) then (b, out, None) else let '(out, r) := encode_reply cmd ERR out in (b, out, r).
Definition is_empty (payload : list Z) : bool := (length payload =? 0)%nat.
#[global] Instance owner : BenchToolingOwner t := {|
  handle_output_test := refuse_unless (fun payload => negb (length payload <? 6)%nat) Cmd.OutputTest;
  handle_tooth_stats := refuse_unless is_empty Cmd.ToothStats;
  handle_tooth_composite_log := refuse_unless is_empty Cmd.ToothCompositeLog;
  handle_version_info := refuse_unless is_empty Cmd.VersionInfo;
  handle_compatibility_info := refuse_unless is_empty Cmd.CompatibilityInfo;
  handle_reboot := refuse_unless is_empty Cmd.Reboot |}.
End NoBenchTooling.

Module NoPages.
Inductive t := mk.
#[global] Instance store : PageStore t := {|
  page_len _ _ := None; read_page _ _ out := (out, None); write_page _ _ s := (s, Err PageError.Invalid);
  burn := burn_unsupported; export_package_wire := export_unsupported; import_package_wire := import_unsupported |}.
End NoPages.

(** ** Replies of the owners (server.rs)

    Each fills an array from its front and sends that part of it. *)
Definition TOOTH_COMPOSITE_LOG_REPLY_VERSION : Z := 1.
Definition TOOTH_COMPOSITE_LOG_MAX_ENTRIES : nat := 16.
Definition TOOTH_COMPOSITE_LOG_HEADER_LEN : nat := 4.
Definition TOOTH_COMPOSITE_LOG_ENTRY_WIRE_LEN : nat := 10.

Module ToothCompositeLogKind.
Inductive t := TriggerEdge | CamEdge.
Definition code (k : t) : Z := match k with TriggerEdge => 0 | CamEdge => 1 end.
End ToothCompositeLogKind.

Module ToothCompositeLogEntry.
Record t := mk { kind : ToothCompositeLogKind.t; flags : Z; rpm : Z; angle_x10 : Z; at_us : Z }.
Definition wire (e : t) : list Z :=
  [ToothCompositeLogKind.code (kind e); flags e] ++ le16 (rpm e) ++ le16 (angle_x10 e) ++ le32 (at_us e).
End ToothCompositeLogEntry.

Definition encode_tooth_composite_log_reply (entries : list ToothCompositeLogEntry.t) (overflow_count : Z) (out : list Z) :
    list Z * option nat :=
  let count := Nat.min (length entries) TOOTH_COMPOSITE_LOG_MAX_ENTRIES in
  encode_reply Cmd.ToothCompositeLog
    ([TOOTH_COMPOSITE_LOG_REPLY_VERSION; as_unsigned 8 (Z.of_nat count)] ++ le16 overflow_count
     ++ concat (map ToothCompositeLogEntry.wire (take count entries))) out.

Definition VERSION_INFO_REPLY_VERSION : Z := 1.
Definition encode_version_info_reply (signature : list Z) (runtime_build_id hardware_target_id : Z) (out : list Z) :
    list Z * option nat :=
  let signature_len := Nat.min (length signature) (Z.to_nat u8_max) in
  if (64 <? signature_len)%nat then (out, None)
  else
    encode_reply Cmd.VersionInfo
      ([VERSION_INFO_REPLY_VERSION] ++ le32 runtime_build_id ++ le16 hardware_target_id
       ++ [as_unsigned 8 (Z.of_nat signature_len)] ++ take signature_len signature) out.

Definition COMPATIBILITY_INFO_REPLY_VERSION : Z := 1.
Module CompatibilityStatusCode.
Inductive t := Compatible | SchemaVersionMismatch | RuntimeBuildMismatch | HardwareTargetMismatch.
Definition code (c : t) : Z :=
  match c with Compatible => 0 | SchemaVersionMismatch => 1 | RuntimeBuildMismatch => 2 | HardwareTargetMismatch => 3 end.
End CompatibilityStatusCode.
Module CompatibilityMigrationCode.
Inductive t := None | MigrationRequired.
Definition code (c : t) : Z := match c with None => 0 | MigrationRequired => 1 end.
End CompatibilityMigrationCode.
Module CompatibilityInfoReport.
Record t := mk {
  status : CompatibilityStatusCode.t; migration : CompatibilityMigrationCode.t; expected_schema_version : Z;
  actual_schema_version : Z; expected_runtime_build_id : Z; actual_runtime_build_id : Z;
  expected_hardware_target_id : Z; actual_hardware_target_id : Z }.
End CompatibilityInfoReport.

Definition encode_compatibility_info_reply (report : CompatibilityInfoReport.t) (out : list Z) : list Z * option nat :=
  let r := report in
  encode_reply Cmd.CompatibilityInfo
    ([COMPATIBILITY_INFO_REPLY_VERSION; CompatibilityStatusCode.code (CompatibilityInfoReport.status r);
      CompatibilityMigrationCode.code (CompatibilityInfoReport.migration r)]
     ++ le16 (CompatibilityInfoReport.expected_schema_version r) ++ le16 (CompatibilityInfoReport.actual_schema_version r)
     ++ le32 (CompatibilityInfoReport.expected_runtime_build_id r) ++ le32 (CompatibilityInfoReport.actual_runtime_build_id r)
     ++ le16 (CompatibilityInfoReport.expected_hardware_target_id r)
     ++ le16 (CompatibilityInfoReport.actual_hardware_target_id r)) out.

Definition PAGE_CRC_INFO_REPLY_VERSION : Z := 1.
Definition PAGE_CRC_INFO_MAX_ENTRIES : nat := TS_PAGE_COUNT.
Definition PAGE_CRC_INFO_HEADER_LEN : nat := 2.
Definition PAGE_CRC_INFO_ENTRY_WIRE_LEN : nat := 8.
Module PageCrcInfoEntry.
Record t := mk { page : Z; len : Z; schema_version : Z; layout_crc : Z; flags : Z }.
Definition wire (e : t) : list Z :=
  [page e] ++ le16 (len e) ++ le16 (schema_version e) ++ le16 (layout_crc e) ++ [flags e].
End PageCrcInfoEntry.

Definition page_crc_info_flags (d : TsPageDescriptor.t) : Z :=
  Z.lor (Z.b2z (TsPageDescriptor.writable d)) (Z.shiftl (Z.b2z (TsPageDescriptor.persisted_setup_page d)) 1).
(** The array has room for every label of the table. *)
Definition page_crc_layout_crc (d : TsPageDescriptor.t) (len schema_version : Z) : Z :=
  frame_crc ([TsPageDescriptor.page d] ++ le16 len ++ le16 schema_version ++ [page_crc_info_flags d] ++ TsPageDescriptor.label d).
Definition page_crc_info_entry (d : TsPageDescriptor.t) (len : Z) : PageCrcInfoEntry.t :=
  let schema_version := default 0 (ts_page_schema_version (TsPageDescriptor.page d)) in
  PageCrcInfoEntry.mk (TsPageDescriptor.page d) len schema_version (page_crc_layout_crc d len schema_version)
    (page_crc_info_flags d).
Definition encode_page_crc_info_reply (entries : list PageCrcInfoEntry.t) (out : list Z) : list Z * option nat :=
  let count := Nat.min (length entries) PAGE_CRC_INFO_MAX_ENTRIES in
  encode_reply Cmd.PageCrcInfo
    ([PAGE_CRC_INFO_REPLY_VERSION; as_unsigned 8 (Z.of_nat count)] ++ concat (map PageCrcInfoEntry.wire (take count entries))) out.

(** ** The server (server.rs) *)
Module ServerStats.
Record t := mk { rx_ok : Z; rx_invalid : Z; read_ok : Z; write_ok : Z; write_err : Z; burn_ok : Z; burn_err : Z }.
#[global] Instance eta : Eta t := fun s =>
  mk (rx_ok s) (rx_invalid s) (read_ok s) (write_ok s) (write_err s) (burn_ok s) (burn_err s).
Definition default : t := mk 0 0 0 0 0 0 0.
(** [saturating_add(1)] *)
Definition inc (count : Z) : Z := saturating_add 32 count 1.
End ServerStats.

Module Server.
Section Server.
Context {P St : Type} `{OutpcProvider P, PageStore St}.

Record t := mk { signature : list Z; provider : P; store : St; stats : ServerStats.t }.
#[global] Instance eta : Eta t := fun s => mk (signature s) (provider s) (store s) (stats s).

Definition new (signature : list Z) (provider : P) (store : St) : t := mk signature provider store ServerStats.default.
Definition reset_stats (s : t) : t := s <| stats := ServerStats.default |>.

(** The server, the reply buffer and the length of the reply; [None] if a slice is out of
    bounds. *)
Definition Answer : Type := option (t * list Z * option nat).

Definition count_read (s : t) : t := s <| stats ::= fun x => x <| ServerStats.read_ok ::= ServerStats.inc |> |>.
Definition count_write_ok (s : t) : t := s <| stats ::= fun x => x <| ServerStats.write_ok ::= ServerStats.inc |> |>.
Definition count_write_err (s : t) : t := s <| stats ::= fun x => x <| ServerStats.write_err ::= ServerStats.inc |> |>.
Definition count_burn_ok (s : t) : t := s <| stats ::= fun x => x <| ServerStats.burn_ok ::= ServerStats.inc |> |>.
Definition count_burn_err (s : t) : t := s <| stats ::= fun x => x <| ServerStats.burn_err ::= ServerStats.inc |> |>.

Definition no_reply (out : list Z) (s : t) : Answer := Some (s, out, None).
Definition reply (cmd : Cmd.t) (payload out : list Z) (s : t) : Answer :=
  let '(out, r) := encode_reply cmd payload out in Some (s, out, r).

Definition PAGE_BUF_LEN : nat := 1024.
Definition PACKAGE_BUF_LEN : nat := 512.

Definition handle_outpc (out : list Z) (s : t) : Answer :=
  let block := fill_outpc (provider s) Outpc.default in
  match Outpc.encode block (replicate Outpc.WIRE_LEN 0) with
  | (encoded, Some len) => reply Cmd.Outpc (take len encoded) out s
  | (_, None) => no_reply out s
  end.

(** The part of a page that is asked for: an offset and a length, or all of it. *)
Definition read_range (payload : list Z) (page_len : nat) : option (nat * nat) :=
  if (length payload =? 5)%nat then
    let offset := Z.to_nat (rd_u16 payload 1) in
    let len := Z.to_nat (rd_u16 payload 3) in
    if (page_len <? offset + len)%nat then None else Some (offset, len)
  else Some (0, page_len)%nat.

Definition handle_read_page (payload out : list Z) (s : t) : Answer :=
  if negb (length payload =? 1)%nat && negb (length payload =? 5)%nat then no_reply out s
  else
    let page := get_byte 0 payload in
    match page_len (store s) page with
    | None => no_reply out s
    | Some len_of_page =>
      match read_range payload len_of_page with
      | None => no_reply out s
      | Some (offset, len) =>
        if (PAGE_BUF_LEN <? len_of_page)%nat then None
        else
          match read_page (store s) page (replicate len_of_page 0) with
          | (_, None) => no_reply out s
          | (buf, Some n) =>
            if (n <? offset + len)%nat then no_reply out s
            else reply Cmd.ReadPage (slice offset (offset + len) buf) out (count_read s)
          end
      end
    end.

(** [stats.write_err += 1; return encode_reply(cmd, b"ERR", out)] *)
Definition refuse_write (cmd : Cmd.t) (out : list Z) (s : t) : Answer := reply cmd ERR out (count_write_err s).
(** The reply to a write that was tried, with the store it left. *)
Definition finish_write (cmd : Cmd.t) (out : list Z) (s : t) (result : St * Result unit PageError.t) : Answer :=
  let s := s <| store := result.1 |> in
  if is_ok result.2 then reply cmd OK out (count_write_ok s) else refuse_write cmd out s.

(** A write of part of a page: the page is read, patched and written whole. *)
Definition patch_page (page : Z) (len_of_page offset : nat) (data out : list Z) (s : t) : Answer :=
  if (len_of_page <? offset + length data)%nat then finish_write Cmd.WritePage out s (store s, Err PageError.WrongSize)
  else if (PAGE_BUF_LEN <? len_of_page)%nat then None
  else
    match read_page (store s) page (replicate len_of_page 0) with
    | (page_buf, Some n) =>
      if (n =? len_of_page)%nat
      then finish_write Cmd.WritePage out s (write_page page (copy_at offset data page_buf) (store s))
      else finish_write Cmd.WritePage out s (store s, Err PageError.Invalid)
    | (_, None) => finish_write Cmd.WritePage out s (store s, Err PageError.Invalid)
    end.

Definition handle_write_page (payload out : list Z) (s : t) : Answer :=
  if (length payload <? 2)%nat then no_reply out s
  else
    let page := get_byte 0 payload in
    if engine_running (provider s) then refuse_write Cmd.WritePage out s
    else
      match page_len (store s) page with
      | None => refuse_write Cmd.WritePage out s
      | Some len_of_page =>
        if (length payload =? len_of_page + 1)%nat
        then finish_write Cmd.WritePage out s (write_page page (drop 1 payload) (store s))
        else if (5 <=? length payload)%nat then
          let offset := Z.to_nat (rd_u16 payload 1) in
          let len := Z.to_nat (rd_u16 payload 3) in
          let data := drop 5 payload in
          if (len =? 0)%nat || negb (length data =? len)%nat then refuse_write Cmd.WritePage out s
          else patch_page page len_of_page offset data out s
        else finish_write Cmd.WritePage out s (store s, Err PageError.WrongSize)
      end.

Definition handle_burn (payload out : list Z) (s : t) : Answer :=
  if negb (length payload =? 0)%nat && negb (length payload =? 1)%nat then no_reply out s
  else if engine_running (provider s) then reply Cmd.Burn PERSIST_ERR_RUNNING out (count_burn_err s)
  else
    let '(store', r) := burn (store s) in
    let s := s <| store := store' |> in
    match r with
    | Ok _ => reply Cmd.Burn OK out (count_burn_ok s)
    | Err PersistError.EngineRunning => reply Cmd.Burn PERSIST_ERR_RUNNING out (count_burn_err s)
    | Err _ => reply Cmd.Burn ERR out (count_burn_err s)
    end.

Definition handle_package_export (payload out : list Z) (s : t) : Answer :=
  if negb (length payload =? 0)%nat then no_reply out s
  else
    match export_package_wire (store s) (replicate PACKAGE_BUF_LEN 0) with
    | (buf, Ok len) =>
      if (PACKAGE_BUF_LEN <? len)%nat then None else reply Cmd.PackageExport (take len buf) out (count_read s)
    | (_, Err _) => reply Cmd.PackageExport ERR out s
    end.

Definition handle_package_import (payload out : list Z) (s : t) : Answer :=
  if (length payload =? 0)%nat then no_reply out s
  else if engine_running (provider s) then refuse_write Cmd.PackageImport out s
  else finish_write Cmd.PackageImport out s (import_package_wire payload (store s)).

(** The entries of the descriptors, until there are as many as the reply holds; [None] if a
    length is no [u16]. *)
Fixpoint page_crc_entries (ds : list TsPageDescriptor.t) (count : nat) (st : St) : option (list PageCrcInfoEntry.t) :=
  match ds with
  | [] => Some []
  | d :: ds =>
    match page_len st (TsPageDescriptor.page d) with
    | None => page_crc_entries ds count st
    | Some len =>
      if u16_max <? Z.of_nat len then None
      else if (count =? PAGE_CRC_INFO_MAX_ENTRIES)%nat then Some []
      else
        match page_crc_entries ds (1 + count) st with
        | None => None
        | Some entries => Some (page_crc_info_entry d (Z.of_nat len) :: entries)
        end
    end
  end.

Definition handle_page_crc_info (payload out : list Z) (s : t) : Answer :=
  if negb (length payload =? 0)%nat then no_reply out s
  else
    match page_crc_entries TS_PAGE_DESCRIPTORS 0 (store s) with
    | None => no_reply out s
    | Some entries => let '(out, r) := encode_page_crc_info_reply entries out in Some (count_read s, out, r)
    end.

Section Bench.
Context {B : Type} `{BenchToolingOwner B}.

Definition by_server (b : B) (a : Answer) : option (t * B * list Z * option nat) :=
  match a with None => None | Some (s, out, r) => Some (s, b, out, r) end.
Definition by_owner (s : t) (a : B * list Z * option nat) : option (t * B * list Z * option nat) :=
  let '(b, out, r) := a in Some (s, b, out, r).

(** The match on the command. *)
Definition dispatch (cmd : Cmd.t) (payload out : list Z) (b : B) (s : t) : option (t * B * list Z * option nat) :=
  match cmd with
  | Cmd.Sig => by_server b (reply Cmd.Sig (signature s) out s)
  | Cmd.Outpc => by_server b (handle_outpc out s)
  | Cmd.Ping => by_server b (reply Cmd.Ping PONG out s)
  | Cmd.ReadPage => by_server b (handle_read_page payload out s)
  | Cmd.WritePage => by_server b (handle_write_page payload out s)
  | Cmd.Burn => by_server b (handle_burn payload out s)
  | Cmd.PackageExport => by_server b (handle_package_export payload out s)
  | Cmd.PackageImport => by_server b (handle_package_import payload out s)
  | Cmd.PageCrcInfo => by_server b (handle_page_crc_info payload out s)
  | Cmd.OutputTest => by_owner s (handle_output_test payload out b)
  | Cmd.ToothStats => by_owner s (handle_tooth_stats payload out b)
  | Cmd.ToothCompositeLog => by_owner s (handle_tooth_composite_log payload out b)
  | Cmd.VersionInfo => by_owner s (handle_version_info payload out b)
  | Cmd.CompatibilityInfo => by_owner s (handle_compatibility_info payload out b)
  | Cmd.Reboot => by_owner s (handle_reboot payload out b)
  end.

Definition handle_with_bench_tooling (req out : list Z) (b : B) (s : t) : option (t * B * list Z * option nat) :=
  match decode_request req with
  | None => Some (s <| stats ::= fun x => x <| ServerStats.rx_invalid ::= ServerStats.inc |> |>, b, out, None)
  | Some (cmd, payload) =>
    dispatch cmd payload out b (s <| stats ::= fun x => x <| ServerStats.rx_ok ::= ServerStats.inc |> |>)
  end.
End Bench.

Definition handle (req out : list Z) (s : t) : Answer :=
  match handle_with_bench_tooling req out NoBenchTooling.mk s with
  | None => None
  | Some (s, _, out, r) => Some (s, out, r)
  end.
End Server.
#[global] Arguments t : clear implicits.
End Server.

(** ** The service of a port (boards/common/src/ts/service.rs) *)

(** The bytes that a read of at most that many gives, and how many a write took. *)
Class SerialPort (SP : Type) := {
  port_read : nat -> SP -> SP * list Z;
  port_write : list Z -> SP -> SP * nat }.

Module TsServiceStats.
Record t := mk { serial_write_failures : Z; last_serial_write_expected : nat; last_serial_write_actual : nat }.
#[global] Instance eta : Eta t := fun s =>
  mk (serial_write_failures s) (last_serial_write_expected s) (last_serial_write_actual s).
Definition default : t := mk 0 0 0.
End TsServiceStats.

Module TsService.
Section Service.
Context {P St SP : Type} `{OutpcProvider P, PageStore St, SerialPort SP}.

Record t := mk {
  server : Server.t P St; asm : FrameAssembler.t; inbuf : list Z; out : list Z; stats : TsServiceStats.t }.
#[global] Instance eta : Eta t := fun s => mk (server s) (asm s) (inbuf s) (out s) (stats s).

Definition SERVICE_BUF_LEN : nat := 512.
Definition new (signature : list Z) (provider : P) (store : St) : t :=
  mk (Server.new signature provider store) FrameAssembler.new (replicate SERVICE_BUF_LEN 0) (replicate SERVICE_BUF_LEN 0)
    TsServiceStats.default.
Definition reset_stats (s : t) : t := s <| stats := TsServiceStats.default |>.

Definition poll_port (port : SP) (s : t) : SP * t :=
  let '(port, data) := port_read 128 port in
  (port, s <| asm ::= FrameAssembler.poll_port (fun _ => data) |>).

(** The reply is written; a write that took less is counted. *)
Definition send_reply (mr : nat) (port : SP) (s : t) : SP * t :=
  let '(port, written) := port_write (take mr (out s)) port in
  if negb (written =? mr)%nat then
    (port, s <| stats ::= fun x => TsServiceStats.mk (saturating_add 32 (TsServiceStats.serial_write_failures x) 1) mr written |>)
  else (port, s).

(** [self.server.handle(&self.inbuf[..len], &mut self.out)] and the reply. *)
Definition serve_frame (len : nat) (port : SP) (s : t) : option (SP * t) :=
  match Server.handle (take len (inbuf s)) (out s) (server s) with
  | None => None
  | Some (server', out', r) =>
    let s := s <| server := server' |> <| out := out' |> in
    Some match r with Some mr => send_reply mr port s | None => (port, s) end
  end.

(** The loop [while budget > 0]. *)
Fixpoint pump (budget : nat) (port : SP) (s : t) : option (SP * t) :=
  match budget with
  | O => Some (port, s)
  | S budget =>
    let '(asm', inbuf', popped) := FrameAssembler.try_pop (inbuf s) (asm s) in
    let s := s <| asm := asm' |> <| inbuf := inbuf' |> in
    match popped with
    | None => Some (port, s)
    | Some len =>
      match serve_frame len port s with
      | None => None
      | Some (port, s) => pump budget port s
      end
    end
  end.
Definition pump_with_budget (budget : nat) (port : SP) (s : t) : option (SP * t) :=
  let '(port, s) := poll_port port s in pump budget port s.

Definition handle_frame_with_bench_tooling {B} `{BenchToolingOwner B} (frame out : list Z) (b : B) (s : t) :
    option (t * B * list Z * option nat) :=
  match Server.handle_with_bench_tooling frame out b (server s) with
  | None => None
  | Some (server', b, out, r) => Some (s <| server := server' |>, b, out, r)
  end.
Definition handle_frame (frame out : list Z) (s : t) : option (t * list Z * option nat) :=
  match Server.handle frame out (server s) with
  | None => None
  | Some (server', out, r) => Some (s <| server := server' |>, out, r)
  end.
End Service.
#[global] Arguments t : clear implicits.
End TsService.
