(* ===== verification/TsServed.v ===== *)
(** * What the tuning server does with a request

    The theorems on [Server] and [TsService] of [TsServer]: against the laws [PageStoreLaws] of
    a store, that no request makes the server fail, what a running engine refuses, and that the
    service answers the requests of its stream; for the store of all pages, that what is written
    over the wire is read back. *)
From S2P Require Import Prelude Domain Bytes Serial BoardApi ExpertTrigger Sensors TsPages TsCodecs TsStore BoardInputs TsServer.
Import Server.

(** ** What the server relies on *)
Class PageStoreLaws (St : Type) `{PageStore St} (wf : St -> Prop) := {
  page_len_room s page n : page_len s page = Some n -> (n <= PAGE_BUF_LEN)%nat;
  export_room s buf n : export_package_wire s (replicate PACKAGE_BUF_LEN 0) = (buf, Ok n) -> (n <= PACKAGE_BUF_LEN)%nat;
  read_page_bytes s page n : wf s -> page_len s page = Some n ->
    bytes (fst (read_page s page (replicate n 0))) \/ forall data, wf (fst (write_page page data s));
  write_page_wf s page data : wf s -> bytes data -> wf (fst (write_page page data s));
  import_wf s data : wf s -> bytes data -> wf (fst (import_package_wire data s));
  burn_wf s : wf s -> wf (fst (burn s)) }.

Lemma bytes_replicate n : bytes (replicate n 0).
Proof. apply Forall_replicate. by split. Qed.

Lemma bytes_copy_at off src out : bytes src -> bytes out -> bytes (copy_at off src out).
Proof. intros Hs Ho. unfold copy_at. apply Forall_app_2; [by apply Forall_take|]. apply Forall_app_2; [done|by apply Forall_drop]. Qed.

#[export] Instance no_pages_laws : PageStoreLaws NoPages.t (fun _ => True).
Proof. split; try done. Qed.

#[export] Instance ecu_page_store_laws : PageStoreLaws EcuPageStore.t store_wf.
Proof.
  assert (forall s page n, page_len (S := EcuPageStore.t) s page = Some n ->
    exists d, ts_page_descriptor page = Some d /\ TsPageDescriptor.len d = n) as Hd.
  { intros s page n. change (page_len s page) with (TsPageDescriptor.len <$> ts_page_descriptor page).
    destruct (ts_page_descriptor page) as [d|]; [|done]. intros [= <-]. by exists d. }
  split; try done.
  - intros s page n Hp. destruct (Hd s page n Hp) as (d & Hf & <-). unfold ts_page_descriptor in Hf.
    apply find_some in Hf as [Hin _]. apply Nat.leb_le.
    assert (forallb (fun d => (TsPageDescriptor.len d <=? PAGE_BUF_LEN)%nat) TS_PAGE_DESCRIPTORS = true) as Hall by (vm_compute; reflexivity).
    rewrite forallb_forall in Hall. by apply Hall.
  - intros s page n Hs Hp. destruct (Hd s page n Hp) as (d & Hf & <-).
    destruct (page_readable s page d (replicate (TsPageDescriptor.len d) 0) Hs Hf) as (image & Hr & _ & Hb); [by rewrite length_replicate|].
    change (read_page s page) with (EcuPageStore.read s page). rewrite Hr.
    destruct (EcuPageStore.one_of page READ_ONLY_PAGES) eqn:E; [right|left; apply Hb; [apply bytes_replicate|done]].
    intros data. change (write_page page data s) with (EcuPageStore.write page data s). by rewrite write_read_only.
  - intros s page data. apply page_writes_keep_wf.
Qed.

(** ** Replies *)

(** What a request is answered: nothing, or a frame, if there is room for it. *)
Definition sent (answer : option (Cmd.t * list Z)) (out : list Z) : list Z * option nat :=
  match answer with None => (out, None) | Some (cmd, payload) => encode_reply cmd payload out end.

(** ** Every request, one by one *)
Section Handlers.
Context {P St : Type} `{OutpcProvider P} `{PageStoreLaws St wf}.
Implicit Types s : t P St.

(** What is common to all: the answer is made without looking at the reply buffer, nothing but
    the store and the counters changes, and of a running engine not the store either. *)
Definition handled (cmd : Cmd.t) (h : list Z -> Answer (P := P) (St := St)) (s : t P St) : Prop :=
  exists s' answer,
    (forall out, h out = Some (s', (sent answer out).1, (sent answer out).2))
    /\ signature s' = signature s /\ provider s' = provider s /\ (wf (store s) -> wf (store s'))
    /\ (engine_running (provider s) = true -> store s' = store s)
    /\ match answer with Some (c, _) => c = cmd | None => True end.

(** [s'] is [s] but for its counters. *)
Definition same_setup (s s' : t P St) : Prop :=
  signature s' = signature s /\ provider s' = provider s /\ store s' = store s.

Lemma handled_store cmd payload s s' : signature s' = signature s -> provider s' = provider s ->
  (wf (store s) -> wf (store s')) -> (engine_running (provider s) = true -> store s' = store s) ->
  handled cmd (fun out => reply cmd payload out s') s.
Proof.
  intros. exists s', (Some (cmd, payload)). split; [|by split_and!].
  intros out. unfold reply. cbn [sent]. by destruct (encode_reply cmd payload out).
Qed.

Lemma handled_reply cmd payload s s' : same_setup s s' -> handled cmd (fun out => reply cmd payload out s') s.
Proof. intros (? & ? & E). by apply handled_store; rewrite ?E. Qed.

Lemma handled_none cmd s : handled cmd (fun out => no_reply out s) s.
Proof. by exists s, None. Qed.

(** A handler that was asked after others had been counted. *)
Lemma handled_from cmd h s s' : same_setup s s' -> handled cmd h s' -> handled cmd h s.
Proof.
  intros (Es & Ep & Et) (s2 & a & Ha & Hs & Hp & Hw & Hr & Hc). exists s2, a. rewrite Es, Ep, Et in *. by split_and!.
Qed.

Lemma handled_finish cmd s st r : (wf (store s) -> wf st) -> (engine_running (provider s) = true -> st = store s) ->
  handled cmd (fun out => finish_write cmd out s (st, r)) s.
Proof.
  intros Hw Hr. unfold finish_write, refuse_write. cbn [fst snd]. by destruct r; apply handled_store.
Qed.

Lemma handled_outpc s : handled Cmd.Outpc (fun out => handle_outpc out s) s.
Proof.
  unfold handle_outpc, Outpc.encode. rewrite length_replicate, Nat.ltb_irrefl. by apply handled_reply.
Qed.

Lemma handled_read_page payload s : handled Cmd.ReadPage (fun out => handle_read_page payload out s) s.
Proof.
  unfold handle_read_page. destruct (negb _ && negb _); [apply handled_none|]. cbv zeta.
  destruct (page_len (store s) _) as [n|] eqn:En; [|apply handled_none].
  destruct (read_range payload n) as [[offset len]|]; [|apply handled_none].
  apply page_len_room in En. apply Nat.ltb_ge in En as ->.
  destruct (read_page (store s) _ _) as [buf [m|]]; [|apply handled_none].
  destruct (m <? _)%nat; [apply handled_none|]. by apply handled_reply.
Qed.

Lemma handled_write_page payload s : bytes payload -> handled Cmd.WritePage (fun out => handle_write_page payload out s) s.
Proof.
  intros Hb. unfold handle_write_page. destruct (_ <? 2)%nat; [apply handled_none|]. cbv zeta. unfold refuse_write at 1 2 3.
  destruct (engine_running (provider s)) eqn:Hr; [by apply handled_reply|].
  assert (forall st : St, engine_running (provider s) = true -> st = store s) as Hrun by (rewrite Hr; done).
  destruct (page_len (store s) _) as [n|] eqn:En; [|by apply handled_reply].
  destruct (_ =? n + 1)%nat.
  { destruct (write_page _ (drop 1 payload) (store s)) as [st r] eqn:Ew. apply handled_finish; [|apply Hrun].
    intros Hw. apply (f_equal fst) in Ew. cbn in Ew. subst st. apply write_page_wf; [done|by apply Forall_drop]. }
  destruct (5 <=? length payload)%nat; [|by apply handled_finish].
  destruct (_ || _); [by apply handled_reply|]. unfold patch_page. destruct (n <? _)%nat; [by apply handled_finish|].
  pose proof (page_len_room _ _ _ En) as Hn. apply Nat.ltb_ge in Hn as ->.
  destruct (read_page (store s) _ _) as [buf [m|]] eqn:Ebuf; [|by apply handled_finish].
  destruct (m =? n)%nat; [|by apply handled_finish].
  destruct (write_page _ (copy_at _ _ _) (store s)) as [st r] eqn:Ew. apply handled_finish; [|apply Hrun].
  intros Hw. apply (f_equal fst) in Ew. cbn in Ew. subst st.
  destruct (read_page_bytes _ _ _ Hw En) as [Hbuf|Hsame]; [|apply Hsame].
  rewrite Ebuf in Hbuf. apply write_page_wf; [done|]. apply bytes_copy_at; [by apply Forall_drop|done].
Qed.

Lemma handled_burn payload s : handled Cmd.Burn (fun out => handle_burn payload out s) s.
Proof.
  unfold handle_burn. destruct (negb _ && negb _); [apply handled_none|].
  destruct (engine_running (provider s)) eqn:Hr; [by apply handled_reply|].
  pose proof (burn_wf (store s)) as Hb. destruct (burn (store s)) as [st r]. cbn [fst] in Hb.
  by destruct r as [|[]]; apply handled_store; rewrite ?Hr.
Qed.

Lemma handled_export payload s : handled Cmd.PackageExport (fun out => handle_package_export payload out s) s.
Proof.
  unfold handle_package_export. destruct (negb _); [apply handled_none|].
  destruct (export_package_wire _ _) as [buf [n|e]] eqn:E; [|by apply handled_reply].
  apply export_room in E. apply Nat.ltb_ge in E as ->. by apply handled_reply.
Qed.

Lemma handled_import payload s : bytes payload -> handled Cmd.PackageImport (fun out => handle_package_import payload out s) s.
Proof.
  intros Hb. unfold handle_package_import. destruct (_ =? 0)%nat; [apply handled_none|]. unfold refuse_write.
  destruct (engine_running (provider s)) eqn:Hr; [by apply handled_reply|].
  pose proof (fun Hw => import_wf (store s) payload Hw Hb) as Hi.
  destruct (import_package_wire payload (store s)) as [st r]. apply handled_finish; [done|by rewrite Hr].
Qed.

Lemma handled_crc_info payload s : handled Cmd.PageCrcInfo (fun out => handle_page_crc_info payload out s) s.
Proof.
  unfold handle_page_crc_info. destruct (negb _); [apply handled_none|].
  destruct (page_crc_entries _ _ _) as [entries|]; [|apply handled_none].
  unfold encode_page_crc_info_reply. cbv zeta. by apply (handled_reply _ _ s (count_read s)).
Qed.
End Handlers.

(** ** Requests *)
Lemma decoded_bytes req cmd payload : bytes req -> decode_request req = Some (cmd, payload) -> bytes payload.
Proof.
  intros Hb. unfold decode_request. cbv zeta. repeat (destruct (_ : bool); [done|]).
  destruct (Cmd.of_code _); [|done]. intros [= _ <-]. by apply Forall_take, Forall_drop.
Qed.

Section Requests.
Context {P St B : Type} `{OutpcProvider P} `{PageStoreLaws St wf} `{BenchToolingOwner B}.
Implicit Types s : t P St.

(** A command is for the server, or for the owner of the bench tools. *)
Definition for_owner (cmd : Cmd.t) : bool :=
  match cmd with
  | Cmd.OutputTest | Cmd.ToothStats | Cmd.ToothCompositeLog | Cmd.VersionInfo | Cmd.CompatibilityInfo | Cmd.Reboot => true
  | _ => false
  end.

Lemma dispatch_owner cmd payload out (b : B) s : for_owner cmd = true ->
  exists b' out' r, dispatch cmd payload out b s = Some (s, b', out', r).
Proof.
  destruct cmd; try done; intros _; cbn [dispatch];
    match goal with |- context [by_owner _ ?a] => destruct a as [[b' out'] r]; by exists b', out', r end.
Qed.

Lemma dispatch_server cmd payload s : bytes payload -> for_owner cmd = false ->
  exists h, handled (wf := wf) cmd h s /\ forall (b : B) out, dispatch cmd payload out b s = by_server b (h out).
Proof.
  intros Hb. destruct cmd; try done; intros _; cbn [dispatch]; eexists; (split; [|done]);
    eauto using handled_outpc, handled_read_page, handled_write_page, handled_burn, handled_export, handled_import,
      handled_crc_info.
  - by apply handled_reply.
  - by apply handled_reply.
Qed.

(** No request makes the server fail, whoever owns the bench tools. *)
Lemma request_handled req out (b : B) s : bytes req ->
  exists s' b' out' r, handle_with_bench_tooling req out b s = Some (s', b', out', r)
  /\ signature s' = signature s /\ provider s' = provider s /\ (wf (store s) -> wf (store s'))
  /\ (engine_running (provider s) = true -> store s' = store s).
Proof.
  intros Hb. unfold handle_with_bench_tooling. destruct (decode_request req) as [[cmd payload]|] eqn:Ed.
  2: { by eexists _, b, out, None. }
  pose proof (decoded_bytes _ _ _ Hb Ed) as Hp. set (s1 := s <| stats ::= _ |>).
  destruct (for_owner cmd) eqn:Ef.
  - destruct (dispatch_owner cmd payload out b s1 Ef) as (b' & out' & r & ->). by exists s1, b', out', r.
  - destruct (dispatch_server cmd payload s1 Hp Ef) as (h & (s' & a & Ha & ? & ? & ? & ? & _) & ->).
    rewrite Ha. exists s', b. by eexists _, _.
Qed.
End Requests.

(** ** Runs of the server *)
Section Runs.
Context {P St : Type} `{OutpcProvider P} `{PageStoreLaws St wf}.
Implicit Types s : t P St.

(** Requests, each with the buffer for its reply; [None] if the server failed. *)
Fixpoint serve_all (reqs : list (list Z * list Z)) (s : t P St) : option (t P St) :=
  match reqs with
  | [] => Some s
  | (req, out) :: reqs =>
    match handle req out s with None => None | Some (s', _, _) => serve_all reqs s' end
  end.

Lemma handle_ok req out s : bytes req -> exists s' out' r, handle req out s = Some (s', out', r)
  /\ signature s' = signature s /\ provider s' = provider s /\ (wf (store s) -> wf (store s'))
  /\ (engine_running (provider s) = true -> store s' = store s).
Proof.
  intros Hb. destruct (request_handled req out NoBenchTooling.mk s Hb) as (s' & b' & out' & r & E & Hrest).
  exists s', out', r. unfold handle. by rewrite E.
Qed.

Lemma serve_all_ok reqs s : wf (store s) -> Forall (fun q => bytes q.1) reqs ->
  exists s', serve_all reqs s = Some s' /\ wf (store s') /\ provider s' = provider s
    /\ (engine_running (provider s) = true -> store s' = store s).
Proof.
  intros Hw Hb. revert s Hw. induction Hb as [|[req out] reqs Hq _ IH]; intros s Hw; [by exists s|]. cbn [serve_all].
  destruct (handle_ok req out s Hq) as (s1 & out' & r & -> & _ & Ep & Hw1 & Hr).
  destruct (IH s1 (Hw1 Hw)) as (s' & Hs' & Hw' & Ep' & Hr'). exists s'. rewrite Ep in *. split_and!; try done.
  intros Hrun. by rewrite Hr', Hr.
Qed.

(** C6: the tuning server survives its input: no sequence of frames, whatever their bytes, makes
    it fail, and after it the store is as well-formed as before; while the engine runs the
    store is not changed at all. *)
Theorem server_run_safe reqs s : wf (store s) -> Forall (fun q => bytes q.1) reqs ->
  exists s', serve_all reqs s = Some s' /\ wf (store s') /\ provider s' = provider s
    /\ (engine_running (provider s) = true -> store s' = store s).
Proof. apply serve_all_ok. Qed.
End Runs.

(** *** A running engine *)
Section Running.
Context {P St B : Type} `{OutpcProvider P} `{PageStoreLaws St wf} `{BenchToolingOwner B}.
Implicit Types s : t P St.

(** C7: while the engine runs every request that would change the tune is refused, by its own
    answer, and the store keeps its state, whoever owns the bench tools: a page write and the
    import of a package are answered ERR, a burn with the code and the letters RUN. *)
Theorem running_engine_refuses req cmd payload out (b : B) s : bytes req -> decode_request req = Some (cmd, payload) ->
  engine_running (provider s) = true ->
  exists s' b' out' r, handle_with_bench_tooling req out b s = Some (s', b', out', r) /\ store s' = store s
  /\ (cmd = Cmd.WritePage -> (2 <= length payload)%nat -> (out', r) = encode_reply Cmd.WritePage ERR out)
  /\ (cmd = Cmd.PackageImport -> (1 <= length payload)%nat -> (out', r) = encode_reply Cmd.PackageImport ERR out)
  /\ (cmd = Cmd.Burn -> (length payload <= 1)%nat -> (out', r) = encode_reply Cmd.Burn PERSIST_ERR_RUNNING out).
Proof.
  intros Hb Ed Hrun. destruct (request_handled req out b s Hb) as (s' & b' & out' & r & E & _ & _ & _ & Hst).
  exists s', b', out', r. split; [done|]. split; [by apply Hst|]. revert E. unfold handle_with_bench_tooling. rewrite Ed.
  set (s1 := s <| stats ::= _ |>). change (engine_running (provider s1) = true) in Hrun.
  split; [|split]; intros -> Hl; revert E; cbn [dispatch].
  - unfold handle_write_page. destruct (Nat.ltb_spec (length payload) 2); [lia|]. rewrite Hrun.
    unfold refuse_write, reply. destruct (encode_reply _ _ _). cbn. by intros [= _ _ -> ->].
  - unfold handle_package_import. destruct (Nat.eqb_spec (length payload) 0); [lia|]. rewrite Hrun.
    unfold refuse_write, reply. destruct (encode_reply _ _ _). cbn. by intros [= _ _ -> ->].
  - unfold handle_burn. destruct (Nat.eqb_spec (length payload) 0), (Nat.eqb_spec (length payload) 1); try lia;
      cbn [negb andb]; rewrite Hrun; unfold reply; destruct (encode_reply _ _ _); cbn; by intros [= _ _ -> ->].
Qed.
End Running.

(** ** Patches over the wire *)
Definition UNCHECKED_TABLES : list Z := [PAGE_FUEL; PAGE_IGN; PAGE_VE_TABLE].

(** A table whose cells may have any value takes any bytes, and reads as them. *)
Definition takes_bytes (page : Z) (data : list Z) (st : EcuPageStore.t) : Prop :=
  exists st', EcuPageStore.write page data st = (st', Ok tt) /\ store_wf st'
  /\ forall out, (TABLE_PAGE_BYTES <= length out)%nat ->
       EcuPageStore.read st' page out = (data ++ drop TABLE_PAGE_BYTES out, Some TABLE_PAGE_BYTES).

Lemma table_takes_bytes page (get : EcuPageStore.t -> table) (put : table -> EcuPageStore.t -> EcuPageStore.t) rd (ok : Z -> Prop) data st :
  (forall data s, EcuPageStore.write page data s = let '(c, r) := decode_table_into rd data (get s) in (put c s, map_page_err r)) ->
  (forall s out, EcuPageStore.read s page out = ok_len (encode_table (get s) out)) -> (forall c s, get (put c s) = c) ->
  (forall data off, bytes data -> le16 (rd data off) = [get_byte off data; get_byte (off + 1) data]) ->
  (forall data off, bytes data -> ok (rd data off)) ->
  store_wf st -> square (get st) -> bytes data -> length data = TABLE_PAGE_BYTES -> takes_bytes page data st.
Proof.
  intros Hw Hr Hg H2 H3 Hst Hs Hb Hl.
  assert (exists c, decode_table_into rd data (get st) = (c, Ok tt)) as [c Hd].
  { unfold decode_table_into. rewrite Hl, Nat.eqb_refl. by eexists. }
  destruct (decode_table_into_ok rd ok H2 H3 data _ _ Hb Hs Hd) as (Hc & _ & Ht).
  assert (EcuPageStore.write page data st = (put c st, Ok tt)) as Ew by (by rewrite Hw, Hd).
  exists (put c st). split; [done|]. split.
  { change (put c st) with (fst (put c st, @Ok unit PageError.t tt)). rewrite <- Ew. by apply page_writes_keep_wf. }
  intros out Ho. rewrite Hr, Hg, encode_table_ok by done. unfold ok_len. cbn [fst snd]. by rewrite Ht, Hl.
Qed.

Lemma unchecked_table page data st : In page UNCHECKED_TABLES -> store_wf st -> bytes data -> length data = TABLE_PAGE_BYTES ->
  takes_bytes page data st.
Proof.
  intros [<-|[<-|[<-|[]]]] Hst; pose proof (proj1 Hst) as ([Hf _] & [Hi _] & [Hve _] & _).
  - apply (table_takes_bytes PAGE_FUEL EcuPageStore.fuel (fun c s => s <| EcuPageStore.fuel := c |>) rd_u16 u16);
      eauto using write_fuel_eq, rd_u16_bytes, rd_u16_range.
  - apply (table_takes_bytes PAGE_IGN EcuPageStore.ign (fun c s => s <| EcuPageStore.ign := c |>) rd_i16 i16);
      eauto using write_ign_eq, rd_i16_bytes, rd_i16_range.
  - apply (table_takes_bytes PAGE_VE_TABLE EcuPageStore.ve (fun c s => s <| EcuPageStore.ve := c |>) rd_u16 u16);
      eauto using write_ve_eq, rd_u16_bytes, rd_u16_range.
Qed.

Definition u16_bytes (n : nat) : list Z := le16 (Z.of_nat n).
(** The requests of a tuning program: to read a page, and to write part of one. *)
Definition read_request (page : Z) : list Z := frame Cmd.ReadPage [page].
Definition patch_request (page : Z) (offset : nat) (data : list Z) : list Z :=
  frame Cmd.WritePage (page :: u16_bytes offset ++ u16_bytes (length data) ++ data).

(** What the page becomes: the patch in its place, but one that is four bytes short of the page
    makes a request as long as that for the whole page, and is taken for it. *)
Definition patched (offset : nat) (data old : list Z) : list Z :=
  if (length data + 4 =? TABLE_PAGE_BYTES)%nat then u16_bytes offset ++ u16_bytes (length data) ++ data
  else copy_at offset data old.

Lemma handle_frame_cmd {P St} `{OutpcProvider P, PageStore St} cmd payload out (s : t P St) : payload_ok payload ->
  handle (frame cmd payload) out s =
  match dispatch cmd payload out NoBenchTooling.mk (s <| stats ::= fun x => x <| ServerStats.rx_ok ::= ServerStats.inc |> |>) with
  | None => None
  | Some (s, _, out, r) => Some (s, out, r)
  end.
Proof.
  intros Hp. unfold handle, handle_with_bench_tooling. pose proof (decode_frame cmd payload [] Hp) as E.
  rewrite app_nil_r in E. by rewrite E.
Qed.

Lemma patch_fields page offset (data : list Z) : (offset <= TABLE_PAGE_BYTES)%nat -> (length data <= TABLE_PAGE_BYTES)%nat ->
  let payload := page :: u16_bytes offset ++ u16_bytes (length data) ++ data in
  rd_u16 payload 1 = Z.of_nat offset /\ rd_u16 payload 3 = Z.of_nat (length data).
Proof.
  intros Ho Hd. assert (Z.of_nat TABLE_PAGE_BYTES = 512) as E by (vm_compute; reflexivity). cbv zeta. split.
  - apply (rd_u16_app 1 [page]); [done|]. unfold fits. lia.
  - apply (rd_u16_app 3 (page :: u16_bytes offset)); [done|]. unfold fits. lia.
Qed.

Section Wire.
Context {P : Type} `{OutpcProvider P}.
Implicit Types s : t P EcuPageStore.t.

Lemma table_page_len page st : In page UNCHECKED_TABLES -> page_len (S := EcuPageStore.t) st page = Some TABLE_PAGE_BYTES.
Proof. by intros [<-|[<-|[<-|[]]]]. Qed.

Lemma table_page_read page st : In page UNCHECKED_TABLES -> store_wf st ->
  exists old, EcuPageStore.read st page (replicate TABLE_PAGE_BYTES 0) = (old, Some TABLE_PAGE_BYTES)
  /\ length old = TABLE_PAGE_BYTES /\ bytes old.
Proof.
  intros Hin Hst. assert (exists d, ts_page_descriptor page = Some d /\ TsPageDescriptor.len d = TABLE_PAGE_BYTES
    /\ EcuPageStore.one_of page READ_ONLY_PAGES = false) as (d & Hd & Hl & Hro).
  { by destruct Hin as [<-|[<-|[<-|[]]]]; eexists. }
  destruct (page_readable st page d (replicate TABLE_PAGE_BYTES 0) Hst Hd) as (old & Hr & Hlen & Hb); [by rewrite Hl, length_replicate|].
  rewrite length_replicate in Hlen. rewrite Hl in Hr. exists old. split; [done|]. split; [done|]. apply Hb; [apply bytes_replicate|done].
Qed.

(** The write, as the store sees it. *)
Lemma patch_written page offset data out s old : In page UNCHECKED_TABLES -> store_wf (store s) -> bytes data ->
  engine_running (provider s) = false -> (0 < length data)%nat -> (offset + length data <= TABLE_PAGE_BYTES)%nat ->
  EcuPageStore.read (store s) page (replicate TABLE_PAGE_BYTES 0) = (old, Some TABLE_PAGE_BYTES) ->
  handle_write_page (page :: u16_bytes offset ++ u16_bytes (length data) ++ data) out s
  = finish_write Cmd.WritePage out s (EcuPageStore.write page (patched offset data old) (store s)).
Proof.
  intros Hin Hst Hb Hrun Hl Ho Hold. assert (TABLE_PAGE_BYTES <= PAGE_BUF_LEN)%nat as Hroom by (apply Nat.leb_le; vm_compute; reflexivity).
  destruct (patch_fields page offset data) as [E1 E3]; [lia..|]. cbv zeta in E1, E3.
  assert (length (page :: u16_bytes offset ++ u16_bytes (length data) ++ data) = length data + 5)%nat as Elen
    by (cbn [length]; rewrite !length_app; cbn [length u16_bytes le16]; lia).
  unfold handle_write_page. rewrite Elen, Hrun. destruct (Nat.ltb_spec (length data + 5) 2); [lia|]. cbv zeta.
  change (get_byte 0 (page :: ?l)) with page. rewrite table_page_len by done. unfold patched.
  destruct (Nat.eqb_spec (length data + 4) TABLE_PAGE_BYTES), (Nat.eqb_spec (length data + 5) (TABLE_PAGE_BYTES + 1)); try lia; [done|].
  destruct (Nat.leb_spec 5 (length data + 5)); [|lia]. rewrite E1, E3, !Nat2Z.id.
  change (drop 5 (page :: u16_bytes offset ++ u16_bytes (length data) ++ data)) with data.
  destruct (Nat.eqb_spec (length data) 0); [lia|]. rewrite Nat.eqb_refl. cbn [negb orb]. unfold patch_page.
  destruct (Nat.ltb_spec TABLE_PAGE_BYTES (offset + length data)); [lia|]. destruct (Nat.ltb_spec PAGE_BUF_LEN TABLE_PAGE_BYTES); [lia|].
  change (read_page (store s) page) with (EcuPageStore.read (store s) page). by rewrite Hold, Nat.eqb_refl.
Qed.

Lemma page_request_read page out s image : In page UNCHECKED_TABLES ->
  EcuPageStore.read (store s) page (replicate TABLE_PAGE_BYTES 0) = (image, Some TABLE_PAGE_BYTES) -> length image = TABLE_PAGE_BYTES ->
  handle_read_page [page] out s = reply Cmd.ReadPage image out (count_read s).
Proof.
  intros Hin Hr Hl. assert (TABLE_PAGE_BYTES <= PAGE_BUF_LEN)%nat as Hroom by (apply Nat.leb_le; vm_compute; reflexivity).
  unfold handle_read_page. cbn [length Nat.eqb negb andb]. cbv zeta. change (get_byte 0 [page]) with page.
  rewrite table_page_len by done. unfold read_range. cbn [length Nat.eqb].
  destruct (Nat.ltb_spec PAGE_BUF_LEN TABLE_PAGE_BYTES); [lia|].
  change (read_page (store s) page) with (EcuPageStore.read (store s) page). rewrite Hr.
  destruct (Nat.ltb_spec TABLE_PAGE_BYTES (0 + TABLE_PAGE_BYTES)); [lia|]. f_equal. unfold slice.
  rewrite drop_0, Nat.add_0_l, Nat.sub_0_r. apply take_ge. lia.
Qed.

Lemma bytes_u16 n : bytes (u16_bytes n).
Proof. apply le16_bytes. Qed.

(** C30: a tuning program edits a table over the wire: a request to write part of the fuel,
    ignition or volumetric table is answered OK, and a request to read the page is then answered
    with the old contents and the new bytes in their place; but a part that is four bytes short
    of the page is taken for a page, of which its offset and length are the first four bytes. *)
Theorem patched_table_reads_back page offset data out1 out2 s :
  In page UNCHECKED_TABLES -> store_wf (store s) -> bytes data -> engine_running (provider s) = false ->
  (0 < length data)%nat -> (offset + length data <= TABLE_PAGE_BYTES)%nat ->
  exists old s1 s2,
    EcuPageStore.read (store s) page (replicate TABLE_PAGE_BYTES 0) = (old, Some TABLE_PAGE_BYTES)
    /\ handle (patch_request page offset data) out1 s
       = Some (s1, (encode_reply Cmd.WritePage OK out1).1, (encode_reply Cmd.WritePage OK out1).2)
    /\ handle (read_request page) out2 s1
       = Some (s2, (encode_reply Cmd.ReadPage (patched offset data old) out2).1,
                (encode_reply Cmd.ReadPage (patched offset data old) out2).2).
Proof.
  intros Hin Hst Hb Hrun Hl Ho. assert (byte page) as Hpage by (by destruct Hin as [<-|[<-|[<-|[]]]]).
  destruct (table_page_read page (store s) Hin Hst) as (old & Hold & Hlold & Hbold).
  assert (Z.of_nat TABLE_PAGE_BYTES = 512) as E512 by (vm_compute; reflexivity).
  assert (bytes (patched offset data old) /\ length (patched offset data old) = TABLE_PAGE_BYTES) as [Hbn Hln].
  { unfold patched. destruct (Nat.eqb_spec (length data + 4) TABLE_PAGE_BYTES).
    - split; [apply Forall_app_2; [apply bytes_u16|]; by apply Forall_app_2; [apply bytes_u16|]|].
      rewrite !length_app. cbn [length u16_bytes le16]. lia.
    - split; [by apply bytes_copy_at|]. rewrite copy_at_length; lia. }
  destruct (unchecked_table page _ (store s) Hin Hst Hbn Hln) as (st' & Hw & _ & Hr).
  specialize (Hr (replicate TABLE_PAGE_BYTES 0) ltac:(by rewrite length_replicate)).
  rewrite drop_ge, app_nil_r in Hr by (by rewrite length_replicate).
  exists old. eexists _, _. split; [done|]. unfold patch_request, read_request.
  rewrite !handle_frame_cmd. 2: { split; [by apply Forall_cons_2|]. cbn. lia. }
  2: { split; [|cbn [length]; rewrite !length_app; cbn [length u16_bytes le16]; lia].
    apply Forall_cons_2; [done|]. apply Forall_app_2; [apply bytes_u16|]. by apply Forall_app_2; [apply bytes_u16|]. }
  cbn [dispatch]. rewrite (patch_written page offset data out1 _ old) by done.
  change (store (modify_field _ s)) with (store s). rewrite Hw. unfold finish_write, reply. cbn [fst snd is_ok]. split.
  - by destruct (encode_reply Cmd.WritePage OK out1).
  - rewrite (page_request_read page out2 _ (patched offset data old)) by done. unfold reply. by destruct (encode_reply Cmd.ReadPage _ out2).
Qed.
End Wire.

(** ** The service *)

(** Every request has one answer, whatever is in the reply buffer. *)
Lemma handle_answers {P St} `{OutpcProvider P} `{PageStoreLaws St wf} req (s : t P St) : bytes req ->
  exists s' answer, (forall out, handle req out s = Some (s', (sent answer out).1, (sent answer out).2))
  /\ (wf (store s) -> wf (store s')).
Proof.
  intros Hb. unfold handle, handle_with_bench_tooling. destruct (decode_request req) as [[cmd payload]|] eqn:Ed.
  2: { by eexists _, None. }
  pose proof (decoded_bytes _ _ _ Hb Ed) as Hp. set (s1 := s <| stats ::= _ |>).
  destruct (for_owner cmd) eqn:Ef.
  - assert (forall ok c, exists answer, forall out,
      by_owner s1 (NoBenchTooling.refuse_unless ok c payload out NoBenchTooling.mk)
      = Some (s1, NoBenchTooling.mk, (sent answer out).1, (sent answer out).2)) as Hown.
    { intros ok c. unfold NoBenchTooling.refuse_unless. destruct (negb (ok payload)); [by exists None|].
      exists (Some (c, ERR)). intros out. cbn [sent]. by destruct (encode_reply c ERR out). }
    destruct cmd; try done; cbn [dispatch];
      match goal with |- context [by_owner s1 (?h payload _ _)] => idtac end;
      cbn [handle_output_test handle_tooth_stats handle_tooth_composite_log handle_version_info handle_compatibility_info
        handle_reboot NoBenchTooling.owner];
      match goal with |- context [NoBenchTooling.refuse_unless ?ok ?c] => destruct (Hown ok c) as [answer Ha] end;
      exists s1, answer; (split; [intros out; by rewrite Ha|done]).
  - destruct (dispatch_server (B := NoBenchTooling.t) cmd payload s1 Hp Ef) as (h & (s' & a & Ha & _ & _ & Hw & _) & Hd).
    exists s', a. split; [|done]. intros out. by rewrite Hd, Ha.
Qed.

Lemma sent_same answer out out2 : length out = length out2 ->
  length (sent answer out).1 = length out /\ (sent answer out).2 = (sent answer out2).2
  /\ forall n, (sent answer out).2 = Some n -> take n (sent answer out).1 = take n (sent answer out2).1.
Proof.
  intros Hl. destruct answer as [[cmd payload]|]; cbn [sent]; [|done].
  destruct (Nat.le_gt_cases (length payload + 7) (length out)) as [Hr|Hr].
  - rewrite !encode_reply_frame by lia. cbn [fst snd]. pose proof (serial_frame_length cmd payload) as Hf. split.
    + rewrite length_app, length_drop, Hf. lia.
    + split; [done|]. intros n [= <-]. by rewrite <- Hf, !take_app_length.
  - unfold encode_reply. cbv zeta. destruct (Nat.ltb_spec (length out) (2 + 2 + 1 + length payload + 2)); [|lia].
    destruct (Nat.ltb_spec (length out2) (2 + 2 + 1 + length payload + 2)); [done|lia].
Qed.

Section Service.
Context {P St SP : Type} `{OutpcProvider P} `{PageStoreLaws St wf} `{SerialPort SP}.
Import TsService.

(** The requests that a queue of bytes gives, each answered. *)
Fixpoint answered (budget : nat) (l : list Z) (s : Server.t P St) : option (list Z * Server.t P St * list (list Z)) :=
  match budget with
  | O => Some (l, s, [])
  | S budget =>
    let '(l, popped) := Stream.pop SERVICE_BUF_LEN l in
    match popped with
    | None => Some (l, s, [])
    | Some request =>
      match Server.handle request (replicate SERVICE_BUF_LEN 0) s with
      | None => None
      | Some (s, out, r) =>
        match answered budget l s with
        | None => None
        | Some (l, s, replies) => Some (l, s, match r with Some n => take n out :: replies | None => replies end)
        end
      end
    end
  end.

Definition write_all (replies : list (list Z)) (port : SP) : SP := fold_left (fun port r => fst (port_write r port)) replies port.

Definition service_wf (s : TsService.t P St) : Prop :=
  assembler_wf (asm s) /\ length (inbuf s) = SERVICE_BUF_LEN /\ length (out s) = SERVICE_BUF_LEN /\ bytes (pending (asm s))
  /\ wf (store (server s)).

Lemma send_reply_ok mr port (s : TsService.t P St) : fst (send_reply mr port s) = fst (port_write (take mr (out s)) port)
  /\ server (snd (send_reply mr port s)) = server s /\ asm (snd (send_reply mr port s)) = asm s
  /\ inbuf (snd (send_reply mr port s)) = inbuf s /\ out (snd (send_reply mr port s)) = out s.
Proof. unfold send_reply. destruct (port_write _ _) as [port' n]. by destruct (negb _). Qed.

Lemma popped_bytes room l : bytes l -> bytes (Stream.pop room l).1 /\ (forall f, (Stream.pop room l).2 = Some f -> bytes f).
Proof.
  intros Hb. unfold Stream.pop. destruct (resync_suffix l) as [g E]. rewrite E in Hb. apply Forall_app in Hb as [_ Hb].
  clear E. generalize dependent (Stream.resync l). intros r Hb.
  assert (bytes (tail r)) as Ht by (destruct Hb; [constructor|done]).
  cbv zeta. repeat match goal with |- context [if ?b then _ else _] => destruct b; [done|] end.
  destruct (decode_request _); [|done]. cbn. split; [by apply Forall_drop|]. intros f [= <-]. by apply Forall_take.
Qed.

(** One frame. *)
Lemma serve_frame_ok request port (s : TsService.t P St) : service_wf s -> bytes request ->
  take (length request) (inbuf s) = request ->
  exists server' out' r, Server.handle request (replicate SERVICE_BUF_LEN 0) (server s) = Some (server', out', r)
  /\ exists port' s', serve_frame (length request) port s = Some (port', s') /\ service_wf s' /\ server s' = server'
     /\ asm s' = asm s /\ port' = write_all (match r with Some n => [take n out'] | None => [] end) port.
Proof.
  intros (Ha & Hi & Ho & Hp & Hw) Hb Ht. destruct (handle_answers request (server s) Hb) as (s1 & answer & Hans & Hw1).
  rewrite Hans. eexists _, _, _. split; [done|]. unfold serve_frame. rewrite Ht, Hans.
  destruct (sent_same answer (out s) (replicate SERVICE_BUF_LEN 0)) as (Hlen & Hn & Htake); [by rewrite length_replicate|].
  rewrite Ho in Hlen. specialize (Hw1 Hw).
  rewrite <- Hn. destruct (sent answer (out s)).2 as [n|] eqn:E.
  2: { eexists port, _. split; [done|]. by split_and!. }
  match goal with |- context [send_reply n port ?s0] => destruct (send_reply_ok n port s0) as (E1 & E2 & E3 & E4 & E5) end.
  destruct (send_reply _ _ _) as [port' s']. cbn [fst snd] in *. exists port', s'. split; [done|].
  unfold service_wf. rewrite E2, E3, E4, E5. split; [by split_and!|]. split; [done|]. split; [done|].
  rewrite E1. cbn [write_all fold_left]. do 2 f_equal. by apply Htake.
Qed.

Lemma write_all_app a b port : write_all (a ++ b) port = write_all b (write_all a port).
Proof. apply fold_left_app. Qed.

Lemma pump_answers budget port (s : TsService.t P St) : service_wf s ->
  exists port' s' replies, pump budget port s = Some (port', s') /\ service_wf s'
  /\ answered budget (pending (asm s)) (server s) = Some (pending (asm s'), server s', replies)
  /\ port' = write_all replies port.
Proof.
  revert port s. induction budget as [|budget IH]; intros port s Hs; [by exists port, s, []|]. cbn [pump answered].
  pose proof Hs as (Ha & Hi & Ho & Hp & Hw). pose proof (try_pop_refines (inbuf s) (asm s) Ha) as Hr.
  destruct (popped_bytes SERVICE_BUF_LEN _ Hp) as [Hbl Hbf]. rewrite Hi in Hr.
  destruct (FrameAssembler.try_pop _ _) as [[asm' inbuf'] popped].
  destruct (Stream.pop _ _) as [l' f]. destruct Hr as (Ha' & Hp' & Hlen & Hf). cbn [fst snd] in *.
  set (s1 := s <| asm := asm' |> <| inbuf := inbuf' |>).
  assert (service_wf s1) as Hs1 by (unfold service_wf, s1; cbn; by rewrite Hp', Hlen).
  destruct f as [request|].
  2: { subst popped. exists port, s1, []. by rewrite <- Hp'. }
  destruct Hf as [-> Ein]. specialize (Hbf request eq_refl).
  destruct (serve_frame_ok request port s1 Hs1 Hbf) as (server' & out' & r & Hh & port1 & s2 & Hsv & Hs2 & E1 & E2 & E3).
  { unfold s1. cbn. by rewrite Ein, take_app_length. }
  change (server s1) with (server s) in Hh. rewrite Hh, Hsv.
  destruct (IH port1 s2 Hs2) as (port' & s' & replies & Hpump & Hs' & Hans & Hport).
  rewrite E1, E2 in Hans. change (asm s1) with asm' in Hans. rewrite Hp' in Hans. rewrite Hans.
  exists port', s'. eexists. split; [done|]. split; [done|]. split; [done|]. subst. by destruct r.
Qed.

(** C31: the service of a port answers what arrived on it: one pump takes the bytes the port has
    into the queue of bytes received, answers the frames at the front of that queue, at most
    as many as its budget, and writes their replies to the port in that order and nothing
    else; it never fails and keeps the store well-formed. *)
Theorem service_answers_stream budget port data port1 (s : TsService.t P St) : service_wf s ->
  port_read 128 port = (port1, data) -> bytes data ->
  exists port' s' replies, pump_with_budget budget port s = Some (port', s') /\ service_wf s'
  /\ answered budget (Stream.feed data (pending (asm s))) (server s) = Some (pending (asm s'), server s', replies)
  /\ port' = write_all replies port1.
Proof.
  intros (Ha & Hi & Ho & Hp & Hw) Hread Hb. unfold pump_with_budget, poll_port. rewrite Hread.
  set (s1 := s <| asm ::= _ |>).
  assert (assembler_wf (asm s1) /\ pending (asm s1) = Stream.feed data (pending (asm s))) as [Ha1 Hp1].
  { unfold s1. cbn. unfold FrameAssembler.poll_port. destruct (Nat.ltb_spec 0 (length data)); [by apply feed_refines|].
    destruct data; [|cbn in *; lia]. unfold Stream.feed. by rewrite take_nil, app_nil_r. }
  rewrite <- Hp1. change (server s) with (server s1). apply pump_answers.
  unfold service_wf, s1 in *. cbn in *. rewrite Hp1. split_and!; try done. apply Forall_app_2; [done|by apply Forall_take].
Qed.

End Service.

(** A whole table is out of reach of the service: a frame that writes one is longer than its
    buffer and costs its first byte, and the reply to a request to read one has no room. *)
Lemma whole_table_dropped page data rest : byte page -> bytes data -> length data = TABLE_PAGE_BYTES ->
  Stream.pop TsService.SERVICE_BUF_LEN (frame Cmd.WritePage (page :: data) ++ rest)
  = (tail (frame Cmd.WritePage (page :: data) ++ rest), None).
Proof.
  intros Hp Hb Hl. assert (Z.of_nat TABLE_PAGE_BYTES = 512 /\ Z.of_nat BUF_LEN = 2048 /\ Z.of_nat TsService.SERVICE_BUF_LEN = 512)
    as (E1 & E2 & E3) by (vm_compute; done).
  rewrite frame_raw. unfold frame_body at 1 3.
  destruct (raw_fields (Cmd.code Cmd.WritePage) (page :: data) (frame_crc (frame_body Cmd.WritePage (page :: data))) rest)
    as (F0 & F2 & _); [cbn [length]; lia|apply frame_crc_u16, frame_body_bytes; split; [by apply Forall_cons_2|cbn [length]; lia]|].
  set (l := raw_frame _ _ ++ rest) in *.
  assert (length l = 513 + 7 + length rest)%nat as Hlen.
  { unfold l, raw_frame. rewrite !length_app. cbn [length]. lia. }
  unfold Stream.pop. rewrite resync_long by lia. rewrite F0, Z.eqb_refl, F2. cbv zeta. cbn [length].
  destruct (Nat.ltb_spec (length l) 4); [lia|]. rewrite (proj2 (Z.ltb_ge _ _)) by lia. cbn [orb].
  rewrite (proj2 (Z.ltb_ge _ _)) by lia. destruct (Nat.ltb_spec (length l) (4 + Z.to_nat (Z.of_nat (S (length data)) + 3))); [lia|].
  by destruct (Nat.ltb_spec TsService.SERVICE_BUF_LEN (4 + Z.to_nat (Z.of_nat (S (length data)) + 3))); [|lia].
Qed.

Lemma whole_table_unanswered {P} `{OutpcProvider P} page out (s : t P EcuPageStore.t) : In page UNCHECKED_TABLES ->
  store_wf (store s) -> length out = TsService.SERVICE_BUF_LEN ->
  exists s', handle (read_request page) out s = Some (s', out, None) /\ ServerStats.read_ok (stats s') = ServerStats.inc (ServerStats.read_ok (stats s)).
Proof.
  intros Hin Hst Hl. destruct (table_page_read page (store s) Hin Hst) as (old & Hold & Hlold & _).
  assert (Z.of_nat TABLE_PAGE_BYTES = 512 /\ Z.of_nat TsService.SERVICE_BUF_LEN = 512) as (E1 & E2) by (vm_compute; done).
  eexists. unfold read_request. rewrite handle_frame_cmd.
  2: { split; [|cbn; lia]. apply Forall_cons_2; [|constructor]. by destruct Hin as [<-|[<-|[<-|[]]]]. }
  cbn [dispatch]. rewrite (page_request_read page out _ old) by done. unfold reply, encode_reply. cbv zeta.
  destruct (Nat.ltb_spec (length out) (2 + 2 + 1 + length old + 2)); [|lia]. done.
Qed.

Lemma service_new_wf {P St} `{PageStore St} (wf : St -> Prop) signature (p : P) st : wf st ->
  service_wf (wf := wf) (TsService.new signature p st).
Proof.
  intros Hw. destruct new_wf as [Ha Hp]. unfold service_wf, TsService.new. cbn [TsService.asm TsService.inbuf TsService.out TsService.server].
  rewrite Hp, length_replicate. by split_and!.
Qed.

(** ** Examples *)
Module Bench.
(** An engine that runs or does not. *)
Inductive t := Engine (running : bool).
#[global] Instance provider : OutpcProvider t := {| fill_outpc _ o := o; engine_running '(Engine running) := running |}.
(** A port with the bytes to be read from it and the writes it took. *)
Record port := mk { incoming : list Z; written : list (list Z) }.
#[global] Instance serial_port : SerialPort port := {|
  port_read n p := (mk (drop n (incoming p)) (written p), take n (incoming p));
  port_write data p := (mk (incoming p) (written p ++ [data]), length data) |}.
Definition server (running : bool) : Server.t t EcuPageStore.t := Server.new [73; 80; 87] (Engine running) default_store.
Definition patch : list Z := patch_request PAGE_FUEL 2 [1; 2; 3; 4].
Definition burn_request : list Z := frame Cmd.Burn [].
End Bench.

Lemma server_run_safe_witness : exists s', serve_all [(Bench.patch, replicate 16 0); ([1; 2; 3], [])] (Bench.server false) = Some s'
  /\ store_wf (Server.store s') /\ Server.provider s' = Bench.Engine false
  /\ (engine_running (Bench.Engine false) = true -> Server.store s' = default_store).
Proof.
  apply (server_run_safe (wf := store_wf) [(Bench.patch, replicate 16 0); ([1; 2; 3], [])] (Bench.server false) default_store_wf).
  repeat constructor; vm_compute; done.
Defined.

Lemma running_engine_refuses_witness :
  exists s' b' out' r, handle_with_bench_tooling Bench.burn_request (replicate 16 0) NoBenchTooling.mk (Bench.server true)
    = Some (s', b', out', r) /\ Server.store s' = default_store
  /\ (Cmd.Burn = Cmd.WritePage -> (2 <= length (@nil Z))%nat -> (out', r) = encode_reply Cmd.WritePage ERR (replicate 16 0))
  /\ (Cmd.Burn = Cmd.PackageImport -> (1 <= length (@nil Z))%nat -> (out', r) = encode_reply Cmd.PackageImport ERR (replicate 16 0))
  /\ (Cmd.Burn = Cmd.Burn -> (length (@nil Z) <= 1)%nat -> (out', r) = encode_reply Cmd.Burn PERSIST_ERR_RUNNING (replicate 16 0)).
Proof.
  apply (running_engine_refuses (wf := store_wf) Bench.burn_request Cmd.Burn [] (replicate 16 0) NoBenchTooling.mk (Bench.server true)).
  - repeat constructor; vm_compute; done.
  - vm_compute; reflexivity.
  - reflexivity.
Defined.

Lemma patched_table_reads_back_witness :
  exists old s1 s2,
    EcuPageStore.read default_store PAGE_FUEL (replicate TABLE_PAGE_BYTES 0) = (old, Some TABLE_PAGE_BYTES)
    /\ handle (patch_request PAGE_FUEL 2 [1; 2; 3; 4]) (replicate 16 0) (Bench.server false)
       = Some (s1, (encode_reply Cmd.WritePage OK (replicate 16 0)).1, (encode_reply Cmd.WritePage OK (replicate 16 0)).2)
    /\ handle (read_request PAGE_FUEL) (replicate 1024 0) s1
       = Some (s2, (encode_reply Cmd.ReadPage (patched 2 [1; 2; 3; 4] old) (replicate 1024 0)).1,
                (encode_reply Cmd.ReadPage (patched 2 [1; 2; 3; 4] old) (replicate 1024 0)).2).
Proof.
  apply (patched_table_reads_back PAGE_FUEL 2 [1; 2; 3; 4] (replicate 16 0) (replicate 1024 0) (Bench.server false)).
  - by left.
  - exact default_store_wf.
  - repeat constructor; vm_compute; done.
  - reflexivity.
  - cbn. lia.
  - apply Nat.leb_le. vm_compute. reflexivity.
Defined.

Definition idle_service : TsService.t Bench.t EcuPageStore.t := TsService.new [73; 80; 87] (Bench.Engine false) default_store.
Lemma service_answers_stream_witness :
  exists port' s' replies,
    TsService.pump_with_budget 1 (Bench.mk Bench.burn_request []) idle_service = Some (port', s')
    /\ service_wf (wf := store_wf) s'
    /\ answered 1 (Stream.feed Bench.burn_request (pending (TsService.asm idle_service))) (TsService.server idle_service)
       = Some (pending (TsService.asm s'), TsService.server s', replies)
    /\ port' = write_all replies (Bench.mk [] []).
Proof.
  apply (service_answers_stream (wf := store_wf) 1 (Bench.mk Bench.burn_request []) Bench.burn_request (Bench.mk [] []) idle_service).
  - apply service_new_wf. exact default_store_wf.
  - vm_compute; reflexivity.
  - repeat constructor; vm_compute; done.
Defined.
