(* ===== verification/TsSession.v ===== *)
(** * The calibration session of the tuning program (crates/ts/src/runtime_view.rs)

    [RuntimeView], what the live data show of a published snapshot of the runtime, and
    [CalibrationEditSurface], the owner of the active and the staged calibration: edits go to
    the staged one, and the active one changes by a commit only. *)
From S2P Require Import Prelude Domain Bytes BoardApi ExpertTrigger Calibration Engine TsServer.

(** ** Pages of the expert setup *)
Definition PAGE_EXPERT_TRIGGER : Z := 16.
Definition EXPERT_TRIGGER_PAGE_LEN : nat := EXPERT_TRIGGER_RECORD_LEN.

Module ExpertTriggerPageError.
Inductive t := Record_ (e : RecordError.t) | Transition (e : ValidationError.t).
End ExpertTriggerPageError.

Definition map_result_err {A E F} (f : E -> F) (r : Result A E) : Result A F :=
  match r with Ok a => Ok a | Err e => Err (f e) end.

Definition encode_expert_trigger_page (calibration : ExpertTriggerCalibration.t) (out : list Z) :
    list Z * Result Z ExpertTriggerPageError.t :=
  let '(out, r) := encode_record out calibration in (out, map_result_err ExpertTriggerPageError.Record_ r).
Definition decode_expert_trigger_page (data : list Z) : Result ExpertTriggerCalibration.t ExpertTriggerPageError.t :=
  map_result_err ExpertTriggerPageError.Record_ (decode_record data).
Definition apply_expert_trigger_page (current : ExpertTriggerCalibration.t) (data : list Z) :
    Result ExpertTriggerCalibration.t ExpertTriggerPageError.t :=
  let? proposed := decode_expert_trigger_page data in
  let? _ := map_result_err ExpertTriggerPageError.Transition (validate_transition_from current proposed) in
  Ok proposed.

(** ** What is shown of the runtime *)
Module RuntimeView.
Record t := mk {
  sync_state : SyncState.t; engine_phase : EnginePhase.t; control_mode : ControlMode.t; rpm : Z; load_kpa10 : Z;
  angle_x10 : Z; fuel_pulse_width_us : Z; ignition_advance_deg10 : Z; dwell_us : Z; lambda_target_x100 : Z;
  torque_limit_x100 : Z; fault_code : FaultCode.t; fault_severity : FaultSeverity.t; cancel_reason : CancelReason.t }.

(** [RuntimeSnapshotAdapter::map] *)
Definition of_snapshot (s : RuntimeSnapshot.t) : t :=
  let engine := RuntimeSnapshot.engine s in
  let control := RuntimeSnapshot.control s in
  let faults := RuntimeSnapshot.faults s in
  mk (EngineState.sync engine) (EngineState.phase engine) (EngineState.mode engine) (EngineState.rpm engine)
    (EngineState.load_kpa10 engine) (EngineState.angle_x10 engine) (ControlState.fuel_pulse_width control)
    (ControlState.ignition_advance control) (ControlState.dwell control) (ControlState.lambda_target control)
    (ControlState.torque_limit_x100 control) (FaultState.fault faults) (FaultState.severity faults)
    (FaultState.cancel_reason faults).

Definition fill_outpc_runtime_fields (v : t) (out : Outpc.t) : Outpc.t :=
  out <| Outpc.rpm := rpm v |> <| Outpc.map_kpa_x10 := load_kpa10 v |> <| Outpc.pw_us := fuel_pulse_width_us v |>
    <| Outpc.dwell_us := dwell_us v |> <| Outpc.advance_x10 := ignition_advance_deg10 v |>
    <| Outpc.synced := match sync_state v with SyncState.Locked _ => 1 | _ => 0 end |>.

(** [RuntimeSnapshotAdapter::fill_outpc] *)
Definition fill_outpc (s : RuntimeSnapshot.t) (out : Outpc.t) : Outpc.t := fill_outpc_runtime_fields (of_snapshot s) out.
End RuntimeView.

(** ** Edits *)
Module CalibrationWrite.
Inductive t := NoChange | MetadataOnly | RuntimeSafe | RuntimeSensitive | SafetyCritical.
#[global] Instance eq_dec : EqDecision t.
Proof. solve_decision. Defined.
Definition class (w : t) : CalibrationClass.t :=
  match w with
  | NoChange => CalibrationClass.NoChange | MetadataOnly => CalibrationClass.MetadataOnly
  | RuntimeSafe => CalibrationClass.RuntimeSafe | RuntimeSensitive => CalibrationClass.RuntimeSensitive
  | SafetyCritical => CalibrationClass.SafetyCritical
  end.
End CalibrationWrite.

Module CalibrationCommandResult.
Inductive t := Committed (diff : CalibrationDiff.t) | Deferred (diff : CalibrationDiff.t) | Reset_ (diff : CalibrationDiff.t).
End CalibrationCommandResult.

Module PackageWorkflowReview.
(** [CalibrationPackageWorkflowReview] *)
Record t := mk { candidate_review : PackageReview.t; candidate_vs_current : CompareResult.t }.
End PackageWorkflowReview.

Module PackageApplyResult.
(** [CalibrationPackageApplyResult] *)
Inductive t :=
| AppliedUnchanged (workflow : PackageWorkflowReview.t) (package : Package.t) (diff : CalibrationDiff.t)
| AppliedMigrated (workflow : PackageWorkflowReview.t) (package : Package.t) (diff : CalibrationDiff.t)
| Rejected (workflow : PackageWorkflowReview.t).
Definition is_rejected (r : t) : bool := match r with Rejected _ => true | _ => false end.
End PackageApplyResult.

Module CalibrationEditSurface.
Record t := mk { snapshot : CalibrationSnapshot.t; diff : CalibrationDiff.t }.
#[global] Instance eta : Eta t := fun s => mk (snapshot s) (diff s).

Definition active (s : t) : ActiveCalibration.t := CalibrationSnapshot.active (snapshot s).
Definition staged (s : t) : StagedCalibration.t := CalibrationSnapshot.staged (snapshot s).
Definition put_staged (st : StagedCalibration.t) (s : t) : t := s <| snapshot := CalibrationSnapshot.mk (active s) st |>.

(** [self.diff = CalibrationDiff::from_views(active, staged, class)] *)
Definition classify (class : CalibrationClass.t) (s : t) : t :=
  s <| diff := CalibrationDiff.from_views (active s) (staged s) class |>.

Definition new (snapshot : CalibrationSnapshot.t) : t :=
  mk snapshot (CalibrationDiff.from_views (CalibrationSnapshot.active snapshot) (CalibrationSnapshot.staged snapshot)
    CalibrationClass.NoChange).

Definition apply_write (write : CalibrationWrite.t) (s : t) : t * CalibrationDiff.t :=
  let s := if negb (bool_decide (write = CalibrationWrite.NoChange)) then put_staged (StagedCalibration.mark_dirty (staged s)) s else s in
  let s := classify (CalibrationWrite.class write) s in
  (s, diff s).

(** The common end of the three ways to stage a setup. *)
Definition stage_expert_trigger (proposed : ExpertTriggerCalibration.t) (s : t) : t :=
  let staged_calibration := StagedCalibration.calibration (staged s) in
  if bool_decide (expert_of staged_calibration = proposed) then classify CalibrationClass.NoChange s
  else
    let staged_calibration := Calibration.set_expert_trigger proposed staged_calibration in
    classify CalibrationClass.SafetyCritical (put_staged (StagedCalibration.replace_calibration staged_calibration (staged s)) s).

(** The page is validated against the active setup. *)
Definition apply_expert_trigger_page (data : list Z) (s : t) : t * Result CalibrationDiff.t ExpertTriggerPageError.t :=
  let current := expert_of (ActiveCalibration.calibration (active s)) in
  match TsSession.apply_expert_trigger_page current data with
  | Err e => (s, Err e)
  | Ok proposed => let s := stage_expert_trigger proposed s in (s, Ok (diff s))
  end.

Definition commit (policy : CommitPolicy.t) (runtime_safe : bool) (s : t) : t * CalibrationCommandResult.t :=
  match commit_rules_evaluate policy (diff s) runtime_safe with
  | CommitVerdict.AllowNow =>
    let committed := diff s in
    let active' := ActiveCalibration.new (StagedCalibration.revision (staged s)) (StagedCalibration.calibration (staged s)) in
    let staged' := StagedCalibration.new (ActiveCalibration.revision active') (ActiveCalibration.calibration active') in
    (classify CalibrationClass.NoChange (s <| snapshot := CalibrationSnapshot.mk active' staged' |>),
     CalibrationCommandResult.Committed committed)
  | CommitVerdict.Defer => (s, CalibrationCommandResult.Deferred (diff s))
  end.

Definition persist (s : t) : PersistedCalibrationBlob.t := PersistedCalibrationBlob.new (snapshot s).
Definition expert_trigger_calibration (s : t) : ExpertTriggerCalibration.t := expert_of (StagedCalibration.calibration (staged s)).
Definition sync_expert_trigger_calibration (proposed : ExpertTriggerCalibration.t) (s : t) : t := stage_expert_trigger proposed s.
Definition persist_with_target_identity (build hw : Z) (s : t) : Package.t := Package.new (persist s) build hw.
Definition reset_staged (s : t) : t * CalibrationCommandResult.t :=
  let s := classify CalibrationClass.NoChange
    (put_staged (StagedCalibration.new (ActiveCalibration.revision (active s)) (ActiveCalibration.calibration (active s))) s) in
  (s, CalibrationCommandResult.Reset_ (diff s)).

Definition export_current_package := persist_with_target_identity.

Definition review_candidate_package (candidate : Package.t) (build hw : Z) (s : t) : PackageWorkflowReview.t :=
  let current := persist_with_target_identity build hw s in
  PackageWorkflowReview.mk (Package.review_against build hw candidate) (Package.compare_against candidate current).

(** What is staged of a package that was not rejected. *)
Definition take_package (package : Package.t) (s : t) : t :=
  let next_calibration :=
    StagedCalibration.calibration (CalibrationSnapshot.staged (PersistedCalibrationBlob.snapshot (Package.blob package))) in
  let staged_changed := negb (bool_decide (StagedCalibration.calibration (staged s) = next_calibration)) in
  classify (if staged_changed then CalibrationClass.SafetyCritical else CalibrationClass.NoChange)
    (put_staged (StagedCalibration.replace_calibration next_calibration (staged s)) s).

Definition apply_candidate_package (candidate : Package.t) (build hw : Z) (s : t) : t * PackageApplyResult.t :=
  let workflow := review_candidate_package candidate build hw s in
  match Package.migrate_against build hw candidate with
  | Package.Rejected _ => (s, PackageApplyResult.Rejected workflow)
  | Package.Unchanged _ package => let s := take_package package s in (s, PackageApplyResult.AppliedUnchanged workflow package (diff s))
  | Package.Migrated _ package => let s := take_package package s in (s, PackageApplyResult.AppliedMigrated workflow package (diff s))
  end.
Definition import_candidate_package := apply_candidate_package.
End CalibrationEditSurface.

(** ** The active calibration changes by a commit *)
Import CalibrationEditSurface.

Module SessionOp.
Inductive t :=
| Write (write : CalibrationWrite.t)
| ExpertTriggerPage (data : list Z)
| SyncExpertTrigger (proposed : ExpertTriggerCalibration.t)
| Import_ (candidate : Package.t) (build hw : Z)
| Reset_
| Commit (policy : CommitPolicy.t) (runtime_safe : bool).
End SessionOp.

Definition session_step (s : t) (op : SessionOp.t) : t :=
  match op with
  | SessionOp.Write w => (apply_write w s).1
  | SessionOp.ExpertTriggerPage data => (CalibrationEditSurface.apply_expert_trigger_page data s).1
  | SessionOp.SyncExpertTrigger proposed => sync_expert_trigger_calibration proposed s
  | SessionOp.Import_ candidate build hw => (import_candidate_package candidate build hw s).1
  | SessionOp.Reset_ => (reset_staged s).1
  | SessionOp.Commit policy safe => (commit policy safe s).1
  end.
Definition session_run (s : t) (ops : list SessionOp.t) : t := fold_left session_step ops s.

(** What a commit makes active. *)
Definition staged_as_active (s : t) : ActiveCalibration.t :=
  ActiveCalibration.new (StagedCalibration.revision (staged s)) (StagedCalibration.calibration (staged s)).
Definition harmless (class : CalibrationClass.t) : bool :=
  match class with CalibrationClass.NoChange | CalibrationClass.MetadataOnly => true | _ => false end.

Lemma stage_keeps_active e s : active (stage_expert_trigger e s) = active s.
Proof. unfold stage_expert_trigger. by case_bool_decide. Qed.

(** An operation other than a commit. *)
Lemma edit_keeps_active s op : (forall policy safe, op <> SessionOp.Commit policy safe) -> active (session_step s op) = active s.
Proof.
  intros Hop. destruct op; cbn [session_step]; try done.
  - unfold apply_write. by destruct (negb _).
  - unfold CalibrationEditSurface.apply_expert_trigger_page. destruct (TsSession.apply_expert_trigger_page _ _); [|done].
    cbn [fst]. apply stage_keeps_active.
  - apply stage_keeps_active.
  - unfold import_candidate_package, apply_candidate_package. by destruct (Package.migrate_against _ _ _).
  - by destruct (Hop policy runtime_safe).
Qed.

Lemma commit_active policy safe s : active (commit policy safe s).1 =
  match commit_rules_evaluate policy (diff s) safe with CommitVerdict.AllowNow => staged_as_active s | CommitVerdict.Defer => active s end.
Proof. unfold commit. by destruct (commit_rules_evaluate _ _ _). Qed.

(** When a commit is allowed: never under the deferred policy, under the others while the
    runtime is safe, and under the immediate one also for an edit that does no harm. *)
Definition may_commit (policy : CommitPolicy.t) (class : CalibrationClass.t) (runtime_safe : bool) : bool :=
  match policy with
  | CommitPolicy.Deferred => false
  | CommitPolicy.SafeOnly => runtime_safe
  | CommitPolicy.Immediate => runtime_safe || harmless class
  end.

Lemma evaluate_may_commit policy d safe : commit_rules_evaluate policy d safe =
  if may_commit policy (CalibrationDiff.class d) safe then CommitVerdict.AllowNow else CommitVerdict.Defer.
Proof. unfold commit_rules_evaluate, may_commit. destruct policy, safe; try done; by destruct (CalibrationDiff.class d). Qed.

Definition allowed (s : t) (op : SessionOp.t) : bool :=
  match op with
  | SessionOp.Commit policy safe => may_commit policy (CalibrationDiff.class (diff s)) safe
  | _ => false
  end.

(** The states of a session in which a commit was asked for and allowed, in order. *)
Fixpoint commits (s : t) (ops : list SessionOp.t) : list t :=
  match ops with
  | [] => []
  | op :: ops => (if allowed s op then [s] else []) ++ commits (session_step s op) ops
  end.

Lemma step_active s op : active (session_step s op) = if allowed s op then staged_as_active s else active s.
Proof.
  destruct op; try (apply edit_keeps_active; done). cbn [session_step allowed]. rewrite commit_active, evaluate_may_commit.
  by destruct (may_commit _ _ _).
Qed.

(** C33: the active calibration changes by an allowed commit and in no other way: after any
    sequence of edits, imports, resets and commits it is what was staged at the last commit that
    was allowed, and the one of the start if none was.  A commit is allowed never under the
    deferred policy, while the runtime is safe under the others, and while it is not only under
    the immediate policy and for an edit classed as harmless; an allowed one answers that it
    was committed and leaves staged what it made active, any other one answers that it was
    deferred and changes nothing. *)
Theorem active_changes_by_commit s ops :
  active (session_run s ops) = match last (commits s ops) with Some at_commit => staged_as_active at_commit | None => active s end
  /\ forall policy safe, let s := session_run s ops in
     if may_commit policy (CalibrationDiff.class (diff s)) safe
     then (commit policy safe s).2 = CalibrationCommandResult.Committed (diff s)
       /\ active (commit policy safe s).1 = staged_as_active s
       /\ StagedCalibration.calibration (staged (commit policy safe s).1) = StagedCalibration.calibration (staged s)
     else commit policy safe s = (s, CalibrationCommandResult.Deferred (diff s)).
Proof.
  split.
  - revert s. induction ops as [|op ops IH]; intros s; [done|]. cbn [commits]. unfold session_run. cbn [fold_left].
    fold (session_run (session_step s op) ops). rewrite IH, step_active. destruct (allowed s op); [|done].
    cbn [app]. rewrite last_cons. by destruct (last (commits _ ops)).
  - intros policy safe s'. unfold commit. rewrite evaluate_may_commit. by destruct (may_commit _ _ _).
Qed.

(** ** But the class is that of the last edit *)

(** A change of the trigger setup is safety critical until the same page is written again:
    the second write finds it staged already and classes the edit as no change, and then the
    immediate policy commits it although the runtime is not safe. *)
Lemma rewritten_page_commits_unsafely data proposed s :
  decode_record data = Ok proposed -> validate_transition_from (expert_of (ActiveCalibration.calibration (active s))) proposed = Ok tt ->
  proposed <> expert_of (StagedCalibration.calibration (staged s)) ->
  let once := session_run s [SessionOp.ExpertTriggerPage data] in
  let twice := session_run s [SessionOp.ExpertTriggerPage data; SessionOp.ExpertTriggerPage data] in
  CalibrationDiff.class (diff once) = CalibrationClass.SafetyCritical
  /\ active (commit CommitPolicy.Immediate false once).1 = active s
  /\ active (commit CommitPolicy.Immediate false twice).1 = staged_as_active once
  /\ expert_of (ActiveCalibration.calibration (staged_as_active once)) = proposed.
Proof.
  intros Hd Hv Hne. cbv zeta.
  set (once := stage_expert_trigger proposed s).
  assert (forall x, active x = active s -> session_step x (SessionOp.ExpertTriggerPage data) = stage_expert_trigger proposed x) as Hstep.
  { intros x Hx. cbn [session_step]. unfold CalibrationEditSurface.apply_expert_trigger_page, TsSession.apply_expert_trigger_page,
      decode_expert_trigger_page. cbv zeta. rewrite Hd. cbn [map_result_err result_bind]. by rewrite Hx, Hv. }
  unfold session_run. cbn [fold_left]. rewrite Hstep by done. fold once.
  rewrite Hstep by apply stage_keeps_active. rewrite !commit_active.
  assert (CalibrationDiff.class (diff once) = CalibrationClass.SafetyCritical
    /\ expert_of (StagedCalibration.calibration (staged once)) = proposed) as [Hclass Hst].
  { unfold once, stage_expert_trigger. rewrite bool_decide_eq_false_2 by congruence. split; [done|].
    unfold StagedCalibration.replace_calibration. case_bool_decide as E; [|done]. exfalso. apply Hne. by rewrite E. }
  assert (stage_expert_trigger proposed once = classify CalibrationClass.NoChange once) as ->.
  { unfold stage_expert_trigger. by rewrite Hst, bool_decide_eq_true_2. }
  cbn [commit_rules_evaluate]. rewrite Hclass. cbn. split_and!; try done. apply stage_keeps_active.
Qed.
