(* ===== verification/TsPersist.v ===== *)
(** * Persisted pages and packages (crates/ts/src/persistence.rs)

    Loading and burning of pages over a key/value store ([RamKv]), [PersistedTsPageStore], the
    store of pages that a board gives its tuning server, and [TsPackageCommandStore], which adds
    the calibration session of [TsSession] and its packages.  Both are stores of pages, so the
    server of [TsServer] runs over either. *)
From S2P Require Import Prelude Domain Bytes BoardApi ExpertTrigger Calibration KvStore RamKv SemanticFuel TsPages TsCodecs TsStore TsServer TsSession.

(** [ecu_calibration::PersistError] *)
Module KvPersistError.
Inductive t := Fail | EngineRunning.
#[global] Instance eq_dec : EqDecision t.
Proof. solve_decision. Defined.
End KvPersistError.

Definition kv_error_to_persist_error (e : KvError.t) : KvPersistError.t :=
  match e with KvError.EngineRunning => KvPersistError.EngineRunning | _ => KvPersistError.Fail end.
Definition calibration_persist_error_to_server_persist_error (e : KvPersistError.t) : PersistError.t :=
  match e with KvPersistError.EngineRunning => PersistError.EngineRunning | KvPersistError.Fail => PersistError.Fail end.

(** ** Which pages *)
Module PersistedPageSpec.
Record t := mk { page : Z; key : list Z; len : nat }.
End PersistedPageSpec.

Definition persisted_len (page : Z) : nat :=
  match ts_page_descriptor page with Some descriptor => TsPageDescriptor.len descriptor | None => 0 end.
Definition TS_SETUP_PERSISTED_PAGES : list PersistedPageSpec.t :=
  [ PersistedPageSpec.mk PAGE_FUEL PERSIST_KEY_FUEL (persisted_len PAGE_FUEL);
    PersistedPageSpec.mk PAGE_IGN PERSIST_KEY_IGN (persisted_len PAGE_IGN);
    PersistedPageSpec.mk PAGE_ANGLES PERSIST_KEY_ANGLES (persisted_len PAGE_ANGLES) ].

(** ** Written pages *)
Module WrittenPageSet.
(** A set of pages as a [u128]. *)
Record t := mk { bits : Z }.
#[global] Instance eta : Eta t := fun s => mk (bits s).
Definition new : t := mk 0.
Definition mark (page : Z) (s : t) : t := if page <? 128 then mk (Z.lor (bits s) (Z.shiftl 1 page)) else s.
Definition contains (s : t) (page : Z) : bool := (page <? 128) && negb (Z.land (bits s) (Z.shiftl 1 page) =? 0).
Definition is_empty (s : t) : bool := bits s =? 0.
End WrittenPageSet.

Definition written_pages_require_runtime_fuel_retune (pages : WrittenPageSet.t) : bool :=
  WrittenPageSet.contains pages PAGE_VE_TUNE || WrittenPageSet.contains pages PAGE_VE_TABLE
  || WrittenPageSet.contains pages PAGE_AFR_TABLE.

Module PageWriteReporter.
Record t := mk { pending : WrittenPageSet.t }.
#[global] Instance eta : Eta t := fun r => mk (pending r).
Definition new : t := mk WrittenPageSet.new.
Definition clear (r : t) : t := new.
Definition mark_page_write (page : Z) (r : t) : t := r <| pending ::= WrittenPageSet.mark page |>.
Definition has_pending_update (r : t) : bool := negb (WrittenPageSet.is_empty (pending r)).
Definition take_written_pages (r : t) : t * option WrittenPageSet.t :=
  if WrittenPageSet.is_empty (pending r) then (r, None) else (clear r, Some (pending r)).
End PageWriteReporter.

(** ** Loading and burning pages *)
Section Pages.
Context {S KV : Type} `{PageStore S, KvStore KV}.
Variable MAX : nat.

(** One page: what cannot be read whole or is refused is passed over.  The buffer is shared. *)
Definition try_load_page (kv : KV) (spec : PersistedPageSpec.t) (s : S * list Z) : S * list Z :=
  let '(store, buf) := s in
  let len := PersistedPageSpec.len spec in
  if (MAX <? len)%nat then (store, buf)
  else
    let '(data, r) := kv_read kv (PersistedPageSpec.key spec) (take len buf) in
    let buf := data ++ drop len buf in
    match r with
    | Ok n => if (n =? len)%nat then ((write_page (PersistedPageSpec.page spec) data store).1, buf) else (store, buf)
    | Err _ => (store, buf)
    end.
Definition try_load_pages (kv : KV) (specs : list PersistedPageSpec.t) (store : S) : S :=
  (fold_left (fun s spec => try_load_page kv spec s) specs (store, replicate MAX 0)).1.

Fixpoint burn_pages_loop (store : S) (specs : list PersistedPageSpec.t) (buf : list Z) (kv : KV) :
    KV * Result unit KvPersistError.t :=
  match specs with
  | [] => (kv, Ok tt)
  | spec :: specs =>
    let len := PersistedPageSpec.len spec in
    if (MAX <? len)%nat then (kv, Err KvPersistError.Fail)
    else
      let '(data, r) := TsStore.read_page store (PersistedPageSpec.page spec) (take len buf) in
      let buf := data ++ drop len buf in
      if (default 0 r =? len)%nat then
        match kv_write kv (PersistedPageSpec.key spec) data with
        | (kv, Err e) => (kv, Err (kv_error_to_persist_error e))
        | (kv, Ok _) => burn_pages_loop store specs buf kv
        end
      else burn_pages_loop store specs buf kv
  end.
Definition burn_pages (store : S) (specs : list PersistedPageSpec.t) (kv : KV) : KV * Result unit KvPersistError.t :=
  burn_pages_loop store specs (replicate MAX 0) kv.
End Pages.

(** ** Loading and burning the expert setup and packages *)
Section Records.
Context {KV : Type} `{KvStore KV}.

Definition try_load_expert_trigger_calibration (kv : KV) : option ExpertTriggerCalibration.t :=
  match kv_read kv PERSIST_KEY_EXPERT_TRIGGER (replicate EXPERT_TRIGGER_PAGE_BYTES 0) with
  | (_, Err _) => None
  | (buf, Ok n) =>
    if negb (n =? EXPERT_TRIGGER_PAGE_BYTES)%nat then None
    else
      match decode_trusted_expert_trigger_page buf with
      | Err _ => None
      | Ok page => match expert_trigger_calibration_from_page page with Ok cal => Some cal | Err _ => None end
      end
  end.

Definition burn_expert_trigger_calibration (cal : ExpertTriggerCalibration.t) (kv : KV) : KV * Result unit KvPersistError.t :=
  match TsPages.encode_expert_trigger_page (expert_trigger_page_from_calibration cal) (replicate EXPERT_TRIGGER_PAGE_BYTES 0) with
  | (_, Err _) => (kv, Err KvPersistError.Fail)
  | (buf, Ok _) =>
    match kv_write kv PERSIST_KEY_EXPERT_TRIGGER buf with
    | (kv, Err e) => (kv, Err (kv_error_to_persist_error e))
    | (kv, Ok _) => (kv, Ok tt)
    end
  end.

Definition try_load_calibration_package (kv : KV) : option Package.t :=
  match kv_read kv PERSIST_KEY_CAL_PACKAGE (replicate Package.WIRE_LEN 0) with
  | (_, Err _) => None
  | (buf, Ok n) =>
    if negb (n =? Package.WIRE_LEN)%nat then None
    else match Package.decode_wire buf with Ok p => Some p | Err _ => None end
  end.

Definition burn_calibration_package (package : Package.t) (kv : KV) : KV * Result unit KvPersistError.t :=
  match Package.encode_wire (replicate Package.WIRE_LEN 0) package with
  | (_, Err _) => (kv, Err KvPersistError.Fail)
  | (buf, Ok _) =>
    match kv_write kv PERSIST_KEY_CAL_PACKAGE buf with
    | (kv, Err e) => (kv, Err (kv_error_to_persist_error e))
    | (kv, Ok _) => (kv, Ok tt)
    end
  end.
End Records.

(** ** The persisted store *)

(** Who owns the tune: it gives a store of its pages, and takes it back after a change. *)
Class PageStoreProvider (P Pg : Type) `{PageStore Pg} := {
  with_pages : P -> Pg;
  with_pages_mut : Pg -> P -> P;
  provider_fuel_tune : P -> FuelRuntimeTune.t }.

Class PageStoreProviderLaws (P Pg : Type) `{PageStoreProvider P Pg} := {
  with_pages_mut_pages pages p : with_pages (with_pages_mut pages p) = pages }.

Module PersistedTsPageStore.
Section Store.
Context {P Pg KV : Type} `{PageStoreProvider P Pg, KvStore KV}.

Record t := mk { provider : P; kv : KV; expert_trigger : ExpertTriggerCalibration.t; page_writes : PageWriteReporter.t }.
#[global] Instance eta : Eta t := fun s => mk (provider s) (kv s) (expert_trigger s) (page_writes s).

Definition new (provider : P) (kv : KV) : t := mk provider kv ExpertTriggerCalibration.default PageWriteReporter.new.

Definition pages (s : t) : Pg := with_pages (provider s).
Definition put_pages (pages : Pg) (s : t) : t := s <| provider ::= with_pages_mut pages |>.

Definition try_load (s : t) : t :=
  let expert := try_load_expert_trigger_calibration (kv s) in
  let s := put_pages (try_load_pages TABLE_PAGE_BYTES (kv s) TS_SETUP_PERSISTED_PAGES (pages s)) s in
  let s := match expert with Some e => s <| expert_trigger := e |> | None => s end in
  s <| page_writes ::= PageWriteReporter.clear |>.

Definition try_load_package (s : t) : option Package.t := try_load_calibration_package (kv s).

(** The pages of a fresh engine: zeros, and 500 in the last field of the angles. *)
Definition FACTORY_ANGLES : list Z := copy_at 66 (le16 500) (replicate ANGLES_PAGE_BYTES 0).
Definition factory_reset (s : t) : t :=
  let pages := (write_page PAGE_FUEL (replicate TABLE_PAGE_BYTES 0) (pages s)).1 in
  let pages := (write_page PAGE_IGN (replicate TABLE_PAGE_BYTES 0) pages).1 in
  let pages := (write_page PAGE_ANGLES FACTORY_ANGLES pages).1 in
  put_pages pages s <| expert_trigger := ExpertTriggerCalibration.default |>.

Definition runtime_fuel_tune (s : t) : FuelRuntimeTune.t := provider_fuel_tune (provider s).
Definition set_expert_trigger_calibration (c : ExpertTriggerCalibration.t) (s : t) : t := s <| expert_trigger := c |>.
Definition take_written_pages (s : t) : t * option WrittenPageSet.t :=
  let '(r, taken) := PageWriteReporter.take_written_pages (page_writes s) in (s <| page_writes := r |>, taken).

Definition map_persist_err (r : Result unit KvPersistError.t) : Result unit PersistError.t :=
  match r with Ok _ => Ok tt | Err e => Err (calibration_persist_error_to_server_persist_error e) end.

Definition burn_package (package : Package.t) (s : t) : t * Result unit PersistError.t :=
  let '(kv', r) := burn_calibration_package package (kv s) in (s <| kv := kv' |>, map_persist_err r).

Definition read_expert_trigger (s : t) (out : list Z) : list Z * option nat :=
  ok_len (TsPages.encode_expert_trigger_page (expert_trigger_page_from_calibration (expert_trigger s)) out).
Definition write_expert_trigger (data : list Z) (s : t) : t * Result unit PageError.t :=
  let r :=
    let? proposed_page := map_page_err (decode_trusted_expert_trigger_page data) in
    let? proposed := map_page_err (expert_trigger_calibration_from_page proposed_page) in
    match validate_transition_from (expert_trigger s) proposed with Ok _ => Ok proposed | Err _ => Err PageError.Invalid end in
  match r with Ok proposed => (s <| expert_trigger := proposed |>, Ok tt) | Err e => (s, Err e) end.

Definition write_persisted_page (page : Z) (data : list Z) (s : t) : t * Result unit PageError.t :=
  if page =? PAGE_EXPERT_TRIGGER then write_expert_trigger data s
  else
    let '(pages, r) := write_page page data (pages s) in
    let s := put_pages pages s in
    (if is_ok r then s <| page_writes ::= PageWriteReporter.mark_page_write page |> else s, r).

Definition burn_store (s : t) : t * Result unit PersistError.t :=
  match burn_pages TABLE_PAGE_BYTES (pages s) TS_SETUP_PERSISTED_PAGES (kv s) with
  | (kv', Err e) => (s <| kv := kv' |>, Err (calibration_persist_error_to_server_persist_error e))
  | (kv', Ok _) =>
    let '(kv', r) := burn_expert_trigger_calibration (expert_trigger s) kv' in (s <| kv := kv' |>, map_persist_err r)
  end.

#[global] Instance store : PageStore t := {|
  page_len s page := if page =? PAGE_EXPERT_TRIGGER then Some EXPERT_TRIGGER_PAGE_BYTES else page_len (pages s) page;
  TsStore.read_page s page out :=
    if page =? PAGE_EXPERT_TRIGGER then read_expert_trigger s out else TsStore.read_page (pages s) page out;
  write_page := write_persisted_page;
  burn := burn_store; export_package_wire := export_unsupported; import_package_wire := import_unsupported |}.
End Store.
#[global] Arguments t : clear implicits.
End PersistedTsPageStore.

(** ** The session and the command store *)
Class CalibrationPackageSession (C : Type) := {
  session_export_current_package : Z -> Z -> C -> Package.t;
  session_import_candidate_package : Package.t -> Z -> Z -> C -> C * PackageApplyResult.t;
  session_apply_expert_trigger_page : list Z -> C -> C * Result unit PageError.t;
  session_expert_trigger_calibration : C -> ExpertTriggerCalibration.t }.

#[export] Instance edit_surface_session : CalibrationPackageSession CalibrationEditSurface.t := {|
  session_export_current_package := CalibrationEditSurface.export_current_package;
  session_import_candidate_package := CalibrationEditSurface.import_candidate_package;
  session_apply_expert_trigger_page data s :=
    let '(s, r) := CalibrationEditSurface.apply_expert_trigger_page data s in
    (s, match r with Ok _ => Ok tt | Err _ => Err PageError.Invalid end);
  session_expert_trigger_calibration := CalibrationEditSurface.expert_trigger_calibration |}.

Section Packages.
Context {P Pg KV C : Type} `{PageStoreProvider P Pg, KvStore KV, CalibrationPackageSession C}.
Abbreviation persisted := (PersistedTsPageStore.t P KV).

Definition export_and_burn_current_package (session : C) (build hw : Z) (s : persisted) : persisted * Result Package.t PersistError.t :=
  let package := session_export_current_package build hw session in
  match PersistedTsPageStore.burn_package package s with (s, Ok _) => (s, Ok package) | (s, Err e) => (s, Err e) end.

Definition export_current_package_wire (session : C) (build hw : Z) (out : list Z) : list Z * Result Z WireError.t :=
  Package.encode_wire out (session_export_current_package build hw session).

(** What an applied package sets in the store. *)
Definition sync_setup (result : PackageApplyResult.t) (session : C) (s : persisted) : persisted :=
  if PackageApplyResult.is_rejected result then s
  else PersistedTsPageStore.set_expert_trigger_calibration (session_expert_trigger_calibration session) s.

Definition try_load_and_import_package (build hw : Z) (session : C) (s : persisted) :
    C * persisted * option PackageApplyResult.t :=
  match PersistedTsPageStore.try_load_package s with
  | None => (session, s, None)
  | Some package =>
    let '(session, result) := session_import_candidate_package package build hw session in
    (session, sync_setup result session s, Some result)
  end.

Definition import_candidate_package_wire (data : list Z) (build hw : Z) (session : C) (s : persisted) :
    C * persisted * Result PackageApplyResult.t WireError.t :=
  match Package.decode_wire data with
  | Err e => (session, s, Err e)
  | Ok package =>
    let '(session, result) := session_import_candidate_package package build hw session in
    (session, sync_setup result session s, Ok result)
  end.
End Packages.

Definition compatibility_status_code (c : Compatibility.t) : CompatibilityStatusCode.t :=
  match c with
  | Compatibility.Compatible => CompatibilityStatusCode.Compatible
  | Compatibility.SchemaVersionMismatch _ _ => CompatibilityStatusCode.SchemaVersionMismatch
  | Compatibility.RuntimeBuildMismatch _ _ => CompatibilityStatusCode.RuntimeBuildMismatch
  | Compatibility.HardwareTargetMismatch _ _ => CompatibilityStatusCode.HardwareTargetMismatch
  end.

Definition compatibility_report_from_review (review : PackageReview.t) : CompatibilityInfoReport.t :=
  let package := PackageReview.package review in
  let '(expected_schema, actual_schema) :=
    match PackageReview.compatibility review with
    | Compatibility.SchemaVersionMismatch expected actual => (expected, actual)
    | _ => (SCHEMA_CURRENT, PackageIdentity.schema_version (TargetIdentity.package package))
    end in
  let '(expected_build, actual_build) :=
    match PackageReview.compatibility review with
    | Compatibility.RuntimeBuildMismatch expected actual => (expected, actual)
    | _ => (TargetIdentity.runtime_build_id package, TargetIdentity.runtime_build_id package)
    end in
  let '(expected_hw, actual_hw) :=
    match PackageReview.compatibility review with
    | Compatibility.HardwareTargetMismatch expected actual => (expected, actual)
    | _ => (TargetIdentity.hardware_target_id package, TargetIdentity.hardware_target_id package)
    end in
  CompatibilityInfoReport.mk (compatibility_status_code (PackageReview.compatibility review))
    (match PackageReview.migration review with
     | MigrationStatus.NoMigrationRequired => CompatibilityMigrationCode.None
     | MigrationStatus.MigrationRequired _ _ => CompatibilityMigrationCode.MigrationRequired
     end) expected_schema actual_schema expected_build actual_build expected_hw actual_hw.

Module TsPackageCommandStore.
Section Store.
Context {P Pg KV C : Type} `{PageStoreProvider P Pg, KvStore KV, CalibrationPackageSession C}.

Record t := mk { inner : PersistedTsPageStore.t P KV; session : C; runtime_build_id : Z; hardware_target_id : Z }.
#[global] Instance eta : Eta t := fun s => mk (inner s) (session s) (runtime_build_id s) (hardware_target_id s).

Definition new := mk.
Definition runtime_fuel_tune (s : t) : FuelRuntimeTune.t := PersistedTsPageStore.runtime_fuel_tune (inner s).
Definition take_written_pages (s : t) : t * option WrittenPageSet.t :=
  let '(i, taken) := PersistedTsPageStore.take_written_pages (inner s) in (s <| inner := i |>, taken).

Definition compatibility_report (s : t) : CompatibilityInfoReport.t :=
  let current_package := session_export_current_package (runtime_build_id s) (hardware_target_id s) (session s) in
  compatibility_report_from_review (Package.review_against (runtime_build_id s) (hardware_target_id s) current_package).

(** The store first, then the session: an error of the session leaves the store written. *)
Definition write_command_page (page : Z) (data : list Z) (s : t) : t * Result unit PageError.t :=
  match write_page page data (inner s) with
  | (i, Err e) => (s <| inner := i |>, Err e)
  | (i, Ok _) =>
    let s := s <| inner := i |> in
    if page =? PAGE_EXPERT_TRIGGER then
      let '(c, r) := session_apply_expert_trigger_page data (session s) in (s <| session := c |>, r)
    else (s, Ok tt)
  end.

Definition burn_command (s : t) : t * Result unit PersistError.t :=
  match burn (inner s) with
  | (i, Err e) => (s <| inner := i |>, Err e)
  | (i, Ok _) =>
    let '(i, r) := export_and_burn_current_package (session s) (runtime_build_id s) (hardware_target_id s) i in
    (s <| inner := i |>, match r with Ok _ => Ok tt | Err e => Err e end)
  end.

Definition export_command (s : t) (out : list Z) : list Z * Result nat PageError.t :=
  let '(out, r) := export_current_package_wire (session s) (runtime_build_id s) (hardware_target_id s) out in
  (out, match r with Ok n => Ok (Z.to_nat n) | Err _ => Err PageError.Invalid end).

Definition import_command (data : list Z) (s : t) : t * Result unit PageError.t :=
  let '(c, i, r) := import_candidate_package_wire data (runtime_build_id s) (hardware_target_id s) (session s) (inner s) in
  (s <| inner := i |> <| session := c |>,
   match r with
   | Ok result => if PackageApplyResult.is_rejected result then Err PageError.Invalid else Ok tt
   | Err _ => Err PageError.Invalid
   end).

#[global] Instance store : PageStore t := {|
  page_len s page := page_len (inner s) page; TsStore.read_page s page out := TsStore.read_page (inner s) page out;
  write_page := write_command_page; burn := burn_command;
  export_package_wire := export_command; import_package_wire := import_command |}.
End Store.
#[global] Arguments t : clear implicits.
End TsPackageCommandStore.
