(* ===== verification/TsBurn.v ===== *)
(** * What a burn keeps

    The theorems on [TsPersist]: what a burn keeps and what it answers, and what a restart
    restores of it, over every store that either keeps what it is given or refuses it unchanged
    ([RamKv.KvHonest]); what that comes to over the RAM stores, which keep everything, and over
    the flash store of the rp2040 ([FlashKv]), which refuses the trigger setup; and what the
    command store keeps of a setup it refuses. *)
From S2P Require Import Prelude Domain Bytes BoardApi ExpertTrigger Calibration KvStore RamKv Obd2History Obd2Snapshot FlashKv SemanticFuel TsPages TsCodecs TsStore TsServer TsSession TsPersist.

(** The setups that fit the page. *)
Lemma page_from_calibration_typed c : ExpertTrigger.typed c -> expert_page_typed (expert_trigger_page_from_calibration c).
Proof.
  intros (H1 & H2 & H3 & H4 & H5 & H6 & H7 & H8 & H9). unfold expert_page_typed, expert_trigger_page_from_calibration. cbn.
  split_and!; try done; apply (ExpertTrigger.code_byte (T := _)).
Qed.

(** ** The writes of a burn *)

(** Entries written one after another, up to the first that is refused. *)
Fixpoint write_all {KV} `{KvStore KV} (entries : list (list Z * list Z)) (kv : KV) : KV * Result unit KvError.t :=
  match entries with
  | [] => (kv, Ok tt)
  | (key, data) :: entries =>
    match kv_write kv key data with
    | (kv, Err e) => (kv, Err e)
    | (kv, Ok _) => write_all entries kv
    end
  end.

(** The first [n] entries are kept, and what was kept under other keys; the next was refused. *)
Lemma write_all_kept {KV room} `{KvHonest KV room} entries (kv kv' : KV) r :
  room (length entries) kv -> NoDup (map fst entries) -> Forall (fun e => bytes (snd e)) entries ->
  write_all entries kv = (kv', r) ->
  exists n, (n <= length entries)%nat /\ Forall (fun e => kept kv' (fst e) (snd e)) (take n entries)
  /\ (forall key data, ~ key ∈ map fst (take n entries) -> kept kv key data -> kept kv' key data)
  /\ match entries !! n with
     | None => r = Ok tt
     | Some (key, data) => exists e, r = Err e /\ kv_write kv' key data = (kv', Err e)
     end.
Proof.
  revert kv. induction entries as [|[key data] entries IH]; intros kv Hr Hnd Hb; cbn [write_all].
  { intros [= <- <-]. exists 0%nat. by repeat split. }
  cbn [map fst] in Hnd. apply NoDup_cons in Hnd as [Hni Hnd]. apply Forall_cons in Hb as [Hb Hbs]. cbn [snd] in Hb.
  destruct (kv_write kv key data) as [kv1 [[]|e]] eqn:Hw.
  - destruct (kv_write_kept _ _ _ _ _ Hr Hb Hw) as (Hk & Ho & Hr1). intros E.
    destruct (IH kv1 Hr1 Hnd Hbs E) as (n & Hn & Hkept & Hoth & Hnext). exists (S n). cbn [length take map fst lookup list_lookup].
    split; [lia|]. split; [|split; [|done]].
    + constructor; [|done]. cbn [fst snd]. apply Hoth; [|done]. intros Hin. apply Hni.
      revert Hin. rewrite !list_elem_of_fmap. intros (x & -> & Hx). exists x. split; [done|]. rewrite <- (take_drop n entries). apply elem_of_app. by left.
    + intros key' data' Hne Hk'. rewrite not_elem_of_cons in Hne. destruct Hne as [Hne1 Hne2]. by apply Hoth, Ho.
  - intros [= <- <-]. pose proof (kv_write_unchanged _ _ _ _ _ Hw) as ->. exists 0%nat. cbn [take map lookup list_lookup].
    split; [lia|]. split; [constructor|]. split; [done|]. by exists e.
Qed.

(** ** One page, and the next *)
Section Steps.
Context {S KV : Type} `{PageStore S, !KvStore KV}.
Implicit Types store : S.
Implicit Types kv : KV.

Lemma burn_page MAX spec specs store buf kv data :
  (PersistedPageSpec.len spec <= MAX)%nat ->
  TsStore.read_page store (PersistedPageSpec.page spec) (take (PersistedPageSpec.len spec) buf) = (data, Some (PersistedPageSpec.len spec)) ->
  burn_pages_loop MAX store (spec :: specs) buf kv =
  match kv_write kv (PersistedPageSpec.key spec) data with
  | (kv, Err e) => (kv, Err (kv_error_to_persist_error e))
  | (kv, Ok _) => burn_pages_loop MAX store specs (data ++ drop (PersistedPageSpec.len spec) buf) kv
  end.
Proof.
  intros Hm Hr. cbn [burn_pages_loop]. destruct (Nat.ltb_spec MAX (PersistedPageSpec.len spec)); [lia|].
  rewrite Hr. cbn [default]. by rewrite Nat.eqb_refl.
Qed.

Lemma load_page MAX spec store buf kv data :
  (PersistedPageSpec.len spec <= MAX)%nat -> length buf = MAX -> length data = PersistedPageSpec.len spec ->
  kept kv (PersistedPageSpec.key spec) data ->
  try_load_page MAX kv spec (store, buf)
  = (fst (write_page (PersistedPageSpec.page spec) data store), data ++ drop (PersistedPageSpec.len spec) buf).
Proof.
  intros Hm Hb Hl Hk. unfold try_load_page. destruct (Nat.ltb_spec MAX (PersistedPageSpec.len spec)); [lia|].
  rewrite Hk by (rewrite length_take; lia). rewrite Hl, Nat.eqb_refl, (drop_ge (take _ _)), app_nil_r by (rewrite length_take; lia).
  done.
Qed.

(** The setup. *)
Lemma burn_expert c kv : validate c = Ok tt ->
  burn_expert_trigger_calibration c kv =
  match kv_write kv PERSIST_KEY_EXPERT_TRIGGER (expert_page_bytes (expert_trigger_page_from_calibration c)) with
  | (kv, Err e) => (kv, Err (kv_error_to_persist_error e))
  | (kv, Ok _) => (kv, Ok tt)
  end.
Proof.
  intros Hv. unfold burn_expert_trigger_calibration.
  rewrite encode_expert_page_ok by (try apply validate_page_from; rewrite ?length_replicate; done).
  by rewrite drop_ge, app_nil_r by (by rewrite length_replicate).
Qed.

Lemma load_expert c kv : ExpertTrigger.typed c -> validate c = Ok tt ->
  kept kv PERSIST_KEY_EXPERT_TRIGGER (expert_page_bytes (expert_trigger_page_from_calibration c)) ->
  try_load_expert_trigger_calibration kv = Some c.
Proof.
  intros Ht Hv Hk. unfold try_load_expert_trigger_calibration.
  rewrite Hk by (by rewrite expert_page_bytes_length, length_replicate).
  rewrite expert_page_bytes_length, Nat.eqb_refl. cbn [negb]. rewrite drop_ge by (by rewrite length_replicate).
  unfold decode_trusted_expert_trigger_page, decode_expert_trigger_page_inner. rewrite app_nil_r, expert_page_bytes_length, Nat.eqb_refl.
  cbn [negb]. cbv zeta. pose proof (read_expert_page_back _ [] (page_from_calibration_typed c Ht)) as Hb. rewrite app_nil_r in Hb.
  rewrite Hb, validate_page_from by done. cbn [result_bind]. by rewrite calibration_from_page_from.
Qed.
End Steps.

(** ** A burn and a restart *)
Import EcuPageStore.

(** The bytes of the persisted pages. *)
Lemma table_read get s out : (forall s out, read s (fst get) out = ok_len (encode_table (snd get s) out)) ->
  square (snd get s) -> length out = TABLE_PAGE_BYTES -> read s (fst get) out = (table_bytes (snd get s), Some TABLE_PAGE_BYTES).
Proof.
  intros Hr Hs Hl. rewrite Hr, encode_table_ok by lia. unfold ok_len. cbn [fst snd].
  rewrite drop_ge, app_nil_r; [done|]. rewrite table_bytes_length; [lia|done].
Qed.

Lemma angles_read s out : angles_typed (angles_setup s) -> length out = ANGLES_PAGE_BYTES ->
  read s PAGE_ANGLES out = (angles_bytes (angles_setup s), Some ANGLES_PAGE_BYTES).
Proof.
  intros Ht Hl. change (read s PAGE_ANGLES out) with (ok_len (encode_angles_page (angles_setup s) out)).
  rewrite encode_angles_ok by lia. unfold ok_len. cbn [fst snd]. rewrite drop_ge, app_nil_r; [done|].
  rewrite angles_bytes_length; [lia|done].
Qed.

(** What is loaded: the two tables and the angles, over what was there. *)
Definition restored (kept_tune fresh : t) : t :=
  put_angles (angles_setup kept_tune) (fresh <| fuel := fuel kept_tune |> <| ign := ign kept_tune |>).

Definition persistable (s : t) : Prop := store_wf s /\ angles_valid (angles_setup s) = true.

Lemma write_persisted_fuel c s : table_wf u16 c -> square (fuel s) -> fst (write PAGE_FUEL (table_bytes c) s) = s <| fuel := c |>.
Proof. intros [Hs Hc] Hf. rewrite write_fuel_eq. by rewrite (decode_table_into_back rd_u16 u16 rd_u16_back c). Qed.
Lemma write_persisted_ign c s : table_wf i16 c -> square (ign s) -> fst (write PAGE_IGN (table_bytes c) s) = s <| ign := c |>.
Proof. intros [Hs Hc] Hf. rewrite write_ign_eq. by rewrite (decode_table_into_back rd_i16 i16 rd_i16_back c). Qed.
Lemma write_persisted_angles p s : angles_typed p -> angles_valid p = true -> fst (write PAGE_ANGLES (angles_bytes p) s) = put_angles p s.
Proof.
  intros Ht Hv. rewrite write_angles_eq.
  pose proof (codec_decode_bytes (PageCodec := angles_codec) p [] Ht Hv) as Hd. cbn [codec_bytes codec_len codec_decode angles_codec] in Hd.
  rewrite app_nil_r in Hd. by rewrite Hd by (by apply angles_bytes_length).
Qed.

Definition tune_kept {KV} `{KvStore KV} (kv : KV) (s : t) : Prop :=
  kept kv PERSIST_KEY_FUEL (table_bytes (fuel s)) /\ kept kv PERSIST_KEY_IGN (table_bytes (ign s))
  /\ kept kv PERSIST_KEY_ANGLES (angles_bytes (angles_setup s)).

(** What a burn writes, in order. *)
Definition tune_entries (s : t) : list (list Z * list Z) :=
  [(PERSIST_KEY_FUEL, table_bytes (fuel s)); (PERSIST_KEY_IGN, table_bytes (ign s));
   (PERSIST_KEY_ANGLES, angles_bytes (angles_setup s))].
Definition setup_entry (c : ExpertTriggerCalibration.t) : list Z * list Z :=
  (PERSIST_KEY_EXPERT_TRIGGER, expert_page_bytes (expert_trigger_page_from_calibration c)).

Section Burn.
Context {KV : Type} `{!KvStore KV}.

Lemma burn_tune (s : t) (kv : KV) : persistable s ->
  burn_pages TABLE_PAGE_BYTES s TS_SETUP_PERSISTED_PAGES kv =
  match write_all (tune_entries s) kv with
  | (kv, Ok _) => (kv, Ok tt)
  | (kv, Err e) => (kv, Err (kv_error_to_persist_error e))
  end.
Proof.
  intros [(([Hf _] & [Hi _] & _) & (_ & _ & _ & _ & _ & _ & _ & _ & _ & _ & Ha) & _) _].
  unfold burn_pages, TS_SETUP_PERSISTED_PAGES, tune_entries. cbn [write_all].
  set (buf := replicate TABLE_PAGE_BYTES 0). assert (length buf = TABLE_PAGE_BYTES) as Hb by apply length_replicate.
  assert (ANGLES_PAGE_BYTES <= TABLE_PAGE_BYTES)%nat as Hle by (apply Nat.leb_le; vm_compute; reflexivity).
  change (persisted_len PAGE_FUEL) with TABLE_PAGE_BYTES. change (persisted_len PAGE_IGN) with TABLE_PAGE_BYTES.
  change (persisted_len PAGE_ANGLES) with ANGLES_PAGE_BYTES.
  rewrite (burn_page TABLE_PAGE_BYTES (PersistedPageSpec.mk PAGE_FUEL PERSIST_KEY_FUEL TABLE_PAGE_BYTES) _ s buf kv (table_bytes (fuel s)));
    cbn [PersistedPageSpec.page PersistedPageSpec.key PersistedPageSpec.len];
    [|lia|apply (table_read (PAGE_FUEL, fuel)); [done|done|rewrite length_take; lia]].
  destruct (kv_write kv PERSIST_KEY_FUEL _) as [kv1 [[]|e]]; [|done]. rewrite (drop_ge buf), app_nil_r by lia.
  rewrite (burn_page TABLE_PAGE_BYTES (PersistedPageSpec.mk PAGE_IGN PERSIST_KEY_IGN TABLE_PAGE_BYTES) _
    s (table_bytes (fuel s)) kv1 (table_bytes (ign s)));
    cbn [PersistedPageSpec.page PersistedPageSpec.key PersistedPageSpec.len];
    [|lia|apply (table_read (PAGE_IGN, ign)); [done|done|rewrite length_take, table_bytes_length by done; lia]].
  destruct (kv_write kv1 PERSIST_KEY_IGN _) as [kv2 [[]|e]]; [|done].
  rewrite (drop_ge (table_bytes (fuel s))), app_nil_r by (rewrite table_bytes_length by done; lia).
  rewrite (burn_page TABLE_PAGE_BYTES (PersistedPageSpec.mk PAGE_ANGLES PERSIST_KEY_ANGLES ANGLES_PAGE_BYTES) []
    s (table_bytes (ign s)) kv2 (angles_bytes (angles_setup s)));
    cbn [PersistedPageSpec.page PersistedPageSpec.key PersistedPageSpec.len];
    [|lia|apply angles_read; [done|rewrite length_take, table_bytes_length by done; lia]].
  by destruct (kv_write kv2 PERSIST_KEY_ANGLES _) as [kv3 [[]|e]].
Qed.

Lemma load_tune (s fresh : t) (kv : KV) : persistable s -> store_wf fresh -> tune_kept kv s ->
  try_load_pages TABLE_PAGE_BYTES kv TS_SETUP_PERSISTED_PAGES fresh = restored s fresh.
Proof.
  intros [((Hf & Hi & _) & (_ & _ & _ & _ & _ & _ & _ & _ & _ & _ & Ha) & _) Hv] (([Hf' _] & [Hi' _] & _) & _) (K1 & K2 & K3).
  unfold try_load_pages, TS_SETUP_PERSISTED_PAGES. cbn [fold_left].
  set (buf := replicate TABLE_PAGE_BYTES 0). assert (length buf = TABLE_PAGE_BYTES) as Hb by apply length_replicate.
  assert (ANGLES_PAGE_BYTES <= TABLE_PAGE_BYTES)%nat as Hle by (apply Nat.leb_le; vm_compute; reflexivity).
  change (persisted_len PAGE_FUEL) with TABLE_PAGE_BYTES. change (persisted_len PAGE_IGN) with TABLE_PAGE_BYTES.
  change (persisted_len PAGE_ANGLES) with ANGLES_PAGE_BYTES.
  pose proof (table_bytes_length _ (proj1 Hf)) as L1. pose proof (table_bytes_length _ (proj1 Hi)) as L2.
  rewrite (load_page TABLE_PAGE_BYTES (PersistedPageSpec.mk PAGE_FUEL PERSIST_KEY_FUEL TABLE_PAGE_BYTES) _ _ _ (table_bytes (fuel s))) by done.
  cbn [PersistedPageSpec.page PersistedPageSpec.len]. rewrite (drop_ge buf), app_nil_r by lia.
  change (write_page PAGE_FUEL) with (write PAGE_FUEL). rewrite write_persisted_fuel by done.
  rewrite (load_page TABLE_PAGE_BYTES (PersistedPageSpec.mk PAGE_IGN PERSIST_KEY_IGN TABLE_PAGE_BYTES) _ _ _ (table_bytes (ign s))) by done.
  cbn [PersistedPageSpec.page PersistedPageSpec.len]. rewrite (drop_ge (table_bytes (fuel s))), app_nil_r by lia.
  change (write_page PAGE_IGN) with (write PAGE_IGN). rewrite write_persisted_ign by done.
  rewrite (load_page TABLE_PAGE_BYTES (PersistedPageSpec.mk PAGE_ANGLES PERSIST_KEY_ANGLES ANGLES_PAGE_BYTES) _ _ _ (angles_bytes (angles_setup s)))
    by (try done; by apply angles_bytes_length).
  cbn [PersistedPageSpec.page]. change (write_page PAGE_ANGLES) with (write PAGE_ANGLES). by rewrite write_persisted_angles.
Qed.
End Burn.

Lemma write_entries_app {KV} `{KvStore KV} a b (kv : KV) :
  write_all (a ++ b) kv = match write_all a kv with (kv, Ok _) => write_all b kv | (kv, Err e) => (kv, Err e) end.
Proof.
  revert kv. induction a as [|[key data] a IH]; intros kv; [done|]. cbn [app write_all].
  destruct (kv_write kv key data) as [kv1 [[]|e]]; [apply IH|done].
Qed.

Definition answer (r : Result unit KvError.t) : Result unit PersistError.t :=
  match r with
  | Ok _ => Ok tt
  | Err e => Err (calibration_persist_error_to_server_persist_error (kv_error_to_persist_error e))
  end.

Section Restart.
Context {P KV : Type} `{!PageStoreProvider P EcuPageStore.t, !PageStoreProviderLaws P EcuPageStore.t, !KvStore KV}.
Import PersistedTsPageStore.

Definition burn_entries (s : PersistedTsPageStore.t P KV) : list (list Z * list Z) :=
  tune_entries (pages s) ++ [setup_entry (expert_trigger s)].

Lemma burn_writes (s : PersistedTsPageStore.t P KV) : persistable (pages s) -> validate (expert_trigger s) = Ok tt ->
  burn s = let '(kv', r) := write_all (burn_entries s) (kv s) in (s <| kv := kv' |>, answer r).
Proof.
  intros Hp Hv. change (burn s) with (burn_store s). unfold burn_store, burn_entries.
  rewrite burn_tune, write_entries_app by done. destruct (write_all (tune_entries (pages s)) (kv s)) as [kv1 [[]|e]]; [|done].
  rewrite burn_expert by done. cbn [write_all setup_entry].
  by destruct (kv_write kv1 PERSIST_KEY_EXPERT_TRIGGER _) as [kv2 [[]|e]].
Qed.

Lemma burn_entries_bytes (s : PersistedTsPageStore.t P KV) : persistable (pages s) -> ExpertTrigger.typed (expert_trigger s) ->
  NoDup (map fst (burn_entries s)) /\ Forall (fun e => bytes (snd e)) (burn_entries s).
Proof.
  intros [(_ & (_ & _ & _ & _ & _ & _ & _ & _ & _ & _ & Ha) & _) _] Ht. split.
  - change (NoDup [PERSIST_KEY_FUEL; PERSIST_KEY_IGN; PERSIST_KEY_ANGLES; PERSIST_KEY_EXPERT_TRIGGER]).
    apply (bool_decide_unpack _). vm_compute. done.
  - unfold burn_entries, tune_entries, setup_entry. cbn [app].
    apply Forall_cons_2; [apply table_bytes_bytes|]. apply Forall_cons_2; [apply table_bytes_bytes|].
    apply Forall_cons_2; [by apply (codec_bytes_ok (PageCodec := angles_codec)) in Ha as [Ha _]|].
    apply Forall_cons_2; [|apply Forall_nil_2]. by apply expert_page_bytes_ok, page_from_calibration_typed.
Qed.

End Restart.

(** ** A burn on the flash store of the rp2040 *)
Section Flash.
Context {P : Type} `{!PageStoreProvider P EcuPageStore.t, !PageStoreProviderLaws P EcuPageStore.t}.
Import PersistedTsPageStore.

Lemma flash_writes_tune n kv (s : EcuPageStore.t) : room (3 + n) kv -> FlashKv.engine_running kv = false -> persistable s ->
  exists kv', write_all (tune_entries s) kv = (kv', Ok tt) /\ FlashKv.engine_running kv' = false.
Proof.
  intros Hr He [((Hf & Hi & _) & (_ & _ & _ & _ & _ & _ & _ & _ & _ & _ & Ha) & _) _].
  pose proof (table_bytes_length _ (proj1 Hf)) as L1. pose proof (table_bytes_length _ (proj1 Hi)) as L2.
  pose proof (angles_bytes_length _ Ha) as L3. unfold tune_entries. cbn [write_all].
  destruct (flash_accepts (2 + n) kv PERSIST_KEY_FUEL PageKey.Fuel (table_bytes (fuel s))) as (kv1 & -> & R1 & E1);
    [done|apply table_bytes_bytes|done|done|done|].
  destruct (flash_accepts (1 + n) kv1 PERSIST_KEY_IGN PageKey.Ign (table_bytes (ign s))) as (kv2 & -> & R2 & E2);
    [done|apply table_bytes_bytes|done|done|done|].
  destruct (flash_accepts n kv2 PERSIST_KEY_ANGLES PageKey.Angles (angles_bytes (angles_setup s))) as (kv3 & -> & R3 & E3);
    [done|by apply (codec_bytes_ok (PageCodec := angles_codec)) in Ha as [Ha _]|done|done|done|].
  by exists kv3.
Qed.

(** On the rp2040's flash a burn never succeeds.  While the engine runs it is refused and
    changes nothing.  While it stands, the three pages are kept and survive the restart, but
    the answer is an error and the trigger setup is lost: the restarted store keeps the one it
    was built with. *)
Theorem flash_burn_loses_setup (s : PersistedTsPageStore.t P FlashKv.t) :
  room 4 (kv s) -> persistable (pages s) -> ExpertTrigger.typed (expert_trigger s) -> validate (expert_trigger s) = Ok tt ->
  if FlashKv.engine_running (kv s) then burn s = (s, Err PersistError.EngineRunning)
  else exists burned, burn s = (burned, Err PersistError.Fail)
    /\ forall fresh : PersistedTsPageStore.t P FlashKv.t, kv fresh = kv burned -> store_wf (pages fresh) ->
       pages (try_load fresh) = restored (pages s) (pages fresh) /\ expert_trigger (try_load fresh) = expert_trigger fresh.
Proof.
  intros Hr Hp Ht Hv. rewrite (burn_writes s Hp Hv). destruct (FlashKv.engine_running (kv s)) eqn:He.
  { assert (write_all (burn_entries s) (kv s) = (kv s, Err KvError.EngineRunning)) as ->; [|by destruct s].
    unfold burn_entries, tune_entries. cbn [app write_all kv_write flash_kv].
    unfold FlashKv.write, FlashKv.persist_retained_history_rewrite. by rewrite He. }
  destruct (burn_entries_bytes s Hp Ht) as [Hnd Hb]. destruct (flash_writes_tune 1 (kv s) (pages s) Hr He Hp) as (kv1 & Hw & He1).
  unfold burn_entries. rewrite write_entries_app, Hw. cbn [write_all setup_entry].
  destruct (flash_refuses_setup kv1 (expert_page_bytes (expert_trigger_page_from_calibration (expert_trigger s)))) as (e & -> & ->).
  rewrite He1. eexists. split; [reflexivity|]. intros fresh Hkv Hwf. change (kv (s <| kv := kv1 |>)) with kv1 in Hkv.
  assert (NoDup (map fst (tune_entries (pages s)))) as Hnd' by (unfold burn_entries in Hnd; rewrite map_app in Hnd; by apply NoDup_app in Hnd as [Hnd _]).
  assert (Forall (fun e => bytes (snd e)) (tune_entries (pages s))) as Hb' by (unfold burn_entries in Hb; by apply Forall_app in Hb as [Hb _]).
  assert (room 3 (kv s)) as Hr3.
  { destruct Hr as (R1 & R2 & R3). split; [done|]. split; [done|]. destruct (FlashKv.scan (kv s)); lia. }
  destruct (write_all_kept (room := room) (tune_entries (pages s)) _ _ _ Hr3 Hnd' Hb' Hw) as (n & Hn & Hkept & _ & Hnext).
  assert (n = 3%nat) as ->.
  { cbn [length tune_entries] in Hn. unfold tune_entries in Hnext. destruct n as [|[|[|[|n]]]]; [..|done|lia]; by destruct Hnext as (e & ? & _). }
  unfold tune_entries in Hkept. cbn [take fst snd] in Hkept.
  apply Forall_cons in Hkept as [K1 Hkept]. apply Forall_cons in Hkept as [K2 Hkept]. apply Forall_cons in Hkept as [K3 _].
  unfold try_load. rewrite Hkv. assert (try_load_expert_trigger_calibration kv1 = None) as ->.
  { unfold try_load_expert_trigger_calibration. by destruct (flash_lacks_setup kv1 (replicate EXPERT_TRIGGER_PAGE_BYTES 0)) as (out & e & ->). }
  split; [|done]. rewrite (load_tune (pages s)) by (done || by split_and!). apply with_pages_mut_pages.
Qed.
End Flash.

(** ** A setup that the session refuses *)

(** The page of the store ignores its reserved bytes, the record of the session does not: a page
    with one set is written to the store and then refused. *)
Definition reserved_byte_set (data : list Z) : list Z := <[29%nat := 1]> data.

Module Plain.
(** The simplest owner of a tune. *)
Record t := mk { tune : EcuPageStore.t; fuel_tune : FuelRuntimeTune.t }.
#[global] Instance provider : PageStoreProvider t EcuPageStore.t := {|
  with_pages := tune; with_pages_mut pages p := mk pages (fuel_tune p); provider_fuel_tune := fuel_tune |}.
#[global] Instance laws : PageStoreProviderLaws t EcuPageStore.t.
Proof. by split. Qed.
End Plain.

Definition plain_tune : FuelRuntimeTune.t := sample_tune.
Definition plain_store : PersistedTsPageStore.t Plain.t RamKv512.t :=
  PersistedTsPageStore.new (Plain.mk default_store plain_tune) RamKv512.new.
Definition command_store : TsPackageCommandStore.t Plain.t RamKv512.t CalibrationEditSurface.t :=
  TsPackageCommandStore.mk plain_store (CalibrationEditSurface.new CalibrationSnapshot.default) 1 1.
(** The default setup with another angle. *)
Definition other_setup : list Z :=
  <[16%nat := 90]> (expert_page_bytes (expert_trigger_page_from_calibration ExpertTriggerCalibration.default)).

Lemma refused_setup_is_kept :
  let '(s, r) := write_page PAGE_EXPERT_TRIGGER (reserved_byte_set other_setup) command_store in
  r = Err PageError.Invalid
  /\ ExpertTriggerCalibration.trigger_angle_atdc_deg10 (PersistedTsPageStore.expert_trigger (TsPackageCommandStore.inner s)) = 90
  /\ TsPackageCommandStore.session s = TsPackageCommandStore.session command_store.
Proof. vm_compute. done. Qed.


(** Over the erased flash of an rp2040 it fails, and keeps the pages. *)
Definition flash_store : PersistedTsPageStore.t Plain.t FlashKv.t :=
  PersistedTsPageStore.new (Plain.mk default_store plain_tune) (FlashKv.mk Flash.blank false).

Lemma flash_burn_loses_setup_witness :
  exists burned, burn flash_store = (burned, Err PersistError.Fail)
  /\ forall fresh : PersistedTsPageStore.t Plain.t FlashKv.t,
       PersistedTsPageStore.kv fresh = PersistedTsPageStore.kv burned -> store_wf (PersistedTsPageStore.pages fresh) ->
       PersistedTsPageStore.pages (PersistedTsPageStore.try_load fresh) = restored (PersistedTsPageStore.pages flash_store) (PersistedTsPageStore.pages fresh)
       /\ PersistedTsPageStore.expert_trigger (PersistedTsPageStore.try_load fresh) = PersistedTsPageStore.expert_trigger fresh.
Proof.
  apply (flash_burn_loses_setup (P := Plain.t) flash_store).
  - split; [|split].
    + assert (sector_wf (replicate SECTOR 0xFF)) as Hw by (split; [by apply Forall_replicate|apply length_replicate]). by split.
    + vm_compute. exact I.
    + vm_compute. discriminate.
  - split; [exact default_store_wf|]. vm_compute. reflexivity.
  - vm_compute. repeat split; discriminate.
  - vm_compute. reflexivity.
Defined.
