(* ===== verification/TsBoard.v ===== *)
(** * The tuning server of a board

    The stores of [TsPersist] obey the laws that [TsServed] asks of a store, given those of the
    tune, of the session and of its owner: so the server may run over the store that a board
    gives it, with its persisted pages, its trigger setup and its packages. *)
From S2P Require Import Prelude Domain Bytes Serial BoardApi ExpertTrigger Calibration KvStore RamKv SemanticFuel TsPages TsCodecs TsStore TsServer TsServed TsSession TsPersist TsBurn.

(** A setup that fits its page and is valid. *)
Definition setup_ok (c : ExpertTriggerCalibration.t) : Prop := ExpertTrigger.typed c /\ validate c = Ok tt.

Lemma setup_of_page data c : bytes data ->
  expert_trigger_calibration_from_page (read_expert_page data) = Ok c -> setup_ok c.
Proof.
  intros Hb H. apply calibration_from_page_ok in H as [Hv E]. split; [|done].
  pose proof (read_expert_page_typed data Hb) as Ht. rewrite <- E in Ht.
  destruct Ht as ((? & ? & ? & ? & ?) & (? & ? & ? & ? & ? & ? & ? & ? & ?) & ? & ? & ? & ? & _).
  unfold expert_trigger_page_from_calibration in *. cbn in *. unfold ExpertTrigger.typed. split_and!; first [done | unfold i16 in *; lia].
Qed.

(** ** The persisted store *)
Section Persisted.
Context {P Pg KV : Type} `{!PageStore Pg, !PageStoreLaws Pg pages_wf, !PageStoreProvider P Pg, !PageStoreProviderLaws P Pg, !KvStore KV}.
Import PersistedTsPageStore.
Implicit Types s : PersistedTsPageStore.t P KV.

Definition persisted_wf (s : PersistedTsPageStore.t P KV) : Prop := pages_wf (pages s) /\ setup_ok (expert_trigger s).

Lemma put_pages_wf pg s : pages_wf pg -> setup_ok (expert_trigger s) -> persisted_wf (put_pages pg s).
Proof. intros Hp He. split; [|done]. change (pages (put_pages pg s)) with (with_pages (with_pages_mut pg (provider s))). by rewrite with_pages_mut_pages. Qed.

Lemma write_persisted_wf page data s : persisted_wf s ->
  (page = PAGE_EXPERT_TRIGGER -> bytes data) -> pages_wf (fst (write_page page data (pages s))) ->
  persisted_wf (fst (write_persisted_page page data s)).
Proof.
  intros [Hp He] Hb Hw. unfold write_persisted_page. destruct (Z.eqb_spec page PAGE_EXPERT_TRIGGER) as [E|E].
  - specialize (Hb E). unfold write_expert_trigger, decode_trusted_expert_trigger_page, decode_expert_trigger_page_inner. cbv zeta.
    destruct (negb _); [done|]. destruct (validate_expert_trigger_page _ _ _) as [[]|]; [|done].
    cbn [result_bind map_page_err]. destruct (expert_trigger_calibration_from_page (read_expert_page data)) as [c|] eqn:Ec; [|done].
    cbn [map_page_err result_bind]. destruct (validate_transition_from _ c); [|done]. split; [done|]. by apply (setup_of_page data).
  - destruct (write_page page data (pages s)) as [pg r]. cbn [fst] in *. destruct (put_pages_wf pg s Hw He) as [? ?]. by destruct r.
Qed.

Lemma read_setup_bytes s : setup_ok (expert_trigger s) -> bytes (fst (read_expert_trigger s (replicate EXPERT_TRIGGER_PAGE_BYTES 0))).
Proof.
  intros [Ht Hv]. unfold read_expert_trigger.
  rewrite encode_expert_page_ok by (try apply validate_page_from; rewrite ?length_replicate; done).
  rewrite drop_ge, app_nil_r by (by rewrite length_replicate). by apply expert_page_bytes_ok, page_from_calibration_typed.
Qed.

Lemma burn_keeps_tune s : pages (fst (burn_store s)) = pages s /\ expert_trigger (fst (burn_store s)) = expert_trigger s.
Proof.
  unfold burn_store. destruct (burn_pages _ _ _ _) as [kv1 [[]|e]]; [|done]. by destruct (burn_expert_trigger_calibration _ _).
Qed.

#[export] Instance persisted_store_laws : PageStoreLaws (PersistedTsPageStore.t P KV) persisted_wf.
Proof.
  split.
  - intros s page n. cbn. destruct (page =? PAGE_EXPERT_TRIGGER); [intros [= <-]; apply Nat.leb_le; vm_compute; reflexivity|apply page_len_room].
  - done.
  - intros s page n Hw. cbn. destruct (Z.eqb_spec page PAGE_EXPERT_TRIGGER) as [E|E].
    + intros [= <-]. left. by apply read_setup_bytes, Hw.
    + intros Hl. destruct (read_page_bytes (pages s) page n (proj1 Hw) Hl) as [Hr|Hr]; [by left|right].
      intros data. by apply write_persisted_wf.
  - intros s page data Hw Hb. apply write_persisted_wf; [done|done|]. apply write_page_wf; [apply Hw|done].
  - done.
  - intros s [Hp He]. change (burn s) with (burn_store s). destruct (burn_keeps_tune s) as [E1 E2]. unfold persisted_wf. by rewrite E1, E2.
Qed.
End Persisted.

(** ** The command store *)
Definition package_ok (p : Package.t) : Prop := setup_ok (Package.staged_expert p).

Class CalibrationPackageSessionLaws (C : Type) `{CalibrationPackageSession C} (wf : C -> Prop) := {
  session_setup_ok c : wf c -> setup_ok (session_expert_trigger_calibration c);
  session_apply_wf data c : wf c -> bytes data -> wf (fst (session_apply_expert_trigger_page data c));
  session_import_wf package build hw c : wf c -> package_ok package -> wf (fst (session_import_candidate_package package build hw c)) }.

Definition surface_wf (s : CalibrationEditSurface.t) : Prop := setup_ok (CalibrationEditSurface.expert_trigger_calibration s).

#[export] Instance edit_surface_laws : CalibrationPackageSessionLaws CalibrationEditSurface.t surface_wf.
Proof.
  split; [done|..].
  - intros data s Hw Hb. cbn. unfold CalibrationEditSurface.apply_expert_trigger_page, TsSession.apply_expert_trigger_page,
      TsSession.decode_expert_trigger_page.
    destruct (decode_record data) as [c|] eqn:Ed; [|done]. cbn [map_result_err result_bind].
    destruct (validate_transition_from _ c); [|done]. cbn [map_result_err result_bind fst].
    destruct (decode_record_ok data c Hb Ed) as (Ht & Hv & _). unfold CalibrationEditSurface.stage_expert_trigger.
    case_bool_decide; [done|]. unfold surface_wf, CalibrationEditSurface.expert_trigger_calibration.
    cbn. unfold StagedCalibration.replace_calibration. by case_bool_decide as E; [rewrite E|].
  - intros package build hw s Hw Hp. cbn. unfold CalibrationEditSurface.import_candidate_package, CalibrationEditSurface.apply_candidate_package.
    assert (forall p, package_ok p -> surface_wf (CalibrationEditSurface.take_package p s)) as Htake.
    { intros p Hok. unfold surface_wf, CalibrationEditSurface.take_package, CalibrationEditSurface.expert_trigger_calibration. cbn.
      unfold StagedCalibration.replace_calibration. case_bool_decide as E; cbn [negb]; [rewrite E|]; exact Hok. }
    unfold Package.migrate_against. destruct (_ || _); [done|]. destruct (_ =? _); by apply Htake.
Qed.

Section Command.
Context {P Pg KV C : Type} `{!PageStore Pg, !PageStoreLaws Pg pages_wf, !PageStoreProvider P Pg, !PageStoreProviderLaws P Pg, !KvStore KV,
  !CalibrationPackageSession C, !CalibrationPackageSessionLaws C session_wf}.
Import TsPackageCommandStore.
Implicit Types s : TsPackageCommandStore.t P KV C.

Definition command_wf (s : TsPackageCommandStore.t P KV C) : Prop := persisted_wf (pages_wf := pages_wf) (inner s) /\ session_wf (session s).

Lemma write_command_wf page data s : command_wf s -> bytes data ->
  persisted_wf (pages_wf := pages_wf) (fst (write_page page data (inner s))) -> command_wf (fst (write_command_page page data s)).
Proof.
  intros [_ Hc] Hb Hw. unfold write_command_page. destruct (write_page page data (inner s)) as [i [|e]]; [|done].
  destruct (page =? PAGE_EXPERT_TRIGGER); [|done]. pose proof (session_apply_wf data (session s) Hc Hb) as Ha.
  change (session (s <| inner := i |>)) with (session s). by destruct (session_apply_expert_trigger_page data (session s)).
Qed.

#[export] Instance command_store_laws : PageStoreLaws (TsPackageCommandStore.t P KV C) command_wf.
Proof.
  split.
  - intros s page n. apply (page_len_room (inner s)).
  - intros s buf n. cbn. unfold export_command, export_current_package_wire, Package.encode_wire.
    destruct (_ <? _)%nat; [done|].
    destruct (Package.encode_record_at Package.active_start _ _) as [? [?|?]]; [|done].
    destruct (Package.encode_record_at Package.staged_start _ _) as [? [?|?]]; [|done].
    intros [= _ <-]. apply Nat.leb_le. vm_compute. reflexivity.
  - intros s page n [Hw Hc] Hl. destruct (read_page_bytes (inner s) page n Hw Hl) as [Hr|Hr]; [by left|].
    destruct (Z.eqb_spec page PAGE_EXPERT_TRIGGER) as [->|E].
    + left. cbn in Hl. injection Hl as <-. by apply read_setup_bytes, Hw.
    + right. intros data. cbn. unfold write_command_page. specialize (Hr data). destruct (write_page page data (inner s)) as [i [|e]]; [|done].
      apply Z.eqb_neq in E. by rewrite E.
  - intros s page data Hw Hb. apply write_command_wf; [done|done|]. by apply write_page_wf; [apply Hw|].
  - intros s data [Hw Hc] Hb. cbn. unfold import_command, import_candidate_package_wire.
    destruct (Package.decode_wire data) as [p|] eqn:Ed; [|done].
    assert (package_ok p) as Hp.
    { destruct (decode_wire_ok data p Hb Ed) as ((_ & _ & _ & _ & _ & _ & _ & _ & _ & Hst) & _ & Hvs & _). by split. }
    pose proof (session_import_wf p (runtime_build_id s) (hardware_target_id s) (session s) Hc Hp) as Hi.
    destruct (session_import_candidate_package _ _ _ _) as [c result]. cbn [fst] in *. split; [|done].
    unfold sync_setup. destruct (PackageApplyResult.is_rejected result); [done|]. split; [apply Hw|by apply session_setup_ok].
  - intros s [Hw Hc]. cbn. unfold burn_command. pose proof (burn_wf (inner s) Hw) as Hb. destruct (burn (inner s)) as [i [[]|e]]; [|done].
    cbn [fst] in Hb. unfold export_and_burn_current_package, PersistedTsPageStore.burn_package.
    by destruct (burn_calibration_package _ _) as [kv' [|]].
Qed.
End Command.

(** ** The server over it *)
Import Server.

(** The tuning server of a board survives every sequence of frames, and its setup stays valid. *)
Lemma board_server_safe {P Pg KV C O : Type} `{OutpcProvider O, !PageStore Pg, !PageStoreLaws Pg pages_wf, !PageStoreProvider P Pg,
    !PageStoreProviderLaws P Pg, !KvStore KV, !CalibrationPackageSession C, !CalibrationPackageSessionLaws C session_wf}
    reqs (s : Server.t O (TsPackageCommandStore.t P KV C)) :
  command_wf (pages_wf := pages_wf) (session_wf := session_wf) (store s) -> Forall (fun q => bytes q.1) reqs ->
  exists s', serve_all reqs s = Some s' /\ setup_ok (PersistedTsPageStore.expert_trigger (TsPackageCommandStore.inner (store s')))
    /\ (engine_running (Server.provider s) = true -> store s' = store s).
Proof.
  intros Hw Hb. destruct (serve_all_ok (wf := command_wf) reqs s Hw Hb) as (s' & Hs & [[_ Hok] _] & _ & Hrun). by exists s'.
Qed.
